(* ===== verification/_CoqProject ===== *)
-Q . S2P
Prelude.v
GoTime.v
Decimal.v
RefDecimal.v
Types.v
Window.v
Stats.v
Market.v
Replay.v
Exec.v
ExecLoop.v
Twap.v
Vwap.v
Feed.v
Fred.v
Momentum.v
MomentumBacktest.v
Streams.v
OrderUpdates.v
GoFloat.v
Safety.v
Breakout.v
BreakoutBacktest.v
MeanReversion.v
MeanReversionBacktest.v
CopyTrading.v
CopyTradingBacktest.v
Service.v
Reconnect.v
TradeStream.v
GoStrings.v
Notifications.v
RateLimit.v
Cors.v
Concurrency.v
Secrets.v
HttpAuth.v
Json.v
JsonStruct.v
HttpRuns.v
HttpRunsOwner.v
HttpRunsOutcome.v
HttpRunsFaults.v
Base64.v
HttpDecisions.v
BatchingWriter.v
WsBroker.v
Lifecycle.v
HttpConfigs.v
BacktestRows.v
HttpBacktests.v
BacktestOutcomes.v
BacktestQueries.v
History.v
HistoryPages.v
AgentBacktest.v
WasmHost.v
WasmStarter.v
WasmReplay.v
AgentOutcomes.v
