(* ===== verification/Prelude.v ===== *)
(** * Bond trading strategies: a verification development

    The repository is a Go service that trades bonds on an order book.  A
    strategy looks at closed price bars and ticks, or at a schedule, and sends
    market orders; the same strategies can be replayed over history.  This
    library models the strategies and what they share, and proves what makes
    them correct.

    ** The parts and how they interact

    Candles reach a strategy through the candle registry, which closes them
    into bars ([Feed]); the bars feed rolling windows ([Window]); the strategy
    turns the windows into a decision, sizes an order and sends it through the
    market client ([Market]).  The execution strategies ([Twap], [Vwap])
    slice a fixed amount over a schedule instead; they keep a persisted list
    of their orders ([Exec]) which order events and reconciliation update.
    Copy trading ([CopyTrading]) has no market data: it repeats the trades of
    another user as they arrive.  The service ([Service]) starts, pauses and
    stops strategies and backtests.
    A backtest replays bars, and the trades between them ([Replay]), through
    the same decisions and condenses the closed trades with [Stats].  Order
    events of running strategies are routed to their users by [OrderUpdates],
    executed trades reach the strategies through [TradeStream], and what a
    user should hear of goes through the persisted log and the bus of
    [Notifications].  The loops that dial a remote service again share
    [Reconnect].  Requests pass [RateLimit], [Cors] and [HttpAuth].  The HTTP
    server decodes configurations ([HttpConfigs]), keeps the live runs
    ([HttpRuns]) and the backtests ([HttpBacktests]), both on top of [Service],
    writes the rows of backtests in batches ([BatchingWriter]) and shows them
    ([BacktestRows]) and the decisions of runs ([HttpDecisions]); stored keys
    are encrypted ([Secrets]).
    Generated strategies of the agent live as deployments ([Lifecycle]) that
    receive market data through [WsBroker], and their live orders pass the
    caps and the kill switch of [Safety].  They are tried on history first: a
    backtest ([WasmStarter]) reads the history tables page by page
    ([History]), merges the pages in time order ([Streams]), runs the strategy
    against the functions of a simulated host ([WasmHost]) and stores what
    came of it ([AgentBacktest]).

    - [Prelude]: errors, results, state with errors, tactics, list lemmas.
    - [GoTime]: 64-bit integers, durations and instants of Go.
    - [Decimal]: govalues/decimal is a library, so it is a class of operations
      ([DecimalOps]) with the documented behaviour as a class of laws
      ([DecimalLaws]): results are rounded to nineteen digits or overflow.
    - [RefDecimal]: a concrete implementation [RefDec] (half-even rounding)
      that satisfies the laws, used by the witnesses, and exact rational
      arithmetic [QDec], under which some theorems are stated exactly.
    - [Types]: strategy/types (signals, bars, true range).
    - [Window]: strategy/window/rolling.go.
    - [Stats]: strategy/stats (Sharpe, Summarise, writer rows).
    - [Market]: strategy/market_api.go, decision.go, messages.go, uuid.go and
      portfolio.go.  The outside world is a parameter: a record [Env] of
      operations over an abstract state [W]; [Sys] adds a log of the calls
      that change it, so that a theorem can say which orders were sent.
    - [Exec]: strategy/exec/exec.go: the persisted run state.
    - [ExecLoop]: what strategy/twap and strategy/vwap share: the select loop
      over an explicit list of events, placing a slice, checkpointing.
    - [Twap], [Vwap]: strategy/twap and strategy/vwap.
    - [Feed]: strategy/barfeed.go and candle_registry.go.
    - [Fred]: fred/benchmark.go, tenor.go and the benchmark cache of
      strategy/momentum/historical_data.go.
    - [Momentum], [MomentumBacktest]: strategy/momentum, live and backtest.
    - [Replay]: what the backtests of breakout and mean reversion share: the
      cursor over the recorded trades, fills, costs and the coverage of ticks.
    - [Breakout], [BreakoutBacktest]: strategy/breakout, live and backtest.
    - [MeanReversion], [MeanReversionBacktest]: strategy/meanreversion.
    - [CopyTrading], [CopyTradingBacktest]: strategy/copytrading: the live
      loop over copied trades; the batched history and its simulation.
    - [Service]: strategy/service.go.
    - [Streams]: internal/agent/backtest/pagestream.go and mergestream.go.
    - [OrderUpdates]: notifications/orderupdates (filter.go, run_cache.go and
      manager.go).
    - [Safety]: internal/agent/safety/caps.go.
    - [Reconnect]: the loops that dial again after a pause: streams/
      trade_stream.go, notifications/client.go and notifications/
      orderupdates/stream.go, as instances of one class [Backoff].
    - [TradeStream]: streams/trade_stream.go.
    - [GoStrings]: the functions of package strings the next parts use.
    - [Notifications]: notifications (log.go, notifier.go, hub.go, handler.go).
    - [RateLimit]: ratelimit/ratelimit.go.
    - [Cors]: cors/cors.go.
    - [Concurrency]: goroutines as programs of critical sections over a shared
      state, every interleaving of them, and a rely-guarantee logic, with
      tokens for what a goroutine owns; used by the parts below.
    - [Secrets]: internal/secrets and internal/agent/secrets; AES-GCM is the
      class [AEAD].
    - [HttpAuth]: authctx and strategy/http/auth.go.
    - [Json], [JsonStruct], [GoFloat], [Base64]: what the server uses of
      encoding/json (values, a codec of structs), of float64 and of base64.
    - [HttpRuns]: strategy/http/handler.go, notify.go and run_store.go for
      live runs, with the theorems in [HttpRunsOwner] (to whom a run belongs),
      [HttpRunsOutcome] (what it is reported with) and [HttpRunsFaults].
    - [HttpBacktests]: handler.go for backtests, with the theorems in
      [BacktestOutcomes] and [BacktestQueries].
    - [BacktestRows]: backtest_store.go: rows, pages and responses.
    - [HttpConfigs]: handler.go: the configurations of the strategies.
    - [HttpDecisions]: decision_store.go and its handler.
    - [BatchingWriter]: batching_writer.go and scoped_writer.go.
    - [WsBroker]: internal/agent/wsbroker/broker.go.
    - [Lifecycle]: internal/agent/orchestrator (lifecycle.go, restart.go) and
      internal/agent/deployment.
    - [History], [HistoryPages]: internal/agent/store (history.go and
      history_store.go): the tables, the SQL and the cursors; walking them.
    - [AgentBacktest]: internal/agent/backtest: backtest.go, validate.go,
      summary.go, poll.go, janitor.go and the tables of postgres.go.
    - [WasmHost]: the host functions of internal/agent/backtest/wasm_starter.go
      and wasmruntime/registry/hostmodule.go.
    - [WasmStarter]: the rest of wasm_starter.go, orchestrator.go, and the
      backtests of httpapi/job_handlers.go and tools/backtest/cancel_tool.go,
      with the theorems in [WasmReplay] (what a strategy sees) and
      [AgentOutcomes] (what a backtest is reported with).

    ** How code corresponds to definitions

    A definition has the name of the Go function it translates; the struct a
    method hangs on is a record passed and returned.  A function returning an
    error is a [result]; a method that can fail half way is a state function
    [SE] that keeps what was assigned before the failure.  A [select] loop is
    a step function on an inductive type of events, run over any list of
    events, so an interleaving is a list.  Go's map iteration is a list in an
    arbitrary order.  Where one goroutine runs a loop its mutexes are left out.
    Where goroutines race ([Streams], [OrderUpdates], [Service],
    [TradeStream], [Notifications]) the state holds every goroutine's program
    point and its channels, a step is one channel or mutex operation, and the
    theorems hold for every order of the steps.  The handlers of the HTTP
    server and the agent's deployments are programs of [Concurrency]: the code
    between two lock operations is one action, the choices of the environment
    (does the database answer, which case of a select) come with each step.
    Logging is not modelled, and a logger is taken to be configured; the free
    text of a decision row is left out.

    ** What the theorems show

    - [Window]: the buffer holds the last [n] values; the sum is exact on a
      decimal grid; the incremental mean and variance equal the textbook ones
      over exact arithmetic; a failing [Add] stays inside the buffer.
    - [Stats]: Summarise counts wins and losses and buckets by day as the
      definition says; the drawdown is the maximum over the equity curve.
    - [Exec]: the filled total equals the sum over settled orders through
      updates and reconciliation; what placing an order records; two concrete
      runs where the accounting fails.
    - [Twap], [Vwap]: chunks lie in the window and within the remainder, one
      order per slot, fills never exceed the amount, the last write of the
      state carries the state in memory, the volume schedule adds up.
    - [Feed]: closed bars have increasing starts and are the last candle of
      each start; an upstream stream lives exactly while it has subscribers;
      a subscriber gets cached bars and then what fits its channel.
    - [Fred]: the cached yield is the latest observation not after the date.
    - [Momentum]: bounds and exposure of an order; exits on the right side of
      the entry; outcomes of a close; what an event may send; the open signal
      is the sign of the position.
    - [MomentumBacktest]: entries and exits pair up, inside the window, never
      backwards in time; fills lie in the bar; stops never gain.
    - [Replay], [Breakout], [BreakoutBacktest]: a signal needs its confirmed
      closes beyond the trigger and rearms; what an event may send, and that a
      paused strategy sends nothing; an entry is the whole bonds that the
      equity buys; the exits of ticks and bars agree.
    - [MeanReversion], [MeanReversionBacktest]: the score is the textbook
      z-score against the window before the bar; the live state stays well
      formed; what an event may send; exits of a backtest follow their entries
      and the balances of consecutive entries form a chain.
    - [CopyTrading], [CopyTradingBacktest]: the size and side of a copied
      order; the decision rows are the accepted orders in order; the batched
      stream delivers every trade of the window once and terminates; the
      exposure stays under the cap; the profit of a closed short.
    - [Service]: the registry is the set of live runs; a message is received
      once by the run it was meant for; when a waiting caller can return.
    - [Streams]: whatever the interleaving, the events delivered are a prefix
      of one list, the merge by time of the three sources ([merges]);
      prefetching stays one page ahead; a blocked picker can be woken.
    - [OrderUpdates]: only the owner of an active run gets its updates, and
      the ids the strategies build are recognised; reconciliation makes the
      cache agree with the store; a call that waits for a grace goroutine
      completes; two runs in which the grace period goes wrong.
    - [Safety]: an allowed order respects the caps; a halt holds until the
      user is resumed; what a failing database does to both.
    - [Reconnect]: the pauses of every reconnecting loop stay in their bounds
      and start over after a connection that worked.
    - [TradeStream]: a subscriber receives only the trades of its book, in
      order, and only while it is subscribed.
    - [Notifications]: a client receives only its own user's notifications;
      what is published while it is connected reaches it unless its channel is
      full, and what was logged before is replayed up to the stated limits.
    - [RateLimit], [Cors]: evicting a cached limiter or tier is invisible to
      the caller; which origins are granted access.
    - [Secrets], [HttpAuth]: what was encrypted decrypts to itself and to
      nothing under another key; a request passes with the user it proves.
    - [HttpRunsOwner], [HttpRunsOutcome], [HttpRunsFaults]: orders of a run go
      to its owner's account, over any number of lives of the server; requests
      leave the runs of others alone; the reported outcome is the one the
      strategy returned; concrete races.
    - [BacktestOutcomes], [BacktestQueries]: the same for backtests, in memory
      and field by field in their rows; the pages of a listing are complete; a
      restored running backtest never ends.
    - [BacktestRows]: the pages of the trades of a backtest are its rows; the
      members of a response hold what was recorded.
    - [HttpConfigs]: a stored configuration decodes to itself; an accepted one
      has its parameters in range, for all six strategies.
    - [HttpDecisions]: walking the cursor gives every decision once, newest
      first; the cursor codec is lossless.
    - [BatchingWriter]: a backtest that succeeds has all its rows stored, in
      order, however the ticker interleaves.
    - [WsBroker]: a closed candle is delivered once; dispatch reaches exactly
      the subscriptions of a book.
    - [Lifecycle]: a deployment that ends has released what it subscribed to;
      the restart budget; a failed deployment is not restarted in process.
    - [HistoryPages], [WasmReplay]: following the cursors gives every row of
      a window once, candles as [candle_history] says what they are of their
      minutes; the preamble and the replayed events are the history of their
      windows in the order of time, orders are filled against the last candle
      delivered, and the host writes only where the strategy said.
    - [AgentBacktest], [AgentOutcomes]: an accepted request is sensible, the
      summary counts, polling ends; a user has one active backtest, a
      succeeded one ran to its end before its context ended and shows its
      fills, a cancelled one was cancelled by its owner; runs in which a
      cancelled one stays running, or is reported succeeded.

    Theorems about behaviour the code probably does not intend are stated in
    the file of their component, in general where the fault is one of every
    run and as a concrete run evaluated by the kernel otherwise.

    ** Fuel

    Some loops need fuel.  The binary search of [Fred] runs on the length of
    the slice, which bounds its steps (its specification lemma holds for every
    slice).  The day loop of [Stats] runs on the whole days between its
    bounds plus two, and its specification lemma shows that every day is
    produced.  The batch loop of [CopyTradingBacktest] runs on the number of
    full batches plus one, and its theorem shows the whole stream delivered.
    The walk of [HttpDecisions] runs on the number of rows plus one.  The
    goroutine of [BatchingWriter] takes as many ticks as the environment says.
    The page loop [fetchAll] of [WasmStarter] runs on a number of pages; its
    theorem in [WasmReplay] shows that the number of rows plus one is enough.
    The chunks of the REST fallback run on fuel too; 351 are enough for every
    window a request may have.  The polling of [AgentBacktest] runs on the
    rounds the environment gives, and its theorem bounds them.
    [QDec]'s square root is rounded down to nineteen decimals.

    ** Not modelled

    Dialling and accepting websockets, the MCP server, the DORA clients, the
    stores of prices and candles and their handlers, and the commands are input
    and output or glue: the models see them through parameters and the choices
    of the environment.  Of the agent, the WebAssembly runtime, the host of
    live modules (livehost.go), the order broker's transport, the language-
    model tools other than cancelling a backtest, and the HTTP API other than
    that of backtests are not modelled.  SQL is modelled where its
    conditions matter, as filters and sorts of a table; transactions, JSONB
    normalisation and connection failures are not.  Memory races inside what
    the models treat as one action are noted as findings, not modelled. *)

From stdpp Require Export base tactics option list numbers strings gmap sorting.
From Stdlib Require Export ZArith QArith Qabs Qround Qminmax Lqa Lia.
#[global] Open Scope Z_scope.

(** ** Errors and results

    A Go function returning [(T, error)] is modelled by [result T].  Error
    values are compared by the code only for nil-ness, so an error carries
    just a message, possibly wrapped as by [fmt.Errorf "...: %w"]. *)

Inductive error :=
  | ErrMsg (msg : string)
  | ErrWrap (ctx : string) (inner : error).

Inductive result (A : Type) :=
  | Ok (a : A)
  | Err (e : error).
Arguments Ok {A} a.
Arguments Err {A} e.

#[export] Instance result_ret : MRet result := fun A a => Ok a.
#[export] Instance result_bind : MBind result := fun A B f r =>
  match r with Ok a => f a | Err e => Err e end.

Definition is_ok {A} (r : result A) : bool :=
  match r with Ok _ => true | Err _ => false end.

Definition result_map {A B} (f : A -> B) (r : result A) : result B :=
  match r with Ok a => Ok (f a) | Err e => Err e end.

(** [x, _ = f()]: the error is dropped and the value that came with it kept;
    [zero] is the value that accompanies an error. *)
Definition or_zero {A} (zero : A) (r : result A) : A :=
  match r with Ok a => a | Err _ => zero end.

Definition wrap_err {A} (ctx : string) (r : result A) : result A :=
  match r with Ok a => Ok a | Err e => Err (ErrWrap ctx e) end.

(** ** State with errors

    A method on a Go pointer receiver that returns an error: the receiver
    keeps whatever was assigned before the failing statement, so the state is
    returned next to the result, not inside it. *)

Definition SE (S A : Type) : Type := S -> result A * S.

#[export] Instance SE_ret S : MRet (SE S) := fun A a s => (Ok a, s).
#[export] Instance SE_bind S : MBind (SE S) := fun A B f m s =>
  match m s with
  | (Ok a, s') => f a s'
  | (Err e, s') => (Err e, s')
  end.

Definition lift {S A} (r : result A) : SE S A := fun s => (r, s).
Definition gets {S A} (f : S -> A) : SE S A := fun s => (Ok (f s), s).
Definition modify {S} (f : S -> S) : SE S unit := fun s => (Ok tt, f s).

(** [s.f, err = op(); if err != nil { return err }]: the assignment happens
    before the check, so on failure the field holds the zero value. *)
Definition assign {S A} (zero : A) (set : A -> S -> S) (r : result A) : SE S unit :=
  fun s => match r with
           | Ok v => (Ok tt, set v s)
           | Err e => (Err e, set zero s)
           end.

(** A method on a pointer receiver that cannot fail. *)
Definition ST (S A : Type) : Type := S -> A * S.

#[export] Instance ST_ret S : MRet (ST S) := fun A a s => (a, s).
#[export] Instance ST_bind S : MBind (ST S) := fun A B f m s => let '(a, s') := m s in f a s'.

(** Running closed programs: success is a boolean that can be computed. *)
Lemma SE_ok_run {S} (m : SE S unit) s : is_ok (m s).1 = true -> m s = (Ok tt, (m s).2).
Proof. destruct (m s) as [[[]|] s']; simpl; [done | discriminate]. Qed.

Definition get_ok {A} (d : A) (r : result A) : A := match r with Ok a => a | Err _ => d end.

Lemma is_ok_get {A} (d : A) (r : result A) : is_ok r = true -> r = Ok (get_ok d r).
Proof. destruct r; simpl; [done | discriminate]. Qed.

Lemma result_bind_Ok {A B} (r : result A) (f : A -> result B) b :
  (r ≫= f) = Ok b <-> exists a, r = Ok a /\ f a = Ok b.
Proof.
  destruct r as [a|e]; split; simpl.
  - intros H; by exists a.
  - intros (a' & [= <-] & H). exact H.
  - discriminate.
  - intros (a' & [=] & _).
Qed.

Lemma SE_bind_Ok {S A B} (m : SE S A) (f : A -> SE S B) s b s' :
  (m ≫= f) s = (Ok b, s') <-> exists a s1, m s = (Ok a, s1) /\ f a s1 = (Ok b, s').
Proof.
  unfold mbind, SE_bind. destruct (m s) as [[a|e] s1] eqn:E; split.
  - intros H; by exists a, s1.
  - intros (a' & s1' & [= <- <-] & H). exact H.
  - discriminate.
  - intros (a' & s1' & [=] & _).
Qed.

Lemma SE_bind_inv {S A B} (P : S -> Prop) (m : SE S A) (f : A -> SE S B) s :
  P (m s).2 -> (forall a s1, P s1 -> P (f a s1).2) -> P ((m ≫= f) s).2.
Proof.
  unfold mbind, SE_bind. intros Hm Hf. destruct (m s) as [[a|e] s1]; simpl in *; auto.
Qed.

(** ** Tactics *)

Create HintDb verif.

(** Split a chain of successful results in the hypotheses. *)
Ltac inv_ok :=
  repeat match goal with
  | H : context [mret (M:=result) _] |- _ => unfold mret, result_ret in H
  | H : Err _ = Ok _ |- _ => discriminate H
  | H : Ok _ = Err _ |- _ => discriminate H
  | H : Ok _ = Ok _ |- _ => injection H as H; try subst
  | H : mbind (M:=result) _ _ = Ok _ |- _ =>
      let a := fresh "a" in let Ha := fresh "Ha" in
      apply result_bind_Ok in H; destruct H as (a & Ha & H)
  | H : (Ok _, _) = (Ok _, _) |- _ => injection H as H; try subst
  | H : (Err _, _) = (Ok _, _) |- _ => discriminate H
  | H : wrap_err _ ?r = Ok _ |- _ =>
      let E := fresh "E" in destruct r eqn:E; simpl in H
  end.

(** Case analysis on the innermost [match] scrutinee of the goal. *)
Ltac split_match :=
  repeat match goal with
  | |- context [match ?x with _ => _ end] =>
      lazymatch x with
      | context [match _ with _ => _ end] => fail
      | _ => destruct x eqn:?
      end
  end.

Ltac split_match_in H :=
  repeat match type of H with
  | context [match ?x with _ => _ end] =>
      lazymatch x with
      | context [match _ with _ => _ end] => fail
      | _ => destruct x eqn:?; try discriminate H
      end
  end.

(** Follow the successful branch of a chain of fallible calls in [H]. *)
Ltac chase_ok H :=
  repeat (match type of H with
          | context [match ?x with Ok _ => _ | Err _ => _ end] =>
              lazymatch x with
              | context [match _ with _ => _ end] => fail
              | _ => destruct x eqn:?
              end
          end; simpl in H; try discriminate H).

(** Unfold the state-with-errors combinators. *)
Ltac run_SE :=
  unfold lift, gets, modify, assign, mbind, mret, SE_bind, SE_ret in *; simpl in *.

(** Boolean tests of the code turned into propositions. *)
Ltac bool_prop :=
  repeat match goal with
  | H : (_ && _)%bool = true |- _ => apply andb_prop in H; destruct H
  | H : (_ && _)%bool = false |- _ => apply andb_false_iff in H
  | H : (_ || _)%bool = true |- _ => apply orb_prop in H
  | H : (_ || _)%bool = false |- _ => apply orb_false_elim in H; destruct H
  | H : negb _ = true |- _ => apply negb_true_iff in H
  | H : negb _ = false |- _ => apply negb_false_iff in H
  | H : (_ <? _)%Z = true |- _ => apply Z.ltb_lt in H
  | H : (_ <? _)%Z = false |- _ => apply Z.ltb_ge in H
  | H : (_ <=? _)%Z = true |- _ => apply Z.leb_le in H
  | H : (_ <=? _)%Z = false |- _ => apply Z.leb_gt in H
  | H : (_ =? _)%Z = true |- _ => apply Z.eqb_eq in H
  | H : (_ =? _)%Z = false |- _ => apply Z.eqb_neq in H
  | H : (_ <? _)%nat = true |- _ => apply Nat.ltb_lt in H
  | H : (_ <? _)%nat = false |- _ => apply Nat.ltb_ge in H
  | H : (_ <=? _)%nat = true |- _ => apply Nat.leb_le in H
  | H : (_ <=? _)%nat = false |- _ => apply Nat.leb_gt in H
  | H : (_ =? _)%nat = true |- _ => apply Nat.eqb_eq in H
  | H : (_ =? _)%nat = false |- _ => apply Nat.eqb_neq in H
  end.

(** ** Reachability *)

Section Star.
Context {A : Type} (R : A -> A -> Prop).

Inductive star : A -> A -> Prop :=
  | star_refl a : star a a
  | star_step a b c : R a b -> star b c -> star a c.

(** A predicate kept by every step is kept by every run. *)
Lemma star_invariant (P : A -> Prop) :
  (forall a b, R a b -> P a -> P b) -> forall a b, star a b -> P a -> P b.
Proof. intros HR a b Hs. induction Hs; eauto. Qed.
End Star.

(** ** Lists *)

Definition lastn {A} (n : nat) (l : list A) : list A := drop (length l - n) l.

Lemma lastn_all {A} (n : nat) (l : list A) : (length l <= n)%nat -> lastn n l = l.
Proof. intros H. unfold lastn. replace (length l - n)%nat with 0%nat by lia. done. Qed.

Lemma length_lastn {A} (n : nat) (l : list A) : length (lastn n l) = Nat.min n (length l).
Proof. unfold lastn. rewrite length_drop. lia. Qed.

(** Only the last [n] elements of a prefix can be among the last [n] later. *)
Lemma lastn_lastn_app {A} (n : nat) (l : list A) x (k : list A) :
  lastn n (lastn n (l ++ [x]) ++ k) = lastn n (l ++ x :: k).
Proof.
  replace (l ++ x :: k) with ((l ++ [x]) ++ k) by (by rewrite <- app_assoc).
  generalize (l ++ [x]) as l1. intros l1. unfold lastn.
  rewrite !length_app, length_drop.
  rewrite (drop_app l1 k), (drop_app (drop _ l1) k), drop_drop, length_drop.
  f_equal; f_equal; lia.
Qed.

Lemma Qsquare_nonneg (a : Q) : (0 <= a * a)%Q.
Proof. destruct a as [n d]. unfold Qle, Qmult. simpl. nia. Qed.

Definition qsum (l : list Q) : Q := foldr Qplus 0%Q l.

Lemma qsum_cons x l : qsum (x :: l) = (x + qsum l)%Q.
Proof. done. Qed.

Lemma qsum_app l k : (qsum (l ++ k) == qsum l + qsum k)%Q.
Proof. induction l as [|x l IH]; simpl; [lra | rewrite IH; lra]. Qed.

