(* ===== verification/GoTime.v ===== *)
(** * Machine integers, durations and instants of the Go standard library

    [int] and [time.Duration] are 64-bit; [time.Time] is an instant together
    with the zone it is displayed in. *)

From S2P Require Import Prelude.

(** ** 64-bit integers *)

Definition int64_min : Z := - 2 ^ 63.
Definition int64_max : Z := 2 ^ 63 - 1.
Definition wrap64 (z : Z) : Z := (z + 2 ^ 63) mod 2 ^ 64 - 2 ^ 63.
Definition sat64 (z : Z) : Z := Z.max int64_min (Z.min int64_max z).

Definition in_int64 (z : Z) : Prop := int64_min <= z <= int64_max.

Lemma wrap64_small z : in_int64 z -> wrap64 z = z.
Proof.
  unfold in_int64, int64_min, int64_max, wrap64. intros H.
  rewrite Z.mod_small; lia.
Qed.

Lemma wrap64_range z : in_int64 (wrap64 z).
Proof.
  unfold in_int64, int64_min, int64_max, wrap64.
  pose proof (Z.mod_pos_bound (z + 2 ^ 63) (2 ^ 64) ltac:(lia)). lia.
Qed.

Lemma sat64_small z : in_int64 z -> sat64 z = z.
Proof. unfold in_int64, sat64, int64_min, int64_max. lia. Qed.

(** ** Durations, in nanoseconds *)

Definition Second : Z := 10 ^ 9.
Definition Minute : Z := 60 * Second.
Definition Hour : Z := 60 * Minute.
Definition Day : Z := 24 * Hour.

(** Multiplication of durations wraps like any [int64] product. *)
Definition dur_mul (a b : Z) : Z := wrap64 (a * b).

(** ** Instants

    [t_ns] counts nanoseconds from Go's zero time, 0001-01-01T00:00:00Z, so
    that the zero [time.Time] is [0]; [t_off] is the zone offset in
    nanoseconds east of UTC. *)

Record Time := MkTime { t_ns : Z; t_off : Z }.

#[export] Instance Time_eq_dec : EqDecision Time.
Proof. solve_decision. Defined.

Definition zero_time : Time := MkTime 0 0.
Definition time_is_zero (t : Time) : bool := t_ns t =? 0.
Definition time_before (a b : Time) : bool := t_ns a <? t_ns b.
Definition time_after (a b : Time) : bool := t_ns b <? t_ns a.
Definition time_add (t : Time) (d : Z) : Time := MkTime (t_ns t + d) (t_off t).
(** [Time.Sub] saturates at the ends of the duration range. *)
Definition time_sub (a b : Time) : Z := sat64 (t_ns a - t_ns b).
Definition time_utc (t : Time) : Time := MkTime (t_ns t) 0.
(** [Time.Truncate] rounds towards the zero time; [d <= 0] leaves [t] alone. *)
Definition time_truncate (t : Time) (d : Z) : Time :=
  if d <=? 0 then t else MkTime (t_ns t - t_ns t mod d) (t_off t).

(** The civil clock reading in the instant's own zone. *)
Definition local_ns (t : Time) : Z := t_ns t + t_off t.
Definition time_hour (t : Time) : Z := local_ns t mod Day / Hour.
Definition time_minute (t : Time) : Z := local_ns t mod Hour / Minute.
(** The calendar date in the instant's zone, as the number of days since
    0001-01-01.  [Format("2006-01-02")] is injective on it. *)
Definition time_date (t : Time) : Z := local_ns t / Day.

Lemma time_hour_bound t : 0 <= time_hour t < 24.
Proof.
  unfold time_hour. pose proof (Z.mod_pos_bound (local_ns t) Day ltac:(done)).
  split; [apply Z.div_pos; [lia | done] |].
  apply Z.div_lt_upper_bound; [done | unfold Day in *; lia].
Qed.

Lemma time_minute_bound t : 0 <= time_minute t < 60.
Proof.
  unfold time_minute. pose proof (Z.mod_pos_bound (local_ns t) Hour ltac:(done)).
  split; [apply Z.div_pos; [lia | done] |].
  apply Z.div_lt_upper_bound; [done | unfold Hour in *; lia].
Qed.

Lemma time_truncate_le t d : t_ns (time_truncate t d) <= t_ns t.
Proof.
  unfold time_truncate. destruct (d <=? 0) eqn:E; simpl; [lia |].
  bool_prop. pose proof (Z.mod_pos_bound (t_ns t) d ltac:(lia)). lia.
Qed.

Lemma time_truncate_aligned t d : 0 < d -> t_ns (time_truncate t d) mod d = 0.
Proof.
  intros Hd. unfold time_truncate. destruct (d <=? 0) eqn:E; bool_prop; [lia |]. simpl.
  rewrite Zminus_mod, Zmod_mod, Z.sub_diag. apply Zmod_0_l.
Qed.
