(* ===== verification/Decimal.v ===== *)
(** * The interface of govalues/decimal

    The decimal type is a library the program calls; it is a parameter of the
    development.  [DecimalOps] lists the operations the program uses,
    [DecimalLaws] the documented behaviour the theorems rely on. *)

From S2P Require Import Prelude.
#[local] Open Scope Q_scope.

(** Nineteen significant digits, at most nineteen of them fractional. *)
Definition max_coef : Z := (10 ^ 19 - 1)%Z.
Definition scaled (c : Z) (s : nat) : Q := c # Z.to_pos (10 ^ Z.of_nat s).
Definition representable (q : Q) : Prop :=
  exists (c : Z) (s : nat), (Z.abs c <= max_coef)%Z /\ (s <= 19)%nat /\ q == scaled c s.

Class DecimalOps := {
  dec : Type;
  (** the number a decimal denotes *)
  dval : dec -> Q;
  (** the library's rounding to nineteen digits; [None] is an overflow *)
  drnd : Q -> option Q;
  dzero : dec;
  done1 : dec;
  dnew : Z -> nat -> dec;             (* MustNew coef scale *)
  dadd : dec -> dec -> result dec;
  dsub : dec -> dec -> result dec;
  dmul : dec -> dec -> result dec;
  dquo : dec -> dec -> result dec;
  dsqrt : dec -> result dec;
  dneg : dec -> dec;
  dabs : dec -> dec;
  dfloor : dec -> dec;                (* Floor(0) *)
  dcmp : dec -> dec -> comparison;
  dparse : string -> result dec;
  dfloat : Q -> result dec;           (* NewFromFloat64 *)
}.

(** An operation either delivers the rounded exact value or overflows. *)
Definition dmatch `{DecimalOps} (r : result dec) (o : option Q) : Prop :=
  match r, o with
  | Ok x, Some q => dval x == q
  | Err _, None => True
  | _, _ => False
  end.

Class DecimalLaws {D : DecimalOps} : Prop := {
  dval_repr x : representable (dval x);
  drnd_exact q : representable q -> exists r, drnd q = Some r /\ r == q;
  drnd_mono p q p' q' : p <= q -> drnd p = Some p' -> drnd q = Some q' -> p' <= q';
  drnd_small q : Qabs q <= inject_Z max_coef -> exists r, drnd q = Some r;
  dval_zero : dval dzero == 0;
  dval_one : dval done1 == 1;
  dval_new c s : (Z.abs c <= max_coef)%Z -> (s <= 19)%nat -> dval (dnew c s) == scaled c s;
  dadd_spec x y : dmatch (dadd x y) (drnd (dval x + dval y));
  dsub_spec x y : dmatch (dsub x y) (drnd (dval x - dval y));
  dmul_spec x y : dmatch (dmul x y) (drnd (dval x * dval y));
  dquo_spec x y : ~ dval y == 0 -> dmatch (dquo x y) (drnd (dval x / dval y));
  dquo_zero x y : dval y == 0 -> is_ok (dquo x y) = false;
  dsqrt_neg x : dval x < 0 -> is_ok (dsqrt x) = false;
  dsqrt_nonneg x : 0 <= dval x ->
    exists r, dsqrt x = Ok r /\ 0 <= dval r /\ (dval r == 0 <-> dval x == 0);
  dval_neg x : dval (dneg x) == - dval x;
  dval_abs x : dval (dabs x) == Qabs (dval x);
  dval_floor x : dval (dfloor x) == inject_Z (Qfloor (dval x));
  dcmp_spec x y : dcmp x y = (dval x ?= dval y);
}.

(** ** Sign tests, as the library defines them from the value *)

Section Tests.
Context {D : DecimalOps}.

Definition d_is_pos (x : dec) : bool := match dcmp x dzero with Gt => true | _ => false end.
Definition d_is_neg (x : dec) : bool := match dcmp x dzero with Lt => true | _ => false end.
Definition d_is_zero (x : dec) : bool := match dcmp x dzero with Eq => true | _ => false end.
Definition d_lt (x y : dec) : bool := match dcmp x y with Lt => true | _ => false end.
Definition d_le (x y : dec) : bool := match dcmp x y with Gt => false | _ => true end.
Definition d_gt (x y : dec) : bool := match dcmp x y with Gt => true | _ => false end.
Definition d_ge (x y : dec) : bool := match dcmp x y with Lt => false | _ => true end.
(** [v, _ = op()]: the library returns the zero decimal with an error. *)
Definition d_or_zero (r : result dec) : dec := or_zero dzero r.
(** [MustNew(int64(n), 0)] *)
Definition d_int (n : Z) : dec := dnew n 0.

Context {L : DecimalLaws}.

Lemma d_lt_spec x y : d_lt x y = true <-> dval x < dval y.
Proof. unfold d_lt. rewrite dcmp_spec, Qlt_alt. destruct (_ ?= _); naive_solver. Qed.
Lemma d_lt_false x y : d_lt x y = false <-> dval y <= dval x.
Proof. unfold d_lt. rewrite dcmp_spec. destruct (Qcompare_spec (dval x) (dval y)); split; intros; try done; lra. Qed.
Lemma d_le_spec x y : d_le x y = true <-> dval x <= dval y.
Proof. unfold d_le. rewrite dcmp_spec. destruct (Qcompare_spec (dval x) (dval y)); split; intros; try done; lra. Qed.
Lemma d_le_false x y : d_le x y = false <-> dval y < dval x.
Proof. unfold d_le. rewrite dcmp_spec. destruct (Qcompare_spec (dval x) (dval y)); split; intros; try done; lra. Qed.
Lemma d_gt_spec x y : d_gt x y = true <-> dval y < dval x.
Proof. unfold d_gt. rewrite dcmp_spec. destruct (Qcompare_spec (dval x) (dval y)); split; intros; try done; lra. Qed.
Lemma d_gt_false x y : d_gt x y = false <-> dval x <= dval y.
Proof. unfold d_gt. rewrite dcmp_spec. destruct (Qcompare_spec (dval x) (dval y)); split; intros; try done; lra. Qed.
Lemma d_ge_spec x y : d_ge x y = true <-> dval y <= dval x.
Proof. unfold d_ge. rewrite dcmp_spec. destruct (Qcompare_spec (dval x) (dval y)); split; intros; try done; lra. Qed.
Lemma d_ge_false x y : d_ge x y = false <-> dval x < dval y.
Proof. unfold d_ge. rewrite dcmp_spec. destruct (Qcompare_spec (dval x) (dval y)); split; intros; try done; lra. Qed.
Lemma d_is_pos_spec x : d_is_pos x = true <-> 0 < dval x.
Proof. change (d_is_pos x) with (d_gt x dzero). rewrite d_gt_spec, dval_zero. done. Qed.
Lemma d_is_pos_false x : d_is_pos x = false <-> dval x <= 0.
Proof. change (d_is_pos x) with (d_gt x dzero). rewrite d_gt_false, dval_zero. done. Qed.
Lemma d_is_neg_spec x : d_is_neg x = true <-> dval x < 0.
Proof. change (d_is_neg x) with (d_lt x dzero). rewrite d_lt_spec, dval_zero. done. Qed.
Lemma d_is_neg_false x : d_is_neg x = false <-> 0 <= dval x.
Proof. change (d_is_neg x) with (d_lt x dzero). rewrite d_lt_false, dval_zero. done. Qed.
Lemma d_is_zero_spec x : d_is_zero x = true <-> dval x == 0.
Proof.
  unfold d_is_zero. rewrite dcmp_spec, dval_zero.
  destruct (Qcompare_spec (dval x) 0); split; intros; try done; lra.
Qed.
Lemma d_is_zero_false x : d_is_zero x = false <-> ~ dval x == 0.
Proof. rewrite <- d_is_zero_spec. destruct (d_is_zero x); naive_solver. Qed.
End Tests.

(** ** Representable numbers *)

Lemma scaled_mult c s : scaled c s * inject_Z (10 ^ Z.of_nat s) == inject_Z c.
Proof.
  unfold scaled, inject_Z, Qeq. simpl.
  assert (0 < 10 ^ Z.of_nat s)%Z by (apply Z.pow_pos_nonneg; lia).
  rewrite Pos.mul_1_r, Z.mul_1_r, Z2Pos.id by lia. ring.
Qed.

Lemma scaled_int n : scaled n 0 == inject_Z n.
Proof. unfold scaled, inject_Z, Qeq. simpl. lia. Qed.

Lemma scaled_opp c s : scaled (- c) s == - scaled c s.
Proof. reflexivity. Qed.

Lemma scaled_add c1 c2 s : scaled (c1 + c2) s == scaled c1 s + scaled c2 s.
Proof. unfold scaled, Qeq, Qplus. simpl. lia. Qed.

Lemma scaled_le c1 c2 s : scaled c1 s <= scaled c2 s <-> (c1 <= c2)%Z.
Proof. unfold scaled, Qle. simpl. nia. Qed.

Lemma representable_proper p q : p == q -> representable p -> representable q.
Proof. intros E (c & s & Hc & Hs & H). exists c, s. split_and!; [done..|]. by rewrite <- E. Qed.

Lemma representable_int n : (Z.abs n <= max_coef)%Z -> representable (inject_Z n).
Proof. intros H. exists n, 0%nat. split_and!; [done | lia |]. by rewrite scaled_int. Qed.

Lemma representable_zero : representable 0.
Proof. apply (representable_int 0). unfold max_coef; lia. Qed.

Lemma representable_opp q : representable q -> representable (- q).
Proof.
  intros (c & s & Hc & Hs & E). exists (- c)%Z, s. split_and!; [lia | done |].
  by rewrite E, scaled_opp.
Qed.

(** Values on a common grid [10^-s]. *)
Definition on_grid (s : nat) (m : Z) (q : Q) : Prop :=
  exists c : Z, (Z.abs c <= m)%Z /\ q == scaled c s.

Lemma on_grid_add s m1 m2 p q :
  on_grid s m1 p -> on_grid s m2 q -> on_grid s (m1 + m2) (p + q).
Proof.
  intros (c1 & H1 & E1) (c2 & H2 & E2). exists (c1 + c2)%Z. split; [lia |].
  by rewrite E1, E2, scaled_add.
Qed.

Lemma on_grid_opp s m q : on_grid s m q -> on_grid s m (- q).
Proof. intros (c & H & E). exists (- c)%Z. split; [lia |]. by rewrite E, scaled_opp. Qed.

Lemma on_grid_weaken s m m' q : (m <= m')%Z -> on_grid s m q -> on_grid s m' q.
Proof. intros Hm (c & H & E). exists c. split; [lia | done]. Qed.

Lemma on_grid_proper s m p q : p == q -> on_grid s m p -> on_grid s m q.
Proof. intros E (c & H & Hc). exists c. split; [done | by rewrite <- E]. Qed.

Lemma on_grid_representable s m q :
  (s <= 19)%nat -> (m <= max_coef)%Z -> on_grid s m q -> representable q.
Proof. intros Hs Hm (c & Hc & E). exists c, s. split_and!; [lia | done | done]. Qed.

(** ** Consequences of the rounding laws *)

Section Rounding.
Context {D : DecimalOps} {L : DecimalLaws}.

Lemma dmatch_Ok r o x : dmatch r o -> r = Ok x -> exists q, o = Some q /\ dval x == q.
Proof. intros H ->. destruct o; [| done]. by eexists. Qed.

(** Rounding never crosses a representable number. *)
Lemma drnd_ge l q r : representable l -> l <= q -> drnd q = Some r -> l <= r.
Proof.
  intros Hl Hle Hr. destruct (drnd_exact l Hl) as (l' & El & Eq).
  rewrite <- Eq. by eapply drnd_mono.
Qed.

Lemma drnd_le u q r : representable u -> q <= u -> drnd q = Some r -> r <= u.
Proof.
  intros Hu Hle Hr. destruct (drnd_exact u Hu) as (u' & Eu & Eq).
  rewrite <- Eq. by eapply drnd_mono.
Qed.

Lemma dmatch_exact r q : dmatch r (drnd q) -> representable q ->
  exists x, r = Ok x /\ dval x == q.
Proof.
  intros H Hq. destruct (drnd_exact q Hq) as (q' & E & Eq). rewrite E in H.
  destruct r as [x|e]; simpl in H; [| done]. exists x. by rewrite H, Eq.
Qed.

Lemma dmatch_exact_val r q x : dmatch r (drnd q) -> representable q -> r = Ok x -> dval x == q.
Proof. intros H Hq ->. destruct (dmatch_exact _ _ H Hq) as (y & [= <-] & E). done. Qed.

Lemma dmatch_ge r q x l : dmatch r (drnd q) -> r = Ok x -> representable l -> l <= q -> l <= dval x.
Proof.
  intros H E Hl Hle. destruct (dmatch_Ok _ _ _ H E) as (q' & Eq & ->). by eapply drnd_ge.
Qed.

Lemma dmatch_le r q x u : dmatch r (drnd q) -> r = Ok x -> representable u -> q <= u -> dval x <= u.
Proof.
  intros H E Hl Hle. destruct (dmatch_Ok _ _ _ H E) as (q' & Eq & ->). by eapply drnd_le.
Qed.

Lemma dmatch_mono r1 r2 p q x y :
  dmatch r1 (drnd p) -> dmatch r2 (drnd q) -> r1 = Ok x -> r2 = Ok y -> p <= q -> dval x <= dval y.
Proof.
  intros H1 H2 E1 E2 Hle.
  destruct (dmatch_Ok _ _ _ H1 E1) as (p' & Ep & ->).
  destruct (dmatch_Ok _ _ _ H2 E2) as (q' & Eq & ->). by eapply drnd_mono.
Qed.

Lemma dmatch_zero r q : dmatch r (drnd q) -> q == 0 -> exists x, r = Ok x /\ dval x == 0.
Proof.
  intros H Hq. destruct (dmatch_exact r q H) as (x & E1 & E2).
  - eapply representable_proper; [symmetry; exact Hq | apply representable_zero].
  - exists x. by rewrite E2.
Qed.

(** An exact result inside the range never overflows. *)
Lemma dmatch_small r q : dmatch r (drnd q) -> Qabs q <= inject_Z max_coef -> exists x, r = Ok x.
Proof.
  intros H Hq. destruct (drnd_small q Hq) as (r' & E). rewrite E in H.
  destruct r as [x|]; [by exists x | done].
Qed.

Lemma dec_repr_abs x : Qabs (dval x) <= inject_Z max_coef.
Proof.
  destruct (dval_repr x) as (c & s & Hc & Hs & ->). unfold scaled, Qabs, inject_Z, Qle. simpl. nia.
Qed.

Lemma d_int_val n : (Z.abs n <= max_coef)%Z -> dval (d_int n) == inject_Z n.
Proof. intros H. unfold d_int. rewrite dval_new, scaled_int; [done | done | lia]. Qed.

(** Signs and order survive the rounding. *)
Lemma dsub_nonneg (x y z : dec) : dsub x y = Ok z -> dval y <= dval x -> 0 <= dval z.
Proof.
  intros E H. eapply dmatch_ge; [apply dsub_spec | exact E | apply representable_zero | lra].
Qed.

Lemma dsub_nonpos (x y z : dec) : dsub x y = Ok z -> dval x <= dval y -> dval z <= 0.
Proof.
  intros E H. eapply dmatch_le; [apply dsub_spec | exact E | apply representable_zero | lra].
Qed.

Lemma dadd_above (x y z : dec) : dadd x y = Ok z -> 0 <= dval y -> dval x <= dval z.
Proof. intros E H. eapply dmatch_ge; [apply dadd_spec | exact E | apply dval_repr | lra]. Qed.

Lemma dsub_below (x y z : dec) : dsub x y = Ok z -> 0 <= dval y -> dval z <= dval x.
Proof. intros E H. eapply dmatch_le; [apply dsub_spec | exact E | apply dval_repr | lra]. Qed.

Lemma dmul_nonneg (x y z : dec) : 0 <= dval x -> 0 <= dval y -> dmul x y = Ok z -> 0 <= dval z.
Proof.
  intros Hx Hy E. eapply dmatch_ge; [apply dmul_spec | exact E | apply representable_zero | by apply Qmult_le_0_compat].
Qed.

Lemma dmul_mono (x x' y r r' : dec) : dval x <= dval x' -> 0 <= dval y ->
  dmul x y = Ok r -> dmul x' y = Ok r' -> dval r <= dval r'.
Proof.
  intros Hx Hy E1 E2. eapply dmatch_mono; [apply dmul_spec | apply dmul_spec | exact E1 | exact E2 |].
  by apply Qmult_le_compat_r.
Qed.

Lemma dquo_nonneg (x y z : dec) : 0 <= dval x -> 0 <= dval y -> dquo x y = Ok z -> 0 <= dval z.
Proof.
  intros Hx Hy E. destruct (Qeq_dec (dval y) 0) as [H0|H0].
  - pose proof (dquo_zero x y H0) as Hz. by rewrite E in Hz.
  - eapply dmatch_ge; [by apply dquo_spec | exact E | apply representable_zero |].
    apply Qle_shift_div_l; [| lra]. destruct (Qle_lt_or_eq _ _ Hy) as [|H]; [done |]. by symmetry in H.
Qed.
End Rounding.

#[export] Hint Resolve representable_zero representable_int representable_opp dval_repr : verif.
