(* ===== verification/RefDecimal.v ===== *)
(** * Reference instances of the decimal interface

    [RefDec] is nineteen-digit decimal arithmetic with half-even rounding: it
    satisfies [DecimalLaws], so the laws are consistent, and it evaluates, so
    properties can be exercised on concrete inputs.  [QDec] is exact rational
    arithmetic: an instance of the operations only, used to state what an
    algorithm computes when nothing is rounded.

    Neither is a model of the library's code; both are concrete functions for
    the parameters of [Decimal.v]. *)

From S2P Require Import Prelude Decimal.
#[local] Open Scope Q_scope.

(** ** Half-even rounding to an integer *)

Definition rhe (q : Q) : Z :=
  let f := (Qnum q / Zpos (Qden q))%Z in
  let r := (Qnum q mod Zpos (Qden q))%Z in
  match (2 * r ?= Zpos (Qden q))%Z with
  | Lt => f
  | Gt => (f + 1)%Z
  | Eq => if Z.even f then f else (f + 1)%Z
  end.

(** The two facts that determine [rhe]: it is within one half, and ties go to
    the even neighbour. *)
Lemma rhe_spec q :
  let d := inject_Z (rhe q) - q in
  Qabs d < 1 # 2 \/ (Qabs d == 1 # 2 /\ Z.even (rhe q) = true).
Proof.
  destruct q as [n d]. unfold rhe; cbn [Qnum Qden]; cbv zeta.
  pose proof (Z.div_mod n (Zpos d) ltac:(done)) as E.
  pose proof (Z.mod_pos_bound n (Zpos d) ltac:(done)) as B.
  set (f := (n / Zpos d)%Z) in *. set (r := (n mod Zpos d)%Z) in *.
  assert (Hc : forall z : Z, inject_Z z - (n # d) == (z * Zpos d - n) # d).
  { intros z. unfold Qeq, Qminus, Qplus, Qopp, inject_Z. simpl. rewrite ?Pos.mul_1_r. nia. }
  destruct (Z.compare_spec (2 * r) (Zpos d)) as [H|H|H].
  - right. destruct (Z.even f) eqn:Ev.
    + split; [| done]. rewrite Hc. unfold Qabs, Qeq; simpl. nia.
    + split.
      * rewrite Hc. unfold Qabs, Qeq; simpl. nia.
      * rewrite Z.even_add, Ev. done.
  - left. rewrite Hc. unfold Qabs, Qlt; simpl. nia.
  - left. rewrite Hc. unfold Qabs, Qlt; simpl. nia.
Qed.

Lemma Qabs_bounds q b : Qabs q <= b -> - b <= q <= b.
Proof. intros H. apply Qabs_Qle_condition in H. done. Qed.

Lemma rhe_near q : Qabs (inject_Z (rhe q) - q) <= 1 # 2.
Proof. destruct (rhe_spec q) as [H|[H _]]; cbv zeta in H; lra. Qed.

Lemma inject_Z_lt_le a b : inject_Z a < inject_Z b -> inject_Z a + 1 <= inject_Z b.
Proof.
  rewrite <- Zlt_Qlt. intros H. change 1 with (inject_Z 1). rewrite <- inject_Z_plus, <- Zle_Qle. lia.
Qed.

Lemma rhe_mono p q : p <= q -> (rhe p <= rhe q)%Z.
Proof.
  intros Hle. destruct (Z.le_gt_cases (rhe p) (rhe q)) as [|Hlt]; [done | exfalso].
  assert (H1 : inject_Z (rhe q) + 1 <= inject_Z (rhe p)) by (apply inject_Z_lt_le; rewrite <- Zlt_Qlt; lia).
  pose proof (Qabs_bounds _ _ (rhe_near p)) as [P1 P2].
  pose proof (Qabs_bounds _ _ (rhe_near q)) as [Q1 Q2].
  assert (Heq : p == q) by lra.
  destruct (rhe_spec p) as [H|[_ Ep]]; [apply Qabs_Qlt_condition in H as [? ?]; lra |].
  destruct (rhe_spec q) as [H|[_ Eq]]; [apply Qabs_Qlt_condition in H as [? ?]; lra |].
  (* both at a tie: two consecutive integers cannot both be even *)
  assert (inject_Z (rhe p) == inject_Z (rhe q) + 1) as E by lra.
  change 1 with (inject_Z 1) in E. rewrite <- inject_Z_plus in E.
  assert (rhe p = rhe q + 1)%Z as E' by (unfold Qeq, inject_Z in E; simpl in E; lia).
  rewrite E', Z.even_add, Eq in Ep. done.
Qed.

Lemma rhe_int n : rhe (inject_Z n) = n.
Proof. unfold rhe, inject_Z; simpl. rewrite Z.div_1_r, Z.mod_1_r. done. Qed.

Lemma rhe_proper p q : p == q -> rhe p = rhe q.
Proof. intros E. apply Z.le_antisymm; apply rhe_mono; rewrite E; apply Qle_refl. Qed.

#[export] Instance rhe_Proper : Proper (Qeq ==> eq) rhe.
Proof. intros p q E. by apply rhe_proper. Qed.

(** ** Rounding to nineteen digits: the finest scale that fits *)

Definition qpow10 (s : nat) : Q := inject_Z (10 ^ Z.of_nat s).

Fixpoint rnd_at (s : nat) (q : Q) : option (Z * nat) :=
  let c := rhe (q * qpow10 s) in
  if (c <=? max_coef)%Z then Some (c, s)
  else match s with O => None | S s' => rnd_at s' q end.

Definition rnd (q : Q) : option (Z * nat) :=
  if Qlt_le_dec q 0 then
    match rnd_at 19 (- q) with Some (c, s) => Some ((- c)%Z, s) | None => None end
  else rnd_at 19 q.

Lemma qpow10_pos s : 0 < qpow10 s.
Proof. unfold qpow10. change 0 with (inject_Z 0). rewrite <- Zlt_Qlt. apply Z.pow_pos_nonneg; lia. Qed.

Lemma qpow10_S s : qpow10 (S s) == 10 * qpow10 s.
Proof.
  unfold qpow10. rewrite Nat2Z.inj_succ, Z.pow_succ_r by lia. rewrite inject_Z_mult. done.
Qed.

Lemma scaled_qpow c s : scaled c s * qpow10 s == inject_Z c.
Proof. apply scaled_mult. Qed.

Lemma scaled_div c s : scaled c s == inject_Z c / qpow10 s.
Proof.
  pose proof (qpow10_pos s). rewrite <- (scaled_qpow c s). field. intros E; lra.
Qed.

Lemma rhe_nonneg q : 0 <= q -> (0 <= rhe q)%Z.
Proof. intros H. change 0%Z with (rhe (inject_Z 0)). by apply rhe_mono. Qed.

Lemma rnd_at_Some s q c t : rnd_at s q = Some (c, t) ->
  c = rhe (q * qpow10 t) /\ (c <= max_coef)%Z /\ (t <= s)%nat /\
  (forall u, (t < u <= s)%nat -> (max_coef < rhe (q * qpow10 u))%Z).
Proof.
  revert c t. induction s as [|s IH]; intros c t; cbn [rnd_at];
    destruct (_ <=? _)%Z eqn:E; intros H; try discriminate.
  - injection H as <- <-. bool_prop. split_and!; try done. intros; lia.
  - injection H as <- <-. bool_prop. split_and!; try done. intros; lia.
  - apply IH in H as (H1 & H2 & H3 & H4). split_and!; try done; [lia |].
    intros u Hu. destruct (decide (u = S s)) as [->|]; [bool_prop; lia | apply H4; lia].
Qed.

Lemma rnd_at_None s q : rnd_at s q = None -> (max_coef < rhe (q * qpow10 0))%Z.
Proof.
  induction s as [|s IH]; cbn [rnd_at]; destruct (_ <=? _)%Z eqn:E; try discriminate; bool_prop; auto.
Qed.

Lemma rnd_at_total s q : (rhe (q * qpow10 0) <= max_coef)%Z -> is_Some (rnd_at s q).
Proof.
  intros H. destruct (rnd_at s q) eqn:E; [done |]. apply rnd_at_None in E. lia.
Qed.

Lemma rnd_at_bounds q c t : 0 <= q -> rnd_at 19 q = Some (c, t) ->
  (0 <= c <= max_coef)%Z /\ (t <= 19)%nat.
Proof.
  intros Hq H. apply rnd_at_Some in H as (-> & H2 & H3 & _).
  split_and!; [| done | done]. apply rhe_nonneg. pose proof (qpow10_pos t). nra.
Qed.

Lemma rnd_bounds q c s : rnd q = Some (c, s) -> (Z.abs c <= max_coef)%Z /\ (s <= 19)%nat.
Proof.
  unfold rnd. destruct (Qlt_le_dec q 0) as [Hq|Hq].
  - destruct (rnd_at 19 (- q)) as [[c' s']|] eqn:E; [| discriminate]. intros [= <- <-].
    apply rnd_at_bounds in E as [? ?]; [| lra]. lia.
  - intros E. apply rnd_at_bounds in E as [? ?]; [| done]. lia.
Qed.

(** Multiplying a scaled number by a finer power of ten gives an integer. *)
Lemma scaled_up c s t : (s <= t)%nat ->
  scaled c s * qpow10 t == inject_Z (c * 10 ^ Z.of_nat (t - s)).
Proof.
  intros H. replace t with (s + (t - s))%nat at 1 by lia.
  unfold qpow10. rewrite Nat2Z.inj_add, Z.pow_add_r by lia. rewrite inject_Z_mult, Qmult_assoc.
  rewrite (scaled_mult c s). rewrite inject_Z_mult. done.
Qed.

Lemma qpow10_ge_1 s : 1 <= qpow10 s.
Proof.
  unfold qpow10. change 1 with (inject_Z (10 ^ 0)). rewrite <- Zle_Qle.
  apply Z.pow_le_mono_r; lia.
Qed.

Lemma scaled_le_int c s : (0 <= c)%Z -> scaled c s <= inject_Z c.
Proof.
  intros H. pose proof (scaled_qpow c s) as E. pose proof (qpow10_ge_1 s).
  assert (0 <= scaled c s) by (unfold scaled, Qle; simpl; lia). nra.
Qed.

Lemma rnd_at_exact c s q : (0 <= c <= max_coef)%Z -> (s <= 19)%nat -> q == scaled c s ->
  exists c' t, rnd_at 19 q = Some (c', t) /\ scaled c' t == q.
Proof.
  intros Hc Hs E.
  destruct (rnd_at_total 19 q) as [[c' t] Ht].
  - rewrite (rhe_proper _ (scaled c s)).
    + pose proof (rhe_mono _ _ (scaled_le_int c s ltac:(lia))) as M.
      rewrite rhe_int in M. lia.
    + rewrite E. change (qpow10 0) with 1. lra.
  - exists c', t. split; [done |].
    apply rnd_at_Some in Ht as (-> & H2 & H3 & H4).
    assert (s <= t)%nat.
    { destruct (decide (s <= t)%nat); [done |]. specialize (H4 s ltac:(lia)).
      rewrite (rhe_proper _ (inject_Z c)) in H4 by (rewrite E; apply scaled_qpow).
      rewrite rhe_int in H4. lia. }
    rewrite (rhe_proper _ (inject_Z (c * 10 ^ Z.of_nat (t - s)))) by (rewrite E; by apply scaled_up).
    rewrite rhe_int, scaled_div, <- (scaled_up c s t), <- E by done.
    pose proof (qpow10_pos t). field. lra.
Qed.

Lemma rnd_at_mono p q c1 s1 c2 s2 : 0 <= p -> p <= q ->
  rnd_at 19 p = Some (c1, s1) -> rnd_at 19 q = Some (c2, s2) -> scaled c1 s1 <= scaled c2 s2.
Proof.
  intros Hp Hle H1 H2.
  pose proof (rnd_at_bounds _ _ _ Hp H1) as [B1 _].
  apply rnd_at_Some in H1 as (-> & L1 & T1 & F1). apply rnd_at_Some in H2 as (-> & L2 & T2 & F2).
  assert (Hmul : forall u, p * qpow10 u <= q * qpow10 u) by (intros u; pose proof (qpow10_pos u); nra).
  assert (s2 <= s1)%nat as Hs.
  { destruct (decide (s2 <= s1)%nat); [done |]. specialize (F1 s2 ltac:(lia)).
    pose proof (rhe_mono _ _ (Hmul s2)). lia. }
  destruct (decide (s1 = s2)) as [->|Hne].
  - apply scaled_le, rhe_mono, Hmul.
  - specialize (F2 (S s2) ltac:(lia)).
    rewrite qpow10_S in F2.
    pose proof (Qabs_bounds _ _ (rhe_near (q * (10 * qpow10 s2)))) as [_ N].
    assert (inject_Z (10 ^ 19) <= inject_Z (rhe (q * (10 * qpow10 s2)))) as N1
      by (rewrite <- Zle_Qle; unfold max_coef in F2; lia).
    assert (10 ^ 18 <= rhe (q * qpow10 s2))%Z as N2.
    { assert (inject_Z (10 ^ 18) * 10 - (1 # 2) <= 10 * (q * qpow10 s2)) as N3.
      { change (inject_Z (10 ^ 18) * 10) with (inject_Z (10 ^ 19)). lra. }
      pose proof (Qabs_bounds _ _ (rhe_near (q * qpow10 s2))) as [N4 _].
      destruct (Z.le_gt_cases (10 ^ 18) (rhe (q * qpow10 s2))) as [|Hlt]; [done | exfalso].
      assert (inject_Z (rhe (q * qpow10 s2)) + 1 <= inject_Z (10 ^ 18))
        by (apply inject_Z_lt_le; rewrite <- Zlt_Qlt; done).
      lra. }
    rewrite !scaled_div.
    set (a := rhe (p * qpow10 s1)) in *. set (b := rhe (q * qpow10 s2)) in *.
    pose proof (qpow10_pos s1) as P1. pose proof (qpow10_pos s2) as P2.
    apply Qle_shift_div_l; [done |].
    assert (inject_Z a / qpow10 s1 * qpow10 s2 == inject_Z a * (qpow10 s2 / qpow10 s1)) as -> by (field; lra).
    assert (qpow10 s2 / qpow10 s1 <= 1 # 10).
    { apply Qle_shift_div_r; [done |].
      assert (qpow10 (S s2) <= qpow10 s1) as M.
      { unfold qpow10. rewrite <- Zle_Qle. apply Z.pow_le_mono_r; lia. }
      rewrite qpow10_S in M. lra. }
    assert (0 <= inject_Z a) by (change 0 with (inject_Z 0); rewrite <- Zle_Qle; lia).
    assert (inject_Z a <= inject_Z (10 ^ 19)) by (rewrite <- Zle_Qle; unfold max_coef in *; lia).
    assert (inject_Z (10 ^ 18) <= inject_Z b) by (rewrite <- Zle_Qle; lia).
    assert (inject_Z (10 ^ 19) == 10 * inject_Z (10 ^ 18)) by reflexivity.
    nra.
Qed.

Lemma rnd_mono p q c1 s1 c2 s2 : p <= q ->
  rnd p = Some (c1, s1) -> rnd q = Some (c2, s2) -> scaled c1 s1 <= scaled c2 s2.
Proof.
  unfold rnd. intros Hle H1 H2.
  destruct (Qlt_le_dec p 0) as [Hp|Hp], (Qlt_le_dec q 0) as [Hq|Hq].
  - destruct (rnd_at 19 (- p)) as [[a s]|] eqn:E1; [| discriminate].
    destruct (rnd_at 19 (- q)) as [[b t]|] eqn:E2; [| discriminate].
    injection H1 as <- <-. injection H2 as <- <-. rewrite !scaled_opp.
    pose proof (rnd_at_mono (- q) (- p) _ _ _ _ ltac:(lra) ltac:(lra) E2 E1). lra.
  - destruct (rnd_at 19 (- p)) as [[a s]|] eqn:E1; [| discriminate].
    injection H1 as <- <-.
    apply rnd_at_bounds in E1 as [? _]; [| lra]. apply rnd_at_bounds in H2 as [? _]; [| done].
    unfold scaled, Qle; simpl. nia.
  - exfalso. lra.
  - eapply (rnd_at_mono p q); done.
Qed.

Lemma rnd_exact q : representable q -> exists c s, rnd q = Some (c, s) /\ scaled c s == q.
Proof.
  intros (c & s & Hc & Hs & E). unfold rnd. destruct (Qlt_le_dec q 0) as [Hq|Hq].
  - assert (- q == scaled (- c) s) as E' by (rewrite E, scaled_opp; done).
    assert (0 <= - c)%Z as Hn.
    { apply (scaled_le 0 (- c) s). rewrite <- E'.
      assert (scaled 0 s == 0) as -> by (unfold scaled, Qeq; simpl; lia). lra. }
    destruct (rnd_at_exact (- c) s (- q) ltac:(lia) Hs E') as (c' & t & -> & Ht).
    exists (- c')%Z, t. split; [done |]. rewrite scaled_opp, Ht. lra.
  - assert (0 <= c)%Z as Hn.
    { apply (scaled_le 0 c s). rewrite <- E.
      assert (scaled 0 s == 0) as -> by (unfold scaled, Qeq; simpl; lia). lra. }
    apply (rnd_at_exact c s); [lia | done | done].
Qed.

Lemma rnd_small q : Qabs q <= inject_Z max_coef -> is_Some (rnd q).
Proof.
  intros H. apply Qabs_bounds in H as [H1 H2]. unfold rnd.
  assert (T : forall p, p <= inject_Z max_coef -> is_Some (rnd_at 19 p)).
  { intros p Hp. apply rnd_at_total. change (qpow10 0) with 1. rewrite Qmult_1_r.
    rewrite <- (rhe_int max_coef). by apply rhe_mono. }
  destruct (Qlt_le_dec q 0).
  - destruct (T (- q) ltac:(lra)) as [[c s] ->]. done.
  - by apply T.
Qed.

(** ** The instance *)

Record rdec := RD { rcoef : Z; rscale : nat }.

Definition rvalid (x : rdec) : bool := (Z.abs (rcoef x) <=? max_coef)%Z && (rscale x <=? 19)%nat.
Definition rval (x : rdec) : Q := if rvalid x then scaled (rcoef x) (rscale x) else 0.

Definition of_rnd (op : string) (o : option (Z * nat)) : result rdec :=
  match o with Some (c, s) => Ok (RD c s) | None => Err (ErrMsg op) end.
Definition rnd_val (o : option (Z * nat)) : option Q :=
  match o with Some (c, s) => Some (scaled c s) | None => None end.

Definition rquo (x y : rdec) : result rdec :=
  if Qeq_bool (rval y) 0 then Err (ErrMsg "division by zero")
  else of_rnd "quo" (rnd (rval x / rval y)).

Definition rsqrt (x : rdec) : result rdec :=
  if Qlt_le_dec (rval x) 0 then Err (ErrMsg "square root of negative")
  else of_rnd "sqrt" (rnd (scaled (Z.sqrt (Qfloor (rval x * qpow10 38))) 19)).

Definition rfloor (x : rdec) : rdec := RD (Qfloor (rval x)) 0.

(** Decimal digits only: enough to run the code that parses quantities. *)
Fixpoint rparse_digits (acc : Z) (s : string) : result rdec :=
  match s with
  | EmptyString => Ok (RD acc 0)
  | String a rest =>
      let n := (Z.of_nat (Ascii.nat_of_ascii a) - 48)%Z in
      if (0 <=? n)%Z && (n <=? 9)%Z then rparse_digits (10 * acc + n) rest
      else Err (ErrMsg "parse")
  end.
Definition rparse (s : string) : result rdec :=
  match s with EmptyString => Err (ErrMsg "parse") | _ => rparse_digits 0 s end.

#[export] Instance RefDec : DecimalOps := {|
  dec := rdec;
  dval := rval;
  drnd q := rnd_val (rnd q);
  dzero := RD 0 0;
  done1 := RD 1 0;
  dnew := RD;
  dadd x y := of_rnd "add" (rnd (rval x + rval y));
  dsub x y := of_rnd "sub" (rnd (rval x - rval y));
  dmul x y := of_rnd "mul" (rnd (rval x * rval y));
  dquo := rquo;
  dsqrt := rsqrt;
  dneg x := RD (- rcoef x) (rscale x);
  dabs x := RD (Z.abs (rcoef x)) (rscale x);
  dfloor := rfloor;
  dcmp x y := (rval x ?= rval y);
  dparse := rparse;
  dfloat q := of_rnd "float" (rnd q);
|}.

Lemma rval_valid c s : (Z.abs c <= max_coef)%Z -> (s <= 19)%nat -> rval (RD c s) = scaled c s.
Proof.
  intros H1 H2. unfold rval, rvalid; simpl.
  rewrite (proj2 (Z.leb_le _ _) H1), (proj2 (Nat.leb_le _ _) H2). done.
Qed.

Lemma rval_repr x : representable (rval x).
Proof.
  unfold rval. destruct (rvalid x) eqn:E; [| apply representable_zero].
  unfold rvalid in E. bool_prop. exists (rcoef x), (rscale x). done.
Qed.

Lemma of_rnd_match op q : dmatch (of_rnd op (rnd q)) (rnd_val (rnd q)).
Proof.
  destruct (rnd q) as [[c s]|] eqn:E; simpl; [| done].
  apply rnd_bounds in E as [? ?]. by rewrite rval_valid.
Qed.

Lemma rsqrt_ok x : 0 <= rval x ->
  exists r, rsqrt x = Ok r /\ 0 <= rval r /\ (rval r == 0 <-> rval x == 0).
Proof.
  intros Hx. unfold rsqrt. destruct (Qlt_le_dec (rval x) 0); [lra |].
  destruct (rval_repr x) as (c & s & Hc & Hs & E).
  assert (rval x * qpow10 38 == inject_Z (c * 10 ^ Z.of_nat (38 - s))) as E38.
  { rewrite E. apply scaled_up. lia. }
  set (n := (c * 10 ^ Z.of_nat (38 - s))%Z) in *.
  assert (Qfloor (rval x * qpow10 38) = n) as -> by (rewrite E38; apply Qfloor_Z).
  assert (0 <= c)%Z as Hc0.
  { apply (scaled_le 0 c s). rewrite <- E.
    assert (scaled 0 s == 0) as -> by (unfold scaled, Qeq; simpl; lia). done. }
  assert (0 < 10 ^ Z.of_nat (38 - s) <= 10 ^ 38)%Z as Hp.
  { split; [apply Z.pow_pos_nonneg; lia | apply Z.pow_le_mono_r; lia]. }
  assert (0 <= n)%Z as Hn by (unfold n; nia).
  assert (Z.sqrt n <= 10 ^ 29)%Z as Hsq.
  { rewrite <- (Z.sqrt_square (10 ^ 29)) by lia. apply Z.sqrt_le_mono. unfold n, max_coef in *. nia. }
  pose proof (Z.sqrt_nonneg n) as Hs0.
  destruct (rnd_small (scaled (Z.sqrt n) 19)) as [[c' t] Er].
  { unfold scaled, Qabs, Qle, inject_Z; cbn [Qnum Qden]. rewrite Z2Pos.id by (apply Z.pow_pos_nonneg; lia).
    unfold max_coef. rewrite Z.abs_eq by done. simpl. lia. }
  rewrite Er. exists (RD c' t). pose proof (rnd_bounds _ _ _ Er) as [B1 B2].
  split; [done |]. rewrite rval_valid by done.
  (* the rounded root is at least the smallest positive decimal when n > 0 *)
  assert (Hz : forall k, representable (scaled k 19) -> (k <= Z.sqrt n)%Z -> scaled k 19 <= scaled c' t).
  { intros k Hk Hle. destruct (rnd_exact _ Hk) as (k' & u & Ek & <-).
    eapply rnd_mono; [| exact Ek | exact Er]. by apply scaled_le. }
  assert (Hi : forall k, (Z.abs k <= 1)%Z -> representable (scaled k 19)).
  { intros k Hk. exists k, 19%nat. split_and!; [unfold max_coef; lia | lia | done]. }
  assert (scaled 0 19 == 0) as E0 by reflexivity.
  assert (0 < scaled 1 19) as E1 by reflexivity.
  pose proof (Hz 0%Z (Hi 0%Z ltac:(lia)) Hs0) as G0. rewrite E0 in G0.
  split; [done |]. split; intros H.
  - destruct (Z.eq_dec n 0) as [Hn0|Hn0].
    + assert (c = 0)%Z by (unfold n in Hn0; nia). subst c. rewrite E. unfold scaled, Qeq; simpl; lia.
    + assert (1 <= Z.sqrt n)%Z as G1 by (apply (Z.sqrt_le_mono 1 n); lia).
      pose proof (Hz 1%Z (Hi 1%Z ltac:(lia)) G1). lra.
  - assert (n = 0)%Z as Hn0.
    { rewrite H in E38. unfold Qeq, inject_Z in E38. simpl in E38. lia. }
    rewrite Hn0 in Er. simpl in Er. injection Er as <- <-. reflexivity.
Qed.

#[export] Instance RefDec_laws : DecimalLaws (D := RefDec).
Proof.
  split; simpl.
  - apply rval_repr.
  - intros q Hq. destruct (rnd_exact q Hq) as (c & s & -> & E). by exists (scaled c s).
  - intros p q p' q' Hle. destruct (rnd p) as [[c1 s1]|] eqn:E1; simpl; [| discriminate].
    destruct (rnd q) as [[c2 s2]|] eqn:E2; simpl; [| discriminate].
    intros [= <-] [= <-]. by eapply rnd_mono.
  - intros q Hq. destruct (rnd_small q Hq) as [[c s] ->]. by exists (scaled c s).
  - reflexivity.
  - reflexivity.
  - intros c s H1 H2. by rewrite rval_valid.
  - intros. apply of_rnd_match.
  - intros. apply of_rnd_match.
  - intros. apply of_rnd_match.
  - intros x y Hy. unfold rquo. destruct (Qeq_bool (rval y) 0) eqn:E.
    + by apply Qeq_bool_iff in E.
    + apply of_rnd_match.
  - intros x y Hy. unfold rquo. apply Qeq_bool_iff in Hy. by rewrite Hy.
  - intros x Hx. unfold rsqrt. destruct (Qlt_le_dec (rval x) 0); [done | lra].
  - apply rsqrt_ok.
  - intros x. unfold rval, rvalid; simpl. rewrite Z.abs_opp. by destruct (_ && _)%bool.
  - intros x. unfold rval, rvalid; simpl. rewrite Z.abs_idemp. by destruct (_ && _)%bool.
  - intros x. assert (Z.abs (Qfloor (rval x)) <= max_coef)%Z.
    { pose proof (rval_repr x) as (c & s & Hc & Hs & E). rewrite E. unfold scaled, Qfloor.
      assert (0 < 10 ^ Z.of_nat s)%Z by (apply Z.pow_pos_nonneg; lia).
      rewrite Z2Pos.id by lia.
      assert (- max_coef <= c / 10 ^ Z.of_nat s <= max_coef)%Z; [| lia].
      split; [apply Z.div_le_lower_bound | apply Z.div_le_upper_bound]; unfold max_coef in *; nia. }
    unfold rfloor. rewrite rval_valid by (done || lia). apply scaled_int.
  - done.
Qed.

(** ** Exact rational arithmetic

    Only the square root is rounded, down to nineteen decimals. *)

Definition QDec : DecimalOps := {|
  dec := Q;
  dval q := q;
  drnd q := Some q;
  dzero := 0;
  done1 := 1;
  dnew := scaled;
  dadd x y := Ok (x + y);
  dsub x y := Ok (x - y);
  dmul x y := Ok (x * y);
  dquo x y := if Qeq_bool y 0 then Err (ErrMsg "division by zero") else Ok (x / y);
  dsqrt x := if Qlt_le_dec x 0 then Err (ErrMsg "square root of a negative number")
             else Ok (scaled (Z.sqrt (Qfloor (x * inject_Z (10 ^ 38)))) 19);
  dneg x := - x;
  dabs x := Qabs x;
  dfloor x := inject_Z (Qfloor x);
  dcmp x y := (x ?= y);
  dparse s := Err (ErrMsg "parse");
  dfloat q := Ok q;
|}.
