(* ===== verification/Types.v ===== *)
(** * strategy/types: the shared domain types

    Signals, yield observations and closed bars ([types.go]), with the true
    range of a bar. *)

From S2P Require Import Prelude GoTime Decimal.

Inductive Signal := SignalHold | SignalBuy | SignalSell.

#[export] Instance Signal_eq_dec : EqDecision Signal.
Proof. solve_decision. Defined.

Definition Signal_String (s : Signal) : string :=
  match s with
  | SignalBuy => "BUY"
  | SignalSell => "SELL"
  | SignalHold => "HOLD"
  end.

Definition signal_eqb (a b : Signal) : bool := bool_decide (a = b).

Section Types.
Context {D : DecimalOps}.

Record YieldObservation := {
  yo_Time : Time;
  yo_BondID : string;
  yo_YTM : dec;
  yo_BenchmarkYield : dec;
  yo_Price : dec;
}.

Definition Spread (o : YieldObservation) : result dec :=
  dsub (yo_YTM o) (yo_BenchmarkYield o).

Record Bar := {
  bar_Time : Time;
  bar_Open : dec;
  bar_High : dec;
  bar_Low : dec;
  bar_Close : dec;
  bar_Volume : dec;
  bar_OpenYTM : dec;
  bar_HighYTM : dec;
  bar_LowYTM : dec;
  bar_CloseYTM : dec;
  bar_BenchmarkYield : dec;
}.

(** The zero value, which a receive from a closed channel yields. *)
Definition zero_Bar : Bar := {|
  bar_Time := zero_time; bar_Open := dzero; bar_High := dzero; bar_Low := dzero; bar_Close := dzero;
  bar_Volume := dzero; bar_OpenYTM := dzero; bar_HighYTM := dzero; bar_LowYTM := dzero;
  bar_CloseYTM := dzero; bar_BenchmarkYield := dzero |}.

Definition set_BenchmarkYield (v : dec) (b : Bar) : Bar := {|
  bar_Time := bar_Time b; bar_Open := bar_Open b; bar_High := bar_High b;
  bar_Low := bar_Low b; bar_Close := bar_Close b; bar_Volume := bar_Volume b;
  bar_OpenYTM := bar_OpenYTM b; bar_HighYTM := bar_HighYTM b;
  bar_LowYTM := bar_LowYTM b; bar_CloseYTM := bar_CloseYTM b;
  bar_BenchmarkYield := v |}.

(** [Bar.TrueRange]: max(H-L, |H-prev|, |L-prev|); a zero previous close
    gives H-L. *)
Definition TrueRange (b : Bar) (prevClose : dec) : result dec :=
  hl ← wrap_err "true range H-L" (dsub (bar_High b) (bar_Low b));
  if d_is_zero prevClose then Ok hl else
  hp ← wrap_err "true range H-prev" (dsub (bar_High b) prevClose);
  lp ← wrap_err "true range L-prev" (dsub (bar_Low b) prevClose);
  let m := if d_gt (dabs lp) (dabs hp) then dabs lp else dabs hp in
  if d_gt m hl then Ok m else Ok hl.
End Types.

Lemma wrap_err_Ok {A} ctx (r : result A) a : wrap_err ctx r = Ok a <-> r = Ok a.
Proof. destruct r; simpl; naive_solver. Qed.

Section TypesTheory.
Context {D : DecimalOps} {L : DecimalLaws}.
Implicit Types (b : Bar) (prev r : dec).

(** The result is the largest of the three candidate ranges. *)
Lemma TrueRange_max b prev r :
  TrueRange b prev = Ok r -> d_is_zero prev = false ->
  exists hl hp lp,
    dsub (bar_High b) (bar_Low b) = Ok hl /\ dsub (bar_High b) prev = Ok hp /\
    dsub (bar_Low b) prev = Ok lp /\
    (dval r == Qmax (dval hl) (Qmax (Qabs (dval hp)) (Qabs (dval lp))))%Q.
Proof.
  unfold TrueRange. intros H Hz.
  apply result_bind_Ok in H as (hl & E1 & H). apply wrap_err_Ok in E1.
  rewrite Hz in H.
  apply result_bind_Ok in H as (hp & E2 & H). apply wrap_err_Ok in E2.
  apply result_bind_Ok in H as (lp & E3 & H). apply wrap_err_Ok in E3.
  exists hl, hp, lp. split_and!; [done..|].
  destruct (d_gt (dabs lp) (dabs hp)) eqn:C1;
    [apply d_gt_spec in C1 | apply d_gt_false in C1]; rewrite !dval_abs in C1;
    match type of H with context [if ?x then _ else _] => destruct x eqn:C2 end;
    injection H as <-;
    [apply d_gt_spec in C2 | apply d_gt_false in C2 | apply d_gt_spec in C2 | apply d_gt_false in C2];
    rewrite !dval_abs in C2; rewrite ?dval_abs;
    destruct (Q.max_spec (Qabs (dval hp)) (Qabs (dval lp))) as [[? M]|[? M]]; rewrite M;
    destruct (Q.max_spec (dval hl) (Qabs (dval hp))) as [[? M']|[? M']];
    destruct (Q.max_spec (dval hl) (Qabs (dval lp))) as [[? M2]|[? M2]];
    rewrite ?M', ?M2; lra.
Qed.

Lemma TrueRange_nonneg b prev r :
  TrueRange b prev = Ok r -> (dval (bar_Low b) <= dval (bar_High b))%Q -> (0 <= dval r)%Q.
Proof.
  intros H HL. destruct (d_is_zero prev) eqn:Hz.
  - unfold TrueRange in H. apply result_bind_Ok in H as (hl & E1 & H).
    rewrite Hz in H. injection H as <-. apply wrap_err_Ok in E1. by eapply dsub_nonneg.
  - destruct (TrueRange_max b prev r H Hz) as (hl & hp & lp & E1 & _ & _ & ->).
    pose proof (dsub_nonneg _ _ _ E1 HL).
    eapply Qle_trans; [| apply Q.le_max_l]. done.
Qed.
End TypesTheory.
