(* ===== verification/Window.v ===== *)
(** * strategy/window: the rolling mean / standard-deviation window

    [Rolling] of [rolling.go]: a circular buffer whose mean, sum of squared
    deviations (Welford) and exact total are updated per observation.

    Theory: the buffer invariant is kept by every [Add], failing ones
    included; the buffer holds the last [size] values in order (a sliding
    window); [Sum] is exact for values on a common decimal grid; and, when
    nothing is rounded, the constant-time updates compute the batch mean and
    sample variance. *)

From S2P Require Import Prelude Decimal RefDecimal.

Definition minWindowSize : nat := 2.

Section Rolling.
Context {D : DecimalOps}.

Record Rolling := MkRolling {
  size : nat;
  buf : list dec;
  head : nat;    (* index of the oldest element, the next write position *)
  count : nat;
  mean : dec;
  m2 : dec;
  sum : dec;
}.

Definition set_buf v w := MkRolling (size w) v (head w) (count w) (mean w) (m2 w) (sum w).
Definition set_head v w := MkRolling (size w) (buf w) v (count w) (mean w) (m2 w) (sum w).
Definition set_count v w := MkRolling (size w) (buf w) (head w) v (mean w) (m2 w) (sum w).
Definition set_mean v w := MkRolling (size w) (buf w) (head w) (count w) v (m2 w) (sum w).
Definition set_m2 v w := MkRolling (size w) (buf w) (head w) (count w) (mean w) v (sum w).
Definition set_sum v w := MkRolling (size w) (buf w) (head w) (count w) (mean w) (m2 w) v.

Definition NewRollingWindow (n : Z) : Rolling :=
  let sz := if n <? Z.of_nat minWindowSize then minWindowSize else Z.to_nat n in
  MkRolling sz (replicate sz dzero) 0 0 dzero dzero dzero.

(** [w.buf[w.head] = value; w.head = (w.head + 1) % w.size] *)
Definition store (value : dec) : SE Rolling unit :=
  modify (fun w => set_head ((head w + 1) mod size w)%nat (set_buf (<[head w := value]> (buf w)) w)).

(** [Rolling.Add] while the buffer is not yet full. *)
Definition add_filling (value : dec) : SE Rolling unit :=
  modify (fun w => set_count (count w + 1)%nat w);;
  mean0 ← gets mean;
  delta ← lift (dsub value mean0);
  n ← gets count;
  inc ← lift (dquo delta (d_int (Z.of_nat n)));
  assign dzero set_mean (dadd mean0 inc);;
  mean1 ← gets mean;
  diff ← lift (dsub value mean1);
  prod ← lift (dmul delta diff);
  m ← gets m2;
  assign dzero set_m2 (dadd m prod);;
  store value;;
  t ← gets sum;
  assign dzero set_sum (dadd t value).

(** [Rolling.Add] once full: the oldest value leaves. *)
Definition add_full (value : dec) : SE Rolling unit :=
  oldest ← gets (fun w => default dzero (buf w !! head w));
  oldMean ← gets mean;
  diff ← lift (dsub value oldest);
  n ← gets size;
  inc ← lift (dquo diff (d_int (Z.of_nat n)));
  assign dzero set_mean (dadd oldMean inc);;
  mean1 ← gets mean;
  valueMean ← lift (dsub value mean1);
  oldestOldMean ← lift (dsub oldest oldMean);
  term2 ← lift (dadd valueMean oldestOldMean);
  prod ← lift (dmul diff term2);
  m ← gets m2;
  assign dzero set_m2 (dadd m prod);;
  modify (fun w => if d_is_neg (m2 w) then set_m2 dzero w else w);;
  store value;;
  t ← gets sum;
  assign dzero set_sum (dadd t value);;
  t' ← gets sum;
  assign dzero set_sum (dsub t' oldest).

Definition Add (value : dec) : SE Rolling unit := fun w =>
  if (count w <? size w)%nat then add_filling value w else add_full value w.

Definition Ready (w : Rolling) : bool := (count w =? size w)%nat.
Definition Mean (w : Rolling) : dec := mean w.
Definition Sum (w : Rolling) : dec := sum w.

Definition Variance (w : Rolling) : result dec :=
  if (count w <? minWindowSize)%nat then Ok dzero
  else dquo (m2 w) (d_int (Z.of_nat (count w) - 1)).

Definition StdDev (w : Rolling) : result dec :=
  v ← Variance w; dsqrt v.

Definition ZScore (w : Rolling) (value minStdDev : dec) : result dec :=
  sd ← StdDev w;
  if d_lt sd minStdDev then Ok dzero else
  num ← dsub value (mean w);
  dquo num sd.

(** Observing a whole series. *)
Fixpoint AddAll (vs : list dec) : SE Rolling unit :=
  match vs with
  | [] => mret tt
  | v :: rest => Add v;; AddAll rest
  end.
End Rolling.

(** ** The buffer invariant *)

Section Buffer.
Context {D : DecimalOps}.
Implicit Types (w : Rolling) (v : dec).

Record wf (w : Rolling) : Prop := {
  wf_size : (2 <= size w)%nat;
  wf_buf : length (buf w) = size w;
  wf_head : (head w < size w)%nat;
  wf_count : (count w <= size w)%nat;
  wf_filling : (count w < size w)%nat -> head w = count w;
}.

Lemma wf_New n : wf (NewRollingWindow n).
Proof.
  unfold NewRollingWindow. destruct (n <? Z.of_nat minWindowSize) eqn:E; bool_prop;
    unfold minWindowSize in *; split; simpl; rewrite ?length_replicate; lia.
Qed.

(** Oldest first. *)
Definition contents (w : Rolling) : list dec :=
  if (count w <? size w)%nat then take (count w) (buf w)
  else drop (head w) (buf w) ++ take (head w) (buf w).

Lemma length_contents w : wf w -> length (contents w) = count w.
Proof.
  intros []. unfold contents. destruct (count w <? size w)%nat eqn:E; bool_prop;
    rewrite ?length_app, ?length_take, ?length_drop; lia.
Qed.

Lemma contents_New n : contents (NewRollingWindow n) = [].
Proof.
  apply length_zero_iff_nil. rewrite length_contents by apply wf_New.
  unfold NewRollingWindow. by destruct (n <? _).
Qed.

Lemma take_insert_here (l : list dec) i v :
  (i < length l)%nat -> take (S i) (<[i:=v]> l) = take i l ++ [v].
Proof.
  intros H. rewrite (take_S_r _ _ v) by (by apply list_lookup_insert_eq).
  by rewrite take_insert_ge by lia.
Qed.

Lemma contents_filling w v (w' := set_head ((head w + 1) mod size w)%nat
    (set_buf (<[head w := v]> (buf w)) (set_count (count w + 1)%nat w))) :
  wf w -> (count w < size w)%nat -> contents w' = contents w ++ [v].
Proof.
  intros [] Hc. assert (head w = count w) as Hh by auto.
  unfold contents, w'. simpl. rewrite (proj2 (Nat.ltb_lt _ _) Hc), Hh.
  replace (count w + 1)%nat with (S (count w)) by lia.
  destruct (S (count w) <? size w)%nat eqn:E; bool_prop.
  - apply take_insert_here. lia.
  - replace (size w) with (S (count w)) by lia. rewrite Nat.Div0.mod_same, drop_0, take_0, app_nil_r.
    rewrite <- (take_ge (<[count w:=v]> (buf w)) (S (count w))) by (rewrite length_insert; lia).
    apply take_insert_here. lia.
Qed.

Lemma contents_full w : wf w -> ~ (count w < size w)%nat ->
  contents w = default dzero (buf w !! head w) :: drop (S (head w)) (buf w) ++ take (head w) (buf w).
Proof.
  intros [] Hc. unfold contents. rewrite (proj2 (Nat.ltb_ge _ _)) by lia.
  destruct (lookup_lt_is_Some_2 (buf w) (head w)) as [x Hx]; [lia |].
  rewrite Hx. simpl. by rewrite (drop_S _ _ _ Hx).
Qed.

Lemma contents_full_after w v (w' := set_head ((head w + 1) mod size w)%nat
    (set_buf (<[head w := v]> (buf w)) w)) :
  wf w -> ~ (count w < size w)%nat ->
  contents w' = drop (S (head w)) (buf w) ++ take (head w) (buf w) ++ [v].
Proof.
  intros [] Hc. unfold contents, w'. simpl. rewrite (proj2 (Nat.ltb_ge _ _)) by lia.
  replace (head w + 1)%nat with (S (head w)) by lia.
  destruct (decide (S (head w) < size w)%nat).
  - rewrite Nat.mod_small by done. rewrite drop_insert_lt by lia.
    by rewrite take_insert_here by lia.
  - replace (size w) with (S (head w)) by lia.
    rewrite Nat.Div0.mod_same, drop_0, take_0, app_nil_r.
    rewrite (drop_ge (buf w)) by lia. simpl.
    rewrite <- (take_ge (<[head w:=v]> (buf w)) (S (head w))) by (rewrite length_insert; lia).
    apply take_insert_here. lia.
Qed.
End Buffer.

(** ** What a successful [Add] does *)

Section Steps.
Context {D : DecimalOps}.
Implicit Types (w : Rolling) (v : dec).

Definition slide w v mu m s cnt : Rolling :=
  MkRolling (size w) (<[head w := v]> (buf w)) ((head w + 1) mod size w) cnt mu m s.

Lemma add_filling_Ok w v w' : add_filling v w = (Ok tt, w') ->
  exists delta inc mu diff prod m s,
    dsub v (mean w) = Ok delta /\ dquo delta (d_int (Z.of_nat (count w + 1))) = Ok inc /\
    dadd (mean w) inc = Ok mu /\ dsub v mu = Ok diff /\ dmul delta diff = Ok prod /\
    dadd (m2 w) prod = Ok m /\ dadd (sum w) v = Ok s /\
    w' = slide w v mu m s (count w + 1).
Proof.
  unfold add_filling, store. run_SE. intros H.
  chase_ok H.
  injection H as <-. do 7 eexists. split_and!; try done.
Qed.

Lemma add_full_Ok w v w' : add_full v w = (Ok tt, w') ->
  let oldest := default dzero (buf w !! head w) in
  exists diff inc mu vm om t2 prod m s1 s,
    dsub v oldest = Ok diff /\ dquo diff (d_int (Z.of_nat (size w))) = Ok inc /\
    dadd (mean w) inc = Ok mu /\ dsub v mu = Ok vm /\ dsub oldest (mean w) = Ok om /\
    dadd vm om = Ok t2 /\ dmul diff t2 = Ok prod /\ dadd (m2 w) prod = Ok m /\
    dadd (sum w) v = Ok s1 /\ dsub s1 oldest = Ok s /\
    w' = slide w v mu (if d_is_neg m then dzero else m) s (count w).
Proof.
  unfold add_full, store. run_SE. intros H.
  chase_ok H.
  all: destruct (d_is_neg _) eqn:?; simpl in *; chase_ok H.
  all: injection H as <-; do 10 eexists; split_and!; try done.
  all: match goal with E : d_is_neg ?m = _ |- _ = slide _ _ _ (if d_is_neg ?m then _ else _) _ _ => by rewrite E end.
Qed.

Lemma Add_Ok_contents w v w' :
  wf w -> Add v w = (Ok tt, w') -> contents w' = lastn (size w) (contents w ++ [v]) /\ size w' = size w.
Proof.
  intros Hw H. unfold Add in H. pose proof (length_contents w Hw) as Hl. pose proof Hw as [].
  destruct (count w <? size w)%nat eqn:E; bool_prop.
  - apply add_filling_Ok in H as (? & ? & mu & ? & ? & m & s & _ & _ & _ & _ & _ & _ & _ & ->).
    split; [| done]. rewrite lastn_all by (rewrite length_app, Hl; simpl; lia).
    by rewrite <- contents_filling.
  - apply add_full_Ok in H as (? & ? & mu & ? & ? & ? & ? & m & ? & s & _ & _ & _ & _ & _ & _ & _ & _ & _ & _ & ->).
    split; [| done].
    transitivity (drop (S (head w)) (buf w) ++ take (head w) (buf w) ++ [v]).
    + rewrite <- (contents_full_after w v Hw) by lia. done.
    + unfold lastn. rewrite length_app, Hl. simpl.
      replace (count w + 1 - size w)%nat with 1%nat by lia.
      rewrite contents_full by (done || lia). simpl. by rewrite <- app_assoc.
Qed.

Lemma contents_grow w v w' :
  wf w -> Add v w = (Ok tt, w') -> (count w < size w)%nat -> contents w' = contents w ++ [v].
Proof.
  intros Hw H Hc. destruct (Add_Ok_contents w v w' Hw H) as [-> _].
  apply lastn_all. rewrite length_app, length_contents by done. simpl. lia.
Qed.

Lemma contents_shift w v w' :
  wf w -> Add v w = (Ok tt, w') -> ~ (count w < size w)%nat ->
  contents w' = drop (S (head w)) (buf w) ++ take (head w) (buf w) ++ [v].
Proof.
  intros Hw H Hc. destruct (Add_Ok_contents w v w' Hw H) as [-> _].
  unfold lastn. rewrite length_app, length_contents by done. cbn [length].
  replace (count w + 1 - size w)%nat with 1%nat by (destruct Hw; lia).
  rewrite contents_full by done. simpl. by rewrite <- app_assoc.
Qed.

Lemma Add_Ok_wf w v w' : wf w -> Add v w = (Ok tt, w') -> wf w'.
Proof.
  intros Hw H. unfold Add in H. pose proof Hw as [].
  destruct (count w <? size w)%nat eqn:E; bool_prop.
  - apply add_filling_Ok in H as (? & ? & mu & ? & ? & m & s & _ & _ & _ & _ & _ & _ & _ & ->).
    split; simpl; rewrite ?length_insert; try lia.
    + apply Nat.mod_upper_bound. lia.
    + intros. rewrite Nat.mod_small; rewrite wf_filling0; lia.
  - apply add_full_Ok in H as (? & ? & mu & ? & ? & ? & ? & m & ? & s & _ & _ & _ & _ & _ & _ & _ & _ & _ & _ & ->).
    split; simpl; rewrite ?length_insert; try lia. apply Nat.mod_upper_bound. lia.
Qed.

Lemma AddAll_cons v vs w r w' : AddAll (v :: vs) w = (Ok r, w') ->
  exists w1, Add v w = (Ok tt, w1) /\ AddAll vs w1 = (Ok r, w').
Proof.
  simpl. intros H. apply SE_bind_Ok in H as ([] & w1 & H1 & H2). by exists w1.
Qed.
End Steps.

(** ** Memory safety: the write index is always inside the buffer *)

Section Safety.
Context {D : DecimalOps}.
Implicit Types (w : Rolling) (v : dec).

Record in_bounds (w : Rolling) : Prop := {
  ib_size : (2 <= size w)%nat;
  ib_buf : length (buf w) = size w;
  ib_head : (head w < size w)%nat;
  ib_count : (count w <= size w)%nat;
}.

Lemma wf_in_bounds w : wf w -> in_bounds w.
Proof. by intros []. Qed.

Lemma in_bounds_same w w' : in_bounds w ->
  size w' = size w -> buf w' = buf w -> head w' = head w -> count w' = count w -> in_bounds w'.
Proof. intros [] Es Eb Eh Ec. split; rewrite ?Es, ?Eb, ?Eh, ?Ec; done. Qed.

Lemma in_bounds_store v w : in_bounds w -> in_bounds (store v w).2.
Proof.
  intros []. unfold store. run_SE. split; simpl; rewrite ?length_insert; try done.
  apply Nat.mod_upper_bound. lia.
Qed.

Lemma in_bounds_lift {A} (r : result A) w : in_bounds w -> in_bounds (lift r w).2.
Proof. done. Qed.

Lemma in_bounds_gets {A} (f : Rolling -> A) w : in_bounds w -> in_bounds (gets f w).2.
Proof. done. Qed.

Lemma in_bounds_assign (set : dec -> Rolling -> Rolling) r w :
  (forall x w, in_bounds w -> in_bounds (set x w)) -> in_bounds w -> in_bounds (assign dzero set r w).2.
Proof. intros Hs H. unfold assign. destruct r; simpl; auto. Qed.

Lemma in_bounds_mean x w : in_bounds w -> in_bounds (set_mean x w).
Proof. intros H. by eapply in_bounds_same. Qed.
Lemma in_bounds_m2 x w : in_bounds w -> in_bounds (set_m2 x w).
Proof. intros H. by eapply in_bounds_same. Qed.
Lemma in_bounds_sum x w : in_bounds w -> in_bounds (set_sum x w).
Proof. intros H. by eapply in_bounds_same. Qed.

Hint Resolve in_bounds_store in_bounds_lift in_bounds_gets in_bounds_assign
  in_bounds_mean in_bounds_m2 in_bounds_sum : verif.

Ltac each_step := repeat (apply SE_bind_inv; [auto with verif | intros]); auto with verif.

(** Also when a decimal operation fails half way through. *)
Lemma Add_in_bounds v w : in_bounds w -> in_bounds (Add v w).2.
Proof.
  intros H. unfold Add. destruct (count w <? size w)%nat eqn:E; bool_prop.
  - unfold add_filling. apply SE_bind_inv.
    + destruct H. split; simpl; lia.
    + intros. each_step.
  - unfold add_full. each_step. unfold modify; simpl. destruct (d_is_neg _); auto with verif.
Qed.
End Safety.

(** ** [Sum] is exact on a common decimal grid *)

Section SumExact.
Context {D : DecimalOps} {L : DecimalLaws}.
Implicit Types (w : Rolling) (v : dec).

Variables (s : nat) (m : Z).
Hypothesis Hs : (s <= 19)%nat.
Hypothesis Hm : 0 <= m.

Definition gridded v : Prop := on_grid s m (dval v).

Definition sum_inv w : Prop :=
  wf w /\ Forall gridded (contents w) /\ (dval (sum w) == qsum (dval <$> contents w))%Q.

Lemma qsum_grid (l : list dec) :
  Forall gridded l -> on_grid s (m * Z.of_nat (length l)) (qsum (dval <$> l)).
Proof.
  induction 1 as [|v l Hv _ IH]; simpl.
  - exists 0. split; [lia | unfold scaled, Qeq; simpl; lia].
  - apply (on_grid_weaken s (m + m * Z.of_nat (length l))); [lia |]. by apply on_grid_add.
Qed.

Lemma grid_add_exact m' x y z :
  on_grid s m' (dval x + dval y) -> m' <= max_coef -> dadd x y = Ok z -> (dval z == dval x + dval y)%Q.
Proof.
  intros Hg Hb E. eapply dmatch_exact_val; [apply dadd_spec | | exact E].
  by eapply on_grid_representable.
Qed.

Lemma grid_sub_exact m' x y z :
  on_grid s m' (dval x - dval y) -> m' <= max_coef -> dsub x y = Ok z -> (dval z == dval x - dval y)%Q.
Proof.
  intros Hg Hb E. eapply dmatch_exact_val; [apply dsub_spec | | exact E].
  by eapply on_grid_representable.
Qed.

Lemma sum_inv_Add w v w' :
  m * Z.of_nat (S (size w)) <= max_coef -> sum_inv w -> gridded v ->
  Add v w = (Ok tt, w') -> sum_inv w'.
Proof.
  intros Hb (Hw & HF & Hsum) Hv H.
  destruct (Add_Ok_contents w v w' Hw H) as [Hc Hsz].
  pose proof (length_contents w Hw) as Hl.
  assert (HF' : Forall gridded (contents w ++ [v])) by (apply Forall_app; split; [done | by constructor]).
  split_and!; [by eapply Add_Ok_wf | rewrite Hc; by apply Forall_drop |].
  assert (Hsv : forall t, dadd (sum w) v = Ok t -> (dval t == qsum (dval <$> (contents w ++ [v])))%Q).
  { intros t Et. rewrite fmap_app, qsum_app, <- Hsum. simpl. rewrite Qplus_0_r.
    eapply grid_add_exact; [| exact Hb | exact Et].
    eapply on_grid_proper; [| apply (on_grid_weaken s (m * Z.of_nat (length (contents w ++ [v])))); [| by apply qsum_grid]].
    - rewrite fmap_app, qsum_app, <- Hsum. simpl. lra.
    - rewrite length_app. simpl. destruct Hw. nia. }
  unfold Add in H. destruct (count w <? size w)%nat eqn:E; bool_prop.
  - apply add_filling_Ok in H as (? & ? & mu & ? & ? & m' & t & _ & _ & _ & _ & _ & _ & Et & ->).
    simpl in *. rewrite Hc, lastn_all by (rewrite length_app; simpl; lia). by apply Hsv.
  - apply add_full_Ok in H as (? & ? & mu & ? & ? & ? & ? & m' & t1 & t & _ & _ & _ & _ & _ & _ & _ & _ & Et1 & Et & ->).
    simpl in *. rewrite Hc. apply Hsv in Et1.
    assert (length (contents w) = size w) as Hfull by (destruct Hw; lia).
    pose proof (contents_full w Hw ltac:(lia)) as Hcw.
    set (o := default dzero (buf w !! head w)) in *.
    set (rest := drop (S (head w)) (buf w) ++ take (head w) (buf w)) in *. clearbody o rest.
    rewrite Hcw in *. unfold lastn. rewrite length_app, Hfull. cbn [app length] in *.
    replace (size w + 1 - size w)%nat with 1%nat by lia. cbn [drop sum slide]. rewrite drop_0.
    rewrite fmap_cons, qsum_cons in Et1.
    rewrite (grid_sub_exact (m * Z.of_nat (S (size w))) t1 o t); [rewrite Et1; lra | | done | done].
    inversion HF' as [|? ? Ho Hr]; subst.
    eapply on_grid_proper; [| apply (on_grid_weaken s (m * Z.of_nat (length (rest ++ [v])))); [| by apply qsum_grid]].
    + rewrite Et1. lra.
    + rewrite length_app. simpl. nia.
Qed.

(** A series fails at its first failing value. *)
Lemma AddAll_Err vs w e w' : AddAll vs w = (Err e, w') ->
  exists seen v rest w0, vs = seen ++ v :: rest /\ AddAll seen w = (Ok tt, w0) /\ Add v w0 = (Err e, w').
Proof.
  revert w. induction vs as [|v vs IH]; intros w H; [done |]. simpl in H. unfold mbind, SE_bind in H.
  destruct (Add v w) as [[[]|e'] w1] eqn:E.
  - destruct (IH w1 H) as (seen & x & rest & w0 & -> & H0 & H1). exists (v :: seen), x, rest, w0. split_and!; [done | | done].
    simpl. unfold mbind, SE_bind. by rewrite E.
  - injection H as <- <-. by exists [], v, vs, w.
Qed.

(** An addition writes its value at the next index, or nothing. *)
Lemma Add_buf v w r w' : Add v w = (r, w') -> buf w' = buf w \/ buf w' = <[head w := v]> (buf w).
Proof.
  unfold Add, add_filling, add_full, store. destruct (count w <? size w)%nat; run_SE; intros H;
    repeat match type of H with
      | context [match ?x with Ok _ => _ | Err _ => _ end] => destruct x
      | context [if d_is_neg ?x then _ else _] => destruct (d_is_neg x)
      end; simpl in *; injection H as _ <-; simpl; auto.
Qed.

Lemma AddAll_contents vs w w' :
  wf w -> AddAll vs w = (Ok tt, w') -> wf w' /\ size w' = size w /\ contents w' = lastn (size w) (contents w ++ vs).
Proof.
  revert w. induction vs as [|v vs IH]; intros w Hw H.
  - injection H as <-. rewrite app_nil_r, lastn_all; [done |].
    rewrite length_contents by done. by destruct Hw.
  - apply AddAll_cons in H as (w1 & H1 & H2).
    destruct (Add_Ok_contents w v w1 Hw H1) as [Hc Hsz].
    destruct (IH w1 (Add_Ok_wf _ _ _ Hw H1) H2) as (Hw' & Hsz' & ->).
    split_and!; [done | congruence |]. rewrite Hc, Hsz. apply lastn_lastn_app.
Qed.

Lemma sum_inv_AddAll vs w w' :
  m * Z.of_nat (S (size w)) <= max_coef -> Forall gridded vs -> sum_inv w ->
  AddAll vs w = (Ok tt, w') -> sum_inv w'.
Proof.
  intros Hb HF. revert w Hb. induction HF as [|v vs Hv _ IH]; intros w Hb Hi H.
  - by injection H as <-.
  - apply AddAll_cons in H as (w1 & H1 & H2).
    apply (IH w1); [| by eapply sum_inv_Add | done].
    by destruct (Add_Ok_contents w v w1 (proj1 Hi) H1) as [_ ->].
Qed.
End SumExact.

(** ** Welford's updates compute the batch statistics

    Stated for the same definitions over exact rationals: what the algorithm
    computes when no operation rounds. *)

Section Welford.
#[local] Open Scope Q_scope.
#[local] Existing Instance QDec.

Definition qsumsq (l : list Q) : Q := qsum ((fun x => x * x) <$> l).
(** Sum of squared deviations from [c]. *)
Definition qdev (c : Q) (l : list Q) : Q := qsum ((fun x => (x - c) * (x - c)) <$> l).

Definition qlen (l : list Q) : Q := inject_Z (Z.of_nat (length l)).

Lemma qlen_app l x : qlen (l ++ [x]) == qlen l + 1.
Proof. unfold qlen. rewrite length_app, Nat2Z.inj_add, inject_Z_plus. done. Qed.

Lemma qsumsq_app l x : qsumsq (l ++ [x]) == qsumsq l + x * x.
Proof. unfold qsumsq. rewrite fmap_app, qsum_app. simpl. lra. Qed.

Lemma qdev_expand c l : qdev c l == qsumsq l - 2 * c * qsum l + qlen l * c * c.
Proof.
  induction l as [|x l IH]; [unfold qdev, qsumsq, qlen; cbn; change (inject_Z 0) with 0; ring |].
  unfold qdev, qsumsq in *. rewrite !fmap_cons, !qsum_cons, IH.
  unfold qlen. cbn [length]. rewrite Nat2Z.inj_succ, <- Z.add_1_l, inject_Z_plus.
  change (inject_Z 1) with 1. ring.
Qed.

Lemma qdev_nonneg c l : 0 <= qdev c l.
Proof.
  unfold qdev. induction l as [|x l IH]; [apply Qle_refl |].
  rewrite fmap_cons, qsum_cons. pose proof (Qsquare_nonneg (x - c)). lra.
Qed.

Definition welford_inv (w : Rolling) : Prop :=
  wf w /\ mean w * qlen (contents w) == qsum (contents w) /\ m2 w == qdev (mean w) (contents w).

Lemma QDec_int n : d_int n = scaled n 0.
Proof. reflexivity. Qed.

Lemma QDec_int_pos n : (0 < n)%nat ->
  Qeq_bool (d_int (Z.of_nat n)) 0 = false /\ d_int (Z.of_nat n) == inject_Z (Z.of_nat n).
Proof.
  intros H. rewrite QDec_int. split; [| apply scaled_int].
  destruct (Qeq_bool _ _) eqn:E; [| done]. apply Qeq_bool_iff in E.
  rewrite scaled_int in E. unfold Qeq, inject_Z in E. simpl in E. lia.
Qed.

Lemma QDec_quo x n : (0 < n)%nat ->
  dquo x (d_int (Z.of_nat n)) = Ok (x / d_int (Z.of_nat n)).
Proof. intros H. cbn [dquo QDec]. by destruct (QDec_int_pos n H) as [-> _]. Qed.

Lemma inject_nat_pos n : (0 < n)%nat -> 0 < inject_Z (Z.of_nat n).
Proof. intros H. change 0 with (inject_Z 0). rewrite <- Zlt_Qlt. lia. Qed.

(** The two update rules, as algebra. *)
Lemma welford_grow_alg (n N mu s q M v : Q) :
  0 <= n -> N == n + 1 -> mu * n == s -> M == q - 2 * mu * s + n * mu * mu ->
  let mu' := mu + (v - mu) / N in
  mu' * (n + 1) == s + v /\
  M + (v - mu) * (v - mu') == (q + v * v) - 2 * mu' * (s + v) + (n + 1) * mu' * mu'.
Proof.
  intros Hn EN Es EM mu'. unfold mu'. rewrite EN, EM, <- Es. split; field; lra.
Qed.

Lemma welford_slide_alg (k N mu r q M o v : Q) :
  0 <= k -> N == k + 1 -> mu * (k + 1) == r + o ->
  M == (q + o * o) - 2 * mu * (r + o) + (k + 1) * mu * mu ->
  let mu' := mu + (v - o) / N in
  mu' * (k + 1) == r + v /\
  M + (v - o) * (v - mu' + (o - mu)) == (q + v * v) - 2 * mu' * (r + v) + (k + 1) * mu' * mu'.
Proof.
  intros Hk EN Er EM mu'. unfold mu'.
  assert (r == mu * (k + 1) - o) as -> by lra.
  assert (M == (q + o * o) - 2 * mu * (mu * (k + 1)) + (k + 1) * mu * mu) as -> by (rewrite EM, Er; ring).
  rewrite EN. split; field; lra.
Qed.

(** No operation fails over the rationals. *)
Lemma add_filling_total v w : exists w', add_filling v w = (Ok tt, w').
Proof.
  pose proof (QDec_quo (v - mean w) (count w + 1) ltac:(lia)) as Eq.
  unfold add_filling, store. run_SE. rewrite Eq. simpl. by eexists.
Qed.

Lemma add_full_total v w : (0 < size w)%nat -> exists w', add_full v w = (Ok tt, w').
Proof.
  intros H. pose proof (QDec_quo (v - default dzero (buf w !! head w)) (size w) H) as Eq.
  unfold add_full, store. run_SE. rewrite Eq. simpl. by eexists.
Qed.

Definition batch_stats (w : Rolling) (l : list Q) : Prop :=
  mean w * qlen l == qsum l /\ m2 w == qdev (mean w) l.

Lemma batch_stats_snoc w (l : list Q) v :
  mean w * (qlen l + 1) == qsum l + v ->
  m2 w == (qsumsq l + v * v) - 2 * mean w * (qsum l + v) + (qlen l + 1) * mean w * mean w ->
  batch_stats w (l ++ [v]).
Proof.
  intros H1 H2.
  assert (qsum (l ++ [v]) == qsum l + v) as Es by (rewrite qsum_app; cbn; lra).
  split; [by rewrite qlen_app, Es |]. by rewrite qdev_expand, qsumsq_app, qlen_app, Es.
Qed.

Lemma qlen_nonneg l : 0 <= qlen l.
Proof. unfold qlen. change 0 with (inject_Z 0). rewrite <- Zle_Qle. lia. Qed.

Lemma qlen_count w : wf w -> qlen (contents w) = inject_Z (Z.of_nat (count w)).
Proof. intros Hw. unfold qlen. f_equal. f_equal. exact (length_contents w Hw). Qed.

Lemma welford_filling v w w' :
  welford_inv w -> (count w < size w)%nat -> add_filling v w = (Ok tt, w') ->
  batch_stats w' (contents w ++ [v]).
Proof.
  intros (Hw & Hmean & Hm2) Hc H.
  pose proof (length_contents w Hw) as Hl. rewrite qdev_expand in Hm2.
  apply add_filling_Ok in H as (de & inc & mu & df & pr & m & s & E1 & E2 & E3 & E4 & E5 & E6 & _ & ->).
  destruct (QDec_int_pos (count w + 1) ltac:(lia)) as [_ Hn].
  rewrite QDec_quo in E2 by lia.
  set (N := d_int (Z.of_nat (count w + 1))) in *. clearbody N. cbn [dadd dsub dmul QDec] in *.
  injection E1 as <-. injection E2 as <-. injection E3 as <-. injection E4 as <-.
  injection E5 as <-. injection E6 as <-.
  assert (N == qlen (contents w) + 1) as HN.
  { rewrite Hn, (qlen_count w) by done. rewrite Nat2Z.inj_add, inject_Z_plus. done. }
  destruct (welford_grow_alg _ N _ _ _ _ v (qlen_nonneg _) HN Hmean Hm2).
  by apply batch_stats_snoc.
Qed.

Lemma welford_full v w w' :
  welford_inv w -> ~ (count w < size w)%nat -> add_full v w = (Ok tt, w') ->
  batch_stats w' (drop (S (head w)) (buf w) ++ take (head w) (buf w) ++ [v]).
Proof.
  intros (Hw & Hmean & Hm2) Hc H.
  pose proof (length_contents w Hw) as Hl. pose proof (contents_full w Hw Hc) as Hold.
  apply add_full_Ok in H as (di & inc & mu & vm & om & t2 & pr & m & s1 & s & E1 & E2 & E3 & E4 & E5 & E6 & E7 & E8 & _ & _ & ->).
  rewrite app_assoc. destruct Hw.
  destruct (QDec_int_pos (size w) ltac:(lia)) as [_ Hn]. rewrite QDec_quo in E2 by lia.
  set (o := default dzero (buf w !! head w)) in *. set (N := d_int (Z.of_nat (size w))) in *.
  set (rest := drop (S (head w)) (buf w) ++ take (head w) (buf w)) in *. clearbody o rest N.
  cbn [dadd dsub dmul QDec] in *.
  injection E1 as <-. injection E2 as <-. injection E3 as <-. injection E4 as <-.
  injection E5 as <-. injection E6 as <-. injection E7 as <-. injection E8 as <-.
  assert (qlen (o :: rest) == qlen rest + 1) as Hk.
  { unfold qlen. cbn [length]. rewrite Nat2Z.inj_succ, <- Z.add_1_r, inject_Z_plus. done. }
  assert (N == qlen rest + 1) as HN.
  { rewrite <- Hk, <- Hold, Hn, (qlen_count w) by done. replace (count w) with (size w) by lia. done. }
  assert (qsum (o :: rest) == qsum rest + o) as Es by (rewrite qsum_cons; lra).
  assert (qsumsq (o :: rest) == qsumsq rest + o * o) as Eq by (unfold qsumsq; rewrite fmap_cons, qsum_cons; lra).
  rewrite Hold in Hm2, Hmean. rewrite qdev_expand, Hk, Es, Eq in Hm2. rewrite Hk, Es in Hmean.
  destruct (welford_slide_alg _ N _ _ _ _ o v (qlen_nonneg _) HN Hmean Hm2) as [H1 H2].
  set (w1 := slide w v (mean w + (v - o) / N) (m2 w + (v - o) * (v - (mean w + (v - o) / N) + (o - mean w))) s (count w)).
  assert (batch_stats w1 (rest ++ [v])) as [B1 B2] by (by apply batch_stats_snoc).
  split; [exact B1 |]. cbn [m2 mean slide].
  (* the guard against negative drift never fires *)
  pose proof (qdev_nonneg (mean w1) (rest ++ [v])) as Hnn. rewrite <- B2 in Hnn. cbn [m2 mean slide w1] in Hnn, B2.
  destruct (d_is_neg _) eqn:En; [exfalso | exact B2].
  unfold d_is_neg in En. cbn [dcmp dzero QDec] in En.
  destruct (Qcompare_spec (m2 w + (v - o) * (v - (mean w + (v - o) / N) + (o - mean w))) 0); [done | lra | done].
Qed.

Lemma welford_Add v w : welford_inv w ->
  exists w', Add v w = (Ok tt, w') /\ welford_inv w' /\ size w' = size w.
Proof.
  intros Hi. pose proof Hi as (Hw & _ & _). pose proof (length_contents w Hw) as Hl.
  destruct (count w <? size w)%nat eqn:E.
  - destruct (add_filling_total v w) as [w' H].
    assert (Add v w = (Ok tt, w')) as HA by (unfold Add; by rewrite E).
    destruct (Add_Ok_contents w v w' Hw HA) as [Hc Hs]. bool_prop.
    exists w'. split_and!; [done | | done]. split; [by eapply Add_Ok_wf |].
    rewrite (contents_grow w v w') by done. by apply welford_filling.
  - destruct (add_full_total v w) as [w' H]; [destruct Hw; lia |].
    assert (Add v w = (Ok tt, w')) as HA by (unfold Add; by rewrite E).
    destruct (Add_Ok_contents w v w' Hw HA) as [Hc Hs]. bool_prop.
    exists w'. split_and!; [done | | done]. split; [by eapply Add_Ok_wf |].
    rewrite (contents_shift w v w') by (done || lia). apply welford_full; [done | lia | done].
Qed.

Lemma welford_AddAll vs w : welford_inv w ->
  exists w', AddAll vs w = (Ok tt, w') /\ welford_inv w'.
Proof.
  revert w. induction vs as [|v vs IH]; intros w Hi; [by exists w |].
  destruct (welford_Add v w Hi) as (w1 & H1 & Hi1 & _).
  destruct (IH w1 Hi1) as (w' & H2 & Hi'). exists w'. split; [| done].
  cbn [AddAll]. unfold mbind, SE_bind. by rewrite H1.
Qed.

Lemma welford_inv_New n : welford_inv (NewRollingWindow n).
Proof.
  split; [apply wf_New |].
  rewrite contents_New. split; reflexivity.
Qed.
End Welford.

(** ** Properties *)

Section Properties.
Context {D : DecimalOps} {L : DecimalLaws}.

(** C6: feeding any series to a fresh window never writes outside the buffer.
    When every addition succeeds the window holds exactly the last [size]
    values, in order: the circular buffer refines the sliding-window
    specification.  When one fails (an operation on decimals overflows) the
    window held the last values before it, and the failing addition has
    written at most its own value, at the next index. *)
Theorem rolling_sliding_window (n : Z) (vs : list dec) : let '(r, w) := AddAll vs (NewRollingWindow n) in
  in_bounds w /\
  match r with
  | Ok _ => contents w = lastn (size w) vs /\ (Ready w = true <-> (size w <= length vs)%nat)
  | Err e => exists seen v rest w0, vs = seen ++ v :: rest /\ AddAll seen (NewRollingWindow n) = (Ok tt, w0) /\
      contents w0 = lastn (size w0) seen /\ Add v w0 = (Err e, w) /\ (buf w = buf w0 \/ buf w = <[head w0 := v]> (buf w0))
  end.
Proof.
  destruct (AddAll vs (NewRollingWindow n)) as [[[]|e] w] eqn:H.
  - destruct (AddAll_contents _ _ _ (wf_New n) H) as (Hw & Hs & Hc). rewrite contents_New, app_nil_l in Hc.
    split; [by apply wf_in_bounds |]. rewrite Hs. split; [done |].
    pose proof (length_contents w Hw) as Hl. rewrite Hc, length_lastn in Hl. unfold Ready. rewrite Nat.eqb_eq. destruct Hw. split; lia.
  - destruct (AddAll_Err _ _ _ _ H) as (seen & v & rest & w0 & -> & H0 & H1).
    destruct (AddAll_contents _ _ _ (wf_New n) H0) as (Hw & Hs & Hc). rewrite contents_New, app_nil_l in Hc.
    pose proof (Add_in_bounds v w0 (wf_in_bounds w0 Hw)) as Hb. rewrite H1 in Hb. split; [done |].
    exists seen, v, rest, w0. rewrite Hs. split_and!; [done.. |]. by apply (Add_buf v w0 (Err e)).
Qed.

(** [Sum] is the exact total of the window's values whenever the values
    lie on one decimal grid [10^-s] with coefficients up to [m] and
    [(size + 1) * m] still fits nineteen digits, whatever rounding happens
    in the mean and the variance. *)
Theorem rolling_sum_exact (n : Z) (s : nat) (m : Z) (vs : list dec) (w : Rolling) :
  (s <= 19)%nat -> 0 <= m -> m * Z.of_nat (S (size w)) <= max_coef ->
  Forall (fun v => on_grid s m (dval v)) vs ->
  AddAll vs (NewRollingWindow n) = (Ok tt, w) ->
  (dval (Sum w) == qsum (dval <$> lastn (size w) vs))%Q.
Proof.
  intros Hs Hm Hb HF H.
  destruct (AddAll_contents _ _ _ (wf_New n) H) as (Hw & Hsz & Hc).
  rewrite contents_New, app_nil_l in Hc. rewrite Hsz in *. rewrite <- Hc.
  refine (proj2 (proj2 (sum_inv_AddAll s m Hs Hm vs (NewRollingWindow n) w Hb HF _ H))).
  split_and!; [apply wf_New | rewrite contents_New; constructor |].
  rewrite contents_New. unfold NewRollingWindow. destruct (n <? _); simpl; apply dval_zero.
Qed.

(** An [Add] that fails half way (a decimal overflow) still leaves every
    index of the circular buffer in range. *)
Theorem rolling_add_safe (w : Rolling) (v : dec) :
  in_bounds w -> in_bounds (Add v w).2.
Proof. intros H. by apply Add_in_bounds. Qed.
End Properties.

(** Over exact rationals no [Add] fails and the constant-time Welford
    updates compute the batch statistics of the window: [Mean] is the
    arithmetic mean and [m2] the sum of squared deviations from it, in the
    sliding phase as well as while filling. *)
Theorem rolling_welford_exact (n : Z) (vs : list (@dec QDec)) :
  exists w, AddAll (D := QDec) vs (NewRollingWindow n) = (Ok tt, w) /\
    (Mean w * qlen (lastn (size w) vs) == qsum (lastn (size w) vs))%Q /\
    (m2 w == qdev (Mean w) (lastn (size w) vs))%Q.
Proof.
  destruct (welford_AddAll vs _ (welford_inv_New n)) as (w & H & Hw & H1 & H2).
  exists w. split; [done |].
  destruct (AddAll_contents (D := QDec) _ _ _ (wf_New n) H) as (_ & Hsz & Hc).
  rewrite contents_New, app_nil_l in Hc. rewrite Hsz, <- Hc. done.
Qed.

(** ** Witnesses *)

Definition ref_int (n : Z) : @dec RefDec := RD n 0.

Definition demo_values : list (@dec RefDec) := ref_int <$> [1; 2; 4; 8].
Definition demo_window : @Rolling RefDec :=
  (AddAll (D := RefDec) demo_values (NewRollingWindow 3)).2.

Lemma rolling_sum_exact_witness :
  (dval (Sum demo_window) == qsum (dval <$> lastn (size demo_window) demo_values))%Q.
Proof.
  apply (rolling_sum_exact (D := RefDec) 3 0 8 demo_values demo_window).
  - lia.
  - lia.
  - vm_compute. discriminate.
  - repeat constructor; [exists 1 | exists 2 | exists 4 | exists 8]; split; done.
  - refine (SE_ok_run (AddAll demo_values) (NewRollingWindow 3) _). vm_compute. reflexivity.
Defined.

Lemma rolling_add_safe_witness :
  in_bounds (Add (D := RefDec) (ref_int 5) (NewRollingWindow 2)).2.
Proof.
  apply (rolling_add_safe (D := RefDec)). split; simpl; lia.
Defined.
