(* ===== verification/Stats.v ===== *)
(** * strategy/stats: Sharpe ratio and backtest summary

    [Sharpe] of [stats.go] and [Summarise] of [summarise.go], with the insert
    rows of [writer.go] that the backtesters emit.

    Theory: when [Summarise] fails and what its counters count; the drawdown
    it reports is the largest fall from any earlier equity peak; the daily
    series has one entry per calendar day and loses no trade of the window. *)

From S2P Require Import Prelude GoTime Decimal RefDecimal.

Section Stats.
Context {D : DecimalOps}.

Fixpoint sum_loop (acc : dec) (pnls : list dec) : result dec :=
  match pnls with
  | [] => Ok acc
  | p :: rest => s ← dadd acc p; sum_loop s rest
  end.

Fixpoint variance_loop (mean acc : dec) (pnls : list dec) : result dec :=
  match pnls with
  | [] => Ok acc
  | p :: rest =>
      d ← dsub p mean;
      sq ← dmul d d;
      v ← dadd acc sq;
      variance_loop mean v rest
  end.

(** [AnnualTradingDays], 365.25 *)
Definition AnnualTradingDays : Q := 1461 # 4.

Definition Sharpe (pnls : list dec) : result dec :=
  if (length pnls <? 2)%nat then Ok dzero else
  sum ← sum_loop dzero pnls;
  mean ← dquo sum (d_int (Z.of_nat (length pnls)));
  variance0 ← variance_loop mean dzero pnls;
  variance ← dquo variance0 (d_int (Z.of_nat (length pnls) - 1));
  sd ← dsqrt variance;
  if d_is_zero sd then Ok dzero else
  tradingDays ← dfloat AnnualTradingDays;
  sqrtDays ← dsqrt tradingDays;
  ratio ← dquo mean sd;
  dmul ratio sqrtDays.

Record PnLPoint := { PnL : dec; CloseTime : Time }.

Record Summary := {
  TotalPnL : dec;
  WinCount : Z;
  LossCount : Z;
  MaxDrawdown : dec;
  SharpeRatio : dec;
}.

Definition zero_Summary : Summary := {|
  TotalPnL := dzero; WinCount := 0; LossCount := 0; MaxDrawdown := dzero; SharpeRatio := dzero |}.

(** The loop state: the result so far, the running equity and its peak, and
    [dailyPnLMap], keyed by calendar date. *)
Record SummaryAcc := {
  sa_res : Summary;
  sa_equity : dec;
  sa_peak : dec;
  sa_daily : gmap Z dec;
}.

Definition summarise_step (a : SummaryAcc) (t : PnLPoint) : result SummaryAcc :=
  total ← dadd (TotalPnL (sa_res a)) (PnL t);
  let dateStr := time_date (CloseTime t) in
  let current := default dzero (sa_daily a !! dateStr) in
  bucket ← dadd current (PnL t);
  let win := if d_is_pos (PnL t) then WinCount (sa_res a) + 1 else WinCount (sa_res a) in
  let loss := if d_is_pos (PnL t) then LossCount (sa_res a)
              else if d_is_neg (PnL t) then LossCount (sa_res a) + 1 else LossCount (sa_res a) in
  equity ← dadd (sa_equity a) (PnL t);
  let peak := if d_gt equity (sa_peak a) then equity else sa_peak a in
  dd ← dsub peak equity;
  let mdd := if d_gt dd (MaxDrawdown (sa_res a)) then dd else MaxDrawdown (sa_res a) in
  Ok {| sa_res := {| TotalPnL := total; WinCount := win; LossCount := loss;
                     MaxDrawdown := mdd; SharpeRatio := SharpeRatio (sa_res a) |};
        sa_equity := equity; sa_peak := peak;
        sa_daily := <[dateStr := bucket]> (sa_daily a) |}.

Fixpoint summarise_loop (a : SummaryAcc) (ts : list PnLPoint) : result SummaryAcc :=
  match ts with
  | [] => Ok a
  | t :: rest => a' ← summarise_step a t; summarise_loop a' rest
  end.

Definition init_acc : SummaryAcc := {|
  sa_res := zero_Summary; sa_equity := dzero; sa_peak := dzero; sa_daily := ∅ |}.

(** [for d := startDay; !d.After(endDay); d = d.Add(24h)], with fuel. *)
Fixpoint daily_loop (fuel : nat) (daily : gmap Z dec) (d endDay : Time) : list dec :=
  match fuel with
  | O => []
  | S fuel' =>
      if time_after d endDay then []
      else default dzero (daily !! time_date d) :: daily_loop fuel' daily (time_add d Day) endDay
  end.

Definition days_fuel (startDay endDay : Time) : nat :=
  Z.to_nat ((t_ns endDay - t_ns startDay) / Day + 2).

Definition daily_series (daily : gmap Z dec) (start end_ : Time) : list dec :=
  let startDay := time_truncate start Day in
  let endDay := time_truncate end_ Day in
  daily_loop (days_fuel startDay endDay) daily startDay endDay.

Definition Summarise (trades : list PnLPoint) (start end_ : Time) : result Summary :=
  if time_is_zero start || time_is_zero end_ then
    Err (ErrMsg "summarise: start and end must be non-zero")
  else if time_before end_ start then Err (ErrMsg "summarise: end is before start")
  else match trades with
  | [] => Ok zero_Summary
  | _ =>
      a ← summarise_loop init_acc trades;
      ratio ← Sharpe (daily_series (sa_daily a) start end_);
      let r := sa_res a in
      Ok {| TotalPnL := TotalPnL r; WinCount := WinCount r; LossCount := LossCount r;
            MaxDrawdown := MaxDrawdown r; SharpeRatio := ratio |}
  end.

(** ** Rows handed to the trade writer ([writer.go]) *)

Record TradeRecordInsert := {
  tri_BacktestID : string;
  tri_Time : Time;
  tri_BondID : string;
  tri_Signal : string;
  tri_Price : dec;
  tri_Quantity : dec;
  tri_EntryBalance : dec;
  tri_OrderSize : dec;
  tri_Cash : dec;
  tri_OpenPosition : dec;
  tri_TradeID : string;
  tri_Spread : dec;
  tri_PositionSize : dec;
  tri_ZScore : dec;
  tri_CompressionRatio : dec;
  tri_EntryATR : dec;
}.

Record ClosedTradeInsert := {
  cti_BacktestID : string;
  cti_OpenTime : Time;
  cti_CloseTime : Time;
  cti_BondID : string;
  cti_OpenSignal : string;
  cti_CloseSignal : string;
  cti_Quantity : dec;
  cti_EntryPrice : dec;
  cti_ExitPrice : dec;
  cti_PnL : dec;
  cti_EntryBalance : dec;
  cti_OpenTradeID : string;
  cti_CloseTradeID : string;
  cti_EntrySpread : dec;
  cti_ExitSpread : dec;
  cti_EntryZScore : dec;
  cti_ExitZScore : dec;
  cti_PositionSize : dec;
  cti_ExitReason : string;
  cti_EntryCompressionRatio : dec;
  cti_ExitCompressionRatio : dec;
}.

(** What a [BacktestTradeWriter] was asked to persist, in order. *)
Inductive WriterCall :=
  | WriteTradeRecord (rec : TradeRecordInsert)
  | WriteClosedTrade (trade : ClosedTradeInsert)
  | Flush.
End Stats.

(** [uuid.Nil] printed *)
Definition uuid_nil : string := "00000000-0000-0000-0000-000000000000".

(** ** Theory *)

Section Theory.
Context {D : DecimalOps} {L : DecimalLaws}.

Definition wins (ts : list PnLPoint) : Z := Z.of_nat (length (filter (fun t => d_is_pos (PnL t) = true) ts)).
Definition losses (ts : list PnLPoint) : Z := Z.of_nat (length (filter (fun t => d_is_neg (PnL t) = true) ts)).

Lemma pos_not_neg (x : dec) : d_is_pos x = true -> d_is_neg x = false.
Proof. rewrite d_is_pos_spec, d_is_neg_false. lra. Qed.

Lemma summarise_step_counts a t a' : summarise_step a t = Ok a' ->
  WinCount (sa_res a') = WinCount (sa_res a) + wins [t] /\
  LossCount (sa_res a') = LossCount (sa_res a) + losses [t].
Proof.
  unfold summarise_step. intros H. inv_ok. simpl. unfold wins, losses. rewrite !filter_cons, !filter_nil.
  destruct (d_is_pos (PnL t)) eqn:Ep.
  - rewrite (pos_not_neg _ Ep). simpl. lia.
  - destruct (d_is_neg (PnL t)); simpl; lia.
Qed.

Lemma wins_cons t ts : wins (t :: ts) = wins [t] + wins ts.
Proof. unfold wins. rewrite !filter_cons, filter_nil. destruct (decide _); simpl; lia. Qed.
Lemma losses_cons t ts : losses (t :: ts) = losses [t] + losses ts.
Proof. unfold losses. rewrite !filter_cons, filter_nil. destruct (decide _); simpl; lia. Qed.

Lemma summarise_loop_counts ts a a' : summarise_loop a ts = Ok a' ->
  WinCount (sa_res a') = WinCount (sa_res a) + wins ts /\
  LossCount (sa_res a') = LossCount (sa_res a) + losses ts.
Proof.
  revert a. induction ts as [|t ts IH]; intros a H; simpl in H.
  - injection H as <-. unfold wins, losses. simpl. lia.
  - inv_ok. apply summarise_step_counts in Ha as [H1 H2]. apply IH in H as [-> ->].
    rewrite wins_cons, losses_cons. lia.
Qed.

(** The drawdown invariant of the loop. *)
Definition dd_inv (a : SummaryAcc) : Prop :=
  (0 <= dval (MaxDrawdown (sa_res a)))%Q /\ (dval (sa_equity a) <= dval (sa_peak a))%Q.

Lemma summarise_step_dd a t a' : dd_inv a -> summarise_step a t = Ok a' ->
  dd_inv a' /\ (dval (MaxDrawdown (sa_res a)) <= dval (MaxDrawdown (sa_res a')))%Q /\
  (dval (sa_peak a) <= dval (sa_peak a'))%Q.
Proof.
  unfold summarise_step, dd_inv. intros [H0 H1] H. inv_ok. simpl.
  repeat match goal with |- context [if d_gt ?x ?y then _ else _] => destruct (d_gt x y) eqn:? end;
    repeat match goal with
      | E : d_gt _ _ = true |- _ => apply d_gt_spec in E
      | E : d_gt _ _ = false |- _ => apply d_gt_false in E end; lra.
Qed.
End Theory.

(** ** The drawdown *)

(** The running equity, starting from [e]. *)
Fixpoint equity_curve {D : DecimalOps} (e : dec) (ts : list PnLPoint) : list dec :=
  e :: match ts with
       | [] => []
       | t :: rest => equity_curve (d_or_zero (dadd e (PnL t))) rest
       end.

Section Drawdown.
Context {D : DecimalOps} {L : DecimalLaws}.

(** What the loop has established after visiting the equity values [P]. *)
Record curve_inv (P : list dec) (a : SummaryAcc) : Prop := {
  ci_last : last P = Some (sa_equity a);
  ci_peak_in : sa_peak a ∈ P;
  ci_peak_max : Forall (fun x => dval x <= dval (sa_peak a))%Q P;
  ci_bound : forall i j x y dd, (i <= j)%nat -> P !! i = Some x -> P !! j = Some y ->
    dsub x y = Ok dd -> (dval dd <= dval (MaxDrawdown (sa_res a)))%Q;
  ci_attained : exists i j x y dd, (i <= j)%nat /\ P !! i = Some x /\ P !! j = Some y /\
    dsub x y = Ok dd /\ (dval dd == dval (MaxDrawdown (sa_res a)))%Q;
}.

Lemma dsub_mono_l (x x' y r r' : dec) : (dval x <= dval x')%Q ->
  dsub x y = Ok r -> dsub x' y = Ok r' -> (dval r <= dval r')%Q.
Proof. intros H E E'. eapply dmatch_mono; [apply dsub_spec | apply dsub_spec | done..| lra]. Qed.

Lemma curve_inv_init : curve_inv [dzero] init_acc.
Proof.
  destruct (dmatch_exact (dsub dzero dzero) (dval dzero - dval dzero)%Q) as (z & Ez & Vz);
    [apply dsub_spec | eapply representable_proper; [| apply representable_zero]; lra |].
  assert (dval z == 0)%Q as Vz0 by (rewrite Vz; lra). clear Vz.
  split; simpl; [done | by left | constructor; [lra | constructor] | |].
  - intros [|i] [|j] x y dd Hij Hx Hy E; try done. simpl in *. assert (dd = z) as -> by congruence. rewrite dval_zero. lra.
  - exists 0%nat, 0%nat, dzero, dzero, z. split_and!; [done..|]. rewrite dval_zero. lra.
Qed.

(** The new peak dominates the extended curve and belongs to it. *)
Lemma curve_peak P a (e : dec) : curve_inv P a ->
  let pk := if d_gt e (sa_peak a) then e else sa_peak a in
  (exists i, (i <= length P)%nat /\ (P ++ [e]) !! i = Some pk) /\
  Forall (fun x => dval x <= dval pk)%Q (P ++ [e]).
Proof.
  intros [Hlast Hin Hmax _ _]. simpl.
  destruct (d_gt e (sa_peak a)) eqn:E; [apply d_gt_spec in E | apply d_gt_false in E].
  - split; [exists (length P); split; [done | by rewrite list_lookup_middle] |].
    apply Forall_app; split; [| constructor; [lra | done]].
    eapply Forall_impl; [exact Hmax |]. simpl. intros x Hx. lra.
  - split.
    + apply list_elem_of_lookup in Hin as [i Hi]. exists i.
      pose proof (lookup_lt_Some _ _ _ Hi). split; [lia | by apply lookup_app_l_Some].
    + apply Forall_app; split; [done | constructor; [lra | done]].
Qed.

Lemma curve_inv_step P a t a' : curve_inv P a -> summarise_step a t = Ok a' ->
  curve_inv (P ++ [d_or_zero (dadd (sa_equity a) (PnL t))]) a'.
Proof.
  intros Hi H. unfold summarise_step in H. inv_ok. rename a2 into e, a3 into dd, Ha1 into Ee, Ha2 into Ed.
  assert (d_or_zero (dadd (sa_equity a) (PnL t)) = e) as -> by (by rewrite Ee).
  destruct (curve_peak P a e Hi) as [[ip [Hip Lip]] Hpk].
  pose proof Hi as [Hlast Hin Hmax Hb Hat].
  set (pk := if d_gt e (sa_peak a) then e else sa_peak a) in *.
  set (old := MaxDrawdown (sa_res a)) in *.
  assert (forall m, m = (if d_gt dd old then dd else old) ->
    (dval old <= dval m /\ dval dd <= dval m /\ (dval m == dval old \/ dval m == dval dd))%Q) as Hm.
  { intros m ->. destruct (d_gt dd old) eqn:G; [apply d_gt_spec in G | apply d_gt_false in G];
      split_and!; try lra; first [left; reflexivity | right; reflexivity]. }
  split; cbn [sa_equity sa_peak sa_res MaxDrawdown]; specialize (Hm _ eq_refl);
    set (m := if d_gt dd old then dd else old) in *; clearbody m; destruct Hm as (M1 & M2 & M3).
  - by rewrite last_snoc.
  - by apply list_elem_of_lookup_2 with ip.
  - done.
  - intros i j x y d Hij Hx Hy E.
    pose proof (lookup_lt_Some _ _ _ Hy) as Hj. rewrite length_app in Hj. simpl in Hj.
    destruct (decide (j = length P)) as [->|Hne].
    + rewrite list_lookup_middle in Hy by done. injection Hy as <-.
      eapply Qle_trans; [| exact M2]. eapply dsub_mono_l; [| exact E | exact Ed].
      by apply (Forall_lookup_1 _ _ _ _ Hpk Hx).
    + rewrite lookup_app_l in Hx, Hy by lia.
      eapply Qle_trans; [| exact M1]. by apply (Hb i j x y d).
  - destruct M3 as [E3 | E3]; setoid_rewrite E3.
    + destruct Hat as (i & j & x & y & d & Hij & Hx & Hy & E & Hd).
      exists i, j, x, y, d. split_and!; [done | by apply lookup_app_l_Some.. | done | done].
    + exists ip, (length P), pk, e, dd.
      split_and!; [done | done | by rewrite list_lookup_middle | done | done].
Qed.

Lemma curve_inv_loop ts P a a' : curve_inv (P ++ [sa_equity a]) a -> summarise_loop a ts = Ok a' ->
  curve_inv (P ++ equity_curve (sa_equity a) ts) a'.
Proof.
  revert P a. induction ts as [|t ts IH]; intros P a Hi H; simpl in H; [by injection H as <- |].
  inv_ok. pose proof (curve_inv_step _ _ _ _ Hi Ha) as Hs.
  assert (sa_equity a0 = d_or_zero (dadd (sa_equity a) (PnL t))) as Eq.
  { unfold summarise_step in Ha. inv_ok. by rewrite Ha2. }
  rewrite <- Eq in Hs. specialize (IH _ _ Hs H).
  by rewrite <- app_assoc, Eq in IH.
Qed.
End Drawdown.

(** ** The daily series *)

Definition on_day (d : Z) (t : PnLPoint) : Prop := time_date (CloseTime t) = d.

(** The bucket of one calendar day: the trades that closed on it, summed in
    the order they appear. *)
Definition day_total {D : DecimalOps} (ts : list PnLPoint) (d : Z) : dec :=
  d_or_zero (sum_loop dzero (PnL <$> filter (fun t => time_date (CloseTime t) = d) ts)).

Section Daily.
Context {D : DecimalOps}.

Lemma summarise_step_bucket a t a' : summarise_step a t = Ok a' ->
  exists b, dadd (default dzero (sa_daily a !! time_date (CloseTime t))) (PnL t) = Ok b /\
    sa_daily a' = <[time_date (CloseTime t) := b]> (sa_daily a).
Proof. unfold summarise_step. intros H. inv_ok. by eexists. Qed.

Lemma summarise_loop_bucket ts a a' d : summarise_loop a ts = Ok a' ->
  sum_loop (default dzero (sa_daily a !! d)) (PnL <$> filter (fun t => time_date (CloseTime t) = d) ts)
    = Ok (default dzero (sa_daily a' !! d)).
Proof.
  revert a. induction ts as [|t ts IH]; intros a H; simpl in H; [by injection H as <- |].
  inv_ok. apply summarise_step_bucket in Ha as (b & Eb & Hd).
  rewrite filter_cons. destruct (decide (time_date (CloseTime t) = d)) as [<-|Hne].
  - rewrite fmap_cons. simpl. rewrite Eb. simpl. apply IH in H. by rewrite Hd, lookup_insert_eq in H.
  - apply IH in H. by rewrite Hd, lookup_insert_ne in H.
Qed.

Lemma summarise_bucket ts a d : summarise_loop init_acc ts = Ok a ->
  default dzero (sa_daily a !! d) = day_total ts d.
Proof.
  intros H. apply summarise_loop_bucket with (d := d) in H. simpl in H. rewrite lookup_empty in H. simpl in H.
  unfold day_total. by rewrite H.
Qed.

(** Midnights of a zone whose offset is [o]. *)
Lemma date_step (t : Time) : time_date (time_add t Day) = time_date t + 1.
Proof.
  unfold time_date, local_ns, time_add. simpl.
  replace (t_ns t + Day + t_off t) with (t_ns t + t_off t + 1 * Day) by lia.
  by rewrite Z.div_add.
Qed.

Lemma daily_loop_spec fuel daily d e : 
  (t_ns e - t_ns d) mod Day = 0 -> t_ns d <= t_ns e + Day ->
  (t_ns e - t_ns d) / Day + 1 < Z.of_nat fuel ->
  daily_loop fuel daily d e =
    (fun k => default dzero (daily !! k)) <$> seqZ (time_date d) ((t_ns e - t_ns d) / Day + 1).
Proof.
  revert d. induction fuel as [|fuel IH]; intros d Hm Hle Hf.
  - exfalso. assert (-1 <= (t_ns e - t_ns d) / Day); [| lia].
    apply Z.div_le_lower_bound; [done | lia].
  - simpl. destruct (time_after d e) eqn:E; unfold time_after in E; bool_prop.
    + assert ((t_ns e - t_ns d) / Day + 1 <= 0) as Hn.
      { assert ((t_ns e - t_ns d) / Day < 0); [| lia]. apply Z.div_lt_upper_bound; [done | lia]. }
      by rewrite seqZ_nil by done.
    + assert (0 <= (t_ns e - t_ns d) / Day) by (apply Z.div_pos; [lia | done]).
      assert ((t_ns e - t_ns (time_add d Day)) / Day = (t_ns e - t_ns d) / Day - 1) as Hq.
      { simpl. replace (t_ns e - (t_ns d + Day)) with (t_ns e - t_ns d + (-1) * Day) by lia.
        rewrite Z.div_add by done. lia. }
      rewrite seqZ_cons by lia. rewrite fmap_cons. f_equal.
      rewrite IH.
      * rewrite Hq, date_step. do 2 f_equal; lia.
      * simpl. replace (t_ns e - (t_ns d + Day)) with (t_ns e - t_ns d + (-1) * Day) by lia.
        by rewrite Z_mod_plus_full.
      * simpl. lia.
      * rewrite Hq. lia.
Qed.

Lemma truncate_day_date (t : Time) : t_off t = 0 -> time_date (time_truncate t Day) = time_date t.
Proof.
  intros H. unfold time_date, local_ns, time_truncate. simpl. rewrite H, !Z.add_0_r.
  pose proof (Z_div_mod_eq_full (t_ns t) Day) as E.
  replace (t_ns t - t_ns t mod Day) with (t_ns t / Day * Day) by lia. by rewrite Z.div_mul.
Qed.

Lemma daily_series_days daily start end_ : t_off start = 0 -> t_off end_ = 0 ->
  t_ns start <= t_ns end_ ->
  daily_series daily start end_ =
    (fun k => default dzero (daily !! k)) <$>
      seqZ (time_date start) (time_date end_ - time_date start + 1).
Proof.
  intros Hs He Hle. unfold daily_series.
  set (s := time_truncate start Day). set (e := time_truncate end_ Day).
  assert (t_ns s = time_date start * Day) as Es.
  { subst s. unfold time_date, local_ns, time_truncate. simpl. rewrite Hs, Z.add_0_r.
    pose proof (Z_div_mod_eq_full (t_ns start) Day). lia. }
  assert (t_ns e = time_date end_ * Day) as Ee.
  { subst e. unfold time_date, local_ns, time_truncate. simpl. rewrite He, Z.add_0_r.
    pose proof (Z_div_mod_eq_full (t_ns end_) Day). lia. }
  assert (time_date start <= time_date end_) as Hd.
  { unfold time_date, local_ns. rewrite Hs, He. apply Z.div_le_mono; [done | lia]. }
  assert ((t_ns e - t_ns s) / Day = time_date end_ - time_date start) as Eq.
  { rewrite Es, Ee, <- Z.mul_sub_distr_r. by apply Z.div_mul. }
  assert (0 < Day) by done.
  rewrite daily_loop_spec.
  - rewrite Eq. subst s. rewrite truncate_day_date by done. done.
  - rewrite Es, Ee, <- Z.mul_sub_distr_r. by apply Z_mod_mult.
  - nia.
  - unfold days_fuel. rewrite Z2Nat.id; lia.
Qed.
End Daily.

(** ** Properties *)

Section Properties.
Context {D : DecimalOps} {L : DecimalLaws}.

Lemma Summarise_Ok ts start end_ r : Summarise ts start end_ = Ok r -> ts <> [] ->
  time_is_zero start = false /\ time_is_zero end_ = false /\ t_ns start <= t_ns end_ /\
  exists a, summarise_loop init_acc ts = Ok a /\
    Sharpe (daily_series (sa_daily a) start end_) = Ok (SharpeRatio r) /\
    TotalPnL r = TotalPnL (sa_res a) /\ WinCount r = WinCount (sa_res a) /\
    LossCount r = LossCount (sa_res a) /\ MaxDrawdown r = MaxDrawdown (sa_res a).
Proof.
  unfold Summarise, time_before. intros H Hne.
  destruct (_ || _) eqn:E1; [discriminate |]. destruct (_ <? _) eqn:E2; [discriminate |].
  bool_prop. destruct ts as [|t ts]; [done |]. inv_ok. simpl.
  split_and!; [done.. |]. by exists a.
Qed.

Lemma summarise_loop_total ts a a' : summarise_loop a ts = Ok a' ->
  sum_loop (TotalPnL (sa_res a)) (PnL <$> ts) = Ok (TotalPnL (sa_res a')).
Proof.
  revert a. induction ts as [|t ts IH]; intros a H; simpl in H; [by injection H as <- |].
  apply result_bind_Ok in H as (a1 & Ha & H). apply IH in H.
  unfold summarise_step in Ha. apply result_bind_Ok in Ha as (tot & Et & Ha). inv_ok.
  rewrite fmap_cons. simpl. by rewrite Et.
Qed.

(** The drawdown a successful [Summarise] reports is the largest fall of
    the equity curve: no later equity value is further below an earlier one
    (as the decimal library computes the difference), and some pair attains
    it. *)
Theorem summarise_max_drawdown (ts : list PnLPoint) (start end_ : Time) (r : Summary) :
  Summarise ts start end_ = Ok r -> ts <> [] ->
  let E := equity_curve dzero ts in
  (forall i j x y dd, (i <= j)%nat -> E !! i = Some x -> E !! j = Some y ->
    dsub x y = Ok dd -> (dval dd <= dval (MaxDrawdown r))%Q) /\
  (exists i j x y dd, (i <= j)%nat /\ E !! i = Some x /\ E !! j = Some y /\
    dsub x y = Ok dd /\ (dval dd == dval (MaxDrawdown r))%Q).
Proof.
  intros H Hne E. destruct (Summarise_Ok _ _ _ _ H Hne) as (_ & _ & _ & a & Ha & _ & _ & _ & _ & ->).
  destruct (curve_inv_loop ts [] init_acc a curve_inv_init Ha) as [_ _ _ Hb Hat]. done.
Qed.

(** C7: a successful [Summarise] over a UTC window adds the trades' PnL in
    order, counts the strictly positive trades as wins and the strictly
    negative ones as losses, and takes the Sharpe ratio of the series with
    exactly one entry per calendar day from the first to the last day of the
    window, each entry the total of the trades closed on that day. *)
Theorem summarise_refines (ts : list PnLPoint) (start end_ : Time) (r : Summary) :
  Summarise ts start end_ = Ok r -> ts <> [] -> t_off start = 0 -> t_off end_ = 0 ->
  sum_loop dzero (PnL <$> ts) = Ok (TotalPnL r) /\
  WinCount r = wins ts /\ LossCount r = losses ts /\
  Sharpe (day_total ts <$> seqZ (time_date start) (time_date end_ - time_date start + 1))
    = Ok (SharpeRatio r).
Proof.
  intros H Hne Hs He.
  destruct (Summarise_Ok _ _ _ _ H Hne) as (_ & _ & Hle & a & Ha & Hr & -> & -> & -> & _).
  destruct (summarise_loop_counts _ _ _ Ha) as [-> ->].
  pose proof (summarise_loop_total _ _ _ Ha) as Ht.
  split_and!; [done | simpl; lia.. |].
  rewrite daily_series_days in Hr by done. rewrite <- Hr. f_equal.
  apply list_fmap_ext. intros i k _. by rewrite (summarise_bucket _ _ _ Ha).
Qed.
End Properties.

(** ** Witnesses *)

Definition demo_trades : list (@PnLPoint RefDec) :=
  [ Build_PnLPoint (D := RefDec) (RD 5 0) (MkTime (3 * Day) 0);
    Build_PnLPoint (D := RefDec) (RD (-8) 0) (MkTime (3 * Day + Hour) 0);
    Build_PnLPoint (D := RefDec) (RD 2 0) (MkTime (4 * Day) 0) ].

Definition demo_summary : @Summary RefDec :=
  get_ok zero_Summary (Summarise demo_trades (MkTime (2 * Day) 0) (MkTime (5 * Day) 0)).

Lemma demo_summary_Ok :
  Summarise demo_trades (MkTime (2 * Day) 0) (MkTime (5 * Day) 0) = Ok demo_summary.
Proof. refine (is_ok_get zero_Summary _ _). vm_compute. reflexivity. Defined.

Lemma summarise_max_drawdown_witness :
  exists i j x y dd, (i <= j)%nat /\ equity_curve dzero demo_trades !! i = Some x /\
    equity_curve dzero demo_trades !! j = Some y /\
    dsub x y = Ok dd /\ (dval dd == dval (MaxDrawdown demo_summary))%Q.
Proof.
  refine (proj2 (summarise_max_drawdown (D := RefDec) _ _ _ _ demo_summary_Ok _)). discriminate.
Defined.

Lemma summarise_refines_witness :
  sum_loop dzero (PnL <$> demo_trades) = Ok (TotalPnL demo_summary) /\
  WinCount demo_summary = wins demo_trades /\ LossCount demo_summary = losses demo_trades /\
  Sharpe (day_total demo_trades <$>
    seqZ (time_date (MkTime (2 * Day) 0)) (time_date (MkTime (5 * Day) 0) - time_date (MkTime (2 * Day) 0) + 1))
    = Ok (SharpeRatio demo_summary).
Proof.
  refine (summarise_refines (D := RefDec) _ _ _ _ demo_summary_Ok _ _ _); [discriminate | done | done].
Defined.
