(* ===== verification/Market.v ===== *)
(** * strategy: the market client, decisions and portfolio balances

    The DORA client, the decision and state stores, the clock and the UUID
    generator are outside the program: [Env] is the record of the operations
    the strategies call, over an abstract world type [W].  [Sys] threads the
    world through a strategy and keeps the log of the calls that matter to
    the outside ([market_api.go], [decision.go], [messages.go], [uuid.go]).

    The second half is [portfolio.go]: the balances read off a portfolio, and
    the proof that Go's unspecified map order does not influence them. *)

From S2P Require Import Prelude GoTime Decimal RefDecimal Types.

Inductive Message := Stop | Pause | Resume.

Inductive Side := SIDE_BUY | SIDE_SELL.

#[export] Instance Side_eq_dec : EqDecision Side.
Proof. solve_decision. Defined.

Definition Side_string (s : Side) : string :=
  match s with SIDE_BUY => "BUY" | SIDE_SELL => "SELL" end.

(** [doraclient.Order], the fields the program reads *)
Record Order := {
  OrderId : string;
  ClientOrderId : option string;
  OriginalQuantity : string;
  Order_Status : string;
}.

(** [doraclient.AccountV2], the fields the program reads *)
Record AccountV2 := {
  GetIsGlobal : bool;
  Available : string;
  Borrowed : string;
}.

Definition DecisionKindOpen : string := "open".
Definition DecisionKindClose : string := "close".
Definition DecisionKindExtend : string := "extend".

Section Market.
Context {D : DecimalOps}.

Record OrderRequest := {
  or_OrderBookID : string;
  or_Side : Side;
  or_Quantity : dec;
  or_InverseLeverage : dec;
  or_FromGlobalPosition : bool;
  or_ClientOrderID : string;
}.

(** [strategy.Decision] *)
Record DecisionRow := {
  dr_RunID : string;
  dr_Seq : Z;
  dr_StrategyType : string;
  dr_OrderBookID : string;
  dr_Asset : string;
  dr_Side : string;
  dr_Signal : string;
  dr_Quantity : dec;
  dr_Price : dec;
  dr_Leverage : dec;
  dr_InverseLeverage : dec;
  dr_FromGlobalPosition : bool;
  dr_Kind : string;
  dr_Reason : string;
  dr_CreatedAt : Time;
  dr_ClientOrderID : string;
}.

(** The calls with an outside effect, in the order they were made. *)
Inductive Call :=
  | CallCreateMarketOrder (r : OrderRequest) (res : result string)
  | CallSaveDecision (d : DecisionRow)
  | CallSaveState (runID raw : string) (res : result unit).

(** [AccountPortfolioV2.Accounts], a map of maps, in the order one iteration
    happens to visit it. *)
Definition Accounts : Type := list (string * list (string * AccountV2)).

Record Env (W : Type) := {
  BaseAssetID : string -> W -> result string * W;
  QuoteAssetID : string -> W -> result string * W;
  AssetPosition : string -> W -> result (dec * dec) * W;
  (** [Ok None] is a nil portfolio without an error *)
  GetPortfolioV2 : W -> result (option Accounts) * W;
  CreateMarketOrder : OrderRequest -> W -> result string * W;
  AssetCollateralWeight : string -> W -> result dec * W;
  GetOrderFilledStatus : string -> W -> result (string * dec) * W;
  ListOrdersByClientOrderIDPrefix : string -> W -> result (list Order) * W;
  (** nil-able stores *)
  Records : option (DecisionRow -> W -> result unit * W);
  Store_SaveState : option (string -> string -> W -> result unit * W);
  Store_LoadState : option (string -> W -> result string * W);
  (** [uuid.Must(uuid.NewV7())], printed *)
  NewV7 : W -> string * W;
  (** [uuid.Parse], printed back *)
  uuid_Parse : string -> result string;
  (** [time.Now().UTC()] *)
  Now : W -> Time * W;
}.

Record Sys (W : Type) := MkSys { sy_world : W; sy_calls : list Call }.

End Market.

Arguments sy_world {D W}. Arguments sy_calls {D W}. Arguments MkSys {D W}.
Arguments BaseAssetID {D W}. Arguments QuoteAssetID {D W}. Arguments AssetPosition {D W}.
Arguments GetPortfolioV2 {D W}. Arguments CreateMarketOrder {D W}.
Arguments AssetCollateralWeight {D W}. Arguments GetOrderFilledStatus {D W}.
Arguments ListOrdersByClientOrderIDPrefix {D W}. Arguments Records {D W}.
Arguments Store_SaveState {D W}. Arguments Store_LoadState {D W}.
Arguments NewV7 {D W}. Arguments uuid_Parse {D W}. Arguments Now {D W}.

(** ** Calls *)

Section Calls.
Context {D : DecimalOps} {W : Type} (E : Env W).

(** Run an operation of the environment; [log] says what to note of it. *)
Definition invoke {A} (op : W -> A * W) (log : A -> list Call) : ST (Sys W) A := fun s =>
  let '(a, w) := op (sy_world s) in (a, MkSys w (sy_calls s ++ log a)).

Definition quiet {A} (op : W -> A * W) : ST (Sys W) A := invoke op (fun _ => []).

Definition create_market_order (r : OrderRequest) : ST (Sys W) (result string) :=
  invoke (CreateMarketOrder E r) (fun res => [CallCreateMarketOrder r res]).

Definition time_now : ST (Sys W) Time := quiet (Now E).

(** [BuildClientOrderID]: name, run and a fresh UUIDv7, separated by dots. *)
Definition BuildClientOrderID (strategyName runID : string) : ST (Sys W) string := fun s =>
  let '(u, s1) := quiet (NewV7 E) s in
  ((strategyName +:+ "." +:+ runID +:+ "." +:+ u)%string, s1).

Definition BuildClientOrderIDPrefix (strategyName runID : string) : string :=
  (strategyName +:+ "." +:+ runID +:+ ".")%string.

(** [MustParseUUID] *)
Definition MustParseUUID (id : string) : string :=
  if bool_decide (id = ""%string) then "00000000-0000-0000-0000-000000000000"%string
  else match uuid_Parse E id with
       | Ok u => u
       | Err _ => "00000000-0000-0000-0000-000000000000"%string
       end.

(** [LookupAssetID], for a non-nil client *)
Definition LookupAssetID (orderBookID : string) : ST (Sys W) (result string) := fun s =>
  if bool_decide (orderBookID = "00000000-0000-0000-0000-000000000000"%string) then
    (Err (ErrMsg "order book ID is required"), s)
  else
    let '(r, s1) := quiet (BaseAssetID E orderBookID) s in
    match r with
    | Err e => (Err e, s1)
    | Ok assetID =>
        if bool_decide (assetID = ""%string) then
          (Err (ErrMsg "order book returned an empty base asset ID"), s1)
        else (Ok assetID, s1)
    end.

(** The orders sent to the market, and those it accepted. *)
Fixpoint orders_sent (cs : list Call) : list OrderRequest :=
  match cs with
  | [] => []
  | CallCreateMarketOrder r _ :: rest => r :: orders_sent rest
  | _ :: rest => orders_sent rest
  end.

Lemma orders_sent_app cs cs' : orders_sent (cs ++ cs') = orders_sent cs ++ orders_sent cs'.
Proof. induction cs as [|[] cs IH]; simpl; by rewrite ?IH. Qed.

Lemma quiet_calls {A} (op : W -> A * W) s : sy_calls (quiet op s).2 = sy_calls s.
Proof. unfold quiet, invoke. destruct (op _). simpl. by rewrite app_nil_r. Qed.

Lemma create_calls r s :
  sy_calls (create_market_order r s).2 = sy_calls s ++ [CallCreateMarketOrder r (create_market_order r s).1].
Proof. unfold create_market_order, invoke. by destruct (CreateMarketOrder E r _). Qed.

Lemma BuildClientOrderID_calls n i s : sy_calls (BuildClientOrderID n i s).2 = sy_calls s.
Proof. unfold BuildClientOrderID. pose proof (quiet_calls (NewV7 E) s). by destruct (quiet _ s). Qed.
End Calls.

(** ** Balances of a portfolio ([portfolio.go]) *)

Section Portfolio.
Context {D : DecimalOps}.

Record AccountBalance := { USD : dec; Bond : dec }.

Definition zero_balance : AccountBalance := {| USD := dzero; Bond := dzero |}.

Definition AccountBalance_isZero (b : AccountBalance) : bool := d_is_zero (USD b) && d_is_zero (Bond b).

(** One visited account: the balance and the [found] flag, or a parse error. *)
Definition visit_account (wantGlobal : bool) (baseAssetID quoteAssetID : string)
    (acc : AccountBalance * bool) (entry : string * AccountV2) : result (AccountBalance * bool) :=
  let '(bal, found) := acc in
  let '(assetID, acct) := entry in
  if negb (eqb (GetIsGlobal acct) wantGlobal) then Ok (bal, found)
  else if bool_decide (assetID = quoteAssetID) then
    avail ← wrap_err "parse quote asset available" (dparse (Available acct));
    Ok ({| USD := avail; Bond := Bond bal |}, true)
  else if bool_decide (assetID = baseAssetID) then
    avail ← wrap_err "parse base asset available" (dparse (Available acct));
    borrowed ← (if bool_decide (Borrowed acct = ""%string) then Ok dzero
                else wrap_err "parse base asset borrowed" (dparse (Borrowed acct)));
    Ok ({| USD := USD bal; Bond := if d_is_zero borrowed then avail else dneg borrowed |}, true)
  else Ok (bal, found).

Fixpoint visit_accounts (wantGlobal : bool) (baseAssetID quoteAssetID : string)
    (acc : AccountBalance * bool) (entries : list (string * AccountV2)) : result (AccountBalance * bool) :=
  match entries with
  | [] => Ok acc
  | e :: rest => acc' ← visit_account wantGlobal baseAssetID quoteAssetID acc e;
                 visit_accounts wantGlobal baseAssetID quoteAssetID acc' rest
  end.

(** The nested iteration, flattened. *)
Definition entries (accounts : Accounts) : list (string * AccountV2) := accounts ≫= snd.

(** [findBalancesInAccounts]; [Ok None] is [ok = false]. *)
Definition findBalancesInAccounts (accounts : Accounts) (wantGlobal : bool)
    (baseAssetID quoteAssetID : string) : result (option AccountBalance) :=
  '(bal, found) ← visit_accounts wantGlobal baseAssetID quoteAssetID (zero_balance, false) (entries accounts);
  if negb found || AccountBalance_isZero bal then Ok None else Ok (Some bal).

Definition findAccountAndBalance (accounts : Accounts) (fromGlobalPosition : bool)
    (baseAssetID quoteAssetID : string) : result (option AccountBalance) :=
  r ← findBalancesInAccounts accounts fromGlobalPosition baseAssetID quoteAssetID;
  match r with
  | Some bal => Ok (Some bal)
  | None => if fromGlobalPosition then Ok None
            else findBalancesInAccounts accounts true baseAssetID quoteAssetID
  end.

Definition signalFromBondQty (bondQty : dec) : Signal :=
  if d_is_pos bondQty then SignalBuy
  else if d_is_neg bondQty then SignalSell
  else SignalHold.

(** [InitialBalancesFromPortfolio]; [Ok None] is [ok = false] with no error. *)
Definition InitialBalancesFromPortfolio (accounts : Accounts) (fromGlobalPosition : bool)
    (baseAssetID quoteAssetID : string) : result (option (AccountBalance * Signal)) :=
  match accounts with
  | [] => Ok None
  | _ =>
      r ← wrap_err "init balances from portfolio"
            (findAccountAndBalance accounts fromGlobalPosition baseAssetID quoteAssetID);
      match r with
      | None => Ok None
      | Some bal => Ok (Some (bal, signalFromBondQty (Bond bal)))
      end
  end.
End Portfolio.

(** ** Theory *)

Section PortfolioTheory.
Context {D : DecimalOps}.
Implicit Types (acc : AccountBalance * bool) (e : string * AccountV2).

(** The asset an entry is read for, if any. *)
Definition slot (g : bool) (b q : string) e : option bool :=
  if negb (eqb (GetIsGlobal e.2) g) then None
  else if bool_decide (e.1 = q) then Some true
  else if bool_decide (e.1 = b) then Some false
  else None.

(** At most one visited account per asset and account kind. *)
Definition one_account_each (g : bool) (b q : string) (es : list (string * AccountV2)) : Prop :=
  NoDup (omap (slot g b q) es).

(** The value an entry contributes to its field. *)
Definition parse_quote e : result dec := wrap_err "parse quote asset available" (dparse (Available e.2)).
Definition parse_base e : result dec :=
  avail ← wrap_err "parse base asset available" (dparse (Available e.2));
  borrowed ← (if bool_decide (Borrowed e.2 = ""%string) then Ok dzero
              else wrap_err "parse base asset borrowed" (dparse (Borrowed e.2)));
  Ok (if d_is_zero borrowed then avail else dneg borrowed).

Lemma visit_account_slot g b q bal f e :
  visit_account g b q (bal, f) e =
    match slot g b q e with
    | None => Ok (bal, f)
    | Some true => v ← parse_quote e; Ok ({| USD := v; Bond := Bond bal |}, true)
    | Some false => v ← parse_base e; Ok ({| USD := USD bal; Bond := v |}, true)
    end.
Proof.
  destruct e as [a ac]. unfold slot, visit_account, parse_base, parse_quote. simpl.
  destruct (eqb _ _); simpl; [| done]. case_bool_decide; [done |]. case_bool_decide; [| done].
  destruct (wrap_err _ (dparse (Available ac))); simpl; [| done].
  destruct (if bool_decide (Borrowed ac = ""%string) then _ else _); done.
Qed.

#[local] Arguments visit_account : simpl never.

(** Entries for different assets write different fields. *)
Lemma visit_account_comm g b q acc e1 e2 r :
  (slot g b q e1 = slot g b q e2 -> slot g b q e1 = None) ->
  (acc' ← visit_account g b q acc e1; visit_account g b q acc' e2) = Ok r ->
  (acc' ← visit_account g b q acc e2; visit_account g b q acc' e1) = Ok r.
Proof.
  destruct acc as [bal f]. intros Hs H. rewrite visit_account_slot in *.
  destruct (slot g b q e1) as [[]|] eqn:S1; destruct (slot g b q e2) as [[]|] eqn:S2;
    try (by discriminate (Hs eq_refl)); inv_ok; simpl in *;
    repeat match goal with
      | H : visit_account _ _ _ (_, _) _ = Ok _ |- _ =>
          rewrite visit_account_slot, ?S1, ?S2 in H; inv_ok
      | H : ?x = Ok _ |- context [?x] => rewrite H; simpl
      | |- context [visit_account _ _ _ (_, _) _] => rewrite visit_account_slot, ?S1, ?S2; simpl
      end; done.
Qed.

Lemma one_account_each_cons g b q e es : one_account_each g b q (e :: es) ->
  one_account_each g b q es /\
  forall e', e' ∈ es -> slot g b q e = slot g b q e' -> slot g b q e = None.
Proof.
  unfold one_account_each. simpl. destruct (slot g b q e) as [x|] eqn:S; [| done].
  intros [Hni Hnd]%NoDup_cons. split; [done |]. intros e' Hin Heq.
  exfalso. apply Hni, list_elem_of_omap. by exists e'.
Qed.

Lemma visit_accounts_perm g b q es es' : es ≡ₚ es' -> forall acc r,
  one_account_each g b q es ->
  visit_accounts g b q acc es = Ok r -> visit_accounts g b q acc es' = Ok r.
Proof.
  induction 1 as [|e es es' Hp IH|e1 e2 es|es1 es2 es3 H1 IH1 H2 IH2]; intros acc r Hone H; [done | | |].
  - simpl in *. apply result_bind_Ok in H as (a & Ha & H). rewrite Ha. simpl.
    apply IH; [by apply one_account_each_cons in Hone as [? _] | done].
  - simpl in *. apply result_bind_Ok in H as (a & Ha & H). apply result_bind_Ok in H as (a' & Ha' & H).
    apply one_account_each_cons in Hone as [_ Hs].
    assert ((x ← visit_account g b q acc e1; visit_account g b q x e2) = Ok a') as Hc.
    { apply visit_account_comm; [apply Hs; by left | by rewrite Ha]. }
    apply result_bind_Ok in Hc as (c & Hc1 & Hc2). rewrite Hc1. simpl. rewrite Hc2. done.
  - apply IH2; [| by apply IH1]. unfold one_account_each in *. by rewrite <- H1.
Qed.

(** When each of the two assets occurs in at most one visited account of
    the wanted kind, the balances read off the portfolio do not depend on the
    order in which Go happens to iterate the maps. *)
Theorem portfolio_order_independent (accts accts' : Accounts) (g : bool) (b q : string) r :
  entries accts ≡ₚ entries accts' -> one_account_each g b q (entries accts) ->
  findBalancesInAccounts accts g b q = Ok r -> findBalancesInAccounts accts' g b q = Ok r.
Proof.
  unfold findBalancesInAccounts. intros Hp Hone H.
  apply result_bind_Ok in H as ([bal f] & Hv & H).
  by rewrite (visit_accounts_perm g b q _ _ Hp _ _ Hone Hv).
Qed.
End PortfolioTheory.

(** ** Witnesses *)

Definition acct (avail : string) : AccountV2 :=
  {| GetIsGlobal := false; Available := avail; Borrowed := "" |}.

Lemma portfolio_order_independent_witness :
  findBalancesInAccounts (D := RefDec)
    [("x", [("usd", acct "7")]); ("x2", [("bond", acct "3")])] false "bond" "usd"
  = Ok (Some {| USD := RD 7 0; Bond := RD 3 0 |}).
Proof.
  apply (portfolio_order_independent (D := RefDec)
    [("x2", [("bond", acct "3")]); ("x", [("usd", acct "7")])] _ false "bond" "usd").
  - simpl. apply Permutation_swap.
  - unfold one_account_each. apply (bool_decide_unpack _). vm_compute. exact I.
  - reflexivity.
Defined.

(** Two isolated accounts holding the quote asset: the later one in iteration
    order wins, whichever bond it belongs to. *)
Definition two_isolated : Accounts :=
  [("acct-a", [("bond", acct "3"); ("usd", acct "7")]); ("acct-b", [("other", acct "1"); ("usd", acct "900")])].

(** With two isolated accounts, the USD balance found for the bond is the
    one Go's map iteration visits last: reordering the same portfolio changes
    the capital the strategy sizes its orders with. *)
Theorem portfolio_order_dependent :
  (reverse two_isolated ≡ₚ two_isolated) /\
  findBalancesInAccounts (D := RefDec) two_isolated false "bond" "usd"
    = Ok (Some {| USD := RD 900 0; Bond := RD 3 0 |}) /\
  findBalancesInAccounts (D := RefDec) (reverse two_isolated) false "bond" "usd"
    = Ok (Some {| USD := RD 7 0; Bond := RD 3 0 |}).
Proof. split_and!; [apply reverse_Permutation | reflexivity | reflexivity]. Qed.

(** ** A concrete environment for the witnesses

    Every order is accepted and reported as filled for ten units; ids count
    up; the clock stands still. *)
Definition demo_env : Env (D := RefDec) nat := {|
  BaseAssetID := fun _ w => (Ok "bond", w);
  QuoteAssetID := fun _ w => (Ok "usd", w);
  AssetPosition := fun _ w => (Ok (RD 0 0, RD 0 0), w);
  GetPortfolioV2 := fun w => (Ok None, w);
  CreateMarketOrder := fun _ w => (Ok "order", w);
  AssetCollateralWeight := fun _ w => (Ok (RD 1 0), w);
  GetOrderFilledStatus := fun _ w => (Ok ("FILLED", RD 10 0), w);
  ListOrdersByClientOrderIDPrefix := fun _ w => (Ok [], w);
  Records := None;
  Store_SaveState := Some (fun _ _ w => (Ok tt, w));
  Store_LoadState := Some (fun _ w => (Ok ""%string, w));
  NewV7 := fun w => (String (Ascii.ascii_of_nat (48 + w)) "", S w);
  uuid_Parse := fun u => Ok u;
  Now := fun w => (MkTime (1000 * Day) 0, w);
|}.
