(* ===== verification/Replay.v ===== *)
(** * What the backtests share

    Each strategy package has its own backtester; they have the same tick
    cursor, the same gap-capped fills, the same profit formula and the same
    notion of a position's losing and winning side.  This file holds them once
    with their lemmas: ticks are looked at once; a fill lies between the level
    and the open; profits have the sign of the prices; a timeline that only
    grows is sorted. *)

From S2P Require Import Prelude GoTime Decimal RefDecimal Types.

Section Replay.
Context {D : DecimalOps}.

(** [prices.AssetPrice] *)
Record AssetPrice := { px_AssetID : string; px_Price : dec; px_YTM : option dec; px_Time : Time }.

(** ** The tick cursor *)

(** The ticks of [(from, to]] at the front of [ticks], and how many were
    passed. *)
Fixpoint tick_scan (ticks : list AssetPrice) (from to : Time) : list AssetPrice * nat :=
  match ticks with
  | [] => ([], O)
  | t :: rest =>
      if time_after (px_Time t) to then ([], O)
      else let '(out, n) := tick_scan rest from to in
           ((if time_after (px_Time t) from then t :: out else out), S n)
  end.

Definition tickWindow (ticks : list AssetPrice) (idx : nat) (from to : Time) : list AssetPrice * nat :=
  let '(out, n) := tick_scan (drop idx ticks) from to in (out, (idx + n)%nat).

(** A stop is filled at the worse of its level and the bar's open, a
    take-profit at the better one. *)
Definition gap_stop (sig : Signal) (level open : dec) : dec :=
  match sig with
  | SignalBuy => if d_lt open level then open else level
  | _ => if d_gt open level then open else level
  end.

Definition gap_tp (sig : Signal) (level open : dec) : dec :=
  match sig with
  | SignalBuy => if d_gt open level then open else level
  | _ => if d_lt open level then open else level
  end.

Definition trade_pnl (sig : Signal) (entryPrice exitPrice quantity : dec) : result dec :=
  cost ← dmul entryPrice quantity;
  proceeds ← dmul exitPrice quantity;
  match sig with
  | SignalBuy => dsub proceeds cost
  | SignalSell => dsub cost proceeds
  | SignalHold => Ok dzero
  end.

(** The cash a trade moves: buying a position spends, selling it earns. *)
Definition cash_in (sig : Signal) (balance price quantity : dec) : result dec :=
  match sig with
  | SignalBuy => cash ← dmul price quantity; dsub balance cash
  | SignalSell => cash ← dmul price quantity; dadd balance cash
  | SignalHold => Ok balance
  end.

Definition cash_out (sig : Signal) (balance price quantity : dec) : result dec :=
  match sig with
  | SignalBuy => cash ← dmul price quantity; dadd balance cash
  | SignalSell => cash ← dmul price quantity; dsub balance cash
  | SignalHold => Ok balance
  end.
End Replay.

(** ** Candle coverage *)

(** The warm-up start and the end floored to the resolution. *)
Definition warmup_start (n res : Z) (start : Time) : Time :=
  time_add start (dur_mul (wrap64 (- wrap64 (n + 1))) res).
Definition floor_end (res : Z) (end_ : Time) : Time := time_truncate (time_utc end_) res.

(** The raw rows last a minute. *)
Definition covered (range : result (option Time * option Time)) (dataStart end_ : Time) : result unit :=
  match range with
  | Err e => Err (ErrWrap "load candle range" e)
  | Ok (Some lo, Some hi) =>
      if time_after lo dataStart || time_before (time_add hi Minute) end_ then Err (ErrMsg "no candle coverage") else Ok tt
  | Ok _ => Err (ErrMsg "no candle coverage")
  end.

(** ** Theory: ticks *)

Section TickTheory.
Context {D : DecimalOps}.
Implicit Types (t : AssetPrice) (ticks : list AssetPrice).

Definition tick_ns t : Z := t_ns (px_Time t).
Definition ticks_sorted ticks : Prop := StronglySorted (fun a b => tick_ns a <= tick_ns b) ticks.
Definition in_span (from to : Time) t : Prop := t_ns from < tick_ns t <= t_ns to.
#[export] Instance in_span_dec from to t : base.Decision (in_span from to t).
Proof. unfold in_span. apply _. Defined.

Lemma filter_none {A} (Q : A -> Prop) `{!forall x, base.Decision (Q x)} (l : list A) :
  Forall (fun x => ~ Q x) l -> filter Q l = [].
Proof. induction 1; [done |]. by rewrite filter_cons_False. Qed.

Lemma tick_scan_spec ticks from to : ticks_sorted ticks ->
  let '(out, n) := tick_scan ticks from to in
  out = filter (in_span from to) ticks /\ (n <= length ticks)%nat /\
  Forall (fun t => tick_ns t <= t_ns to) (take n ticks) /\
  Forall (fun t => t_ns to < tick_ns t) (drop n ticks).
Proof.
  induction ticks as [|t ticks IH]; intros Hs; simpl; [done |].
  apply StronglySorted_inv in Hs as [Hs Hall]. specialize (IH Hs).
  unfold time_after at 1. destruct (t_ns to <? t_ns (px_Time t)) eqn:Ht; bool_prop.
  - assert (Forall (fun t => t_ns to < tick_ns t) (t :: ticks)) as Hf.
    { constructor; [done |]. eapply Forall_impl; [exact Hall |]. unfold tick_ns. simpl. lia. }
    split_and!; [| simpl; lia | done | done].
    symmetry. apply filter_none. eapply Forall_impl; [exact Hf |]. unfold in_span. simpl. lia.
  - destruct (tick_scan ticks from to) as [out n]. destruct IH as (-> & Hn & H1 & H2). simpl.
    split_and!; [| lia | by constructor | done].
    unfold time_after. rewrite filter_cons. destruct (decide _) as [Hd|Hd]; unfold in_span, tick_ns in Hd;
      destruct (t_ns from <? t_ns (px_Time t)) eqn:Hf; bool_prop; try done; lia.
Qed.

(** On ticks in time order, the cursor returns exactly the ticks after
    [from] and up to [to] among those not yet passed, and leaves exactly those
    after [to] for the next window. *)
Theorem tick_window_exact ticks idx from to :
  ticks_sorted (drop idx ticks) ->
  let '(out, idx') := tickWindow ticks idx from to in
  out = filter (in_span from to) (drop idx ticks) /\ (idx <= idx')%nat /\
  Forall (fun t => tick_ns t <= t_ns to) (take (idx' - idx) (drop idx ticks)) /\
  Forall (fun t => t_ns to < tick_ns t) (drop idx' ticks).
Proof.
  intros Hs. unfold tickWindow. pose proof (tick_scan_spec _ from to Hs) as Hx.
  destruct (tick_scan (drop idx ticks) from to) as [out n]. destruct Hx as (-> & Hn & H1 & H2).
  split_and!; [done | lia | by replace (idx + n - idx)%nat with n by lia | by rewrite <- drop_drop].
Qed.
(** Whatever the order of the ticks, those returned lie in the window. *)
Lemma tick_scan_in_span ticks from to : Forall (in_span from to) (tick_scan ticks from to).1.
Proof.
  induction ticks as [|t ticks IH]; simpl; [constructor |]. destruct (time_after (px_Time t) to) eqn:Ht; [constructor |].
  destruct (tick_scan ticks from to) as [out n]. simpl in *. destruct (time_after (px_Time t) from) eqn:Hf; [| done].
  constructor; [| done]. unfold in_span, tick_ns, time_after in *. bool_prop. lia.
Qed.

Lemma tick_window_in_span ticks idx from to : Forall (in_span from to) (tickWindow ticks idx from to).1.
Proof.
  unfold tickWindow. pose proof (tick_scan_in_span (drop idx ticks) from to) as H. by destruct (tick_scan _ _ _).
Qed.
End TickTheory.

(** ** Theory: sides, fills and profit *)

Section SideTheory.
Context {D : DecimalOps} {L : DecimalLaws}.
Implicit Types (entry exit price level : dec).
#[local] Open Scope Q_scope.

(** A price at which a position does not gain, and one at which it does not
    lose. *)
Definition at_loss (sig : Signal) entry price : Prop :=
  match sig with
  | SignalBuy => dval price <= dval entry | SignalSell => dval entry <= dval price | SignalHold => False
  end.
Definition at_gain (sig : Signal) entry price : Prop :=
  match sig with
  | SignalBuy => dval entry <= dval price | SignalSell => dval price <= dval entry | SignalHold => False
  end.

(** A stop-loss does not gain, a take-profit does not lose. *)
Definition exit_sided (sig : Signal) entry exit (reason : string) : Prop :=
  (reason = "stop_loss"%string -> at_loss sig entry exit) /\
  (reason = "take_profit"%string -> at_gain sig entry exit).

Lemma exit_sided_other sig entry exit reason :
  reason <> "stop_loss"%string -> reason <> "take_profit"%string -> exit_sided sig entry exit reason.
Proof. by split. Qed.

Lemma gap_stop_spec sig l open : sig <> SignalHold ->
  match sig with
  | SignalBuy => dval (gap_stop sig l open) == Qmin (dval l) (dval open)
  | _ => dval (gap_stop sig l open) == Qmax (dval l) (dval open)
  end.
Proof.
  intros Hs. destruct sig; [done | |]; simpl.
  - destruct (d_lt open l) eqn:E; [apply d_lt_spec in E; rewrite Q.min_r | apply d_lt_false in E; rewrite Q.min_l]; lra.
  - destruct (d_gt open l) eqn:E; [apply d_gt_spec in E; rewrite Q.max_r | apply d_gt_false in E; rewrite Q.max_l]; lra.
Qed.

Lemma gap_tp_spec sig l open : sig <> SignalHold ->
  match sig with
  | SignalBuy => dval (gap_tp sig l open) == Qmax (dval l) (dval open)
  | _ => dval (gap_tp sig l open) == Qmin (dval l) (dval open)
  end.
Proof.
  intros Hs. destruct sig; [done | |]; simpl.
  - destruct (d_gt open l) eqn:E; [apply d_gt_spec in E; rewrite Q.max_r | apply d_gt_false in E; rewrite Q.max_l]; lra.
  - destruct (d_lt open l) eqn:E; [apply d_lt_spec in E; rewrite Q.min_r | apply d_lt_false in E; rewrite Q.min_l]; lra.
Qed.

(** The rounded profit of a trade has the sign its prices say. *)
Lemma trade_pnl_sign sig entry exit q pnl : trade_pnl sig entry exit q = Ok pnl -> 0 <= dval q ->
  (at_loss sig entry exit -> dval pnl <= 0) /\ (at_gain sig entry exit -> 0 <= dval pnl).
Proof.
  unfold trade_pnl. intros H Hq. apply result_bind_Ok in H as (cost & Ec & H).
  apply result_bind_Ok in H as (proceeds & Ep & H).
  pose proof (fun Hx => dmul_mono entry exit q cost proceeds Hx Hq Ec Ep) as M1.
  pose proof (fun Hx => dmul_mono exit entry q proceeds cost Hx Hq Ep Ec) as M2.
  destruct sig; [by split | |]; split; intros Hx; simpl in Hx;
    [eapply dsub_nonpos | eapply dsub_nonneg | eapply dsub_nonpos | eapply dsub_nonneg]; eauto.
Qed.
End SideTheory.

(** ** Theory: cash over exact arithmetic *)

Section Ledger.
#[local] Existing Instance QDec.
#[local] Open Scope Q_scope.

(** What holding a position has taken out of the balance. *)
Definition tied_up (sig : Signal) (price quantity : Q) : Q :=
  match sig with
  | SignalBuy => price * quantity
  | SignalSell => - (price * quantity)
  | SignalHold => 0
  end.

Lemma cash_in_tied_up sig (balance price quantity after : Q) : cash_in sig balance price quantity = Ok after ->
  after == balance - tied_up sig price quantity.
Proof. destruct sig; cbn; intros H; assert (E : _ = after) by (injection H as H; exact H); rewrite <- E; ring. Qed.

(** Leaving a position frees what it tied up, and its profit. *)
Lemma cash_out_pnl sig (balance entry exit quantity after pnl : Q) :
  cash_out sig balance exit quantity = Ok after -> trade_pnl sig entry exit quantity = Ok pnl ->
  after == balance + tied_up sig entry quantity + pnl.
Proof.
  destruct sig; cbn; intros H1 H2; assert (E1 : _ = after) by (injection H1 as H1; exact H1);
    assert (E2 : _ = pnl) by (injection H2 as H2; exact H2); rewrite <- E1, <- E2; ring.
Qed.

(** Buying a whole number of bonds for a budget does not exceed it. *)
Lemma floor_quo_cost (budget price q : Q) : dquo (budget : dec) price = Ok q -> 0 < price ->
  price * inject_Z (Qfloor q) <= budget.
Proof.
  cbn. destruct (Qeq_bool price 0) eqn:Hz; [discriminate |]. intros [= <-] Hp.
  apply Qle_trans with (price * (budget / price)).
  - apply Qmult_le_l; [done | apply Qfloor_le].
  - apply Qle_lteq. right. field. intros X. rewrite X in Hp. by apply Qlt_irrefl in Hp.
Qed.
End Ledger.

(** ** Theory: timelines *)

Section Timeline.
Context {A : Type} (ns : A -> Z).

(** In time order, and nothing after [limit]. *)
Definition timeline (limit : Z) (records : list A) : Prop :=
  StronglySorted (fun e x => ns e <= ns x) records /\ Forall (fun e => ns e <= limit) records.

Lemma timeline_nil limit : timeline limit [].
Proof. split; constructor. Qed.

Lemma timeline_snoc limit limit' records x : timeline limit records -> limit <= ns x <= limit' ->
  timeline limit' (records ++ [x]).
Proof.
  intros [Hs Hf] Hx. split.
  - induction Hs as [|e l Hs IH Hall]; simpl; [repeat constructor |].
    apply Forall_cons in Hf as [Hl Hf]. constructor; [by apply IH |].
    apply Forall_app. split; [done |]. constructor; [lia | constructor].
  - apply Forall_app. split; [| constructor; [lia | constructor]].
    eapply Forall_impl; [exact Hf |]. simpl. lia.
Qed.

Lemma timeline_weaken limit limit' records : limit <= limit' -> timeline limit records -> timeline limit' records.
Proof. intros Hl [Hs Hf]. split; [done |]. eapply Forall_impl; [exact Hf |]. simpl. lia. Qed.
End Timeline.

(** A cursor in the middle of four ticks. *)
Lemma tick_window_exact_witness :
  let tick n := {| px_AssetID := "bond"; px_Price := RD 1 0; px_YTM := None; px_Time := MkTime n 0 |} : AssetPrice (D := RefDec) in
  (tickWindow [tick 1; tick 2; tick 3; tick 4] 1 (MkTime 2 0) (MkTime 3 0)).2 = 3%nat /\
  Forall (fun t => 3 < tick_ns t) (drop 3 [tick 1; tick 2; tick 3; tick 4]).
Proof.
  intros tick. split; [reflexivity |].
  apply (tick_window_exact (D := RefDec) [tick 1; tick 2; tick 3; tick 4] 1 (MkTime 2 0) (MkTime 3 0)).
  unfold ticks_sorted. simpl. repeat constructor; unfold tick_ns; simpl; lia.
Defined.
