(* ===== verification/Exec.v ===== *)
(** * strategy/exec: orders and run state of the execution strategies

    [RunState] and the [Executor] of [exec.go], shared by TWAP and VWAP:
    placing an order, applying order updates, reconciling after a restart,
    importing orphaned orders, and checkpointing.

    Theory: the tallies agree with the order list after every operation as
    long as updates for settled orders never shrink or re-open them; a failed
    placement changes nothing; two ways in which the tallies go wrong. *)

From S2P Require Import Prelude GoTime Decimal RefDecimal Types Market.

Definition OrderStatusOpen : string := "OPEN".
Definition OrderStatusPending : string := "PENDING".
Definition OrderStatusFilled : string := "FILLED".
Definition OrderStatusPartialFill : string := "PARTIAL_FILL".
Definition OrderStatusCancelled : string := "CANCELLED".

Definition IsTerminal (status : string) : bool :=
  bool_decide (status = OrderStatusFilled) || bool_decide (status = OrderStatusCancelled).

Definition DoraclientSide (signal : Signal) : Side :=
  if bool_decide (signal = SignalSell) then SIDE_SELL else SIDE_BUY.

Section Exec.
Context {D : DecimalOps}.

Record OrderEntry := {
  oe_OrderID : string;
  oe_ClientOrderID : string;
  oe_RequestedQuantity : dec;
  oe_FilledQuantity : dec;
  oe_Status : string;
}.

Record OrderFillEvent := {
  fe_ClientOrderID : string;
  fe_Status : string;
  fe_FilledQuantity : dec;
}.

Record RunState := MkRunState {
  TotalFilled : dec;
  TotalSubmitted : dec;
  ChunksProcessed : Z;
  Orders : list OrderEntry;
  Buckets : list dec;
}.

Definition zero_RunState : RunState := MkRunState dzero dzero 0 [] [].

Definition set_ChunksProcessed (n : Z) (s : RunState) : RunState :=
  MkRunState (TotalFilled s) (TotalSubmitted s) n (Orders s) (Buckets s).

Definition AppendOrder (o : OrderEntry) (s : RunState) : RunState :=
  MkRunState (TotalFilled s) (TotalSubmitted s) (ChunksProcessed s) (Orders s ++ [o]) (Buckets s).

Definition has_client_id (clientID : string) (o : OrderEntry) : Prop := oe_ClientOrderID o = clientID.
#[export] Instance has_client_id_dec c o : Decision (has_client_id c o).
Proof. unfold has_client_id. apply _. Defined.

(** The first order with the client id. *)
Definition FindOrderByClientID (s : RunState) (clientID : string) : option OrderEntry :=
  snd <$> list_find (has_client_id clientID) (Orders s).

Definition settle (filledQty : dec) (status : string) (o : OrderEntry) : OrderEntry := {|
  oe_OrderID := oe_OrderID o; oe_ClientOrderID := oe_ClientOrderID o;
  oe_RequestedQuantity := oe_RequestedQuantity o;
  oe_FilledQuantity := filledQty; oe_Status := status |}.

(** [SetOrder]; an index outside the slice is ignored. *)
Definition SetOrder (idx : nat) (filledQty : dec) (status : string) (s : RunState) : RunState :=
  MkRunState (TotalFilled s) (TotalSubmitted s) (ChunksProcessed s)
    (alter (settle filledQty status) idx (Orders s)) (Buckets s).

(** On a decimal error the tally becomes the zero that comes with it. *)
Definition AddTotalSubmitted (d : dec) (s : RunState) : RunState :=
  MkRunState (TotalFilled s) (d_or_zero (dadd (TotalSubmitted s) d)) (ChunksProcessed s) (Orders s) (Buckets s).

Definition AddTotalFilled (d : dec) (s : RunState) : RunState :=
  MkRunState (d_or_zero (dadd (TotalFilled s) d)) (TotalSubmitted s) (ChunksProcessed s) (Orders s) (Buckets s).

(** The scan of [ProcessOrderUpdate]: the last order with the client id. *)
Fixpoint last_match (clientID : string) (i : nat) (os : list OrderEntry)
    (found : option (nat * OrderEntry)) : option (nat * OrderEntry) :=
  match os with
  | [] => found
  | o :: rest =>
      last_match clientID (S i) rest
        (if bool_decide (oe_ClientOrderID o = clientID) then Some (i, o) else found)
  end.

(** The tally change for an order that reached a terminal status. *)
Definition book_terminal (wasTerminal : bool) (prevFilled filled : dec) (s : RunState) : RunState :=
  if negb wasTerminal then AddTotalFilled filled s
  else let delta := d_or_zero (dsub filled prevFilled) in
       if d_is_pos delta then AddTotalFilled delta s else s.

(** [ProcessOrderUpdate] on the run state, without the final checkpoint;
    [None] when the event is ignored. *)
Definition apply_update (evt : OrderFillEvent) (s : RunState) : option RunState :=
  match FindOrderByClientID s (fe_ClientOrderID evt) with
  | None => None
  | Some _ =>
      match last_match (fe_ClientOrderID evt) 0 (Orders s) None with
      | None => None
      | Some (idx, o) =>
          let s1 := SetOrder idx (fe_FilledQuantity evt) (fe_Status evt) s in
          Some (if IsTerminal (fe_Status evt)
                then book_terminal (IsTerminal (oe_Status o)) (oe_FilledQuantity o) (fe_FilledQuantity evt) s1
                else s1)
      end
  end.

(** JSON, with the decimal library's text form. *)
Class RunStateCodec := {
  Marshal : RunState -> result string;
  json_Unmarshal : string -> result RunState;
}.

(** What the persistence relies on: encoding cannot fail, is never empty and
    is undone by decoding. *)
Class RunStateCodecLaws `{RunStateCodec} : Prop := {
  Marshal_total r : is_ok (Marshal r) = true;
  Marshal_nonempty r : Marshal r <> Ok ""%string;
  Unmarshal_Marshal r raw : Marshal r = Ok raw -> json_Unmarshal raw = Ok r;
}.

Definition UnmarshalState `{RunStateCodec} (raw : string) : result RunState :=
  if bool_decide (raw = ""%string) then Ok zero_RunState else json_Unmarshal raw.

(** ** The executor *)

Record Executor := { ex_Name : string; ex_RunID : string; ex_MarketWired : bool }.

Context {C : RunStateCodec} {W : Type} (E : Env W).
Implicit Types (e : Executor) (state : RunState) (y : Sys W).

Definition Executor_SaveState e state : ST (Sys W) unit := fun y =>
  match Store_SaveState E with
  | None => (tt, y)
  | Some save =>
      match Marshal state with
      | Err _ => (tt, y)
      | Ok raw =>
          let '(_, y1) := invoke (save (ex_RunID e) raw) (fun res => [CallSaveState (ex_RunID e) raw res]) y in
          (tt, y1)
      end
  end.

Definition Executor_LoadState e : ST (Sys W) (result string) := fun y =>
  match Store_LoadState E with
  | None => (Ok ""%string, y)
  | Some load => quiet (load (ex_RunID e)) y
  end.

Definition new_order (orderID clientOrderID : string) (quantity : dec) (status : string) : OrderEntry := {|
  oe_OrderID := orderID; oe_ClientOrderID := clientOrderID; oe_RequestedQuantity := quantity;
  oe_FilledQuantity := dzero; oe_Status := status |}.

(** [PlaceOrder]; the market client is non-nil whenever it is called. *)
Definition PlaceOrder e state (bondID : string) (signal : Signal) (quantity : dec)
  : ST (Sys W) (result (string * string) * RunState) := fun y =>
  let '(clientOrderID, y1) := BuildClientOrderID E (ex_Name e) (ex_RunID e) y in
  let '(res, y2) := create_market_order E {|
    or_OrderBookID := bondID; or_Side := DoraclientSide signal; or_Quantity := quantity;
    or_InverseLeverage := done1; or_FromGlobalPosition := false;
    or_ClientOrderID := clientOrderID |} y1 in
  match res with
  | Err err => ((Err err, state), y2)
  | Ok orderID =>
      if bool_decide (orderID = ""%string) then
        ((Err (ErrMsg "dora returned empty order id"), state), y2)
      else
        ((Ok (orderID, clientOrderID),
          AddTotalSubmitted quantity
            (AppendOrder (new_order orderID clientOrderID quantity OrderStatusOpen) state)), y2)
  end.

Definition ProcessOrderUpdate e (evt : OrderFillEvent) state : ST (Sys W) RunState := fun y =>
  match apply_update evt state with
  | None => (state, y)
  | Some state' => let '(_, y1) := Executor_SaveState e state' y in (state', y1)
  end.

Definition RecordDecision e (signal : Signal) (bondID : string) (quantity : dec)
    (clientOrderID : string) (at_ : Time) (seq : Z) : ST (Sys W) unit := fun y =>
  match Records E with
  | None => (tt, y)
  | Some save =>
      let d := {|
        dr_RunID := ex_RunID e; dr_Seq := seq; dr_StrategyType := ex_Name e;
        dr_OrderBookID := MustParseUUID E bondID; dr_Asset := MustParseUUID E bondID;
        dr_Side := Signal_String signal; dr_Signal := Signal_String signal;
        dr_Quantity := quantity; dr_Price := dzero;
        dr_Leverage := dzero; dr_InverseLeverage := dzero; dr_FromGlobalPosition := false;
        dr_Kind := DecisionKindOpen; dr_Reason := (ex_Name e +:+ "_execution")%string;
        dr_CreatedAt := at_; dr_ClientOrderID := clientOrderID |} in
      let '(_, y1) := invoke (save d) (fun _ => [CallSaveDecision d]) y in (tt, y1)
  end.

(** One visit of [ReconcilePendingOrders]. *)
Definition reconcile_one (getFilled : string -> W -> result (string * dec) * W) (idx : nat) state
  : ST (Sys W) RunState := fun y =>
  match Orders state !! idx with
  | None => (state, y)
  | Some o =>
      if IsTerminal (oe_Status o) then (state, y)
      else
        let '(r, y1) := quiet (getFilled (oe_OrderID o)) y in
        match r with
        | Err _ => (state, y1)
        | Ok (status, filledQty) =>
            let '(prevFilled, wasTerminal) :=
              match Orders state !! idx with
              | Some prev => (oe_FilledQuantity prev, IsTerminal (oe_Status prev))
              | None => (dzero, false)
              end in
            let s1 := SetOrder idx filledQty status state in
            (if IsTerminal status then book_terminal wasTerminal prevFilled filledQty s1 else s1, y1)
        end
  end.

Fixpoint reconcile_from (getFilled : string -> W -> result (string * dec) * W) (n idx : nat) state
  : ST (Sys W) RunState := fun y =>
  match n with
  | O => (state, y)
  | S n' => let '(s1, y1) := reconcile_one getFilled idx state y in reconcile_from getFilled n' (S idx) s1 y1
  end.

Definition ReconcilePendingOrders e (getFilled : string -> W -> result (string * dec) * W) state
  : ST (Sys W) RunState := fun y =>
  if negb (ex_MarketWired e) then (state, y)
  else
    let '(s1, y1) := reconcile_from getFilled (length (Orders state)) 0 state y in
    let '(_, y2) := Executor_SaveState e s1 y1 in (s1, y2).

(** One listed order: the state after it and whether it was imported. *)
Definition import_one (o : Order) state : RunState * bool :=
  let clientID := default ""%string (ClientOrderId o) in
  if bool_decide (clientID = ""%string) then (state, false)
  else match FindOrderByClientID state clientID with
       | Some _ => (state, false)
       | None =>
           match dparse (OriginalQuantity o) with
           | Err _ => (state, false)
           | Ok reqQty =>
               (AddTotalSubmitted reqQty
                  (AppendOrder (new_order (OrderId o) clientID reqQty (Order_Status o)) state), true)
           end
       end.

Fixpoint import_all (os : list Order) state (imported : nat) : RunState * nat :=
  match os with
  | [] => (state, imported)
  | o :: rest =>
      let '(s1, b) := import_one o state in
      import_all rest s1 (if b then S imported else imported)
  end.

Definition ImportOrphanedOrders e (prefix : string) state : ST (Sys W) RunState := fun y =>
  if negb (ex_MarketWired e) || bool_decide (prefix = ""%string) then (state, y)
  else
    let '(r, y1) := quiet (ListOrdersByClientOrderIDPrefix E prefix) y in
    match r with
    | Err _ => (state, y1)
    | Ok orders =>
        let '(s1, imported) := import_all orders state 0 in
        if (0 <? imported)%nat then let '(_, y2) := Executor_SaveState e s1 y1 in (s1, y2)
        else (s1, y1)
    end.
End Exec.

(** ** Accounting *)

Section Accounting.
Context {D : DecimalOps} {L : DecimalLaws} (sc : nat) (Hsc : (sc <= 19)%nat).
Implicit Types (o : OrderEntry) (os : list OrderEntry) (st : RunState).

(** Quantities on the decimal grid [10^-sc]. *)
Definition gridq (q : Q) : Prop := exists c, (q == scaled c sc)%Q.
Definition capacity : Q := scaled max_coef sc.

Definition terminal_fill o : Q := if IsTerminal (oe_Status o) then dval (oe_FilledQuantity o) else 0%Q.
Definition settled_fills os : Q := qsum (terminal_fill <$> os).
Definition requested os : Q := qsum ((fun o => dval (oe_RequestedQuantity o)) <$> os).

Definition good_qty (q : dec) : Prop := gridq (dval q) /\ (0 <= dval q)%Q.
Definition good_order o : Prop :=
  good_qty (oe_FilledQuantity o) /\ good_qty (oe_RequestedQuantity o) /\
  (dval (oe_FilledQuantity o) <= dval (oe_RequestedQuantity o))%Q.

(** The tallies are the sums over the order list. *)
Record accounted st : Prop := {
  acc_filled : (dval (TotalFilled st) == settled_fills (Orders st))%Q;
  acc_submitted : (dval (TotalSubmitted st) == requested (Orders st))%Q;
  acc_good : Forall good_order (Orders st);
  acc_capacity : (requested (Orders st) <= capacity)%Q;
}.

Lemma gridq_add p q : gridq p -> gridq q -> gridq (p + q)%Q.
Proof. intros [c1 E1] [c2 E2]. exists (c1 + c2). by rewrite E1, E2, scaled_add. Qed.
Lemma gridq_sub p q : gridq p -> gridq q -> gridq (p - q)%Q.
Proof. intros [c1 E1] [c2 E2]. exists (c1 + - c2). by rewrite E1, E2, scaled_add, scaled_opp. Qed.
Lemma gridq_0 : gridq 0.
Proof. exists 0. reflexivity. Qed.
Lemma gridq_proper p q : (p == q)%Q -> gridq p -> gridq q.
Proof. intros E [c Ec]. exists c. by rewrite <- E. Qed.

Lemma gridq_repr q : gridq q -> (0 <= q <= capacity)%Q -> representable q.
Proof.
  intros [c E] [H0 H1]. exists c, sc. split_and!; [| done | done].
  rewrite E in H0, H1. apply scaled_le in H1.
  assert (0 <= c); [| lia]. apply (scaled_le 0 c sc). eapply Qle_trans; [| exact H0]. easy.
Qed.

Lemma add_exact (x y : dec) : gridq (dval x + dval y) -> (0 <= dval x + dval y <= capacity)%Q ->
  (dval (d_or_zero (dadd x y)) == dval x + dval y)%Q.
Proof.
  intros Hg Hr. destruct (dmatch_exact _ _ (dadd_spec x y) (gridq_repr _ Hg Hr)) as (z & -> & E).
  exact E.
Qed.

Lemma sub_exact (x y : dec) : gridq (dval x - dval y) -> (0 <= dval x - dval y <= capacity)%Q ->
  (dval (d_or_zero (dsub x y)) == dval x - dval y)%Q.
Proof.
  intros Hg Hr. destruct (dmatch_exact _ _ (dsub_spec x y) (gridq_repr _ Hg Hr)) as (z & -> & E).
  exact E.
Qed.

Lemma terminal_fill_good o : good_order o -> gridq (terminal_fill o) /\ (0 <= terminal_fill o)%Q.
Proof.
  intros [[H1 H2] [_ _]]. unfold terminal_fill. destruct (IsTerminal _); [done | split; [apply gridq_0 | lra]].
Qed.

Lemma qsum_good {A} (f : A -> Q) (l : list A) :
  Forall (fun a => gridq (f a) /\ 0 <= f a)%Q l ->
  gridq (qsum (f <$> l)) /\ (0 <= qsum (f <$> l))%Q.
Proof.
  induction 1 as [|a l [G N] HF [IH1 IH2]]; [split; [apply gridq_0 | simpl; lra] |].
  rewrite fmap_cons, qsum_cons. split; [by apply gridq_add | lra].
Qed.

Lemma settled_good os : Forall good_order os -> gridq (settled_fills os) /\ (0 <= settled_fills os)%Q.
Proof. intros H. apply qsum_good. eapply Forall_impl; [exact H | apply terminal_fill_good]. Qed.

Lemma requested_good os : Forall good_order os -> gridq (requested os) /\ (0 <= requested os)%Q.
Proof. intros H. apply qsum_good. eapply Forall_impl; [exact H | by intros o (_ & ? & _)]. Qed.

Lemma settled_le_requested os : Forall good_order os -> (settled_fills os <= requested os)%Q.
Proof.
  induction 1 as [|o os ([? ?] & [? ?] & ?) HF IH]; [done |].
  unfold settled_fills, requested in *. rewrite !fmap_cons, !qsum_cons. unfold terminal_fill at 1.
  destruct (IsTerminal _); lra.
Qed.

Lemma qsum_alter {A} (f : A -> Q) (g : A -> A) (l : list A) i x :
  l !! i = Some x -> (qsum (f <$> alter g i l) == qsum (f <$> l) - f x + f (g x))%Q.
Proof.
  revert i. induction l as [|a l IH]; intros [|i] H; [done | done | |].
  - injection H as ->. change (alter g 0%nat (x :: l)) with (g x :: l). rewrite !fmap_cons, !qsum_cons. lra.
  - change (alter g (S i) (a :: l)) with (a :: alter g i l). rewrite !fmap_cons, !qsum_cons.
    rewrite (IH i H). lra.
Qed.

Lemma requested_alter fq stt i os : (requested (alter (settle fq stt) i os) == requested os)%Q.
Proof.
  unfold requested. revert i. induction os as [|o os IH]; intros [|i]; try reflexivity.
  change (alter (settle fq stt) (S i) (o :: os)) with (o :: alter (settle fq stt) i os).
  rewrite !fmap_cons, !qsum_cons. by rewrite IH.
Qed.

(** What an update may say about an order that is already settled. *)
Definition admissible_for (o : OrderEntry) (filled : dec) (status : string) : Prop :=
  good_qty filled /\ (dval filled <= dval (oe_RequestedQuantity o))%Q /\
  (IsTerminal (oe_Status o) = true ->
    IsTerminal status = true /\ (dval (oe_FilledQuantity o) <= dval filled)%Q).

Definition settle_at (idx : nat) (o : OrderEntry) (filled : dec) (status : string) st : RunState :=
  let s1 := SetOrder idx filled status st in
  if IsTerminal status
  then book_terminal (IsTerminal (oe_Status o)) (oe_FilledQuantity o) filled s1 else s1.

Lemma settle_at_orders idx o filled status st :
  Orders (settle_at idx o filled status st) = alter (settle filled status) idx (Orders st) /\
  TotalSubmitted (settle_at idx o filled status st) = TotalSubmitted st.
Proof.
  unfold settle_at, book_terminal. destruct (IsTerminal status); [| done].
  destruct (IsTerminal (oe_Status o)); simpl; [| done]. destruct (d_is_pos _); done.
Qed.

Lemma settle_at_accounted idx o filled status st :
  accounted st -> Orders st !! idx = Some o -> admissible_for o filled status ->
  accounted (settle_at idx o filled status st).
Proof.
  intros [Hf Hs Hg Hrc] Ho ([Gq Nq] & Hreq & Hadm).
  destruct (settle_at_orders idx o filled status st) as [EO ES].
  pose proof (Forall_lookup_1 _ _ _ _ Hg Ho) as Go.
  assert (Forall good_order (alter (settle filled status) idx (Orders st))) as Hg'.
  { apply Forall_alter; [done |]. intros x Hx (_ & ? & _). split_and!; [by split | done |]. simpl. congruence. }
  assert (settled_fills (alter (settle filled status) idx (Orders st)) <= capacity)%Q as Hcap.
  { eapply Qle_trans; [by apply settled_le_requested |]. by rewrite requested_alter. }
  destruct (settled_good _ Hg) as [G1 N1]. destruct (settled_good _ Hg') as [G2 N2].
  destruct (terminal_fill_good _ Go) as [G3 N3]. destruct Go as [[G4 N4] _].
  unfold settled_fills in Hcap, G2, N2. rewrite (qsum_alter _ _ _ _ _ Ho) in Hcap, N2.
  apply (gridq_proper _ _ (qsum_alter terminal_fill _ _ _ _ Ho)) in G2.
  fold (settled_fills (Orders st)) in *.
  split; rewrite ?EO, ?ES.
  - unfold settled_fills. rewrite (qsum_alter _ _ _ _ _ Ho). fold (settled_fills (Orders st)).
    unfold settle_at, book_terminal, terminal_fill in *. simpl in *.
    destruct (IsTerminal status) eqn:Et.
    + destruct (IsTerminal (oe_Status o)) eqn:Eo; simpl.
      * destruct (Hadm eq_refl) as [_ Hle].
        assert (capacity >= dval filled - dval (oe_FilledQuantity o))%Q by lra.
        assert (dval (d_or_zero (dsub filled (oe_FilledQuantity o))) == dval filled - dval (oe_FilledQuantity o))%Q as Ed.
        { apply sub_exact; [by apply gridq_sub | lra]. }
        destruct (d_is_pos _) eqn:Ep; [apply d_is_pos_spec in Ep | apply d_is_pos_false in Ep]; simpl.
        -- rewrite add_exact; [lra | |]; simpl.
           ++ eapply gridq_proper; [| exact G2]. lra.
           ++ lra.
        -- lra.
      * rewrite add_exact; [lra | |]; simpl.
        ++ eapply gridq_proper; [| exact G2]. lra.
        ++ lra.
    + simpl. destruct (IsTerminal (oe_Status o)) eqn:Eo; [by destruct (Hadm eq_refl) | lra].
  - by rewrite requested_alter.
  - done.
  - by rewrite requested_alter.
Qed.

Lemma last_match_Some c os i found j o : last_match c i os found = Some (j, o) ->
  found = Some (j, o) \/ ((i <= j)%nat /\ os !! (j - i)%nat = Some o /\ oe_ClientOrderID o = c).
Proof.
  clear sc Hsc. revert i found. induction os as [|x os IH]; intros i found H; simpl in H; [by left |].
  apply IH in H as [H|(Hij & Hl & Hc)].
  - case_bool_decide; [| by left]. injection H as <- <-. right.
    split_and!; [lia | by rewrite Nat.sub_diag | done].
  - right. split_and!; [lia | | done]. by replace (j - i)%nat with (S (j - S i)) by lia.
Qed.

Lemma apply_update_Some evt st st' : apply_update evt st = Some st' ->
  exists idx o, Orders st !! idx = Some o /\ oe_ClientOrderID o = fe_ClientOrderID evt /\
    st' = settle_at idx o (fe_FilledQuantity evt) (fe_Status evt) st.
Proof.
  unfold apply_update. destruct (FindOrderByClientID _ _) as [o'|]; [| done].
  destruct (last_match _ _ _ _) as [[idx o]|] eqn:E; [| done].
  intros [= <-]. apply last_match_Some in E as [|(_ & Hl & Hc)]; [done |].
  rewrite Nat.sub_0_r in Hl. by exists idx, o.
Qed.

Lemma place_accounted st orderID cid qty :
  accounted st -> good_qty qty ->
  (requested (Orders st) + dval qty <= capacity)%Q ->
  accounted (AddTotalSubmitted qty (AppendOrder (new_order orderID cid qty OrderStatusOpen) st)).
Proof.
  intros [Hf Hs Hg Hrc] [Gq Nq] Hcap. destruct (requested_good _ Hg) as [G N].
  split; simpl.
  - unfold settled_fills. rewrite fmap_app, qsum_app. unfold terminal_fill at 2. simpl.
    fold (settled_fills (Orders st)). rewrite Hf. lra.
  - unfold requested. rewrite fmap_app, qsum_app. fold (requested (Orders st)). simpl.
    assert (gridq (dval (TotalSubmitted st) + dval qty)) as Ga.
    { eapply gridq_proper; [| exact (gridq_add _ _ G Gq)]. by rewrite Hs. }
    change (TotalSubmitted (AppendOrder _ st)) with (TotalSubmitted st).
    rewrite add_exact; [lra | done | lra].
  - apply Forall_app. split; [done |]. repeat constructor; simpl; rewrite ?dval_zero; try done; try lra.
    eapply gridq_proper; [symmetry; apply dval_zero | apply gridq_0].
  - unfold requested. rewrite fmap_app, qsum_app. fold (requested (Orders st)). simpl. lra.
Qed.

(** ** Exposure: settled fills plus everything still in flight *)

Definition order_exposure o : Q :=
  if IsTerminal (oe_Status o) then dval (oe_FilledQuantity o) else dval (oe_RequestedQuantity o).
Definition exposure os : Q := qsum (order_exposure <$> os).
Definition all_settled os : Prop := Forall (fun o => IsTerminal (oe_Status o) = true) os.

Lemma settled_le_exposure os : Forall good_order os -> (settled_fills os <= exposure os)%Q.
Proof.
  induction 1 as [|o os ([? ?] & [? ?] & ?) HF IH]; [done |].
  unfold settled_fills, exposure in *. rewrite !fmap_cons, !qsum_cons.
  unfold terminal_fill at 1, order_exposure at 1. destruct (IsTerminal _); lra.
Qed.

Lemma exposure_all_settled os : all_settled os -> exposure os = settled_fills os.
Proof.
  intros H. unfold exposure, settled_fills. f_equal. apply list_fmap_ext. intros i o Ho.
  unfold order_exposure, terminal_fill. by rewrite (Forall_lookup_1 _ _ _ _ H Ho).
Qed.

(** Updates that settle an order, or repeat the final fill of one that
    already settled. *)
Definition final_for (o : OrderEntry) (filled : dec) (status : string) : Prop :=
  good_qty filled /\ (dval filled <= dval (oe_RequestedQuantity o))%Q /\
  (IsTerminal (oe_Status o) = true ->
    IsTerminal status = true /\ (dval (oe_FilledQuantity o) == dval filled)%Q).

Lemma final_admissible o filled status : final_for o filled status -> admissible_for o filled status.
Proof.
  intros (H1 & H2 & H3). split_and!; [done | done |]. intros Ht. destruct (H3 Ht) as [? ->]. split; [done | lra].
Qed.

Lemma settle_at_exposure idx o filled status st :
  Orders st !! idx = Some o -> final_for o filled status ->
  (exposure (Orders (settle_at idx o filled status st)) <= exposure (Orders st))%Q.
Proof.
  intros Ho (_ & Hr & Hf). rewrite (proj1 (settle_at_orders _ _ _ _ _)).
  unfold exposure. rewrite (qsum_alter _ _ _ _ _ Ho). unfold order_exposure at 2 3. simpl.
  destruct (IsTerminal status) eqn:Es; destruct (IsTerminal (oe_Status o)) eqn:Eo; try lra;
    destruct (Hf eq_refl) as [? Ef]; first [discriminate | lra].
Qed.




End Accounting.

(** ** Properties *)

Section Properties.
Context {D : DecimalOps} {L : DecimalLaws} {C : RunStateCodec} {W : Type} (E : Env W).

(** C1: applying an order update keeps the books: [TotalFilled] stays the sum
    of the settled fills and [TotalSubmitted] the sum of the requested
    quantities of the order list, exactly.  Conditions: the fill reported is
    not negative and at most what the order requested; an update for an order
    that already settled does not re-open it or shrink its fill; and nothing
    is rounded, that is, fills and requests lie on one decimal grid (of at
    most 19 places) on which the sum of the requests fits 19 digits. *)
Theorem process_order_update_accounted (sc : nat) (e : Executor) (evt : OrderFillEvent)
    (st : RunState) (y : Sys W) :
  (sc <= 19)%nat -> accounted sc st ->
  (forall o, o ∈ Orders st -> oe_ClientOrderID o = fe_ClientOrderID evt ->
    admissible_for sc o (fe_FilledQuantity evt) (fe_Status evt)) ->
  accounted sc (ProcessOrderUpdate E e evt st y).1.
Proof.
  intros Hsc Ha Hadm. unfold ProcessOrderUpdate.
  destruct (apply_update evt st) as [st'|] eqn:Eu; [| done].
  apply apply_update_Some in Eu as (idx & o & Ho & Hc & ->).
  destruct (Executor_SaveState _ _ _ _). simpl.
  apply (settle_at_accounted sc); [done | done | done |]. apply Hadm; [| done].
  by eapply list_elem_of_lookup_2.
Qed.


(** [PlaceOrder] sends exactly one market order, under a fresh id of the
    form [name.run.uuid]; if the market fails or answers without an order id
    the run state is untouched, otherwise the order is appended as open and
    unfilled and its quantity added to [TotalSubmitted]. *)
Theorem place_order_effect (e : Executor) (st : RunState) (bondID : string) (signal : Signal)
    (qty : dec) (y : Sys W) :
  let '((res, st'), y') := PlaceOrder E e st bondID signal qty y in
  exists u answer,
    let cid := (ex_Name e +:+ "." +:+ ex_RunID e +:+ "." +:+ u)%string in
    sy_calls y' = sy_calls y ++ [CallCreateMarketOrder
      {| or_OrderBookID := bondID; or_Side := DoraclientSide signal; or_Quantity := qty;
         or_InverseLeverage := done1; or_FromGlobalPosition := false; or_ClientOrderID := cid |} answer] /\
    match res with
    | Err _ => st' = st /\ (answer = Ok ""%string \/ is_ok answer = false)
    | Ok (orderID, cid') =>
        cid' = cid /\ answer = Ok orderID /\ orderID <> ""%string /\
        Orders st' = Orders st ++ [new_order orderID cid qty OrderStatusOpen] /\
        TotalSubmitted st' = d_or_zero (dadd (TotalSubmitted st) qty) /\
        TotalFilled st' = TotalFilled st /\ ChunksProcessed st' = ChunksProcessed st
    end.
Proof.
  unfold PlaceOrder, BuildClientOrderID, quiet, create_market_order, invoke.
  destruct (NewV7 E (sy_world y)) as [u w1]. simpl.
  destruct (CreateMarketOrder E _ w1) as [answer w2]. rewrite app_nil_r.
  destruct answer as [orderID|err]; [case_bool_decide |]; exists u; eexists; split; try reflexivity; simpl.
  - subst. split; [done | by left].
  - done.
  - split; [done | by right].
Qed.
End Properties.

(** ** Witnesses *)

(** A lossless text form of run states over the reference decimals. *)
Definition char_o : Ascii.ascii := Ascii.ascii_of_nat 111.
Definition char_i : Ascii.ascii := Ascii.ascii_of_nat 105.

Fixpoint pos_text (p : positive) : string :=
  match p with
  | xH => "1"
  | xO p' => String char_o (pos_text p')
  | xI p' => String char_i (pos_text p')
  end.

Fixpoint text_pos (s : string) : option positive :=
  match s with
  | EmptyString => None
  | String a rest =>
      if bool_decide (a = char_o) then p ← text_pos rest; Some (xO p)
      else if bool_decide (a = char_i) then p ← text_pos rest; Some (xI p)
      else Some xH
  end.

Lemma text_pos_text p : text_pos (pos_text p) = Some p.
Proof. induction p as [p IH|p IH|]; simpl; rewrite ?IH; done. Qed.

#[local] Instance rdec_eq_dec : EqDecision rdec.
Proof. solve_decision. Defined.
#[local] Instance rdec_countable : Countable rdec :=
  inj_countable' (fun x => (rcoef x, rscale x)) (fun '(c, s) => RD c s) ltac:(by intros []).

(** The fields of an order and of a run state, as tuples. *)
Definition order_tuple (o : OrderEntry (D := RefDec)) : string * string * rdec * rdec * string :=
  (oe_OrderID o, oe_ClientOrderID o, oe_RequestedQuantity o, oe_FilledQuantity o, oe_Status o).
Definition tuple_order (t : string * string * rdec * rdec * string) : OrderEntry (D := RefDec) :=
  let '(i, c, r, f, s) := t in
  {| oe_OrderID := i; oe_ClientOrderID := c; oe_RequestedQuantity := r; oe_FilledQuantity := f; oe_Status := s |}.

Definition state_tuple (r : RunState (D := RefDec)) :=
  (TotalFilled r : rdec, TotalSubmitted r : rdec, ChunksProcessed r, order_tuple <$> Orders r, Buckets r : list rdec).
Definition tuple_state (t : rdec * rdec * Z * list (string * string * rdec * rdec * string) * list rdec)
  : RunState (D := RefDec) :=
  let '(f, s, n, os, bs) := t in MkRunState (D := RefDec) f s n (tuple_order <$> os) bs.

Lemma tuple_state_tuple r : tuple_state (state_tuple r) = r.
Proof.
  destruct r as [f s n os bs]. unfold tuple_state, state_tuple. simpl. f_equal.
  rewrite <- list_fmap_compose. rewrite <- (list_fmap_id os) at 2. apply list_fmap_ext. by intros i [] _.
Qed.

#[export] Instance demo_codec : RunStateCodec (D := RefDec) := {|
  Marshal := fun r => Ok (pos_text (encode (state_tuple r)));
  json_Unmarshal := fun raw =>
    match text_pos raw ≫= decode with
    | Some t => Ok (tuple_state t)
    | None => Err (ErrMsg "invalid run state")
    end |}.

#[export] Instance demo_codec_laws : RunStateCodecLaws (D := RefDec).
Proof.
  split; simpl; [done | |].
  - intros r [= H]. by destruct (encode (state_tuple r)).
  - intros r raw [= <-]. rewrite text_pos_text. simpl. by rewrite decode_encode, tuple_state_tuple.
Qed.

Definition demo_executor : Executor := {| ex_Name := "twap"; ex_RunID := "run"; ex_MarketWired := true |}.

Definition demo_order (status : string) (filled : Z) : OrderEntry (D := RefDec) := {|
  oe_OrderID := "o1"; oe_ClientOrderID := "c1"; oe_RequestedQuantity := RD 10 0;
  oe_FilledQuantity := RD filled 0; oe_Status := status |}.

Definition demo_state (status : string) (filled : Z) : RunState (D := RefDec) :=
  MkRunState (RD (if IsTerminal status then filled else 0) 0) (RD 10 0) 1 [demo_order status filled] [].

Definition fill_event (status : string) (filled : Z) : OrderFillEvent (D := RefDec) := {|
  fe_ClientOrderID := "c1"; fe_Status := status; fe_FilledQuantity := RD filled 0 |}.

Lemma demo_good (n : Z) : 0 <= n <= 10 -> good_qty (D := RefDec) 0 (RD n 0).
Proof.
  intros Hn. assert (rvalid (RD n 0) = true) as Hv.
  { unfold rvalid, max_coef. simpl. apply andb_true_intro. split; [apply Z.leb_le; lia | done]. }
  unfold good_qty, gridq. simpl. unfold rval. rewrite Hv. simpl.
  split; [exists n; reflexivity | unfold Qle; simpl; lia].
Qed.

Lemma demo_accounted : accounted (D := RefDec) 0 (demo_state "OPEN" 0).
Proof.
  split.
  - by vm_compute.
  - by vm_compute.
  - repeat constructor; try apply demo_good; try lia; vm_compute; discriminate.
  - vm_compute. discriminate.
Qed.

Lemma process_order_update_accounted_witness :
  accounted (D := RefDec) 0
    (ProcessOrderUpdate demo_env demo_executor (fill_event "FILLED" 10) (demo_state "OPEN" 0) (MkSys 0%nat [])).1.
Proof.
  apply (process_order_update_accounted (D := RefDec)); [lia | apply demo_accounted |].
  intros o ->%list_elem_of_singleton _. split_and!; [apply demo_good; lia | vm_compute; discriminate | discriminate].
Defined.


(** An update that re-opens a settled order (a late partial fill delivered
    after the final one) makes the next final fill count a second time: the
    order below was filled for ten units and is booked for twenty. *)
Theorem reopened_order_counts_twice :
  (st1 ← apply_update (fill_event "PARTIAL_FILL" 5) (demo_state "FILLED" 10);
   st2 ← apply_update (fill_event "FILLED" 10) st1;
   Some (Qred (dval (TotalFilled st2)), Qred (settled_fills (Orders st2)), Qred (dval (TotalSubmitted st2))))
  = Some (20, 10, 10)%Q.
Proof. vm_compute. reflexivity. Qed.

(** An order DORA already settled, found by the orphan import. *)
Definition orphan : Order := {|
  OrderId := "o9"; ClientOrderId := Some "twap.run.9"%string; OriginalQuantity := "10"; Order_Status := "FILLED" |}.

Definition orphan_env : Env (D := RefDec) nat := {|
  BaseAssetID := BaseAssetID demo_env; QuoteAssetID := QuoteAssetID demo_env;
  AssetPosition := AssetPosition demo_env; GetPortfolioV2 := GetPortfolioV2 demo_env;
  CreateMarketOrder := CreateMarketOrder demo_env;
  AssetCollateralWeight := AssetCollateralWeight demo_env;
  GetOrderFilledStatus := GetOrderFilledStatus demo_env;
  ListOrdersByClientOrderIDPrefix := fun _ w => (Ok [orphan], w);
  Records := Records demo_env; Store_SaveState := Store_SaveState demo_env;
  Store_LoadState := Store_LoadState demo_env; NewV7 := NewV7 demo_env;
  uuid_Parse := uuid_Parse demo_env; Now := Now demo_env |}.

(** An orphaned order that DORA reports as already filled is imported with
    its terminal status and a zero fill, so the reconciliation that follows
    skips it: ten units were bought and [TotalFilled] stays zero. *)
Theorem filled_orphan_never_counted :
  let '(s1, y1) := ImportOrphanedOrders orphan_env demo_executor "twap.run." zero_RunState (MkSys 0%nat []) in
  let '(s2, _) := ReconcilePendingOrders orphan_env demo_executor (GetOrderFilledStatus orphan_env) s1 y1 in
  (oe_Status <$> Orders s2, Qred (requested (Orders s2)), Qred (dval (TotalSubmitted s2)), Qred (dval (TotalFilled s2)))
  = (["FILLED"%string], 10, 10, 0)%Q.
Proof. vm_compute. reflexivity. Qed.
