(* ===== verification/ExecLoop.v ===== *)
(** * The run loop shared by the execution strategies

    [twap.Strategy] and [vwap.Strategy] keep the same mutable fields and run
    the same [select] loop around a timer; the methods that are word for word
    the same in both files ([loadState], [processOrderUpdate], [saveState],
    the placement of one slice, the control messages) are modelled once here.

    The loop is a function from events to states: an event is what one
    iteration of [select] receives.

    Theory: the persisted checkpoint always carries the current run state. *)

From S2P Require Import Prelude GoTime Decimal RefDecimal Types Market Exec.

Section Loop.
Context {D : DecimalOps}.

(** What one iteration of the [select] receives. *)
Inductive LoopEvent :=
  | EvCtxDone
  | EvMessage (m : Message)
  | EvOrderUpdate (evt : OrderFillEvent)
  | EvUpdatesClosed
  | EvTimer.

Context {C : RunStateCodec} {W : Type} (E : Env W).

(** The mutable fields of a strategy, with the system it runs against. *)
Record Strat := MkStrat {
  st_paused : bool;
  st_cancelled : bool;
  st_updates : bool;             (* the order-update channel is non-nil *)
  st_runState : RunState;
  st_decSeq : Z;
  st_sys : Sys W;
}.

Definition set_paused b s := MkStrat b (st_cancelled s) (st_updates s) (st_runState s) (st_decSeq s) (st_sys s).
Definition set_cancelled s := MkStrat (st_paused s) true (st_updates s) (st_runState s) (st_decSeq s) (st_sys s).
Definition close_updates s := MkStrat (st_paused s) (st_cancelled s) false (st_runState s) (st_decSeq s) (st_sys s).
Definition set_runState r s := MkStrat (st_paused s) (st_cancelled s) (st_updates s) r (st_decSeq s) (st_sys s).
Definition set_decSeq n s := MkStrat (st_paused s) (st_cancelled s) (st_updates s) (st_runState s) n (st_sys s).
Definition set_sys y s := MkStrat (st_paused s) (st_cancelled s) (st_updates s) (st_runState s) (st_decSeq s) y.

Definition loadState (e : Executor) (s : Strat) : Strat :=
  let '(r, y) := Executor_LoadState E e (st_sys s) in
  let s1 := set_sys y s in
  match r with
  | Err _ => s1
  | Ok raw =>
      if bool_decide (raw = ""%string) then s1
      else match UnmarshalState raw with
           | Err _ => s1
           | Ok state => set_runState state s1
           end
  end.

Definition saveState (e : Executor) (s : Strat) : Strat :=
  let '(_, y) := Executor_SaveState E e (st_runState s) (st_sys s) in set_sys y s.

Definition processOrderUpdate (e : Executor) (evt : OrderFillEvent) (s : Strat) : Strat :=
  let '(r, y) := ProcessOrderUpdate E e evt (st_runState s) (st_sys s) in
  set_runState r (set_sys y s).

(** [GetOrderFilledStatus] for every pending order; TWAP's restart path. *)
Definition reconcilePendingOrders (e : Executor) (s : Strat) : Strat :=
  let '(r, y) := ReconcilePendingOrders E e (GetOrderFilledStatus E) (st_runState s) (st_sys s) in
  set_runState r (set_sys y s).

(** VWAP imports orphaned orders first. *)
Definition importAndReconcile (e : Executor) (s : Strat) : Strat :=
  let prefix := BuildClientOrderIDPrefix (ex_Name e) (ex_RunID e) in
  let '(r1, y1) := ImportOrphanedOrders E e prefix (st_runState s) (st_sys s) in
  let '(r2, y2) := ReconcilePendingOrders E e (GetOrderFilledStatus E) r1 y1 in
  set_runState r2 (set_sys y2 s).

(** [placeChunk] and [placeBucket]. *)
Definition placeSlice (e : Executor) (assetID : string) (signal : Signal) (size : dec) (s : Strat) : Strat :=
  let '((res, r), y) := PlaceOrder E e (st_runState s) assetID signal size (st_sys s) in
  match res with
  | Err _ => set_sys y s
  | Ok (_, clientOrderID) =>
      let seq := wrap64 (st_decSeq s + 1) in
      let '(now, y1) := time_now E y in
      let '(_, y2) := RecordDecision E e signal assetID size clientOrderID now seq y1 in
      saveState e (set_sys y2 (set_decSeq seq (set_runState r s)))
  end.

Definition handleMessage (m : Message) (s : Strat) : Strat :=
  match m with
  | Pause => set_paused true s
  | Resume => set_paused false s
  | Stop => set_cancelled s
  end.

Definition setChunks (n : Z) (s : Strat) : Strat := set_runState (set_ChunksProcessed n (st_runState s)) s.

(** The loop around the strategy: the next slice and whether it still runs. *)
Record Loop := MkLoop { lp_next : Z; lp_running : bool; lp_strat : Strat }.

(** One iteration, [tick] being the strategy's own timer case. *)
Definition loop_step (e : Executor) (tick : Loop -> Loop) (ev : LoopEvent) (lp : Loop) : Loop :=
  if negb (lp_running lp) then lp
  else match ev with
  | EvCtxDone => MkLoop (lp_next lp) false (lp_strat lp)
  | EvMessage m => MkLoop (lp_next lp) true (handleMessage m (lp_strat lp))
  | EvOrderUpdate evt =>
      if st_updates (lp_strat lp)
      then MkLoop (lp_next lp) true (processOrderUpdate e evt (lp_strat lp))
      else lp                     (* a nil channel never delivers *)
  | EvUpdatesClosed => MkLoop (lp_next lp) true (close_updates (lp_strat lp))
  | EvTimer => tick lp
  end.

Definition run_loop (e : Executor) (tick : Loop -> Loop) (evs : list LoopEvent) (lp : Loop) : Loop :=
  foldl (fun l ev => loop_step e tick ev l) lp evs.

(** The slots whose scheduled time has passed are consumed without an order. *)
Fixpoint skip_missed (e : Executor) (scheduled : Z -> Time) (now : Time) (fuel : nat) (n cp : Z) (s : Strat)
  : Z * Strat :=
  match fuel with
  | O => (cp, s)
  | S fuel' =>
      if (cp <? n) && negb (time_before now (scheduled cp))
      then skip_missed e scheduled now fuel' n (cp + 1) (saveState e (setChunks (cp + 1) s))
      else (cp, s)
  end.
End Loop.

Arguments MkStrat {D W}. Arguments MkLoop {D W}.
Arguments lp_next {D W}. Arguments lp_running {D W}. Arguments lp_strat {D W}.
Arguments st_sys {D W}. Arguments st_runState {D W}. Arguments st_paused {D W}.

(** ** Calls made by the steps *)

Section CallsMade.
Context {D : DecimalOps} {C : RunStateCodec} {W : Type} (E : Env W).
Implicit Types (s : Strat (W := W)) (y : Sys W).

Definition sent s : list OrderRequest := orders_sent (sy_calls (st_sys s)).

Lemma Executor_SaveState_sent e r y : orders_sent (sy_calls (Executor_SaveState E e r y).2) = orders_sent (sy_calls y).
Proof.
  unfold Executor_SaveState, invoke. destruct (Store_SaveState E); [| done].
  destruct (Marshal r); [| done]. destruct (p _ _ _). simpl. by rewrite orders_sent_app, app_nil_r.
Qed.

Lemma saveState_sent e s : sent (saveState E e s) = sent s.
Proof.
  unfold sent, saveState. pose proof (Executor_SaveState_sent e (st_runState s) (st_sys s)) as H.
  by destruct (Executor_SaveState _ _ _ _).
Qed.

Lemma saveState_runState e s : st_runState (saveState E e s) = st_runState s.
Proof. unfold saveState. by destruct (Executor_SaveState _ _ _ _). Qed.

Lemma saveState_paused e s : st_paused (saveState E e s) = st_paused s.
Proof. unfold saveState. by destruct (Executor_SaveState _ _ _ _). Qed.

Lemma handleMessage_sent m s : sent (handleMessage m s) = sent s.
Proof. by destruct m. Qed.

Lemma handleMessage_runState m s : st_runState (handleMessage m s) = st_runState s.
Proof. by destruct m. Qed.

Lemma close_updates_sent s : sent (close_updates s) = sent s.
Proof. done. Qed.

Lemma processOrderUpdate_sent e evt s : sent (processOrderUpdate E e evt s) = sent s.
Proof.
  unfold sent, processOrderUpdate, ProcessOrderUpdate. destruct (apply_update _ _) as [r|]; [| done].
  pose proof (Executor_SaveState_sent e r (st_sys s)) as H. by destruct (Executor_SaveState _ _ _ _).
Qed.

Lemma processOrderUpdate_runState e evt s :
  st_runState (processOrderUpdate E e evt s) = default (st_runState s) (apply_update evt (st_runState s)).
Proof.
  unfold processOrderUpdate, ProcessOrderUpdate. destruct (apply_update _ _) as [r|]; [| done].
  by destruct (Executor_SaveState _ _ _ _).
Qed.

Lemma RecordDecision_sent e sg b q c t n y :
  orders_sent (sy_calls (RecordDecision E e sg b q c t n y).2) = orders_sent (sy_calls y).
Proof.
  unfold RecordDecision, invoke. destruct (Records E); [| done].
  match goal with |- context [p ?a ?b] => destruct (p a b) end. simpl.
  by rewrite orders_sent_app, app_nil_r.
Qed.

(** Placing a slice sends exactly one order of the given size; the run state
    changes only when the order was accepted. *)
Lemma placeSlice_spec e assetID signal size s :
  exists u, let req := {| or_OrderBookID := assetID; or_Side := DoraclientSide signal; or_Quantity := size;
      or_InverseLeverage := done1; or_FromGlobalPosition := false;
      or_ClientOrderID := (ex_Name e +:+ "." +:+ ex_RunID e +:+ "." +:+ u)%string |} in
    sent (placeSlice E e assetID signal size s) = sent s ++ [req] /\
    st_paused (placeSlice E e assetID signal size s) = st_paused s /\
    (st_runState (placeSlice E e assetID signal size s) = st_runState s \/
     exists orderID, orderID <> ""%string /\
      st_runState (placeSlice E e assetID signal size s) =
        AddTotalSubmitted size (AppendOrder (new_order orderID (or_ClientOrderID req) size OrderStatusOpen) (st_runState s))).
Proof.
  unfold placeSlice, PlaceOrder, BuildClientOrderID, create_market_order, quiet, invoke, sent.
  destruct (NewV7 E (sy_world (st_sys s))) as [u w1]. exists u. simpl.
  destruct (CreateMarketOrder E _ w1) as [[orderID|err] w2]; [case_bool_decide |]; simpl;
    rewrite ?app_nil_r, ?orders_sent_app; try (split_and!; [done | done | by left]).
  unfold time_now, quiet, invoke. simpl. destruct (Now E w2) as [t w3]. rewrite !app_nil_r.
  match goal with |- context [RecordDecision E e signal assetID size ?c t ?n ?y] =>
    pose proof (RecordDecision_sent e signal assetID size c t n y) as Hr;
    destruct (RecordDecision E e signal assetID size c t n y) as [[] y2] end.
  simpl in Hr. rewrite orders_sent_app in Hr.
  rewrite saveState_runState, saveState_paused. split_and!; [| done |].
  - etransitivity; [apply saveState_sent |]. exact Hr.
  - right. by exists orderID.
Qed.
End CallsMade.

(** ** Checkpoints *)

(** The last write of the state, with the store's answer; and the state string
    persisted last: a write that the store refuses persists nothing. *)
Definition last_write {D : DecimalOps} (cs : list Call) : option (string * result unit) :=
  foldl (fun acc c => match c with CallSaveState _ raw res => Some (raw, res) | _ => acc end) None cs.
Definition last_saved {D : DecimalOps} (cs : list Call) : option string :=
  foldl (fun acc c => match c with CallSaveState _ raw (Ok _) => Some raw | _ => acc end) None cs.

(** The last write carries [raw], and is what is persisted if the store took it. *)
Definition written {D : DecimalOps} (raw : string) (cs : list Call) : Prop :=
  exists res, last_write cs = Some (raw, res) /\ (is_ok res = true -> last_saved cs = Some raw).

Section Checkpoint.
Context {D : DecimalOps} {C : RunStateCodec} {W : Type} (E : Env W).
Context (Hstore : is_Some (Store_SaveState E)) (Hmarshal : forall r, is_ok (Marshal r) = true).
Implicit Types (s : Strat (W := W)).

(** What was written last is the run state in memory. *)
Definition checkpointed s : Prop := exists raw, Marshal (st_runState s) = Ok raw /\ written raw (sy_calls (st_sys s)).

Lemma written_snoc cs runID raw res : written raw (cs ++ [CallSaveState runID raw res]).
Proof. exists res. unfold last_write, last_saved. rewrite !foldl_app. by destruct res. Qed.

Lemma Executor_SaveState_last e r y : exists raw, Marshal r = Ok raw /\ written raw (sy_calls (Executor_SaveState E e r y).2).
Proof.
  destruct Hstore as [save Hs]. specialize (Hmarshal r).
  destruct (Marshal r) as [raw|err] eqn:Em; [| done]. exists raw. split; [done |].
  unfold Executor_SaveState, invoke. rewrite Hs, Em. destruct (save _ _ _). simpl. apply written_snoc.
Qed.

Lemma saveState_checkpointed e s : checkpointed (saveState E e s).
Proof.
  unfold checkpointed. rewrite saveState_runState. unfold saveState.
  destruct (Executor_SaveState_last e (st_runState s) (st_sys s)) as (raw & H1 & H2).
  destruct (Executor_SaveState _ _ _ _). by exists raw.
Qed.

Lemma processOrderUpdate_checkpointed e evt s : checkpointed s -> checkpointed (processOrderUpdate E e evt s).
Proof.
  intros Hc. unfold processOrderUpdate, ProcessOrderUpdate. destruct (apply_update _ _) as [r|]; [| by destruct s].
  destruct (Executor_SaveState_last e r (st_sys s)) as (raw & H1 & H2).
  destruct (Executor_SaveState _ _ _ _). by exists raw.
Qed.

Lemma handleMessage_checkpointed m s : checkpointed s -> checkpointed (handleMessage m s).
Proof. by destruct m. Qed.

Lemma loop_checkpointed e tick evs lp :
  (forall l, checkpointed (lp_strat l) -> checkpointed (lp_strat (tick l))) ->
  checkpointed (lp_strat lp) -> checkpointed (lp_strat (run_loop E e tick evs lp)).
Proof.
  intros Ht. revert lp. induction evs as [|ev evs IH]; intros lp Hc; [done |].
  unfold run_loop. simpl. apply IH. unfold loop_step. destruct (lp_running lp); simpl; [| done].
  destruct ev; simpl; [done | by apply handleMessage_checkpointed | | done | by apply Ht].
  destruct (st_updates _); [by apply processOrderUpdate_checkpointed | done].
Qed.

Lemma skip_missed_checkpointed e sched now fuel n cp s :
  checkpointed s -> checkpointed (skip_missed E e sched now fuel n cp s).2.
Proof.
  revert cp s. induction fuel as [|fuel IH]; intros cp s Hc; simpl; [done |].
  destruct (_ && _); [| done]. apply IH, saveState_checkpointed.
Qed.
End Checkpoint.

(** ** Skipping missed slots *)

Section Skip.
Context {D : DecimalOps} {C : RunStateCodec} {W : Type} (E : Env W).

(** The first slot left is still ahead, or the window has elapsed; every slot
    skipped was due; no order is sent. *)
Lemma skip_missed_spec e sched now fuel n cp s :
  cp <= n -> (Z.to_nat (n - cp) <= fuel)%nat ->
  let '(cp', s') := skip_missed E e sched now fuel n cp s in
  cp <= cp' <= n /\ (cp' < n -> t_ns now < t_ns (sched cp')) /\
  (forall i, cp <= i < cp' -> t_ns (sched i) <= t_ns now) /\ sent s' = sent s.
Proof.
  revert cp s. induction fuel as [|fuel IH]; intros cp s Hle Hf; simpl.
  - split_and!; [lia | lia | lia | lia | done].
  - destruct ((cp <? n) && negb (time_before now (sched cp))) eqn:Eg.
    + bool_prop. unfold time_before in *. bool_prop.
      specialize (IH (cp + 1) (saveState E e (setChunks (cp + 1) s)) ltac:(lia) ltac:(lia)).
      destruct (skip_missed _ _ _ _ _ _ _ _) as [cp' s']. destruct IH as ([? ?] & H2 & H3 & H4).
      split_and!; [lia | lia | done | |].
      * intros i Hi. destruct (decide (i = cp)) as [->|]; [lia |]. apply H3. lia.
      * rewrite H4, saveState_sent. done.
    + apply andb_false_iff in Eg. split_and!; [lia | lia | | lia | done].
      intros Hlt. destruct Eg as [Eg|Eg]; bool_prop; [lia |]. unfold time_before in Eg. by bool_prop.
Qed.
End Skip.

(** ** One order per slot *)

Section OneOrder.
Context {D : DecimalOps} {C : RunStateCodec} {W : Type} (E : Env W) (e : Executor).
Implicit Types (lp : Loop (W := W)).

(** A timer case that moves to the next slot at most once, sends at most one
    order when it does and none otherwise, and stops after slot [n]. *)
Definition slot_tick (n : Z) (tick : Loop (W := W) -> Loop (W := W)) : Prop := forall lp,
  let lp' := tick lp in
  lp_next lp <= lp_next lp' <= lp_next lp + 1 /\
  Z.of_nat (length (sent (lp_strat lp'))) - Z.of_nat (length (sent (lp_strat lp))) <= lp_next lp' - lp_next lp /\
  (lp_running lp' = true -> lp_next lp' < n) /\
  (lp_next lp < n -> lp_next lp' <= n).

Lemma loop_step_slot n tick ev lp : slot_tick n tick -> let lp' := loop_step E e tick ev lp in
  lp_next lp <= lp_next lp' <= lp_next lp + 1 /\
  Z.of_nat (length (sent (lp_strat lp'))) - Z.of_nat (length (sent (lp_strat lp))) <= lp_next lp' - lp_next lp /\
  ((lp_running lp = true -> lp_next lp < n) -> lp_running lp' = true -> lp_next lp' < n) /\
  ((lp_running lp = true -> lp_next lp < n) -> lp_next lp <= n -> lp_next lp' <= n).
Proof.
  intros Ht. unfold loop_step.
  destruct (lp_running lp) eqn:Er; simpl; [| rewrite ?Er; split_and!; first [lia | by auto | done]].
  destruct ev; simpl; rewrite ?handleMessage_sent, ?close_updates_sent;
    try (split_and!; first [lia | by auto | done]).
  - destruct (st_updates _); simpl; [| rewrite Er; split_and!; first [lia | by auto | done]].
    rewrite processOrderUpdate_sent. split_and!; first [lia | by auto | done].
  - destruct (Ht lp) as (H1 & H2 & H3 & H4). split_and!; first [lia | by auto].
Qed.

Lemma run_loop_slots n tick evs lp : slot_tick n tick -> lp_next lp < n ->
  let lp' := run_loop E e tick evs lp in
  lp_next lp <= lp_next lp' <= n /\
  Z.of_nat (length (sent (lp_strat lp'))) - Z.of_nat (length (sent (lp_strat lp))) <= lp_next lp' - lp_next lp /\
  (lp_running lp' = true -> lp_next lp' < n).
Proof.
  intros Ht Hn. cbv zeta. unfold run_loop.
  assert (forall lp0, (lp_running lp0 = true -> lp_next lp0 < n) -> lp_next lp0 <= n ->
    let lp' := foldl (fun l ev => loop_step E e tick ev l) lp0 evs in
    lp_next lp0 <= lp_next lp' <= n /\
    Z.of_nat (length (sent (lp_strat lp'))) - Z.of_nat (length (sent (lp_strat lp0))) <= lp_next lp' - lp_next lp0 /\
    (lp_running lp' = true -> lp_next lp' < n)) as H; [| apply H; lia].
  clear lp Hn. induction evs as [|ev evs IH]; intros lp0 Hr Hle; simpl; [split_and!; lia || done |].
  destruct (loop_step_slot n tick ev lp0 Ht) as (H1 & H2 & H3 & H4).
  specialize (IH _ (H3 Hr) (H4 Hr Hle)). destruct IH as (I1 & I2 & I3). split_and!; lia || done.
Qed.
End OneOrder.

(** ** Recovery from the last checkpoint *)

Lemma checkpointed_recovers {D : DecimalOps} {C : RunStateCodec} {CL : RunStateCodecLaws} {W : Type}
    (s : Strat (W := W)) :
  checkpointed s ->
  exists raw, written raw (sy_calls (st_sys s)) /\ UnmarshalState raw = Ok (st_runState s).
Proof.
  intros (raw & H1 & H2). exists raw. split; [done |]. unfold UnmarshalState.
  rewrite bool_decide_eq_false_2; [by apply Unmarshal_Marshal |].
  intros ->. by eapply Marshal_nonempty.
Qed.
