(* ===== verification/Twap.v ===== *)
(** * strategy/twap: time-weighted execution

    [Config] ([config.go]) and the run of [strategy.go]: the schedule, the
    rebalanced chunk size, the timer case of the dispatch loop and the start
    of a run (load, reconcile, skip the missed chunks).

    Theory: the scheduled times lie in the window; at most one order per
    chunk, none larger than what is still unfilled; if every order is settled
    before the next chunk the run never buys more than its total; what the
    formula does otherwise. *)

From S2P Require Import Prelude GoTime Decimal RefDecimal Types Market Exec ExecLoop.

Definition StrategyType : string := "twap".

Section Twap.
Context {D : DecimalOps}.

Record Config := {
  OrderBookID : string;
  TotalAmount : dec;
  Side : string;
  StartTime : Time;
  EndTime : Time;
  IntervalSeconds : Z;
}.

Definition DefaultConfig : Config := {|
  OrderBookID := ""; TotalAmount := dzero; Side := ""; StartTime := zero_time; EndTime := zero_time;
  IntervalSeconds := 300 |}.

Definition Validate (c : Config) (now : Time) : result unit :=
  if bool_decide (OrderBookID c = ""%string) then Err (ErrMsg "order_book_id is required")
  else if d_is_zero (TotalAmount c) || d_is_neg (TotalAmount c) then Err (ErrMsg "total_amount must be positive")
  else if negb (bool_decide (Side c = "buy"%string)) && negb (bool_decide (Side c = "sell"%string))
    then Err (ErrMsg "side must be 'buy' or 'sell'")
  else if time_is_zero (StartTime c) || time_is_zero (EndTime c)
    then Err (ErrMsg "start_time and end_time are required")
  else if negb (time_after (EndTime c) (StartTime c)) then Err (ErrMsg "end_time must be strictly after start_time")
  else if negb (time_after (EndTime c) now) then Err (ErrMsg "end_time must be in the future")
  else if IntervalSeconds c <=? 0 then Err (ErrMsg "interval_seconds must be positive")
  else Ok tt.

(** [time.Duration(c.IntervalSeconds) * time.Second] *)
Definition interval (c : Config) : Z := dur_mul (IntervalSeconds c) Second.

(** [None] is Go's panic on an integer division by zero. *)
Definition NumChunks (c : Config) : option Z :=
  let duration := time_sub (EndTime c) (StartTime c) in
  if duration <=? 0 then Some 0
  else if interval c =? 0 then None
  else let n := Z.quot duration (interval c) in
       Some (if n =? 0 then 1 else n).

Definition scheduledTime (c : Config) (i : Z) : Time := time_add (StartTime c) (dur_mul i (interval c)).

Definition computeChunkSize (c : Config) (numChunks : Z) (totalSubmitted totalFilled : dec)
    (chunksProcessed : Z) : result dec :=
  let remaining := numChunks - chunksProcessed in
  if remaining <=? 0 then Ok dzero else
  delta ← dsub (TotalAmount c) totalFilled;
  let delta := if negb (d_is_pos delta) then dzero else delta in
  dquo delta (d_int remaining).

Definition signal_of (c : Config) : Signal :=
  if bool_decide (Side c = "sell"%string) then SignalSell else SignalBuy.

Context {C : RunStateCodec} {W : Type} (E : Env W).

(** The size ordered at a tick: the formula's, or the even share on error. *)
Definition chunk_size (c : Config) (numChunks : Z) (baseChunkSize : dec) (lp : Loop (W := W)) : dec :=
  let r := st_runState (lp_strat lp) in
  or_zero baseChunkSize
    (computeChunkSize c numChunks (TotalSubmitted r) (TotalFilled r) (lp_next lp)).

(** The timer case of [dispatchLoop]. *)
Definition twap_tick (c : Config) (e : Executor) (numChunks : Z) (baseChunkSize : dec)
    (lp : Loop (W := W)) : Loop (W := W) :=
  let s := lp_strat lp in
  let '(now, y) := time_now E (st_sys s) in
  let s0 := set_sys y s in
  if time_after now (EndTime c) then MkLoop (lp_next lp) false s0
  else
    let s1 := if st_paused s0 then s0
              else placeSlice E e (OrderBookID c) (signal_of c)
                     (chunk_size c numChunks baseChunkSize lp) s0 in
    let next := lp_next lp + 1 in
    let s2 := saveState E e (setChunks next s1) in
    MkLoop next (negb (numChunks <=? next)) s2.

(** How a run leaves its set-up phase. *)
Inductive Started :=
  | RunPanics
  | RunFails (err : error) (s : Strat (W := W))
  | RunCompleted (s : Strat (W := W))
  | RunDispatches (numChunks : Z) (baseChunkSize : dec) (lp : Loop (W := W)).

(** [run] up to the dispatch loop. *)
Definition run (c : Config) (e : Executor) (s : Strat (W := W)) : Started :=
  let s1 := reconcilePendingOrders E e (loadState E e s) in
  match NumChunks c with
  | None => RunPanics
  | Some n =>
      if n =? 0 then RunFails (ErrMsg "twap: no chunks in execution window") s1
      else match dquo (TotalAmount c) (d_int n) with
      | Err err => RunFails (ErrWrap "twap: calculate chunk size" err) s1
      | Ok base =>
          let cp := ChunksProcessed (st_runState s1) in
          let '(now, y) := time_now E (st_sys s1) in
          let '(cp', s2) := skip_missed E e (scheduledTime c) now (Z.to_nat (n - cp)) n cp (set_sys y s1) in
          if n <=? cp' then RunCompleted s2
          else RunDispatches n base (MkLoop cp' true s2)
      end
  end.

(** [Run]: without a market client the run is refused. *)
Definition Run (c : Config) (e : Executor) (s : Strat (W := W)) : Started :=
  if negb (ex_MarketWired e) then RunFails (ErrMsg "twap: market API client not configured") s
  else run c e s.

(** [dispatchLoop] over a sequence of events. *)
Definition dispatchLoop (c : Config) (e : Executor) (numChunks : Z) (baseChunkSize : dec)
    (evs : list LoopEvent) (lp : Loop (W := W)) : Loop (W := W) :=
  run_loop E e (twap_tick c e numChunks baseChunkSize) evs lp.
End Twap.

(** ** The schedule *)

Section Schedule.
Context {D : DecimalOps}.
Implicit Types (c : Config).

Lemma Validate_Ok c now : Validate c now = Ok tt ->
  t_ns (StartTime c) < t_ns (EndTime c) /\ t_ns now < t_ns (EndTime c) /\ 0 < IntervalSeconds c /\
  d_is_zero (TotalAmount c) = false /\ d_is_neg (TotalAmount c) = false.
Proof.
  unfold Validate, time_after. intros H. split_match_in H. bool_prop. split_and!; done || lia.
Qed.

Lemma NumChunks_positive c n : 0 < IntervalSeconds c -> in_int64 (IntervalSeconds c * Second) ->
  t_ns (StartTime c) < t_ns (EndTime c) -> NumChunks c = Some n ->
  1 <= n /\ (n = 1 \/ n * interval c <= t_ns (EndTime c) - t_ns (StartTime c)) /\ 0 < interval c.
Proof.
  intros Hi Hr Hse. unfold NumChunks, interval, dur_mul. rewrite (wrap64_small _ Hr).
  assert (0 < time_sub (EndTime c) (StartTime c) <= t_ns (EndTime c) - t_ns (StartTime c)) as Hd.
  { unfold time_sub, sat64, int64_min, int64_max. lia. }
  set (d := time_sub _ _) in *. set (i := IntervalSeconds c * Second).
  assert (0 < i) by (unfold i, Second; lia).
  destruct (d <=? 0) eqn:E; bool_prop; [lia |]. destruct (i =? 0) eqn:Ei; bool_prop; [lia |].
  intros [= <-]. rewrite Z.quot_div_nonneg by lia.
  assert (0 <= d / i) by (apply Z.div_pos; lia). pose proof (Z.mul_div_le d i ltac:(lia)).
  destruct (d / i =? 0) eqn:Eq; bool_prop; split_and!; try lia; nia.
Qed.
End Schedule.

(** ** The size of a chunk *)

Section ChunkSize.
Context {D : DecimalOps} {L : DecimalLaws}.
Implicit Types (c : Config) (F S q : dec).

Lemma d_int_pos n : 0 < n <= max_coef -> (dval (d_int n) == inject_Z n /\ 1 <= dval (d_int n))%Q.
Proof.
  intros H. rewrite d_int_val by lia. split; [reflexivity |]. change 1%Q with (inject_Z 1).
  rewrite <- Zle_Qle. lia.
Qed.

Lemma Qdiv_le_self (x y : Q) : (0 <= x -> 1 <= y -> 0 <= x / y <= x)%Q.
Proof.
  intros Hx Hy. split.
  - apply Qle_shift_div_l; lra.
  - apply Qle_shift_div_r; [lra |]. rewrite (Qmult_comm x y).
    eapply Qle_trans; [| apply Qmult_le_compat_r; [exact Hy | exact Hx]]. lra.
Qed.

Lemma Qabs_bound (x m : Q) : (0 <= x <= m -> Qabs x <= m)%Q.
Proof. intros [? ?]. by rewrite Qabs_pos. Qed.

(** The formula never fails on amounts of ordinary size, and its result is at
    most the remainder it divides. *)
Lemma computeChunkSize_bound c n S F cp : 0 < n - cp <= max_coef ->
  (Qabs (dval (TotalAmount c) - dval F) <= inject_Z max_coef)%Q ->
  representable (dval (TotalAmount c) - dval F) ->
  exists q, computeChunkSize c n S F cp = Ok q /\
    (0 <= dval q <= Qmax 0 (dval (TotalAmount c) - dval F))%Q /\
    (n - cp = 1 -> (dval q == Qmax 0 (dval (TotalAmount c) - dval F))%Q).
Proof.
  intros Hn Habs Hrep. unfold computeChunkSize.
  destruct (n - cp <=? 0) eqn:E; bool_prop; [lia |].
  destruct (dmatch_exact _ _ (dsub_spec (TotalAmount c) F) Hrep) as (delta & -> & Ed). simpl.
  set (dl := if negb (d_is_pos delta) then dzero else delta).
  assert (dval dl == Qmax 0 (dval (TotalAmount c) - dval F))%Q as Edl.
  { unfold dl. destruct (d_is_pos delta) eqn:Ep; simpl;
      [apply d_is_pos_spec in Ep; rewrite Q.max_r by lra | apply d_is_pos_false in Ep; rewrite Q.max_l by lra];
      [done | apply dval_zero]. }
  setoid_rewrite <- Edl.
  assert (0 <= dval dl)%Q as Hpos by (rewrite Edl; apply Q.le_max_l).
  destruct (d_int_pos (n - cp) Hn) as [Hi Hi1].
  destruct (Qdiv_le_self (dval dl) (dval (d_int (n - cp))) Hpos Hi1) as [Q1 Q2].
  assert (dval dl <= inject_Z max_coef)%Q as Hmax.
  { eapply Qle_trans; [apply Qle_Qabs |]. apply dec_repr_abs. }
  pose proof (dquo_spec dl (d_int (n - cp)) ltac:(lra)) as Hq.
  destruct (dmatch_small _ _ Hq) as [q Eq]; [apply Qabs_bound; lra |]. exists q. split; [done |].
  split; [split |].
  - eapply dmatch_ge; [exact Hq | done | apply representable_zero | done].
  - eapply dmatch_le; [exact Hq | done | apply dval_repr | done].
  - intros H1. eapply Qeq_trans; [eapply dmatch_exact_val; [exact Hq | | done] |].
    + eapply representable_proper; [| apply (dval_repr dl)]. rewrite Hi, H1. field.
    + rewrite Hi, H1. field.
Qed.
End ChunkSize.

(** ** The dispatch loop *)

Section Dispatch.
Context {D : DecimalOps} {C : RunStateCodec} {W : Type} (E : Env W).
Context (c : Config) (e : Executor) (n : Z) (base : dec).
Implicit Types (lp : Loop (W := W)).

Lemma tick_spec lp : let lp' := twap_tick E c e n base lp in
  (lp_next lp' = lp_next lp /\ lp_running lp' = false /\ sent (lp_strat lp') = sent (lp_strat lp) /\
   st_runState (lp_strat lp') = st_runState (lp_strat lp)) \/
  (lp_next lp' = lp_next lp + 1 /\ lp_running lp' = negb (n <=? lp_next lp + 1) /\
   if st_paused (lp_strat lp)
   then sent (lp_strat lp') = sent (lp_strat lp) /\
     st_runState (lp_strat lp') = set_ChunksProcessed (lp_next lp + 1) (st_runState (lp_strat lp))
   else exists r, or_Quantity r = chunk_size c n base lp /\ sent (lp_strat lp') = sent (lp_strat lp) ++ [r] /\
     (st_runState (lp_strat lp') = set_ChunksProcessed (lp_next lp + 1) (st_runState (lp_strat lp)) \/
      exists orderID, st_runState (lp_strat lp') = set_ChunksProcessed (lp_next lp + 1)
        (AddTotalSubmitted (or_Quantity r)
          (AppendOrder (new_order orderID (or_ClientOrderID r) (or_Quantity r) OrderStatusOpen)
            (st_runState (lp_strat lp)))))).
Proof.
  unfold twap_tick. pose proof (quiet_calls (Now E) (st_sys (lp_strat lp))) as Hq. unfold time_now.
  destruct (quiet (Now E) (st_sys (lp_strat lp))) as [now y]. simpl in Hq.
  assert (sent (set_sys y (lp_strat lp)) = sent (lp_strat lp)) as Hs by (unfold sent; simpl; by rewrite Hq).
  destruct (time_after now (EndTime c)); [by left |]. right. simpl.
  split; [done | split; [done |]]. rewrite saveState_runState, saveState_sent. unfold setChunks.
  destruct (st_paused (lp_strat lp)); simpl; [done |].
  destruct (placeSlice_spec E e (OrderBookID c) (signal_of c) (chunk_size c n base lp) (set_sys y (lp_strat lp)))
    as (u & H1 & _ & H3).
  eexists. split; [| split]; [| etransitivity; [exact H1 | by rewrite Hs] |]; [done |].
  destruct H3 as [-> | (orderID & _ & ->)]; [by left | right]. by exists orderID.
Qed.

Lemma twap_slot_tick : slot_tick n (twap_tick E c e n base).
Proof.
  intros lp. destruct (tick_spec lp) as [(H1 & H2 & H3 & _) | (H1 & H2 & H3)]; cbv zeta; rewrite H1, H2.
  - rewrite H3. split_and!; lia || done.
  - assert (Z.of_nat (length (sent (lp_strat (twap_tick E c e n base lp))))
      - Z.of_nat (length (sent (lp_strat lp))) <= 1).
    { destruct (st_paused _); [destruct H3 as [-> _]; lia |].
      destruct H3 as (r & _ & -> & _). rewrite length_app. simpl. lia. }
    split_and!; [lia | lia | lia | | lia]. intros Hb. bool_prop. lia.
Qed.
End Dispatch.

(** ** Exposure along a run *)

Section Exposure.
Context {D : DecimalOps} {L : DecimalLaws} {C : RunStateCodec} {W : Type} (E : Env W).
Context (c : Config) (e : Executor) (n : Z) (base : dec) (sc : nat) (Hsc : (sc <= 19)%nat).
Implicit Types (lp : Loop (W := W)).

(** The books balance and settled fills plus orders in flight stay within the
    amount to trade. *)
Definition within_total lp : Prop :=
  let r := st_runState (lp_strat lp) in
  accounted sc r /\ (exposure (Orders r) <= dval (TotalAmount c))%Q.

(** The conditions under which one event is harmless: the timer fires with
    every earlier order settled, and updates are final. *)
Definition paced (ev : LoopEvent) lp : Prop :=
  let r := st_runState (lp_strat lp) in
  match ev with
  | EvTimer =>
      all_settled (Orders r) /\ lp_next lp < n /\
      good_qty sc (chunk_size c n base lp) /\
      (requested (Orders r) + dval (chunk_size c n base lp) <= capacity sc)%Q
  | EvOrderUpdate evt =>
      forall o, o ∈ Orders r -> oe_ClientOrderID o = fe_ClientOrderID evt ->
        final_for sc o (fe_FilledQuantity evt) (fe_Status evt)
  | _ => True
  end.

Fixpoint paced_run (evs : list LoopEvent) lp : Prop :=
  match evs with
  | [] => True
  | ev :: rest => paced ev lp /\ paced_run rest (loop_step E e (twap_tick E c e n base) ev lp)
  end.

Lemma within_set_chunks k r : accounted sc r -> accounted sc (set_ChunksProcessed k r).
Proof. intros []. by split. Qed.

Lemma chunk_size_le lp : good_qty sc (TotalAmount c) -> (dval (TotalAmount c) <= capacity sc)%Q ->
  (capacity sc <= inject_Z max_coef)%Q ->
  0 < n - lp_next lp <= max_coef -> within_total lp -> all_settled (Orders (st_runState (lp_strat lp))) ->
  (dval (chunk_size c n base lp) <= dval (TotalAmount c) - exposure (Orders (st_runState (lp_strat lp))))%Q.
Proof.
  intros [GT NT] HT Hcap Hn [Hacc Hexp] Hset. unfold chunk_size.
  set (r := st_runState (lp_strat lp)) in *.
  rewrite (exposure_all_settled _ Hset) in *.
  pose proof Hacc as [Hf _ Hg _]. destruct (settled_good sc _ Hg) as [GS NS].
  assert (gridq sc (dval (TotalAmount c) - dval (TotalFilled r))) as HG.
  { apply gridq_sub; [done |]. eapply gridq_proper; [symmetry; exact Hf | done]. }
  destruct (computeChunkSize_bound c n (TotalSubmitted r) (TotalFilled r) (lp_next lp)) as (q & -> & [_ Hq] & _).
  - done.
  - rewrite Hf. apply Qabs_bound. lra.
  - apply (gridq_repr sc Hsc); [done |]. rewrite Hf. lra.
  - simpl. rewrite Hf, Q.max_r in Hq by lra. done.
Qed.

Lemma exposure_snoc os orderID cid q :
  (exposure (os ++ [new_order orderID cid q OrderStatusOpen]) == exposure os + dval q)%Q.
Proof. unfold exposure. rewrite fmap_app, qsum_app. unfold order_exposure at 2. simpl. lra. Qed.

Lemma step_within ev lp : good_qty sc (TotalAmount c) -> (dval (TotalAmount c) <= capacity sc)%Q ->
  n - lp_next lp <= max_coef -> paced ev lp -> within_total lp ->
  within_total (loop_step E e (twap_tick E c e n base) ev lp).
Proof.
  intros GT HT Hn Hp Hw. unfold loop_step. destruct (lp_running lp); simpl; [| done].
  destruct ev as [|m|evt| |]; simpl; try done.
  - unfold within_total in *. simpl. by rewrite handleMessage_runState.
  - destruct (st_updates _); [| done]. unfold within_total in *. simpl.
    rewrite processOrderUpdate_runState. simpl in Hp.
    destruct (apply_update _ _) as [r|] eqn:Eu; simpl; [| done].
    apply apply_update_Some in Eu as (idx & o & Ho & Hid & ->).
    specialize (Hp o (list_elem_of_lookup_2 _ _ _ Ho) Hid). destruct Hw as [Ha Hx]. split.
    + by apply (settle_at_accounted sc Hsc), final_admissible.
    + eapply Qle_trans; [by eapply settle_at_exposure | done].
  - destruct Hp as (Hset & Hlt & Hgq & Hcap).
    assert (capacity sc <= inject_Z max_coef)%Q as Hcm.
    { unfold capacity, scaled, inject_Z, Qle. simpl. unfold max_coef. nia. }
    pose proof (chunk_size_le lp GT HT Hcm ltac:(lia) Hw Hset) as Hle. destruct Hw as [Ha Hx].
    unfold within_total.
    destruct (tick_spec E c e n base lp) as [(_ & _ & _ & ->) | (_ & _ & Hts)]; [by split |].
    destruct (st_paused _).
    + destruct Hts as [_ ->]. split; [by apply within_set_chunks | done].
    + destruct Hts as (r & Hr & _ & [-> | [orderID ->]]); [split; [by apply within_set_chunks | done] |].
      rewrite Hr. split; [apply within_set_chunks, (place_accounted sc Hsc); done |].
      simpl. rewrite exposure_snoc. lra.
Qed.
End Exposure.

(** ** Properties *)

Section Properties.
Context {D : DecimalOps} {L : DecimalLaws} {C : RunStateCodec} {W : Type} (E : Env W).

(** For a valid configuration whose durations fit 64 bits, the run has at
    least one chunk and every chunk is scheduled inside the execution window
    [StartTime, EndTime). *)
Theorem twap_schedule_in_window (c : Config) (now : Time) (n : Z) :
  Validate c now = Ok tt -> in_int64 (IntervalSeconds c * Second) ->
  t_ns (EndTime c) - t_ns (StartTime c) <= int64_max ->
  NumChunks c = Some n ->
  1 <= n /\ forall i, 0 <= i < n ->
    t_ns (StartTime c) <= t_ns (scheduledTime c i) < t_ns (EndTime c).
Proof.
  intros HV Hi Hd Hn. destruct (Validate_Ok c now HV) as (Hse & _ & Hpos & _ & _).
  destruct (NumChunks_positive c n Hpos Hi Hse Hn) as (H1 & H2 & H3).
  split; [done |]. intros i Hin. unfold scheduledTime. simpl.
  assert (0 <= i * interval c < t_ns (EndTime c) - t_ns (StartTime c)) as Hr by nia.
  unfold dur_mul. rewrite wrap64_small; [lia |]. unfold in_int64, int64_min, int64_max in *. lia.
Qed.

(** A chunk never exceeds what is still unfilled, a fully filled run orders
    nothing more, and the last chunk is exactly the unfilled remainder: when
    the earlier orders are settled the final order completes the total. *)
Theorem twap_chunk_within_remainder (c : Config) (n cp : Z) (totalSubmitted totalFilled : dec) :
  0 <= cp < n -> n <= max_coef -> representable (dval (TotalAmount c) - dval totalFilled) ->
  exists q, computeChunkSize c n totalSubmitted totalFilled cp = Ok q /\
    (0 <= dval q <= Qmax 0 (dval (TotalAmount c) - dval totalFilled))%Q /\
    (cp = n - 1 -> (dval q == Qmax 0 (dval (TotalAmount c) - dval totalFilled))%Q).
Proof.
  intros Hcp Hn Hrep.
  destruct (computeChunkSize_bound c n totalSubmitted totalFilled cp ltac:(lia)) as (q & Hq & Hb & H1).
  - destruct Hrep as (k & s & Hk & Hs & ->). unfold scaled, Qabs, inject_Z, Qle. simpl. nia.
  - done.
  - exists q. split_and!; [done | apply Hb | apply Hb | intros ->; apply H1; lia].
Qed.

(** Whatever arrives on the channels and whenever the timer fires, the
    dispatch loop sends at most one order per chunk and never runs past the
    last chunk. *)
Theorem twap_one_order_per_chunk (c : Config) (e : Executor) (n : Z) (base : dec)
    (evs : list LoopEvent) (lp : Loop (W := W)) :
  lp_next lp < n ->
  let lp' := dispatchLoop E c e n base evs lp in
  lp_next lp <= lp_next lp' <= n /\
  Z.of_nat (length (sent (lp_strat lp'))) - Z.of_nat (length (sent (lp_strat lp))) <= lp_next lp' - lp_next lp /\
  (lp_running lp' = true -> lp_next lp' < n).
Proof.
  intros Hn. apply run_loop_slots; [apply twap_slot_tick | done].
Qed.

(** C2: along any run in which the timer only fires once every earlier order
    has settled, TWAP does not over-execute: settled fills plus orders in
    flight never exceed [TotalAmount], and the tallies stay exact.  Conditions
    on the run: a fill is reported between zero and what was requested, and
    for a settled order the final fill is repeated; no quantity is rounded,
    that is, the total, the fills and every chunk computed lie on one decimal
    grid (of at most 19 places), on which the total and the sum of what was
    requested fit 19 digits.  So it says nothing of a total that its chunks
    divide without end, like 100 in 3, where sums may be rounded. *)
Theorem twap_never_overfills (c : Config) (e : Executor) (n : Z) (base : dec) (sc : nat)
    (evs : list LoopEvent) (lp : Loop (W := W)) :
  (sc <= 19)%nat -> good_qty sc (TotalAmount c) -> (dval (TotalAmount c) <= capacity sc)%Q ->
  n - lp_next lp <= max_coef -> within_total c sc lp -> paced_run E c e n base sc evs lp ->
  let r := st_runState (lp_strat (dispatchLoop E c e n base evs lp)) in
  accounted sc r /\ (exposure (Orders r) <= dval (TotalAmount c))%Q /\
  (dval (TotalFilled r) <= dval (TotalAmount c))%Q.
Proof.
  intros Hsc GT HT Hn Hw Hp. cbv zeta.
  assert (within_total c sc (dispatchLoop E c e n base evs lp)) as [Ha Hx].
  { unfold dispatchLoop, run_loop. revert lp Hn Hw Hp.
    induction evs as [|ev evs IH]; intros lp Hn Hw Hp; [done |]. destruct Hp as [Hp1 Hp2].
    apply IH; [| by apply step_within | done].
    destruct (loop_step_slot E e n _ ev lp (twap_slot_tick E c e n base)) as (? & _). lia. }
  split_and!; [done | done |]. destruct Ha as [-> _ Hg _].
  eapply Qle_trans; [by eapply settled_le_exposure | done].
Qed.

(** When a run starts, the chunks whose time has passed are consumed
    without sending any order, every one of them was due, and the chunk the
    loop waits for lies in the future. *)
Theorem twap_start_skips_missed (c : Config) (e : Executor) (s : Strat (W := W)) (n : Z) (base : dec)
    (lp : Loop (W := W)) :
  run E c e s = RunDispatches n base lp ->
  ChunksProcessed (st_runState (reconcilePendingOrders E e (loadState E e s))) <= n ->
  sent (lp_strat lp) = sent (reconcilePendingOrders E e (loadState E e s)) /\
  lp_running lp = true /\ lp_next lp < n /\
  exists now, t_ns now < t_ns (scheduledTime c (lp_next lp)) /\
    forall i, ChunksProcessed (st_runState (reconcilePendingOrders E e (loadState E e s))) <= i < lp_next lp ->
      t_ns (scheduledTime c i) <= t_ns now.
Proof.
  unfold run. intros H Hcp. destruct (NumChunks c) as [m|]; [| done].
  destruct (m =? 0); [done |]. destruct (dquo _ _) as [b|]; [| done].
  set (s1 := reconcilePendingOrders E e (loadState E e s)) in *. unfold time_now in H.
  pose proof (quiet_calls (Now E) (st_sys s1)) as Hq.
  destruct (quiet (Now E) (st_sys s1)) as [now y]. simpl in Hq.
  pose proof (skip_missed_spec E e (scheduledTime c) now (Z.to_nat (m - ChunksProcessed (st_runState s1))) m
    (ChunksProcessed (st_runState s1)) (set_sys y s1)) as Hs.
  destruct (skip_missed _ _ _ _ _ _ _ _) as [cp' s2]. destruct (m <=? cp') eqn:Em; [done |]. bool_prop.
  injection H as -> -> <-. simpl in *. destruct (Hs Hcp ltac:(lia)) as (_ & H2 & H3 & H4).
  split_and!; [| done | done | exists now; split; [by apply H2 | done]].
  rewrite H4. unfold sent. simpl. by rewrite Hq.
Qed.

(** C8: from the start of the dispatch loop on, whatever happens, the last
    write of the state carries exactly the run state in memory: it decodes to
    it, and it is what is persisted unless the store refused that very write.
    So a restart resumes from the true position, or, when the last write
    failed, from the last one that did not.  (A market client and a store are
    configured; encoding a state is assumed to succeed and to be undone by
    decoding.) *)
Theorem twap_checkpoint_recovers {CL : RunStateCodecLaws} (c : Config) (e : Executor) (s : Strat (W := W)) (n : Z)
    (base : dec) (lp : Loop (W := W)) (evs : list LoopEvent) :
  ex_MarketWired e = true -> is_Some (Store_SaveState E) -> run E c e s = RunDispatches n base lp ->
  let s' := lp_strat (dispatchLoop E c e n base evs lp) in
  exists raw, written raw (sy_calls (st_sys s')) /\ UnmarshalState raw = Ok (st_runState s').
Proof.
  intros Hm Hst H. cbv zeta.
  apply checkpointed_recovers. apply (loop_checkpointed E Hst Marshal_total).
  - intros l Hl. unfold twap_tick, time_now. pose proof (quiet_calls (Now E) (st_sys (lp_strat l))) as Hq.
    destruct (quiet (Now E) (st_sys (lp_strat l))) as [now y]. simpl in Hq.
    destruct (time_after _ _); simpl; [| by apply (saveState_checkpointed E Hst Marshal_total)].
    destruct Hl as (raw & ? & ?). exists raw. simpl. by rewrite Hq.
  - unfold run in H. destruct (NumChunks c) as [m|]; [| done]. destruct (m =? 0); [done |].
    destruct (dquo _ _) as [b|]; [| done].
    unfold reconcilePendingOrders, ReconcilePendingOrders in H. rewrite Hm in H. simpl in H.
    destruct (reconcile_from _ _ _ _ _) as [r1 y1].
    pose proof (Executor_SaveState_last E Hst Marshal_total e r1 y1) as (raw & R1 & R2).
    destruct (Executor_SaveState E e r1 y1) as [[] y2]. simpl in *.
    unfold time_now in H. pose proof (quiet_calls (Now E) y2) as Hq.
    destruct (quiet (Now E) y2) as [now y3]. simpl in Hq.
    match type of H with context [skip_missed E e ?sch ?t ?f ?m ?k ?st] =>
      pose proof (skip_missed_checkpointed E Hst Marshal_total e sch t f m k st) as Hk;
      destruct (skip_missed E e sch t f m k st) as [cp' s2] end.
    destruct (m <=? cp'); [done |]. injection H as _ _ <-. simpl in *. apply Hk.
    exists raw. simpl. by rewrite Hq.
Qed.
End Properties.

(** ** Witnesses *)

Definition demo_config : Config (D := RefDec) := {|
  OrderBookID := "book"; TotalAmount := RD 100 0; Side := "buy";
  StartTime := MkTime (1000 * Day + Minute) 0; EndTime := MkTime (1000 * Day + 11 * Minute) 0;
  IntervalSeconds := 300 |}.

Definition demo_strat : Strat (D := RefDec) (W := nat) :=
  MkStrat false false true zero_RunState 0 (MkSys 0%nat []).

Definition demo_loop : Loop (D := RefDec) (W := nat) := MkLoop 0 true demo_strat.

Lemma twap_schedule_in_window_witness :
  1 <= 2 /\ forall i, 0 <= i < 2 ->
    t_ns (StartTime demo_config) <= t_ns (scheduledTime demo_config i) < t_ns (EndTime demo_config).
Proof.
  apply (twap_schedule_in_window demo_config (MkTime (1000 * Day) 0) 2).
  - reflexivity.
  - split; vm_compute; discriminate.
  - vm_compute. discriminate.
  - reflexivity.
Defined.

Lemma twap_chunk_within_remainder_witness :
  exists q, computeChunkSize demo_config 2 (RD 50 0) (RD 50 0) 1 = Ok q /\
    (0 <= dval q <= Qmax 0 (dval (TotalAmount demo_config) - dval (RD 50 0 : @dec RefDec)))%Q /\
    (1 = 2 - 1 -> (dval q == Qmax 0 (dval (TotalAmount demo_config) - dval (RD 50 0 : @dec RefDec)))%Q).
Proof.
  apply (twap_chunk_within_remainder (D := RefDec)); [lia | unfold max_coef; lia |].
  exists 50, 0%nat. split_and!; [vm_compute; discriminate | lia | reflexivity].
Defined.

Lemma twap_one_order_per_chunk_witness :
  let lp' := dispatchLoop demo_env demo_config demo_executor 2 (RD 50 0) [EvTimer; EvTimer; EvTimer] demo_loop in
  0 <= lp_next lp' <= 2 /\
  Z.of_nat (length (sent (lp_strat lp'))) - 0 <= lp_next lp' - 0 /\
  (lp_running lp' = true -> lp_next lp' < 2).
Proof.
  exact (twap_one_order_per_chunk (D := RefDec) demo_env demo_config demo_executor 2 (RD 50 0)
    [EvTimer; EvTimer; EvTimer] demo_loop eq_refl).
Defined.

Lemma whole_good (q : @dec RefDec) (k : Z) : 0 <= k -> (dval q == inject_Z k)%Q -> good_qty (D := RefDec) 0 q.
Proof.
  intros Hk E. split; [exists k; by rewrite E, scaled_int |]. rewrite E.
  change 0%Q with (inject_Z 0). by rewrite <- Zle_Qle.
Qed.

(** Fifty, as the quotient comes out of the library. *)
Definition fifty : @dec RefDec := RD 5000000000000000000 17.

Lemma fifty_good : good_qty (D := RefDec) 0 fifty.
Proof. by apply (whole_good _ 50). Qed.

Definition demo_fill : OrderFillEvent (D := RefDec) := {|
  fe_ClientOrderID := "twap.run.0"; fe_Status := "FILLED"; fe_FilledQuantity := fifty |}.

Lemma demo_chunk : chunk_size demo_config 2 (RD 50 0) demo_loop = fifty.
Proof. vm_compute. reflexivity. Qed.

Lemma demo_after_tick :
  Orders (st_runState (lp_strat (loop_step demo_env demo_executor
    (twap_tick demo_env demo_config demo_executor 2 (RD 50 0)) EvTimer demo_loop)))
  = [new_order "order" "twap.run.0" fifty "OPEN"].
Proof. reflexivity. Qed.

Lemma twap_never_overfills_witness :
  let r := st_runState (lp_strat (dispatchLoop demo_env demo_config demo_executor 2 (RD 50 0)
    [EvTimer; EvOrderUpdate demo_fill] demo_loop)) in
  accounted (D := RefDec) 0 r /\ (exposure (Orders r) <= dval (TotalAmount demo_config))%Q /\
  (dval (TotalFilled r) <= dval (TotalAmount demo_config))%Q.
Proof.
  apply (twap_never_overfills (D := RefDec) demo_env demo_config demo_executor 2 (RD 50 0) 0).
  - lia.
  - by apply (whole_good _ 100).
  - vm_compute. discriminate.
  - vm_compute. discriminate.
  - repeat split; try apply Forall_nil_2; vm_compute; try discriminate; reflexivity.
  - split; [| split; [| exact I]].
    + simpl. rewrite demo_chunk. split_and!; [apply Forall_nil_2 | lia | apply fifty_good | vm_compute; discriminate].
    + unfold paced. rewrite demo_after_tick. intros o ->%list_elem_of_singleton _.
      split_and!; [apply fifty_good | vm_compute; discriminate | discriminate].
Defined.

Definition demo_started : Loop (D := RefDec) (W := nat) :=
  match run demo_env demo_config demo_executor demo_strat with
  | RunDispatches _ _ lp => lp
  | _ => demo_loop
  end.

Lemma twap_demo_run : run demo_env demo_config demo_executor demo_strat = RunDispatches 2 fifty demo_started.
Proof. reflexivity. Qed.

Lemma twap_start_skips_missed_witness :
  sent (lp_strat demo_started) = sent (reconcilePendingOrders demo_env demo_executor (loadState demo_env demo_executor demo_strat)) /\
  lp_running demo_started = true /\ lp_next demo_started < 2 /\
  exists now, t_ns now < t_ns (scheduledTime demo_config (lp_next demo_started)) /\
    forall i, ChunksProcessed (st_runState (reconcilePendingOrders demo_env demo_executor
        (loadState demo_env demo_executor demo_strat))) <= i < lp_next demo_started ->
      t_ns (scheduledTime demo_config i) <= t_ns now.
Proof.
  refine (twap_start_skips_missed (D := RefDec) demo_env _ _ _ _ _ _ twap_demo_run _).
  vm_compute. discriminate.
Defined.

Lemma twap_checkpoint_recovers_witness :
  let s' := lp_strat (dispatchLoop demo_env demo_config demo_executor 2 fifty
    [EvTimer; EvOrderUpdate demo_fill; EvMessage Pause; EvTimer] demo_started) in
  exists raw, written raw (sy_calls (st_sys s')) /\ UnmarshalState raw = Ok (st_runState s').
Proof.
  exact (twap_checkpoint_recovers (D := RefDec) demo_env demo_config demo_executor demo_strat 2 fifty
    demo_started _ eq_refl (mk_is_Some _ _ eq_refl) twap_demo_run).
Defined.

(** ** What the size formula does when fills lag behind *)

(** With two chunks and fills that arrive late, the second chunk is sized
    from the settled fills only: 50 and then 100 units are submitted for a
    total of 100, so the unsettled first order is bought twice. *)
Theorem twap_resubmits_unsettled :
  TotalAmount demo_config = RD 100 0 /\
  (fun r => Qred (dval (or_Quantity r))) <$>
    sent (lp_strat (dispatchLoop demo_env demo_config demo_executor 2 (RD 50 0) [EvTimer; EvTimer] demo_loop))
  = [50; 100]%Q.
Proof. split; [reflexivity | vm_compute; reflexivity]. Qed.

Definition wrapping_config : Config (D := RefDec) := {|
  OrderBookID := "book"; TotalAmount := RD 100 0; Side := "buy";
  StartTime := MkTime (1000 * Day + Minute) 0; EndTime := MkTime (1000 * Day + 11 * Minute) 0;
  IntervalSeconds := 2 ^ 55 |}.

(** [Validate] accepts an interval whose nanosecond count wraps around to
    zero, and [NumChunks] then divides by zero: the run panics. *)
Theorem twap_interval_wraps_to_zero :
  Validate wrapping_config (MkTime (1000 * Day) 0) = Ok tt /\
  interval wrapping_config = 0 /\ NumChunks wrapping_config = None /\
  run demo_env wrapping_config demo_executor demo_strat = RunPanics.
Proof. split_and!; reflexivity. Qed.
