(* ===== verification/Vwap.v ===== *)
(** * strategy/vwap: volume-weighted execution

    [Config] ([config.go]), the schedule built from historical volume
    ([schedule.go]) and the run of [strategy.go].

    Theory: the schedule has one bucket per slot, whole quantities except the
    last, and adds up to the total exactly; in exact arithmetic a bucket gets
    its scheduled share of what is unfilled; at most one order per bucket;
    the checkpoint recovers the run. *)

From S2P Require Import Prelude GoTime Decimal RefDecimal Types Market Exec ExecLoop.

Definition StrategyType : string := "vwap".

Section Vwap.
Context {D : DecimalOps}.

Record Config := {
  OrderBookID : string;
  TotalAmount : dec;
  Side : string;
  StartTime : Time;
  EndTime : Time;
  WindowDays : Z;
  BucketMinutes : Z;
}.

Definition DefaultConfig : Config := {|
  OrderBookID := ""; TotalAmount := dzero; Side := ""; StartTime := zero_time; EndTime := zero_time;
  WindowDays := 30; BucketMinutes := 5 |}.

Definition Validate (c : Config) (now : Time) : result unit :=
  if bool_decide (OrderBookID c = ""%string) then Err (ErrMsg "order_book_id is required")
  else if d_is_zero (TotalAmount c) || d_is_neg (TotalAmount c) then Err (ErrMsg "total_amount must be positive")
  else if negb (bool_decide (Side c = "buy"%string)) && negb (bool_decide (Side c = "sell"%string))
    then Err (ErrMsg "side must be 'buy' or 'sell'")
  else if time_is_zero (StartTime c) || time_is_zero (EndTime c)
    then Err (ErrMsg "start_time and end_time are required")
  else if negb (time_after (EndTime c) (StartTime c)) then Err (ErrMsg "end_time must be strictly after start_time")
  else if negb (time_after (EndTime c) now) then Err (ErrMsg "end_time must be in the future")
  else if WindowDays c <=? 0 then Err (ErrMsg "window_days must be positive")
  else if BucketMinutes c <=? 0 then Err (ErrMsg "bucket_minutes must be positive")
  else Ok tt.

(** [time.Duration(c.BucketMinutes) * time.Minute] *)
Definition bucket_size (c : Config) : Z := dur_mul (BucketMinutes c) Minute.

Definition NumBuckets (c : Config) : Z :=
  let duration := time_sub (EndTime c) (StartTime c) in
  if (duration <=? 0) || (bucket_size c <=? 0) then 0
  else let n := Z.quot duration (bucket_size c) in if n =? 0 then 1 else n.

(** ** The schedule *)

(** [trades.Trade], the fields read here *)
Record Trade := { tr_Time : Time; tr_Quantity : dec }.

Definition minutesSinceMidnight (t : Time) : Z := time_hour t * 60 + time_minute t.

Definition add_trade (bucketMinutes : Z) (volumes : gmap Z dec) (t : Trade) : gmap Z dec :=
  let idx := Z.quot (minutesSinceMidnight (time_utc (tr_Time t))) bucketMinutes in
  <[idx := d_or_zero (dadd (default dzero (volumes !! idx)) (tr_Quantity t))]> volumes.

(** The trades delivered by the stream; [cancelled] when the context ended
    before it was drained, which returns the raw sums.  The float expression
    [end.Sub(start).Hours() / 24] is exact: the two are whole days apart. *)
Definition aggregateADVByBucket (trades : list Trade) (cancelled : bool) (start end_ : Time)
    (bucketMinutes : Z) : gmap Z dec :=
  let volumes := foldl (add_trade bucketMinutes) ∅ trades in
  if cancelled then volumes
  else
    let d := Z.quot (time_sub end_ start) Day in
    let windowDays := if d <=? 0 then 1 else d in
    (fun v => d_or_zero (dquo v (d_int windowDays))) <$> volumes.

Definition bucketStart (c : Config) (i : Z) : Time := time_add (StartTime c) (dur_mul i (bucket_size c)).

Definition bucket_volume (c : Config) (adv : gmap Z dec) (i : nat) : dec :=
  default dzero (adv !! Z.quot (minutesSinceMidnight (bucketStart c (Z.of_nat i))) (BucketMinutes c)).

Definition sum_dropping_errors (l : list dec) : dec := foldl (fun acc x => d_or_zero (dadd acc x)) dzero l.

(** The last bucket absorbs what the floored ones leave. *)
Definition with_remainder (total : dec) (firsts : list dec) : list dec :=
  firsts ++ [d_or_zero (dsub total (sum_dropping_errors firsts))].

Fixpoint scaled_buckets (scale : dec) (vols : list dec) : result (list dec) :=
  match vols with
  | [] => Ok []
  | v :: rest =>
      amt ← wrap_err "vwap: bucket" (dmul v scale);
      out ← scaled_buckets scale rest;
      Ok (dfloor amt :: out)
  end.

(** [BuildSchedule]; [history] is what the trade store streams for the
    window, [now] the clock. *)
Definition BuildSchedule (c : Config) (now : Time) (history : Time -> Time -> list Trade * bool)
  : result (list dec) :=
  let buckets := NumBuckets c in
  if buckets =? 0 then Err (ErrMsg "vwap: no buckets in execution window") else
  let n := Z.to_nat buckets in
  let historyStart := time_add now (- (WindowDays c * Day)) in
  let '(trades, cancelled) := history historyStart now in
  let adv := aggregateADVByBucket trades cancelled historyStart now (BucketMinutes c) in
  let vols := bucket_volume c adv <$> seq 0 n in
  let totalADV := sum_dropping_errors vols in
  if d_is_zero totalADV then
    perBucket ← wrap_err "vwap: even distribution" (dquo (TotalAmount c) (d_int buckets));
    Ok (with_remainder (TotalAmount c) (replicate (n - 1) (dfloor perBucket)))
  else
    scale ← wrap_err "vwap: scale factor" (dquo (TotalAmount c) totalADV);
    out ← scaled_buckets scale vols;
    Ok (with_remainder (TotalAmount c) (take (n - 1) out)).

(** [Schedule.Total] *)
Definition Total (bs : list dec) : dec := sum_dropping_errors bs.

(** ** The size of a bucket order *)

Definition bucket_at (bs : list dec) (i : Z) : dec := default dzero (bs !! Z.to_nat i).

Definition computeBucketSize (c : Config) (bs : list dec) (numBuckets bucketIdx : Z)
    (totalSubmitted totalFilled : dec) (chunksProcessed : Z) : result dec :=
  if (numBuckets <=? bucketIdx) || (bucketIdx <? chunksProcessed) then Ok dzero else
  let remaining := numBuckets - chunksProcessed in
  if remaining <=? 0 then Ok dzero else
  let remainingSched := sum_dropping_errors (bucket_at bs <$> seqZ chunksProcessed remaining) in
  if d_is_zero remainingSched then Ok dzero else
  remainingQty ← dsub (TotalAmount c) totalFilled;
  if negb (d_is_pos remainingQty) then Ok dzero else
  numerator ← dmul (bucket_at bs bucketIdx) remainingQty;
  dquo numerator remainingSched.

Definition signal_of (c : Config) : Signal :=
  if bool_decide (Side c = "sell"%string) then SignalSell else SignalBuy.

(** ** The run *)

Context {C : RunStateCodec} {W : Type} (E : Env W).

(** The order size of a tick; on error the zero that comes with it. *)
Definition bucket_order (c : Config) (bs : list dec) (lp : Loop (W := W)) : dec :=
  let r := st_runState (lp_strat lp) in
  d_or_zero (computeBucketSize c bs (Z.of_nat (length bs)) (lp_next lp) (TotalSubmitted r) (TotalFilled r)
    (ChunksProcessed r)).

Definition placeBucket (e : Executor) (assetID : string) (signal : Signal) (bucketSize : dec)
    (s : Strat (W := W)) : Strat (W := W) :=
  placeSlice E e assetID signal bucketSize s.

(** [handleBucketTick] and the loop around it. *)
Definition vwap_tick (c : Config) (e : Executor) (bs : list dec) (lp : Loop (W := W)) : Loop (W := W) :=
  let numBuckets := Z.of_nat (length bs) in
  let s := lp_strat lp in
  let s1 := if st_paused s then s
            else placeBucket e (OrderBookID c) (signal_of c) (bucket_order c bs lp) s in
  let next := lp_next lp + 1 in
  let s2 := saveState E e (setChunks next s1) in
  MkLoop next (negb (numBuckets <=? next)) s2.

(** [loadSchedule]; [None] is a missing trade store. *)
Definition loadSchedule (c : Config) (store : option (Time -> Time -> list Trade * bool)) (now : Time)
  : result (list dec) :=
  match store with
  | None => Err (ErrMsg "vwap: trade history store not configured")
  | Some history =>
      _ ← wrap_err "vwap: parse order_book_id" (uuid_Parse E (OrderBookID c));
      BuildSchedule c now history
  end.

Inductive Started :=
  | RunFails (err : error) (s : Strat (W := W))
  | RunCompleted (s : Strat (W := W))
  | RunDispatches (bs : list dec) (lp : Loop (W := W)).

Definition run (c : Config) (e : Executor) (store : option (Time -> Time -> list Trade * bool))
    (s : Strat (W := W)) : Started :=
  let s1 := importAndReconcile E e (loadState E e s) in
  let '(now, y) := time_now E (st_sys s1) in
  let s2 := set_sys y s1 in
  match loadSchedule c store now with
  | Err err => RunFails (ErrWrap "vwap: load schedule" err) s2
  | Ok bs =>
      let n := Z.of_nat (length bs) in
      if n =? 0 then RunFails (ErrMsg "vwap: empty schedule") s2
      else
        let r := st_runState s2 in
        let cp := ChunksProcessed r in
        match computeBucketSize c bs n cp (TotalSubmitted r) (TotalSubmitted r) cp with
        | Err err => RunFails (ErrWrap "vwap: validate bucket size formula" err) s2
        | Ok _ =>
            let '(now2, y2) := time_now E (st_sys s2) in
            let '(cp', s3) := skip_missed E e (bucketStart c) now2 (Z.to_nat (n - cp)) n cp (set_sys y2 s2) in
            if n <=? cp' then RunCompleted s3 else RunDispatches bs (MkLoop cp' true s3)
        end
  end.

Definition Run (c : Config) (e : Executor) (store : option (Time -> Time -> list Trade * bool))
    (s : Strat (W := W)) : Started :=
  if negb (ex_MarketWired e) then RunFails (ErrMsg "vwap: market API client not configured") s
  else run c e store s.

Definition dispatchLoop (c : Config) (e : Executor) (bs : list dec)
    (evs : list LoopEvent) (lp : Loop (W := W)) : Loop (W := W) :=
  run_loop E e (vwap_tick c e bs) evs lp.
End Vwap.

(** ** The schedule adds up *)

Section ScheduleTheory.
Context {D : DecimalOps} {L : DecimalLaws}.
Implicit Types (c : Config) (l : list dec).

(** Whole, non-negative quantities. *)
Definition whole (q : dec) : Prop := exists k, 0 <= k /\ (dval q == inject_Z k)%Q.

Lemma whole_floor (x : dec) : (0 <= dval x)%Q -> whole (dfloor x).
Proof.
  intros H. exists (Qfloor (dval x)). split; [| apply dval_floor].
  change 0 with (Qfloor 0). by apply Qfloor_resp_le.
Qed.

Lemma dadd_nonneg (x y : dec) : (0 <= dval x)%Q -> (0 <= dval y)%Q -> (0 <= dval (d_or_zero (dadd x y)))%Q.
Proof.
  intros Hx Hy. destruct (dadd x y) as [z|] eqn:E; simpl; [| rewrite dval_zero; lra].
  eapply dmatch_ge; [apply dadd_spec | exact E | apply representable_zero | lra].
Qed.

Definition nonneg (q : dec) : Prop := (0 <= dval q)%Q.

Lemma nonneg_zero : nonneg dzero.
Proof. unfold nonneg. rewrite dval_zero. lra. Qed.

Lemma sum_nonneg l acc : nonneg acc -> Forall nonneg l ->
  nonneg (foldl (fun acc x => d_or_zero (dadd acc x)) acc l).
Proof.
  revert acc. induction l as [|x l IH]; intros acc Ha Hl; simpl; [done |].
  inversion_clear Hl. apply IH; [by apply dadd_nonneg | done].
Qed.

Lemma qsum_whole l : Forall whole l -> exists k, 0 <= k /\ (qsum (dval <$> l) == inject_Z k)%Q.
Proof.
  induction 1 as [|x l (k & Hk & Ek) HF (m & Hm & Em)]; [by exists 0 |].
  exists (k + m). rewrite fmap_cons, qsum_cons, Ek, Em, inject_Z_plus. split; [lia | reflexivity].
Qed.

Lemma qsum_whole_nonneg l : Forall whole l -> (0 <= qsum (dval <$> l))%Q.
Proof.
  intros (k & Hk & ->)%qsum_whole. change 0%Q with (inject_Z 0). by rewrite <- Zle_Qle.
Qed.

(** Whole quantities below the capacity add up without rounding. *)
Lemma sum_whole_exact l acc m : 0 <= m -> (dval acc == inject_Z m)%Q -> Forall whole l ->
  (dval acc + qsum (dval <$> l) <= inject_Z max_coef)%Q ->
  (dval (foldl (fun acc x => d_or_zero (dadd acc x)) acc l) == dval acc + qsum (dval <$> l))%Q.
Proof.
  revert acc m. induction l as [|x l IH]; intros acc m Hm Ea Hl Hcap; [simpl; lra |].
  inversion_clear Hl as [|? ? Hx Hl']. pose proof (qsum_whole_nonneg l Hl') as Hnn.
  destruct Hx as (k & Hk & Ek). rewrite fmap_cons, qsum_cons in *. cbn [foldl].
  assert (dval acc + dval x == inject_Z (m + k))%Q as Es by (rewrite inject_Z_plus, Ea, Ek; reflexivity).
  assert (m + k <= max_coef) as Hmk.
  { rewrite Zle_Qle, <- Es. lra. }
  assert (dval (d_or_zero (dadd acc x)) == dval acc + dval x)%Q as Ed.
  { destruct (dmatch_exact _ _ (dadd_spec acc x)) as (z & -> & Ez); [| exact Ez].
    eapply representable_proper; [symmetry; exact Es |]. apply representable_int. lia. }
  rewrite (IH (d_or_zero (dadd acc x)) (m + k)); [rewrite Ed; lra | lia | by rewrite Ed | done | rewrite Ed; lra].
Qed.

Lemma with_remainder_total total l sc : (sc <= 19)%nat -> good_qty sc total ->
  Forall whole l -> (qsum (dval <$> l) <= dval total)%Q -> (dval total <= capacity sc)%Q ->
  (qsum (dval <$> with_remainder total l) == dval total)%Q.
Proof.
  intros Hsc [Gt Nt] Hl Hle Hcap. unfold with_remainder. rewrite fmap_app, qsum_app.
  rewrite fmap_cons, qsum_cons. simpl.
  assert (capacity sc <= inject_Z max_coef)%Q as Hcm.
  { unfold capacity, scaled, inject_Z, Qle. simpl. unfold max_coef. nia. }
  pose proof (qsum_whole_nonneg l Hl) as Hnn.
  assert (dval (sum_dropping_errors l) == qsum (dval <$> l))%Q as Es.
  { unfold sum_dropping_errors. pose proof dval_zero as Hz.
    rewrite (sum_whole_exact l dzero 0); [lra | lia | exact Hz | done | lra]. }
  rewrite (sub_exact sc Hsc); rewrite ?Es; [lra | | lra].
  destruct (qsum_whole l Hl) as (k & _ & Ek). eapply gridq_proper; [by rewrite Es |].
  apply gridq_sub; [done |]. exists (k * 10 ^ Z.of_nat sc). rewrite Ek.
  unfold scaled, inject_Z, Qeq. simpl. rewrite Z2Pos.id; [lia | apply Z.pow_pos_nonneg; lia].
Qed.

Lemma scaled_buckets_spec scale vols out : scaled_buckets scale vols = Ok out ->
  length out = length vols /\ (nonneg scale -> Forall nonneg vols -> Forall whole out).
Proof.
  revert out. induction vols as [|v vols IH]; intros out H; simpl in H; [by injection H as <- |].
  apply result_bind_Ok in H as (amt & Ea & H). apply result_bind_Ok in H as (o & Eo & H).
  injection H as <-. apply wrap_err_Ok in Ea. destruct (IH o Eo) as [Hl Hf].
  split; [simpl; by f_equal |]. intros Hs Hv. inversion_clear Hv. constructor; [| by apply Hf].
  by apply whole_floor, (dmul_nonneg v scale).
Qed.

Lemma add_trade_nonneg bm vols t : map_Forall (fun _ q => nonneg q) vols -> nonneg (tr_Quantity t) ->
  map_Forall (fun _ q => nonneg q) (add_trade bm vols t).
Proof.
  intros Hv Ht. apply map_Forall_insert_2; [| done]. apply dadd_nonneg; [| done].
  destruct (vols !! _) as [v|] eqn:E; simpl; [by apply (Hv _ _ E) | apply nonneg_zero].
Qed.

Lemma d_int_nonneg k : 0 <= k <= max_coef -> nonneg (d_int k).
Proof.
  intros H. unfold nonneg. rewrite d_int_val by lia. change 0%Q with (inject_Z 0). rewrite <- Zle_Qle. lia.
Qed.

Lemma window_days_bound s e : let d := Z.quot (time_sub e s) Day in
  0 <= (if d <=? 0 then 1 else d) <= max_coef.
Proof.
  cbv zeta. set (x := time_sub e s).
  assert (x <= int64_max) as Hx by (unfold x, time_sub, sat64, int64_max, int64_min; lia).
  destruct (_ <=? 0) eqn:Ez; bool_prop; [unfold max_coef; lia |]. split; [lia |].
  assert (0 < Day) by done. destruct (Z.le_gt_cases 0 x) as [H0|H0].
  - rewrite Z.quot_div_nonneg by lia. etransitivity; [apply (Z.div_le_upper_bound x Day x); unfold Day, Hour, Minute, Second; lia |].
    unfold int64_max, max_coef in *. lia.
  - pose proof (Z.quot_opp_l x Day ltac:(lia)) as Ho. pose proof (Z.quot_pos (- x) Day ltac:(lia) ltac:(lia)). lia.
Qed.

Lemma aggregate_nonneg trades b s e bm : Forall (fun t => nonneg (tr_Quantity t)) trades ->
  map_Forall (fun _ q => nonneg q) (aggregateADVByBucket trades b s e bm).
Proof.
  intros Ht. unfold aggregateADVByBucket.
  assert (forall vols, map_Forall (fun _ q => nonneg q) vols ->
    map_Forall (fun _ q => nonneg q) (foldl (add_trade bm) vols trades)) as H.
  { induction Ht as [|t ts Hq HF IH]; intros vols Hv; simpl; [done |]. by apply IH, add_trade_nonneg. }
  specialize (H ∅ (map_Forall_empty _)). destruct b; [done |].
  intros i q Hi. rewrite lookup_fmap in Hi. destruct (foldl _ _ _ !! i) as [v|] eqn:Ev; [| done].
  injection Hi as <-. specialize (H _ _ Ev). simpl in H. unfold nonneg in *.
  destruct (dquo v _) as [z|] eqn:Eq; simpl; [| rewrite dval_zero; lra].
  refine (dquo_nonneg _ _ _ H _ Eq). apply d_int_nonneg, window_days_bound.
Qed.
End ScheduleTheory.

(** ** The timer case *)

Section TickTheory.
Context {D : DecimalOps} {C : RunStateCodec} {W : Type} (E : Env W).
Context (c : Config) (e : Executor) (bs : list dec).
Implicit Types (lp : Loop (W := W)).

Lemma vwap_tick_spec lp : let lp' := vwap_tick E c e bs lp in
  lp_next lp' = lp_next lp + 1 /\ lp_running lp' = negb (Z.of_nat (length bs) <=? lp_next lp + 1) /\
  if st_paused (lp_strat lp)
  then sent (lp_strat lp') = sent (lp_strat lp)
  else exists r, or_Quantity r = bucket_order c bs lp /\ sent (lp_strat lp') = sent (lp_strat lp) ++ [r].
Proof.
  unfold vwap_tick. simpl. split_and!; [done | done |]. rewrite saveState_sent.
  destruct (st_paused (lp_strat lp)); [done |].
  destruct (placeSlice_spec E e (OrderBookID c) (signal_of c) (bucket_order c bs lp) (lp_strat lp)) as (u & H & _).
  eexists. split; [| exact H]. done.
Qed.

Lemma vwap_slot_tick : slot_tick (Z.of_nat (length bs)) (vwap_tick E c e bs).
Proof.
  intros lp. destruct (vwap_tick_spec lp) as (H1 & H2 & H3). cbv zeta. rewrite H1, H2.
  assert (Z.of_nat (length (sent (lp_strat (vwap_tick E c e bs lp))))
    - Z.of_nat (length (sent (lp_strat lp))) <= 1).
  { destruct (st_paused _); [rewrite H3; lia |]. destruct H3 as (r & _ & ->). rewrite length_app. simpl. lia. }
  split_and!; [lia | lia | lia | | lia]. intros Hb. bool_prop. lia.
Qed.
End TickTheory.

(** ** Properties *)

Section Properties.
Context {D : DecimalOps} {L : DecimalLaws}.

(** A schedule has one bucket per slot of the window, every bucket but the
    last is a whole non-negative quantity, and, unless the floored buckets
    alone exceed it, the quantities add up to [TotalAmount] exactly, both with
    historical volume and in the even fallback. *)
Theorem vwap_schedule_total (c : Config) (now : Time) (history : Time -> Time -> list Trade * bool)
    (bs : list dec) (sc : nat) :
  BuildSchedule c now history = Ok bs -> 0 < NumBuckets c <= max_coef ->
  (forall a b, Forall (fun t => nonneg (tr_Quantity t)) (history a b).1) ->
  (sc <= 19)%nat -> good_qty sc (TotalAmount c) -> (dval (TotalAmount c) <= capacity sc)%Q ->
  let firsts := take (Z.to_nat (NumBuckets c) - 1) bs in
  Z.of_nat (length bs) = NumBuckets c /\ Forall whole firsts /\
  ((qsum (dval <$> firsts) <= dval (TotalAmount c))%Q -> (qsum (dval <$> bs) == dval (TotalAmount c))%Q).
Proof.
  intros H Hn Hh Hsc Hg Hcap. cbv zeta. unfold BuildSchedule in H.
  destruct (NumBuckets c =? 0) eqn:E0; [done | bool_prop].
  set (n := Z.to_nat (NumBuckets c)) in *.
  specialize (Hh (time_add now (- (WindowDays c * Day))) now).
  destruct (history _ _) as [ts cancelled]. simpl in Hh.
  set (adv := aggregateADVByBucket _ _ _ _ _) in H.
  assert (Forall nonneg (bucket_volume c adv <$> seq 0 n)) as Hv.
  { apply Forall_fmap, Forall_true. intros i. unfold bucket_volume; simpl.
    destruct (adv !! _) as [q|] eqn:Eq; simpl; [| apply nonneg_zero].
    by apply (aggregate_nonneg ts cancelled _ _ _ Hh _ _ Eq). }
  set (vols := bucket_volume c adv <$> seq 0 n) in *.
  assert (exists firsts, length firsts = (n - 1)%nat /\ Forall whole firsts /\
    bs = with_remainder (TotalAmount c) firsts) as (firsts & Hlen & Hwhole & ->).
  { destruct (d_is_zero _).
    - apply result_bind_Ok in H as (pb & Ep & H). injection H as <-. apply wrap_err_Ok in Ep.
      exists (replicate (n - 1) (dfloor pb)). split_and!; [by rewrite length_replicate | | done].
      apply Forall_replicate, whole_floor. refine (dquo_nonneg _ _ _ (proj2 Hg) _ Ep).
      apply d_int_nonneg. lia.
    - apply result_bind_Ok in H as (scale & Es & H). apply result_bind_Ok in H as (out & Eo & H).
      injection H as <-. apply wrap_err_Ok in Es. destruct (scaled_buckets_spec _ _ _ Eo) as [Hl Hw].
      exists (take (n - 1) out). split_and!; [| | done].
      + rewrite length_take, Hl. unfold vols. rewrite length_fmap, length_seq. lia.
      + apply Forall_take, Hw; [| done]. refine (dquo_nonneg _ _ _ (proj2 Hg) _ Es).
        by apply sum_nonneg; [apply nonneg_zero |]. }
  assert (take (n - 1) (with_remainder (TotalAmount c) firsts) = firsts) as ->.
  { unfold with_remainder. by rewrite take_app_length' by done. }
  split_and!; [| done | intros Hle; by apply (with_remainder_total _ _ sc)].
  unfold with_remainder. rewrite length_app, Hlen. simpl. lia.
Qed.

Context {C : RunStateCodec} {W : Type} (E : Env W).

(** Whatever arrives on the channels, the VWAP loop sends at most one
    order per bucket and stops after the last one. *)
Theorem vwap_one_order_per_bucket (c : Config) (e : Executor) (bs : list dec)
    (evs : list LoopEvent) (lp : Loop (W := W)) :
  lp_next lp < Z.of_nat (length bs) ->
  let lp' := dispatchLoop E c e bs evs lp in
  lp_next lp <= lp_next lp' <= Z.of_nat (length bs) /\
  Z.of_nat (length (sent (lp_strat lp'))) - Z.of_nat (length (sent (lp_strat lp))) <= lp_next lp' - lp_next lp /\
  (lp_running lp' = true -> lp_next lp' < Z.of_nat (length bs)).
Proof. intros Hn. apply run_loop_slots; [apply vwap_slot_tick | done]. Qed.

(** Through a whole VWAP run the state written last decodes to the run state
    in memory, and is persisted unless the store refused it. *)
Theorem vwap_checkpoint_recovers {CL : RunStateCodecLaws} (c : Config) (e : Executor)
    (store : option (Time -> Time -> list Trade * bool)) (s : Strat (W := W)) (bs : list dec)
    (lp : Loop (W := W)) (evs : list LoopEvent) :
  ex_MarketWired e = true -> is_Some (Store_SaveState E) -> run E c e store s = RunDispatches bs lp ->
  let s' := lp_strat (dispatchLoop E c e bs evs lp) in
  exists raw, written raw (sy_calls (st_sys s')) /\ UnmarshalState raw = Ok (st_runState s').
Proof.
  intros Hm Hst H. apply checkpointed_recovers.
  apply (loop_checkpointed E Hst Marshal_total);
    [intros l _; by apply (saveState_checkpointed E Hst Marshal_total) |].
  unfold run, importAndReconcile in H.
  destruct (ImportOrphanedOrders _ _ _ _ _) as [r0 y0]. unfold ReconcilePendingOrders in H.
  rewrite Hm in H. simpl in H. destruct (reconcile_from _ _ _ _ _) as [r1 y1].
  pose proof (Executor_SaveState_last E Hst Marshal_total e r1 y1) as (raw & R1 & R2).
  destruct (Executor_SaveState E e r1 y1) as [[] y2]. simpl in *. unfold time_now in H.
  pose proof (quiet_calls (Now E) y2) as Hq. destruct (quiet (Now E) y2) as [now y3]. simpl in *.
  destruct (loadSchedule _ _ _ _) as [bs'|]; [| done]. destruct (_ =? 0); [done |].
  destruct (computeBucketSize _ _ _ _ _ _ _); [| done].
  pose proof (quiet_calls (Now E) y3) as Hq2. destruct (quiet (Now E) y3) as [now2 y4]. simpl in *.
  match type of H with context [skip_missed E e ?sch ?t ?f ?m ?k ?st] =>
    pose proof (skip_missed_checkpointed E Hst Marshal_total e sch t f m k st) as Hk;
    destruct (skip_missed E e sch t f m k st) as [cp' s2] end.
  destruct (_ <=? cp'); [done |]. injection H as _ <-. simpl in *. apply Hk.
  exists raw. simpl. by rewrite Hq2, Hq.
Qed.
End Properties.

(** In exact arithmetic *)
Lemma sum_dropping_errors_Q (l : list (@dec QDec)) acc :
  (foldl (fun acc x => d_or_zero (D := QDec) (dadd acc x)) acc l == acc + qsum l)%Q.
Proof.
  revert acc. induction l as [|x l IH]; intros acc; simpl; [lra |].
  rewrite IH. unfold d_or_zero. simpl. lra.
Qed.

(** In exact arithmetic a bucket's order is its scheduled share of what
    is still unfilled: size times the schedule left equals its bucket times
    the unfilled remainder; so the orders of all remaining buckets together
    would be exactly that remainder. *)
Theorem vwap_bucket_share (c : Config (D := QDec)) (bs : list (@dec QDec)) (n idx cp : Z)
    (S F q : @dec QDec) :
  computeBucketSize c bs n idx S F cp = Ok q -> cp <= idx < n -> ((F : Q) < TotalAmount c)%Q ->
  let left := qsum (bucket_at bs <$> seqZ cp (n - cp)) in
  ~ (left == 0)%Q -> (q * left == bucket_at bs idx * (TotalAmount c - F))%Q.
Proof.
  intros H Hi HF left Hl. unfold computeBucketSize in H.
  destruct ((n <=? idx) || (idx <? cp)) eqn:E1; [apply orb_prop in E1; destruct E1; bool_prop; lia |].
  destruct (n - cp <=? 0) eqn:E2; [bool_prop; lia |].
  pose proof (sum_dropping_errors_Q (bucket_at bs <$> seqZ cp (n - cp)) (@dzero QDec)) as Hs.
  fold (sum_dropping_errors (D := QDec) (bucket_at bs <$> seqZ cp (n - cp))) in Hs.
  fold left in Hs. set (rs := sum_dropping_errors _) in *.
  assert (rs == left)%Q as Hrs by (rewrite Hs; cbn [dzero QDec]; lra). clearbody rs.
  destruct (d_is_zero rs) eqn:E3.
  { exfalso. apply Hl. unfold d_is_zero in E3. cbn [dcmp dzero QDec] in E3.
    destruct (Qcompare_spec rs 0); [| done | done]. by rewrite <- Hrs. }
  cbn [dsub QDec] in H. simpl in H.
  destruct (d_is_pos _) eqn:E4; simpl in H.
  - unfold mbind, result_bind in H. cbn [dmul QDec] in H. cbn [dquo QDec] in H.
    destruct (Qeq_bool rs 0) eqn:E; [discriminate |]. injection H as <-.
    apply Qeq_bool_neq in E. rewrite <- Hrs. field. exact E.
  - exfalso. unfold d_is_pos in E4. cbn [dcmp dzero QDec] in E4.
    destruct (Qcompare_spec (TotalAmount c - F) 0); try done; lra.
Qed.

(** ** Witnesses *)

(** Ten minutes from 10:00, in a zone [off] east of UTC. *)
Definition demo_config (off : Z) : Config (D := RefDec) := {|
  OrderBookID := "book"; TotalAmount := RD 100 0; Side := "buy";
  StartTime := MkTime (1000 * Day + 10 * Hour) off; EndTime := MkTime (1000 * Day + 10 * Hour + 10 * Minute) off;
  WindowDays := 1; BucketMinutes := 5 |}.

(** One trade at 10:02 UTC the day before. *)
Definition demo_history (a b : Time) : list (Trade (D := RefDec)) * bool :=
  ([ Build_Trade (D := RefDec) (MkTime (999 * Day + 10 * Hour + 2 * Minute) 0) (RD 4 0) ], false).

Definition demo_now : Time := MkTime (1000 * Day) 0.

Definition demo_schedule : list (@dec RefDec) :=
  get_ok [] (BuildSchedule (demo_config 0) demo_now demo_history).

Lemma demo_schedule_Ok : BuildSchedule (demo_config 0) demo_now demo_history = Ok demo_schedule.
Proof. refine (is_ok_get [] _ _). vm_compute. reflexivity. Defined.

Lemma whole_value_good (q : @dec RefDec) (k : Z) : 0 <= k -> (dval q == inject_Z k)%Q -> good_qty (D := RefDec) 0 q.
Proof.
  intros Hk E. split; [exists k; by rewrite E, scaled_int |]. rewrite E.
  change 0%Q with (inject_Z 0). by rewrite <- Zle_Qle.
Qed.

Lemma vwap_schedule_total_witness :
  let firsts := take (Z.to_nat (NumBuckets (demo_config 0)) - 1) demo_schedule in
  Z.of_nat (length demo_schedule) = NumBuckets (demo_config 0) /\ Forall whole firsts /\
  ((qsum (dval <$> firsts) <= dval (TotalAmount (demo_config 0)))%Q ->
   (qsum (dval <$> demo_schedule) == dval (TotalAmount (demo_config 0)))%Q).
Proof.
  apply (vwap_schedule_total (D := RefDec) (demo_config 0) demo_now demo_history demo_schedule 0).
  - exact demo_schedule_Ok.
  - split; vm_compute; [reflexivity | discriminate].
  - intros a b. repeat constructor. vm_compute. discriminate.
  - lia.
  - by apply (whole_value_good _ 100).
  - vm_compute. discriminate.
Defined.

Definition demo_loop : Loop (D := RefDec) (W := nat) :=
  MkLoop 0 true (MkStrat false false true zero_RunState 0 (MkSys 0%nat [])).

Lemma vwap_one_order_per_bucket_witness :
  let lp' := dispatchLoop demo_env (demo_config 0) demo_executor demo_schedule [EvTimer; EvMessage Pause; EvTimer; EvTimer] demo_loop in
  lp_next demo_loop <= lp_next lp' <= Z.of_nat (length demo_schedule) /\
  Z.of_nat (length (sent (lp_strat lp'))) - Z.of_nat (length (sent (lp_strat demo_loop))) <= lp_next lp' - lp_next demo_loop /\
  (lp_running lp' = true -> lp_next lp' < Z.of_nat (length demo_schedule)).
Proof. refine (vwap_one_order_per_bucket (D := RefDec) demo_env _ _ _ _ _ _). vm_compute. reflexivity. Defined.

Definition demo_started : Loop (D := RefDec) (W := nat) :=
  match run demo_env (demo_config 0) demo_executor (Some demo_history) (lp_strat demo_loop) with
  | RunDispatches _ lp => lp
  | _ => demo_loop
  end.

Lemma vwap_demo_run : run demo_env (demo_config 0) demo_executor (Some demo_history) (lp_strat demo_loop)
  = RunDispatches demo_schedule demo_started.
Proof. reflexivity. Qed.

Lemma vwap_checkpoint_recovers_witness :
  let s' := lp_strat (dispatchLoop demo_env (demo_config 0) demo_executor demo_schedule [EvTimer; EvTimer] demo_started) in
  exists raw, written raw (sy_calls (st_sys s')) /\ UnmarshalState raw = Ok (st_runState s').
Proof.
  exact (vwap_checkpoint_recovers (D := RefDec) demo_env (demo_config 0) demo_executor (Some demo_history)
    (lp_strat demo_loop) demo_schedule demo_started _ eq_refl (mk_is_Some _ _ eq_refl) vwap_demo_run).
Defined.

Definition exact_config : Config (D := QDec) := {|
  OrderBookID := "book"; TotalAmount := 100%Q : @dec QDec; Side := "buy";
  StartTime := MkTime 1 0; EndTime := MkTime 2 0; WindowDays := 1; BucketMinutes := 5 |}.

Definition exact_buckets : list (@dec QDec) := [30%Q; 50%Q; 20%Q].

Lemma vwap_bucket_share_witness :
  exists q, computeBucketSize exact_config exact_buckets 3 1 (40%Q : @dec QDec) (16%Q : @dec QDec) 1 = Ok q /\
    ((q : Q) * qsum (bucket_at exact_buckets <$> seqZ 1 (3 - 1)) == bucket_at exact_buckets 1 * (100 - 16))%Q.
Proof.
  eexists. split; [vm_compute; reflexivity |].
  apply (vwap_bucket_share exact_config exact_buckets 3 1 1 (40%Q : @dec QDec) (16%Q : @dec QDec)).
  - vm_compute. reflexivity.
  - lia.
  - reflexivity.
  - vm_compute. discriminate.
Defined.

(** ** Two surprises *)

(** A bucket without historical volume is not skipped: its tick sends a
    market order of quantity zero. *)
Theorem vwap_empty_bucket_orders_zero :
  Qred ∘ dval <$> demo_schedule = [100; 0]%Q /\
  (fun r => Qred (dval (or_Quantity r))) <$>
    sent (lp_strat (dispatchLoop demo_env (demo_config 0) demo_executor demo_schedule [EvTimer; EvTimer] demo_loop))
  = [100; 0]%Q.
Proof. split; vm_compute; reflexivity. Qed.

(** The schedule depends on the zone the window is written in: the same
    two instants, given with an offset of two hours, miss the trade of 10:02
    UTC and fall back to the even distribution. *)
Theorem vwap_schedule_zone_dependent :
  t_ns (StartTime (demo_config 0)) = t_ns (StartTime (demo_config (2 * Hour))) /\
  t_ns (EndTime (demo_config 0)) = t_ns (EndTime (demo_config (2 * Hour))) /\
  result_map (fmap (Qred ∘ dval)) (BuildSchedule (demo_config 0) demo_now demo_history) = Ok [100; 0]%Q /\
  result_map (fmap (Qred ∘ dval)) (BuildSchedule (demo_config (2 * Hour)) demo_now demo_history) = Ok [50; 50]%Q.
Proof. split_and!; vm_compute; reflexivity. Qed.
