(* ===== verification/Feed.v ===== *)
(** * strategy: closed bars and the candle registry

    [BarCloser] of [barfeed.go], which turns a stream of candle updates into
    closed bars, and the registry of [candle_registry.go], which shares one
    stream per order book and resolution between subscribers.

    Theory: bars come out in strictly increasing time, each one the last
    version of its candle, however the bootstrap is replayed; the cache is the
    last [closedBarCacheCap] bars; a subscriber sees the cache and then every
    later bar; the stream lives exactly as long as it has subscribers. *)

From S2P Require Import Prelude GoTime Decimal RefDecimal Types.

Section Feed.
Context {D : DecimalOps}.

(** [candles.Candle] *)
Record Candle := {
  c_StartTimestamp : Time;
  c_Open : dec; c_High : dec; c_Low : dec; c_Close : dec; c_Volume : dec;
  c_OpenYTM : dec; c_HighYTM : dec; c_LowYTM : dec; c_CloseYTM : dec;
}.

Definition BarFromCandle (c : Candle) : Bar := {|
  bar_Time := time_utc (c_StartTimestamp c);
  bar_Open := c_Open c; bar_High := c_High c; bar_Low := c_Low c; bar_Close := c_Close c;
  bar_Volume := c_Volume c; bar_OpenYTM := c_OpenYTM c; bar_HighYTM := c_HighYTM c;
  bar_LowYTM := c_LowYTM c; bar_CloseYTM := c_CloseYTM c; bar_BenchmarkYield := dzero |}.

Definition ResolutionDuration (res : string) : Z :=
  if bool_decide (res = "1m"%string) then Minute
  else if bool_decide (res = "5m"%string) then 5 * Minute
  else if bool_decide (res = "15m"%string) then 15 * Minute
  else if bool_decide (res = "1h"%string) then Hour
  else if bool_decide (res = "4h"%string) then 4 * Hour
  else if bool_decide (res = "1d"%string) then Day
  else 0.

(** One entry of a batch: the new pending candle and the bar it closes. *)
Definition closer_entry (pending : option Candle) (e : Candle) : option Candle * list Bar :=
  match pending with
  | None => (Some e, [])
  | Some p =>
      if time_before (c_StartTimestamp e) (c_StartTimestamp p) then (pending, [])
      else if time_after (c_StartTimestamp e) (c_StartTimestamp p) then (Some e, [BarFromCandle p])
      else (Some e, [])
  end.

(** [BarCloser.loop] over the entries of the batches received. *)
Fixpoint closer_loop (pending : option Candle) (es : list Candle) : option Candle * list Bar :=
  match es with
  | [] => (pending, [])
  | e :: rest =>
      let '(p1, out1) := closer_entry pending e in
      let '(p2, out2) := closer_loop p1 rest in
      (p2, out1 ++ out2)
  end.

(** ** The registry *)

Definition closedBarCacheCap : nat := 4096.
Definition subscriberChanBase : nat := 16.

(** A buffered channel of bars. *)
Record Chan := { ch_buf : list Bar; ch_cap : nat }.

(** [select { case ch <- bar: default: }]: a full channel drops the bar. *)
Definition try_send (bar : Bar) (ch : Chan) : Chan :=
  if (length (ch_buf ch) <? ch_cap ch)%nat then {| ch_buf := ch_buf ch ++ [bar]; ch_cap := ch_cap ch |} else ch.

Record Entry := { en_refs : Z; en_cache : list Bar; en_subscribers : gmap positive Chan }.

Record Registry := { rg_entries : gmap string Entry; rg_nextID : positive }.

(** The cache after appending, evicting from the front. *)
Definition push_cache (cache : list Bar) (bar : Bar) : list Bar :=
  let c := cache ++ [bar] in
  if (closedBarCacheCap <? length c)%nat then drop (length c - closedBarCacheCap) c else c.

(** One iteration of the entry's forwarder. *)
Definition forward (bar : Bar) (e : Entry) : Entry := {|
  en_refs := en_refs e;
  en_cache := push_cache (en_cache e) bar;
  en_subscribers := try_send bar <$> en_subscribers e |}.

(** The stream ended: the subscriber channels are closed and forgotten. *)
Definition stream_ended (e : Entry) : Entry := {|
  en_refs := en_refs e; en_cache := en_cache e; en_subscribers := ∅ |}.

Definition new_entry : Entry := {| en_refs := 0; en_cache := []; en_subscribers := ∅ |}.

Definition registry_key (book resolution : string) : string := (book +:+ "|" +:+ resolution)%string.

Definition valid_resolution (resolution : string) : bool := negb (ResolutionDuration resolution =? 0).

(** [SubscribeBars]; [start] is the outcome of creating the handler and its
    observer subscription for a new entry.  Returns the subscription id. *)
Definition SubscribeBars (start : result unit) (book resolution : string) (r : Registry)
  : result positive * Registry :=
  if negb (valid_resolution resolution) then (Err (ErrMsg "invalid resolution"), r) else
  let key := registry_key book resolution in
  match (match rg_entries r !! key with
         | Some e => Ok e
         | None => _ ← start; Ok new_entry
         end) with
  | Err err => (Err err, r)
  | Ok e =>
      let subID := rg_nextID r in
      let ch := {| ch_buf := en_cache e; ch_cap := length (en_cache e) + subscriberChanBase |} in
      let e' := {| en_refs := en_refs e + 1; en_cache := en_cache e;
                   en_subscribers := <[subID := ch]> (en_subscribers e) |} in
      (Ok subID, {| rg_entries := <[key := e']> (rg_entries r); rg_nextID := Pos.succ subID |})
  end.

(** The cancel function returned with a subscription, run once. *)
Definition unsubscribe (key : string) (subID : positive) (r : Registry) : Registry :=
  match rg_entries r !! key with
  | None => r
  | Some e =>
      let e' := {| en_refs := en_refs e - 1; en_cache := en_cache e;
                   en_subscribers := delete subID (en_subscribers e) |} in
      {| rg_entries := if en_refs e' =? 0 then delete key (rg_entries r) else <[key := e']> (rg_entries r);
         rg_nextID := rg_nextID r |}
  end.

Definition forward_all (bars : list Bar) (e : Entry) : Entry := foldl (fun e b => forward b e) e bars.
End Feed.

(** ** The closer *)

Section CloserTheory.
Context {D : DecimalOps}.
Implicit Types (e p : Candle) (es : list Candle).

Definition start_of e : Z := t_ns (c_StartTimestamp e).

(** A candle is final when the next update starts later. *)
Fixpoint finals es : list Candle :=
  match es with
  | a :: (b :: _) as rest => if start_of a <? start_of b then a :: finals rest else finals rest
  | _ => []
  end.

Lemma closer_entry_cases p e :
  (start_of e < start_of p /\ closer_entry (Some p) e = (Some p, [])) \/
  (start_of e = start_of p /\ closer_entry (Some p) e = (Some e, [])) \/
  (start_of p < start_of e /\ closer_entry (Some p) e = (Some e, [BarFromCandle p])).
Proof.
  unfold closer_entry, time_before, time_after, start_of.
  destruct (t_ns (c_StartTimestamp e) <? _) eqn:E1; bool_prop; [by left |]. right.
  destruct (t_ns (c_StartTimestamp p) <? _) eqn:E2; bool_prop; [by right | left]. split; [lia | done].
Qed.

Lemma closer_loop_sorted p es : Sorted (fun a b => start_of a <= start_of b) (p :: es) ->
  closer_loop (Some p) es = (last (p :: es), BarFromCandle <$> finals (p :: es)).
Proof.
  revert p. induction es as [|e es IH]; intros p Hs; [done |].
  apply Sorted_inv in Hs as [Hs Hh]. inversion_clear Hh as [|? ? Hle].
  change (last (p :: e :: es)) with (last (e :: es)).
  change (finals (p :: e :: es)) with
    (if start_of p <? start_of e then p :: finals (e :: es) else finals (e :: es)).
  cbn [closer_loop].
  destruct (closer_entry_cases p e) as [[? _]|[[Heq ->]|[Hlt ->]]]; [lia | |]; rewrite (IH e Hs).
  - destruct (_ <? _) eqn:E; bool_prop; [lia | done].
  - destruct (_ <? _) eqn:E; bool_prop; [done | lia].
Qed.

(** Entries older than the pending candle leave no trace. *)
Lemma closer_loop_stale p old es : Forall (fun e => start_of e < start_of p) old ->
  closer_loop (Some p) (old ++ es) = closer_loop (Some p) es.
Proof.
  induction 1 as [|e old He Ho IH]; [done |]. rewrite <- app_comm_cons. cbn [closer_loop].
  destruct (closer_entry_cases p e) as [[_ ->]|[[? _]|[? _]]]; [| lia | lia].
  rewrite IH. by destruct (closer_loop (Some p) es).
Qed.

Lemma closer_loop_increasing p es : let '(p', out) := closer_loop (Some p) es in
  StronglySorted Z.lt ((fun b => t_ns (bar_Time b)) <$> out) /\
  Forall (fun b => start_of p <= t_ns (bar_Time b)) out /\
  exists q, p' = Some q /\ start_of p <= start_of q /\ Forall (fun b => t_ns (bar_Time b) < start_of q) out.
Proof.
  revert p. induction es as [|e es IH]; intros p; cbn [closer_loop].
  - split_and!; [constructor | done | exists p; split_and!; [done | lia | done]].
  - destruct (closer_entry_cases p e) as [[? ->]|[[Heq ->]|[Hlt ->]]].
    + specialize (IH p). by destruct (closer_loop (Some p) es).
    + specialize (IH e). destruct (closer_loop (Some e) es) as [p' out].
      destruct IH as (H1 & H2 & q & H3 & H4 & H5). simpl.
      split_and!; [done | eapply Forall_impl; [exact H2 | simpl; lia] |]. exists q. split_and!; [done | lia | done].
    + specialize (IH e). destruct (closer_loop (Some e) es) as [p' out].
      destruct IH as (H1 & H2 & q & H3 & H4 & H5). simpl. split_and!.
      * constructor; [done |]. rewrite Forall_fmap. eapply Forall_impl; [exact H2 |].
        intros b Hb. simpl in *. unfold start_of in *. lia.
      * constructor; [unfold start_of; simpl; lia |]. eapply Forall_impl; [exact H2 | simpl; lia].
      * exists q. split_and!; [done | lia |]. constructor; [unfold start_of in *; simpl; lia | done].
Qed.
End CloserTheory.

(** ** The registry *)

Section RegistryTheory.
Context {D : DecimalOps}.
Implicit Types (e : Entry) (bars : list Bar).

Lemma push_cache_lastn c (pre : list Bar) b : c = lastn closedBarCacheCap pre ->
  push_cache c b = lastn closedBarCacheCap (pre ++ [b]).
Proof.
  intros ->. unfold push_cache.
  assert (lastn closedBarCacheCap (lastn closedBarCacheCap pre ++ [b]) = lastn closedBarCacheCap (pre ++ [b])) as <-.
  { unfold lastn. rewrite !length_app, length_drop. cbn [length].
    rewrite (drop_app pre [b]), (drop_app (drop _ pre) [b]), drop_drop, length_drop. f_equal; f_equal; lia. }
  set (x := lastn closedBarCacheCap pre ++ [b]). destruct (_ <? _)%nat eqn:E; bool_prop; [done |].
  symmetry. by apply lastn_all.
Qed.

Lemma forward_all_cache bars e pre : en_cache e = lastn closedBarCacheCap pre ->
  en_cache (forward_all bars e) = lastn closedBarCacheCap (pre ++ bars).
Proof.
  revert e pre. induction bars as [|b bars IH]; intros e pre H; [by rewrite app_nil_r |].
  change (forward_all (b :: bars) e) with (forward_all bars (forward b e)). rewrite (IH (forward b e) (pre ++ [b])).
  - by rewrite <- app_assoc.
  - simpl. by apply push_cache_lastn.
Qed.

Lemma forward_all_refs bars e : en_refs (forward_all bars e) = en_refs e.
Proof. revert e. induction bars as [|b bars IH]; intros e; [done |]. exact (IH (forward b e)). Qed.

Lemma forward_all_chan bars e id ch : en_subscribers e !! id = Some ch ->
  (length (ch_buf ch) + length bars <= ch_cap ch)%nat ->
  en_subscribers (forward_all bars e) !! id = Some {| ch_buf := ch_buf ch ++ bars; ch_cap := ch_cap ch |}.
Proof.
  revert e ch. induction bars as [|b bars IH]; intros e ch H Hc; simpl.
  - rewrite app_nil_r. by destruct ch.
  - change (forward_all (b :: bars) e) with (forward_all bars (forward b e)). simpl in Hc.
    assert (try_send b ch = {| ch_buf := ch_buf ch ++ [b]; ch_cap := ch_cap ch |}) as Ht.
    { unfold try_send. destruct (_ <? _)%nat eqn:E; bool_prop; [done | lia]. }
    rewrite (IH (forward b e) (try_send b ch)).
    + rewrite Ht. simpl. by rewrite <- app_assoc.
    + simpl. by rewrite lookup_fmap, H.
    + rewrite Ht. simpl. rewrite length_app. simpl. lia.
Qed.

(** The subscription handles of a book not yet cancelled. *)
Record registered (r : Registry) (handles : gset (string * positive)) : Prop := {
  rd_refs : forall key e, rg_entries r !! key = Some e ->
    en_refs e = Z.of_nat (size (filter (fun h => h.1 = key) handles)) /\ 0 < en_refs e;
  rd_entry : forall h, h ∈ handles -> is_Some (rg_entries r !! h.1);
  rd_fresh : forall h, h ∈ handles -> (h.2 < rg_nextID r)%positive;
}.

Lemma filter_key_insert (key : string) (id : positive) (handles : gset (string * positive)) :
  (key, id) ∉ handles ->
  size (filter (fun h => h.1 = key) ({[(key, id)]} ∪ handles)) = S (size (filter (fun h => h.1 = key) handles)).
Proof.
  intros H. assert (filter (fun h => h.1 = key) ({[(key, id)]} ∪ handles) =
    {[(key, id)]} ∪ filter (fun h => h.1 = key) handles) as ->.
  { apply set_eq. intros [k i]. rewrite elem_of_filter, !elem_of_union, elem_of_filter, elem_of_singleton. simpl.
    naive_solver. }
  rewrite size_union, size_singleton; [done |]. set_solver.
Qed.

Lemma filter_key_other (key key' : string) (id : positive) (handles : gset (string * positive)) : key <> key' ->
  filter (fun h => h.1 = key') ({[(key, id)]} ∪ handles) = filter (fun h => h.1 = key') handles.
Proof.
  intros H. apply set_eq. intros [k i]. rewrite !elem_of_filter, elem_of_union, elem_of_singleton. simpl.
  naive_solver.
Qed.

Lemma subscribe_registered start book res r handles id r' : registered r handles ->
  SubscribeBars start book res r = (Ok id, r') ->
  registered r' ({[(registry_key book res, id)]} ∪ handles).
Proof.
  intros [Hr He Hf] H. unfold SubscribeBars in H. destruct (valid_resolution res); simpl in H; [| done].
  set (key := registry_key book res) in *.
  assert ((key, rg_nextID r) ∉ handles) as Hni.
  { intros Hin. specialize (Hf _ Hin). simpl in Hf. lia. }
  assert (exists e, en_refs e = Z.of_nat (size (filter (fun h => h.1 = key) handles)) /\
    id = rg_nextID r /\ rg_nextID r' = Pos.succ id /\ exists e', en_refs e' = en_refs e + 1 /\
    rg_entries r' = <[key := e']> (rg_entries r)) as (e & Hrefs & -> & Hnext & e' & He' & Hrg).
  { destruct (rg_entries r !! key) as [e|] eqn:Ek.
    - injection H as <- <-. exists e. destruct (Hr _ _ Ek) as [? _].
      split_and!; [done | done | done |]. eexists. split; [| reflexivity]. reflexivity.
    - destruct start as [u|]; simpl in H; [| done]. injection H as <- <-. exists new_entry.
      split_and!; [| done | done | eexists; split; [| reflexivity]; reflexivity]. simpl.
      assert (filter (fun h => h.1 = key) handles = ∅) as ->; [| by rewrite size_empty].
      apply set_eq. intros h. rewrite elem_of_filter. split; [| set_solver].
      intros [<- Hin]. destruct (He _ Hin) as [x Hx]. congruence. }
  split.
  - intros key' x. rewrite Hrg. intros Hx. apply lookup_insert_Some in Hx as [[<- <-]|[Hne Hx]].
    + rewrite filter_key_insert by done. rewrite He', Hrefs. lia.
    + rewrite filter_key_other by done. by apply Hr.
  - intros h Hh. rewrite Hrg. destruct (decide (h.1 = key)) as [->|Hne]; [by rewrite lookup_insert_eq |].
    rewrite lookup_insert_ne by done. apply He. set_solver.
  - intros h Hh. rewrite Hnext. apply elem_of_union in Hh as [->%elem_of_singleton|Hh]; simpl; [lia |].
    specialize (Hf _ Hh). lia.
Qed.

Lemma unsubscribe_registered (key : string) (id : positive) r handles : registered r handles -> (key, id) ∈ handles ->
  registered (unsubscribe key id r) (handles ∖ {[(key, id)]}) /\
  (rg_entries (unsubscribe key id r) !! key = None <-> filter (fun h => h.1 = key) (handles ∖ {[(key, id)]}) = ∅).
Proof.
  intros [Hr He Hf] Hin. unfold unsubscribe. destruct (He _ Hin) as [e Ek]. simpl in Ek. rewrite Ek.
  destruct (Hr _ _ Ek) as [Hrefs Hpos].
  assert (size (filter (fun h => h.1 = key) handles) =
    S (size (filter (fun h => h.1 = key) (handles ∖ {[(key, id)]})))) as Hsz.
  { rewrite <- (filter_key_insert key id) by set_solver. do 2 f_equal.
    rewrite <- union_difference_L by set_solver. done. }
  assert (forall key', key' <> key -> filter (fun h => h.1 = key') (handles ∖ {[(key, id)]}) =
    filter (fun h => h.1 = key') handles) as Hother.
  { intros key' Hne. apply set_eq. intros h. rewrite !elem_of_filter, elem_of_difference, elem_of_singleton.
    split; [naive_solver |]. intros [H1 H2]. split_and!; [done | done |]. intros ->. simpl in H1. congruence. }
  simpl. destruct (en_refs e - 1 =? 0) eqn:E0; bool_prop.
  - assert (filter (fun h => h.1 = key) (handles ∖ {[(key, id)]}) = ∅) as Hemp.
    { apply leibniz_equiv, size_empty_inv. lia. }
    split; [| by rewrite lookup_delete_eq]. split; simpl.
    + intros key' x Hx. apply lookup_delete_Some in Hx as [Hne Hx]. rewrite Hother by done. by apply Hr.
    + intros h Hh. destruct (decide (h.1 = key)) as [Heq|Hne].
      * exfalso. assert (h ∈ filter (fun h => h.1 = key) (handles ∖ {[(key, id)]})) as Hx by (by apply elem_of_filter).
        rewrite Hemp in Hx. set_solver.
      * rewrite lookup_delete_ne by done. apply He. set_solver.
    + intros h Hh. apply Hf. set_solver.
  - split.
    + split; simpl.
      * intros key' x Hx. apply lookup_insert_Some in Hx as [[<- <-]|[Hne Hx]]; simpl; [lia |].
        rewrite Hother by done. by apply Hr.
      * intros h Hh. destruct (decide (h.1 = key)) as [->|Hne]; [by rewrite lookup_insert_eq |].
        rewrite lookup_insert_ne by done. apply He. set_solver.
      * intros h Hh. apply Hf. set_solver.
    + rewrite lookup_insert_eq. split; [done |]. intros Hemp. rewrite Hemp, size_empty in Hsz. lia.
Qed.
End RegistryTheory.

(** ** Runs of the registry *)

Section Runs.
Context {D : DecimalOps}.

(** The registry next to the handles handed out and not yet cancelled. *)
Inductive reachable : Registry -> gset (string * positive) -> Prop :=
  | reach_init : reachable {| rg_entries := ∅; rg_nextID := 1 |} ∅
  | reach_subscribe start book res r hs id r' :
      reachable r hs -> SubscribeBars start book res r = (Ok id, r') ->
      reachable r' ({[(registry_key book res, id)]} ∪ hs)
  | reach_unsubscribe key id r hs :
      reachable r hs -> (key, id) ∈ hs -> reachable (unsubscribe key id r) (hs ∖ {[(key, id)]})
  | reach_forward key bar r hs :
      reachable r hs ->
      reachable {| rg_entries := alter (forward bar) key (rg_entries r); rg_nextID := rg_nextID r |} hs
  | reach_ended key r hs :
      reachable r hs ->
      reachable {| rg_entries := alter stream_ended key (rg_entries r); rg_nextID := rg_nextID r |} hs.

Lemma registered_alter (f : Entry -> Entry) key r hs : (forall e, en_refs (f e) = en_refs e) ->
  registered r hs -> registered {| rg_entries := alter f key (rg_entries r); rg_nextID := rg_nextID r |} hs.
Proof.
  intros Hf [Hr He Hn]. split; simpl; [| | done].
  - intros k x Hx. apply lookup_alter_Some in Hx as [(<- & y & Hy & ->) | [Hne Hx]]; [rewrite Hf |]; by apply Hr.
  - intros h Hh. destruct (He h Hh) as [x Hx]. destruct (decide (key = h.1)) as [->|Hne].
    + rewrite lookup_alter_eq, Hx. by eexists.
    + by rewrite lookup_alter_ne.
Qed.

Lemma reachable_registered r hs : reachable r hs -> registered r hs.
Proof.
  induction 1.
  - split; simpl; set_solver.
  - by eapply subscribe_registered.
  - by apply unsubscribe_registered.
  - by apply registered_alter.
  - by apply registered_alter.
Qed.

Lemma closer_loop_app (p : option Candle) es1 es2 : closer_loop p (es1 ++ es2) =
  let '(p1, o1) := closer_loop p es1 in let '(p2, o2) := closer_loop p1 es2 in (p2, o1 ++ o2).
Proof.
  revert p. induction es1 as [|e es1 IH]; intros p; cbn [app closer_loop]; [by destruct (closer_loop p es2) |].
  destruct (closer_entry p e) as [p1 o1]. rewrite IH. destruct (closer_loop p1 es1) as [p2 o2].
  destruct (closer_loop p2 es2). by rewrite app_assoc.
Qed.

(** Whatever the stream delivers, including replayed or out-of-order
    candles, the closed bars come out in strictly increasing time, so no bar
    is ever emitted twice. *)
Theorem bar_closer_increasing (es : list Candle) :
  StronglySorted Z.lt ((fun b => t_ns (bar_Time b)) <$> (closer_loop None es).2).
Proof.
  destruct es as [|e es]; [constructor |]. simpl.
  pose proof (closer_loop_increasing e es) as H. destruct (closer_loop (Some e) es). apply H.
Qed.

(** C9: on a stream in time order the closer emits exactly the final version
    of each candle, once superseded; a replay of older candles in the middle
    (the bootstrap resent on reconnect) leaves no trace. *)
Theorem bar_closer_refines (e : Candle) (es old es2 : list Candle) :
  Sorted (fun a b => start_of a <= start_of b) (e :: es ++ es2) ->
  Forall (fun x => start_of x < start_of (default e (last (e :: es)))) old ->
  (closer_loop None (e :: es ++ old ++ es2)).2 = BarFromCandle <$> finals (e :: es ++ es2).
Proof.
  intros Hs Hold. cbn [closer_loop closer_entry].
  assert (closer_loop (Some e) (es ++ old ++ es2) = closer_loop (Some e) (es ++ es2)) as ->.
  { assert (Sorted (fun a b => start_of a <= start_of b) (e :: es)) as Hs1.
    { rewrite app_comm_cons in Hs. revert Hs. generalize (e :: es). clear.
      intros l. induction l as [|a l IH]; intros H; [constructor |]. apply Sorted_inv in H as [H1 H2].
      constructor; [by apply IH |]. destruct l; [constructor | by inversion_clear H2; constructor]. }
    rewrite !closer_loop_app, (closer_loop_sorted e es Hs1).
    destruct (last (e :: es)) as [q|] eqn:El; [| by rewrite last_None in El].
    simpl in Hold. by rewrite closer_loop_stale. }
  by rewrite (closer_loop_sorted e (es ++ es2) Hs).
Qed.

(** Along any interleaving of subscriptions, cancellations and bars, a
    book's stream exists exactly while somebody holds an uncancelled
    subscription to it, and its reference count is their number. *)
Theorem registry_stream_lifetime (r : Registry) (hs : gset (string * positive)) :
  reachable r hs ->
  (forall key, is_Some (rg_entries r !! key) <-> exists id, (key, id) ∈ hs) /\
  (forall key e, rg_entries r !! key = Some e ->
    en_refs e = Z.of_nat (size (filter (fun h => h.1 = key) hs))).
Proof.
  intros H. apply reachable_registered in H as [Hr He _]. split; [| intros key e Hk; by apply Hr].
  intros key. split.
  - intros [e Hk]. destruct (Hr _ _ Hk) as [Hrefs Hpos].
    destruct (decide (filter (fun h => h.1 = key) hs = ∅)) as [Hemp|Hne].
    + rewrite Hemp, size_empty in Hrefs. lia.
    + apply set_choose_L in Hne as [[k i] Hin]. apply elem_of_filter in Hin as [Hk' Hin]. simpl in Hk'. subst.
      by exists i.
  - intros [id Hin]. by apply (He (key, id)).
Qed.

(** A subscriber that joins a running stream and keeps up receives the
    cached bars, the last [closedBarCacheCap] the stream produced, followed
    by every later bar: no gap and no duplicate at the join. *)
Theorem registry_subscriber_stream (start : result unit) (book res : string) (before after : list Bar)
    (n0 : positive) (id : positive) (r' : Registry) :
  valid_resolution res = true -> (length after <= subscriberChanBase)%nat ->
  let key := registry_key book res in
  let e0 := forward_all before new_entry in
  SubscribeBars start book res {| rg_entries := {[key := e0]}; rg_nextID := n0 |} = (Ok id, r') ->
  exists e1, rg_entries r' !! key = Some e1 /\
    en_cache e1 = lastn closedBarCacheCap before /\
    (ch_buf <$> en_subscribers (forward_all after e1) !! id)
      = Some (lastn closedBarCacheCap before ++ after).
Proof.
  intros Hv Hlen key e0 H. unfold SubscribeBars in H. rewrite Hv in H. simpl in H.
  fold key in H. rewrite lookup_singleton_eq in H. injection H as <- <-.
  eexists. simpl. split; [by rewrite lookup_insert_eq |].
  assert (en_cache e0 = lastn closedBarCacheCap before) as Hc.
  { exact (forward_all_cache before new_entry [] eq_refl). }
  split; [done |].
  rewrite (forward_all_chan after _ n0 {| ch_buf := en_cache e0; ch_cap := length (en_cache e0) + subscriberChanBase |}).
  - simpl. by rewrite Hc.
  - simpl. by rewrite lookup_insert_eq.
  - simpl. lia.
Qed.
End Runs.

(** ** Witnesses *)

Definition demo_candle (t : Z) (close : Z) : Candle (D := RefDec) := {|
  c_StartTimestamp := MkTime (t * Minute) 0;
  c_Open := RD close 0; c_High := RD close 0; c_Low := RD close 0; c_Close := RD close 0; c_Volume := RD 1 0;
  c_OpenYTM := RD 0 0; c_HighYTM := RD 0 0; c_LowYTM := RD 0 0; c_CloseYTM := RD 0 0 |}.

Lemma bar_closer_refines_witness :
  (closer_loop None (demo_candle 1 10 :: [demo_candle 1 11; demo_candle 2 12] ++ [demo_candle 1 10] ++ [demo_candle 3 13])).2
  = BarFromCandle <$> finals (demo_candle 1 10 :: [demo_candle 1 11; demo_candle 2 12] ++ [demo_candle 3 13]).
Proof.
  apply (bar_closer_refines (D := RefDec)).
  - repeat constructor; vm_compute; discriminate.
  - repeat constructor.
Defined.

Definition demo_registry : Registry (D := RefDec) := (SubscribeBars (Ok tt) "book" "1m" {| rg_entries := ∅; rg_nextID := 1 |}).2.

Lemma registry_stream_lifetime_witness :
  is_Some (rg_entries demo_registry !! registry_key "book" "1m").
Proof.
  apply (proj1 (registry_stream_lifetime (D := RefDec) demo_registry ({[(registry_key "book" "1m", 1%positive)]} ∪ ∅)
    (reach_subscribe (Ok tt) "book" "1m" _ ∅ 1 demo_registry reach_init eq_refl))).
  exists 1%positive. apply elem_of_union. left. by apply elem_of_singleton.
Defined.

Lemma registry_subscriber_stream_witness :
  let bars := BarFromCandle <$> [demo_candle 1 10; demo_candle 2 11] in
  exists e1, rg_entries (SubscribeBars (Ok tt) "book" "1m"
      {| rg_entries := {[registry_key "book" "1m" := forward_all bars new_entry]}; rg_nextID := 1 |}).2
      !! registry_key "book" "1m" = Some e1 /\
    en_cache e1 = lastn closedBarCacheCap bars /\
    (ch_buf <$> en_subscribers (forward_all (BarFromCandle <$> [demo_candle 3 12]) e1) !! 1%positive)
      = Some (lastn closedBarCacheCap bars ++ (BarFromCandle <$> [demo_candle 3 12])).
Proof.
  refine (registry_subscriber_stream (D := RefDec) (Ok tt) "book" "1m" _ _ 1 1 _ eq_refl _ eq_refl).
  simpl. unfold subscriberChanBase. lia.
Defined.
