(* ===== verification/Fred.v ===== *)
(** * fred: benchmark tenors and the cache of observations

    Tenor parsing and date normalisation of [benchmark.go], the series table
    of [tenor.go], and the in-memory cache of FRED observations that the
    spread strategies keep ([momentum/historical_data.go]): set, lookup by
    binary search, merge.

    Theory: the binary search finds the last observation on or before the
    day; merging keeps the cache strictly sorted and never changes an
    observation already cached. *)

From S2P Require Import Prelude GoTime Decimal RefDecimal.

(** The standard maturities; in the code, the constants of type [Tenor]. *)
Inductive Tenor :=
  | Tenor1Month | Tenor3Month | Tenor6Month | Tenor1Year | Tenor2Year | Tenor3Year
  | Tenor5Year | Tenor7Year | Tenor10Year | Tenor20Year | Tenor30Year.

#[export] Instance Tenor_eq_dec : EqDecision Tenor.
Proof. solve_decision. Defined.

Definition SeriesForTenor (t : Tenor) : string :=
  match t with
  | Tenor1Month => "DGS1MO" | Tenor3Month => "DGS3MO" | Tenor6Month => "DGS6MO"
  | Tenor1Year => "DGS1" | Tenor2Year => "DGS2" | Tenor3Year => "DGS3" | Tenor5Year => "DGS5"
  | Tenor7Year => "DGS7" | Tenor10Year => "DGS10" | Tenor20Year => "DGS20" | Tenor30Year => "DGS30"
  end.

Record BenchmarkTenor := { bt_Code : string; bt_Value : Tenor; bt_Aliases : list string }.

Definition benchmarkTenors : list BenchmarkTenor := [
  Build_BenchmarkTenor "1M" Tenor1Month ["1MO"; "1MON"; "1MONTH"];
  Build_BenchmarkTenor "3M" Tenor3Month ["3MO"; "3MON"; "3MONTH"];
  Build_BenchmarkTenor "6M" Tenor6Month ["6MO"; "6MON"; "6MONTH"];
  Build_BenchmarkTenor "1Y" Tenor1Year ["1YR"; "1YEAR"];
  Build_BenchmarkTenor "2Y" Tenor2Year ["2YR"; "2YEAR"];
  Build_BenchmarkTenor "3Y" Tenor3Year ["3YR"; "3YEAR"];
  Build_BenchmarkTenor "5Y" Tenor5Year ["5YR"; "5YEAR"];
  Build_BenchmarkTenor "7Y" Tenor7Year ["7YR"; "7YEAR"];
  Build_BenchmarkTenor "10Y" Tenor10Year ["10YR"; "10YEAR"];
  Build_BenchmarkTenor "20Y" Tenor20Year ["20YR"; "20YEAR"];
  Build_BenchmarkTenor "30Y" Tenor30Year ["30YR"; "30YEAR"] ].

(** ** Strings, for ASCII input *)

Definition ascii_code (a : Ascii.ascii) : Z := Z.of_nat (Ascii.nat_of_ascii a).
Definition is_space (a : Ascii.ascii) : bool :=
  let n := ascii_code a in (n =? 32) || ((9 <=? n) && (n <=? 13)).
Definition to_upper (a : Ascii.ascii) : Ascii.ascii :=
  let n := ascii_code a in
  if (97 <=? n) && (n <=? 122) then Ascii.ascii_of_nat (Z.to_nat (n - 32)) else a.

Fixpoint chars (s : string) : list Ascii.ascii :=
  match s with EmptyString => [] | String a r => a :: chars r end.
Fixpoint of_chars (l : list Ascii.ascii) : string :=
  match l with [] => EmptyString | a :: r => String a (of_chars r) end.

Fixpoint drop_spaces (l : list Ascii.ascii) : list Ascii.ascii :=
  match l with [] => [] | a :: r => if is_space a then drop_spaces r else l end.
Definition TrimSpace (l : list Ascii.ascii) : list Ascii.ascii :=
  reverse (drop_spaces (reverse (drop_spaces l))).
Definition remove_char (n : Z) (l : list Ascii.ascii) : list Ascii.ascii :=
  filter (fun a => ascii_code a <> n) l.
(** [strings.TrimSuffix(l, "S")] *)
Definition trim_S (l : list Ascii.ascii) : list Ascii.ascii :=
  match reverse l with
  | a :: r => if ascii_code a =? 83 then reverse r else l
  | [] => l
  end.

Definition NormalizeTenor (value : string) : string :=
  let n := to_upper <$> TrimSpace (chars value) in
  let n := remove_char 45 n in
  let n := remove_char 95 n in
  let n := remove_char 32 n in
  of_chars (trim_S n).

Definition ParseBenchmarkTenor (value : string) : result Tenor :=
  let normalised := NormalizeTenor value in
  match list_find (fun t => normalised = bt_Code t \/ normalised ∈ bt_Aliases t) benchmarkTenors with
  | Some (_, t) => Ok (bt_Value t)
  | None => Err (ErrMsg "unsupported tenor")
  end.

(** UTC midnight of the day. *)
Definition NormalizeDate (ts : Time) : Time := MkTime (t_ns ts / Day * Day) 0.

(** ** Binary search ([sort.Search]) *)

(** The smallest index in [lo, hi) satisfying [f], for a monotone [f]. *)
Fixpoint search_loop (fuel : nat) (f : nat -> bool) (lo hi : nat) : nat :=
  match fuel with
  | O => lo
  | S fuel' =>
      if (lo <? hi)%nat then
        let h := ((lo + hi) / 2)%nat in
        if negb (f h) then search_loop fuel' f (S h) hi else search_loop fuel' f lo h
      else lo
  end.

Definition sort_Search (n : nat) (f : nat -> bool) : nat := search_loop n f 0 n.

Lemma search_loop_spec fuel f lo hi : (hi - lo <= fuel)%nat -> (lo <= hi)%nat ->
  (forall i j, (i <= j)%nat -> f i = true -> f j = true) ->
  (forall i, (i < lo)%nat -> f i = false) ->
  (lo <= search_loop fuel f lo hi <= hi)%nat /\
  (forall i, (i < search_loop fuel f lo hi)%nat -> f i = false) /\
  (forall i, (search_loop fuel f lo hi <= i < hi)%nat -> f i = true).
Proof.
  intros Hf Hle Hmono. revert lo hi Hf Hle. induction fuel as [|fuel IH]; intros lo hi Hf Hle Hlo; cbn [search_loop].
  - split_and!; [lia | lia | done | intros i Hi; exfalso; lia].
  - destruct (lo <? hi)%nat eqn:E; bool_prop; [| split_and!; [lia | lia | done | intros i Hi; exfalso; lia]].
    pose proof (Nat.div_mod_eq (lo + hi) 2) as Hd. pose proof (Nat.mod_upper_bound (lo + hi) 2 ltac:(lia)).
    set (h := ((lo + hi) / 2)%nat) in *.
    destruct (f h) eqn:Fh; cbn [negb].
    + destruct (IH lo h ltac:(lia) ltac:(lia) Hlo) as ([? ?] & H2 & H3).
      split_and!; [lia | lia | done |]. intros i Hi.
      destruct (Nat.lt_ge_cases i h); [apply H3; lia | by apply (Hmono h i)].
    + destruct (IH (S h) hi ltac:(lia) ltac:(lia)) as ([? ?] & H2 & H3).
      * intros i Hi. destruct (f i) eqn:Fi; [| done]. rewrite (Hmono i h) in Fh; [done | lia | done].
      * split_and!; [lia | lia | done |]. intros i Hi. apply H3. lia.
Qed.

Section Cache.
Context {D : DecimalOps}.

Record Observation := { ob_Date : Time; ob_Yield : dec }.

Definition normalise_obs (o : Observation) : Observation :=
  {| ob_Date := NormalizeDate (ob_Date o); ob_Yield := ob_Yield o |}.

(** [setBenchmarkObservations]: the new cache. *)
Definition setBenchmarkObservations (obs : list Observation) : list Observation := normalise_obs <$> obs.

(** The observation [cachedBenchmarkYield] finds. *)
Definition cachedObservation (cache : list Observation) (ts : Time) : option Observation :=
  let target := NormalizeDate ts in
  match cache with
  | [] => None
  | _ =>
      let idx := sort_Search (length cache)
        (fun i => match cache !! i with Some o => time_after (ob_Date o) target | None => true end) in
      match idx with
      | O => None
      | S i => cache !! i
      end
  end.

Definition cachedBenchmarkYield (cache : list Observation) (ts : Time) : option dec :=
  ob_Yield <$> cachedObservation cache ts.

Definition date_le (a b : Observation) : Prop := t_ns (ob_Date a) <= t_ns (ob_Date b).
#[export] Instance date_le_dec a b : Decision (date_le a b).
Proof. unfold date_le. apply _. Defined.

(** The observations not yet in the cache, the first of each date. *)
Fixpoint append_new (cache : list Observation) (obs : list Observation) : list Observation :=
  match obs with
  | [] => cache
  | o :: rest =>
      if bool_decide (ob_Date o ∈ ob_Date <$> cache) then append_new cache rest
      else append_new (cache ++ [o]) rest
  end.

Definition mergeBenchmarkObservations (cache obs : list Observation) : list Observation :=
  let normalised := normalise_obs <$> obs in
  match cache with
  | [] => normalised
  | _ => merge_sort date_le (append_new cache normalised)
  end.

Definition latestCachedBenchmarkDate (cache : list Observation) : option Time := ob_Date <$> last cache.
End Cache.

(** ** The cache *)

Section CacheTheory.
Context {D : DecimalOps}.
Implicit Types (cache obs : list Observation) (o : Observation).

Lemma NormalizeDate_idem t : NormalizeDate (NormalizeDate t) = NormalizeDate t.
Proof. unfold NormalizeDate. simpl. f_equal. by rewrite Z.div_mul. Qed.

Lemma NormalizeDate_bounds t : t_ns (NormalizeDate t) <= t_ns t < t_ns (NormalizeDate t) + Day.
Proof.
  unfold NormalizeDate. simpl. pose proof (Z_div_mod_eq_full (t_ns t) Day).
  pose proof (Z.mod_pos_bound (t_ns t) Day ltac:(done)). lia.
Qed.

(** Days in strictly increasing order, all of them UTC midnights. *)
Definition day_sorted cache : Prop :=
  StronglySorted (fun a b => t_ns (ob_Date a) < t_ns (ob_Date b)) cache /\
  Forall (fun o => NormalizeDate (ob_Date o) = ob_Date o) cache.

Lemma sorted_lookup cache i j a b : StronglySorted (fun a b => t_ns (ob_Date a) < t_ns (ob_Date b)) cache ->
  cache !! i = Some a -> cache !! j = Some b -> (i < j)%nat -> t_ns (ob_Date a) < t_ns (ob_Date b).
Proof.
  intros Hs. revert i j. induction Hs as [|x l Hs IH HF]; intros [|i] [|j] Ha Hb Hij; try done; try lia.
  - injection Ha as <-. by apply (Forall_lookup_1 _ _ _ _ HF Hb).
  - apply (IH i j); [done | done | lia].
Qed.

(** The search splits the cache at the day. *)
Lemma cached_split cache ts : StronglySorted (fun a b => t_ns (ob_Date a) < t_ns (ob_Date b)) cache ->
  exists k, (k <= length cache)%nat /\
    (forall i o, cache !! i = Some o -> (i < k)%nat <-> t_ns (ob_Date o) <= t_ns (NormalizeDate ts)) /\
    cachedBenchmarkYield cache ts = match k with O => None | S i => ob_Yield <$> cache !! i end.
Proof.
  intros Hs.
  set (f := fun i => match cache !! i with Some o => time_after (ob_Date o) (NormalizeDate ts) | None => true end).
  assert (forall i j, (i <= j)%nat -> f i = true -> f j = true) as Hmono.
  { intros i j Hij. unfold f, time_after. destruct (cache !! j) as [b|] eqn:Ej; [| done].
    destruct (cache !! i) as [a|] eqn:Ei.
    - intros H. bool_prop. apply Z.ltb_lt. destruct (decide (i = j)) as [->|]; [congruence |].
      pose proof (sorted_lookup cache i j a b Hs Ei Ej ltac:(lia)). lia.
    - apply lookup_ge_None in Ei. pose proof (lookup_lt_Some _ _ _ Ej). lia. }
  destruct (search_loop_spec (length cache) f 0 (length cache) ltac:(lia) ltac:(lia) Hmono ltac:(lia)) as ([_ H1] & H2 & H3).
  exists (search_loop (length cache) f 0 (length cache)). split_and!; [done | |].
  - intros i o Hi. pose proof (lookup_lt_Some _ _ _ Hi) as Hlen. split; intros H.
    + specialize (H2 _ H). unfold f, time_after in H2. rewrite Hi in H2. by bool_prop.
    + destruct (Nat.lt_ge_cases i (search_loop (length cache) f 0 (length cache))) as [|Hge]; [done |].
      assert (f i = true) as Hf by (apply H3; lia). unfold f, time_after in Hf. rewrite Hi in Hf. bool_prop. lia.
  - unfold cachedBenchmarkYield, cachedObservation, sort_Search. fold f. destruct cache; [done |].
    by destruct (search_loop _ f 0 _).
Qed.

Lemma append_new_In cache obs o : o ∈ append_new cache obs -> o ∈ cache \/ o ∈ obs.
Proof.
  revert cache. induction obs as [|x obs IH]; intros cache H; simpl in H; [by left |].
  case_bool_decide; apply IH in H as [H|H].
  - by left.
  - right. by right.
  - apply elem_of_app in H as [H | ->%list_elem_of_singleton]; [by left | right; by left].
  - right. by right.
Qed.

Lemma append_new_old cache obs o : o ∈ cache -> o ∈ append_new cache obs.
Proof.
  revert cache. induction obs as [|x obs IH]; intros cache H; simpl; [done |].
  case_bool_decide; apply IH; [done |]. apply elem_of_app. by left.
Qed.

Lemma append_new_dates cache obs o : o ∈ obs -> ob_Date o ∈ ob_Date <$> append_new cache obs.
Proof.
  revert cache. induction obs as [|x obs IH]; intros cache H; [by apply elem_of_nil in H |]. simpl.
  apply elem_of_cons in H as [->|H]; case_bool_decide as Hd; [| | by apply IH..].
  - apply list_elem_of_fmap in Hd as (y & -> & Hy). apply list_elem_of_fmap_2. by apply append_new_old.
  - apply list_elem_of_fmap_2, append_new_old, elem_of_app. right. by left.
Qed.

Lemma append_new_NoDup cache obs : NoDup (ob_Date <$> cache) -> NoDup (ob_Date <$> append_new cache obs).
Proof.
  revert cache. induction obs as [|x obs IH]; intros cache H; simpl; [done |].
  case_bool_decide as Hd; apply IH; [done |]. rewrite fmap_app. apply NoDup_app.
  split_and!; [done | | apply NoDup_singleton]. intros d Hin ->%list_elem_of_singleton. done.
Qed.

Lemma midnight_inj (a b : Time) : NormalizeDate a = a -> NormalizeDate b = b -> t_ns a = t_ns b -> a = b.
Proof. intros <- <- H. unfold NormalizeDate in *. simpl in *. by rewrite H. Qed.

#[local] Instance date_le_total : Total date_le.
Proof. intros a b. unfold date_le. lia. Qed.
#[local] Instance date_le_trans : Transitive date_le.
Proof. intros a b c. unfold date_le. lia. Qed.

Lemma sorted_strict l : StronglySorted date_le l -> NoDup (ob_Date <$> l) ->
  Forall (fun o => NormalizeDate (ob_Date o) = ob_Date o) l -> day_sorted l.
Proof.
  intros Hs Hn Hm. split; [| done]. induction Hs as [|x l Hs IH HF]; [constructor |].
  rewrite fmap_cons in Hn. apply NoDup_cons in Hn as [Hni Hn]. inversion_clear Hm as [|? ? Hx Hm'].
  constructor; [by apply IH |]. apply Forall_forall. intros y Hy.
  pose proof (proj1 (Forall_forall _ _) HF y Hy) as Hle. unfold date_le in Hle.
  pose proof (proj1 (Forall_forall _ _) Hm' y Hy) as Hmy.
  destruct (decide (t_ns (ob_Date x) = t_ns (ob_Date y))) as [Heq|]; [| lia].
  exfalso. apply Hni. rewrite (midnight_inj _ _ Hx Hmy Heq). by apply list_elem_of_fmap_2.
Qed.

Lemma day_sorted_NoDup cache : day_sorted cache -> NoDup (ob_Date <$> cache).
Proof.
  intros [Hs _]. induction Hs as [|x l Hs IH HF]; [constructor |]. rewrite fmap_cons. apply NoDup_cons. split; [| done].
  intros (y & Heq & Hy)%list_elem_of_fmap. pose proof (proj1 (Forall_forall _ _) HF y Hy) as H. simpl in H.
  rewrite Heq in H. lia.
Qed.

(** The cache lookup returns the yield of the last observation dated on or
    before the (UTC) day asked for, and nothing exactly when every
    observation is later. *)
Theorem cached_yield_is_latest cache (ts : Time) :
  day_sorted cache ->
  match cachedBenchmarkYield cache ts with
  | Some y => exists i o, cache !! i = Some o /\ ob_Yield o = y /\ t_ns (ob_Date o) <= t_ns ts /\
      forall j o', cache !! j = Some o' -> t_ns (ob_Date o') <= t_ns ts -> (j <= i)%nat
  | None => forall o, o ∈ cache -> t_ns ts < t_ns (ob_Date o)
  end.
Proof.
  intros [Hs Hm]. destruct (cached_split cache ts Hs) as (k & Hk & Hsplit & ->).
  assert (forall i o, cache !! i = Some o -> t_ns (ob_Date o) <= t_ns ts <-> (i < k)%nat) as Hday.
  { intros i o Hi. rewrite (Hsplit i o Hi). pose proof (NormalizeDate_bounds ts) as [H1 H2].
    pose proof (Forall_lookup_1 _ _ _ _ Hm Hi) as Hn. split; [| lia]. intros H.
    rewrite <- Hn. unfold NormalizeDate. simpl. apply Z.mul_le_mono_nonneg_r; [done |].
    by apply Z.div_le_mono. }
  destruct k as [|k].
  - intros o [i Hi]%list_elem_of_lookup. apply Z.lt_nge. intros H. apply (Hday i o Hi) in H. lia.
  - destruct (lookup_lt_is_Some_2 cache k ltac:(lia)) as [o Ho]. rewrite Ho. simpl.
    exists k, o. split_and!; [done | done | apply (Hday k o Ho); lia |].
    intros j o' Hj H. apply (Hday j o' Hj) in H. lia.
Qed.

(** Merging freshly fetched observations into a non-empty cache keeps it
    strictly sorted by day, keeps every observation already cached, adds
    nothing but fetched ones and covers every fetched day. *)
Theorem merge_keeps_cache_sorted cache obs :
  day_sorted cache -> cache <> [] ->
  let cache' := mergeBenchmarkObservations cache obs in
  day_sorted cache' /\ (forall o, o ∈ cache -> o ∈ cache') /\
  (forall o, o ∈ cache' -> o ∈ cache \/ o ∈ normalise_obs <$> obs) /\
  (forall o, o ∈ obs -> NormalizeDate (ob_Date o) ∈ ob_Date <$> cache').
Proof.
  intros Hds Hne. unfold mergeBenchmarkObservations. destruct cache as [|c0 cache]; [done |].
  set (l := append_new (c0 :: cache) (normalise_obs <$> obs)).
  pose proof (merge_sort_Permutation date_le l) as Hp. cbv zeta. split_and!.
  - apply sorted_strict.
    + apply (StronglySorted_merge_sort date_le).
    + rewrite Hp. apply append_new_NoDup. by apply day_sorted_NoDup.
    + rewrite Hp. apply Forall_forall. intros o Ho. apply append_new_In in Ho as [Ho|Ho].
      * by apply (proj1 (Forall_forall _ _) (proj2 Hds)).
      * apply list_elem_of_fmap in Ho as (x & -> & _). apply NormalizeDate_idem.
  - intros o Ho. rewrite Hp. by apply append_new_old.
  - intros o Ho. rewrite Hp in Ho. by apply append_new_In.
  - intros o Ho. rewrite Hp. apply (append_new_dates _ _ (normalise_obs o)). by apply list_elem_of_fmap_2.
Qed.
End CacheTheory.

(** ** Witnesses *)

Definition demo_obs (d y : Z) : Observation (D := RefDec) := {| ob_Date := MkTime (d * Day) 0; ob_Yield := RD y 4 |}.
Definition demo_cache : list (Observation (D := RefDec)) := [demo_obs 10 425; demo_obs 12 430].

Lemma demo_cache_sorted : day_sorted demo_cache.
Proof. split; [repeat constructor | repeat constructor]. Defined.

Lemma cached_yield_is_latest_witness :
  match cachedBenchmarkYield demo_cache (MkTime (11 * Day + Hour) 0) with
  | Some y => exists i o, demo_cache !! i = Some o /\ ob_Yield o = y /\ t_ns (ob_Date o) <= 11 * Day + Hour /\
      forall j o', demo_cache !! j = Some o' -> t_ns (ob_Date o') <= 11 * Day + Hour -> (j <= i)%nat
  | None => forall o, o ∈ demo_cache -> 11 * Day + Hour < t_ns (ob_Date o)
  end.
Proof. exact (cached_yield_is_latest demo_cache (MkTime (11 * Day + Hour) 0) demo_cache_sorted). Defined.

Lemma merge_keeps_cache_sorted_witness :
  day_sorted (mergeBenchmarkObservations demo_cache [demo_obs 13 440; demo_obs 11 427]).
Proof. refine (proj1 (merge_keeps_cache_sorted demo_cache _ demo_cache_sorted _)). discriminate. Defined.

(** Parsing is insensitive to case, separators and a plural. *)
Example parse_tenor_forms :
  ParseBenchmarkTenor " 10-year " = Ok Tenor10Year /\ ParseBenchmarkTenor "1_Months" = Ok Tenor1Month /\
  is_ok (ParseBenchmarkTenor "4Y") = false.
Proof. split_and!; reflexivity. Qed.
