(* ===== verification/Momentum.v ===== *)
(** * strategy/momentum: the moving-average crossover strategy, live

    Configuration and decisions ([types.go]); sizing, exit bands, the signal
    and the live run of [strategy.go]: balances, resume anchor, opening and
    closing positions, the benchmark fetch and the [select] loop.

    The strategy struct is split by use: the indicators that [Update] feeds,
    the position, and the rest of the live state.

    Theory: bounds of the order size; the exit bands bracket the entry and
    the stop wins; closing leaves the strategy flat or changes nothing; the
    open signal always is the sign of the tracked position; a paused strategy
    sends no order. *)

From S2P Require Import Prelude GoTime Decimal RefDecimal Types Window Stats Market Replay Feed Fred.

Definition StrategyType : string := "momentum".
Definition SignalSourcePrice : string := "price".
Definition SignalSourceYTM : string := "ytm".
Definition SignalSourceSpread : string := "spread".
Definition ExitReasonStopLoss : string := "stop_loss".
Definition ExitReasonTakeProfit : string := "take_profit".
Definition ExitReasonReversal : string := "reversal".
Definition ExitReasonStrategyExit : string := "strategy_exit".
Definition DecisionReasonWarmingUp : string := "warming_up".
Definition DecisionReasonFlat : string := "flat".
Definition DecisionReasonMACrossoverUp : string := "ma_crossover_up".
Definition DecisionReasonMACrossoverDown : string := "ma_crossover_down".
Definition DecisionReasonVolumeNotConfirmed : string := "volume_not_confirmed".

Section Momentum.
Context {D : DecimalOps}.

Record Config := {
  SignalSource : string;
  FastWindow : Z;
  SlowWindow : Z;
  Resolution : string;
  ATRWindow : Z;
  VolumeAvgWindow : Z;
  VolumeRatioThreshold : dec;
  StopLossATR : dec;
  TakeProfitATR : dec;
  MinOrderSize : dec;
  MaxOrderSize : dec;
  MaxPositionSize : dec;
  OrderBookID : string;
  CfgTenor : string;
  InitialBalance : dec;
  Leverage : dec;
}.

Definition DefaultConfig : Config := {|
  SignalSource := SignalSourcePrice; FastWindow := 8; SlowWindow := 96; Resolution := "15m";
  ATRWindow := 24; VolumeAvgWindow := 20; VolumeRatioThreshold := done1;
  StopLossATR := dnew 20 0; TakeProfitATR := dzero; MinOrderSize := dzero; MaxOrderSize := dzero;
  MaxPositionSize := done1; OrderBookID := ""; CfgTenor := ""; InitialBalance := done1; Leverage := done1 |}.

Record Decision := {
  d_time : Time;
  d_bondID : string;
  d_price : dec;
  d_signal : Signal;
  d_positionSize : dec;
  d_reason : string;
  d_FastMA : dec;
  d_SlowMA : dec;
  d_ATR : dec;
  d_SeriesValue : dec;
  d_Trend : string;
}.

(** [NewExitDecision] *)
Definition NewExitDecision (signal : Signal) (price : dec) : Decision := {|
  d_time := zero_time; d_bondID := ""; d_price := price; d_signal := signal; d_positionSize := dzero;
  d_reason := ""; d_FastMA := dzero; d_SlowMA := dzero; d_ATR := dzero; d_SeriesValue := dzero; d_Trend := "" |}.

(** ** State *)

Record Ind := {
  fastWin : Rolling;
  slowWin : Rolling;
  atrWin : Rolling;
  volWin : option Rolling;
  lastPrice : dec;
}.

Record Pos := {
  bondQty : dec;
  usdBal : dec;
  openSignal : Signal;
  entryPrice : dec;
  entryATR : dec;
  balancesInitialized : bool;
}.

Record Live := {
  baseAssetID : string;
  collateralWeight : dec;
  benchmarkObservations : list Observation;
  lastBenchmarkFetchAt : Time;
  runID : string;
  paused : bool;
  cancelled : bool;
  decisionSeq : Z;
  errs : list error;
}.

Definition sourceSign (source : string) : dec :=
  if bool_decide (source = SignalSourcePrice) then done1 else dnew (-1) 0.

Definition set_Leverage (v : dec) (c : Config) : Config := {|
  SignalSource := SignalSource c; FastWindow := FastWindow c; SlowWindow := SlowWindow c;
  Resolution := Resolution c; ATRWindow := ATRWindow c; VolumeAvgWindow := VolumeAvgWindow c;
  VolumeRatioThreshold := VolumeRatioThreshold c; StopLossATR := StopLossATR c; TakeProfitATR := TakeProfitATR c;
  MinOrderSize := MinOrderSize c; MaxOrderSize := MaxOrderSize c; MaxPositionSize := MaxPositionSize c;
  OrderBookID := OrderBookID c; CfgTenor := CfgTenor c; InitialBalance := InitialBalance c; Leverage := v |}.

Definition set_InitialBalance (v : dec) (c : Config) : Config := {|
  SignalSource := SignalSource c; FastWindow := FastWindow c; SlowWindow := SlowWindow c;
  Resolution := Resolution c; ATRWindow := ATRWindow c; VolumeAvgWindow := VolumeAvgWindow c;
  VolumeRatioThreshold := VolumeRatioThreshold c; StopLossATR := StopLossATR c; TakeProfitATR := TakeProfitATR c;
  MinOrderSize := MinOrderSize c; MaxOrderSize := MaxOrderSize c; MaxPositionSize := MaxPositionSize c;
  OrderBookID := OrderBookID c; CfgTenor := CfgTenor c; InitialBalance := v; Leverage := Leverage c |}.

Definition zero_Pos : Pos := {|
  bondQty := dzero; usdBal := dzero; openSignal := SignalHold; entryPrice := dzero; entryATR := dzero;
  balancesInitialized := false |}.

Definition zero_Live : Live := {|
  baseAssetID := ""; collateralWeight := done1; benchmarkObservations := []; lastBenchmarkFetchAt := zero_time;
  runID := uuid_nil; paused := false; cancelled := false; decisionSeq := 0; errs := [] |}.

(** The windows [New] allocates. *)
Definition new_Ind (c : Config) : Ind := {|
  fastWin := NewRollingWindow (FastWindow c);
  slowWin := NewRollingWindow (SlowWindow c);
  atrWin := NewRollingWindow (ATRWindow c);
  volWin := if 0 <? VolumeAvgWindow c then Some (NewRollingWindow (VolumeAvgWindow c)) else None;
  lastPrice := dzero |}.

(** A zero leverage means 1. *)
Definition new_Config (c : Config) : Config := if d_is_zero (Leverage c) then set_Leverage done1 c else c.

(** ** Sizing *)

(** [Ok None] is [ok = false]: skip the order. *)
Definition cappedOrderQuantity (c : Config) (weight positionSize currentPosition price : dec) : result (option dec) :=
  if d_is_neg positionSize then Err (ErrMsg "position size must be non-negative") else
  if d_is_zero price then Err (ErrMsg "price is zero") else
  e0 ← dmul (InitialBalance c) weight;
  effectiveCapital ← dmul e0 (Leverage c);
  budget ← dmul effectiveCapital positionSize;
  if negb (d_is_pos budget) then Ok None else
  pv ← dmul currentPosition price;
  let positionValue := if d_is_neg pv then dzero else pv in
  if d_ge positionValue effectiveCapital then Ok None else
  remainingBudget ← dsub effectiveCapital positionValue;
  let budget := if d_gt budget remainingBudget then remainingBudget else budget in
  q ← dquo budget price;
  let quantity := if d_is_pos (MaxOrderSize c) && d_gt q (MaxOrderSize c) then MaxOrderSize c else q in
  if d_is_pos (MinOrderSize c) && d_lt quantity (MinOrderSize c) then Ok None
  else if d_is_zero quantity || d_is_neg quantity then Ok None
  else Ok (Some quantity).

(** ** Exits *)

(** [bandLevels]: stop and take-profit, each with its flag. *)
Definition bandLevels (c : Config) (sig : Signal) (entry atr : dec) : option dec * option dec :=
  if negb (d_is_pos atr) then (None, None) else
  let at_stop dist := match sig with
    | SignalBuy => dsub entry dist | SignalSell => dadd entry dist | SignalHold => Ok dzero end in
  let at_tp dist := match sig with
    | SignalBuy => dadd entry dist | SignalSell => dsub entry dist | SignalHold => Ok dzero end in
  let tp_level :=
    if d_is_pos (TakeProfitATR c) then
      match dmul (TakeProfitATR c) atr with
      | Err _ => None
      | Ok dist => match at_tp dist with Ok v => Some v | Err _ => None end
      end
    else None in
  if d_is_pos (StopLossATR c) then
    match dmul (StopLossATR c) atr with
    | Err _ => (None, None)
    | Ok dist => (match at_stop dist with Ok v => Some v | Err _ => None end, tp_level)
    end
  else (None, tp_level).

Definition stop_hit (sig : Signal) (stop : option dec) (price : dec) : bool :=
  match stop, sig with
  | Some l, SignalBuy => d_le price l
  | Some l, SignalSell => d_ge price l
  | _, _ => false
  end.

Definition tp_hit (sig : Signal) (tp : option dec) (price : dec) : bool :=
  match tp, sig with
  | Some l, SignalBuy => d_ge price l
  | Some l, SignalSell => d_le price l
  | _, _ => false
  end.

(** [bandExit]: the reason to exit, if any. *)
Definition bandExit (c : Config) (sig : Signal) (entry atr price : dec) : option string :=
  let '(stop, tp) := bandLevels c sig entry atr in
  if stop_hit sig stop price then Some ExitReasonStopLoss
  else if tp_hit sig tp price then Some ExitReasonTakeProfit
  else None.

Definition ShouldExit (c : Config) (sig : Signal) (d : Decision) (entry atr : dec) : option string :=
  match bandExit c sig entry atr (d_price d) with
  | Some reason => Some reason
  | None =>
      match sig, d_signal d with
      | SignalBuy, SignalSell => Some ExitReasonReversal
      | SignalSell, SignalBuy => Some ExitReasonReversal
      | _, _ => None
      end
  end.

(** ** The signal *)

(** [Ok None] drops the bar. *)
Definition seriesValue (c : Config) (bar : Bar) : result (option dec) :=
  if bool_decide (SignalSource c = SignalSourcePrice) then Ok (Some (bar_Close bar))
  else if d_is_zero (bar_CloseYTM bar) then Ok None
  else if bool_decide (SignalSource c = SignalSourceYTM) then Ok (Some (bar_CloseYTM bar))
  else spread ← dsub (bar_CloseYTM bar) (bar_BenchmarkYield bar); Ok (Some spread).

Definition on_atr (m : SE Rolling unit) : SE Ind unit := fun i =>
  let '(r, w) := m (atrWin i) in
  (r, {| fastWin := fastWin i; slowWin := slowWin i; atrWin := w; volWin := volWin i; lastPrice := lastPrice i |}).
Definition on_fast (m : SE Rolling unit) : SE Ind unit := fun i =>
  let '(r, w) := m (fastWin i) in
  (r, {| fastWin := w; slowWin := slowWin i; atrWin := atrWin i; volWin := volWin i; lastPrice := lastPrice i |}).
Definition on_slow (m : SE Rolling unit) : SE Ind unit := fun i =>
  let '(r, w) := m (slowWin i) in
  (r, {| fastWin := fastWin i; slowWin := w; atrWin := atrWin i; volWin := volWin i; lastPrice := lastPrice i |}).
Definition on_vol (m : SE Rolling unit) : SE Ind unit := fun i =>
  match volWin i with
  | None => (Ok tt, i)
  | Some v =>
      let '(r, w) := m v in
      (r, {| fastWin := fastWin i; slowWin := slowWin i; atrWin := atrWin i; volWin := Some w; lastPrice := lastPrice i |})
  end.
Definition set_lastPrice (p : dec) (i : Ind) : Ind := {|
  fastWin := fastWin i; slowWin := slowWin i; atrWin := atrWin i; volWin := volWin i; lastPrice := p |}.

(** The volume gate on a directional decision. *)
Definition volume_gate (c : Config) (vol : option Rolling) (bar : Bar) (d : Decision) : Decision :=
  match d_signal d, vol with
  | SignalHold, _ | _, None => d
  | _, Some v =>
      if negb (Ready v) then d
      else match dmul (VolumeRatioThreshold c) (Mean v) with
           | Err _ => d
           | Ok threshold =>
               if d_lt (bar_Volume bar) threshold then {|
                 d_time := d_time d; d_bondID := d_bondID d; d_price := d_price d; d_signal := SignalHold;
                 d_positionSize := d_positionSize d; d_reason := DecisionReasonVolumeNotConfirmed;
                 d_FastMA := d_FastMA d; d_SlowMA := d_SlowMA d; d_ATR := d_ATR d;
                 d_SeriesValue := d_SeriesValue d; d_Trend := "" |}
               else d
           end
  end.

(** Direction, trend label and reason from the signed spread of the means. *)
Definition crossover (ready : bool) (signed : dec) : Signal * string * string :=
  if negb ready then (SignalHold, ""%string, DecisionReasonWarmingUp)
  else match dcmp signed dzero with
       | Eq => (SignalHold, ""%string, DecisionReasonFlat)
       | Gt => (SignalBuy, "up"%string, DecisionReasonMACrossoverUp)
       | Lt => (SignalSell, "down"%string, DecisionReasonMACrossoverDown)
       end.

Definition dropped_decision (bar : Bar) : Decision := {|
  d_time := bar_Time bar; d_bondID := ""; d_price := bar_Close bar; d_signal := SignalHold;
  d_positionSize := dzero; d_reason := DecisionReasonWarmingUp;
  d_FastMA := dzero; d_SlowMA := dzero; d_ATR := dzero; d_SeriesValue := dzero; d_Trend := "" |}.

(** [Update] *)
Definition Update (c : Config) (assetID : string) (bar : Bar) : SE Ind Decision :=
  prevClose ← gets lastPrice;
  value ← lift (seriesValue c bar);
  match value with
  | None => mret (dropped_decision bar)
  | Some value =>
      tr ← lift (TrueRange bar prevClose);
      _ ← on_atr (Add tr);
      _ ← on_fast (Add value);
      _ ← on_slow (Add value);
      _ ← on_vol (Add (bar_Volume bar));
      _ ← modify (set_lastPrice (bar_Close bar));
      i ← gets id;
      let fastMA := Mean (fastWin i) in
      let slowMA := Mean (slowWin i) in
      diff ← lift (dsub fastMA slowMA);
      signed ← lift (dmul diff (sourceSign (SignalSource c)));
      let '(sig, trend, reason) := crossover (Ready (fastWin i) && Ready (slowWin i)) signed in
      mret (volume_gate c (volWin i) bar {|
        d_time := bar_Time bar; d_bondID := assetID; d_price := bar_Close bar; d_signal := sig;
        d_positionSize := MaxPositionSize c; d_reason := reason;
        d_FastMA := fastMA; d_SlowMA := slowMA; d_ATR := Mean (atrWin i); d_SeriesValue := value;
        d_Trend := trend |})
  end.

(** ** The live strategy *)

Context {W : Type} (E : Env W).

(** The FRED client, when configured, and the candle store's range. *)
Record MarketData := {
  FetchHistoricalYields : option (Tenor -> Time -> Time -> W -> result (list Observation) * W);
  CandleRange : option (string -> W -> result (option Time * option Time) * W);
}.
Context (MD : MarketData).

Record Strategy := MkStrategy { s_cfg : Config; s_ind : Ind; s_pos : Pos; s_live : Live; s_sys : Sys W }.

Definition upd_pos (f : Pos -> Pos) (s : Strategy) : Strategy :=
  MkStrategy (s_cfg s) (s_ind s) (f (s_pos s)) (s_live s) (s_sys s).
Definition upd_live (f : Live -> Live) (s : Strategy) : Strategy :=
  MkStrategy (s_cfg s) (s_ind s) (s_pos s) (f (s_live s)) (s_sys s).
Definition with_cfg (c : Config) (s : Strategy) : Strategy := MkStrategy c (s_ind s) (s_pos s) (s_live s) (s_sys s).
Definition with_ind (i : Ind) (s : Strategy) : Strategy := MkStrategy (s_cfg s) i (s_pos s) (s_live s) (s_sys s).
Definition with_sys (y : Sys W) (s : Strategy) : Strategy := MkStrategy (s_cfg s) (s_ind s) (s_pos s) (s_live s) y.

(** Run a call of the environment from a method. *)
Definition call {A} (m : ST (Sys W) A) : ST Strategy A := fun s =>
  let '(a, y) := m (s_sys s) in (a, with_sys y s).

Definition add_err (e : error) (l : Live) : Live := {|
  baseAssetID := baseAssetID l; collateralWeight := collateralWeight l;
  benchmarkObservations := benchmarkObservations l; lastBenchmarkFetchAt := lastBenchmarkFetchAt l;
  runID := runID l; paused := paused l; cancelled := cancelled l; decisionSeq := decisionSeq l;
  errs := errs l ++ [e] |}.
Definition set_seq (n : Z) (l : Live) : Live := {|
  baseAssetID := baseAssetID l; collateralWeight := collateralWeight l;
  benchmarkObservations := benchmarkObservations l; lastBenchmarkFetchAt := lastBenchmarkFetchAt l;
  runID := runID l; paused := paused l; cancelled := cancelled l; decisionSeq := n; errs := errs l |}.
Definition set_bench (obs : list Observation) (at_ : Time) (l : Live) : Live := {|
  baseAssetID := baseAssetID l; collateralWeight := collateralWeight l;
  benchmarkObservations := obs; lastBenchmarkFetchAt := at_;
  runID := runID l; paused := paused l; cancelled := cancelled l; decisionSeq := decisionSeq l; errs := errs l |}.
Definition set_control (p c : bool) (l : Live) : Live := {|
  baseAssetID := baseAssetID l; collateralWeight := collateralWeight l;
  benchmarkObservations := benchmarkObservations l; lastBenchmarkFetchAt := lastBenchmarkFetchAt l;
  runID := runID l; paused := p; cancelled := c; decisionSeq := decisionSeq l; errs := errs l |}.
Definition set_asset (a : string) (w : dec) (l : Live) : Live := {|
  baseAssetID := a; collateralWeight := w;
  benchmarkObservations := benchmarkObservations l; lastBenchmarkFetchAt := lastBenchmarkFetchAt l;
  runID := runID l; paused := paused l; cancelled := cancelled l; decisionSeq := decisionSeq l; errs := errs l |}.

Definition recordErr (e : error) : Strategy -> Strategy := upd_live (add_err e).

(** [New], on a fresh system *)
Definition New (c : Config) (y : Sys W) : Strategy :=
  let c := new_Config c in MkStrategy c (new_Ind c) zero_Pos zero_Live y.

(** *** Decisions *)

(** [recordDecision]; the row's run, sequence number, type and time are
    filled in here. *)
Definition recordDecision (mk : string -> Z -> Time -> DecisionRow) (s : Strategy) : Strategy :=
  match Records E with
  | None => s
  | Some save =>
      let seq := wrap64 (decisionSeq (s_live s) + 1) in
      let s1 := upd_live (set_seq seq) s in
      let '(now, s2) := call (time_now E) s1 in
      let d := mk (runID (s_live s)) seq now in
      let '(_, s3) := call (invoke (save d) (fun _ => [CallSaveDecision d])) s2 in s3
  end.

(** *** Positions *)

Definition currentPosition (assetID : string) : ST Strategy (result dec) := fun s =>
  if bool_decide (TrimSpace (chars assetID) = []) then (Err (ErrMsg "asset ID is required"), s)
  else
    let '(r, s1) := call (quiet (AssetPosition E assetID)) s in
    (result_map (fun '(long, short) =>
       if d_is_zero long && d_is_zero short then dzero
       else if d_is_zero short then long
       else dneg short) r, s1).

(** The position after a close. *)
Definition flatten (useTracked : bool) (p : Pos) : Pos := {|
  bondQty := if useTracked then dzero else bondQty p; usdBal := usdBal p;
  openSignal := SignalHold; entryPrice := dzero; entryATR := dzero;
  balancesInitialized := balancesInitialized p |}.

Definition position_for_orders (assetID : string) : ST Strategy (result dec) := fun s =>
  if balancesInitialized (s_pos s) then (Ok (bondQty (s_pos s)), s) else currentPosition assetID s.

Definition closePosition (assetID : string) : ST Strategy (result unit) := fun s =>
  let useTracked := balancesInitialized (s_pos s) in
  let '(q, s1) := position_for_orders assetID s in
  match q with
  | Err e => (Err e, s1)
  | Ok qty =>
      if d_is_zero qty then (Ok tt, upd_pos (flatten useTracked) s1)
      else
        let side := if d_is_neg qty then SIDE_BUY else SIDE_SELL in
        let closeQty := if d_is_neg qty then dneg qty else qty in
        let inverseLeverage := or_zero done1 (dquo done1 (Leverage (s_cfg s1))) in
        let '(clientOrderID, s2) := call (BuildClientOrderID E StrategyType (runID (s_live s1))) s1 in
        let '(res, s3) := call (create_market_order E {|
          or_OrderBookID := OrderBookID (s_cfg s1); or_Side := side; or_Quantity := closeQty;
          or_InverseLeverage := inverseLeverage; or_FromGlobalPosition := false;
          or_ClientOrderID := clientOrderID |}) s2 in
        match res with
        | Err err =>
            let '(live, s4) := currentPosition assetID s3 in
            match live with
            | Ok liveQty => if d_is_zero liveQty then (Ok tt, upd_pos (flatten useTracked) s4) else (Err err, s4)
            | Err _ => (Err err, s4)
            end
        | Ok _ =>
            let closeSignal := match side with SIDE_BUY => SignalBuy | SIDE_SELL => SignalSell end in
            let s4 := recordDecision (fun run seq now => {|
              dr_RunID := run; dr_Seq := seq; dr_StrategyType := StrategyType;
              dr_OrderBookID := OrderBookID (s_cfg s1); dr_Asset := MustParseUUID E assetID;
              dr_Side := Side_string side; dr_Signal := Signal_String closeSignal;
              dr_Quantity := closeQty; dr_Price := lastPrice (s_ind s1);
              dr_Leverage := Leverage (s_cfg s1); dr_InverseLeverage := inverseLeverage;
              dr_FromGlobalPosition := false; dr_Kind := DecisionKindClose; dr_Reason := "trend_exit";
              dr_CreatedAt := now; dr_ClientOrderID := clientOrderID |}) s3 in
            (Ok tt, upd_pos (flatten useTracked) s4)
        end
  end.

(** Tracked balances after an order, and the entry anchor. *)
Definition opened (side : Side) (sig : Signal) (quantity price atr : dec) (p : Pos) : Pos :=
  let useTracked := balancesInitialized p in
  let value := d_or_zero (dmul quantity price) in
  let qty := if useTracked then match side with
               | SIDE_BUY => d_or_zero (dadd (bondQty p) quantity)
               | SIDE_SELL => d_or_zero (dsub (bondQty p) quantity) end
             else bondQty p in
  let usd := if useTracked then match side with
               | SIDE_BUY => d_or_zero (dsub (usdBal p) value)
               | SIDE_SELL => d_or_zero (dadd (usdBal p) value) end
             else usdBal p in
  {| bondQty := qty; usdBal := usd;
     openSignal := if useTracked then signalFromBondQty qty else sig;
     entryPrice := price; entryATR := atr; balancesInitialized := balancesInitialized p |}.

Definition executeDecision (d : Decision) (assetID : string) : ST Strategy (result bool) := fun s =>
  match d_signal d with
  | SignalHold => (Ok false, s)
  | sig =>
      let '(q, s1) := position_for_orders assetID s in
      match q with
      | Err e => (Err e, s1)
      | Ok position =>
          let price := d_price d in
          if d_is_zero price then (Err (ErrMsg "cannot execute decision: price is zero"), s1) else
          match cappedOrderQuantity (s_cfg s1) (collateralWeight (s_live s1)) (d_positionSize d) position price with
          | Err e => (Err e, s1)
          | Ok None => (Ok false, s1)
          | Ok (Some quantity) =>
              if d_is_zero quantity then (Ok false, s1) else
              let side := if bool_decide (sig = SignalSell) then SIDE_SELL else SIDE_BUY in
              match dquo done1 (Leverage (s_cfg s1)) with
              | Err e => (Err (ErrWrap "compute inverse leverage" e), s1)
              | Ok inverseLeverage =>
                  let '(clientOrderID, s2) := call (BuildClientOrderID E StrategyType (runID (s_live s1))) s1 in
                  let '(res, s3) := call (create_market_order E {|
                    or_OrderBookID := OrderBookID (s_cfg s1); or_Side := side; or_Quantity := quantity;
                    or_InverseLeverage := inverseLeverage; or_FromGlobalPosition := false;
                    or_ClientOrderID := clientOrderID |}) s2 in
                  match res with
                  | Err e => (Err e, s3)
                  | Ok _ =>
                      let s4 := recordDecision (fun run seq now => {|
                        dr_RunID := run; dr_Seq := seq; dr_StrategyType := StrategyType;
                        dr_OrderBookID := OrderBookID (s_cfg s1); dr_Asset := MustParseUUID E assetID;
                        dr_Side := Side_string side; dr_Signal := Signal_String sig;
                        dr_Quantity := quantity; dr_Price := price;
                        dr_Leverage := Leverage (s_cfg s1); dr_InverseLeverage := inverseLeverage;
                        dr_FromGlobalPosition := false; dr_Kind := DecisionKindOpen;
                        dr_Reason := "ma_crossover_entry";
                        dr_CreatedAt := now; dr_ClientOrderID := clientOrderID |}) s3 in
                      (Ok true, upd_pos (opened side sig quantity price (d_ATR d)) s4)
                  end
              end
          end
      end
  end.

(** *** Balances at start *)

Definition set_qty (v : dec) (p : Pos) : Pos := {|
  bondQty := v; usdBal := usdBal p; openSignal := openSignal p; entryPrice := entryPrice p;
  entryATR := entryATR p; balancesInitialized := balancesInitialized p |}.
Definition set_usd (v : dec) (p : Pos) : Pos := {|
  bondQty := bondQty p; usdBal := v; openSignal := openSignal p; entryPrice := entryPrice p;
  entryATR := entryATR p; balancesInitialized := balancesInitialized p |}.
(** [balancesInitialized = true] with the signal of the position. *)
Definition mark_initialized (p : Pos) : Pos := {|
  bondQty := bondQty p; usdBal := usdBal p; openSignal := signalFromBondQty (bondQty p); entryPrice := entryPrice p;
  entryATR := entryATR p; balancesInitialized := true |}.

(** [initializeBalancesFromPortfolio]: [true] when the portfolio decided. *)
Definition initializeBalancesFromPortfolio (accounts : Accounts) (baseAssetID quoteAssetID : string)
    (fromGlobalPosition : bool) : ST Strategy bool := fun s =>
  match InitialBalancesFromPortfolio accounts fromGlobalPosition baseAssetID quoteAssetID with
  | Err e => (false, recordErr (ErrWrap "initialise balances" e) s)
  | Ok None => (false, s)
  | Ok (Some (bal, sig)) =>
      (true, with_cfg (set_InitialBalance (USD bal) (s_cfg s))
        (upd_pos (fun p => {| bondQty := Bond bal; usdBal := USD bal; openSignal := sig;
                              entryPrice := entryPrice p; entryATR := entryATR p;
                              balancesInitialized := balancesInitialized p |}) s))
  end.

Definition initializeBalances (baseID : string) (s : Strategy) : Strategy :=
  let '(quote, s1) := call (quiet (QuoteAssetID E (OrderBookID (s_cfg s)))) s in
  match quote with
  | Err e => recordErr (ErrWrap "initialise balances: get quote asset" e) s1
  | Ok quoteAssetID =>
      let '(portfolio, s2) := call (quiet (GetPortfolioV2 E)) s1 in
      let '(converged, s3) :=
        match portfolio with
        | Ok (Some accounts) => initializeBalancesFromPortfolio accounts baseID quoteAssetID false s2
        | _ => (false, s2)
        end in
      if converged then upd_pos (fun p => {|
        bondQty := bondQty p; usdBal := usdBal p; openSignal := openSignal p; entryPrice := entryPrice p;
        entryATR := entryATR p; balancesInitialized := true |}) s3
      else
        let '(bond, s4) := call (quiet (AssetPosition E baseID)) s3 in
        let s5 := match bond with
          | Err e => recordErr (ErrWrap "initialise balances: get bond position" e) s4
          | Ok (available, borrowed) =>
              upd_pos (set_qty (if negb (d_is_zero borrowed) then dneg borrowed else available)) s4
          end in
        let '(usd, s6) := call (quiet (AssetPosition E quoteAssetID)) s5 in
        let s7 := match usd with
          | Err e => recordErr (ErrWrap "initialise balances: get USD balance" e) s6
          | Ok (available, _) =>
              with_cfg (set_InitialBalance available (s_cfg s6)) (upd_pos (set_usd available) s6)
          end in
        upd_pos mark_initialized s7
  end.

(** An anchor for a position the run inherited. *)
Definition seedResumeAnchor (s : Strategy) : Strategy :=
  let p := s_pos s in
  if bool_decide (openSignal p = SignalHold) || negb (d_is_zero (entryPrice p)) || d_is_pos (entryATR p) then s
  else if d_is_zero (lastPrice (s_ind s)) || negb (Ready (atrWin (s_ind s))) then s
  else upd_pos (fun p => {|
    bondQty := bondQty p; usdBal := usdBal p; openSignal := openSignal p;
    entryPrice := lastPrice (s_ind s); entryATR := Mean (atrWin (s_ind s));
    balancesInitialized := balancesInitialized p |}) s.

(** *** The benchmark *)

Definition fetchMinInterval : Z := 5 * Minute.

Definition noteBenchmarkFetch (ts : Time) (s : Strategy) : Strategy :=
  upd_live (fun l => set_bench (benchmarkObservations l) ts l) s.

(** [getBenchmarkYield]; [None] is [ok = false]. *)
Definition getBenchmarkYield (ts : Time) : ST Strategy (option dec) := fun s =>
  let normedTS := NormalizeDate ts in
  let cache := benchmarkObservations (s_live s) in
  let cached := cachedBenchmarkYield cache ts in
  let fresh_enough := match cached, latestCachedBenchmarkDate cache with
    | Some _, Some latest => negb (time_before latest normedTS)
    | _, _ => false
    end in
  if fresh_enough then (cached, s)
  else
    let lastFetchedAt := lastBenchmarkFetchAt (s_live s) in
    if negb (time_is_zero lastFetchedAt) && (time_sub ts lastFetchedAt <? fetchMinInterval) then (cached, s)
    else match ParseBenchmarkTenor (CfgTenor (s_cfg s)) with
    | Err e => (cached, noteBenchmarkFetch ts (recordErr (ErrWrap "get benchmark yield: parse tenor" e) s))
    | Ok tenor =>
        match FetchHistoricalYields MD with
        | None =>
            (cached, noteBenchmarkFetch ts
               (recordErr (ErrWrap "get benchmark yield: get client"
                  (ErrMsg "benchmark yield client is not configured")) s))
        | Some fetch =>
            let start := time_add normedTS (- (10 * Day)) in
            let '(obs, s1) := call (quiet (fetch tenor start normedTS)) s in
            let s2 := noteBenchmarkFetch ts s1 in
            match obs with
            | Err e => (cached, recordErr (ErrWrap "get benchmark yield: fred fetch" e) s2)
            | Ok [] => (cached, s2)
            | Ok obs =>
                let s3 := upd_live (fun l =>
                  set_bench (mergeBenchmarkObservations (benchmarkObservations l) obs) (lastBenchmarkFetchAt l) l) s2 in
                match cachedBenchmarkYield (benchmarkObservations (s_live s3)) ts with
                | Some fresh => (Some fresh, s3)
                | None => (cached, s3)
                end
            end
        end
    end.

(** *** The loop *)

Inductive Event :=
  | EvCtxDone
  | EvMessage (m : Message)
  | EvBar (bar : Bar)
  | EvPrices (pxs : list AssetPrice)   (* in the order the map is iterated *)
  | EvTicker.

Definition windows_ready (i : Ind) : bool := Ready (fastWin i) && Ready (slowWin i).

(** An error of an order is recorded and the loop goes on. *)
Definition note_result {A} (r : result A) (s : Strategy) : Strategy :=
  match r with Ok _ => s | Err e => recordErr e s end.

Definition close_and_note (assetID : string) (s : Strategy) : Strategy :=
  let '(r, s1) := closePosition assetID s in note_result r s1.

(** [case bar := <-bars] after the benchmark is filled in. *)
Definition on_filled_bar (assetID : string) (bar : Bar) (s : Strategy) : Strategy :=
  let windowReadyBeforeUpdate := windows_ready (s_ind s) in
  let wasPaused := paused (s_live s) in
  let p := s_pos s in
  let '(r, ind) := Update (s_cfg s) (baseAssetID (s_live s)) bar (s_ind s) in
  let s1 := with_ind ind s in
  match r with
  | Err _ => s1
  | Ok decision =>
      let s2 := seedResumeAnchor s1 in
      if wasPaused then s2
      else if negb (bool_decide (openSignal p = SignalHold)) then
        if windowReadyBeforeUpdate then
          match ShouldExit (s_cfg s2) (openSignal p) decision (entryPrice p) (entryATR p) with
          | Some _ => close_and_note assetID s2
          | None => s2
          end
        else s2
      else if bool_decide (d_signal decision = SignalHold) then s2
      else let '(r2, s3) := executeDecision decision assetID s2 in note_result r2 s3
  end.

Definition on_bar (assetID : string) (bar : Bar) (s : Strategy) : Strategy :=
  if bool_decide (SignalSource (s_cfg s) = SignalSourceSpread) then
    let '(bench, s1) := getBenchmarkYield (time_add (bar_Time bar) (ResolutionDuration (Resolution (s_cfg s)))) s in
    match bench with
    | None => s1
    | Some y => on_filled_bar assetID (set_BenchmarkYield y bar) s1
    end
  else on_filled_bar assetID bar s.

(** One price of a tick batch. *)
Definition on_price (assetID : string) (s : Strategy) (px : AssetPrice) : Strategy :=
  if negb (bool_decide (px_AssetID px = assetID)) then s
  else
    let p := s_pos s in
    if paused (s_live s) || bool_decide (openSignal p = SignalHold) then s
    else match bandExit (s_cfg s) (openSignal p) (entryPrice p) (entryATR p) (px_Price px) with
         | Some _ => close_and_note assetID s
         | None => s
         end.

Definition handleMessage (m : Message) (s : Strategy) : Strategy :=
  match m with
  | Pause => upd_live (fun l => set_control true (cancelled l) l) s
  | Resume => upd_live (fun l => set_control false (cancelled l) l) s
  | Stop => upd_live (fun l => set_control (paused l) true l) s
  end.

(** One iteration of the [select]; [None] leaves the loop. *)
Definition loop_step (assetID : string) (ev : Event) (s : Strategy) : option Strategy :=
  match ev with
  | EvCtxDone => None
  | EvMessage m => Some (handleMessage m s)
  | EvBar bar => Some (on_bar assetID bar s)
  | EvPrices pxs => Some (foldl (on_price assetID) s pxs)
  | EvTicker => Some s
  end.

Fixpoint run_events (assetID : string) (evs : list Event) (s : Strategy) : Strategy :=
  match evs with
  | [] => s
  | ev :: rest => match loop_step assetID ev s with None => s | Some s' => run_events assetID rest s' end
  end.

(** [requireCandleCoverage]: best effort, unless the book has no candles. *)
Definition requireCandleCoverage (s : Strategy) : result unit * Strategy :=
  match CandleRange MD with
  | None => (Ok tt, s)
  | Some range =>
      let '(r, s1) := call (quiet (range (OrderBookID (s_cfg s)))) s in
      match r with
      | Ok (None, None) => (Err (ErrMsg "no candle data for order book"), s1)
      | _ => (Ok tt, s1)
      end
  end.

(** [run] up to the loop; [subscribe] is the outcome of [SubscribeBars]. *)
Definition run_setup (hasFeed : bool) (subscribe : result unit) (s : Strategy) : result string * Strategy :=
  let '(asset, s1) := call (LookupAssetID E (OrderBookID (s_cfg s))) s in
  match asset with
  | Err e => (Err (ErrWrap "error looking up asset ID" e), s1)
  | Ok assetID =>
      let s2 := upd_live (fun l => set_asset assetID (collateralWeight l) l) s1 in
      let '(w, s3) := call (quiet (AssetCollateralWeight E assetID)) s2 in
      let s4 := match w with
        | Err _ => s3
        | Ok weight => upd_live (fun l => set_asset (baseAssetID l) weight l) s3
        end in
      if negb hasFeed then (Err (ErrMsg "candle feed not configured"), s4) else
      let '(cov, s5) := requireCandleCoverage s4 in
      match cov with
      | Err e => (Err e, s5)
      | Ok _ =>
          match subscribe with
          | Err e => (Err (ErrWrap "failed to subscribe to bars" e), s5)
          | Ok _ => (Ok assetID, seedResumeAnchor (initializeBalances assetID s5))
          end
      end
  end.
End Momentum.

(** ** Theory: sizing *)

Section SizingTheory.
Context {D : DecimalOps} {L : DecimalLaws}.
Implicit Types (c : Config) (q v : dec).
#[local] Open Scope Q_scope.

(** An order quantity [cappedOrderQuantity] returns is positive, respects
    the configured minimum and maximum, and is only ever produced for a
    non-negative position size and a non-zero price. *)
Theorem capped_quantity_bounds c weight positionSize position price q :
  cappedOrderQuantity c weight positionSize position price = Ok (Some q) ->
  0 < dval q /\
  (0 < dval (MaxOrderSize c) -> dval q <= dval (MaxOrderSize c)) /\
  (0 < dval (MinOrderSize c) -> dval (MinOrderSize c) <= dval q) /\
  0 <= dval positionSize /\ ~ dval price == 0.
Proof.
  unfold cappedOrderQuantity. intros H.
  destruct (d_is_neg positionSize) eqn:Hn; [discriminate |].
  destruct (d_is_zero price) eqn:Hz; [discriminate |].
  apply d_is_neg_false in Hn. apply d_is_zero_false in Hz.
  apply result_bind_Ok in H as (e0 & _ & H). apply result_bind_Ok in H as (eff & _ & H).
  apply result_bind_Ok in H as (budget & _ & H).
  destruct (negb (d_is_pos budget)); [discriminate |].
  apply result_bind_Ok in H as (pv & _ & H).
  destruct (d_ge _ eff); [discriminate |].
  apply result_bind_Ok in H as (rem & _ & H). apply result_bind_Ok in H as (q0 & _ & H).
  match type of H with context [if ?b then MaxOrderSize c else q0] => destruct b eqn:Hb end;
    (match type of H with (if ?b then _ else _) = _ => destruct b eqn:Hm; [discriminate |] end;
     match type of H with (if ?b then _ else _) = _ => destruct b eqn:Hq; [discriminate |] end);
    injection H as <-; bool_prop;
    (assert (HMin : 0 < dval (MinOrderSize c) -> dval (MinOrderSize c) <= _) by
      (intros Hp; destruct Hm as [Hm|Hm];
       [apply d_is_pos_false in Hm; lra | apply d_lt_false in Hm; exact Hm]));
    repeat match goal with
    | H : d_is_zero _ = false |- _ => apply d_is_zero_false in H
    | H : d_is_neg _ = false |- _ => apply d_is_neg_false in H
    end; split_and!; try done; try lra; intros Hp.
  destruct Hb as [Hb|Hb]; [apply d_is_pos_false in Hb; lra | by apply d_gt_false in Hb].
Qed.
End SizingTheory.

Lemma capped_quantity_bounds_witness :
  let c := set_InitialBalance (D := RefDec) (RD 1000 0) DefaultConfig in
  cappedOrderQuantity c (RD 1 0) (RD 5 1) (RD 0 0) (RD 4 0) = Ok (Some (RD 1250000000000000000 16)) /\
  (0 < rval (RD 1250000000000000000 16))%Q.
Proof.
  cbv zeta.
  assert (cappedOrderQuantity (D := RefDec) (set_InitialBalance (D := RefDec) (RD 1000 0) DefaultConfig)
    (RD 1 0) (RD 5 1) (RD 0 0) (RD 4 0) = Ok (Some (RD 1250000000000000000 16))) as H by reflexivity.
  split; [exact H |].
  apply (capped_quantity_bounds (D := RefDec) _ _ _ _ _ _ H).
Defined.

Section ExactSizing.
#[local] Existing Instance QDec.
#[local] Open Scope Q_scope.
Implicit Types (c : Config) (q : Q).

(** Over exact arithmetic, what an order costs never exceeds the chosen
    share of the effective capital, and together with the value of the long
    position already held it never exceeds the effective capital itself:
    leverage is bounded no matter how often the strategy buys. *)
Theorem capped_quantity_exposure (c : Config (D := QDec)) (weight positionSize position price q : Q) :
  0 < price ->
  cappedOrderQuantity c weight positionSize position price = Ok (Some q) ->
  let capital := InitialBalance c * weight * Leverage c in
  q * price <= capital * positionSize /\ q * price + Qmax 0 (position * price) <= capital.
Proof.
  intros Hp H. cbv zeta. unfold cappedOrderQuantity in H.
  change (dmul (DecimalOps := QDec)) with (fun x y : Q => Ok (x * y)) in H.
  change (dsub (DecimalOps := QDec)) with (fun x y : Q => Ok (x - y)) in H.
  cbn [mbind result_bind] in H.
  set (eff := InitialBalance c * weight * Leverage c) in *.
  repeat match type of H with
  | (if ?b then _ else _) = _ => destruct b eqn:?; [discriminate |]
  end.
  set (pv := if d_is_neg (D := QDec) (position * price) then dzero (DecimalOps := QDec) else position * price) in *.
  assert (pv == Qmax 0 (position * price)) as Epv.
  { unfold pv, d_is_neg. simpl. destruct (Qcompare_spec (position * price) 0) as [E|E|E];
      [rewrite Q.max_r | rewrite Q.max_l | rewrite Q.max_r]; lra. }
  set (b := if d_gt (D := QDec) (eff * positionSize) (eff - pv) then eff - pv else eff * positionSize) in *.
  assert (b <= eff * positionSize /\ b <= eff - pv) as [B1 B2].
  { unfold b, d_gt. simpl. destruct (Qcompare_spec (eff * positionSize) (eff - pv)); lra. }
  unfold dquo in H; simpl in H.
  destruct (Qeq_bool price 0) eqn:Ez; [apply Qeq_bool_iff in Ez; lra |]. cbn [mbind result_bind] in H.
  set (q1 := if d_is_pos (D := QDec) (MaxOrderSize c) && d_gt (D := QDec) (b / price) (MaxOrderSize c)
    then MaxOrderSize c else b / price) in *.
  assert (q1 <= b / price) as Hq1.
  { unfold q1, d_is_pos, d_gt. simpl. destruct (_ ?= 0); simpl; try lra.
    destruct (Qcompare_spec (b / price) (MaxOrderSize c)); lra. }
  repeat match type of H with
  | (if ?b then _ else _) = _ => destruct b eqn:?; [discriminate |]
  end.
  injection H as <-.
  assert (q1 * price <= b) as Hc.
  { apply (Qmult_le_compat_r _ _ price) in Hq1; [| lra].
    assert (b / price * price == b) as Eb by (field; intros E; lra). rewrite Eb in Hq1. exact Hq1. }
  rewrite <- Epv. change (q1 * price <= eff * positionSize /\ q1 * price + pv <= eff).
  clearbody b pv q1 eff. split; lra.
Qed.
End ExactSizing.

Lemma capped_quantity_exposure_witness :
  exists q : Q, (q * 4 + Qmax 0 (2 * 4) <= 1000)%Q /\ (0 < q)%Q.
Proof.
  assert (cappedOrderQuantity (D := QDec) (set_InitialBalance (D := QDec) 1000%Q DefaultConfig) 1%Q (1 # 2)%Q 2%Q 4%Q
    = Ok (Some (1000 * 1 * 1 * (1 # 2) / 4)%Q)) as H by reflexivity.
  eexists. split; [| shelve].
  apply (capped_quantity_exposure _ 1%Q (1 # 2)%Q 2%Q 4%Q _ (eq_refl : (0 < 4)%Q) H).
  Unshelve. reflexivity.
Defined.

(** ** Theory: exits *)

Section BandTheory.
Context {D : DecimalOps} {L : DecimalLaws}.
Implicit Types (c : Config) (entry atr price l : dec).
#[local] Open Scope Q_scope.

(** The stop lies on the losing side of the entry, the take-profit on the
    winning side. *)
Lemma bandLevels_sides c sig entry atr stop tp :
  bandLevels c sig entry atr = (stop, tp) -> sig <> SignalHold ->
  (forall l, stop = Some l -> at_loss sig entry l) /\ (forall l, tp = Some l -> at_gain sig entry l).
Proof.
  unfold bandLevels. intros H Hs. destruct (d_is_pos atr) eqn:Ha; simpl in H;
    [| injection H as <- <-; done].
  apply d_is_pos_spec in Ha.
  assert (Htp : forall t l,
    (if d_is_pos (TakeProfitATR c) then
       match dmul (TakeProfitATR c) atr with
       | Err _ => None
       | Ok dist => match (match sig with SignalBuy => dadd entry dist | SignalSell => dsub entry dist
                           | SignalHold => Ok dzero end) with Ok v => Some v | Err _ => None end
       end else None) = t -> t = Some l -> at_gain sig entry l).
  { intros t l <- Ht. destruct (d_is_pos (TakeProfitATR c)) eqn:Hp; [| discriminate].
    apply d_is_pos_spec in Hp. destruct (dmul (TakeProfitATR c) atr) as [dist|] eqn:Em; [| discriminate Ht].
    apply dmul_nonneg in Em; [| lra..].
    destruct sig; [done | |]; simpl in *;
      [destruct (dadd entry dist) as [v|] eqn:Ev | destruct (dsub entry dist) as [v|] eqn:Ev];
      try discriminate; injection Ht as <-; [by eapply dadd_above | by eapply dsub_below]. }
  destruct (d_is_pos (StopLossATR c)) eqn:Hp.
  - apply d_is_pos_spec in Hp. destruct (dmul (StopLossATR c) atr) as [dist|] eqn:Em; [| injection H as <- <-; done].
    apply dmul_nonneg in Em; [| lra..]. injection H as Hst Ht. split; [| intros l; by apply Htp].
    intros l Hl. rewrite Hl in Hst. destruct sig; [done | |]; simpl in *;
      [destruct (dsub entry dist) as [v|] eqn:Ev | destruct (dadd entry dist) as [v|] eqn:Ev];
      try discriminate; injection Hst as <-; [by eapply dsub_below | by eapply dadd_above].
  - injection H as <- Ht. split; [done | intros l; by apply Htp].
Qed.

(** A band exit fires only on an open position, a stop-loss only at a
    price that is not a gain and a take-profit only at one that is not a
    loss. *)
Theorem band_exit_sides c sig entry atr price reason :
  bandExit c sig entry atr price = Some reason ->
  (reason = ExitReasonStopLoss /\ at_loss sig entry price) \/
  (reason = ExitReasonTakeProfit /\ at_gain sig entry price).
Proof.
  unfold bandExit. destruct (bandLevels c sig entry atr) as [stop tp] eqn:E. intros H.
  destruct (decide (sig = SignalHold)) as [->|Hs]; [by destruct stop, tp |].
  destruct (bandLevels_sides _ _ _ _ _ _ E Hs) as [Hst Ht].
  destruct (stop_hit sig stop price) eqn:Hh.
  - injection H as <-. left. split; [done |]. destruct stop as [l|]; [| by destruct sig].
    specialize (Hst l eq_refl). destruct sig; simpl in *; [done | |];
      [apply d_le_spec in Hh | apply d_ge_spec in Hh]; lra.
  - destruct (tp_hit sig tp price) eqn:Hh2; [| discriminate]. injection H as <-. right. split; [done |].
    destruct tp as [l|]; [| by destruct sig].
    specialize (Ht l eq_refl). destruct sig; simpl in *; [done | |];
      [apply d_ge_spec in Hh2 | apply d_le_spec in Hh2]; lra.
Qed.

(** Once the stop is hit it stays hit at every worse price, so a gap
    through the level cannot skip the exit. *)
Theorem stop_loss_gap c sig entry atr price price' :
  bandExit c sig entry atr price = Some ExitReasonStopLoss ->
  match sig with SignalBuy => dval price' <= dval price | _ => dval price <= dval price' end ->
  bandExit c sig entry atr price' = Some ExitReasonStopLoss.
Proof.
  unfold bandExit. destruct (bandLevels c sig entry atr) as [stop tp]. intros H Hp.
  destruct (stop_hit sig stop price) eqn:Hh.
  - assert (stop_hit sig stop price' = true) as ->; [| done].
    destruct stop, sig; simpl in *; try discriminate;
      [apply d_le_spec in Hh; apply d_le_spec | apply d_ge_spec in Hh; apply d_ge_spec]; lra.
  - destruct (tp_hit sig tp price); discriminate.
Qed.
End BandTheory.

Lemma band_exit_sides_witness :
  bandExit (D := RefDec) DefaultConfig SignalBuy (RD 100 0) (RD 1 0) (RD 79 0) = Some ExitReasonStopLoss /\
  at_loss (D := RefDec) SignalBuy (RD 100 0) (RD 79 0).
Proof.
  assert (bandExit (D := RefDec) DefaultConfig SignalBuy (RD 100 0) (RD 1 0) (RD 79 0) = Some ExitReasonStopLoss)
    as H by reflexivity.
  split; [exact H |].
  destruct (band_exit_sides (D := RefDec) _ _ _ _ _ _ H) as [[_ G]|[G _]]; [exact G | discriminate].
Defined.

Lemma stop_loss_gap_witness :
  bandExit (D := RefDec) DefaultConfig SignalBuy (RD 100 0) (RD 1 0) (RD 5 0) = Some ExitReasonStopLoss.
Proof.
  apply (stop_loss_gap (D := RefDec) DefaultConfig SignalBuy (RD 100 0) (RD 1 0) (RD 80 0) (RD 5 0));
    [reflexivity | vm_compute; discriminate].
Defined.

(** ** Theory: the live strategy *)

Section LiveTheory.
Context {D : DecimalOps} {L : DecimalLaws} {W : Type} (E : Env W) (MD : MarketData (W := W)).
Implicit Types (s : Strategy (W := W)) (p : Pos) (o : OrderRequest).

Definition orders s : list OrderRequest := orders_sent (sy_calls (s_sys s)).

(** What reading the environment and keeping logs leaves alone. *)
Record frame s s' : Prop := {
  fr_cfg : s_cfg s' = s_cfg s;
  fr_ind : s_ind s' = s_ind s;
  fr_pos : s_pos s' = s_pos s;
  fr_paused : paused (s_live s') = paused (s_live s);
  fr_orders : orders s' = orders s;
}.

#[export] Instance frame_preorder : PreOrder frame.
Proof.
  split; [done |]. intros s1 s2 s3 [? ? ? ? ?] [? ? ? ? ?]. split; congruence.
Qed.

Lemma frame_quiet {A} (op : W -> A * W) s : frame s (call (quiet op) s).2.
Proof.
  unfold call. pose proof (quiet_calls op (s_sys s)) as Hq. destruct (quiet op (s_sys s)) as [a y].
  simpl in Hq. split; simpl; try done. unfold orders; simpl. by rewrite Hq.
Qed.

Lemma frame_client_id n i s : frame s (call (BuildClientOrderID E n i) s).2.
Proof.
  unfold call. pose proof (BuildClientOrderID_calls E n i (s_sys s)) as Hq.
  destruct (BuildClientOrderID E n i (s_sys s)) as [a y].
  simpl in Hq. split; simpl; try done. unfold orders; simpl. by rewrite Hq.
Qed.

Lemma frame_live f s : paused (f (s_live s)) = paused (s_live s) -> frame s (upd_live f s).
Proof. intros H. by split. Qed.

Lemma frame_recordErr e s : frame s (recordErr e s).
Proof. by apply frame_live. Qed.

Lemma frame_bench ts s : frame s (noteBenchmarkFetch ts s).
Proof. by apply frame_live. Qed.

Lemma frame_recordDecision mk s : frame s (recordDecision E mk s).
Proof.
  unfold recordDecision. destruct (Records E) as [save|]; [| done]. simpl.
  unfold call, time_now, quiet, invoke. simpl.
  destruct (Now E _) as [t w]. simpl. destruct (save _ w) as [r w']. simpl.
  split; try done. unfold orders; simpl. by rewrite app_nil_r, orders_sent_app, app_nil_r.
Qed.

Lemma frame_currentPosition a s : frame s (currentPosition E a s).2.
Proof.
  unfold currentPosition. case_bool_decide; [done |].
  pose proof (frame_quiet (AssetPosition E a) s) as H1. by destruct (call _ s).
Qed.

Lemma frame_position a s : frame s (position_for_orders E a s).2.
Proof.
  unfold position_for_orders. destruct (balancesInitialized _); [done | apply frame_currentPosition].
Qed.

Lemma frame_getBenchmarkYield ts s : frame s (getBenchmarkYield MD ts s).2.
Proof.
  unfold getBenchmarkYield.
  match goal with |- context [if ?b then _ else _] => destruct b end; [done |].
  match goal with |- context [if ?b then _ else _] => destruct b end; [done |].
  destruct (ParseBenchmarkTenor _) as [tenor|e]; simpl; [| by split].
  destruct (FetchHistoricalYields MD) as [fetch|]; simpl; [| by split].
  pose proof (frame_quiet (fetch tenor (time_add (NormalizeDate ts) (-(10 * Day))) (NormalizeDate ts)) s) as H1.
  destruct (call _ s) as [[[|ob obs]|e] s1]; simpl in *; (etransitivity; [exact H1 |]);
    [by split | | by split].
  match goal with |- context [match ?b with Some _ => _ | None => _ end] => destruct b end; by split.
Qed.

(** Sending an order changes nothing else of the strategy. *)
Lemma send_order r s :
  let s' := (call (create_market_order E r) s).2 in
  s_cfg s' = s_cfg s /\ s_ind s' = s_ind s /\ s_pos s' = s_pos s /\
  paused (s_live s') = paused (s_live s) /\ orders s' = orders s ++ [r].
Proof.
  unfold call. pose proof (create_calls E r (s_sys s)) as Hc.
  destruct (create_market_order E r (s_sys s)) as [a y]; simpl in *.
  split_and!; try done. unfold orders; simpl. by rewrite Hc, orders_sent_app.
Qed.

(** The order that closes a position of quantity [q]. *)
Definition closing_order (q : dec) o : Prop :=
  or_Side o = (if d_is_neg q then SIDE_BUY else SIDE_SELL) /\
  or_Quantity o = (if d_is_neg q then dneg q else q).

(** A method that keeps the configuration and the pause flag. *)
Definition keeps s s' : Prop := s_cfg s' = s_cfg s /\ paused (s_live s') = paused (s_live s).

Lemma frame_keeps s s' : frame s s' -> keeps s s'.
Proof. intros [? ? ? ? ?]. by split. Qed.

Lemma closePosition_effect a s r s' : closePosition E a s = (r, s') ->
  keeps s s' /\
  ((r = Ok tt /\ s_pos s' = flatten (balancesInitialized (s_pos s)) (s_pos s)) \/
   (is_ok r = false /\ s_pos s' = s_pos s)) /\
  match (position_for_orders E a s).1 with
  | Err _ => orders s' = orders s
  | Ok q => if d_is_zero q then orders s' = orders s /\ r = Ok tt
            else exists o, orders s' = orders s ++ [o] /\ closing_order q o
  end.
Proof.
  unfold closePosition. pose proof (frame_position a s) as [F1 F2 F3 F4 F5].
  destruct (position_for_orders E a s) as [[q|e] s1]; simpl in *;
    [| intros [= <- <-]; split_and!; [by split | by right | done]].
  destruct (d_is_zero q) eqn:Hz.
  { intros [= <- <-]. unfold keeps. simpl. rewrite F3. split_and!; try done. by left. }
  pose proof (frame_client_id StrategyType (runID (s_live s1)) s1) as [G1 G2 G3 G4 G5].
  destruct (call (BuildClientOrderID E _ _) s1) as [cid s2]; simpl in *.
  match goal with |- context [create_market_order E ?rq] => set (r0 := rq) end.
  pose proof (send_order r0 s2) as (S1 & S2 & S3 & S4 & S5).
  destruct (call (create_market_order E r0) s2) as [[id|e] s3]; simpl in *.
  - intros [= <- <-].
    match goal with |- context [recordDecision E ?mk s3] =>
      pose proof (frame_recordDecision mk s3) as [R1 R2 R3 R4 R5]; set (s4 := recordDecision E mk s3) in * end.
    split_and!; [split; simpl; congruence | left; simpl; split; congruence |].
    exists r0. split; [| by split]. change (orders (upd_pos _ s4)) with (orders s4). congruence.
  - pose proof (frame_currentPosition a s3) as [C1 C2 C3 C4 C5].
    destruct (currentPosition E a s3) as [[live|e'] s4]; simpl in *.
    + destruct (d_is_zero live); intros [= <- <-];
        (split_and!; [split; simpl; congruence | | exists r0; split; [| by split];
          unfold orders in *; simpl; congruence]).
      * left; simpl; split; congruence.
      * right; split; [done | congruence].
    + intros [= <- <-]. split_and!; [split; simpl; congruence | right; split; [done | congruence] |].
      exists r0. split; [congruence | by split].
Qed.

Definition order_side (sig : Signal) : Side := if bool_decide (sig = SignalSell) then SIDE_SELL else SIDE_BUY.

(** Either nothing is sent and the position stays, or one order goes out for
    a quantity the sizing allows, and the position follows its acceptance. *)
Lemma executeDecision_effect d a s r s' : executeDecision E d a s = (r, s') ->
  keeps s s' /\
  ((orders s' = orders s /\ s_pos s' = s_pos s) \/
   exists position o,
     d_signal d <> SignalHold /\
     (position_for_orders E a s).1 = Ok position /\
     cappedOrderQuantity (s_cfg s) (collateralWeight (s_live (position_for_orders E a s).2))
       (d_positionSize d) position (d_price d) = Ok (Some (or_Quantity o)) /\
     or_Side o = order_side (d_signal d) /\ orders s' = orders s ++ [o] /\
     s_pos s' = if is_ok r then opened (or_Side o) (d_signal d) (or_Quantity o) (d_price d) (d_ATR d) (s_pos s)
                else s_pos s).
Proof.
  unfold executeDecision. intros H.
  assert (HH : d_signal d = SignalHold \/ d_signal d <> SignalHold) by (destruct (d_signal d); auto).
  destruct HH as [HH|HH]; [rewrite HH in H; injection H as <- <-; split; [by split | by left] |].
  assert (H' := H). clear H. pose proof (frame_position a s) as F. pose proof F as [F1 F2 F3 F4 F5].
  destruct (position_for_orders E a s) as [[q|e] s1] eqn:Hpos; simpl in F1, F2, F3, F4, F5, F;
    [| destruct (d_signal d); [done | |]; injection H' as <- <-; (split; [by apply frame_keeps | by left])].
  assert (Hskip : keeps s s1 /\ orders s1 = orders s /\ s_pos s1 = s_pos s) by (split; [by apply frame_keeps | done]).
  destruct Hskip as (K & Ho & Hp).
  destruct (d_is_zero (d_price d)) eqn:Hz; [destruct (d_signal d); [done | |]; injection H' as <- <-; auto |].
  destruct (cappedOrderQuantity _ _ _ _ _) as [[quantity|]|e] eqn:Hc;
    [| destruct (d_signal d); [done | |]; injection H' as <- <-; auto
     | destruct (d_signal d); [done | |]; injection H' as <- <-; auto].
  destruct (d_is_zero quantity) eqn:Hq; [destruct (d_signal d); [done | |]; injection H' as <- <-; auto |].
  destruct (dquo done1 (Leverage (s_cfg s1))) as [inv|e] eqn:Hi;
    [| destruct (d_signal d); [done | |]; injection H' as <- <-; auto].
  pose proof (frame_client_id StrategyType (runID (s_live s1)) s1) as [G1 G2 G3 G4 G5].
  destruct (call (BuildClientOrderID E _ _) s1) as [cid s2] eqn:Hcid; simpl in G1, G2, G3, G4, G5.
  assert (exists sig, sig = d_signal d /\ sig <> SignalHold /\
    (let '(res, s3) := call (create_market_order E {|
          or_OrderBookID := OrderBookID (s_cfg s1); or_Side := order_side sig; or_Quantity := quantity;
          or_InverseLeverage := inv; or_FromGlobalPosition := false; or_ClientOrderID := cid |}) s2 in
     match res with
     | Err e => (Err e, s3) = (r, s')
     | Ok _ => exists mk, (Ok true, upd_pos (opened (order_side sig) sig quantity (d_price d) (d_ATR d))
                 (recordDecision E mk s3)) = (r, s')
     end)) as (sig & -> & _ & H2).
  { destruct (d_signal d) eqn:Hsig; [done | |]; eexists; (split; [reflexivity | split; [done |]]);
      unfold order_side; destruct (call (create_market_order E _) s2) as [[id|e] s3]; try exact H';
      eexists; exact H'. }
  clear H'. match type of H2 with context [create_market_order E ?rq] => set (r0 := rq) in * end.
  pose proof (send_order r0 s2) as (S1 & S2 & S3 & S4 & S5).
  destruct (call (create_market_order E r0) s2) as [[id|e] s3]; simpl in S1, S2, S3, S4, S5.
  - destruct H2 as (mk & [= <- <-]).
    pose proof (frame_recordDecision mk s3) as [R1 R2 R3 R4 R5].
    split; [split; simpl; congruence |]. right. exists q, r0. simpl in *.
    split_and!; try done; [congruence | unfold orders in *; simpl; congruence | congruence].
  - injection H2 as <- <-. split; [split; congruence |]. right. exists q, r0. simpl in *.
    split_and!; try done; congruence.
Qed.

(** The tracked position and the open signal agree. *)
Definition consistent s : Prop :=
  balancesInitialized (s_pos s) = true /\ openSignal (s_pos s) = signalFromBondQty (bondQty (s_pos s)).

Lemma signal_of_zero q : d_is_zero q = true <-> signalFromBondQty q = SignalHold.
Proof.
  unfold signalFromBondQty, d_is_zero, d_is_pos, d_is_neg. by destruct (dcmp q dzero).
Qed.

Lemma consistent_pos s s' : s_pos s' = s_pos s -> consistent s -> consistent s'.
Proof. unfold consistent. by intros ->. Qed.

Lemma consistent_flat s s' : s_pos s' = flatten (balancesInitialized (s_pos s)) (s_pos s) ->
  consistent s -> consistent s'.
Proof.
  unfold consistent. intros -> [Hi Hs]. simpl. rewrite Hi. split; [done |].
  symmetry. apply signal_of_zero, d_is_zero_spec, dval_zero.
Qed.

Lemma consistent_opened s s' side sig q price a :
  s_pos s' = opened side sig q price a (s_pos s) -> consistent s -> consistent s'.
Proof. unfold consistent. intros -> [Hi Hs]. unfold opened; simpl. by rewrite Hi. Qed.

Lemma consistent_close a s : consistent s -> consistent (close_and_note E a s).
Proof.
  intros Hs. unfold close_and_note. destruct (closePosition E a s) as [r s1] eqn:Hc.
  apply closePosition_effect in Hc as (_ & [[-> Hp]|[Hr Hp]] & _); simpl.
  - by eapply consistent_flat.
  - destruct r; [done |]. simpl. by eapply consistent_pos.
Qed.

Lemma keeps_close a s : keeps s (close_and_note E a s).
Proof.
  unfold close_and_note. destruct (closePosition E a s) as [r s1] eqn:Hc.
  apply closePosition_effect in Hc as (K & _). by destruct r.
Qed.

(** What closing sends, for a consistent position. *)
Lemma orders_close a s : consistent s ->
  let p := s_pos s in
  orders (close_and_note E a s) = orders s /\ openSignal p = SignalHold \/
  exists o, orders (close_and_note E a s) = orders s ++ [o] /\ openSignal p <> SignalHold /\
    closing_order (bondQty p) o.
Proof.
  intros [Hi Hs]. unfold close_and_note. destruct (closePosition E a s) as [r s1] eqn:Hc.
  apply closePosition_effect in Hc as (_ & _ & Ho). unfold position_for_orders in Ho.
  rewrite Hi in Ho. simpl in Ho. destruct (d_is_zero (bondQty (s_pos s))) eqn:Hz.
  - left. destruct Ho as [Ho ->]. split; [done |]. rewrite Hs. by apply signal_of_zero.
  - destruct Ho as (o & Ho & Hco). right. exists o. split; [by destruct r |]. split; [| done].
    rewrite Hs. intros Hf%signal_of_zero. congruence.
Qed.

Lemma seedResumeAnchor_spec s :
  keeps s (seedResumeAnchor s) /\ orders (seedResumeAnchor s) = orders s /\
  openSignal (s_pos (seedResumeAnchor s)) = openSignal (s_pos s) /\
  bondQty (s_pos (seedResumeAnchor s)) = bondQty (s_pos s) /\
  balancesInitialized (s_pos (seedResumeAnchor s)) = balancesInitialized (s_pos s).
Proof.
  unfold seedResumeAnchor. case_match; [by split_and! |]. by case_match; split_and!.
Qed.

Lemma consistent_seed s : consistent s -> consistent (seedResumeAnchor s).
Proof.
  unfold consistent. pose proof (seedResumeAnchor_spec s) as (_ & _ & E1 & E2 & E3). by rewrite E1, E2, E3.
Qed.

(** What one event may send, given the position before it. *)
Definition allowed p (entries_ok : bool) (os : list OrderRequest) : Prop :=
  Forall (fun o => openSignal p <> SignalHold /\ closing_order (bondQty p) o) os \/
  exists o, os = [o] /\ openSignal p = SignalHold /\ (0 < dval (or_Quantity o))%Q /\ entries_ok = true.

(** A step that keeps the books consistent, respects [keeps] and sends only
    what is allowed. *)
Definition step_ok (entries_ok : bool) s s' : Prop :=
  consistent s' /\ s_cfg s' = s_cfg s /\
  exists os, orders s' = orders s ++ os /\ allowed (s_pos s) entries_ok os /\
    (paused (s_live s) = true -> os = []).

Lemma step_ok_quiet b s s' : consistent s' -> s_cfg s' = s_cfg s -> orders s' = orders s -> step_ok b s s'.
Proof.
  intros Hc Hcfg Ho. split_and!; [done.. |]. exists []. rewrite app_nil_r. split_and!; [done | | done].
  left. constructor.
Qed.

Lemma step_ok_close b a s s1 : consistent s1 -> keeps s s1 -> orders s1 = orders s ->
  openSignal (s_pos s1) = openSignal (s_pos s) -> bondQty (s_pos s1) = bondQty (s_pos s) ->
  paused (s_live s) = false -> step_ok b s (close_and_note E a s1).
Proof.
  intros Hc [K1 K2] Ho E1 E2 Hp. split; [by apply consistent_close |]. split.
  { destruct (keeps_close a s1) as [-> _]. done. }
  destruct (orders_close a s1 Hc) as [[Hq _]|(o & Hq & Hs & Hcl)].
  - exists []. rewrite app_nil_r. split_and!; [congruence | left; constructor | done].
  - exists [o]. rewrite Hq, Ho. split_and!; [done | left | congruence].
    constructor; [| constructor]. by rewrite <- E1, <- E2.
Qed.

Lemma on_filled_bar_ok a bar s : consistent s -> step_ok true s (on_filled_bar E a bar s).
Proof.
  intros Hc. unfold on_filled_bar. destruct (Update _ _ bar (s_ind s)) as [[d|e] ind] eqn:Hu;
    [| by apply step_ok_quiet].
  set (s1 := with_ind ind s). assert (consistent s1) as Hc1 by exact Hc.
  pose proof (seedResumeAnchor_spec s1) as ([K1 K2] & Ho & E1 & E2 & E3).
  apply consistent_seed in Hc1. set (s2 := seedResumeAnchor s1) in *.
  change (s_cfg s2 = s_cfg s) in K1. change (orders s2 = orders s) in Ho. clearbody s2.
  destruct (paused (s_live s)) eqn:Hp; [by apply step_ok_quiet |].
  case_bool_decide as Hopen; simpl.
  - case_bool_decide as Hd; [by apply step_ok_quiet |].
    destruct (executeDecision E d a s2) as [r s3] eqn:Hx.
    apply executeDecision_effect in Hx as ([X1 X2] & [[X3 X4]|(q & o & _ & _ & Hcap & Hside & X3 & X4)]).
    + assert (consistent s3) as Hc3 by (by eapply consistent_pos).
      destruct r; (apply step_ok_quiet; [exact Hc3 | simpl; congruence | unfold orders in *; simpl; congruence]).
    + assert (consistent s3) as Hc3.
      { destruct (is_ok r); [by eapply consistent_opened | by eapply consistent_pos]. }
      assert (step_ok true s s3) as Hok.
      { split; [done |]. split; [congruence |]. exists [o]. split_and!; [congruence | | congruence].
        right. exists o. split_and!; try done. by apply capped_quantity_bounds in Hcap as (? & _). }
      destruct r; [exact Hok |]. destruct Hok as (_ & ? & ?). by split.
  - destruct (windows_ready (s_ind s)); [| by apply step_ok_quiet].
    destruct (ShouldExit _ _ _ _ _); [| by apply step_ok_quiet].
    apply step_ok_close; try done.
Qed.

Lemma step_ok_frame b s s1 s2 : frame s s1 -> step_ok b s1 s2 -> step_ok b s s2.
Proof.
  intros [F1 F2 F3 F4 F5] (C & Hcfg & os & Ho & Ha & Hp). rewrite F3 in Ha. rewrite F4 in Hp.
  split; [done |]. split; [congruence |]. exists os. by rewrite <- F5.
Qed.

Lemma on_bar_ok a bar s : consistent s -> step_ok true s (on_bar E MD a bar s).
Proof.
  intros Hc. unfold on_bar. case_bool_decide; [| by apply on_filled_bar_ok].
  match goal with |- context [getBenchmarkYield MD ?t s] => pose proof (frame_getBenchmarkYield t s) as F;
    destruct (getBenchmarkYield MD t s) as [[y|] s1] end; simpl in F;
    (assert (consistent s1) by (eapply consistent_pos; [apply F | done])).
  - eapply step_ok_frame; [exact F |]. by apply on_filled_bar_ok.
  - destruct F. by apply step_ok_quiet.
Qed.

Lemma on_price_ok a px s : consistent s -> step_ok false s (on_price E a s px).
Proof.
  intros Hc. unfold on_price. destruct (negb _); [by apply step_ok_quiet |].
  destruct (paused (s_live s)) eqn:Hp; simpl; [by apply step_ok_quiet |].
  destruct (bool_decide _); [by apply step_ok_quiet |].
  destruct (bandExit _ _ _ _ _); [| by apply step_ok_quiet]. by apply step_ok_close.
Qed.

Lemma on_price_pos a px s :
  keeps s (on_price E a s px) /\
  (s_pos (on_price E a s px) = s_pos s \/ openSignal (s_pos (on_price E a s px)) = SignalHold).
Proof.
  unfold on_price. destruct (negb _); [split; [by split | by left] |].
  destruct (_ || _); [split; [by split | by left] |].
  destruct (bandExit _ _ _ _ _); [| split; [by split | by left]].
  split; [apply keeps_close |]. unfold close_and_note. destruct (closePosition E a s) as [r s1] eqn:Hc.
  apply closePosition_effect in Hc as (_ & [[-> Hp]|[Hr Hp]] & _); simpl; [right; by rewrite Hp | left].
  by destruct r.
Qed.

(** A whole tick batch closes the position it found, or nothing. *)
Lemma on_prices_ok a pxs s0 s :
  consistent s -> keeps s0 s ->
  (s_pos s = s_pos s0 \/ openSignal (s_pos s) = SignalHold) ->
  let s' := foldl (on_price E a) s pxs in
  consistent s' /\ s_cfg s' = s_cfg s0 /\
  exists os, orders s' = orders s ++ os /\
    Forall (fun o => openSignal (s_pos s0) <> SignalHold /\ closing_order (bondQty (s_pos s0)) o) os /\
    (paused (s_live s0) = true -> os = []).
Proof.
  revert s. induction pxs as [|px pxs IH]; intros s Hc [K1 K2] Hp; simpl.
  { split_and!; [done.. |]. exists []. by rewrite app_nil_r. }
  pose proof (on_price_ok a px s Hc) as (C & Hcfg & os & Ho & Ha & Hz).
  pose proof (on_price_pos a px s) as ([P1 P2] & P3).
  destruct (IH (on_price E a s px)) as (C' & Hcfg' & os' & Ho' & Ha' & Hz'); try done.
  { split; congruence. }
  { destruct P3 as [->|P3]; [done | by right]. }
  split_and!; [done.. |]. exists (os ++ os'). rewrite Ho', Ho, app_assoc. split_and!; [done | |].
  - apply Forall_app. split; [| done]. destruct Ha as [Ha|(o & _ & _ & _ & [=])].
    destruct Hp as [Hp|Hp]; [by rewrite Hp in Ha |].
    eapply Forall_impl; [exact Ha |]. intros o [? _]. congruence.
  - intros Hpa. rewrite Hz, Hz' by congruence. done.
Qed.

Definition is_bar (ev : Event) : bool := match ev with EvBar _ => true | _ => false end.

(** C3: one iteration of the live loop on a strategy with tracked balances:
    the open signal stays the sign of the tracked position; whatever is sent
    either closes the whole open position (opposite side, full quantity), or
    is a single opening order of positive quantity, sent only on a bar and
    only when flat; a paused strategy sends nothing at all. *)
Theorem loop_step_orders a ev s s' :
  consistent s -> loop_step E MD a ev s = Some s' ->
  consistent s' /\ s_cfg s' = s_cfg s /\
  exists os, orders s' = orders s ++ os /\ allowed (s_pos s) (is_bar ev) os /\
    (paused (s_live s) = true -> os = []).
Proof.
  intros Hc. destruct ev as [|m|bar|pxs|]; simpl; intros [= <-].
  - apply step_ok_quiet; by destruct m.
  - by apply on_bar_ok.
  - destruct (on_prices_ok a pxs s s Hc) as (C & Hcfg & os & Ho & Ha & Hp); [by split | by left |].
    split_and!; [done.. |]. exists os. split_and!; [done | by left | done].
  - by apply step_ok_quiet.
Qed.

Lemma run_events_invariant (P : Strategy -> Prop) a evs s :
  (forall ev s1 s2, loop_step E MD a ev s1 = Some s2 -> P s1 -> P s2) -> P s -> P (run_events E MD a evs s).
Proof.
  intros HP. revert s. induction evs as [|ev evs IH]; intros s Hs; simpl; [done |].
  destruct (loop_step E MD a ev s) as [s'|] eqn:Hl; [| done]. by eapply IH, HP.
Qed.

(** Balances are either untracked or consistent with the open signal. *)
Definition settled s : Prop :=
  balancesInitialized (s_pos s) = true -> openSignal (s_pos s) = signalFromBondQty (bondQty (s_pos s)).

Lemma settled_pos s s' : s_pos s' = s_pos s -> settled s -> settled s'.
Proof. unfold settled. by intros ->. Qed.

Lemma initializeBalances_settled baseID s : balancesInitialized (s_pos s) = false -> settled (initializeBalances E baseID s).
Proof.
  intros Hi. unfold initializeBalances.
  pose proof (frame_quiet (QuoteAssetID E (OrderBookID (s_cfg s))) s) as [_ _ F1 _ _].
  destruct (call _ s) as [[quote|e] s1]; simpl in *; [| unfold settled; simpl; congruence].
  pose proof (frame_quiet (GetPortfolioV2 E) s1) as [_ _ F2 _ _].
  destruct (call (quiet (GetPortfolioV2 E)) s1) as [portfolio s2]; simpl in *.
  match goal with |- context [let '(converged, s3) := ?x in _] => destruct x as [converged s3] eqn:Hcv end.
  destruct converged.
  - destruct portfolio as [[accounts|]|]; try discriminate. unfold initializeBalancesFromPortfolio in Hcv.
    destruct (InitialBalancesFromPortfolio _ _ _ _) as [[[bal sig]|]|e] eqn:Hb; [| discriminate..].
    injection Hcv as <-. intros _. simpl.
    unfold InitialBalancesFromPortfolio in Hb. destruct accounts; [discriminate |].
    destruct (wrap_err _ _) as [[b|]|]; simpl in Hb; [| discriminate..]. by injection Hb as <- <-.
  - destruct (call (quiet (AssetPosition E baseID)) s3) as [bond s4].
    match goal with |- context [call (quiet (AssetPosition E quote)) ?x] => set (s5 := x) end.
    destruct (call (quiet (AssetPosition E quote)) s5) as [usd s6]. by intros _.
Qed.

(** A fresh strategy whose setup succeeds, over any sequence of events:
    if the setup managed to initialise the balances, the open signal is the
    sign of the tracked bond quantity at every later moment, and the
    configuration is that of the setup. *)
Theorem run_position_signal c y hasFeed sub assetID s evs :
  run_setup E MD hasFeed sub (New c y) = (Ok assetID, s) ->
  balancesInitialized (s_pos s) = true ->
  consistent (run_events E MD assetID evs s) /\ s_cfg (run_events E MD assetID evs s) = s_cfg s.
Proof.
  intros H Hi.
  assert (settled s) as Hs.
  { unfold run_setup in H.
    assert (forall s0, frame s0 (call (LookupAssetID E (OrderBookID (s_cfg s0))) s0).2) as FL.
    { intros s0. unfold call, LookupAssetID. destruct (bool_decide _); [by destruct s0; split |].
      pose proof (frame_quiet (BaseAssetID E (OrderBookID (s_cfg s0))) s0) as F. unfold call in F.
      destruct (quiet _ _) as [[a|e] y']; [| exact F]. destruct (bool_decide _); exact F. }
    specialize (FL (New c y)) as [_ _ F1 _ _].
    destruct (call _ (New c y)) as [[asset|e] s1]; [| discriminate]. simpl in F1.
    match type of H with context [call (quiet (AssetCollateralWeight E asset)) ?x] => set (s2 := x) in * end.
    pose proof (frame_quiet (AssetCollateralWeight E asset) s2) as [_ _ F2 _ _].
    destruct (call _ s2) as [w s3]; simpl in F2.
    match type of H with context [requireCandleCoverage MD ?x] => set (s4 := x) in * end.
    assert (s_pos s4 = zero_Pos) as F4 by (unfold s4; destruct w; simpl; rewrite F2; exact F1).
    destruct (negb hasFeed); [discriminate |].
    assert (s_pos (requireCandleCoverage MD s4).2 = zero_Pos) as F5.
    { unfold requireCandleCoverage. destruct (CandleRange MD) as [range|]; [| exact F4].
      pose proof (frame_quiet (range (OrderBookID (s_cfg s4))) s4) as [_ _ F _ _].
      destruct (call _ s4) as [[[[t|] [t'|]]|e] s5]; simpl in *; congruence. }
    destruct (requireCandleCoverage MD s4) as [[u|e] s5]; [| discriminate]. simpl in F5.
    destruct sub; [| discriminate]. injection H as <- <-.
    assert (settled (initializeBalances E asset s5)) as G by (apply initializeBalances_settled; by rewrite F5).
    unfold settled in *. pose proof (seedResumeAnchor_spec (initializeBalances E asset s5)) as (_ & _ & E1 & E2 & E3).
    by rewrite E1, E2, E3. }
  apply (run_events_invariant (fun s' => consistent s' /\ s_cfg s' = s_cfg s)).
  - intros ev s1 s2 Hl [Hc Hcfg].
    destruct ev as [|m|bar|pxs|]; simpl in Hl; try discriminate Hl; injection Hl as <-.
    + split; [by destruct m | by destruct m].
    + destruct (on_bar_ok assetID bar s1 Hc) as (? & ? & _). split; [done | congruence].
    + destruct (on_prices_ok assetID pxs s1 s1 Hc) as (? & ? & _); [by split | by left |]. split; [done | congruence].
    + done.
  - split; [split; [done | by apply Hs] | done].
Qed.

(** Closing a tracked position sends no order when it is zero and
    otherwise exactly one, whose signed quantity offsets the position; on
    success the strategy is flat with no anchor and nothing tracked, on
    failure the position is left exactly as it was, to be closed again. *)
Theorem close_position_outcome a s r s' :
  consistent s -> closePosition E a s = (r, s') ->
  let q := bondQty (s_pos s) in
  (d_is_zero q = true -> orders s' = orders s /\ r = Ok tt) /\
  (d_is_zero q = false -> exists o, orders s' = orders s ++ [o] /\
     (0 < dval (or_Quantity o))%Q /\
     (match or_Side o with SIDE_BUY => dval (or_Quantity o) | SIDE_SELL => - dval (or_Quantity o) end
      == - dval q)%Q) /\
  (r = Ok tt -> openSignal (s_pos s') = SignalHold /\ bondQty (s_pos s') = dzero /\
     entryPrice (s_pos s') = dzero /\ entryATR (s_pos s') = dzero) /\
  (is_ok r = false -> s_pos s' = s_pos s).
Proof.
  intros [Hi Hs] H. apply closePosition_effect in H as (_ & Hout & Ho).
  unfold position_for_orders in Ho. rewrite Hi in Ho, Hout. simpl in Ho. cbv zeta. split_and!.
  - intros Hz. by rewrite Hz in Ho.
  - intros Hz. rewrite Hz in Ho. destruct Ho as (o & Ho & Hside & Hq). exists o.
    apply d_is_zero_false in Hz. rewrite Hside, Hq. split; [done |].
    destruct (d_is_neg (bondQty (s_pos s))) eqn:Hn;
      [apply d_is_neg_spec in Hn | apply d_is_neg_false in Hn]; rewrite ?dval_neg; split; lra.
  - intros ->. destruct Hout as [[_ ->]|[[=] _]]. done.
  - intros Hr. destruct Hout as [[-> _]|[_ Hp]]; [done | done].
Qed.
End LiveTheory.

(** ** Witnesses *)

Definition one_bar_config : Config (D := RefDec) := {|
  SignalSource := SignalSourcePrice; FastWindow := 1; SlowWindow := 1; Resolution := "15m";
  ATRWindow := 1; VolumeAvgWindow := 0; VolumeRatioThreshold := RD 1 0;
  StopLossATR := RD 20 0; TakeProfitATR := RD 0 0; MinOrderSize := RD 0 0; MaxOrderSize := RD 0 0;
  MaxPositionSize := RD 1 0; OrderBookID := "book"; CfgTenor := ""; InitialBalance := RD 1000 0; Leverage := RD 1 0 |}.

Definition no_data : MarketData (D := RefDec) (W := nat) := {| FetchHistoricalYields := None; CandleRange := None |}.

Definition flat_bar (p : Z) : Bar (D := RefDec) := {|
  bar_Time := MkTime (1000 * Day) 0; bar_Open := RD p 0; bar_High := RD p 0; bar_Low := RD p 0; bar_Close := RD p 0;
  bar_Volume := RD 1 0; bar_OpenYTM := RD 0 0; bar_HighYTM := RD 0 0; bar_LowYTM := RD 0 0;
  bar_CloseYTM := RD 0 0; bar_BenchmarkYield := RD 0 0 |}.

(** Long ten bonds bought at 100 with an ATR of 1. *)
Definition long_ten : Strategy (D := RefDec) (W := nat) :=
  let s := New one_bar_config (MkSys 0%nat []) in
  upd_pos (fun _ => {| bondQty := RD 10 0; usdBal := RD 0 0; openSignal := SignalBuy;
    entryPrice := RD 100 0; entryATR := RD 1 0; balancesInitialized := true |}) s.

Definition sold_ten : list (OrderRequest (D := RefDec)) := [{|
  or_OrderBookID := "book"; or_Side := SIDE_SELL; or_Quantity := RD 10 0;
  or_InverseLeverage := RD 1000000000000000000 18; or_FromGlobalPosition := false;
  or_ClientOrderID := "momentum.00000000-0000-0000-0000-000000000000.0" |}].

Definition low_price : AssetPrice (D := RefDec) := {| px_AssetID := "bond"; px_Price := RD 50 0; px_YTM := None; px_Time := zero_time |}.

Lemma loop_step_orders_witness :
  exists s' os, loop_step demo_env no_data "bond" (EvPrices [low_price]) long_ten = Some s' /\
    os = sold_ten /\ orders s' = orders long_ten ++ os /\ allowed (s_pos long_ten) false os.
Proof.
  destruct (loop_step_orders demo_env no_data "bond" (EvPrices [low_price]) long_ten
    (on_price demo_env "bond" long_ten low_price)) as (_ & _ & os & Ho & Ha & _);
    [by split | reflexivity |].
  exists (on_price demo_env "bond" long_ten low_price), os. split_and!; [reflexivity | | exact Ho | exact Ha].
  symmetry. exact Ho.
Defined.

Lemma run_position_signal_witness :
  let setup := run_setup demo_env no_data true (Ok tt) (New one_bar_config (MkSys 0%nat [])) in
  consistent (run_events demo_env no_data "bond" [EvBar (flat_bar 100); EvBar (flat_bar 101)] setup.2).
Proof.
  intros setup.
  assert (setup.1 = Ok "bond"%string) as Hs by reflexivity.
  assert (balancesInitialized (s_pos setup.2) = true) as Hb by reflexivity.
  assert (run_setup demo_env no_data true (Ok tt) (New one_bar_config (MkSys 0%nat [])) = (Ok "bond"%string, setup.2)) as Hr.
  { rewrite <- Hs. apply surjective_pairing. }
  apply (run_position_signal demo_env no_data one_bar_config (MkSys 0%nat []) true (Ok tt) "bond" setup.2 _ Hr Hb).
Defined.

Lemma close_position_outcome_witness :
  let out := closePosition demo_env "bond" long_ten in
  out.1 = Ok tt /\ openSignal (s_pos out.2) = SignalHold.
Proof.
  intros out. split; [reflexivity |].
  apply (close_position_outcome demo_env "bond" long_ten out.1 out.2); [by split | reflexivity | reflexivity].
Defined.

(** The loop reads the bars channel without the [ok] flag.  When the
    registry closes the channel, because the upstream candle stream ended,
    every receive yields the zero bar; with a long position its close of 0 is
    below any stop, so the strategy sells the whole position at market even
    though the last real bar was at the entry price. *)
Theorem closed_feed_liquidates :
  let warm := [EvBar (flat_bar 100); EvBar (flat_bar 100); EvBar (flat_bar 100)] in
  orders (run_events demo_env no_data "bond" warm long_ten) = [] /\
  orders (run_events demo_env no_data "bond" (warm ++ [EvBar zero_Bar]) long_ten) = sold_ten.
Proof. split; reflexivity. Qed.
