(* ===== verification/MomentumBacktest.v ===== *)
(** * strategy/momentum: backtests

    Loading the bars and checking their coverage ([historical_data.go]), the
    entry point [Backtest] of [strategy.go] and the simulation of
    [backtest.go]: one open position at a time, exits on the bar's extremes or
    on replayed ticks, a force close at the end, and the summary.

    Theory: entries and exits alternate and every entry is closed; entries
    respect the trading window; the timeline never goes back; fills stay
    inside the bar; a stop never gains and a take-profit never loses; the
    loaded bars are usable; each tick is looked at once. *)

From S2P Require Import Prelude GoTime Decimal RefDecimal Types Window Stats Market Replay Feed Fred Momentum.

Section Backtest.
Context {D : DecimalOps}.

Record TradeRecord := {
  tr_Time : Time;
  tr_BondID : string;
  tr_Signal : Signal;
  tr_Price : dec;
  tr_Quantity : dec;
  tr_PositionSize : dec;
  tr_FastMA : dec;
  tr_SlowMA : dec;
  tr_EntryATR : dec;
}.

Record ClosedTrade := {
  ct_BondID : string;
  ct_OpenTime : Time;
  ct_CloseTime : Time;
  ct_Signal : Signal;
  ct_ExitSignal : Signal;
  ct_EntryPrice : dec;
  ct_ExitPrice : dec;
  ct_EntryATR : dec;
  ct_Quantity : dec;
  ct_PositionSize : dec;
  ct_PnL : dec;
  ct_ExitReason : string;
}.

Record BacktestResult := {
  br_ClosedTrades : list ClosedTrade;
  br_TradeRecords : list TradeRecord;
  br_TotalPnL : dec;
  br_WinCount : Z;
  br_LossCount : Z;
  br_MaxDrawdown : dec;
  br_SharpeRatio : dec;
}.

(** The zero result, returned for an empty bar slice. *)
Definition zero_BacktestResult : BacktestResult := {|
  br_ClosedTrades := []; br_TradeRecords := []; br_TotalPnL := dzero; br_WinCount := 0; br_LossCount := 0;
  br_MaxDrawdown := dzero; br_SharpeRatio := dzero |}.

(** ** Profit and loss *)

Definition computePnL (sig : Signal) (entryPrice exitPrice quantity : dec) : result dec :=
  cost ← dmul entryPrice quantity;
  proceeds ← dmul exitPrice quantity;
  match sig with
  | SignalBuy => dsub proceeds cost
  | SignalSell => dsub cost proceeds
  | SignalHold => Ok dzero
  end.

(** A decision re-stamped with the fill. *)
Definition at_fill (price : dec) (t : Time) (d : Decision) : Decision := {|
  d_time := t; d_bondID := d_bondID d; d_price := price; d_signal := d_signal d;
  d_positionSize := d_positionSize d; d_reason := d_reason d;
  d_FastMA := d_FastMA d; d_SlowMA := d_SlowMA d; d_ATR := d_ATR d;
  d_SeriesValue := d_SeriesValue d; d_Trend := d_Trend d |}.

Definition closeAtPrice (open : TradeRecord) (d : Decision) (reason : string) : result ClosedTrade :=
  pnl ← computePnL (tr_Signal open) (tr_Price open) (d_price d) (tr_Quantity open);
  Ok {| ct_BondID := tr_BondID open; ct_OpenTime := tr_Time open; ct_CloseTime := d_time d;
        ct_Signal := tr_Signal open; ct_ExitSignal := d_signal d;
        ct_EntryPrice := tr_Price open; ct_ExitPrice := d_price d; ct_EntryATR := tr_EntryATR open;
        ct_Quantity := tr_Quantity open; ct_PositionSize := tr_PositionSize open;
        ct_PnL := pnl; ct_ExitReason := reason |}.

Definition exitRecord (open : TradeRecord) (d : Decision) : TradeRecord := {|
  tr_Time := d_time d; tr_BondID := tr_BondID open; tr_Signal := tr_Signal open;
  tr_Price := d_price d; tr_Quantity := tr_Quantity open; tr_PositionSize := tr_PositionSize open;
  tr_FastMA := d_FastMA d; tr_SlowMA := d_SlowMA d; tr_EntryATR := tr_EntryATR open |}.

(** ** Exits on a bar *)

(** The gap-capped fills. *)
Definition stopFill (sig : Signal) (level open : dec) : dec :=
  match sig with
  | SignalBuy => if d_lt open level then open else level
  | _ => if d_gt open level then open else level
  end.

Definition tpFill (sig : Signal) (level open : dec) : dec :=
  match sig with
  | SignalBuy => if d_gt open level then open else level
  | _ => if d_lt open level then open else level
  end.

(** The fill price and the reason, if the bar closes the position. *)
Definition exitForBar (c : Config) (open : TradeRecord) (bar : Bar) (decision : Decision) : option (dec * string) :=
  let sig := tr_Signal open in
  let '(adverse, favorable) := match sig with
    | SignalSell => (bar_High bar, bar_Low bar) | _ => (bar_Low bar, bar_High bar) end in
  let '(stop, tp) := bandLevels c sig (tr_Price open) (tr_EntryATR open) in
  let on_close :=
    match ShouldExit c sig decision (tr_Price open) (tr_EntryATR open) with
    | Some reason => Some (d_price decision, reason)
    | None => None
    end in
  let on_tp :=
    match tp with
    | Some l => if tp_hit sig tp favorable then Some (tpFill sig l (bar_Open bar), ExitReasonTakeProfit) else on_close
    | None => on_close
    end in
  match stop with
  | Some l => if stop_hit sig stop adverse then Some (stopFill sig l (bar_Open bar), ExitReasonStopLoss) else on_tp
  | None => on_tp
  end.

(** ** The simulation *)

Definition barsAhead : Z := 2.

Record Params := {
  bt_cfg : Config;
  bt_collateralWeight : dec;
  bt_baseAssetID : string;
  bt_ticks : list AssetPrice;
  bt_TradeFrom : Time;
  bt_TradeTo : Time;
  (** whether the context is done when bar [i] is reached *)
  bt_cancelled : nat -> bool;
}.

Record Sim := MkSim {
  m_ind : Ind;
  m_closed : list ClosedTrade;
  m_records : list TradeRecord;
  m_open : option TradeRecord;
  m_last : Decision;
  m_idx : nat;
  m_had : bool;   (* prevWindowHadTicks *)
}.

Definition no_decision : Decision := NewExitDecision SignalHold dzero.

Definition init_Sim (i : Ind) : Sim := MkSim i [] [] None no_decision 0 false.

Section Simulation.
Context (P : Params).
#[local] Abbreviation c := (bt_cfg P).
Definition bar_res : Z := ResolutionDuration (Resolution c).
Definition close_of (bar : Bar) : Time := time_add (bar_Time bar) bar_res.

(** Book the close of [open] with the decision [d]. *)
Definition book_close (open : TradeRecord) (d : Decision) (reason : string) (m : Sim) : result Sim :=
  ct ← closeAtPrice open d reason;
  Ok (MkSim (m_ind m) (m_closed m ++ [ct]) (m_records m ++ [exitRecord open d]) None (m_last m) (m_idx m) (m_had m)).

Definition in_window (bar : Bar) : bool :=
  (time_is_zero (bt_TradeFrom P) || negb (time_before (bar_Time bar) (bt_TradeFrom P))) &&
  (time_is_zero (bt_TradeTo P) || negb (time_after (close_of bar) (bt_TradeTo P))).

Definition entry_record (d : Decision) (quantity : dec) : TradeRecord := {|
  tr_Time := time_add (d_time d) bar_res; tr_BondID := d_bondID d; tr_Signal := d_signal d;
  tr_Price := d_price d; tr_Quantity := quantity; tr_PositionSize := d_positionSize d;
  tr_FastMA := d_FastMA d; tr_SlowMA := d_SlowMA d; tr_EntryATR := d_ATR d |}.

(** Exit or entry at the bar's close.  A [continue] of the entry branch
    leaves the position flat, so the tick phase has nothing to do. *)
Definition close_phase (bar : Bar) (decision : Decision) (m : Sim) : result Sim :=
  match m_open m with
  | Some open =>
      let exit :=
        if m_had m then
          match ShouldExit c (tr_Signal open) decision (tr_Price open) (tr_EntryATR open) with
          | Some reason => Some (d_price decision, reason)
          | None => None
          end
        else exitForBar c open bar decision in
      match exit with
      | Some (fillPrice, reason) => book_close open (at_fill fillPrice (close_of bar) decision) reason m
      | None => Ok m
      end
  | None =>
      if bool_decide (d_signal decision = SignalHold) || negb (in_window bar) then Ok m
      else if d_is_zero (d_price decision) then Ok m
      else
        q ← cappedOrderQuantity c (bt_collateralWeight P) (d_positionSize decision) dzero (d_price decision);
        match q with
        | None => Ok m
        | Some quantity =>
            if d_is_zero quantity then Ok m
            else let rec := entry_record decision quantity in
                 Ok (MkSim (m_ind m) (m_closed m) (m_records m ++ [rec]) (Some rec) (m_last m) (m_idx m) (m_had m))
        end
  end.

(** The first tick that crosses a band closes the position at its price. *)
Fixpoint first_crossing (open : TradeRecord) (window : list AssetPrice) : option (AssetPrice * string) :=
  match window with
  | [] => None
  | t :: rest =>
      match bandExit c (tr_Signal open) (tr_Price open) (tr_EntryATR open) (px_Price t) with
      | Some reason => Some (t, reason)
      | None => first_crossing open rest
      end
  end.

(** Replay the ticks up to the next close. *)
Definition tick_phase (bar : Bar) (next : option Bar) (decision : Decision) (m : Sim) : result Sim :=
  match m_open m with
  | None => Ok m
  | Some open =>
      let nextClose := match next with
        | Some b => close_of b
        | None => time_add (bar_Time bar) (dur_mul bar_res barsAhead) end in
      let '(window, idx) := tickWindow (bt_ticks P) (m_idx m) (close_of bar) nextClose in
      let m1 := MkSim (m_ind m) (m_closed m) (m_records m) (m_open m) (m_last m) idx (0 <? length window)%nat in
      match first_crossing open window with
      | Some (t, reason) => book_close open (at_fill (px_Price t) (px_Time t) decision) reason m1
      | None => Ok m1
      end
  end.

Definition bt_step (i : nat) (bar : Bar) (next : option Bar) (m : Sim) : result Sim :=
  if bt_cancelled P i then Err (ErrMsg "backtest cancelled by user") else
  let '(r, ind) := Update c (bt_baseAssetID P) bar (m_ind m) in
  decision ← r;
  m1 ← close_phase bar decision (MkSim ind (m_closed m) (m_records m) (m_open m) decision (m_idx m) (m_had m));
  tick_phase bar next decision m1.

Fixpoint replay (i : nat) (bars : list Bar) (m : Sim) : result Sim :=
  match bars with
  | [] => Ok m
  | bar :: rest => m1 ← bt_step i bar (hd_error rest) m; replay (S i) rest m1
  end.

(** Force-close at the last bar's close. *)
Definition force_close (bars : list Bar) (m : Sim) : result Sim :=
  match m_open m, last bars with
  | Some open, Some b =>
      let l := m_last m in
      book_close open {|
        d_time := close_of b; d_bondID := tr_BondID open; d_price := bar_Close b; d_signal := d_signal l;
        d_positionSize := dzero; d_reason := ""; d_FastMA := d_FastMA l; d_SlowMA := d_SlowMA l;
        d_ATR := d_ATR l; d_SeriesValue := dzero; d_Trend := "" |} ExitReasonStrategyExit m
  | _, _ => Ok m
  end.

Definition simulate (i : Ind) (bars : list Bar) : result Sim :=
  m ← replay 0 bars (init_Sim i); force_close bars m.

Definition summarise (trades : list ClosedTrade) (records : list TradeRecord) (start end_ : Time) : result BacktestResult :=
  s ← Summarise ((fun t => {| PnL := ct_PnL t; CloseTime := ct_CloseTime t |}) <$> trades) start end_;
  Ok {| br_ClosedTrades := trades; br_TradeRecords := records; br_TotalPnL := TotalPnL s;
        br_WinCount := WinCount s; br_LossCount := LossCount s; br_MaxDrawdown := MaxDrawdown s;
        br_SharpeRatio := SharpeRatio s |}.

(** [Backtester.Run] *)
Definition Run (i : Ind) (bars : list Bar) : result BacktestResult :=
  m ← simulate i bars;
  match hd_error bars, last bars with
  | Some first, Some final =>
      let start := if time_is_zero (bt_TradeFrom P) then bar_Time first else bt_TradeFrom P in
      let end_ := if time_is_zero (bt_TradeTo P) then bar_Time final else bt_TradeTo P in
      summarise (m_closed m) (m_records m) start end_
  | _, _ => Ok zero_BacktestResult
  end.
End Simulation.

(** [streamTrades], then the flush: errors of the writer are only logged. *)
Definition record_row (r : TradeRecord) : TradeRecordInsert := {|
  tri_BacktestID := uuid_nil; tri_Time := tr_Time r; tri_BondID := tr_BondID r;
  tri_Signal := Signal_String (tr_Signal r); tri_Price := tr_Price r; tri_Quantity := tr_Quantity r;
  tri_EntryBalance := dzero; tri_OrderSize := dzero; tri_Cash := dzero; tri_OpenPosition := dzero;
  tri_TradeID := ""; tri_Spread := dzero; tri_PositionSize := tr_PositionSize r; tri_ZScore := dzero;
  tri_CompressionRatio := dzero; tri_EntryATR := tr_EntryATR r |}.

Definition closed_row (t : ClosedTrade) : ClosedTradeInsert := {|
  cti_BacktestID := uuid_nil; cti_OpenTime := ct_OpenTime t; cti_CloseTime := ct_CloseTime t;
  cti_BondID := ct_BondID t; cti_OpenSignal := Signal_String (ct_Signal t);
  cti_CloseSignal := Signal_String (ct_ExitSignal t); cti_Quantity := ct_Quantity t;
  cti_EntryPrice := ct_EntryPrice t; cti_ExitPrice := ct_ExitPrice t; cti_PnL := ct_PnL t;
  cti_EntryBalance := dzero; cti_OpenTradeID := ""; cti_CloseTradeID := ""; cti_EntrySpread := dzero;
  cti_ExitSpread := dzero; cti_EntryZScore := dzero; cti_ExitZScore := dzero;
  cti_PositionSize := ct_PositionSize t; cti_ExitReason := ct_ExitReason t;
  cti_EntryCompressionRatio := dzero; cti_ExitCompressionRatio := dzero |}.

Definition streamTrades (m : Sim) : list WriterCall :=
  (WriteTradeRecord ∘ record_row <$> m_records m) ++ (WriteClosedTrade ∘ closed_row <$> m_closed m) ++ [Flush].

(** ** Loading the bars *)

(** The candle store, the tick store and the FRED client. *)
Record History := {
  CandleStoreAvailable : result unit;
  Store_CandleRange : string -> result (option Time * option Time);
  LoadCandlesBucketed : string -> string -> Time -> Time -> result (list Candle);
  LoadHistoricalPrices : option (string -> Time -> Time -> result (list AssetPrice));
  BenchmarkClient : result (Tenor -> Time -> Time -> result (list Observation));
}.
Context (H : History).

Definition sourceBarDuration : Z := Minute.

Definition checkCandleCoverage (cfg : Config) (dataStart end_ : Time) : result unit :=
  match Store_CandleRange H (OrderBookID cfg) with
  | Err e => Err (ErrWrap "load candle range" e)
  | Ok (Some lo, Some hi) =>
      if time_after lo dataStart || time_before (time_add hi sourceBarDuration) end_ then
        Err (ErrMsg "no candle coverage")
      else Ok tt
  | Ok _ => Err (ErrMsg "no candle coverage")
  end.

(** [start.Add(-time.Duration(SlowWindow+1) * res)] and the end floored to
    the resolution *)
Definition data_start (cfg : Config) (start : Time) : Time :=
  time_add start (dur_mul (wrap64 (- wrap64 (SlowWindow cfg + 1))) (ResolutionDuration (Resolution cfg))).
Definition load_end (cfg : Config) (end_ : Time) : Time :=
  time_truncate (time_utc end_) (ResolutionDuration (Resolution cfg)).

(** [PreflightBacktest]; [injected] tells whether a store was injected. *)
Definition PreflightBacktest (injected : bool) (cfg : Config) (start end_ : Time) : result unit :=
  if negb injected then Ok tt
  else if ResolutionDuration (Resolution cfg) =? 0 then Err (ErrMsg "unknown resolution")
  else checkCandleCoverage cfg (data_start cfg start) (load_end cfg end_).

(** One loaded candle: the bar it gives, or [None] when it is skipped. *)
Definition usable_bar (cfg : Config) (cache : list Observation) (cd : Candle) : option Bar :=
  if negb (bool_decide (SignalSource cfg = SignalSourcePrice)) && d_is_zero (c_CloseYTM cd) then None
  else
    let bar := BarFromCandle cd in
    if bool_decide (SignalSource cfg = SignalSourceSpread) then
      match cachedBenchmarkYield cache (time_add (bar_Time bar) (ResolutionDuration (Resolution cfg))) with
      | Some y => Some (set_BenchmarkYield y bar)
      | None => None
      end
    else Some bar.

(** [getBars]; the state is the strategy's benchmark cache. *)
Definition getBars (cfg : Config) (start end_ : Time) : SE (list Observation) (list Bar) :=
  if ResolutionDuration (Resolution cfg) =? 0 then lift (Err (ErrMsg "unknown resolution")) else
  let dataStart := data_start cfg start in
  let loadEnd := load_end cfg end_ in
  _ ← lift (CandleStoreAvailable H);
  _ ← lift (checkCandleCoverage cfg dataStart loadEnd);
  loaded ← lift (wrap_err "load candles" (LoadCandlesBucketed H (OrderBookID cfg) (Resolution cfg) dataStart loadEnd));
  _ ← (if bool_decide (SignalSource cfg = SignalSourceSpread) then
         tenor ← lift (ParseBenchmarkTenor (CfgTenor cfg));
         client ← lift (BenchmarkClient H);
         obs ← lift (wrap_err "fetch historical benchmark yields" (client tenor dataStart loadEnd));
         modify (fun _ => setBenchmarkObservations obs)
       else mret tt);
  cache ← gets id;
  let bars := omap (usable_bar cfg cache) loaded in
  if (0 <? length loaded)%nat && (length bars =? 0)%nat then lift (Err (ErrMsg "no usable candles"))
  else mret bars.

(** [loadTicks]: best effort. *)
Definition loadTicks (cfg : Config) (assetID : string) (bars : list Bar) : list AssetPrice :=
  match hd_error bars, last bars, LoadHistoricalPrices H with
  | Some first, Some final, Some load =>
      or_zero [] (load assetID (bar_Time first)
        (time_add (bar_Time final) (ResolutionDuration (Resolution cfg))))
  | _, _, _ => []
  end.

(** [Backtest] of a strategy with configuration [cfg], collateral weight
    [weight] and indicators [i]; [asset] is the outcome of [LookupAssetID]. *)
Definition Backtest (cfg : Config) (weight : dec) (i : Ind) (now : Time) (asset : result string)
    (cancelled : nat -> bool) (start end_ : Time) : SE (list Observation) BacktestResult :=
  if time_before end_ start then lift (Err (ErrMsg "end date must be after start date"))
  else if time_after start now || time_after end_ now then
    lift (Err (ErrMsg "start and end date must be in the past"))
  else
    bars ← getBars cfg start end_;
    assetID ← lift (wrap_err "backtest requires the order book's base asset" asset);
    lift (Run {| bt_cfg := cfg; bt_collateralWeight := weight; bt_baseAssetID := assetID;
                 bt_ticks := loadTicks cfg assetID bars; bt_TradeFrom := start; bt_TradeTo := end_;
                 bt_cancelled := cancelled |} i bars).
End Backtest.

(** ** Theory: fills and profit *)

Section FillTheory.
Context {D : DecimalOps} {L : DecimalLaws}.
#[local] Open Scope Q_scope.

Definition bar_wf (b : Bar) : Prop :=
  dval (bar_Low b) <= dval (bar_Open b) <= dval (bar_High b) /\
  dval (bar_Low b) <= dval (bar_Close b) <= dval (bar_High b).

Lemma bandExit_sided c sig entry atr price reason :
  bandExit c sig entry atr price = Some reason -> exit_sided sig entry price reason.
Proof.
  intros H. unfold bandExit in H. destruct (bandLevels c sig entry atr) as [stop tp] eqn:E.
  destruct (decide (sig = SignalHold)) as [->|Hs]; [by destruct stop, tp |].
  destruct (bandLevels_sides _ _ _ _ _ _ E Hs) as [Hst Ht].
  destruct (stop_hit sig stop price) eqn:Hh.
  - injection H as <-. split; [intros _ | done]. destruct stop as [l|]; [| by destruct sig].
    specialize (Hst l eq_refl). destruct sig; simpl in *; [done | |];
      [apply d_le_spec in Hh | apply d_ge_spec in Hh]; lra.
  - destruct (tp_hit sig tp price) eqn:Hh2; [| discriminate]. injection H as <-. split; [done | intros _].
    destruct tp as [l|]; [| by destruct sig].
    specialize (Ht l eq_refl). destruct sig; simpl in *; [done | |];
      [apply d_ge_spec in Hh2 | apply d_le_spec in Hh2]; lra.
Qed.

Lemma ShouldExit_sided c sig d entry atr reason :
  ShouldExit c sig d entry atr = Some reason -> exit_sided sig entry (d_price d) reason.
Proof.
  unfold ShouldExit. destruct (bandExit _ _ _ _ _) eqn:E.
  - intros [= <-]. by eapply bandExit_sided.
  - destruct sig, (d_signal d); intros [= <-]; by apply exit_sided_other.
Qed.

Lemma stopFill_spec sig l open : sig <> SignalHold ->
  match sig with
  | SignalBuy => dval (stopFill sig l open) == Qmin (dval l) (dval open)
  | _ => dval (stopFill sig l open) == Qmax (dval l) (dval open)
  end.
Proof. exact (gap_stop_spec sig l open). Qed.

Lemma tpFill_spec sig l open : sig <> SignalHold ->
  match sig with
  | SignalBuy => dval (tpFill sig l open) == Qmax (dval l) (dval open)
  | _ => dval (tpFill sig l open) == Qmin (dval l) (dval open)
  end.
Proof. exact (gap_tp_spec sig l open). Qed.

(** The four ways a bar closes a position. *)
Lemma exitForBar_cases c open bar d price reason :
  exitForBar c open bar d = Some (price, reason) ->
  let sig := tr_Signal open in
  let '(stop, tp) := bandLevels c sig (tr_Price open) (tr_EntryATR open) in
  (exists l, stop = Some l /\ sig <> SignalHold /\ reason = ExitReasonStopLoss /\
     price = stopFill sig l (bar_Open bar) /\
     stop_hit sig stop (match sig with SignalSell => bar_High bar | _ => bar_Low bar end) = true) \/
  (exists l, tp = Some l /\ sig <> SignalHold /\ reason = ExitReasonTakeProfit /\
     price = tpFill sig l (bar_Open bar) /\
     tp_hit sig tp (match sig with SignalSell => bar_Low bar | _ => bar_High bar end) = true) \/
  (price = d_price d /\ ShouldExit c sig d (tr_Price open) (tr_EntryATR open) = Some reason).
Proof.
  unfold exitForBar. simpl. intros H.
  set (sig := tr_Signal open) in *. clearbody sig.
  destruct (bandLevels c sig (tr_Price open) (tr_EntryATR open)) as [stop tp] eqn:HB.
  assert (forall x r, (match ShouldExit c sig d (tr_Price open) (tr_EntryATR open) with
                  | Some reason => Some (d_price d, reason) | None => None end) = Some (x, r) ->
          x = d_price d /\ ShouldExit c sig d (tr_Price open) (tr_EntryATR open) = Some r) as Hcl.
  { intros x r. destruct (ShouldExit _ _ _ _ _); [| done]. by intros [= <- <-]. }
  destruct sig; simpl in H.
  - right; right. apply Hcl. by destruct stop, tp.
  - destruct stop as [l|]; simpl in H;
      [destruct (d_le (bar_Low bar) l) eqn:E1; [injection H as <- <-; left; by exists l |] |];
      (destruct tp as [l'|]; simpl in H;
        [destruct (d_ge (bar_High bar) l') eqn:E2; [injection H as <- <-; right; left; by exists l' |] |]);
      right; right; by apply Hcl.
  - destruct stop as [l|]; simpl in H;
      [destruct (d_ge (bar_High bar) l) eqn:E1; [injection H as <- <-; left; by exists l |] |];
      (destruct tp as [l'|]; simpl in H;
        [destruct (d_le (bar_Low bar) l') eqn:E2; [injection H as <- <-; right; left; by exists l' |] |]);
      right; right; by apply Hcl.
Qed.

Lemma exitForBar_sided c open bar d price reason :
  exitForBar c open bar d = Some (price, reason) -> exit_sided (tr_Signal open) (tr_Price open) price reason.
Proof.
  intros H. apply exitForBar_cases in H.
  destruct (bandLevels c (tr_Signal open) (tr_Price open) (tr_EntryATR open)) as [stop tp] eqn:HB.
  destruct H as [(l & -> & Hs & -> & -> & Hh)|[(l & -> & Hs & -> & -> & Hh)|[-> H]]].
  - destruct (bandLevels_sides _ _ _ _ _ _ HB Hs) as [Hst _]. specialize (Hst l eq_refl).
    split; [intros _ | done]. pose proof (stopFill_spec _ l (bar_Open bar) Hs) as Hf.
    destruct (tr_Signal open); [done | |]; simpl in *; rewrite Hf;
      [pose proof (Q.le_min_l (dval l) (dval (bar_Open bar))) | pose proof (Q.le_max_l (dval l) (dval (bar_Open bar)))]; lra.
  - destruct (bandLevels_sides _ _ _ _ _ _ HB Hs) as [_ Ht]. specialize (Ht l eq_refl).
    split; [done | intros _]. pose proof (tpFill_spec _ l (bar_Open bar) Hs) as Hf.
    destruct (tr_Signal open); [done | |]; simpl in *; rewrite Hf;
      [pose proof (Q.le_max_l (dval l) (dval (bar_Open bar))) | pose proof (Q.le_min_l (dval l) (dval (bar_Open bar)))]; lra.
  - by eapply ShouldExit_sided.
Qed.

(** Whatever closes the position on a bar, the fill is a price the bar
    traded at: it lies between the bar's low and its high, even when the bar
    gapped through the stop or the take-profit. *)
Theorem exit_fill_in_bar c open bar d price reason :
  bar_wf bar -> d_price d = bar_Close bar ->
  exitForBar c open bar d = Some (price, reason) ->
  dval (bar_Low bar) <= dval price <= dval (bar_High bar).
Proof.
  intros [[Ho Ho2] Hc] Hd H. apply exitForBar_cases in H.
  destruct (bandLevels c (tr_Signal open) (tr_Price open) (tr_EntryATR open)) as [stop tp] eqn:HB.
  destruct H as [(l & -> & Hs & -> & -> & Hh)|[(l & -> & Hs & -> & -> & Hh)|[-> H]]].
  - pose proof (stopFill_spec _ l (bar_Open bar) Hs) as Hf.
    destruct (tr_Signal open); [done | |]; simpl in Hh; rewrite Hf.
    + apply d_le_spec in Hh. split; [by apply Q.min_glb |].
      pose proof (Q.le_min_r (dval l) (dval (bar_Open bar))). lra.
    + apply d_ge_spec in Hh. split; [| by apply Q.max_lub].
      pose proof (Q.le_max_r (dval l) (dval (bar_Open bar))). lra.
  - pose proof (tpFill_spec _ l (bar_Open bar) Hs) as Hf.
    destruct (tr_Signal open); [done | |]; simpl in Hh; rewrite Hf.
    + apply d_ge_spec in Hh. split; [| by apply Q.max_lub].
      pose proof (Q.le_max_r (dval l) (dval (bar_Open bar))). lra.
    + apply d_le_spec in Hh. split; [by apply Q.min_glb |].
      pose proof (Q.le_min_r (dval l) (dval (bar_Open bar))). lra.
  - by rewrite Hd.
Qed.

Lemma computePnL_sign sig entry exit q pnl : computePnL sig entry exit q = Ok pnl -> 0 <= dval q ->
  (at_loss sig entry exit -> dval pnl <= 0) /\ (at_gain sig entry exit -> 0 <= dval pnl).
Proof. exact (trade_pnl_sign sig entry exit q pnl). Qed.
End FillTheory.

(** ** Theory: the simulation *)

Lemma Update_bar {D : DecimalOps} c a bar i d i' : Update c a bar i = (Ok d, i') ->
  d_price d = bar_Close bar /\ d_time d = bar_Time bar.
Proof.
  unfold Update. intros H. apply SE_bind_Ok in H as (pc & i1 & _ & H).
  apply SE_bind_Ok in H as (value & i2 & _ & H). destruct value as [v|]; [| by injection H as <- <-].
  repeat (apply SE_bind_Ok in H as (? & ? & _ & H)).
  destruct (crossover _ _) as [[sig trend] reason]. injection H as <- _.
  unfold volume_gate. simpl. split_match; done.
Qed.

Section SimTheory.
Context {D : DecimalOps} {L : DecimalLaws} (P : Params).
Implicit Types (bar : Bar) (m : Sim) (e x : TradeRecord) (ct : ClosedTrade) (d : Decision).

(** The exit row [x] and the closed trade [ct] of one decision on entry [e]. *)
Definition closes_trade e x ct : Prop :=
  exists d reason, closeAtPrice e d reason = Ok ct /\ x = exitRecord e d.

Definition trip_ok (t : TradeRecord * TradeRecord * ClosedTrade) : Prop :=
  let '(e, x, ct) := t in
  closes_trade e x ct /\ exit_sided (tr_Signal e) (tr_Price e) (tr_Price x) (ct_ExitReason ct).

(** An entry at the close of a bar inside the trading window. *)
Definition entry_ok (bars : list Bar) e : Prop :=
  exists bar, bar ∈ bars /\ tr_Time e = close_of P bar /\ tr_Price e = bar_Close bar /\
    in_window P bar = true /\ tr_Signal e <> SignalHold /\ (0 < dval (tr_Quantity e))%Q.

Record book_inv (bars : list Bar) m (trips : list (TradeRecord * TradeRecord * ClosedTrade)) : Prop := {
  bi_records : m_records m = (trips ≫= fun t => [t.1.1; t.1.2]) ++ option_list (m_open m);
  bi_closed : m_closed m = trips.*2;
  bi_trips : Forall trip_ok trips;
  bi_entries : Forall (fun t => entry_ok bars t.1.1) trips;
  bi_open : forall e, m_open m = Some e -> entry_ok bars e;
}.

Lemma closeAtPrice_reason e d reason ct : closeAtPrice e d reason = Ok ct -> ct_ExitReason ct = reason.
Proof. unfold closeAtPrice. intros H. apply result_bind_Ok in H as (pnl & _ & [= <-]). done. Qed.

Lemma book_close_Ok open d reason m m' : book_close open d reason m = Ok m' ->
  exists ct, closeAtPrice open d reason = Ok ct /\ m_closed m' = m_closed m ++ [ct] /\
    m_records m' = m_records m ++ [exitRecord open d] /\ m_open m' = None /\ m_last m' = m_last m /\
    m_had m' = m_had m.
Proof. unfold book_close. intros H. apply result_bind_Ok in H as (ct & Hct & [= <-]). by exists ct. Qed.

Lemma book_close_inv bars open d reason m m' trips : book_close open d reason m = Ok m' ->
  m_open m = Some open -> exit_sided (tr_Signal open) (tr_Price open) (d_price d) reason ->
  book_inv bars m trips -> exists trips', book_inv bars m' trips'.
Proof.
  intros H Ho Hs [B1 B2 B3 B4 B5]. apply book_close_Ok in H as (ct & Hct & H1 & H2 & H3 & _).
  exists (trips ++ [(open, exitRecord open d, ct)]). split.
  - rewrite H2, B1, Ho, H3, bind_app. simpl. by rewrite app_nil_r, <- app_assoc.
  - by rewrite H1, B2, fmap_app.
  - apply Forall_app. split; [done |]. constructor; [| done]. split; [by exists d, reason |].
    by rewrite (closeAtPrice_reason _ _ _ _ Hct).
  - apply Forall_app. split; [done |]. constructor; [| done]. simpl. by apply B5.
  - intros e. by rewrite H3.
Qed.

Lemma book_inv_same bars m m' trips : m_records m' = m_records m -> m_closed m' = m_closed m ->
  m_open m' = m_open m -> book_inv bars m trips -> book_inv bars m' trips.
Proof. intros E1 E2 E3 [B1 B2 B3 B4 B5]. split; by rewrite ?E1, ?E2, ?E3. Qed.

(** What the close phase does to the position. *)
Inductive close_result bar d m : Sim -> Prop :=
  | close_keep : close_result bar d m m
  | close_exit open price reason m' : m_open m = Some open ->
      book_close open (at_fill price (close_of P bar) d) reason m = Ok m' ->
      exit_sided (tr_Signal open) (tr_Price open) price reason -> close_result bar d m m'
  | close_entry q : m_open m = None -> d_signal d <> SignalHold -> in_window P bar = true ->
      (0 < dval q)%Q ->
      close_result bar d m (MkSim (m_ind m) (m_closed m) (m_records m ++ [entry_record P d q])
        (Some (entry_record P d q)) (m_last m) (m_idx m) (m_had m)).

Lemma close_phase_result bar d m m' : close_phase P bar d m = Ok m' -> close_result bar d m m'.
Proof.
  unfold close_phase. destruct (m_open m) as [open|] eqn:Ho.
  - set (ex := if m_had m then _ else _).
    assert (forall price reason, ex = Some (price, reason) ->
      exit_sided (tr_Signal open) (tr_Price open) price reason) as Hex.
    { intros price reason. unfold ex. destruct (m_had m); [| apply exitForBar_sided].
      destruct (ShouldExit _ _ _ _ _) as [r|] eqn:E; [| done]. intros [= <- <-]. by eapply ShouldExit_sided. }
    destruct ex as [[price reason]|]; [| intros [= <-]; constructor].
    intros H. eapply close_exit; [exact Ho | exact H | by apply Hex].
  - case_bool_decide as Hs; simpl; [intros [= <-]; constructor |].
    destruct (in_window P bar) eqn:Hw; simpl; [| intros [= <-]; constructor].
    destruct (d_is_zero (d_price d)); [intros [= <-]; constructor |].
    intros H. apply result_bind_Ok in H as (q & Hq & H).
    destruct q as [q|]; [| injection H as <-; constructor].
    destruct (d_is_zero q); [injection H as <-; constructor |]. injection H as <-.
    apply close_entry; [done.. |]. by apply capped_quantity_bounds in Hq as (? & _).
Qed.

Lemma first_crossing_spec open window t reason : first_crossing P open window = Some (t, reason) ->
  t ∈ window /\ exit_sided (tr_Signal open) (tr_Price open) (px_Price t) reason.
Proof.
  induction window as [|t' window IH]; simpl; [done |].
  destruct (bandExit _ _ _ _ _) eqn:E.
  - intros [= <- <-]. split; [by left |]. by eapply bandExit_sided.
  - intros H. apply IH in H as [? ?]. split; [by right | done].
Qed.

Lemma tick_scan_in ticks from to : Forall (in_span from to) (tick_scan ticks from to).1.
Proof.
  induction ticks as [|t ticks IH]; simpl; [done |].
  destruct (time_after (px_Time t) to) eqn:Ht; [done |]. destruct (tick_scan ticks from to) as [out n]. simpl in *.
  destruct (time_after (px_Time t) from) eqn:Hf; [| done]. constructor; [| done].
  unfold time_after in *. unfold in_span, tick_ns. bool_prop. lia.
Qed.

Definition next_close bar (next : option Bar) : Time :=
  match next with Some b => close_of P b | None => time_add (bar_Time bar) (dur_mul (bar_res P) barsAhead) end.

Inductive tick_result bar (next : option Bar) d m : Sim -> Prop :=
  | tick_keep m' : m_records m' = m_records m -> m_closed m' = m_closed m -> m_open m' = m_open m ->
      tick_result bar next d m m'
  | tick_exit open t reason m1 m' : m_open m = Some open ->
      m_records m1 = m_records m -> m_closed m1 = m_closed m -> m_open m1 = m_open m ->
      book_close open (at_fill (px_Price t) (px_Time t) d) reason m1 = Ok m' ->
      in_span (close_of P bar) (next_close bar next) t ->
      exit_sided (tr_Signal open) (tr_Price open) (px_Price t) reason -> tick_result bar next d m m'.

Lemma tick_phase_result bar next d m m' : tick_phase P bar next d m = Ok m' -> tick_result bar next d m m'.
Proof.
  unfold tick_phase. destruct (m_open m) as [open|] eqn:Ho; [| intros [= <-]; by constructor].
  fold (next_close bar next). unfold tickWindow.
  pose proof (tick_scan_in (drop (m_idx m) (bt_ticks P)) (close_of P bar) (next_close bar next)) as Hin.
  destruct (tick_scan _ _ _) as [window n]. simpl in Hin.
  destruct (first_crossing P open window) as [[t reason]|] eqn:Hc.
  - apply first_crossing_spec in Hc as [Ht Hs]. rewrite Forall_forall in Hin.
    intros H. eapply tick_exit; [exact Ho | | | | exact H | by apply Hin | exact Hs]; done.
  - intros [= <-]. by constructor.
Qed.

(** One iteration, taken apart. *)
Lemma bt_step_Ok i bar next m m' : bt_step P i bar next m = Ok m' ->
  exists d m0 m1, d_price d = bar_Close bar /\ d_time d = bar_Time bar /\
    m_records m0 = m_records m /\ m_closed m0 = m_closed m /\ m_open m0 = m_open m /\
    close_result bar d m0 m1 /\ tick_result bar next d m1 m'.
Proof.
  unfold bt_step. destruct (bt_cancelled P i); [done |].
  destruct (Update _ _ bar (m_ind m)) as [r ind] eqn:Hu. intros H.
  apply result_bind_Ok in H as (d & -> & H). apply result_bind_Ok in H as (m1 & Hc & H).
  apply Update_bar in Hu as [Hp Ht]. apply close_phase_result in Hc. apply tick_phase_result in H.
  eexists d, _, m1. split_and!; [done | done | | | | exact Hc | exact H]; done.
Qed.

Lemma close_result_inv bars bar d m m' trips : bar ∈ bars -> d_price d = bar_Close bar -> d_time d = bar_Time bar ->
  close_result bar d m m' -> book_inv bars m trips -> exists trips', book_inv bars m' trips'.
Proof.
  intros Hin Hp Ht Hc Hb. destruct Hc as [|open price reason m' Ho Hk Hs|q Ho Hsig Hw Hq]; [by exists trips | |].
  - by eapply book_close_inv.
  - assert (entry_ok bars (entry_record P d q)) as He.
    { exists bar. unfold entry_record, close_of; simpl. by rewrite Ht, Hp. }
    exists trips. destruct Hb as [B1 B2 B3 B4 B5]. split; simpl; [| done.. |].
    + rewrite B1, Ho. simpl. by rewrite app_nil_r.
    + by intros e [= <-].
Qed.

Lemma tick_result_inv bars bar next d m m' trips :
  tick_result bar next d m m' -> book_inv bars m trips -> exists trips', book_inv bars m' trips'.
Proof.
  intros [m1 E1 E2 E3|open t reason m1 m2 Ho E1 E2 E3 Hk _ Hs] Hb.
  - exists trips. by eapply book_inv_same.
  - eapply book_close_inv; [exact Hk | by rewrite E3 | exact Hs |]. by eapply book_inv_same.
Qed.

Lemma bt_step_inv bars i bar next m m' trips : bar ∈ bars -> bt_step P i bar next m = Ok m' ->
  book_inv bars m trips -> exists trips', book_inv bars m' trips'.
Proof.
  intros Hin H Hb. apply bt_step_Ok in H as (d & m0 & m1 & Hp & Ht & E1 & E2 & E3 & Hc & Hk).
  apply (book_inv_same _ _ m0) in Hb; [| done..].
  destruct (close_result_inv _ _ _ _ _ _ Hin Hp Ht Hc Hb) as [trips1 Hb1].
  by eapply tick_result_inv.
Qed.

Lemma replay_inv bars l i m m' trips : l ⊆ bars -> replay P i l m = Ok m' ->
  book_inv bars m trips -> exists trips', book_inv bars m' trips'.
Proof.
  revert i m trips. induction l as [|bar l IH]; intros i m trips Hl H Hb; simpl in H.
  { injection H as <-. by exists trips. }
  apply result_bind_Ok in H as (m1 & Hs & H).
  destruct (bt_step_inv bars i bar _ m m1 trips ltac:(set_solver) Hs Hb) as [trips1 Hb1].
  eapply IH; [| exact H | exact Hb1]. set_solver.
Qed.

Lemma force_close_inv bars m m' trips : bars <> [] -> force_close P bars m = Ok m' -> book_inv bars m trips ->
  (exists trips', book_inv bars m' trips') /\ m_open m' = None.
Proof.
  intros Hne H Hb. unfold force_close in H. destruct (m_open m) as [open|] eqn:Ho.
  - destruct (last bars) as [b|] eqn:Hl; [| by apply last_None in Hl].
    split; [eapply book_close_inv; [exact H | done | | exact Hb] | by apply book_close_Ok in H as (? & ? & ? & ? & ? & _)].
    by apply exit_sided_other.
  - injection H as <-. split; [by exists trips | done].
Qed.

Lemma book_inv_init i bars : book_inv bars (init_Sim i) [].
Proof. by split. Qed.

Lemma Run_simulate i bars r : Run P i bars = Ok r -> bars <> [] ->
  exists m, simulate P i bars = Ok m /\ br_TradeRecords r = m_records m /\ br_ClosedTrades r = m_closed m.
Proof.
  unfold Run. intros H Hne. apply result_bind_Ok in H as (m & Hm & H). exists m. split; [done |].
  destruct bars as [|b bars]; [done |].
  destruct (hd_error _) eqn:E1; [| done]. destruct (last _) eqn:E2; [| by apply last_None in E2].
  unfold summarise in H. apply result_bind_Ok in H as (s & _ & [= <-]). done.
Qed.

Lemma Run_empty i r : Run P i [] = Ok r -> r = zero_BacktestResult.
Proof. unfold Run. simpl. by intros [= <-]. Qed.

Lemma simulate_trips i bars m : bars <> [] -> simulate P i bars = Ok m ->
  exists trips, book_inv bars m trips /\ m_open m = None.
Proof.
  intros Hne H. unfold simulate in H. apply result_bind_Ok in H as (m1 & Hr & H).
  destruct (replay_inv bars bars 0 _ _ _ ltac:(done) Hr (book_inv_init i bars)) as [trips Hb].
  destruct (force_close_inv bars m1 m trips Hne H Hb) as [[trips' Hb'] Ho]. by exists trips'.
Qed.

(** C4: the trade records of a finished backtest are a sequence of round
    trips, an entry followed by its own exit: nothing is left open, no two
    positions overlap, and the closed trades are exactly those round trips in
    the same order.  Every entry is stamped with the close of a bar lying in
    the trading window, at that bar's close price and for a positive
    quantity. *)
Theorem backtest_round_trips i bars r :
  Run P i bars = Ok r ->
  exists trips : list (TradeRecord * TradeRecord * ClosedTrade),
    br_TradeRecords r = (trips ≫= fun t => [t.1.1; t.1.2]) /\
    br_ClosedTrades r = trips.*2 /\
    Forall (fun '(e, x, ct) => closes_trade e x ct /\ entry_ok bars e) trips.
Proof.
  intros H. destruct bars as [|b bars]; [apply Run_empty in H as ->; by exists [] |].
  apply Run_simulate in H as (m & Hm & Hr & Hc); [| done].
  apply simulate_trips in Hm as (trips & [B1 B2 B3 B4 B5] & Ho); [| done]. exists trips.
  rewrite Hr, Hc, B1, B2, Ho, app_nil_r. split_and!; [done.. |].
  apply Forall_forall. intros [[e x] ct] Hin. rewrite Forall_forall in B3, B4.
  specialize (B3 _ Hin). specialize (B4 _ Hin). by destruct B3.
Qed.

(** In the closed trades of a backtest, a stop-loss never books a profit
    and a take-profit never books a loss, whether it was triggered by a tick,
    by a bar's extreme, by a gap or by the close, and whatever the rounding of
    the decimal arithmetic. *)
Theorem backtest_exit_pnl_sign i bars r ct :
  Run P i bars = Ok r -> ct ∈ br_ClosedTrades r ->
  (ct_ExitReason ct = ExitReasonStopLoss -> dval (ct_PnL ct) <= 0)%Q /\
  (ct_ExitReason ct = ExitReasonTakeProfit -> 0 <= dval (ct_PnL ct))%Q.
Proof.
  intros H Hin. destruct bars as [|b bars]; [apply Run_empty in H as ->; by apply elem_of_nil in Hin |].
  apply Run_simulate in H as (m & Hm & _ & Hc); [| done].
  apply simulate_trips in Hm as (trips & [_ B2 B3 B4 _] & _); [| done].
  rewrite Hc, B2 in Hin. apply list_elem_of_fmap in Hin as ([[e x] ct'] & Heq & Hin). simpl in Heq; subst ct'.
  rewrite Forall_forall in B3, B4. destruct (B3 _ Hin) as [(d & reason & Hcl & ->) [Hst Htp]].
  destruct (B4 _ Hin) as (bar & _ & _ & _ & _ & _ & Hq). simpl in Hst, Htp, Hq.
  unfold closeAtPrice in Hcl. apply result_bind_Ok in Hcl as (pnl & Hp & [= <-]). simpl in *.
  destruct (computePnL_sign _ _ _ _ _ Hp ltac:(lra)) as [G1 G2]. auto.
Qed.

(** *** The timeline *)

Definition rec_ns e : Z := t_ns (tr_Time e).
Lemma close_result_timeline limit bar d m m' : limit <= t_ns (close_of P bar) -> d_time d = bar_Time bar ->
  close_result bar d m m' -> timeline rec_ns limit (m_records m) -> timeline rec_ns (t_ns (close_of P bar)) (m_records m').
Proof.
  intros Hl Ht [|open price reason m1 Ho Hk Hs|q Ho Hsig Hw Hq] Htl; [by eapply timeline_weaken | |].
  - apply book_close_Ok in Hk as (ct & _ & _ & -> & _). by eapply timeline_snoc.
  - simpl. eapply timeline_snoc; [exact Htl |]. unfold rec_ns, entry_record, close_of in *. simpl in *.
    rewrite Ht. lia.
Qed.

(** After the ticks the timeline ends by the bar's close, or the position is
    closed and it ends by the next close. *)
Lemma tick_result_timeline bar next d m m' : tick_result bar next d m m' ->
  timeline rec_ns (t_ns (close_of P bar)) (m_records m) ->
  timeline rec_ns (t_ns (close_of P bar)) (m_records m') \/
  (m_open m' = None /\ timeline rec_ns (t_ns (next_close bar next)) (m_records m')).
Proof.
  intros [m1 E1 _ _|open t reason m1 m2 Ho E1 _ _ Hk Hin _] Htl; [left; by rewrite E1 | right].
  apply book_close_Ok in Hk as (ct & _ & _ & -> & Hn & _). split; [done |]. rewrite E1.
  eapply timeline_snoc; [exact Htl |]. unfold in_span, tick_ns in Hin. change (rec_ns _) with (t_ns (px_Time t)). lia.
Qed.

Definition bar_ns bar : Z := t_ns (bar_Time bar).
Definition bars_sorted (bars : list Bar) : Prop := StronglySorted (fun a b => bar_ns a <= bar_ns b) bars.

(** Where the timeline stands once [bars] have been replayed. *)
Definition ends_ok (bars : list Bar) m : Prop :=
  match last bars with
  | Some b => timeline rec_ns (t_ns (close_of P b)) (m_records m) \/
              (m_open m = None /\ exists limit, timeline rec_ns limit (m_records m))
  | None => True
  end.

Lemma replay_timeline bars i m m' limit : bars_sorted bars -> replay P i bars m = Ok m' ->
  timeline rec_ns limit (m_records m) ->
  match bars with b :: _ => limit <= t_ns (close_of P b) | [] => True end -> ends_ok bars m'.
Proof.
  revert i m limit. induction bars as [|bar bars IH]; intros i m limit Hs H Htl Hlim; [done |].
  simpl in H. apply result_bind_Ok in H as (m1 & Hstep & H).
  apply StronglySorted_inv in Hs as [Hs Hall].
  apply bt_step_Ok in Hstep as (d & m0 & m2 & Hp & Ht & E1 & _ & _ & Hc & Hk).
  rewrite <- E1 in Htl. pose proof (close_result_timeline _ _ _ _ _ Hlim Ht Hc Htl) as T1.
  pose proof (tick_result_timeline _ _ _ _ _ Hk T1) as T2.
  destruct bars as [|b2 bars].
  - injection H as <-. unfold ends_ok. simpl. destruct T2 as [T2|[Hn T2]]; [by left | right; eauto].
  - apply Forall_cons in Hall as [Hb _]. unfold bar_ns in Hb.
    assert (timeline rec_ns (t_ns (close_of P b2)) (m_records m1)) as T3.
    { destruct T2 as [T2|[_ T2]]; [| exact T2]. eapply timeline_weaken; [| exact T2].
      unfold close_of; simpl. lia. }
    change (ends_ok (b2 :: bars) m'). eapply IH; [exact Hs | exact H | exact T3 | done].
Qed.

(** Replaying bars in time order, the trade records never go back in
    time, although entries and bar exits are stamped with bar closes while
    tick exits carry the tick's own time. *)
Theorem backtest_timeline i bars r :
  bars_sorted bars -> Run P i bars = Ok r ->
  StronglySorted (fun e x => t_ns (tr_Time e) <= t_ns (tr_Time x)) (br_TradeRecords r).
Proof.
  intros Hs H. destruct bars as [|b bars]; [apply Run_empty in H as ->; constructor |].
  apply Run_simulate in H as (m & Hm & -> & _); [| done].
  unfold simulate in Hm. apply result_bind_Ok in Hm as (m1 & Hr & Hf).
  assert (ends_ok (b :: bars) m1) as He.
  { eapply (replay_timeline _ 0 _ _ (t_ns (close_of P b))); [done | exact Hr | | done]. split; constructor. }
  unfold ends_ok in He. unfold force_close in Hf. destruct (last (b :: bars)) as [l|] eqn:Hl;
    [| by apply last_None in Hl].
  destruct (m_open m1) as [open|] eqn:Ho.
  - destruct He as [T|[[=] _]]. apply book_close_Ok in Hf as (ct & _ & _ & -> & _).
    match goal with |- StronglySorted _ (_ ++ [?x]) =>
      apply (timeline_snoc rec_ns _ (t_ns (close_of P l)) _ x T); split; reflexivity end.
  - injection Hf as <-. destruct He as [[T _]|[_ [lim [T _]]]]; exact T.
Qed.
End SimTheory.

(** ** Theory: loading *)

Section LoadTheory.
Context {D : DecimalOps} (H : History).

(** When [getBars] delivers, every bar comes from a stored candle, in
    the order of the store; in the yield modes its closing yield is not zero,
    and in spread mode its benchmark is the one the freshly filled cache has
    for the bar's close.  The window asked of the store starts [SlowWindow+1]
    bars early and was checked to be covered. *)
Theorem get_bars_usable cfg start end_ cache bars cache' :
  getBars H cfg start end_ cache = (Ok bars, cache') ->
  exists loaded,
    LoadCandlesBucketed H (OrderBookID cfg) (Resolution cfg) (data_start cfg start) (load_end cfg end_) = Ok loaded /\
    checkCandleCoverage H cfg (data_start cfg start) (load_end cfg end_) = Ok tt /\
    bars = omap (usable_bar cfg cache') loaded /\
    Forall (fun b =>
      (SignalSource cfg <> SignalSourcePrice -> d_is_zero (bar_CloseYTM b) = false) /\
      (SignalSource cfg = SignalSourceSpread ->
         cachedBenchmarkYield cache' (time_add (bar_Time b) (ResolutionDuration (Resolution cfg)))
           = Some (bar_BenchmarkYield b))) bars /\
    (SignalSource cfg <> SignalSourceSpread -> cache' = cache).
Proof.
  unfold getBars. destruct (_ =? 0); [done |]. intros X.
  apply SE_bind_Ok in X as (u1 & s1 & X1 & X). injection X1 as _ <-.
  apply SE_bind_Ok in X as (u2 & s2 & X1 & X). injection X1 as Hcov <-.
  apply SE_bind_Ok in X as (loaded & s3 & X1 & X). injection X1 as Hload <-.
  apply SE_bind_Ok in X as (u3 & s4 & Hb & X). apply SE_bind_Ok in X as (c' & s5 & X1 & X).
  injection X1 as <- <-.
  assert (LoadCandlesBucketed H (OrderBookID cfg) (Resolution cfg) (data_start cfg start) (load_end cfg end_) = Ok loaded)
    as Hl by (by apply wrap_err_Ok in Hload).
  destruct (_ && _); [done |]. injection X as <- <-. exists loaded. destruct u2. split_and!; try done.
  - apply Forall_forall. intros b (cd & Hin & Hu)%list_elem_of_omap. unfold usable_bar, id in Hu.
    destruct (bool_decide (SignalSource cfg = SignalSourcePrice)) eqn:Ep; simpl in Hu;
      [apply bool_decide_eq_true in Ep | apply bool_decide_eq_false in Ep];
      [| destruct (d_is_zero (c_CloseYTM cd)) eqn:Ez; [discriminate |]];
      case_bool_decide as Es;
      try (destruct (cachedBenchmarkYield s4 _) eqn:Ey; [| discriminate]);
      injection Hu as <-; split; intros; simpl; congruence || done.
  - intros Hns. rewrite bool_decide_eq_false_2 in Hb by done. by injection Hb as _ <-.
Qed.
End LoadTheory.

(** ** Witnesses *)

Definition demo_bar (day p : Z) : Bar (D := RefDec) := {|
  bar_Time := MkTime (day * Day) 0; bar_Open := RD p 0; bar_High := RD p 0; bar_Low := RD p 0; bar_Close := RD p 0;
  bar_Volume := RD 1 0; bar_OpenYTM := RD 0 0; bar_HighYTM := RD 0 0; bar_LowYTM := RD 0 0;
  bar_CloseYTM := RD 0 0; bar_BenchmarkYield := RD 0 0 |}.

Definition demo_config : Config (D := RefDec) := {|
  SignalSource := SignalSourcePrice; FastWindow := 2; SlowWindow := 3; Resolution := "1d";
  ATRWindow := 2; VolumeAvgWindow := 0; VolumeRatioThreshold := RD 1 0;
  StopLossATR := RD 20 0; TakeProfitATR := RD 0 0; MinOrderSize := RD 0 0; MaxOrderSize := RD 5 0;
  MaxPositionSize := RD 1 0; OrderBookID := "book"; CfgTenor := ""; InitialBalance := RD 1000 0; Leverage := RD 1 0 |}.

Definition demo_params : Params (D := RefDec) := {|
  bt_cfg := demo_config; bt_collateralWeight := RD 1 0; bt_baseAssetID := "bond"; bt_ticks := [];
  bt_TradeFrom := zero_time; bt_TradeTo := zero_time; bt_cancelled := fun _ => false |}.

(** A breakout that is bought at 102 and stopped out by a crash to 60. *)
Definition demo_bars : list (Bar (D := RefDec)) := [demo_bar 1 100; demo_bar 2 100; demo_bar 3 102; demo_bar 4 60].

Definition demo_result : BacktestResult (D := RefDec) :=
  get_ok zero_BacktestResult (Run demo_params (new_Ind demo_config) demo_bars).

Lemma demo_run_ok : Run demo_params (new_Ind demo_config) demo_bars = Ok demo_result.
Proof. unfold demo_result. apply is_ok_get. vm_compute. reflexivity. Qed.

Lemma demo_run_last : ct_ExitReason <$> last (br_ClosedTrades demo_result) = Some ExitReasonStopLoss.
Proof. vm_compute. reflexivity. Qed.

Lemma backtest_round_trips_witness :
  exists trips : list (TradeRecord * TradeRecord * ClosedTrade),
    length trips = 1%nat /\ br_TradeRecords demo_result = (trips ≫= fun t => [t.1.1; t.1.2]).
Proof.
  destruct (backtest_round_trips demo_params (new_Ind demo_config) demo_bars demo_result demo_run_ok)
    as (trips & Hr & Hc & _).
  exists trips. split; [| exact Hr]. rewrite <- (length_fmap snd trips), <- Hc. vm_compute. reflexivity.
Defined.

Lemma backtest_exit_pnl_sign_witness :
  exists ct, ct ∈ br_ClosedTrades demo_result /\ (dval (ct_PnL ct) <= 0)%Q.
Proof.
  pose proof demo_run_last as Hl. destruct (last (br_ClosedTrades demo_result)) as [ct|] eqn:E; [| discriminate].
  apply last_Some_elem_of in E. exists ct. split; [exact E |].
  apply (backtest_exit_pnl_sign demo_params (new_Ind demo_config) demo_bars demo_result ct demo_run_ok E).
  by injection Hl as Hl.
Defined.

Lemma backtest_timeline_witness :
  StronglySorted (fun e x => t_ns (tr_Time e) <= t_ns (tr_Time x)) (br_TradeRecords demo_result).
Proof.
  apply (backtest_timeline demo_params (new_Ind demo_config) demo_bars demo_result); [| exact demo_run_ok].
  unfold bars_sorted, demo_bars. repeat (apply SSorted_cons || apply SSorted_nil || constructor);
    vm_compute; discriminate.
Defined.

(** A long entered at 100 with a stop at 80, and the bar that gaps to 60. *)
Definition crashed : TradeRecord (D := RefDec) := {|
  tr_Time := zero_time; tr_BondID := ""; tr_Signal := SignalBuy; tr_Price := RD 100 0;
  tr_Quantity := RD 1 0; tr_PositionSize := RD 1 0; tr_FastMA := RD 0 0; tr_SlowMA := RD 0 0;
  tr_EntryATR := RD 1 0 |}.

Lemma exit_fill_in_bar_witness :
  exitForBar demo_config crashed (demo_bar 4 60) (NewExitDecision (D := RefDec) SignalHold (RD 60 0))
    = Some (RD 60 0, ExitReasonStopLoss) /\ (rval (RD 60 0) <= 60)%Q.
Proof.
  assert (exitForBar demo_config crashed (demo_bar 4 60) (NewExitDecision (D := RefDec) SignalHold (RD 60 0))
    = Some (RD 60 0, ExitReasonStopLoss)) as H by (vm_compute; reflexivity).
  split; [exact H |].
  apply (exit_fill_in_bar (D := RefDec) demo_config crashed (demo_bar 4 60)
    (NewExitDecision (D := RefDec) SignalHold (RD 60 0)) (RD 60 0) ExitReasonStopLoss);
    [repeat split; vm_compute; discriminate | reflexivity | exact H].
Defined.

(** A store with one candle and a client that knows one benchmark. *)
Definition spread_config : Config (D := RefDec) := {|
  SignalSource := SignalSourceSpread; FastWindow := 2; SlowWindow := 3; Resolution := "1d";
  ATRWindow := 2; VolumeAvgWindow := 0; VolumeRatioThreshold := RD 1 0;
  StopLossATR := RD 20 0; TakeProfitATR := RD 0 0; MinOrderSize := RD 0 0; MaxOrderSize := RD 5 0;
  MaxPositionSize := RD 1 0; OrderBookID := "book"; CfgTenor := "10Y"; InitialBalance := RD 1000 0; Leverage := RD 1 0 |}.

Definition demo_history : History (D := RefDec) := {|
  CandleStoreAvailable := Ok tt;
  Store_CandleRange := fun _ => Ok (Some (MkTime Day 0), Some (MkTime (30 * Day) 0));
  LoadCandlesBucketed := fun _ _ _ _ => Ok [{|
    c_StartTimestamp := MkTime (12 * Day) 0; c_Open := RD 99 0; c_High := RD 99 0; c_Low := RD 99 0;
    c_Close := RD 99 0; c_Volume := RD 1 0; c_OpenYTM := RD 5 0; c_HighYTM := RD 5 0; c_LowYTM := RD 5 0;
    c_CloseYTM := RD 5 0 |}];
  LoadHistoricalPrices := None;
  BenchmarkClient := Ok (fun _ _ _ => Ok [demo_obs 11 425]) |}.

Lemma get_bars_usable_witness :
  let out := getBars demo_history spread_config (MkTime (10 * Day) 0) (MkTime (20 * Day) 0) [] in
  exists loaded, get_ok [] out.1 = omap (usable_bar spread_config out.2) loaded /\ length loaded = 1%nat.
Proof.
  intros out.
  assert (out = (Ok (get_ok [] out.1), out.2)) as Ho by reflexivity.
  destruct (get_bars_usable demo_history spread_config (MkTime (10 * Day) 0) (MkTime (20 * Day) 0) []
    (get_ok [] out.1) out.2 Ho) as (loaded & Hl & _ & Hb & _).
  exists loaded. split; [exact Hb |]. by injection Hl as <-.
Defined.
