(* ===== verification/Streams.v ===== *)
(** * internal/agent/backtest: the replay streams of an agent's backtest

    [pagestream.go]: a prefetcher goroutine that stays one page ahead of its
    consumer; [mergestream.go]: the picker that interleaves the candle, trade
    and price streams in time order.

    A page stream is the state of both goroutines and of the channels between
    them; the prefetcher is a step relation, the consumer's methods are
    functions, and a pass of the picker allows any number of prefetcher steps
    between any two of them.

    Theory: whatever the interleaving, the events delivered are the merge of
    the rows of the three sources, nothing lost or repeated; the merge is in
    time order; at most one page is fetched ahead; a blocked picker always
    has a wake-up coming. *)

From S2P Require Import Prelude GoTime.
From stdpp Require Import relations.
#[local] Open Scope Z_scope.

Section PageStream.
Context {T : Type}.

(** A fetch function: the rows, the next cursor and the error. *)
Definition pageFetcher : Type := string -> list T * string * option error.

Record streamPage := MkPage { pg_rows : list T; pg_cursor : string; pg_done : bool; pg_err : option error }.

(** Where the prefetcher goroutine is. *)
Inductive Pc :=
  | Fetching (cursor : string)
  | Parking (p : streamPage)
  | Waking (p : streamPage)
  | Waiting (cursor : string)
  | Exited.

Record pageStream := MkStream {
  ps_rows : list T;
  ps_idx : nat;
  ps_done : bool;
  ps_err : option error;
  ps_next : option streamPage;   (* nextCh, capacity 1 *)
  ps_req : bool;                 (* reqNextCh, capacity 1 *)
  ps_wake : bool;                (* wakeCh, capacity 1 *)
  ps_stopped : bool;             (* stopCh closed or the context done *)
  ps_pc : Pc;
  (* pages fetched and installed so far *)
  ps_fetched : nat;
  ps_installed : nat;
}.

Definition newPageStream (startCursor : string) : pageStream :=
  MkStream [] 0 false None None false false false (Fetching startCursor) 0 0.

Definition set_pc (pc : Pc) (s : pageStream) : pageStream :=
  MkStream (ps_rows s) (ps_idx s) (ps_done s) (ps_err s) (ps_next s) (ps_req s) (ps_wake s) (ps_stopped s) pc
    (ps_fetched s) (ps_installed s).
Definition set_next (n : option streamPage) (s : pageStream) : pageStream :=
  MkStream (ps_rows s) (ps_idx s) (ps_done s) (ps_err s) n (ps_req s) (ps_wake s) (ps_stopped s) (ps_pc s)
    (ps_fetched s) (ps_installed s).
Definition set_req (b : bool) (s : pageStream) : pageStream :=
  MkStream (ps_rows s) (ps_idx s) (ps_done s) (ps_err s) (ps_next s) b (ps_wake s) (ps_stopped s) (ps_pc s)
    (ps_fetched s) (ps_installed s).
Definition set_wake (b : bool) (s : pageStream) : pageStream :=
  MkStream (ps_rows s) (ps_idx s) (ps_done s) (ps_err s) (ps_next s) (ps_req s) b (ps_stopped s) (ps_pc s)
    (ps_fetched s) (ps_installed s).
Definition count_fetch (s : pageStream) : pageStream :=
  MkStream (ps_rows s) (ps_idx s) (ps_done s) (ps_err s) (ps_next s) (ps_req s) (ps_wake s) (ps_stopped s) (ps_pc s)
    (S (ps_fetched s)) (ps_installed s).

(** The page made of one fetch: no rows and no error means exhausted. *)
Definition fetch_page (fetch : pageFetcher) (cursor : string) : streamPage :=
  let '(rows, next, err) := fetch cursor in
  match err, rows with
  | None, [] => MkPage rows "" true err
  | _, _ => MkPage rows next false err
  end.

(** The prefetcher returns after such a page. *)
Definition final_page (p : streamPage) : bool := pg_done p || bool_decide (is_Some (pg_err p)).

(** [prefetch] *)
Inductive prefetch_step (fetch : pageFetcher) (s : pageStream) : pageStream -> Prop :=
  | pf_fetch c : ps_pc s = Fetching c ->
      prefetch_step fetch s (count_fetch (set_pc (Parking (fetch_page fetch c)) s))
  | pf_park p : ps_pc s = Parking p -> ps_next s = None ->
      prefetch_step fetch s (set_pc (Waking p) (set_next (Some p) s))
  | pf_park_stop p : ps_pc s = Parking p -> ps_stopped s = true -> prefetch_step fetch s (set_pc Exited s)
  | pf_wake p : ps_pc s = Waking p ->
      prefetch_step fetch s (set_pc (if final_page p then Exited else Waiting (pg_cursor p)) (set_wake true s))
  | pf_req c : ps_pc s = Waiting c -> ps_req s = true ->
      prefetch_step fetch s (set_pc (Fetching c) (set_req false s))
  | pf_wait_stop c : ps_pc s = Waiting c -> ps_stopped s = true -> prefetch_step fetch s (set_pc Exited s).

(** ** The consumer *)

Definition installPage (np : streamPage) (s : pageStream) : pageStream :=
  MkStream (pg_rows np) 0 (pg_done np) (pg_err np) (ps_next s) true (ps_wake s) (ps_stopped s) (ps_pc s)
    (ps_fetched s) (S (ps_installed s)).

(** Take a parked page when the current one is exhausted. *)
Definition drain (s : pageStream) : pageStream :=
  if (length (ps_rows s) <=? ps_idx s)%nat then
    match ps_next s with
    | Some np => installPage np (set_next None s)
    | None => s
    end
  else s.

Inductive Peek := PeekRow (row : T) | PeekNone | PeekErr (e : error).

Definition peek (s : pageStream) : Peek * pageStream :=
  let s1 := drain s in
  match ps_err s1 with
  | Some e => (PeekErr e, s1)
  | None => match ps_rows s1 !! ps_idx s1 with Some row => (PeekRow row, s1) | None => (PeekNone, s1) end
  end.

Definition consume (s : pageStream) : pageStream :=
  if (ps_idx s <? length (ps_rows s))%nat then
    MkStream (ps_rows s) (S (ps_idx s)) (ps_done s) (ps_err s) (ps_next s) (ps_req s) (ps_wake s) (ps_stopped s)
      (ps_pc s) (ps_fetched s) (ps_installed s)
  else s.

Definition isDone (s : pageStream) : bool * pageStream := let s1 := drain s in (ps_done s1, s1).

Definition parkedRows (s : pageStream) : nat := length (ps_rows s) - ps_idx s.

(** [close], before it waits for the prefetcher *)
Definition close (s : pageStream) : pageStream :=
  MkStream (ps_rows s) (ps_idx s) (ps_done s) (ps_err s) (ps_next s) (ps_req s) (ps_wake s) true (ps_pc s)
    (ps_fetched s) (ps_installed s).
End PageStream.
Arguments streamPage : clear implicits.
Arguments pageStream : clear implicits.
Arguments pageFetcher : clear implicits.
Arguments Pc : clear implicits.
Arguments Peek : clear implicits.

(** ** The merge *)

Inductive eventKind := kindCandle | kindTrade | kindPrice.

#[export] Instance eventKind_eq_dec : EqDecision eventKind.
Proof. solve_decision. Defined.

(** [mergeStream.all] *)
Definition all_kinds : list eventKind := [kindCandle; kindTrade; kindPrice].

Section Merge.
Context {T : Type} (Timestamp : T -> Time).

Definition mergeStream : Type := eventKind -> pageStream T.

Definition set_stream (k : eventKind) (s : pageStream T) (m : mergeStream) : mergeStream :=
  fun k' => if decide (k' = k) then s else m k'.

(** What one pass over a stream observed. *)
Inductive Obs := ObsErr (e : error) | ObsRow (row : T) (done : bool) | ObsNone (done1 done2 : bool).

(** The accumulators of [next]. *)
Record Scan := { sc_pick : option (eventKind * T); sc_err : option error; sc_allFin : bool; sc_liveWait : bool }.
Definition init_scan : Scan := {| sc_pick := None; sc_err := None; sc_allFin := true; sc_liveWait := false |}.

Definition pick_step (acc : option (eventKind * T)) (k : eventKind) (row : T) : option (eventKind * T) :=
  match acc with
  | None => Some (k, row)
  | Some (_, y) => if time_before (Timestamp row) (Timestamp y) then Some (k, row) else acc
  end.

Definition scan_obs (a : Scan) (k : eventKind) (o : Obs) : Scan :=
  match o with
  | ObsErr e => {| sc_pick := sc_pick a; sc_err := match sc_err a with None => Some e | x => x end;
                   sc_allFin := sc_allFin a; sc_liveWait := sc_liveWait a |}
  | ObsRow row d => {| sc_pick := pick_step (sc_pick a) k row; sc_err := sc_err a;
                       sc_allFin := sc_allFin a && d; sc_liveWait := sc_liveWait a |}
  | ObsNone d1 d2 => {| sc_pick := sc_pick a; sc_err := sc_err a;
                        sc_allFin := sc_allFin a && d2; sc_liveWait := sc_liveWait a || negb d1 |}
  end.

Inductive Outcome := Deliver (k : eventKind) (row : T) | Finished (e : option error) | Block.

Definition outcome (a : Scan) : Outcome :=
  match sc_pick a, sc_liveWait a with
  | Some (k, row), false => Deliver k row
  | _, _ => if sc_allFin a then Finished (sc_err a) else Block
  end.

Context (fetch : eventKind -> pageFetcher T).
Definition prefetching (k : eventKind) : relation (pageStream T) := rtc (prefetch_step (fetch k)).

(** The consumer's calls on one stream, the prefetcher running in between. *)
Inductive stream_pass (k : eventKind) (s : pageStream T) : Obs -> pageStream T -> Prop :=
  | pass_err s1 s2 e s' : prefetching k s s1 -> peek s1 = (PeekErr e, s2) -> prefetching k s2 s' ->
      stream_pass k s (ObsErr e) s'
  | pass_row s1 s2 row s3 d s4 s' : prefetching k s s1 -> peek s1 = (PeekRow row, s2) ->
      prefetching k s2 s3 -> isDone s3 = (d, s4) -> prefetching k s4 s' ->
      stream_pass k s (ObsRow row d) s'
  | pass_none s1 s2 s3 d1 s4 s5 d2 s6 s' : prefetching k s s1 -> peek s1 = (PeekNone, s2) ->
      prefetching k s2 s3 -> isDone s3 = (d1, s4) -> prefetching k s4 s5 -> isDone s5 = (d2, s6) ->
      prefetching k s6 s' -> stream_pass k s (ObsNone d1 d2) s'.

(** One round of the loop of [next] up to its verdict. *)
Definition merge_pass (m : mergeStream) (o : Outcome) (m' : mergeStream) : Prop :=
  exists obs : eventKind -> Obs,
    (forall k, stream_pass k (m k) (obs k) (m' k)) /\
    o = outcome (foldl (fun a k => scan_obs a k (obs k)) init_scan all_kinds).

(** A delivery consumes the row; a block ends when some stream's wake-up is
    received. *)
Inductive merge_step (m : mergeStream) : option (eventKind * T) -> mergeStream -> Prop :=
  | step_deliver k row m1 : merge_pass m (Deliver k row) m1 ->
      merge_step m (Some (k, row)) (set_stream k (consume (m1 k)) m1)
  | step_block m1 m2 k : merge_pass m Block m1 ->
      (forall k', prefetching k' (m1 k') (m2 k')) -> ps_wake (m2 k) = true ->
      merge_step m None (set_stream k (set_wake false (m2 k)) m2).

(** The events delivered by a sequence of calls of [next]. *)
Inductive merge_run : mergeStream -> list (eventKind * T) -> mergeStream -> Prop :=
  | run_nil m : merge_run m [] m
  | run_cons m o m1 evs m2 : merge_step m o m1 -> merge_run m1 evs m2 ->
      merge_run m (option_list o ++ evs) m2.

Definition newMergeStream (cursor : eventKind -> string) : mergeStream := fun k => newPageStream (cursor k).
End Merge.

(** ** Theory: one stream *)

Section StreamTheory.
Context {T : Type} (fetch : pageFetcher T).
Implicit Types (s : pageStream T) (p : streamPage T) (l : list (streamPage T)).

(** The pages a cursor leads to, up to the one that ends the stream. *)
Inductive chain : string -> list (streamPage T) -> Prop :=
  | chain_end c : final_page (fetch_page fetch c) = true -> chain c [fetch_page fetch c]
  | chain_more c l : final_page (fetch_page fetch c) = false -> chain (pg_cursor (fetch_page fetch c)) l ->
      chain c (fetch_page fetch c :: l).

(** What the prefetcher will still park. *)
Inductive pc_pages : Pc T -> list (streamPage T) -> Prop :=
  | pp_fetching c l : chain c l -> pc_pages (Fetching c) l
  | pp_parking_end p : final_page p = true -> pc_pages (Parking p) [p]
  | pp_parking p l : final_page p = false -> chain (pg_cursor p) l -> pc_pages (Parking p) (p :: l)
  | pp_waking_end p : final_page p = true -> pc_pages (Waking p) []
  | pp_waking p l : final_page p = false -> chain (pg_cursor p) l -> pc_pages (Waking p) l
  | pp_waiting c l : chain c l -> pc_pages (Waiting c) l
  | pp_exited : pc_pages Exited [].

(** Only the last page of the list ends the stream. *)
Fixpoint ends_final l : Prop :=
  match l with
  | [] => False
  | [p] => final_page p = true
  | p :: l' => final_page p = false /\ ends_final l'
  end.

Definition cur_final s : bool := ps_done s || bool_decide (is_Some (ps_err s)).

(** The rows of a page that can be delivered. *)
Definition good_rows p : list T := match pg_err p with Some _ => [] | None => pg_rows p end.

(** [l] is what remains after the current page; a done page has no rows. *)
Record stream_ok s l : Prop := {
  so_pages : exists l', pc_pages (ps_pc s) l' /\ l = option_list (ps_next s) ++ l';
  so_final : if cur_final s then l = [] else ends_final l;
  so_done : ps_done s = true -> ps_rows s = [] /\ ps_err s = None;
  so_idx : (ps_idx s <= length (ps_rows s))%nat;
  so_good : Forall (fun p => pg_done p = true -> pg_rows p = [] /\ pg_err p = None) l;
}.

Definition remaining s l : list T :=
  match ps_err s with Some _ => [] | None => drop (ps_idx s) (ps_rows s) ++ (l ≫= good_rows) end.
Definition final_err s l : option error :=
  match last l with Some p => pg_err p | None => ps_err s end.

Lemma fetch_page_good c : pg_done (fetch_page fetch c) = true ->
  pg_rows (fetch_page fetch c) = [] /\ pg_err (fetch_page fetch c) = None.
Proof. unfold fetch_page. destruct (fetch c) as [[rows next] [e|]]; simpl; [done |]. by destruct rows. Qed.

Lemma chain_ends c l : chain c l -> ends_final l /\ Forall (fun p => pg_done p = true -> pg_rows p = [] /\ pg_err p = None) l.
Proof.
  induction 1 as [c H|c l H Hc [IH1 IH2]].
  - split; [done |]. repeat constructor; by apply fetch_page_good.
  - split; [| constructor; [apply fetch_page_good | done]]. simpl. destruct l as [|p l]; [done |]. by split.
Qed.

(** A fresh stream still has its whole chain ahead. *)
Lemma new_stream_ok c l : chain c l -> stream_ok (newPageStream c) l.
Proof.
  intros Hc. pose proof (chain_ends c l Hc) as [He Hg]. split; simpl; try done.
  exists l. split; [by constructor | done].
Qed.

Lemma new_stream_remaining c l : remaining (newPageStream c) l = l ≫= good_rows.
Proof. done. Qed.

Lemma prefetch_step_ok s s' l : prefetch_step fetch s s' -> ps_stopped s = false -> stream_ok s l ->
  stream_ok s' l /\ remaining s' l = remaining s l /\ final_err s' l = final_err s l /\ ps_stopped s' = false.
Proof.
  intros Hstep Hst [(l' & Hp & ->) Hf Hd Hi Hg].
  destruct Hstep as [c Hpc|p Hpc Hn|p Hpc Hs|p Hpc|c Hpc Hr|c Hpc Hs]; try congruence; rewrite Hpc in Hp;
    inversion Hp; subst; (split; [split; simpl; try done | done]).
  - match goal with H : chain _ _ |- _ => inversion H; subst end.
    + exists [fetch_page fetch c]. split; [by constructor | done].
    + exists (fetch_page fetch c :: l). split; [by constructor | done].
  - exists []. rewrite Hn. split; [by constructor | done].
  - exists l. rewrite Hn. split; [by constructor | done].
  - exists []. split; [| done]. match goal with H : final_page p = true |- _ => rewrite H end. constructor.
  - exists l'. split; [| done]. match goal with H : final_page p = false |- _ => rewrite H end. by constructor.
  - exists l'. split; [by constructor | done].
Qed.

Lemma prefetching_ok s s' l : rtc (prefetch_step fetch) s s' -> ps_stopped s = false -> stream_ok s l ->
  stream_ok s' l /\ remaining s' l = remaining s l /\ final_err s' l = final_err s l /\ ps_stopped s' = false.
Proof.
  induction 1 as [s|s s1 s2 Hs _ IH]; intros Hst Hok; [done |].
  destruct (prefetch_step_ok _ _ _ Hs Hst Hok) as (Hok1 & E1 & E2 & Hst1).
  destruct (IH Hst1 Hok1) as (? & -> & -> & ?). done.
Qed.

(** Installing a parked page changes neither what remains nor how it ends. *)
Lemma drain_ok s l : ps_stopped s = false -> stream_ok s l ->
  exists l', stream_ok (drain s) l' /\ remaining (drain s) l' = remaining s l /\
    final_err (drain s) l' = final_err s l /\ ps_stopped (drain s) = false.
Proof.
  intros Hst Hok. pose proof Hok as [(l' & Hp & El) Hf Hd Hi Hg]. unfold drain.
  destruct (length (ps_rows s) <=? ps_idx s)%nat eqn:Hl; bool_prop;
    [| by exists l].
  destruct (ps_next s) as [np|] eqn:Hn; [| by exists l].
  simpl in El. subst l. exists l'. apply Forall_cons in Hg as [Hg1 Hg2].
  destruct (cur_final s) eqn:Hc; [done |].
  assert (ps_err s = None) as He.
  { unfold cur_final in Hc. bool_prop. apply bool_decide_eq_false in H0. by destruct (ps_err s); [destruct H0; eauto |]. }
  split_and!; try done.
  - split; simpl; try done; [by exists l' | | lia].
    change (cur_final _) with (final_page np).
    destruct (final_page np) eqn:Hfp; destruct l' as [|p2 l2]; simpl in Hf; try done;
      (congruence || destruct Hf; congruence || done).
  - unfold remaining. simpl. rewrite He, (drop_ge (ps_rows s)) by lia. simpl. unfold good_rows at 2.
    destruct (pg_err np) eqn:Hpe; [| done]. simpl.
    destruct l' as [|p2 l2]; [done |]. destruct Hf as [Hf _]. unfold final_page in Hf. rewrite Hpe in Hf.
    rewrite bool_decide_eq_true_2 in Hf by eauto. by rewrite orb_true_r in Hf.
  - unfold final_err. rewrite (last_cons np). by destruct (last l') as [p2|].
Qed.

(** The stream is not closed, and [r] and [e] are the rows it still has to
    deliver and the error it will end with. *)
Definition stream_inv s (r : list T) (e : option error) : Prop :=
  ps_stopped s = false /\ exists l, stream_ok s l /\ remaining s l = r /\ final_err s l = e.

Lemma prefetching_inv s s' r e : rtc (prefetch_step fetch) s s' -> stream_inv s r e -> stream_inv s' r e.
Proof.
  intros Hs [Hst (l & Hok & <- & <-)]. destruct (prefetching_ok _ _ _ Hs Hst Hok) as (? & ? & ? & ?).
  split; [done | by exists l].
Qed.

Lemma drain_inv s r e : stream_inv s r e -> stream_inv (drain s) r e.
Proof.
  intros [Hst (l & Hok & <- & <-)]. destruct (drain_ok s l Hst Hok) as (l' & ? & ? & ? & ?).
  split; [done | by exists l'].
Qed.

(** The row under the consumer's cursor. *)
Definition at_row s (x : T) : Prop := ps_err s = None /\ ps_rows s !! ps_idx s = Some x.

Lemma at_row_head s r e x : stream_inv s r e -> at_row s x -> hd_error r = Some x /\ ps_done s = false.
Proof.
  intros [Hst (l & [_ _ Hd _ _] & <- & _)] [He Hx]. unfold remaining. rewrite He.
  rewrite (drop_S _ x) by done. split; [done |].
  destruct (ps_done s); [| done]. destruct Hd as [Hr _]; [done |]. by rewrite Hr in Hx.
Qed.

Lemma prefetching_at_row s s' x : rtc (prefetch_step fetch) s s' -> at_row s x -> at_row s' x.
Proof. induction 1 as [|s s1 s2 [] _ IH]; auto. Qed.

Lemma drain_at_row s x : at_row s x -> drain s = s.
Proof.
  intros [_ Hx]. unfold drain. apply lookup_lt_Some in Hx.
  destruct (length (ps_rows s) <=? ps_idx s)%nat eqn:E; bool_prop; [lia | done].
Qed.

Lemma stream_inv_err s r e x : stream_inv s r e -> ps_err s = Some x -> r = [] /\ e = Some x.
Proof.
  intros [Hst (l & [_ Hf _ _ _] & <- & <-)] He. unfold remaining. rewrite He.
  unfold cur_final in Hf. rewrite He, bool_decide_eq_true_2, orb_true_r in Hf by eauto. by subst l.
Qed.

Lemma stream_inv_done s r e : stream_inv s r e -> ps_done s = true -> r = [] /\ e = None.
Proof.
  intros [Hst (l & [_ Hf Hd _ _] & <- & <-)] He. destruct (Hd He) as [Hr Her].
  unfold cur_final in Hf. rewrite He in Hf. simpl in Hf. subst l.
  unfold remaining, final_err. by rewrite Her, Hr, drop_nil.
Qed.

Lemma consume_inv s x r e : stream_inv s (x :: r) e -> at_row s x -> stream_inv (consume s) r e.
Proof.
  intros [Hst (l & [Hp Hf Hd Hi Hg] & Hr & He)] [Her Hx]. pose proof (lookup_lt_Some _ _ _ Hx) as Hlt.
  unfold consume. rewrite (proj2 (Nat.ltb_lt _ _) Hlt). split; [done |]. exists l.
  split_and!; [split; [exact Hp | exact Hf | exact Hd | simpl; lia | exact Hg] | |].
  - unfold remaining in *. simpl. rewrite Her in *. rewrite (drop_S _ x) in Hr by done. by injection Hr.
  - exact He.
Qed.

Lemma peek_inv s r e v s' : peek s = (v, s') -> stream_inv s r e ->
  stream_inv s' r e /\
  match v with
  | PeekRow x => at_row s' x
  | PeekErr x => r = [] /\ e = Some x
  | PeekNone => True
  end.
Proof.
  intros H Hinv. apply drain_inv in Hinv. unfold peek in H.
  destruct (ps_err (drain s)) as [x|] eqn:He.
  - injection H as <- <-. split; [done |]. by eapply stream_inv_err.
  - destruct (_ !! _) eqn:Hx; injection H as <- <-; by split.
Qed.

Lemma isDone_inv s r e d s' : isDone s = (d, s') -> stream_inv s r e ->
  stream_inv s' r e /\ (d = true -> r = [] /\ e = None).
Proof.
  intros H Hinv. apply drain_inv in Hinv. injection H as <- <-. split; [done |]. by apply stream_inv_done.
Qed.
End StreamTheory.

(** ** Theory: the merge *)

Section MergeTheory.
Context {T : Type} (Timestamp : T -> Time) (fetch : eventKind -> pageFetcher T).
Implicit Types (m : eventKind -> pageStream T) (rest : eventKind -> list T) (errs : eventKind -> option error).

(** The merge as the loop picks: the earliest head, the first kind on a tie. *)
Definition head_pick rest : option (eventKind * T) :=
  foldl (fun acc k => match rest k with [] => acc | x :: _ => pick_step Timestamp acc k x end) None all_kinds.

Definition pop (k : eventKind) rest : eventKind -> list T :=
  fun k' => if decide (k' = k) then tail (rest k') else rest k'.

Fixpoint merge_all (fuel : nat) rest : list (eventKind * T) :=
  match fuel with
  | O => []
  | S n => match head_pick rest with None => [] | Some (k, x) => (k, x) :: merge_all n (pop k rest) end
  end.

Definition total rest : nat := length (rest kindCandle) + length (rest kindTrade) + length (rest kindPrice).
Definition merge_rows rest : list (eventKind * T) := merge_all (total rest) rest.

Lemma head_pick_None rest : head_pick rest = None -> total rest = 0%nat.
Proof.
  unfold head_pick, all_kinds, total. simpl. unfold pick_step.
  destruct (rest kindCandle), (rest kindTrade), (rest kindPrice); simpl; try done; split_match; try done.
Qed.

Lemma head_pick_Some rest k x : head_pick rest = Some (k, x) ->
  (exists r, rest k = x :: r) /\
  forall k' y r', rest k' = y :: r' -> t_ns (Timestamp x) <= t_ns (Timestamp y).
Proof.
  unfold head_pick, all_kinds. simpl. unfold pick_step. intros H.
  destruct (rest kindCandle) as [|c rc] eqn:Ec, (rest kindTrade) as [|t rt] eqn:Et, (rest kindPrice) as [|q rq] eqn:Eq;
    simpl in H; try done; split_match_in H; simplify_eq; unfold time_before in *; bool_prop;
    (split; [eauto |]); intros [] y r' Hy; rewrite ?Ec, ?Et, ?Eq in Hy; simplify_eq; lia.
Qed.

Lemma total_pop rest k x r : rest k = x :: r -> total rest = S (total (pop k rest)).
Proof. unfold total, pop. intros H. destruct k; simpl; rewrite H; simpl; lia. Qed.

Lemma merge_rows_pick rest k x : head_pick rest = Some (k, x) ->
  merge_rows rest = (k, x) :: merge_rows (pop k rest).
Proof.
  intros H. unfold merge_rows. destruct (head_pick_Some _ _ _ H) as [[r Hr] _].
  rewrite (total_pop _ _ _ _ Hr). simpl. by rewrite H.
Qed.

Lemma merge_rows_done rest : (forall k, rest k = []) -> merge_rows rest = [].
Proof. intros H. unfold merge_rows, total. by rewrite !H. Qed.

(** The order of events is specified on its own, without the loop: an event is
    next when it is the first row left of its kind, and no other kind's first
    row is earlier, or at the same time and of a kind before it. *)
Definition rank (k : eventKind) : nat := match k with kindCandle => 0 | kindTrade => 1 | kindPrice => 2 end.
Definition comes_first rest (k : eventKind) (x : T) : Prop :=
  hd_error (rest k) = Some x /\
  forall k' y, hd_error (rest k') = Some y -> k' <> k ->
    t_ns (Timestamp x) < t_ns (Timestamp y) \/ t_ns (Timestamp x) = t_ns (Timestamp y) /\ (rank k < rank k')%nat.

(** [merges rest l]: [l] is the merge of the rows [rest]. *)
Inductive merges : (eventKind -> list T) -> list (eventKind * T) -> Prop :=
  | merges_nil rest : (forall k, rest k = []) -> merges rest []
  | merges_cons rest k x l : comes_first rest k x -> merges (pop k rest) l -> merges rest ((k, x) :: l).

Lemma comes_first_unique rest k x k' y : comes_first rest k x -> comes_first rest k' y -> k = k' /\ x = y.
Proof.
  intros [H1 H2] [H3 H4]. destruct (decide (k = k')) as [->|Hne]; [split; congruence |].
  specialize (H2 k' y H3 (not_eq_sym Hne)). specialize (H4 k x H1 Hne). lia.
Qed.

Lemma head_pick_first rest k x : head_pick rest = Some (k, x) -> comes_first rest k x.
Proof.
  unfold head_pick, comes_first, all_kinds. simpl. unfold pick_step. intros H.
  destruct (rest kindCandle) as [|c rc] eqn:Ec, (rest kindTrade) as [|u ru] eqn:Eu, (rest kindPrice) as [|q rq] eqn:Eq;
    simpl in H; try done; split_match_in H; simplify_eq; unfold time_before in *; bool_prop;
    (split; [by rewrite ?Ec, ?Eu, ?Eq |]); intros [] y Hy Hne; rewrite ?Ec, ?Eu, ?Eq in Hy; simpl in Hy; simplify_eq; simpl; lia.
Qed.

Lemma merges_merge_all n rest : (total rest <= n)%nat -> merges rest (merge_all n rest).
Proof.
  assert (forall r, total r = 0%nat -> forall k, r k = []) as Hz.
  { intros r Hr k. unfold total in Hr. destruct k; apply length_zero_iff_nil; lia. }
  revert rest. induction n as [|n IH]; intros rest Hn; simpl; [apply merges_nil, Hz; lia |].
  destruct (head_pick rest) as [[k x]|] eqn:E; [| by apply merges_nil, Hz, head_pick_None].
  pose proof (head_pick_first _ _ _ E) as Hf. apply merges_cons; [done |]. apply IH.
  destruct (head_pick_Some _ _ _ E) as [[r Hr] _]. rewrite (total_pop _ _ _ _ Hr) in Hn. lia.
Qed.
Lemma merges_merge_rows rest : merges rest (merge_rows rest).
Proof. by apply merges_merge_all. Qed.

Lemma merges_unique rest l l' : merges rest l -> merges rest l' -> l' = l.
Proof.
  intros H. revert l'. induction H as [rest Hn|rest k x l Hf _ IH]; intros l' H'; destruct H' as [rest' Hn'|rest' k' y l' Hf' H']; [done | | |].
  - destruct Hf' as [Hh _]. by rewrite Hn in Hh.
  - destruct Hf as [Hh _]. by rewrite Hn' in Hh.
  - destruct (comes_first_unique _ _ _ _ _ Hf Hf') as [<- <-]. f_equal. by apply IH.
Qed.

Definition by_time (a b : T) : Prop := t_ns (Timestamp a) <= t_ns (Timestamp b).

Lemma pop_sorted k rest : (forall k, StronglySorted by_time (rest k)) -> forall k', StronglySorted by_time (pop k rest k').
Proof.
  intros H k'. unfold pop. destruct (decide (k' = k)); [| done]. specialize (H k').
  destruct (rest k') as [|x r]; [done |]. by apply StronglySorted_inv in H as [? _].
Qed.

Lemma merges_In rest l k x : merges rest l -> (k, x) ∈ l -> x ∈ rest k.
Proof.
  induction 1 as [rest Hn|rest k' y l [Hh _] _ IH]; intros H; [by apply elem_of_nil in H |].
  apply elem_of_cons in H as [H|H].
  - injection H as -> ->. destruct (rest k') as [|z r]; [done |]. injection Hh as ->. by left.
  - apply IH in H. unfold pop in H. destruct (decide (k = k')) as [->|]; [| done]. destruct (rest k'); [done | by right].
Qed.

(** Sources in the order of time merge into the order of time. *)
Lemma merges_sorted rest l : merges rest l -> (forall k, StronglySorted by_time (rest k)) -> StronglySorted (fun a b => by_time a.2 b.2) l.
Proof.
  intros Hm. induction Hm as [rest Hn|rest k x l [Hh Hmin] Hm IH]; intros Hs; [constructor |].
  constructor; [by apply IH, pop_sorted |]. apply Forall_forall. intros [k' y] Hin. apply (merges_In _ _ _ _ Hm) in Hin.
  assert (y ∈ rest k') as Hy.
  { unfold pop in Hin. destruct (decide (k' = k)) as [->|]; [| done]. destruct (rest k); [done | by right]. }
  pose proof (Hs k') as Hk'. destruct (rest k') as [|h r] eqn:Ek; [by apply elem_of_nil in Hy |].
  assert (by_time x h) as Hle.
  { destruct (decide (k' = k)) as [->|Hne]; [rewrite Ek in Hh; injection Hh as ->; unfold by_time; lia |].
    unfold by_time. specialize (Hmin k' h). rewrite Ek in Hmin. specialize (Hmin eq_refl Hne). lia. }
  apply StronglySorted_inv in Hk' as [_ Hall]. apply elem_of_cons in Hy as [->|Hy]; [exact Hle |].
  rewrite Forall_forall in Hall. specialize (Hall _ Hy). unfold by_time in *. simpl. lia.
Qed.

Definition merge_inv m rest errs : Prop := forall k, stream_inv (fetch k) (m k) (rest k) (errs k).

(** What a pass over one stream says of the rows it still has. *)
Lemma stream_pass_inv k s o s' r e : stream_pass fetch k s o s' -> stream_inv (fetch k) s r e ->
  stream_inv (fetch k) s' r e /\
  match o with
  | ObsErr x => r = [] /\ e = Some x
  | ObsRow x d => hd_error r = Some x /\ d = false /\ at_row s' x
  | ObsNone d1 d2 => (d1 = true -> r = [] /\ e = None) /\ (d2 = true -> r = [] /\ e = None)
  end.
Proof.
  intros Hp Hi. destruct Hp as [s1 s2 x s' H1 H2 H3|s1 s2 x s3 d s4 s' H1 H2 H3 H4 H5|
    s1 s2 s3 d1 s4 s5 d2 s6 s' H1 H2 H3 H4 H5 H6 H7]; apply (prefetching_inv _ _ _ _ _ H1) in Hi;
    apply (peek_inv _ _ _ _ _ _ H2) in Hi as [Hi Hv].
  - split; [by eapply prefetching_inv | done].
  - apply (prefetching_inv _ _ _ _ _ H3) in Hi. apply (prefetching_at_row _ _ _ _ H3) in Hv.
    pose proof (at_row_head _ _ _ _ _ Hi Hv) as [Hh Hd].
    unfold isDone in H4. rewrite (drain_at_row _ _ Hv) in H4. injection H4 as <- <-.
    split; [by eapply prefetching_inv |]. split_and!; [done | done | by eapply prefetching_at_row].
  - apply (prefetching_inv _ _ _ _ _ H3) in Hi. apply (isDone_inv _ _ _ _ _ _ H4) in Hi as [Hi Hd1].
    apply (prefetching_inv _ _ _ _ _ H5) in Hi. apply (isDone_inv _ _ _ _ _ _ H6) in Hi as [Hi Hd2].
    split; [by eapply prefetching_inv | done].
Qed.

(** The first error in the order the streams are looked at. *)
Definition first_error errs : option error :=
  foldl (fun acc k => match acc with None => errs k | x => x end) None all_kinds.

Definition scan (obs : eventKind -> Obs (T := T)) : Scan (T := T) :=
  foldl (fun a k => scan_obs Timestamp a k (obs k)) init_scan all_kinds.

(** The verdict of a pass, against what the streams really hold. *)
Lemma merge_pass_verdict m o m' rest errs : merge_pass Timestamp fetch m o m' -> merge_inv m rest errs ->
  merge_inv m' rest errs /\
  match o with
  | Deliver k x => head_pick rest = Some (k, x) /\ at_row (m' k) x
  | Finished e => (forall k, rest k = []) /\ e = first_error errs
  | Block => True
  end.
Proof.
  intros (obs & Hobs & ->) Hi.
  assert (Hk : forall k, stream_inv (fetch k) (m' k) (rest k) (errs k) /\ _) by
    (intros k; exact (stream_pass_inv _ _ _ _ _ _ (Hobs k) (Hi k))).
  split; [intros k; apply Hk |]. fold (scan obs).
  destruct (Hk kindCandle) as [_ Hc]. destruct (Hk kindTrade) as [_ Ht]. destruct (Hk kindPrice) as [_ Hp].
  assert (Hall : forall P : eventKind -> Prop, P kindCandle -> P kindTrade -> P kindPrice -> forall k, P k)
    by (intros P ? ? ? []; done).
  unfold outcome, scan, head_pick, first_error, all_kinds. simpl. clear Hk Hobs Hi.
  destruct (obs kindCandle) as [e1|x1 d1|a1 b1], (obs kindTrade) as [e2|x2 d2|a2 b2], (obs kindPrice) as [e3|x3 d3|a3 b3];
    simpl; destruct_and?; subst;
    repeat match goal with
    | H : hd_error (rest ?k) = Some _ |- _ => destruct (rest k); [discriminate H | injection H as ->]
    | b : bool |- _ => destruct b; simpl
    end; simpl; try exact I;
    repeat match goal with
    | H : true = true -> _ |- _ => specialize (H eq_refl)
    | H : false = true -> _ |- _ => clear H
    end; destruct_and?;
    repeat match goal with
    | H : rest _ = [] |- _ => rewrite H
    | H : errs _ = _ |- _ => rewrite H
    end; unfold pick_step; split_match; simplify_eq; try (split; [by apply Hall | done]); by split.
Qed.

Lemma set_stream_same k st m : set_stream k st m k = st.
Proof. unfold set_stream. by destruct (decide (k = k)). Qed.
Lemma set_stream_other k st m k' : k' <> k -> set_stream k st m k' = m k'.
Proof. unfold set_stream. intros. by destruct (decide (k' = k)). Qed.

Lemma set_wake_inv f (st : pageStream T) b r e : stream_inv f st r e -> stream_inv f (set_wake b st) r e.
Proof. intros [Hs (l & [Hp Hf Hd Hi Hg] & Hr & He)]. split; [done |]. by exists l. Qed.

Lemma merge_step_inv m o m' rest errs : merge_step Timestamp fetch m o m' -> merge_inv m rest errs ->
  match o with
  | Some (k, x) => head_pick rest = Some (k, x) /\ merge_inv m' (pop k rest) errs
  | None => merge_inv m' rest errs
  end.
Proof.
  intros Hs Hi. destruct Hs as [k x m1 Hp|m1 m2 k Hp Hpre Hw].
  - destruct (merge_pass_verdict _ _ _ _ _ Hp Hi) as [Hi1 [Hh Hrow]]. split; [done |].
    destruct (head_pick_Some _ _ _ Hh) as [[r Hr] _]. intros k'. unfold pop.
    destruct (decide (k' = k)) as [->|Hne].
    + rewrite set_stream_same, Hr. simpl. eapply consume_inv; [| exact Hrow]. rewrite <- Hr. apply Hi1.
    + rewrite set_stream_other by done. apply Hi1.
  - destruct (merge_pass_verdict _ _ _ _ _ Hp Hi) as [Hi1 _]. intros k'.
    destruct (decide (k' = k)) as [->|Hne].
    + rewrite set_stream_same. apply set_wake_inv. eapply prefetching_inv; [apply Hpre | apply Hi1].
    + rewrite set_stream_other by done. eapply prefetching_inv; [apply Hpre | apply Hi1].
Qed.

Lemma merge_run_inv m evs m' rest errs : merge_run Timestamp fetch m evs m' -> merge_inv m rest errs ->
  exists rest', merge_inv m' rest' errs /\ merge_rows rest = evs ++ merge_rows rest'.
Proof.
  intros Hr. revert rest. induction Hr as [m|m o m1 evs m2 Hs _ IH]; intros rest Hi; [by exists rest |].
  pose proof (merge_step_inv _ _ _ _ _ Hs Hi) as H. destruct o as [[k x]|]; simpl.
  - destruct H as [Hh Hi1]. destruct (IH _ Hi1) as (rest' & Hi' & E). exists rest'. split; [done |].
    rewrite (merge_rows_pick _ _ _ Hh). simpl. by rewrite E.
  - by apply IH.
Qed.

(** The rows a source can deliver and the error it ends with. *)
Definition source_rows (pages : eventKind -> list (streamPage T)) : eventKind -> list T :=
  fun k => pages k ≫= good_rows.
Definition source_errs (pages : eventKind -> list (streamPage T)) : eventKind -> option error :=
  fun k => match last (pages k) with Some p => pg_err p | None => None end.

Lemma new_merge_inv cursor pages : (forall k, chain (fetch k) (cursor k) (pages k)) ->
  merge_inv (newMergeStream cursor) (source_rows pages) (source_errs pages).
Proof.
  intros H k. split; [done |]. exists (pages k). split; [by apply new_stream_ok |]. done.
Qed.

(** C10: whatever the interleaving of the three prefetchers with the consumer,
    the events delivered are a prefix of one list that the sources alone
    determine: the merge of all their rows, in which the next event is always
    the first row left of its kind that is earliest, a candle before a trade
    before a price at the same time.  So nothing is lost or repeated, and
    sources in the order of time give events in the order of time; and when
    the merge reports its end everything has been delivered and the error is
    that of the first stream that failed. *)
Theorem merge_interleaving_independent cursor pages evs m :
  (forall k, chain (fetch k) (cursor k) (pages k)) ->
  merge_run Timestamp fetch (newMergeStream cursor) evs m ->
  exists merged later, merges (source_rows pages) merged /\ (forall l, merges (source_rows pages) l -> l = merged) /\
    merged = evs ++ later /\
    ((forall k, StronglySorted by_time (source_rows pages k)) -> StronglySorted (fun a b => by_time a.2 b.2) merged) /\
    forall e m', merge_pass Timestamp fetch m (Finished e) m' -> later = [] /\ e = first_error (source_errs pages).
Proof.
  intros Hc Hr. destruct (merge_run_inv _ _ _ _ _ Hr (new_merge_inv _ _ Hc)) as (rest & Hi & E).
  pose proof (merges_merge_rows (source_rows pages)) as Hm. exists (merge_rows (source_rows pages)), (merge_rows rest).
  split_and!; [done | intros l; by apply merges_unique | done | by apply merges_sorted |].
  intros e m' Hp. destruct (merge_pass_verdict _ _ _ _ _ Hp Hi) as [_ [Hn He]]. split; [by apply merge_rows_done | done].
Qed.

(** When each source is in time order, so are the events delivered. *)
Theorem merge_time_ordered cursor pages evs m :
  (forall k, chain (fetch k) (cursor k) (pages k)) ->
  (forall k, StronglySorted by_time (source_rows pages k)) ->
  merge_run Timestamp fetch (newMergeStream cursor) evs m ->
  StronglySorted (fun a b => t_ns (Timestamp a.2) <= t_ns (Timestamp b.2)) evs.
Proof.
  intros Hc Hs Hr. destruct (merge_run_inv _ _ _ _ _ Hr (new_merge_inv _ _ Hc)) as (rest & _ & E).
  pose proof (merges_sorted _ _ (merges_merge_rows (source_rows pages)) Hs) as H.
  rewrite E in H. clear -H. induction evs as [|ev evs IH]; [constructor |].
  apply StronglySorted_inv in H as [H Hall]. constructor; [by apply IH |]. by apply Forall_app in Hall as [? _].
Qed.
End MergeTheory.

(** ** Theory: wake-ups and read-ahead *)

Section Progress.
Context {T : Type} (fetch : pageFetcher T).
Implicit Types (s : pageStream T).

(** A prefetcher that waits for demand has a parked page or the demand. *)
Definition demand_ok s : Prop :=
  match ps_pc s with Waking _ | Waiting _ => ps_next s <> None \/ ps_req s = true | _ => True end.

(** A stream that has shown nothing will wake its consumer. *)
Definition will_wake s : Prop :=
  ps_wake s = true \/ (exists p, ps_pc s = Waking p) \/
  (ps_next s = None /\ match ps_pc s with
                       | Fetching _ | Parking _ => True
                       | Waiting _ => ps_req s = true
                       | _ => False end).

Lemma prefetch_demand s s' : prefetch_step fetch s s' -> demand_ok s -> demand_ok s'.
Proof.
  unfold demand_ok. intros [c Hpc|p Hpc Hn|p Hpc Hs|p Hpc|c Hpc Hr|c Hpc Hs]; simpl; rewrite ?Hpc; auto.
  destruct (final_page p); auto.
Qed.

Lemma prefetching_demand s s' : rtc (prefetch_step fetch) s s' -> demand_ok s -> demand_ok s'.
Proof. induction 1 as [|? ? ? H1 _ IH]; [done |]. intros H. by eapply IH, prefetch_demand. Qed.

Lemma drain_demand s : demand_ok s -> demand_ok (drain s).
Proof.
  unfold demand_ok, drain. destruct (_ <=? _)%nat; [| done]. destruct (ps_next s) eqn:Hn; [| by rewrite Hn].
  simpl. destruct (ps_pc s); auto.
Qed.

Lemma prefetch_will_wake s s' : prefetch_step fetch s s' -> ps_stopped s = false ->
  will_wake s -> will_wake s' /\ ps_stopped s' = false.
Proof.
  unfold will_wake. intros [c Hpc|p Hpc Hn|p Hpc Hs|p Hpc|c Hpc Hr|c Hpc Hs] Hst H; try congruence;
    (split; [| done]); simpl; rewrite ?Hpc in *; destruct H as [H|[[q Hq]|[Hnx H]]]; try discriminate; eauto.
Qed.

Lemma prefetching_will_wake s s' : rtc (prefetch_step fetch) s s' -> ps_stopped s = false ->
  will_wake s -> will_wake s' /\ ps_stopped s' = false.
Proof.
  induction 1 as [|s s1 s2 H1 _ IH]; [done |]. intros Hst Hw.
  destruct (prefetch_will_wake _ _ H1 Hst Hw). by apply IH.
Qed.

Lemma drain_will_wake s : will_wake s -> will_wake (drain s).
Proof.
  unfold will_wake, drain. destruct (_ <=? _)%nat; [| done]. destruct (ps_next s) eqn:Hn; [| rewrite Hn; done].
  simpl. intros [H|[[q Hq]|[H _]]]; [by left | right; left; by exists q | done].
Qed.

(** Such a stream has its signal, or its prefetcher can move. *)
Lemma will_wake_progress s : will_wake s -> ps_wake s = true \/ exists s', prefetch_step fetch s s'.
Proof.
  intros [H|[[p Hp]|[Hn H]]]; [by left | right; eexists; by eapply pf_wake | right].
  destruct (ps_pc s) eqn:Hpc; try done; eexists; [by eapply pf_fetch | by eapply pf_park | by eapply pf_req].
Qed.

Lemma peek_none_next s s' : peek s = (PeekNone, s') -> ps_next s' = None /\ ps_err s' = None /\ s' = drain s.
Proof.
  unfold peek. destruct (ps_err (drain s)) eqn:He; [discriminate |].
  destruct (ps_rows (drain s) !! ps_idx (drain s)) eqn:Hx; [discriminate |]. intros [= <-].
  split_and!; [| done | done]. apply lookup_ge_None in Hx. unfold drain in *.
  destruct (length (ps_rows s) <=? ps_idx s)%nat eqn:Hl; bool_prop; [| lia].
  destruct (ps_next s) eqn:Hn; [done | done].
Qed.

(** A stream that is not finished and shows nothing will wake. *)
Lemma quiet_will_wake s r e : stream_inv fetch s r e -> demand_ok s -> ps_next s = None -> ps_err s = None ->
  ps_done s = false -> will_wake s.
Proof.
  intros [Hst (l & [(l' & Hp & El) Hf _ _ _] & _ & _)] Hd Hn He Hdn.
  unfold cur_final in Hf. rewrite He, Hdn in Hf. simpl in Hf. rewrite Hn in El. simpl in El. subst l'.
  unfold will_wake, demand_ok in *. destruct (ps_pc s) eqn:Hpc; [by right; right | by right; right | right; left; eauto | |].
  - right; right. destruct Hd as [Hd|Hd]; [by rewrite Hn in Hd | done].
  - inversion Hp; subst. done.
Qed.

Lemma prefetching_done s s' : rtc (prefetch_step fetch) s s' -> ps_done s' = ps_done s.
Proof. induction 1 as [|? ? ? [] _ IH]; simpl in *; congruence. Qed.

Lemma done_isDone s r e : stream_inv fetch s r e -> ps_done s = true -> isDone s = (true, s).
Proof.
  intros [Hst (l & [(l' & Hp & El) Hf _ _ _] & _ & _)] Hd. unfold cur_final in Hf. rewrite Hd in Hf. simpl in Hf.
  subst l. unfold isDone, drain. destruct (ps_next s) eqn:Hn; [discriminate |].
  destruct (_ <=? _)%nat; by rewrite Hd.
Qed.

(** ** Read-ahead *)

(** Any step of either goroutine. *)
Inductive stream_step s : pageStream T -> Prop :=
  | ss_prefetch s' : prefetch_step fetch s s' -> stream_step s s'
  | ss_peek : stream_step s (peek s).2
  | ss_consume : stream_step s (consume s)
  | ss_isDone : stream_step s (isDone s).2
  | ss_wake : stream_step s (set_wake false s)
  | ss_close : stream_step s (close s).

Definition ahead_ok s : Prop :=
  (ps_fetched s + (match ps_pc s with Fetching _ => 1 | _ => 0 end) + (if ps_req s then 1 else 0) <= ps_installed s + 1)%nat.

Lemma drain_ahead s : ahead_ok s -> ahead_ok (drain s).
Proof.
  unfold ahead_ok, drain. destruct (_ <=? _)%nat; [| done]. destruct (ps_next s); [| done].
  simpl. destruct (ps_req s); lia.
Qed.

Lemma stream_step_ahead s s' : stream_step s s' -> ahead_ok s -> ahead_ok s'.
Proof.
  intros [s1 Hp| | | | |].
  - unfold ahead_ok. destruct Hp as [c Hpc|p Hpc Hn|p Hpc Hs|p Hpc|c Hpc Hr|c Hpc Hs]; simpl; rewrite ?Hpc, ?Hr; try lia.
    destruct (final_page p); lia.
  - unfold peek. intros H%drain_ahead. destruct (ps_err _); [done |]. by destruct (_ !! _).
  - unfold consume. destruct (_ <? _)%nat; done.
  - unfold isDone. apply drain_ahead.
  - done.
  - done.
Qed.

(** The prefetcher stays at most one page ahead: in every state the two
    goroutines can reach, at most one fetched page has not been installed by
    the consumer, so the memory held does not grow with the window. *)
Theorem prefetch_one_page_ahead cursor s :
  rtc stream_step (newPageStream cursor) s -> (ps_fetched s <= ps_installed s + 1)%nat.
Proof.
  intros Hr. assert (ahead_ok s) as H; [| unfold ahead_ok in H; lia].
  assert (ahead_ok (newPageStream cursor : pageStream T)) as H0 by (unfold ahead_ok; simpl; lia).
  induction Hr as [|s1 s2 s3 H1 _ IH]; [done |]. by eapply IH, stream_step_ahead.
Qed.
End Progress.

Section NoDeadlock.
Context {T : Type} (Timestamp : T -> Time) (fetch : eventKind -> pageFetcher T).
Implicit Types (m : eventKind -> pageStream T).

Lemma stream_pass_demand k s o s' : stream_pass fetch k s o s' -> demand_ok s -> demand_ok s'.
Proof.
  assert (Hpk : forall s0 : pageStream T, demand_ok s0 -> demand_ok (peek s0).2).
  { intros s0 H%drain_demand. unfold peek. destruct (ps_err _); [done |]. by destruct (_ !! _). }
  intros Hp Hd. destruct Hp as [s1 s2 x s' H1 H2 H3|s1 s2 x s3 d s4 s' H1 H2 H3 H4 H5|
    s1 s2 s3 d1 s4 s5 d2 s6 s' H1 H2 H3 H4 H5 H6 H7]; apply (prefetching_demand _ _ _ H1) in Hd;
    apply Hpk in Hd; rewrite H2 in Hd; simpl in Hd; apply (prefetching_demand _ _ _ H3) in Hd; [done | |].
  - injection H4 as _ <-. eapply prefetching_demand; [exact H5 | by apply drain_demand].
  - injection H4 as _ <-. injection H6 as _ <-.
    eapply prefetching_demand; [exact H7 |]. apply drain_demand.
    eapply prefetching_demand; [exact H5 | by apply drain_demand].
Qed.

(** A stream the picker waits for will wake it. *)
Lemma pass_wait_wakes k s d2 s' r e : stream_pass fetch k s (ObsNone false d2) s' ->
  stream_inv (fetch k) s r e -> demand_ok s -> will_wake s'.
Proof.
  intros Hp Hi Hd. inversion Hp as [| |s1 s2 s3 d1 s4 s5 d2' s6 s'' H1 H2 H3 H4 H5 H6 H7]; subst.
  apply (prefetching_inv _ _ _ _ _ H1) in Hi. apply (prefetching_demand _ _ _ H1) in Hd.
  pose proof (peek_inv _ _ _ _ _ _ H2 Hi) as [Hi2 _].
  destruct (peek_none_next _ _ H2) as (Hn & He & E2). apply drain_demand in Hd. rewrite <- E2 in Hd.
  assert (ps_done s2 = false) as Hdn.
  { destruct (ps_done s2) eqn:Hdn; [| done]. pose proof (prefetching_inv _ _ _ _ _ H3 Hi2) as Hi3.
    rewrite <- (prefetching_done _ _ _ H3) in Hdn.
    rewrite (done_isDone _ _ _ _ Hi3 Hdn) in H4. discriminate. }
  pose proof (quiet_will_wake _ _ _ _ Hi2 Hd Hn He Hdn) as Hw. destruct Hi2 as [Hst _].
  destruct (prefetching_will_wake _ _ _ H3 Hst Hw) as [Hw3 Hst3].
  injection H4 as _ <-. apply drain_will_wake in Hw3.
  assert (forall s0 : pageStream T, ps_stopped (drain s0) = ps_stopped s0) as Hsd.
  { intros s0. unfold drain. destruct (_ <=? _)%nat; [| done]. by destruct (ps_next s0). }
  destruct (prefetching_will_wake _ _ _ H5 ltac:(by rewrite Hsd) Hw3) as [Hw5 Hst5].
  injection H6 as _ <-. apply drain_will_wake in Hw5.
  by destruct (prefetching_will_wake _ _ _ H7 ltac:(by rewrite Hsd) Hw5).
Qed.

(** Once exhausted, always exhausted. *)
Lemma pass_done_twice k s d2 s' r e : stream_pass fetch k s (ObsNone true d2) s' ->
  stream_inv (fetch k) s r e -> d2 = true.
Proof.
  intros Hp Hi. inversion Hp as [| |s1 s2 s3 d1 s4 s5 d2' s6 s'' H1 H2 H3 H4 H5 H6 H7]; subst.
  pose proof (prefetching_inv _ _ _ _ _ H1 Hi) as Hi1. pose proof (peek_inv _ _ _ _ _ _ H2 Hi1) as [Hi2 _].
  pose proof (prefetching_inv _ _ _ _ _ H3 Hi2) as Hi3. pose proof (isDone_inv _ _ _ _ _ _ H4 Hi3) as [Hi4 _].
  assert (ps_done s4 = true) as Hd4 by (injection H4 as H4 <-; exact H4).
  apply (prefetching_inv _ _ _ _ _ H5) in Hi4. rewrite <- (prefetching_done _ _ _ H5) in Hd4.
  rewrite (done_isDone _ _ _ _ Hi4 Hd4) in H6. by injection H6 as <- _.
Qed.

Lemma merge_run_demand m evs m' : merge_run Timestamp fetch m evs m' ->
  (forall k, demand_ok (m k)) -> forall k, demand_ok (m' k).
Proof.
  induction 1 as [|m o m1 evs m2 Hs _ IH]; [done |]. intros Hd. apply IH.
  destruct Hs as [k x m1 (obs & Hobs & _)|m1 m2' k (obs & Hobs & _) Hpre Hw]; intros k';
    pose proof (stream_pass_demand _ _ _ _ (Hobs k') (Hd k')) as Hk.
  - destruct (decide (k' = k)) as [->|]; [| by rewrite set_stream_other].
    rewrite set_stream_same. unfold consume. by destruct (_ <? _)%nat.
  - pose proof (prefetching_demand _ _ _ (Hpre k') Hk) as Hk2.
    destruct (decide (k' = k)) as [->|]; [| by rewrite set_stream_other]. by rewrite set_stream_same.
Qed.

(** A pass blocks only when it waits for some stream. *)
Lemma block_waits obs rest :
  outcome (scan Timestamp obs) = Block ->
  (forall k, match obs k with
   | ObsRow x d => hd_error (rest k) = Some x /\ d = false
   | ObsNone d1 d2 => d1 = true -> d2 = true
   | ObsErr _ => True
   end) -> exists k d2, obs k = ObsNone false d2.
Proof.
  intros Ho Hk. pose proof (Hk kindCandle) as Hc. pose proof (Hk kindTrade) as Ht. pose proof (Hk kindPrice) as Hp.
  clear Hk. unfold outcome, scan, all_kinds in Ho. simpl in Ho.
  destruct (obs kindCandle) as [e1|x1 d1|[] b1] eqn:E1; [| | |by exists kindCandle, b1];
    (destruct (obs kindTrade) as [e2|x2 d2|[] b2] eqn:E2; [| | |by exists kindTrade, b2]);
    (destruct (obs kindPrice) as [e3|x3 d3|[] b3] eqn:E3; [| | |by exists kindPrice, b3]);
    exfalso; simpl in Ho; destruct_and?; subst;
    repeat match goal with H : true = true -> _ |- _ => specialize (H eq_refl); subst end;
    simpl in Ho; unfold pick_step in Ho; split_match_in Ho; try discriminate Ho.
Qed.

(** The picker never waits for a wake-up that cannot come: when a pass
    blocks, some stream's signal is already there or its prefetcher can take
    a step, on every state reached without closing the merge. *)
Theorem merge_block_progress cursor pages evs m m' :
  (forall k, chain (fetch k) (cursor k) (pages k)) ->
  merge_run Timestamp fetch (newMergeStream cursor) evs m ->
  merge_pass Timestamp fetch m Block m' ->
  exists k, ps_wake (m' k) = true \/ exists s, prefetch_step (fetch k) (m' k) s.
Proof.
  intros Hc Hr (obs & Hobs & Ho).
  destruct (merge_run_inv _ _ _ _ _ _ _ Hr (new_merge_inv _ _ _ Hc)) as (rest & Hi & _).
  assert (forall k, demand_ok (m k)) as Hd by (eapply merge_run_demand; [exact Hr | done]).
  destruct (block_waits obs rest (eq_sym Ho)) as (k & d2 & Hk).
  { intros k. destruct (stream_pass_inv _ _ _ _ _ _ _ (Hobs k) (Hi k)) as [_ H].
    destruct (obs k) as [x|x d|d1 d2] eqn:E; [done | tauto |]. intros ->.
    pose proof (Hobs k) as Hp. rewrite E in Hp. eapply pass_done_twice; [exact Hp | apply Hi]. }
  pose proof (Hobs k) as Hp. rewrite Hk in Hp. exists k. apply will_wake_progress.
  eapply pass_wait_wakes; [exact Hp | apply Hi | apply Hd].
Qed.
End NoDeadlock.

(** ** Witnesses *)

(** A scheduler that runs only the prefetcher. *)
Section Scheduler.
Context {T : Type} (fetch : pageFetcher T).

Definition prefetch_once (s : pageStream T) : pageStream T :=
  match ps_pc s with
  | Fetching c => count_fetch (set_pc (Parking (fetch_page fetch c)) s)
  | Parking p => match ps_next s with None => set_pc (Waking p) (set_next (Some p) s) | Some _ => s end
  | Waking p => set_pc (if final_page p then Exited else Waiting (pg_cursor p)) (set_wake true s)
  | Waiting c => if ps_req s then set_pc (Fetching c) (set_req false s) else s
  | Exited => s
  end.

Lemma prefetch_once_sound s : rtc (prefetch_step fetch) s (prefetch_once s).
Proof.
  unfold prefetch_once. destruct (ps_pc s) eqn:Hpc; [| destruct (ps_next s) eqn:Hn; [done |] | | | done].
  - apply rtc_once. by constructor.
  - apply rtc_once. by constructor.
  - apply rtc_once. by constructor.
  - destruct (ps_req s) eqn:Hr; [| done]. apply rtc_once. by constructor.
Qed.

Lemma prefetch_iter_sound n s : rtc (prefetch_step fetch) s (Nat.iter n prefetch_once s).
Proof.
  induction n as [|n IH]; [done |]. simpl. etransitivity; [exact IH | apply prefetch_once_sound].
Qed.
End Scheduler.

(** Rows are their own timestamps.  Candles come as two pages, there is one
    trade, and the price source fails at once. *)
Definition demo_time (z : Z) : Time := MkTime z 0.
Definition demo_fetch (k : eventKind) : pageFetcher Z := fun c =>
  match k with
  | kindCandle => if bool_decide (c = ""%string) then ([1; 4], "p2"%string, None)
                  else if bool_decide (c = "p2"%string) then ([6], "p3"%string, None) else ([], ""%string, None)
  | kindTrade => if bool_decide (c = ""%string) then ([2], "p2"%string, None) else ([], ""%string, None)
  | kindPrice => ([], ""%string, Some (ErrMsg "price source down"))
  end.
Definition demo_pages (k : eventKind) : list (streamPage Z) :=
  match k with
  | kindCandle => [MkPage [1; 4] "p2" false None; MkPage [6] "p3" false None; MkPage [] "" true None]
  | kindTrade => [MkPage [2] "p2" false None; MkPage [] "" true None]
  | kindPrice => [MkPage [] "" false (Some (ErrMsg "price source down"))]
  end.

Lemma demo_chain k : chain (demo_fetch k) "" (demo_pages k).
Proof.
  destruct k; simpl.
  - apply (chain_more (demo_fetch kindCandle) ""); [reflexivity |].
    apply (chain_more (demo_fetch kindCandle) "p2"); [reflexivity |].
    by apply (chain_end (demo_fetch kindCandle) "p3").
  - apply (chain_more (demo_fetch kindTrade) ""); [reflexivity |].
    by apply (chain_end (demo_fetch kindTrade) "p2").
  - by apply (chain_end (demo_fetch kindPrice) "").
Qed.

(** All three prefetchers park their first page, then the picker looks. *)
Definition demo_warm (k : eventKind) : pageStream Z :=
  (peek (Nat.iter 3 (prefetch_once (demo_fetch k)) (newPageStream ""))).2.

Lemma demo_step : merge_step demo_time demo_fetch (newMergeStream (fun _ => ""%string)) (Some (kindCandle, 1))
  (set_stream kindCandle (consume (demo_warm kindCandle)) demo_warm).
Proof.
  apply step_deliver.
  exists (fun k => match k with kindCandle => ObsRow 1 false | kindTrade => ObsRow 2 false
    | kindPrice => ObsErr (ErrMsg "price source down") end).
  split; [| reflexivity]. intros k.
  pose proof (prefetch_iter_sound (demo_fetch k) 3 (newPageStream "")) as Hs.
  destruct k; [eapply pass_row | eapply pass_row | eapply pass_err];
    [exact Hs | reflexivity | reflexivity | reflexivity | reflexivity
     | exact Hs | reflexivity | reflexivity | reflexivity | reflexivity | exact Hs | reflexivity | reflexivity].
Qed.

Definition demo_after : eventKind -> pageStream Z := set_stream kindCandle (consume (demo_warm kindCandle)) demo_warm.

Lemma demo_merge_run : merge_run demo_time demo_fetch (newMergeStream (fun _ => ""%string)) [(kindCandle, 1)] demo_after.
Proof. exact (run_cons _ _ _ (Some (kindCandle, 1)) _ [] _ demo_step (run_nil _ _ _)). Qed.

Lemma merge_interleaving_independent_witness : exists merged later,
  merges demo_time (source_rows demo_pages) merged /\ merged = [(kindCandle, 1)] ++ later.
Proof.
  destruct (merge_interleaving_independent demo_time demo_fetch (fun _ => ""%string) demo_pages
    [(kindCandle, 1)] demo_after demo_chain demo_merge_run) as (merged & later & Hm & _ & E & _).
  exists merged, later. split; [exact Hm | exact E].
Defined.

Lemma merge_time_ordered_witness :
  StronglySorted (fun a b : eventKind * Z => t_ns (demo_time a.2) <= t_ns (demo_time b.2)) [(kindCandle, 1)].
Proof.
  apply (merge_time_ordered demo_time demo_fetch (fun _ => ""%string) demo_pages [(kindCandle, 1)] demo_after
    demo_chain); [| exact demo_merge_run].
  intros k. unfold source_rows, by_time. destruct k; simpl; repeat constructor; simpl; lia.
Defined.

Lemma prefetch_one_page_ahead_witness :
  let s := Nat.iter 3 (prefetch_once (demo_fetch kindCandle)) (newPageStream "") in
  ps_fetched s = 1%nat /\ (ps_fetched s <= ps_installed s + 1)%nat.
Proof.
  intros s. split; [reflexivity |].
  apply (prefetch_one_page_ahead (demo_fetch kindCandle) "" s).
  eapply rtc_subrel; [| apply prefetch_iter_sound]. intros. by apply ss_prefetch.
Defined.

(** Nothing is parked yet: the picker blocks. *)
Lemma demo_block : merge_pass demo_time demo_fetch (newMergeStream (fun _ => ""%string)) Block
  (newMergeStream (fun _ => ""%string)).
Proof.
  exists (fun _ => ObsNone false false). split; [| reflexivity]. intros k.
  by eapply pass_none.
Qed.

Lemma merge_block_progress_witness :
  exists k, ps_wake (newPageStream (T := Z) "") = true \/
    exists s, prefetch_step (demo_fetch k) (newPageStream "") s.
Proof.
  apply (merge_block_progress demo_time demo_fetch (fun _ => ""%string) demo_pages []
    (newMergeStream (fun _ => ""%string)) _ demo_chain (run_nil _ _ _) demo_block).
Defined.
