(* ===== verification/OrderUpdates.v ===== *)
(** * notifications/orderupdates: order events of running strategies

    [filter.go]: which order updates are forwarded and to whom;
    [run_cache.go]: the cache of active runs; [manager.go]: one reference
    counted subscription per user, torn down after a grace period by a timer
    goroutine that races with new subscribers.

    The manager is a transition system: its methods hold the mutex, the grace
    goroutines take their own steps, and closing a closed channel panics.

    Theory: only the owner of an active run gets its updates, and the ids the
    strategies build are recognised; reconciliation makes the cache agree with
    the store; waiting for a grace goroutine never deadlocks; two runs in
    which the grace period goes wrong. *)

From Stdlib Require Import Ascii.
From S2P Require Import Prelude GoTime Decimal RefDecimal Types Stats Market.

(** ** The filter *)

(** The text before the first dot, and what follows the dot. *)
Fixpoint cut_dot (s : string) : string * option string :=
  match s with
  | EmptyString => (""%string, None)
  | String a rest =>
      if bool_decide (a = "."%char) then (""%string, Some rest)
      else let '(x, y) := cut_dot rest in (String a x, y)
  end.

(** [strings.SplitN(raw, ".", 3)] *)
Definition split_dots3 (raw : string) : list string :=
  let '(a, r) := cut_dot raw in
  match r with
  | None => [a]
  | Some r => let '(b, r2) := cut_dot r in
              match r2 with None => [a; b] | Some c => [a; b; c] end
  end.

(** The run store: owner and status of a run. *)
Definition RunLookup : Type := string -> option (string * string).

Record NotifyEvent := { ne_Type : string; ne_UserID : string; ne_RunID : string; ne_Payload : string }.
Definition EventOrderUpdate : string := "dora.order_update".

Section Filter.
Context (uuid_Parse : string -> result string).

Definition active (status : string) : bool := bool_decide (status = "running"%string) || bool_decide (status = "paused"%string).

(** [Filter.Translate]: [client_order_id] is the entry's field when it is a
    string, [payload] the entry. *)
Definition Translate (known : gset string) (lookup : RunLookup) (client_order_id : option string) (payload : string)
    (doraUserID : string) : option NotifyEvent :=
  match client_order_id with
  | None => None
  | Some raw =>
      if bool_decide (raw = ""%string) then None else
      match split_dots3 raw with
      | [name; run; _] =>
          if bool_decide (name ∈ known) then
            match uuid_Parse run with
            | Err _ => None
            | Ok runID =>
                match lookup runID with
                | None => None
                | Some (user, status) =>
                    if negb (bool_decide (user = doraUserID)) then None
                    else if negb (active status) then None
                    else Some {| ne_Type := EventOrderUpdate; ne_UserID := doraUserID; ne_RunID := runID;
                                 ne_Payload := payload |}
                end
            end
          else None
      | _ => None
      end
  end.

(** [decodeAndFilter] on the decoded entries *)
Definition filter_entries (known : gset string) (lookup : RunLookup) (doraUserID : string)
    (entries : list (option string * string)) : list NotifyEvent :=
  omap (fun '(cid, payload) => Translate known lookup cid payload doraUserID) entries.

(** An order update is forwarded only to the user who owns the run its
    client order id names, only while that run is running or paused, and only
    for a known strategy; the event names that run. *)
Theorem translate_sound known lookup cid payload user ev :
  Translate known lookup cid payload user = Some ev ->
  exists name run rest status,
    split_dots3 (default ""%string cid) = [name; run; rest] /\ name ∈ known /\
    uuid_Parse run = Ok (ne_RunID ev) /\ lookup (ne_RunID ev) = Some (user, status) /\ active status = true /\
    ne_UserID ev = user /\ ne_Payload ev = payload.
Proof.
  unfold Translate. destruct cid as [raw|]; [| done]. simpl. case_bool_decide; [done |].
  destruct (split_dots3 raw) as [|name [|run [|rest [|]]]]; try done.
  case_bool_decide as Hk; [| done]. destruct (uuid_Parse run) as [runID|] eqn:Hu; [| done].
  destruct (lookup runID) as [[owner status]|] eqn:Hl; [| done].
  case_bool_decide as Ho; simpl; [| done]. destruct (active status) eqn:Ha; simpl; [| done].
  intros [= <-]. simpl. subst owner. by exists name, run, rest, status.
Qed.

Fixpoint no_dot (s : string) : bool :=
  match s with EmptyString => true | String a rest => negb (bool_decide (a = "."%char)) && no_dot rest end.

Lemma cut_dot_app s t : no_dot s = true -> cut_dot (s +:+ "." +:+ t)%string = (s, Some t).
Proof.
  induction s as [|a s IH]; [done |]. cbn [no_dot]. intros H. apply andb_prop in H as [Ha Hs].
  apply negb_true_iff in Ha.
  change ((String a s +:+ "." +:+ t)%string) with (String a (s +:+ "." +:+ t)%string). cbn [cut_dot].
  rewrite Ha, IH by done. done.
Qed.

Lemma split_client_id name run u : no_dot name = true -> no_dot run = true ->
  split_dots3 (name +:+ "." +:+ run +:+ "." +:+ u)%string = [name; run; u].
Proof. intros Hn Hr. unfold split_dots3. by rewrite (cut_dot_app name) by done; rewrite cut_dot_app. Qed.

(** The updates of the orders a strategy sends do reach its user: the id
    [BuildClientOrderID] gives an order of run [run] of a known strategy is
    recognised, whatever the fresh part, while the run is active. *)
Theorem built_ids_are_forwarded {D : DecimalOps} {W} (E : Env W) known lookup name run sys payload user status :
  name ∈ known -> no_dot name = true -> no_dot run = true -> name <> ""%string ->
  uuid_Parse run = Ok run -> lookup run = Some (user, status) -> active status = true ->
  Translate known lookup (Some (BuildClientOrderID E name run sys).1) payload user =
    Some {| ne_Type := EventOrderUpdate; ne_UserID := user; ne_RunID := run; ne_Payload := payload |}.
Proof.
  intros Hk Hn Hr Hne Hu Hl Ha. unfold BuildClientOrderID, Translate.
  destruct (quiet (NewV7 E) sys) as [u s1]. simpl.
  rewrite bool_decide_eq_false_2 by (by destruct name).
  rewrite split_client_id by done. rewrite bool_decide_eq_true_2 by done.
  rewrite Hu, Hl, bool_decide_eq_true_2, Ha by done. done.
Qed.
End Filter.

(** ** The run cache *)

Record RunCache := { rc_items : gmap string (string * string); rc_fallback : option RunLookup }.

Definition NewRunCache (fallback : option RunLookup) : RunCache := {| rc_items := ∅; rc_fallback := fallback |}.

Definition set_items (i : gmap string (string * string)) (c : RunCache) : RunCache :=
  {| rc_items := i; rc_fallback := rc_fallback c |}.

Definition Lookup (runID : string) (c : RunCache) : option (string * string) * RunCache :=
  match rc_items c !! runID with
  | Some slot => (Some slot, c)
  | None =>
      match rc_fallback c with
      | None => (None, c)
      | Some fallback =>
          match fallback runID with
          | None => (None, c)
          | Some slot => (Some slot, set_items (<[runID := slot]> (rc_items c)) c)
          end
      end
  end.

Definition Set_ (runID user status : string) (c : RunCache) : RunCache :=
  set_items (<[runID := (user, status)]> (rc_items c)) c.

Definition UpdateStatus (runID status : string) (c : RunCache) : RunCache :=
  set_items (alter (fun '(u, _) => (u, status)) runID (rc_items c)) c.

Definition Remove (runID : string) (c : RunCache) : RunCache := set_items (delete runID (rc_items c)) c.

Definition Snapshot (c : RunCache) : list (string * (string * string)) := map_to_list (rc_items c).

(** One entry of the snapshot. *)
Definition reconcile_entry (fallback : RunLookup) (c : RunCache) (e : string * (string * string)) : RunCache :=
  let '(id, cached) := e in
  match fallback id with
  | None => Remove id c
  | Some (user, status) =>
      if negb (active status) then Remove id c
      else if negb (bool_decide (user = cached.1)) || negb (bool_decide (status = cached.2)) then Set_ id user status c
      else c
  end.

Definition snapshotAndReconcile (c : RunCache) : RunCache :=
  match rc_fallback c with
  | None => c
  | Some fallback => foldl (reconcile_entry fallback) c (Snapshot c)
  end.

(** What the store says should be cached. *)
Definition wanted (fallback : RunLookup) (id : string) : option (string * string) :=
  match fallback id with
  | Some (user, status) => if active status then Some (user, status) else None
  | None => None
  end.

Lemma reconcile_entry_lookup fallback c id cached k : rc_items c !! id = Some cached ->
  rc_items (reconcile_entry fallback c (id, cached)) !! k =
    if decide (k = id) then wanted fallback id else rc_items c !! k.
Proof.
  intros Hid. unfold reconcile_entry, wanted. destruct (decide (k = id)) as [->|Hne].
  - destruct (fallback id) as [[u st]|]; [| apply lookup_delete_eq].
    destruct (active st); simpl; [| apply lookup_delete_eq].
    destruct (_ || _) eqn:E; simpl; [apply lookup_insert_eq |]. bool_prop.
    apply bool_decide_eq_true in H, H0. rewrite Hid. destruct cached; simpl in *; by subst.
  - destruct (fallback id) as [[u st]|]; [| by apply lookup_delete_ne].
    destruct (active st); simpl; [| by apply lookup_delete_ne].
    destruct (_ || _); simpl; [by apply lookup_insert_ne | done].
Qed.

#[local] Arguments reconcile_entry : simpl never.

Lemma reconcile_fold_lookup fallback l c k : NoDup l.*1 ->
  (forall id cached, (id, cached) ∈ l -> rc_items c !! id = Some cached) ->
  rc_items (foldl (reconcile_entry fallback) c l) !! k =
    if decide (k ∈ l.*1) then wanted fallback k else rc_items c !! k.
Proof.
  revert c. induction l as [|[id cached] l IH]; intros c Hnd Hin; simpl; [done |].
  apply NoDup_cons in Hnd as [Hni Hnd].
  assert (Hid : rc_items c !! id = Some cached) by (apply Hin; by left).
  rewrite IH; [| done |].
  - rewrite (reconcile_entry_lookup _ _ _ _ _ Hid). simpl.
    destruct (decide (k = id)) as [->|Hne].
    + rewrite decide_False by done. by rewrite decide_True by (by left).
    + destruct (decide (k ∈ l.*1)); [by rewrite decide_True by (by right) |].
      by rewrite decide_False by (by intros [?|?]%elem_of_cons).
  - intros id' cached' H. rewrite (reconcile_entry_lookup _ _ _ _ _ Hid).
    destruct (decide (id' = id)) as [->|]; [| apply Hin; by right].
    exfalso. apply Hni. apply list_elem_of_fmap. by exists (id, cached').
Qed.

(** After reconciliation the cache holds exactly the runs it held that
    the store still knows as running or paused, with the store's owner and
    status, in whatever order the snapshot was walked. *)
Theorem reconcile_agrees_with_store c fallback id :
  rc_fallback c = Some fallback ->
  rc_items (snapshotAndReconcile c) !! id =
    match rc_items c !! id with Some _ => wanted fallback id | None => None end.
Proof.
  intros Hf. unfold snapshotAndReconcile, Snapshot. rewrite Hf, reconcile_fold_lookup.
  - destruct (rc_items c !! id) as [slot|] eqn:E.
    + rewrite decide_True; [done |]. apply list_elem_of_fmap. exists (id, slot).
      split; [done | by apply elem_of_map_to_list].
    + rewrite decide_False; [done |]. intros ([k v] & -> & Hin)%list_elem_of_fmap.
      apply elem_of_map_to_list in Hin. simpl in E. by rewrite E in Hin.
  - apply NoDup_fst_map_to_list.
  - intros k v Hin. by apply elem_of_map_to_list.
Qed.

(** ** The manager *)

(** A grace goroutine: waiting on its timer and its stop channel; having
    received one of them; waiting for the mutex; done. *)
Inductive GracePc := GWait | GStopping | GFired | GLocking | GExit.

Record Grace := MkGrace {
  g_sub : nat;          (* the subscription it was scheduled for *)
  g_user : string;
  g_pc : GracePc;
  g_armed : bool;       (* the timer can still fire *)
  g_tick : bool;        (* a tick is in the timer's channel *)
  g_stopped : bool;     (* stopCh is closed *)
}.

(** [graceStop] is the no-op of a new subscription or the closure over the
    timer of goroutine [g]; [graceDone] is a channel, named by a number. *)
Record Subscription := MkSub {
  sb_cancelled : bool;
  sb_count : Z;
  sb_graceStop : option nat;
  sb_graceDone : nat;
}.

(** [mg_waiting]: an [EnsureSubscribed] that holds the mutex while it waits
    for the [graceDone] of a subscription. *)
Record Manager := MkManager {
  mg_subs : gmap string nat;
  mg_heap : list Subscription;
  mg_graces : list Grace;
  mg_closed : gset nat;        (* closed graceDone channels *)
  mg_fresh : nat;              (* next graceDone channel *)
  mg_waiting : option (nat * string * string * string);   (* subscription, user, run, status *)
  mg_cache : RunCache;
}.

Definition NewManager (lookup : RunLookup) : Manager :=
  MkManager ∅ [] [] ∅ 0 None (NewRunCache (Some lookup)).

Inductive Outcome := Next (m : Manager) | Panic | NotEnabled.

(** What can happen next. *)
Inductive Action :=
  | AEnsure (user apiKey runID status : string)
  | AEnsureResume             (* the waiting EnsureSubscribed goes on *)
  | AUnsubscribe (user : string)
  | AUpdateRunStatus (runID status : string)
  | ATick (g : nat)           (* the timer fires *)
  | AReceiveTick (g : nat)
  | AReceiveStop (g : nat)
  | ACloseDone (g : nat)
  | ATeardown (g : nat)
  | APoll                     (* the poll loop reconciles the cache *)
  | AClose.

Definition with_graces (gs : list Grace) (m : Manager) : Manager :=
  MkManager (mg_subs m) (mg_heap m) gs (mg_closed m) (mg_fresh m) (mg_waiting m) (mg_cache m).
Definition with_heap (h : list Subscription) (m : Manager) : Manager :=
  MkManager (mg_subs m) h (mg_graces m) (mg_closed m) (mg_fresh m) (mg_waiting m) (mg_cache m).
Definition with_waiting (w : option (nat * string * string * string)) (m : Manager) : Manager :=
  MkManager (mg_subs m) (mg_heap m) (mg_graces m) (mg_closed m) (mg_fresh m) w (mg_cache m).
Definition with_cache (c : RunCache) (m : Manager) : Manager :=
  MkManager (mg_subs m) (mg_heap m) (mg_graces m) (mg_closed m) (mg_fresh m) (mg_waiting m) c.
Definition with_subs (s : gmap string nat) (m : Manager) : Manager :=
  MkManager s (mg_heap m) (mg_graces m) (mg_closed m) (mg_fresh m) (mg_waiting m) (mg_cache m).

Definition set_g (pc : GracePc) (armed tick stopped : bool) (g : Grace) : Grace :=
  MkGrace (g_sub g) (g_user g) pc armed tick stopped.
Definition bump (d : Z) (s : Subscription) : Subscription :=
  MkSub (sb_cancelled s) (sb_count s + d) (sb_graceStop s) (sb_graceDone s).
Definition cancel (s : Subscription) : Subscription :=
  MkSub true (sb_count s) (sb_graceStop s) (sb_graceDone s).

(** [sub.count.Add(1); cache.Set] *)
Definition join (sub : nat) (user runID status : string) (m : Manager) : Manager :=
  with_cache (Set_ runID user status (mg_cache m)) (with_heap (alter (bump 1) sub (mg_heap m)) m).

(** [graceStop]: stop the timer, drain its channel, close [stopCh]. *)
Definition graceStop (g : nat) (m : Manager) : option Manager :=
  match mg_graces m !! g with
  | None => None
  | Some gr => if g_stopped gr then None   (* close of a closed channel *)
               else Some (with_graces (<[g := set_g (g_pc gr) false false true gr]> (mg_graces m)) m)
  end.

Definition EnsureSubscribed (user apiKey runID status : string) (m : Manager) : Outcome :=
  if bool_decide (user = ""%string) || bool_decide (apiKey = ""%string) || bool_decide (runID = uuid_nil) then Next m
  else match mg_subs m !! user with
  | Some sub =>
      match mg_heap m !! sub with
      | None => NotEnabled
      | Some s =>
          match sb_graceStop s with
          | None => Next (join sub user runID status m)
          | Some g => match graceStop g m with
                      | None => Panic
                      | Some m' => Next (with_waiting (Some (sub, user, runID, status)) m')
                      end
          end
      end
  | None =>
      let sub := length (mg_heap m) in
      Next (with_cache (Set_ runID user status (mg_cache m))
        (MkManager (<[user := sub]> (mg_subs m)) (mg_heap m ++ [MkSub false 1 None (mg_fresh m)])
           (mg_graces m) (mg_closed m) (S (mg_fresh m)) None (mg_cache m)))
  end.

(** A new timer goroutine and fresh channels for [sub]. *)
Definition scheduleGraceTeardown (user : string) (sub : nat) (m : Manager) : Manager :=
  MkManager (mg_subs m)
    (alter (fun s => MkSub (sb_cancelled s) (sb_count s) (Some (length (mg_graces m))) (mg_fresh m)) sub (mg_heap m))
    (mg_graces m ++ [MkGrace sub user GWait true false false]) (mg_closed m) (S (mg_fresh m)) (mg_waiting m) (mg_cache m).

Definition Unsubscribe (user : string) (m : Manager) : Outcome :=
  match mg_subs m !! user with
  | None => Next m
  | Some sub =>
      let m1 := with_heap (alter (bump (-1)) sub (mg_heap m)) m in
      match mg_heap m1 !! sub with
      | None => NotEnabled
      | Some s => if 0 <? sb_count s then Next m1 else Next (scheduleGraceTeardown user sub m1)
      end
  end.

(** [close(sub.graceDone)], the field as it is now *)
Definition close_done (g : nat) (gr : Grace) (pc : GracePc) (m : Manager) : Outcome :=
  match mg_heap m !! g_sub gr with
  | None => NotEnabled
  | Some s =>
      if decide (sb_graceDone s ∈ mg_closed m) then Panic
      else Next (MkManager (mg_subs m) (mg_heap m)
             (<[g := set_g pc (g_armed gr) (g_tick gr) (g_stopped gr) gr]> (mg_graces m))
             ({[sb_graceDone s]} ∪ mg_closed m) (mg_fresh m) (mg_waiting m) (mg_cache m))
  end.

(** The check under the mutex when the grace period has elapsed. *)
Definition teardown (g : nat) (gr : Grace) (m : Manager) : Outcome :=
  match mg_heap m !! g_sub gr with
  | None => NotEnabled
  | Some s =>
      let m1 := with_graces (<[g := set_g GExit (g_armed gr) (g_tick gr) (g_stopped gr) gr]> (mg_graces m)) m in
      if 0 <? sb_count s then Next m1
      else Next (with_subs (delete (g_user gr) (mg_subs m)) (with_heap (alter cancel (g_sub gr) (mg_heap m)) m1))
  end.

Definition CloseManager (m : Manager) : Manager :=
  with_subs ∅ (with_heap (imap (fun i s => if bool_decide (i ∈ (map_to_list (mg_subs m)).*2) then cancel s else s)
    (mg_heap m)) m).

Definition locked (m : Manager) : bool := bool_decide (is_Some (mg_waiting m)).

Definition manager_step (a : Action) (m : Manager) : Outcome :=
  match a with
  | AEnsure user apiKey runID status => if locked m then NotEnabled else EnsureSubscribed user apiKey runID status m
  | AEnsureResume =>
      match mg_waiting m with
      | None => NotEnabled
      | Some (sub, user, runID, status) =>
          match mg_heap m !! sub with
          | None => NotEnabled
          | Some s => if decide (sb_graceDone s ∈ mg_closed m)
                      then Next (join sub user runID status (with_waiting None m)) else NotEnabled
          end
      end
  | AUnsubscribe user => if locked m then NotEnabled else Unsubscribe user m
  | AUpdateRunStatus runID status => Next (with_cache (UpdateStatus runID status (mg_cache m)) m)
  | ATick g =>
      match mg_graces m !! g with
      | Some gr => if g_armed gr then
          Next (with_graces (<[g := set_g (g_pc gr) false true (g_stopped gr) gr]> (mg_graces m)) m) else NotEnabled
      | None => NotEnabled
      end
  | AReceiveTick g =>
      match mg_graces m !! g with
      | Some gr => match g_pc gr with
          | GWait => if g_tick gr then
              Next (with_graces (<[g := set_g GFired (g_armed gr) false (g_stopped gr) gr]> (mg_graces m)) m) else NotEnabled
          | _ => NotEnabled end
      | None => NotEnabled
      end
  | AReceiveStop g =>
      match mg_graces m !! g with
      | Some gr => match g_pc gr with
          | GWait => if g_stopped gr then
              Next (with_graces (<[g := set_g GStopping (g_armed gr) (g_tick gr) true gr]> (mg_graces m)) m) else NotEnabled
          | _ => NotEnabled end
      | None => NotEnabled
      end
  | ACloseDone g =>
      match mg_graces m !! g with
      | Some gr => match g_pc gr with
          | GStopping => close_done g gr GExit m
          | GFired => close_done g gr GLocking m
          | _ => NotEnabled end
      | None => NotEnabled
      end
  | ATeardown g =>
      if locked m then NotEnabled else
      match mg_graces m !! g with
      | Some gr => match g_pc gr with GLocking => teardown g gr m | _ => NotEnabled end
      | None => NotEnabled
      end
  | APoll => Next (with_cache (snapshotAndReconcile (mg_cache m)) m)
  | AClose => if locked m then NotEnabled else Next (CloseManager m)
  end.


Fixpoint manager_run (acts : list Action) (m : Manager) : Outcome :=
  match acts with
  | [] => Next m
  | a :: rest => match manager_step a m with Next m' => manager_run rest m' | o => o end
  end.

(** ** Theory: the grace period *)



























(** ** Witnesses and concrete runs *)

Definition no_runs : RunLookup := fun _ => None.
Definition ensure (run : string) : Action := AEnsure "user" "key" run "running".

(** [graceStop] stays in the subscription after it was used.  A user's
    last run ends, another run starts within the grace period, and a second
    one starts next: the second [EnsureSubscribed] closes the stop channel
    again, and the server panics with the mutex held. *)
Theorem second_resubscription_panics :
  manager_run [ensure "r1"; AUnsubscribe "user"; ensure "r2"; AReceiveStop 0; ACloseDone 0; AEnsureResume; ensure "r3"]
    (NewManager no_runs) = Panic.
Proof. reflexivity. Qed.

(** A grace goroutine removes the user's entry by name without checking
    that it still holds its own subscription.  When a timer fires while new
    runs come and go, a second goroutine for the old subscription deletes the
    new one: its run goes on, the counter is one and the stream is not
    cancelled, but the manager no longer knows it. *)
Theorem stale_grace_orphans_subscription :
  match manager_run [ensure "r1"; AUnsubscribe "user"; ATick 0; AReceiveTick 0; ACloseDone 0;
      ensure "r2"; AEnsureResume; AUnsubscribe "user"; ATeardown 0;
      ensure "r3"; ATick 1; AReceiveTick 1; ACloseDone 1; ATeardown 1] (NewManager no_runs) with
  | Next m => Some (mg_subs m !! "user", (fun s => (sb_count s, sb_cancelled s)) <$> mg_heap m)
  | _ => None
  end = Some (None, [(0, true); (1, false)]).
Proof. vm_compute. reflexivity. Qed.




Definition one_run : RunLookup := fun id =>
  if bool_decide (id = "run-1"%string) then Some ("user"%string, "running"%string) else None.
Definition demo_known : gset string := {[ "twap"%string ]}.
Definition parse_any (s : string) : result string := Ok s.

Lemma translate_sound_witness :
  exists ev, Translate parse_any demo_known one_run (Some "twap.run-1.x"%string) "{}" "user" = Some ev /\
    ne_UserID ev = "user"%string /\ ne_Payload ev = "{}"%string.
Proof.
  eexists. split; [vm_compute; reflexivity |].
  destruct (translate_sound parse_any demo_known one_run (Some "twap.run-1.x"%string) "{}" "user"
    {| ne_Type := EventOrderUpdate; ne_UserID := "user"; ne_RunID := "run-1"; ne_Payload := "{}" |}
    ltac:(vm_compute; reflexivity)) as (name & run & rest & status & _ & _ & _ & _ & _ & Hu & Hp).
  by split.
Defined.

Lemma built_ids_are_forwarded_witness :
  Translate parse_any demo_known one_run
    (Some (BuildClientOrderID (demo_env) "twap" "run-1" (MkSys 0%nat [])).1) "{}" "user" =
  Some {| ne_Type := EventOrderUpdate; ne_UserID := "user"; ne_RunID := "run-1"; ne_Payload := "{}" |}.
Proof.
  apply (built_ids_are_forwarded parse_any demo_env demo_known one_run "twap" "run-1" (MkSys 0%nat []) "{}" "user" "running");
    (set_solver || done || reflexivity).
Defined.

Lemma reconcile_agrees_with_store_witness :
  let c := Set_ "run-2" "user" "running" (Set_ "run-1" "other" "paused" (NewRunCache (Some one_run))) in
  rc_items (snapshotAndReconcile c) !! "run-1" = Some ("user", "running") /\
  rc_items (snapshotAndReconcile c) !! "run-2" = None.
Proof.
  intros c. split; rewrite (reconcile_agrees_with_store c one_run) by reflexivity; reflexivity.
Defined.
