(* ===== verification/GoFloat.v ===== *)
(** * float64

    The 64-bit floats of Go over the specification floats of the Standard
    Library, and the text of a float in JSON. *)

From S2P Require Import Prelude.
From Stdlib Require Import SpecFloat.

Definition float64 : Type := spec_float.
Definition f64_mul (a b : float64) : float64 := SFmul 53 1024 a b.
Definition f64_add (a b : float64) : float64 := SFadd 53 1024 a b.
Definition f64_sub (a b : float64) : float64 := SFsub 53 1024 a b.
Definition f64_div (a b : float64) : float64 := SFdiv 53 1024 a b.
Definition f64_sqrt (a : float64) : float64 := SFsqrt 53 1024 a.
Definition f64_eq (a b : float64) : bool := SFeqb a b.
Definition f64_lt (a b : float64) : bool := SFltb a b.
Definition f64_le (a b : float64) : bool := SFleb a b.
Definition f64_gt (a b : float64) : bool := SFltb b a.
(** The float nearest to an integer below [2 ^ 53]. *)
Definition f64_int (n : Z) : float64 := binary_normalize 53 1024 n 0 false.
Definition f64_zero : float64 := S754_zero false.
Definition f64_one : float64 := f64_int 1.

(** Neither an infinity nor a NaN. *)
Definition f64_finite (a : float64) : bool := match a with S754_zero _ | S754_finite _ _ _ => true | _ => false end.

(** The text of a finite float: what [encoding/json] writes, the shortest text
    that reads back, reads back; a literal out of range does not read. *)
Class FloatText := {
  format_float : float64 -> string;
  parse_float : string -> option float64;
  parse_finite : forall s x, parse_float s = Some x -> f64_finite x = true;
  parse_format : forall x, f64_finite x = true -> parse_float (format_float x) = Some x;
}.

#[export] Instance float64_eq_dec : EqDecision float64.
Proof. intros a b. unfold Decision. decide equality; try apply Bool.bool_dec; try apply Pos.eq_dec; apply Z.eq_dec. Defined.
