(* ===== verification/Safety.v ===== *)
(** * internal/agent/safety: risk caps and the kill switch ([caps.go])

    The kernel is asked before every order of a generated strategy.  Its two
    tables are state; a query that fails is an outcome of its own, since the
    code treats every failure as "no row".  Notionals are 64-bit floats: the
    product is the correctly rounded one of [SpecFloat].

    Theory: an allowed order respects the caps and a halted user's orders are
    refused as long as the database answers; what happens when it does not;
    the cap that is never consulted. *)

From S2P Require Import Prelude GoFloat.
From Stdlib Require Import SpecFloat.

Record Caps := {
  MaxOpenOrders : Z;
  MaxNotionalPerOrder : float64;
  MaxTotalNotional : float64;
  MaxOrdersPerMinute : Z;
}.

Definition Defaults : Caps := {|
  MaxOpenOrders := 50; MaxNotionalPerOrder := f64_int 100000; MaxTotalNotional := f64_int 1000000;
  MaxOrdersPerMinute := 60 |}.

Record OrderCheck := { Quantity : float64; Price : float64; OpenOrders : Z }.

(** The tables, and whether each query of a check gets an answer. *)
Record DB := {
  user_caps : gmap string Caps;
  kill_switches : gmap string (bool * option string);
  recent_orders : gmap string Z;
  answers_halted : bool;
  answers_caps : bool;
  answers_count : bool;
  answers_exec : bool;
}.

Definition CapsFor (db : DB) (userID : string) : Caps :=
  if answers_caps db then default Defaults (user_caps db !! userID) else Defaults.

Definition IsHalted (db : DB) (userID : string) : bool * string :=
  if answers_halted db then
    match kill_switches db !! userID with
    | Some (halted, reason) => (halted, default ""%string reason)
    | None => (false, ""%string)
    end
  else (false, ""%string).

Definition OrdersInLastMinute (db : DB) (userID : string) : Z :=
  if answers_count db then default 0 (recent_orders db !! userID) else 0.

Definition with_caps (c : gmap string Caps) (db : DB) : DB := {|
  user_caps := c; kill_switches := kill_switches db; recent_orders := recent_orders db;
  answers_halted := answers_halted db; answers_caps := answers_caps db; answers_count := answers_count db;
  answers_exec := answers_exec db |}.
Definition with_switches (k : gmap string (bool * option string)) (db : DB) : DB := {|
  user_caps := user_caps db; kill_switches := k; recent_orders := recent_orders db;
  answers_halted := answers_halted db; answers_caps := answers_caps db; answers_count := answers_count db;
  answers_exec := answers_exec db |}.

(** A statement that is executed or fails. *)
Definition exec (f : DB -> DB) : SE DB unit := fun db =>
  if answers_exec db then (Ok tt, f db) else (Err (ErrMsg "exec"), db).

Definition SetCaps (userID : string) (c : Caps) : SE DB unit := exec (fun db => with_caps (<[userID := c]> (user_caps db)) db).
Definition Halt (userID reason : string) : SE DB unit :=
  exec (fun db => with_switches (<[userID := (true, Some reason)]> (kill_switches db)) db).
Definition Resume (userID : string) : SE DB unit :=
  exec (fun db => with_switches (alter (fun _ => (false, None)) userID (kill_switches db)) db).

(** Why an order is refused. *)
Inductive Refusal := ErrUserHalted (reason : string) | CapOpenOrders | CapNotional | CapOrdersPerMinute.

(** [CheckOrder]; [None] is allowed.  Its queries never report an error. *)
Definition CheckOrder (db : DB) (userID : string) (oc : OrderCheck) : option Refusal :=
  let '(halted, haltReason) := IsHalted db userID in
  if halted then Some (ErrUserHalted haltReason) else
  let caps := CapsFor db userID in
  if MaxOpenOrders caps <=? OpenOrders oc then Some CapOpenOrders
  else if f64_gt (f64_mul (Quantity oc) (Price oc)) (MaxNotionalPerOrder caps) then Some CapNotional
  else if MaxOrdersPerMinute caps <=? OrdersInLastMinute db userID then Some CapOrdersPerMinute
  else None.

(** ** Theory *)

Definition answering (db : DB) : Prop :=
  answers_halted db = true /\ answers_caps db = true /\ answers_count db = true.

(** The caps that apply and the halt that applies, as the tables say. *)
Definition stored_caps (db : DB) (userID : string) : Caps := default Defaults (user_caps db !! userID).
Definition stored_halt (db : DB) (userID : string) : bool := default false (fst <$> kill_switches db !! userID).

(** While the database answers, an order is allowed only to a user who
    is not halted, with fewer open orders and fewer orders in the last minute
    than the caps allow, and whose notional, as float64 rounds the product,
    does not exceed the cap; and every such order is allowed. *)
Theorem check_order_respects_caps db userID oc :
  answering db ->
  CheckOrder db userID oc = None <->
    stored_halt db userID = false /\ OpenOrders oc < MaxOpenOrders (stored_caps db userID) /\
    f64_gt (f64_mul (Quantity oc) (Price oc)) (MaxNotionalPerOrder (stored_caps db userID)) = false /\
    default 0 (recent_orders db !! userID) < MaxOrdersPerMinute (stored_caps db userID).
Proof.
  intros (H1 & H2 & H3). unfold CheckOrder, IsHalted, CapsFor, OrdersInLastMinute, stored_halt, stored_caps.
  rewrite H1, H2, H3.
  assert (match kill_switches db !! userID with Some (h, r) => (h, default ""%string r) | None => (false, ""%string) end =
    (default false (fst <$> kill_switches db !! userID),
     default ""%string (kill_switches db !! userID ≫= snd))) as -> by (by destruct (kill_switches db !! userID) as [[]|]).
  destruct (default false _); [split; [done | by intros [? _]] |].
  destruct (_ <=? OpenOrders oc) eqn:E1; bool_prop; [split; [done | lia] |].
  destruct (f64_gt _ _) eqn:E2; [split; [done | by intros (_ & _ & ? & _)] |].
  destruct (_ <=? default 0 _) eqn:E3; bool_prop; [split; [done | lia] |]. by split.
Qed.

(** What may happen to the tables without a resumption of the user. *)
Inductive admin_step (userID : string) : DB -> DB -> Prop :=
  | admin_caps u c db : admin_step userID db (SetCaps u c db).2
  | admin_halt u r db : admin_step userID db (Halt u r db).2
  | admin_resume u db : u <> userID -> admin_step userID db (Resume u db).2.

Lemma admin_step_halted userID db db' : admin_step userID db db' -> stored_halt db userID = true -> stored_halt db' userID = true.
Proof.
  intros Hs. unfold stored_halt. destruct Hs as [u c db|u r db|u db Hne]; unfold SetCaps, Halt, Resume, exec;
    destruct (answers_exec db); simpl; try done.
  - destruct (decide (u = userID)) as [->|Hu]; [by rewrite lookup_insert_eq | by rewrite lookup_insert_ne].
  - by rewrite lookup_alter_ne.
Qed.

(** C12: once [Halt] succeeded for a user, and whatever caps are set and
    whoever else is halted or resumed, every order of that user is refused
    while the database answers, until that user is resumed. *)
Theorem halt_blocks_until_resume userID reason db db1 db2 oc :
  Halt userID reason db = (Ok tt, db1) -> rtc (admin_step userID) db1 db2 -> answers_halted db2 = true ->
  exists r, CheckOrder db2 userID oc = Some (ErrUserHalted r).
Proof.
  intros Hh Hs Ha.
  assert (stored_halt db1 userID = true) as H1.
  { unfold Halt, exec in Hh. destruct (answers_exec db); [| done]. injection Hh as <-.
    unfold stored_halt. simpl. by rewrite lookup_insert_eq. }
  assert (stored_halt db2 userID = true) as H2.
  { clear Hh. induction Hs as [|x y z Hxy _ IH]; [done |]. apply IH; [done | by eapply admin_step_halted]. }
  unfold CheckOrder, IsHalted. rewrite Ha. unfold stored_halt in H2.
  destruct (kill_switches db2 !! userID) as [[h r]|]; simpl in H2; [subst h; eauto | done].
Qed.

Definition halted_db (answers : bool) : DB := {|
  user_caps := ∅; kill_switches := {[ "u"%string := (true, Some "risk"%string) ]}; recent_orders := ∅;
  answers_halted := answers; answers_caps := true; answers_count := true; answers_exec := true |}.
Definition small_order : OrderCheck := {| Quantity := f64_int 10; Price := f64_int 100; OpenOrders := 0 |}.

(** The kill switch fails open.  A query that fails is taken for a
    missing row, so the orders of a halted user are refused while the
    database answers and allowed as soon as the query times out. *)
Theorem kill_switch_fails_open :
  CheckOrder (halted_db true) "u" small_order = Some (ErrUserHalted "risk") /\
  CheckOrder (halted_db false) "u" small_order = None.
Proof. split; vm_compute; reflexivity. Qed.

(** The cap on the total notional is stored and documented but never
    consulted: two cap sets that differ in it only give every order the same
    verdict. *)
Theorem total_notional_ignored db userID c limit oc :
  let c' := {| MaxOpenOrders := MaxOpenOrders c; MaxNotionalPerOrder := MaxNotionalPerOrder c;
               MaxTotalNotional := limit; MaxOrdersPerMinute := MaxOrdersPerMinute c |} in
  CheckOrder (SetCaps userID c db).2 userID oc = CheckOrder (SetCaps userID c' db).2 userID oc.
Proof.
  intros c'. unfold CheckOrder, SetCaps, exec. destruct (answers_exec db); [| done].
  unfold IsHalted, CapsFor, OrdersInLastMinute. simpl. rewrite !lookup_insert_eq. by destruct (answers_caps db).
Qed.

Lemma check_order_respects_caps_witness :
  let db := {| user_caps := ∅; kill_switches := ∅; recent_orders := ∅;
               answers_halted := true; answers_caps := true; answers_count := true; answers_exec := true |} in
  OpenOrders small_order < MaxOpenOrders (stored_caps db "u").
Proof.
  intros db. apply (check_order_respects_caps db "u" small_order); [by split | vm_compute; reflexivity].
Defined.

Lemma halt_blocks_until_resume_witness :
  exists r, CheckOrder (SetCaps "u" Defaults (Halt "u" "risk" (halted_db true)).2).2 "u" small_order = Some (ErrUserHalted r).
Proof.
  apply (halt_blocks_until_resume "u" "risk" (halted_db true) (Halt "u" "risk" (halted_db true)).2).
  - reflexivity.
  - apply rtc_once. exact (admin_caps "u" "u" Defaults (Halt "u" "risk" (halted_db true)).2).
  - reflexivity.
Defined.
