(* ===== verification/Breakout.v ===== *)
(** * strategy/breakout: the volatility-compression breakout strategy, live

    Configuration and decisions ([types.go]); the signal, the volume filter,
    exit levels, opening and closing positions and the live run of
    [strategy.go].

    The strategy struct is split by use: the indicators that [Update] feeds,
    the on-balance volume, the position, and the rest of the live state.

    Theory: a signal is confirmed by enough crossing bars since the last one;
    what one event of the live loop may send; a run on an account without
    bonds never sends an order; two runs in which the position is lost. *)

From S2P Require Import Prelude GoTime Decimal RefDecimal Types Window Stats Market Replay Feed.

Definition StrategyType : string := "breakout".
Definition DecisionReasonNoSignalYet : string := "no_signal_yet".
Definition DecisionReasonWarmingUp : string := "warming_up".
Definition DecisionReasonVolTooLow : string := "vol_too_low".
Definition DecisionReasonCompressionEntry : string := "compression_breakout".
Definition DecisionReasonReversal : string := "breakout_reversal".
Definition ExitReasonTakeProfit : string := "take_profit".
Definition ExitReasonStopLoss : string := "stop_loss".
Definition ExitReasonStrategyExit : string := "strategy_exit".
Definition ExitReasonReversal : string := "reversal".

Section Breakout.
Context {D : DecimalOps}.

Record Config := {
  ShortVolWindow : Z;
  LongVolWindow : Z;
  CompressionThreshold : dec;
  ATRWindow : Z;
  BreakoutATRMultiple : dec;
  ConfirmationBars : Z;
  StopLossATR : dec;
  TakeProfitATR : dec;
  MinLongVolFloor : dec;
  OBVTrendThreshold : dec;
  OBVWindow : Z;
  Resolution : string;
  OrderBookID : string;
  InitialBalance : dec;
  Leverage : dec;
}.

Definition DefaultConfig : Config := {|
  ShortVolWindow := 12; LongVolWindow := 96; CompressionThreshold := dnew 3 1; ATRWindow := 12;
  BreakoutATRMultiple := dnew 15 1; ConfirmationBars := 3; StopLossATR := dnew 20 0; TakeProfitATR := dzero;
  MinLongVolFloor := dzero; OBVTrendThreshold := dzero; OBVWindow := 0; Resolution := "5m"; OrderBookID := "";
  InitialBalance := done1; Leverage := done1 |}.

Record Decision := MkDecision {
  d_time : Time;
  d_bondID : string;
  d_price : dec;
  d_signal : Signal;
  d_positionSize : dec;
  d_reason : string;
  d_ShortVol : dec;
  d_LongVol : dec;
  d_CompressionRatio : dec;
  d_ATR : dec;
  d_BreakoutLevel : dec;
  d_CompressionArmed : bool;
  d_BarsAboveTrigger : Z;
  d_ArmedCompressionRatio : dec;
}.

(** ** State *)

(** The compression flag and the counters of confirming bars. *)
Record Arm := MkArm {
  compressionArmed : bool;
  armedCompressionRatio : dec;
  barsAboveTrigger : Z;
  barsBelowTrigger : Z;
}.

(** What [Update] reads and writes. *)
Record Ind := MkInd {
  shortVolWin : Rolling;
  longVolWin : Rolling;
  atrWin : Rolling;
  lastPrice : dec;
  arm : Arm;
}.

(** On-balance volume. *)
Record Obv := MkObv {
  obvSum : dec;
  obvPrevPrice : dec;
  obvWindow : option Rolling;
}.

Record Pos := MkPos {
  openSignal : Signal;
  balancesInitialized : bool;
  bondQty : dec;
  entryPrice : dec;
  entryATR : dec;
}.

Record Live := MkLive {
  baseAssetID : string;
  runID : string;
  isRunning : bool;
  paused : bool;
  cancelled : bool;
  decisionSeq : Z;
  errs : list error;
}.

Definition set_Leverage (v : dec) (c : Config) : Config := {|
  ShortVolWindow := ShortVolWindow c; LongVolWindow := LongVolWindow c;
  CompressionThreshold := CompressionThreshold c; ATRWindow := ATRWindow c;
  BreakoutATRMultiple := BreakoutATRMultiple c; ConfirmationBars := ConfirmationBars c;
  StopLossATR := StopLossATR c; TakeProfitATR := TakeProfitATR c; MinLongVolFloor := MinLongVolFloor c;
  OBVTrendThreshold := OBVTrendThreshold c; OBVWindow := OBVWindow c; Resolution := Resolution c;
  OrderBookID := OrderBookID c; InitialBalance := InitialBalance c; Leverage := v |}.

Definition new_Config (c : Config) : Config := if d_is_zero (Leverage c) then set_Leverage done1 c else c.

Definition zero_Arm : Arm := MkArm false dzero 0 0.
Definition new_Ind (c : Config) : Ind :=
  MkInd (NewRollingWindow (ShortVolWindow c)) (NewRollingWindow (LongVolWindow c)) (NewRollingWindow (ATRWindow c))
    dzero zero_Arm.
Definition new_Obv (c : Config) : Obv :=
  MkObv dzero dzero (if 0 <? OBVWindow c then Some (NewRollingWindow (OBVWindow c)) else None).

(** ** On-balance volume *)

(** [streams.TradeEvent], the fields read *)
Record TradeEvent := { te_Price : dec; te_Quantity : dec; te_Side : string }.

Definition OBV (o : Obv) : dec :=
  match obvWindow o with Some w => Sum w | None => obvSum o end.

Definition applyTradeEvent (ev : TradeEvent) (o : Obv) : Obv :=
  match obvWindow o with
  | Some w =>
      if bool_decide (te_Side ev = "BUY"%string) then MkObv (obvSum o) (obvPrevPrice o) (Some (Add (te_Quantity ev) w).2)
      else if bool_decide (te_Side ev = "SELL"%string) then
        MkObv (obvSum o) (obvPrevPrice o) (Some (Add (dneg (te_Quantity ev)) w).2)
      else o
  | None =>
      let delta :=
        if bool_decide (te_Side ev = "BUY"%string) then te_Quantity ev
        else if bool_decide (te_Side ev = "SELL"%string) then dneg (te_Quantity ev)
        else if d_is_zero (obvPrevPrice o) then te_Quantity ev
        else match dcmp (te_Price ev) (obvPrevPrice o) with
             | Gt => te_Quantity ev
             | Lt => dneg (te_Quantity ev)
             | Eq => dzero
             end in
      MkObv (d_or_zero (dadd (obvSum o) delta)) (te_Price ev) None
  end.

(** ** The signal *)

Definition on_short (m : SE Rolling unit) : SE Ind unit := fun i =>
  let '(r, w) := m (shortVolWin i) in (r, MkInd w (longVolWin i) (atrWin i) (lastPrice i) (arm i)).
Definition on_long (m : SE Rolling unit) : SE Ind unit := fun i =>
  let '(r, w) := m (longVolWin i) in (r, MkInd (shortVolWin i) w (atrWin i) (lastPrice i) (arm i)).
Definition on_atr (m : SE Rolling unit) : SE Ind unit := fun i =>
  let '(r, w) := m (atrWin i) in (r, MkInd (shortVolWin i) (longVolWin i) w (lastPrice i) (arm i)).
Definition set_lastPrice (p : dec) (i : Ind) : Ind :=
  MkInd (shortVolWin i) (longVolWin i) (atrWin i) p (arm i).
Definition set_arm (a : Arm) (i : Ind) : Ind :=
  MkInd (shortVolWin i) (longVolWin i) (atrWin i) (lastPrice i) a.

Definition ingestObservation (bar : Bar) (prevClose : dec) : SE Ind unit :=
  tr ← lift (TrueRange bar prevClose);
  on_atr (Add tr);;
  on_short (Add (bar_Close bar));;
  on_long (Add (bar_Close bar));;
  modify (set_lastPrice (bar_Close bar)).

(** Short and long volatility and the ATR. *)
Definition rollingStats (i : Ind) : result (dec * dec * dec) :=
  shortVol ← StdDev (shortVolWin i);
  longVol ← StdDev (longVolWin i);
  Ok (shortVol, longVol, Mean (atrWin i)).

Definition compressionRatio (shortVol longVol : dec) : result dec :=
  if d_is_zero longVol then Ok dzero else dquo shortVol longVol.

Definition resetArmed (a : Arm) : Arm := MkArm false (armedCompressionRatio a) 0 0.

(** An emitted signal. *)
Definition emit (sig : Signal) (level : dec) (above : Z) (a : Arm) (d : Decision) : Decision :=
  MkDecision (d_time d) (d_bondID d) (d_price d) sig done1 DecisionReasonCompressionEntry
    (d_ShortVol d) (d_LongVol d) (d_CompressionRatio d) (d_ATR d) level (d_CompressionArmed d) above
    (armedCompressionRatio a).

Definition set_level (level : dec) (above : Z) (d : Decision) : Decision :=
  MkDecision (d_time d) (d_bondID d) (d_price d) (d_signal d) (d_positionSize d) (d_reason d)
    (d_ShortVol d) (d_LongVol d) (d_CompressionRatio d) (d_ATR d) level (d_CompressionArmed d) above
    (d_ArmedCompressionRatio d).

(** [evaluateBreakout]: an overflow of a trigger level changes nothing. *)
Definition evaluateBreakout (c : Config) (price prevPrice atr : dec) (a : Arm) (d : Decision) : Decision * Arm :=
  match dmul (BreakoutATRMultiple c) atr with
  | Err _ => (d, a)
  | Ok kTimesATR =>
  match dadd prevPrice kTimesATR with
  | Err _ => (d, a)
  | Ok triggerHigh =>
  match dsub prevPrice kTimesATR with
  | Err _ => (d, a)
  | Ok triggerLow =>
      if d_gt price triggerHigh then
        let n := wrap64 (barsAboveTrigger a + 1) in
        let a1 := MkArm (compressionArmed a) (armedCompressionRatio a) n (barsBelowTrigger a) in
        if ConfirmationBars c <=? n then (emit SignalBuy triggerHigh n a1 d, resetArmed a1)
        else (set_level triggerHigh n d, a1)
      else if d_lt price triggerLow then
        let n := wrap64 (barsBelowTrigger a + 1) in
        let a1 := MkArm (compressionArmed a) (armedCompressionRatio a) (barsAboveTrigger a) n in
        if ConfirmationBars c <=? n then
          (emit SignalSell triggerHigh (d_BarsAboveTrigger d) a1 d, resetArmed a1)
        else (set_level triggerHigh (d_BarsAboveTrigger d) d, a1)
      else (set_level triggerHigh (d_BarsAboveTrigger d) d, a)
  end end end.

Definition suppress (d : Decision) : Decision :=
  MkDecision (d_time d) (d_bondID d) (d_price d) SignalHold dzero (d_reason d)
    (d_ShortVol d) (d_LongVol d) (d_CompressionRatio d) (d_ATR d) (d_BreakoutLevel d) (d_CompressionArmed d)
    (d_BarsAboveTrigger d) (d_ArmedCompressionRatio d).

Definition applyVolumeFilter (c : Config) (obv : dec) (d : Decision) : Decision :=
  if OBVWindow c =? 0 then d
  else match d_signal d with
  | SignalBuy => if d_le obv (OBVTrendThreshold c) then suppress d else d
  | SignalSell => if d_le (dneg obv) (OBVTrendThreshold c) then suppress d else d
  | SignalHold => d
  end.

(** The decision [Update] starts from, and a hold with its reason. *)
Definition base_decision (assetID : string) (bar : Bar) (a : Arm) : Decision :=
  MkDecision (bar_Time bar) assetID (bar_Close bar) SignalHold dzero "" dzero dzero dzero dzero dzero
    (compressionArmed a) (barsAboveTrigger a) dzero.
Definition set_stats (shortVol longVol atr : dec) (d : Decision) : Decision :=
  MkDecision (d_time d) (d_bondID d) (d_price d) (d_signal d) (d_positionSize d) (d_reason d)
    shortVol longVol (d_CompressionRatio d) atr (d_BreakoutLevel d) (d_CompressionArmed d)
    (d_BarsAboveTrigger d) (d_ArmedCompressionRatio d).
Definition set_ratio (ratio : dec) (armed : bool) (d : Decision) : Decision :=
  MkDecision (d_time d) (d_bondID d) (d_price d) (d_signal d) (d_positionSize d) (d_reason d)
    (d_ShortVol d) (d_LongVol d) ratio (d_ATR d) (d_BreakoutLevel d) armed
    (d_BarsAboveTrigger d) (d_ArmedCompressionRatio d).
Definition hold (reason : string) (d : Decision) : Decision :=
  MkDecision (d_time d) (d_bondID d) (d_price d) SignalHold (d_positionSize d) reason
    (d_ShortVol d) (d_LongVol d) (d_CompressionRatio d) (d_ATR d) (d_BreakoutLevel d) (d_CompressionArmed d)
    (d_BarsAboveTrigger d) (d_ArmedCompressionRatio d).

(** The flag after a compression ratio was seen. *)
Definition rearm (c : Config) (ratio : dec) (a : Arm) : Arm :=
  if d_lt ratio (CompressionThreshold c) then
    MkArm true (if compressionArmed a then armedCompressionRatio a else ratio) (barsAboveTrigger a) (barsBelowTrigger a)
  else a.

(** [Update]; [obv] is what [OBV()] returns at that moment. *)
Definition Update (c : Config) (obv : dec) (assetID : string) (bar : Bar) : SE Ind Decision :=
  prevClose ← gets lastPrice;
  ingestObservation bar prevClose;;
  i ← gets id;
  let d := base_decision assetID bar (arm i) in
  if negb (Ready (longVolWin i)) then mret (hold DecisionReasonWarmingUp d) else
  '(shortVol, longVol, atr) ← lift (rollingStats i);
  let d := set_stats shortVol longVol atr d in
  if d_lt longVol (MinLongVolFloor c) then mret (hold DecisionReasonVolTooLow d) else
  ratio ← lift (compressionRatio shortVol longVol);
  let a := rearm c ratio (arm i) in
  modify (set_arm a);;
  let d := set_ratio ratio (d_lt ratio (CompressionThreshold c) || d_CompressionArmed d) d in
  if negb (compressionArmed a) then mret (hold DecisionReasonNoSignalYet d) else
  let '(d, a) := evaluateBreakout c (bar_Close bar) prevClose atr a d in
  modify (set_arm a);;
  mret (applyVolumeFilter c obv d).

(** ** Exits *)

(** [bandLevel]; [None] is [ok = false]. *)
Definition bandLevel (entry atr multiplier : dec) (wantAbove : bool) : option dec :=
  if negb (d_is_pos multiplier) then None else
  match dmul multiplier atr with
  | Err _ => None
  | Ok distance =>
      match (if wantAbove then dadd entry distance else dsub entry distance) with
      | Ok level => Some level
      | Err _ => None
      end
  end.

(** [exitPriceCrosses]: the price has crossed and [ok]. *)
Definition exitPriceCrosses (entry atr multiplier price : dec) (wantAbove : bool) : bool :=
  match bandLevel entry atr multiplier wantAbove with
  | None => false
  | Some level => if wantAbove then d_ge price level else d_le price level
  end.

Definition liveCheckSLTP (sig : Signal) (entry atr price : dec) (c : Config) : option string :=
  if d_is_zero atr then None else
  match sig with
  | SignalBuy =>
      if d_is_pos (StopLossATR c) && exitPriceCrosses entry atr (StopLossATR c) price false
      then Some ExitReasonStopLoss
      else if d_is_pos (TakeProfitATR c) && exitPriceCrosses entry atr (TakeProfitATR c) price true
      then Some ExitReasonTakeProfit else None
  | SignalSell =>
      if d_is_pos (StopLossATR c) && exitPriceCrosses entry atr (StopLossATR c) price true
      then Some ExitReasonStopLoss
      else if d_is_pos (TakeProfitATR c) && exitPriceCrosses entry atr (TakeProfitATR c) price false
      then Some ExitReasonTakeProfit else None
  | SignalHold => None
  end.

Definition isReversal (open current : Signal) : bool :=
  negb (bool_decide (open = current)) && negb (bool_decide (current = SignalHold)).

(** ** The live strategy *)

(** [cappedOrderQuantity]; [Ok None] is [ok = false]. *)
Definition cappedOrderQuantity (fraction position price : dec) : result (option dec) :=
  budget ← dmul position fraction;
  q ← dquo budget price;
  let qty := dfloor q in
  if d_is_zero qty then Ok None else Ok (Some qty).

Context {W : Type} (E : Env W).

Record Strategy := MkStrategy {
  s_cfg : Config; s_ind : Ind; s_obv : Obv; s_pos : Pos; s_live : Live; s_sys : Sys W }.

Definition with_ind (i : Ind) (s : Strategy) : Strategy :=
  MkStrategy (s_cfg s) i (s_obv s) (s_pos s) (s_live s) (s_sys s).
Definition with_obv (o : Obv) (s : Strategy) : Strategy :=
  MkStrategy (s_cfg s) (s_ind s) o (s_pos s) (s_live s) (s_sys s).
Definition upd_pos (f : Pos -> Pos) (s : Strategy) : Strategy :=
  MkStrategy (s_cfg s) (s_ind s) (s_obv s) (f (s_pos s)) (s_live s) (s_sys s).
Definition upd_live (f : Live -> Live) (s : Strategy) : Strategy :=
  MkStrategy (s_cfg s) (s_ind s) (s_obv s) (s_pos s) (f (s_live s)) (s_sys s).
Definition with_sys (y : Sys W) (s : Strategy) : Strategy :=
  MkStrategy (s_cfg s) (s_ind s) (s_obv s) (s_pos s) (s_live s) y.

(** Run a call of the environment from a method. *)
Definition call {A} (m : ST (Sys W) A) : ST Strategy A := fun s =>
  let '(a, y) := m (s_sys s) in (a, with_sys y s).

Definition recordErr (e : error) : Strategy -> Strategy := upd_live (fun l =>
  MkLive (baseAssetID l) (runID l) (isRunning l) (paused l) (cancelled l) (decisionSeq l) (errs l ++ [e])).
Definition SetDecisionSeq (seq : Z) : Strategy -> Strategy := upd_live (fun l =>
  MkLive (baseAssetID l) (runID l) (isRunning l) (paused l) (cancelled l) seq (errs l)).
Definition set_run (id : string) (running : bool) : Strategy -> Strategy := upd_live (fun l =>
  MkLive (baseAssetID l) id running (paused l) (cancelled l) (decisionSeq l) (errs l)).
Definition set_asset (a : string) : Strategy -> Strategy := upd_live (fun l =>
  MkLive a (runID l) (isRunning l) (paused l) (cancelled l) (decisionSeq l) (errs l)).

(** [New], on a fresh system *)
Definition New (c : Config) (y : Sys W) : Strategy :=
  MkStrategy (new_Config c) (new_Ind (new_Config c)) (new_Obv (new_Config c))
    (MkPos SignalHold false dzero dzero dzero) (MkLive "" uuid_nil false false false 0 []) y.

Definition IsPaused (s : Strategy) : bool := paused (s_live s).

(** [recordDecision]: run, sequence number, type and time are filled in. *)
Definition recordDecision (mk : string -> Z -> Time -> DecisionRow) (s : Strategy) : Strategy :=
  match Records E with
  | None => s
  | Some save =>
      let seq := wrap64 (decisionSeq (s_live s) + 1) in
      let s1 := SetDecisionSeq seq s in
      let '(now, s2) := call (time_now E) s1 in
      let d := mk (runID (s_live s)) seq now in
      let '(_, s3) := call (invoke (save d) (fun _ => [CallSaveDecision d])) s2 in s3
  end.

(** [currentPosition]: the borrowed amount is dropped. *)
Definition currentPosition (assetID : string) : ST Strategy (result dec) := fun s =>
  let '(r, s1) := call (quiet (AssetPosition E assetID)) s in (result_map fst r, s1).

(** [positionOrFetch] *)
Definition positionOrFetch (assetID : string) : ST Strategy (dec * bool) := fun s =>
  if balancesInitialized (s_pos s) then ((bondQty (s_pos s), true), s)
  else let '(pos, s1) := currentPosition assetID s in ((or_zero dzero pos, false), s1).

(** The position after an order, and the entry anchor. *)
Definition opened (useTracked : bool) (side : Side) (sig : Signal) (quantity price atr : dec) (p : Pos) : Pos :=
  let qty := if useTracked then match side with
               | SIDE_BUY => d_or_zero (dadd (bondQty p) quantity)
               | SIDE_SELL => d_or_zero (dsub (bondQty p) quantity) end
             else bondQty p in
  MkPos (if useTracked then signalFromBondQty qty else sig) (balancesInitialized p) qty price atr.

Definition executeDecision (d : Decision) (assetID : string) : ST Strategy (result bool) := fun s =>
  match d_signal d with
  | SignalHold => (Ok false, s)
  | sig =>
      let price := d_price d in
      if d_is_zero price then (Err (ErrMsg "cannot execute decision: price is zero"), s) else
      let '((position, useTracked), s1) := positionOrFetch assetID s in
      match cappedOrderQuantity (d_positionSize d) position price with
      | Err e => (Err e, s1)
      | Ok None => (Ok false, s1)
      | Ok (Some quantity) =>
          if d_is_zero quantity then (Ok false, s1) else
          let side := if bool_decide (sig = SignalSell) then SIDE_SELL else SIDE_BUY in
          match dquo done1 (Leverage (s_cfg s1)) with
          | Err e => (Err (ErrWrap "compute inverse leverage" e), s1)
          | Ok inverseLeverage =>
              let '(clientOrderID, s2) := call (BuildClientOrderID E StrategyType (runID (s_live s1))) s1 in
              let '(res, s3) := call (create_market_order E {|
                or_OrderBookID := OrderBookID (s_cfg s1); or_Side := side; or_Quantity := quantity;
                or_InverseLeverage := inverseLeverage; or_FromGlobalPosition := false;
                or_ClientOrderID := clientOrderID |}) s2 in
              match res with
              | Err e => (Err e, s3)
              | Ok _ =>
                  let s4 := recordDecision (fun run seq now => {|
                    dr_RunID := run; dr_Seq := seq; dr_StrategyType := StrategyType;
                    dr_OrderBookID := OrderBookID (s_cfg s1); dr_Asset := MustParseUUID E assetID;
                    dr_Side := Side_string side; dr_Signal := Signal_String sig;
                    dr_Quantity := quantity; dr_Price := price;
                    dr_Leverage := Leverage (s_cfg s1); dr_InverseLeverage := inverseLeverage;
                    dr_FromGlobalPosition := false; dr_Kind := DecisionKindOpen; dr_Reason := d_reason d;
                    dr_CreatedAt := now; dr_ClientOrderID := clientOrderID |}) s3 in
                  (Ok true, upd_pos (opened useTracked side sig quantity price (d_ATR d)) s4)
              end
          end
      end
  end.

(** The position after a close. *)
Definition flat_pos (useTracked : bool) (p : Pos) : Pos :=
  MkPos SignalHold (balancesInitialized p) (if useTracked then dzero else bondQty p) dzero dzero.

Definition closePosition (assetID reason : string) : ST Strategy (result unit) := fun s =>
  let openSig := openSignal (s_pos s) in
  let useTracked := balancesInitialized (s_pos s) in
  if bool_decide (openSig = SignalHold) then (Ok tt, s) else
  let side := if bool_decide (openSig = SignalSell) then SIDE_BUY else SIDE_SELL in
  let '(q, s1) := if useTracked then (Ok (dabs (bondQty (s_pos s))), s) else currentPosition assetID s in
  match q with
  | Err e => (Err e, s1)
  | Ok qty =>
      if negb useTracked && d_is_zero qty then (Ok tt, upd_pos (flat_pos false) s1) else
      let inverseLeverage := or_zero done1 (dquo done1 (Leverage (s_cfg s1))) in
      let '(clientOrderID, s2) := call (BuildClientOrderID E StrategyType (runID (s_live s1))) s1 in
      let '(res, s3) := call (create_market_order E {|
        or_OrderBookID := OrderBookID (s_cfg s1); or_Side := side; or_Quantity := qty;
        or_InverseLeverage := inverseLeverage; or_FromGlobalPosition := false;
        or_ClientOrderID := clientOrderID |}) s2 in
      match res with
      | Err e => (Err e, s3)
      | Ok _ =>
          let closeSignal := match side with SIDE_BUY => SignalBuy | SIDE_SELL => SignalSell end in
          let s4 := recordDecision (fun run seq now => {|
            dr_RunID := run; dr_Seq := seq; dr_StrategyType := StrategyType;
            dr_OrderBookID := OrderBookID (s_cfg s1); dr_Asset := MustParseUUID E assetID;
            dr_Side := Side_string side; dr_Signal := Signal_String closeSignal;
            dr_Quantity := qty; dr_Price := lastPrice (s_ind s);
            dr_Leverage := Leverage (s_cfg s1); dr_InverseLeverage := inverseLeverage;
            dr_FromGlobalPosition := false; dr_Kind := DecisionKindClose; dr_Reason := reason;
            dr_CreatedAt := now; dr_ClientOrderID := clientOrderID |}) s3 in
          (Ok tt, upd_pos (flat_pos useTracked) s4)
      end
  end.

(** *** The loop *)

Inductive Event :=
  | EvCtxDone
  | EvMessage (m : Message)
  | EvBar (bar : Bar)
  | EvPrices (pxs : list AssetPrice)   (* in the order the map is iterated *)
  | EvTrade (ev : TradeEvent)
  | EvTradesClosed
  | EvTicker.

Definition note_result {A} (r : result A) (s : Strategy) : Strategy :=
  match r with Ok _ => s | Err e => recordErr e s end.

Definition handleMessage (m : Message) : Strategy -> Strategy := upd_live (fun l =>
  match m with
  | Stop => MkLive (baseAssetID l) (runID l) (isRunning l) (paused l) true (decisionSeq l) (errs l)
  | Pause => MkLive (baseAssetID l) (runID l) (isRunning l) true (cancelled l) (decisionSeq l) (errs l)
  | Resume => MkLive (baseAssetID l) (runID l) (isRunning l) false (cancelled l) (decisionSeq l) (errs l)
  end).

Definition on_bar (assetID : string) (bar : Bar) (s : Strategy) : Strategy :=
  let wasPaused := paused (s_live s) in
  let openSig := openSignal (s_pos s) in
  let '(r, ind) := Update (s_cfg s) (OBV (s_obv s)) (baseAssetID (s_live s)) bar (s_ind s) in
  let s1 := with_ind ind s in
  match r with
  | Err _ => s1
  | Ok decision =>
      if wasPaused then s1
      else if negb (bool_decide (openSig = SignalHold)) then
        if isReversal openSig (d_signal decision) then
          let '(r2, s2) := closePosition assetID DecisionReasonReversal s1 in note_result r2 s2
        else s1
      else if negb (bool_decide (d_signal decision = SignalHold)) then
        let '(r2, s2) := executeDecision decision assetID s1 in note_result r2 s2
      else s1
  end.

(** One price of a tick batch. *)
Definition on_price (assetID : string) (s : Strategy) (px : AssetPrice) : Strategy :=
  if negb (bool_decide (px_AssetID px = assetID)) then s
  else
    let p := s_pos s in
    if paused (s_live s) || bool_decide (openSignal p = SignalHold) then s
    else match liveCheckSLTP (openSignal p) (entryPrice p) (entryATR p) (px_Price px) (s_cfg s) with
         | Some reason => let '(r, s1) := closePosition assetID reason s in note_result r s1
         | None => s
         end.

(** One iteration of the [select]; [None] leaves the loop. *)
Definition loop_step (assetID : string) (ev : Event) (s : Strategy) : option Strategy :=
  match ev with
  | EvCtxDone => None
  | EvMessage m => Some (handleMessage m s)
  | EvBar bar => Some (on_bar assetID bar s)
  | EvPrices pxs => Some (foldl (on_price assetID) s pxs)
  | EvTrade ev => Some (with_obv (applyTradeEvent ev (s_obv s)) s)
  | EvTradesClosed | EvTicker => Some s
  end.

Fixpoint run_events (assetID : string) (evs : list Event) (s : Strategy) : Strategy :=
  match evs with
  | [] => s
  | ev :: rest => match loop_step assetID ev s with None => s | Some s' => run_events assetID rest s' end
  end.

(** What a run finds configured: the candle store's range, the price
    subscription, the candle feed and its subscription. *)
Record Wiring := {
  CandleRange : option (string -> W -> result (option Time * option Time) * W);
  SubscribePrices : result unit;
  SubscribeBars : option (result unit);
}.
Context (C : Wiring).

(** [requireCandleCoverage]: best effort, unless the book has no candles. *)
Definition requireCandleCoverage (s : Strategy) : result unit * Strategy :=
  match CandleRange C with
  | None => (Ok tt, s)
  | Some range =>
      let '(r, s1) := call (quiet (range (OrderBookID (s_cfg s)))) s in
      match r with
      | Ok (None, None) => (Err (ErrMsg "no candle data for order book"), s1)
      | _ => (Ok tt, s1)
      end
  end.

(** [runLoop] *)
Definition runLoop (evs : list Event) (s : Strategy) : result unit * Strategy :=
  let '(asset, s1) := call (LookupAssetID E (OrderBookID (s_cfg s))) s in
  match asset with
  | Err e => (Err (ErrWrap "lookup asset ID" e), s1)
  | Ok assetID =>
      let s2 := set_asset assetID s1 in
      match SubscribeBars C with
      | None => (Err (ErrMsg "candle feed not configured"), s2)
      | Some sub =>
          let '(cov, s3) := requireCandleCoverage s2 in
          match cov, sub with
          | Err e, _ => (Err e, s3)
          | Ok _, Err e => (Err (ErrWrap "failed to subscribe to bars" e), s3)
          | Ok _, Ok _ => (Ok tt, run_events assetID evs s3)
          end
      end
  end.

(** [Run], for a configured market client *)
Definition Run (run : string) (evs : list Event) (s : Strategy) : result unit * Strategy :=
  if isRunning (s_live s) then (Err (ErrMsg "strategy is already running"), s) else
  let s1 := set_run run false s in
  match SubscribePrices C with
  | Err e => (Err (ErrWrap "subscribe to prices" e), s1)
  | Ok _ =>
      let '(r, s2) := runLoop evs (set_run run true s1) in
      (r, set_run (runID (s_live s2)) false s2)
  end.
End Breakout.

(** ** Theory: confirmation of a signal *)

Section SignalTheory.
Context {D : DecimalOps}.
Implicit Types (c : Config) (i : Ind) (d : Decision) (bar : Bar).

(** The side on which a bar closes beyond the trigger that [Update] builds on
    the previous close and the current ATR. *)
Definition crossed c bar i i' : option Signal :=
  match dmul (BreakoutATRMultiple c) (Mean (atrWin i')) with
  | Err _ => None
  | Ok k =>
      match dadd (lastPrice i) k, dsub (lastPrice i) k with
      | Ok high, Ok low =>
          if d_gt (bar_Close bar) high then Some SignalBuy
          else if d_lt (bar_Close bar) low then Some SignalSell else None
      | _, _ => None
      end
  end.

(** Whether the bar reached the breakout test. *)
Definition evaluated d : bool :=
  negb (bool_decide (d_reason d = DecisionReasonWarmingUp)) &&
  negb (bool_decide (d_reason d = DecisionReasonVolTooLow)) &&
  negb (bool_decide (d_reason d = DecisionReasonNoSignalYet)).

Definition emitted d : bool := bool_decide (d_reason d = DecisionReasonCompressionEntry).

(** The run of a fresh strategy over bars: what each decision was and on which
    side its bar crossed.  A bar whose [Update] fails leaves no decision. *)
Inductive feed c : list (Decision * option Signal) -> Ind -> Prop :=
  | feed_new : feed c [] (new_Ind c)
  | feed_bar h i obv a bar d i' : feed c h i -> Update c obv a bar i = (Ok d, i') ->
      feed c (h ++ [(d, crossed c bar i i')]) i'
  | feed_fail h i obv a bar e i' : feed c h i -> Update c obv a bar i = (Err e, i') -> feed c h i'.

(** The evaluated crossings of a side since the last emission. *)
Fixpoint crossings (sig : Signal) (rev_h : list (Decision * option Signal)) : Z :=
  match rev_h with
  | [] => 0
  | (d, x) :: rest =>
      if emitted d then 0
      else (if evaluated d && bool_decide (x = Some sig) then 1 else 0) + crossings sig rest
  end.

(** The latest bars in a row that were evaluated and closed beyond the trigger
    on one side, none of them an emission. *)
Fixpoint streak (sig : Signal) (rev_h : list (Decision * option Signal)) : Z :=
  match rev_h with
  | [] => 0
  | (d, x) :: rest =>
      if negb (emitted d) && evaluated d && bool_decide (x = Some sig) then 1 + streak sig rest else 0
  end.

(** Since the last emission some bar's volatility ratio was below the
    threshold: the market was compressed. *)
Definition compressed_at c d : bool := evaluated d && d_lt (d_CompressionRatio d) (CompressionThreshold c).
Fixpoint compressed c (rev_h : list (Decision * option Signal)) : bool :=
  match rev_h with
  | [] => false
  | (d, _) :: rest => negb (emitted d) && (compressed_at c d || compressed c rest)
  end.

(** What the volume filter asks of a signal. *)
Definition volume_confirms c (obv : dec) (sig : Signal) : bool :=
  (OBVWindow c =? 0) ||
  match sig with
  | SignalBuy => negb (d_le obv (OBVTrendThreshold c))
  | SignalSell => negb (d_le (dneg obv) (OBVTrendThreshold c))
  | SignalHold => true
  end.

Lemma streak_crossings sig h : streak sig h <= crossings sig h.
Proof.
  assert (forall l, 0 <= crossings sig l) as Hpos.
  { induction l as [|[d x] l IH]; simpl; [lia |]. destruct (emitted d); [lia |]. destruct (_ && _); lia. }
  induction h as [|[d x] h IH]; [done |]. cbn [streak crossings].
  destruct (emitted d); simpl; [lia |]. destruct (evaluated d && _); [lia |]. specialize (Hpos h). lia.
Qed.

(** The counters mean what they should, and stay below the threshold. *)
Record arm_inv c (h : list (Decision * option Signal)) i : Prop := {
  ai_armed : compressionArmed (arm i) = true -> compressed c (reverse h) = true;
  ai_above : barsAboveTrigger (arm i) = crossings SignalBuy (reverse h);
  ai_below : barsBelowTrigger (arm i) = crossings SignalSell (reverse h);
  ai_above_range : 0 <= barsAboveTrigger (arm i) /\ (barsAboveTrigger (arm i) < Z.max 1 (ConfirmationBars c));
  ai_below_range : 0 <= barsBelowTrigger (arm i) /\ (barsBelowTrigger (arm i) < Z.max 1 (ConfirmationBars c));
}.

Lemma crossings_snoc sig h d x : crossings sig (reverse (h ++ [(d, x)])) =
  if emitted d then 0
  else (if evaluated d && bool_decide (x = Some sig) then 1 else 0) + crossings sig (reverse h).
Proof. by rewrite reverse_app. Qed.

Lemma ingest_frame bar p i i' r : ingestObservation bar p i = (r, i') ->
  arm i' = arm i /\ (r = Ok tt -> lastPrice i' = bar_Close bar).
Proof.
  unfold ingestObservation, on_atr, on_short, on_long. intros H. run_SE.
  destruct (TrueRange bar p); [| by injection H as <- <-].
  destruct (Add _ (atrWin i)) as [[] ?]; simpl in H; [| by injection H as <- <-].
  destruct (Add _ (shortVolWin i)) as [[] ?]; simpl in H; [| by injection H as <- <-].
  destruct (Add _ (longVolWin i)) as [[] ?]; simpl in H; by injection H as <- <-.
Qed.

(** How a bar that yields a decision changes the counters. *)
Inductive bar_effect c obv bar i i' d : Prop :=
  | be_hold : evaluated d = false -> emitted d = false -> d_signal d = SignalHold ->
      barsAboveTrigger (arm i') = barsAboveTrigger (arm i) ->
      barsBelowTrigger (arm i') = barsBelowTrigger (arm i) -> bar_effect c obv bar i i' d
  | be_inside : evaluated d = true -> emitted d = false -> d_signal d = SignalHold -> crossed c bar i i' = None ->
      barsAboveTrigger (arm i') = barsAboveTrigger (arm i) ->
      barsBelowTrigger (arm i') = barsBelowTrigger (arm i) -> bar_effect c obv bar i i' d
  | be_count sig : evaluated d = true -> emitted d = false -> d_signal d = SignalHold ->
      crossed c bar i i' = Some sig ->
      (sig = SignalBuy /\ wrap64 (barsAboveTrigger (arm i) + 1) < ConfirmationBars c /\
         barsAboveTrigger (arm i') = wrap64 (barsAboveTrigger (arm i) + 1) /\
         barsBelowTrigger (arm i') = barsBelowTrigger (arm i) \/
       sig = SignalSell /\ wrap64 (barsBelowTrigger (arm i) + 1) < ConfirmationBars c /\
         barsAboveTrigger (arm i') = barsAboveTrigger (arm i) /\
         barsBelowTrigger (arm i') = wrap64 (barsBelowTrigger (arm i) + 1)) ->
      bar_effect c obv bar i i' d
  | be_emit sig : evaluated d = true -> emitted d = true ->
      d_signal d = (if volume_confirms c obv sig then sig else SignalHold) ->
      crossed c bar i i' = Some sig ->
      (sig = SignalBuy /\ ConfirmationBars c <= wrap64 (barsAboveTrigger (arm i) + 1) \/
       sig = SignalSell /\ ConfirmationBars c <= wrap64 (barsBelowTrigger (arm i) + 1)) ->
      barsAboveTrigger (arm i') = 0 -> barsBelowTrigger (arm i') = 0 ->
      bar_effect c obv bar i i' d.

Lemma filter_reason c obv d :
  d_reason (applyVolumeFilter c obv d) = d_reason d /\
  (d_signal (applyVolumeFilter c obv d) = d_signal d \/ d_signal (applyVolumeFilter c obv d) = SignalHold).
Proof. unfold applyVolumeFilter. split_match; simpl; auto. Qed.

Lemma filter_signal c obv d : d_signal d <> SignalHold ->
  d_signal (applyVolumeFilter c obv d) = if volume_confirms c obv (d_signal d) then d_signal d else SignalHold.
Proof.
  unfold applyVolumeFilter, volume_confirms. destruct (OBVWindow c =? 0); simpl; [done |].
  destruct (d_signal d) eqn:E; intros Hs; try done; destruct (d_le _ _); simpl; congruence || done.
Qed.

Lemma rearm_counters c ratio a : barsAboveTrigger (rearm c ratio a) = barsAboveTrigger a /\
  barsBelowTrigger (rearm c ratio a) = barsBelowTrigger a.
Proof. unfold rearm. by destruct (d_lt _ _). Qed.

(** [ingestObservation] keeps the flag and moves the last price; the stats
    that follow do not touch the state. *)
Lemma Update_effect c obv a bar i d i' : Update c obv a bar i = (Ok d, i') -> bar_effect c obv bar i i' d.
Proof.
  unfold Update. intros H. apply SE_bind_Ok in H as (pc & i0 & Hg & H). injection Hg as <- <-.
  apply SE_bind_Ok in H as (u & i1 & Hi & H). apply ingest_frame in Hi as [Ha _].
  apply SE_bind_Ok in H as (i1' & i2 & Hg & H). injection Hg as <- <-.
  change (id i1) with i1 in H.
  destruct (negb (Ready (longVolWin i1))).
  { injection H as <- <-. apply be_hold; simpl; by rewrite ?Ha. }
  apply SE_bind_Ok in H as ([[sv lv] atr] & i3 & Hr & H). injection Hr as Hr <-.
  destruct (d_lt lv (MinLongVolFloor c)).
  { injection H as <- <-. apply be_hold; simpl; by rewrite ?Ha. }
  apply SE_bind_Ok in H as (ratio & i4 & Hc & H). injection Hc as Hc <-.
  apply SE_bind_Ok in H as (u' & i5 & Hm & H). injection Hm as _ <-.
  rewrite Ha in H. pose proof (rearm_counters c ratio (arm i)) as [R1 R2].
  destruct (negb (compressionArmed (rearm c ratio (arm i)))) eqn:Harm.
  { injection H as <- <-. by apply be_hold. }
  apply negb_false_iff in Harm.
  assert (atr = Mean (atrWin i1)) as ->.
  { unfold rollingStats in Hr. inv_ok. done. }
  destruct (evaluateBreakout _ _ _ _ _ _) as [d1 a1] eqn:He.
  apply SE_bind_Ok in H as (u'' & i6 & Hm & H). injection Hm as _ <-. injection H as <- <-.
  unfold evaluateBreakout in He.
  set (d0 := set_ratio _ _ _) in He.
  assert (evaluated d0 = true /\ emitted d0 = false /\ d_signal d0 = SignalHold) as (E1 & E2 & E3) by done.
  clearbody d0. revert E1 E2 E3 Harm He R1 R2. generalize (rearm c ratio (arm i)) as a0. intros a0 E1 E2 E3 Harm He R1 R2.
  assert (forall dd, evaluated (applyVolumeFilter c obv dd) = evaluated dd /\
    emitted (applyVolumeFilter c obv dd) = emitted dd) as Hf.
  { intros dd. unfold evaluated, emitted. by rewrite (proj1 (filter_reason c obv dd)). }
  assert (forall dd, d_signal dd = SignalHold -> d_signal (applyVolumeFilter c obv dd) = SignalHold) as Hf2.
  { intros dd Hd. destruct (filter_reason c obv dd) as [_ [->| ->]]; done. }
  destruct a0 as [ar rat ab be]; simpl in *; subst ar.
  destruct (dmul _ _) as [k|] eqn:K0; [destruct (dadd _ _) as [hi|] eqn:K1; [destruct (dsub _ _) as [lo|] eqn:K2 |] |].
  2-4: injection He as <- <-; apply be_inside;
    rewrite ?(proj1 (Hf _)), ?(proj2 (Hf _)), ?Hf2; try done;
    unfold crossed; simpl; rewrite ?K0, ?K1, ?K2; done.
  destruct (d_gt (bar_Close bar) hi) eqn:G1.
  - destruct (ConfirmationBars c <=? _) eqn:Hn; injection He as <- <-; bool_prop; rewrite R1 in Hn.
    + eapply be_emit with (sig := SignalBuy); rewrite ?(proj1 (Hf _)), ?(proj2 (Hf _)); try done.
      * by rewrite filter_signal.
      * unfold crossed; simpl. by rewrite K0, K1, K2, G1.
      * left. auto.
    + eapply be_count with (sig := SignalBuy); rewrite ?(proj1 (Hf _)), ?(proj2 (Hf _)); try done.
      * by apply Hf2.
      * unfold crossed; simpl. by rewrite K0, K1, K2, G1.
      * left. simpl. split_and!; congruence || done.
  - destruct (d_lt (bar_Close bar) lo) eqn:G2.
    + destruct (ConfirmationBars c <=? _) eqn:Hn; injection He as <- <-; bool_prop; rewrite R2 in Hn.
      * eapply be_emit with (sig := SignalSell); rewrite ?(proj1 (Hf _)), ?(proj2 (Hf _)); try done.
        -- by rewrite filter_signal.
        -- unfold crossed; simpl. by rewrite K0, K1, K2, G1, G2.
        -- right. auto.
      * eapply be_count with (sig := SignalSell); rewrite ?(proj1 (Hf _)), ?(proj2 (Hf _)); try done.
        -- by apply Hf2.
        -- unfold crossed; simpl. by rewrite K0, K1, K2, G1, G2.
        -- right. simpl. split_and!; congruence || done.
    + injection He as <- <-. apply be_inside; rewrite ?(proj1 (Hf _)), ?(proj2 (Hf _)); try done.
      * by apply Hf2.
      * unfold crossed; simpl. by rewrite K0, K1, K2, G1, G2.
Qed.

(** The flag is up only if it was, or if this bar put it up; an emission takes
    it down. *)
Lemma Update_armed c obv a bar i d i' : Update c obv a bar i = (Ok d, i') ->
  (compressionArmed (arm i') || emitted d = true -> compressionArmed (arm i) || compressed_at c d = true) /\
  (emitted d = true -> compressionArmed (arm i') = false).
Proof.
  unfold Update. intros H. apply SE_bind_Ok in H as (pc & i0 & Hg & H). injection Hg as <- <-.
  apply SE_bind_Ok in H as (u & i1 & Hi & H). apply ingest_frame in Hi as [Ha _].
  apply SE_bind_Ok in H as (i1' & i2 & Hg & H). injection Hg as <- <-. change (id i1) with i1 in H.
  assert (forall r b, emitted (hold r b) = bool_decide (r = DecisionReasonCompressionEntry)) as Hh by done.
  destruct (negb (Ready (longVolWin i1))).
  { injection H as <- <-. rewrite Hh, Ha. simpl. split; [destruct (compressionArmed (arm i)); done | done]. }
  apply SE_bind_Ok in H as ([[sv lv] atr] & i3 & Hr & H). injection Hr as Hr <-.
  destruct (d_lt lv (MinLongVolFloor c)).
  { injection H as <- <-. rewrite Hh, Ha. simpl. split; [destruct (compressionArmed (arm i)); done | done]. }
  apply SE_bind_Ok in H as (ratio & i4 & Hc & H). injection Hc as Hc <-.
  apply SE_bind_Ok in H as (u' & i5 & Hm & H). injection Hm as _ <-. rewrite Ha in H.
  destruct (negb (compressionArmed (rearm c ratio (arm i)))) eqn:Harm.
  { injection H as <- <-. rewrite Hh. apply negb_true_iff in Harm. simpl. rewrite Harm. done. }
  destruct (evaluateBreakout _ _ _ _ _ _) as [d1 a1] eqn:He.
  apply SE_bind_Ok in H as (u'' & i6 & Hm & H). injection Hm as _ <-. injection H as <- <-.
  set (d0 := set_ratio _ _ _) in He. assert (evaluated d0 = true /\ emitted d0 = false) as [V0 E0] by done.
  assert (d_CompressionRatio d0 = ratio) as R0 by done. clearbody d0.
  assert (evaluated d1 = true /\ d_CompressionRatio d1 = ratio /\ (emitted d1 = true -> compressionArmed a1 = false)) as (V1 & R1 & T1).
  { unfold evaluateBreakout in He. repeat case_match; injection He as <- <-; split_and!; first [exact V0 | exact R0 | done | intros Ht; change (emitted d0 = true) in Ht; congruence]. }
  assert (forall dd, evaluated (applyVolumeFilter c obv dd) = evaluated dd /\
    emitted (applyVolumeFilter c obv dd) = emitted dd /\
    d_CompressionRatio (applyVolumeFilter c obv dd) = d_CompressionRatio dd) as Hf.
  { intros dd. unfold evaluated, emitted. rewrite (proj1 (filter_reason c obv dd)).
    unfold applyVolumeFilter. split_and!; [done.. |]. by repeat case_match. }
  destruct (Hf d1) as (F1 & F2 & F3). split; [| by rewrite F2].
  intros _. unfold compressed_at. rewrite F1, F3, V1, R1. simpl. unfold rearm in Harm.
  destruct (d_lt ratio (CompressionThreshold c)); [by rewrite orb_true_r |].
  apply negb_false_iff in Harm. by rewrite Harm.
Qed.

(** A failing bar leaves the flag and the counters alone. *)
Lemma Update_fail c obv a bar i e i' : Update c obv a bar i = (Err e, i') -> arm i' = arm i.
Proof.
  unfold Update. run_SE. destruct (ingestObservation bar (lastPrice i) i) as [[u|] i1] eqn:Hi;
    apply ingest_frame in Hi as [Ha _]; [| by intros [= _ <-]].
  destruct (negb _); [done |]. destruct (rollingStats _) as [[[sv lv] atr]|]; [| by intros [= _ <-]].
  destruct (d_lt lv _); [done |]. destruct (compressionRatio _ _) as [ratio|]; [| by intros [= _ <-]].
  destruct (negb _); [done |]. by destruct (evaluateBreakout _ _ _ _ _ _).
Qed.

Lemma arm_inv_new c : arm_inv c [] (new_Ind c).
Proof. split; simpl; lia. Qed.

Lemma arm_inv_bar c h i obv a bar d i' : in_int64 (ConfirmationBars c) ->
  Update c obv a bar i = (Ok d, i') -> arm_inv c h i -> arm_inv c (h ++ [(d, crossed c bar i i')]) i'.
Proof.
  intros H64 H [A0 A1 A2 A3 A4]. apply Update_armed in H as Harm. apply Update_effect in H. unfold in_int64, int64_min, int64_max in H64.
  assert (forall n, 0 <= n < Z.max 1 (ConfirmationBars c) -> wrap64 (n + 1) = n + 1) as Hw.
  { intros n Hn. apply wrap64_small. unfold in_int64, int64_min, int64_max. lia. }
  assert (compressionArmed (arm i') = true -> compressed c (reverse (h ++ [(d, crossed c bar i i')])) = true) as Hc.
  { intros Hup. rewrite reverse_app. simpl. destruct Harm as [Har1 Har2]. destruct (emitted d); [by rewrite Har2 in Hup |].
    rewrite Hup in Har1. destruct (compressionArmed (arm i)); [by rewrite A0, orb_true_r |]. simpl in *. by rewrite Har1. }
  destruct H as [E1 E2 _ B1 B2|E1 E2 _ X B1 B2|sig E1 E2 _ X B|sig E1 E2 _ X B Z1 Z2]; (split; [exact Hc | ..]); clear Hc;
    rewrite ?crossings_snoc, ?E2, ?E1; simpl; try lia.
  1-2: rewrite X; simpl; lia.
  all: rewrite ?X; destruct B as [(-> & Hn & B1 & B2)|(-> & Hn & B1 & B2)]; rewrite Hw in * by lia; simpl; lia.
Qed.

Lemma feed_arm_inv c h i : in_int64 (ConfirmationBars c) -> feed c h i -> arm_inv c h i.
Proof.
  intros H64. induction 1 as [|h i obv a bar d i' _ IH Hu|h i obv a bar e i' _ [A0 A1 A2 A3 A4] Hu];
    [apply arm_inv_new | by eapply arm_inv_bar |].
  apply Update_fail in Hu. split; by rewrite Hu.
Qed.

(** C13: a breakout signal is confirmed, and a confirmed one is emitted.  For
    any run of a fresh strategy over bars (a bar whose [Update] fails gives no
    decision and is not counted): when [Update] emits an entry, this bar closed
    beyond the trigger on its side, at least [ConfirmationBars] bars did so
    since the last entry, this one included, and since then the market was
    compressed; the signal is that side, or a hold if the volume filter is on
    and not cleared.  When this bar and the [ConfirmationBars - 1] decisions
    just before it all closed beyond the trigger on one side, without an entry,
    the entry is emitted now.  A bar without an entry is a hold.  (The code
    counts confirming bars without asking that they follow each other.) *)
Theorem breakout_signal_confirmed c h i obv a bar d i' :
  in_int64 (ConfirmationBars c) -> feed c h i -> Update c obv a bar i = (Ok d, i') ->
  (emitted d = true -> exists sig,
     crossed c bar i i' = Some sig /\ d_signal d = (if volume_confirms c obv sig then sig else SignalHold) /\
     Z.max 1 (ConfirmationBars c) <= crossings sig (reverse h) + 1 /\
     compressed_at c d || compressed c (reverse h) = true) /\
  (forall sig, evaluated d = true -> crossed c bar i i' = Some sig ->
     ConfirmationBars c <= streak sig (reverse h) + 1 -> emitted d = true) /\
  (emitted d = false -> d_signal d = SignalHold).
Proof.
  intros H64 Hf Hu. apply feed_arm_inv in Hf as [A0 A1 A2 A3 A4]; [| done].
  apply Update_armed in Hu as Harms. destruct Harms as [Harm _]. apply Update_effect in Hu.
  unfold in_int64, int64_min, int64_max in H64.
  assert (forall n, 0 <= n < Z.max 1 (ConfirmationBars c) -> wrap64 (n + 1) = n + 1) as Hw.
  { intros n Hn. apply wrap64_small. unfold in_int64, int64_min, int64_max. lia. }
  pose proof (streak_crossings SignalBuy (reverse h)) as S1. pose proof (streak_crossings SignalSell (reverse h)) as S2.
  destruct Hu as [E1 E2 E3 _ _|E1 E2 E3 X _ _|sig E1 E2 E3 X B|sig E1 E2 E3 X B _ _];
    split_and!; try congruence.
  - intros sg _ Hs Hn. exfalso. assert (sg = sig) as -> by congruence.
    destruct B as [(-> & Hb & _)|(-> & Hb & _)]; rewrite Hw in Hb by lia; lia.
  - intros _. exists sig. split_and!; [done | done | |].
    + destruct B as [(-> & Hn)|(-> & Hn)]; rewrite Hw in Hn by lia; lia.
    + rewrite E2, orb_true_r in Harm. specialize (Harm eq_refl).
      destruct (compressionArmed (arm i)); [by rewrite A0, orb_true_r | by simpl in Harm; rewrite Harm].
Qed.
End SignalTheory.

(** ** Theory: the live strategy *)

Section LiveTheory.
Context {D : DecimalOps} {W : Type} (E : Env W).
Implicit Types (s : Strategy (W := W)) (p : Pos) (o : OrderRequest) (d : Decision).

Definition orders s : list OrderRequest := orders_sent (sy_calls (s_sys s)).

(** What reading the environment and keeping logs leaves alone. *)
Record frame s s' : Prop := {
  fr_cfg : s_cfg s' = s_cfg s;
  fr_pos : s_pos s' = s_pos s;
  fr_paused : paused (s_live s') = paused (s_live s);
  fr_orders : orders s' = orders s;
}.

#[export] Instance bo_frame_preorder : PreOrder frame.
Proof. split; [done |]. intros s1 s2 s3 [? ? ? ?] [? ? ? ?]. split; congruence. Qed.

Lemma frame_call {A} (m : ST (Sys W) A) s :
  orders_sent (sy_calls (m (s_sys s)).2) = orders_sent (sy_calls (s_sys s)) -> frame s (call m s).2.
Proof. unfold call. intros H. destruct (m (s_sys s)) as [a y]. by split. Qed.

Lemma bo_frame_quiet {A} (op : W -> A * W) s : frame s (call (quiet op) s).2.
Proof. apply frame_call. by rewrite quiet_calls. Qed.

Lemma bo_frame_client_id n r s : frame s (call (BuildClientOrderID E n r) s).2.
Proof. apply frame_call. by rewrite BuildClientOrderID_calls. Qed.

Lemma bo_frame_position a s : frame s (positionOrFetch E a s).2.
Proof.
  unfold positionOrFetch, currentPosition. destruct (balancesInitialized _); [done |].
  pose proof (bo_frame_quiet (AssetPosition E a) s) as F. by destruct (call _ s).
Qed.

Lemma bo_frame_recordDecision mk s : frame s (recordDecision E mk s).
Proof.
  unfold recordDecision. destruct (Records E) as [save|]; [| done]. simpl.
  unfold call, time_now, quiet, invoke. simpl.
  destruct (Now E _) as [t w]. simpl. destruct (save _ w) as [r w']. simpl.
  split; try done. unfold orders; simpl. by rewrite app_nil_r, orders_sent_app, app_nil_r.
Qed.

Lemma create_orders o s : orders (call (create_market_order E o) s).2 = orders s ++ [o].
Proof.
  unfold orders, call. pose proof (create_calls E o (s_sys s)) as H.
  destruct (create_market_order E o (s_sys s)) as [r y]. simpl in *. by rewrite H, orders_sent_app.
Qed.

Lemma create_frame o s (s' := (call (create_market_order E o) s).2) :
  s_cfg s' = s_cfg s /\ s_pos s' = s_pos s /\ paused (s_live s') = paused (s_live s).
Proof. unfold s', call. by destruct (create_market_order E o (s_sys s)). Qed.

(** Balances are never marked as tracked. *)
Definition untracked s : Prop := balancesInitialized (s_pos s) = false.

(** An order that closes a position open with [sig]. *)
Definition closing_side (sig : Signal) o : Prop :=
  match sig with
  | SignalBuy => or_Side o = SIDE_SELL | SignalSell => or_Side o = SIDE_BUY | SignalHold => False
  end.

(** Outcome of [closePosition] on an untracked position. *)
Lemma close_outcome a reason s r s' : untracked s -> closePosition E a reason s = (r, s') ->
  untracked s' /\ s_cfg s' = s_cfg s /\ paused (s_live s') = paused (s_live s) /\
  (orders s' = orders s \/ exists o, orders s' = orders s ++ [o] /\ closing_side (openSignal (s_pos s)) o) /\
  (s_pos s' = s_pos s /\ (is_ok r = true -> openSignal (s_pos s) = SignalHold) \/ openSignal (s_pos s') = SignalHold).
Proof.
  unfold untracked, closePosition. intros Hu H. rewrite Hu in H. case_bool_decide as Hh.
  { injection H as <- <-. split_and!; auto. }
  unfold currentPosition in H. pose proof (bo_frame_quiet (AssetPosition E a) s) as F.
  destruct (call _ s) as [q s1]. simpl in F. destruct F as [F1 F2 F3 F4].
  destruct (result_map fst q) as [qty|e]; [| injection H as <- <-; rewrite F2; split_and!; by auto || by left].
  destruct (negb false && d_is_zero qty).
  { injection H as <- <-. simpl. rewrite F2. split_and!; auto. }
  pose proof (bo_frame_client_id StrategyType (runID (s_live s1)) s1) as G.
  destruct (call _ s1) as [cid s2]. simpl in G. destruct G as [G1 G2 G3 G4].
  match type of H with context [create_market_order E ?o] =>
    pose proof (create_frame o s2) as (C1 & C2 & C3); pose proof (create_orders o s2) as C4;
    assert (closing_side (openSignal (s_pos s)) o) as Ho by (destruct (openSignal (s_pos s)); done);
    set (ord := o) in * end.
  destruct (call (create_market_order E ord) s2) as [res s3]. simpl in C1, C2, C3, C4.
  assert (orders s3 = orders s ++ [ord]) as Hos by congruence.
  destruct res as [oid|e].
  - injection H as <- <-.
    match goal with |- context [recordDecision E ?mk s3] =>
      pose proof (bo_frame_recordDecision mk s3) as [R1 R2 R3 R4] end.
    simpl. split_and!; [congruence.. | | by right]. right. exists ord. split; [| done]. rewrite <- Hos. exact R4.
  - injection H as <- <-. rewrite C2, G2, F2. split_and!; try congruence; [right; by exists ord | by left].
Qed.

(** Outcome of [executeDecision]. *)
Lemma execute_outcome d a s r s' : untracked s -> executeDecision E d a s = (r, s') ->
  untracked s' /\ s_cfg s' = s_cfg s /\ paused (s_live s') = paused (s_live s) /\
  (orders s' = orders s /\ s_pos s' = s_pos s \/
   exists o pos, orders s' = orders s ++ [o] /\
     d_signal d <> SignalHold /\ or_Side o = (if bool_decide (d_signal d = SignalSell) then SIDE_SELL else SIDE_BUY) /\
     ((positionOrFetch E a s).1 = (pos, false)) /\
     cappedOrderQuantity (d_positionSize d) pos (d_price d) = Ok (Some (or_Quantity o))).
Proof.
  unfold untracked, executeDecision. intros Hu H. destruct (d_signal d) eqn:Hs.
  { injection H as <- <-. split_and!; auto. }
  all: destruct (d_is_zero (d_price d)); [injection H as <- <-; split_and!; by auto |].
  all: pose proof (bo_frame_position a s) as F; unfold positionOrFetch in *; rewrite Hu in *;
    destruct (currentPosition E a s) as [pos s1]; simpl in F; destruct F as [F1 F2 F3 F4].
  all: destruct (cappedOrderQuantity _ _ _) as [[quantity|]|e] eqn:Hq;
    [| injection H as <- <-; rewrite ?F2; split_and!; by auto..].
  all: destruct (d_is_zero quantity); [injection H as <- <-; rewrite ?F2; split_and!; by auto |].
  all: destruct (dquo done1 _) as [inv|]; [| injection H as <- <-; rewrite ?F2; split_and!; by auto].
  all: pose proof (bo_frame_client_id StrategyType (runID (s_live s1)) s1) as G;
    destruct (call _ s1) as [cid s2]; simpl in G; destruct G as [G1 G2 G3 G4].
  all: match type of H with context [create_market_order E ?o] =>
    pose proof (create_frame o s2) as (C1 & C2 & C3); pose proof (create_orders o s2) as C4; set (ord := o) in * end.
  all: destruct (call (create_market_order E ord) s2) as [res s3]; simpl in C1, C2, C3, C4.
  all: assert (orders s3 = orders s ++ [ord]) as Hos by congruence.
  all: assert (exists o pos0, orders s3 = orders s ++ [o] /\ d_signal d <> SignalHold /\
      or_Side o = (if bool_decide (d_signal d = SignalSell) then SIDE_SELL else SIDE_BUY) /\
      (or_zero dzero pos, false) = (pos0, false) /\
      cappedOrderQuantity (d_positionSize d) pos0 (d_price d) = Ok (Some (or_Quantity o))) as Hex by
    (exists ord, (or_zero dzero pos); split_and!; [done | by rewrite Hs | by rewrite Hs | done | done]).
  all: rewrite Hs in Hex; destruct res as [oid|e]; injection H as <- <-;
    [| split_and!; [congruence.. | right; exact Hex]].
  all: match goal with |- context [recordDecision E ?mk ?y] =>
      pose proof (bo_frame_recordDecision mk y) as [R1 R2 R3 R4] end.
  all: simpl; split_and!; [congruence.. | right].
  all: destruct Hex as (o & pos0 & X & Y); exists o, pos0; split; [rewrite <- X; exact R4 | exact Y].
Qed.

(** What one event may send when [openSignal] was [sig]. *)
Definition allowed (sig : Signal) (is_bar : bool) (os : list OrderRequest) : Prop :=
  match sig with
  | SignalHold => os = [] \/ is_bar = true /\ exists o, os = [o]
  | _ => Forall (closing_side sig) os
  end.

Definition step_ok (is_bar : bool) s s' : Prop :=
  untracked s' /\ s_cfg s' = s_cfg s /\ paused (s_live s') = paused (s_live s) /\
  exists os, orders s' = orders s ++ os /\ allowed (openSignal (s_pos s)) is_bar os /\
    (paused (s_live s) = true -> os = []).

Lemma bo_step_ok_quiet b s s' : untracked s -> s_pos s' = s_pos s -> s_cfg s' = s_cfg s ->
  paused (s_live s') = paused (s_live s) -> orders s' = orders s -> step_ok b s s'.
Proof.
  unfold step_ok, untracked. intros Hu -> -> -> ->. split_and!; try done. exists []. rewrite app_nil_r.
  split_and!; [done | | done]. destruct (openSignal _); simpl; auto.
Qed.

Lemma note_result_frame {A} (r : result A) s : frame s (note_result r s).
Proof. by destruct r. Qed.

Lemma bo_step_ok_close b a reason s : untracked s -> paused (s_live s) = false ->
  step_ok b s (let '(r, s1) := closePosition E a reason s in note_result r s1).
Proof.
  intros Hu Hp. destruct (closePosition E a reason s) as [r s1] eqn:Hc.
  apply close_outcome in Hc as (U & C1 & C2 & Ho & _); [| done].
  destruct (note_result_frame r s1) as [F1 F2 F3 F4].
  split; [unfold untracked; by rewrite F2 |]. split_and!; [congruence.. |].
  destruct Ho as [Ho|(o & Ho & Hcl)].
  - exists []. rewrite app_nil_r. split_and!; [congruence | | done]. destruct (openSignal _); simpl; auto.
  - exists [o]. split_and!; [congruence | | congruence].
    destruct (openSignal _); simpl in *; [done | by repeat constructor..].
Qed.

Lemma bo_on_bar_ok a bar s : untracked s -> step_ok true s (on_bar E a bar s).
Proof.
  intros Hu. unfold on_bar. destruct (Update _ _ _ _ _) as [[d|e] ind]; [| by apply bo_step_ok_quiet].
  destruct (paused (s_live s)) eqn:Hp; [by apply bo_step_ok_quiet |].
  case_bool_decide as Hh; simpl.
  - case_bool_decide as Hd; simpl; [by apply bo_step_ok_quiet |].
    destruct (executeDecision E d a (with_ind ind s)) as [r s1] eqn:He.
    apply execute_outcome in He as (U & C1 & C2 & Ho); [| done].
    destruct (note_result_frame r s1) as [F1 F2 F3 F4].
    split; [unfold untracked; by rewrite F2 |]. split_and!; [by rewrite F1 | by rewrite F3 |].
    rewrite Hh. simpl. destruct Ho as [[Ho _]|(o & pos & Ho & _)].
    + exists []. rewrite app_nil_r, F4. auto.
    + exists [o]. rewrite F4. split_and!; [done | right; eauto | congruence].
  - destruct (isReversal _ _); [| by apply bo_step_ok_quiet].
    exact (bo_step_ok_close true a DecisionReasonReversal (with_ind ind s) Hu Hp).
Qed.

Lemma bo_on_price_ok a px s : untracked s -> step_ok false s (on_price E a s px) /\
  (s_pos (on_price E a s px) = s_pos s \/ openSignal (s_pos (on_price E a s px)) = SignalHold).
Proof.
  intros Hu. unfold on_price. destruct (negb _); [split; [by apply bo_step_ok_quiet | by left] |].
  destruct (paused (s_live s)) eqn:Hp; simpl; [split; [by apply bo_step_ok_quiet | by left] |].
  case_bool_decide; [split; [by apply bo_step_ok_quiet | by left] |].
  destruct (liveCheckSLTP _ _ _ _ _); [| split; [by apply bo_step_ok_quiet | by left]].
  split; [by apply bo_step_ok_close |]. destruct (closePosition _ _ _ _) as [r s1] eqn:Hc.
  apply close_outcome in Hc as (_ & _ & _ & _ & Hp'); [| done].
  destruct (note_result_frame r s1) as [_ F2 _ _]. rewrite F2. destruct Hp' as [[-> _]| ->]; auto.
Qed.

(** A whole tick batch closes the position it found, or nothing. *)
Lemma bo_on_prices_ok a pxs sig0 b0 s : untracked s -> paused (s_live s) = b0 ->
  (openSignal (s_pos s) = sig0 \/ openSignal (s_pos s) = SignalHold) ->
  let s' := foldl (on_price E a) s pxs in
  untracked s' /\ s_cfg s' = s_cfg s /\ paused (s_live s') = b0 /\
  exists os, orders s' = orders s ++ os /\ Forall (closing_side sig0) os /\ (b0 = true -> os = []).
Proof.
  revert s. induction pxs as [|px pxs IH]; intros s Hu Hb Hs; simpl.
  { split_and!; try done. exists []. by rewrite app_nil_r. }
  destruct (bo_on_price_ok a px s Hu) as [(U & C1 & C2 & os & Ho & Ha & Hz) Hp].
  destruct (IH (on_price E a s px)) as (U' & C1' & C2' & os' & Ho' & Ha' & Hz'); [done | congruence | |].
  { destruct Hp as [->|Hp]; [done | by right]. }
  split_and!; [done | congruence | done |]. exists (os ++ os'). rewrite Ho', Ho, app_assoc. split_and!; [done | |].
  - apply Forall_app. split; [| done]. destruct Hs as [Hs|Hs]; rewrite Hs in Ha.
    + destruct sig0; [by destruct Ha as [->|[[=] _]] | done..].
    + by destruct Ha as [->|[[=] _]].
  - intros H. rewrite Hz, Hz' by congruence. done.
Qed.

Definition is_bar (ev : Event) : bool := match ev with EvBar _ => true | _ => false end.

(** One iteration of the live loop: when flat, at most one order is sent,
    and only on a bar; when a position is open, everything sent is on the
    opposite side of it; a paused strategy sends nothing; and the balances are
    never marked as tracked, whatever the event. *)
Theorem breakout_step_orders a ev s s' :
  untracked s -> loop_step E a ev s = Some s' ->
  untracked s' /\ s_cfg s' = s_cfg s /\
  exists os, orders s' = orders s ++ os /\ allowed (openSignal (s_pos s)) (is_bar ev) os /\
    (paused (s_live s) = true -> os = []).
Proof.
  intros Hu H. assert (step_ok (is_bar ev) s s' \/ (exists m, ev = EvMessage m)) as [Hk|[m ->]].
  { destruct ev as [|m|bar|pxs|te| |]; simpl in H; injection H as <- || discriminate;
      [by right; exists m | left.. ].
    - by apply bo_on_bar_ok.
    - destruct (bo_on_prices_ok a pxs (openSignal (s_pos s)) (paused (s_live s)) s)
        as (U & C1 & C2 & os & Ho & Ha & Hz); [done | done | by left |].
      split_and!; [done.. |]. exists os. split_and!; [done | | done].
      destruct (openSignal (s_pos s)); simpl; [left | done..].
      destruct Ha as [|o os Hx]; [done | destruct Hx].
    - by apply bo_step_ok_quiet.
    - by apply bo_step_ok_quiet.
    - by apply bo_step_ok_quiet. }
  - destruct Hk as (U & C1 & _ & os & Ho). eauto 10.
  - injection H as <-. split_and!; [done.. |]. exists []. rewrite app_nil_r.
    split_and!; [done | destruct (openSignal (s_pos s)); simpl; auto | done].
Qed.

Lemma bo_run_events_invariant (P : Strategy -> Prop) a evs s :
  (forall ev s1 s2, loop_step E a ev s1 = Some s2 -> P s1 -> P s2) -> P s -> P (run_events E a evs s).
Proof.
  intros HP. revert s. induction evs as [|ev evs IH]; intros s Hs; simpl; [done |].
  destruct (loop_step E a ev s) as [s'|] eqn:Hl; [| done]. by eapply IH, HP.
Qed.

(** *** An account without bonds *)

Context {L : DecimalLaws}.

(** The account holds no available bonds, as far as it can be asked. *)
Definition no_bonds : Prop := forall a w,
  match (AssetPosition E a w).1 with Ok (available, _) => (dval available == 0)%Q | Err _ => True end.

Lemma position_zero a s : no_bonds -> untracked s -> (dval (positionOrFetch E a s).1.1 == 0)%Q.
Proof.
  intros Hn Hu. unfold positionOrFetch, currentPosition, call, quiet, invoke. rewrite Hu.
  specialize (Hn a (sy_world (s_sys s))). destruct (AssetPosition E a _) as [[[av bo]|e] w]; simpl in *; [done |].
  apply dval_zero.
Qed.

Lemma capped_zero fraction position price : (dval position == 0)%Q -> d_is_zero price = false ->
  cappedOrderQuantity fraction position price = Ok None.
Proof.
  intros Hp Hz. apply d_is_zero_false in Hz. unfold cappedOrderQuantity.
  destruct (dmatch_zero _ _ (dmul_spec position fraction)) as (b & -> & Hb); [rewrite Hp; lra |]. simpl.
  destruct (dmatch_zero _ _ (dquo_spec b price Hz)) as (q & -> & Hq); [rewrite Hb; unfold Qdiv; lra |]. simpl.
  assert (d_is_zero (dfloor q) = true) as ->; [| done].
  apply d_is_zero_spec. rewrite dval_floor. by rewrite Hq.
Qed.

(** Flat and untracked, with nothing sent. *)
Definition idle (os : list OrderRequest) s : Prop :=
  untracked s /\ openSignal (s_pos s) = SignalHold /\ orders s = os.

Lemma idle_step os a ev s s' : no_bonds -> loop_step E a ev s = Some s' -> idle os s -> idle os s'.
Proof.
  intros Hn Hl (Hu & Hs & Ho). destruct ev as [|m|bar|pxs|te| |]; simpl in Hl; injection Hl as <- || discriminate;
    try (by split_and!).
  - unfold on_bar. destruct (Update _ _ _ _ _) as [[d|e] ind]; [| done].
    destruct (paused _); [done |]. rewrite Hs. simpl. case_bool_decide as Hd; simpl; [done |].
    destruct (executeDecision E d a (with_ind ind s)) as [r s1] eqn:He.
    assert (idle os s1) as Hi.
    { pose proof He as He2. apply execute_outcome in He as (U & _ & _ & [[Ho' Hp]|(o & pos & Ho' & _ & _ & Hpos & Hq)]); [| | done].
      - split_and!; [done | by rewrite Hp | by rewrite Ho'].
      - exfalso. pose proof (position_zero a (with_ind ind s) Hn Hu) as Hz. rewrite Hpos in Hz.
        destruct (d_is_zero (d_price d)) eqn:Hpr; [| by rewrite capped_zero in Hq].
        unfold executeDecision in He2. rewrite Hpr in He2. destruct (d_signal d); [done | |];
          injection He2 as _ <-; apply (f_equal length) in Ho'; rewrite length_app in Ho'; simpl in Ho'; lia. }
    destruct Hi as (I1 & I2 & I3). destruct (note_result_frame r s1) as [_ F2 _ F4].
    split_and!; [unfold untracked; by rewrite F2 | by rewrite F2 | by rewrite F4].
  - assert (foldl (on_price E a) s pxs = s) as ->; [| done].
    induction pxs as [|px pxs IH]; simpl; [done |].
    assert (on_price E a s px = s) as ->; [| exact IH].
    unfold on_price. destruct (negb _); [done |]. by rewrite Hs, bool_decide_eq_true_2, orb_true_r.
Qed.

Lemma idle_frame os s s' : frame s s' -> idle os s -> idle os s'.
Proof. intros [_ F _ G] (H1 & H2 & H3). split_and!; [unfold untracked; by rewrite F | by rewrite F | by rewrite G]. Qed.

Lemma frame_lookup s : frame s (call (LookupAssetID E (OrderBookID (s_cfg s))) s).2.
Proof.
  apply frame_call. unfold LookupAssetID. case_bool_decide; [done |].
  pose proof (quiet_calls (BaseAssetID E (OrderBookID (s_cfg s))) (s_sys s)) as Hq.
  destruct (quiet _ _) as [[x|e] y]; simpl in *; [case_bool_decide |]; simpl; by rewrite Hq.
Qed.

(** On an account that holds no available bonds a live run never sends an
    order, whatever the bars, ticks, trades and messages: the size of an entry
    is computed from the bond position instead of the capital, so it is zero,
    and nothing in the package ever marks the balances as tracked. *)
Theorem breakout_empty_account_never_trades C c y run evs :
  no_bonds -> orders (Run E C run evs (New c y)).2 = orders_sent (sy_calls y).
Proof.
  intros Hn. set (os := orders_sent (sy_calls y)). cut (idle os (Run E C run evs (New c y)).2); [by intros (_ & _ & ->) |].
  assert (idle os (New c y)) as H0 by (by split_and!).
  unfold Run. simpl. destruct (SubscribePrices C); [| done].
  set (s1 := set_run run true _). assert (idle os s1) as H1 by done. clearbody s1. clear H0.
  assert (idle os (runLoop E C evs s1).2) as H2.
  { unfold runLoop. pose proof (idle_frame os _ _ (frame_lookup s1) H1) as Ha.
    destruct (call _ s1) as [[asset|e] s2]; [| exact Ha]. simpl in Ha.
    destruct (SubscribeBars C) as [sub|]; [| exact Ha].
    assert (idle os (requireCandleCoverage C (set_asset asset s2)).2) as Hb.
    { unfold requireCandleCoverage. destruct (CandleRange C) as [range|]; [| exact Ha].
      pose proof (idle_frame os (set_asset asset s2) _
        (bo_frame_quiet (range (OrderBookID (s_cfg (set_asset asset s2)))) _) Ha) as Hc.
      destruct (call _ _) as [[[[t1|] [t2|]]|e] s3]; exact Hc. }
    destruct (requireCandleCoverage C _) as [[u|e] s3]; [| exact Hb]. destruct sub; [| exact Hb].
    apply bo_run_events_invariant; [| exact Hb]. intros ev x x' Hl Hi. by eapply idle_step. }
  destruct (runLoop E C evs s1) as [r s2]. exact H2.
Qed.

(** Closing looks at the available bonds only.  When the account is short,
    its available amount is zero and the debt is in the borrowed amount: the
    close sends no order, reports success and forgets the position. *)
Theorem breakout_short_abandoned a reason s r s' :
  no_bonds -> untracked s -> openSignal (s_pos s) = SignalSell ->
  is_ok (AssetPosition E a (sy_world (s_sys s))).1 = true ->
  closePosition E a reason s = (r, s') ->
  r = Ok tt /\ orders s' = orders s /\ openSignal (s_pos s') = SignalHold.
Proof.
  intros Hn Hu Hs Hok H. unfold closePosition in H. rewrite Hs, Hu in H. simpl in H.
  pose proof (bo_frame_quiet (AssetPosition E a) s) as [_ _ _ F4].
  unfold currentPosition in H. specialize (Hn a (sy_world (s_sys s))).
  unfold call, quiet, invoke in H, F4.
  destruct (AssetPosition E a (sy_world (s_sys s))) as [[[av bo]|e] w]; simpl in *; [| done].
  assert (d_is_zero av = true) as Hz by (by apply d_is_zero_spec). rewrite Hz in H.
  injection H as <- <-. split_and!; done.
Qed.
End LiveTheory.

(** ** Concrete runs and witnesses *)

(** An account of [n] bonds; an order changes it by its quantity. *)
Definition account_env : Env (D := RefDec) Z := {|
  BaseAssetID := fun _ n => (Ok "bond"%string, n);
  QuoteAssetID := fun _ n => (Ok "usd"%string, n);
  AssetPosition := fun _ n => (Ok (RD n 0, RD 0 0), n);
  GetPortfolioV2 := fun n => (Ok None, n);
  CreateMarketOrder := fun o n =>
    (Ok "order"%string, match or_Side o with SIDE_BUY => n + Qfloor (rval (or_Quantity o))
                        | SIDE_SELL => n - Qfloor (rval (or_Quantity o)) end);
  AssetCollateralWeight := fun _ n => (Ok (RD 1 0), n);
  GetOrderFilledStatus := fun _ n => (Ok ("FILLED"%string, RD 10 0), n);
  ListOrdersByClientOrderIDPrefix := fun _ n => (Ok [], n);
  Records := None; Store_SaveState := None; Store_LoadState := None;
  NewV7 := fun n => ("id"%string, n);
  uuid_Parse := fun u => Ok u;
  Now := fun n => (MkTime (1000 * Day) 0, n);
|}.

(** Always compressed, half an ATR of breakout, [n] confirming bars. *)
Definition quick_config (n : Z) : Config (D := RefDec) := {|
  ShortVolWindow := 2; LongVolWindow := 2; CompressionThreshold := RD 2 0; ATRWindow := 2;
  BreakoutATRMultiple := RD 5 1; ConfirmationBars := n; StopLossATR := RD 0 0; TakeProfitATR := RD 0 0;
  MinLongVolFloor := RD 0 0; OBVTrendThreshold := RD 0 0; OBVWindow := 0; Resolution := "5m"; OrderBookID := "book";
  InitialBalance := RD 1 0; Leverage := RD 1 0 |}.

Definition close_bar (p : Z) : Bar (D := RefDec) := {|
  bar_Time := zero_time; bar_Open := RD p 0; bar_High := RD p 0; bar_Low := RD p 0; bar_Close := RD p 0;
  bar_Volume := RD 1 0; bar_OpenYTM := RD 0 0; bar_HighYTM := RD 0 0; bar_LowYTM := RD 0 0;
  bar_CloseYTM := RD 0 0; bar_BenchmarkYield := RD 0 0 |}.

Definition wired : Wiring (W := Z) := {|
  CandleRange := None; SubscribePrices := Ok tt; SubscribeBars := Some (Ok tt) |}.

Definition side_and_quantity (o : OrderRequest (D := RefDec)) : string * Z :=
  (Side_string (or_Side o), Qfloor (rval (or_Quantity o))).

(** Closing a short entry buys back the whole account instead of what was
    sold: an account of 1000 bonds sells ten on a breakdown, and the reversal
    buys 990, so it ends with 1980 bonds. *)
Theorem breakout_close_buys_whole_account :
  let run := (Run account_env wired "run" (EvBar ∘ close_bar <$> [100; 100; 99; 102])
                (New (quick_config 1) (MkSys 1000 []))).2 in
  side_and_quantity <$> orders run = [("SELL"%string, 10); ("BUY"%string, 990)] /\ sy_world (s_sys run) = 1980.
Proof. split; vm_compute; reflexivity. Qed.

Fixpoint signals (c : Config (D := RefDec)) (i : Ind) (closes : list Z) : list Signal :=
  match closes with
  | [] => []
  | p :: rest => let '(r, i') := Update c dzero "bond" (close_bar p) i in
                 match r with Ok d => d_signal d | Err _ => SignalHold end :: signals c i' rest
  end.

(** The confirming bars are documented as consecutive, but nothing resets
    the counter: with two confirming bars a rise, a fall back and one more rise
    emit a buy. *)
Theorem breakout_confirmation_not_consecutive :
  signals (quick_config 2) (new_Ind (quick_config 2)) [100; 100; 103; 103; 100; 103] =
    [SignalHold; SignalHold; SignalHold; SignalHold; SignalHold; SignalBuy].
Proof. vm_compute. reflexivity. Qed.

Definition demo_upd (p : Z) (i : Ind (D := RefDec)) := Update (quick_config 1) dzero "bond" (close_bar p) i.
Definition no_decision : Decision (D := RefDec) := base_decision "" (close_bar 0) zero_Arm.

Lemma demo_feed p h i : feed (quick_config 1) h i -> is_ok (demo_upd p i).1 = true ->
  feed (quick_config 1) (h ++ [(get_ok no_decision (demo_upd p i).1, crossed (quick_config 1) (close_bar p) i (demo_upd p i).2)])
    (demo_upd p i).2.
Proof.
  intros Hf Hok. eapply feed_bar with (obv := dzero) (a := "bond"%string); [exact Hf |].
  fold (demo_upd p i). by rewrite <- (is_ok_get _ _ Hok), <- surjective_pairing.
Qed.

Definition demo_warm : Ind := (demo_upd 100 (demo_upd 100 (new_Ind (quick_config 1))).2).2.

Lemma breakout_signal_confirmed_witness :
  exists h, feed (quick_config 1) h demo_warm /\
    exists sig, crossed (quick_config 1) (close_bar 103) demo_warm (demo_upd 103 demo_warm).2 = Some sig /\
      1 <= crossings sig (reverse h) + 1 /\ compressed_at (quick_config 1) (get_ok no_decision (demo_upd 103 demo_warm).1)
        || compressed (quick_config 1) (reverse h) = true.
Proof.
  pose proof (demo_feed 100 _ _ (demo_feed 100 _ _ (feed_new (quick_config 1)) eq_refl) eq_refl) as Hf.
  eexists. split; [exact Hf |].
  assert (demo_upd 103 demo_warm = (Ok (get_ok no_decision (demo_upd 103 demo_warm).1), (demo_upd 103 demo_warm).2)) as Hu.
  { rewrite <- is_ok_get by (vm_compute; reflexivity). apply surjective_pairing. }
  destruct (breakout_signal_confirmed (quick_config 1) _ demo_warm dzero "bond" (close_bar 103) _ _
    ltac:(unfold in_int64, int64_min, int64_max; simpl; lia) Hf Hu) as [H _].
  destruct H as (sig & H1 & _ & H2 & H3); [vm_compute; reflexivity |].
  exists sig. split_and!; [exact H1 | exact H2 | exact H3].
Defined.

(** A short of ten on an account of 990. *)
Definition short_ten (n : Z) : Strategy (D := RefDec) (W := Z) :=
  upd_pos (fun _ => MkPos SignalSell false (RD 0 0) (RD 99 0) (RD 1 0)) (New (quick_config 1) (MkSys n [])).

Lemma breakout_step_orders_witness :
  exists os, orders (on_bar account_env "bond" (close_bar 100) (short_ten 990)) = orders (short_ten 990) ++ os /\
    Forall (closing_side SignalSell) os.
Proof.
  destruct (breakout_step_orders account_env "bond" (EvBar (close_bar 100)) (short_ten 990)
    (on_bar account_env "bond" (close_bar 100) (short_ten 990))) as (_ & _ & os & Ho & Ha & _);
    [reflexivity | reflexivity |].
  exists os. split; [exact Ho | exact Ha].
Defined.

Lemma empty_account : no_bonds demo_env.
Proof. intros a w. reflexivity. Qed.

Definition wired_nat : Wiring (W := nat) := {|
  CandleRange := None; SubscribePrices := Ok tt; SubscribeBars := Some (Ok tt) |}.

(** The bars on which an account with bonds trades. *)
Lemma breakout_empty_account_never_trades_witness :
  orders (Run demo_env wired_nat "run" (EvBar ∘ close_bar <$> [100; 100; 99; 102])
    (New (quick_config 1) (MkSys 0%nat []))).2 = [].
Proof.
  rewrite (breakout_empty_account_never_trades demo_env wired_nat (quick_config 1) (MkSys 0%nat []) "run"
    (EvBar ∘ close_bar <$> [100; 100; 99; 102]) empty_account).
  reflexivity.
Defined.

Lemma breakout_short_abandoned_witness :
  let s : Strategy (D := RefDec) (W := nat) :=
    upd_pos (fun _ => MkPos SignalSell false (RD 0 0) (RD 99 0) (RD 1 0)) (New (quick_config 1) (MkSys 0%nat [])) in
  (closePosition demo_env "bond" "stop_loss" s).1 = Ok tt.
Proof.
  intros s.
  apply (breakout_short_abandoned demo_env "bond" "stop_loss" s (closePosition demo_env "bond" "stop_loss" s).1
    (closePosition demo_env "bond" "stop_loss" s).2 empty_account);
    [reflexivity | reflexivity | reflexivity | apply surjective_pairing].
Defined.
