(* ===== verification/BreakoutBacktest.v ===== *)
(** * strategy/breakout: backtests

    Loading the bars and the trades, the entry point [Backtest] of
    [strategy.go] and the simulation of [backtest.go]: a cash balance, one open
    position at a time, exits on the bar's extremes or on replayed ticks, a
    force close at the end, and the summary.

    Theory: what the trade and record lists look like; over exact arithmetic
    the cash balance is the capital plus the realised profit, and an entry is
    the whole part of that over the price; a single price decides the live and the
    simulated exit alike, except with a zero ATR; a run whose balance goes
    negative and then buys a negative quantity. *)

From S2P Require Import Prelude GoTime Decimal RefDecimal Types Window Stats Market Replay Feed Breakout.

Section Backtest.
Context {D : DecimalOps}.

Record TradeRecord := {
  tr_Time : Time;
  tr_BondID : string;
  tr_Signal : Signal;
  tr_Price : dec;
  tr_Quantity : dec;
  tr_PositionSize : dec;
  tr_CompressionRatio : dec;
  tr_EntryATR : dec;
}.

Record ClosedTrade := {
  ct_BondID : string;
  ct_OpenTime : Time;
  ct_CloseTime : Time;
  ct_Signal : Signal;
  ct_ExitSignal : Signal;
  ct_EntryPrice : dec;
  ct_ExitPrice : dec;
  ct_Quantity : dec;
  ct_PositionSize : dec;
  ct_PnL : dec;
  ct_ExitReason : string;
  ct_EntryCompressionRatio : dec;
  ct_ExitCompressionRatio : dec;
}.

Record BacktestResult := {
  br_ClosedTrades : list ClosedTrade;
  br_TradeRecords : list TradeRecord;
  br_TotalPnL : dec;
  br_WinCount : Z;
  br_LossCount : Z;
  br_MaxDrawdown : dec;
  br_SharpeRatio : dec;
}.

Definition zero_BacktestResult : BacktestResult := {|
  br_ClosedTrades := []; br_TradeRecords := []; br_TotalPnL := dzero; br_WinCount := 0; br_LossCount := 0;
  br_MaxDrawdown := dzero; br_SharpeRatio := dzero |}.

(** ** Profit and exits *)

Definition computePnL (sig : Signal) (entryPrice exitPrice quantity : dec) : result dec :=
  cost ← dmul entryPrice quantity;
  proceeds ← dmul exitPrice quantity;
  match sig with
  | SignalBuy => dsub proceeds cost
  | SignalSell => dsub cost proceeds
  | SignalHold => Ok dzero
  end.

Definition isStopBandHit (c : Config) (open : TradeRecord) (price : dec) : bool :=
  d_is_pos (StopLossATR c) &&
  exitPriceCrosses (tr_Price open) (tr_EntryATR open) (StopLossATR c) price (bool_decide (tr_Signal open = SignalSell)).

Definition isTPBandHit (c : Config) (open : TradeRecord) (price : dec) : bool :=
  d_is_pos (TakeProfitATR c) &&
  exitPriceCrosses (tr_Price open) (tr_EntryATR open) (TakeProfitATR c) price (bool_decide (tr_Signal open = SignalBuy)).

Definition breakoutStopFill (sig : Signal) (level open : dec) : dec :=
  match sig with
  | SignalBuy => if d_lt open level then open else level
  | _ => if d_gt open level then open else level
  end.

Definition breakoutTPFill (sig : Signal) (level open : dec) : dec :=
  match sig with
  | SignalBuy => if d_gt open level then open else level
  | _ => if d_lt open level then open else level
  end.

(** The fill price and the reason, if the bar closes the position. *)
Definition exitForBar (c : Config) (open : TradeRecord) (bar : Bar) (decision : Decision) : option (dec * string) :=
  let '(adverse, favorable) := match tr_Signal open with
    | SignalSell => (bar_High bar, bar_Low bar) | _ => (bar_Low bar, bar_High bar) end in
  if isStopBandHit c open adverse then
    let level := default dzero (bandLevel (tr_Price open) (tr_EntryATR open) (StopLossATR c)
                                  (bool_decide (tr_Signal open = SignalSell))) in
    Some (breakoutStopFill (tr_Signal open) level (bar_Open bar), ExitReasonStopLoss)
  else if isTPBandHit c open favorable then
    let level := default dzero (bandLevel (tr_Price open) (tr_EntryATR open) (TakeProfitATR c)
                                  (bool_decide (tr_Signal open = SignalBuy))) in
    Some (breakoutTPFill (tr_Signal open) level (bar_Open bar), ExitReasonTakeProfit)
  else if isReversal (tr_Signal open) (d_signal decision) then Some (d_price decision, ExitReasonReversal)
  else None.

(** A decision re-stamped with the fill. *)
Definition at_fill (price : dec) (t : Time) (d : Decision) : Decision :=
  MkDecision t (d_bondID d) price (d_signal d) (d_positionSize d) (d_reason d) (d_ShortVol d) (d_LongVol d)
    (d_CompressionRatio d) (d_ATR d) (d_BreakoutLevel d) (d_CompressionArmed d) (d_BarsAboveTrigger d)
    (d_ArmedCompressionRatio d).

Definition closed_of (open : TradeRecord) (d : Decision) (reason : string) (pnl : dec) : ClosedTrade := {|
  ct_BondID := tr_BondID open; ct_OpenTime := tr_Time open; ct_CloseTime := d_time d;
  ct_Signal := tr_Signal open; ct_ExitSignal := d_signal d; ct_EntryPrice := tr_Price open;
  ct_ExitPrice := d_price d; ct_Quantity := tr_Quantity open; ct_PositionSize := tr_PositionSize open;
  ct_PnL := pnl; ct_ExitReason := reason; ct_EntryCompressionRatio := tr_CompressionRatio open;
  ct_ExitCompressionRatio := d_CompressionRatio d |}.

(** The balance after the exit's cash flow. *)
Definition exit_cash (sig : Signal) (balance cashFlow : dec) : result dec :=
  match sig with
  | SignalBuy => dadd balance cashFlow
  | SignalSell => dsub balance cashFlow
  | SignalHold => Ok balance
  end.

Definition closeAtPrice (open : TradeRecord) (d : Decision) (balance : dec) (reason : string) : result (ClosedTrade * dec) :=
  cashFlow ← dmul (d_price d) (tr_Quantity open);
  newBalance ← exit_cash (tr_Signal open) balance cashFlow;
  pnl ← computePnL (tr_Signal open) (tr_Price open) (d_price d) (tr_Quantity open);
  Ok (closed_of open d reason pnl, newBalance).

(** ** Ticks and trades *)

Definition tickWindow (ticks : list AssetPrice) (idx : nat) (from to : Time) : list AssetPrice * nat :=
  let '(out, n) := tick_scan (drop idx ticks) from to in (out, (idx + n)%nat).

(** [trades.Trade], the fields read *)
Record Trade := { t_Time : Time; t_Price : dec; t_Quantity : dec; t_Side : string }.

Fixpoint ingest (ts : list Trade) (cutoff : Time) (o : Obv) : nat * Obv :=
  match ts with
  | [] => (0%nat, o)
  | t :: rest =>
      if time_after (t_Time t) cutoff then (0%nat, o)
      else let '(n, o') := ingest rest cutoff
             (applyTradeEvent {| te_Price := t_Price t; te_Quantity := t_Quantity t; te_Side := t_Side t |} o) in
           (S n, o')
  end.

Definition ingestTradesUpTo (ts : list Trade) (idx : nat) (cutoff : Time) (o : Obv) : nat * Obv :=
  let '(n, o') := ingest (drop idx ts) cutoff o in ((idx + n)%nat, o').

(** ** The simulation *)

Definition barsAhead : Z := 2.

Record Params := {
  bt_cfg : Config;
  bt_baseAssetID : string;
  bt_ticks : list AssetPrice;
  bt_trades : list Trade;
  bt_TradeFrom : Time;
  bt_TradeTo : Time;
  (** whether the context is done when bar [i] is reached *)
  bt_cancelled : nat -> bool;
}.

Record Sim := MkSim {
  m_ind : Ind;
  m_obv : Obv;
  m_closed : list ClosedTrade;
  m_records : list TradeRecord;
  m_open : option TradeRecord;
  m_last : Decision;
  m_balance : dec;
  m_idx : nat;
  m_tradeIdx : nat;
  m_had : bool;   (* prevWindowHadTicks *)
}.

Definition zero_Decision : Decision :=
  MkDecision zero_time "" dzero SignalHold dzero "" dzero dzero dzero dzero dzero false 0 dzero.

Definition init_Sim (i : Ind) (o : Obv) (capital : dec) : Sim :=
  MkSim i o [] [] None zero_Decision capital 0 0 false.

(** Open, close and book on the lists. *)
Definition set_book (closed : list ClosedTrade) (records : list TradeRecord) (open : option TradeRecord) (balance : dec)
    (m : Sim) : Sim :=
  MkSim (m_ind m) (m_obv m) closed records open (m_last m) balance (m_idx m) (m_tradeIdx m) (m_had m).

Section Simulation.
Context (P : Params).
#[local] Abbreviation c := (bt_cfg P).
Definition bar_res : Z := ResolutionDuration (Resolution c).
Definition close_of (bar : Bar) : Time := time_add (bar_Time bar) bar_res.

Definition book_close (open : TradeRecord) (d : Decision) (reason : string) (rows : list TradeRecord) (m : Sim) : result Sim :=
  '(ct, newBalance) ← closeAtPrice open d (m_balance m) reason;
  Ok (set_book (m_closed m ++ [ct]) (m_records m ++ rows) None newBalance m).

Definition in_window (bar : Bar) : bool :=
  (time_is_zero (bt_TradeFrom P) || negb (time_before (bar_Time bar) (bt_TradeFrom P))) &&
  (time_is_zero (bt_TradeTo P) || negb (time_after (close_of bar) (bt_TradeTo P))).

(** The row of a reversal. *)
Definition reversal_row (open : TradeRecord) (d : Decision) : TradeRecord := {|
  tr_Time := d_time d; tr_BondID := tr_BondID open; tr_Signal := tr_Signal open; tr_Price := d_price d;
  tr_Quantity := tr_Quantity open; tr_PositionSize := tr_Quantity open;
  tr_CompressionRatio := tr_CompressionRatio open; tr_EntryATR := tr_EntryATR open |}.

Definition entry_record (d : Decision) (qty : dec) : TradeRecord := {|
  tr_Time := time_add (d_time d) bar_res; tr_BondID := d_bondID d; tr_Signal := d_signal d; tr_Price := d_price d;
  tr_Quantity := qty; tr_PositionSize := qty; tr_CompressionRatio := d_ArmedCompressionRatio d;
  tr_EntryATR := d_ATR d |}.

Definition entry_cash (sig : Signal) (balance cashFlow : dec) : result dec :=
  match sig with
  | SignalBuy => dsub balance cashFlow
  | SignalSell => dadd balance cashFlow
  | SignalHold => Ok balance
  end.

(** Exit or entry at the bar's close. *)
Definition close_phase (bar : Bar) (decision : Decision) (m : Sim) : result Sim :=
  match m_open m with
  | Some open =>
      let exit :=
        if m_had m then
          if isReversal (tr_Signal open) (d_signal decision) then Some (d_price decision, ExitReasonReversal) else None
        else exitForBar c open bar decision in
      match exit with
      | Some (fillPrice, reason) =>
          let d := at_fill fillPrice (close_of bar) decision in
          let rows := if bool_decide (reason = ExitReasonReversal) then [reversal_row open d] else [] in
          book_close open d reason rows m
      | None => Ok m
      end
  | None =>
      if bool_decide (d_signal decision = SignalHold) || negb (in_window bar) then Ok m
      else
        budget ← dmul (m_balance m) (d_positionSize decision);
        q ← dquo budget (d_price decision);
        let qty := dfloor q in
        if d_is_zero qty then Ok m
        else
          let rec := entry_record decision qty in
          cashFlow ← dmul (d_price decision) qty;
          balance ← entry_cash (d_signal decision) (m_balance m) cashFlow;
          Ok (set_book (m_closed m) (m_records m ++ [rec]) (Some rec) balance m)
  end.

(** The first tick that crosses a band closes the position at its price. *)
Fixpoint first_crossing (open : TradeRecord) (window : list AssetPrice) : option (AssetPrice * string) :=
  match window with
  | [] => None
  | t :: rest =>
      match liveCheckSLTP (tr_Signal open) (tr_Price open) (tr_EntryATR open) (px_Price t) c with
      | Some reason => Some (t, reason)
      | None => first_crossing open rest
      end
  end.

(** Replay the ticks up to the next close. *)
Definition tick_phase (bar : Bar) (next : option Bar) (decision : Decision) (m : Sim) : result Sim :=
  match m_open m with
  | None => Ok m
  | Some open =>
      let nextClose := match next with
        | Some b => close_of b
        | None => time_add (bar_Time bar) (dur_mul bar_res barsAhead) end in
      let '(window, idx) := tickWindow (bt_ticks P) (m_idx m) (close_of bar) nextClose in
      let m1 := MkSim (m_ind m) (m_obv m) (m_closed m) (m_records m) (m_open m) (m_last m) (m_balance m)
                  idx (m_tradeIdx m) (0 <? length window)%nat in
      match first_crossing open window with
      | Some (t, reason) => book_close open (at_fill (px_Price t) (px_Time t) decision) reason [] m1
      | None => Ok m1
      end
  end.

Definition bt_step (i : nat) (bar : Bar) (next : option Bar) (m : Sim) : result Sim :=
  if bt_cancelled P i then Err (ErrMsg "backtest cancelled by user") else
  let '(tradeIdx, obv) := ingestTradesUpTo (bt_trades P) (m_tradeIdx m) (close_of bar) (m_obv m) in
  let '(r, ind) := Update c (OBV obv) (bt_baseAssetID P) bar (m_ind m) in
  decision ← r;
  m1 ← close_phase bar decision (MkSim ind obv (m_closed m) (m_records m) (m_open m) decision (m_balance m)
                                   (m_idx m) tradeIdx (m_had m));
  tick_phase bar next decision m1.

Fixpoint replay (i : nat) (bars : list Bar) (m : Sim) : result Sim :=
  match bars with
  | [] => Ok m
  | bar :: rest => m1 ← bt_step i bar (hd_error rest) m; replay (S i) rest m1
  end.

Definition force_row (open : TradeRecord) (t : Time) (price : dec) : TradeRecord := {|
  tr_Time := t; tr_BondID := tr_BondID open; tr_Signal := tr_Signal open; tr_Price := price;
  tr_Quantity := tr_Quantity open; tr_PositionSize := tr_Quantity open;
  tr_CompressionRatio := tr_CompressionRatio open; tr_EntryATR := dzero |}.

(** Force-close at the last bar's close and the last decision's price. *)
Definition force_close (bars : list Bar) (m : Sim) : result Sim :=
  match m_open m, last bars with
  | Some open, Some b =>
      let l := m_last m in
      cashFlow ← dmul (d_price l) (tr_Quantity open);
      _ ← exit_cash (tr_Signal open) (m_balance m) cashFlow;
      pnl ← computePnL (tr_Signal open) (tr_Price open) (d_price l) (tr_Quantity open);
      let d := at_fill (d_price l) (close_of b) l in
      Ok (set_book (m_closed m ++ [closed_of open d ExitReasonStrategyExit pnl])
            (m_records m ++ [force_row open (close_of b) (d_price l)]) None (m_balance m) m)
  | _, _ => Ok m
  end.

Definition computeSummary (trades : list ClosedTrade) (start end_ : Time) : result Summary :=
  Summarise ((fun t => {| PnL := ct_PnL t; CloseTime := ct_CloseTime t |}) <$> trades) start end_.

(** [Backtester.Run], without the writer *)
Definition Run (i : Ind) (o : Obv) (bars : list Bar) : result BacktestResult :=
  match hd_error bars, last bars with
  | Some first, Some final =>
      effectiveCapital ← dmul (InitialBalance c) (Leverage c);
      m0 ← replay 0 bars (init_Sim i o effectiveCapital);
      m ← force_close bars m0;
      let start := if time_is_zero (bt_TradeFrom P) then bar_Time first else bt_TradeFrom P in
      let end_ := if time_is_zero (bt_TradeTo P) then bar_Time final else bt_TradeTo P in
      s ← wrap_err "compute summary" (computeSummary (m_closed m) start end_);
      Ok {| br_ClosedTrades := m_closed m; br_TradeRecords := m_records m; br_TotalPnL := TotalPnL s;
            br_WinCount := WinCount s; br_LossCount := LossCount s; br_MaxDrawdown := MaxDrawdown s;
            br_SharpeRatio := SharpeRatio s |}
  | _, _ => Ok zero_BacktestResult
  end.
End Simulation.

(** [streamTrades], then the flush: errors of the writer are only logged. *)
Definition record_row (r : TradeRecord) : TradeRecordInsert := {|
  tri_BacktestID := uuid_nil; tri_Time := tr_Time r; tri_BondID := tr_BondID r;
  tri_Signal := Signal_String (tr_Signal r); tri_Price := tr_Price r; tri_Quantity := tr_Quantity r;
  tri_EntryBalance := dzero; tri_OrderSize := dzero; tri_Cash := dzero; tri_OpenPosition := dzero;
  tri_TradeID := ""; tri_Spread := dzero; tri_PositionSize := tr_PositionSize r; tri_ZScore := dzero;
  tri_CompressionRatio := tr_CompressionRatio r; tri_EntryATR := tr_EntryATR r |}.

Definition closed_row (t : ClosedTrade) : ClosedTradeInsert := {|
  cti_BacktestID := uuid_nil; cti_OpenTime := ct_OpenTime t; cti_CloseTime := ct_CloseTime t;
  cti_BondID := ct_BondID t; cti_OpenSignal := Signal_String (ct_Signal t);
  cti_CloseSignal := Signal_String (ct_ExitSignal t); cti_Quantity := ct_Quantity t;
  cti_EntryPrice := ct_EntryPrice t; cti_ExitPrice := ct_ExitPrice t; cti_PnL := ct_PnL t;
  cti_EntryBalance := dzero; cti_OpenTradeID := ""; cti_CloseTradeID := ""; cti_EntrySpread := dzero;
  cti_ExitSpread := dzero; cti_EntryZScore := dzero; cti_ExitZScore := dzero;
  cti_PositionSize := ct_PositionSize t; cti_ExitReason := ct_ExitReason t;
  cti_EntryCompressionRatio := ct_EntryCompressionRatio t; cti_ExitCompressionRatio := ct_ExitCompressionRatio t |}.

Definition streamTrades (records : list TradeRecord) (closed : list ClosedTrade) : list WriterCall :=
  (WriteTradeRecord ∘ record_row <$> records) ++ (WriteClosedTrade ∘ closed_row <$> closed) ++ [Flush].

(** ** Loading *)

(** The candle, tick and trade stores. *)
Record History := {
  CandleStoreAvailable : result unit;
  Store_CandleRange : string -> result (option Time * option Time);
  LoadCandlesBucketed : string -> string -> Time -> Time -> result (list Candle);
  LoadHistoricalPrices : option (string -> Time -> Time -> result (list AssetPrice));
  (** the trades received before the channel closes; errors are only logged *)
  StreamTrades : option (string -> Time -> Time -> list Trade);
}.
Context (H : History).

Definition sourceBarDuration : Z := Minute.

Definition checkCandleCoverage (cfg : Config) (dataStart end_ : Time) : result unit :=
  match Store_CandleRange H (OrderBookID cfg) with
  | Err e => Err (ErrWrap "load candle range" e)
  | Ok (Some lo, Some hi) =>
      if time_after lo dataStart || time_before (time_add hi sourceBarDuration) end_ then
        Err (ErrMsg "no candle coverage")
      else Ok tt
  | Ok _ => Err (ErrMsg "no candle coverage")
  end.

Definition data_start (cfg : Config) (start : Time) : Time :=
  time_add start (dur_mul (wrap64 (- wrap64 (LongVolWindow cfg + 1))) (ResolutionDuration (Resolution cfg))).
Definition load_end (cfg : Config) (end_ : Time) : Time :=
  time_truncate (time_utc end_) (ResolutionDuration (Resolution cfg)).

(** [PreflightBacktest]; [injected] tells whether a store was injected. *)
Definition PreflightBacktest (injected : bool) (cfg : Config) (start end_ : Time) : result unit :=
  if negb injected then Ok tt
  else if ResolutionDuration (Resolution cfg) =? 0 then Err (ErrMsg "unknown resolution")
  else checkCandleCoverage cfg (data_start cfg start) (load_end cfg end_).

Definition getBars (cfg : Config) (start end_ : Time) : result (list Bar) :=
  if ResolutionDuration (Resolution cfg) =? 0 then Err (ErrMsg "unknown resolution") else
  _ ← CandleStoreAvailable H;
  _ ← checkCandleCoverage cfg (data_start cfg start) (load_end cfg end_);
  loaded ← wrap_err "load candles"
    (LoadCandlesBucketed H (OrderBookID cfg) (Resolution cfg) (data_start cfg start) (load_end cfg end_));
  Ok (fmap (M := list) BarFromCandle loaded).

(** [loadTicks]: best effort. *)
Definition loadTicks (cfg : Config) (assetID : string) (bars : list Bar) : list AssetPrice :=
  match hd_error bars, last bars, LoadHistoricalPrices H with
  | Some first, Some final, Some load =>
      or_zero [] (load assetID (bar_Time first) (time_add (bar_Time final) (ResolutionDuration (Resolution cfg))))
  | _, _, _ => []
  end.

(** [loadTrades]: the range ends at the last bar's start. *)
Definition loadTrades (cfg : Config) (bars : list Bar) : list Trade :=
  if OBVWindow cfg =? 0 then [] else
  match StreamTrades H, hd_error bars, last bars with
  | Some stream, Some first, Some final => stream (OrderBookID cfg) (bar_Time first) (bar_Time final)
  | _, _, _ => []
  end.

(** [Backtest] of a strategy with configuration [cfg], indicators [i] and
    volume [o]; [asset] is the outcome of [LookupAssetID]. *)
Definition Backtest (cfg : Config) (i : Ind) (o : Obv) (now : Time) (asset : result string)
    (cancelled : nat -> bool) (start end_ : Time) : result BacktestResult :=
  if time_before end_ start then Err (ErrMsg "end date must be after start date")
  else if time_after start now || time_after end_ now then Err (ErrMsg "start and end date must be in the past")
  else
    bars ← getBars cfg start end_;
    assetID ← wrap_err "backtest requires the order book's base asset" asset;
    Run {| bt_cfg := cfg; bt_baseAssetID := assetID; bt_ticks := loadTicks cfg assetID bars;
           bt_trades := loadTrades cfg bars; bt_TradeFrom := start; bt_TradeTo := end_;
           bt_cancelled := cancelled |} i o bars.
End Backtest.

(** ** Theory: the book of a simulation *)

Lemma bb_Update_bar {D : DecimalOps} c obv a bar i d i' : Update c obv a bar i = (Ok d, i') ->
  d_price d = bar_Close bar /\ d_time d = bar_Time bar.
Proof.
  unfold Update. intros H. repeat (apply SE_bind_Ok in H as (? & ? & _ & H)).
  destruct (negb (Ready _)); [by injection H as <- _ |].
  apply SE_bind_Ok in H as ([[sv lv] atr] & ? & _ & H).
  destruct (d_lt lv _); [by injection H as <- _ |].
  repeat (apply SE_bind_Ok in H as (? & ? & _ & H)).
  destruct (negb _); [by injection H as <- _ |].
  destruct (evaluateBreakout _ _ _ _ _ _) as [d1 a1] eqn:He.
  apply SE_bind_Ok in H as (? & ? & _ & H). injection H as <- _.
  assert (d_price d1 = bar_Close bar /\ d_time d1 = bar_Time bar) as [E1 E2].
  { unfold evaluateBreakout in He. split_match_in He; injection He as <- <-; done. }
  unfold applyVolumeFilter. split_match; done.
Qed.

Section BookTheory.
Context {D : DecimalOps} (P : Params).
Implicit Types (bar : Bar) (m : Sim) (e : TradeRecord) (ct : ClosedTrade) (d : Decision).

(** The row that accompanies a close: none for a band exit. *)
Definition row_of e d reason : option TradeRecord :=
  if bool_decide (reason = ExitReasonReversal) then Some (reversal_row e d)
  else if bool_decide (reason = ExitReasonStrategyExit) then Some (force_row e (d_time d) (d_price d))
  else None.

(** One round trip: the entry, the row of its exit, the closed trade. *)
Definition trip_ok (t : TradeRecord * option TradeRecord * ClosedTrade) : Prop :=
  let '(e, x, ct) := t in
  exists d reason pnl, ct = closed_of e d reason pnl /\ x = row_of e d reason /\
    computePnL (tr_Signal e) (tr_Price e) (d_price d) (tr_Quantity e) = Ok pnl.

(** An entry at the close of a bar inside the trading window, sized from the
    balance at that moment. *)
Definition entry_ok (bars : list Bar) (balance : dec) e : Prop :=
  exists bar budget q, bar ∈ bars /\ tr_Time e = close_of P bar /\ tr_Price e = bar_Close bar /\
    in_window P bar = true /\ tr_Signal e <> SignalHold /\
    dmul balance done1 = Ok budget /\ dquo budget (tr_Price e) = Ok q /\
    tr_Quantity e = dfloor q /\ d_is_zero (tr_Quantity e) = false.

(** What one phase does to the book. *)
Inductive book_change (bars : list Bar) m m' : Prop :=
  | bc_keep : m_closed m' = m_closed m -> m_records m' = m_records m -> m_open m' = m_open m ->
      m_balance m' = m_balance m -> book_change bars m m'
  | bc_exit e d reason ct balance : m_open m = Some e ->
      closeAtPrice e d (m_balance m) reason = Ok (ct, balance) ->
      m_closed m' = m_closed m ++ [ct] -> m_records m' = m_records m ++ option_list (row_of e d reason) ->
      m_open m' = None -> m_balance m' = balance -> book_change bars m m'
  | bc_entry e cash balance : m_open m = None -> entry_ok bars (m_balance m) e ->
      dmul (tr_Price e) (tr_Quantity e) = Ok cash -> entry_cash (tr_Signal e) (m_balance m) cash = Ok balance ->
      m_closed m' = m_closed m -> m_records m' = m_records m ++ [e] -> m_open m' = Some e ->
      m_balance m' = balance -> book_change bars m m'.

Lemma book_close_change bars open d reason rows m m0 m' : m_open m = Some open -> m_balance m0 = m_balance m ->
  m_closed m0 = m_closed m -> m_records m0 = m_records m -> rows = option_list (row_of open d reason) ->
  book_close open d reason rows m0 = Ok m' -> book_change bars m m'.
Proof.
  intros Ho Hb Hc Hr -> H. unfold book_close in H. apply result_bind_Ok in H as ([ct nb] & Hct & [= <-]).
  rewrite Hb in Hct. eapply bc_exit; [exact Ho | exact Hct | simpl; by rewrite ?Hc, ?Hr..].
Qed.

(** [Update] sizes every signal with the whole balance. *)
Definition full_size d : Prop := d_signal d <> SignalHold -> d_positionSize d = done1.

Lemma Update_full_size c obv a bar i d i' : Update c obv a bar i = (Ok d, i') -> full_size d.
Proof.
  unfold Update. intros H. repeat (apply SE_bind_Ok in H as (? & ? & _ & H)).
  destruct (negb (Ready _)); [injection H as <- _; by intros [] |].
  apply SE_bind_Ok in H as ([[sv lv] atr] & ? & _ & H).
  destruct (d_lt lv _); [injection H as <- _; by intros [] |].
  repeat (apply SE_bind_Ok in H as (? & ? & _ & H)).
  destruct (negb _); [injection H as <- _; by intros [] |].
  destruct (evaluateBreakout _ _ _ _ _ _) as [d1 a1] eqn:He.
  apply SE_bind_Ok in H as (? & ? & _ & H). injection H as <- _.
  assert (full_size d1) as Hd.
  { unfold evaluateBreakout in He. split_match_in He; injection He as <- <-; done || by intros []. }
  unfold applyVolumeFilter. split_match; done || by intros [].
Qed.

Lemma close_phase_change bars bar d m m' : bar ∈ bars -> d_price d = bar_Close bar -> d_time d = bar_Time bar ->
  full_size d -> close_phase P bar d m = Ok m' -> book_change bars m m'.
Proof.
  intros Hin Hp Ht Hfs. unfold close_phase. destruct (m_open m) as [open|] eqn:Ho.
  - set (ex := if m_had m then _ else _).
    assert (forall fill reason, ex = Some (fill, reason) -> reason <> ExitReasonStrategyExit) as Hne.
    { intros fill reason. unfold ex, exitForBar. split_match; intros [= _ <-]; done. }
    clearbody ex. destruct ex as [[fill reason]|]; [| intros [= <-]; by apply bc_keep].
    specialize (Hne _ _ eq_refl). intros H. eapply book_close_change; [exact Ho | done.. | | exact H].
    unfold row_of. case_bool_decide; [done |]. by rewrite bool_decide_eq_false_2.
  - destruct (_ || _) eqn:Hg; [intros [= <-]; by apply bc_keep |]. apply orb_false_elim in Hg as [Hs Hw].
    apply bool_decide_eq_false in Hs. apply negb_false_iff in Hw.
    rewrite (Hfs Hs). intros H. apply result_bind_Ok in H as (budget & Hb & H).
    apply result_bind_Ok in H as (q & Hq & H). destruct (d_is_zero (dfloor q)) eqn:Hz; [injection H as <-; by apply bc_keep |].
    apply result_bind_Ok in H as (cash & Hc & H). apply result_bind_Ok in H as (bal & Hbal & [= <-]).
    eapply (bc_entry bars m _ (entry_record P d (dfloor q))); try done.
    exists bar, budget, q. simpl. rewrite Hp in *. rewrite Ht. split_and!; try done.
Qed.

Lemma first_crossing_reason open window t reason : first_crossing P open window = Some (t, reason) ->
  t ∈ window /\ liveCheckSLTP (tr_Signal open) (tr_Price open) (tr_EntryATR open) (px_Price t) (bt_cfg P) = Some reason.
Proof.
  induction window as [|x window IH]; simpl; [done |]. destruct (liveCheckSLTP _ _ _ (px_Price x) _) eqn:E.
  - intros [= <- <-]. split; [constructor | done].
  - intros H. apply IH in H as [? ?]. split; [by constructor | done].
Qed.

Lemma live_reason sig entry atr price c reason : liveCheckSLTP sig entry atr price c = Some reason ->
  reason = ExitReasonStopLoss \/ reason = ExitReasonTakeProfit.
Proof. unfold liveCheckSLTP. split_match; intros [= <-]; auto. Qed.

Lemma tick_phase_change bars bar next d m m' : tick_phase P bar next d m = Ok m' -> book_change bars m m'.
Proof.
  unfold tick_phase. destruct (m_open m) as [open|] eqn:Ho; [| intros [= <-]; by apply bc_keep].
  destruct (tickWindow _ _ _ _) as [window idx]. destruct (first_crossing P open window) as [[t reason]|] eqn:Hf;
    [| intros [= <-]; by apply bc_keep].
  apply first_crossing_reason in Hf as [_ Hf]. apply live_reason in Hf.
  intros H. eapply book_close_change; [exact Ho | | | | | exact H]; try done.
  unfold row_of. by destruct Hf as [->| ->].
Qed.

Lemma bt_step_change bars i bar next m m' : bar ∈ bars -> bt_step P i bar next m = Ok m' ->
  exists d m1, d_price d = bar_Close bar /\ d_time d = bar_Time bar /\ m_last m1 = d /\
    book_change bars m m1 /\ book_change bars m1 m' /\ close_phase P bar d
      (MkSim (m_ind m1) (m_obv m1) (m_closed m) (m_records m) (m_open m) d (m_balance m) (m_idx m1) (m_tradeIdx m1) (m_had m)) = Ok m1 /\
    tick_phase P bar next d m1 = Ok m'.
Proof.
  intros Hin. unfold bt_step. destruct (bt_cancelled P i); [done |].
  destruct (ingestTradesUpTo _ _ _ _) as [ti obv]. destruct (Update _ _ _ _ _) as [[d|] ind] eqn:Hu; [| done].
  simpl. intros H. apply result_bind_Ok in H as (m1 & Hc & Ht).
  pose proof (bb_Update_bar _ _ _ _ _ _ _ Hu) as [Hp Htm]. pose proof (Update_full_size _ _ _ _ _ _ _ Hu) as Hfs.
  assert (m_ind m1 = ind /\ m_obv m1 = obv /\ m_idx m1 = m_idx m /\ m_tradeIdx m1 = ti /\ m_last m1 = d) as (E1 & E2 & E3 & E4 & E5).
  { clear Ht Hu Hp Htm Hfs. unfold close_phase, book_close, set_book in Hc. simpl in Hc.
    repeat (match type of Hc with
            | context [match ?x with _ => _ end] => destruct x; simpl in Hc
            | mbind _ _ = Ok _ => apply result_bind_Ok in Hc as (? & _ & Hc); simpl in Hc
            end; try discriminate Hc); try (injection Hc as <-; done). }
  exists d, m1. split_and!; try done.
  - apply (close_phase_change bars) in Hc as [K1 K2 K3 K4|e d' reason ct bal K1 K2 K3 K4 K5 K6|e cash bal K1 K2 K3 K4 K5 K6 K7 K8];
      [| | | done..]; simpl in *; [by apply bc_keep | by eapply bc_exit | by eapply bc_entry].
  - by eapply tick_phase_change.
  - by rewrite E1, E2, E3, E4.
Qed.

(** A property of the book that every phase keeps holds after the replay. *)
Lemma replay_invariant (I : Sim -> Prop) all bars i m m' :
  (forall m1 m2, book_change all m1 m2 -> I m1 -> I m2) -> (forall b, b ∈ bars -> b ∈ all) ->
  replay P i bars m = Ok m' -> I m -> I m'.
Proof.
  intros HI Hsub. revert i m. induction bars as [|bar bars IH]; intros i m H Hm; simpl in H; [by injection H as <- |].
  apply result_bind_Ok in H as (m1 & Hs & H).
  apply (bt_step_change all) in Hs as (d & m0 & _ & _ & _ & C1 & C2 & _); [| apply Hsub; constructor].
  eapply IH; [| exact H |]; [intros b Hb; apply Hsub; by constructor |]. eapply HI; [exact C2 |]. by eapply HI.
Qed.

Definition trips_inv (bars : list Bar) (trips : list (TradeRecord * option TradeRecord * ClosedTrade)) m : Prop :=
  m_records m = (trips ≫= fun t => t.1.1 :: option_list t.1.2) ++ option_list (m_open m) /\
  m_closed m = trips.*2 /\ Forall trip_ok trips /\
  Forall (fun t => exists balance, entry_ok bars balance t.1.1) trips /\
  (forall e, m_open m = Some e -> exists balance, entry_ok bars balance e).

Lemma trips_exit bars trips m m' e d reason pnl : trips_inv bars trips m -> m_open m = Some e ->
  computePnL (tr_Signal e) (tr_Price e) (d_price d) (tr_Quantity e) = Ok pnl ->
  m_closed m' = m_closed m ++ [closed_of e d reason pnl] ->
  m_records m' = m_records m ++ option_list (row_of e d reason) -> m_open m' = None ->
  trips_inv bars (trips ++ [(e, row_of e d reason, closed_of e d reason pnl)]) m'.
Proof.
  intros (B1 & B2 & B3 & B4 & B5) Ho Hp Hc Hr Hn. split_and!.
  - rewrite Hr, B1, Ho, Hn, bind_app. simpl. by rewrite !app_nil_r, <- app_assoc.
  - by rewrite Hc, B2, fmap_app.
  - apply Forall_app. split; [done |]. constructor; [| done]. by exists d, reason, pnl.
  - apply Forall_app. split; [done |]. constructor; [| done]. by apply B5.
  - by rewrite Hn.
Qed.

Lemma trips_change bars m m' : book_change bars m m' ->
  (exists trips, trips_inv bars trips m) -> exists trips, trips_inv bars trips m'.
Proof.
  intros [K1 K2 K3 _|e d reason ct bal Ho Hcl Hc Hr Hn _|e cash bal Ho He _ _ Hc Hr Hn _] (trips & B).
  - exists trips. unfold trips_inv in *. by rewrite K1, K2, K3.
  - unfold closeAtPrice in Hcl. apply result_bind_Ok in Hcl as (cf & _ & Hcl).
    apply result_bind_Ok in Hcl as (nb & _ & Hcl). apply result_bind_Ok in Hcl as (pnl & Hp & [= <- <-]).
    eexists. by eapply trips_exit.
  - exists trips. destruct B as (B1 & B2 & B3 & B4 & B5). unfold trips_inv.
    rewrite Hc, Hr, Hn, B1, Ho. simpl. rewrite app_nil_r. split_and!; try done.
    intros e' [= <-]. by exists (m_balance m).
Qed.

Lemma Run_Ok i o bars r : Run P i o bars = Ok r -> bars = [] /\ r = zero_BacktestResult \/
  exists capital m0 m s, dmul (InitialBalance (bt_cfg P)) (Leverage (bt_cfg P)) = Ok capital /\
    replay P 0 bars (init_Sim i o capital) = Ok m0 /\ force_close P bars m0 = Ok m /\
    br_ClosedTrades r = m_closed m /\ br_TradeRecords r = m_records m /\ br_TotalPnL r = TotalPnL s /\
    exists a b, computeSummary (m_closed m) a b = Ok s.
Proof.
  unfold Run. destruct bars as [|b bars]; [intros [= <-]; by left |]. simpl hd_error.
  destruct (last (b :: bars)) as [l|] eqn:Hl; [| by apply last_None in Hl].
  intros H. right. apply result_bind_Ok in H as (cap & Hcap & H). apply result_bind_Ok in H as (m0 & H0 & H).
  apply result_bind_Ok in H as (m & Hm & H). apply result_bind_Ok in H as (s & Hs & [= <-]).
  apply wrap_err_Ok in Hs. exists cap, m0, m, s. split_and!; try done. by eexists _, _.
Qed.

(** What the force close adds, if anything was open. *)
Lemma force_close_Ok bars m m' : bars <> [] -> force_close P bars m = Ok m' ->
  (m_open m = None /\ m' = m) \/
  exists e d pnl, m_open m = Some e /\
    computePnL (tr_Signal e) (tr_Price e) (d_price d) (tr_Quantity e) = Ok pnl /\
    m_closed m' = m_closed m ++ [closed_of e d ExitReasonStrategyExit pnl] /\
    m_records m' = m_records m ++ option_list (row_of e d ExitReasonStrategyExit) /\ m_open m' = None.
Proof.
  intros Hne. unfold force_close. destruct (m_open m) as [e|] eqn:Ho; [| intros [= <-]; by left].
  destruct (last bars) as [b|] eqn:Hl; [| by apply last_None in Hl].
  intros H. right. apply result_bind_Ok in H as (cf & _ & H). apply result_bind_Ok in H as (nb & _ & H).
  apply result_bind_Ok in H as (pnl & Hp & [= <-]).
  exists e, (at_fill (d_price (m_last m)) (close_of P b) (m_last m)), pnl. split_and!; done.
Qed.

(** The lists a backtest reports are round trips: every entry is closed by
    exactly one closed trade, built from it; a stop or a take-profit leaves no
    row, a reversal and the final exit leave one right after their entry; every
    entry is stamped with the close of a bar inside the trading window, at that
    bar's closing price and with a whole, non-zero number of bonds. *)
Theorem breakout_backtest_trips i o bars r :
  Run P i o bars = Ok r ->
  exists trips : list (TradeRecord * option TradeRecord * ClosedTrade),
    br_TradeRecords r = (trips ≫= fun t => t.1.1 :: option_list t.1.2) /\ br_ClosedTrades r = trips.*2 /\
    Forall trip_ok trips /\ Forall (fun t => exists balance, entry_ok bars balance t.1.1) trips.
Proof.
  intros H. apply Run_Ok in H as [[-> ->]|(cap & m0 & m & s & _ & H0 & Hf & Hc & Hr & _)]; [by exists [] |].
  destruct (decide (bars = [])) as [->|Hne].
  { injection H0 as <-. injection Hf as <-. rewrite Hc, Hr. by exists []. }
  assert (exists trips, trips_inv bars trips m0) as (trips & B).
  { apply (replay_invariant (fun m => exists trips, trips_inv bars trips m) bars bars 0 _ _ (trips_change bars)
      (fun b Hb => Hb) H0). by exists []. }
  rewrite Hc, Hr. apply force_close_Ok in Hf as [[Ho ->]|(e & d & pnl & Ho & Hp & C1 & C2 & C3)]; [| | done].
  - destruct B as (B1 & B2 & B3 & B4 & _). exists trips. rewrite B1, Ho. simpl. by rewrite app_nil_r.
  - pose proof (trips_exit _ _ _ _ _ _ _ _ B Ho Hp C1 C2 C3) as (B1 & B2 & B3 & B4 & _).
    eexists. rewrite B1, C3. simpl. rewrite app_nil_r. split_and!; [done | exact B2 | exact B3 | exact B4].
Qed.
End BookTheory.

(** ** Theory: cash over exact arithmetic *)

Section CashTheory.
#[local] Existing Instance QDec.
#[local] Open Scope Q_scope.
Context (P : Params (D := QDec)).
Implicit Types (m : Sim (D := QDec)) (e : TradeRecord (D := QDec)) (ct : ClosedTrade (D := QDec)).

Definition profit (closed : list (ClosedTrade (D := QDec))) : Q := qsum (ct_PnL <$> closed).

(** What the open position has taken out of the balance. *)
Definition invested (open : option (TradeRecord (D := QDec))) : Q :=
  match open with
  | None => 0
  | Some e => match tr_Signal e with
              | SignalBuy => tr_Price e * tr_Quantity e
              | SignalSell => - (tr_Price e * tr_Quantity e)
              | SignalHold => 0
              end
  end.

(** An entry buys or sells as many whole bonds as the equity before it pays
    for, and at least something. *)
Definition sized (equity price quantity : Q) : Prop :=
  ~ price == 0 /\ quantity == inject_Z (Qfloor (equity / price)) /\ ~ quantity == 0.

#[export] Instance sized_proper : Proper (Qeq ==> eq ==> eq ==> iff) sized.
Proof. intros e e' He p _ <- q _ <-. unfold sized. by rewrite He. Qed.

Record cash_inv (capital : Q) m : Prop := {
  ci_balance : m_balance m == capital + profit (m_closed m) - invested (m_open m);
  ci_closed : forall l1 ct l2, m_closed m = l1 ++ ct :: l2 ->
    sized (capital + profit l1) (ct_EntryPrice ct) (ct_Quantity ct);
  ci_open : forall e, m_open m = Some e -> sized (capital + profit (m_closed m)) (tr_Price e) (tr_Quantity e);
}.

Lemma profit_snoc l ct : profit (l ++ [ct]) == profit l + ct_PnL ct.
Proof. unfold profit. rewrite fmap_app, qsum_app. simpl. ring. Qed.

(** What [sized] means for money: with a positive price and equity the entry
    is affordable, and the cash it leaves would not pay for one bond more. *)
Lemma sized_cost equity price quantity : sized equity price quantity -> 0 < price -> 0 <= equity ->
  0 < quantity /\ price * quantity <= equity /\ equity < price * (quantity + 1).
Proof.
  intros (Hz & Hq & Hn) Hp He. rewrite Hq in Hn |- *.
  assert (equity == price * (equity / price)) as Heq by (field; done).
  assert (0 <= equity / price) as Hdiv by (by apply Qle_shift_div_l; rewrite ?Qmult_0_l).
  pose proof (Qfloor_le (equity / price)) as F1. pose proof (Qlt_floor (equity / price)) as F2.
  rewrite inject_Z_plus in F2. split_and!.
  - change 0 with (inject_Z 0) in Hn |- *. rewrite <- Zlt_Qlt.
    assert (0 <= Qfloor (equity / price))%Z by (change 0%Z with (Qfloor 0); by apply Qfloor_resp_le).
    destruct (decide (Qfloor (equity / price) = 0)%Z) as [E|E]; [by rewrite E in Hn; destruct Hn | lia].
  - rewrite Heq at 2. by apply Qmult_le_l.
  - rewrite Heq at 1. by apply Qmult_lt_l.
Qed.

Lemma sized_snoc capital l ct :
  (forall l1 ct' l2, l = l1 ++ ct' :: l2 -> sized (capital + profit l1) (ct_EntryPrice ct') (ct_Quantity ct')) ->
  sized (capital + profit l) (ct_EntryPrice ct) (ct_Quantity ct) ->
  forall l1 ct' l2, l ++ [ct] = l1 ++ ct' :: l2 -> sized (capital + profit l1) (ct_EntryPrice ct') (ct_Quantity ct').
Proof.
  intros Hl Hct l1 ct' l2 H. destruct l2 as [|y l2 _] using rev_ind.
  - apply app_inj_tail in H as [<- <-]. done.
  - rewrite app_comm_cons, app_assoc in H. apply app_inj_tail in H as [-> _]. by eapply Hl.
Qed.

(** The three ways a close changes the balance. *)
Lemma cash_hold (b : Q) : b == b + 0 + 0.
Proof. ring. Qed.
Lemma cash_long (b x p q : Q) : b + x * q == b + p * q + (x * q - p * q).
Proof. ring. Qed.
Lemma cash_short (b x p q : Q) : b - x * q == b + - (p * q) + (p * q - x * q).
Proof. ring. Qed.

Lemma cash_change capital bars m m' : book_change P bars m m' -> cash_inv capital m -> cash_inv capital m'.
Proof.
  intros [K1 K2 K3 K4|e d reason ct bal Ho Hcl Hc Hr Hn Hb|e cash bal Ho He Hca Hbal Hc Hr Hn Hb] [B1 B2 B3].
  - split; by rewrite ?K1, ?K3, ?K4.
  - specialize (B3 e Ho). rewrite Ho in B1. simpl in B1.
    assert (ct_EntryPrice ct = tr_Price e /\ ct_Quantity ct = tr_Quantity e /\
      bal == m_balance m + invested (Some e) + ct_PnL ct) as (E1 & E2 & E3).
    { unfold closeAtPrice, computePnL, exit_cash in Hcl. simpl in *.
      destruct (tr_Signal e); simpl in Hcl; injection Hcl as <- <-; simpl; (split_and!; [done | done | apply cash_hold || apply cash_long || apply cash_short]). }
    split.
    + rewrite Hc, Hn, Hb, E3, B1, profit_snoc. simpl. ring.
    + rewrite Hc. apply sized_snoc; [exact B2 |]. rewrite E1, E2. exact B3.
    + by rewrite Hn.
  - rewrite Ho in B1. simpl in B1. split.
    + rewrite Hc, Hn, Hb. simpl in Hca. injection Hca as <-. simpl.
      destruct (tr_Signal e); simpl in Hbal; injection Hbal as <-; rewrite B1; ring.
    + rewrite Hc. exact B2.
    + rewrite Hn, Hc. intros e' [= <-].
      destruct He as (bar & budget & q & _ & _ & _ & _ & _ & Hbu & Hq & Hqt & Hnz). rewrite Hqt in Hnz |- *.
      simpl in Hbu, Hq. injection Hbu as <-.
      destruct (Qeq_bool (tr_Price e) 0) eqn:Ez; [discriminate |]. injection Hq as <-.
      apply Qeq_bool_neq in Ez. split_and!; [exact Ez | | intros X; apply Qeq_alt in X; unfold d_is_zero in Hnz; simpl in X, Hnz; by rewrite X in Hnz].
      assert (m_balance m * 1 == capital + profit (m_closed m)) as Heq by (rewrite B1; ring).
      rewrite <- Heq. reflexivity.
Qed.

(** C14: the book-keeping of the simulation is sound: over exact arithmetic
    (no rounding, no overflow) every entry of a backtest that succeeds is sized
    from the equity at that moment, the configured capital times the configured
    leverage plus the profit of all the trades closed before it, through any
    sequence of longs and shorts.  Its quantity is the whole part of that
    equity over its price, never zero; so with a positive price and an equity
    that is not negative it is positive, costs at most the equity, and leaves
    less than the price of one more bond.  (With negative equity it is
    negative.) *)
Theorem breakout_entry_within_equity i o bars r l1 ct l2 :
  Run P i o bars = Ok r -> br_ClosedTrades r = l1 ++ ct :: l2 ->
  let equity := InitialBalance (bt_cfg P) * Leverage (bt_cfg P) + profit l1 in
  let price := ct_EntryPrice ct in
  let quantity := ct_Quantity ct in
  ~ price == 0 /\ quantity == inject_Z (Qfloor (equity / price)) /\ ~ quantity == 0 /\
  (0 < price -> 0 <= equity ->
     0 < quantity /\ price * quantity <= equity /\ equity < price * (quantity + 1)).
Proof.
  intros H Hl equity price quantity.
  assert (sized equity price quantity) as Hs.
  { apply Run_Ok in H as [[-> ->]|(cap & m0 & m & s & Hcap & H0 & Hf & Hc & _)]; [by destruct l1 |].
    simpl in Hcap. injection Hcap as <-. set (capital := InitialBalance (bt_cfg P) * Leverage (bt_cfg P)) in *.
    destruct (decide (bars = [])) as [->|Hne].
    { injection H0 as <-. injection Hf as <-. rewrite Hc in Hl. by destruct l1. }
    assert (cash_inv capital m0) as [_ B2 B3].
    { apply (replay_invariant P (cash_inv capital) bars bars 0 _ _ (cash_change capital bars) (fun b Hb => Hb) H0).
      split; simpl; [unfold profit; simpl; ring | by intros [] | done]. }
    rewrite Hc in Hl. apply force_close_Ok in Hf as [[Ho ->]|(e & d & pnl & Ho & _ & C1 & _ & _)]; [| | done].
    - by apply (B2 _ _ _ Hl).
    - rewrite C1 in Hl. refine (sized_snoc capital _ _ B2 _ _ _ _ Hl). by apply B3. }
  destruct Hs as (S1 & S2 & S3). split_and!; [done.. |]. by apply sized_cost.
Qed.
End CashTheory.

(** ** Theory: live and simulated exits *)

Section ExitTheory.
Context {D : DecimalOps} {L : DecimalLaws}.
Implicit Types (open : TradeRecord) (d : Decision) (price : dec).

(** A bar that traded at one price only. *)
Definition point_bar (t : Time) price : Bar := {|
  bar_Time := t; bar_Open := price; bar_High := price; bar_Low := price; bar_Close := price;
  bar_Volume := dzero; bar_OpenYTM := dzero; bar_HighYTM := dzero; bar_LowYTM := dzero;
  bar_CloseYTM := dzero; bar_BenchmarkYield := dzero |}.

Lemma exitPriceCrosses_level entry atr k price above : exitPriceCrosses entry atr k price above = true ->
  exists l, bandLevel entry atr k above = Some l /\ (if above then dval l <= dval price else dval price <= dval l)%Q.
Proof.
  unfold exitPriceCrosses. destruct (bandLevel _ _ _ _) as [l|]; [| done]. intros H. exists l. split; [done |].
  destruct above; [by apply d_ge_spec in H | by apply d_le_spec in H].
Qed.

(** A band without width starts at the entry. *)
Lemma bandLevel_zero entry atr k above : d_is_zero atr = true -> d_is_pos k = true ->
  exists l, bandLevel entry atr k above = Some l /\ (dval l == dval entry)%Q.
Proof.
  intros Ha Hk. apply d_is_zero_spec in Ha. unfold bandLevel. rewrite Hk. simpl.
  destruct (dmatch_zero _ _ (dmul_spec k atr)) as (x & -> & Hx); [rewrite Ha; lra |].
  destruct above.
  - destruct (dmatch_exact _ _ (dadd_spec entry x)) as (l & -> & El);
      [eapply representable_proper; [| apply (dval_repr entry)]; rewrite Hx; lra |]. exists l. split; [done |]. rewrite El, Hx. lra.
  - destruct (dmatch_exact _ _ (dsub_spec entry x)) as (l & -> & El);
      [eapply representable_proper; [| apply (dval_repr entry)]; rewrite Hx; lra |]. exists l. split; [done |]. rewrite El, Hx. lra.
Qed.

Lemma gap_fill_at sig l price : sig <> SignalHold -> 
  (match sig with SignalBuy => dval price <= dval l | _ => dval l <= dval price end)%Q ->
  (dval (breakoutStopFill sig l price) == dval price)%Q.
Proof.
  intros Hs H. pose proof (gap_stop_spec sig l price Hs) as G. change (gap_stop sig l price) with (breakoutStopFill sig l price) in G.
  destruct sig; [done | |]; rewrite G; [by apply Q.min_r | by apply Q.max_r].
Qed.

Lemma tp_fill_at sig l price : sig <> SignalHold ->
  (match sig with SignalBuy => dval l <= dval price | _ => dval price <= dval l end)%Q ->
  (dval (breakoutTPFill sig l price) == dval price)%Q.
Proof.
  intros Hs H. pose proof (gap_tp_spec sig l price Hs) as G. change (gap_tp sig l price) with (breakoutTPFill sig l price) in G.
  destruct sig; [done | |]; rewrite G; [by apply Q.max_r | by apply Q.min_r].
Qed.

(** The backtest is documented to use the same stop and take-profit test
    as the live loop.  On a bar that traded at one price, without a reversal,
    both decide alike and the simulated fill is that price, unless the ATR at
    entry was zero: then the live loop never exits, while the backtest stops
    the position out as soon as a bar touches the entry price. *)
Theorem breakout_exits_agree c open d t price :
  tr_Signal open <> SignalHold -> isReversal (tr_Signal open) (d_signal d) = false ->
  let live := liveCheckSLTP (tr_Signal open) (tr_Price open) (tr_EntryATR open) price c in
  let bar := exitForBar c open (point_bar t price) d in
  (d_is_zero (tr_EntryATR open) = false ->
     snd <$> bar = live /\ forall fill reason, bar = Some (fill, reason) -> (dval fill == dval price)%Q) /\
  (d_is_zero (tr_EntryATR open) = true ->
     live = None /\ (d_is_pos (StopLossATR c) = true -> (dval price == dval (tr_Price open))%Q ->
       snd <$> bar = Some ExitReasonStopLoss)).
Proof.
  intros Hs Hrev live bar. split; intros Hz.
  - unfold live, bar, liveCheckSLTP, exitForBar, isStopBandHit, isTPBandHit. rewrite Hz, Hrev.
    destruct (tr_Signal open) eqn:Esig; [done | |]; simpl.
    all: destruct (d_is_pos (StopLossATR c)); simpl;
      [destruct (exitPriceCrosses _ _ (StopLossATR c) _ _) eqn:E1; simpl |].
    all: try (destruct (d_is_pos (TakeProfitATR c)); simpl;
      [destruct (exitPriceCrosses _ _ (TakeProfitATR c) _ _) eqn:E2; simpl |]).
    all: split; try done.
    all: intros fill reason [= <- _].
    all: first [apply exitPriceCrosses_level in E2 as (l & -> & Hl) | apply exitPriceCrosses_level in E1 as (l & -> & Hl)]; simpl.
    all: try (by apply (gap_fill_at SignalBuy)); try (by apply (gap_fill_at SignalSell)).
    all: try (by apply (tp_fill_at SignalBuy)); try (by apply (tp_fill_at SignalSell)).
  - split; [unfold live, liveCheckSLTP; by rewrite Hz |]. intros Hk Hp.
    unfold bar, exitForBar, isStopBandHit, exitPriceCrosses. rewrite Hk. simpl.
    destruct (bandLevel_zero (tr_Price open) (tr_EntryATR open) (StopLossATR c)
      (bool_decide (tr_Signal open = SignalSell)) Hz Hk) as (l & -> & Hl).
    destruct (tr_Signal open); [done | |]; simpl.
    + assert (d_le price l = true) as -> by (apply d_le_spec; lra). done.
    + assert (d_ge price l = true) as -> by (apply d_ge_spec; lra). done.
Qed.
End ExitTheory.

(** ** Concrete runs and witnesses *)

Definition day_bar (day p : Z) : Bar (D := RefDec) := {|
  bar_Time := MkTime (day * Day) 0; bar_Open := RD p 0; bar_High := RD p 0; bar_Low := RD p 0; bar_Close := RD p 0;
  bar_Volume := RD 1 0; bar_OpenYTM := RD 0 0; bar_HighYTM := RD 0 0; bar_LowYTM := RD 0 0;
  bar_CloseYTM := RD 0 0; bar_BenchmarkYield := RD 0 0 |}.

Definition thousand : Config (D := RefDec) := {|
  ShortVolWindow := 2; LongVolWindow := 2; CompressionThreshold := RD 2 0; ATRWindow := 2;
  BreakoutATRMultiple := RD 5 1; ConfirmationBars := 1; StopLossATR := RD 0 0; TakeProfitATR := RD 0 0;
  MinLongVolFloor := RD 0 0; OBVTrendThreshold := RD 0 0; OBVWindow := 0; Resolution := "1d"; OrderBookID := "book";
  InitialBalance := RD 1000 0; Leverage := RD 1 0 |}.

Definition demo_params : Params (D := RefDec) := {|
  bt_cfg := thousand; bt_baseAssetID := "bond"; bt_ticks := []; bt_trades := [];
  bt_TradeFrom := zero_time; bt_TradeTo := zero_time; bt_cancelled := fun _ => false |}.

(** A short at 99, squeezed to 300, then a breakout at 400. *)
Definition squeeze : list (Bar (D := RefDec)) :=
  [day_bar 1 100; day_bar 2 100; day_bar 3 99; day_bar 4 300; day_bar 5 400].

Definition demo_result : BacktestResult (D := RefDec) :=
  get_ok zero_BacktestResult (Run demo_params (new_Ind thousand) (new_Obv thousand) squeeze).

Lemma bb_demo_run_ok : Run demo_params (new_Ind thousand) (new_Obv thousand) squeeze = Ok demo_result.
Proof. unfold demo_result. apply is_ok_get. vm_compute. reflexivity. Qed.

(** A loss on a short can exceed the balance, and nothing stops the next
    entry: its budget is negative and only a quantity of zero is skipped.  The
    short of ten loses 2010 of the 1000, and the following breakout buys minus
    three bonds. *)
Theorem breakout_negative_quantity :
  (fun t => (ct_Signal t, Qfloor (rval (ct_Quantity t)), Qfloor (rval (ct_PnL t)))) <$> br_ClosedTrades demo_result =
    [(SignalSell, 10, -2010); (SignalBuy, -3, 0)].
Proof. vm_compute. reflexivity. Qed.

Lemma breakout_backtest_trips_witness :
  exists trips : list (TradeRecord * option TradeRecord * ClosedTrade),
    length trips = 2%nat /\ br_TradeRecords demo_result = (trips ≫= fun t => t.1.1 :: option_list t.1.2).
Proof.
  destruct (breakout_backtest_trips demo_params (new_Ind thousand) (new_Obv thousand) squeeze demo_result bb_demo_run_ok)
    as (trips & Hr & Hc & _).
  exists trips. split; [| exact Hr]. rewrite <- (length_fmap snd trips), <- Hc. vm_compute. reflexivity.
Defined.

(** The same run over exact arithmetic. *)

Section ExactRun.
#[local] Existing Instance QDec.

Definition exact_bar (day : Z) (p : Q) : Bar (D := QDec) := {|
  bar_Time := MkTime (day * Day) 0; bar_Open := p; bar_High := p; bar_Low := p; bar_Close := p;
  bar_Volume := 1%Q; bar_OpenYTM := 0%Q; bar_HighYTM := 0%Q; bar_LowYTM := 0%Q;
  bar_CloseYTM := 0%Q; bar_BenchmarkYield := 0%Q |}.

Definition exact_thousand : Config (D := QDec) := {|
  ShortVolWindow := 2; LongVolWindow := 2; CompressionThreshold := 2%Q; ATRWindow := 2;
  BreakoutATRMultiple := (1 # 2)%Q; ConfirmationBars := 1; StopLossATR := 0%Q; TakeProfitATR := 0%Q;
  MinLongVolFloor := 0%Q; OBVTrendThreshold := 0%Q; OBVWindow := 0; Resolution := "1d"; OrderBookID := "book";
  InitialBalance := 1000%Q; Leverage := 1%Q |}.

Definition exact_params : Params (D := QDec) := {|
  bt_cfg := exact_thousand; bt_baseAssetID := "bond"; bt_ticks := []; bt_trades := [];
  bt_TradeFrom := zero_time; bt_TradeTo := zero_time; bt_cancelled := fun _ => false |}.

Definition exact_bars : list (Bar (D := QDec)) :=
  [exact_bar 1 100%Q; exact_bar 2 100%Q; exact_bar 3 99%Q; exact_bar 4 300%Q].

#[local] Abbreviation exact_outcome := (Run exact_params (new_Ind exact_thousand) (new_Obv exact_thousand) exact_bars).

Lemma exact_run : exists r ct, exact_outcome = Ok r /\ br_ClosedTrades r = [ct] /\ (0 < ct_EntryPrice ct)%Q.
Proof.
  assert (match exact_outcome with
    | Ok r => match br_ClosedTrades r with [ct] => negb (Qle_bool (ct_EntryPrice ct) 0) | _ => false end
    | Err _ => false end = true) as H by (vm_compute; reflexivity).
  destruct exact_outcome as [r|]; [| discriminate]. destruct (br_ClosedTrades r) as [|ct [|]] eqn:E; try discriminate.
  exists r, ct. split_and!; [done | done |]. apply negb_true_iff in H.
  destruct (Qlt_le_dec 0 (ct_EntryPrice ct)) as [Hp|Hp]; [exact Hp |]. apply Qle_bool_iff in Hp. congruence.
Qed.

Lemma breakout_entry_within_equity_witness :
  exists r ct, exact_outcome = Ok r /\ br_ClosedTrades r = [ct] /\ (0 < ct_Quantity ct)%Q /\
    (ct_EntryPrice ct * ct_Quantity ct <= 1000 * 1 + profit [])%Q.
Proof.
  destruct exact_run as (r & ct & Hr & Hc & Hp). exists r, ct. split; [exact Hr |]. split; [exact Hc |].
  destruct (breakout_entry_within_equity exact_params (new_Ind exact_thousand) (new_Obv exact_thousand) exact_bars
    r [] ct [] Hr Hc) as (_ & _ & _ & H).
  destruct (H Hp) as (H1 & H2 & _); [discriminate |]. split; [exact H1 | exact H2].
Defined.
End ExactRun.

(** A long entered at 100 with an ATR of 1, and the price 70. *)
Definition long_at (p a : Z) : TradeRecord (D := RefDec) := {|
  tr_Time := zero_time; tr_BondID := ""; tr_Signal := SignalBuy; tr_Price := RD p 0; tr_Quantity := RD 1 0;
  tr_PositionSize := RD 1 0; tr_CompressionRatio := RD 0 0; tr_EntryATR := RD a 0 |}.

Lemma breakout_exits_agree_witness :
  snd <$> exitForBar DefaultConfig (long_at 100 1) (point_bar zero_time (RD 70 0)) zero_Decision =
    liveCheckSLTP SignalBuy (RD 100 0) (RD 1 0) (RD 70 0) DefaultConfig /\
  liveCheckSLTP SignalBuy (RD 100 0) (RD 1 0) (RD 70 0) (DefaultConfig (D := RefDec)) = Some "stop_loss"%string.
Proof.
  split; [| vm_compute; reflexivity].
  destruct (breakout_exits_agree (D := RefDec) DefaultConfig (long_at 100 1) zero_Decision zero_time (RD 70 0))
    as [H _]; [discriminate | reflexivity |]. apply H. reflexivity.
Defined.
