(* ===== verification/MeanReversion.v ===== *)
(** * strategy/meanreversion: the yield-spread mean-reversion strategy, live

    Configuration and decisions ([types.go]); the z-score signal, the exits,
    sizing, balances, opening and closing positions, the benchmark yield and
    the live run ([strategy.go], [balances.go], [historical_data.go]); the
    trade-imbalance gate ([imbalance.go]).

    The strategy struct is split by use: the window that [Update] feeds, the
    imbalance window, the last stop-loss, the position, and the rest of the
    live state.  A logger is assumed to be configured.

    Theory: over exact arithmetic [Update] computes the textbook z-score of
    the new spread against the previous ones; what one event of the live loop
    may send; every event keeps the state well formed; two situations in which
    the strategy gives up or forgets a position. *)

From S2P Require Import Prelude GoTime Decimal RefDecimal Types Window Stats Market Replay Feed Fred.

Definition StrategyType : string := "mean_reversion".
Definition ExitReasonTakeProfit : string := "take_profit".
Definition ExitReasonStopLoss : string := "stop_loss".
Definition ExitReasonForceClose : string := "force_close".
Definition DecisionReasonWarmingUp : string := "warming_up".
Definition DecisionReasonZEntry : string := "z_score_entry".

Section MeanReversion.
Context {D : DecimalOps}.

Record Config := {
  LookbackWindow : Z;
  Resolution : string;
  EntryZScore : dec;
  ExitZScore : dec;
  StopLossZScore : dec;
  MinStdDev : dec;
  MaxPositionSize : dec;
  OrderBookID : string;
  CfgTenor : string;
  InitialBalance : dec;
  Leverage : dec;
  ImbalanceWindow : Z;
  ImbalanceThreshold : dec;
}.

Definition DefaultConfig : Config := {|
  LookbackWindow := 24; Resolution := "1h"; EntryZScore := dnew 2 0; ExitZScore := dnew 5 1;
  StopLossZScore := dnew 35 1; MinStdDev := dnew 5 4; MaxPositionSize := done1; OrderBookID := "";
  CfgTenor := ""; InitialBalance := done1; Leverage := done1; ImbalanceWindow := 100;
  ImbalanceThreshold := dzero |}.

Record Decision := MkDecision {
  d_time : Time;
  d_bondID : string;
  d_YTM : dec;
  d_BenchmarkYield : dec;
  d_Spread : dec;
  d_RollingMean : dec;
  d_RollingStdDev : dec;
  d_ZScore : dec;
  d_price : dec;
  d_signal : Signal;
  d_positionSize : dec;
  d_reason : string;
}.

(** ** State *)

(** What [Update] reads and writes. *)
Record Ind := MkInd { window : Rolling; lastPrice : dec }.

(** The last stop-loss. *)
Record StopTrigger := MkStop { lastStopZ : dec; lastStopPnL : dec; lastStopTriggered : bool }.

Record Pos := MkPos { bondQty : dec; usdBal : dec; openSignal : Signal; balancesInitialized : bool }.

Record Live := MkLive {
  baseAssetID : string;
  collateralWeight : dec;
  benchmarkObservations : list Observation;
  runID : string;
  isRunning : bool;
  paused : bool;
  cancelled : bool;
  decisionSeq : Z;
  errs : list error;
}.

Definition set_Config (resolution : string) (balance leverage : dec) (c : Config) : Config := {|
  LookbackWindow := LookbackWindow c; Resolution := resolution; EntryZScore := EntryZScore c;
  ExitZScore := ExitZScore c; StopLossZScore := StopLossZScore c; MinStdDev := MinStdDev c;
  MaxPositionSize := MaxPositionSize c; OrderBookID := OrderBookID c; CfgTenor := CfgTenor c;
  InitialBalance := balance; Leverage := leverage; ImbalanceWindow := ImbalanceWindow c;
  ImbalanceThreshold := ImbalanceThreshold c |}.

Definition set_InitialBalance (v : dec) (c : Config) : Config := set_Config (Resolution c) v (Leverage c) c.

(** The defaults [New] fills in. *)
Definition new_Config (c : Config) : Config :=
  set_Config (if bool_decide (Resolution c = ""%string) then "1h" else Resolution c) (InitialBalance c)
    (if d_is_zero (Leverage c) then done1 else Leverage c) c.

Definition new_Ind (c : Config) : Ind := MkInd (NewRollingWindow (LookbackWindow c)) dzero.
Definition new_imbWin (c : Config) : option Rolling :=
  if 0 <? ImbalanceWindow c then Some (NewRollingWindow (ImbalanceWindow c)) else None.
Definition zero_Stop : StopTrigger := MkStop dzero dzero false.
Definition zero_Pos : Pos := MkPos dzero dzero SignalHold false.
Definition zero_Live : Live := MkLive "" done1 [] uuid_nil false false false 0 [].

(** ** The signal *)

Definition on_window (m : SE Rolling unit) : SE Ind unit := fun i =>
  let '(r, w) := m (window i) in (r, MkInd w (lastPrice i)).
Definition set_lastPrice (p : dec) (i : Ind) : Ind := MkInd (window i) p.

(** The score of a spread against mean and deviation. *)
Definition score (spread mean stdDev : dec) : result dec :=
  num ← dsub spread mean; dquo num stdDev.

Definition entrySignal (c : Config) (zScore : dec) : Signal :=
  if d_ge zScore (EntryZScore c) then SignalBuy
  else if d_le zScore (dneg (EntryZScore c)) then SignalSell
  else SignalHold.

(** The fraction of capital: the excess of the score over the threshold. *)
Definition entrySize (c : Config) (sig : Signal) (zScore : dec) : result dec :=
  match sig with
  | SignalHold => Ok dzero
  | _ =>
      excess ← dsub (dabs zScore) (EntryZScore c);
      size ← dquo excess (EntryZScore c);
      Ok (if d_gt size (MaxPositionSize c) then MaxPositionSize c else size)
  end.

Definition Update (c : Config) (assetID : string) (bar : Bar) : SE Ind Decision :=
  _ ← modify (set_lastPrice (bar_Close bar));
  spread ← lift (wrap_err "compute spread" (dsub (bar_CloseYTM bar) (bar_BenchmarkYield bar)));
  w ← gets window;
  stdDev ← lift (StdDev w);
  zScore ← lift (if Ready w && d_ge stdDev (MinStdDev c) then score spread (Mean w) stdDev else Ok dzero);
  _ ← on_window (Add spread);
  let sig := entrySignal c zScore in
  size ← lift (entrySize c sig zScore);
  mret (MkDecision (bar_Time bar) assetID (bar_CloseYTM bar) (bar_BenchmarkYield bar) spread (Mean w) stdDev
          zScore (bar_Close bar) sig size
          (if bool_decide (sig = SignalHold) then DecisionReasonWarmingUp else DecisionReasonZEntry)).

(** [zAgainstWindow]; [None] is [ok = false]. *)
Definition zAgainstWindow (c : Config) (w : Rolling) (spread : dec) : option dec :=
  if negb (Ready w) then None
  else match StdDev w with
       | Err _ => None
       | Ok stdDev =>
           if d_lt stdDev (MinStdDev c) then None
           else match score spread (Mean w) stdDev with Ok z => Some z | Err _ => None end
       end.

Definition intrabarZ (c : Config) (w : Rolling) (ytm bench : dec) : option dec :=
  match dsub ytm bench with Err _ => None | Ok spread => zAgainstWindow c w spread end.

Definition recordStopLoss (zScore pnl : dec) (st : StopTrigger) : StopTrigger := MkStop zScore pnl true.

Definition LastStopLossTrigger (st : StopTrigger) : dec * dec * bool :=
  (lastStopZ st, lastStopPnL st, lastStopTriggered st).

(** [ShouldExit]: the reason, if any; a stop-loss is remembered. *)
Definition ShouldExit (c : Config) (openSig : Signal) (z : dec) : ST StopTrigger (option string) := fun st =>
  let profit := match openSig with
    | SignalBuy => d_le z (ExitZScore c)
    | SignalSell => d_ge z (dneg (ExitZScore c))
    | SignalHold => false end in
  if profit then (Some ExitReasonTakeProfit, st)
  else if d_is_pos (StopLossZScore c) then
    let stop := match openSig with
      | SignalBuy => d_ge z (StopLossZScore c)
      | SignalSell => d_le z (dneg (StopLossZScore c))
      | SignalHold => false end in
    if stop then (Some ExitReasonStopLoss, recordStopLoss z dzero st) else (None, st)
  else (None, st).

(** ** The imbalance gate *)

(** [streams.TradeEvent], the fields read *)
Record TradeEvent := { te_Quantity : dec; te_Side : string }.

Definition applyTrade (ev : TradeEvent) (imb : option Rolling) : option Rolling :=
  match imb with
  | None => None
  | Some w =>
      if bool_decide (te_Side ev = "BUY"%string) then Some (Add (te_Quantity ev) w).2
      else if bool_decide (te_Side ev = "SELL"%string) then Some (Add (dneg (te_Quantity ev)) w).2
      else Some w
  end.

(** [netImbalance]; [None] is [ok = false]. *)
Definition netImbalance (imb : option Rolling) : option dec :=
  match imb with
  | Some w => if Ready w then Some (Sum w) else None
  | None => None
  end.

Definition imbalanceAllows (c : Config) (imb : option Rolling) (sig : Signal) : bool :=
  if ImbalanceWindow c <=? 0 then true
  else match netImbalance imb with
       | None => true
       | Some net =>
           match sig with
           | SignalBuy => d_ge net (dneg (ImbalanceThreshold c))
           | SignalSell => d_le net (ImbalanceThreshold c)
           | SignalHold => true
           end
       end.

(** ** Sizing *)

(** [Ok None] is [ok = false]: skip the order. *)
Definition cappedOrderQuantity (c : Config) (weight positionSize currentPosition price : dec) : result (option dec) :=
  if d_is_neg positionSize then Err (ErrMsg "position size must be non-negative") else
  if d_is_zero price then Err (ErrMsg "price must be non-zero") else
  let held := if d_is_neg currentPosition then dzero else currentPosition in
  e0 ← wrap_err "calculate effective capital (collateral)" (dmul (InitialBalance c) weight);
  effectiveCapital ← wrap_err "calculate effective capital (leverage)" (dmul e0 (Leverage c));
  budget ← wrap_err "calculate budget" (dmul effectiveCapital positionSize);
  if negb (d_is_pos budget) then Ok None else
  positionValue ← wrap_err "calculate position value" (dmul held price);
  if d_ge positionValue effectiveCapital then Ok None else
  remainingBudget ← wrap_err "calculate remaining budget" (dsub effectiveCapital positionValue);
  let budget := if d_gt budget remainingBudget then remainingBudget else budget in
  q ← wrap_err "calculate quantity from budget" (dquo budget price);
  let quantity := dfloor q in
  if d_is_zero quantity then Ok None else Ok (Some quantity).

(** ** The live strategy *)

Context {W : Type} (E : Env W).

(** What a run finds configured: the FRED client, the candle store's range,
    the price subscription, the candle feed and its subscription. *)
Record Wiring := {
  FetchHistoricalYields : option (Tenor -> Time -> Time -> W -> result (list Observation) * W);
  CandleRange : option (string -> W -> result (option Time * option Time) * W);
  SubscribePrices : result unit;
  SubscribeBars : option (result unit);
}.
Context (C : Wiring).

Record Strategy := MkStrategy {
  s_cfg : Config; s_ind : Ind; s_imb : option Rolling; s_stop : StopTrigger; s_pos : Pos; s_live : Live;
  s_sys : Sys W }.

Definition with_cfg (c : Config) (s : Strategy) : Strategy :=
  MkStrategy c (s_ind s) (s_imb s) (s_stop s) (s_pos s) (s_live s) (s_sys s).
Definition with_ind (i : Ind) (s : Strategy) : Strategy :=
  MkStrategy (s_cfg s) i (s_imb s) (s_stop s) (s_pos s) (s_live s) (s_sys s).
Definition with_imb (w : option Rolling) (s : Strategy) : Strategy :=
  MkStrategy (s_cfg s) (s_ind s) w (s_stop s) (s_pos s) (s_live s) (s_sys s).
Definition with_stop (st : StopTrigger) (s : Strategy) : Strategy :=
  MkStrategy (s_cfg s) (s_ind s) (s_imb s) st (s_pos s) (s_live s) (s_sys s).
Definition upd_pos (f : Pos -> Pos) (s : Strategy) : Strategy :=
  MkStrategy (s_cfg s) (s_ind s) (s_imb s) (s_stop s) (f (s_pos s)) (s_live s) (s_sys s).
Definition upd_live (f : Live -> Live) (s : Strategy) : Strategy :=
  MkStrategy (s_cfg s) (s_ind s) (s_imb s) (s_stop s) (s_pos s) (f (s_live s)) (s_sys s).
Definition with_sys (y : Sys W) (s : Strategy) : Strategy :=
  MkStrategy (s_cfg s) (s_ind s) (s_imb s) (s_stop s) (s_pos s) (s_live s) y.

(** Run a call of the environment from a method. *)
Definition call {A} (m : ST (Sys W) A) : ST Strategy A := fun s =>
  let '(a, y) := m (s_sys s) in (a, with_sys y s).

Definition recordErr (e : error) : Strategy -> Strategy := upd_live (fun l =>
  MkLive (baseAssetID l) (collateralWeight l) (benchmarkObservations l) (runID l) (isRunning l) (paused l)
    (cancelled l) (decisionSeq l) (errs l ++ [e])).
Definition SetDecisionSeq (seq : Z) : Strategy -> Strategy := upd_live (fun l =>
  MkLive (baseAssetID l) (collateralWeight l) (benchmarkObservations l) (runID l) (isRunning l) (paused l)
    (cancelled l) seq (errs l)).
Definition set_run (id : string) (running : bool) : Strategy -> Strategy := upd_live (fun l =>
  MkLive (baseAssetID l) (collateralWeight l) (benchmarkObservations l) id running (paused l)
    (cancelled l) (decisionSeq l) (errs l)).
Definition set_asset (a : string) (w : dec) : Strategy -> Strategy := upd_live (fun l =>
  MkLive a w (benchmarkObservations l) (runID l) (isRunning l) (paused l) (cancelled l) (decisionSeq l) (errs l)).
Definition set_control (p c : bool) : Strategy -> Strategy := upd_live (fun l =>
  MkLive (baseAssetID l) (collateralWeight l) (benchmarkObservations l) (runID l) (isRunning l) p c
    (decisionSeq l) (errs l)).
Definition set_bench (obs : list Observation) : Strategy -> Strategy := upd_live (fun l =>
  MkLive (baseAssetID l) (collateralWeight l) obs (runID l) (isRunning l) (paused l) (cancelled l)
    (decisionSeq l) (errs l)).

(** [New], on a fresh system *)
Definition New (c : Config) (y : Sys W) : Strategy :=
  MkStrategy (new_Config c) (new_Ind (new_Config c)) (new_imbWin (new_Config c)) zero_Stop zero_Pos zero_Live y.

(** [recordDecision]: run, sequence number, type and time are filled in. *)
Definition recordDecision (mk : string -> Z -> Time -> DecisionRow) (s : Strategy) : Strategy :=
  match Records E with
  | None => s
  | Some save =>
      let seq := wrap64 (decisionSeq (s_live s) + 1) in
      let s1 := SetDecisionSeq seq s in
      let '(now, s2) := call (time_now E) s1 in
      let d := mk (runID (s_live s)) seq now in
      let '(_, s3) := call (invoke (save d) (fun _ => [CallSaveDecision d])) s2 in s3
  end.

(** *** Positions *)

Definition currentPosition (assetID : string) : ST Strategy (result dec) := fun s =>
  if bool_decide (TrimSpace (chars assetID) = []) then (Err (ErrMsg "asset ID is required"), s)
  else
    let '(r, s1) := call (quiet (AssetPosition E assetID)) s in
    (result_map (fun '(long, short) =>
       if d_is_zero long && d_is_zero short then dzero
       else if d_is_zero short then long
       else dneg short) r, s1).

(** The tracked position, or the one DORA reports. *)
Definition tracked_or_live (assetID : string) : ST Strategy (result dec) := fun s =>
  if balancesInitialized (s_pos s) then (Ok (bondQty (s_pos s)), s) else currentPosition assetID s.

(** A market order under a fresh client order id. *)
Definition submit (side : Side) (quantity inverseLeverage : dec) : ST Strategy (string * result string) := fun s =>
  let '(clientOrderID, s1) := call (BuildClientOrderID E StrategyType (runID (s_live s))) s in
  let '(res, s2) := call (create_market_order E {|
    or_OrderBookID := OrderBookID (s_cfg s); or_Side := side; or_Quantity := quantity;
    or_InverseLeverage := inverseLeverage; or_FromGlobalPosition := false;
    or_ClientOrderID := clientOrderID |}) s1 in
  ((clientOrderID, res), s2).

(** The row of an accepted order. *)
Definition order_row (c : Config) (assetID : string) (side : Side) (signal : Signal)
    (quantity price inverseLeverage : dec) (kind reason clientOrderID run : string) (seq : Z) (now : Time) : DecisionRow := {|
  dr_RunID := run; dr_Seq := seq; dr_StrategyType := StrategyType; dr_OrderBookID := OrderBookID c;
  dr_Asset := MustParseUUID E assetID; dr_Side := Side_string side; dr_Signal := Signal_String signal;
  dr_Quantity := quantity; dr_Price := price; dr_Leverage := Leverage c; dr_InverseLeverage := inverseLeverage;
  dr_FromGlobalPosition := false; dr_Kind := kind; dr_Reason := reason; dr_CreatedAt := now;
  dr_ClientOrderID := clientOrderID |}.

(** The position after a close. *)
Definition flat_pos (useTracked : bool) (p : Pos) : Pos :=
  MkPos (if useTracked then dzero else bondQty p) (usdBal p) SignalHold (balancesInitialized p).

Definition closePosition (assetID : string) : ST Strategy (result unit) := fun s =>
  let useTracked := balancesInitialized (s_pos s) in
  let '(q, s1) := tracked_or_live assetID s in
  match q with
  | Err e => (Err e, s1)
  | Ok qty =>
      if d_is_zero qty then (Ok tt, upd_pos (flat_pos useTracked) s1) else
      let side := if d_is_neg qty then SIDE_BUY else SIDE_SELL in
      let closeQty := if d_is_neg qty then dneg qty else qty in
      let inverseLeverage := or_zero done1 (dquo done1 (Leverage (s_cfg s1))) in
      let '((clientOrderID, res), s2) := submit side closeQty inverseLeverage s1 in
      match res with
      | Err err =>
          let '(live, s3) := currentPosition assetID s2 in
          match live with
          | Ok liveQty => if d_is_zero liveQty then (Ok tt, upd_pos (flat_pos useTracked) s3) else (Err err, s3)
          | Err _ => (Err err, s3)
          end
      | Ok _ =>
          let closeSignal := match side with SIDE_BUY => SignalBuy | SIDE_SELL => SignalSell end in
          let s3 := recordDecision (order_row (s_cfg s) assetID side closeSignal closeQty (lastPrice (s_ind s2))
                      inverseLeverage DecisionKindClose "z_score_exit" clientOrderID) s2 in
          (Ok tt, upd_pos (flat_pos useTracked) s3)
      end
  end.

(** Tracked balances after an order. *)
Definition opened (side : Side) (sig : Signal) (quantity price : dec) (p : Pos) : Pos :=
  if balancesInitialized p then
    let value := d_or_zero (dmul quantity price) in
    let qty := match side with
      | SIDE_BUY => d_or_zero (dadd (bondQty p) quantity) | SIDE_SELL => d_or_zero (dsub (bondQty p) quantity) end in
    let usd := match side with
      | SIDE_BUY => d_or_zero (dsub (usdBal p) value) | SIDE_SELL => d_or_zero (dadd (usdBal p) value) end in
    MkPos qty usd (signalFromBondQty qty) true
  else MkPos (bondQty p) (usdBal p) sig false.

Definition order_side (sig : Signal) : Side := if bool_decide (sig = SignalSell) then SIDE_SELL else SIDE_BUY.

Definition executeDecision (d : Decision) (assetID : string) : ST Strategy (result bool) := fun s =>
  if bool_decide (d_signal d = SignalHold) then (Ok false, s) else
  let '(q, s1) := tracked_or_live assetID s in
  match q with
  | Err e => (Err e, s1)
  | Ok position =>
      let price := d_price d in
      if d_is_zero price then (Err (ErrMsg "cannot execute decision: price is zero"), s1) else
      match cappedOrderQuantity (s_cfg s1) (collateralWeight (s_live s1)) (d_positionSize d) position price with
      | Err e => (Err e, s1)
      | Ok None => (Ok false, s1)
      | Ok (Some quantity) =>
          if d_is_zero quantity then (Ok false, s1) else
          let side := order_side (d_signal d) in
          match wrap_err "compute inverse leverage" (dquo done1 (Leverage (s_cfg s1))) with
          | Err e => (Err e, s1)
          | Ok inverseLeverage =>
              let '((clientOrderID, res), s2) := submit side quantity inverseLeverage s1 in
              match res with
              | Err e => (Err e, s2)
              | Ok _ =>
                  let s3 := recordDecision (order_row (s_cfg s) assetID side (d_signal d) quantity price
                              inverseLeverage DecisionKindOpen "z_score_entry" clientOrderID) s2 in
                  (Ok true, upd_pos (opened side (d_signal d) quantity price) s3)
              end
          end
      end
  end.

(** *** Balances at start *)

(** [initializeBalancesFromPortfolio] *)
Definition initializeBalancesFromPortfolio (accounts : Accounts) (baseID quoteID : string) (fromGlobal : bool)
    (s : Strategy) : Strategy :=
  match InitialBalancesFromPortfolio accounts fromGlobal baseID quoteID with
  | Err e => recordErr (ErrWrap "initialise balances" e) s
  | Ok None => s
  | Ok (Some (bal, signal)) =>
      let s1 := if d_is_zero (USD bal) then s else with_cfg (set_InitialBalance (USD bal) (s_cfg s)) s in
      upd_pos (fun p => MkPos (Bond bal) (USD bal) signal (balancesInitialized p)) s1
  end.

Definition mark_initialized (p : Pos) : Pos := MkPos (bondQty p) (usdBal p) (openSignal p) true.

Definition initializeBalances (baseID : string) (s : Strategy) : Strategy :=
  let '(quote, s1) := call (quiet (QuoteAssetID E (OrderBookID (s_cfg s)))) s in
  match quote with
  | Err e => recordErr (ErrWrap "initialise balances: get quote asset" e) s1
  | Ok quoteID =>
      let '(portfolio, s2) := call (quiet (GetPortfolioV2 E)) s1 in
      match portfolio with
      | Ok (Some accounts) => upd_pos mark_initialized (initializeBalancesFromPortfolio accounts baseID quoteID false s2)
      | _ =>
          let '(bond, s3) := call (quiet (AssetPosition E baseID)) s2 in
          let s4 := match bond with
            | Err e => recordErr (ErrWrap "initialise balances: get bond position" e) s3
            | Ok (available, borrowed) =>
                upd_pos (fun p => MkPos (if d_is_zero borrowed then available else dneg borrowed) (usdBal p)
                                    (openSignal p) (balancesInitialized p)) s3
            end in
          let '(usd, s5) := call (quiet (AssetPosition E quoteID)) s4 in
          let s6 := match usd with
            | Err e => recordErr (ErrWrap "initialise balances: get USD balance" e) s5
            | Ok (available, _) =>
                let s' := upd_pos (fun p => MkPos (bondQty p) available (openSignal p) (balancesInitialized p)) s5 in
                if d_is_zero available then s' else with_cfg (set_InitialBalance available (s_cfg s')) s'
            end in
          upd_pos (fun p => MkPos (bondQty p) (usdBal p) (signalFromBondQty (bondQty p)) true) s6
      end
  end.

(** *** The benchmark *)

Definition setBenchmarkObservations (obs : list Observation) : Strategy -> Strategy :=
  set_bench (Fred.setBenchmarkObservations obs).

(** [cachedBenchmarkYield]: yield and date; [None] is [ok = false]. *)
Definition cachedBenchmarkYield (ts : Time) (s : Strategy) : option (dec * Time) :=
  (fun o => (ob_Yield o, ob_Date o)) <$> cachedObservation (benchmarkObservations (s_live s)) ts.

Definition mergeBenchmarkObservations (obs : list Observation) (s : Strategy) : Strategy :=
  set_bench (Fred.mergeBenchmarkObservations (benchmarkObservations (s_live s)) obs) s.

Definition getBenchmarkYield (ts : Time) : ST Strategy dec := fun s =>
  let normedTS := NormalizeDate ts in
  let cached := cachedBenchmarkYield ts s in
  let stale := default dzero (fst <$> cached) in
  if match cached with Some (_, date) => negb (time_before date normedTS) | None => false end then (stale, s) else
  match ParseBenchmarkTenor (CfgTenor (s_cfg s)) with
  | Err e => (stale, recordErr (ErrWrap "get benchmark yield: parse tenor" e) s)
  | Ok tenor =>
      match FetchHistoricalYields C with
      | None => (stale, recordErr (ErrWrap "get benchmark yield: get client"
                   (ErrMsg "benchmark yield client is not configured")) s)
      | Some fetch =>
          let start := time_add normedTS (- (10 * Day)) in
          let '(obs, s1) := call (quiet (fetch tenor start normedTS)) s in
          match obs with
          | Err e => (stale, recordErr (ErrWrap "get benchmark yield: fred fetch" e) s1)
          | Ok [] => (stale, s1)
          | Ok obs =>
              let s2 := mergeBenchmarkObservations obs s1 in
              (default dzero (fst <$> cachedBenchmarkYield ts s2), s2)
          end
      end
  end.

(** *** The loop *)

Inductive Event :=
  | EvCtxDone
  | EvMessage (m : Message)
  | EvBar (bar : Bar)
  | EvPrices (pxs : list AssetPrice)   (* in the order the map is iterated *)
  | EvTrade (ev : TradeEvent)
  | EvTradesClosed                     (* the channel becomes nil: no trade follows *)
  | EvTicker.

Definition note_result {A} (r : result A) (s : Strategy) : Strategy :=
  match r with Ok _ => s | Err e => recordErr e s end.

(** An exit check on the live strategy, and the close it asks for. *)
Definition exit_if (assetID : string) (openSig : Signal) (z : dec) (s : Strategy) : Strategy :=
  let '(reason, st) := ShouldExit (s_cfg s) openSig z (s_stop s) in
  let s1 := with_stop st s in
  match reason with
  | Some _ => let '(r, s2) := closePosition assetID s1 in note_result r s2
  | None => s1
  end.

Definition on_bar (assetID : string) (bar : Bar) (s : Strategy) : Strategy :=
  let '(bench, s0) := getBenchmarkYield (time_add (bar_Time bar) (ResolutionDuration (Resolution (s_cfg s)))) s in
  let windowReadyBeforeUpdate := Ready (window (s_ind s0)) in
  let '(r, ind) := Update (s_cfg s0) (baseAssetID (s_live s0)) (set_BenchmarkYield bench bar) (s_ind s0) in
  let s1 := with_ind ind s0 in
  match r with
  | Err _ => s1
  | Ok decision =>
      if paused (s_live s1) then s1 else
      let currentOpenSignal := openSignal (s_pos s1) in
      if negb (bool_decide (currentOpenSignal = SignalHold)) then
        if windowReadyBeforeUpdate then exit_if assetID currentOpenSignal (d_ZScore decision) s1 else s1
      else if bool_decide (d_signal decision = SignalHold) then s1
      else if negb (imbalanceAllows (s_cfg s1) (s_imb s1) (d_signal decision)) then s1
      else let '(r2, s2) := executeDecision decision assetID s1 in note_result r2 s2
  end.

(** One price of a tick batch. *)
Definition on_price (assetID : string) (s : Strategy) (px : AssetPrice) : Strategy :=
  match px_YTM px with
  | None => s
  | Some ytm =>
      if negb (bool_decide (px_AssetID px = assetID)) then s else
      let '(bench, s0) := getBenchmarkYield (px_Time px) s in
      let s1 := with_ind (set_lastPrice (px_Price px) (s_ind s0)) s0 in
      let open := openSignal (s_pos s1) in
      if paused (s_live s1) || bool_decide (open = SignalHold) then s1 else
      match intrabarZ (s_cfg s1) (window (s_ind s1)) ytm bench with
      | Some z => exit_if assetID open z s1
      | None => s1
      end
  end.

Definition handleMessage (m : Message) (s : Strategy) : Strategy :=
  match m with
  | Pause => set_control true (cancelled (s_live s)) s
  | Resume => set_control false (cancelled (s_live s)) s
  | Stop => set_control (paused (s_live s)) true s
  end.

(** One iteration of the [select]; [None] leaves the loop. *)
Definition loop_step (assetID : string) (ev : Event) (s : Strategy) : option Strategy :=
  match ev with
  | EvCtxDone => None
  | EvMessage m => Some (handleMessage m s)
  | EvBar bar => Some (on_bar assetID bar s)
  | EvPrices pxs => Some (foldl (on_price assetID) s pxs)
  | EvTrade ev => Some (with_imb (applyTrade ev (s_imb s)) s)
  | EvTradesClosed | EvTicker => Some s
  end.

Fixpoint run_events (assetID : string) (evs : list Event) (s : Strategy) : Strategy :=
  match evs with
  | [] => s
  | ev :: rest => match loop_step assetID ev s with None => s | Some s' => run_events assetID rest s' end
  end.

(** [requireCandleCoverage]: best effort, unless the book has no candles. *)
Definition requireCandleCoverage (s : Strategy) : result unit * Strategy :=
  match CandleRange C with
  | None => (Ok tt, s)
  | Some range =>
      let '(r, s1) := call (quiet (range (OrderBookID (s_cfg s)))) s in
      match r with
      | Ok (None, None) => (Err (ErrMsg "no candle data for order book"), s1)
      | _ => (Ok tt, s1)
      end
  end.

(** [run] up to the loop. *)
Definition run_setup (s : Strategy) : result string * Strategy :=
  let '(asset, s1) := call (LookupAssetID E (OrderBookID (s_cfg s))) s in
  match asset with
  | Err e => (Err (ErrWrap "error looking up asset ID" e), s1)
  | Ok assetID =>
      let s2 := set_asset assetID (collateralWeight (s_live s1)) s1 in
      let '(w, s3) := call (quiet (AssetCollateralWeight E assetID)) s2 in
      let s4 := match w with Err _ => s3 | Ok weight => set_asset assetID weight s3 end in
      match SubscribeBars C with
      | None => (Err (ErrMsg "candle feed not configured"), s4)
      | Some sub =>
          match ParseBenchmarkTenor (CfgTenor (s_cfg s4)) with
          | Err e => (Err (ErrWrap "tenor is required for mean_reversion" e), s4)
          | Ok _ =>
              let '(cov, s5) := requireCandleCoverage s4 in
              match cov, sub with
              | Err e, _ => (Err e, s5)
              | Ok _, Err e => (Err (ErrWrap "failed to subscribe to bars" e), s5)
              | Ok _, Ok _ => (Ok assetID, initializeBalances assetID s5)
              end
          end
      end
  end.

(** [run]; [isRunning] is cleared on the way out. *)
Definition run (evs : list Event) (s : Strategy) : result unit * Strategy :=
  let '(r, s1) := run_setup s in
  let s2 := match r with Ok assetID => run_events assetID evs s1 | Err _ => s1 end in
  (result_map (fun _ => tt) r, set_run (runID (s_live s2)) false s2).

(** [Run], for a configured market client *)
Definition Run (id : string) (evs : list Event) (s : Strategy) : result unit * Strategy :=
  let s0 := set_run id (isRunning (s_live s)) s in
  if isRunning (s_live s) then (Err (ErrMsg "strategy is already running"), s0) else
  match SubscribePrices C with
  | Err e => (Err (ErrWrap "failed to subscribe to prices" e), s0)
  | Ok _ => run evs (set_run id true s0)
  end.
End MeanReversion.

(** ** Theory: the live strategy *)

Section LiveTheory.
Context {D : DecimalOps} {L : DecimalLaws} {W : Type} (E : Env W) (C : Wiring (W := W)).
Implicit Types (s : Strategy (W := W)) (p : Pos) (o : OrderRequest).

Definition orders s : list OrderRequest := orders_sent (sy_calls (s_sys s)).

(** What reading the environment and keeping logs leaves alone. *)
Record frame s s' : Prop := {
  fr_cfg : s_cfg s' = s_cfg s;
  fr_ind : s_ind s' = s_ind s;
  fr_imb : s_imb s' = s_imb s;
  fr_stop : s_stop s' = s_stop s;
  fr_pos : s_pos s' = s_pos s;
  fr_paused : paused (s_live s') = paused (s_live s);
  fr_orders : orders s' = orders s;
}.

#[export] Instance mr_frame_preorder : PreOrder frame.
Proof. split; [done |]. intros s1 s2 s3 [] []. split; congruence. Qed.

Lemma mr_frame_sys {A} (m : ST (Sys W) A) s :
  orders_sent (sy_calls (m (s_sys s)).2) = orders_sent (sy_calls (s_sys s)) -> frame s (call m s).2.
Proof. intros H. unfold call. destruct (m (s_sys s)) as [a y]. by split. Qed.

Lemma mr_frame_quiet {A} (op : W -> A * W) s : frame s (call (quiet op) s).2.
Proof. apply mr_frame_sys. by rewrite quiet_calls. Qed.

Lemma mr_frame_live f s : paused (f (s_live s)) = paused (s_live s) -> frame s (upd_live f s).
Proof. intros H. by split. Qed.

Lemma mr_frame_recordErr e s : frame s (recordErr e s).
Proof. by apply mr_frame_live. Qed.

Lemma mr_frame_recordDecision mk s : frame s (recordDecision E mk s).
Proof.
  unfold recordDecision. destruct (Records E) as [save|]; [| done]. simpl.
  unfold call, time_now, quiet, invoke. simpl.
  destruct (Now E _) as [t w]. simpl. destruct (save _ w) as [r w']. simpl.
  split; try done. unfold orders; simpl. by rewrite app_nil_r, orders_sent_app, app_nil_r.
Qed.

Lemma mr_frame_currentPosition a s : frame s (currentPosition E a s).2.
Proof.
  unfold currentPosition. case_bool_decide; [done |].
  pose proof (mr_frame_quiet (AssetPosition E a) s) as H1. by destruct (call _ s).
Qed.

Lemma mr_frame_tracked a s : frame s (tracked_or_live E a s).2.
Proof. unfold tracked_or_live. destruct (balancesInitialized _); [done | apply mr_frame_currentPosition]. Qed.

Lemma mr_frame_getBenchmarkYield ts s : frame s (getBenchmarkYield C ts s).2.
Proof.
  unfold getBenchmarkYield.
  match goal with |- context [if ?b then _ else _] => destruct b end; [done |].
  destruct (ParseBenchmarkTenor _) as [tenor|e]; simpl; [| by split].
  destruct (FetchHistoricalYields C) as [fetch|]; simpl; [| by split].
  pose proof (mr_frame_quiet (fetch tenor (time_add (NormalizeDate ts) (-(10 * Day))) (NormalizeDate ts)) s) as H1.
  destruct (call _ s) as [[[|ob obs]|e] s1]; simpl in *; (etransitivity; [exact H1 |]); by split.
Qed.

Lemma note_result_frame' {A} (r : result A) s : frame s (note_result r s).
Proof. by destruct r; [| apply mr_frame_recordErr]. Qed.

(** Submitting sends exactly the order and touches nothing else. *)
Lemma submit_spec side q inv s :
  let s' := (submit E side q inv s).2 in
  (s_cfg s' = s_cfg s /\ s_ind s' = s_ind s /\ s_imb s' = s_imb s /\ s_stop s' = s_stop s /\ s_pos s' = s_pos s /\
   paused (s_live s') = paused (s_live s)) /\
  exists o, orders s' = orders s ++ [o] /\ or_Side o = side /\ or_Quantity o = q.
Proof.
  unfold submit.
  assert (frame s (call (BuildClientOrderID E StrategyType (runID (s_live s))) s).2) as [F1 F2 F3 F4 F5 F6 F7]
    by (apply mr_frame_sys; by rewrite BuildClientOrderID_calls).
  destruct (call _ s) as [cid s1]; simpl in *. unfold call.
  match goal with |- context [create_market_order E ?r] => pose proof (create_calls E r (s_sys s1)) as Hc;
    set (r0 := r) in * end.
  destruct (create_market_order E r0 (s_sys s1)) as [res y]; simpl in *. split; [done |].
  exists r0. split; [| done]. unfold orders in *; simpl. by rewrite Hc, orders_sent_app, F7.
Qed.

(** The order that closes a position of quantity [q]. *)
Definition closing_order (q : dec) o : Prop :=
  or_Side o = (if d_is_neg q then SIDE_BUY else SIDE_SELL) /\
  or_Quantity o = (if d_is_neg q then dneg q else q).

(** What closing and opening leave alone. *)
Definition keeps s s' : Prop :=
  s_cfg s' = s_cfg s /\ s_ind s' = s_ind s /\ s_imb s' = s_imb s /\ paused (s_live s') = paused (s_live s).

Lemma mr_frame_keeps s s' : frame s s' -> keeps s s'.
Proof. intros []. by split_and!. Qed.

Lemma mr_close_effect a s r s' : closePosition E a s = (r, s') ->
  keeps s s' /\ s_stop s' = s_stop s /\
  (s_pos s' = s_pos s /\ is_ok r = false \/ s_pos s' = flat_pos (balancesInitialized (s_pos s)) (s_pos s) /\ r = Ok tt) /\
  match (tracked_or_live E a s).1 with
  | Err _ => orders s' = orders s
  | Ok q => if d_is_zero q then orders s' = orders s /\ r = Ok tt
            else exists o, orders s' = orders s ++ [o] /\ closing_order q o
  end.
Proof.
  unfold closePosition. pose proof (mr_frame_tracked a s) as [F1 F2 F3 F4 F5 F6 F7].
  destruct (tracked_or_live E a s) as [[q|e] s1]; simpl in *;
    [| intros [= <- <-]; split_and!; [by split_and! | done | by left | done]].
  destruct (d_is_zero q) eqn:Hz.
  { intros [= <- <-]. simpl. rewrite F5. split_and!; [by split_and! | done | by right | done | done]. }
  match goal with |- context [submit E ?sd ?qq ?iv s1] =>
    pose proof (submit_spec sd qq iv s1) as ((S1 & S2 & S3 & S4 & S5 & S6) & o & S7 & S8 & S9);
    destruct (submit E sd qq iv s1) as [[cid res] s2] end; simpl in *.
  destruct res as [id|e].
  - intros [= <- <-]. simpl.
    match goal with |- context [recordDecision E ?mk s2] =>
      pose proof (mr_frame_recordDecision mk s2) as [R1 R2 R3 R4 R5 R6 R7]; set (s3 := recordDecision E mk s2) in * end.
    split_and!; [split_and!; simpl; congruence | congruence | right; split; [congruence | done] |].
    exists o. split; [| by split]. change (orders (upd_pos _ s3)) with (orders s3). congruence.
  - pose proof (mr_frame_currentPosition a s2) as [C1 C2 C3 C4 C5 C6 C7].
    destruct (currentPosition E a s2) as [live s3]; simpl in *.
    assert (orders s3 = orders s ++ [o]) as Ho by congruence.
    destruct live as [lq|e']; [destruct (d_is_zero lq) |]; intros [= <- <-]; simpl;
      (split_and!; [split_and!; simpl; congruence | congruence | | by exists o]);
      [right; split; [congruence | done] | left; split; [congruence | done]..].
Qed.

(** Either nothing is sent and the position stays, or one order goes out for
    a quantity the sizing allows, and the position follows its acceptance. *)
Lemma mr_execute_effect d a s r s' : executeDecision E d a s = (r, s') ->
  keeps s s' /\ s_stop s' = s_stop s /\
  (orders s' = orders s /\ s_pos s' = s_pos s \/
   exists position o weight,
     d_signal d <> SignalHold /\ (tracked_or_live E a s).1 = Ok position /\
     cappedOrderQuantity (s_cfg s) weight (d_positionSize d) position (d_price d) = Ok (Some (or_Quantity o)) /\
     or_Side o = order_side (d_signal d) /\ orders s' = orders s ++ [o] /\
     (s_pos s' = s_pos s \/ s_pos s' = opened (or_Side o) (d_signal d) (or_Quantity o) (d_price d) (s_pos s))).
Proof.
  unfold executeDecision. case_bool_decide as Hh; [intros [= <- <-]; split_and!; [by split_and! | done | by left] |].
  pose proof (mr_frame_tracked a s) as F. pose proof F as [F1 F2 F3 F4 F5 F6 F7].
  destruct (tracked_or_live E a s) as [[q|e] s1]; simpl in F, F1, F2, F3, F4, F5, F6, F7;
    assert (keeps s s1 /\ s_stop s1 = s_stop s /\ (orders s1 = orders s /\ s_pos s1 = s_pos s)) as (K & K' & K'')
      by (split_and!; [by apply mr_frame_keeps | done..]);
    [| intros [= <- <-]; auto].
  destruct (d_is_zero (d_price d)); [intros [= <- <-]; auto |].
  destruct (cappedOrderQuantity _ _ _ _ _) as [[quantity|]|e] eqn:Hc; [| intros [= <- <-]; auto..].
  destruct (d_is_zero quantity); [intros [= <- <-]; auto |].
  destruct (wrap_err _ _) as [inv|e]; [| intros [= <- <-]; auto].
  match goal with |- context [submit E ?sd ?qq ?iv s1] =>
    pose proof (submit_spec sd qq iv s1) as ((S1 & S2 & S3 & S4 & S5 & S6) & o & S7 & S8 & S9);
    destruct (submit E sd qq iv s1) as [[cid res] s2] end; simpl in S1, S2, S3, S4, S5, S6, S7.
  destruct K as (K1 & K2 & K3 & K4). rewrite K1 in Hc. subst quantity. destruct res as [id|e].
  - intros [= <- <-]. simpl.
    match goal with |- context [recordDecision E ?mk s2] =>
      pose proof (mr_frame_recordDecision mk s2) as [R1 R2 R3 R4 R5 R6 R7]; set (s3 := recordDecision E mk s2) in * end.
    split_and!; [split_and!; simpl; congruence | congruence |]. right.
    exists q, o, (collateralWeight (s_live s1)). change (orders (upd_pos _ s3)) with (orders s3).
    split_and!; try done; [congruence |]. right. rewrite S8. congruence.
  - intros [= <- <-]. split_and!; [split_and!; congruence | congruence |]. right.
    exists q, o, (collateralWeight (s_live s1)). split_and!; try done; [congruence |]. left. congruence.
Qed.

(** The tracked position and the open signal agree. *)
Definition consistent s : Prop :=
  balancesInitialized (s_pos s) = true /\ openSignal (s_pos s) = signalFromBondQty (bondQty (s_pos s)).

Lemma mr_signal_zero (q : dec) : d_is_zero q = true <-> signalFromBondQty q = SignalHold.
Proof. unfold signalFromBondQty, d_is_zero, d_is_pos, d_is_neg. by destruct (dcmp q dzero). Qed.

Lemma mr_consistent_pos s s' : s_pos s' = s_pos s -> consistent s -> consistent s'.
Proof. unfold consistent. by intros ->. Qed.

Lemma mr_consistent_flat s s' : s_pos s' = flat_pos (balancesInitialized (s_pos s)) (s_pos s) ->
  consistent s -> consistent s'.
Proof.
  unfold consistent. intros -> [Hi Hs]. simpl. rewrite Hi. split; [done |].
  symmetry. apply mr_signal_zero, d_is_zero_spec, dval_zero.
Qed.

Lemma mr_consistent_opened s s' side sig q price : s_pos s' = opened side sig q price (s_pos s) ->
  consistent s -> consistent s'.
Proof. unfold consistent, opened. intros -> [Hi Hs]. by rewrite Hi. Qed.

(** Whole, and positive at a positive price. *)
Definition whole_order (price : dec) o : Prop :=
  (exists n : Z, dval (or_Quantity o) == inject_Z n)%Q /\ (0 < dval price -> 0 < dval (or_Quantity o))%Q.

Lemma mr_capped_whole c weight size position price o :
  cappedOrderQuantity c weight size position price = Ok (Some (or_Quantity o)) -> whole_order price o.
Proof.
  unfold cappedOrderQuantity. intros H. destruct (d_is_neg size); [discriminate |].
  destruct (d_is_zero price) eqn:Hz; [discriminate |].
  apply result_bind_Ok in H as (e0 & _ & H). apply result_bind_Ok in H as (eff & _ & H).
  apply result_bind_Ok in H as (b0 & _ & H). destruct (d_is_pos b0) eqn:Hb; [| discriminate].
  apply result_bind_Ok in H as (pv & _ & H). destruct (d_ge pv eff) eqn:Hge; [discriminate |].
  apply result_bind_Ok in H as (rem & Hrem & H). apply wrap_err_Ok in Hrem.
  apply result_bind_Ok in H as (q & Hq & H). apply wrap_err_Ok in Hq.
  destruct (d_is_zero (dfloor q)) eqn:Hz2; [discriminate |]. injection H as H. unfold whole_order. rewrite <- H.
  split; [exists (Qfloor (dval q)); apply dval_floor |]. intros Hp.
  apply d_is_pos_spec in Hb. apply d_ge_false in Hge. apply d_is_zero_false in Hz2. rewrite dval_floor in *.
  assert (0 <= dval q)%Q as Hpos.
  { apply (fun X Y => dquo_nonneg _ _ _ X Y Hq); [| lra].
    apply dsub_nonneg in Hrem; [| lra]. destruct (d_gt b0 rem); lra. }
  apply Qfloor_resp_le in Hpos. change (Qfloor 0) with 0 in Hpos. change 0%Q with (inject_Z 0) in *.
  rewrite <- Zlt_Qlt. rewrite inject_Z_injective in Hz2. lia.
Qed.

(** Everything a successful [Update] did. *)
Lemma mr_Update_Ok c a bar i d i' : Update c a bar i = (Ok d, i') ->
  exists spread sd z size w',
    dsub (bar_CloseYTM bar) (bar_BenchmarkYield bar) = Ok spread /\ StdDev (window i) = Ok sd /\
    (if Ready (window i) && d_ge sd (MinStdDev c) then score spread (Mean (window i)) sd else Ok dzero) = Ok z /\
    Add spread (window i) = (Ok tt, w') /\ entrySize c (entrySignal c z) z = Ok size /\
    i' = MkInd w' (bar_Close bar) /\
    d = MkDecision (bar_Time bar) a (bar_CloseYTM bar) (bar_BenchmarkYield bar) spread (Mean (window i)) sd z
          (bar_Close bar) (entrySignal c z) size
          (if bool_decide (entrySignal c z = SignalHold) then DecisionReasonWarmingUp else DecisionReasonZEntry).
Proof.
  unfold Update. intros H.
  apply SE_bind_Ok in H as ([] & i1 & H1 & H). injection H1 as <-.
  apply SE_bind_Ok in H as (spread & i2 & H1 & H). injection H1 as H1 <-. apply wrap_err_Ok in H1.
  apply SE_bind_Ok in H as (w & i3 & H2 & H). injection H2 as <- <-.
  apply SE_bind_Ok in H as (sd & i4 & H2 & H). injection H2 as H2 <-.
  apply SE_bind_Ok in H as (z & i5 & H3 & H). injection H3 as H3 <-.
  apply SE_bind_Ok in H as ([] & i6 & H4 & H). unfold on_window in H4.
  simpl in H1, H2, H3, H4. destruct (Add spread (window i)) as [r w'] eqn:Ha. injection H4 as -> <-.
  apply SE_bind_Ok in H as (size & i7 & H5 & H). injection H5 as H5 <-. injection H as <- <-.
  by exists spread, sd, z, size, w'.
Qed.

Definition is_bar (ev : Event) : option Bar := match ev with EvBar bar => Some bar | _ => None end.

(** The gate: once a configured window of trades is full, nothing is bought
    while more than the threshold was sold net, or sold while more was bought. *)
Definition gate_passed (c : Config) (imb : option Rolling) (sig : Signal) : Prop :=
  0 < ImbalanceWindow c -> forall w, imb = Some w -> Ready w = true ->
    (sig = SignalBuy -> - dval (ImbalanceThreshold c) <= dval (Sum w))%Q /\ (sig = SignalSell -> dval (Sum w) <= dval (ImbalanceThreshold c))%Q.
Lemma mr_gate c imb sig : imbalanceAllows c imb sig = true -> gate_passed c imb sig.
Proof.
  unfold imbalanceAllows, gate_passed, netImbalance. intros H Hw w -> Hr. rewrite (proj2 (Z.leb_gt _ _) Hw), Hr in H.
  split; intros ->; [apply d_ge_spec in H; by rewrite dval_neg in H | by apply d_le_spec].
Qed.

(** What one event may send in state [s]: closes of the whole position, or
    one opening order on a bar, when flat, through the imbalance gate. *)
Definition allowed (ev : Event) s (os : list OrderRequest) : Prop :=
  Forall (fun o => openSignal (s_pos s) <> SignalHold /\ closing_order (bondQty (s_pos s)) o) os \/
  exists o bar sig, os = [o] /\ is_bar ev = Some bar /\ openSignal (s_pos s) = SignalHold /\ sig <> SignalHold /\
    gate_passed (s_cfg s) (s_imb s) sig /\ or_Side o = order_side sig /\ whole_order (bar_Close bar) o.

Definition step_ok (ev : Event) s s' : Prop :=
  consistent s' /\ s_cfg s' = s_cfg s /\
  exists os, orders s' = orders s ++ os /\ allowed ev s os /\ (paused (s_live s) = true -> os = []).

Lemma mr_step_ok_quiet ev s s' : consistent s -> s_pos s' = s_pos s -> s_cfg s' = s_cfg s -> orders s' = orders s ->
  step_ok ev s s'.
Proof.
  intros Hc Hp Hcfg Ho. split; [by eapply mr_consistent_pos |]. split; [done |].
  exists []. rewrite app_nil_r. split_and!; [done | by left | done].
Qed.

(** The exit check, from a state that differs from [s] in the windows only. *)
Lemma mr_exit_if_ok ev a z s s1 : consistent s -> s_pos s1 = s_pos s -> s_cfg s1 = s_cfg s -> orders s1 = orders s ->
  paused (s_live s) = false -> openSignal (s_pos s) <> SignalHold ->
  step_ok ev s (exit_if E a (openSignal (s_pos s)) z s1) /\
  paused (s_live (exit_if E a (openSignal (s_pos s)) z s1)) = paused (s_live s1) /\
  (s_pos (exit_if E a (openSignal (s_pos s)) z s1) = s_pos s \/
   openSignal (s_pos (exit_if E a (openSignal (s_pos s)) z s1)) = SignalHold).
Proof.
  intros Hc Hp Hcfg Ho Hpa Hop. unfold exit_if.
  destruct (ShouldExit (s_cfg s1) (openSignal (s_pos s)) z (s_stop s1)) as [[reason|] st];
    [| split_and!; [by apply mr_step_ok_quiet | done | by left]].
  destruct (closePosition E a (with_stop st s1)) as [r s2] eqn:Hcl.
  pose proof (note_result_frame' r s2) as [N1 _ _ _ N5 N6 N7].
  apply mr_close_effect in Hcl as ((K1 & K2 & K3 & K4) & _ & Hpos & Hord). simpl in *.
  destruct Hc as [Hi Hs]. unfold tracked_or_live in Hord. simpl in Hord. rewrite Hp, Hi in Hord. cbn [fst] in Hord.
  destruct (d_is_zero (bondQty (s_pos s))) eqn:Hz; [exfalso; apply Hop; rewrite Hs; by apply mr_signal_zero |].
  destruct Hord as (o & Ho2 & Hclo). change (orders (with_stop st s1)) with (orders s1) in Ho2.
  split_and!; [| congruence |].
  - split; [| split; [congruence |]].
    + destruct Hpos as [[Hpos _]|[Hpos _]]; rewrite Hp in Hpos; rewrite <- N5 in Hpos;
        [by apply (mr_consistent_pos s) | by apply (mr_consistent_flat s)].
    + exists [o]. split_and!; [congruence | left; by apply Forall_singleton | congruence].
  - rewrite N5. destruct Hpos as [[Hpos _]|[Hpos _]]; [left; congruence | right; by rewrite Hpos].
Qed.

Lemma mr_on_bar_ok a bar s : consistent s -> step_ok (EvBar bar) s (on_bar E C a bar s).
Proof.
  intros Hc. unfold on_bar.
  match goal with |- context [getBenchmarkYield C ?t s] => pose proof (mr_frame_getBenchmarkYield t s) as F;
    destruct (getBenchmarkYield C t s) as [y s0] end; simpl in F. destruct F as [F1 F2 F3 F4 F5 F6 F7].
  assert (forall ind, step_ok (EvBar bar) s (with_ind ind s0)) as Hquiet by (intros ind; by apply mr_step_ok_quiet).
  destruct (Update _ _ _ _) as [[d|e] ind] eqn:Hu; [| apply Hquiet].
  simpl. rewrite F6. destruct (paused (s_live s)) eqn:Hpa; [apply Hquiet |].
  rewrite F5. case_bool_decide as Hop; simpl.
  - case_bool_decide as Hh; [apply Hquiet |].
    destruct (imbalanceAllows _ _ _) eqn:Him; [| apply Hquiet]. simpl.
    destruct (executeDecision E d a (with_ind ind s0)) as [r s2] eqn:He.
    pose proof (note_result_frame' r s2) as [N1 _ _ _ N5 N6 N7].
    apply mr_execute_effect in He as ((K1 & K2 & K3 & K4) & _ & Heff). simpl in *.
    apply mr_Update_Ok in Hu as (spread & sd & z & size & w' & _ & _ & _ & _ & _ & _ & ->). simpl in *.
    destruct Heff as [[Ho Hp]|(position & o & weight & _ & Hpos & Hcap & Hsd & Ho & Hp)].
    + apply mr_step_ok_quiet; [done | congruence | congruence |].
      change (orders (with_ind ind s0)) with (orders s0) in Ho. congruence.
    + change (orders (with_ind ind s0)) with (orders s0) in Ho.
      split; [| split; [congruence |]].
      * rewrite F5 in Hp. rewrite <- N5 in Hp.
        destruct Hp as [Hp|Hp]; [exact (mr_consistent_pos _ _ Hp Hc) | exact (mr_consistent_opened _ _ _ _ _ _ Hp Hc)].
      * exists [o]. split_and!; [congruence | | congruence]. right. exists o, bar, (entrySignal (s_cfg s0) z).
        rewrite <- F1, <- F3. split_and!; try done; [by apply mr_gate | by eapply mr_capped_whole].
  - destruct (Ready _); [| apply Hquiet]. apply mr_exit_if_ok; done.
Qed.

Lemma mr_on_price_ok a px ev s : consistent s ->
  step_ok ev s (on_price E C a s px) /\ paused (s_live (on_price E C a s px)) = paused (s_live s) /\
  (s_pos (on_price E C a s px) = s_pos s \/ openSignal (s_pos (on_price E C a s px)) = SignalHold).
Proof.
  intros Hc. unfold on_price.
  assert (step_ok ev s s /\ paused (s_live s) = paused (s_live s) /\ (s_pos s = s_pos s \/ openSignal (s_pos s) = SignalHold))
    as Hnop by (split_and!; [by apply mr_step_ok_quiet | done | by left]).
  destruct (px_YTM px) as [ytm|]; [| done]. destruct (negb _); [done |].
  pose proof (mr_frame_getBenchmarkYield (px_Time px) s) as F.
  destruct (getBenchmarkYield C (px_Time px) s) as [y s0]; simpl in F. destruct F as [F1 F2 F3 F4 F5 F6 F7]. simpl.
  rewrite F5, F6. destruct (paused (s_live s)) eqn:Hpa; simpl; [split_and!; [by apply mr_step_ok_quiet | done | by left] |].
  case_bool_decide as Hop; [split_and!; [by apply mr_step_ok_quiet | done | by left] |].
  destruct (intrabarZ _ _ _ _) as [z|]; [| split_and!; [by apply mr_step_ok_quiet | done | by left]].
  match goal with |- context [exit_if E a _ z ?x] => destruct (mr_exit_if_ok ev a z s x Hc) as (G1 & G2 & G3); [done..|] end.
  split_and!; [done | | done]. rewrite G2. simpl. congruence.
Qed.

(** A whole tick batch closes the position it found, or nothing. *)
Lemma mr_on_prices_ok a pxs ev s0 s : consistent s -> s_cfg s = s_cfg s0 -> paused (s_live s) = paused (s_live s0) ->
  (s_pos s = s_pos s0 \/ openSignal (s_pos s) = SignalHold) -> is_bar ev = None ->
  let s' := foldl (on_price E C a) s pxs in
  consistent s' /\ s_cfg s' = s_cfg s0 /\
  exists os, orders s' = orders s ++ os /\
    Forall (fun o => openSignal (s_pos s0) <> SignalHold /\ closing_order (bondQty (s_pos s0)) o) os /\
    (paused (s_live s0) = true -> os = []).
Proof.
  intros Hc Hcfg Hpa Hp Hev. revert s Hc Hcfg Hpa Hp. induction pxs as [|px pxs IH]; intros s Hc Hcfg Hpa Hp; simpl.
  { split_and!; [done.. |]. exists []. by rewrite app_nil_r. }
  destruct (mr_on_price_ok a px ev s Hc) as ((C1 & C2 & os & Ho & Ha & Hz) & P1 & P2).
  destruct (IH (on_price E C a s px)) as (C' & Hcfg' & os' & Ho' & Ha' & Hz'); try done; try congruence.
  { destruct P2 as [->|P2]; [done | by right]. }
  split_and!; [done.. |]. exists (os ++ os'). rewrite Ho', Ho, app_assoc. split_and!; [done | |].
  - apply Forall_app. split; [| done]. destruct Ha as [Ha|(o & bar & sig & _ & Hb & _)]; [| congruence].
    destruct Hp as [Hp|Hp]; [by rewrite Hp in Ha |]. eapply Forall_impl; [exact Ha |]. intros o [? _]. congruence.
  - intros Hpz. rewrite Hz, Hz' by congruence. done.
Qed.

(** C16: one iteration of the live loop on a strategy whose balances are
    tracked and whose open signal is the sign of its position ([consistent]):
    that stays so; whatever is sent either closes the whole open position
    (opposite side, full quantity), or is a single order for a whole number of
    bonds, positive at a positive price, sent only on a bar and only when flat,
    and bought (sold) only if the imbalance window, once configured and full,
    shows no more than the threshold sold (bought) net; a paused strategy sends
    nothing at all. *)
Theorem mr_step_orders a ev s s' :
  consistent s -> loop_step E C a ev s = Some s' ->
  consistent s' /\ s_cfg s' = s_cfg s /\
  exists os, orders s' = orders s ++ os /\ allowed ev s os /\ (paused (s_live s) = true -> os = []).
Proof.
  intros Hc. destruct ev as [|m|bar|pxs|tr| |]; simpl; intros [= <-]; try (apply mr_step_ok_quiet; done).
  - apply mr_step_ok_quiet; by destruct m.
  - by apply mr_on_bar_ok.
  - destruct (mr_on_prices_ok a pxs (EvPrices pxs) s s Hc) as (C1 & Hcfg & os & Ho & Ha & Hp);
      [done | done | by left | done |].
    split_and!; [done.. |]. exists os. split_and!; [done | by left | done].
Qed.
End LiveTheory.

(** ** Theory: well-formed states *)

Section WellFormed.
Context {D : DecimalOps} {W : Type} (E : Env W) (C : Wiring (W := W)).
Implicit Types (s : Strategy (W := W)).

(** Both windows index inside their buffers, the sequence number is an int64
    and the cached observations are dated at UTC midnights. *)
Record well_formed s : Prop := {
  wf_window : in_bounds (window (s_ind s));
  wf_imbalance : match s_imb s with Some w => in_bounds w | None => True end;
  wf_sequence : in_int64 (decisionSeq (s_live s));
  wf_cache : Forall (fun o => NormalizeDate (ob_Date o) = ob_Date o) (benchmarkObservations (s_live s));
}.

Lemma mr_wf_New c y : well_formed (New c y).
Proof.
  split; simpl; [apply wf_in_bounds, wf_New | | by split; vm_compute | constructor].
  unfold new_imbWin. destruct (0 <? _); [apply wf_in_bounds, wf_New | done].
Qed.

Lemma mr_wf_call {A} (m : ST (Sys W) A) s a s' : call m s = (a, s') -> well_formed s -> well_formed s'.
Proof. unfold call. destruct (m _). intros [= <- <-] []. by split. Qed.

(** Updates of the fields that are not constrained. *)
Definition same_core s s' : Prop :=
  s_ind s' = s_ind s /\ s_imb s' = s_imb s /\ decisionSeq (s_live s') = decisionSeq (s_live s) /\
  benchmarkObservations (s_live s') = benchmarkObservations (s_live s).

Lemma mr_wf_core s s' : same_core s s' -> well_formed s -> well_formed s'.
Proof. intros (E1 & E2 & E3 & E4) []. split; by rewrite ?E1, ?E2, ?E3, ?E4. Qed.

Lemma mr_wf_ind i s : in_bounds (window i) -> well_formed s -> well_formed (with_ind i s).
Proof. intros H []. by split. Qed.

Lemma mr_wf_bench obs s : Forall (fun o => NormalizeDate (ob_Date o) = ob_Date o) obs -> well_formed s ->
  well_formed (set_bench obs s).
Proof. intros H []. by split. Qed.

Lemma mr_normalised_merge cache obs :
  Forall (fun o => NormalizeDate (ob_Date o) = ob_Date o) cache ->
  Forall (fun o => NormalizeDate (ob_Date o) = ob_Date o) (Fred.mergeBenchmarkObservations cache obs).
Proof.
  intros H.
  assert (Forall (fun o => NormalizeDate (ob_Date o) = ob_Date o) (normalise_obs <$> obs)) as Hn.
  { apply Forall_fmap, Forall_true. intros o. apply NormalizeDate_idem. }
  unfold Fred.mergeBenchmarkObservations. destruct cache as [|c0 cache]; [done |].
  rewrite merge_sort_Permutation. apply Forall_forall. intros o [Ho|Ho]%append_new_In;
    [exact (proj1 (Forall_forall _ _) H o Ho) | exact (proj1 (Forall_forall _ _) Hn o Ho)].
Qed.

Lemma mr_on_window_in_bounds v i : in_bounds (window i) -> in_bounds (window (on_window (Add v) i).2).
Proof.
  intros H. unfold on_window. pose proof (Add_in_bounds v _ H) as Ha. by destruct (Add v (window i)).
Qed.

(** Even a failing [Update] leaves the window in bounds. *)
Lemma mr_Update_in_bounds c a bar i : in_bounds (window i) -> in_bounds (window (Update c a bar i).2).
Proof.
  intros H. unfold Update.
  repeat (apply (SE_bind_inv (fun i => in_bounds (window i)));
          [first [done | by apply mr_on_window_in_bounds] | intros]); done.
Qed.

Ltac wf_calls :=
  repeat match goal with
  | |- context [call ?m ?s] => destruct (call m s) as [? ?] eqn:?
  | H : call _ _ = (_, ?s1) |- well_formed ?s1 => apply (mr_wf_call _ _ _ _ H)
  end.

Lemma mr_wf_recordDecision mk s : well_formed s -> well_formed (recordDecision E mk s).
Proof.
  intros H. unfold recordDecision. destruct (Records E) as [save|]; [| done]. wf_calls.
  destruct H. split; simpl; try done. apply wrap64_range.
Qed.

Lemma mr_wf_currentPosition a s : well_formed s -> well_formed (currentPosition E a s).2.
Proof. intros H. unfold currentPosition. case_bool_decide; [done |]. wf_calls. simpl. wf_calls. done. Qed.

Lemma mr_wf_tracked a s : well_formed s -> well_formed (tracked_or_live E a s).2.
Proof. intros H. unfold tracked_or_live. destruct (balancesInitialized _); [done | by apply mr_wf_currentPosition]. Qed.

Lemma mr_wf_submit side q inv s : well_formed s -> well_formed (submit E side q inv s).2.
Proof. intros H. unfold submit. wf_calls. simpl. wf_calls. done. Qed.

Lemma mr_wf_note {A} (r : result A) s : well_formed s -> well_formed (note_result r s).
Proof. destruct r; [done |]. by apply mr_wf_core. Qed.

Lemma mr_wf_close a s : well_formed s -> well_formed (closePosition E a s).2.
Proof.
  intros H. unfold closePosition. pose proof (mr_wf_tracked a s H) as H1.
  destruct (tracked_or_live E a s) as [[q|e] s1]; [| done]. simpl in H1.
  destruct (d_is_zero q); [by apply (mr_wf_core s1) |].
  match goal with |- context [submit E ?sd ?qq ?iv s1] => pose proof (mr_wf_submit sd qq iv s1 H1) as H2;
    destruct (submit E sd qq iv s1) as [[cid [id|e]] s2]; simpl in H2 end.
  - simpl. match goal with |- well_formed (upd_pos ?f ?x) => apply (mr_wf_core x); [done |] end.
    by apply mr_wf_recordDecision.
  - pose proof (mr_wf_currentPosition a s2 H2) as H3.
    destruct (currentPosition E a s2) as [[l|e'] s3]; [| done]. by destruct (d_is_zero l); apply (mr_wf_core s3).
Qed.

Lemma mr_wf_execute d a s : well_formed s -> well_formed (executeDecision E d a s).2.
Proof.
  intros H. unfold executeDecision. case_bool_decide; [done |]. pose proof (mr_wf_tracked a s H) as H1.
  destruct (tracked_or_live E a s) as [[q|e] s1]; [| done]. simpl in H1.
  destruct (d_is_zero _); [done |]. destruct (cappedOrderQuantity _ _ _ _ _) as [[qty|]|]; try done.
  destruct (d_is_zero _); [done |]. destruct (wrap_err _ _) as [inv|]; [| done].
  match goal with |- context [submit E ?sd ?qq ?iv s1] => pose proof (mr_wf_submit sd qq iv s1 H1) as H2;
    destruct (submit E sd qq iv s1) as [[cid [id|e]] s2]; simpl in H2 end; [| done].
  simpl. match goal with |- well_formed (upd_pos ?f ?x) => apply (mr_wf_core x); [done |] end.
  by apply mr_wf_recordDecision.
Qed.

Lemma mr_wf_benchmark ts s : well_formed s -> well_formed (getBenchmarkYield C ts s).2.
Proof.
  intros H. unfold getBenchmarkYield.
  match goal with |- context [if ?b then _ else _] => destruct b end; [done |].
  destruct (ParseBenchmarkTenor _) as [tenor|e]; [| by apply (mr_wf_core s)].
  destruct (FetchHistoricalYields C) as [fetch|]; [| by apply (mr_wf_core s)].
  destruct (call _ s) as [obs s1] eqn:Hc. apply mr_wf_call in Hc; [| done].
  destruct obs as [[|ob obs]|e]; [done | | by apply (mr_wf_core s1)].
  simpl. apply mr_wf_bench; [| done]. apply mr_normalised_merge. by destruct Hc.
Qed.

Lemma mr_wf_exit_if a sig z s : well_formed s -> well_formed (exit_if E a sig z s).
Proof.
  intros H. unfold exit_if. destruct (ShouldExit _ _ _ _) as [[reason|] st]; [| by apply (mr_wf_core s)].
  pose proof (mr_wf_close a (with_stop st s)) as H1. destruct (closePosition E a _) as [r s2].
  apply mr_wf_note, H1. by apply (mr_wf_core s).
Qed.

Lemma mr_wf_on_bar a bar s : well_formed s -> well_formed (on_bar E C a bar s).
Proof.
  intros H. unfold on_bar.
  match goal with |- context [getBenchmarkYield C ?t s] => pose proof (mr_wf_benchmark t s H) as H0;
    destruct (getBenchmarkYield C t s) as [y s0] end; simpl in H0.
  match goal with |- context [Update ?c ?l ?b ?i] => pose proof (mr_Update_in_bounds c l b i (wf_window _ H0)) as Hi;
    destruct (Update c l b i) as [r ind] end; simpl in Hi.
  assert (well_formed (with_ind ind s0)) as H1 by (by apply mr_wf_ind).
  destruct r as [d|e]; [| done]. destruct (paused _); [done |]. destruct (negb _).
  - destruct (Ready _); [by apply mr_wf_exit_if | done].
  - case_bool_decide; [done |]. destruct (negb _); [done |].
    pose proof (mr_wf_execute d a _ H1) as He. destruct (executeDecision E d a _) as [r s2]. by apply mr_wf_note.
Qed.

Lemma mr_wf_on_price a px s : well_formed s -> well_formed (on_price E C a s px).
Proof.
  intros H. unfold on_price. destruct (px_YTM px); [| done]. destruct (negb _); [done |].
  pose proof (mr_wf_benchmark (px_Time px) s H) as H0.
  destruct (getBenchmarkYield C (px_Time px) s) as [y s0]; simpl in H0.
  match goal with |- context [with_ind ?i s0] =>
    assert (well_formed (with_ind i s0)) as H1 by (apply mr_wf_ind; [apply H0 | done]) end.
  destruct (_ || _); [done |]. destruct (intrabarZ _ _ _ _); [by apply mr_wf_exit_if | done].
Qed.

Lemma mr_wf_applyTrade ev imb : match imb with Some w => in_bounds w | None => True end ->
  match applyTrade ev imb with Some w => in_bounds w | None => True end.
Proof.
  destruct imb as [w|]; [| done]. intros H. simpl. case_bool_decide; [by apply Add_in_bounds |].
  case_bool_decide; [by apply Add_in_bounds | done].
Qed.

Lemma mr_wf_loop_step a ev s s' : loop_step E C a ev s = Some s' -> well_formed s -> well_formed s'.
Proof.
  intros Hs H. destruct ev as [|m|bar|pxs|tr| |]; simpl in Hs; try discriminate Hs; injection Hs as <-; try done.
  - by destruct m; apply (mr_wf_core s).
  - by apply mr_wf_on_bar.
  - revert s H. induction pxs as [|px pxs IH]; intros s H; simpl; [done |]. by apply IH, mr_wf_on_price.
  - destruct H as [H1 H2 H3 H4]. split; try done. simpl. by apply mr_wf_applyTrade.
Qed.

Lemma mr_run_events_invariant (P : Strategy -> Prop) a evs s :
  (forall ev s1 s2, loop_step E C a ev s1 = Some s2 -> P s1 -> P s2) -> P s -> P (run_events E C a evs s).
Proof.
  intros HP. revert s. induction evs as [|ev evs IH]; intros s Hs; simpl; [done |].
  destruct (loop_step E C a ev s) as [s'|] eqn:Hl; [| done]. by eapply IH, HP.
Qed.

Lemma mr_wf_balances b s : well_formed s -> well_formed (initializeBalances E b s).
Proof.
  intros H. unfold initializeBalances. destruct (call _ s) as [quote s1] eqn:H1. apply mr_wf_call in H1; [| done].
  destruct quote as [q|e]; [| by apply (mr_wf_core s1)].
  destruct (call (quiet (GetPortfolioV2 E)) s1) as [portfolio s2] eqn:H2. apply mr_wf_call in H2; [| done].
  assert (forall acc, well_formed (initializeBalancesFromPortfolio acc b q false s2)) as Hp.
  { intros acc. unfold initializeBalancesFromPortfolio.
    destruct (InitialBalancesFromPortfolio _ _ _ _) as [[[bal sig]|]|e]; [| done | by apply (mr_wf_core s2)].
    by destruct (d_is_zero (USD bal)); apply (mr_wf_core s2). }
  assert (well_formed (upd_pos mark_initialized s2)) as _ by (by apply (mr_wf_core s2)).
  set (legacy := let '(bond, s3) := call (quiet (AssetPosition E b)) s2 in _).
  assert (well_formed legacy) as Hl.
  { unfold legacy. destruct (call (quiet (AssetPosition E b)) s2) as [bond s3] eqn:H3. apply mr_wf_call in H3; [| done].
    match goal with |- context [call (quiet (AssetPosition E q)) ?x] =>
      assert (well_formed x) as H4 by (by destruct bond as [[? ?]|]; apply (mr_wf_core s3));
      destruct (call (quiet (AssetPosition E q)) x) as [usd s5] eqn:H5 end.
    apply mr_wf_call in H5; [| done]. destruct usd as [[available ?]|]; [destruct (d_is_zero available) |];
      by apply (mr_wf_core s5). }
  destruct portfolio as [[acc|]|e]; [| exact Hl..].
  match goal with |- well_formed (upd_pos _ ?x) => by apply (mr_wf_core x) end.
Qed.

Lemma mr_wf_setup s : well_formed s -> well_formed (run_setup E C s).2.
Proof.
  intros Hs0. unfold run_setup. destruct (call _ s) as [asset s1] eqn:Hc. apply mr_wf_call in Hc; [| done].
  destruct asset as [a|e]; [| done].
  match goal with |- context [call (quiet (AssetCollateralWeight E a)) ?x] =>
    destruct (call (quiet (AssetCollateralWeight E a)) x) as [w s3] eqn:Hw end.
  apply mr_wf_call in Hw; [| by apply (mr_wf_core s1)].
  match goal with |- context [requireCandleCoverage C ?x] => set (s4 := x) end.
  assert (well_formed s4) as H4 by (by destruct w; apply (mr_wf_core s3)).
  destruct (SubscribeBars C) as [sub|]; [| done]. destruct (ParseBenchmarkTenor _); [| done].
  assert (well_formed (requireCandleCoverage C s4).2) as H5.
  { unfold requireCandleCoverage. destruct (CandleRange C) as [range|]; [| done].
    destruct (call _ s4) as [r s5] eqn:Hr. apply mr_wf_call in Hr; [| done].
    by destruct r as [[[?|] [?|]]|]. }
  destruct (requireCandleCoverage C s4) as [[[]|e] s5]; [| done]. destruct sub; [| done]. by apply mr_wf_balances.
Qed.

(** A well-formed strategy stays well formed through a whole run, for any
    answers of its environment, any events and any failure on the way: both
    windows index inside their buffers, so no step can panic there; the
    decision counter is an int64; every cached benchmark observation is dated
    at a UTC midnight. *)
Theorem mr_state_well_formed id evs s : well_formed s -> well_formed (Run E C id evs s).2.
Proof.
  intros H. unfold Run. assert (forall r, well_formed (set_run id r s)) as H0 by (intros r; by apply (mr_wf_core s)).
  destruct (isRunning _); [apply H0 |]. destruct (SubscribePrices C) as [[]|]; [| apply H0].
  unfold run. set (s0 := set_run id true _).
  assert (well_formed s0) as Hs0 by (apply (mr_wf_core s); done).
  pose proof (mr_wf_setup s0 Hs0) as H1.
  destruct (run_setup E C s0) as [[asset|e] s1]; simpl in H1; simpl.
  - set (s2 := run_events _ _ _ _ _).
    assert (well_formed s2) as H2 by (apply mr_run_events_invariant; [intros ? ? ?; apply mr_wf_loop_step | done]).
    by apply (mr_wf_core s2).
  - by apply (mr_wf_core s1).
Qed.
End WellFormed.

(** ** Theory: the signal over exact arithmetic *)

Section ExactSignal.
#[local] Existing Instance QDec.
#[local] Open Scope Q_scope.
Implicit Types (c : Config) (bar : Bar) (i : Ind) (d : Decision) (past : list Q).

Definition spread_of bar : Q := bar_CloseYTM bar - bar_BenchmarkYield bar.

(** A run of successful updates. *)
Fixpoint feed c (a : string) (bars : list Bar) : SE Ind unit :=
  match bars with
  | [] => mret tt
  | bar :: rest => _ ← Update c a bar; feed c a rest
  end.

(** The length the window is given. *)
Definition lookback c : nat := size (NewRollingWindow (LookbackWindow c)).

(** What the strategy promises: the score of the spread [x] against the
    spreads [past], decided from at least [lookback] of them.  The deviation is the
    root of the sample variance, rounded down to nineteen decimals. *)
Record textbook c past (x : Q) (full : bool) d : Prop := {
  tb_spread : d_Spread d = x;
  tb_mean : d_RollingMean d * qlen past == qsum past;
  tb_stddev : (2 <= length past)%nat -> 0 <= d_RollingStdDev d /\
    let var := qdev (d_RollingMean d) past / (qlen past - 1) in
    d_RollingStdDev d * d_RollingStdDev d <= var /\
    var < (d_RollingStdDev d + (1 # 10 ^ 19)) * (d_RollingStdDev d + (1 # 10 ^ 19));
  tb_buy : d_signal d = SignalBuy <->
    full = true /\ MinStdDev c <= d_RollingStdDev d /\ EntryZScore c * d_RollingStdDev d <= x - d_RollingMean d;
  tb_sell : d_signal d = SignalSell <->
    full = true /\ MinStdDev c <= d_RollingStdDev d /\ EntryZScore c * d_RollingStdDev d <= d_RollingMean d - x;
  tb_size : d_signal d <> SignalHold ->
    d_positionSize d ==
      Qmin (MaxPositionSize c) (Qabs (x - d_RollingMean d) / (EntryZScore c * d_RollingStdDev d) - 1);
}.

Lemma mr_floor_bounds (q : Q) : inject_Z (Qfloor q) <= q /\ q < inject_Z (Qfloor q) + 1.
Proof.
  split; [apply Qfloor_le |]. pose proof (Qlt_floor q) as H. rewrite inject_Z_plus in H. exact H.
Qed.

Lemma mr_exact_sqrt (x r : Q) : dsqrt x = Ok r ->
  0 <= r /\ r * r <= x /\ x < (r + (1 # 10 ^ 19)) * (r + (1 # 10 ^ 19)).
Proof.
  cbn [dsqrt QDec]. destruct (Qlt_le_dec x 0) as [|Hx]; [discriminate |]. intros E.
  assert (r = scaled (Z.sqrt (Qfloor (x * inject_Z (10 ^ 38)))) 19) as -> by (by injection E). clear E.
  set (n := Qfloor (x * inject_Z (10 ^ 38))).
  assert (0 <= n)%Z as Hn.
  { unfold n. change 0%Z with (Qfloor 0). apply Qfloor_resp_le. apply Qmult_le_0_compat; [done | discriminate]. }
  pose proof (Z.sqrt_spec n Hn) as [H1 H2]. pose proof (mr_floor_bounds (x * inject_Z (10 ^ 38))) as [F1 F2].
  fold n in F1, F2. pose proof (Z.sqrt_nonneg n). set (r := Z.sqrt n) in *. clearbody r n.
  assert (scaled r 19 == inject_Z r * (1 # 10 ^ 19)) as Er by (unfold scaled, inject_Z, Qeq, Qmult; simpl; lia).
  rewrite Er. set (u := 1 # 10 ^ 19).
  assert (inject_Z (10 ^ 38) * (u * u) == 1) as Hu by (vm_compute; reflexivity).
  assert (0 < u * u) as Hu0 by reflexivity.
  assert (inject_Z r * inject_Z r <= inject_Z n) as G1 by (rewrite <- inject_Z_mult, <- Zle_Qle; lia).
  assert (inject_Z n + 1 <= (inject_Z r + 1) * (inject_Z r + 1)) as G2.
  { change 1 with (inject_Z 1). rewrite <- !inject_Z_plus, <- inject_Z_mult, <- Zle_Qle. lia. }
  assert (0 <= inject_Z r) as G3 by (change 0 with (inject_Z 0); rewrite <- Zle_Qle; lia).
  assert (0 < u) as Hu1 by reflexivity. clearbody u. set (q := inject_Z r) in *. set (m := inject_Z n) in *.
  set (k := inject_Z (10 ^ 38)) in *. clearbody q m k.
  assert (x == x * k * (u * u)) as Hx' by (rewrite <- Qmult_assoc, Hu; ring).
  split_and!; [nra | |].
  - rewrite Hx'. assert (q * q * (u * u) <= x * k * (u * u)) by (apply Qmult_le_compat_r; lra). lra.
  - rewrite Hx'. assert (x * k * (u * u) < (q + 1) * (q + 1) * (u * u)) by (apply Qmult_lt_r; lra). lra.
Qed.

Lemma mr_feed_adds c a bars i i' : feed c a bars i = (Ok tt, i') ->
  AddAll (spread_of <$> bars) (window i) = (Ok tt, window i').
Proof.
  revert i. induction bars as [|bar bars IH]; intros i H; [by injection H as <- |].
  apply SE_bind_Ok in H as (d & i1 & H1 & H2). apply IH in H2.
  apply mr_Update_Ok in H1 as (x & sd & z & size & w' & [= <-] & _ & _ & Hadd & _ & -> & _).
  rewrite fmap_cons. cbn [AddAll]. unfold mbind, SE_bind. fold (spread_of bar) in Hadd. by rewrite Hadd.
Qed.

(** The spreads the window holds after [bars]. *)
Definition past_spreads c (bars : list Bar) : list Q := lastn (lookback c) (spread_of <$> bars).

Lemma mr_feed_window c a bars i : feed c a bars (new_Ind c) = (Ok tt, i) ->
  welford_inv (window i) /\ size (window i) = lookback c /\
  contents (window i) = past_spreads c bars /\
  Ready (window i) = (lookback c <=? length bars)%nat.
Proof.
  intros H%mr_feed_adds. change (window (new_Ind c)) with (NewRollingWindow (LookbackWindow c)) in H.
  destruct (AddAll_contents _ _ _ (wf_New _) H) as (Hw & Hs & Hc). rewrite contents_New, app_nil_l in Hc.
  destruct (welford_AddAll (spread_of <$> bars) _ (welford_inv_New (LookbackWindow c))) as (w' & H' & Hi).
  rewrite H in H'. injection H' as <-. split_and!; [done | done | by rewrite Hc |].
  pose proof (length_contents _ Hw) as Hl. rewrite Hc, length_lastn, length_fmap in Hl.
  unfold Ready. rewrite Hs, <- Hl. unfold lookback. apply eq_true_iff_eq. rewrite Nat.eqb_eq, Nat.leb_le. lia.
Qed.

(** The deviation of a window whose statistics are exact. *)
Lemma mr_exact_stddev w sd : welford_inv w -> (2 <= length (contents w))%nat -> StdDev w = Ok sd ->
  0 <= sd /\ let var := qdev (mean w) (contents w) / (qlen (contents w) - 1) in
  sd * sd <= var /\ var < (sd + (1 # 10 ^ 19)) * (sd + (1 # 10 ^ 19)).
Proof.
  intros (Hw & _ & Hm2) Hlen H. pose proof (length_contents w Hw) as Hl.
  unfold StdDev in H. apply result_bind_Ok in H as (v & Hv & H). unfold Variance in Hv.
  destruct (count w <? minWindowSize)%nat eqn:Hc; bool_prop; [unfold minWindowSize in Hc; lia |].
  replace (Z.of_nat (count w) - 1)%Z with (Z.of_nat (count w - 1)) in Hv by lia.
  destruct (QDec_int_pos (count w - 1) ltac:(lia)) as [_ Hn]. rewrite QDec_quo in Hv by lia.
  assert (v = m2 w / d_int (Z.of_nat (count w - 1))) as Ev by (by injection Hv). clear Hv.
  assert (d_int (Z.of_nat (count w - 1)) == qlen (contents w) - 1) as En.
  { rewrite Hn, (qlen_count w) by done. rewrite Nat2Z.inj_sub by lia. unfold Z.sub.
    rewrite inject_Z_plus. change (inject_Z (- Z.of_nat 1)) with (- (1)). lra. }
  apply mr_exact_sqrt in H as (H0 & H1 & H2). cbv zeta. rewrite <- En, <- Hm2.
  rewrite Ev in H1, H2. done.
Qed.

Lemma mr_cap (u v m : Q) : u == v -> (if d_gt u m then m else u) == Qmin m v.
Proof.
  intros E. unfold d_gt. cbn. destruct (Q.min_spec m v) as [[H1 H2]|[H1 H2]]; rewrite H2;
    destruct (Qcompare_spec u m); lra.
Qed.

(** The z-score of a full window with enough deviation. *)
Lemma mr_score_exact (x m sd z : Q) : 0 < sd -> score x m sd = Ok z ->
  z * sd == x - m /\ Qabs z == Qabs (x - m) / sd.
Proof.
  intros Hsd H. unfold score in H. cbn in H. destruct (Qeq_bool sd 0) eqn:Hz; [apply Qeq_bool_iff in Hz; lra |].
  assert (z == (x - m) / sd) as Ez by (injection H as <-; reflexivity). split.
  - rewrite Ez. field. lra.
  - rewrite Ez. unfold Qdiv. rewrite Qabs_Qmult. rewrite (Qabs_pos (/ sd)); [reflexivity |].
    apply Qlt_le_weak, Qinv_lt_0_compat, Hsd.
Qed.

(** C15: over exact arithmetic, after any series of bars the decision on the
    next bar is the textbook one: mean and sample deviation of the last
    [LookbackWindow] spreads, the new one excluded (no look-ahead); a buy
    exactly when the window is full, the deviation reaches its floor and the
    spread lies [EntryZScore] deviations above the mean; a sell symmetrically;
    the size grows linearly from zero at the threshold up to its cap. *)
Theorem mr_update_textbook c a bars bar i d i' :
  0 < EntryZScore c -> 0 < MinStdDev c ->
  feed c a bars (new_Ind c) = (Ok tt, i) -> Update c a bar i = (Ok d, i') ->
  textbook c (past_spreads c bars) (spread_of bar) (lookback c <=? length bars)%nat d.
Proof.
  intros HE HM Hf Hu. apply mr_feed_window in Hf as (Hi & Hs & Hc & Hr). rewrite <- Hc, <- Hr. clear Hc Hr.
  apply mr_Update_Ok in Hu as (x & sd & z & sz & w' & [= <-] & Hsd & Hz & _ & Hsz & -> & ->).
  fold (spread_of bar) in *. set (x := spread_of bar) in *. set (w := window i) in *.
  change (Mean w) with (mean w) in *. pose proof Hi as (_ & Hmean & _).
  assert (forall p q, d_ge p q = true <-> q <= p) as Dge by (intros p q; unfold d_ge; cbn; destruct (Qcompare_spec p q); split; intros; try done; lra).
  assert (forall p q, d_le p q = true <-> p <= q) as Dle by (intros p q; unfold d_le; cbn; destruct (Qcompare_spec p q); split; intros; try done; lra).
  destruct (Ready w && d_ge sd (MinStdDev c)) eqn:Hg.
  - apply andb_prop in Hg as [Hr Hge]. apply Dge in Hge. assert (0 < sd) as Hsd0 by lra.
    destruct (mr_score_exact _ _ _ _ Hsd0 Hz) as [Hzs Hza]. rewrite Hr.
    split; cbn [d_Spread d_RollingMean d_RollingStdDev d_signal d_positionSize]; try done.
    + intros Hl. by apply mr_exact_stddev.
    + unfold entrySignal. destruct (d_ge z _) eqn:E1; [apply Dge in E1 | destruct (d_le z _)];
        (split; [intros Hx; try discriminate Hx; split_and!; try done; nra | intros (_ & _ & Hx); try done]);
        exfalso; assert (d_ge z (EntryZScore c) = true) by (apply Dge; nra); congruence.
    + unfold entrySignal. destruct (d_ge z _) eqn:E1; [apply Dge in E1 | destruct (d_le z _) eqn:E2; [apply Dle in E2; cbn in E2 |]];
        (split; [intros Hx; try discriminate Hx; split_and!; try done; nra | intros (_ & _ & Hx); try done]).
      * exfalso. nra.
      * exfalso. assert (d_le z (dneg (EntryZScore c)) = true) by (apply Dle; cbn; nra). congruence.
    + intros Hs0. unfold entrySize in Hsz.
      assert ((Qabs z - EntryZScore c) / EntryZScore c == Qabs (x - mean w) / (EntryZScore c * sd) - 1) as Es
        by (rewrite Hza; field; split; lra).
      destruct (entrySignal c z); [done | |]; cbn [mbind result_bind dsub dabs dquo QDec] in Hsz;
        (destruct (Qeq_bool (EntryZScore c) 0) eqn:Eq; [apply Qeq_bool_iff in Eq; lra |]); injection Hsz as <-;
        by apply mr_cap.
  - assert (z = dzero) as -> by (by injection Hz). clear Hz.
    assert (entrySignal c dzero = SignalHold) as Hh.
    { unfold entrySignal. destruct (d_ge dzero _) eqn:E1; [apply Dge in E1; cbn in E1; lra |].
      destruct (d_le dzero _) eqn:E2; [apply Dle in E2; cbn in E2; lra | done]. }
    rewrite Hh in *.
    assert (forall P, (Ready w = true /\ MinStdDev c <= sd /\ P) -> False) as Hno.
    { intros P (Hr & Hm & _). apply Dge in Hm. rewrite Hr, Hm in Hg. done. }
    split; cbn [d_Spread d_RollingMean d_RollingStdDev d_signal d_positionSize]; try done.
    + intros Hl. by apply mr_exact_stddev.
    + split; [done | intros H; by apply Hno in H].
    + split; [done | intros H; by apply Hno in H].
Qed.
End ExactSignal.

(** ** Theory: two ways to lose a position *)

Section Hazards.
Context {D : DecimalOps} {L : DecimalLaws}.

(** When the deviation of a full window falls below its floor [Update]
    reports a z-score of zero, which the exit check takes for a completed
    reversion: a bar closes any open position as a take-profit, however far
    the spread is from its mean.  A tick against the same window has no score
    and closes nothing. *)
Theorem mr_quiet_market_exit c a bar i d i' sd sig st :
  Update c a bar i = (Ok d, i') -> Ready (window i) = true -> StdDev (window i) = Ok sd ->
  (dval sd < dval (MinStdDev c))%Q -> (0 <= dval (ExitZScore c))%Q -> sig <> SignalHold ->
  (ShouldExit c sig (d_ZScore d) st).1 = Some ExitReasonTakeProfit /\
  forall ytm bench, intrabarZ c (window i) ytm bench = None.
Proof.
  intros Hu Hr Hsd Hlt Hex Hs. split.
  - apply mr_Update_Ok in Hu as (x & sd' & z & sz & w' & _ & Hsd' & Hz & _ & _ & _ & ->).
    rewrite Hsd in Hsd'. injection Hsd' as <-. rewrite Hr, (proj2 (d_ge_false _ _) Hlt) in Hz. injection Hz as <-.
    unfold ShouldExit. cbn [d_ZScore]. destruct sig; [done | |].
    + by rewrite (proj2 (d_le_spec _ _)) by (rewrite dval_zero; exact Hex).
    + by rewrite (proj2 (d_ge_spec _ _)) by (rewrite dval_neg, dval_zero; lra).
  - intros ytm bench. unfold intrabarZ, zAgainstWindow. destruct (dsub ytm bench); [| done].
    rewrite Hr, Hsd. simpl. by rewrite (proj2 (d_lt_spec _ _) Hlt).
Qed.

Context {W : Type} (E : Env W).

(** When the portfolio arrives but holds no readable balance of the two
    assets, the balances of a fresh strategy are marked initialised at zero,
    and the position endpoint is never asked: every later order is sized as
    if the account were flat, whatever it holds.  (A failing portfolio call
    does fall back to the position endpoint.) *)
Theorem mr_portfolio_failure_forgets c y b q w1 accounts w2 :
  QuoteAssetID E (OrderBookID c) (sy_world y) = (Ok q, w1) ->
  GetPortfolioV2 E w1 = (Ok (Some accounts), w2) ->
  (forall r, InitialBalancesFromPortfolio accounts false b q <> Ok (Some r)) ->
  let s := initializeBalances E b (New c y) in
  s_pos s = MkPos dzero dzero SignalHold true /\ tracked_or_live E b s = (Ok dzero, s).
Proof.
  intros Hq Hp Hr. cbv zeta. unfold initializeBalances, call, quiet, invoke. simpl. rewrite Hq. simpl. rewrite Hp.
  unfold initializeBalancesFromPortfolio.
  destruct (InitialBalancesFromPortfolio accounts false b q) as [[r|]|e]; [by destruct (Hr r) | done..].
Qed.
End Hazards.

(** ** Witnesses *)

Section Demo.
#[local] Existing Instance RefDec.

Definition demo_config : Config := {|
  LookbackWindow := 2; Resolution := "1h"; EntryZScore := RD 2 0; ExitZScore := RD 5 1; StopLossZScore := RD 35 1;
  MinStdDev := RD 5 4; MaxPositionSize := RD 1 0; OrderBookID := "book"; CfgTenor := "10Y";
  InitialBalance := RD 1000 0; Leverage := RD 1 0; ImbalanceWindow := 0; ImbalanceThreshold := RD 0 0 |}.

(** A bar with the given close and yield. *)
Definition yield_bar (p ytm : Z) : Bar := {|
  bar_Time := MkTime (1000 * Day) 0; bar_Open := RD p 0; bar_High := RD p 0; bar_Low := RD p 0; bar_Close := RD p 0;
  bar_Volume := RD 1 0; bar_OpenYTM := RD ytm 4; bar_HighYTM := RD ytm 4; bar_LowYTM := RD ytm 4;
  bar_CloseYTM := RD ytm 4; bar_BenchmarkYield := RD 0 0 |}.

Definition wired_nat : Wiring (W := nat) := {|
  FetchHistoricalYields := None; CandleRange := None; SubscribePrices := Ok tt; SubscribeBars := Some (Ok tt) |}.

(** Flat on a window of 400 and 420 basis points. *)
Definition warm : Strategy (W := nat) :=
  let bars := [yield_bar 100 400; yield_bar 100 420] in
  let i := foldl (fun i b => (Update demo_config "bond" b i).2) (new_Ind demo_config) bars in
  upd_pos (fun _ => MkPos (RD 0 0) (RD 1000 0) SignalHold true)
    (with_ind i (New demo_config (MkSys 0%nat []))).

(** A spread of 480 basis points is five deviations wide: all capital is put
    into ten bonds. *)
Lemma mr_step_orders_witness :
  exists s', loop_step demo_env wired_nat "bond" (EvBar (yield_bar 100 480)) warm = Some s' /\
    (fun o => (or_Side o, Qfloor (rval (or_Quantity o)))) <$> orders s' = [(SIDE_BUY, 10)] /\
    exists os, orders s' = orders warm ++ os /\ allowed (EvBar (yield_bar 100 480)) warm os.
Proof.
  destruct (mr_step_orders demo_env wired_nat "bond" (EvBar (yield_bar 100 480)) warm
    (on_bar demo_env wired_nat "bond" (yield_bar 100 480) warm)) as (_ & _ & os & Ho & Ha & _);
    [split; vm_compute; reflexivity | reflexivity |].
  exists (on_bar demo_env wired_nat "bond" (yield_bar 100 480) warm).
  split; [reflexivity |]. split; [vm_compute; reflexivity |]. exists os. exact (conj Ho Ha).
Defined.

Lemma mr_state_well_formed_witness :
  well_formed (Run demo_env wired_nat "run" [EvBar (yield_bar 100 400); EvBar zero_Bar] (New demo_config (MkSys 0%nat []))).2.
Proof. apply (mr_state_well_formed demo_env wired_nat), mr_wf_New. Defined.

(** Two equal spreads of 400, then one of 9000. *)
Definition still : Ind :=
  foldl (fun i b => (Update demo_config "bond" b i).2) (new_Ind demo_config) [yield_bar 100 400; yield_bar 100 400].

Lemma mr_quiet_market_exit_witness :
  exists d i', Update demo_config "bond" (yield_bar 100 9000) still = (Ok d, i') /\
    (ShouldExit demo_config SignalBuy (d_ZScore d) zero_Stop).1 = Some ExitReasonTakeProfit.
Proof.
  assert (is_ok (Update demo_config "bond" (yield_bar 100 9000) still).1 = true) as Hok by (vm_compute; reflexivity).
  destruct (Update demo_config "bond" (yield_bar 100 9000) still) as [[d|e] i'] eqn:Hu; [| discriminate Hok].
  exists d, i'. split; [done |].
  refine (proj1 (mr_quiet_market_exit demo_config "bond" (yield_bar 100 9000) still d i'
    (get_ok dzero (StdDev (window still))) SignalBuy zero_Stop Hu _ _ _ _ _));
    [vm_compute; reflexivity | vm_compute; reflexivity | vm_compute; reflexivity | vm_compute; discriminate | discriminate].
Defined.

(** Ten bonds in the account, and a portfolio whose amounts do not parse. *)
Definition unreadable : Accounts :=
  [("account", [("bond", {| GetIsGlobal := false; Available := "?"; Borrowed := "" |})])]%string.

Definition unreadable_env : Env nat := {|
  BaseAssetID := BaseAssetID demo_env; QuoteAssetID := QuoteAssetID demo_env;
  AssetPosition := fun _ w => (Ok (RD 10 0, RD 0 0), w); GetPortfolioV2 := fun w => (Ok (Some unreadable), w);
  CreateMarketOrder := CreateMarketOrder demo_env; AssetCollateralWeight := AssetCollateralWeight demo_env;
  GetOrderFilledStatus := GetOrderFilledStatus demo_env;
  ListOrdersByClientOrderIDPrefix := ListOrdersByClientOrderIDPrefix demo_env; Records := None;
  Store_SaveState := None; Store_LoadState := None; NewV7 := NewV7 demo_env; uuid_Parse := uuid_Parse demo_env;
  Now := Now demo_env |}.

Lemma mr_portfolio_failure_forgets_witness :
  s_pos (initializeBalances unreadable_env "bond" (New demo_config (MkSys 0%nat []))) =
  MkPos dzero dzero SignalHold true.
Proof.
  refine (proj1 (mr_portfolio_failure_forgets unreadable_env demo_config (MkSys 0%nat []) "bond" "usd" 0%nat
    unreadable 0%nat eq_refl eq_refl _)).
  assert (is_ok (InitialBalancesFromPortfolio unreadable false "bond" "usd") = false) as Hn by (vm_compute; reflexivity).
  intros r Hr. rewrite Hr in Hn. discriminate Hn.
Defined.
End Demo.

Section ExactDemo.
#[local] Existing Instance QDec.
#[local] Open Scope Q_scope.

Definition exact_config : Config := {|
  LookbackWindow := 2; Resolution := "1h"; EntryZScore := 2; ExitZScore := 1 # 2; StopLossZScore := 7 # 2;
  MinStdDev := 5 # 10000; MaxPositionSize := 1; OrderBookID := "book"; CfgTenor := "10Y";
  InitialBalance := 1000; Leverage := 1; ImbalanceWindow := 0%Z; ImbalanceThreshold := 0 |}.

Definition exact_yield (ytm : Q) : Bar := {|
  bar_Time := MkTime (1000 * Day) 0; bar_Open := 100; bar_High := 100; bar_Low := 100; bar_Close := 100;
  bar_Volume := 1; bar_OpenYTM := ytm; bar_HighYTM := ytm; bar_LowYTM := ytm; bar_CloseYTM := ytm;
  bar_BenchmarkYield := 0 |}.

Definition exact_past : list Bar := [exact_yield (4 # 100); exact_yield (42 # 1000)].
Definition exact_state : Ind := (feed exact_config "bond" exact_past (new_Ind exact_config)).2.
Definition exact_outcome : result Decision := (Update exact_config "bond" (exact_yield (48 # 1000)) exact_state).1.

Lemma mr_exact_run : match exact_outcome with Ok d => d_signal d = SignalBuy | Err _ => False end.
Proof. vm_compute. reflexivity. Qed.

Lemma mr_update_textbook_witness :
  exists d, textbook exact_config (past_spreads exact_config exact_past) (spread_of (exact_yield (48 # 1000))) true d /\
    d_signal d = SignalBuy.
Proof.
  pose proof mr_exact_run as Hr. unfold exact_outcome in Hr.
  destruct (Update exact_config "bond" (exact_yield (48 # 1000)) exact_state) as [[d|e] i'] eqn:Hu; [| destruct Hr].
  exists d. split; [| exact Hr].
  apply (mr_update_textbook exact_config "bond" exact_past (exact_yield (48 # 1000)) exact_state d i' eq_refl eq_refl
    (SE_ok_run (feed exact_config "bond" exact_past) (new_Ind exact_config) ltac:(vm_compute; reflexivity)) Hu).
Defined.
End ExactDemo.
