(* ===== verification/MeanReversionBacktest.v ===== *)
(** * strategy/meanreversion: the backtester

    Loading bars, ticks and trades ([historical_data.go]), the replay of bars
    with exits at the bar's adverse extreme or at ticks, cash and profit, the
    force close and the rows handed to the writer ([backtest.go]), and the
    entry point [Backtest] of [strategy.go].

    Theory: every entry has exactly one exit row and one closed trade; the
    balance an entry starts from is the capital plus the profit so far, and
    pays for it; the reported rows never go back in time. *)

From S2P Require Import Prelude GoTime Decimal RefDecimal Types Window Stats Market Replay Feed Fred MeanReversion.

Section Backtest.
Context {D : DecimalOps}.

Record TradeRecord := {
  tr_Time : Time;
  tr_BondID : string;
  tr_Signal : Signal;
  tr_Spread : dec;
  tr_PositionSize : dec;
  tr_ZScore : dec;
  tr_Price : dec;
  tr_Quantity : dec;
  tr_EntryBalance : dec;
}.

Record ClosedTrade := {
  ct_BondID : string;
  ct_OpenTime : Time;
  ct_CloseTime : Time;
  ct_Signal : Signal;
  ct_ExitSignal : Signal;
  ct_EntrySpread : dec;
  ct_ExitSpread : dec;
  ct_EntryZScore : dec;
  ct_ExitZScore : dec;
  ct_PositionSize : dec;
  ct_PnL : dec;
  ct_ExitReason : string;
  ct_EntryPrice : dec;
  ct_ExitPrice : dec;
  ct_Quantity : dec;
  ct_EntryBalance : dec;
}.

Record BacktestResult := {
  br_ClosedTrades : list ClosedTrade;
  br_TradeRecords : list TradeRecord;
  br_TotalPnL : dec;
  br_WinCount : Z;
  br_LossCount : Z;
  br_MaxDrawdown : dec;
  br_SharpeRatio : dec;
}.

Definition computePnL (sig : Signal) (entryPrice exitPrice quantity : dec) : result dec :=
  trade_pnl sig entryPrice exitPrice quantity.

(** [adverseExtreme]; [None] is [ok = false]. *)
Definition adverseExtreme (openSig : Signal) (bar : Bar) : option dec :=
  match openSig with
  | SignalBuy => if d_is_zero (bar_HighYTM bar) then None else Some (bar_HighYTM bar)
  | SignalSell => if d_is_zero (bar_LowYTM bar) then None else Some (bar_LowYTM bar)
  | SignalHold => None
  end.

(** An exit: when, at which spread, score and price, and why. *)
Record Exit := MkExit { x_time : Time; x_spread : dec; x_z : dec; x_price : dec; x_reason : string }.

Definition exit_row (open : TradeRecord) (x : Exit) : TradeRecord := {|
  tr_Time := x_time x; tr_BondID := tr_BondID open; tr_Signal := tr_Signal open; tr_Spread := x_spread x;
  tr_PositionSize := tr_PositionSize open; tr_ZScore := x_z x; tr_Price := x_price x;
  tr_Quantity := tr_Quantity open; tr_EntryBalance := dzero |}.

Definition closed_of (open : TradeRecord) (x : Exit) (exitSignal : Signal) (pnl : dec) : ClosedTrade := {|
  ct_BondID := tr_BondID open; ct_OpenTime := tr_Time open; ct_CloseTime := x_time x; ct_Signal := tr_Signal open;
  ct_ExitSignal := exitSignal; ct_EntrySpread := tr_Spread open; ct_ExitSpread := x_spread x;
  ct_EntryZScore := tr_ZScore open; ct_ExitZScore := x_z x; ct_PositionSize := tr_PositionSize open; ct_PnL := pnl;
  ct_ExitReason := x_reason x; ct_EntryPrice := tr_Price open; ct_ExitPrice := x_price x;
  ct_Quantity := tr_Quantity open; ct_EntryBalance := tr_EntryBalance open |}.

(** Close [open] at [x]: the closed trade, its row and the new balance.  The
    bar exit of [Run] and [closeOnTick] are this computation. *)
Definition settle (open : TradeRecord) (x : Exit) (exitSignal : Signal) (balance : dec) :
    result (ClosedTrade * TradeRecord * dec) :=
  newBalance ← cash_out (tr_Signal open) balance (x_price x) (tr_Quantity open);
  pnl ← computePnL (tr_Signal open) (tr_Price open) (x_price x) (tr_Quantity open);
  Ok (closed_of open x exitSignal pnl, exit_row open x, newBalance).

Definition closeOnTick (open : TradeRecord) (tick : AssetPrice) (spread exitZ : dec) (exitSignal : Signal)
    (reason : string) (remainingBalance : dec) : result (ClosedTrade * TradeRecord * dec) :=
  settle open (MkExit (px_Time tick) spread exitZ (px_Price tick) reason) exitSignal remainingBalance.

(** ** Ticks and trades *)

Definition tickWindow (ticks : list AssetPrice) (idx : nat) (from to : Time) : list AssetPrice * nat :=
  Replay.tickWindow ticks idx from to.

(** [trades.Trade], the fields read *)
Record Trade := { t_Time : Time; t_Quantity : dec; t_Side : string }.

Fixpoint ingest (ts : list Trade) (cutoff : Time) (imb : option Rolling) : nat * option Rolling :=
  match ts with
  | [] => (0%nat, imb)
  | t :: rest =>
      if time_after (t_Time t) cutoff then (0%nat, imb)
      else let '(n, imb') := ingest rest cutoff (applyTrade {| te_Quantity := t_Quantity t; te_Side := t_Side t |} imb) in
           (S n, imb')
  end.

Definition ingestTradesUpTo (ts : list Trade) (idx : nat) (cutoff : Time) (imb : option Rolling) : nat * option Rolling :=
  let '(n, imb') := ingest (drop idx ts) cutoff imb in ((idx + n)%nat, imb').

(** ** The simulation *)

Definition barsAhead : Z := 2.

Record Params := {
  bt_cfg : Config;
  bt_weight : dec;          (* the strategy's collateral weight *)
  bt_baseAssetID : string;
  bt_ticks : list AssetPrice;
  bt_trades : list Trade;
  bt_TradeFrom : Time;
  bt_TradeTo : Time;
  (** whether the context is done when bar [i] is reached *)
  bt_cancelled : nat -> bool;
}.

(** The strategy's state, the lists, and the loop's variables. *)
Record Sim := MkSim {
  m_ind : Ind;
  m_imb : option Rolling;
  m_stop : StopTrigger;
  m_closed : list ClosedTrade;
  m_records : list TradeRecord;
  m_open : option TradeRecord;
  m_last : Decision;
  m_balance : dec;
  m_idx : nat;
  m_tradeIdx : nat;
  m_had : bool;   (* prevWindowHadTicks *)
}.

Definition zero_Decision : Decision :=
  MkDecision zero_time "" dzero dzero dzero dzero dzero dzero dzero SignalHold dzero "".

Definition set_book (closed : list ClosedTrade) (records : list TradeRecord) (open : option TradeRecord) (balance : dec)
    (m : Sim) : Sim :=
  MkSim (m_ind m) (m_imb m) (m_stop m) closed records open (m_last m) balance (m_idx m) (m_tradeIdx m) (m_had m).
Definition set_stop (st : StopTrigger) (m : Sim) : Sim :=
  MkSim (m_ind m) (m_imb m) st (m_closed m) (m_records m) (m_open m) (m_last m) (m_balance m) (m_idx m)
    (m_tradeIdx m) (m_had m).
Definition set_cursor (idx : nat) (had : bool) (m : Sim) : Sim :=
  MkSim (m_ind m) (m_imb m) (m_stop m) (m_closed m) (m_records m) (m_open m) (m_last m) (m_balance m) idx
    (m_tradeIdx m) had.

Section Simulation.
Context (P : Params).
#[local] Abbreviation c := (bt_cfg P).
Definition bar_res : Z := ResolutionDuration (Resolution c).
Definition close_of (bar : Bar) : Time := time_add (bar_Time bar) bar_res.

Definition in_window (bar : Bar) : bool :=
  (time_is_zero (bt_TradeFrom P) || negb (time_before (bar_Time bar) (bt_TradeFrom P))) &&
  (time_is_zero (bt_TradeTo P) || negb (time_after (close_of bar) (bt_TradeTo P))).

(** Whether the bar closes the position: the close decision, overridden by
    the adverse extreme unless ticks already covered the bar. *)
Definition bar_exit (open : TradeRecord) (bar : Bar) (d : Decision) (had : bool) (w : Rolling) (st : StopTrigger) :
    result (option Exit) * StopTrigger :=
  let '(reason, st1) := ShouldExit c (tr_Signal open) (d_ZScore d) st in
  let at_close := (fun r => MkExit (time_add (d_time d) bar_res) (d_Spread d) (d_ZScore d) (d_price d) r) <$> reason in
  if had then (Ok at_close, st1) else
  match adverseExtreme (tr_Signal open) bar with
  | None => (Ok at_close, st1)
  | Some adverseYTM =>
      match dsub adverseYTM (bar_BenchmarkYield bar) with
      | Err e => (Err e, st1)
      | Ok adverseSpread =>
          match zAgainstWindow c w adverseSpread with
          | None => (Ok at_close, st1)
          | Some z =>
              let '(reason2, st2) := ShouldExit c (tr_Signal open) z st1 in
              let price := if bool_decide (tr_Signal open = SignalBuy) then bar_Low bar else bar_High bar in
              (Ok (match reason2 with
                   | Some r => Some (MkExit (time_add (d_time d) bar_res) adverseSpread z price r)
                   | None => at_close end), st2)
          end
      end
  end.

Definition book_close (open : TradeRecord) (x : Exit) (exitSignal : Signal) (m : Sim) : result Sim :=
  '(ct, row, newBalance) ← settle open x exitSignal (m_balance m);
  Ok (set_book (m_closed m ++ [ct]) (m_records m ++ [row]) None newBalance m).

Definition entry_record (d : Decision) (qty balance : dec) : TradeRecord := {|
  tr_Time := time_add (d_time d) bar_res; tr_BondID := d_bondID d; tr_Signal := d_signal d; tr_Spread := d_Spread d;
  tr_PositionSize := d_positionSize d; tr_ZScore := d_ZScore d; tr_Price := d_price d; tr_Quantity := qty;
  tr_EntryBalance := balance |}.

Definition enter (bar : Bar) (d : Decision) (m : Sim) : result Sim :=
  if bool_decide (d_signal d = SignalHold) || negb (imbalanceAllows c (m_imb m) (d_signal d)) || negb (in_window bar)
  then Ok m
  else
    budget ← dmul (m_balance m) (d_positionSize d);
    q ← dquo budget (d_price d);
    let qty := dfloor q in
    if d_is_zero qty then Ok m
    else
      let rec := entry_record d qty (m_balance m) in
      balance ← cash_in (d_signal d) (m_balance m) (d_price d) qty;
      Ok (set_book (m_closed m) (m_records m ++ [rec]) (Some rec) balance m).

(** Exit or entry at the bar's close; a position closed here is not
    re-entered on the same bar. *)
Definition close_phase (bar : Bar) (d : Decision) (m : Sim) : result Sim :=
  match m_open m with
  | Some open =>
      let '(exit, st) := bar_exit open bar d (m_had m) (window (m_ind m)) (m_stop m) in
      exit ← exit;
      let m1 := set_stop st m in
      match exit with
      | Some x => book_close open x (d_signal d) m1
      | None => Ok m1
      end
  | None => enter bar d m
  end.

(** The first tick that asks for an exit, with its spread and score. *)
Fixpoint first_exit (open : TradeRecord) (bench : dec) (w : Rolling) (window : list AssetPrice) (st : StopTrigger) :
    result (option (AssetPrice * dec * dec * string)) * StopTrigger :=
  match window with
  | [] => (Ok None, st)
  | tick :: rest =>
      match px_YTM tick with
      | None => first_exit open bench w rest st
      | Some ytm =>
          match dsub ytm bench with
          | Err e => (Err e, st)
          | Ok spread =>
              match zAgainstWindow c w spread with
              | None => first_exit open bench w rest st
              | Some z =>
                  let '(stop, st1) := ShouldExit c (tr_Signal open) z st in
                  match stop with
                  | Some reason => (Ok (Some (tick, spread, z, reason)), st1)
                  | None => first_exit open bench w rest st1
                  end
              end
          end
      end
  end.

(** Replay the ticks up to the next close. *)
Definition tick_phase (bar : Bar) (next : option Bar) (d : Decision) (m : Sim) : result Sim :=
  match m_open m with
  | None => Ok m
  | Some open =>
      let nextClose := match next with
        | Some b => close_of b
        | None => time_add (bar_Time bar) (dur_mul bar_res barsAhead) end in
      let '(ticks, idx) := tickWindow (bt_ticks P) (m_idx m) (close_of bar) nextClose in
      let '(exit, st) := first_exit open (bar_BenchmarkYield bar) (window (m_ind m)) ticks (m_stop m) in
      exit ← exit;
      let m1 := set_stop st (set_cursor idx (0 <? length ticks)%nat m) in
      match exit with
      | Some (tick, spread, z, reason) =>
          '(ct, row, balance) ← closeOnTick open tick spread z (d_signal d) reason (m_balance m1);
          Ok (set_book (m_closed m1 ++ [ct]) (m_records m1 ++ [row]) None balance m1)
      | None => Ok m1
      end
  end.

Definition bt_step (i : nat) (bar : Bar) (next : option Bar) (m : Sim) : result Sim :=
  if bt_cancelled P i then Err (ErrMsg "backtest cancelled by user") else
  let '(tradeIdx, imb) := ingestTradesUpTo (bt_trades P) (m_tradeIdx m) (close_of bar) (m_imb m) in
  let '(r, ind) := Update c (bt_baseAssetID P) bar (m_ind m) in
  decision ← r;
  m1 ← close_phase bar decision (MkSim ind imb (m_stop m) (m_closed m) (m_records m) (m_open m) decision (m_balance m)
                                   (m_idx m) tradeIdx (m_had m));
  tick_phase bar next decision m1.

Fixpoint replay (i : nat) (bars : list Bar) (m : Sim) : result Sim :=
  match bars with
  | [] => Ok m
  | bar :: rest => m1 ← bt_step i bar (hd_error rest) m; replay (S i) rest m1
  end.

(** Force-close at the last bar's close and the last decision's price; the
    balance is computed only for its errors. *)
Definition force_close (bars : list Bar) (m : Sim) : result Sim :=
  match m_open m, last bars with
  | Some open, Some b =>
      let l := m_last m in
      lastSpread ← dsub (bar_CloseYTM b) (bar_BenchmarkYield b);
      '(ct, row, _) ← settle open (MkExit (close_of b) lastSpread (d_ZScore l) (d_price l) ExitReasonForceClose)
                        (d_signal l) (m_balance m);
      Ok (set_book (m_closed m ++ [ct]) (m_records m ++ [row]) None (m_balance m) m)
  | _, _ => Ok m
  end.

Definition summarise (trades : list ClosedTrade) (records : list TradeRecord) (start end_ : Time) : result BacktestResult :=
  s ← Summarise ((fun t => {| PnL := ct_PnL t; CloseTime := ct_CloseTime t |}) <$> trades) start end_;
  Ok {| br_ClosedTrades := trades; br_TradeRecords := records; br_TotalPnL := TotalPnL s;
        br_WinCount := WinCount s; br_LossCount := LossCount s; br_MaxDrawdown := MaxDrawdown s;
        br_SharpeRatio := SharpeRatio s |}.

(** [Backtester.Run], without the writer *)
Definition Run (i : Ind) (imb : option Rolling) (st : StopTrigger) (bars : list Bar) : result BacktestResult :=
  e0 ← dmul (InitialBalance c) (bt_weight P);
  effectiveCapital ← dmul e0 (Leverage c);
  m0 ← replay 0 bars (MkSim i imb st [] [] None zero_Decision effectiveCapital 0 0 false);
  m ← force_close bars m0;
  let start := if time_is_zero (bt_TradeFrom P) then default zero_time (bar_Time <$> hd_error bars) else bt_TradeFrom P in
  let end_ := if time_is_zero (bt_TradeTo P) then default zero_time (bar_Time <$> last bars) else bt_TradeTo P in
  summarise (m_closed m) (m_records m) start end_.
End Simulation.

(** [streamTrades], then the flush: errors of the writer are only logged. *)
Definition record_row (r : TradeRecord) : TradeRecordInsert := {|
  tri_BacktestID := uuid_nil; tri_Time := tr_Time r; tri_BondID := tr_BondID r;
  tri_Signal := Signal_String (tr_Signal r); tri_Price := tr_Price r; tri_Quantity := tr_Quantity r;
  tri_EntryBalance := tr_EntryBalance r; tri_OrderSize := dzero; tri_Cash := dzero; tri_OpenPosition := dzero;
  tri_TradeID := ""; tri_Spread := tr_Spread r; tri_PositionSize := tr_PositionSize r; tri_ZScore := tr_ZScore r;
  tri_CompressionRatio := dzero; tri_EntryATR := dzero |}.

Definition closed_row (t : ClosedTrade) : ClosedTradeInsert := {|
  cti_BacktestID := uuid_nil; cti_OpenTime := ct_OpenTime t; cti_CloseTime := ct_CloseTime t;
  cti_BondID := ct_BondID t; cti_OpenSignal := Signal_String (ct_Signal t);
  cti_CloseSignal := Signal_String (ct_ExitSignal t); cti_Quantity := ct_Quantity t;
  cti_EntryPrice := ct_EntryPrice t; cti_ExitPrice := ct_ExitPrice t; cti_PnL := ct_PnL t;
  cti_EntryBalance := ct_EntryBalance t; cti_OpenTradeID := ""; cti_CloseTradeID := "";
  cti_EntrySpread := ct_EntrySpread t; cti_ExitSpread := ct_ExitSpread t; cti_EntryZScore := ct_EntryZScore t;
  cti_ExitZScore := ct_ExitZScore t; cti_PositionSize := ct_PositionSize t; cti_ExitReason := ct_ExitReason t;
  cti_EntryCompressionRatio := dzero; cti_ExitCompressionRatio := dzero |}.

Definition streamTrades (records : list TradeRecord) (closed : list ClosedTrade) : list WriterCall :=
  (WriteTradeRecord ∘ record_row <$> records) ++ (WriteClosedTrade ∘ closed_row <$> closed) ++ [Flush].

(** ** Loading *)

(** The candle, tick and trade stores and the FRED client. *)
Record History := {
  CandleStoreAvailable : result unit;
  Store_CandleRange : string -> result (option Time * option Time);
  LoadCandlesBucketed : string -> string -> Time -> Time -> result (list Candle);
  LoadHistoricalPrices : option (string -> Time -> Time -> result (list AssetPrice));
  BenchmarkClient : result (Tenor -> Time -> Time -> result (list Observation));
  (** the trades received before the channel closes; errors are only logged *)
  StreamTrades : option (string -> Time -> Time -> list Trade);
}.
Context (H : History).

Definition cfg_res (cfg : Config) : Z := ResolutionDuration (Resolution cfg).

Definition checkCandleCoverage (cfg : Config) (dataStart end_ : Time) : result unit :=
  covered (Store_CandleRange H (OrderBookID cfg)) dataStart end_.

(** [PreflightBacktest]; [injected] tells whether a store was injected. *)
Definition PreflightBacktest (injected : bool) (cfg : Config) (start end_ : Time) : result unit :=
  if negb injected then Ok tt
  else if cfg_res cfg =? 0 then Err (ErrMsg "unknown resolution")
  else checkCandleCoverage cfg (warmup_start (LookbackWindow cfg) (cfg_res cfg) start) (floor_end (cfg_res cfg) end_).

(** One loaded candle: the bar it gives, or [None] when it is skipped. *)
Definition usable_bar (cfg : Config) (cache : list Observation) (cd : Candle) : option Bar :=
  if d_is_zero (c_CloseYTM cd) then None
  else
    let bar := BarFromCandle cd in
    o ← cachedObservation cache (time_add (bar_Time bar) (cfg_res cfg));
    Some (set_BenchmarkYield (ob_Yield o) bar).

(** [getBars]; the state is the strategy's benchmark cache. *)
Definition getBars (cfg : Config) (start end_ : Time) : SE (list Observation) (list Bar) :=
  if cfg_res cfg =? 0 then lift (Err (ErrMsg "unknown resolution")) else
  let dataStart := warmup_start (LookbackWindow cfg) (cfg_res cfg) start in
  let loadEnd := floor_end (cfg_res cfg) end_ in
  _ ← lift (CandleStoreAvailable H);
  _ ← lift (checkCandleCoverage cfg dataStart loadEnd);
  tenor ← lift (ParseBenchmarkTenor (CfgTenor cfg));
  client ← lift (BenchmarkClient H);
  obs ← lift (wrap_err "fetch historical benchmark yields" (client tenor dataStart loadEnd));
  _ ← modify (fun _ => Fred.setBenchmarkObservations obs);
  loaded ← lift (wrap_err "load candles" (LoadCandlesBucketed H (OrderBookID cfg) (Resolution cfg) dataStart loadEnd));
  cache ← gets id;
  let bars := omap (usable_bar cfg cache) loaded in
  if (0 <? length loaded)%nat && (length bars =? 0)%nat then lift (Err (ErrMsg "no usable candles"))
  else mret bars.

(** [loadTicks]: best effort. *)
Definition loadTicks (cfg : Config) (assetID : string) (bars : list Bar) : list AssetPrice :=
  match hd_error bars, last bars, LoadHistoricalPrices H with
  | Some first, Some final, Some load =>
      or_zero [] (load assetID (bar_Time first) (time_add (bar_Time final) (cfg_res cfg)))
  | _, _, _ => []
  end.

(** [loadTrades]: the range ends at the last bar's start. *)
Definition loadTrades (cfg : Config) (bars : list Bar) : list Trade :=
  if ImbalanceWindow cfg <=? 0 then [] else
  match StreamTrades H, hd_error bars, last bars with
  | Some stream, Some first, Some final => stream (OrderBookID cfg) (bar_Time first) (bar_Time final)
  | _, _, _ => []
  end.

(** [Backtest] of a strategy with configuration [cfg], collateral weight
    [weight] and state [i], [imb], [st]; [asset] is the outcome of
    [LookupAssetID]. *)
Definition Backtest (cfg : Config) (weight : dec) (i : Ind) (imb : option Rolling) (st : StopTrigger) (now : Time)
    (asset : result string) (cancelled : nat -> bool) (start end_ : Time) : SE (list Observation) BacktestResult :=
  if time_before end_ start then lift (Err (ErrMsg "end date must be after start date"))
  else if time_after start now || time_after end_ now then
    lift (Err (ErrMsg "start and end date must be in the past"))
  else
    _ ← lift (wrap_err "tenor is required for mean_reversion" (ParseBenchmarkTenor (CfgTenor cfg)));
    bars ← getBars cfg start end_;
    assetID ← lift (wrap_err "backtest requires the order book's base asset" asset);
    lift (Run {| bt_cfg := cfg; bt_weight := weight; bt_baseAssetID := assetID; bt_ticks := loadTicks cfg assetID bars;
                 bt_trades := loadTrades cfg bars; bt_TradeFrom := start; bt_TradeTo := end_;
                 bt_cancelled := cancelled |} i imb st bars).
End Backtest.

(** ** Theory: the book of a simulation *)

Section BookTheory.
Context {D : DecimalOps} (P : Params).
Implicit Types (bar : Bar) (m : Sim) (e : TradeRecord) (x : Exit) (ct : ClosedTrade) (d : Decision).

(** One round trip: the entry, its exit row, the closed trade. *)
Definition trip_ok (t : TradeRecord * TradeRecord * ClosedTrade) : Prop :=
  let '(e, row, ct) := t in
  exists x sig pnl, ct = closed_of e x sig pnl /\ row = exit_row e x /\
    computePnL (tr_Signal e) (tr_Price e) (x_price x) (tr_Quantity e) = Ok pnl.

(** An entry at the close of a bar inside the trading window, paid from the
    balance of that moment. *)
Definition entry_ok bar e : Prop :=
  exists budget q, tr_Time e = close_of P bar /\ tr_Price e = bar_Close bar /\
    in_window P bar = true /\ tr_Signal e <> SignalHold /\
    dmul (tr_EntryBalance e) (tr_PositionSize e) = Ok budget /\ dquo budget (tr_Price e) = Ok q /\
    tr_Quantity e = dfloor q /\ d_is_zero (tr_Quantity e) = false.

(** What one phase does to the book; [span] bounds the time of its exit. *)
Inductive book_change bar (span : Z -> Prop) m m' : Prop :=
  | bc_keep : m_closed m' = m_closed m -> m_records m' = m_records m -> m_open m' = m_open m ->
      m_balance m' = m_balance m -> book_change bar span m m'
  | bc_exit e x sig ct row balance : m_open m = Some e -> span (t_ns (x_time x)) ->
      settle e x sig (m_balance m) = Ok (ct, row, balance) ->
      m_closed m' = m_closed m ++ [ct] -> m_records m' = m_records m ++ [row] ->
      m_open m' = None -> m_balance m' = balance -> book_change bar span m m'
  | bc_entry e balance : m_open m = None -> entry_ok bar e -> tr_EntryBalance e = m_balance m ->
      cash_in (tr_Signal e) (m_balance m) (tr_Price e) (tr_Quantity e) = Ok balance ->
      m_closed m' = m_closed m -> m_records m' = m_records m ++ [e] -> m_open m' = Some e ->
      m_balance m' = balance -> book_change bar span m m'.

Lemma mb2_settle_Ok e x sig b ct row b' : settle e x sig b = Ok (ct, row, b') ->
  exists pnl, cash_out (tr_Signal e) b (x_price x) (tr_Quantity e) = Ok b' /\
    computePnL (tr_Signal e) (tr_Price e) (x_price x) (tr_Quantity e) = Ok pnl /\
    ct = closed_of e x sig pnl /\ row = exit_row e x.
Proof.
  unfold settle. intros H. apply result_bind_Ok in H as (nb & Hc & H). apply result_bind_Ok in H as (pnl & Hp & [= <- <- <-]).
  by exists pnl.
Qed.

Lemma mb2_bar_exit_time open bar d had w st x st' : d_time d = bar_Time bar ->
  bar_exit P open bar d had w st = (Ok (Some x), st') -> x_time x = close_of P bar.
Proof.
  intros Ht. unfold bar_exit. destruct (ShouldExit _ _ _ st) as [reason st1].
  assert (forall y, (fun r => MkExit (time_add (d_time d) (bar_res P)) (d_Spread d) (d_ZScore d) (d_price d) r) <$> reason =
    Some y -> x_time y = close_of P bar) as Hc by (destruct reason; intros y [= <-]; simpl; by rewrite Ht).
  destruct had; [intros [= H _]; by apply Hc |]. destruct (adverseExtreme _ _); [| intros [= H _]; by apply Hc].
  destruct (dsub _ _); [| done]. destruct (zAgainstWindow _ _ _) as [z|]; [| intros [= H _]; by apply Hc].
  destruct (ShouldExit _ _ _ st1) as [[r2|] st2]; intros [= H _]; [rewrite <- H; simpl; by rewrite Ht | by apply Hc].
Qed.

Definition at_close bar (t : Z) : Prop := t = t_ns (close_of P bar).

Lemma mb2_close_phase_change bar d m m' : d_price d = bar_Close bar -> d_time d = bar_Time bar ->
  close_phase P bar d m = Ok m' -> book_change bar (at_close bar) m m'.
Proof.
  intros Hp Ht. unfold close_phase. destruct (m_open m) as [open|] eqn:Ho.
  - destruct (bar_exit P open bar d _ _ _) as [ex st] eqn:Hx. intros H. apply result_bind_Ok in H as ([x|] & -> & H);
      [| injection H as <-; by apply bc_keep].
    apply mb2_bar_exit_time in Hx; [| done].
    unfold book_close in H. apply result_bind_Ok in H as ([[ct row] nb] & Hs & [= <-]).
    eapply bc_exit; try done. unfold at_close. by rewrite Hx.
  - unfold enter. destruct (_ || _) eqn:Hg; [intros [= <-]; by apply bc_keep |].
    apply orb_false_elim in Hg as [Hg Hw]. apply orb_false_elim in Hg as [Hs _].
    apply bool_decide_eq_false in Hs. apply negb_false_iff in Hw.
    intros H. apply result_bind_Ok in H as (budget & Hb & H). apply result_bind_Ok in H as (q & Hq & H).
    destruct (d_is_zero (dfloor q)) eqn:Hz; [injection H as <-; by apply bc_keep |].
    apply result_bind_Ok in H as (bal & Hbal & [= <-]).
    eapply (bc_entry bar _ m _ (entry_record P d (dfloor q) (m_balance m))); try done.
    exists budget, q. simpl. rewrite Hp in *. rewrite Ht. by split_and!.
Qed.

(** Where the tick window of a bar ends. *)
Definition next_close bar (next : option Bar) : Time :=
  match next with Some b => close_of P b | None => time_add (bar_Time bar) (dur_mul (bar_res P) barsAhead) end.

Definition in_ticks bar next (t : Z) : Prop := t_ns (close_of P bar) < t <= t_ns (next_close bar next).

Lemma mb2_first_exit_in open bench w ticks st tick sp z reason st' :
  first_exit P open bench w ticks st = (Ok (Some (tick, sp, z, reason)), st') -> tick ∈ ticks.
Proof.
  revert st. induction ticks as [|t ticks IH]; intros st; simpl; [done |].
  assert (forall s, first_exit P open bench w ticks s = (Ok (Some (tick, sp, z, reason)), st') -> tick ∈ t :: ticks) as Hr
    by (intros s H; constructor; by eapply IH).
  destruct (px_YTM t); [| apply Hr]. destruct (dsub _ _); [| done]. destruct (zAgainstWindow _ _ _); [| apply Hr].
  destruct (ShouldExit _ _ _ _) as [[r|] st1]; [intros [= -> _ _ _ _]; constructor | apply Hr].
Qed.

Lemma mb2_tick_phase_change bar next d m m' : tick_phase P bar next d m = Ok m' ->
  book_change bar (in_ticks bar next) m m'.
Proof.
  unfold tick_phase. destruct (m_open m) as [open|] eqn:Ho; [| intros [= <-]; by apply bc_keep].
  fold (next_close bar next). destruct (tickWindow _ _ _ _) as [ticks idx] eqn:Hw.
  destruct (first_exit _ _ _ _ _ _) as [ex st] eqn:Hf.
  intros H. apply result_bind_Ok in H as ([[[[tick spread] z] reason]|] & -> & H); [| injection H as <-; by apply bc_keep].
  apply mb2_first_exit_in in Hf. pose proof (tick_window_in_span (bt_ticks P) (m_idx m) (close_of P bar) (next_close bar next)) as Hin.
  fold (tickWindow (bt_ticks P) (m_idx m) (close_of P bar) (next_close bar next)) in Hin. rewrite Hw in Hin.
  apply result_bind_Ok in H as ([[ct row] nb] & Hs & [= <-]). unfold closeOnTick in Hs. eapply bc_exit; try done.
  exact (proj1 (Forall_forall _ _) Hin _ Hf).
Qed.

Lemma mb2_bt_step_change i bar next m m' : bt_step P i bar next m = Ok m' ->
  exists m1, book_change bar (at_close bar) m m1 /\ book_change bar (in_ticks bar next) m1 m'.
Proof.
  unfold bt_step. destruct (bt_cancelled P i); [done |].
  destruct (ingestTradesUpTo _ _ _ _) as [ti imb]. destruct (Update _ _ _ _) as [[d|] ind] eqn:Hu; [| done].
  simpl. intros H. apply result_bind_Ok in H as (m1 & Hc & Ht).
  apply mr_Update_Ok in Hu as (sp & sd & z & sz & w' & _ & _ & _ & _ & _ & _ & ->).
  exists m1. split; [| by apply mb2_tick_phase_change with (1 := Ht)].
  apply mb2_close_phase_change in Hc; [| done..].
  destruct Hc as [K1 K2 K3 K4|e x sig ct row bal K1 K2 K3 K4 K5 K6|e bal K1 K2 K3 K4 K5 K6 K7 K8]; simpl in *;
    [by apply bc_keep | by eapply bc_exit | by eapply bc_entry].
Qed.

(** A property of the book that every phase keeps holds after the replay. *)
Lemma mb2_replay_invariant (I : Sim -> Prop) bars i m m' :
  (forall bar span m1 m2, bar ∈ bars -> book_change bar span m1 m2 -> I m1 -> I m2) ->
  replay P i bars m = Ok m' -> I m -> I m'.
Proof.
  revert i m. induction bars as [|bar bars IH]; intros i m HI H Hm; simpl in H; [by injection H as <- |].
  apply result_bind_Ok in H as (m1 & Hs & H). apply mb2_bt_step_change in Hs as (m0 & C1 & C2).
  eapply IH; [| exact H |].
  - intros b span a1 a2 Hb. apply (HI b span). by constructor.
  - eapply (HI bar); [constructor | exact C2 |]. eapply (HI bar); [constructor | exact C1 | done].
Qed.

(** The force close settles what is open, but leaves the balance alone. *)
Lemma mb2_force_close_Ok bars m m' : force_close P bars m = Ok m' ->
  m' = m /\ (m_open m = None \/ bars = []) \/
  exists final e x sig ct row b, last bars = Some final /\ x_time x = close_of P final /\
    m_open m = Some e /\ settle e x sig (m_balance m) = Ok (ct, row, b) /\
    m_closed m' = m_closed m ++ [ct] /\ m_records m' = m_records m ++ [row] /\ m_open m' = None.
Proof.
  unfold force_close. destruct (m_open m) as [e|] eqn:Ho; [| intros [= <-]; left; auto].
  destruct (last bars) as [b|] eqn:Hl; [| apply last_None in Hl; intros [= <-]; left; auto].
  intros H. right. apply result_bind_Ok in H as (sp & _ & H).
  apply result_bind_Ok in H as ([[ct row] nb] & Hs & [= <-]).
  eexists b, e, _, _, ct, row, nb. split; [done |]. split; [| by split_and!]. done.
Qed.

Lemma mb2_Run_Ok i imb st bars r : Run P i imb st bars = Ok r ->
  exists c0 capital m0 m, dmul (InitialBalance (bt_cfg P)) (bt_weight P) = Ok c0 /\
    dmul c0 (Leverage (bt_cfg P)) = Ok capital /\
    replay P 0 bars (MkSim i imb st [] [] None zero_Decision capital 0 0 false) = Ok m0 /\
    force_close P bars m0 = Ok m /\ br_ClosedTrades r = m_closed m /\ br_TradeRecords r = m_records m.
Proof.
  unfold Run. intros H. apply result_bind_Ok in H as (e0 & He & H). apply result_bind_Ok in H as (cap & Hcap & H).
  apply result_bind_Ok in H as (m0 & H0 & H). apply result_bind_Ok in H as (m & Hm & H).
  unfold summarise in H. apply result_bind_Ok in H as (s & Hs & [= <-]). by exists e0, cap, m0, m.
Qed.

(** *** Round trips *)

Definition trips_inv (bars : list Bar) (trips : list (TradeRecord * TradeRecord * ClosedTrade)) m : Prop :=
  m_records m = (trips ≫= fun t => [t.1.1; t.1.2]) ++ option_list (m_open m) /\
  m_closed m = trips.*2 /\ Forall trip_ok trips /\ Forall (fun t => exists bar, bar ∈ bars /\ entry_ok bar t.1.1) trips /\
  (forall e, m_open m = Some e -> exists bar, bar ∈ bars /\ entry_ok bar e).

Lemma mb2_trips_exit bars trips m m' e x sig ct row b b' : trips_inv bars trips m -> m_open m = Some e ->
  settle e x sig b = Ok (ct, row, b') -> m_closed m' = m_closed m ++ [ct] ->
  m_records m' = m_records m ++ [row] -> m_open m' = None -> trips_inv bars (trips ++ [(e, row, ct)]) m'.
Proof.
  intros (B1 & B2 & B3 & B4 & B5) Ho Hs Hc Hr Hn. apply mb2_settle_Ok in Hs as (pnl & _ & Hp & -> & ->). split_and!.
  - rewrite Hr, B1, Ho, Hn, bind_app. simpl. by rewrite app_nil_r, <- app_assoc.
  - by rewrite Hc, B2, fmap_app.
  - apply Forall_app. split; [done |]. constructor; [| done]. by exists x, sig, pnl.
  - apply Forall_app. split; [done |]. constructor; [| done]. by apply B5.
  - by rewrite Hn.
Qed.

Lemma mb2_trips_change bars bar span m m' : bar ∈ bars -> book_change bar span m m' ->
  (exists trips, trips_inv bars trips m) -> exists trips, trips_inv bars trips m'.
Proof.
  intros Hb [K1 K2 K3 _|e x sig ct row bal Ho _ Hs Hc Hr Hn _|e bal Ho He _ _ Hc Hr Hn _] (trips & B).
  - exists trips. unfold trips_inv in *. by rewrite K1, K2, K3.
  - eexists. by eapply mb2_trips_exit.
  - exists trips. destruct B as (B1 & B2 & B3 & B4 & B5). unfold trips_inv.
    rewrite Hc, Hr, Hn, B1, Ho. simpl. rewrite app_nil_r. split_and!; try done. intros e' [= <-]. by exists bar.
Qed.

(** C17: the rows a backtest reports alternate: every entry is followed by
    its exit, which repeats the bond, signal, size and quantity, and each pair
    is one closed trade with that profit; every entry is stamped with the
    close of a bar inside the trading window, at that bar's closing price,
    for a whole, non-zero number of bonds. *)
Theorem mr_backtest_trips i imb st bars r :
  Run P i imb st bars = Ok r ->
  exists trips : list (TradeRecord * TradeRecord * ClosedTrade),
    br_TradeRecords r = (trips ≫= fun t => [t.1.1; t.1.2]) /\ br_ClosedTrades r = trips.*2 /\
    Forall trip_ok trips /\ Forall (fun t => exists bar, bar ∈ bars /\ entry_ok bar t.1.1) trips.
Proof.
  intros H. apply mb2_Run_Ok in H as (e0 & cap & m0 & m & _ & _ & H0 & Hf & -> & ->).
  assert (exists trips, trips_inv bars trips m0) as (trips & B).
  { apply (mb2_replay_invariant (fun m => exists trips, trips_inv bars trips m) bars 0 _ _ (mb2_trips_change bars) H0). by exists []. }
  apply mb2_force_close_Ok in Hf as [[-> Ho]|(final & e & x & sig & ct & row & b & _ & _ & Ho & Hs & C1 & C2 & C3)].
  - assert (m_open m0 = None) as Hn by (destruct Ho as [?| ->]; [done | by injection H0 as <-]).
    destruct B as (B1 & B2 & B3 & B4 & _). exists trips. by rewrite B1, Hn, app_nil_r.
  - destruct (mb2_trips_exit _ _ _ _ _ _ _ _ _ _ _ B Ho Hs C1 C2 C3) as (B1 & B2 & B3 & B4 & _).
    rewrite C3, app_nil_r in B1. eexists. split_and!; [exact B1 | exact B2 | exact B3 | exact B4].
Qed.

(** *** Time order *)

Definition row_ns (r : TradeRecord) : Z := t_ns (tr_Time r).
Definition bar_ns bar : Z := t_ns (close_of P bar).

Lemma mb2_timeline_change bar span limit limit' m m' :
  (forall t, span t -> limit <= t <= limit') -> limit <= bar_ns bar <= limit' ->
  book_change bar span m m' -> timeline row_ns limit (m_records m) -> timeline row_ns limit' (m_records m').
Proof.
  intros Hs Hb [_ K _ _|e x sig ct row bal _ Hx Hse _ Hr _ _|e bal _ He _ _ _ Hr _ _] T.
  - rewrite K. apply (timeline_weaken _ limit); [lia | done].
  - apply mb2_settle_Ok in Hse as (pnl & _ & _ & _ & ->). rewrite Hr. eapply timeline_snoc; [exact T |]. by apply Hs.
  - rewrite Hr. eapply timeline_snoc; [exact T |]. destruct He as (budget & q & He & _). unfold row_ns. by rewrite He.
Qed.

(** After a step the rows reach at most to the end of its tick window, and
    only to the bar's close while a position is open. *)
Lemma mb2_step_timeline i bar next m m' : bt_step P i bar next m = Ok m' -> timeline row_ns (bar_ns bar) (m_records m) ->
  timeline row_ns (Z.max (bar_ns bar) (t_ns (next_close bar next))) (m_records m') /\
  (m_open m' <> None -> timeline row_ns (bar_ns bar) (m_records m')).
Proof.
  intros H T. apply mb2_bt_step_change in H as (m1 & C1 & C2).
  assert (timeline row_ns (bar_ns bar) (m_records m1)) as T1.
  { eapply mb2_timeline_change; [| | exact C1 | exact T]; [unfold at_close, bar_ns; intros t ->; lia | lia]. }
  split.
  - eapply mb2_timeline_change; [| | exact C2 | exact T1]; [unfold in_ticks, bar_ns; intros t; lia | lia].
  - intros Ho. destruct C2 as [_ K _ _|e x sig ct row bal _ _ _ _ _ Hn _|e bal _ He _ _ _ Hr _ _]; [by rewrite K | done |].
    rewrite Hr. eapply timeline_snoc; [exact T1 |]. destruct He as (budget & q & He & _). unfold row_ns. rewrite He. unfold bar_ns. lia.
Qed.

Lemma mb2_replay_timeline bars i m m' b0 : StronglySorted (fun a b => bar_ns a <= bar_ns b) (b0 :: bars) ->
  replay P i (b0 :: bars) m = Ok m' -> timeline row_ns (bar_ns b0) (m_records m) ->
  exists limit final, last (b0 :: bars) = Some final /\ timeline row_ns limit (m_records m') /\
    (m_open m' <> None -> timeline row_ns (bar_ns final) (m_records m')).
Proof.
  revert b0 i m. induction bars as [|b1 bars IH]; intros b0 i m Hs H T; cbn [replay] in H;
    apply result_bind_Ok in H as (m1 & Hb & H); apply mb2_step_timeline in Hb as [T1 T2]; try done.
  - injection H as <-. by eexists _, b0.
  - apply StronglySorted_inv in Hs as [Hs Hall]. apply Forall_cons in Hall as [Hle _]. simpl in T1.
    rewrite Z.max_r in T1 by done. destruct (IH b1 (S i) m1 Hs H T1) as (limit & final & Hl & R).
    exists limit, final. split; [done | exact R].
Qed.

(** On bars whose closes are in order, the rows a backtest reports are in
    time order, whatever the order of the ticks: an exit at a tick never comes
    before the bar that opened the position nor after the next bar's close,
    and the force close sorts after everything. *)
Theorem mr_rows_in_order i imb st bars r :
  StronglySorted (fun a b => t_ns (close_of P a) <= t_ns (close_of P b)) bars -> Run P i imb st bars = Ok r ->
  StronglySorted (fun a b => t_ns (tr_Time a) <= t_ns (tr_Time b)) (br_TradeRecords r).
Proof.
  intros Hs H. apply mb2_Run_Ok in H as (e0 & cap & m0 & m & _ & _ & H0 & Hf & _ & ->).
  destruct bars as [|b0 bars]; [injection H0 as <-; injection Hf as <-; constructor |].
  apply mb2_replay_timeline in H0 as (limit & final & Hl & T1 & T2); [| done | apply timeline_nil].
  apply mb2_force_close_Ok in Hf as [[-> _]|(f & e & x & sig & ct & row & b & Hl' & Hx & Ho & Hse & _ & C2 & _)]; [by apply T1 |].
  rewrite Hl in Hl'. injection Hl' as <-. apply mb2_settle_Ok in Hse as (pnl & _ & _ & _ & ->).
  rewrite C2. refine (proj1 (timeline_snoc _ (bar_ns final) (bar_ns final) _ _ (T2 _) _)); [by rewrite Ho |].
  unfold row_ns, bar_ns. cbn [tr_Time exit_row]. rewrite Hx. lia.
Qed.
End BookTheory.

(** ** Theory: cash over exact arithmetic *)

Section CashTheory.
#[local] Existing Instance QDec.
#[local] Open Scope Q_scope.
Context (P : Params (D := QDec)).
Implicit Types (m : Sim (D := QDec)) (e : TradeRecord (D := QDec)) (ct : ClosedTrade (D := QDec)).

Definition profit (closed : list (ClosedTrade (D := QDec))) : Q := qsum (ct_PnL <$> closed).

Definition invested (open : option (TradeRecord (D := QDec))) : Q :=
  match open with None => 0 | Some e => tied_up (tr_Signal e) (tr_Price e) (tr_Quantity e) end.

(** An entry made from equity [equity]: it is its whole balance, and the
    position size bounds its cost. *)
Definition paid (equity balance size price quantity : Q) : Prop :=
  balance == equity /\ (0 < price -> price * quantity <= balance * size).

Definition paid_closed (equity : Q) ct : Prop :=
  paid equity (ct_EntryBalance ct) (ct_PositionSize ct) (ct_EntryPrice ct) (ct_Quantity ct).

Record cash_inv (capital : Q) m : Prop := {
  ci_balance : m_balance m == capital + profit (m_closed m) - invested (m_open m);
  ci_closed : forall l1 ct l2, m_closed m = l1 ++ ct :: l2 -> paid_closed (capital + profit l1) ct;
  ci_open : forall e, m_open m = Some e ->
    paid (capital + profit (m_closed m)) (tr_EntryBalance e) (tr_PositionSize e) (tr_Price e) (tr_Quantity e);
}.

Lemma mb2_profit_snoc l ct : profit (l ++ [ct]) == profit l + ct_PnL ct.
Proof. unfold profit. rewrite fmap_app, qsum_app. simpl. ring. Qed.

Lemma mb2_paid_snoc capital l ct :
  (forall l1 ct' l2, l = l1 ++ ct' :: l2 -> paid_closed (capital + profit l1) ct') ->
  paid_closed (capital + profit l) ct ->
  forall l1 ct' l2, l ++ [ct] = l1 ++ ct' :: l2 -> paid_closed (capital + profit l1) ct'.
Proof.
  intros Hl Hct l1 ct' l2 H. destruct l2 as [|y l2 _] using rev_ind.
  - apply app_inj_tail in H as [<- <-]. done.
  - rewrite app_comm_cons, app_assoc in H. apply app_inj_tail in H as [-> _]. by eapply Hl.
Qed.

Lemma mb2_cash_change capital bar span m m' : book_change P bar span m m' -> cash_inv capital m -> cash_inv capital m'.
Proof.
  intros [K1 K2 K3 K4|e x sig ct row bal Ho _ Hs Hc Hr Hn Hb|e bal Ho He Heb Hca Hc Hr Hn Hb] [B1 B2 B3].
  - split; by rewrite ?K1, ?K3, ?K4.
  - specialize (B3 e Ho). rewrite Ho in B1. simpl in B1. apply mb2_settle_Ok in Hs as (pnl & Hout & Hp & -> & ->).
    pose proof (cash_out_pnl _ _ _ _ _ _ _ Hout Hp) as E. split.
    + rewrite Hc, Hn, Hb, mb2_profit_snoc, E, B1. simpl. ring.
    + rewrite Hc. by apply mb2_paid_snoc.
    + by rewrite Hn.
  - rewrite Ho in B1. simpl in B1. assert (m_balance m == capital + profit (m_closed m)) as B by (rewrite B1; ring). split.
    + rewrite Hc, Hn, Hb, (cash_in_tied_up _ _ _ _ _ Hca), B. reflexivity.
    + rewrite Hc. exact B2.
    + rewrite Hn, Hc. intros e' [= <-]. split; [by rewrite Heb |]. intros Hp.
      destruct He as (budget & q & _ & _ & _ & _ & Hbu & Hq & -> & _).
      simpl in Hbu. injection Hbu as <-. by apply floor_quo_cost.
Qed.

(** The comment on [computePnL] promises that the balance of the next
    entry is the balance of the previous one plus its profit.  Over exact
    arithmetic it holds for the whole run: the k-th trade starts from the
    weighted, levered capital plus the profit of all trades before it,
    through any mix of longs, shorts and exits, and spends at most its
    position size's share of that balance. *)
Theorem mr_entry_balance_chain i imb st bars r l1 ct l2 :
  Run P i imb st bars = Ok r -> br_ClosedTrades r = l1 ++ ct :: l2 ->
  ct_EntryBalance ct == InitialBalance (bt_cfg P) * bt_weight P * Leverage (bt_cfg P) + profit l1 /\
  (0 < ct_EntryPrice ct -> ct_EntryPrice ct * ct_Quantity ct <= ct_EntryBalance ct * ct_PositionSize ct).
Proof.
  intros H Hl. apply mb2_Run_Ok in H as (e0 & cap & m0 & m & He & Hcap & H0 & Hf & Hc & _).
  simpl in He, Hcap. injection He as <-. injection Hcap as <-.
  set (capital := InitialBalance (bt_cfg P) * bt_weight P * Leverage (bt_cfg P)) in *.
  assert (cash_inv capital m0) as [_ B2 B3].
  { apply (mb2_replay_invariant P (cash_inv capital) bars 0 _ _ (fun bar span m1 m2 _ => mb2_cash_change capital bar span m1 m2) H0).
    split; simpl; [unfold profit; simpl; ring | by intros [] | done]. }
  rewrite Hc in Hl. apply mb2_force_close_Ok in Hf as [[-> ?]|(final & e & x & sig & ct' & row & b & _ & _ & Ho & Hs & C1 & _)].
  - exact (B2 _ _ _ Hl).
  - rewrite C1 in Hl. refine (mb2_paid_snoc capital _ _ B2 _ _ _ _ Hl).
    apply mb2_settle_Ok in Hs as (pnl & _ & _ & -> & _). by apply B3.
Qed.
End CashTheory.

(** ** Concrete runs and witnesses *)

Section Demo.
#[local] Existing Instance RefDec.

(** An hour's bar at one price, with the yield in basis points. *)
Definition hour_bar (n p ytm : Z) : Bar := {|
  bar_Time := MkTime (n * Hour) 0; bar_Open := RD p 0; bar_High := RD p 0; bar_Low := RD p 0; bar_Close := RD p 0;
  bar_Volume := RD 1 0; bar_OpenYTM := RD ytm 4; bar_HighYTM := RD ytm 4; bar_LowYTM := RD ytm 4;
  bar_CloseYTM := RD ytm 4; bar_BenchmarkYield := RD 0 0 |}.

Definition demo_params : Params := {|
  bt_cfg := demo_config; bt_weight := RD 1 0; bt_baseAssetID := "bond"; bt_ticks := []; bt_trades := [];
  bt_TradeFrom := zero_time; bt_TradeTo := zero_time; bt_cancelled := fun _ => false |}.

(** A spike to 480 opens a long of ten at 100; it is taken at 103. *)
Definition spike : list Bar := [hour_bar 1 100 400; hour_bar 2 100 420; hour_bar 3 100 480; hour_bar 4 103 400].

#[local] Abbreviation outcome := (Run demo_params (new_Ind demo_config) None zero_Stop spike).

Lemma mb2_demo_run : exists r, outcome = Ok r /\ length (br_TradeRecords r) = 2%nat /\
  (fun t => (ct_ExitReason t, Qfloor (rval (ct_Quantity t)), Qfloor (rval (ct_PnL t)))) <$> br_ClosedTrades r =
    [(ExitReasonTakeProfit, 10, 30)].
Proof.
  assert (match outcome with
    | Ok r => ((fun t => (ct_ExitReason t, Qfloor (rval (ct_Quantity t)), Qfloor (rval (ct_PnL t)))) <$> br_ClosedTrades r,
               length (br_TradeRecords r))
    | Err _ => ([], O) end = ([(ExitReasonTakeProfit, 10, 30)], 2%nat)) as H by (vm_compute; reflexivity).
  destruct outcome as [r|]; [| discriminate]. injection H as H1 H2. by exists r.
Qed.

Lemma mr_backtest_trips_witness : exists r trips,
  outcome = Ok r /\ length (br_TradeRecords r) = 2%nat /\
  br_TradeRecords r = (trips ≫= fun t : TradeRecord * TradeRecord * ClosedTrade => [t.1.1; t.1.2]).
Proof.
  destruct mb2_demo_run as (r & Hr & Hl & _).
  destruct (mr_backtest_trips demo_params (new_Ind demo_config) None zero_Stop spike r Hr) as (trips & Ht & _).
  exists r, trips. exact (conj Hr (conj Hl Ht)).
Defined.

Lemma mr_rows_in_order_witness : exists r, outcome = Ok r /\ length (br_TradeRecords r) = 2%nat /\
  StronglySorted (fun a b => t_ns (tr_Time a) <= t_ns (tr_Time b)) (br_TradeRecords r).
Proof.
  destruct mb2_demo_run as (r & Hr & Hl & _). exists r. refine (conj Hr (conj Hl _)).
  refine (mr_rows_in_order demo_params (new_Ind demo_config) None zero_Stop spike r _ Hr).
  unfold spike. repeat constructor; vm_compute; discriminate.
Defined.
End Demo.

(** Two trades over exact arithmetic. *)

Section ExactRun.
#[local] Existing Instance QDec.

Definition exact_bar (n : Z) (p ytm : Q) : Bar := {|
  bar_Time := MkTime (n * Hour) 0; bar_Open := p; bar_High := p; bar_Low := p; bar_Close := p;
  bar_Volume := 1%Q; bar_OpenYTM := ytm; bar_HighYTM := ytm; bar_LowYTM := ytm; bar_CloseYTM := ytm;
  bar_BenchmarkYield := 0%Q |}.

Definition exact_params : Params := {|
  bt_cfg := exact_config; bt_weight := 1%Q; bt_baseAssetID := "bond"; bt_ticks := []; bt_trades := [];
  bt_TradeFrom := zero_time; bt_TradeTo := zero_time; bt_cancelled := fun _ => false |}.

Definition exact_bars : list Bar :=
  [exact_bar 1 100%Q (400 # 10000); exact_bar 2 100%Q (420 # 10000); exact_bar 3 100%Q (480 # 10000);
   exact_bar 4 103%Q (400 # 10000); exact_bar 5 103%Q (700 # 10000); exact_bar 6 103%Q (400 # 10000)].

#[local] Abbreviation exact_outcome := (Run exact_params (new_Ind exact_config) None zero_Stop exact_bars).

Lemma mb2_exact_run : exists r a b, exact_outcome = Ok r /\ br_ClosedTrades r = [a] ++ b :: [] /\ (ct_PnL a == 30)%Q.
Proof.
  assert (match exact_outcome with
    | Ok r => match br_ClosedTrades r with [a; _] => Qeq_bool (ct_PnL a) 30 | _ => false end
    | Err _ => false end = true) as H by (vm_compute; reflexivity).
  destruct exact_outcome as [r|]; [| discriminate]. destruct (br_ClosedTrades r) as [|a [|b [|]]] eqn:E; try discriminate.
  exists r, a, b. split_and!; [done | done |]. by apply Qeq_bool_iff.
Qed.

Lemma mr_entry_balance_chain_witness : exists r a b, exact_outcome = Ok r /\ br_ClosedTrades r = [a] ++ b :: [] /\
  (ct_PnL a == 30)%Q /\ (ct_EntryBalance b == 1000 * 1 * 1 + profit [a])%Q.
Proof.
  destruct mb2_exact_run as (r & a & b & Hr & Hc & Hp). exists r, a, b. refine (conj Hr (conj Hc (conj Hp _))).
  exact (proj1 (mr_entry_balance_chain exact_params (new_Ind exact_config) None zero_Stop exact_bars r [a] b [] Hr Hc)).
Defined.
End ExactRun.
