(* ===== verification/CopyTrading.v ===== *)
(** * strategy/copytrading: following another trader, live

    Configuration and the live run of [strategy.go]: the select loop, the
    handling of one trade of the followed trader (side, position, account,
    size, order) and the decision log.  A portfolio is a Go map, iterated
    three times per trade: every event carries the order [visits] in which
    each iteration happens to find the accounts.  The free text
    [ReasonDetail] of a decision is left out.

    Theory: what a trade may send, and from which account it is sized; the
    decision log records exactly the accepted orders, in sequence; the size
    of an opening order is a sum of money, whatever the bond costs. *)

From S2P Require Import Prelude GoTime Decimal RefDecimal Types Stats Market Fred.

Definition StrategyType : string := "copy_trading".

(** [strings.ToLower], for ASCII input *)
Definition to_lower (a : Ascii.ascii) : Ascii.ascii :=
  let n := ascii_code a in
  if (65 <=? n) && (n <=? 90) then Ascii.ascii_of_nat (Z.to_nat (n + 32)) else a.
Definition ToLower (s : string) : string := of_chars (to_lower <$> chars s).

Inductive positionDirection := positionFlat | positionLong | positionShort.

#[export] Instance positionDirection_eq_dec : EqDecision positionDirection.
Proof. solve_decision. Defined.

Section CopyTrading.
Context {D : DecimalOps}.

Record Config := {
  FollowedTrader : string;
  PercentageOfAvailable : dec;
  Leverage : dec;
  MinOrderSize : Z;
  MaxOrderSize : Z;
  DisallowedBonds : list string;
  InitialBalance : dec;
}.

(** [streams.TradeEvent], the fields read *)
Record TradeEvent := {
  te_OrderBookID : string;
  te_AssetID : string;
  te_Side : string;
  te_Price : dec;
}.

(** ** Positions and sizes *)

Definition positionForAsset (available borrowed : dec) : positionDirection :=
  let net := d_or_zero (dsub available borrowed) in
  if d_is_pos net then positionLong else if d_is_neg net then positionShort else positionFlat.

Definition isClose (side : Side) (current : positionDirection) : bool :=
  let closesLong := bool_decide (current = positionLong) && bool_decide (side = SIDE_SELL) in
  let closesShort := bool_decide (current = positionShort) && bool_decide (side = SIDE_BUY) in
  closesLong || closesShort.

Definition balanceAssetFor (side : Side) (current : positionDirection) (bondAssetID quoteAssetID : string) : string :=
  let closes := (bool_decide (current = positionLong) && bool_decide (side = SIDE_SELL)) ||
                (bool_decide (current = positionShort) && bool_decide (side = SIDE_BUY)) in
  if closes then bondAssetID else quoteAssetID.

(** [assetMap[assetID]]; the keys of an account are distinct. *)
Fixpoint asset_of (assetID : string) (account : list (string * AccountV2)) : option AccountV2 :=
  match account with
  | [] => None
  | (a, v) :: rest => if bool_decide (a = assetID) then Some v else asset_of assetID rest
  end.

Fixpoint sumAvailableByAccountType (accounts : Accounts) (wantGlobal : bool) (assetID : string) (total : dec) : dec :=
  match accounts with
  | [] => total
  | (_, assetMap) :: rest =>
      let total' := match asset_of assetID assetMap with
        | None => total
        | Some account =>
            if negb (eqb (GetIsGlobal account) wantGlobal) then total
            else match dparse (Available account) with
                 | Err _ => total
                 | Ok available => d_or_zero (dadd total available)
                 end
        end in
      sumAvailableByAccountType rest wantGlobal assetID total'
  end.

(** The first isolated account holding the bond decides. *)
Fixpoint isolatedAvailable (accounts : Accounts) (balanceAsset bondAssetID : string) : dec :=
  match accounts with
  | [] => dzero
  | (_, assetMap) :: rest =>
      match asset_of bondAssetID assetMap with
      | None => isolatedAvailable rest balanceAsset bondAssetID
      | Some bondAccount =>
          if GetIsGlobal bondAccount then isolatedAvailable rest balanceAsset bondAssetID
          else match asset_of balanceAsset assetMap with
               | None => dzero
               | Some balanceAccount => d_or_zero (dparse (Available balanceAccount))
               end
      end
  end.

(** [availableBalanceFor]; [None] is a nil portfolio. *)
Definition availableBalanceFor (portfolio : option Accounts) (balanceAsset bondAssetID : string) (fromGlobal : bool) : dec :=
  match portfolio with
  | None => dzero
  | Some accounts =>
      if fromGlobal then sumAvailableByAccountType accounts true balanceAsset dzero
      else isolatedAvailable accounts balanceAsset bondAssetID
  end.

Record bondBalances := MkBal { available : dec; borrowed : dec }.

Fixpoint globalBond (accounts : Accounts) (bondAssetID : string) (b : bondBalances) : bondBalances :=
  match accounts with
  | [] => b
  | (_, assetMap) :: rest =>
      let b' := match asset_of bondAssetID assetMap with
        | None => b
        | Some account =>
            if negb (GetIsGlobal account) then b
            else MkBal
              (match dparse (Available account) with Ok a => d_or_zero (dadd (available b) a) | Err _ => available b end)
              (match dparse (Borrowed account) with Ok a => d_or_zero (dadd (borrowed b) a) | Err _ => borrowed b end)
        end in
      globalBond rest bondAssetID b'
  end.

Fixpoint isolatedBond (accounts : Accounts) (bondAssetID : string) : bondBalances :=
  match accounts with
  | [] => MkBal dzero dzero
  | (_, assetMap) :: rest =>
      match asset_of bondAssetID assetMap with
      | None => isolatedBond rest bondAssetID
      | Some account =>
          if GetIsGlobal account then isolatedBond rest bondAssetID
          else MkBal (d_or_zero (dparse (Available account))) (d_or_zero (dparse (Borrowed account)))
      end
  end.

Definition bondBalancesFor (portfolio : option Accounts) (bondAssetID : string) (fromGlobal : bool) : bondBalances :=
  match portfolio with
  | None => MkBal dzero dzero
  | Some accounts =>
      if fromGlobal then globalBond accounts bondAssetID (MkBal dzero dzero) else isolatedBond accounts bondAssetID
  end.

Definition calculateOrderSize (available percentage leverage : dec) (minOrderSize maxOrderSize : Z) : dec :=
  let orderSize := d_or_zero (dmul available percentage) in
  let orderSize := d_or_zero (dmul orderSize leverage) in
  if (0 <? minOrderSize) && d_lt orderSize (d_int minOrderSize) then dzero
  else if (0 <? maxOrderSize) && d_gt orderSize (d_int maxOrderSize) then d_int maxOrderSize
  else orderSize.

(** ** The live strategy *)

Context {W : Type} (E : Env W).

Record Strategy := MkStrategy {
  s_cfg : Config; disallowedSet : gset string; s_paused : bool; s_runID : string; decisionSeq : Z; s_sys : Sys W }.

Definition with_sys (y : Sys W) (s : Strategy) : Strategy :=
  MkStrategy (s_cfg s) (disallowedSet s) (s_paused s) (s_runID s) (decisionSeq s) y.
Definition set_paused (b : bool) (s : Strategy) : Strategy :=
  MkStrategy (s_cfg s) (disallowedSet s) b (s_runID s) (decisionSeq s) (s_sys s).
Definition SetDecisionSeq (seq : Z) (s : Strategy) : Strategy :=
  MkStrategy (s_cfg s) (disallowedSet s) (s_paused s) (s_runID s) seq (s_sys s).
Definition set_runID (id : string) (s : Strategy) : Strategy :=
  MkStrategy (s_cfg s) (disallowedSet s) (s_paused s) id (decisionSeq s) (s_sys s).

Definition New (cfg : Config) (y : Sys W) : Strategy :=
  MkStrategy cfg (list_to_set (DisallowedBonds cfg)) false uuid_nil 0 y.

(** Run a call of the environment from a method. *)
Definition call {A} (m : ST (Sys W) A) : ST Strategy A := fun s =>
  let '(a, y) := m (s_sys s) in (a, with_sys y s).

Definition recordDecision (mk : string -> Z -> Time -> DecisionRow) (s : Strategy) : Strategy :=
  match Records E with
  | None => s
  | Some save =>
      let seq := wrap64 (decisionSeq s + 1) in
      let s1 := SetDecisionSeq seq s in
      let '(now, s2) := call (time_now E) s1 in
      let d := mk (s_runID s) seq now in
      let '(_, s3) := call (invoke (save d) (fun _ => [CallSaveDecision d])) s2 in s3
  end.

Definition side_of (s : string) : option Side :=
  let l := ToLower s in
  if bool_decide (l = "buy"%string) then Some SIDE_BUY
  else if bool_decide (l = "sell"%string) then Some SIDE_SELL else None.

(** The leverage of an order, and its inverse as sent. *)
Definition order_leverage (cfg : Config) (side : Side) (current : positionDirection) : dec :=
  if isClose side current then done1 else Leverage cfg.

Definition inverse_leverage (orderLeverage : dec) : dec :=
  if d_is_pos orderLeverage && d_gt orderLeverage done1 then d_or_zero (dquo done1 orderLeverage) else done1.

(** The orders in which the three iterations over the portfolio's accounts
    visit them. *)
Record Visits := { visit_position : Accounts -> Accounts; visit_balance : Accounts -> Accounts;
                   visit_close : Accounts -> Accounts }.

(** The size of the order, from the portfolio. *)
Definition order_size (cfg : Config) (v : Visits) (portfolio : option Accounts) (side : Side) (bond quote : string) :
    positionDirection * dec :=
  let bondAccount := bondBalancesFor (visit_position v <$> portfolio) bond false in
  let current := positionForAsset (available bondAccount) (borrowed bondAccount) in
  let balanceAsset := balanceAssetFor side current bond quote in
  let availableBalance := availableBalanceFor (visit_balance v <$> portfolio) balanceAsset bond false in
  let size :=
    if isClose side current then
      let accountBalances := bondBalancesFor (visit_close v <$> portfolio) bond false in
      if bool_decide (current = positionLong) then available accountBalances else borrowed accountBalances
    else calculateOrderSize availableBalance (PercentageOfAvailable cfg) (order_leverage cfg side current)
           (MinOrderSize cfg) (MaxOrderSize cfg) in
  (current, size).

Definition kind_of (side : Side) (current : positionDirection) : string :=
  if isClose side current then DecisionKindClose
  else if bool_decide (current = positionFlat) then DecisionKindOpen else DecisionKindExtend.

Definition order_row (trade : TradeEvent) (side : Side) (current : positionDirection)
    (size orderLeverage inverseLeverage : dec) (clientOrderID run : string) (seq : Z) (now : Time) : DecisionRow := {|
  dr_RunID := run; dr_Seq := seq; dr_StrategyType := StrategyType; dr_OrderBookID := te_OrderBookID trade;
  dr_Asset := te_AssetID trade; dr_Side := Side_string side; dr_Signal := ToLower (te_Side trade);
  dr_Quantity := size; dr_Price := te_Price trade; dr_Leverage := orderLeverage;
  dr_InverseLeverage := inverseLeverage; dr_FromGlobalPosition := false; dr_Kind := kind_of side current;
  dr_Reason := "follow_trade"; dr_CreatedAt := now; dr_ClientOrderID := clientOrderID |}.

(** Send the order and record it. *)
Definition place (trade : TradeEvent) (side : Side) (current : positionDirection) (size : dec) :
    ST Strategy (result unit) := fun s =>
  let orderLeverage := order_leverage (s_cfg s) side current in
  let inverseLeverage := inverse_leverage orderLeverage in
  let '(clientOrderID, s1) := call (BuildClientOrderID E StrategyType (s_runID s)) s in
  let '(res, s2) := call (create_market_order E {|
    or_OrderBookID := te_OrderBookID trade; or_Side := side; or_Quantity := size;
    or_InverseLeverage := inverseLeverage; or_FromGlobalPosition := false;
    or_ClientOrderID := clientOrderID |}) s1 in
  match res with
  | Err e => (Err (ErrWrap "create market order" e), s2)
  | Ok _ => (Ok tt, recordDecision (order_row trade side current size orderLeverage inverseLeverage clientOrderID) s2)
  end.

Definition handleTrade (v : Visits) (trade : TradeEvent) : ST Strategy (result unit) := fun s =>
  if bool_decide (te_AssetID trade ∈ disallowedSet s) then (Ok tt, s) else
  match side_of (te_Side trade) with
  | None => (Err (ErrMsg "unknown trade side"), s)
  | Some side =>
      let '(p, s1) := call (quiet (GetPortfolioV2 E)) s in
      match p with
      | Err e => (Err (ErrWrap "get portfolio" e), s1)
      | Ok portfolio =>
          let '(q, s2) := call (quiet (QuoteAssetID E (te_OrderBookID trade))) s1 in
          match q with
          | Err e => (Err (ErrWrap "quote asset ID for order book" e), s2)
          | Ok quoteAssetID =>
              let '(current, orderSize) := order_size (s_cfg s2) v portfolio side (te_AssetID trade) quoteAssetID in
              if d_is_zero orderSize || d_is_neg orderSize then (Ok tt, s2)
              else place trade side current orderSize s2
          end
      end
  end.

(** What the loop receives. *)
Inductive Event :=
  | EvCtxDone
  | EvMessagesClosed
  | EvMessage (m : Message)
  | EvTrade (v : Visits) (trade : TradeEvent)
  | EvTradesClosed.

(** One iteration of [runLoop]; [None] leaves it. *)
Definition loop_step (ev : Event) (s : Strategy) : option Strategy :=
  match ev with
  | EvCtxDone | EvMessagesClosed | EvTradesClosed | EvMessage Stop => None
  | EvMessage Pause => Some (set_paused true s)
  | EvMessage Resume => Some (set_paused false s)
  | EvTrade v trade => if s_paused s then Some s else Some (handleTrade v trade s).2
  end.

Fixpoint runLoop (evs : list Event) (s : Strategy) : Strategy :=
  match evs with
  | [] => s
  | ev :: rest => match loop_step ev s with None => s | Some s' => runLoop rest s' end
  end.

(** [Run] and [run]; the flags tell whether a trade stream and a client were
    wired. *)
Definition Run (tradeStream marketAPI : bool) (runID : string) (evs : list Event) (s : Strategy) : result unit * Strategy :=
  let s1 := set_runID runID s in
  if negb tradeStream then (Err (ErrMsg "trade stream not configured"), s1)
  else if negb marketAPI then (Err (ErrMsg "market API client not configured"), s1)
  else (Ok tt, runLoop evs s1).
End CopyTrading.

Arguments MkStrategy {D W}. Arguments s_cfg {D W}. Arguments disallowedSet {D W}. Arguments s_paused {D W}.
Arguments s_runID {D W}. Arguments decisionSeq {D W}. Arguments s_sys {D W}.

(** ** Theory: the account an order is sized from *)

Section Accounts.
Context {D : DecimalOps}.
Implicit Types (accounts : list (string * list (string * AccountV2))) (acct : list (string * AccountV2)) (v : Visits).

(** The account is the bond's isolated margin account. *)
Definition isolated (bond : string) acct : bool :=
  match asset_of bond acct with Some a => negb (GetIsGlobal a) | None => false end.

(** DORA keeps one isolated account per bond. *)
Definition one_isolated (bond : string) accounts : Prop :=
  (length (filter (fun a => isolated bond a.2) accounts) <= 1)%nat.

(** That account, if it exists. *)
Definition isolated_account (bond : string) accounts : option (list (string * AccountV2)) :=
  snd <$> hd_error (filter (fun a => isolated bond a.2) accounts).

Definition asset_available (a : option AccountV2) : dec :=
  match a with Some x => d_or_zero (dparse (Available x)) | None => dzero end.
Definition asset_borrowed (a : option AccountV2) : dec :=
  match a with Some x => d_or_zero (dparse (Borrowed x)) | None => dzero end.

Lemma isolated_account_cons bond k acct accounts : isolated_account bond ((k, acct) :: accounts) =
  if isolated bond acct then Some acct else isolated_account bond accounts.
Proof.
  unfold isolated_account. rewrite filter_cons. destruct (decide _) as [H|H]; simpl in *.
  - apply Is_true_true in H. by rewrite H.
  - destruct (isolated bond acct); [by destruct H | done].
Qed.

Lemma isolatedBond_account accounts bond :
  isolatedBond accounts bond =
  MkBal (asset_available (isolated_account bond accounts ≫= asset_of bond))
        (asset_borrowed (isolated_account bond accounts ≫= asset_of bond)).
Proof.
  induction accounts as [|[k acct] accounts IH]; [done |]. rewrite isolated_account_cons. unfold isolated. simpl.
  destruct (asset_of bond acct) as [a|] eqn:Ha; [| exact IH]. destruct (GetIsGlobal a); [exact IH |]. simpl.
  by rewrite Ha.
Qed.

Lemma isolatedAvailable_account accounts asset bond :
  isolatedAvailable accounts asset bond = asset_available (isolated_account bond accounts ≫= asset_of asset).
Proof.
  induction accounts as [|[k acct] accounts IH]; [done |]. rewrite isolated_account_cons. unfold isolated. simpl.
  destruct (asset_of bond acct) as [a|] eqn:Ha; [| exact IH]. destruct (GetIsGlobal a); [exact IH |]. simpl.
  by destruct (asset_of asset acct).
Qed.

(** With one isolated account the order of the iteration does not matter. *)
Lemma isolated_account_permutation bond accounts accounts' : accounts' ≡ₚ accounts -> one_isolated bond accounts ->
  isolated_account bond accounts' = isolated_account bond accounts.
Proof.
  intros Hp H1. unfold isolated_account, one_isolated in *. f_equal.
  assert (filter (fun a => isolated bond a.2) accounts' ≡ₚ filter (fun a => isolated bond a.2) accounts) as HP
    by (by rewrite Hp).
  set (l := filter _ accounts) in *. set (l' := filter _ accounts') in *. clearbody l l'.
  destruct l as [|x [|]]; simpl in H1; [| | lia].
  - apply Permutation_nil_r in HP. by rewrite HP.
  - apply Permutation_singleton_r in HP. by rewrite HP.
Qed.

Definition visits_all (v : Visits) accounts : Prop :=
  visit_position v accounts ≡ₚ accounts /\ visit_balance v accounts ≡ₚ accounts /\ visit_close v accounts ≡ₚ accounts.

(** The size as one account determines it. *)
Definition account_size (c : Config) (acct : option (list (string * AccountV2))) (side : Side) (bond quote : string) :
    positionDirection * dec :=
  let have := asset_available (acct ≫= asset_of bond) in
  let owed := asset_borrowed (acct ≫= asset_of bond) in
  let current := positionForAsset have owed in
  (current,
   if isClose side current then if bool_decide (current = positionLong) then have else owed
   else calculateOrderSize (asset_available (acct ≫= asset_of quote)) (PercentageOfAvailable c) (Leverage c)
          (MinOrderSize c) (MaxOrderSize c)).

Lemma order_size_account c v accounts side bond quote :
  one_isolated bond accounts -> visits_all v accounts ->
  order_size c v (Some accounts) side bond quote =
  account_size c (isolated_account bond accounts) side bond quote.
Proof.
  intros H1 (V1 & V2 & V3). unfold order_size, account_size. simpl.
  rewrite !isolatedBond_account, isolatedAvailable_account. simpl.
  rewrite (isolated_account_permutation _ _ _ V1 H1), (isolated_account_permutation _ _ _ V2 H1),
    (isolated_account_permutation _ _ _ V3 H1).
  set (current := positionForAsset _ _). f_equal. unfold balanceAssetFor, order_leverage. fold (isClose side current).
  by destruct (isClose side current).
Qed.

Context {L : DecimalLaws}.

Lemma calculateOrderSize_zero (p l : dec) mn mx : mx <= int64_max ->
  d_is_zero (calculateOrderSize dzero p l mn mx) = true.
Proof.
  intros Hmx. unfold calculateOrderSize.
  destruct (dmatch_zero _ _ (dmul_spec dzero p)) as (x & -> & Hx); [rewrite dval_zero; ring |]. simpl.
  destruct (dmatch_zero _ _ (dmul_spec x l)) as (y & -> & Hy); [rewrite Hx; ring |]. simpl.
  destruct ((0 <? mn) && d_lt y (d_int mn)); [by apply d_is_zero_spec, dval_zero |].
  destruct ((0 <? mx) && d_gt y (d_int mx)) eqn:E; [| by apply d_is_zero_spec].
  bool_prop. exfalso. apply d_gt_spec in H0. rewrite Hy, d_int_val in H0 by (unfold max_coef, int64_max in *; lia).
  change 0%Q with (inject_Z 0) in H0. rewrite <- Zlt_Qlt in H0. lia.
Qed.

(** Without an account the position is flat and there is nothing to spend. *)
Lemma account_size_none c side bond quote : account_size c None side bond quote =
  (positionFlat, calculateOrderSize dzero (PercentageOfAvailable c) (Leverage c) (MinOrderSize c) (MaxOrderSize c)).
Proof.
  unfold account_size. simpl. unfold positionForAsset.
  destruct (dmatch_zero _ _ (dsub_spec dzero dzero)) as (x & -> & Hx); [ring |]. simpl.
  by rewrite (proj2 (d_is_pos_false x)), (proj2 (d_is_neg_false x)) by lra.
Qed.
(** *** The size as a function of amounts, on rationals

    [have] and [owed] are what the account holds and has borrowed of the bond,
    [cash] what it holds of the quote asset. *)












End Accounts.

(** ** Theory: one trade *)

Section LiveTheory.
Context {D : DecimalOps} {L : DecimalLaws} {W : Type} (E : Env W).
Implicit Types (s : Strategy (W := W)) (v : Visits) (trade : TradeEvent) (o : OrderRequest).

Definition calls s : list Call := sy_calls (s_sys s).
Definition orders s : list OrderRequest := orders_sent (calls s).

Lemma ct_call_calls {A} (m : ST (Sys W) A) s : calls (call m s).2 = sy_calls (m (s_sys s)).2.
Proof. unfold call. by destruct (m (s_sys s)). Qed.

Lemma ct_call_quiet {A} (op : W -> A * W) s : calls (call (quiet op) s).2 = calls s.
Proof. rewrite ct_call_calls. apply quiet_calls. Qed.

(** Everything but the system. *)
Record same_run s s' : Prop := {
  sr_cfg : s_cfg s' = s_cfg s; sr_set : disallowedSet s' = disallowedSet s;
  sr_paused : s_paused s' = s_paused s; sr_id : s_runID s' = s_runID s }.

#[local] Instance same_run_preorder : PreOrder same_run.
Proof. split; [by split | intros s1 s2 s3 [] []; split; congruence]. Qed.

Lemma ct_call_same {A} (m : ST (Sys W) A) s : same_run s (call m s).2 /\ decisionSeq (call m s).2 = decisionSeq s.
Proof. unfold call. by destruct (m (s_sys s)). Qed.

(** The row that goes with an accepted order. *)
Definition row_matches (run : string) o (d : DecisionRow) : Prop :=
  dr_RunID d = run /\ dr_StrategyType d = StrategyType /\ dr_OrderBookID d = or_OrderBookID o /\
  dr_Side d = Side_string (or_Side o) /\ dr_Quantity d = or_Quantity o /\
  dr_InverseLeverage d = or_InverseLeverage o /\ dr_ClientOrderID d = or_ClientOrderID o.

(** What one step appends to the log. *)
Inductive step_log s s' : list Call -> Prop :=
  | sl_nothing : decisionSeq s' = decisionSeq s -> step_log s s' []
  | sl_rejected o e : decisionSeq s' = decisionSeq s -> step_log s s' [CallCreateMarketOrder o (Err e)]
  | sl_unrecorded o id : Records E = None -> decisionSeq s' = decisionSeq s ->
      step_log s s' [CallCreateMarketOrder o (Ok id)]
  | sl_recorded o id d : Records E <> None -> row_matches (s_runID s) o d ->
      dr_Seq d = wrap64 (decisionSeq s + 1) -> decisionSeq s' = dr_Seq d ->
      step_log s s' [CallCreateMarketOrder o (Ok id); CallSaveDecision d].

Lemma step_log_start s s1 s' cs : step_log s1 s' cs -> s_runID s1 = s_runID s -> decisionSeq s1 = decisionSeq s ->
  step_log s s' cs.
Proof.
  intros [H|o e H|o id H1 H2|o id d H1 H2 H3 H4] Hi Hq; rewrite ?Hi, ?Hq in *;
    [by apply sl_nothing | by apply sl_rejected | by apply sl_unrecorded | by apply sl_recorded].
Qed.

(** [place] sends one order, made of its arguments. *)
Definition placed_order trade (c : Config) (side : Side) (current : positionDirection) (size : dec) o : Prop :=
  or_OrderBookID o = te_OrderBookID trade /\ or_Side o = side /\ or_Quantity o = size /\
  or_InverseLeverage o = inverse_leverage (order_leverage c side current) /\ or_FromGlobalPosition o = false.

Lemma ct_recordDecision mk s : same_run s (recordDecision E mk s) /\
  match Records E with
  | None => recordDecision E mk s = s
  | Some _ => exists now, let d := mk (s_runID s) (wrap64 (decisionSeq s + 1)) now in
      calls (recordDecision E mk s) = calls s ++ [CallSaveDecision d] /\
      decisionSeq (recordDecision E mk s) = wrap64 (decisionSeq s + 1)
  end.
Proof.
  unfold recordDecision. destruct (Records E) as [save|]; [| done]. set (s1 := SetDecisionSeq _ s).
  pose proof (ct_call_same (time_now E) s1) as [S2 Q2]. pose proof (ct_call_quiet (Now E) s1) as C2. fold (time_now E) in C2.
  destruct (call (time_now E) s1) as [now s2]. simpl in S2, Q2, C2. set (d := mk _ _ now).
  pose proof (ct_call_same (invoke (save d) (fun _ => [CallSaveDecision d])) s2) as [S3 Q3].
  pose proof (ct_call_calls (invoke (save d) (fun _ => [CallSaveDecision d])) s2) as C3.
  assert (sy_calls (invoke (save d) (fun _ => [CallSaveDecision d]) (s_sys s2)).2 = calls s2 ++ [CallSaveDecision d]) as C4
    by (unfold invoke; by destruct (save d _)).
  rewrite C4, C2 in C3. destruct (call (invoke (save d) _) s2) as [u s3]. simpl in *.
  split; [transitivity s1; [by split |]; by transitivity s2 |]. exists now. split; [exact C3 | congruence].
Qed.

Lemma ct_send o s : exists res s2, call (create_market_order E o) s = (res, s2) /\ same_run s s2 /\
  decisionSeq s2 = decisionSeq s /\ calls s2 = calls s ++ [CallCreateMarketOrder o res].
Proof.
  pose proof (ct_call_same (create_market_order E o) s) as [S Q].
  pose proof (create_calls E o (s_sys s)) as C. fold (calls s) in C. unfold call in *.
  destruct (create_market_order E o (s_sys s)) as [res y]. simpl in *. by exists res, (with_sys y s).
Qed.

Lemma ct_place_log trade side current size s :
  same_run s (place E trade side current size s).2 /\
  exists cs o, calls (place E trade side current size s).2 = calls s ++ cs /\
    step_log s (place E trade side current size s).2 cs /\ orders_sent cs = [o] /\
    placed_order trade (s_cfg s) side current size o.
Proof.
  unfold place. pose proof (ct_call_same (BuildClientOrderID E StrategyType (s_runID s)) s) as [S1 Q1].
  pose proof (ct_call_calls (BuildClientOrderID E StrategyType (s_runID s)) s) as C1. rewrite BuildClientOrderID_calls in C1.
  destruct (call (BuildClientOrderID E StrategyType (s_runID s)) s) as [cid s1]. simpl in S1, Q1, C1. fold (calls s) in C1.
  set (o := {| or_OrderBookID := _; or_Side := side; or_Quantity := size; or_InverseLeverage := _;
               or_FromGlobalPosition := false; or_ClientOrderID := cid |}).
  destruct (ct_send o s1) as (res & s2 & -> & S2 & Q2 & C2). rewrite C1 in C2.
  assert (placed_order trade (s_cfg s) side current size o) as Ho by (by unfold placed_order).
  destruct res as [id|e]; simpl.
  - match goal with |- context [recordDecision E ?mk s2] => destruct (ct_recordDecision mk s2) as [S3 R] end.
    split; [transitivity s1; [done |]; by transitivity s2 |]. destruct (Records E) as [save|] eqn:Hr.
    + destruct R as (now & C3 & Q3). eexists [CallCreateMarketOrder o (Ok id); CallSaveDecision _], o. split_and!; [| | done..].
      * rewrite C3, C2. by rewrite <- app_assoc.
      * apply sl_recorded; [by rewrite Hr | | simpl; congruence | simpl; congruence].
        unfold row_matches. simpl. split_and!; try done. by rewrite (sr_id _ _ S2), (sr_id _ _ S1).
    + rewrite R. exists [CallCreateMarketOrder o (Ok id)], o. split_and!; try done. constructor; [done | congruence].
  - split; [by transitivity s1 |]. exists [CallCreateMarketOrder o (Err e)], o. split_and!; try done.
    constructor. congruence.
Qed.

Lemma ct_quiet_step {A} (op : W -> A * W) s a s' : call (quiet op) s = (a, s') ->
  same_run s s' /\ decisionSeq s' = decisionSeq s /\ calls s' = calls s.
Proof.
  intros H. pose proof (ct_call_same (quiet op) s) as [S Q]. pose proof (ct_call_quiet op s) as C. by rewrite H in S, Q, C.
Qed.

(** The portfolio and the quote asset a trade is sized from, if both calls
    succeed. *)
Definition market_view trade s : option (option Accounts * string) :=
  match GetPortfolioV2 E (sy_world (s_sys s)) with
  | (Ok p, w1) => match QuoteAssetID E (te_OrderBookID trade) w1 with (Ok q, _) => Some (p, q) | _ => None end
  | _ => None
  end.

(** What a trade makes the strategy send. *)
Definition trade_effect v trade s (cs : list Call) : Prop :=
  match side_of (te_Side trade), market_view trade s with
  | Some side, Some (p, quote) =>
      let '(current, size) := order_size (s_cfg s) v p side (te_AssetID trade) quote in
      if bool_decide (te_AssetID trade ∈ disallowedSet s) || negb (d_is_pos size) then cs = []
      else exists o, orders_sent cs = [o] /\ placed_order trade (s_cfg s) side current size o
  | _, _ => cs = []
  end.

Lemma ct_pos_split (x : dec) : negb (d_is_pos x) = d_is_zero x || d_is_neg x.
Proof. unfold d_is_pos, d_is_zero, d_is_neg. by destruct (dcmp x dzero). Qed.

Lemma ct_handleTrade_log v trade s :
  same_run s (handleTrade E v trade s).2 /\
  exists cs, calls (handleTrade E v trade s).2 = calls s ++ cs /\ step_log s (handleTrade E v trade s).2 cs /\
    trade_effect v trade s cs.
Proof.
  unfold handleTrade, trade_effect, market_view.
  assert (forall s', same_run s s' -> decisionSeq s' = decisionSeq s -> calls s' = calls s ->
    same_run s s' /\ exists cs, calls s' = calls s ++ cs /\ step_log s s' cs /\ cs = []) as Hno.
  { intros s' S Q C. split; [done |]. exists []. rewrite app_nil_r. split_and!; try done. by constructor. }
  case_bool_decide as Hdis.
  { destruct (Hno s) as (_ & cs & C & Sl & Hcs); try done. split; [done |]. exists cs. split_and!; [done | done |].
    destruct (side_of _); [| done]. destruct (GetPortfolioV2 E _) as [[p|] w]; [| done].
    destruct (QuoteAssetID E _ w) as [[q|] w2]; [| done]. by destruct (order_size _ _ _ _ _ _). }
  destruct (side_of (te_Side trade)) as [side|]; [| by apply Hno].
  destruct (call (quiet (GetPortfolioV2 E)) s) as [p s1] eqn:H1. pose proof H1 as H1'.
  apply ct_quiet_step in H1' as (S1 & Q1 & C1). unfold call, quiet, invoke in H1.
  destruct (GetPortfolioV2 E (sy_world (s_sys s))) as [p' w1]. injection H1 as -> Hs1.
  destruct p as [p|e]; [| by apply Hno].
  destruct (call (quiet (QuoteAssetID E (te_OrderBookID trade))) s1) as [q s2] eqn:H2. pose proof H2 as H2'.
  apply ct_quiet_step in H2' as (S2 & Q2 & C2). unfold call, quiet, invoke in H2. rewrite <- Hs1 in H2. simpl in H2.
  destruct (QuoteAssetID E (te_OrderBookID trade) w1) as [q' w2]. injection H2 as -> _.
  assert (same_run s s2) as S by (by transitivity s1).
  destruct q as [q|e]; [| simpl; apply Hno; [done | congruence | congruence]].
  rewrite (sr_cfg _ _ S). destruct (order_size _ _ _ _ _ _) as [current size].
  rewrite ct_pos_split. simpl.
  destruct (d_is_zero size || d_is_neg size); [simpl; apply Hno; [done | congruence | congruence] |].
  destruct (ct_place_log trade side current size s2) as (S3 & cs & o & C3 & L3 & Ho & Hp).
  split; [by transitivity s2 |]. exists cs. split_and!.
  - rewrite C3, C2, C1. done.
  - eapply step_log_start; [exact L3 | exact (sr_id _ _ S) | congruence].
  - exists o. split; [done |]. by rewrite <- (sr_cfg _ _ S).
Qed.


(** The comment on [availableBalanceFor] says that without an isolated
    account for the bond the global account is used.  It is not: a bond the
    account has never held has no balance to size from, so its trades are not
    copied, whatever cash there is (and the code expects the account to be
    created by the first order). *)
Theorem copy_new_bond_never_traded v trade s accounts quote :
  market_view trade s = Some (Some accounts, quote) -> isolated_account (te_AssetID trade) accounts = None ->
  one_isolated (te_AssetID trade) accounts -> visits_all v accounts -> MaxOrderSize (s_cfg s) <= int64_max ->
  orders (handleTrade E v trade s).2 = orders s.
Proof.
  intros Hm Hi H1 Hv Hmx. destruct (ct_handleTrade_log v trade s) as (_ & cs & C & _ & He).
  assert (orders_sent cs = []) as Ho.
  { unfold trade_effect in He. rewrite Hm in He. destruct (side_of (te_Side trade)) as [side|]; [| by rewrite He].
    rewrite order_size_account, Hi, account_size_none in He by done. rewrite ct_pos_split in He.
    rewrite (calculateOrderSize_zero _ _ _ _ Hmx), orb_true_r in He. by rewrite He. }
  unfold orders. by rewrite C, orders_sent_app, Ho, app_nil_r.
Qed.

(** *** The price plays no part *)

Definition set_price (p : dec) trade : TradeEvent := {|
  te_OrderBookID := te_OrderBookID trade; te_AssetID := te_AssetID trade; te_Side := te_Side trade; te_Price := p |}.

Lemma ct_record_orders mk s : orders (recordDecision E mk s) = orders s.
Proof.
  destruct (ct_recordDecision mk s) as [_ R]. destruct (Records E) as [save|]; [| by rewrite R].
  destruct R as (now & C & _). unfold orders. by rewrite C, orders_sent_app, app_nil_r.
Qed.

(** The quantity of a live order is a sum of money.  An opening order's
    size is cash times fraction times leverage and is sent as the number of
    bonds; the price of the trade is never read, so a bond at 10 and one at
    1000 are bought in the same quantity.  (The backtest divides by the
    price.) *)
Theorem copy_size_ignores_price v trade s p :
  orders (handleTrade E v (set_price p trade) s).2 = orders (handleTrade E v trade s).2.
Proof.
  unfold handleTrade. simpl. case_bool_decide; [done |]. destruct (side_of (te_Side trade)) as [side|]; [| done].
  destruct (call (quiet (GetPortfolioV2 E)) s) as [[portfolio|] s1]; [| done].
  destruct (call (quiet (QuoteAssetID E (te_OrderBookID trade))) s1) as [[quote|] s2]; [| done].
  destruct (order_size (s_cfg s2) v portfolio side (te_AssetID trade) quote) as [current size]. destruct (_ || _); [done |].
  unfold place. simpl. destruct (call (BuildClientOrderID E StrategyType (s_runID s2)) s2) as [cid s3].
  destruct (call (create_market_order E _) s3) as [[id|e] s4]; [| done]. simpl. by rewrite !ct_record_orders.
Qed.

(** *** The decision log *)

(** The orders the exchange accepted, and the rows saved. *)
Fixpoint accepted (cs : list Call) : list OrderRequest :=
  match cs with
  | [] => []
  | CallCreateMarketOrder r (Ok _) :: rest => r :: accepted rest
  | _ :: rest => accepted rest
  end.
Fixpoint saved (cs : list Call) : list DecisionRow :=
  match cs with
  | [] => []
  | CallSaveDecision d :: rest => d :: saved rest
  | _ :: rest => saved rest
  end.

Lemma ct_accepted_app cs cs' : accepted (cs ++ cs') = accepted cs ++ accepted cs'.
Proof. induction cs as [|[r [|]| |] cs IH]; simpl; by rewrite ?IH. Qed.
Lemma ct_saved_app cs cs' : saved (cs ++ cs') = saved cs ++ saved cs'.
Proof. induction cs as [|[| |] cs IH]; simpl; by rewrite ?IH. Qed.

(** Rows numbered from [n + 1], and where the counter stands after them. *)
Fixpoint numbered (n : Z) (ds : list DecisionRow) (n' : Z) : Prop :=
  match ds with
  | [] => n' = n
  | d :: rest => dr_Seq d = wrap64 (n + 1) /\ numbered (dr_Seq d) rest n'
  end.

Lemma ct_numbered_app n1 n2 n3 ds ds' : numbered n1 ds n2 -> numbered n2 ds' n3 -> numbered n1 (ds ++ ds') n3.
Proof. revert n1. induction ds as [|d ds IH]; intros n1 H1 H2; simpl in *; [by subst | by destruct H1 as [? ?]; eauto]. Qed.

Definition audited (run : string) (n : Z) (cs : list Call) (n' : Z) : Prop :=
  Forall2 (row_matches run) (accepted cs) (saved cs) /\ numbered n (saved cs) n'.

Lemma ct_step_audited s s' cs : Records E <> None -> step_log s s' cs ->
  audited (s_runID s) (decisionSeq s) cs (decisionSeq s').
Proof.
  intros Hr [H|o e H|o id H _|o id d _ H1 H2 H3]; [| | done |]; split; simpl; try done; by constructor.
Qed.

Lemma ct_loop_step_log ev s s' : loop_step E ev s = Some s' ->
  s_runID s' = s_runID s /\ exists cs, calls s' = calls s ++ cs /\ step_log s s' cs.
Proof.
  assert (forall x, s_runID x = s_runID s -> calls x = calls s -> decisionSeq x = decisionSeq s ->
    s_runID x = s_runID s /\ exists cs, calls x = calls s ++ cs /\ step_log s x cs) as Hno.
  { intros x Hi Hc Hq. split; [done |]. exists []. rewrite app_nil_r. split; [done |]. by constructor. }
  destruct ev as [| |m|v trade|]; simpl; try done; [destruct m; try done; intros [= <-]; by apply Hno |].
  destruct (s_paused s); intros [= <-]; [by apply Hno |].
  destruct (ct_handleTrade_log v trade s) as (S & cs & C & Sl & _). split; [apply S |]. by exists cs.
Qed.

Lemma ct_runLoop_audited evs s : Records E <> None ->
  exists cs, calls (runLoop E evs s) = calls s ++ cs /\
    audited (s_runID s) (decisionSeq s) cs (decisionSeq (runLoop E evs s)).
Proof.
  intros Hr. revert s. induction evs as [|ev evs IH]; intros s; simpl; [exists []; by rewrite app_nil_r |].
  destruct (loop_step E ev s) as [s1|] eqn:Hs; [| exists []; by rewrite app_nil_r].
  apply ct_loop_step_log in Hs as (Hi & cs1 & C1 & S1). apply (ct_step_audited _ _ _ Hr) in S1 as [F1 N1].
  destruct (IH s1) as (cs2 & C2 & F2 & N2). exists (cs1 ++ cs2). split; [by rewrite C2, C1, app_assoc |].
  rewrite Hi in F2. split; rewrite ?ct_accepted_app, ct_saved_app; [by apply Forall2_app | by eapply ct_numbered_app].
Qed.

(** The decision log is the audit trail it is meant to be: over a whole
    run, for any events, failing calls and failing saves, there is exactly one
    row per order the exchange accepted, none for a rejected one, in the order
    they were placed, with the order's side, size, leverage and client id, the
    run's id, and consecutive sequence numbers. *)
Theorem copy_decision_log stream market id evs s :
  Records E <> None ->
  exists cs, calls (Run E stream market id evs s).2 = calls s ++ cs /\
    Forall2 (row_matches id) (accepted cs) (saved cs) /\
    numbered (decisionSeq s) (saved cs) (decisionSeq (Run E stream market id evs s).2).
Proof.
  intros Hr. unfold Run. destruct stream; [| exists []; by rewrite app_nil_r].
  destruct market; [| exists []; by rewrite app_nil_r].
  exact (ct_runLoop_audited evs (set_runID id s) Hr).
Qed.
End LiveTheory.

(** ** Concrete runs and witnesses *)

Section Demo.
#[local] Existing Instance RefDec.

(** Half of the cash, twice levered. *)
Definition demo_config : Config := {|
  FollowedTrader := "trader"; PercentageOfAvailable := RD 5 1; Leverage := RD 2 0; MinOrderSize := 0;
  MaxOrderSize := 0; DisallowedBonds := []; InitialBalance := RD 0 0 |}.

(** An isolated account for the bond with 1000 in cash, next to a global
    account with more. *)
Definition demo_accounts : Accounts := [
  ("global", [("usd", {| GetIsGlobal := true; Available := "5000"; Borrowed := "0" |})]);
  ("isolated", [("bond", {| GetIsGlobal := false; Available := "0"; Borrowed := "0" |});
                ("usd", {| GetIsGlobal := false; Available := "1000"; Borrowed := "0" |})])]%string.

Definition no_isolated : Accounts :=
  [("global", [("bond", {| GetIsGlobal := true; Available := "7"; Borrowed := "0" |});
               ("usd", {| GetIsGlobal := true; Available := "5000"; Borrowed := "0" |})])]%string.

Definition copy_env (accounts : Accounts) : Env nat := {|
  BaseAssetID := BaseAssetID demo_env; QuoteAssetID := QuoteAssetID demo_env; AssetPosition := AssetPosition demo_env;
  GetPortfolioV2 := fun w => (Ok (Some accounts), w); CreateMarketOrder := CreateMarketOrder demo_env;
  AssetCollateralWeight := AssetCollateralWeight demo_env; GetOrderFilledStatus := GetOrderFilledStatus demo_env;
  ListOrdersByClientOrderIDPrefix := ListOrdersByClientOrderIDPrefix demo_env;
  Records := Some (fun _ w => (Ok tt, w)); Store_SaveState := None; Store_LoadState := None;
  NewV7 := NewV7 demo_env; uuid_Parse := uuid_Parse demo_env; Now := Now demo_env |}.

Definition demo_trade : TradeEvent := {|
  te_OrderBookID := "book"; te_AssetID := "bond"; te_Side := "Buy"; te_Price := RD 100 0 |}.

(** Every iteration visits the accounts in another order. *)
Definition demo_visits : Visits := {|
  visit_position := fun l => l; visit_balance := fun l => reverse l; visit_close := fun l => l |}.

Definition fresh : Strategy (W := nat) := New demo_config (MkSys 0%nat []).

Lemma copy_visits_all accounts : visits_all demo_visits accounts.
Proof. unfold visits_all. simpl. split_and!; [done | apply reverse_Permutation | done]. Qed.

Lemma copy_demo_isolated : one_isolated "bond" demo_accounts /\ one_isolated "bond" no_isolated.
Proof. split; apply Nat.leb_le; vm_compute; reflexivity. Qed.


Lemma copy_new_bond_never_traded_witness :
  orders (handleTrade (copy_env no_isolated) demo_visits demo_trade fresh).2 = [].
Proof.
  refine (copy_new_bond_never_traded (copy_env no_isolated) demo_visits demo_trade fresh no_isolated "usd" _ _ _ _ _);
    [reflexivity | reflexivity | exact (proj2 copy_demo_isolated) | apply copy_visits_all
    | unfold int64_max; simpl; lia].
Defined.

Lemma copy_decision_log_witness :
  let s := (Run (copy_env demo_accounts) true true "run" [EvTrade demo_visits demo_trade] fresh).2 in
  exists cs, calls s = cs /\ Forall2 (row_matches "run") (accepted cs) (saved cs) /\ length (saved cs) = 1%nat.
Proof.
  destruct (copy_decision_log (copy_env demo_accounts) true true "run" [EvTrade demo_visits demo_trade] fresh)
    as (cs & C & F & _); [discriminate |]. exists cs. split; [exact C |]. split; [exact F |].
  change (calls fresh) with (@nil (@Call RefDec)) in C. simpl app in C. rewrite <- C. vm_compute. reflexivity.
Defined.
End Demo.
