(* ===== verification/CopyTradingBacktest.v ===== *)
(** * strategy/copytrading: the trade history and the backtester

    The keyset pagination over [trades_history] ([trades_history.go]) and the
    simulation that copies the trades it delivers into a book of positions
    ([backtest.go]).  [queryTradesBatch] is the meaning of its two SQL
    statements over the rows of the table; UUIDs are in their canonical
    lower-case form, so that their order is that of the strings.  A position
    is a struct behind a pointer that only the map holds; the map is iterated
    once per opened position, in an order [bt_range] chooses.

    Theory: the pagination ends and delivers every row of the window once, in
    order; over exact arithmetic the cash is accounted for, which exposes that
    profits of shorts are reported with the wrong sign; new positions respect
    the notional cap; a levered configuration never trades. *)

From S2P Require Import Prelude GoTime Decimal RefDecimal Types Stats Market Replay Fred CopyTrading.

(** ** The history *)

Section History.
Context {D : DecimalOps}.

Record Trade := {
  TransactionID : string;
  Asset : string;
  t_Quantity : dec;
  t_Price : dec;
  t_Side : string;
  CreatedAt : Time;
}.

(** A row of [trades_history]; numbers arrive as text. *)
Record Row := {
  r_transaction_id : string;
  r_user_id : string;
  r_asset : string;
  r_quantity : string;
  r_price : string;
  r_side : string;
  r_created_at : Time;
}.

Definition streamBatchSize : nat := 1000.

(** The sort key [(created_at, transaction_id)], compared as SQL compares
    rows. *)
Definition row_key (r : Row) : Z * string := (t_ns (r_created_at r), r_transaction_id r).
Definition key_le (a b : Z * string) : Prop := a.1 < b.1 \/ (a.1 = b.1 /\ String.le a.2 b.2).
Definition key_lt (a b : Z * string) : Prop := key_le a b /\ a <> b.
#[export] Instance key_le_dec : RelDecision key_le.
Proof. intros a b. unfold key_le. apply _. Defined.
#[export] Instance key_lt_dec : RelDecision key_lt.
Proof. intros a b. unfold key_lt. apply _. Defined.

Definition in_bounds (userID : string) (start end_ : Time) (r : Row) : Prop :=
  r_user_id r = userID /\ t_ns start <= t_ns (r_created_at r) /\ t_ns (r_created_at r) <= t_ns end_.
#[export] Instance in_bounds_dec userID start end_ r : base.Decision (in_bounds userID start end_ r).
Proof. unfold in_bounds. apply _. Defined.

(** The rows of the window, ordered. *)
Definition row_le (a b : Row) : Prop := key_le (row_key a) (row_key b).
#[export] Instance row_le_dec : RelDecision row_le.
Proof. intros a b. unfold row_le. apply _. Defined.

Definition window_rows (table : list Row) (userID : string) (start end_ : Time) : list Row :=
  merge_sort row_le (filter (in_bounds userID start end_) table).

(** [queryTradesBatch]: the first statement has no cursor. *)
Definition queryTradesBatch (table : list Row) (userID : string) (start end_ : Time) (cursor : option (Z * string)) :
    list Row :=
  take streamBatchSize
    (match cursor with
     | None => window_rows table userID start end_
     | Some k => filter (fun r => key_lt k (row_key r)) (window_rows table userID start end_)
     end).

Definition scanTradeRow (r : Row) : result Trade :=
  q ← wrap_err "parse quantity" (dparse (r_quantity r));
  p ← wrap_err "parse price" (dparse (r_price r));
  Ok {| TransactionID := r_transaction_id r; Asset := r_asset r; t_Quantity := q; t_Price := p;
        t_Side := r_side r; CreatedAt := r_created_at r |}.

(** The database and the context of one call: whether the context is done
    when batch [n] is asked for or row [i] is sent, whether query [n] fails,
    and the error the rows of batch [n] end with. *)
Record Conditions := {
  ctx_done : nat -> bool;
  ctx_done_sending : nat -> bool;
  query_error : nat -> option error;
  rows_error : nat -> option error;
}.

(** [consumeTradesBatch]: the trades sent, how many, the cursor of the last,
    and the error; [sent] counts the rows sent before. *)
Fixpoint consumeTradesBatch (C : Conditions) (end_error : option error) (sent : nat) (rows : list Row)
    (batchCount : nat) (lastRow : option (Z * string)) : list Trade * result (nat * option (Z * string)) :=
  match rows with
  | [] => ([], match end_error with Some e => Err (ErrWrap "iterate trades" e) | None => Ok (batchCount, lastRow) end)
  | r :: rest =>
      match scanTradeRow r with
      | Err e => ([], Err e)
      | Ok t =>
          if ctx_done_sending C sent then ([], Err (ErrMsg "context done"))
          else let '(out, res) := consumeTradesBatch C end_error (S sent) rest (S batchCount) (Some (row_key r)) in
               (t :: out, res)
      end
  end.

(** [streamTradesLoop] from batch [n] with [cursor]: the trades sent on the
    channel and the value sent on [done].  A batch of a thousand rows always
    has a last row, so the cursor is set from the second batch on.  [None] is
    fuel exhausted. *)
Fixpoint streamTradesLoop (fuel : nat) (C : Conditions) (table : list Row) (userID : string) (start end_ : Time)
    (n sent : nat) (cursor : option (Z * string)) : option (list Trade * result unit) :=
  match fuel with
  | O => None
  | S fuel =>
      if ctx_done C n then Some ([], Err (ErrMsg "context done")) else
      match query_error C n with
      | Some e => Some ([], Err (ErrWrap "query trades history" e))
      | None =>
          let rows := queryTradesBatch table userID start end_ cursor in
          let '(out, res) := consumeTradesBatch C (rows_error C n) sent rows 0 None in
          match res with
          | Err e => Some (out, Err e)
          | Ok (batchCount, lastRow) =>
              if (batchCount <? streamBatchSize)%nat then Some (out, Ok tt)
              else '(out', done) ← streamTradesLoop fuel C table userID start end_ (S n) (sent + length out) lastRow;
                   Some (out ++ out', done)
          end
      end
  end.

(** Fuel: one batch more than the full ones of the window. *)
Definition batches (table : list Row) (userID : string) (start end_ : Time) : nat :=
  S (length (window_rows table userID start end_) / streamBatchSize).

(** [StreamTrades] *)
Definition StreamTrades (C : Conditions) (table : list Row) (userID : string) (start end_ : Time) :
    option (list Trade * result unit) :=
  if bool_decide (userID = ""%string) then Some ([], Err (ErrMsg "userID is required"))
  else streamTradesLoop (batches table userID start end_) C table userID start end_ 0 0 None.

(** [TradeBounds]: earliest, latest and number of the user's rows. *)
Definition TradeBounds (table : list Row) (userID : string) : Time * Time * nat :=
  let rows := filter (fun r => r_user_id r = userID) table in
  let earlier a b := if time_before b a then b else a in
  let later a b := if time_after b a then b else a in
  match r_created_at <$> rows with
  | [] => (zero_time, zero_time, 0%nat)
  | t :: ts => (foldl earlier t ts, foldl later t ts, length rows)
  end.

(** ** The book of positions *)

Record TradeRecord := {
  tr_Time : Time;
  tr_BondID : string;
  tr_Signal : Signal;
  tr_Price : dec;
  tr_Quantity : dec;
  tr_OrderSize : dec;
  tr_Cash : dec;
  tr_OpenPosition : dec;
  tr_TradeID : string;
}.

Record ClosedTrade := {
  ct_OpenTime : Time;
  ct_CloseTime : Time;
  ct_BondID : string;
  ct_OpenSignal : Signal;
  ct_CloseSignal : Signal;
  ct_Quantity : dec;
  ct_EntryPrice : dec;
  ct_ExitPrice : dec;
  ct_PnL : dec;
  ct_EntryBalance : dec;
  ct_OpenTradeID : string;
  ct_CloseTradeID : string;
}.

Record BacktestResult := {
  br_TradeRecords : list TradeRecord;
  br_ClosedTrades : list ClosedTrade;
  br_TotalPnL : dec;
  br_WinCount : Z;
  br_LossCount : Z;
  br_MaxDrawdown : dec;
  br_SharpeRatio : dec;
}.

Record position := { qty : dec; avgEntry : dec; openTime : Time; openTradeID : string }.

(** What [applyTrade] threads. *)
Record Book := MkBook {
  b_cash : dec;
  b_positions : gmap string position;
  b_records : list TradeRecord;
  b_closed : list ClosedTrade;
}.

Definition emitTradeRecord (trade : Trade) (tradeID : string) (signal : Signal) (quantity price cash openPos : dec) :
    TradeRecord := {|
  tr_Time := CreatedAt trade; tr_BondID := Asset trade; tr_Signal := signal; tr_Price := price;
  tr_Quantity := quantity; tr_OrderSize := d_or_zero (dmul quantity price); tr_Cash := cash;
  tr_OpenPosition := openPos; tr_TradeID := tradeID |}.

Definition close_pnl (price entry closeQty : dec) : dec :=
  d_or_zero (dmul (d_or_zero (dsub price entry)) closeQty).

Definition closed_trade (trade : Trade) (tradeID : string) (pos : position) (openSig closeSig : Signal)
    (closeQty price : dec) : ClosedTrade := {|
  ct_OpenTime := openTime pos; ct_CloseTime := CreatedAt trade; ct_BondID := Asset trade;
  ct_OpenSignal := openSig; ct_CloseSignal := closeSig; ct_Quantity := closeQty; ct_EntryPrice := avgEntry pos;
  ct_ExitPrice := price; ct_PnL := close_pnl price (avgEntry pos) closeQty; ct_EntryBalance := dzero;
  ct_OpenTradeID := openTradeID pos; ct_CloseTradeID := tradeID |}.

(** Cash, quantity left, closed trade. *)
Definition closeLongPosition (trade : Trade) (tradeID : string) (pos : position) (closeQty price cash : dec) :
    dec * dec * ClosedTrade :=
  let proceeds := d_or_zero (dmul closeQty price) in
  (d_or_zero (dadd cash proceeds), d_or_zero (dsub (qty pos) closeQty),
   closed_trade trade tradeID pos SignalBuy SignalSell closeQty price).

Definition closeShortPosition (trade : Trade) (tradeID : string) (pos : position) (closeQty price cash : dec) :
    dec * dec * ClosedTrade :=
  let buybackCost := d_or_zero (dmul closeQty price) in
  (d_or_zero (dsub cash buybackCost), d_or_zero (dadd (qty pos) closeQty),
   closed_trade trade tradeID pos SignalSell SignalBuy closeQty price).

Definition buyClosesShort (trade : Trade) (tradeID : string) (price : dec) (pos : position) (b : Book) : Book :=
  let absQty := dabs (qty pos) in
  let '(cash, rest, ct) := closeShortPosition trade tradeID pos absQty price (b_cash b) in
  MkBook cash (delete (Asset trade) (b_positions b))
    (b_records b ++ [emitTradeRecord trade tradeID SignalBuy absQty price (b_cash b) rest]) (b_closed b ++ [ct]).

Definition sellClosesLong (trade : Trade) (tradeID : string) (price : dec) (pos : position) (b : Book) : Book :=
  let '(cash, rest, ct) := closeLongPosition trade tradeID pos (qty pos) price (b_cash b) in
  MkBook cash (delete (Asset trade) (b_positions b))
    (b_records b ++ [emitTradeRecord trade tradeID SignalSell (qty pos) price (b_cash b) rest]) (b_closed b ++ [ct]).

(** Quantity and average price of a position after adding to it. *)
Definition averaged (oldQty oldEntry ourQty price : dec) : dec * dec :=
  let oldCost := d_or_zero (dmul oldQty oldEntry) in
  let newCost := d_or_zero (dmul ourQty price) in
  let totalCost := d_or_zero (dadd oldCost newCost) in
  let totalQty := d_or_zero (dadd oldQty ourQty) in
  (totalQty, d_or_zero (dquo totalCost totalQty)).

Definition buyOpensOrAddsLong (trade : Trade) (tradeID : string) (ourQty price : dec) (pos : option position)
    (b : Book) : Book :=
  let cost := d_or_zero (dmul ourQty price) in
  let cash := d_or_zero (dsub (b_cash b) cost) in
  let fresh := {| qty := ourQty; avgEntry := price; openTime := CreatedAt trade; openTradeID := tradeID |} in
  let pos' := match pos with
    | None => fresh
    | Some p => if d_is_zero (qty p) then fresh
                else let '(q, avg) := averaged (qty p) (avgEntry p) ourQty price in
                     {| qty := q; avgEntry := avg; openTime := openTime p; openTradeID := openTradeID p |}
    end in
  MkBook cash (<[Asset trade := pos']> (b_positions b))
    (b_records b ++ [emitTradeRecord trade tradeID SignalBuy ourQty price (b_cash b) (qty pos')]) (b_closed b).

Definition sellOpensOrAddsShort (trade : Trade) (tradeID : string) (ourQty price : dec) (pos : option position)
    (b : Book) : Book :=
  let proceeds := d_or_zero (dmul ourQty price) in
  let cash := d_or_zero (dadd (b_cash b) proceeds) in
  let fresh := {| qty := dneg ourQty; avgEntry := price; openTime := CreatedAt trade; openTradeID := tradeID |} in
  let pos' := match pos with
    | None => fresh
    | Some p => if d_is_zero (qty p) then fresh
                else let '(q, avg) := averaged (dabs (qty p)) (avgEntry p) ourQty price in
                     {| qty := dneg q; avgEntry := avg; openTime := openTime p; openTradeID := openTradeID p |}
    end in
  MkBook cash (<[Asset trade := pos']> (b_positions b))
    (b_records b ++ [emitTradeRecord trade tradeID SignalSell ourQty price (b_cash b) (qty pos')]) (b_closed b).

Definition applyBuy (trade : Trade) (tradeID : string) (ourQty price : dec) (pos : option position) (b : Book) : Book :=
  match pos with
  | Some p => if d_is_neg (qty p) then buyClosesShort trade tradeID price p b
              else buyOpensOrAddsLong trade tradeID ourQty price pos b
  | None => buyOpensOrAddsLong trade tradeID ourQty price pos b
  end.

Definition applySell (trade : Trade) (tradeID : string) (ourQty price : dec) (pos : option position) (b : Book) : Book :=
  match pos with
  | Some p => if d_is_pos (qty p) then sellClosesLong trade tradeID price p b
              else sellOpensOrAddsShort trade tradeID ourQty price pos b
  | None => sellOpensOrAddsShort trade tradeID ourQty price pos b
  end.

Definition applyTrade (trade : Trade) (tradeID : string) (ourSignal : Signal) (ourQty price : dec) (b : Book) : Book :=
  let pos := b_positions b !! Asset trade in
  if bool_decide (ourSignal = SignalBuy) then applyBuy trade tradeID ourQty price pos b
  else applySell trade tradeID ourQty price pos b.

(** ** The simulation *)

Definition initialBacktestBalance : Z := 10000.

Record Params := {
  bt_cfg : Config;
  (** [uuid.Parse], printed back *)
  bt_parse : string -> result string;
  (** the order in which the iteration made for trade [i] finds the positions *)
  bt_range : nat -> gmap string position -> list (string * position);
  (** whether the context is done when trade [i] is taken *)
  bt_cancelled : nat -> bool;
}.

(** The book, the compounding equity, and what went to the writer. *)
Record Sim := MkSim { m_book : Book; m_running : dec; m_written : list WriterCall }.

Definition set_EntryBalance (v : dec) (ct : ClosedTrade) : ClosedTrade := {|
  ct_OpenTime := ct_OpenTime ct; ct_CloseTime := ct_CloseTime ct; ct_BondID := ct_BondID ct;
  ct_OpenSignal := ct_OpenSignal ct; ct_CloseSignal := ct_CloseSignal ct; ct_Quantity := ct_Quantity ct;
  ct_EntryPrice := ct_EntryPrice ct; ct_ExitPrice := ct_ExitPrice ct; ct_PnL := ct_PnL ct; ct_EntryBalance := v;
  ct_OpenTradeID := ct_OpenTradeID ct; ct_CloseTradeID := ct_CloseTradeID ct |}.

(** Newly closed trades get the running balance, which then compounds. *)
Fixpoint entry_balances (running : dec) (cts : list ClosedTrade) : list ClosedTrade * dec :=
  match cts with
  | [] => ([], running)
  | ct :: rest =>
      let '(rest', running') := entry_balances (d_or_zero (dadd running (ct_PnL ct))) rest in
      (set_EntryBalance running ct :: rest', running')
  end.

Definition record_row (r : TradeRecord) : TradeRecordInsert := {|
  tri_BacktestID := uuid_nil; tri_Time := tr_Time r; tri_BondID := tr_BondID r;
  tri_Signal := Signal_String (tr_Signal r); tri_Price := tr_Price r; tri_Quantity := tr_Quantity r;
  tri_EntryBalance := dzero; tri_OrderSize := tr_OrderSize r; tri_Cash := tr_Cash r;
  tri_OpenPosition := tr_OpenPosition r; tri_TradeID := tr_TradeID r; tri_Spread := dzero;
  tri_PositionSize := dzero; tri_ZScore := dzero; tri_CompressionRatio := dzero; tri_EntryATR := dzero |}.

Definition closed_row (c : ClosedTrade) : ClosedTradeInsert := {|
  cti_BacktestID := uuid_nil; cti_OpenTime := ct_OpenTime c; cti_CloseTime := ct_CloseTime c;
  cti_BondID := ct_BondID c; cti_OpenSignal := Signal_String (ct_OpenSignal c);
  cti_CloseSignal := Signal_String (ct_CloseSignal c); cti_Quantity := ct_Quantity c;
  cti_EntryPrice := ct_EntryPrice c; cti_ExitPrice := ct_ExitPrice c; cti_PnL := ct_PnL c;
  cti_EntryBalance := ct_EntryBalance c; cti_OpenTradeID := ct_OpenTradeID c; cti_CloseTradeID := ct_CloseTradeID c;
  cti_EntrySpread := dzero; cti_ExitSpread := dzero; cti_EntryZScore := dzero; cti_ExitZScore := dzero;
  cti_PositionSize := dzero; cti_ExitReason := ""; cti_EntryCompressionRatio := dzero;
  cti_ExitCompressionRatio := dzero |}.

(** [writeNewTrades]: errors of the writer are only logged. *)
Definition writeNewTrades (records : list TradeRecord) (closed : list ClosedTrade) : list WriterCall :=
  (WriteTradeRecord ∘ record_row <$> records) ++ (WriteClosedTrade ∘ closed_row <$> closed).

Section Simulation.
Context (P : Params).
#[local] Abbreviation c := (bt_cfg P).

Definition startingBalance : dec :=
  if d_is_zero (InitialBalance c) then d_int initialBacktestBalance else InitialBalance c.

Definition deployed_in (ps : list (string * position)) : dec :=
  foldl (fun deployed kp => d_or_zero (dadd deployed (d_or_zero (dmul (dabs (qty kp.2)) (avgEntry kp.2))))) dzero ps.

Definition availableForNewPos (runningBalance : dec) (ps : list (string * position)) (leverage : dec) : dec :=
  let maxNotional := d_or_zero (dmul runningBalance leverage) in
  let avail := d_or_zero (dsub maxNotional (deployed_in ps)) in
  if d_is_neg avail then dzero else avail.

Definition our_signal (trade : Trade) : Signal :=
  if bool_decide (t_Side trade = "BUY"%string) then SignalBuy else SignalSell.

(** The quantity that closes the position the signal goes against. *)
Definition close_qty (sig : Signal) (pos : option position) : option dec :=
  match pos with
  | None => None
  | Some p =>
      if bool_decide (sig = SignalBuy) && d_is_neg (qty p) then Some (dabs (qty p))
      else if bool_decide (sig = SignalSell) && d_is_pos (qty p) then Some (qty p)
      else None
  end.

(** The quantity of an opening or extending trade; [None] skips it. *)
Definition open_qty (running price : dec) (ps : list (string * position)) : option dec :=
  let headroom := availableForNewPos running ps (Leverage c) in
  if d_is_zero headroom then None else
  let size := calculateOrderSize headroom (PercentageOfAvailable c) (Leverage c) (MinOrderSize c) (MaxOrderSize c) in
  let q := if negb (d_is_zero price) then d_or_zero (dquo size price) else size in
  let orderCost := d_or_zero (dmul q price) in
  if d_gt orderCost headroom then None else Some q.

Definition our_qty (i : nat) (trade : Trade) (m : Sim) : option dec :=
  let positions := b_positions (m_book m) in
  match close_qty (our_signal trade) (positions !! Asset trade) with
  | Some q => Some q
  | None => open_qty (m_running m) (t_Price trade) (bt_range P i positions)
  end.

(** The new rows of a book grown from [b]. *)
Definition settle_book (b b' : Book) (m : Sim) : Sim :=
  let '(newClosed, running) := entry_balances (m_running m) (drop (length (b_closed b)) (b_closed b')) in
  let closed := take (length (b_closed b)) (b_closed b') ++ newClosed in
  MkSim (MkBook (b_cash b') (b_positions b') (b_records b') closed) running
    (m_written m ++ writeNewTrades (drop (length (b_records b)) (b_records b')) newClosed).

Definition sim_step (i : nat) (trade : Trade) : SE Sim unit := fun m =>
  if bt_cancelled P i then (Err (ErrMsg "backtest cancelled"), m)
  else if d_is_zero (t_Price trade) then (Ok tt, m)
  else
    let tradeID := or_zero uuid_nil (bt_parse P (TransactionID trade)) in
    match our_qty i trade m with
    | None => (Ok tt, m)
    | Some ourQty =>
        if d_is_zero ourQty || d_is_neg ourQty then (Ok tt, m)
        else (Ok tt, settle_book (m_book m)
                       (applyTrade trade tradeID (our_signal trade) ourQty (t_Price trade) (m_book m)) m)
    end.

Fixpoint sim_trades (i : nat) (trades : list Trade) : SE Sim unit :=
  match trades with
  | [] => mret tt
  | trade :: rest => _ ← sim_step i trade; sim_trades (S i) rest
  end.

Definition init_Sim : Sim := MkSim (MkBook startingBalance ∅ [] []) startingBalance [].

Definition flush (m : Sim) : Sim := MkSim (m_book m) (m_running m) (m_written m ++ [Flush]).

Definition summarise (records : list TradeRecord) (closed : list ClosedTrade) (start end_ : Time) : result BacktestResult :=
  s ← Summarise ((fun t => {| PnL := ct_PnL t; CloseTime := ct_CloseTime t |}) <$> closed) start end_;
  Ok {| br_TradeRecords := records; br_ClosedTrades := closed; br_TotalPnL := TotalPnL s; br_WinCount := WinCount s;
        br_LossCount := LossCount s; br_MaxDrawdown := MaxDrawdown s; br_SharpeRatio := SharpeRatio s |}.

Definition simulate (trades : list Trade) (start end_ : Time) : SE Sim BacktestResult :=
  _ ← sim_trades 0 trades;
  _ ← modify flush;
  b ← gets m_book;
  lift (summarise (b_records b) (b_closed b) start end_).

(** [Backtester.Run]: the bounds query, the window check, the simulation of
    what was streamed; an error of the producer wins.  [None] stands for a
    stream out of fuel. *)
Definition Run (C : Conditions) (bounds_error : option error) (table : list Row) (start end_ : Time) :
    option (result BacktestResult * list WriterCall) :=
  let followedTrader := FollowedTrader c in
  match bounds_error with
  | Some e => Some (Err (ErrWrap "trades history bounds" e), [])
  | None =>
      let '(min, max, count) := TradeBounds table followedTrader in
      if (count =? 0)%nat then Some (Err (ErrMsg "no trades in trades_history"), [])
      else if time_before start min || time_after end_ max then
        Some (Err (ErrMsg "window outside available data"), [])
      else
        '(trades, done) ← StreamTrades C table followedTrader start end_;
        let '(r, m) := simulate trades start end_ init_Sim in
        Some (match done with Err e => Err (ErrWrap "stream trades" e) | Ok _ => r end, m_written m)
  end.

(** [Strategy.Backtest]; [store] tells whether a history store was wired. *)
Definition Backtest (store : bool) (C : Conditions) (bounds_error : option error) (table : list Row) (start end_ : Time) :
    option (result BacktestResult * list WriterCall) :=
  if negb store then Some (Err (ErrMsg "backtest store not configured"), [])
  else Run C bounds_error table start end_.
End Simulation.
End History.

(** ** Theory: the pagination *)

#[export] Instance key_le_trans : Transitive key_le.
Proof.
  intros [t1 a] [t2 b] [t3 c] H1 H2. unfold key_le in *. simpl in *.
  destruct H1 as [?|[-> H1]], H2 as [?|[-> H2]]; [left; lia | left; lia | left; lia |].
  right. split; [done |]. by transitivity b.
Qed.

#[export] Instance row_le_trans : Transitive row_le.
Proof. intros a b c'. unfold row_le. apply key_le_trans. Qed.

#[export] Instance row_le_total : Total row_le.
Proof.
  intros a b. unfold row_le, key_le. destruct (Z.lt_trichotomy (row_key a).1 (row_key b).1) as [?|[E|?]]; [auto | | auto].
  destruct (String.le_total (row_key a).2 (row_key b).2); rewrite E; auto.
Qed.

Lemma key_lt_irrefl a : ~ key_lt a a.
Proof. by intros [_ H]. Qed.

Lemma key_lt_asym a b : key_lt a b -> ~ key_lt b a.
Proof.
  intros [H1 Hn] [H2 _]. apply Hn. destruct a as [t1 a], b as [t2 b]. unfold key_le in *. simpl in *.
  destruct H1 as [?|[E1 H1]], H2 as [?|[E2 H2]]; [lia.. |]. f_equal; [done |]. by apply (anti_symm String.le).
Qed.

Lemma filter_all {A} (Q : A -> Prop) `{!forall x, base.Decision (Q x)} (l : list A) : Forall Q l -> filter Q l = l.
Proof. induction 1; [done |]. rewrite filter_cons_True by done. by f_equal. Qed.

Section Pages.
Context (table : list Row) (userID : string) (start end_ : Time).

(** [transaction_id] is the table's primary key. *)
Context (Hkey : NoDup (r_transaction_id <$> table)).

#[local] Abbreviation rows := (window_rows table userID start end_).

Lemma cp_window_in r : r ∈ rows <-> in_bounds userID start end_ r /\ r ∈ table.
Proof. unfold window_rows. by rewrite merge_sort_Permutation, list_elem_of_filter. Qed.

Lemma cp_window_sorted : StronglySorted (fun a b => key_lt (row_key a) (row_key b)) rows.
Proof.
  assert (NoDup (r_transaction_id <$> rows)) as Hnd.
  { unfold window_rows. rewrite merge_sort_Permutation. eapply sublist_NoDup; [exact Hkey |].
    apply fmap_sublist, sublist_filter. }
  pose proof (StronglySorted_merge_sort row_le (filter (in_bounds userID start end_) table)) as Hs.
  fold (window_rows table userID start end_) in Hs. revert Hnd Hs. generalize (window_rows table userID start end_).
  intros l Hnd. induction 1 as [|r l Hs IH Hall]; [constructor |]. rewrite fmap_cons in Hnd.
  apply NoDup_cons in Hnd as [Hr Hnd]. constructor; [by apply IH |].
  apply Forall_forall. intros x Hx. split; [exact (proj1 (Forall_forall _ _) Hall x Hx) |].
  intros E. apply Hr. apply list_elem_of_fmap. exists x. split; [by injection E | done].
Qed.

(** Where a cursor points: nothing sent yet, or the last row sent. *)
Definition cursor_at (sent : list Row) (cursor : option (Z * string)) : Prop := cursor = row_key <$> last sent.

Lemma cp_batch sent rest cursor : rows = sent ++ rest -> cursor_at sent cursor ->
  queryTradesBatch table userID start end_ cursor = take streamBatchSize rest.
Proof.
  intros Hr ->. unfold queryTradesBatch. f_equal. pose proof cp_window_sorted as Hs. rewrite Hr in *.
  destruct sent as [|r sent _] using rev_ind; [done |]. rewrite last_snoc. simpl.
  rewrite filter_app. apply StronglySorted_app in Hs as (Hx & Hs1 & Hs2).
  rewrite (filter_none _ (sent ++ [r])).
  - simpl. apply filter_all. apply Forall_forall. intros x Hin. apply (Hx r x); [set_solver | done].
  - apply StronglySorted_app in Hs1 as (Hy & _). apply Forall_app. split.
    + apply Forall_forall. intros x Hin. apply key_lt_asym. apply (Hy x r); [done | set_solver].
    + constructor; [apply key_lt_irrefl | constructor].
Qed.

(** What a batch sends: its rows in order, all of them if it succeeds. *)
Lemma cp_consume C ee sent l n k out res : consumeTradesBatch C ee sent l n k = (out, res) ->
  Forall2 (fun r t => scanTradeRow r = Ok t) (take (length out) l) out /\
  (forall m k', res = Ok (m, k') -> length out = length l /\ m = (n + length l)%nat /\
     k' = match row_key <$> last l with Some x => Some x | None => k end) /\
  ((forall i, ctx_done_sending C i = false) -> ee = None -> Forall (fun r => is_ok (scanTradeRow r) = true) l ->
     is_ok res = true).
Proof.
  revert sent n k out res. induction l as [|r l IH]; intros sent n k out res; simpl.
  { intros [= <- <-]. split; [constructor |]. split; [| by intros _ -> _]. destruct ee; [done |]. intros m k' [= <- <-]. simpl. split_and!; done || lia. }
  destruct (scanTradeRow r) as [t|e] eqn:Ht.
  2: { intros [= <- <-]. split; [constructor |]. split; [done |]. intros _ _ H. apply Forall_cons in H as [H _]. by rewrite Ht in H. }
  destruct (ctx_done_sending C sent) eqn:Hc.
  { intros [= <- <-]. split; [constructor |]. split; [done |]. intros H. by rewrite H in Hc. }
  destruct (consumeTradesBatch C ee (S sent) l (S n) (Some (row_key r))) as [out1 res1] eqn:E. intros [= <- <-].
  apply IH in E as (F & K & G). split; [simpl; by constructor |]. split.
  - intros m k' Hres. destruct (K m k' Hres) as (K1 & -> & ->).
    split_and!; [simpl; by rewrite K1 | simpl; lia |]. rewrite last_cons. by destruct (last l).
  - intros G1 G2 G3. apply Forall_cons in G3 as [_ G3]. by apply G.
Qed.

(** The outcome of the loop from a state of progress. *)
Definition delivers C (rest : list Row) (out : list Trade) (done : result unit) : Prop :=
  Forall2 (fun r t => scanTradeRow r = Ok t) (take (length out) rest) out /\
  (done = Ok tt -> length out = length rest) /\
  ((forall i, ctx_done C i = false) -> (forall i, ctx_done_sending C i = false) -> (forall i, query_error C i = None) ->
   (forall i, rows_error C i = None) -> Forall (fun r => is_ok (scanTradeRow r) = true) rest -> done = Ok tt).


Lemma cp_delivers_stop C rest e :
  ((forall i, ctx_done C i = false) -> (forall i, query_error C i = None) -> False) -> delivers C rest [] (Err e).
Proof. intros H. split; [constructor |]. split; [done |]. intros H1 _ H2 _ _. by destruct H. Qed.

Lemma cp_batch_small (rest : list Row) : (length rest < streamBatchSize)%nat -> take streamBatchSize rest = rest.
Proof. intros H. apply take_ge. lia. Qed.

(** After a full batch the rest of the rows is that much shorter. *)
Lemma cp_loop C fuel n sentn sent rest cursor : rows = sent ++ rest -> cursor_at sent cursor ->
  (length rest / streamBatchSize < fuel)%nat ->
  exists out done, streamTradesLoop fuel C table userID start end_ n sentn cursor = Some (out, done) /\ delivers C rest out done.
Proof.
  revert n sentn sent rest cursor. induction fuel as [|fuel IH]; intros n sentn sent rest cursor Hr Hc Hf; [lia |].
  cbn [streamTradesLoop]. destruct (ctx_done C n) eqn:H1.
  { eexists _, _. split; [done |]. apply cp_delivers_stop. intros H _. by rewrite H in H1. }
  destruct (query_error C n) as [e|] eqn:H2.
  { eexists _, _. split; [done |]. apply cp_delivers_stop. intros _ H. by rewrite H in H2. }
  rewrite (cp_batch sent rest) by done. set (batch := take streamBatchSize rest).
  destruct (consumeTradesBatch C (rows_error C n) sentn batch 0 None) as [out res] eqn:E.
  apply cp_consume in E as (F & K & G).
  assert (take (length out) batch `prefix_of` rest) as Hpre by (unfold batch; rewrite take_take; apply prefix_take).
  assert (Forall2 (fun r t => scanTradeRow r = Ok t) (take (length out) rest) out) as F'.
  { assert (length out = length (take (length out) batch)) as Hl by (symmetry; by eapply Forall2_length).
    destruct Hpre as [suf Hsuf]. rewrite Hsuf at 1. rewrite Hl at 1. by rewrite take_app_length. }
  assert (Forall (fun r => is_ok (scanTradeRow r) = true) rest ->
    Forall (fun r => is_ok (scanTradeRow r) = true) batch) as Hb by (apply Forall_take).
  destruct res as [[m k']|e].
  2: { exists out, (Err e). split; [done |]. split; [done |]. split; [done |].
       intros _ Hsnd _ Herr Hok. specialize (G Hsnd (Herr n) (Hb Hok)). done. }
  destruct (K m k' eq_refl) as (Hout & -> & Hk). change (0 + length batch)%nat with (length batch).
  destruct (length batch <? streamBatchSize)%nat eqn:Hlt; bool_prop.
  - exists out, (Ok tt). split; [done |]. split; [done |]. split; [| done]. intros _. rewrite Hout.
    unfold batch in *. rewrite length_take in *. lia.
  - assert (length batch = streamBatchSize /\ rest = batch ++ drop streamBatchSize rest /\
      length rest = (streamBatchSize + length (drop streamBatchSize rest))%nat) as (Hlb & Hsplit & Hlr).
    { unfold batch in *. rewrite length_take in *. rewrite take_drop, length_drop. split_and!; [lia | done | lia]. }
    set (rest' := drop streamBatchSize rest) in *.
    destruct (IH (S n) (sentn + length out)%nat (sent ++ batch) rest' k') as (out2 & done2 & H3 & F2 & K2 & G2).
    + by rewrite Hr, <- app_assoc, <- Hsplit.
    + unfold cursor_at. rewrite Hk, last_app. destruct (last batch) as [x|] eqn:El; [done |].
      apply last_None in El. by rewrite El in Hlb.
    + rewrite Hlr in Hf. replace (streamBatchSize + length rest')%nat with (length rest' + 1 * streamBatchSize)%nat in Hf by lia.
      rewrite Nat.div_add in Hf by done. lia.
    + rewrite H3. exists (out ++ out2), done2. split; [done |]. split; [| split].
      * rewrite Hsplit at 1. rewrite length_app, Hout. rewrite take_app_add. apply Forall2_app; [| done].
        by rewrite Hout, firstn_all in F.
      * intros Hd. rewrite length_app, Hout, K2, Hlr by done. lia.
      * intros A1 A2 A3 A4 A5. apply G2; try done. rewrite Hsplit in A5. by apply Forall_app in A5 as [_ A5].
Qed.

(** C18: the pagination ends.  Whatever the database and the context do, one
    query more than there are full batches in the window is enough; the trades
    sent are the user's rows of the window in the order of time, each once,
    from the first on; a nil error means that none is missing; and without a
    failure and with readable numbers the error is nil. *)
Theorem copy_stream_complete C : userID <> ""%string ->
  exists out done, StreamTrades C table userID start end_ = Some (out, done) /\
    Forall2 (fun r t => scanTradeRow r = Ok t) (take (length out) rows) out /\
    (done = Ok tt -> length out = length rows) /\
    StronglySorted (fun a b => key_lt (row_key a) (row_key b)) rows /\
    (forall r, r ∈ rows <-> in_bounds userID start end_ r /\ r ∈ table) /\
    ((forall i, ctx_done C i = false) -> (forall i, ctx_done_sending C i = false) ->
     (forall i, query_error C i = None) -> (forall i, rows_error C i = None) ->
     Forall (fun r => is_ok (scanTradeRow r) = true) rows -> done = Ok tt).
Proof.
  intros Hu. unfold StreamTrades. rewrite bool_decide_eq_false_2 by done.
  destruct (cp_loop C (batches table userID start end_) 0 0 [] rows None) as (out & done & H & F & K & G);
    [reflexivity | reflexivity | apply Nat.lt_succ_diag_r |].
  exists out, done. split_and!; try done; [apply cp_window_sorted | apply cp_window_in].
Qed.
End Pages.

(** ** Theory: the book over exact arithmetic *)

Section BookTheory.
#[local] Existing Instance QDec.
#[local] Open Scope Q_scope.
Context (P : Params (D := QDec)).
Implicit Types (ps : list (string * position (D := QDec))) (m : Sim (D := QDec)) (b : Book (D := QDec))
  (p : position (D := QDec)) (ct : ClosedTrade (D := QDec)).

Lemma qsum_permutation (l k : list Q) : l ≡ₚ k -> qsum l == qsum k.
Proof.
  induction 1 as [|x l l' _ IH|x y l|l1 l2 l3 _ IH1 _ IH2]; [reflexivity | | | by rewrite IH1].
  - by rewrite !qsum_cons, IH.
  - rewrite !qsum_cons. ring.
Qed.

(** What a position ties up, and its notional. *)
Definition cost_of p : Q := qty p * avgEntry p.
Definition notional p : Q := Qabs (qty p) * avgEntry p.

Definition total (f : position (D := QDec) -> Q) (ps : gmap string (position (D := QDec))) : Q :=
  qsum ((fun kp => f kp.2) <$> map_to_list ps).

Lemma total_insert f k p (ps : gmap string position) : ps !! k = None -> total f (<[k:=p]> ps) == f p + total f ps.
Proof.
  intros Hk. unfold total. rewrite (qsum_permutation _ ((fun kp => f kp.2) <$> ((k, p) :: map_to_list ps))); [done |].
  apply fmap_Permutation, map_to_list_insert, Hk.
Qed.

Lemma total_delete f k p (ps : gmap string position) : ps !! k = Some p -> total f ps == f p + total f (delete k ps).
Proof. intros Hk. rewrite <- total_insert by apply lookup_delete_eq. by rewrite insert_delete_id. Qed.

Lemma total_update f k p (ps : gmap string position) : 
  total f (<[k:=p]> ps) == f p + total f (delete k ps).
Proof. rewrite <- insert_delete_eq. apply total_insert, lookup_delete_eq. Qed.

Lemma total_absent f k (ps : gmap string position) : ps !! k = None -> total f (delete k ps) == total f ps.
Proof. intros Hk. by rewrite delete_id. Qed.

(** The notional the program adds up, in whatever order. *)
Lemma deployed_total ps (q : gmap string position) : ps ≡ₚ map_to_list q -> deployed_in ps == total notional q.
Proof.
  intros Hp. unfold total. rewrite <- (qsum_permutation _ _ (fmap_Permutation (fun kp => notional kp.2) _ _ Hp)).
  unfold deployed_in. clear Hp. assert (forall a : Q, 
    foldl (fun deployed kp => d_or_zero (dadd deployed (d_or_zero (dmul (dabs (qty kp.2)) (avgEntry kp.2))))) a ps ==
    a + qsum ((fun kp => notional kp.2) <$> ps)) as H.
  { induction ps as [|kp ps IH]; intros a; [simpl; ring |]. cbn [foldl]. rewrite IH, fmap_cons, qsum_cons.
    unfold notional, d_or_zero. cbn [or_zero dadd dmul dabs QDec]. ring. }
  rewrite H. cbn [dzero QDec]. ring.
Qed.

(** What the cash gains from a closed trade beyond its cost. *)
Definition gain ct : Q := match ct_OpenSignal ct with SignalSell => - ct_PnL ct | _ => ct_PnL ct end.

Definition old_total (f : position (D := QDec) -> Q) (pos : option (position (D := QDec))) : Q :=
  match pos with Some p => f p | None => 0 end.

Lemma total_lookup f k (ps : gmap string position) : total f ps == old_total f (ps !! k) + total f (delete k ps).
Proof.
  destruct (ps !! k) as [p|] eqn:E; simpl; [by apply total_delete |]. rewrite total_absent by done. ring.
Qed.

Lemma cq_is_neg (x : Q) : d_is_neg (D := QDec) x = true <-> x < 0.
Proof. unfold d_is_neg. simpl. destruct (Qcompare_spec x 0); split; intros; lra || done. Qed.
Lemma cq_is_pos (x : Q) : d_is_pos (D := QDec) x = true <-> 0 < x.
Proof. unfold d_is_pos. simpl. destruct (Qcompare_spec x 0); split; intros; lra || done. Qed.
Lemma cq_is_zero (x : Q) : d_is_zero (D := QDec) x = true <-> x == 0.
Proof. unfold d_is_zero. simpl. destruct (Qcompare_spec x 0); split; intros; lra || done. Qed.

Lemma cq_pos (x : Q) : d_is_neg (D := QDec) x = false -> d_is_zero (D := QDec) x = false -> 0 < x.
Proof. unfold d_is_neg, d_is_zero. simpl. by destruct (Qcompare_spec x 0). Qed.
Lemma cq_neg (x : Q) : d_is_pos (D := QDec) x = false -> d_is_zero (D := QDec) x = false -> x < 0.
Proof. unfold d_is_pos, d_is_zero. simpl. by destruct (Qcompare_spec x 0). Qed.

(** Closing: the whole position goes, and its cost and gain come back. *)
Lemma cp_apply_close trade id sig q price b p :
  b_positions b !! Asset trade = Some p -> close_qty sig (Some p) = Some q ->
  exists ct r, let b' := applyTrade trade id sig q price b in
    b_closed b' = b_closed b ++ [ct] /\ b_records b' = b_records b ++ [r] /\
    b_positions b' = delete (Asset trade) (b_positions b) /\
    b_cash b' == b_cash b + cost_of p + gain ct /\
    ct_PnL ct == (ct_ExitPrice ct - ct_EntryPrice ct) * ct_Quantity ct /\ ct_OpenSignal ct <> sig /\ ct_ExitPrice ct = price.
Proof.
  intros Hp Hq. unfold applyTrade. rewrite Hp. unfold close_qty in Hq.
  case_bool_decide as Hb; simpl in Hq.
  - subst sig. destruct (d_is_neg (qty p)) eqn:Hn; [| by destruct (d_is_pos (qty p))]. unfold applyBuy. rewrite Hn.
    apply cq_is_neg in Hn. eexists _, _. unfold buyClosesShort. simpl. split_and!; try done; try reflexivity.
    unfold cost_of, gain, closed_trade, close_pnl. simpl. rewrite Qabs_neg by lra. ring.
  - destruct (bool_decide (sig = SignalSell)) eqn:Hs; [| done]. bool_prop. apply bool_decide_eq_true in Hs. subst sig. simpl in Hq.
    destruct (d_is_pos (qty p)) eqn:Hn; [| done]. unfold applySell. rewrite Hn.
    eexists _, _. unfold sellClosesLong. simpl. split_and!; try done; try reflexivity.
    unfold cost_of, gain, closed_trade, close_pnl. simpl. ring.
Qed.

(** Adding [q] at [price] to a position of quantity [x] at [e]. *)
Lemma cp_averaged (x e q price : Q) : 0 < x + q ->
  let '(t, avg) := averaged (D := QDec) x e q price in t == x + q /\ t * avg == x * e + q * price.
Proof.
  intros H. unfold averaged, d_or_zero. cbn [or_zero dmul dadd dquo QDec].
  destruct (Qeq_bool (x + q) 0) eqn:Hz; [apply Qeq_bool_iff in Hz; lra |]. cbn [or_zero]. split; [reflexivity |]. field. lra.
Qed.

(** Opening or adding: the cash pays the cost, the notional grows by it. *)
Lemma cp_apply_open trade id sig q price b :
  sig <> SignalHold -> close_qty sig (b_positions b !! Asset trade) = None -> 0 < q ->
  exists p r, let b' := applyTrade trade id sig q price b in
    b_closed b' = b_closed b /\ b_records b' = b_records b ++ [r] /\
    b_positions b' = <[Asset trade := p]> (b_positions b) /\
    b_cash b' == b_cash b + old_total cost_of (b_positions b !! Asset trade) - cost_of p /\
    notional p == old_total notional (b_positions b !! Asset trade) + q * price.
Proof.
  intros Hs Hc Hq. unfold applyTrade. destruct sig; [done | |]; simpl.
  - unfold applyBuy. destruct (b_positions b !! Asset trade) as [p|] eqn:Hp; simpl in Hc.
    2: { eexists _, _. unfold buyOpensOrAddsLong, cost_of, notional. simpl. split_and!; try done; cbn [qty avgEntry]; [ring |]. rewrite Qabs_pos by lra. ring. }
    destruct (d_is_neg (qty p)) eqn:Hn; [done |]. unfold buyOpensOrAddsLong. destruct (d_is_zero (qty p)) eqn:Hz.
    + apply cq_is_zero in Hz. eexists _, _. unfold cost_of, notional. simpl. split_and!; try done; cbn [qty avgEntry]; rewrite Hz; [ring |].
      rewrite (Qabs_pos q) by lra. change (Qabs 0) with 0. ring.
    + assert (0 < qty p) as Hpos by (by apply cq_pos).
      pose proof (cp_averaged (qty p) (avgEntry p) q price ltac:(lra)) as Ha.
      destruct (averaged _ _ _ _) as [t avg]. destruct Ha as [Ht Ha]. eexists _, _. unfold cost_of, notional. simpl.
      split_and!; try done; cbn [qty avgEntry]; [rewrite Ha; ring |]. rewrite !Qabs_pos by lra. exact Ha.
  - unfold applySell. destruct (b_positions b !! Asset trade) as [p|] eqn:Hp; simpl in Hc.
    2: { eexists _, _. unfold sellOpensOrAddsShort, cost_of, notional. simpl. split_and!; try done; cbn [qty avgEntry]; [ring |]. rewrite Qabs_opp, Qabs_pos by lra. ring. }
    destruct (d_is_pos (qty p)) eqn:Hn; [done |]. unfold sellOpensOrAddsShort. destruct (d_is_zero (qty p)) eqn:Hz.
    + apply cq_is_zero in Hz. eexists _, _. unfold cost_of, notional. simpl. split_and!; try done; cbn [qty avgEntry]; rewrite Hz; [ring |].
      rewrite Qabs_opp, (Qabs_pos q) by lra. change (Qabs 0) with 0. ring.
    + assert (qty p < 0) as Hneg by (by apply cq_neg).
      assert (Qabs (qty p) == - qty p) as Hab by (apply Qabs_neg; lra).
      pose proof (cp_averaged (Qabs (qty p)) (avgEntry p) q price ltac:(lra)) as Ha.
      destruct (averaged _ _ _ _) as [t avg]. destruct Ha as [Ht Ha]. eexists _, _. unfold cost_of, notional. simpl.
      split_and!; try done; cbn [qty avgEntry]; [rewrite Hab in Ha; assert (- t * avg == - (t * avg)) as -> by ring; rewrite Ha; ring |].
      rewrite Qabs_opp, (Qabs_pos t) by lra. exact Ha.
Qed.

(** *** One step of the simulation *)

(** A step leaves everything, closes a position, or opens or adds to one. *)
Inductive book_step (i : nat) (trade : Trade) m m' : Prop :=
  | bs_keep : m' = m -> book_step i trade m m'
  | bs_close ct p : b_positions (m_book m) !! Asset trade = Some p ->
      b_closed (m_book m') = b_closed (m_book m) ++ [set_EntryBalance (m_running m) ct] ->
      b_positions (m_book m') = delete (Asset trade) (b_positions (m_book m)) ->
      b_cash (m_book m') == b_cash (m_book m) + cost_of p + gain ct ->
      m_running m' = m_running m + ct_PnL ct ->
      ct_PnL ct == (ct_ExitPrice ct - ct_EntryPrice ct) * ct_Quantity ct -> book_step i trade m m'
  | bs_open p q : 
      open_qty P (m_running m) (t_Price trade) (bt_range P i (b_positions (m_book m))) = Some q -> 0 < q ->
      b_closed (m_book m') = b_closed (m_book m) ->
      b_positions (m_book m') = <[Asset trade := p]> (b_positions (m_book m)) ->
      b_cash (m_book m') == b_cash (m_book m) + old_total cost_of (b_positions (m_book m) !! Asset trade) - cost_of p ->
      notional p == old_total notional (b_positions (m_book m) !! Asset trade) + q * t_Price trade ->
      m_running m' = m_running m -> ~ t_Price trade == 0 -> book_step i trade m m'.

Lemma cp_settle b b' l m : b_closed b' = b_closed b ++ l ->
  let m' := settle_book b b' m in
  b_closed (m_book m') = b_closed b ++ (entry_balances (m_running m) l).1 /\
  b_positions (m_book m') = b_positions b' /\ b_cash (m_book m') = b_cash b' /\
  b_records (m_book m') = b_records b' /\ m_running m' = (entry_balances (m_running m) l).2.
Proof.
  intros H. unfold settle_book. rewrite H, drop_app_length, take_app_length.
  by destruct (entry_balances (m_running m) l).
Qed.

Lemma cp_step_change i trade m m' : sim_step P i trade m = (Ok tt, m') -> book_step i trade m m'.
Proof.
  unfold sim_step. destruct (bt_cancelled P i); [done |]. destruct (d_is_zero (t_Price trade)) eqn:Hz.
  { intros [= <-]. by apply bs_keep. }
  assert (~ t_Price trade == 0) as Hp0 by (intros E; apply cq_is_zero in E; congruence).
  destruct (our_qty P i trade m) as [q|] eqn:Hq; [| intros [= <-]; by apply bs_keep].
  destruct (d_is_zero q || d_is_neg q) eqn:Hs; [intros [= <-]; by apply bs_keep |]. bool_prop.
  assert (0 < q) as Hpos by (by apply cq_pos). set (id := or_zero uuid_nil _).
  intros [= <-]. unfold our_qty in Hq.
  destruct (close_qty (our_signal trade) (b_positions (m_book m) !! Asset trade)) as [q'|] eqn:Hc.
  - injection Hq as ->. destruct (b_positions (m_book m) !! Asset trade) as [p|] eqn:Hp; [| done].
    destruct (cp_apply_close trade id _ q (t_Price trade) (m_book m) p Hp Hc) as (ct & r & C1 & _ & C3 & C4 & C5 & _).
    destruct (cp_settle _ _ _ m C1) as (S1 & S2 & S3 & _ & S5). simpl in S1, S5.
    eapply (bs_close _ _ _ _ ct p); try done; [by rewrite S2 | by rewrite S3].
  - assert (our_signal trade <> SignalHold) as Hsig by (unfold our_signal; by case_bool_decide).
    destruct (cp_apply_open trade id _ q (t_Price trade) (m_book m) Hsig Hc Hpos) as (p & r & C1 & _ & C3 & C4 & C5).
    destruct (cp_settle (m_book m) (applyTrade trade id (our_signal trade) q (t_Price trade) (m_book m)) [] m)
      as (S1 & S2 & S3 & _ & S5); [by rewrite C1, app_nil_r |]. simpl in S1, S5. rewrite app_nil_r in S1.
    eapply (bs_open _ _ _ _ p q); try done; [by rewrite S2 | by rewrite S3].
Qed.

Lemma cp_trades_invariant (I : Sim -> Prop) i trades m m' :
  (forall i trade m1 m2, book_step i trade m1 m2 -> I m1 -> I m2) ->
  sim_trades P i trades m = (Ok tt, m') -> I m -> I m'.
Proof.
  intros HI. revert i m. induction trades as [|trade trades IH]; intros i m H Hm; [by injection H as <- |].
  cbn [sim_trades] in H. apply SE_bind_Ok in H as ([] & m1 & H1 & H2). eapply IH; [exact H2 |].
  eapply HI; [by apply cp_step_change | done].
Qed.

(** *** Cash *)

Definition pnl_of (sig : Signal) (cts : list (ClosedTrade (D := QDec))) : Q :=
  qsum (ct_PnL <$> filter (fun ct => ct_OpenSignal ct = sig) cts).

Record accounted (start : Q) m : Prop := {
  ac_cash : b_cash (m_book m) == start + qsum (gain <$> b_closed (m_book m)) - total cost_of (b_positions (m_book m));
  ac_running : m_running m == start + qsum (ct_PnL <$> b_closed (m_book m));
  ac_pnl : Forall (fun ct => ct_PnL ct == (ct_ExitPrice ct - ct_EntryPrice ct) * ct_Quantity ct) (b_closed (m_book m));
}.

Lemma cp_accounted_step start i trade m m' : book_step i trade m m' -> accounted start m -> accounted start m'.
Proof.
  intros [->|ct p Hp Hc Hps Hcash Hrun Hpnl|p q _ _ Hc Hps Hcash _ Hrun _] [A1 A2 A3]; [done | |]; split.
  - rewrite Hcash, A1, Hc, Hps, (total_delete cost_of _ _ _ Hp), fmap_app, qsum_app. simpl. unfold gain. simpl. ring.
  - rewrite Hrun, A2, Hc, fmap_app, qsum_app. simpl. ring.
  - rewrite Hc. apply Forall_app. split; [done |]. by constructor.
  - rewrite Hcash, A1, Hc, Hps, total_update, (total_lookup cost_of (Asset trade) (b_positions (m_book m))). ring.
  - by rewrite Hrun, A2, Hc.
  - by rewrite Hc.
Qed.

Lemma cp_accounted_init (start : Q) : accounted start (MkSim (MkBook start ∅ [] []) start []).
Proof. split; simpl; [unfold total; rewrite map_to_list_empty; simpl; ring | ring | constructor]. Qed.

Lemma cp_gain_split (cts : list (ClosedTrade (D := QDec))) :
  qsum (gain <$> cts) == qsum (ct_PnL <$> cts) - 2 * pnl_of SignalSell cts.
Proof.
  unfold pnl_of. induction cts as [|ct cts IH]; [reflexivity |].
  rewrite filter_cons, !fmap_cons, !qsum_cons, IH. unfold gain at 1.
  destruct (decide (ct_OpenSignal ct = SignalSell)) as [->|Hn]; [rewrite fmap_cons, qsum_cons; ring |].
  destruct (ct_OpenSignal ct); [ring | ring | done].
Qed.

(** Shorts are reported with the sign of their profit reversed.  The
    simulation's own cash shows it: over exact arithmetic, once every position
    is closed, the cash earned since the start is the reported profit of all
    closed trades minus twice that of the shorts, and the reported profit of
    a short is positive exactly when its buyback cost more than its sale
    brought in.  The compounding equity that sizes later trades adds the
    reported profits. *)
Theorem copy_short_profit_inverted trades m :
  sim_trades P 0 trades (init_Sim P) = (Ok tt, m) -> b_positions (m_book m) = ∅ ->
  let closed := b_closed (m_book m) in
  b_cash (m_book m) - startingBalance P == qsum (ct_PnL <$> closed) - 2 * pnl_of SignalSell closed /\
  m_running m - startingBalance P == qsum (ct_PnL <$> closed) /\
  Forall (fun ct => ct_PnL ct == (ct_ExitPrice ct - ct_EntryPrice ct) * ct_Quantity ct) closed.
Proof.
  intros H He. cbv zeta. 
  assert (accounted (startingBalance P : Q) m) as [A1 A2 A3].
  { eapply (cp_trades_invariant (accounted (startingBalance P))); [| exact H |].
    - intros i trade m1 m2. apply cp_accounted_step.
    - apply cp_accounted_init. }
  rewrite He in A1. unfold total in A1. rewrite map_to_list_empty in A1. simpl in A1.
  clear H. revert A1 A2 A3. generalize (startingBalance P : Q). intros start A1 A2 A3.
  split_and!; [rewrite A1, cp_gain_split; ring | rewrite A2; ring | exact A3].
Qed.

(** *** The notional cap *)

Context (Hrange : forall i q, bt_range P i q ≡ₚ map_to_list q).

Lemma cp_headroom running ps (q : gmap string position) lev : ps ≡ₚ map_to_list q ->
  availableForNewPos (D := QDec) running ps lev == Qmax 0 (running * lev - total notional q).
Proof.
  intros Hp. unfold availableForNewPos. cbn [d_or_zero or_zero dmul dsub QDec].
  pose proof (deployed_total ps q Hp) as Hd. set (x := running * lev - deployed_in ps).
  assert (x == running * lev - total notional q) as Hx by (unfold x; by rewrite Hd). rewrite <- Hx.
  destruct (d_is_neg (D := QDec) x) eqn:Hn.
  - apply cq_is_neg in Hn. rewrite Q.max_l by lra. reflexivity.
  - assert (~ x < 0) as Hn' by (intros E; apply cq_is_neg in E; congruence). rewrite Q.max_r by lra. reflexivity.
Qed.

Lemma cp_open_qty running price ps q : open_qty P running price ps = Some q ->
  ~ availableForNewPos (D := QDec) running ps (Leverage (bt_cfg P)) == 0 /\
  q * price <= availableForNewPos (D := QDec) running ps (Leverage (bt_cfg P)).
Proof.
  unfold open_qty. set (h := availableForNewPos _ _ _). destruct (d_is_zero h) eqn:Hz; [done |].
  set (q0 := if negb _ then _ else _). destruct (d_gt _ h) eqn:Hg; [done |]. intros [= <-]. split.
  - intros E. apply cq_is_zero in E. congruence.
  - unfold d_gt in Hg. cbn [d_or_zero or_zero dmul dcmp QDec] in Hg. destruct (Qcompare_spec (q0 * price) h); lra || done.
Qed.

(** No trade is opened on more notional than the realised equity times
    the leverage: over exact arithmetic, right after any trade that opens or
    extends a position, the notional of all open positions at their average
    entries is at most that product. *)
Theorem copy_exposure_capped i trade m m' :
  sim_step P i trade m = (Ok tt, m') ->
  (length (b_records (m_book m)) < length (b_records (m_book m')))%nat ->
  b_closed (m_book m') = b_closed (m_book m) ->
  total notional (b_positions (m_book m')) <= m_running m' * Leverage (bt_cfg P).
Proof.
  intros H Hr Hc. apply cp_step_change in H as [->|ct p _ Hc' _ _ _ _|p q Hq Hpos _ Hps _ Hn Hrun _]; [lia | |].
  - rewrite Hc' in Hc. apply (f_equal length) in Hc. rewrite length_app in Hc. simpl in Hc. lia.
  - apply cp_open_qty in Hq as [Hnz Hle]. rewrite cp_headroom in Hnz, Hle by apply Hrange.
    rewrite Hrun, Hps, total_update, Hn. rewrite (total_lookup notional (Asset trade) (b_positions (m_book m))) in Hle, Hnz.
    set (h := m_running m * Leverage (bt_cfg P) - _) in *.
    destruct (Q.max_spec 0 h) as [[H1 H2]|[H1 H2]]; rewrite H2 in Hle, Hnz; [unfold h in *; lra | by destruct Hnz].
Qed.

(** A fraction times leverage above one and no maximum order size make a
    backtest that never trades: the leverage enters the size twice, once in
    the headroom and once on top of it, so every order exceeds the headroom
    and is skipped, without an error. *)
Theorem copy_overlevered_never_trades trades m :
  1 < PercentageOfAvailable (bt_cfg P) * Leverage (bt_cfg P) -> (MaxOrderSize (bt_cfg P) <= 0)%Z ->
  sim_trades P 0 trades (init_Sim P) = (Ok tt, m) -> m = init_Sim P.
Proof.
  intros Hl Hmx H. eapply (cp_trades_invariant (fun m => m = init_Sim P)); [| exact H | done].
  intros i trade m1 m2 [->|ct p Hp _ _ _ _ _|p q Hq Hpos _ _ _ _ _ Hp0] ->; [done | cbn [init_Sim m_book b_positions] in Hp; by rewrite lookup_empty in Hp |].
  exfalso. pose proof (cp_open_qty _ _ _ _ Hq) as [Hnz Hle]. unfold open_qty in Hq.
  set (h := availableForNewPos _ _ _) in *.
  assert (0 <= h) as Hh by (unfold h; rewrite cp_headroom by apply Hrange; apply Q.le_max_l).
  assert (0 < h) as Hh' by (apply Qle_lteq in Hh as [|E]; [done | by destruct Hnz]).
  destruct (d_is_zero h); [done |]. destruct (d_is_zero (t_Price trade)) eqn:Hz; [by apply cq_is_zero in Hz |].
  cbn [negb] in Hq. destruct (d_gt _ h); [done |]. injection Hq as Hq. unfold calculateOrderSize in Hq.
  assert ((0 <? MaxOrderSize (bt_cfg P))%Z = false) as Hm by (by apply Z.ltb_ge). rewrite Hm in Hq.
  cbn [d_or_zero or_zero dmul dquo QDec andb] in Hq.
  destruct (Qeq_bool (t_Price trade) 0) eqn:Hz2; [by apply Qeq_bool_iff in Hz2 |]. unfold d_or_zero, or_zero in Hq.
  match type of Hq with ?x / _ = q => assert (q * t_Price trade == x) as Hs by (rewrite <- Hq; field; done) end.
  destruct ((0 <? MinOrderSize (bt_cfg P))%Z && _).
  - assert (q == 0) as E by (rewrite <- Hq; cbn [dzero QDec]; field; done). lra.
  - rewrite Hs in Hle. assert (h * 1 < h * (PercentageOfAvailable (bt_cfg P) * Leverage (bt_cfg P))) by (by apply Qmult_lt_l). lra.
Qed.
End BookTheory.

(** ** Witnesses *)

Section Demo.
#[local] Existing Instance RefDec.

Definition demo_row (id : string) (sec : Z) : Row := {|
  r_transaction_id := id; r_user_id := "trader"; r_asset := "bond"; r_quantity := "1"; r_price := "100";
  r_side := "BUY"; r_created_at := MkTime (sec * Second) 0 |}.

(** Two trades of the same second, and an earlier one stored after them. *)
Definition demo_table : list Row := [demo_row "b" 20; demo_row "a" 20; demo_row "c" 10].

Definition no_failures : Conditions := {|
  ctx_done := fun _ => false; ctx_done_sending := fun _ => false; query_error := fun _ => None;
  rows_error := fun _ => None |}.

Lemma copy_demo_key : NoDup (r_transaction_id <$> demo_table).
Proof. apply (bool_decide_eq_true (NoDup (r_transaction_id <$> demo_table))). vm_compute. reflexivity. Qed.

Lemma copy_demo_rows :
  r_transaction_id <$> window_rows demo_table "trader" (MkTime 0 0) (MkTime (60 * Second) 0) = ["c"; "a"; "b"]%string /\
  forallb (fun r => is_ok (scanTradeRow r)) (window_rows demo_table "trader" (MkTime 0 0) (MkTime (60 * Second) 0)) = true.
Proof. split; vm_compute; reflexivity. Qed.

Lemma copy_stream_complete_witness : exists out,
  StreamTrades no_failures demo_table "trader" (MkTime 0 0) (MkTime (60 * Second) 0) = Some (out, Ok tt) /\
  length out = 3%nat.
Proof.
  destruct copy_demo_rows as [Hr Hok].
  destruct (copy_stream_complete demo_table "trader" (MkTime 0 0) (MkTime (60 * Second) 0) copy_demo_key no_failures)
    as (out & done & H & _ & Hl & _ & _ & Hd); [discriminate |].
  assert (done = Ok tt) as E.
  { apply Hd; try reflexivity. apply Forall_forall. intros r Hin.
    exact (proj1 (forallb_forall _ _) Hok r (proj1 (list_elem_of_In _ _) Hin)). }
  exists out. subst done. split; [exact H |]. rewrite (Hl eq_refl). rewrite <- (length_fmap r_transaction_id), Hr. reflexivity.
Defined.
End Demo.

Section ExactDemo.
#[local] Existing Instance QDec.

Definition exact_config (leverage : Q) : Config := {|
  FollowedTrader := "trader"; PercentageOfAvailable := 1%Q; Leverage := leverage; MinOrderSize := 0; MaxOrderSize := 0;
  DisallowedBonds := []; InitialBalance := 0%Q |}.

Definition exact_params (leverage : Q) : Params := {|
  bt_cfg := exact_config leverage; bt_parse := fun s => Ok s; bt_range := fun _ q => map_to_list q;
  bt_cancelled := fun _ => false |}.

Definition exact_trade (side : string) (price : Q) : Trade := {|
  TransactionID := "id"; Asset := "bond"; t_Quantity := 1%Q; t_Price := price; t_Side := side;
  CreatedAt := zero_time |}.

(** A short of a hundred bonds at 100, bought back at 80. *)
Definition good_short : list Trade := [exact_trade "SELL" 100%Q; exact_trade "BUY" 80%Q].
#[local] Abbreviation outcome := (sim_trades (exact_params 1) 0 good_short (init_Sim (exact_params 1))).

Lemma copy_demo_short : is_ok outcome.1 = true /\ size (b_positions (m_book outcome.2)) = 0%nat /\
  Qeq_bool (b_cash (m_book outcome.2)) 12000 = true /\
  (match b_closed (m_book outcome.2) with [ct] => Qeq_bool (ct_PnL ct) (-2000) | _ => false end) = true.
Proof. split_and!; vm_compute; reflexivity. Qed.

(** It earns 2000 and is reported as a loss of 2000. *)
Lemma copy_short_profit_inverted_witness :
  (b_cash (m_book outcome.2) == 12000)%Q /\
  (b_cash (m_book outcome.2) - startingBalance (exact_params 1) ==
   qsum (ct_PnL <$> b_closed (m_book outcome.2)) - 2 * pnl_of SignalSell (b_closed (m_book outcome.2)))%Q.
Proof.
  destruct copy_demo_short as (Hok & Hs & Hc & _). split; [by apply Qeq_bool_iff |].
  apply (copy_short_profit_inverted (exact_params 1) good_short outcome.2);
    [exact (SE_ok_run _ _ Hok) | exact (map_size_empty_inv _ Hs)].
Defined.

#[local] Abbreviation first_step := (sim_step (exact_params 1) 0 (exact_trade "SELL" 100%Q) (init_Sim (exact_params 1))).

Lemma copy_demo_open : is_ok first_step.1 = true /\ length (b_records (m_book first_step.2)) = 1%nat /\
  length (b_closed (m_book first_step.2)) = 0%nat.
Proof. split_and!; vm_compute; reflexivity. Qed.

Lemma copy_exposure_capped_witness :
  (total notional (b_positions (m_book first_step.2)) <= m_running first_step.2 * Leverage (exact_config 1))%Q.
Proof.
  destruct copy_demo_open as (Hok & Hl & Hc).
  apply (copy_exposure_capped (exact_params 1) (fun _ q => reflexivity _) 0 (exact_trade "SELL" 100%Q)
    (init_Sim (exact_params 1)) first_step.2); [exact (SE_ok_run _ _ Hok) | rewrite Hl; constructor |].
  exact (nil_length_inv _ Hc).
Defined.

Lemma copy_overlevered_never_trades_witness :
  let m := (sim_trades (exact_params 2) 0 good_short (init_Sim (exact_params 2))).2 in m = init_Sim (exact_params 2).
Proof.
  apply (copy_overlevered_never_trades (exact_params 2) (fun _ q => reflexivity _) good_short);
    [reflexivity | simpl; lia | apply SE_ok_run; vm_compute; reflexivity].
Defined.
End ExactDemo.
