(* ===== verification/Service.v ===== *)
(** * strategy: the service that runs strategies and backtests

    [service.go] as a transition system.  A run's goroutine and its caller
    meet on an unbuffered channel; [StopStrategy], [PauseStrategy] and
    [ResumeStrategy] look the run up under the lock and then wait in a select,
    so a call is a step of its own ([ACall]) that leaves a waiting caller.
    Pointers ([runState]) are indices into the list of all runs ever started.
    Strategies are outside: a run may take a message or return at any time.

    Theory: the registry holds exactly the runs whose goroutine is alive, one
    per id; a message is delivered once to the run it was meant for, and a
    successful stop has cancelled it; a caller whose context never ends waits
    for ever once the run has left. *)

From S2P Require Import Prelude Market.

Definition ErrBacktestNotFound : error := ErrMsg "backtest not found".
Definition ErrRunIDNotFound : error := ErrMsg "run ID not found".

(** A run's goroutine: inside [strategy.Run]; back from it, waiting for the
    lock; finished. *)
Inductive RunPc := RunAlive | RunReturned | RunDone.

#[export] Instance RunPc_eq_dec : EqDecision RunPc.
Proof. solve_decision. Defined.

(** [runState], with the goroutine and what it has received. *)
Record runState := MkRun { r_id : string; r_cancelled : bool; r_pc : RunPc; r_received : list Message }.

(** A backtest's goroutine: computing, sending its result, back from the send. *)
Inductive BacktestPc := BtWorking | BtSending | BtSent | BtDone.
Record Bt := MkBt { bt_id : string; bt_cancelled : bool; bt_pc : BacktestPc }.

(** A call of Stop, Pause or Resume: in its select; past the send, with the
    cancel of a stop still to do; returned. *)
Inductive CallerPc := CallWaiting | CallSent | CallReturned (r : result unit).
Record Caller := MkCaller { c_run : nat; c_msg : Message; c_pc : CallerPc }.

Record service := MkService {
  backtests : gmap string nat;
  strategies : gmap string nat;
  runs : list runState;
  bts : list Bt;
  callers : list Caller;
}.

Definition NewService : service := MkService ∅ ∅ [] [] [].

(** [IsRunActive] *)
Definition IsRunActive (id : string) (s : service) : bool := bool_decide (is_Some (strategies s !! id)).

Definition with_runs (strategies : gmap string nat) (runs : list runState) (s : service) : service :=
  MkService (backtests s) strategies runs (bts s) (callers s).
Definition with_bts (backtests : gmap string nat) (bts : list Bt) (s : service) : service :=
  MkService backtests (strategies s) (runs s) bts (callers s).
Definition with_callers (callers : list Caller) (s : service) : service :=
  MkService (backtests s) (strategies s) (runs s) (bts s) callers.

(** [RunStrategyWithID]; [ctx_done]: the caller's context has ended. *)
Definition RunStrategyWithID (ctx_done : bool) (id : string) (s : service) : result unit * service :=
  if ctx_done then (Err (ErrMsg "context done"), s)
  else match strategies s !! id with
       | Some _ => (Err (ErrMsg "run ID already exists"), s)
       | None => (Ok tt, with_runs (<[id := length (runs s)]> (strategies s)) (runs s ++ [MkRun id false RunAlive []]) s)
       end.

(** [StopStrategy], [PauseStrategy], [ResumeStrategy] up to their select. *)
Definition SendMessage (m : Message) (id : string) (s : service) : result unit * service :=
  match strategies s !! id with
  | None => (Err ErrRunIDNotFound, s)
  | Some r => (Ok tt, with_callers (callers s ++ [MkCaller r m CallWaiting]) s)
  end.

Definition receive (m : Message) (r : runState) : runState :=
  MkRun (r_id r) (r_cancelled r) (r_pc r) (r_received r ++ [m]).

Definition after_send (m : Message) : CallerPc :=
  match m with Stop => CallSent | _ => CallReturned (Ok tt) end.

(** Caller [k] and the strategy of its run meet on the channel. *)
Definition deliver (k : nat) (s : service) : option service :=
  match callers s !! k with
  | Some c =>
      match c_pc c, runs s !! c_run c with
      | CallWaiting, Some r =>
          if bool_decide (r_pc r = RunAlive) then
            Some (MkService (backtests s) (strategies s) (<[c_run c := receive (c_msg c) r]> (runs s)) (bts s)
                    (<[k := MkCaller (c_run c) (c_msg c) (after_send (c_msg c))]> (callers s)))
          else None
      | _, _ => None
      end
  | None => None
  end.

(** [strategy.cancel()] of a stop that has been received, and its return. *)
Definition cancel_run (k : nat) (s : service) : option service :=
  match callers s !! k with
  | Some c =>
      match c_pc c, runs s !! c_run c with
      | CallSent, Some r =>
          Some (MkService (backtests s) (strategies s) (<[c_run c := MkRun (r_id r) true (r_pc r) (r_received r)]> (runs s)) (bts s)
                  (<[k := MkCaller (c_run c) (c_msg c) (CallReturned (Ok tt))]> (callers s)))
      | _, _ => None
      end
  | None => None
  end.

(** The context of caller [k] ends. *)
Definition abandon (k : nat) (s : service) : option service :=
  match callers s !! k with
  | Some c =>
      match c_pc c with
      | CallWaiting =>
          Some (with_callers (<[k := MkCaller (c_run c) (c_msg c) (CallReturned (Err (ErrMsg "context done")))]> (callers s)) s)
      | _ => None
      end
  | None => None
  end.

(** [strategy.Run] of run [n] returns. *)
Definition strategy_returns (n : nat) (s : service) : option service :=
  match runs s !! n with
  | Some r => if bool_decide (r_pc r = RunAlive) then
      Some (with_runs (strategies s) (<[n := MkRun (r_id r) (r_cancelled r) RunReturned (r_received r)]> (runs s)) s)
    else None
  | None => None
  end.

(** The end of the goroutine: the entry goes if it is still this run's, and
    the deferred cancel runs. *)
Definition unregister (n : nat) (s : service) : option service :=
  match runs s !! n with
  | Some r => if bool_decide (r_pc r = RunReturned) then
      Some (with_runs (if bool_decide (strategies s !! r_id r = Some n) then delete (r_id r) (strategies s) else strategies s)
              (<[n := MkRun (r_id r) true RunDone (r_received r)]> (runs s)) s)
    else None
  | None => None
  end.

(** *** Backtests *)

Definition RunBacktest (id : string) (s : service) : service :=
  with_bts (<[id := length (bts s)]> (backtests s)) (bts s ++ [MkBt id false BtWorking]) s.

Definition StopBacktest (id : string) (s : service) : result unit * service :=
  match backtests s !! id with
  | None => (Err ErrBacktestNotFound, s)
  | Some n => (Ok tt, with_bts (backtests s) (alter (fun b => MkBt (bt_id b) true (bt_pc b)) n (bts s)) s)
  end.

Definition move_bt (from to : BacktestPc) (n : nat) (s : service) : option service :=
  match bts s !! n with
  | Some b => match bt_pc b, from with
              | BtWorking, BtWorking | BtSending, BtSending =>
                  Some (with_bts (backtests s) (<[n := MkBt (bt_id b) (bt_cancelled b) to]> (bts s)) s)
              | _, _ => None
              end
  | None => None
  end.

(** The goroutine deletes the entry of its id, whosever it is. *)
Definition finish_bt (n : nat) (s : service) : option service :=
  match bts s !! n with
  | Some b => match bt_pc b with
              | BtSent => Some (with_bts (delete (bt_id b) (backtests s)) (<[n := MkBt (bt_id b) true BtDone]> (bts s)) s)
              | _ => None
              end
  | None => None
  end.

Inductive Action :=
  | ARun (ctx_done : bool) (id : string)
  | ACall (m : Message) (id : string)
  | ADeliver (k : nat)
  | ACancel (k : nat)
  | AGiveUp (k : nat)
  | AReturn (n : nat)
  | AUnregister (n : nat)
  | ARunBacktest (id : string)
  | AStopBacktest (id : string)
  | ABacktestReturns (n : nat)    (* strategy.Backtest returns *)
  | AReceiveResult (n : nat)      (* the reader of the result channel *)
  | AFinishBacktest (n : nat).

Definition service_step (a : Action) (s : service) : option service :=
  match a with
  | ARun d id => Some (RunStrategyWithID d id s).2
  | ACall m id => Some (SendMessage m id s).2
  | ADeliver k => deliver k s
  | ACancel k => cancel_run k s
  | AGiveUp k => abandon k s
  | AReturn n => strategy_returns n s
  | AUnregister n => unregister n s
  | ARunBacktest id => Some (RunBacktest id s)
  | AStopBacktest id => Some (StopBacktest id s).2
  | ABacktestReturns n => move_bt BtWorking BtSending n s
  | AReceiveResult n => move_bt BtSending BtSent n s
  | AFinishBacktest n => finish_bt n s
  end.

Fixpoint service_run (acts : list Action) (s : service) : option service :=
  match acts with
  | [] => Some s
  | a :: rest => match service_step a s with Some s' => service_run rest s' | None => None end
  end.

(** The cases of a step that was taken. *)
Ltac sv_inv H :=
  cbn [service_step] in H;
  unfold RunStrategyWithID, SendMessage, deliver, cancel_run, abandon, strategy_returns, unregister,
    RunBacktest, StopBacktest, move_bt, finish_bt in H;
  repeat (case_match; try discriminate); simplify_eq/=; repeat case_bool_decide; simplify_eq/=.

(** ** Theory: the registry *)

Definition reachable (s : service) : Prop := exists acts, service_run acts NewService = Some s.

Definition alive (r : runState) : Prop := r_pc r <> RunDone.

(** The registry is the set of live runs, by their ids. *)
Definition registry_ok (s : service) : Prop :=
  forall id n, strategies s !! id = Some n <-> exists r, runs s !! n = Some r /\ r_id r = id /\ alive r.

Lemma sv_register id (s : service) : registry_ok s -> strategies s !! id = None ->
  registry_ok (with_runs (<[id := length (runs s)]> (strategies s)) (runs s ++ [MkRun id false RunAlive []]) s).
Proof.
  intros H Hid id' n. simpl. destruct (decide (n = length (runs s))) as [->|Hn].
  - rewrite list_lookup_middle by done. destruct (decide (id' = id)) as [->|Hne].
    + rewrite lookup_insert_eq. split; [intros _; by eexists | done].
    + rewrite lookup_insert_ne by done. split; [| intros (r & [= <-] & <- & _); done].
      intros (r & Hr & _)%H. apply lookup_lt_Some in Hr. lia.
  - assert ((runs s ++ [MkRun id false RunAlive []]) !! n = runs s !! n) as ->.
    { destruct (decide (n < length (runs s))%nat); [by apply lookup_app_l |].
      rewrite !lookup_ge_None_2; [done | lia | rewrite length_app; simpl; lia]. }
    destruct (decide (id' = id)) as [->|Hne]; [| by rewrite lookup_insert_ne].
    rewrite lookup_insert_eq. split; [by intros [= <-] |]. intros Hr. apply H in Hr. congruence.
Qed.

(** Replacing a run by one with the same id and liveness. *)
Lemma sv_update_run n r r' (s : service) (bk : gmap string nat) bs cs : registry_ok s -> runs s !! n = Some r ->
  r_id r' = r_id r -> (alive r' <-> alive r) -> registry_ok (MkService bk (strategies s) (<[n := r']> (runs s)) bs cs).
Proof.
  intros H Hr Hi Ha id k. simpl. destruct (decide (k = n)) as [->|Hk].
  - rewrite list_lookup_insert_eq by (by eapply lookup_lt_Some). etransitivity; [apply H |]. split.
    + intros (x & Hx & E & Al). rewrite Hr in Hx. injection Hx as <-. exists r'. split; [done |]. split; [congruence | by apply Ha].
    + intros (x & [= <-] & E & Al). exists r. split; [done |]. split; [congruence | by apply Ha].
  - rewrite list_lookup_insert_ne by done. apply H.
Qed.

Lemma sv_unregister n r (s : service) : registry_ok s -> runs s !! n = Some r -> alive r ->
  registry_ok (with_runs (if bool_decide (strategies s !! r_id r = Some n) then delete (r_id r) (strategies s) else strategies s)
              (<[n := MkRun (r_id r) true RunDone (r_received r)]> (runs s)) s).
Proof.
  intros H Hr Ha. assert (strategies s !! r_id r = Some n) as Hs by (apply H; by exists r).
  rewrite bool_decide_eq_true_2 by done. intros id k. simpl. destruct (decide (k = n)) as [->|Hk].
  - rewrite list_lookup_insert_eq by (by eapply lookup_lt_Some). split; [| by intros (x & [= <-] & _ & [])].
    destruct (decide (id = r_id r)) as [->|Hne]; [by rewrite lookup_delete_eq |].
    rewrite lookup_delete_ne by done. intros (x & Hx & E & _)%H. rewrite Hr in Hx. injection Hx as <-. done.
  - rewrite list_lookup_insert_ne by done. destruct (decide (id = r_id r)) as [->|Hne].
    + rewrite lookup_delete_eq. split; [done |]. intros Hx. apply H in Hx. rewrite Hs in Hx. by injection Hx.
    + rewrite lookup_delete_ne by done. apply H.
Qed.

Lemma sv_step_registry a (s s' : service) : service_step a s = Some s' -> registry_ok s -> registry_ok s'.
Proof.
  intros H R. destruct a; sv_inv H; try exact R; try (by apply sv_register); try (by eapply sv_update_run).
  - eapply sv_update_run; [done.. |]. unfold alive. simpl. by split; [congruence |].
  - eapply sv_unregister in R; [| done | unfold alive; congruence]. by rewrite bool_decide_eq_true_2 in R.
  - eapply sv_unregister in R; [| done | unfold alive; congruence]. by rewrite bool_decide_eq_false_2 in R.
Qed.

(** An invariant of the steps holds in every reachable state. *)
Lemma sv_invariant (I : service -> Prop) : I NewService ->
  (forall a s s', service_step a s = Some s' -> I s -> I s') -> forall s, reachable s -> I s.
Proof.
  intros H0 HI s (acts & H). revert H H0. generalize NewService. induction acts as [|a acts IH]; intros s0 H H0;
    simpl in H; [by injection H as <- |].
  destruct (service_step a s0) as [s1|] eqn:E; [| done]. eapply IH; [exact H |]. by eapply HI.
Qed.

Lemma sv_registry (s : service) : reachable s -> registry_ok s.
Proof.
  apply sv_invariant; [| intros a s1 s2; apply sv_step_registry].
  intros id n. simpl. split; [done |]. by intros (r & ? & _).
Qed.

(** In every reachable state the service knows exactly the runs whose
    goroutine has not finished: [IsRunActive] answers for them and for no
    other id, no id has two live runs, and an id can be used again exactly
    when its run has gone. *)
Theorem service_registry_exact (s : service) : reachable s ->
  (forall id, IsRunActive id s = true <-> exists n r, runs s !! n = Some r /\ r_id r = id /\ alive r) /\
  (forall n n' r r', runs s !! n = Some r -> runs s !! n' = Some r' -> alive r -> alive r' -> r_id r = r_id r' -> n = n') /\
  (forall id, is_ok (RunStrategyWithID false id s).1 = negb (IsRunActive id s)).
Proof.
  intros R%sv_registry. split_and!.
  - intros id. unfold IsRunActive. rewrite bool_decide_eq_true. split.
    + intros (n & (r & Hr & Hi & Ha)%R). by exists n, r.
    + intros (n & r & Hr & Hi & Ha). exists n. apply R. by exists r.
  - intros n n' r r' Hr Hr' Ha Ha' E.
    assert (strategies s !! r_id r = Some n) as H1 by (apply R; by exists r).
    assert (strategies s !! r_id r = Some n') as H2 by (apply R; by exists r').
    rewrite H1 in H2. by injection H2.
  - intros id. unfold RunStrategyWithID, IsRunActive. by destruct (strategies s !! id).
Qed.

(** ** Theory: messages *)

Definition was_sent (p : CallerPc) : bool :=
  match p with CallSent | CallReturned (Ok _) => true | _ => false end.

(** The messages for run [n] whose senders got past their select by sending. *)
Definition to_run (n : nat) (c : Caller) : bool := bool_decide (c_run c = n) && was_sent (c_pc c).
Definition delivered (n : nat) (cs : list Caller) : list Message := c_msg <$> List.filter (to_run n) cs.

Lemma sv_delivered_app n cs cs' : delivered n (cs ++ cs') = delivered n cs ++ delivered n cs'.
Proof. unfold delivered. by rewrite List.filter_app, fmap_app. Qed.

(** One caller moves on. *)
Lemma sv_delivered_insert n k c c' cs : cs !! k = Some c -> delivered n [c] = [] ->
  delivered n (<[k := c']> cs) ≡ₚ delivered n cs ++ delivered n [c'].
Proof.
  intros Hk Hn. rewrite insert_take_drop by (by eapply lookup_lt_Some).
  rewrite <- (take_drop_middle cs k c) at 3 by done.
  rewrite !(sv_delivered_app n (take k cs)), (sv_delivered_app n [c'] _ : delivered n (c' :: _) = _),
    (sv_delivered_app n [c] _ : delivered n (c :: _) = _), Hn. simpl.
  rewrite <- app_assoc. apply Permutation_app_head, Permutation_app_comm.
Qed.

(** ... to the same side of its send. *)
Lemma sv_delivered_same n k c c' cs : cs !! k = Some c -> delivered n [c'] = delivered n [c] ->
  delivered n (<[k := c']> cs) = delivered n cs.
Proof.
  intros Hk Hn. rewrite insert_take_drop by (by eapply lookup_lt_Some).
  rewrite <- (take_drop_middle cs k c) at 3 by done.
  by rewrite !(sv_delivered_app n (take k cs)), (sv_delivered_app n [c'] _ : delivered n (c' :: _) = _),
    (sv_delivered_app n [c] _ : delivered n (c :: _) = _), Hn.
Qed.

(** What a call knows of its run: a finished stop has cancelled it. *)
Definition stop_done (c : Caller) : Prop := c_msg c = Stop /\ c_pc c = CallReturned (Ok tt).
Definition caller_ok (rs : list runState) (c : Caller) : Prop :=
  exists r, rs !! c_run c = Some r /\ (stop_done c -> r_cancelled r = true).

Record messages_ok (s : service) : Prop := {
  mo_received : forall n r, runs s !! n = Some r -> r_received r ≡ₚ delivered n (callers s);
  mo_callers : Forall (caller_ok (runs s)) (callers s);
}.

(** A run replaced by one that is cancelled if the first was. *)
Lemma sv_callers_update n r r' rs cs : rs !! n = Some r -> (r_cancelled r = true -> r_cancelled r' = true) ->
  Forall (caller_ok rs) cs -> Forall (caller_ok (<[n := r']> rs)) cs.
Proof.
  intros Hr Hc F. eapply Forall_impl; [exact F |]. intros c (x & Hx & Hs). destruct (decide (c_run c = n)) as [E|Hne].
  - exists r'. rewrite E. split; [by rewrite list_lookup_insert_eq by (by eapply lookup_lt_Some) |].
    rewrite E, Hr in Hx. injection Hx as <-. auto.
  - exists x. by rewrite list_lookup_insert_ne.
Qed.

Lemma sv_messages_run n r r' (s : service) (sm bk : gmap string nat) bs : messages_ok s -> runs s !! n = Some r ->
  r_received r' = r_received r -> (r_cancelled r = true -> r_cancelled r' = true) ->
  messages_ok (MkService bk sm (<[n := r']> (runs s)) bs (callers s)).
Proof.
  intros [M1 M2] Hr E Hc. split; simpl; [| by eapply sv_callers_update].
  intros k x. destruct (decide (k = n)) as [->|Hk].
  - rewrite list_lookup_insert_eq by (by eapply lookup_lt_Some). intros [= <-]. rewrite E. by apply M1.
  - rewrite list_lookup_insert_ne by done. apply M1.
Qed.

Lemma sv_messages_register id (s : service) m : messages_ok s ->
  messages_ok (with_runs m (runs s ++ [MkRun id false RunAlive []]) s).
Proof.
  intros [M1 M2]. split; simpl.
  - intros n r [Hn|[Hl Hn]]%lookup_app_Some; [by apply M1 |]. apply list_lookup_singleton_Some in Hn as [Hn <-]. simpl.
    unfold delivered. replace (List.filter (to_run n) (callers s)) with (@nil Caller); [apply Permutation_refl |].
    symmetry. clear M1. induction M2 as [|c cs (x & Hx & _) _ IH]; [done |]. simpl. unfold to_run at 1.
    rewrite bool_decide_eq_false_2 by (apply lookup_lt_Some in Hx; lia). simpl. exact IH.
  - eapply Forall_impl; [exact M2 |]. intros c (x & Hx & Hs). exists x. split; [by apply lookup_app_l_Some | done].
Qed.

Lemma sv_messages_call n r m (s : service) : messages_ok s -> runs s !! n = Some r ->
  messages_ok (with_callers (callers s ++ [MkCaller n m CallWaiting]) s).
Proof.
  intros [M1 M2] Hr. split; simpl.
  - intros k x Hx. rewrite sv_delivered_app. unfold delivered at 2. simpl. unfold to_run. simpl.
    rewrite andb_false_r, app_nil_r. by apply M1.
  - apply Forall_app. split; [done |]. constructor; [| done]. exists r. by split; [| intros [_ [=]]].
Qed.

Lemma sv_delivered_waiting n c : c_pc c = CallWaiting -> delivered n [c] = [].
Proof. unfold delivered, to_run. simpl. intros ->. by rewrite andb_false_r. Qed.

Lemma sv_delivered_one n c : was_sent (c_pc c) = true -> delivered n [c] = if bool_decide (c_run c = n) then [c_msg c] else [].
Proof. unfold delivered, to_run. simpl. intros ->. rewrite andb_true_r. by destruct (bool_decide _). Qed.

Lemma sv_messages_deliver k (s s' : service) : deliver k s = Some s' -> messages_ok s -> messages_ok s'.
Proof.
  unfold deliver. intros H [M1 M2]. destruct (callers s !! k) as [c|] eqn:Hc; [| done].
  destruct (c_pc c) eqn:Hpc; try done. destruct (runs s !! c_run c) as [r|] eqn:Hr; [| done].
  case_bool_decide; [| done]. injection H as <-. split; simpl.
  - intros n x Hn. rewrite (sv_delivered_insert n k c) by (done || by apply sv_delivered_waiting).
    rewrite sv_delivered_one by (by destruct (c_msg c)). simpl. destruct (decide (n = c_run c)) as [->|Hne].
    + rewrite list_lookup_insert_eq in Hn by (by eapply lookup_lt_Some). injection Hn as <-.
      rewrite bool_decide_eq_true_2 by done. simpl. by rewrite (M1 _ _ Hr).
    + rewrite list_lookup_insert_ne in Hn by done. rewrite bool_decide_eq_false_2 by done. rewrite app_nil_r. by apply M1.
  - eapply sv_callers_update; [exact Hr | done |]. apply Forall_insert; [done |]. exists r. split; [done |].
    intros [Hm Hp]. simpl in Hm, Hp. by rewrite Hm in Hp.
Qed.

Lemma sv_messages_cancel k (s s' : service) : cancel_run k s = Some s' -> messages_ok s -> messages_ok s'.
Proof.
  unfold cancel_run. intros H [M1 M2]. destruct (callers s !! k) as [c|] eqn:Hc; [| done].
  destruct (c_pc c) eqn:Hpc; try done. destruct (runs s !! c_run c) as [r|] eqn:Hr; [| done].
  injection H as <-. split; simpl.
  - intros n x Hn. rewrite (sv_delivered_same n k c); [| done | unfold delivered, to_run; simpl; rewrite Hpc; simpl; by case_bool_decide].
    destruct (decide (n = c_run c)) as [->|Hne].
    + rewrite list_lookup_insert_eq in Hn by (by eapply lookup_lt_Some). injection Hn as <-. apply (M1 _ _ Hr).
    + rewrite list_lookup_insert_ne in Hn by done. by apply M1.
  - apply Forall_insert; [by eapply sv_callers_update |]. eexists. simpl.
    by rewrite list_lookup_insert_eq by (by eapply lookup_lt_Some).
Qed.

Lemma sv_messages_abandon k (s s' : service) : abandon k s = Some s' -> messages_ok s -> messages_ok s'.
Proof.
  unfold abandon. intros H [M1 M2]. destruct (callers s !! k) as [c|] eqn:Hc; [| done].
  destruct (c_pc c) eqn:Hpc; try done. injection H as <-. split; simpl.
  - intros n x Hn. rewrite (sv_delivered_same n k c); [by apply M1 | done |].
    rewrite (sv_delivered_waiting n c) by done. unfold delivered, to_run. simpl. by rewrite andb_false_r.
  - apply Forall_insert; [done |]. rewrite Forall_lookup in M2. destruct (M2 _ _ Hc) as (r & Hr & _).
    exists r. split; [done |]. by intros [_ [=]].
Qed.

Lemma sv_step_messages a (s s' : service) : service_step a s = Some s' -> registry_ok s -> messages_ok s -> messages_ok s'.
Proof.
  intros H R M. destruct a as [d id|m id|k|k|k|n|n|id|id|n|n|n];
    [| | by eapply sv_messages_deliver | by eapply sv_messages_cancel | by eapply sv_messages_abandon | ..];
    sv_inv H; try exact M; try (by destruct M; split); try (by apply sv_messages_register); try (by eapply sv_messages_run).
  match goal with E : strategies s !! _ = Some _ |- _ => apply R in E as (r & Hr & _) end. by eapply sv_messages_call.
Qed.

Lemma sv_messages (s : service) : reachable s -> messages_ok s.
Proof.
  intros H. apply (sv_invariant (fun s => registry_ok s /\ messages_ok s)) in H; [by destruct H | |].
  - split; [| split; [done | constructor]]. intros id n. simpl. split; [done |]. by intros (r & ? & _).
  - intros a s1 s2 E [R M]. split; [by eapply sv_step_registry | by eapply sv_step_messages].
Qed.

(** A message is received exactly once by the run it was meant for, and
    only if its sender got past its select by sending: what a run has
    received is, up to order, the messages of the calls on it that did not
    fail.  A call whose context ended first delivered nothing; a stop that
    returned without an error was received and has cancelled its run. *)
Theorem service_messages_exact (s : service) : reachable s ->
  (forall n r, runs s !! n = Some r -> r_received r ≡ₚ delivered n (callers s)) /\
  (forall k c, callers s !! k = Some c -> stop_done c ->
     exists r, runs s !! c_run c = Some r /\ Stop ∈ r_received r /\ r_cancelled r = true).
Proof.
  intros [M1 M2]%sv_messages. split; [done |]. intros k c Hc Hd.
  rewrite Forall_lookup in M2. destruct (M2 _ _ Hc) as (r & Hr & Hs). exists r. split; [done |].
  split; [| by apply Hs]. rewrite (M1 _ _ Hr). destruct Hd as [Hm Hp]. rewrite <- Hm. unfold delivered.
  apply list_elem_of_fmap_2, list_elem_of_In, filter_In. split; [by eapply list_elem_of_In, list_elem_of_lookup_2 |].
  unfold to_run. rewrite Hp. by rewrite bool_decide_eq_true_2.
Qed.

(** ** Theory: callers *)

Definition waiting (k : nat) (s : service) : Prop := exists c, callers s !! k = Some c /\ c_pc c = CallWaiting.

(** The run of caller [k] has its strategy still running. *)
Definition run_alive (k : nat) (s : service) : bool :=
  match callers s !! k with
  | Some c => match runs s !! c_run c with Some r => bool_decide (r_pc r = RunAlive) | None => false end
  | None => false
  end.

Lemma sv_deliver_iff k (s : service) : waiting k s -> is_Some (deliver k s) <-> run_alive k s = true.
Proof.
  intros (c & Hc & Hp). unfold deliver, run_alive. rewrite Hc, Hp. destruct (runs s !! c_run c) as [r|]; [| by split; [intros [? ?] |]].
  by case_bool_decide; split; [| | intros [? ?] |].
Qed.

(** A run that has left [strategy.Run] never comes back: its index is never
    given to another run. *)
Definition left (n : nat) (s : service) : Prop := exists r, runs s !! n = Some r /\ r_pc r <> RunAlive.

Lemma sv_left_insert n k r r' (rs : list runState) : rs !! k = Some r -> (r_pc r <> RunAlive -> r_pc r' <> RunAlive) ->
  (exists x, rs !! n = Some x /\ r_pc x <> RunAlive) -> exists x, <[k := r']> rs !! n = Some x /\ r_pc x <> RunAlive.
Proof.
  intros Hk Hp (x & Hx & Hl). destruct (decide (n = k)) as [->|Hne].
  - exists r'. rewrite list_lookup_insert_eq by (by eapply lookup_lt_Some). split; [done |]. apply Hp. congruence.
  - exists x. by rewrite list_lookup_insert_ne.
Qed.

Lemma sv_step_left n a (s s' : service) : service_step a s = Some s' -> left n s -> left n s'.
Proof.
  intros H L. destruct a; sv_inv H; try exact L; try (by eapply sv_left_insert).
  destruct L as (r & Hr & Hl). exists r. split; [by apply lookup_app_l_Some | done].
Qed.

(** Other steps leave a waiting caller where it is. *)
Lemma sv_step_caller k c a (s s' : service) : service_step a s = Some s' -> callers s !! k = Some c ->
  c_pc c = CallWaiting -> a <> ADeliver k -> a <> AGiveUp k -> callers s' !! k = Some c.
Proof.
  intros H Hc Hp Hd Hg. destruct a; sv_inv H; try done; [by apply lookup_app_l_Some | ..];
    (rewrite list_lookup_insert_ne; [done | congruence]).
Qed.

(** Without the end of its context a caller whose run has left stays. *)
Lemma sv_stuck k acts : forall s s' c, service_run acts s = Some s' -> callers s !! k = Some c -> c_pc c = CallWaiting ->
  left (c_run c) s -> AGiveUp k ∉ acts -> callers s' !! k = Some c.
Proof.
  induction acts as [|a acts IH]; intros s s' c H Hc Hp L Hn; simpl in H; [by injection H as <- |].
  destruct (service_step a s) as [s1|] eqn:E; [| done]. apply not_elem_of_cons in Hn as [Hna Hn].
  eapply IH; [exact H | | done | by eapply sv_step_left | done].
  eapply sv_step_caller; [exact E | done | done | | congruence]. intros ->.
  assert (run_alive k s = true) as Ha by (apply sv_deliver_iff; [by exists c | by exists s1]).
  destruct L as (r & Hr & Hl). unfold run_alive in Ha. rewrite Hc, Hr in Ha. by apply bool_decide_eq_true_1 in Ha.
Qed.

(** A call of Stop, Pause or Resume that waits for its run can end in two
    ways only: the strategy takes the message, possible exactly while it is
    still in its [Run], or the call's own context ends, always possible and
    reported as an error.  Once the strategy has returned the first is gone
    for good: whatever happens next, a caller whose context does not end
    waits for ever, even after the run has left the registry. *)
Theorem service_caller_liveness (s : service) k c : reachable s -> callers s !! k = Some c -> c_pc c = CallWaiting ->
  (is_Some (service_step (ADeliver k) s) <-> run_alive k s = true) /\
  (exists s' e, service_step (AGiveUp k) s = Some s' /\
     callers s' !! k = Some (MkCaller (c_run c) (c_msg c) (CallReturned (Err e))) /\ runs s' = runs s) /\
  (run_alive k s = false -> forall acts s', service_run acts s = Some s' -> AGiveUp k ∉ acts -> callers s' !! k = Some c).
Proof.
  intros M%sv_messages Hc Hp. split_and!.
  - apply sv_deliver_iff. by exists c.
  - simpl. unfold abandon. rewrite Hc, Hp. do 2 eexists. split; [done |]. simpl.
    by rewrite list_lookup_insert_eq by (by eapply lookup_lt_Some).
  - intros Ha acts s' H Hn. eapply sv_stuck; [done | done | done | | done].
    pose proof (mo_callers _ M) as F. rewrite Forall_lookup in F. destruct (F _ _ Hc) as (r & Hr & _).
    exists r. split; [done |]. unfold run_alive in Ha. rewrite Hc, Hr in Ha. by apply bool_decide_eq_false_1 in Ha.
Qed.

(** ** Concrete runs *)

(** A backtest that ends unregisters the one started later under its id. *)
Example backtest_id_reused :
  (StopBacktest "b" <$> service_run [ARunBacktest "b"; ARunBacktest "b"; ABacktestReturns 0; AReceiveResult 0; AFinishBacktest 0] NewService)
  = Some (Err ErrBacktestNotFound,
      MkService ∅ ∅ [] [MkBt "b" true BtDone; MkBt "b" false BtWorking] []).
Proof. vm_compute. reflexivity. Qed.

(** A run that is paused, then returns by itself while a stop is waiting. *)
Definition acts_late_stop : list Action :=
  [ARun false "a"; ARun false "a"; ACall Pause "a"; ADeliver 0; ACall Stop "a"; AReturn 0; AUnregister 0; ARun false "a"].
Definition late_stop : service := default NewService (service_run acts_late_stop NewService).

Lemma late_stop_reachable : reachable late_stop.
Proof. exists acts_late_stop. vm_compute. reflexivity. Qed.

Example late_stop_ends : (strategies late_stop !! "a") = Some 1%nat /\ length (runs late_stop) = 2%nat /\
  (r_received <$> runs late_stop) = [[Pause]; []] /\ run_alive 1 late_stop = false.
Proof. vm_compute. auto. Qed.

(** A stop that is received. *)
Definition stopped : service :=
  default NewService (service_run [ARun false "a"; ACall Stop "a"; ADeliver 0; ACancel 0] NewService).

Lemma stopped_reachable : reachable stopped.
Proof. exists [ARun false "a"; ACall Stop "a"; ADeliver 0; ACancel 0]. vm_compute. reflexivity. Qed.

Lemma service_registry_exact_witness : reachable late_stop /\ IsRunActive "a" late_stop = true /\
  is_ok (RunStrategyWithID false "a" late_stop).1 = negb (IsRunActive "a" late_stop).
Proof.
  split; [apply late_stop_reachable |]. split; [vm_compute; reflexivity |].
  apply (service_registry_exact late_stop late_stop_reachable).
Defined.

Lemma service_messages_exact_witness : reachable stopped /\
  exists r, runs stopped !! 0%nat = Some r /\ Stop ∈ r_received r /\ r_cancelled r = true.
Proof.
  split; [apply stopped_reachable |].
  apply (proj2 (service_messages_exact stopped stopped_reachable) 0%nat (MkCaller 0 Stop (CallReturned (Ok tt))));
    [vm_compute; reflexivity | split; reflexivity].
Defined.

Lemma service_caller_liveness_witness : reachable late_stop /\ run_alive 1 late_stop = false /\
  (forall acts s', service_run acts late_stop = Some s' -> AGiveUp 1 ∉ acts ->
     callers s' !! 1%nat = Some (MkCaller 0 Stop CallWaiting)).
Proof.
  split; [apply late_stop_reachable |]. split; [vm_compute; reflexivity |].
  apply (service_caller_liveness late_stop 1 (MkCaller 0 Stop CallWaiting));
    [apply late_stop_reachable | vm_compute; reflexivity | reflexivity | vm_compute; reflexivity].
Defined.
