(* ===== verification/Reconnect.v ===== *)
(** * The reconnecting clients

    Three websocket clients dial again with a growing, jittered delay: the
    notification client of the MCP server (notifications/client.go), the trade
    stream (streams/trade_stream.go) and the order-update stream
    (notifications/orderupdates/stream.go).  The sockets are outside: an
    attempt to connect comes with what happened, a loop is a function of the
    list of attempts and yields the trace of what it did.  Random bytes are
    arguments.  A division by zero panics ([None]).

    Theory: the three delay functions are instances of one interface,
    [Backoff], whose laws give the pace of every loop: no division by zero, a
    sleep between any two failed attempts, growth by at least 8/5 up to the
    cap, and never more than 6/5 of the cap. *)

From S2P Require Import Prelude GoTime.

Definition Millisecond : Z := 10 ^ 6.

(** What a loop does, seen from outside. *)
Inductive Trace :=
  | TDial (header : string) (since : option Time)
  | TConnected
  | TForward (n : nat)            (* messages handed on *)
  | TSleep (d : Z)
  | TPanic.

(** ** The delays *)

(** Package notifications: [nextDelay] with eight random bytes. *)
Module Client.

Definition jitterDivisor : Z := 5.
Definition initialDelay : Z := 100 * Millisecond.
Definition maxDelay : Z := 5 * Second.

Definition nextDelay (d max : Z) (random : Z) : option Z :=
  let next := Z.min (dur_mul d 2) max in
  let jitterMax := Z.quot next jitterDivisor mod 2 ^ 64 in
  if jitterMax =? 0 then None
  else let jitterN := random mod jitterMax in Some (wrap64 (next + wrap64 jitterN)).

End Client.

(** Package streams, with its own constants. *)
Module Trade.

Definition initialReconnectDelay : Z := 100 * Millisecond.
Definition maxReconnectDelay : Z := 5 * Second.
Definition jitterDivisor : Z := 5.

Definition nextDelay (d : Z) (random : Z) : option Z :=
  let next := Z.min (dur_mul d 2) maxReconnectDelay in
  let jitterMax := Z.quot next jitterDivisor mod 2 ^ 64 in
  if jitterMax =? 0 then None
  else let jitterN := random mod jitterMax in Some (wrap64 (next + wrap64 jitterN)).

End Trade.

(** Package orderupdates: one random byte gives size and sign; [None] when it
    cannot be read. *)
Module Orders.

Definition initialBackoff : Z := 1 * Second.
Definition maxBackoff : Z := 60 * Second.
Definition jitterDivisor : Z := 5.

Definition nextDelay (current max : Z) (buf : option Byte.byte) : Z :=
  let b := Z.min (dur_mul current 2) max in
  match buf with
  | None => b
  | Some x =>
      let x := Z.of_N (Byte.to_N x) in
      let delta := Z.quot b jitterDivisor in
      let offset := Z.quot (dur_mul x delta) 256 in
      if Z.land x 1 =? 0 then wrap64 (b - offset) else wrap64 (b + offset)
  end.

End Orders.

(** ** The loops *)

Module ClientLoop.

(** One turn of [Run]: how [runOnce] ended, whether the context had ended
    then or ended during the sleep, the random bytes and the fresh header. *)
Record Attempt := {
  a_clean : bool; a_ctx_done : bool; a_sleep_cut : bool;
  a_random : Z; a_auth : result string;
}.

(** [Run]: the trace, and the returned error ([Err] is the context's) once it
    returns; [None] while it goes on. *)
Fixpoint Run (delay : Z) (authHeader : string) (attempts : list Attempt) : list Trace * option (result unit) :=
  match attempts with
  | [] => ([], None)
  | a :: rest =>
      if a_ctx_done a then ([TDial authHeader None], Some (Err (ErrMsg "context done")))
      else if a_clean a then ([TDial authHeader None], Some (Ok tt))
      else if a_sleep_cut a then ([TDial authHeader None; TSleep delay], Some (Err (ErrMsg "context done")))
      else match Client.nextDelay delay Client.maxDelay (a_random a) with
           | None => ([TDial authHeader None; TSleep delay; TPanic], None)
           | Some delay' =>
               let header := match a_auth a with Ok h => h | Err _ => authHeader end in
               let '(tr, r) := Run delay' header rest in
               (TDial authHeader None :: TSleep delay :: tr, r)
           end
  end.

End ClientLoop.

Module TradeLoop.

Inductive Outcome :=
  | DialFailed (canceled : bool)
  | Connected (messages : nat).

Record Attempt := {
  a_ctx_done : bool;              (* before dialling *)
  a_now : Time;
  a_outcome : Outcome;
  a_sleep_cut : bool;
  a_random : Z;
}.

(** [runBookReconnectLoop]: the trace, and whether the loop has ended. *)
Fixpoint runBookReconnectLoop (delay : Z) (attempts : list Attempt) : list Trace * bool :=
  match attempts with
  | [] => ([], false)
  | a :: rest =>
      if a_ctx_done a then ([], true)
      else
        let dial := TDial "" (Some (time_utc (a_now a))) in
        let again (delay : Z) :=
          if a_sleep_cut a then ([TSleep delay], true)
          else match Trade.nextDelay delay (a_random a) with
               | None => ([TSleep delay; TPanic], true)
               | Some delay' => let '(tr, e) := runBookReconnectLoop delay' rest in (TSleep delay :: tr, e)
               end in
        match a_outcome a with
        | DialFailed true => ([dial], true)
        | DialFailed false => let '(tr, e) := again delay in (dial :: tr, e)
        | Connected n =>
            let '(tr, e) := again Trade.initialReconnectDelay in (dial :: TConnected :: TForward n :: tr, e)
        end
  end.

End TradeLoop.

Module OrdersLoop.

(** A message as the JSON decoder leaves it: the [updated_at] of its entries,
    or nothing when it is not an array of such. *)
Definition Message : Type := option (list Time).

(** [extractUpdatedAtAndAdvance] for one user's cursor. *)
Definition latest (entries : list Time) : Time :=
  foldl (fun m t => if time_after t m then t else m) zero_time entries.

Definition extractUpdatedAtAndAdvance (doraUserID : string) (raw : Message) (since : gmap string Time) : bool * gmap string Time :=
  match raw with
  | None => (false, since)
  | Some entries =>
      let max := latest entries in
      if time_is_zero max then (false, since) else (true, <[doraUserID := max]> since)
  end.

(** [forwardUntilDone]: the messages handed on before the connection or the
    context ended. *)
Definition forwardUntilDone (doraUserID : string) (msgs : list Message) (since : gmap string Time) : gmap string Time :=
  foldl (fun s m => (extractUpdatedAtAndAdvance doraUserID m s).2) since msgs.

Inductive Outcome :=
  | AuthRejected
  | DialFailed
  | Connected (messages : list Message).

Record Attempt := {
  a_ctx_done : bool;
  a_outcome : Outcome;
  a_sleep_cut : bool;
  a_random : option Byte.byte;
}.

(** [runReadLoop]: the trace, the cursors and whether the loop has ended and
    closed its channel. *)
Fixpoint runReadLoop (doraUserID : string) (backoff : Z) (since : gmap string Time) (attempts : list Attempt) :
    list Trace * gmap string Time * bool :=
  match attempts with
  | [] => ([], since, false)
  | a :: rest =>
      if a_ctx_done a then ([], since, true)
      else
        let dial := TDial "" (since !! doraUserID) in
        match a_outcome a with
        | AuthRejected => ([dial], since, true)
        | DialFailed =>
            if a_sleep_cut a then ([dial; TSleep backoff], since, true)
            else let '(tr, s, e) := runReadLoop doraUserID (Orders.nextDelay backoff Orders.maxBackoff (a_random a)) since rest in
                 (dial :: TSleep backoff :: tr, s, e)
        | Connected msgs =>
            let '(tr, s, e) := runReadLoop doraUserID Orders.initialBackoff (forwardUntilDone doraUserID msgs since) rest in
            (dial :: TConnected :: TForward (length msgs) :: tr, s, e)
        end
  end.

End OrdersLoop.

(** ** Theory: the pace *)

(** What the loops need of a delay function: the next delay is within a fifth
    of the doubled and capped one, for every random input. *)
Class Backoff := {
  rnd : Type;
  initial : Z;
  cap : Z;
  next : Z -> rnd -> option Z;
}.

Class BackoffLaws (B : Backoff) : Prop := {
  initial_pos : 0 < initial;
  initial_small : 2 * initial <= cap;
  next_near d r : initial <= d -> 5 * d <= 6 * cap ->
    exists d', next d r = Some d' /\ 4 * Z.min (2 * d) cap <= 5 * d' <= 6 * Z.min (2 * d) cap;
}.

#[export] Instance client_backoff : Backoff :=
  {| initial := Client.initialDelay; cap := Client.maxDelay; next := fun d r => Client.nextDelay d Client.maxDelay r |}.
#[export] Instance trade_backoff : Backoff :=
  {| initial := Trade.initialReconnectDelay; cap := Trade.maxReconnectDelay; next := Trade.nextDelay |}.
#[export] Instance orders_backoff : Backoff :=
  {| initial := Orders.initialBackoff; cap := Orders.maxBackoff;
     next := fun d r => Some (Orders.nextDelay d Orders.maxBackoff r) |}.

Lemma wrap64_mid z : - 10 ^ 18 <= z <= 10 ^ 18 -> wrap64 z = z.
Proof. intros H. apply wrap64_small. unfold in_int64, int64_min, int64_max. lia. Qed.

(** The eight-byte jitter. *)
Lemma rc_jitter next r : 5 <= next <= 10 ^ 17 ->
  let jitterMax := Z.quot next 5 mod 2 ^ 64 in
  (jitterMax =? 0) = false /\ next <= wrap64 (next + wrap64 (r mod jitterMax)) /\
  5 * wrap64 (next + wrap64 (r mod jitterMax)) <= 6 * next.
Proof.
  intros H jm. assert (jm = next / 5) as E.
  { unfold jm. rewrite Z.quot_div_nonneg by lia. apply Z.mod_small.
    split; [apply Z.div_pos; lia | apply Z.div_lt_upper_bound; lia]. }
  assert (1 <= jm) by (rewrite E; apply Z.div_le_lower_bound; lia).
  assert (5 * jm <= next) by (rewrite E; apply Z.mul_div_le; lia).
  pose proof (Z.mod_pos_bound r jm ltac:(lia)).
  rewrite (wrap64_mid (r mod jm)) by lia. rewrite wrap64_mid by lia. split; [apply Z.eqb_neq; lia | lia].
Qed.

#[export] Instance client_laws : BackoffLaws client_backoff.
Proof.
  split; [done | done |]. intros d r Hlo Hhi.
  cbn [initial cap next client_backoff] in *. unfold Client.nextDelay, Client.maxDelay, Client.initialDelay, Client.jitterDivisor, dur_mul, Millisecond, Second in *.
  rewrite (wrap64_mid (d * 2)) by lia.
  destruct (rc_jitter (Z.min (d * 2) (5 * 10 ^ 9)) r ltac:(lia)) as (-> & H1 & H2).
  eexists. split; [reflexivity |]. rewrite (Z.mul_comm 2 d). lia.
Qed.

#[export] Instance trade_laws : BackoffLaws trade_backoff.
Proof. split; [done | done |]. exact (@next_near _ client_laws). Qed.

#[export] Instance orders_laws : BackoffLaws orders_backoff.
Proof.
  split; [done | done |]. intros d r Hlo Hhi.
  cbn [initial cap next orders_backoff] in *. unfold Orders.nextDelay, Orders.maxBackoff, Orders.initialBackoff, Orders.jitterDivisor, dur_mul, Second in *.
  rewrite (wrap64_mid (d * 2)) by lia. rewrite (Z.mul_comm 2 d). set (b := Z.min (d * 2) (60 * 10 ^ 9)).
  assert (2 * 10 ^ 9 <= b <= 60 * 10 ^ 9) by lia. eexists. split; [reflexivity |].
  destruct r as [x|]; [| lia]. assert (0 <= Z.of_N (Byte.to_N x) <= 255) as Hx.
  { pose proof (Byte.to_N_bounded x). lia. }
  set (v := Z.of_N (Byte.to_N x)) in *. rewrite (Z.quot_div_nonneg b 5) by lia.
  assert (0 <= b / 5) by (apply Z.div_pos; lia). assert (5 * (b / 5) <= b) by (apply Z.mul_div_le; lia).
  assert (0 <= v * (b / 5) <= 255 * (b / 5)) by nia.
  rewrite (wrap64_mid (v * (b / 5))) by lia. rewrite Z.quot_div_nonneg by lia.
  assert (0 <= v * (b / 5) / 256) by (apply Z.div_pos; lia).
  assert (256 * (v * (b / 5) / 256) <= v * (b / 5)) by (apply Z.mul_div_le; lia).
  destruct (Z.land v 1 =? 0); rewrite wrap64_mid by lia; lia.
Qed.

(** The [n]-th sleep after a start or a reset. *)
Definition in_pace (B : Backoff) (n : nat) (d : Z) : bool :=
  (initial <=? d) && (5 * d <=? 6 * cap) && ((4 * cap <=? 5 * d) || (initial * 8 ^ Z.of_nat n <=? d * 5 ^ Z.of_nat n)).

(** A trace without panic in which every sleep keeps the pace and no two dials
    follow each other without a sleep; [free]: a connection that was
    established and lost may be dialled again at once. *)
Fixpoint paced (B : Backoff) (free : bool) (n : nat) (ready : bool) (tr : list Trace) : bool :=
  match tr with
  | [] => true
  | TDial _ _ :: tr => ready && paced B free n false tr
  | TConnected :: tr => paced B free 0 (free || ready) tr
  | TForward _ :: tr => paced B free n ready tr
  | TSleep d :: tr => in_pace B n d && paced B free (S n) true tr
  | TPanic :: _ => false
  end.

Lemma in_pace_spec B n d : in_pace B n d = true <->
  initial <= d /\ 5 * d <= 6 * cap /\ (4 * cap <= 5 * d \/ initial * 8 ^ Z.of_nat n <= d * 5 ^ Z.of_nat n).
Proof. unfold in_pace. rewrite !andb_true_iff, orb_true_iff, !Z.leb_le. tauto. Qed.

Lemma in_pace_initial B `{!BackoffLaws B} : in_pace B 0 initial = true.
Proof.
  apply in_pace_spec. pose proof initial_pos. pose proof initial_small. simpl. lia.
Qed.

Lemma in_pace_next B `{!BackoffLaws B} n d r : in_pace B n d = true ->
  exists d', next d r = Some d' /\ in_pace B (S n) d' = true.
Proof.
  intros (Hi & Hc & Hg)%in_pace_spec. destruct (next_near d r Hi Hc) as (d' & E & H1 & H2).
  exists d'. split; [done |]. apply in_pace_spec. pose proof initial_pos. pose proof initial_small.
  split_and!; [lia | lia |]. destruct (Z.le_gt_cases cap (2 * d)); [left; lia | right].
  destruct Hg as [Hg|Hg]; [lia |]. rewrite Nat2Z.inj_succ, !Z.pow_succ_r by lia. nia.
Qed.

(** From the [n]-th on, when 1.6^n bridges initial and cap. *)
Lemma in_pace_settled B `{!BackoffLaws B} n d : in_pace B n d = true -> 4 * cap * 5 ^ Z.of_nat n <= 5 * initial * 8 ^ Z.of_nat n ->
  4 * cap <= 5 * d.
Proof.
  intros (Hi & Hc & [Hg|Hg])%in_pace_spec Hn; [done |]. assert (0 < 5 ^ Z.of_nat n) by (apply Z.pow_pos_nonneg; lia). nia.
Qed.

Lemma rc_client n d h attempts : in_pace client_backoff n d = true ->
  paced client_backoff false n true (ClientLoop.Run d h attempts).1 = true.
Proof.
  revert n d h. induction attempts as [|a rest IH]; intros n d h Hd; [done |]. simpl.
  destruct (ClientLoop.a_ctx_done a); [done |]. destruct (ClientLoop.a_clean a); [done |].
  destruct (ClientLoop.a_sleep_cut a); [simpl; by rewrite Hd |].
  destruct (in_pace_next client_backoff n d (ClientLoop.a_random a) Hd) as (d' & E & Hd').
  cbn [next client_backoff] in E. rewrite E.
  specialize (IH _ _ (match ClientLoop.a_auth a with Ok h => h | Err _ => h end) Hd').
  destruct (ClientLoop.Run _ _ rest) as [tr r]. simpl in *. by rewrite Hd.
Qed.

Lemma rc_trade n d attempts : in_pace trade_backoff n d = true ->
  paced trade_backoff false n true (TradeLoop.runBookReconnectLoop d attempts).1 = true.
Proof.
  revert n d. induction attempts as [|a rest IH]; intros n d Hd; [done |]. cbn [TradeLoop.runBookReconnectLoop].
  destruct (TradeLoop.a_ctx_done a); [done |].
  destruct (TradeLoop.a_outcome a) as [[]|m]; [done | |];
    [| pose proof (in_pace_initial trade_backoff) as Hi; cbn [initial trade_backoff] in Hi].
  - destruct (TradeLoop.a_sleep_cut a); [simpl; by rewrite Hd |].
    destruct (in_pace_next trade_backoff n d (TradeLoop.a_random a) Hd) as (d' & E & Hd').
    cbn [next trade_backoff] in E. rewrite E. specialize (IH _ _ Hd').
    destruct (TradeLoop.runBookReconnectLoop _ rest) as [tr e]. simpl in *. by rewrite Hd.
  - destruct (TradeLoop.a_sleep_cut a); [cbn [paced fst orb]; by rewrite Hi |].
    destruct (in_pace_next trade_backoff 0 _ (TradeLoop.a_random a) Hi) as (d' & E & Hd').
    cbn [next trade_backoff] in E. rewrite E. specialize (IH _ _ Hd').
    destruct (TradeLoop.runBookReconnectLoop _ rest) as [tr e]. cbn [paced fst orb andb] in *. by rewrite Hi, IH.
Qed.

Lemma rc_orders u n d since attempts : in_pace orders_backoff n d = true ->
  paced orders_backoff true n true (OrdersLoop.runReadLoop u d since attempts).1.1 = true.
Proof.
  revert n d since. induction attempts as [|a rest IH]; intros n d since Hd; [done |]. simpl.
  destruct (OrdersLoop.a_ctx_done a); [done |].
  destruct (OrdersLoop.a_outcome a) as [| |msgs]; [done | |].
  - destruct (OrdersLoop.a_sleep_cut a); [simpl; by rewrite Hd |].
    destruct (in_pace_next orders_backoff n d (OrdersLoop.a_random a) Hd) as (d' & [= <-] & Hd').
    specialize (IH _ _ since Hd'). destruct (OrdersLoop.runReadLoop u _ since rest) as [[tr s] e]. simpl in *. by rewrite Hd.
  - specialize (IH 0%nat Orders.initialBackoff (OrdersLoop.forwardUntilDone u msgs since) (in_pace_initial orders_backoff)).
    by destruct (OrdersLoop.runReadLoop u _ _ rest) as [[tr s] e].
Qed.

(** Whatever happens on the network and whatever the random bytes are, no
    reconnect loop divides by zero, and every loop keeps the pace: it sleeps
    between two dials, the [n]-th sleep in a row is at least initial * 1.6^n
    until 4/5 of the cap is reached, stays above that from then on and never
    exceeds 6/5 of the cap (the caps are 5, 5 and 60 seconds).  The order
    stream alone dials again without a sleep, and only after a connection it
    had established. *)
Theorem reconnect_loops_paced :
  (forall h attempts, paced client_backoff false 0 true (ClientLoop.Run Client.initialDelay h attempts).1 = true) /\
  (forall attempts, paced trade_backoff false 0 true
     (TradeLoop.runBookReconnectLoop Trade.initialReconnectDelay attempts).1 = true) /\
  (forall u since attempts, paced orders_backoff true 0 true
     (OrdersLoop.runReadLoop u Orders.initialBackoff since attempts).1.1 = true) /\
  (forall n d, (8 <= n)%nat -> in_pace client_backoff n d = true -> 4 * Second <= d <= 6 * Second).
Proof.
  split_and!; intros.
  - apply rc_client, (in_pace_initial client_backoff).
  - apply rc_trade, (in_pace_initial trade_backoff).
  - apply rc_orders, (in_pace_initial orders_backoff).
  - pose proof (proj1 (in_pace_spec _ _ _) H0) as (_ & Hc & _).
    apply in_pace_settled in H0; [| exact client_laws |].
    + cbn [cap client_backoff] in *. unfold Client.maxDelay in *. lia.
    + replace (Z.of_nat n) with (Z.of_nat (n - 8) + 8) by lia. rewrite !Z.pow_add_r by lia.
      assert (0 < 5 ^ Z.of_nat (n - 8) <= 8 ^ Z.of_nat (n - 8)) by (split; [apply Z.pow_pos_nonneg | apply Z.pow_le_mono_l]; lia).
      cbn [cap initial client_backoff]. unfold Client.maxDelay, Client.initialDelay, Millisecond, Second. lia.
Qed.

(** ** Theory: the order stream's cursor *)

(** The time a message leaves in the cursor, if it has one. *)
Definition message_time (m : OrdersLoop.Message) : option Time :=
  match m with
  | Some es => let t := OrdersLoop.latest es in if time_is_zero t then None else Some t
  | None => None
  end.

Lemma rc_forward u msgs since : OrdersLoop.forwardUntilDone u msgs since =
  match last (omap message_time msgs) with Some t => <[u := t]> since | None => since end.
Proof.
  induction msgs as [|m msgs IH] using rev_ind; [done |]. unfold OrdersLoop.forwardUntilDone in *.
  rewrite foldl_app, IH, omap_app. set (l := omap message_time msgs). simpl. unfold message_time, OrdersLoop.extractUpdatedAtAndAdvance.
  destruct m as [es|]; simpl; [| by rewrite app_nil_r]. destruct (time_is_zero (OrdersLoop.latest es)); simpl.
  - by rewrite app_nil_r.
  - rewrite last_snoc. destruct (last l); simpl; [by rewrite insert_insert_eq | done].
Qed.

(** The messages of the connections that were established. *)
Definition outcome_messages (o : OrdersLoop.Outcome) : list OrdersLoop.Message :=
  match o with OrdersLoop.Connected msgs => msgs | _ => [] end.

(** The order updates of other users never move a user's cursor. *)
Lemma orders_cursor_per_user u since attempts v d : u <> v ->
  (OrdersLoop.runReadLoop u d since attempts).1.2 !! v = since !! v.
Proof.
  intros Hne. revert d since. induction attempts as [|a rest IH]; intros d since; [done |]. simpl.
  destruct (OrdersLoop.a_ctx_done a); [done |]. destruct (OrdersLoop.a_outcome a) as [| |msgs]; [done | |].
  - destruct (OrdersLoop.a_sleep_cut a); [done |]. rewrite <- (IH (Orders.nextDelay d Orders.maxBackoff (OrdersLoop.a_random a)) since).
    by destruct (OrdersLoop.runReadLoop u _ since rest) as [[tr s] e].
  - assert (OrdersLoop.forwardUntilDone u msgs since !! v = since !! v) as <-.
    { rewrite rc_forward. destruct (last _); [by rewrite lookup_insert_ne | done]. }
    rewrite <- (IH Orders.initialBackoff (OrdersLoop.forwardUntilDone u msgs since)).
    by destruct (OrdersLoop.runReadLoop u _ _ rest) as [[tr s] e].
Qed.

(** ** Concrete runs *)

Definition at_ns (z : Z) : Time := MkTime z 0.

(** A message with an older time moves the cursor back. *)
Example orders_cursor_goes_back :
  OrdersLoop.forwardUntilDone "u" [Some [at_ns 900]; Some [at_ns 500]] ∅ !! "u" = Some (at_ns 500).
Proof. reflexivity. Qed.

(** A server that accepts and closes is dialled without a pause. *)
Example orders_no_pause_after_connect :
  let a := OrdersLoop.Build_Attempt false (OrdersLoop.Connected []) false None in
  (OrdersLoop.runReadLoop "u" Orders.initialBackoff ∅ [a; a]).1.1 =
  [TDial "" None; TConnected; TForward 0; TDial "" None; TConnected; TForward 0].
Proof. reflexivity. Qed.
