(* ===== verification/TradeStream.v ===== *)
(** * streams: the trade stream's router

    [trade_stream.go] without its sockets (the reconnect loop of a book is in
    [Reconnect]): [Start] gives every order book one reader, [routeTrade]
    turns a message into events and offers each to the subscribers, who read
    from bounded channels.  The JSON decoder leaves a message as [Data]; uuid
    parsing is a library function, a parameter.  Channels live in a list, a
    subscriber holds the index of its own; Go's map iteration is the order
    [visit] chooses; a send on a closed channel panics.

    Theory: whatever is subscribed, unsubscribed and read in whatever order,
    nothing panics and every channel behaves as if its subscriber were alone:
    a queue of at most a hundred events fed with the matching trades. *)

From S2P Require Import Prelude Decimal RefDecimal.

Section TradeStream.
Context {D : DecimalOps}.
Context (uuid_parse : string -> result string).

(** A decoded JSON value; the other kinds with the text [%v] prints. *)
Inductive Json := JNull | JString (s : string) | JOther (printed : string).

Definition sprint (v : Json) : string :=
  match v with JNull => "<nil>" | JString s => s | JOther t => t end.

(** [entryT.Val]; [None] is a nil map. *)
Definition Entry : Type := option (gmap string Json).

(** A message: an array, a single object, or neither. *)
Inductive Data := DArray (entries : list Entry) | DSingle (entry : Entry) | DBad.

(** [TradeEvent]; its timestamp is never set. *)
Record TradeEvent := {
  TraderID : string; OrderBookID : string; AssetID : string; Side : string;
  Quantity : dec; Price : dec; ExecutionID : string;
}.

Inductive subKind := subKindTrader (followedTrader : string) | subKindOrderBook (orderBookID : string).
Record subscriber := MkSub { sub_kind : subKind; sub_ch : nat }.

(** A channel: what waits in it, whether it is closed, what was read from it. *)
Record Chan := MkChan { ch_buf : list TradeEvent; ch_closed : bool; ch_taken : list TradeEvent }.

Record TradeStream := MkStream {
  subscribers : gmap string subscriber;
  activeBooks : gset string;
  chans : list Chan;
}.

Definition NewTradeStream : TradeStream := MkStream ∅ ∅ [].
Definition ch_cap : nat := 100.

(** [val[key]] of a map without the key is nil. *)
Definition field (val : gmap string Json) (key : string) : Json := default JNull (val !! key).
(** [s, _ := v.(string)] *)
Definition as_string (v : Json) : string := match v with JString s => s | _ => EmptyString end.

(** One entry of a message; [None] when it is skipped. *)
Definition entry_event (book : string) (e : Entry) : option TradeEvent :=
  match e with
  | None => None
  | Some val =>
      match uuid_parse (sprint (field val "user_id")), uuid_parse (sprint (field val "asset_0")),
            uuid_parse (sprint (field val "transaction_id")),
            dparse (as_string (field val "price")), dparse (as_string (field val "quantity_0")) with
      | Ok trader, Ok asset, Ok execution, Ok price, Ok quantity =>
          Some {| TraderID := trader; OrderBookID := book; AssetID := asset;
                  Side := as_string (field val "side"); Quantity := quantity; Price := price; ExecutionID := execution |}
      | _, _, _, _, _ => None
      end
  end.

Definition entries (d : Data) : list Entry :=
  match d with DArray es => es | DSingle e => [e] | DBad => [] end.

(** The events of a message. *)
Definition data_events (book : string) (d : Data) : list TradeEvent := omap (entry_event book) (entries d).

Definition wants (k : subKind) (ev : TradeEvent) : bool :=
  match k with
  | subKindTrader t => bool_decide (t = TraderID ev)
  | subKindOrderBook b => bool_decide (b = OrderBookID ev)
  end.

(** [select { case sub.ch <- event: default: }]; [None] is a panic. *)
Definition offer (ev : TradeEvent) (c : Chan) : option Chan :=
  if ch_closed c then None
  else if (length (ch_buf c) <? ch_cap)%nat then Some (MkChan (ch_buf c ++ [ev]) false (ch_taken c))
  else Some c.

(** One subscriber of the loop. *)
Definition offer_to (ev : TradeEvent) (sub : subscriber) (cs : list Chan) : option (list Chan) :=
  if wants (sub_kind sub) ev then
    match cs !! sub_ch sub with
    | Some c => match offer ev c with Some c' => Some (<[sub_ch sub := c']> cs) | None => None end
    | None => None
    end
  else Some cs.

Definition Visit : Type := gmap string subscriber -> list (string * subscriber).

(** All subscribers, in the order of the visit. *)
Fixpoint offer_all (ev : TradeEvent) (subs : list (string * subscriber)) (cs : list Chan) : option (list Chan) :=
  match subs with
  | [] => Some cs
  | (_, sub) :: rest => match offer_to ev sub cs with Some cs' => offer_all ev rest cs' | None => None end
  end.

(** The loop over the events of a message; every event has a visit of its own. *)
Fixpoint route_events (visit : nat -> Visit) (evs : list TradeEvent) (s : TradeStream) : option TradeStream :=
  match evs with
  | [] => Some s
  | ev :: rest =>
      match offer_all ev (visit (length rest) (subscribers s)) (chans s) with
      | Some cs => route_events visit rest (MkStream (subscribers s) (activeBooks s) cs)
      | None => None
      end
  end.

Definition routeTrade (visit : nat -> Visit) (data : Data) (orderBookID : string) (s : TradeStream) : option TradeStream :=
  route_events visit (data_events orderBookID data) s.

(** [Subscribe] and [SubscribeOrderBook] with the id [uuid.New] chose. *)
Definition Subscribe (id : string) (kind : subKind) (s : TradeStream) : TradeStream :=
  MkStream (<[id := MkSub kind (length (chans s))]> (subscribers s)) (activeBooks s) (chans s ++ [MkChan [] false []]).

(** [close(sub.ch)]: closing twice panics. *)
Definition Unsubscribe (id : string) (s : TradeStream) : option TradeStream :=
  match subscribers s !! id with
  | Some sub =>
      match chans s !! sub_ch sub with
      | Some c => if ch_closed c then None
                  else Some (MkStream (delete id (subscribers s)) (activeBooks s)
                               (<[sub_ch sub := MkChan (ch_buf c) true (ch_taken c)]> (chans s)))
      | None => None
      end
  | None => Some s
  end.

(** A subscriber's receive: the oldest event, if there is one. *)
Definition take_one (c : Chan) : Chan :=
  match ch_buf c with ev :: rest => MkChan rest (ch_closed c) (ch_taken c ++ [ev]) | [] => c end.
Definition read (i : nat) (s : TradeStream) : TradeStream :=
  MkStream (subscribers s) (activeBooks s) (alter take_one i (chans s)).

(** [Start]: the books that get a reader. *)
Fixpoint start_books (books : list string) (active : gset string) : list string * gset string :=
  match books with
  | [] => ([], active)
  | b :: rest =>
      if bool_decide (b ∈ active) then start_books rest active
      else let '(started, active') := start_books rest ({[b]} ∪ active) in (b :: started, active')
  end.
Definition Start (books : list string) (s : TradeStream) : list string * TradeStream :=
  let '(started, active) := start_books books (activeBooks s) in (started, MkStream (subscribers s) active (chans s)).

Inductive Action :=
  | AStart (books : list string)
  | ARoute (visit : nat -> Visit) (data : Data) (orderBookID : string)
  | ASubscribe (id : string) (kind : subKind)
  | AUnsubscribe (id : string)
  | ARead (i : nat).

Definition stream_step (a : Action) (s : TradeStream) : option TradeStream :=
  match a with
  | AStart books => Some (Start books s).2
  | ARoute visit data book => routeTrade visit data book s
  | ASubscribe id kind => Some (Subscribe id kind s)
  | AUnsubscribe id => Unsubscribe id s
  | ARead i => Some (read i s)
  end.

Fixpoint stream_run (acts : list Action) (s : TradeStream) : option TradeStream :=
  match acts with
  | [] => Some s
  | a :: rest => match stream_step a s with Some s' => stream_run rest s' | None => None end
  end.

(** ** Specification: a subscriber alone *)

Inductive Solo := SEvent (ev : TradeEvent) | SRead | SClose.

Definition solo_step (c : Chan) (a : Solo) : Chan :=
  match a with
  | SEvent ev => if ch_closed c then c
                 else if (length (ch_buf c) <? ch_cap)%nat then MkChan (ch_buf c ++ [ev]) false (ch_taken c) else c
  | SRead => take_one c
  | SClose => MkChan (ch_buf c) true (ch_taken c)
  end.

Definition solo : list Solo -> Chan -> Chan := fun acts c => foldl solo_step c acts.

(** What concerns the subscriber [id] of kind [k] reading channel [i]. *)
Definition view (id : string) (k : subKind) (i : nat) (a : Action) : list Solo :=
  match a with
  | ARoute _ data book => SEvent <$> List.filter (wants k) (data_events book data)
  | AUnsubscribe id' => if bool_decide (id' = id) then [SClose] else []
  | ARead i' => if bool_decide (i' = i) then [SRead] else []
  | _ => []
  end.

Definition visits_all (visit : nat -> Visit) : Prop := forall n m, visit n m ≡ₚ map_to_list m.

(** Visits see every subscriber once, and [uuid.New] never repeats. *)
Definition fresh_act (used : gset string) (a : Action) : Prop :=
  match a with
  | ARoute visit _ _ => visits_all visit
  | ASubscribe id _ => id ∉ used
  | _ => True
  end.
Fixpoint sane (used : gset string) (acts : list Action) : Prop :=
  match acts with
  | [] => True
  | a :: rest => fresh_act used a /\ sane (match a with ASubscribe id _ => {[id]} ∪ used | _ => used end) rest
  end.

(** ** Theory *)

Definition hear (k : subKind) (ev : TradeEvent) (c : Chan) : Chan :=
  if wants k ev then solo_step c (SEvent ev) else c.

Lemma ts_hear_closed k ev c : ch_closed (hear k ev c) = ch_closed c.
Proof. unfold hear. simpl. repeat case_match; simpl; congruence. Qed.

Lemma ts_offer ev c : ch_closed c = false -> offer ev c = Some (solo_step c (SEvent ev)).
Proof. unfold offer. simpl. intros ->. by destruct (_ <? _)%nat. Qed.

Lemma ts_offer_to ev sub c cs : cs !! sub_ch sub = Some c -> ch_closed c = false ->
  offer_to ev sub cs = Some (<[sub_ch sub := hear (sub_kind sub) ev c]> cs).
Proof.
  intros Hc Ho. unfold offer_to, hear. destruct (wants (sub_kind sub) ev).
  - by rewrite Hc, ts_offer.
  - by rewrite list_insert_id.
Qed.

(** All offers of an event succeed, each subscriber hears it on its own
    channel and no other channel changes. *)
Lemma ts_offer_all ev subs : forall cs, NoDup ((fun p => sub_ch p.2) <$> subs) ->
  (forall p, p ∈ subs -> exists c, cs !! sub_ch p.2 = Some c /\ ch_closed c = false) ->
  exists cs', offer_all ev subs cs = Some cs' /\ length cs' = length cs /\
    (forall p, p ∈ subs -> cs' !! sub_ch p.2 = hear (sub_kind p.2) ev <$> cs !! sub_ch p.2) /\
    (forall i, (forall p, p ∈ subs -> sub_ch p.2 <> i) -> cs' !! i = cs !! i).
Proof.
  induction subs as [|[id sub] subs IH]; intros cs Hnd Ho; simpl.
  - exists cs. split_and!; try done. by intros p ?%elem_of_nil.
  - simpl in Hnd. apply NoDup_cons in Hnd as [Hni Hnd].
    destruct (Ho (id, sub)) as (c & Hc & Hcl); [by left |]. simpl in Hc.
    assert (forall p, p ∈ subs -> sub_ch p.2 <> sub_ch sub) as Hne.
    { intros p Hp E. apply Hni. simpl. rewrite <- E. by apply (list_elem_of_fmap_2 (fun p => sub_ch p.2)). }
    rewrite (ts_offer_to ev sub c) by done.
    destruct (IH (<[sub_ch sub := hear (sub_kind sub) ev c]> cs) Hnd) as (cs' & E & El & Hin & Hout).
    { intros p Hp. destruct (Ho p) as (c' & Hc' & Hcl'); [by right |]. exists c'.
      by rewrite list_lookup_insert_ne by (by apply not_eq_sym, Hne). }
    rewrite length_insert in El. exists cs'. split_and!; [done | done | |].
    + intros p [->|Hp]%elem_of_cons; simpl.
      * rewrite Hout by done. rewrite list_lookup_insert_eq by (by eapply lookup_lt_Some). by rewrite Hc.
      * rewrite Hin by done. by rewrite list_lookup_insert_ne by (by apply not_eq_sym, Hne).
    + intros i Hi. rewrite Hout by (intros p Hp; apply Hi; by right).
      apply list_lookup_insert_ne. apply (Hi (id, sub)). by left.
Qed.

(** Every subscriber has an open channel to itself. *)
Record wf (used : gset string) (s : TradeStream) : Prop := {
  wf_open : forall id sub, subscribers s !! id = Some sub ->
    exists c, chans s !! sub_ch sub = Some c /\ ch_closed c = false;
  wf_own : forall id id' sub sub', subscribers s !! id = Some sub -> subscribers s !! id' = Some sub' ->
    sub_ch sub = sub_ch sub' -> id = id';
  wf_used : forall id sub, subscribers s !! id = Some sub -> id ∈ used;
}.

(** The channel [i] of the subscriber [id]: registered while it is open,
    nobody's afterwards. *)
Definition track (id : string) (k : subKind) (i : nat) (s : TradeStream) (c : Chan) : Prop :=
  chans s !! i = Some c /\
  (if ch_closed c then subscribers s !! id = None /\ forall id' sub, subscribers s !! id' = Some sub -> sub_ch sub <> i
   else subscribers s !! id = Some (MkSub k i)).

Lemma ts_visit_event used (visit : Visit) ev (s : TradeStream) : wf used s -> (forall m, visit m ≡ₚ map_to_list m) ->
  exists cs, offer_all ev (visit (subscribers s)) (chans s) = Some cs /\
    wf used (MkStream (subscribers s) (activeBooks s) cs) /\
    forall id k i c, track id k i s c -> track id k i (MkStream (subscribers s) (activeBooks s) cs) (if ch_closed c then c else hear k ev c).
Proof.
  intros [W1 W2 W3] Hv.
  assert (forall p, p ∈ visit (subscribers s) <-> subscribers s !! p.1 = Some p.2) as Hp.
  { intros [id sub]. rewrite (Hv (subscribers s)). by rewrite elem_of_map_to_list. }
  destruct (ts_offer_all ev (visit (subscribers s)) (chans s)) as (cs & E & _ & Hin & Hout).
  - apply NoDup_fmap_2_strong.
    + intros [a sa] [b sb] Ha%Hp Hb%Hp E. simpl in *. assert (a = b) as -> by (by eapply W2). by rewrite Ha in Hb; injection Hb as ->.
    + rewrite (Hv (subscribers s)). apply NoDup_map_to_list.
  - intros p Hpp%Hp. by eapply W1.
  - exists cs. split; [done |]. split.
    + split; simpl; [| done | done]. intros id sub Hs. destruct (W1 _ _ Hs) as (c & Hc & Hcl).
      pose proof (Hin (id, sub) ltac:(by apply Hp)) as Eq. simpl in Eq. rewrite Eq, Hc. eexists. split; [reflexivity |]. by rewrite ts_hear_closed.
    + intros id k i c [Hc Ht]. destruct (ch_closed c) eqn:Hcl.
      * split; simpl; [| by rewrite Hcl]. rewrite Hout; [done |]. intros p Hpp%Hp. by eapply (proj2 Ht).
      * split; simpl; [| by rewrite ts_hear_closed, Hcl]. pose proof (Hin (id, MkSub k i) ltac:(by apply Hp)) as Eq. simpl in Eq. by rewrite Eq, Hc.
Qed.

Lemma ts_hear_id k ev c : ch_closed c = true -> hear k ev c = c.
Proof. unfold hear. simpl. intros ->. by destruct (wants k ev). Qed.

Lemma ts_solo_closed acts c : ch_closed c = true -> List.Forall (fun a => exists ev, a = SEvent ev) acts -> solo acts c = c.
Proof.
  intros Hc. revert c Hc. induction acts as [|a acts IH]; intros c Hc F; [done |].
  inversion F as [|? ? [ev ->] F' EE]; subst. simpl. rewrite Hc. by apply IH.
Qed.

Lemma ts_solo_events_closed k evs c : ch_closed c = true -> solo (SEvent <$> List.filter (wants k) evs) c = c.
Proof.
  intros Hc. apply ts_solo_closed; [done |]. apply List.Forall_forall. intros a Ha.
  apply in_map_iff in Ha as (ev & <- & _). by exists ev.
Qed.

Lemma ts_solo_hear k ev evs c : solo (SEvent <$> List.filter (wants k) (ev :: evs)) c =
  solo (SEvent <$> List.filter (wants k) evs) (hear k ev c).
Proof. unfold hear. simpl. by destruct (wants k ev). Qed.

Lemma ts_route used visit evs : visits_all visit -> forall s, wf used s ->
  exists s', route_events visit evs s = Some s' /\ wf used s' /\
    forall id k i c, track id k i s c -> track id k i s' (solo (SEvent <$> List.filter (wants k) evs) c).
Proof.
  intros Hv. induction evs as [|ev evs IH]; intros s W; simpl.
  - exists s. split_and!; [done | done |]. by intros.
  - destruct (ts_visit_event used (visit (length evs)) ev s W (Hv _)) as (cs & -> & W' & T).
    destruct (IH _ W') as (s' & E & W'' & T'). exists s'. split_and!; [done | done |]. intros id k i c Hc.
    apply T in Hc. apply T' in Hc. change (if wants k ev then ev :: _ else _) with (List.filter (wants k) (ev :: evs)).
    rewrite ts_solo_hear. destruct (ch_closed c) eqn:Hcl; [| done].
    rewrite ts_solo_events_closed in Hc by done. by rewrite ts_hear_id, ts_solo_events_closed.
Qed.

Definition used_after (used : gset string) (a : Action) : gset string :=
  match a with ASubscribe id _ => {[id]} ∪ used | _ => used end.

Lemma ts_subscribe used id kind (s : TradeStream) : wf used s -> id ∉ used -> wf ({[id]} ∪ used) (Subscribe id kind s).
Proof.
  intros [W1 W2 W3] Hf. assert (forall id' sub, subscribers s !! id' = Some sub -> (sub_ch sub < length (chans s))%nat) as Hlt.
  { intros id' sub (c & Hc & _)%W1. by eapply lookup_lt_Some. }
  split; simpl.
  - intros id' sub [[<- <-]|[Hne Hs]]%lookup_insert_Some; simpl.
    + eexists. by rewrite list_lookup_middle.
    + destruct (W1 _ _ Hs) as (c & Hc & Ho). exists c. split; [by apply lookup_app_l_Some | done].
  - intros a b sa sb [[<- <-]|[Hna Ha]]%lookup_insert_Some [[<- <-]|[Hnb Hb]]%lookup_insert_Some E; simpl in E; [done | | |].
    + apply Hlt in Hb. lia.
    + apply Hlt in Ha. lia.
    + by eapply W2.
  - intros id' sub [[<- <-]|[Hne Hs]]%lookup_insert_Some; [set_solver |]. apply W3 in Hs. set_solver.
Qed.

Lemma ts_unsubscribe used id (s : TradeStream) : wf used s -> exists s', Unsubscribe id s = Some s' /\ wf used s' /\
  forall id' k i c, track id' k i s c -> track id' k i s' (solo (if bool_decide (id = id') then [SClose] else []) c).
Proof.
  intros [W1 W2 W3]. unfold Unsubscribe. destruct (subscribers s !! id) as [sub|] eqn:Hs.
  - destruct (W1 _ _ Hs) as (c & Hc & Ho). rewrite Hc, Ho. eexists. split; [reflexivity |]. split.
    + split; simpl.
      * intros id' sub' [Hne Hs']%lookup_delete_Some. destruct (W1 _ _ Hs') as (x & Hx & Hxo). exists x.
        rewrite list_lookup_insert_ne; [done |]. intros E. apply Hne. by eapply W2.
      * intros a b sa sb [_ Ha]%lookup_delete_Some [_ Hb]%lookup_delete_Some. by eapply W2.
      * intros id' sub' [_ Hs']%lookup_delete_Some. by eapply W3.
    + intros id' k i x [Hx Ht]. destruct (decide (id = id')) as [<-|Hne].
      * rewrite bool_decide_eq_true_2 by done. simpl. destruct (ch_closed x) eqn:Hxc; [destruct Ht; congruence |].
        rewrite Hs in Ht. injection Ht as ->. simpl in *. rewrite Hc in Hx. injection Hx as <-. split; simpl.
        -- by rewrite list_lookup_insert_eq by (by eapply lookup_lt_Some).
        -- split; [by rewrite lookup_delete_eq |]. intros id' sub' [Hne Hs']%lookup_delete_Some E. apply Hne.
           by eapply (W2 id id' (MkSub k i) sub').
      * rewrite bool_decide_eq_false_2 by done. simpl. split; simpl.
        -- rewrite list_lookup_insert_ne; [done |]. intros <-. destruct (ch_closed x) eqn:Hxc.
           ++ by eapply (proj2 Ht).
           ++ apply Hne. by eapply (W2 id id' sub).
        -- destruct (ch_closed x) eqn:Hxc; [| by rewrite lookup_delete_ne]. destruct Ht as [H1 H2].
           split; [by rewrite lookup_delete_ne |]. intros a sa [_ Ha]%lookup_delete_Some. by eapply H2.
  - exists s. split_and!; [done | by split |]. intros id' k i x Hx. case_bool_decide as E; [| done]. subst id'. simpl.
    destruct Hx as [Hx Ht]. destruct (ch_closed x) eqn:Hxc; [| congruence]. split; simpl; [| done].
    destruct x as [b cl t]. simpl in *. by subst cl.
Qed.

Lemma ts_read used i (s : TradeStream) : wf used s -> wf used (read i s) /\
  forall id k j c, track id k j s c -> track id k j (read i s) (solo (if bool_decide (i = j) then [SRead] else []) c).
Proof.
  intros [W1 W2 W3]. assert (forall c, ch_closed (take_one c) = ch_closed c) as Ht by (intros c; unfold take_one; by destruct (ch_buf c)).
  split.
  - split; simpl; [| done | done]. intros id sub Hs. destruct (W1 _ _ Hs) as (x & Hx & Ho).
    destruct (decide (i = sub_ch sub)) as [->|Hne].
    + exists (take_one x). rewrite list_lookup_alter_eq, Hx. split; [done |]. by rewrite Ht.
    + exists x. by rewrite list_lookup_alter_ne.
  - intros id k j c [Hc Hk]. destruct (decide (i = j)) as [->|Hne].
    + rewrite bool_decide_eq_true_2 by done. simpl. split; simpl; [by rewrite list_lookup_alter_eq, Hc | by rewrite Ht].
    + rewrite bool_decide_eq_false_2 by done. simpl. split; simpl; [by rewrite list_lookup_alter_ne | done].
Qed.

Lemma ts_step used a (s : TradeStream) : wf used s -> fresh_act used a ->
  exists s', stream_step a s = Some s' /\ wf (used_after used a) s' /\
    forall id k i c, id ∈ used -> track id k i s c -> track id k i s' (solo (view id k i a) c).
Proof.
  intros W F. destruct a as [books|visit data book|id kind|id|i]; simpl in *.
  - eexists. split; [reflexivity |]. unfold Start. destruct (start_books books (activeBooks s)) as [st ac]. simpl.
    destruct W. split; [by split |]. by intros.
  - unfold routeTrade. destruct (ts_route used visit (data_events book data) F s W) as (s' & E & W' & T).
    exists s'. split_and!; [done | done |]. intros. by apply T.
  - eexists. split; [reflexivity |]. split; [by apply ts_subscribe |]. intros id' k i c Hu [Hc Ht]. split; simpl.
    + by apply lookup_app_l_Some.
    + assert (id' <> id) by (intros ->; done). destruct (ch_closed c).
      * destruct Ht as [H1 H2]. split; [by rewrite lookup_insert_ne |].
        intros a sa [[<- <-]|[_ Ha]]%lookup_insert_Some; [| by eapply H2]. simpl. apply lookup_lt_Some in Hc. lia.
      * by rewrite lookup_insert_ne.
  - destruct (ts_unsubscribe used id s W) as (s' & E & W' & T). exists s'. split_and!; [done | done |]. intros. by apply T.
  - eexists. split; [reflexivity |]. split; [by apply ts_read |]. intros. by apply (ts_read used i s W).
Qed.

Lemma ts_wf_init : wf ∅ NewTradeStream.
Proof. by split. Qed.

Lemma ts_run used acts : forall s : TradeStream, wf used s -> sane used acts ->
  exists s', stream_run acts s = Some s' /\ wf (foldl used_after used acts) s' /\
    forall id k i c, id ∈ used -> track id k i s c -> track id k i s' (solo (acts ≫= view id k i) c).
Proof.
  revert used. induction acts as [|a acts IH]; intros used s W S; simpl.
  - exists s. split_and!; [done | done |]. by intros.
  - destruct S as [F S]. destruct (ts_step used a s W F) as (s1 & -> & W1 & T1).
    destruct (IH (used_after used a) s1 W1) as (s2 & E2 & W2 & T2); [by destruct a |].
    exists s2. split_and!; [done | done |]. intros id k i c Hu Ht. unfold solo. rewrite foldl_app.
    apply T2; [destruct a; simpl; set_solver |]. by apply T1.
Qed.

(** The queue of a subscriber alone: bounded, and what it lets through is a
    subsequence of what was offered. *)
Definition solo_events (acts : list Solo) : list TradeEvent :=
  omap (fun a => match a with SEvent ev => Some ev | _ => None end) acts.

Lemma ts_solo_bounds acts c : (length (ch_buf c) <= ch_cap)%nat ->
  (length (ch_buf (solo acts c)) <= ch_cap)%nat /\
  exists kept, ch_taken (solo acts c) ++ ch_buf (solo acts c) = (ch_taken c ++ ch_buf c) ++ kept /\
    kept `sublist_of` solo_events acts.
Proof.
  revert c. induction acts as [|a acts IH]; intros c Hc; simpl.
  - split; [done |]. exists []. by rewrite app_nil_r.
  - destruct (IH (solo_step c a)) as (Hb & kept & E & S).
    { destruct a as [ev| |]; simpl; [| unfold take_one | done].
      - destruct (ch_closed c); [done |]. destruct (Nat.ltb_spec (length (ch_buf c)) ch_cap); simpl; [| done].
        rewrite length_app. simpl. lia.
      - destruct (ch_buf c) eqn:Eb; simpl in *; [by rewrite Eb | lia]. }
    split; [done |]. fold (solo acts (solo_step c a)) in *. destruct a as [ev| |]; simpl in *.
    + destruct (ch_closed c); [exists kept; split; [done | by apply sublist_cons] |].
      destruct (length (ch_buf c) <? ch_cap)%nat; simpl in *.
      * exists (ev :: kept). split; [| by apply sublist_skip]. rewrite E. by rewrite <- !app_assoc.
      * exists kept. split; [done | by apply sublist_cons].
    + exists kept. split; [| done]. rewrite E. unfold take_one. destruct (ch_buf c) eqn:Eb; simpl; [by rewrite Eb |].
      by rewrite <- !app_assoc.
    + by exists kept.
Qed.

(** C21: the router never panics, and every subscriber is served as if it were
    alone.  From a fresh stream, whatever messages, subscriptions, closings
    and reads follow, and in whatever order the subscribers are visited, no
    closed channel is sent to or closed again; the channel given out by a
    subscription ends exactly in the state of a single queue of a hundred
    places that was fed, in order, with the trades matching its trader or its
    book: other subscribers, slow or gone, never cost it an event. *)
Theorem trade_router_isolation (acts rest : list Action) (id : string) (k : subKind) :
  sane ∅ (acts ++ ASubscribe id k :: rest) ->
  exists s s', stream_run acts NewTradeStream = Some s /\
    stream_run (acts ++ ASubscribe id k :: rest) NewTradeStream = Some s' /\
    let i := length (chans s) in
    let mine := rest ≫= view id k i in
    let c := solo mine (MkChan [] false []) in
    chans s' !! i = Some c /\ (length (ch_buf c) <= ch_cap)%nat /\
    (ch_taken c ++ ch_buf c) `sublist_of` solo_events mine.
Proof.
  intros S.
  assert (forall us l, sane us (l ++ ASubscribe id k :: rest) ->
    sane us l /\ fresh_act (foldl used_after us l) (ASubscribe id k) /\ sane ({[id]} ∪ foldl used_after us l) rest) as Hs.
  { intros us l. revert us. induction l as [|a l IHl]; intros us; simpl; [by intros [? ?] |].
    intros [Hf Hl]. apply IHl in Hl as (H1 & H2 & H3). by destruct a. }
  apply Hs in S as (S1 & F & S2). destruct (ts_run ∅ acts NewTradeStream ts_wf_init S1) as (s & E & W & _).
  destruct (ts_step _ (ASubscribe id k) s W F) as (s1 & [= <-] & W1 & _).
  destruct (ts_run _ rest (Subscribe id k s) W1 S2) as (s' & E' & _ & T).
  exists s, s'. split; [done |]. split.
  { clear -E E'. revert E. generalize NewTradeStream. induction acts as [|a acts IH]; intros s0 E; simpl in *.
    - by injection E as ->.
    - destruct (stream_step a s0); [by apply IH | done]. }
  destruct (T id k (length (chans s)) (MkChan [] false [])) as [Hc _].
  { cbn [used_after]. by apply elem_of_union_l, elem_of_singleton. }
  { split; simpl; [by rewrite list_lookup_middle | by rewrite lookup_insert_eq]. }
  split; [exact Hc |].
  destruct (ts_solo_bounds (rest ≫= view id k (length (chans s))) (MkChan [] false []) ltac:(simpl; unfold ch_cap; lia)) as (Hb & kept & Ek & Sk).
  split; [done |]. rewrite Ek. by simpl.
Qed.

(** No book ever gets a second reader, however often [Start] is called; a book
    whose reader has ended is not read again. *)
Lemma ts_start_books books : forall active, let '(started, active') := start_books books active in
  NoDup started /\ (forall b, b ∈ started <-> b ∈ books /\ b ∉ active) /\ forall b, b ∈ active' <-> b ∈ active \/ b ∈ books.
Proof.
  induction books as [|b books IH]; intros active; simpl.
  - split_and!; [constructor | |]; intros x; rewrite elem_of_nil; tauto.
  - case_bool_decide as Hb.
    + specialize (IH active). destruct (start_books books active) as [st ac]. destruct IH as (H1 & H2 & H3).
      split_and!; [done | |]; intros x; rewrite elem_of_cons, ?H2, ?H3; assert (x = b -> x ∈ active) by (by intros ->); tauto.
    + specialize (IH ({[b]} ∪ active)). destruct (start_books books ({[b]} ∪ active)) as [st ac].
      destruct IH as (H1 & H2 & H3). split_and!.
      * constructor; [rewrite H2, elem_of_union, elem_of_singleton; tauto | done].
      * intros x. rewrite !elem_of_cons, H2, elem_of_union, elem_of_singleton. assert (x = b -> x ∉ active) by (by intros ->). destruct (decide (x = b)); tauto.
      * intros x. rewrite H3, elem_of_cons, elem_of_union, elem_of_singleton. tauto.
Qed.
End TradeStream.

(** ** A concrete run *)

Section Example_.
#[local] Existing Instance RefDec.

Definition demo_parse (s : string) : result string := Ok s.
Definition demo_visit : nat -> Visit := fun _ m => map_to_list m.

Definition demo_entry (trader quantity : string) : Entry := Some (list_to_map
  [("user_id", JString trader); ("asset_0", JString "bond"); ("transaction_id", JString "tx"); ("side", JString "BUY");
   ("price", JString "99"); ("quantity_0", JString quantity)]).

Definition demo_before : list Action := [ASubscribe "s0" (subKindOrderBook "book")].
Definition demo_after : list Action :=
  [ARoute demo_visit (DArray [demo_entry "alice" "1"; demo_entry "bob" "2"; None]) "book"; ARead 1;
   AUnsubscribe "s0"; ARoute demo_visit (DSingle (demo_entry "alice" "3")) "book"; AUnsubscribe "s1"].

Lemma trade_router_isolation_witness :
  sane ∅ (demo_before ++ ASubscribe "s1" (subKindTrader "alice") :: demo_after) /\
  exists s, stream_run demo_parse (demo_before ++ ASubscribe "s1" (subKindTrader "alice") :: demo_after) NewTradeStream = Some s.
Proof.
  assert (sane ∅ (demo_before ++ ASubscribe "s1" (subKindTrader "alice") :: demo_after)) as S.
  { unfold demo_visit. simpl. unfold visits_all. split_and!; try done; set_solver. }
  split; [exact S |].
  destruct (trade_router_isolation demo_parse demo_before demo_after "s1" (subKindTrader "alice") S) as (s & s' & _ & E & _).
  by exists s'.
Defined.

(** Trades after the reader fell a hundred behind are dropped for it alone. *)
Example demo_channels :
  (fun s => (fun c => (length (ch_buf c), ch_closed c, length (ch_taken c))) <$> chans s) <$>
    stream_run demo_parse (demo_before ++ ASubscribe "s1" (subKindTrader "alice") ::
      ARoute demo_visit (DArray (replicate 120 (demo_entry "alice" "1"))) "book" :: ARead 1 :: demo_after) NewTradeStream =
  Some [(100%nat, true, 0%nat); (100%nat, true, 2%nat)].
Proof. vm_compute. reflexivity. Qed.
End Example_.
