(* ===== verification/GoStrings.v ===== *)
(** * What the program uses of Go's package strings

    [strings.Split] on one byte, [strings.TrimSpace] (of the white space of
    ASCII; the program trims header values and its own configuration),
    [strings.HasPrefix] and the search for a substring. *)

From S2P Require Import Prelude.
From Stdlib Require Import Ascii.

(** [strings.Split(s, sep)] for a separator of one byte. *)
Fixpoint Split (sep : ascii) (s : string) : list string :=
  match s with
  | EmptyString => [EmptyString]
  | String c rest =>
      if Ascii.eqb c sep then EmptyString :: Split sep rest
      else match Split sep rest with
           | w :: ws => String c w :: ws
           | [] => [String c EmptyString]
           end
  end.

Definition is_space (c : ascii) : bool :=
  let n := nat_of_ascii c in ((9 <=? n) && (n <=? 13) || (n =? 32))%nat.

Fixpoint trim_left (s : string) : string :=
  match s with String c rest => if is_space c then trim_left rest else s | EmptyString => EmptyString end.

Fixpoint trim_right (s : string) : string :=
  match s with
  | EmptyString => EmptyString
  | String c rest =>
      match trim_right rest with
      | EmptyString => if is_space c then EmptyString else String c EmptyString
      | r => String c r
      end
  end.

Definition TrimSpace (s : string) : string := trim_right (trim_left s).

Definition HasPrefix (s p : string) : bool := String.prefix p s.
Definition TrimPrefix (s p : string) : string :=
  if HasPrefix s p then String.substring (String.length p) (String.length s - String.length p) s else s.

(** What follows the first occurrence of [p], if there is one. *)
Fixpoint after_first (p s : string) : option string :=
  if String.prefix p s then Some (String.substring (String.length p) (String.length s) s)
  else match s with String _ rest => after_first p rest | EmptyString => None end.

(** ** Lemmas *)

Definition no_sep (sep : ascii) (s : string) : Prop := sep ∉ String.list_ascii_of_string s.

(** A list written with separators. *)
Fixpoint join (sep : ascii) (ws : list string) : string :=
  match ws with
  | [] => EmptyString
  | [w] => w
  | w :: rest => (w ++ String sep (join sep rest))%string
  end.

Lemma Split_no_sep sep s : no_sep sep s -> Split sep s = [s].
Proof.
  unfold no_sep. induction s as [|c s IH]; simpl; [done |]. intros [Hc Hs]%not_elem_of_cons.
  destruct (Ascii.eqb_spec c sep) as [->|_]; [done |]. by rewrite IH.
Qed.

Lemma Split_sep sep w s : no_sep sep w -> Split sep (w ++ String sep s)%string = w :: Split sep s.
Proof.
  unfold no_sep. induction w as [|c w IH]; simpl; [by rewrite Ascii.eqb_refl |].
  intros [Hc Hw]%not_elem_of_cons. destruct (Ascii.eqb_spec c sep) as [->|_]; [done |]. by rewrite IH.
Qed.

(** Splitting undoes joining. *)
Lemma Split_join sep ws : ws <> [] -> Forall (no_sep sep) ws -> Split sep (join sep ws) = ws.
Proof.
  intros Hne F. induction F as [|w ws Hw F IH]; [done |]. destruct ws as [|w' ws]; [by apply Split_no_sep |].
  change (join sep (w :: w' :: ws)) with (w ++ String sep (join sep (w' :: ws)))%string.
  rewrite Split_sep by done. by rewrite IH.
Qed.

(** A word without white space at its ends. *)
Definition trimmed (s : string) : Prop := TrimSpace s = s.

#[export] Instance trimmed_dec s : base.Decision (trimmed s).
Proof. unfold trimmed. solve_decision. Defined.
