(* ===== verification/Notifications.v ===== *)
(** * notifications: the event stream of a user

    [log.go] (the persisted log and its replay query), [notifier.go] (the bus
    that publishes), [hub.go] (the fan-out to live subscriptions) and the
    streaming part of [handler.go], as one transition system: every publisher
    and every connection is a goroutine with a program point, a step is one
    statement that touches shared state.  Broadcasts hold the hub's read lock,
    subscribing and removing its write lock, so each is one step.  The table
    is the list of its rows, [Replay] the meaning of its SQL; UUIDs are
    canonical, so that their order is that of the strings; payloads are JSON
    text.  Accepting the websocket and authentication are outside.

    Theory: no send ever meets a closed channel; a connection carries its own
    user's events only and writes exactly the replayed history and then the
    allowed live events; an event published while a connection is live and
    asks for it is written, waits, or was dropped at a full channel, and one
    logged before it subscribed is in its replay. *)

From S2P Require Import Prelude GoTime GoStrings.
From Stdlib Require Import Ascii.

Section Notifications.
(** google/uuid: the canonical form of an id. *)
Context (uuid_parse : string -> result string).

Record Event := MkEvent {
  ev_ID : string; ev_Type : string; ev_UserID : string;
  ev_RunID : string; ev_BacktestID : string; ev_Timestamp : Time; ev_Payload : string;
}.

#[export] Instance Event_eq_dec : EqDecision Event.
Proof. solve_decision. Defined.

(** ** The log *)

(** A nullable uuid column: an id that does not parse is stored as null. *)
Definition optional_id (s : string) : string :=
  if bool_decide (s = EmptyString) then EmptyString
  else match uuid_parse s with Ok v => v | Err _ => EmptyString end.

(** A column without time zone holds microseconds. *)
Definition to_micros (t : Time) : Time := MkTime (t_ns t / 1000 * 1000) 0.

(** The row of an event, as [Replay] gives it back. *)
Definition row (id : string) (evt : Event) : Event :=
  MkEvent id (ev_Type evt) (ev_UserID evt) (optional_id (ev_RunID evt)) (optional_id (ev_BacktestID evt))
    (to_micros (ev_Timestamp evt)) (ev_Payload evt).

(** [PGLog.Insert]; the id is the primary key. *)
Definition Insert (db_ok : bool) (evt : Event) (rows : list Event) : result unit * list Event :=
  match uuid_parse (ev_ID evt) with
  | Err e => (Err (ErrWrap "invalid event id" e), rows)
  | Ok id =>
      if negb db_ok || bool_decide (id ∈ ev_ID <$> rows) then (Err (ErrMsg "insert log"), rows)
      else (Ok tt, rows ++ [row id evt])
  end.

(** [order by id] *)
Fixpoint insert_by_id (e : Event) (l : list Event) : list Event :=
  match l with
  | [] => [e]
  | x :: rest => if String.ltb (ev_ID e) (ev_ID x) then e :: l else x :: insert_by_id e rest
  end.
Definition order_by_id (l : list Event) : list Event := foldr insert_by_id [] l.

Definition matches (userID : string) (after : option string) (e : Event) : bool :=
  bool_decide (ev_UserID e = userID) && match after with None => true | Some a => String.ltb a (ev_ID e) end.

(** [PGLog.Replay] *)
Definition Replay (db_ok : bool) (userID afterID : string) (limit : Z) (rows : list Event) : result (list Event) :=
  let limit := if (limit <=? 0) || (1000 <? limit) then 1000 else limit in
  let query (after : option string) :=
    if db_ok then Ok (take (Z.to_nat limit) (order_by_id (List.filter (matches userID after) rows)))
    else Err (ErrMsg "replay log") in
  if bool_decide (afterID = EmptyString) then query None
  else match uuid_parse afterID with
       | Err e => Err (ErrWrap "invalid Last-Event-ID" e)
       | Ok a => query (Some a)
       end.

(** [DeleteOlderThan]: the rows that stay and those that go. *)
Definition DeleteOlderThan (cutoff : Time) (rows : list Event) : list Event * list Event :=
  (List.filter (fun e => negb (time_before (ev_Timestamp e) cutoff)) rows,
   List.filter (fun e => time_before (ev_Timestamp e) cutoff) rows).

(** ** Hub, bus and connections *)

(** [subscription]: its user, the channel, and (for the theorems) the events
    that found room in it and those that did not, each with what was waiting
    in the channel then. *)
Record Sub := MkSub {
  sb_user : string; sb_buf : list Event; sb_closed : bool;
  sb_heard : list Event; sb_dropped : list (Event * list Event);
}.

(** [Publish]: before each of its three statements, and done; [p_logged]: the
    insert succeeded. *)
Inductive PubPc := PInsert | PCache | PBroadcast | PDone.

#[export] Instance PubPc_eq_dec : EqDecision PubPc.
Proof. solve_decision. Defined.

Record Pub := MkPub { p_evt : Event; p_pc : PubPc; p_logged : bool }.

(** [ServeHTTP] after its subscription: before the replay query, writing the
    history, in the live loop, in the deferred [Close], gone. *)
Inductive ConnPc := HReplay | HHistory (rest : list Event) | HLive | HRemove | HClose | HDone.
Record Conn := MkConn {
  h_user : string; h_last : string; h_types : string; h_sub : nat; h_pc : ConnPc;
  h_history : option (list Event);     (* what the replay query returned *)
  h_got : list Event;                  (* received from the channel *)
  h_written : list Event;              (* written to the socket *)
  h_before : list bool;                (* for the theorems: which publications had ended when it subscribed *)
}.

Record Bus := MkBus {
  rows : list Event; pruned : list Event;
  replay : gmap string (list Event);
  users : gmap string (gset nat); hub_closed : bool;
  subs : list Sub; pubs : list Pub; conns : list Conn;
  crashed : bool;                      (* a send on a closed channel *)
}.

Definition NewBus : Bus := MkBus [] [] ∅ ∅ false [] [] [] false.
Definition defaultSubscriberBuffer : nat := 256.
Definition replayN : nat := 1024.
Definition replayLimit : Z := 1000.

(** [Hub.Subscribe] *)
Definition Subscribe (userID : string) (s : Bus) : option Bus :=
  if hub_closed s then None
  else Some (MkBus (rows s) (pruned s) (replay s)
               (<[userID := {[length (subs s)]} ∪ default ∅ (users s !! userID)]> (users s)) (hub_closed s)
               (subs s ++ [MkSub userID [] false [] []]) (pubs s) (conns s) (crashed s)).

(** [subscription.deliver] on an open channel. *)
Definition deliver (evt : Event) (sb : Sub) : Sub :=
  if (length (sb_buf sb) <? defaultSubscriberBuffer)%nat
  then MkSub (sb_user sb) (sb_buf sb ++ [evt]) (sb_closed sb) (sb_heard sb ++ [evt]) (sb_dropped sb)
  else MkSub (sb_user sb) (sb_buf sb) (sb_closed sb) (sb_heard sb) (sb_dropped sb ++ [(evt, sb_buf sb)]).

Definition members (userID : string) (s : Bus) : gset nat := default ∅ (users s !! userID).

(** [Hub.Broadcast]: every subscription of the user, in some order. *)
Definition broadcast_sub (evt : Event) (s : Bus) (i : nat) (sb : Sub) : Sub :=
  if bool_decide (i ∈ members (ev_UserID evt) s) && negb (sb_closed sb) then deliver evt sb else sb.
Definition Broadcast (evt : Event) (s : Bus) : Bus :=
  if hub_closed s then s
  else MkBus (rows s) (pruned s) (replay s) (users s) (hub_closed s) (imap (broadcast_sub evt s) (subs s)) (pubs s) (conns s)
         (crashed s || bool_decide (set_Exists (fun i => (sb_closed <$> subs s !! i) = Some true) (members (ev_UserID evt) s))).

(** [Hub.remove] *)
Definition remove (userID : string) (i : nat) (s : Bus) : gmap string (gset nat) :=
  match users s !! userID with
  | Some set => let set' := set ∖ {[i]} in
                if bool_decide (set' = ∅) then delete userID (users s) else <[userID := set']> (users s)
  | None => users s
  end.

(** [Bus.cacheForReplay] *)
Definition cacheForReplay (evt : Event) (m : gmap string (list Event)) : gmap string (list Event) :=
  <[ev_UserID evt := lastn replayN (default [] (m !! ev_UserID evt) ++ [evt])]> m.

(** [typeAllowed] *)
Definition typeAllowed (filter t : string) : bool :=
  bool_decide (filter = EmptyString) || existsb (fun want => bool_decide (TrimSpace want = t)) (Split ","%char filter).

Definition with_pubs (pubs : list Pub) (s : Bus) : Bus :=
  MkBus (rows s) (pruned s) (replay s) (users s) (hub_closed s) (subs s) pubs (conns s) (crashed s).
Definition with_conns (conns : list Conn) (s : Bus) : Bus :=
  MkBus (rows s) (pruned s) (replay s) (users s) (hub_closed s) (subs s) (pubs s) conns (crashed s).

(** A step of publisher [p]. *)
Definition publish_step (p : nat) (db_ok : bool) (s : Bus) : option Bus :=
  match pubs s !! p with
  | None => None
  | Some (MkPub evt pc logged) =>
      match pc with
      | PInsert =>
          let '(r, rows') := Insert db_ok evt (rows s) in
          Some (MkBus rows' (pruned s) (replay s) (users s) (hub_closed s) (subs s)
                  (<[p := MkPub evt PCache (is_ok r)]> (pubs s)) (conns s) (crashed s))
      | PCache =>
          Some (MkBus (rows s) (pruned s) (cacheForReplay evt (replay s)) (users s) (hub_closed s) (subs s)
                  (<[p := MkPub evt PBroadcast logged]> (pubs s)) (conns s) (crashed s))
      | PBroadcast => Some (with_pubs (<[p := MkPub evt PDone logged]> (pubs s)) (Broadcast evt s))
      | PDone => None
      end
  end.

Definition set_pc (pc : ConnPc) (c : Conn) : Conn :=
  MkConn (h_user c) (h_last c) (h_types c) (h_sub c) pc (h_history c) (h_got c) (h_written c) (h_before c).

(** A connection subscribes; without a [Last-Event-ID] it goes live at once. *)
Definition connect (userID last types : string) (s : Bus) : option Bus :=
  match Subscribe userID s with
  | None => None
  | Some s' =>
      let pc := if bool_decide (last = EmptyString) then HLive else HReplay in
      Some (with_conns (conns s ++ [MkConn userID last types (length (subs s)) pc None [] []
        ((fun x => bool_decide (p_pc x = PDone)) <$> pubs s)]) s')
  end.

(** The replay query. *)
Definition replay_query (db_ok : bool) (rows : list Event) (c : Conn) : Conn :=
  match Replay db_ok (h_user c) (h_last c) replayLimit rows with
  | Err _ => set_pc HLive c
  | Ok history => MkConn (h_user c) (h_last c) (h_types c) (h_sub c) (HHistory history) (Some history) (h_got c) (h_written c) (h_before c)
  end.

(** One write of the history, or the end of it. *)
Definition write_history (ok : bool) (c : Conn) : option Conn :=
  match h_pc c with
  | HHistory [] => Some (set_pc HLive c)
  | HHistory (evt :: rest) =>
      if ok then Some (MkConn (h_user c) (h_last c) (h_types c) (h_sub c) (HHistory rest) (h_history c) (h_got c) (h_written c ++ [evt]) (h_before c))
      else Some (set_pc HRemove c)
  | _ => None
  end.

(** The live loop takes [evt] from its channel. *)
Definition handle_event (ok : bool) (evt : Event) (c : Conn) : Conn :=
  if negb (typeAllowed (h_types c) (ev_Type evt)) then
    MkConn (h_user c) (h_last c) (h_types c) (h_sub c) HLive (h_history c) (h_got c ++ [evt]) (h_written c) (h_before c)
  else if ok then
    MkConn (h_user c) (h_last c) (h_types c) (h_sub c) HLive (h_history c) (h_got c ++ [evt]) (h_written c ++ [evt]) (h_before c)
  else MkConn (h_user c) (h_last c) (h_types c) (h_sub c) HRemove (h_history c) (h_got c ++ [evt]) (h_written c) (h_before c).

Definition receive (k : nat) (ok : bool) (s : Bus) : option Bus :=
  match conns s !! k with
  | Some c =>
      match h_pc c, subs s !! h_sub c with
      | HLive, Some sb =>
          match sb_buf sb with
          | evt :: rest =>
              Some (MkBus (rows s) (pruned s) (replay s) (users s) (hub_closed s)
                      (<[h_sub c := MkSub (sb_user sb) rest (sb_closed sb) (sb_heard sb) (sb_dropped sb)]> (subs s))
                      (pubs s) (<[k := handle_event ok evt c]> (conns s)) (crashed s))
          | [] => if sb_closed sb then Some (with_conns (<[k := set_pc HRemove c]> (conns s)) s) else None
          end
      | _, _ => None
      end
  | None => None
  end.

(** The deferred [subscription.Close]: first out of the hub, then the channel. *)
Definition close_step (k : nat) (s : Bus) : option Bus :=
  match conns s !! k with
  | Some c =>
      match h_pc c, subs s !! h_sub c with
      | HRemove, Some sb =>
          Some (MkBus (rows s) (pruned s) (replay s) (remove (sb_user sb) (h_sub c) s) (hub_closed s) (subs s)
                  (pubs s) (<[k := set_pc HClose c]> (conns s)) (crashed s))
      | HClose, Some sb =>
          Some (MkBus (rows s) (pruned s) (replay s) (users s) (hub_closed s)
                  (<[h_sub c := MkSub (sb_user sb) (sb_buf sb) true (sb_heard sb) (sb_dropped sb)]> (subs s))
                  (pubs s) (<[k := set_pc HDone c]> (conns s)) (crashed s))
      | _, _ => None
      end
  | None => None
  end.

Inductive Action :=
  | APublish (evt : Event)                      (* a producer calls Publish *)
  | APublishStep (p : nat) (db_ok : bool)
  | AConnect (userID last types : string)
  | AReplay (k : nat) (db_ok : bool)
  | AWrite (k : nat) (ok : bool)
  | AReceive (k : nat) (ok : bool)
  | ADone (k : nat)                             (* the request's context ends *)
  | AClose (k : nat)
  | AHubClose
  | APrune (cutoff : Time).

Definition bus_step (a : Action) (s : Bus) : option Bus :=
  match a with
  | APublish evt => Some (with_pubs (pubs s ++ [MkPub evt PInsert false]) s)
  | APublishStep p db_ok => publish_step p db_ok s
  | AConnect userID last types => connect userID last types s
  | AReplay k db_ok =>
      match conns s !! k with
      | Some c => match h_pc c with
                  | HReplay => Some (with_conns (<[k := replay_query db_ok (rows s) c]> (conns s)) s)
                  | _ => None
                  end
      | None => None
      end
  | AWrite k ok =>
      match conns s !! k with
      | Some c => match write_history ok c with Some c' => Some (with_conns (<[k := c']> (conns s)) s) | None => None end
      | None => None
      end
  | AReceive k ok => receive k ok s
  | ADone k =>
      match conns s !! k with
      | Some c => match h_pc c with HLive => Some (with_conns (<[k := set_pc HRemove c]> (conns s)) s) | _ => None end
      | None => None
      end
  | AClose k => close_step k s
  | AHubClose => Some (MkBus (rows s) (pruned s) (replay s) (users s) true (subs s) (pubs s) (conns s) (crashed s))
  | APrune cutoff =>
      let '(kept, gone) := DeleteOlderThan cutoff (rows s) in
      Some (MkBus kept (pruned s ++ gone) (replay s) (users s) (hub_closed s) (subs s) (pubs s) (conns s) (crashed s))
  end.

Fixpoint bus_run (acts : list Action) (s : Bus) : option Bus :=
  match acts with
  | [] => Some s
  | a :: rest => match bus_step a s with Some s' => bus_run rest s' | None => None end
  end.

(** ** Theory: the replay query *)

Lemma nt_insert_by_id e l : insert_by_id e l ≡ₚ e :: l.
Proof.
  induction l as [|x l IH]; simpl; [done |]. destruct (String.ltb _ _); [done |]. rewrite IH. by constructor.
Qed.

Lemma nt_order_by_id l : order_by_id l ≡ₚ l.
Proof. induction l as [|e l IH]; simpl; [done |]. by rewrite nt_insert_by_id, IH. Qed.

Lemma nt_replay ok user last limit rs h : Replay ok user last limit rs = Ok h ->
  Forall (fun e => ev_UserID e = user) h /\
  forall e, e ∈ rs -> ev_UserID e = user -> (length h < Z.to_nat (if (limit <=? 0)%Z || (1000 <? limit)%Z then 1000%Z else limit))%nat ->
    e ∈ h \/ exists a, uuid_parse last = Ok a /\ String.ltb a (ev_ID e) = false.
Proof.
  set (n := Z.to_nat _). assert (forall after, take n (order_by_id (List.filter (matches user after) rs)) = h ->
    Forall (fun e => ev_UserID e = user) h /\
    forall e, e ∈ rs -> matches user after e = true -> (length h < n)%nat -> e ∈ h) as K.
  { intros after <-. split.
    - apply Forall_take. rewrite nt_order_by_id. apply List.Forall_forall. intros e He. apply filter_In in He as [_ He].
      unfold matches in He. apply andb_prop in He as [He _]. by apply bool_decide_eq_true_1 in He.
    - intros e He Hm Hl. rewrite length_take in Hl. rewrite take_ge by lia. rewrite nt_order_by_id.
      apply list_elem_of_In, filter_In. by rewrite <- list_elem_of_In. }
  unfold Replay. fold n. unfold matches in K. case_bool_decide.
  - destruct ok; [| done]. intros [= E]. destruct (K None E) as [K1 K2]. split; [done |]. intros e He Hu Hl. left.
    apply K2; [done | | done]. by rewrite bool_decide_eq_true_2.
  - destruct (uuid_parse last) as [a|] eqn:Ea; [| done]. destruct ok; [| done]. intros [= E].
    destruct (K (Some a) E) as [K1 K2]. split; [done |]. intros e He Hu Hl. destruct (String.ltb a (ev_ID e)) eqn:El.
    + left. apply K2; [done | | done]. by rewrite bool_decide_eq_true_2, El.
    + right. by exists a.
Qed.

(** ** Theory: the invariant *)

Definition streaming (pc : ConnPc) : bool :=
  match pc with HReplay | HHistory _ | HLive => true | _ => false end.

(** Publication [p] had ended when the connection subscribed. *)
Definition ended_before (c : Conn) (p : nat) : bool := default false (h_before c !! p).

(** What a connection has written, by its program point. *)
Definition progress (c : Conn) : Prop :=
  match h_pc c with
  | HReplay => h_history c = None /\ h_written c = [] /\ h_got c = []
  | HHistory rest => h_history c = Some (h_written c ++ rest) /\ h_got c = []
  | HLive => h_written c = default [] (h_history c) ++ List.filter (fun e => typeAllowed (h_types c) (ev_Type e)) (h_got c)
  | _ => True
  end.

(** A connection, its subscription and whether the hub has it. *)
Record conn_inv (sb : Sub) (registered : Prop) (c : Conn) : Prop := {
  ci_user : sb_user sb = h_user c;
  ci_heard : sb_heard sb = h_got c ++ sb_buf sb;
  ci_bound : (length (sb_buf sb) <= defaultSubscriberBuffer)%nat;
  ci_dropped : Forall (fun d => length d.2 = 256%nat) (sb_dropped sb);
  ci_own : Forall (fun e => ev_UserID e = h_user c) (sb_heard sb);
  ci_history : Forall (fun e => ev_UserID e = h_user c) (default [] (h_history c));
  ci_progress : progress c;
  ci_open : match h_pc c with HDone => True | HClose => sb_closed sb = false /\ ~ registered | _ => registered end;
}.

Definition logged_row (s : Bus) (e : Event) : Prop :=
  exists id, uuid_parse (ev_ID e) = Ok id /\ (row id e ∈ rows s \/ row id e ∈ pruned s).

(** Why the history may lack a logged event: no replay was asked for or the
    query failed; it was cut at a thousand rows; the event's id is not after
    the [Last-Event-ID]; the row was deleted for its age. *)
Definition excused (s : Bus) (c : Conn) (id : string) (e : Event) : Prop :=
  h_history c = None \/ (1000 <= length (default [] (h_history c)))%nat \/
  (exists a, uuid_parse (h_last c) = Ok a /\ String.ltb a id = false) \/ row id e ∈ pruned s.

Definition replayed (s : Bus) (c : Conn) (e : Event) : Prop :=
  exists id, uuid_parse (ev_ID e) = Ok id /\ (row id e ∈ default [] (h_history c) \/ excused s c id e).

(** A publication that has ended, seen from a connection of its user: if it
    ended after the connection subscribed, the event found room in the channel
    or was dropped; if before, it is up to the replay. *)
Definition settled (s : Bus) (sb : Sub) (c : Conn) (before : bool) (x : Pub) : Prop :=
  streaming (h_pc c) = true -> p_pc x = PDone -> ev_UserID (p_evt x) = h_user c ->
  if before then p_logged x = true -> match h_pc c with HReplay => logged_row s (p_evt x) | _ => replayed s c (p_evt x) end
  else p_evt x ∈ sb_heard sb \/ exists waiting, (p_evt x, waiting) ∈ sb_dropped sb.

Record inv (s : Bus) : Prop := {
  i_crash : crashed s = false;
  i_members : forall u i, i ∈ members u s -> exists sb, subs s !! i = Some sb /\ sb_closed sb = false /\ sb_user sb = u;
  i_conns : forall k c, conns s !! k = Some c -> exists sb, subs s !! h_sub c = Some sb /\
    conn_inv sb (h_sub c ∈ members (h_user c) s) c;
  i_distinct : forall k k' c c', conns s !! k = Some c -> conns s !! k' = Some c' -> h_sub c = h_sub c' -> k = k';
  i_logged : forall p x, pubs s !! p = Some x -> p_logged x = true -> logged_row s (p_evt x);
  i_settled : hub_closed s = false -> forall p x k c sb, pubs s !! p = Some x -> conns s !! k = Some c ->
    subs s !! h_sub c = Some sb -> settled s sb c (ended_before c p) x;
  i_before : forall k c p, conns s !! k = Some c -> ended_before c p = true -> exists x, pubs s !! p = Some x /\ p_pc x = PDone;
}.

Lemma nt_inv_init : inv NewBus.
Proof. split; try done. Qed.

(** More rows, none lost. *)
Definition keeps_rows (s s' : Bus) : Prop :=
  (forall e, e ∈ rows s \/ e ∈ pruned s -> e ∈ rows s' \/ e ∈ pruned s') /\ (forall e, e ∈ pruned s -> e ∈ pruned s').

Lemma nt_logged_mono s s' e : keeps_rows s s' -> logged_row s e -> logged_row s' e.
Proof. intros [K _] (id & E & H). exists id. split; [done |]. by apply K. Qed.

Lemma nt_replayed_mono s s' c e : keeps_rows s s' -> replayed s c e -> replayed s' c e.
Proof.
  intros [_ K] (id & E & H). exists id. split; [done |]. unfold excused in *.
  destruct H as [H|[H|[H|[H|H]]]]; auto 6.
Qed.

Lemma nt_settled_mono s s' sb c b x : keeps_rows s s' -> settled s sb c b x -> settled s' sb c b x.
Proof.
  intros K H H1 H2 H3. specialize (H H1 H2 H3). destruct b; [| exact H]. intros H4. specialize (H H4).
  destruct (h_pc c); [by eapply nt_logged_mono | by eapply nt_replayed_mono..].
Qed.

(** Steps of publishers and of the log: the subscriptions and connections stay. *)
Lemma nt_publishers (s s' : Bus) : inv s -> crashed s' = crashed s -> users s' = users s -> subs s' = subs s -> conns s' = conns s ->
  hub_closed s' = hub_closed s \/ hub_closed s' = true -> keeps_rows s s' ->
  (forall p x, pubs s !! p = Some x -> p_pc x = PDone -> exists x', pubs s' !! p = Some x' /\ p_pc x' = PDone) ->
  (forall p x', pubs s' !! p = Some x' ->
     (exists x, pubs s !! p = Some x /\ p_evt x' = p_evt x /\ p_logged x' = p_logged x /\ (p_pc x' = PDone -> p_pc x = PDone)) \/
     (p_pc x' <> PDone /\ (p_logged x' = true -> logged_row s' (p_evt x')))) -> inv s'.
Proof.
  intros [I1 I2 I3 I4 I5 I6 I7] Ec Eu Es En Eh K Hd Hp.
  assert (forall u, members u s' = members u s) as Em by (intros u; unfold members; by rewrite Eu). split.
  - congruence.
  - intros u i. rewrite Em, Es. apply I2.
  - intros k c. rewrite En, Es, Em. apply I3.
  - rewrite En. apply I4.
  - intros p x' Hx Hl. destruct (Hp p x' Hx) as [(x & Hx0 & E1 & E2 & _)|[_ H]]; [| by apply H].
    rewrite E1. eapply nt_logged_mono; [done |]. eapply I5; [done | congruence].
  - intros Hc p x' k c sb Hx Hk Hs. rewrite En in Hk. rewrite Es in Hs.
    destruct (Hp p x' Hx) as [(x & Hx0 & E1 & E2 & E3)|[H _]]; [| by intros _ ?].
    assert (hub_closed s = false) as Hcl by (destruct Eh; congruence).
    pose proof (nt_settled_mono s s' sb c _ x K (I6 Hcl _ _ _ _ _ Hx0 Hk Hs)) as Hst.
    intros H1 H2 H3. rewrite E1, E2. apply Hst; [done | auto | congruence].
  - intros k c p. rewrite En. intros Hk Hb. destruct (I7 k c p Hk Hb) as (x & Hx & Hpc). by eapply Hd.
Qed.

(** Steps of one connection on its own. *)
Lemma nt_connection k c c' (s : Bus) : inv s -> conns s !! k = Some c -> h_sub c' = h_sub c -> h_user c' = h_user c -> h_before c' = h_before c ->
  (forall sb reg, conn_inv sb reg c -> conn_inv sb reg c') ->
  (forall sb b x, settled s sb c b x -> settled s sb c' b x) -> inv (with_conns (<[k := c']> (conns s)) s).
Proof.
  intros [I1 I2 I3 I4 I5 I6 I7] Hc Es Eu Eb Hi Hs.
  assert (forall p, ended_before c' p = ended_before c p) as Ebf by (intros; unfold ended_before; by rewrite Eb).
  split; simpl; [done | exact I2 | | | exact I5 | |].
  - intros k' x Hx. destruct (decide (k' = k)) as [->|Hne].
    + rewrite list_lookup_insert_eq in Hx by (by eapply lookup_lt_Some). injection Hx as <-.
      destruct (I3 _ _ Hc) as (sb & H1 & H2). exists sb. rewrite Es, Eu. split; [done |]. by apply Hi.
    + rewrite list_lookup_insert_ne in Hx by done. by apply (I3 k').
  - assert (forall j x, <[k := c']> (conns s) !! j = Some x -> exists y, conns s !! j = Some y /\ h_sub y = h_sub x) as Hj.
    { intros j x Hx. destruct (decide (j = k)) as [->|Hne].
      - rewrite list_lookup_insert_eq in Hx by (by eapply lookup_lt_Some). injection Hx as <-. by exists c.
      - rewrite list_lookup_insert_ne in Hx by done. by exists x. }
    intros j j' x x' (y & Hy & E1)%Hj (y' & Hy' & E2)%Hj E. eapply I4; [exact Hy | exact Hy' | congruence].
  - intros Hcl p x k' c1 sb Hx Hk Hsb. destruct (decide (k' = k)) as [->|Hne].
    + rewrite list_lookup_insert_eq in Hk by (by eapply lookup_lt_Some). injection Hk as <-. rewrite Es in Hsb.
      apply (nt_settled_mono s); [done |]. apply Hs. rewrite Ebf. by eapply I6.
    + rewrite list_lookup_insert_ne in Hk by done. apply (nt_settled_mono s); [done |]. by eapply I6.
  - intros k' x p Hk. destruct (decide (k' = k)) as [->|Hne].
    + rewrite list_lookup_insert_eq in Hk by (by eapply lookup_lt_Some). injection Hk as <-. rewrite Ebf. by apply (I7 k).
    + rewrite list_lookup_insert_ne in Hk by done. by apply (I7 k').
Qed.

Lemma nt_keeps_refl s : keeps_rows s s.
Proof. by split. Qed.

(** ** Theory: every step keeps the invariant *)

Lemma nt_publish evt s : inv s -> inv (with_pubs (pubs s ++ [MkPub evt PInsert false]) s).
Proof.
  intros I. apply (nt_publishers s); simpl; auto; [by split | intros p x Hx Hpc; exists x; by rewrite lookup_app_l by (by eapply lookup_lt_Some) |].
  intros p x [Hx|[_ Hx]]%lookup_app_Some; [left; by exists x |]. right.
  by apply list_lookup_singleton_Some in Hx as [_ <-].
Qed.

(** One publisher moves, not yet to its end. *)
Lemma nt_pub_moves p x x' s s' : inv s -> pubs s !! p = Some x -> p_pc x <> PDone -> p_pc x' <> PDone ->
  (p_logged x' = true -> logged_row s' (p_evt x')) -> pubs s' = <[p := x']> (pubs s) ->
  crashed s' = crashed s -> users s' = users s -> subs s' = subs s -> conns s' = conns s -> hub_closed s' = hub_closed s ->
  keeps_rows s s' -> inv s'.
Proof.
  intros I Hx Hpx Hpc Hl Ep E1 E2 E3 E4 E5 K. apply (nt_publishers s); auto.
  { intros q y Hy Hd. exists y. rewrite Ep, list_lookup_insert_ne; [done |]. intros ->. congruence. }
  intros q y Hy. rewrite Ep in Hy.
  destruct (decide (q = p)) as [->|Hne].
  - rewrite list_lookup_insert_eq in Hy by (by eapply lookup_lt_Some). injection Hy as <-. by right.
  - rewrite list_lookup_insert_ne in Hy by done. left. by exists y.
Qed.

Lemma nt_hear evt s i sb : sb_heard (broadcast_sub evt s i sb) = sb_heard sb ++ (if bool_decide (i ∈ members (ev_UserID evt) s) && negb (sb_closed sb) && (length (sb_buf sb) <? defaultSubscriberBuffer)%nat then [evt] else []) /\
  sb_buf (broadcast_sub evt s i sb) = sb_buf sb ++ (if bool_decide (i ∈ members (ev_UserID evt) s) && negb (sb_closed sb) && (length (sb_buf sb) <? defaultSubscriberBuffer)%nat then [evt] else []) /\
  sb_user (broadcast_sub evt s i sb) = sb_user sb /\ sb_closed (broadcast_sub evt s i sb) = sb_closed sb /\
  (forall d, d ∈ sb_dropped sb -> d ∈ sb_dropped (broadcast_sub evt s i sb)) /\
  (Forall (fun d => length d.2 = 256%nat) (sb_dropped sb) -> (length (sb_buf sb) <= defaultSubscriberBuffer)%nat ->
   Forall (fun d => length d.2 = 256%nat) (sb_dropped (broadcast_sub evt s i sb))).
Proof.
  unfold broadcast_sub, deliver. destruct (bool_decide _ && negb _); simpl; [| by rewrite !app_nil_r].
  destruct (Nat.ltb_spec (length (sb_buf sb)) defaultSubscriberBuffer); simpl; rewrite ?app_nil_r; split_and!; try done; [set_solver |].
  intros Hd Hb. apply Forall_app. split; [done |]. constructor; [| done]. simpl. unfold defaultSubscriberBuffer in *. lia.
Qed.

(** A registered subscription of the user has the event or has dropped it. *)
Lemma nt_hears evt s i sb : i ∈ members (ev_UserID evt) s -> sb_closed sb = false ->
  evt ∈ sb_heard (broadcast_sub evt s i sb) \/ exists waiting, (evt, waiting) ∈ sb_dropped (broadcast_sub evt s i sb).
Proof.
  intros Hi Hc. unfold broadcast_sub, deliver. rewrite bool_decide_eq_true_2, Hc by done. simpl.
  destruct (length (sb_buf sb) <? defaultSubscriberBuffer)%nat; simpl; [left; set_solver |].
  right. exists (sb_buf sb). set_solver.
Qed.

Lemma nt_broadcast_conn evt s i sb reg c : conn_inv sb reg c -> h_user c = sb_user sb ->
  (i ∈ members (ev_UserID evt) s -> sb_user sb = ev_UserID evt) -> conn_inv (broadcast_sub evt s i sb) reg c.
Proof.
  intros [C1 C2 C3 Cd C4 C5 C6 C7] Eu Hm. destruct (nt_hear evt s i sb) as (H1 & H2 & H3 & H4 & _ & H6).
  split; rewrite ?H1, ?H2, ?H3, ?H4; try done.
  - by rewrite C2, app_assoc.
  - destruct (bool_decide _ && _ && _) eqn:E; [| by rewrite app_nil_r].
    bool_prop. rewrite length_app. simpl. lia.
  - by apply H6.
  - apply Forall_app. split; [done |]. destruct (bool_decide _ && _ && _) eqn:E; [| constructor].
    repeat apply andb_prop in E as [E ?]. apply bool_decide_eq_true_1 in E. constructor; [| constructor]. rewrite Eu. symmetry. auto.
Qed.

Lemma nt_broadcast p evt logged s : inv s -> pubs s !! p = Some (MkPub evt PBroadcast logged) ->
  inv (with_pubs (<[p := MkPub evt PDone logged]> (pubs s)) (Broadcast evt s)).
Proof.
  intros I Hp.
  assert (forall q x, pubs s !! q = Some x -> p_pc x = PDone ->
    exists x', <[p := MkPub evt PDone logged]> (pubs s) !! q = Some x' /\ p_pc x' = PDone) as Hbef.
  { intros q x Hx Hd. exists x. rewrite list_lookup_insert_ne; [done |]. intros ->. rewrite Hp in Hx. by injection Hx as <-. }
  unfold Broadcast. destruct (hub_closed s) eqn:Hcl.
  { destruct I as [I1 I2 I3 I4 I5 I6 I7]. split; simpl; try done; [| congruence |];
      [| intros k c q Hk Hb; destruct (I7 k c q Hk Hb) as (x & Hx & Hd); by eapply Hbef]. intros q x Hx. destruct (decide (q = p)) as [->|Hne].
    - rewrite list_lookup_insert_eq in Hx by (by eapply lookup_lt_Some). injection Hx as <-. apply (I5 _ _ Hp).
    - rewrite list_lookup_insert_ne in Hx by done. by apply (I5 q). }
  destruct I as [I1 I2 I3 I4 I5 I6 I7].
  assert (forall i sb, subs s !! i = Some sb -> imap (broadcast_sub evt s) (subs s) !! i = Some (broadcast_sub evt s i sb)) as Hi.
  { intros i sb H. by rewrite list_lookup_imap, H. }
  assert (forall i sb', imap (broadcast_sub evt s) (subs s) !! i = Some sb' -> exists sb, subs s !! i = Some sb /\ sb' = broadcast_sub evt s i sb) as Hi'.
  { intros i sb' H. rewrite list_lookup_imap in H. destruct (subs s !! i) as [sb|]; [| done]. injection H as <-. by exists sb. }
  assert (forall i sb, i ∈ members (ev_UserID evt) s -> subs s !! i = Some sb -> sb_user sb = ev_UserID evt) as Hmu.
  { intros i sb Hm Hs. destruct (I2 _ _ Hm) as (y & Hy & _ & Hu). congruence. }
  split; simpl.
  - rewrite I1. simpl. apply bool_decide_eq_false_2. intros (i & Hm & Hc). destruct (I2 _ _ Hm) as (y & Hy & Hyc & _).
    rewrite Hy in Hc. simpl in Hc. congruence.
  - intros u i Hm. destruct (I2 u i Hm) as (sb & Hs & Hc & Hu). exists (broadcast_sub evt s i sb). split; [by apply Hi |].
    destruct (nt_hear evt s i sb) as (_ & _ & -> & -> & _). done.
  - intros k c Hk. destruct (I3 _ _ Hk) as (sb & Hs & Hc). exists (broadcast_sub evt s (h_sub c) sb). split; [by apply Hi |].
    apply nt_broadcast_conn; [done | by destruct Hc | by intros ?; eapply Hmu].
  - done.
  - intros q x Hx. destruct (decide (q = p)) as [->|Hne].
    + rewrite list_lookup_insert_eq in Hx by (by eapply lookup_lt_Some). injection Hx as <-. apply (I5 _ _ Hp).
    + rewrite list_lookup_insert_ne in Hx by done. by apply (I5 q).
  - intros _ q x k c sb' Hx Hk Hs'. destruct (Hi' _ _ Hs') as (sb & Hs & ->). destruct (decide (q = p)) as [->|Hne].
    + rewrite list_lookup_insert_eq in Hx by (by eapply lookup_lt_Some). injection Hx as <-. intros H1 _ H4. simpl in *.
      destruct (ended_before c p) eqn:Eb; [exfalso; destruct (I7 _ _ _ Hk Eb) as (x & Hx & Hd); rewrite Hp in Hx; by injection Hx as <- |].
      destruct (I3 _ _ Hk) as (y & Hy & Hc). rewrite Hs in Hy. injection Hy as <-. destruct Hc as [C1 C2 C3 Cd C4 C5 C6 C7].
      assert (h_sub c ∈ members (ev_UserID evt) s) as Hm by (rewrite H4; by destruct (h_pc c)).
      destruct (I2 _ _ Hm) as (z & Hz & Hzc & _). rewrite Hs in Hz. injection Hz as <-.
      destruct (nt_hears evt s (h_sub c) sb Hm Hzc); auto.
    + rewrite list_lookup_insert_ne in Hx by done. intros H1 H2 H3.
      destruct (nt_hear evt s (h_sub c) sb) as (Eh & _ & _ & _ & Hd & _).
      pose proof (I6 Hcl _ _ _ _ _ Hx Hk Hs H1 H2 H3) as H. destruct (ended_before c q); [exact H |].
      destruct H as [H|(w & H)]; [left; rewrite Eh; set_solver | right; eauto].
  - intros k c q Hk Hb. destruct (I7 k c q Hk Hb) as (x & Hx & Hd). by eapply Hbef.
Qed.

Lemma nt_insert ok evt (rs : list Event) r rs' : Insert ok evt rs = (r, rs') -> (forall e, e ∈ rs -> e ∈ rs') /\
  (is_ok r = true -> exists id, uuid_parse (ev_ID evt) = Ok id /\ row id evt ∈ rs').
Proof.
  unfold Insert. destruct (uuid_parse (ev_ID evt)) as [id|]; [| by intros [= <- <-]].
  destruct (negb ok || _); intros [= <- <-]; [done |]. split; [set_solver |]. intros _. exists id. set_solver.
Qed.

Lemma nt_publish_step p ok s s' : publish_step p ok s = Some s' -> inv s -> inv s'.
Proof.
  unfold publish_step. intros H I. destruct (pubs s !! p) as [[evt pc logged]|] eqn:Hp; [| done]. destruct pc; try done.
  - destruct (Insert ok evt (rows s)) as [r rs'] eqn:E. injection H as <-. apply nt_insert in E as [E1 E2].
    eapply nt_pub_moves; [done | done | | | | reflexivity | done..|]; [done | done | |].
    + simpl. intros (id & Eid & Hr)%E2. exists id. auto.
    + split; simpl; [| done]. intros e [?|?]; auto.
  - injection H as <-. eapply nt_pub_moves; [done | done | | | | reflexivity | done..|]; [done | done | |by split].
    simpl. intros Hl. apply (i_logged _ I _ _ Hp Hl).
  - injection H as <-. by apply nt_broadcast.
Qed.

Lemma nt_connect user last types s s' : connect user last types s = Some s' -> inv s -> inv s'.
Proof.
  unfold connect, Subscribe. destruct (hub_closed s) eqn:Hcl; [done |]. intros [= <-] [I1 I2 I3 I4 I5 I6 I7].
  set (n := length (subs s)). set (c := MkConn user last types n _ None [] [] _).
  assert (forall u i, i ∈ members u s -> (i < n)%nat) as Hlt.
  { intros u i (sb & Hs & _)%I2. by eapply lookup_lt_Some. }
  assert (forall u i, i ∈ default ∅ (<[user := {[n]} ∪ default ∅ (users s !! user)]> (users s) !! u) <->
    i ∈ members u s \/ (i = n /\ u = user)) as Hm.
  { intros u i. unfold members. destruct (decide (u = user)) as [->|Hne].
    - rewrite lookup_insert_eq. simpl. rewrite elem_of_union, elem_of_singleton. tauto.
    - rewrite lookup_insert_ne by done. tauto. }
  assert (forall k x, (conns s ++ [c]) !! k = Some x -> (conns s !! k = Some x /\ (h_sub x < n)%nat) \/ (k = length (conns s) /\ x = c)) as Hk.
  { intros k x [H|[Hl H]]%lookup_app_Some.
    - left. split; [done |]. destruct (I3 _ _ H) as (sb & Hs & _). by eapply lookup_lt_Some.
    - right. apply list_lookup_singleton_Some in H as [H <-]. split; [lia | done]. }
  split; simpl.
  - done.
  - intros u i [Hi|[-> ->]]%Hm.
    + destruct (I2 _ _ Hi) as (sb & Hs & Hc). exists sb. split; [by apply lookup_app_l_Some | done].
    + eexists. unfold n. by rewrite list_lookup_middle.
  - intros k x [[H Hx]|[_ ->]]%Hk.
    + destruct (I3 _ _ H) as (sb & Hs & [C1 C2 C3 Cd C4 C5 C6 C7]). exists sb. split; [by apply lookup_app_l_Some |]. split; try done.
      unfold members at 1 in C7. cbn [users]. pose proof (Hm (h_user x) (h_sub x)) as E.
      destruct (h_pc x); try (apply E; left; exact C7); [| done].
      destruct C7 as [C7 C8]. split; [done |]. intros [?|[? _]]%E; [done | lia].
    + eexists. simpl. rewrite list_lookup_middle by done. split; [reflexivity |]. split; simpl; try done; [unfold defaultSubscriberBuffer; lia | |].
      * unfold progress, c. simpl. by case_bool_decide.
      * case_bool_decide; apply Hm; auto.
  - intros k k' x x' [[H Hx]|[-> ->]]%Hk [[H' Hx']|[-> ->]]%Hk E; [by eapply I4 | simpl in E; lia | simpl in E; lia | done].
  - intros p x Hp Hl. apply (I5 p x Hp Hl).
  - intros _ p x k x' sb Hp [[H Hx]|[_ ->]]%Hk Hs.
    + apply (nt_settled_mono s); [by split |]. apply (I6 Hcl p x k); [done | done |].
      apply lookup_app_Some in Hs as [Hs|[Hl _]]; [done | lia].
    + intros H1 H2 H3. unfold c, ended_before in *. simpl in *. rewrite list_lookup_fmap, Hp. simpl.
      rewrite bool_decide_eq_true_2 by done. intros H4. pose proof (I5 _ _ Hp H4) as (id & E & Hr).
      case_bool_decide; exists id; (split; [done |]); [| exact Hr]. right. by left.
  - intros k x p [[H Hx]|[_ ->]]%Hk; [by apply (I7 k) |]. unfold ended_before, c. simpl. rewrite list_lookup_fmap.
    destruct (pubs s !! p) as [x|] eqn:Hp; simpl; [| done]. intros Hb%bool_decide_eq_true_1. by exists x.
Qed.

Lemma nt_replay_step k ok c s : conns s !! k = Some c -> h_pc c = HReplay -> inv s ->
  inv (with_conns (<[k := replay_query ok (rows s) c]> (conns s)) s).
Proof.
  intros Hc Hpc I. unfold replay_query. destruct (Replay ok (h_user c) (h_last c) replayLimit (rows s)) as [h|e] eqn:Hr.
  - apply nt_replay in Hr as [Hu Hr]. apply (nt_connection k c); [done | done | done | done | done | |].
    + intros sb reg [C1 C2 C3 Cd C4 C5 C6 C7]. unfold progress in C6. rewrite Hpc in C6. destruct C6 as (E1 & E2 & E3).
      split; simpl; try done; [unfold progress; simpl; by rewrite E2, E3 | by rewrite Hpc in C7].
    + intros sb b x Hs _ H2 H3. simpl in *. unfold settled in Hs. rewrite Hpc in Hs.
      destruct b; [| by apply Hs]. intros H4. destruct (Hs eq_refl H2 H3 H4) as (id & E & Hrow). exists id. split; [done |].
      simpl. destruct Hrow as [Hrow|?]; [| right; unfold excused; simpl; auto].
      destruct (decide (length h < 1000)%nat) as [Hl|Hl]; [| right; unfold excused; simpl; right; left; lia].
      destruct (Hr (row id (p_evt x))) as [?|(a & Ha & Hlt)]; [done | done | exact Hl | by left |].
      right. unfold excused. simpl. right. right. left. by exists a.
  - apply (nt_connection k c); [done | done | done | done | done | |].
    + intros sb reg [C1 C2 C3 Cd C4 C5 C6 C7]. unfold progress in C6. rewrite Hpc in C6. destruct C6 as (E1 & E2 & E3).
      split; simpl; try done; [unfold progress; simpl; by rewrite E1, E2, E3 | by rewrite Hpc in C7].
    + intros sb b x Hs _ H2 H3. simpl in *. unfold settled in Hs. rewrite Hpc in Hs.
      destruct b; [| by apply Hs]. intros H4. destruct (Hs eq_refl H2 H3 H4) as (id & E & Hrow). exists id. split; [done |].
      right. left. simpl. unfold settled in Hs. destruct (i_conns _ I _ _ Hc) as (y & _ & [_ _ _ _ _ _ C6 _]).
      unfold progress in C6. rewrite Hpc in C6. apply C6.
Qed.

(** A step to another point of the same connection. *)
Lemma nt_leave k c s : conns s !! k = Some c -> streaming (h_pc c) = true -> inv s ->
  inv (with_conns (<[k := set_pc HRemove c]> (conns s)) s).
Proof.
  intros Hc Hpc I. apply (nt_connection k c); [done | done | done | done | done | |].
  - intros sb reg [C1 C2 C3 Cd C4 C5 C6 C7]. split; simpl; try done. by destruct (h_pc c).
  - intros sb b x _ [=].
Qed.

Lemma nt_write k ok c c' s : conns s !! k = Some c -> write_history ok c = Some c' -> inv s ->
  inv (with_conns (<[k := c']> (conns s)) s).
Proof.
  intros Hc Hw I. unfold write_history in Hw. destruct (h_pc c) as [|[|evt rest]| | | |] eqn:Hpc; try done.
  - injection Hw as <-. apply (nt_connection k c); [done | done | done | done | done | |].
    + intros sb reg [C1 C2 C3 Cd C4 C5 C6 C7]. unfold progress in C6. rewrite Hpc in *. destruct C6 as [E1 E2].
      split; simpl; try done. unfold progress. simpl. rewrite E1, E2. simpl. by rewrite !app_nil_r.
    + intros sb b x Hs _ H2 H3. unfold settled in Hs. rewrite Hpc in Hs. by apply Hs.
  - destruct ok; [| injection Hw as <-; apply nt_leave; [done | by rewrite Hpc | done]].
    injection Hw as <-. apply (nt_connection k c); [done | done | done | done | done | |].
    + intros sb reg [C1 C2 C3 Cd C4 C5 C6 C7]. unfold progress in C6. rewrite Hpc in *. destruct C6 as [E1 E2].
      split; simpl; try done. unfold progress. simpl. rewrite E1, <- app_assoc. by split.
    + intros sb b x Hs _ H2 H3. unfold settled in Hs. rewrite Hpc in Hs. by apply Hs.
Qed.

(** A connection and its own subscription change together. *)
Lemma nt_own k c c' sb sb' (s s' : Bus) : inv s -> conns s !! k = Some c -> subs s !! h_sub c = Some sb ->
  crashed s' = crashed s -> hub_closed s' = hub_closed s -> rows s' = rows s -> pruned s' = pruned s -> pubs s' = pubs s ->
  conns s' = <[k := c']> (conns s) -> subs s' = <[h_sub c := sb']> (subs s) ->
  h_sub c' = h_sub c -> h_user c' = h_user c -> h_before c' = h_before c -> sb_user sb' = sb_user sb ->
  (forall u i, i ∈ members u s' -> i ∈ members u s /\ (i = h_sub c -> sb_closed sb' = false)) ->
  (forall u i, i <> h_sub c -> i ∈ members u s -> i ∈ members u s') ->
  (conn_inv sb (h_sub c ∈ members (h_user c) s) c -> conn_inv sb' (h_sub c ∈ members (h_user c) s') c') ->
  (forall b x, settled s sb c b x -> settled s sb' c' b x) -> inv s'.
Proof.
  intros [I1 I2 I3 I4 I5 I6 I7] Hc Hs Ecr Ecl Er Ep Epu En Es E1 E2 Eb E3 Hm1 Hm2 Hci Hst.
  assert (forall p, ended_before c' p = ended_before c p) as Ebf by (intros; unfold ended_before; by rewrite Eb).
  assert (keeps_rows s s') as K by (split; rewrite ?Er, ?Ep; auto).
  assert (forall j x, conns s' !! j = Some x -> (j = k /\ x = c') \/ (j <> k /\ conns s !! j = Some x /\ h_sub x <> h_sub c)) as Hj.
  { intros j x Hx. rewrite En in Hx. destruct (decide (j = k)) as [->|Hne].
    - rewrite list_lookup_insert_eq in Hx by (by eapply lookup_lt_Some). injection Hx as <-. by left.
    - rewrite list_lookup_insert_ne in Hx by done. right. split_and!; [done | done |]. intros E. apply Hne. by eapply I4. }
  assert (subs s' !! h_sub c = Some sb') as Hs' by (rewrite Es; by rewrite list_lookup_insert_eq by (by eapply lookup_lt_Some)).
  assert (forall i, i <> h_sub c -> subs s' !! i = subs s !! i) as Hso by (intros i Hi; rewrite Es; by apply list_lookup_insert_ne).
  split.
  - congruence.
  - intros u i [Hi Hopen]%Hm1. destruct (I2 _ _ Hi) as (y & Hy & Hyc & Hyu). destruct (decide (i = h_sub c)) as [->|Hne].
    + exists sb'. rewrite Hs in Hy. injection Hy as <-. split_and!; [done | by apply Hopen | congruence].
    + exists y. by rewrite Hso.
  - intros j x [[-> ->]|(Hne & Hx & Hxs)]%Hj.
    + rewrite E1, E2. exists sb'. split; [done |]. apply Hci. destruct (I3 _ _ Hc) as (y & Hy & Hyc).
      rewrite Hs in Hy. by injection Hy as <-.
    + destruct (I3 _ _ Hx) as (y & Hy & [C1 C2 C3 Cd C4 C5 C6 C7]). exists y. rewrite Hso by done. split; [done |]. split; try done.
      destruct (h_pc x); try (by apply Hm2); [| done]. destruct C7 as [C7 C8]. split; [done |]. intros [? _]%Hm1. done.
  - intros j j' x x' [[-> ->]|(Hne & Hx & Hxs)]%Hj [[-> ->]|(Hne' & Hx' & Hxs')]%Hj E; [done | congruence | congruence | by eapply I4].
  - intros p x. rewrite Epu. intros Hp Hl. eapply nt_logged_mono; [done |]. by eapply I5.
  - rewrite Ecl, Epu. intros Hcl p x j y z Hp [[-> ->]|(Hne & Hx & Hxs)]%Hj Hz; (apply (nt_settled_mono s); [done |]).
    + rewrite E1, Hs' in Hz. injection Hz as <-. apply Hst. rewrite Ebf. by eapply I6.
    + rewrite Hso in Hz by done. by eapply I6.
  - rewrite Epu. intros j x p [[-> ->]|(Hne & Hx & Hxs)]%Hj; [rewrite Ebf; by apply (I7 k) | by apply (I7 j)].
Qed.

Lemma nt_typed_snoc types (l : list Event) e : List.filter (fun e => typeAllowed types (ev_Type e)) (l ++ [e]) =
  List.filter (fun e => typeAllowed types (ev_Type e)) l ++ (if typeAllowed types (ev_Type e) then [e] else []).
Proof. rewrite List.filter_app. simpl. by destruct (typeAllowed types (ev_Type e)). Qed.

Lemma nt_receive k ok s s' : receive k ok s = Some s' -> inv s -> inv s'.
Proof.
  unfold receive. intros H I. destruct (conns s !! k) as [c|] eqn:Hc; [| done]. destruct (h_pc c) eqn:Hpc; try done.
  destruct (subs s !! h_sub c) as [sb|] eqn:Hs; [| done]. destruct (sb_buf sb) as [|evt rest] eqn:Hb.
  { destruct (sb_closed sb); [| done]. injection H as <-. apply nt_leave; [done | by rewrite Hpc | done]. }
  injection H as <-. assert (h_sub (handle_event ok evt c) = h_sub c /\ h_user (handle_event ok evt c) = h_user c /\
    h_history (handle_event ok evt c) = h_history c /\ h_last (handle_event ok evt c) = h_last c /\
    h_before (handle_event ok evt c) = h_before c) as (E1 & E2 & E3 & E4 & E5).
  { unfold handle_event. by destruct (negb _), ok. }
  assert (sb_closed sb = false) as Hop.
  { destruct (i_conns _ I _ _ Hc) as (y & Hy & [_ _ _ _ _ _ _ C7]). rewrite Hpc in C7.
    destruct (i_members _ I _ _ C7) as (z & Hz & Hzc & _). congruence. }
  eapply (nt_own k c (handle_event ok evt c) sb); try done.
  - intros [C1 C2 C3 Cd C4 C5 C6 C7]. unfold progress in C6. rewrite Hpc in C6, C7. rewrite Hb in C2, C3. simpl in C3.
    split; simpl; rewrite ?E1, ?E2, ?E3; try done.
    + rewrite C2. unfold handle_event. destruct (negb _), ok; simpl; by rewrite <- app_assoc.
    + lia.
    + unfold progress, handle_event. destruct (typeAllowed (h_types c) (ev_Type evt)) eqn:Ht; simpl; [destruct ok; simpl; [| done] |].
      * rewrite nt_typed_snoc, Ht, app_assoc. by rewrite C6.
      * rewrite nt_typed_snoc, Ht, app_nil_r. done.
    + unfold handle_event. by destruct (negb _), ok.
  - intros b x Hx H1 H2 H3. assert (h_pc (handle_event ok evt c) = HLive) as Hl.
    { unfold handle_event in *. by destruct (negb _), ok. }
    rewrite E2 in H3. unfold settled in Hx. rewrite Hpc in Hx. destruct b; [| by apply Hx].
    intros H4. destruct (Hx eq_refl H2 H3 H4) as (id & E & Hr). rewrite Hl. exists id. split; [done |]. unfold excused in *. by rewrite E3, E4.
Qed.

Lemma nt_remove_members u' i u j s : j ∈ default ∅ (remove u' i s !! u) <-> j ∈ members u s /\ ~ (u = u' /\ j = i).
Proof.
  unfold remove, members. destruct (users s !! u') as [set|] eqn:E.
  - destruct (decide (u = u')) as [->|Hne].
    + rewrite E. simpl. case_bool_decide as Hd.
      * rewrite lookup_delete_eq. simpl. split; [by intros ?%elem_of_empty |]. intros [Hj Hn].
        assert (j ∈ set ∖ {[i]}) as Hx by (apply elem_of_difference; split; [done | intros ?%elem_of_singleton; by apply Hn]).
        rewrite Hd in Hx. by apply elem_of_empty in Hx.
      * rewrite lookup_insert_eq. simpl. rewrite elem_of_difference, elem_of_singleton. split; intros [? Hn]; (split; [done |]); [by intros [_ ?] | by intros ->; apply Hn].
    + case_bool_decide; rewrite ?lookup_delete_ne, ?lookup_insert_ne by done; (split; [intros Hj; split; [done |]; by intros [? _] | by intros [? _]]).
  - split; [| by intros [? _]]. intros Hj. split; [done |]. intros [-> ->]. rewrite E in Hj. by apply elem_of_empty in Hj.
Qed.

Lemma nt_close_step k s s' : close_step k s = Some s' -> inv s -> inv s'.
Proof.
  unfold close_step. intros H I. destruct (conns s !! k) as [c|] eqn:Hc; [| done].
  destruct (i_conns _ I _ _ Hc) as (sb & Hs & HC). rewrite Hs in H. pose proof (ci_user _ _ _ HC) as Hu.
  destruct (h_pc c) eqn:Hpc; try done; injection H as <-.
  - assert (sb_closed sb = false) as Hop.
    { destruct HC as [_ _ _ _ _ _ _ C7]. rewrite Hpc in C7. destruct (i_members _ I _ _ C7) as (z & Hz & Hzc & _). congruence. }
    eapply (nt_own k c (set_pc HClose c) sb sb); simpl; try done.
    + by rewrite list_insert_id.
    + intros u i Hi. apply nt_remove_members in Hi as [Hi _]. by split.
    + intros u i Hne Hi. apply nt_remove_members. split; [done |]. by intros [_ ?].
    + intros [C1 C2 C3 Cd C4 C5 C6 C7]. split; simpl; try done. split; [done |]. intros [_ Hn]%nt_remove_members. by apply Hn.
  - destruct HC as [_ _ _ _ _ _ _ C7]. rewrite Hpc in C7. destruct C7 as [C7 C8].
    eapply (nt_own k c (set_pc HDone c) sb); simpl; try done.
    + intros u i Hi. split; [exact Hi |]. intros ->. exfalso. destruct (i_members _ I _ _ Hi) as (z & Hz & _ & Hzu).
      rewrite Hs in Hz. injection Hz as <-. apply C8. rewrite <- Hu, Hzu. exact Hi.
    + intros [D1 D2 D3 Dd D4 D5 D6 D7]. split; simpl; done.
Qed.

Lemma nt_step a s s' : bus_step a s = Some s' -> inv s -> inv s'.
Proof.
  intros H I. destruct a as [evt|p ok|user last types|k ok|k ok|k ok|k|k| |cutoff]; cbn [bus_step] in H.
  - injection H as <-. by apply nt_publish.
  - by eapply nt_publish_step.
  - by eapply nt_connect.
  - destruct (conns s !! k) as [c|] eqn:Hc; [| done]. destruct (h_pc c) eqn:Hpc; try done. injection H as <-. by apply nt_replay_step.
  - destruct (conns s !! k) as [c|] eqn:Hc; [| done]. destruct (write_history ok c) as [c'|] eqn:Hw; [| done].
    injection H as <-. by eapply nt_write.
  - by eapply nt_receive.
  - destruct (conns s !! k) as [c|] eqn:Hc; [| done]. destruct (h_pc c) eqn:Hpc; try done. injection H as <-.
    apply nt_leave; [done | by rewrite Hpc | done].
  - by eapply nt_close_step.
  - injection H as <-. apply (nt_publishers s); simpl; auto; [by split | intros p x Hx Hpc; by exists x |]. intros p x Hx. left. by exists x.
  - unfold DeleteOlderThan in H. injection H as <-.
    assert (forall e, e ∈ rows s -> e ∈ List.filter (fun e => negb (time_before (ev_Timestamp e) cutoff)) (rows s) \/
      e ∈ List.filter (fun e => time_before (ev_Timestamp e) cutoff) (rows s)) as Hsplit.
    { intros e He. destruct (time_before (ev_Timestamp e) cutoff) eqn:Et; [right | left];
        apply list_elem_of_In, filter_In; (split; [by apply list_elem_of_In |]); by rewrite Et. }
    apply (nt_publishers s); simpl; auto.
    + split; simpl; [| set_solver]. intros e [He|He]; [| set_solver]. destruct (Hsplit e He); set_solver.
    + intros p x Hx Hpc. by exists x.
    + intros p x Hx. left. by exists x.
Qed.

Definition reachable (s : Bus) : Prop := exists acts, bus_run acts NewBus = Some s.

Lemma nt_inv s : reachable s -> inv s.
Proof.
  intros (acts & H). revert H. generalize nt_inv_init. generalize NewBus. induction acts as [|a acts IH]; intros s0 I H; simpl in H.
  - by injection H as <-.
  - destruct (bus_step a s0) as [s1|] eqn:E; [| done]. eapply IH; [| exact H]. by eapply nt_step.
Qed.

(** However publishers, connections, closings and the retention run
    interleave, nobody sends to a closed channel, and a connection in its live
    loop is private and exact: everything it was given belongs to its user,
    at most 256 events wait for it, and what it has written to its socket is
    the whole replayed history followed by exactly those events received live
    whose type its filter allows, in the order of their arrival. *)
Theorem notifications_private_exact s : reachable s ->
  crashed s = false /\
  forall k c, conns s !! k = Some c -> h_pc c = HLive ->
    exists sb, subs s !! h_sub c = Some sb /\
      h_written c = default [] (h_history c) ++ List.filter (fun e => typeAllowed (h_types c) (ev_Type e)) (h_got c) /\
      sb_heard sb = h_got c ++ sb_buf sb /\ (length (sb_buf sb) <= defaultSubscriberBuffer)%nat /\
      Forall (fun e => ev_UserID e = h_user c) (h_written c).
Proof.
  intros I%nt_inv. split; [apply I |]. intros k c Hc Hpc. destruct (i_conns _ I _ _ Hc) as (sb & Hs & [C1 C2 C3 Cd C4 C5 C6 C7]).
  unfold progress in C6. rewrite Hpc in C6. exists sb. split_and!; try done.
  rewrite C6. apply Forall_app. split; [done |]. rewrite C2 in C4. apply Forall_app in C4 as [C4 _].
  apply List.Forall_forall. intros e [He _]%filter_In. rewrite List.Forall_forall in C4. by apply C4.
Qed.

(** C20: no event is lost silently.  Take, while the hub is open, a publication
    of [evt] that has ended and a connection of its user in the live loop whose
    filter allows the event.  If the publication ended after the connection
    had subscribed, the event was written to the socket, or waits in the
    connection's channel, or was dropped when exactly 256 events were waiting
    there; nothing else happens to it.  If it ended before, it was logged, the
    client asked for a replay and the query succeeded, then its row was written
    to the socket, unless the history was cut at its limit of a thousand rows,
    the event's id does not come after the Last-Event-ID, or the retention has
    deleted the row. *)
Theorem notifications_no_silent_loss s p evt logged k c sb : reachable s -> hub_closed s = false ->
  pubs s !! p = Some (MkPub evt PDone logged) ->
  conns s !! k = Some c -> h_pc c = HLive -> h_user c = ev_UserID evt -> subs s !! h_sub c = Some sb ->
  typeAllowed (h_types c) (ev_Type evt) = true ->
  (ended_before c p = false ->
     evt ∈ h_written c \/ evt ∈ sb_buf sb \/
     exists waiting, (evt, waiting) ∈ sb_dropped sb /\ length waiting = 256%nat) /\
  (ended_before c p = true -> logged = true ->
     exists id, uuid_parse (ev_ID evt) = Ok id /\
       forall history, h_history c = Some history -> (length history < 1000)%nat ->
         (forall last, uuid_parse (h_last c) = Ok last -> String.ltb last id = true) ->
         row id evt ∉ pruned s -> row id evt ∈ h_written c).
Proof.
  intros I%nt_inv Hcl Hp Hc Hpc Hu Hs Ht.
  destruct (i_conns _ I _ _ Hc) as (y & Hy & [_ C2 _ Cd _ _ C6 _]). rewrite Hs in Hy. injection Hy as <-.
  unfold progress in C6. rewrite Hpc in C6.
  pose proof (i_settled _ I Hcl _ _ _ _ _ Hp Hc Hs) as K. unfold settled in K. rewrite Hpc in K.
  specialize (K eq_refl eq_refl (eq_sym Hu)). split; intros Hb; rewrite Hb in K.
  - destruct K as [H|(w & H)]; simpl in H.
    + rewrite C2 in H. apply elem_of_app in H as [H|H]; [left | auto]. rewrite C6. apply elem_of_app. right.
      apply list_elem_of_In, filter_In. split; [by apply list_elem_of_In | done].
    + right. right. exists w. split; [done |]. rewrite Forall_forall in Cd. exact (Cd _ H).
  - intros Hl. destruct (K Hl) as (id & Eid & H). exists id. split; [done |]. intros h Eh Hlen Hlast Hpr.
    unfold excused in H. rewrite Eh in H. simpl in *.
    destruct H as [H|[H|[H|[(a & Ha & Hlt)|H]]]]; [| done | lia | by rewrite (Hlast _ Ha) in Hlt | done].
    rewrite C6, Eh. set_solver.
Qed.

End Notifications.

(** ** Concrete runs *)

Section Demo.
Definition demo_uuid (s : string) : result string := Ok s.
Definition demo_event (id : string) : Event := MkEvent id "run.started" "alice" "" "" (MkTime 5 0) "{}".
Definition demo_run (acts : list Action) : Bus := default NewBus (bus_run demo_uuid acts NewBus).
Definition written (k : nat) (s : Bus) : list string := ev_ID <$> default [] (h_written <$> conns s !! k).

(** An event logged before the replay and broadcast after the subscription is
    written twice; the history ignores the filter of types. *)
Definition twice : list Action :=
  [APublish (demo_event "1"); APublishStep 0 true; AConnect "alice" "0" "run.started"; AReplay 0 true;
   APublishStep 0 true; APublishStep 0 true; AWrite 0 true; AWrite 0 true; AReceive 0 true].

Example event_written_twice : written 0 (demo_run twice) = ["1"; "1"].
Proof. vm_compute. reflexivity. Qed.

Example history_ignores_types :
  written 0 (demo_run [APublish (demo_event "1"); APublishStep 0 true; AConnect "alice" "0" "run.stopped";
    AReplay 0 true; AWrite 0 true; AWrite 0 true]) = ["1"].
Proof. vm_compute. reflexivity. Qed.

(** The event with the smaller id is logged after the one with the larger id
    has reached the client: the client, reconnecting after the larger id, is
    never given it, although it was logged and published. *)
Definition overtaken : list Action :=
  [AConnect "alice" "" ""; APublish (demo_event "1"); APublish (demo_event "2");
   APublishStep 1 true; APublishStep 1 true; APublishStep 1 true; AReceive 0 true; ADone 0; AClose 0; AClose 0;
   APublishStep 0 true; APublishStep 0 true; APublishStep 0 true;
   AConnect "alice" "2" ""; AReplay 1 true; AWrite 1 true].

Example overtaken_event_missed :
  (fun s => (written 0 s, written 1 s, ev_ID <$> rows s, (p_logged <$> pubs s), h_pc <$> conns s !! 1%nat)) (demo_run overtaken) =
  (["2"], [], ["2"; "1"], [true; true], Some HLive).
Proof. vm_compute. reflexivity. Qed.

(** Closing the hub leaves the channels open: their readers go on waiting. *)
Example hub_close_leaves_readers :
  (fun s => (sb_closed <$> subs s, h_pc <$> conns s, match bus_step demo_uuid (AReceive 0 true) s with Some _ => true | None => false end))
    (demo_run [AConnect "alice" "" ""; AHubClose]) = ([false], [HLive], false).
Proof. vm_compute. reflexivity. Qed.

Lemma demo_twice_reachable : reachable demo_uuid (demo_run twice).
Proof. exists twice. vm_compute. reflexivity. Qed.

Lemma notifications_private_exact_witness : reachable demo_uuid (demo_run twice) /\
  crashed (demo_run twice) = false /\ (exists c, conns (demo_run twice) !! 0%nat = Some c /\ h_pc c = HLive).
Proof.
  split; [apply demo_twice_reachable |].
  split; [apply (notifications_private_exact demo_uuid (demo_run twice) demo_twice_reachable) |].
  eexists. split; [vm_compute; reflexivity | reflexivity].
Defined.

(** A connection that was there first, and one that replays. *)
Definition both : list Action :=
  [AConnect "alice" "" ""; APublish (demo_event "1"); APublishStep 0 true; APublishStep 0 true; APublishStep 0 true;
   AReceive 0 true; AConnect "alice" "0" ""; AReplay 1 true; AWrite 1 true; AWrite 1 true].

Lemma demo_both_reachable : reachable demo_uuid (demo_run both).
Proof. exists both. vm_compute. reflexivity. Qed.

Lemma notifications_no_silent_loss_witness : exists c0 sb0 c1,
  conns (demo_run both) !! 0%nat = Some c0 /\ subs (demo_run both) !! h_sub c0 = Some sb0 /\
  conns (demo_run both) !! 1%nat = Some c1 /\
  (demo_event "1" ∈ h_written c0 \/ demo_event "1" ∈ sb_buf sb0 \/
     exists waiting, (demo_event "1", waiting) ∈ sb_dropped sb0 /\ length waiting = 256%nat) /\
  row demo_uuid "1" (demo_event "1") ∈ h_written c1.
Proof.
  do 3 eexists. split; [vm_compute; reflexivity |]. split; [vm_compute; reflexivity |]. split; [vm_compute; reflexivity |].
  split.
  - apply (notifications_no_silent_loss demo_uuid (demo_run both) 0 (demo_event "1") true 0);
      [apply demo_both_reachable | vm_compute; reflexivity..].
  - eassert (_ /\ (_ -> _ -> _)) as [_ H].
    { apply (notifications_no_silent_loss demo_uuid (demo_run both) 0 (demo_event "1") true 1);
        [apply demo_both_reachable | vm_compute; reflexivity..]. }
    destruct H as (id & Eid & H); [vm_compute; reflexivity | reflexivity |]. injection Eid as <-.
    eapply H; [vm_compute; reflexivity | simpl; lia | intros last [= <-]; vm_compute; reflexivity |].
    apply not_elem_of_nil.
Defined.
End Demo.
