(* ===== verification/RateLimit.v ===== *)
(** * ratelimit: token buckets per address and user

    [ratelimit.go]: the middleware's three checks, the two caches of buckets
    with their eviction, and the address a request is counted for.  The
    bucket itself is golang.org/x/time/rate, a parameter ([Buckets]); the hash
    of the Authorization header is a parameter too.  Requests are handled one
    after the other and read the clock once; what is written to a rejected
    client is its scope and tier.

    Theory: the caches are invisible.  If a bucket that was idle for longer
    than the eviction interval answers like a new one, the middleware decides
    every request exactly like one that keeps a bucket per address and per
    user and tier for ever. *)

From S2P Require Import Prelude GoTime GoStrings.
From Stdlib Require Import Ascii.

Record TierConfig := { RPS : Q; Burst : Z }.
Record Config := { Enabled : bool; TrustProxy : bool; Read : TierConfig; Write : TierConfig; Global : TierConfig; IP : TierConfig }.

(** [rate.Limiter]: a new bucket, and taking one token at an instant. *)
Class Buckets := { bucket : Type; NewLimiter : TierConfig -> bucket; Allow : Z -> bucket -> bool * bucket }.

Inductive Tier := TierRead | TierWrite.
#[export] Instance Tier_eq_dec : EqDecision Tier.
Proof. solve_decision. Defined.
#[export] Instance Tier_countable : Countable Tier.
Proof.
  refine {| encode := fun t => match t with TierRead => 1%positive | TierWrite => 2%positive end;
            decode := fun p => match p with 1%positive => Some TierRead | _ => Some TierWrite end |}.
  by intros [].
Defined.

Definition evictionInterval : Z := 5 * Minute.
Definition healthzPath : string := "/healthz".

(** [net.SplitHostPort] of the standard library: the host, if the address has
    the form host:port or [host]:port. *)
Definition last_colon (s : string) : option nat :=
  fst (foldl (fun '(r, i) c => (if Ascii.eqb c ":" then Some i else r, S i)) (None, 0%nat) (String.list_ascii_of_string s)).
Definition has_char (c : ascii) (s : string) : bool := existsb (Ascii.eqb c) (String.list_ascii_of_string s).
Definition drop_chars (n : nat) (s : string) : string := String.substring n (String.length s) s.

Definition SplitHost (s : string) : option string :=
  match last_colon s with
  | None => None
  | Some i =>
      match s with
      | String "[" _ =>
          match String.index 0 "]" s with
          | None => None
          | Some e =>
              if (S e =? i)%nat && negb (has_char "[" (drop_chars 1 s)) && negb (has_char "]" (drop_chars (S e) s))
              then Some (String.substring 1 (e - 1) s) else None
          end
      | _ =>
          let host := String.substring 0 i s in
          if negb (has_char ":" host) && negb (has_char "[" s) && negb (has_char "]" s) then Some host else None
      end
  end.

(** The parts of a request that are read; an absent header is empty. *)
Record Request := { Path : string; Method : string; RemoteAddr : string; XForwardedFor : string; Authorization : string }.

Definition tierFromMethod (m : string) : Tier :=
  if bool_decide (m = "GET" \/ m = "HEAD" \/ m = "OPTIONS") then TierRead else TierWrite.
Definition tier_string (t : Tier) : string := match t with TierWrite => "write" | TierRead => "read" end.

Definition extractIP (cfg : Config) (r : Request) : string :=
  let remote := match SplitHost (RemoteAddr r) with Some host => host | None => RemoteAddr r end in
  if TrustProxy cfg && negb (bool_decide (XForwardedFor r = EmptyString)) then
    let ip := TrimSpace (default EmptyString (head (Split "," (XForwardedFor r)))) in
    if bool_decide (ip = EmptyString) then remote else ip
  else remote.

Section RateLimit.
Context {B : Buckets}.
(** hex of sha256 *)
Context (hashKey : string -> string).

Record bucketEntry := MkEntry { limiter : bucket; lastUsed : Z }.
Record Limiter := MkLimiter { config : Config; global : bucket; ipCache : gmap string bucketEntry; userCache : gmap string bucketEntry }.

Definition newBucket (cfg : TierConfig) : bucket := NewLimiter cfg.
Definition NewRateLimiter (cfg : Config) : Limiter := MkLimiter cfg (newBucket (Global cfg)) ∅ ∅.

Inductive Verdict := Served | Limited (scope : string) (tier : Tier).

(** A bucket from a cache ([ipBucket], [userBucket]): touched if it is there,
    new otherwise; then one token is taken from it. *)
Definition use_bucket (now : Z) (cfg : TierConfig) (key : string) (cache : gmap string bucketEntry) : bool * gmap string bucketEntry :=
  let b := match cache !! key with Some ent => limiter ent | None => newBucket cfg end in
  let '(ok, b') := Allow now b in
  (ok, <[key := MkEntry b' now]> cache).

Definition cacheKey (key : string) (t : Tier) : string := (key ++ ":" ++ tier_string t)%string.
Definition tier_config (cfg : Config) (t : Tier) : TierConfig := match t with TierWrite => Write cfg | TierRead => Read cfg end.

(** [Middleware] *)
Definition Middleware (now : Z) (r : Request) (l : Limiter) : Verdict * Limiter :=
  let cfg := config l in
  if negb (Enabled cfg) || bool_decide (Path r = healthzPath) then (Served, l)
  else
    let tier := tierFromMethod (Method r) in
    let '(ok, g) := Allow now (global l) in
    if negb ok then (Limited "global" tier, MkLimiter cfg g (ipCache l) (userCache l))
    else
      let ip := extractIP cfg r in
      let '(ok, ips) := if bool_decide (ip = EmptyString) then (true, ipCache l) else use_bucket now (IP cfg) ip (ipCache l) in
      if negb ok then (Limited "ip" tier, MkLimiter cfg g ips (userCache l))
      else
        let '(ok, us) := if bool_decide (Authorization r = EmptyString) then (true, userCache l)
                         else use_bucket now (tier_config cfg tier) (cacheKey (hashKey (Authorization r)) tier) (userCache l) in
        if negb ok then (Limited "user" tier, MkLimiter cfg g ips us)
        else (Served, MkLimiter cfg g ips us).

Definition stale (cutoff : Z) (e : bucketEntry) : bool := lastUsed e <? cutoff.
(** [evict] *)
Definition evict (now : Z) (l : Limiter) : Limiter :=
  let cutoff := now - evictionInterval in
  let keep := filter (fun p : string * bucketEntry => stale cutoff p.2 = false) in
  MkLimiter (config l) (global l) (keep (ipCache l)) (keep (userCache l)).

Inductive Event := ERequest (r : Request) | EEvict.

Fixpoint serve (events : list (Z * Event)) (l : Limiter) : list Verdict :=
  match events with
  | [] => []
  | (now, ERequest r) :: rest => let '(v, l') := Middleware now r l in v :: serve rest l'
  | (now, EEvict) :: rest => serve rest (evict now l)
  end.

(** ** Specification: a bucket per key, for ever *)

Record Spec := MkSpec { sp_global : bucket; sp_ip : gmap string bucket; sp_user : gmap (string * Tier) bucket }.

Definition spec_use `{Countable K} (now : Z) (cfg : TierConfig) (key : K) (m : gmap K bucket) : bool * gmap K bucket :=
  let '(ok, b) := Allow now (default (NewLimiter cfg) (m !! key)) in (ok, <[key := b]> m).

Definition spec_request (cfg : Config) (now : Z) (r : Request) (s : Spec) : Verdict * Spec :=
  if negb (Enabled cfg) || bool_decide (Path r = healthzPath) then (Served, s)
  else
    let tier := tierFromMethod (Method r) in
    let '(ok, g) := Allow now (sp_global s) in
    if negb ok then (Limited "global" tier, MkSpec g (sp_ip s) (sp_user s))
    else
      let ip := extractIP cfg r in
      let '(ok, ips) := if bool_decide (ip = EmptyString) then (true, sp_ip s) else spec_use now (IP cfg) ip (sp_ip s) in
      if negb ok then (Limited "ip" tier, MkSpec g ips (sp_user s))
      else
        let '(ok, us) := if bool_decide (Authorization r = EmptyString) then (true, sp_user s)
                         else spec_use now (tier_config cfg tier) (hashKey (Authorization r), tier) (sp_user s) in
        if negb ok then (Limited "user" tier, MkSpec g ips us) else (Served, MkSpec g ips us).

Fixpoint spec_serve (cfg : Config) (events : list (Z * Event)) (s : Spec) : list Verdict :=
  match events with
  | [] => []
  | (now, ERequest r) :: rest => let '(v, s') := spec_request cfg now r s in v :: spec_serve cfg rest s'
  | (_, EEvict) :: rest => spec_serve cfg rest s
  end.

Fixpoint in_order (from : Z) (events : list (Z * Event)) : Prop :=
  match events with [] => True | (t, _) :: rest => from <= t /\ in_order t rest end.

(** ** Theory *)

(** A bucket of [cfg] last used at an instant. *)
Inductive used (cfg : TierConfig) : Z -> bucket -> Prop :=
  | used_new t : used cfg t (Allow t (NewLimiter cfg)).2
  | used_again t t' b : used cfg t b -> t <= t' -> used cfg t' (Allow t' b).2.

(** An idle bucket has refilled: it answers, and goes on, like a new one. *)
Definition refills (cfg : TierConfig) : Prop :=
  forall t t' b, used cfg t b -> t + evictionInterval < t' -> Allow t' b = Allow t' (NewLimiter cfg).

(** A cache entry and the eternal bucket of the same key, at [now]. *)
Definition agree (cfg : TierConfig) (now : Z) (ent : option bucketEntry) (b : option bucket) : Prop :=
  match ent with
  | Some e => b = Some (limiter e) /\ used cfg (lastUsed e) (limiter e) /\ lastUsed e <= now
  | None => match b with None => True | Some b => exists t, used cfg t b /\ t + evictionInterval < now end
  end.

Lemma rl_agree_later cfg now now' ent b : agree cfg now ent b -> now <= now' -> agree cfg now' ent b.
Proof.
  unfold agree. destruct ent as [e|].
  - intros (? & ? & ?) ?. split_and!; [done | done | lia].
  - destruct b; [| done]. intros (t & ? & ?) ?. exists t. split; [done | lia].
Qed.

Lemma rl_agree_evict cfg now ent b : agree cfg now ent b ->
  agree cfg now (match ent with Some e => if stale (now - evictionInterval) e then None else Some e | None => None end) b.
Proof.
  unfold agree, stale. destruct ent as [e|]; [| done]. intros (-> & Hu & Hl).
  destruct (Z.ltb_spec (lastUsed e) (now - evictionInterval)); [| done]. exists (lastUsed e). split; [done | lia].
Qed.

(** Taking a token gives the same answer on both sides and keeps them alike. *)
Lemma rl_agree_use cfg now ent b : refills cfg -> agree cfg now ent b ->
  Allow now (match ent with Some e => limiter e | None => newBucket cfg end) = Allow now (default (NewLimiter cfg) b) /\
  agree cfg now (Some (MkEntry (Allow now (default (NewLimiter cfg) b)).2 now)) (Some (Allow now (default (NewLimiter cfg) b)).2).
Proof.
  intros R A. unfold agree in A. destruct ent as [e|].
  - destruct A as (-> & Hu & Hl). simpl. split; [done |]. split_and!; [done | by econstructor | lia].
  - destruct b as [b|]; simpl.
    + destruct A as (t & Hu & Ht). rewrite (R t now b) by done. split; [done |]. split_and!; [done | by constructor | simpl; lia].
    + split; [done |]. split_and!; [done | by constructor | simpl; lia].
Qed.

(** A cache that stands for the eternal buckets [m], its keys being [name]s. *)
Definition cache_ok {K} `{Countable K} (name : K -> string) (cfg : K -> TierConfig) (now : Z)
    (cache : gmap string bucketEntry) (m : gmap K bucket) : Prop :=
  forall k, agree (cfg k) now (cache !! name k) (m !! k).

Lemma rl_use {K} `{Countable K} (name : K -> string) (cfg : K -> TierConfig) now cache m k :
  (forall k k', name k = name k' -> k = k') -> refills (cfg k) -> cache_ok name cfg now cache m ->
  let '(ok, cache') := use_bucket now (cfg k) (name k) cache in
  let '(ok', m') := spec_use now (cfg k) k m in ok = ok' /\ cache_ok name cfg now cache' m'.
Proof.
  intros Hinj R A. unfold use_bucket, spec_use. destruct (rl_agree_use (cfg k) now _ _ R (A k)) as [-> Hn].
  destruct (Allow now (default (NewLimiter (cfg k)) (m !! k))) as [ok b] eqn:E. split; [done |]. intros k'.
  destruct (decide (k' = k)) as [->|Hne]; [by rewrite !lookup_insert_eq |].
  rewrite !lookup_insert_ne; [apply A | congruence | intros ?; by apply Hne, Hinj].
Qed.

Lemma rl_later {K} `{Countable K} (name : K -> string) cfg now now' cache m :
  cache_ok name cfg now cache m -> now <= now' -> cache_ok name cfg now' cache m.
Proof. intros A Hl k. by eapply rl_agree_later. Qed.

Lemma rl_evict {K} `{Countable K} (name : K -> string) cfg now cache m : cache_ok name cfg now cache m ->
  cache_ok name cfg now (filter (fun p : string * bucketEntry => stale (now - evictionInterval) p.2 = false) cache) m.
Proof.
  intros A k. specialize (A k). apply rl_agree_evict in A. rewrite map_lookup_filter.
  destruct (cache !! name k) as [e|]; simpl in *; [| done]. destruct (stale (now - evictionInterval) e) eqn:E.
  - by rewrite option_guard_False.
  - by rewrite option_guard_True.
Qed.

(** Keys of different users and tiers never coincide. *)
Lemma rl_list_app x y : String.list_ascii_of_string (x ++ y)%string = String.list_ascii_of_string x ++ String.list_ascii_of_string y.
Proof. induction x as [|ch x IH]; simpl; [done |]. by rewrite IH. Qed.

Lemma rl_cacheKey_inj k t k' t' : cacheKey k t = cacheKey k' t' -> (k, t) = (k', t').
Proof.
  unfold cacheKey. intros E. apply (f_equal String.list_ascii_of_string) in E. rewrite !rl_list_app in E.
  assert (t = t') as <-.
  { apply (f_equal last) in E. destruct t, t'; simpl in E; rewrite !last_app_cons in E; done. }
  apply app_inv_tail in E. f_equal. rewrite <- (String.string_of_list_ascii_of_string k), E.
  apply String.string_of_list_ascii_of_string.
Qed.

(** The middleware and the specification stand for each other. *)
Definition sim (now : Z) (l : Limiter) (s : Spec) : Prop :=
  global l = sp_global s /\ cache_ok (fun ip => ip) (fun _ => IP (config l)) now (ipCache l) (sp_ip s) /\
  cache_ok (fun '(k, t) => cacheKey k t) (fun '(_, t) => tier_config (config l) t) now (userCache l) (sp_user s).

Definition all_refill (cfg : Config) : Prop := refills (IP cfg) /\ refills (Read cfg) /\ refills (Write cfg).

Lemma rl_tier_refills cfg t : all_refill cfg -> refills (tier_config cfg t).
Proof. intros (_ & Hr & Hw). by destruct t. Qed.

Lemma rl_request now r l s : all_refill (config l) -> sim now l s ->
  let '(v, l') := Middleware now r l in
  let '(v', s') := spec_request (config l) now r s in v = v' /\ config l' = config l /\ sim now l' s'.
Proof.
  intros R (Hg & Hi & Hu). unfold Middleware, spec_request. rewrite Hg.
  destruct (negb (Enabled (config l)) || _); [done |]. destruct (Allow now (sp_global s)) as [[] g]; simpl; [| by split_and!].
  set (ip := extractIP (config l) r). set (tier := tierFromMethod (Method r)). set (key := hashKey (Authorization r)).
  assert (let '(ok, ips) := if bool_decide (ip = EmptyString) then (true, ipCache l) else use_bucket now (IP (config l)) ip (ipCache l) in
    let '(ok', ips') := if bool_decide (ip = EmptyString) then (true, sp_ip s) else spec_use now (IP (config l)) ip (sp_ip s) in
    ok = ok' /\ cache_ok (fun ip => ip) (fun _ => IP (config l)) now ips ips') as Hip.
  { case_bool_decide; [done |]. apply (rl_use (fun ip => ip) (fun _ => IP (config l)) now _ _ ip); [done | apply R | done]. }
  destruct (if bool_decide (ip = EmptyString) then _ else use_bucket _ _ _ _) as [ok ips].
  destruct (if bool_decide (ip = EmptyString) then _ else spec_use _ _ _ _) as [ok' ips']. destruct Hip as [<- Hip].
  destruct ok; simpl; [| by split_and!].
  assert (let '(ok, us) := if bool_decide (Authorization r = EmptyString) then (true, userCache l)
      else use_bucket now (tier_config (config l) tier) (cacheKey key tier) (userCache l) in
    let '(ok', us') := if bool_decide (Authorization r = EmptyString) then (true, sp_user s)
      else spec_use now (tier_config (config l) tier) (key, tier) (sp_user s) in
    ok = ok' /\ cache_ok (fun '(k, t) => cacheKey k t) (fun '(_, t) => tier_config (config l) t) now us us') as Hus.
  { case_bool_decide; [done |].
    apply (rl_use (fun '(k, t) => cacheKey k t) (fun '(_, t) => tier_config (config l) t) now _ _ (key, tier)); [| by apply rl_tier_refills | done].
    intros [] []. apply rl_cacheKey_inj. }
  destruct (if bool_decide (Authorization r = EmptyString) then _ else use_bucket _ _ _ _) as [ok us].
  destruct (if bool_decide (Authorization r = EmptyString) then _ else spec_use _ _ _ _) as [ok' us']. destruct Hus as [<- Hus].
  by destruct ok.
Qed.

Lemma rl_serve cfg events : all_refill cfg -> forall now l s, config l = cfg -> sim now l s -> in_order now events ->
  serve events l = spec_serve cfg events s.
Proof.
  intros R. induction events as [|[t e] events IH]; intros now l s Hc S Ho; [done |]. destruct Ho as [Hle Ho].
  assert (sim t l s) as S' by (destruct S as (? & ? & ?); split_and!; [done | by eapply rl_later | by eapply rl_later]).
  destruct e as [r|]; simpl.
  - subst cfg. pose proof (rl_request t r l s R S') as H. destruct (Middleware t r l) as [v l'].
    destruct (spec_request (config l) t r s) as [v' s']. destruct H as (-> & Hc & S2). f_equal. by eapply IH.
  - eapply IH; [done | | done]. destruct S' as (? & ? & ?). split_and!; [done | by apply rl_evict | by apply rl_evict].
Qed.

(** C22: the caches and their eviction cannot be observed.  When the buckets of
    the configuration refill within the eviction interval, any sequence of
    requests and evictions, in the order of their times, is answered verdict
    by verdict as by a limiter that keeps one bucket for each address and one
    for each pair of a hashed Authorization header and a tier for ever: an
    eviction never gives a client new tokens, and buckets of different keys are
    never mixed. *)
Theorem ratelimit_eviction_invisible cfg start events : all_refill cfg -> in_order start events ->
  serve events (NewRateLimiter cfg) = spec_serve cfg events (MkSpec (NewLimiter (Global cfg)) ∅ ∅).
Proof.
  intros R Ho. eapply rl_serve; [done | done | | exact Ho]. split_and!; [done | |]; intros k; simpl; by rewrite !lookup_empty.
Qed.

(** The health check and a disabled limiter take no tokens. *)
Lemma ratelimit_exempt now r l : Enabled (config l) = false \/ Path r = healthzPath -> Middleware now r l = (Served, l).
Proof.
  intros H. unfold Middleware. destruct (negb (Enabled (config l)) || bool_decide (Path r = healthzPath)) eqn:E; [done |].
  apply orb_false_elim in E as [E1 E2]. apply negb_false_iff in E1. apply bool_decide_eq_false_1 in E2. destruct H; congruence.
Qed.
End RateLimit.

(** ** A concrete bucket *)

(** Tokens in units of 10^-9, refilled by elapsed nanoseconds. *)
Record Tokens := MkTokens { tk_cfg : TierConfig; tk_last : option Z; tk_left : Z }.

Definition rate (cfg : TierConfig) : Z := Qfloor (RPS cfg).
Definition capacity (cfg : TierConfig) : Z := Burst cfg * Second.
Definition refilled (now : Z) (b : Tokens) : Z :=
  match tk_last b with
  | None => capacity (tk_cfg b)
  | Some t => Z.min (capacity (tk_cfg b)) (tk_left b + (now - t) * rate (tk_cfg b))
  end.
Definition take_token (now : Z) (b : Tokens) : bool * Tokens :=
  let n := refilled now b in
  if Second <=? n then (true, MkTokens (tk_cfg b) (Some now) (n - Second)) else (false, MkTokens (tk_cfg b) (Some now) n).

#[export] Instance token_buckets : Buckets :=
  {| bucket := Tokens; NewLimiter := fun cfg => MkTokens cfg None (capacity cfg); Allow := take_token |}.

Lemma rl_tokens_used cfg t b : 0 <= capacity cfg -> 0 <= rate cfg -> used cfg t b -> tk_cfg b = cfg /\ tk_last b = Some t /\ 0 <= tk_left b.
Proof.
  intros Hc Hr U. induction U as [t|t t' b U IH Hle]; simpl in *.
  - unfold take_token. simpl. unfold refilled. simpl. destruct (Z.leb_spec Second (capacity cfg)); simpl; split_and!; try done; lia.
  - destruct IH as (E1 & E2 & E3). unfold take_token. assert (0 <= refilled t' b).
    { unfold refilled. rewrite E1, E2. assert (0 <= (t' - t) * rate cfg) by (apply Z.mul_nonneg_nonneg; lia). lia. }
    destruct (Z.leb_spec Second (refilled t' b)); simpl; split_and!; try done; lia.
Qed.

Lemma rl_tokens_refill cfg : 0 <= capacity cfg -> 0 <= rate cfg -> capacity cfg <= evictionInterval * rate cfg -> refills cfg.
Proof.
  intros Hc Hr Hf t t' b U Hlt. destruct (rl_tokens_used cfg t b Hc Hr U) as (E1 & E2 & E3). simpl. unfold take_token.
  replace (refilled t' b) with (capacity cfg); [by rewrite E1 |]. unfold refilled. rewrite E1, E2.
  assert (evictionInterval * rate cfg <= (t' - t) * rate cfg) by (apply Z.mul_le_mono_nonneg_r; lia). lia.
Qed.

Definition demo_tier : TierConfig := {| RPS := 1; Burst := 2 |}.
Definition demo_limits : Config := {| Enabled := true; TrustProxy := true; Read := demo_tier; Write := demo_tier; Global := demo_tier; IP := demo_tier |}.
Definition demo_request (ip : string) : Request :=
  {| Path := "/v1/runs"; Method := "GET"; RemoteAddr := "10.0.0.1:443"; XForwardedFor := ip; Authorization := "Bearer x" |}.
Definition demo_traffic : list (Z * Event) :=
  [(0, ERequest (demo_request "1.1.1.1, 10.0.0.1")); (0, ERequest (demo_request "")); (0, ERequest (demo_request ""));
   (400 * Second, EEvict); (400 * Second, ERequest (demo_request ""))].

Lemma ratelimit_eviction_invisible_witness : all_refill demo_limits /\ in_order 0 demo_traffic /\
  serve (fun s => s) demo_traffic (NewRateLimiter demo_limits) =
  spec_serve (fun s => s) demo_limits demo_traffic (MkSpec (NewLimiter (Global demo_limits)) ∅ ∅).
Proof.
  assert (refills demo_tier) as R by (apply rl_tokens_refill; vm_compute; discriminate).
  assert (all_refill demo_limits) as A by (split_and!; exact R).
  assert (in_order 0 demo_traffic) as O by (cbn; split_and!; vm_compute; discriminate || exact I).
  split; [exact A |]. split; [exact O |]. by apply (ratelimit_eviction_invisible (fun s => s) demo_limits 0).
Defined.

(** The address is the first entry of X-Forwarded-For, which a client chooses. *)
Example forwarded_for_is_trusted :
  (extractIP demo_limits (demo_request "spoofed-1, 203.0.113.7"), extractIP demo_limits (demo_request ""),
   SplitHost "[::1]:80", SplitHost "::1") = ("spoofed-1", "10.0.0.1", Some "::1", None).
Proof. vm_compute. reflexivity. Qed.
