(* ===== verification/Cors.v ===== *)
(** * cors: which origins a browser may call from

    [cors.go]: the allow-list, the middleware and the patterns for the
    websocket library.  A header map is a finite map to lists of values with
    Go's [Set] and [Add]; the wrapped handler is outside, the result says
    whether it is called.

    Theory: an origin is granted exactly when it is on the list or the list
    has a star, and what the websocket library is given agrees with it. *)

From S2P Require Import Prelude GoStrings.
From Stdlib Require Import Ascii.

Notation Header := (gmap string (list string)).
Definition Set_ (k v : string) (h : Header) : Header := <[k := [v]]> h.
Definition Add (k v : string) (h : Header) : Header := <[k := default [] (h !! k) ++ [v]]> h.

(** The loop of [New] over the entries. *)
Definition add_origin (acc : gset string * bool) (o : string) : gset string * bool :=
  let o := TrimSpace o in
  if bool_decide (o = EmptyString) then acc
  else if bool_decide (o = "*") then (acc.1, true)
  else ({[o]} ∪ acc.1, acc.2).
Definition allow_list (origins : string) : gset string * bool := foldl add_origin (∅, false) (Split ","%char origins).

Definition allow_origin : string := "Access-Control-Allow-Origin".

(** The [switch] on the request's origin. *)
Definition grant (allowed : gset string) (allowAll : bool) (origin : string) (h : Header) : Header :=
  if allowAll && negb (bool_decide (origin = EmptyString)) then Add "Vary" "Origin" (Set_ allow_origin origin h)
  else if allowAll then Set_ allow_origin "*" h
  else if bool_decide (origin ∈ allowed) then Add "Vary" "Origin" (Set_ allow_origin origin h)
  else h.

(** The headers of every response. *)
Definition fixed_headers (h : Header) : Header :=
  Set_ "Access-Control-Max-Age" "86400"
    (Set_ "Access-Control-Allow-Credentials" "true"
      (Set_ "Access-Control-Allow-Headers" "Authorization, Content-Type, tenant-id, Sec-WebSocket-Protocol, Sec-WebSocket-Extensions"
        (Set_ "Access-Control-Allow-Methods" "GET, POST, PUT, PATCH, DELETE, OPTIONS" h))).

(** What the middleware does: answer by itself, or call the handler. *)
Inductive Action := Answer (status : Z) | CallNext.

(** The middleware [New] returns, on a request with this origin and method. *)
Definition New (origins origin method : string) (h : Header) : Header * Action :=
  let '(allowed, allowAll) := allow_list origins in
  if bool_decide (origins = EmptyString) then (h, CallNext)
  else
    let h := fixed_headers (grant allowed allowAll origin h) in
    if bool_decide (method = "OPTIONS") then (h, Answer 204) else (h, CallNext).

(** [OriginPatterns] *)
Definition add_pattern (acc : list string * bool) (o : string) : list string * bool :=
  let o := TrimSpace o in
  if bool_decide (o = EmptyString) then acc
  else if bool_decide (o = "*") then (acc.1, true)
  else (acc.1 ++ [default o (after_first "://" o)], acc.2).
Definition OriginPatterns (origins : string) : list string * bool := foldl add_pattern ([], false) (Split ","%char origins).

(** ** Theory *)

(** The entries a list of origins means. *)
Definition entries (origins : string) : list string :=
  List.filter (fun o => negb (bool_decide (o = EmptyString))) (TrimSpace <$> Split ","%char origins).

Lemma co_allow ws acc : let r := foldl add_origin acc ws in
  let es := List.filter (fun o => negb (bool_decide (o = EmptyString))) (TrimSpace <$> ws) in
  (forall o, o ∈ r.1 <-> o ∈ acc.1 \/ (o ∈ es /\ o <> "*")) /\ r.2 = acc.2 || bool_decide ("*" ∈ es).
Proof.
  revert acc. induction ws as [|w ws IH]; intros acc; cbn [foldl fmap list_fmap List.filter].
  - split; [| by rewrite orb_false_r]. intros o. rewrite elem_of_nil. tauto.
  - destruct (IH (add_origin acc w)) as [H1 H2]. unfold add_origin in *. set (t := TrimSpace w) in *.
    destruct (decide (t = EmptyString)) as [E|E].
    + rewrite bool_decide_eq_true_2 in * by done. by split.
    + rewrite (bool_decide_eq_false_2 _ E) in *. cbn [negb]. destruct (decide (t = "*")) as [Es|Es].
      * rewrite bool_decide_eq_true_2 in * by done. cbn [fst snd] in *. split.
        -- intros o. rewrite H1, elem_of_cons, Es. destruct (decide (o = "*")) as [->|]; tauto.
        -- rewrite H2, Es. cbn [orb]. rewrite bool_decide_eq_true_2 by (by left). by rewrite orb_true_r.
      * rewrite (bool_decide_eq_false_2 _ Es) in *. cbn [fst snd] in *. split.
        -- intros o. rewrite H1, elem_of_union, elem_of_singleton, elem_of_cons.
           destruct (decide (o = t)) as [->|]; tauto.
        -- rewrite H2. f_equal. apply bool_decide_ext. rewrite elem_of_cons. split; [auto | by intros [?|?]].
Qed.

Lemma co_patterns ws acc : foldl add_pattern acc ws =
  let es := List.filter (fun o => negb (bool_decide (o = EmptyString))) (TrimSpace <$> ws) in
  (acc.1 ++ ((fun o => default o (after_first "://" o)) <$> List.filter (fun o => negb (bool_decide (o = "*"))) es), acc.2 || bool_decide ("*" ∈ es)).
Proof.
  revert acc. induction ws as [|w ws IH]; intros acc; cbn [foldl fmap list_fmap List.filter].
  - destruct acc. simpl. by rewrite app_nil_r, orb_false_r.
  - rewrite IH. unfold add_pattern. set (t := TrimSpace w). destruct (decide (t = EmptyString)) as [E|E].
    + rewrite bool_decide_eq_true_2 by done. done.
    + rewrite (bool_decide_eq_false_2 _ E). cbn [negb List.filter]. destruct (decide (t = "*")) as [Es|Es].
      * rewrite bool_decide_eq_true_2 by done. cbn [fst snd negb]. f_equal. rewrite Es. cbn [orb].
        rewrite bool_decide_eq_true_2 by (by left). by rewrite orb_true_r.
      * rewrite (bool_decide_eq_false_2 _ Es). cbn [fst snd negb fmap list_fmap]. rewrite <- app_assoc. f_equal.
        f_equal. apply bool_decide_ext. rewrite elem_of_cons. split; [auto | by intros [?|?]].
Qed.

Lemma co_fixed h : fixed_headers h !! allow_origin = h !! allow_origin.
Proof. unfold fixed_headers, Set_. by rewrite !lookup_insert_ne by done. Qed.

Lemma co_echo o h : Add "Vary" "Origin" (Set_ allow_origin o h) !! allow_origin = Some [o].
Proof. unfold Add. rewrite lookup_insert_ne by done. apply lookup_insert_eq. Qed.

(** With a configured list of origins, a browser's request (its origin is
    not empty) is granted its origin exactly when the list has that origin or
    a star, and the response then varies by origin; any other origin leaves
    the header as it was.  The websocket library is given the same decision:
    the same star, and one pattern for each listed origin. *)
Theorem cors_grants_listed_origins origins origin method h : origins <> EmptyString -> origin <> EmptyString ->
  let '(h', act) := New origins origin method h in
  h' !! allow_origin = (if bool_decide (origin ∈ entries origins \/ "*" ∈ entries origins) then Some [origin] else h !! allow_origin) /\
  (act = Answer 204 <-> method = "OPTIONS") /\
  OriginPatterns origins = ((fun o => default o (after_first "://" o)) <$> List.filter (fun o => negb (bool_decide (o = "*"))) (entries origins),
                            bool_decide ("*" ∈ entries origins)).
Proof.
  intros Ho Hor. destruct (New origins origin method h) as [h' act] eqn:E. unfold New in E.
  pose proof (co_allow (Split ","%char origins) (∅, false)) as [H1 H2]. fold (allow_list origins) in H1, H2. fold (entries origins) in H1, H2.
  destruct (allow_list origins) as [allowed allowAll]. cbn [fst snd orb] in *. rewrite bool_decide_eq_false_2 in E by done.
  split_and!.
  - assert (h' = fixed_headers (grant allowed allowAll origin h)) as -> by (destruct (bool_decide (method = "OPTIONS")); congruence).
    rewrite co_fixed. unfold grant. rewrite (bool_decide_eq_false_2 (origin = EmptyString)) by done. rewrite andb_true_r.
    destruct (decide ("*" ∈ entries origins)) as [Hs|Hs].
    + rewrite (bool_decide_eq_true_2 _ Hs) in H2. subst allowAll. rewrite bool_decide_eq_true_2 by (by right).
      apply co_echo.
    + rewrite (bool_decide_eq_false_2 _ Hs) in H2. subst allowAll. destruct (decide (origin ∈ entries origins)) as [Hi|Hi].
      * rewrite (bool_decide_eq_true_2 (origin ∈ allowed)), bool_decide_eq_true_2; [| by left |].
        -- apply co_echo.
        -- apply H1. right. split; [done |]. by intros ->.
      * rewrite (bool_decide_eq_false_2 (origin ∈ allowed)), bool_decide_eq_false_2; [done | tauto |].
        intros [He|[He _]]%H1; [by apply elem_of_empty in He | done].
  - destruct (decide (method = "OPTIONS")) as [->|Hm]; simpl in E.
    + split; [done |]. intros _. congruence.
    + rewrite bool_decide_eq_false_2 in E by done. split; [congruence | done].
  - unfold OriginPatterns. rewrite co_patterns. by fold (entries origins).
Qed.

(** A list written with commas means its words. *)
Lemma co_entries_join ws : ws <> [] -> Forall (no_sep ","%char) ws -> Forall trimmed ws -> Forall (fun w => w <> EmptyString) ws ->
  entries (join ","%char ws) = ws.
Proof.
  intros Hne Hs Ht Hn. unfold entries. rewrite Split_join by done. clear Hne Hs.
  induction ws as [|w ws IH]; [done |]. apply Forall_cons in Ht as [Ht1 Ht]. apply Forall_cons in Hn as [Hn1 Hn].
  cbn [fmap list_fmap List.filter]. unfold trimmed in Ht1. rewrite Ht1, bool_decide_eq_false_2 by done. simpl. f_equal. by apply IH.
Qed.

Definition demo_origins : string := "https://app.example.com, https://*.dora.co".

Lemma cors_grants_listed_origins_witness :
  fst (New demo_origins "https://app.example.com" "GET" ∅) !! allow_origin = Some ["https://app.example.com"] /\
  OriginPatterns demo_origins = (["app.example.com"; "*.dora.co"], false).
Proof.
  pose proof (cors_grants_listed_origins demo_origins "https://app.example.com" "GET" ∅ ltac:(discriminate) ltac:(discriminate)) as H.
  destruct (New demo_origins "https://app.example.com" "GET" ∅) as [h' act]. destruct H as (H & _ & P). split.
  - exact H.
  - rewrite P. vm_compute. reflexivity.
Defined.

(** A star without a request origin sends the literal star together with
    credentials. *)
Example star_with_credentials :
  let h := (New "*" "" "GET" ∅).1 in (h !! allow_origin, h !! "Access-Control-Allow-Credentials") = (Some ["*"], Some ["true"]).
Proof. vm_compute. reflexivity. Qed.
