(* ===== verification/Concurrency.v ===== *)
(** * Goroutines that share a state

    A goroutine is a program of atomic actions: what it does while it holds a
    mutex, or one call of a component that has its own.  [Atom] may depend on
    a choice of the environment (does the database answer, which ready case
    of a select is taken) and may block; [Fork] is a [go] statement.  A system
    is the shared state and the goroutines; a label says who moves, so an
    interleaving is a list of labels.

    Theory: a rely-guarantee logic.  [safe] proves that a goroutine keeps an
    invariant and a guarantee whatever the others do, from preconditions that
    the others cannot break; [cc_sound] lifts it to every interleaving. *)

From S2P Require Import Prelude.

Inductive prog (St Ch A : Type) : Type :=
  | Ret (a : A)
  | Atom (f : Ch -> St -> option (St * prog St Ch A))
  | Fork (child : prog St Ch unit) (k : prog St Ch A).
Arguments Ret {St Ch A} a.
Arguments Atom {St Ch A} f.
Arguments Fork {St Ch A} child k.

Fixpoint bind {St Ch A B} (p : prog St Ch A) (k : A -> prog St Ch B) : prog St Ch B :=
  match p with
  | Ret a => k a
  | Atom f => Atom (fun c s => match f c s with Some (s', p') => Some (s', bind p' k) | None => None end)
  | Fork c q => Fork c (bind q k)
  end.

#[export] Instance prog_ret St Ch : MRet (prog St Ch) := fun A => Ret.
#[export] Instance prog_bind St Ch : MBind (prog St Ch) := fun A B k p => bind p k.

(** The common actions: a critical section that always succeeds, one that
    waits until its condition holds, a [go] statement. *)
Definition atomic {St Ch A} (f : Ch -> St -> St * A) : prog St Ch A :=
  Atom (fun c s => Some ((f c s).1, Ret (f c s).2)).
Definition read {St Ch A} (f : St -> A) : prog St Ch A := atomic (fun _ s => (s, f s)).
Definition update {St Ch} (f : St -> St) : prog St Ch unit := atomic (fun _ s => (f s, tt)).
Definition choose {St Ch A} (f : Ch -> A) : prog St Ch A := atomic (fun c s => (s, f c)).
Definition await {St Ch A} (f : Ch -> St -> option A) : prog St Ch A :=
  Atom (fun c s => match f c s with Some a => Some (s, Ret a) | None => None end).
Definition go {St Ch} (p : prog St Ch unit) : prog St Ch unit := Fork p (Ret tt).

(** A goroutine that runs alone, with the same choice all along; what it starts
    is left to run later. *)
Fixpoint solo {St Ch A} (c : Ch) (p : prog St Ch A) (s : St) : option (St * A) :=
  match p with
  | Ret a => Some (s, a)
  | Atom f => match f c s with Some (s', p') => solo c p' s' | None => None end
  | Fork _ k => solo c k s
  end.

Lemma solo_bind {St Ch A B} (c : Ch) (p : prog St Ch A) (k : A -> prog St Ch B) s :
  solo c (bind p k) s = match solo c p s with Some (s', a) => solo c (k a) s' | None => None end.
Proof.
  revert A p k s. fix IH 2. intros A p k s. destruct p as [a | f | ch q]; simpl; [done | |].
  - destruct (f c s) as [[s' p']|]; [| done]. exact (IH A p' k s').
  - exact (IH A q k s).
Qed.

(** ** Systems *)

(** A goroutine and on whose behalf it runs. *)
Record thread (St Ch Tag : Type) := MkThread { th_tag : Tag; th_prog : prog St Ch unit }.
Arguments MkThread {St Ch Tag} _ _.
Arguments th_tag {St Ch Tag} _.
Arguments th_prog {St Ch Tag} _.

Record system (St Ch Tag : Type) := MkSystem { shared : St; threads : list (thread St Ch Tag) }.
Arguments MkSystem {St Ch Tag} _ _.
Arguments shared {St Ch Tag} _.
Arguments threads {St Ch Tag} _.

(** Goroutine [n] moves; the world moves; a request arrives. *)
Inductive label (Ch Ev Req : Type) := LThread (n : nat) (c : Ch) | LEnv (e : Ev) | LArrive (r : Req).
Arguments LThread {Ch Ev Req} n c.
Arguments LEnv {Ch Ev Req} e.
Arguments LArrive {Ch Ev Req} r.

Section System.
Context {St Ch Tag Ev Req : Type}.
Variable env : Ev -> St -> option St.
Variable serve : Req -> thread St Ch Tag.
Notation system := (system St Ch Tag).
Notation label := (label Ch Ev Req).

Definition sys_step (l : label) (s : system) : option system :=
  match l with
  | LThread n c =>
      match threads s !! n with
      | Some (MkThread t (Atom f)) =>
          match f c (shared s) with
          | Some (st', p') => Some (MkSystem st' (<[n := MkThread t p']> (threads s)))
          | None => None
          end
      | Some (MkThread t (Fork ch k)) => Some (MkSystem (shared s) (<[n := MkThread t k]> (threads s) ++ [MkThread t ch]))
      | _ => None
      end
  | LEnv e => match env e (shared s) with Some st' => Some (MkSystem st' (threads s)) | None => None end
  | LArrive r => Some (MkSystem (shared s) (threads s ++ [serve r]))
  end.

Fixpoint sys_run (ls : list label) (s : system) : option system :=
  match ls with
  | [] => Some s
  | l :: rest => match sys_step l s with Some s' => sys_run rest s' | None => None end
  end.

Lemma cc_run_app ls1 ls2 s : sys_run (ls1 ++ ls2) s = match sys_run ls1 s with Some s' => sys_run ls2 s' | None => None end.
Proof. revert s. induction ls1 as [|l ls1 IH]; intros s; simpl; [done |]. by destruct (sys_step l s). Qed.
End System.

(** ** Rely-guarantee

    Some facts are true because nobody else has the right to change them: the
    goroutine that drew a fresh id is the only one to use it.  So a goroutine
    holds tokens, disjoint from everybody else's, and its preconditions may
    mention them.  [V s] are the tokens given out so far. *)

Section Tokens.
Context {St Ch Tag Ev Req K : Type} `{Countable K}.
Notation tokens := (gset K).
Variable I : St -> Prop.                                     (* the invariant of the shared state *)
Variable V : St -> tokens.
Variable G : Tag -> tokens -> tokens -> St -> St -> Prop.    (* what a goroutine may do, and to its tokens *)
Variable R : tokens -> St -> St -> Prop.                     (* what a holder of tokens can rely on *)

(** Facts that survive the steps of the others. *)
Definition tstable (P : tokens -> St -> Prop) : Prop := forall x s s', I s -> I s' -> R x s s' -> P x s -> P x s'.

(** From [P] the goroutine keeps [I] and [G] at every step, whatever moves
    in between, and ends in [Q].  A forked goroutine starts without tokens. *)
Fixpoint tsafe (t : Tag) {A : Type} (p : prog St Ch A) : (tokens -> St -> Prop) -> (A -> tokens -> St -> Prop) -> Prop :=
  match p with
  | Ret a => fun P Q => forall x s, I s -> P x s -> Q a x s
  | Atom f => fun P Q => forall c x s, I s -> P x s ->
      match f c s with
      | Some (s', p') => exists x', I s' /\ G t x x' s s' /\ exists P', tstable P' /\ P' x' s' /\ tsafe t p' P' Q
      | None => True
      end
  | Fork ch k => fun P Q => tsafe t k P Q /\
      forall x s, I s -> P x s -> exists P1, tstable P1 /\ P1 ∅ s /\ tsafe t ch P1 (fun _ _ _ => True)
  end.

Lemma tsafe_pre t {A} (p : prog St Ch A) (P P' : tokens -> St -> Prop) Q :
  (forall x s, I s -> P x s -> P' x s) -> tsafe t p P' Q -> tsafe t p P Q.
Proof.
  revert A p P P' Q. fix IH 2. intros A p P P' Q HP. destruct p as [a | f | ch k]; simpl.
  - auto.
  - intros Hf c x s Is Ps. apply Hf; auto.
  - intros (Hk & Hc). split; [exact (IH A k P P' Q HP Hk) | eauto].
Qed.

Lemma tsafe_post t {A} (p : prog St Ch A) (P : tokens -> St -> Prop) (Q Q' : A -> tokens -> St -> Prop) :
  (forall a x s, I s -> Q a x s -> Q' a x s) -> tsafe t p P Q -> tsafe t p P Q'.
Proof.
  revert A p P Q Q'. fix IH 2. intros A p P Q Q' HQ. destruct p as [a | f | ch k]; simpl.
  - auto.
  - intros Hf c x s Is Ps. specialize (Hf c x s Is Ps). destruct (f c s) as [[s' p']|]; [| done].
    destruct Hf as (x' & I' & G' & P' & SP & HP & S). exists x'. split_and!; [done.. |]. exists P'. split_and!; [done.. |].
    exact (IH A p' P' Q Q' HQ S).
  - intros (Hk & Hc). split; [exact (IH A k P Q Q' HQ Hk) | done].
Qed.

Lemma tsafe_bind t {A B} (p : prog St Ch A) (k : A -> prog St Ch B) (P : tokens -> St -> Prop) Q Q' :
  tsafe t p P Q -> (forall a, tsafe t (k a) (Q a) Q') -> tsafe t (bind p k) P Q'.
Proof.
  revert A p k P Q Q'. fix IH 2. intros A p k P Q Q' HP Hk. destruct p as [a | f | ch q]; simpl.
  - eapply tsafe_pre; [exact HP | apply Hk].
  - intros c x s Is Ps. specialize (HP c x s Is Ps). destruct (f c s) as [[s' p']|]; [| done].
    destruct HP as (x' & I' & G' & P' & SP & H' & S). exists x'. split_and!; [done.. |]. exists P'. split_and!; [done.. |].
    exact (IH A p' k P' Q Q' S Hk).
  - destruct HP as (Hq & Hc). split; [exact (IH A q k P Q Q' Hq Hk) | done].
Qed.

(** A fact established by the values read so far. *)
Lemma tsafe_pure t {A} (p : prog St Ch A) (P : tokens -> St -> Prop) (X : Prop) Q :
  (X -> tsafe t p P Q) -> tsafe t p (fun x s => P x s /\ X) Q.
Proof.
  revert A p Q. fix IH 2. intros A p Q Hp. destruct p as [a | f | ch k]; simpl in *.
  - intros x s Is [Ps HX]. by apply Hp.
  - intros c x s Is [Ps HX]. by apply Hp.
  - split.
    + apply (IH A k Q). intros HX. apply (Hp HX).
    + intros x s Is [Ps HX]. destruct (Hp HX) as [_ Hc]. by apply (Hc x s).
Qed.

Lemma tsafe_ex t {A B} (p : prog St Ch A) (P : B -> tokens -> St -> Prop) Q :
  (forall b, tsafe t p (P b) Q) -> tsafe t p (fun x s => exists b, P b x s) Q.
Proof.
  revert A p Q. fix IH 2. intros A p Q Hp. destruct p as [a | f | ch k]; simpl in *.
  - intros x s Is [b Pb]. by apply (Hp b).
  - intros c x s Is [b Pb]. by apply (Hp b).
  - split; [apply (IH A k Q); intros b; apply (Hp b) |]. intros x s Is [b Pb]. destruct (Hp b) as [_ Hc]. by apply (Hc x s).
Qed.

(** One critical section; one that waits; a [go] statement. *)
Lemma tsafe_atomic t {A} (f : Ch -> St -> St * A) (P : tokens -> St -> Prop) (Q : A -> tokens -> St -> Prop) :
  (forall c x s, I s -> P x s -> exists x', I (f c s).1 /\ G t x x' s (f c s).1 /\ Q (f c s).2 x' (f c s).1) ->
  (forall a, tstable (Q a)) -> tsafe t (atomic f) P Q.
Proof.
  intros Hf SQ c x s Is Ps. destruct (Hf c x s Is Ps) as (x' & I' & G' & Q'). exists x'. split_and!; [done.. |].
  exists (Q (f c s).2). split_and!; [apply SQ | done |]. by intros y z _ Hz.
Qed.

Lemma tsafe_await t {A} (f : Ch -> St -> option A) (P : tokens -> St -> Prop) (Q : A -> tokens -> St -> Prop) :
  (forall x s, I s -> G t x x s s) -> (forall c x s a, I s -> P x s -> f c s = Some a -> Q a x s) ->
  (forall a, tstable (Q a)) -> tsafe t (await f) P Q.
Proof.
  intros HG Hf SQ c x s Is Ps. destruct (f c s) as [a|] eqn:E; [| done]. exists x. split_and!; [done | auto |].
  exists (Q a). split_and!; [apply SQ | eauto |]. by intros y z _ Hz.
Qed.

Lemma tsafe_go t (p : prog St Ch unit) (P P1 : tokens -> St -> Prop) : tstable P1 -> (forall x s, I s -> P x s -> P1 ∅ s) ->
  tsafe t p P1 (fun _ _ _ => True) -> tsafe t (go p) P (fun _ => P).
Proof. intros SP HP Hp. split; [by intros x s _ Ps |]. intros x s Is Ps. exists P1. eauto. Qed.

(** A stable fact the program does not depend on. *)
Lemma tsafe_frame t {A} (p : prog St Ch A) (P : tokens -> St -> Prop) (X : St -> Prop) Q :
  (forall x x' s s', I s -> I s' -> G t x x' s s' -> X s -> X s') -> tstable (fun _ => X) ->
  tsafe t p P Q -> tsafe t p (fun x s => P x s /\ X s) (fun a x s => Q a x s /\ X s).
Proof.
  intros GX SX. revert A p P Q. fix IH 2. intros A p P Q. destruct p as [a | f | ch q]; simpl.
  - intros Hp x s Is [Ps Xs]. auto.
  - intros Hf c x s Is [Ps Xs]. specialize (Hf c x s Is Ps). destruct (f c s) as [[s' p']|]; [| done].
    destruct Hf as (x' & I' & G' & P' & SP & HP & S). assert (X s') as Xs' by eauto. exists x'. split_and!; [done.. |].
    exists (fun x s => P' x s /\ X s). split_and!; [| done | done | exact (IH A p' P' Q S)].
    intros y s1 s2 I1 I2 HR [H1 H2]. split; [by apply (SP y s1 s2) | by apply (SX y s1 s2)].
  - intros (Hq & Hc). split; [exact (IH A q P Q Hq) |]. intros x s Is [Ps Xs]. by apply (Hc x s).
Qed.

(** What a goroutine holds apart from the program it runs next: [F] of the
    tokens set aside survives the steps of the program with the others. *)
Lemma tsafe_aside t {A} (p : prog St Ch A) (P F : tokens -> St -> Prop) Q : tstable F ->
  (forall x y s s', y ⊆ x -> R x s s' -> R y s s') ->
  (forall x x' y s s', I s -> I s' -> G t x x' s s' -> x ## y -> F y s -> F y s' /\ x' ## y /\ G t (x ∪ y) (x' ∪ y) s s') ->
  tsafe t p P Q ->
  tsafe t p (fun x s => exists a b, x = a ∪ b /\ a ## b /\ P a s /\ F b s) (fun r x s => exists a b, x = a ∪ b /\ a ## b /\ Q r a s /\ F b s).
Proof.
  intros SF HR HG. revert A p P Q. fix IH 2. intros A p P Q. destruct p as [r | f | ch k]; simpl.
  - intros Hp x s Is (a & b & -> & D & Pa & Fb). exists a, b. auto.
  - intros Hf c x s Is (a & b & -> & D & Pa & Fb). specialize (Hf c a s Is Pa). destruct (f c s) as [[s' p']|]; [| done].
    destruct Hf as (a' & I' & G' & P' & SP & HP & S). destruct (HG a a' b s s' Is I' G' D Fb) as (Fb' & D' & G2).
    exists (a' ∪ b). split_and!; [done | done |].
    exists (fun x s => exists a b, x = a ∪ b /\ a ## b /\ P' a s /\ F b s). split_and!; [| by exists a', b | exact (IH A p' P' Q S)].
    intros x s1 s2 I1 I2 HR' (u & v & -> & D2 & Pu & Fv). exists u, v. split_and!; [done | done | |].
    + apply (SP u s1); [done | done | apply (HR (u ∪ v)); [set_solver | done] | done].
    + apply (SF v s1); [done | done | apply (HR (u ∪ v)); [set_solver | done] | done].
  - intros (Hk & Hc). split; [exact (IH A k P Q Hk) |]. intros x s Is (a & b & _ & _ & Pa & _). exact (Hc a s Is Pa).
Qed.

(** *** Every interleaving *)

Variable env : Ev -> St -> option St.
Variable serve : Req -> thread St Ch Tag.
Variable admissible : Req -> Prop.

Hypothesis G_R : forall t x x' y s s', I s -> I s' -> G t x x' s s' -> x ## y -> x ⊆ V s -> y ⊆ V s ->
  R y s s' /\ x' ## y /\ x' ⊆ V s' /\ V s ⊆ V s'.
Hypothesis env_ok : forall e s s', I s -> env e s = Some s' -> I s' /\ V s ⊆ V s' /\ forall y, R y s s'.
Hypothesis serve_safe : forall r, admissible r ->
  exists P, tstable P /\ (forall s, I s -> P ∅ s) /\ tsafe (th_tag (serve r)) (th_prog (serve r)) P (fun _ _ _ => True).

Definition tthread (s : St) (x : tokens) (th : thread St Ch Tag) : Prop :=
  x ⊆ V s /\ exists P, tstable P /\ P x s /\ tsafe (th_tag th) (th_prog th) P (fun _ _ _ => True).

(** The goroutines are safe with disjoint tokens. *)
Record tsys (s : system St Ch Tag) : Prop := {
  ts_inv : I (shared s);
  ts_threads : exists xs, Forall2 (tthread (shared s)) xs (threads s) /\
    forall i j x y, xs !! i = Some x -> xs !! j = Some y -> i <> j -> x ## y;
}.

Definition label_ok (l : label Ch Ev Req) : Prop :=
  match l with LArrive r => admissible r | _ => True end.

Lemma tthread_stable s s' x th : I s -> I s' -> R x s s' -> V s ⊆ V s' -> tthread s x th -> tthread s' x th.
Proof. intros Is Is' HR HV (Hx & P & SP & HP & S). split; [set_solver |]. exists P. split_and!; [done | by apply (SP x s s') | done]. Qed.

(** One goroutine moves, with its tokens. *)
Lemma tsys_move s s' ts xs n th th' x x' : I s -> I s' ->
  Forall2 (tthread s) xs ts -> (forall i j a b, xs !! i = Some a -> xs !! j = Some b -> i <> j -> a ## b) ->
  ts !! n = Some th -> xs !! n = Some x ->
  (forall y, x ## y -> y ⊆ V s -> R y s s' /\ x' ## y /\ V s ⊆ V s') -> tthread s' x' th' ->
  Forall2 (tthread s') (<[n := x']> xs) (<[n := th']> ts) /\
  forall i j a b, <[n := x']> xs !! i = Some a -> <[n := x']> xs !! j = Some b -> i <> j -> a ## b.
Proof.
  intros Is Is' F D Hn Hx Hy Ht. assert (n < length xs)%nat as Hl by by eapply lookup_lt_Some.
  assert (forall j y, j <> n -> xs !! j = Some y -> R y s s' /\ x' ## y /\ V s ⊆ V s') as Hother.
  { intros j y Hj E. apply Hy; [by apply (D n j) |]. destruct (Forall2_lookup_l _ _ _ _ _ F E) as (z & _ & Hz & _). done. }
  split.
  - apply Forall2_same_length_lookup. split; [rewrite !length_insert; by eapply Forall2_length |].
    intros j y th1 Hj Hj'. destruct (decide (j = n)) as [->|Hne].
    + rewrite list_lookup_insert_eq in Hj by done. rewrite list_lookup_insert_eq in Hj' by by eapply lookup_lt_Some. congruence.
    + rewrite list_lookup_insert_ne in Hj by done. rewrite list_lookup_insert_ne in Hj' by done. destruct (Hother j y Hne Hj) as (HR & _ & HV).
      apply (tthread_stable s); [done.. |]. eapply Forall2_lookup_lr; [exact F | done..].
  - intros i j a b. destruct (decide (i = n)) as [->|Hi], (decide (j = n)) as [->|Hj]; [done | | |];
      rewrite ?list_lookup_insert_eq, ?list_lookup_insert_ne by done.
    + intros [= <-] Hb _. by apply (Hother j b).
    + intros Ha [= <-] _. symmetry. by apply (Hother i a).
    + apply D.
Qed.

(** A goroutine is added, without tokens. *)
Lemma tsys_add s ts xs th : Forall2 (tthread s) xs ts -> (forall i j a b, xs !! i = Some a -> xs !! j = Some b -> i <> j -> a ## b) ->
  tthread s ∅ th -> Forall2 (tthread s) (xs ++ [∅]) (ts ++ [th]) /\
  forall i j a b, (xs ++ [∅]) !! i = Some a -> (xs ++ [∅]) !! j = Some b -> i <> j -> a ## b.
Proof.
  intros F D Ht. split; [apply Forall2_app; [done | by constructor] |]. intros i j a b.
  rewrite !lookup_app_Some. intros [Hi|[_ [_ <-]%list_lookup_singleton_Some]] [Hj|[_ [_ <-]%list_lookup_singleton_Some]]; [by apply (D i j) | set_solver..].
Qed.

Lemma tsys_step l s s' : label_ok l -> sys_step env serve l s = Some s' -> tsys s -> tsys s'.
Proof.
  intros Hl Hs [Is (xs & F & D)]. destruct s as [st ts]; simpl in *. destruct l as [n c | e | r]; simpl in Hs.
  - destruct (ts !! n) as [[t p]|] eqn:E; [| done].
    destruct (Forall2_lookup_r _ _ _ _ _ F E) as (x & Hx & HV & P & SP & HP & S).
    destruct p as [a | f | ch k]; [done | |].
    + destruct (f c st) as [[st' p']|] eqn:Ef; [| done]. injection Hs as <-. simpl in S. specialize (S c x st Is HP). rewrite Ef in S.
      destruct S as (x' & I' & G' & P' & SP' & HP' & S').
      assert (x' ⊆ V st') as Hv by (apply (G_R t x x' ∅ st st'); set_solver).
      split; [done |]. exists (<[n := x']> xs). simpl. eapply tsys_move; [exact Is | exact I' | done.. | | ].
      * intros y Hy Hyv. by destruct (G_R t x x' y st st' Is I' G' Hy HV Hyv) as (? & ? & ? & ?).
      * split; [exact Hv |]. by exists P'.
    + injection Hs as <-. destruct S as [Sk Sc]. destruct (Sc x st Is HP) as (P1 & SP1 & HP1 & S1). split; [done |].
      exists (xs ++ [∅]). simpl.
      assert (Forall2 (tthread st) xs (<[n := MkThread t k]> ts)) as F'.
      { apply Forall2_same_length_lookup. split; [rewrite length_insert; by eapply Forall2_length |].
        intros j y th Hj Hj'. destruct (decide (j = n)) as [->|Hne].
        - rewrite list_lookup_insert_eq in Hj' by by eapply lookup_lt_Some. injection Hj' as <-. rewrite Hx in Hj. injection Hj as <-.
          split; [done |]. by exists P.
        - rewrite list_lookup_insert_ne in Hj' by done. by eapply Forall2_lookup_lr. }
      apply tsys_add; [done | done |]. split; [set_solver |]. by exists P1.
  - destruct (env e st) as [st'|] eqn:Ee; [| done]. injection Hs as <-. destruct (env_ok _ _ _ Is Ee) as (I' & HV & R').
    split; [done |]. exists xs. simpl. split; [| done]. eapply Forall2_impl; [exact F |]. intros x th. by apply tthread_stable.
  - injection Hs as <-. split; [done |]. exists (xs ++ [∅]). simpl. apply tsys_add; [done | done |].
    destruct (serve_safe r Hl) as (P & SP & HP & S). split; [set_solver |]. exists P. auto.
Qed.

Lemma tc_sound ls s s' : Forall label_ok ls -> sys_run env serve ls s = Some s' -> tsys s -> tsys s'.
Proof.
  intros Hls. revert s. induction Hls as [|l ls Hl _ IH]; intros s Hs Hi; simpl in Hs; [by injection Hs as <- |].
  destruct (sys_step env serve l s) as [s1|] eqn:E; [| done]. eapply IH; [exact Hs |]. by eapply tsys_step.
Qed.

Lemma tc_start s : I s -> tsys (MkSystem s []).
Proof. intros Is. split; [done |]. exists []. by split. Qed.

(** The guarantee of the goroutine that moves. *)
Lemma tc_guarantee n c s1 s2 t p : tsys s1 -> threads s1 !! n = Some (MkThread t p) ->
  sys_step env serve (LThread n c) s1 = Some s2 -> shared s2 = shared s1 \/ exists x x', G t x x' (shared s1) (shared s2).
Proof.
  intros [Is (xs & F & D)] Hn H2. simpl in H2. rewrite Hn in H2.
  destruct (Forall2_lookup_r _ _ _ _ _ F Hn) as (x & Hx & HV & P & SP & HP & S).
  destruct p as [a | f | ch k]; [done | | left; by injection H2 as <-].
  destruct (f c (shared s1)) as [[st' p']|] eqn:Ef; [| done]. injection H2 as <-. right.
  simpl in S. specialize (S c x _ Is HP). rewrite Ef in S. destruct S as (x' & _ & G' & _). by exists x, x'.
Qed.
End Tokens.

(** ** Without tokens *)

Section RelyGuarantee.
Context {St Ch Tag Ev Req : Type}.
Variable I : St -> Prop.
Variable G : Tag -> St -> St -> Prop.
Variable R : St -> St -> Prop.

Definition keep_tokens (t : Tag) (x x' : gset nat) (s s' : St) : Prop := x' = x /\ G t s s'.
Definition stable (P : St -> Prop) : Prop := tstable I (fun _ : gset nat => R) (fun _ => P).
Definition safe (t : Tag) {A} (p : prog St Ch A) (P : St -> Prop) (Q : A -> St -> Prop) : Prop :=
  tsafe I keep_tokens (fun _ => R) t p (fun _ => P) (fun a _ => Q a).

Lemma safe_pre t {A} (p : prog St Ch A) (P P' : St -> Prop) Q : (forall s, I s -> P s -> P' s) -> safe t p P' Q -> safe t p P Q.
Proof. intros HP. apply tsafe_pre. auto. Qed.
Lemma safe_post t {A} (p : prog St Ch A) (P : St -> Prop) (Q Q' : A -> St -> Prop) :
  (forall a s, I s -> Q a s -> Q' a s) -> safe t p P Q -> safe t p P Q'.
Proof. intros HQ. apply tsafe_post. auto. Qed.
Lemma safe_ret t {A} (a : A) (P : St -> Prop) (Q : A -> St -> Prop) : (forall s, I s -> P s -> Q a s) -> safe t (Ret a) P Q.
Proof. intros HQ x. apply HQ. Qed.
Lemma safe_bind t {A B} (p : prog St Ch A) (k : A -> prog St Ch B) (P : St -> Prop) Q Q' :
  safe t p P Q -> (forall a, safe t (k a) (Q a) Q') -> safe t (bind p k) P Q'.
Proof. apply (tsafe_bind I keep_tokens (fun _ => R) t p k (fun _ => P) (fun a _ => Q a) (fun a _ => Q' a)). Qed.
Lemma safe_pure t {A} (p : prog St Ch A) (P : St -> Prop) (X : Prop) Q : (X -> safe t p P Q) -> safe t p (fun s => P s /\ X) Q.
Proof. apply (tsafe_pure I keep_tokens (fun _ => R) t p (fun _ => P) X (fun a _ => Q a)). Qed.
Lemma safe_frame t {A} (p : prog St Ch A) (P X : St -> Prop) Q : (forall s s', G t s s' -> R s s') -> stable X ->
  safe t p P Q -> safe t p (fun s => P s /\ X s) (fun a s => Q a s /\ X s).
Proof.
  intros GR SX. apply (tsafe_frame I keep_tokens (fun _ => R) t p (fun _ => P) X (fun a _ => Q a)); [| done].
  intros x x' s s' Is Is' [_ Hg]. apply (SX x s s'); auto.
Qed.

(** A critical section of any shape. *)
Lemma safe_atom t {A} (f : Ch -> St -> option (St * prog St Ch A)) (P : St -> Prop) Q :
  (forall c s, I s -> P s -> match f c s with
     | Some (s', p') => I s' /\ G t s s' /\ exists P', stable P' /\ P' s' /\ safe t p' P' Q
     | None => True
     end) -> safe t (Atom f) P Q.
Proof.
  intros Hf c x s Is Ps. specialize (Hf c s Is Ps). destruct (f c s) as [[s' p']|]; [| done].
  destruct Hf as (I' & G' & P' & SP & HP & S). exists x. split_and!; [done | by split |]. by exists (fun _ => P').
Qed.
Lemma safe_atomic t {A} (f : Ch -> St -> St * A) (P : St -> Prop) (Q : A -> St -> Prop) :
  (forall c s, I s -> P s -> I (f c s).1 /\ G t s (f c s).1 /\ Q (f c s).2 (f c s).1) ->
  (forall a, stable (Q a)) -> safe t (atomic f) P Q.
Proof.
  intros Hf SQ. apply tsafe_atomic; [| apply SQ]. intros c x s Is Ps. destruct (Hf c s Is Ps) as (I' & G' & Q'). by exists x.
Qed.
Lemma safe_await t {A} (f : Ch -> St -> option A) (P : St -> Prop) (Q : A -> St -> Prop) :
  (forall s, I s -> G t s s) -> (forall c s a, I s -> P s -> f c s = Some a -> Q a s) ->
  (forall a, stable (Q a)) -> safe t (await f) P Q.
Proof. intros HG Hf SQ. apply tsafe_await; [intros x s Is; split; auto | eauto | apply SQ]. Qed.
Lemma safe_go t (p : prog St Ch unit) P : stable P -> safe t p P (fun _ _ => True) -> safe t (go p) P (fun _ => P).
Proof. intros SP. by apply tsafe_go. Qed.

Lemma stable_and (P Q : St -> Prop) : stable P -> stable Q -> stable (fun s => P s /\ Q s).
Proof. intros HP HQ x s s' Is Is' HR [Hp Hq]. split; [apply (HP x s s') | apply (HQ x s s')]; done. Qed.
Lemma stable_const (X : Prop) : stable (fun _ => X).
Proof. by intros ? ? ? ? ? ? ?. Qed.

Variable env : Ev -> St -> option St.
Variable serve : Req -> thread St Ch Tag.
Variable admissible : Req -> Prop.
Hypothesis G_R : forall t s s', G t s s' -> R s s'.
Hypothesis env_ok : forall e s s', I s -> env e s = Some s' -> I s' /\ R s s'.
Hypothesis serve_safe : forall r, admissible r ->
  exists P, stable P /\ (forall s, I s -> P s) /\ safe (th_tag (serve r)) (th_prog (serve r)) P (fun _ _ => True).

Definition sys_safe : system St Ch Tag -> Prop := tsys I (fun _ => ∅) keep_tokens (fun _ => R).

Lemma cc_sound ls s s' : Forall (label_ok admissible) ls -> sys_run env serve ls s = Some s' -> sys_safe s -> sys_safe s'.
Proof.
  apply tc_sound.
  - intros t x x' y s1 s2 _ _ [-> Hg] Hd Hx _. split_and!; [eauto | done | done | done].
  - intros e s1 s2 Is He. destruct (env_ok e s1 s2 Is He). by split_and!.
  - intros r Hr. destruct (serve_safe r Hr) as (P & SP & HP & S). by exists (fun _ => P).
Qed.

Lemma cc_guarantee n c s1 s2 t p : sys_safe s1 -> threads s1 !! n = Some (MkThread t p) ->
  sys_step env serve (LThread n c) s1 = Some s2 -> shared s2 = shared s1 \/ G t (shared s1) (shared s2).
Proof. intros Hs Hn H2. destruct (tc_guarantee _ _ _ _ _ _ _ _ _ _ _ _ Hs Hn H2) as [E|(x & x' & _ & Hg)]; auto. Qed.
End RelyGuarantee.
