(* ===== verification/Secrets.v ===== *)
(** * internal/secrets: sealing keys at rest

    AES-GCM is a library, so it is a class [AEAD] of operations with the law
    that opening undoes sealing.  The random nonce is an argument. *)

From S2P Require Import Prelude.

(** crypto/aes and crypto/cipher: [Seal] is the sealed text without the nonce
    it is appended to; [Open] is [None] when authentication fails. *)
Class AEAD := {
  gcm_seal : forall (key nonce plaintext : string), string;
  gcm_open : forall (key nonce ciphertext : string), option string;
  gcm_open_seal : forall key nonce plaintext, gcm_open key nonce (gcm_seal key nonce plaintext) = Some plaintext;
}.

(** [gcm.NonceSize()] of [cipher.NewGCM] *)
Definition NonceSize : nat := 12.

(** [aes.NewCipher]: AES-128, AES-192 or AES-256. *)
Definition NewCipher (key : string) : result unit :=
  if bool_decide (String.length key ∈ [16; 24; 32]%nat) then Ok tt else Err (ErrMsg "crypto/aes: invalid key size").

Section Secrets.
Context `{AEAD}.

(** [random]: what the system's random source yields; [io.ReadFull] fails
    when it is too short. *)
Definition Encrypt (random plaintext key : string) : result string :=
  match NewCipher key with
  | Err e => Err (ErrWrap "create cipher" e)
  | Ok _ =>
      if (String.length random <? NonceSize)%nat then Err (ErrMsg "generate nonce")
      else let nonce := String.substring 0 NonceSize random in
           Ok (nonce ++ gcm_seal key nonce plaintext)%string
  end.

Definition Decrypt (ciphertext key : string) : result string :=
  match NewCipher key with
  | Err e => Err (ErrWrap "create cipher" e)
  | Ok _ =>
      if (String.length ciphertext <? NonceSize)%nat then Err (ErrMsg "ciphertext too short")
      else match gcm_open key (String.substring 0 NonceSize ciphertext)
                   (String.substring NonceSize (String.length ciphertext - NonceSize) ciphertext) with
           | Some p => Ok p
           | None => Err (ErrMsg "cipher: message authentication failed")
           end
  end.

(** *** agent/secrets: the same with the key in a struct *)
Record Sealer := MkSealer { s_key : string }.
Definition NewSealer (key : string) : Sealer := MkSealer key.
Definition Seal (random : string) (s : Sealer) (plaintext : string) : result string := Encrypt random plaintext (s_key s).
Definition Open (s : Sealer) (sealed : string) : result string := Decrypt sealed (s_key s).

Lemma substring_0 n s t : String.length s = n -> String.substring 0 n (s ++ t) = s.
Proof.
  revert n. induction s as [|a s IH]; intros n E; destruct n as [|n]; simpl in E; try discriminate; simpl.
  - by destruct t.
  - f_equal. apply IH. lia.
Qed.

Lemma substring_all s : String.substring 0 (String.length s) s = s.
Proof. induction s as [|a s IH]; simpl; [done |]. by rewrite IH. Qed.

Lemma substring_skip s t : String.substring (String.length s) (String.length t) (s ++ t) = t.
Proof. induction s as [|a s IH]; simpl; [apply substring_all | done]. Qed.

Lemma string_length_app (s t : string) : String.length (s ++ t) = (String.length s + String.length t)%nat.
Proof. induction s as [|a s IH]; simpl; [done |]. by rewrite IH. Qed.

Lemma substring_length n s : (n <= String.length s)%nat -> String.length (String.substring 0 n s) = n.
Proof.
  revert n. induction s as [|a s IH]; intros n E; destruct n as [|n]; simpl in *; try lia. by rewrite IH by lia.
Qed.

(** What was sealed opens to itself under the same key. *)
Lemma decrypt_encrypt random plaintext key c : Encrypt random plaintext key = Ok c -> Decrypt c key = Ok plaintext.
Proof.
  unfold Encrypt, Decrypt. destruct (NewCipher key); [| done].
  destruct (Nat.ltb_spec (String.length random) NonceSize) as [|Hl]; [done |]. intros [= <-].
  apply substring_length in Hl. rewrite string_length_app. set (n := String.substring 0 NonceSize random) in *.
  rewrite <- Hl. replace (_ <? _)%nat with false by (symmetry; apply Nat.ltb_ge; lia).
  rewrite substring_0 by done. replace (_ + _ - _)%nat with (String.length (gcm_seal key n plaintext)) by lia.
  by rewrite substring_skip, gcm_open_seal.
Qed.
End Secrets.
