(* ===== verification/HttpAuth.v ===== *)
(** * authctx and strategy/http/auth.go: who a request comes from

    [requireAuth] reads the Authorization and tenant-id headers, asks DORA for
    the user of the credentials and stores both in the request's context.  The
    context is a record of the two values the server stores in it. *)

From S2P Require Import Prelude GoStrings.

(** [authctx.AuthInfo] *)
Record AuthInfo := MkAuthInfo { APIKey : string; BearerToken : string; TenantID : string }.

#[export] Instance AuthInfo_eq_dec : EqDecision AuthInfo.
Proof. solve_decision. Defined.

(** The values of [context.Context] under the keys of authctx and auth.go. *)
Record Context := MkContext { ctx_auth : option AuthInfo; ctx_user : option string }.
Definition Background : Context := MkContext None None.

Definition AuthInfoFromContext (ctx : Context) : option AuthInfo := ctx_auth ctx.
Definition WithAuthInfo (info : AuthInfo) (ctx : Context) : Context := MkContext (Some info) (ctx_user ctx).
Definition WithAPIKey (key : string) (ctx : Context) : Context := WithAuthInfo (MkAuthInfo key "" "") ctx.
Definition WithBearerToken (token : string) (ctx : Context) : Context := WithAuthInfo (MkAuthInfo "" token "") ctx.

Definition doraUserIDFromContext (ctx : Context) : option string :=
  match ctx_user ctx with
  | Some id => if bool_decide (id = ""%string) then None else Some id
  | None => None
  end.

(** [strings.TrimPrefix] of a prefix that is there. *)
Definition after_prefix (p s : string) : string := String.substring (String.length p) (String.length s - String.length p) s.

(** The Authorization header, as the switch of [requireAuth] reads it. *)
Definition parse_authorization (header tenant : string) : result AuthInfo :=
  if bool_decide (header = ""%string) then Err (ErrMsg "missing Authorization header")
  else if HasPrefix header "ApiKey " then
    let key := after_prefix "ApiKey " header in
    if bool_decide (key = ""%string) then Err (ErrMsg "invalid Authorization header: empty API key")
    else Ok (MkAuthInfo key "" tenant)
  else if HasPrefix header "Bearer " then
    let token := after_prefix "Bearer " header in
    if bool_decide (token = ""%string) then Err (ErrMsg "invalid Authorization header: empty bearer token")
    else Ok (MkAuthInfo "" token tenant)
  else Err (ErrMsg "invalid Authorization header: unsupported scheme").

(** [requireAuth]: a 401 with its message, or the context the handler runs
    with.  [resolveUserID] is the call to DORA: the user and its tenant. *)
Definition requireAuth (resolveUserID : AuthInfo -> result (string * string)) (header tenantHeader : string) : result Context :=
  authInfo ← parse_authorization header (TrimSpace tenantHeader);
  match resolveUserID authInfo with
  | Err _ => Err (ErrMsg "unauthorised")
  | Ok (userID, tenantID) =>
      let authInfo := if bool_decide (TenantID authInfo = ""%string) && negb (bool_decide (tenantID = ""%string))
                      then MkAuthInfo (APIKey authInfo) (BearerToken authInfo) tenantID else authInfo in
      Ok (MkContext (Some authInfo) (Some userID))
  end.

(** ** Theory *)

(** Exactly one credential. *)
Definition one_credential (i : AuthInfo) : Prop :=
  (APIKey i <> ""%string /\ BearerToken i = ""%string) \/ (APIKey i = ""%string /\ BearerToken i <> ""%string).

Lemma ha_parse_one header tenant i : parse_authorization header tenant = Ok i -> one_credential i /\ TenantID i = tenant.
Proof.
  unfold parse_authorization, one_credential. intros H. repeat case_match; simplify_eq/=; bool_prop; repeat case_bool_decide; simplify_eq/=; auto.
Qed.

(** A request that passes carries one credential, and the user in its
    context is the one DORA names for that credential. *)
Lemma ha_principal resolve header tenant ctx : requireAuth resolve header tenant = Ok ctx ->
  exists asked user tid i, resolve asked = Ok (user, tid) /\ one_credential asked /\ ctx = MkContext (Some i) (Some user) /\
    APIKey i = APIKey asked /\ BearerToken i = BearerToken asked /\
    TenantID i = (if bool_decide (TrimSpace tenant = ""%string) then tid else TrimSpace tenant).
Proof.
  unfold requireAuth. intros H. inv_ok. apply ha_parse_one in Ha as [Ho Ht].
  destruct (resolve a) as [[user tid]|] eqn:E; [| done]. injection H as <-. eexists a, user, tid, _.
  split_and!; [done | done | reflexivity | | |].
  - by case_match.
  - by case_match.
  - rewrite Ht. destruct (bool_decide (TrimSpace tenant = _)) eqn:D; simpl; [| done].
    apply bool_decide_eq_true in D. destruct (bool_decide (tid = _)) eqn:Dt; simpl; [| done].
    apply bool_decide_eq_true in Dt. by rewrite Ht, D, Dt.
Qed.
