(* ===== verification/Json.v ===== *)
(** * What the program uses of encoding/json

    A [json.RawMessage] the server holds is valid, so it is the value it
    spells.  [json.Unmarshal] into a struct goes through the members in order
    and sets the field whose name matches, also when only the case differs;
    [null] leaves a field alone and a value of another type is an error that
    is reported after the rest has been set. *)

From S2P Require Import Prelude.
From Stdlib Require Import Ascii DecimalString DecimalZ.

Inductive json :=
  | JNull
  | JBool (b : bool)
  | JNumber (literal : string)
  | JString (s : string)
  | JArray (items : list json)
  | JObject (members : list (string * json)).

(** [foldName]: the field names here are ASCII. *)
Definition fold_ascii (c : ascii) : ascii :=
  let n := nat_of_ascii c in if ((65 <=? n) && (n <=? 90))%nat then ascii_of_nat (n + 32) else c.
Fixpoint fold_name (s : string) : string :=
  match s with EmptyString => EmptyString | String c rest => String (fold_ascii c) (fold_name rest) end.
Definition same_name (a b : string) : bool := bool_decide (fold_name a = fold_name b).

Definition type_error : error := ErrMsg "json: cannot unmarshal".

(** A field of a struct with one field [name]: [set] puts one member's value
    into what the field holds so far. *)
Definition unmarshal_field {A} (set : json -> result A -> result A) (zero : A) (name : string) (j : json) : result A :=
  match j with
  | JNull => Ok zero
  | JObject ms => foldl (fun cur m => if same_name name m.1 then set m.2 cur else cur) (Ok zero) ms
  | _ => Err type_error
  end.

(** An error stays. *)
Definition keep_err {A} (cur : result A) (v : A) : result A := match cur with Ok _ => Ok v | Err e => Err e end.

(** Fields of type [string] and of an integer type from [lo] to [hi]. *)
Definition set_string (v : json) (cur : result string) : result string :=
  match v with JNull => cur | JString s => keep_err cur s | _ => Err type_error end.
Definition unmarshal_string : string -> json -> result string := unmarshal_field set_string ""%string.

Definition format_int (z : Z) : string := NilEmpty.string_of_int (Z.to_int z).
Definition set_int (lo hi : Z) (v : json) (cur : result Z) : result Z :=
  match v with
  | JNull => cur
  | JNumber lit =>
      match NilEmpty.int_of_string lit with
      | Some d => if (lo <=? Z.of_int d) && (Z.of_int d <=? hi) then keep_err cur (Z.of_int d) else Err type_error
      | None => Err type_error
      end
  | _ => Err type_error
  end.
Definition unmarshal_int (lo hi : Z) : string -> json -> result Z := unmarshal_field (set_int lo hi) 0.

Lemma set_int_format lo hi z cur : lo <= z <= hi -> set_int lo hi (JNumber (format_int z)) cur = keep_err cur z.
Proof.
  intros Hz. unfold set_int, format_int. rewrite NilEmpty.isi, DecimalZ.of_to.
  by rewrite (proj2 (Z.leb_le _ _)), (proj2 (Z.leb_le _ _)) by lia.
Qed.

(** The text of values: what is written reads back, and is not empty. *)
Class JsonText := {
  marshal : json -> string;
  parse_text : string -> option json;
  parse_marshal : forall j, parse_text (marshal j) = Some j;
  marshal_text : forall j, marshal j <> EmptyString;
}.

(** ... of type [time.Time], whose [UnmarshalJSON] fails at once; [parse] reads
    RFC 3339.  [None] is the zero time. *)
Definition unmarshal_time (parse : string -> result Z) (name : string) (j : json) : result (option Z) :=
  match j with
  | JNull => Ok None
  | JObject ms =>
      foldl (fun cur m =>
        match cur with
        | Err e => Err e
        | Ok c => if same_name name m.1 then
                    match m.2 with
                    | JNull => Ok c
                    | JString s => result_map Some (parse s)
                    | _ => Err (ErrMsg "Time.UnmarshalJSON: input is not a JSON string")
                    end
                  else Ok c
        end) (Ok None) ms
  | _ => Err type_error
  end.


(** ** A concrete text, for the witnesses: the bits of an encoding as a tree *)

Module BitText.
Fixpoint to_tree (j : json) : gen_tree string :=
  match j with
  | JNull => GenNode 0 []
  | JBool b => GenNode (if b then 1 else 2)%nat []
  | JNumber s => GenNode 3 [GenLeaf s]
  | JString s => GenNode 4 [GenLeaf s]
  | JArray l => GenNode 5 (map to_tree l)
  | JObject ms => GenNode 6 (map (fun m => GenNode 0 [GenLeaf m.1; to_tree m.2]) ms)
  end.

Fixpoint of_tree (t : gen_tree string) : json :=
  match t with
  | GenNode 1 _ => JBool true
  | GenNode 2 _ => JBool false
  | GenNode 3 [GenLeaf s] => JNumber s
  | GenNode 4 [GenLeaf s] => JString s
  | GenNode 5 l => JArray (map of_tree l)
  | GenNode 6 l => JObject (map (fun t => match t with GenNode _ [GenLeaf k; v] => (k, of_tree v) | _ => (""%string, JNull) end) l)
  | _ => JNull
  end.

Lemma of_to_tree : forall j, of_tree (to_tree j) = j.
Proof.
  fix IH 1. intros [|[]|s|s|l|ms]; simpl; try done.
  - f_equal. induction l as [|x l IHl]; simpl; [done |]. by rewrite IH, IHl.
  - f_equal. induction ms as [|[k v] ms IHl]; simpl; [done |]. by rewrite IH, IHl.
Qed.

Fixpoint bits (p : positive) : string :=
  match p with xH => "1" | xO q => String "0" (bits q) | xI q => String "1" (String "." (bits q)) end.
Fixpoint of_bits (s : string) : option positive :=
  match s with
  | String "0" rest => xO <$> of_bits rest
  | String "1" EmptyString => Some xH
  | String "1" (String "." rest) => xI <$> of_bits rest
  | _ => None
  end.
Lemma of_bits_bits p : of_bits (bits p) = Some p.
Proof. induction p as [p IH|p IH|]; simpl; [by rewrite IH | by rewrite IH | done]. Qed.

#[export] Program Instance bit_text : JsonText := {
  marshal j := bits (encode (to_tree j));
  parse_text s := p ← of_bits s; t ← decode p; Some (of_tree t);
}.
Next Obligation. simpl. rewrite of_bits_bits. simpl. rewrite decode_encode. simpl. by rewrite of_to_tree. Qed.
Next Obligation. simpl. by destruct (encode (to_tree j)). Qed.
End BitText.
