(* ===== verification/JsonStruct.v ===== *)
(** * Structs with several fields in encoding/json

    A struct is the list of its fields, each with its name, its type and how it
    is read and written.  [Decode] with [DisallowUnknownFields] goes through
    the members of the object and sets the fields; [Marshal] writes the fields
    in order and leaves out what [omitempty] says.  What is written reads back
    ([js_roundtrip]). *)

From S2P Require Import Prelude Json GoFloat.
From Stdlib Require Import DecimalString.

(** ** Types of fields *)

Inductive ftype := FInt | FString | FFloat | FIntPtr | FFloatPtr | FStrings.
Definition ftype_val (t : ftype) : Type :=
  match t with
  | FInt => Z | FString => string | FFloat => float64
  | FIntPtr => option Z | FFloatPtr => option float64 | FStrings => option (list string)
  end.
Definition ftype_zero (t : ftype) : ftype_val t :=
  match t with FInt => 0 | FString => ""%string | FFloat => f64_zero | FIntPtr => None | FFloatPtr => None | FStrings => None end.

Record field (P : Type) := MkField {
  f_name : string; f_type : ftype; f_omitempty : bool;
  f_get : P -> ftype_val f_type; f_put : ftype_val f_type -> P -> P;
}.
Arguments MkField {P}. Arguments f_name {P}. Arguments f_type {P}. Arguments f_omitempty {P}. Arguments f_get {P}. Arguments f_put {P}.

Definition int_min : Z := - 2 ^ 63.
Definition int_max : Z := 2 ^ 63 - 1.

Section Codec.
Context `{FloatText}.

Definition set_float (v : json) (cur : result float64) : result float64 :=
  match v with
  | JNull => cur
  | JNumber lit => match parse_float lit with Some x => keep_err cur x | None => Err type_error end
  | _ => Err type_error
  end.

(** [null] sets a pointer or a slice to nil. *)
Definition set_pointer {A} (set : json -> result A -> result A) (zero : A) (v : json) (cur : result (option A)) : result (option A) :=
  match v with
  | JNull => keep_err cur None
  | _ => p ← cur; a ← set v (Ok (default zero p)); Ok (Some a)
  end.

Fixpoint set_strings (vs : list json) : result (list string) :=
  match vs with
  | [] => Ok []
  | v :: rest => s ← set_string v (Ok ""%string); l ← set_strings rest; Ok (s :: l)
  end.

Definition set_value (t : ftype) : json -> result (ftype_val t) -> result (ftype_val t) :=
  match t with
  | FInt => set_int int_min int_max
  | FString => set_string
  | FFloat => set_float
  | FIntPtr => set_pointer (set_int int_min int_max) 0
  | FFloatPtr => set_pointer set_float f64_zero
  | FStrings => fun v cur =>
      match v with
      | JNull => keep_err cur None
      | JArray vs => match set_strings vs with Ok l => keep_err cur (Some l) | Err e => Err e end
      | _ => Err type_error
      end
  end.

(** An infinity and a NaN cannot be written. *)
Definition write_float (x : float64) : result json :=
  if f64_finite x then Ok (JNumber (format_float x)) else Err (ErrMsg "json: unsupported value").
Definition write_value (t : ftype) : ftype_val t -> result json :=
  match t with
  | FInt => fun z => Ok (JNumber (format_int z))
  | FString => fun s => Ok (JString s)
  | FFloat => write_float
  | FIntPtr => fun p => match p with Some z => Ok (JNumber (format_int z)) | None => Ok JNull end
  | FFloatPtr => fun p => match p with Some x => write_float x | None => Ok JNull end
  | FStrings => fun p => match p with Some l => Ok (JArray (JString <$> l)) | None => Ok JNull end
  end.
(** What [omitempty] leaves out. *)
Definition is_empty (t : ftype) : ftype_val t -> bool :=
  match t with
  | FInt => fun z => z =? 0
  | FString => fun s => bool_decide (s = ""%string)
  | FFloat => fun x => f64_eq x f64_zero
  | FIntPtr => fun p => bool_decide (p = None)
  | FFloatPtr => fun p => bool_decide (p = None)
  | FStrings => fun p => match p with Some (_ :: _) => false | _ => true end
  end.

Section Struct.
Context {P : Type}.
Variable fs : list (field P).

Definition find_field (name : string) : option (field P) := List.find (fun f => same_name (f_name f) name) fs.

Definition set_member (cur : result P) (m : string * json) : result P :=
  match find_field m.1 with
  | Some f => match set_value (f_type f) m.2 (result_map (f_get f) cur) with Ok a => result_map (f_put f a) cur | Err e => Err e end
  | None => Err (ErrMsg "json: unknown field")
  end.

(** [Decoder.Decode] with [DisallowUnknownFields] *)
Definition decode_strict (zero : P) (j : json) : result P :=
  match j with
  | JNull => Ok zero
  | JObject ms => foldl set_member (Ok zero) ms
  | _ => Err type_error
  end.

Fixpoint write_fields (l : list (field P)) (p : P) : result (list (string * json)) :=
  match l with
  | [] => Ok []
  | f :: rest =>
      if f_omitempty f && is_empty (f_type f) (f_get f p) then write_fields rest p
      else v ← write_value (f_type f) (f_get f p); ms ← write_fields rest p; Ok ((f_name f, v) :: ms)
  end.
Definition marshal_struct (p : P) : result json := result_map JObject (write_fields fs p).
End Struct.
End Codec.

(** ** What is written reads back *)

Definition in_int (z : Z) : Prop := int_min <= z <= int_max.
Definition value_ok (t : ftype) : ftype_val t -> Prop :=
  match t with
  | FInt => in_int
  | FIntPtr => fun p => forall z, p = Some z -> in_int z
  | _ => fun _ => True
  end.

(** The types that [omitempty] is used with here: what is left out is zero. *)
Definition omit_ok {P} (f : field P) : bool :=
  negb (f_omitempty f) || match f_type f with FString | FIntPtr | FFloatPtr => true | _ => false end.
Definition fields_ok {P} (fs : list (field P)) : Prop := Forall (fun f => find_field fs (f_name f) = Some f /\ omit_ok f = true) fs.

(** Putting the fields of [p] one after the other into [q] gives [p], and a
    field is still zero when its turn comes. *)
Fixpoint rebuilds {P} (l : list (field P)) (q p : P) : Prop :=
  match l with
  | [] => q = p
  | f :: rest => f_get f q = ftype_zero (f_type f) /\ f_put f (ftype_zero (f_type f)) q = q /\ rebuilds rest (f_put f (f_get f p) q) p
  end.

Section RoundTrip.
Context `{FloatText}.

Lemma js_strings l : set_strings (JString <$> l) = Ok l.
Proof. induction l as [|s l IH]; [done |]. rewrite fmap_cons. cbn [set_strings set_string mbind result_bind keep_err]. by rewrite IH. Qed.

Lemma js_float x j cur : write_float x = Ok j -> set_float j (Ok cur) = Ok x.
Proof. unfold write_float. destruct (f64_finite x) eqn:E; [| done]. intros [= <-]. simpl. by rewrite parse_format. Qed.

Lemma js_value t v j : value_ok t v -> write_value t v = Ok j -> set_value t j (Ok (ftype_zero t)) = Ok v.
Proof.
  destruct t; simpl; intros Hv Hw.
  - injection Hw as <-. by rewrite set_int_format.
  - by injection Hw as <-.
  - by apply js_float.
  - destruct v as [z|]; injection Hw as <-; simpl; [| done]. pose proof (set_int_format int_min int_max z (Ok 0) (Hv z eq_refl)) as E.
    simpl in E. by rewrite E.
  - destruct v as [x|]; [| by injection Hw as <-]. pose proof (js_float x j f64_zero Hw) as E.
    unfold write_float in Hw. destruct (f64_finite x); [| done]. injection Hw as <-. simpl in *. by rewrite E.
  - destruct v as [l|]; injection Hw as <-; [| done]. pose proof (js_strings l) as E. simpl in E. simpl. by rewrite E.
Qed.

Lemma js_omitted t v : match t with FString | FIntPtr | FFloatPtr => true | _ => false end = true -> is_empty t v = true -> v = ftype_zero t.
Proof. destruct t; simpl; intros Ht Hv; try done; by apply bool_decide_eq_true in Hv. Qed.

Lemma js_fields {P} (fs : list (field P)) (p : P) l : Forall (fun f => find_field fs (f_name f) = Some f /\ omit_ok f = true) l ->
  Forall (fun f => value_ok (f_type f) (f_get f p)) l -> forall q ms, rebuilds l q p -> write_fields l p = Ok ms ->
  foldl (set_member fs) (Ok q) ms = Ok p.
Proof.
  induction l as [|f l IH]; intros Hfs Hok q ms Hr Hw; simpl in *; [injection Hw as <-; simpl; by rewrite Hr |].
  apply Forall_cons in Hfs as [[Hf Ho] Hfs]. apply Forall_cons in Hok as [Hv Hok]. destruct Hr as (Hz & Hp & Hr).
  destruct (f_omitempty f && is_empty (f_type f) (f_get f p)) eqn:E.
  - apply andb_true_iff in E as [E1 E2]. unfold omit_ok in Ho. rewrite E1 in Ho. simpl in Ho.
    rewrite (js_omitted _ _ Ho E2), Hp in Hr. by apply IH.
  - destruct (write_value (f_type f) (f_get f p)) as [v|] eqn:Ev; [| done]. simpl in Hw.
    destruct (write_fields l p) as [ms'|] eqn:Em; [| done]. injection Hw as <-. simpl. unfold set_member at 2. simpl. rewrite Hf. simpl.
    rewrite Hz, (js_value _ _ _ Hv Ev). simpl. by apply IH.
Qed.

Theorem js_roundtrip {P} (fs : list (field P)) (zero p : P) j : fields_ok fs -> rebuilds fs zero p ->
  Forall (fun f => value_ok (f_type f) (f_get f p)) fs -> marshal_struct fs p = Ok j -> decode_strict fs zero j = Ok p.
Proof.
  intros Hfs Hr Hok Hm. unfold marshal_struct in Hm. destruct (write_fields fs p) as [ms|] eqn:E; [| done]. injection Hm as <-.
  simpl. by eapply js_fields.
Qed.

(** What is read is in range. *)
Lemma js_int_range v cur z : set_int int_min int_max v cur = Ok z -> cur = Ok z \/ in_int z.
Proof.
  destruct v; simpl; try done; [by left |]. destruct (NilEmpty.int_of_string _); [| done].
  destruct ((int_min <=? _) && _) eqn:E; [| done]. apply andb_true_iff in E as [E1%Z.leb_le E2%Z.leb_le].
  destruct cur; [| done]. intros [= <-]. by right.
Qed.
Lemma js_pointer {A} (set : json -> result A -> result A) zero v cur a : set_pointer set zero v cur = Ok (Some a) ->
  exists p, cur = Ok p /\ set v (Ok (default zero p)) = Ok a.
Proof.
  intros Hs. assert ((p ← cur; a ← set v (Ok (default zero p)); Ok (Some a)) = Ok (Some a)) as H' by (destruct v; [by destruct cur | exact Hs..]).
  destruct cur as [p|]; [| done]. exists p. simpl in H'. destruct (set v _); [| done]. simpl in H'. injection H' as <-. done.
Qed.
Lemma js_read_ok t v cur a : (forall b, cur = Ok b -> value_ok t b) -> set_value t v cur = Ok a -> value_ok t a.
Proof.
  destruct t; simpl; intros Hc Hs; try done.
  - destruct (js_int_range _ _ _ Hs) as [->|?]; auto.
  - intros z ->. destruct (js_pointer _ _ _ _ _ Hs) as (p & -> & E). destruct (js_int_range _ _ _ E) as [[= E']|?]; [| done].
    destruct p as [z'|]; simpl in E'; subst; [by apply (Hc _ eq_refl) | unfold in_int, int_min, int_max; lia].
Qed.

Lemma js_decoded {P} (fs : list (field P)) (W : P -> Prop) (zero : P) j p : W zero ->
  Forall (fun f => forall q, W q -> value_ok (f_type f) (f_get f q)) fs ->
  Forall (fun f => forall q a, W q -> value_ok (f_type f) a -> W (f_put f a q)) fs ->
  decode_strict fs zero j = Ok p -> W p.
Proof.
  intros Hz Hget Hput Hd. destruct j as [| | | | |ms]; simpl in Hd; try done; [by injection Hd as <- |].
  assert (forall cur, (forall q, cur = Ok q -> W q) -> foldl (set_member fs) cur ms = Ok p -> W p) as H'.
  { clear Hd. induction ms as [|m ms IH]; intros cur Hc Hf; simpl in Hf; [auto |]. apply (IH _ ) in Hf; [done |].
    unfold set_member. intros q Hq. destruct (find_field fs m.1) as [f|] eqn:Ef; [| done].
    unfold find_field in Ef. apply List.find_some in Ef as [Hin _]. apply list_elem_of_In in Hin.
    rewrite Forall_forall in Hget, Hput.
    destruct (set_value (f_type f) m.2 (result_map (f_get f) cur)) as [a|] eqn:Ea; [| done]. destruct cur as [c|]; [| done].
    injection Hq as <-. apply Hput; [done | by apply Hc |]. eapply js_read_ok; [| exact Ea]. intros b [= <-]. apply Hget; [done | by apply Hc]. }
  apply (H' (Ok zero)); [by intros q [= <-] | done].
Qed.
End RoundTrip.
