(* ===== verification/HttpRuns.v ===== *)
(** * strategy/http: live runs

    The part of [handler.go] that creates, pauses, resumes, stops, restores
    and observes live runs, with [run_store.go], [notify.go] and the goroutines
    the handler starts.  A handler is a program of critical sections over the
    state of the server ([Concurrency]); the service is [Service]'s, so a call
    of Stop, Pause or Resume leaves a waiting caller there and the handler
    waits for its return.  A request's outcome is the response it writes.

    A [*RunDetail] is shared from the moment it is in [h.runs], which holds one
    object per id and never drops one, so the pointer is the id.  The choices
    of a step are what the world decides: whether the database answers, which
    ready case a select takes, the next UUID.  The base context is taken not
    to end. *)

From S2P Require Import Prelude Market Service Concurrency Secrets HttpAuth Json.

(** ** Data *)

(** The values of [RunSummary.Status] *)
Inductive Status := StRunning | StPaused | StStopped | StCompleted | StFailed.

#[export] Instance Status_eq_dec : EqDecision Status.
Proof. solve_decision. Defined.

(** [RunDetail]; no stored key is the empty string. *)
Record RunDetail := MkRunDetail {
  rd_ID : string; rd_DORAUserID : string; rd_StrategyType : string; rd_Status : Status;
  rd_CreatedAt : Z; rd_UpdatedAt : Z; rd_StoppedAt : option Z;
  rd_Config : json; rd_EncryptedAPIKey : string; rd_Error : string;
}.

(** The concrete strategies, and what the handler sets on a new one. *)
Inductive Kind := KMeanReversion | KCopyTrading | KBreakout | KMomentum | KTwap | KVwap | KOther.

#[export] Instance Kind_eq_dec : EqDecision Kind.
Proof. solve_decision. Defined.

Record Strat := MkStrat {
  st_kind : Kind;
  st_client : option string;    (* the key of its market client *)
  st_decisions : bool;
  st_state : bool;
  st_seq : Z;
}.

Definition executes (k : Kind) : bool := match k with KTwap | KVwap => true | _ => false end.

(** [StrategyDefinition]; [def_Status]: it is "available". *)
Inductive Capability := capabilityRun | capabilityBacktest.

#[export] Instance Capability_eq_dec : EqDecision Capability.
Proof. solve_decision. Defined.

Record StrategyDefinition := MkDefinition {
  def_Type : string; def_Status : bool; def_SupportsRun : bool; def_SupportsBacktest : bool;
  def_DecodeConfig : option (json -> Capability -> result (json * Strat));
}.

Inductive EventType := EventRunStarted | EventRunPaused | EventRunResumed | EventRunStopped | EventRunStopLoss | EventRunCompleted | EventRunFailed.

#[export] Instance EventType_eq_dec : EqDecision EventType.
Proof. solve_decision. Defined.

Record Event := MkEvent { ev_Type : EventType; ev_UserID : string; ev_RunID : string }.

(** The calls the order-update manager receives. *)
Inductive OuCall :=
  | EnsureSubscribed (user key run : string) (status : Status)
  | UpdateRunStatus (run : string) (status : Status)
  | Unsubscribe (user : string).

(** What a request gets back. *)
Inductive Response := RError (code : Z) (message : string) | RDetail (code : Z) (detail : RunDetail).

Definition StatusOK : Z := 200.
Definition StatusCreated : Z := 201.
Definition StatusBadRequest : Z := 400.
Definition StatusForbidden : Z := 403.
Definition StatusNotFound : Z := 404.
Definition StatusMethodNotAllowed : Z := 405.
Definition StatusConflict : Z := 409.
Definition StatusInternalServerError : Z := 500.
Definition StatusNotImplemented : Z := 501.

(** The fields of [Handler] for runs, the table [strategy_runs], the calls of
    the notifier and the order-update manager, and the clock.  [h_owner],
    [h_launched] and [h_exits] record history: the user every id was drawn
    for, every strategy handed to the service and every exit of one. *)
Record handler := MkHandler {
  h_service : service;
  h_runs : gmap string RunDetail;
  h_table : gmap string RunDetail;
  h_runExitErrs : gmap string (option string);
  h_stopLossObservers : gmap string nat;
  h_runCompletionWatchers : gmap string nat;
  h_runningStrategies : gmap string (option Strat);
  h_contexts : nat;
  h_cancelled : gset nat;
  h_events : list Event;
  h_orderUpdates : list OuCall;
  h_now : Z;
  h_owner : gmap string string;
  h_launched : list (string * Strat);
  h_exits : list (string * option string);
  h_responses : list (nat * Response);
}.

Definition NewHandler : handler :=
  MkHandler NewService ∅ ∅ ∅ ∅ ∅ ∅ 0 ∅ [] [] 0 ∅ [] [] [].

Definition with_service sv h := MkHandler sv (h_runs h) (h_table h) (h_runExitErrs h) (h_stopLossObservers h) (h_runCompletionWatchers h) (h_runningStrategies h) (h_contexts h) (h_cancelled h) (h_events h) (h_orderUpdates h) (h_now h) (h_owner h) (h_launched h) (h_exits h) (h_responses h).
Definition with_runs rs h := MkHandler (h_service h) rs (h_table h) (h_runExitErrs h) (h_stopLossObservers h) (h_runCompletionWatchers h) (h_runningStrategies h) (h_contexts h) (h_cancelled h) (h_events h) (h_orderUpdates h) (h_now h) (h_owner h) (h_launched h) (h_exits h) (h_responses h).
Definition with_table t h := MkHandler (h_service h) (h_runs h) t (h_runExitErrs h) (h_stopLossObservers h) (h_runCompletionWatchers h) (h_runningStrategies h) (h_contexts h) (h_cancelled h) (h_events h) (h_orderUpdates h) (h_now h) (h_owner h) (h_launched h) (h_exits h) (h_responses h).
Definition with_exit_errs e h := MkHandler (h_service h) (h_runs h) (h_table h) e (h_stopLossObservers h) (h_runCompletionWatchers h) (h_runningStrategies h) (h_contexts h) (h_cancelled h) (h_events h) (h_orderUpdates h) (h_now h) (h_owner h) (h_launched h) (h_exits h) (h_responses h).
Definition with_observers o w r h := MkHandler (h_service h) (h_runs h) (h_table h) (h_runExitErrs h) o w r (h_contexts h) (h_cancelled h) (h_events h) (h_orderUpdates h) (h_now h) (h_owner h) (h_launched h) (h_exits h) (h_responses h).
Definition with_contexts n c h := MkHandler (h_service h) (h_runs h) (h_table h) (h_runExitErrs h) (h_stopLossObservers h) (h_runCompletionWatchers h) (h_runningStrategies h) n c (h_events h) (h_orderUpdates h) (h_now h) (h_owner h) (h_launched h) (h_exits h) (h_responses h).
Definition with_events es h := MkHandler (h_service h) (h_runs h) (h_table h) (h_runExitErrs h) (h_stopLossObservers h) (h_runCompletionWatchers h) (h_runningStrategies h) (h_contexts h) (h_cancelled h) es (h_orderUpdates h) (h_now h) (h_owner h) (h_launched h) (h_exits h) (h_responses h).
Definition with_order_updates l h := MkHandler (h_service h) (h_runs h) (h_table h) (h_runExitErrs h) (h_stopLossObservers h) (h_runCompletionWatchers h) (h_runningStrategies h) (h_contexts h) (h_cancelled h) (h_events h) l (h_now h) (h_owner h) (h_launched h) (h_exits h) (h_responses h).
Definition with_now t h := MkHandler (h_service h) (h_runs h) (h_table h) (h_runExitErrs h) (h_stopLossObservers h) (h_runCompletionWatchers h) (h_runningStrategies h) (h_contexts h) (h_cancelled h) (h_events h) (h_orderUpdates h) t (h_owner h) (h_launched h) (h_exits h) (h_responses h).
Definition with_history o l e h := MkHandler (h_service h) (h_runs h) (h_table h) (h_runExitErrs h) (h_stopLossObservers h) (h_runCompletionWatchers h) (h_runningStrategies h) (h_contexts h) (h_cancelled h) (h_events h) (h_orderUpdates h) (h_now h) o l e (h_responses h).
Definition with_responses l h := MkHandler (h_service h) (h_runs h) (h_table h) (h_runExitErrs h) (h_stopLossObservers h) (h_runCompletionWatchers h) (h_runningStrategies h) (h_contexts h) (h_cancelled h) (h_events h) (h_orderUpdates h) (h_now h) (h_owner h) (h_launched h) (h_exits h) l.

(** [d.Status = ...; d.UpdatedAt = ...], the error and the stop time with them. *)
Definition set_status (s : Status) (now : Z) (stopped : option Z) (err : string) (d : RunDetail) : RunDetail :=
  MkRunDetail (rd_ID d) (rd_DORAUserID d) (rd_StrategyType d) s (rd_CreatedAt d) now stopped (rd_Config d) (rd_EncryptedAPIKey d) err.
Definition set_key (key : string) (d : RunDetail) : RunDetail :=
  MkRunDetail (rd_ID d) (rd_DORAUserID d) (rd_StrategyType d) (rd_Status d) (rd_CreatedAt d) (rd_UpdatedAt d) (rd_StoppedAt d) (rd_Config d) key (rd_Error d).
Definition clear_error (d : RunDetail) : RunDetail :=
  MkRunDetail (rd_ID d) (rd_DORAUserID d) (rd_StrategyType d) (rd_Status d) (rd_CreatedAt d) (rd_UpdatedAt d) (rd_StoppedAt d) (rd_Config d) (rd_EncryptedAPIKey d) "".

Definition update_run (id : string) (f : RunDetail -> RunDetail) (h : handler) : handler :=
  with_runs (alter f id (h_runs h)) h.

(** ** What the world decides in a step *)
Record Choice := MkChoice {
  ch_ok : bool;                (* the database answers *)
  ch_first : bool;             (* which ready case of a select is taken *)
  ch_ended : bool;             (* the caller's context has ended; a subscription is refused or closed *)
  ch_uuid : string;            (* [uuid.NewV7] *)
  ch_nonce : string;           (* [rand.Reader] *)
  ch_seq : option Z;           (* [MaxSeq] *)
  ch_order : list string;      (* the order of rows *)
}.

Notation hprog := (prog handler Choice).

(** ** How the server is wired *)
Record Wiring := MkWiring {
  w_strategies : gmap string StrategyDefinition;
  w_runStore : bool;
  w_notifier : bool;
  w_orderUpdates : bool;
  w_decisionStore : bool;
  w_stateStore : bool;
  w_encryptionKey : string;
  w_GetUserID : Context -> result string;       (* the DORA client *)
  w_parseTime : string -> result Z;             (* RFC 3339 *)
}.

Definition err_unusable_key : error := ErrMsg "run has no usable stored DORA API key".
Definition is_not_found (e : error) : bool :=
  match e with ErrMsg m => bool_decide (m = "run ID not found"%string) | ErrWrap _ _ => false end.
Definition is_unusable_key (e : error) : bool :=
  match e with ErrMsg m => bool_decide (m = "run has no usable stored DORA API key"%string) | ErrWrap _ _ => false end.

(** [extractOrderBookID] *)
Definition extractOrderBookID (config : json) : string := or_zero "" (unmarshal_string "order_book_id" config).

Definition active (d : RunDetail) : bool := bool_decide (rd_Status d = StRunning) || bool_decide (rd_Status d = StPaused).

(** [findActiveRunForOrderBook]: some run the loop over the map may return. *)
Definition blocks_book (user book : string) (d : RunDetail) : bool :=
  bool_decide (rd_DORAUserID d = user) && active d && bool_decide (extractOrderBookID (rd_Config d) = book).
Definition findActiveRunForOrderBook (user book : string) (h : handler) : option string :=
  match List.filter (fun p => blocks_book user book p.2) (map_to_list (h_runs h)) with
  | (id, _) :: _ => Some id
  | [] => None
  end.

Section Runs.
Context `{AEAD} (w : Wiring).

(** *** Helpers *)

Definition resolveDORAUserID (ctx : Context) : result string :=
  match doraUserIDFromContext ctx with Some id => Ok id | None => w_GetUserID w ctx end.

(** The status code comes with the error. *)
Definition resolveStrategy (strategyType : string) (config : json) (cap : Capability) : (StrategyDefinition * json * Strat) + (Z * error) :=
  if bool_decide (strategyType = ""%string) then inr (StatusBadRequest, ErrMsg "strategy_type is required")
  else match w_strategies w !! strategyType with
  | None => inr (StatusBadRequest, ErrMsg "unsupported strategy_type")
  | Some def =>
      if negb (def_Status def) then inr (StatusNotImplemented, ErrMsg "strategy_type is not implemented")
      else if bool_decide (cap = capabilityRun) && negb (def_SupportsRun def) then
        inr (StatusNotImplemented, ErrMsg "strategy_type is not implemented for runs")
      else if bool_decide (cap = capabilityBacktest) && negb (def_SupportsBacktest def) then
        inr (StatusNotImplemented, ErrMsg "strategy_type is not implemented for backtests")
      else match def_DecodeConfig def with
      | None => inr (StatusNotImplemented, ErrMsg "strategy_type has no config decoder")
      | Some decode =>
          match decode config cap with
          | Err e => inr (StatusBadRequest, e)
          | Ok (normalised, strat) => inl (def, normalised, strat)
          end
      end
  end.

Definition known_kind (k : Kind) : bool := match k with KOther => false | _ => true end.

Definition attachDecisionStore (s : Strat) : Strat :=
  if w_decisionStore w && known_kind (st_kind s) then MkStrat (st_kind s) (st_client s) true (st_state s) (st_seq s) else s.
Definition attachStateStore (s : Strat) : Strat :=
  if w_stateStore w && executes (st_kind s) then MkStrat (st_kind s) (st_client s) (st_decisions s) true (st_seq s) else s.
Definition SetDecisionSeq (seq : Z) (s : Strat) : Strat :=
  if known_kind (st_kind s) then MkStrat (st_kind s) (st_client s) (st_decisions s) (st_state s) seq else s.
Definition applyUserAPIKey (s : Strat) (key : string) : Strat :=
  if bool_decide (key = ""%string) || negb (known_kind (st_kind s)) then s
  else MkStrat (st_kind s) (Some key) (st_decisions s) (st_state s) (st_seq s).
Definition canPlaceOrders (s : Strat) : bool := known_kind (st_kind s) && bool_decide (is_Some (st_client s)).
Definition requireMarketClient (s : Strat) : result unit :=
  if canPlaceOrders s then Ok tt else Err (ErrMsg "strategy places live orders and requires a DORA API key").

Definition has_key : bool := negb (bool_decide (w_encryptionKey w = ""%string)).

(** [publishEvent] *)
Definition publish (e : EventType) (user id : string) (h : handler) : handler :=
  if w_notifier w && negb (bool_decide (user = ""%string)) then with_events (h_events h ++ [MkEvent e user id]) h else h.
Definition publishEvent (e : EventType) (user id : string) : hprog unit := update (publish e user id).

(** [saveRun]: [PGRunStore.SaveRun] inserts the row or overwrites it; the
    row is what [d] holds. *)
Definition saveRun (ok : bool) (d : RunDetail) (h : handler) : handler * result unit :=
  if negb (w_runStore w) then (h, Ok tt)
  else if ok then (with_table (<[rd_ID d := d]> (h_table h)) h, Ok tt) else (h, Err (ErrMsg "save strategy run")).

Definition tell (c : OuCall) (h : handler) : handler :=
  if w_orderUpdates w then with_order_updates (h_orderUpdates h ++ [c]) h else h.
Definition tellManager (g : handler -> option OuCall) : hprog unit :=
  update (fun h => match g h with Some c => tell c h | None => h end).

Definition runDetail (id : string) : hprog (option RunDetail) := read (fun h => h_runs h !! id).

(** [context.WithCancel]: a new context; its cancel function. *)
Definition new_context (h : handler) : handler * nat := (with_contexts (S (h_contexts h)) (h_cancelled h) h, h_contexts h).
Definition cancel (tok : nat) (h : handler) : handler := with_contexts (h_contexts h) ({[tok]} ∪ h_cancelled h) h.
Definition cancelled (tok : nat) (h : handler) : bool := bool_decide (tok ∈ h_cancelled h).

(** A call of the service that waits for the strategy. *)
Definition callService (m : Message) (id : string) : hprog (result unit) :=
  k ← atomic (fun _ h => match SendMessage m id (h_service h) with
                         | (Ok _, sv) => (with_service sv h, Ok (length (callers (h_service h))))
                         | (Err e, sv) => (with_service sv h, Err e)
                         end);
  match k with
  | Err e => Ret (Err e)
  | Ok k => await (fun _ h => match callers (h_service h) !! k with
                              | Some c => match c_pc c with CallReturned r => Some r | _ => None end
                              | None => None
                              end)
  end.

(** [startRun]: the error of an earlier attempt goes, the service starts the
    strategy.  [runExitRecorder] is the event [EvExit] below. *)
Definition startRun (id : string) (s : Strat) : hprog (result unit) :=
  _ ← update (update_run id clear_error);
  atomic (fun c h => match RunStrategyWithID (ch_ended c) id (h_service h) with
                     | (Ok _, sv) => (with_history (h_owner h) (h_launched h ++ [(id, s)]) (h_exits h) (with_service sv h), Ok tt)
                     | (Err e, sv) => (with_service sv h, Err e)
                     end).

(** A detail changed and saved in one critical section. *)
Definition writeRun (f : RunDetail -> RunDetail) (id : string) (ok : bool) (h : handler) : handler * result unit :=
  match h_runs h !! id with
  | Some d => saveRun ok (f d) (with_runs (<[id := f d]> (h_runs h)) h)
  | None => (h, Ok tt)
  end.

(** *** The goroutines of a run *)

(** [maybePublishNaturalCompletion] under the lock: the terminal event, if
    the run was running. *)
Definition exit_status (exitErr : option string) (now : Z) (d : RunDetail) : RunDetail :=
  match exitErr with
  | Some e => set_status StFailed now (Some now) e d
  | None => set_status StCompleted now (Some now) (rd_Error d) d
  end.
Definition exit_event (exitErr : option string) : EventType :=
  match exitErr with Some _ => EventRunFailed | None => EventRunCompleted end.
Definition classify (id : string) (ok : bool) (h : handler) : handler * option (EventType * string) :=
  let exitErr := default None (h_runExitErrs h !! id) in
  let h := with_exit_errs (delete id (h_runExitErrs h)) h in
  match h_runs h !! id with
  | Some d =>
      if bool_decide (rd_Status d = StRunning) then
        ((writeRun (exit_status exitErr (h_now h)) id ok h).1, Some (exit_event exitErr, rd_DORAUserID d))
      else (h, None)
  | None => (h, None)
  end.
Definition maybePublishNaturalCompletion (id : string) : hprog unit :=
  r ← atomic (fun c => classify id (ch_ok c));
  match r with Some (e, user) => publishEvent e user id | None => Ret tt end.

(** A tick of a poll that finds nothing changes nothing, so the poll waits
    for what ends it. *)
Inductive Poll := PollDone | PollInactive | PollTriggered.
Definition poll (tok : nat) (id : string) (stopLoss : bool) : hprog Poll :=
  await (fun c h =>
    if ch_first c then if cancelled tok h then Some PollDone else None
    else if negb (IsRunActive id (h_service h)) then Some PollInactive
    else if stopLoss && ch_ok c then Some PollTriggered else None).

Definition completionWatcher (tok : nat) (id : string) : hprog unit :=
  p ← poll tok id false;
  _ ← match p with PollInactive => maybePublishNaturalCompletion id | _ => Ret tt end;
  _ ← update (fun h => with_observers (h_stopLossObservers h) (delete id (h_runCompletionWatchers h)) (h_runningStrategies h) h);
  update (cancel tok).

Definition startCompletionWatcher (id : string) : hprog unit :=
  tok ← atomic (fun _ h =>
    let '(h, tok) := new_context h in
    (with_observers (h_stopLossObservers h) (<[id := tok]> (h_runCompletionWatchers h)) (<[id := None]> (h_runningStrategies h)) h, tok));
  go (completionWatcher tok id).

Definition runStopLossObserver (tok : nat) (id user : string) : hprog unit :=
  p ← poll tok id true;
  _ ← match p with
      | PollInactive => maybePublishNaturalCompletion id
      | PollTriggered => publishEvent EventRunStopLoss user id
      | PollDone => Ret tt
      end;
  _ ← update (fun h => with_observers (delete id (h_stopLossObservers h)) (h_runCompletionWatchers h) (delete id (h_runningStrategies h)) h);
  update (cancel tok).

(** Mean reversion alone records a stop loss. *)
Definition startStopLossObserver (id user : string) (s : Strat) : hprog unit :=
  if bool_decide (st_kind s = KMeanReversion) then
    tok ← atomic (fun _ h =>
      let '(h, tok) := new_context h in
      (with_observers (<[id := tok]> (h_stopLossObservers h)) (h_runCompletionWatchers h) (<[id := Some s]> (h_runningStrategies h)) h, tok));
    go (runStopLossObserver tok id user)
  else Ret tt.

(** The loop of [runOrderUpdater] forwards events to the strategy's channel
    and leaves the server alone until its context or its subscription ends. *)
Definition runOrderUpdater (id : string) : hprog unit :=
  tok ← atomic (fun _ h =>
    let '(h, tok) := new_context h in
    (with_observers (<[id := tok]> (h_stopLossObservers h)) (h_runCompletionWatchers h) (h_runningStrategies h) h, tok));
  refused ← choose ch_ended;
  _ ← (if refused : bool then Ret tt else await (fun c h => if cancelled tok h || ch_ended c then Some tt else None));
  update (cancel tok).

(** [startOrderUpdater] runs it in the goroutine of the caller. *)
Definition startOrderUpdater (id user : string) (s : Strat) : hprog unit :=
  if negb (w_notifier w) || bool_decide (user = ""%string) then Ret tt
  else if executes (st_kind s) then runOrderUpdater id else Ret tt.

(** *** Requests *)

Definition internal (context : string) : Response := RError StatusInternalServerError context.

Definition getRun (ctx : Context) (id : string) : hprog Response :=
  match resolveDORAUserID ctx with
  | Err _ => Ret (internal "resolve dora user")
  | Ok user =>
      d ← runDetail id;
      match d with
      | None => Ret (RError StatusNotFound "run not found")
      | Some d =>
          if negb (bool_decide (rd_DORAUserID d = user)) then Ret (RError StatusForbidden "access denied")
          else read (fun h => RDetail StatusOK (default d (h_runs h !! id)))
      end
  end.

Definition caller_key (ctx : Context) : string :=
  match AuthInfoFromContext ctx with Some info => APIKey info | None => "" end.

(** The part of [createRun] between the resolved strategy and the stores. *)
Definition encrypt_key (key : string) : hprog (result string) :=
  if negb (bool_decide (key = ""%string)) && has_key then
    n ← choose ch_nonce;
    Ret (Encrypt n key (w_encryptionKey w))
  else Ret (Ok ""%string).

(** A new id, never drawn before. *)
Definition draw_id (user : string) : hprog (string * Z) :=
  Atom (fun c h => match h_owner h !! ch_uuid c with
                   | Some _ => None
                   | None => Some (with_history (<[ch_uuid c := user]> (h_owner h)) (h_launched h) (h_exits h) h, Ret (ch_uuid c, h_now h))
                   end).

(** From the started run to the response. *)
Definition publishRun (user key : string) (d : RunDetail) (s : Strat) : hprog Response :=
  let id := rd_ID d in
  saved ← atomic (fun c h => saveRun (ch_ok c) d h);
  match saved with
  | Err _ => Ret (internal "save run")
  | Ok _ =>
      _ ← update (fun h => with_runs (<[id := d]> (h_runs h)) h);
      _ ← tellManager (fun h => if negb (bool_decide (user = ""%string)) && negb (bool_decide (key = ""%string))
                                then Some (EnsureSubscribed user key id (rd_Status (default d (h_runs h !! id)))) else None);
      _ ← startOrderUpdater id user s;
      _ ← startStopLossObserver id user s;
      _ ← startCompletionWatcher id;
      _ ← publishEvent EventRunStarted user id;
      read (fun h => RDetail StatusCreated (default d (h_runs h !! id)))
  end.

(** [body]: the decoded request, its type and configuration. *)
Definition createRun (ctx : Context) (body : result (string * json)) : hprog Response :=
  match body with
  | Err _ => Ret (RError StatusBadRequest "invalid JSON body")
  | Ok (strategyType, config) =>
  match resolveStrategy strategyType config capabilityRun with
  | inr (code, _) => Ret (RError code "resolve strategy")
  | inl (def, cfg, strat) =>
  match resolveDORAUserID ctx with
  | Err _ => Ret (internal "resolve dora user")
  | Ok user =>
      let book := extractOrderBookID cfg in
      existing ← (if bool_decide (book = ""%string) then Ret None else read (findActiveRunForOrderBook user book));
      match existing with
      | Some _ => Ret (RError StatusConflict "a strategy is already active for this order book")
      | None =>
          let key := caller_key ctx in
          let strat := applyUserAPIKey strat key in
          match requireMarketClient strat with
          | Err _ => Ret (RError StatusBadRequest "requires a DORA API key")
          | Ok _ =>
              let strat := attachStateStore (attachDecisionStore strat) in
              enc ← encrypt_key key;
              match enc with
              | Err _ => Ret (internal "encrypt api key")
              | Ok enc =>
                  '(id, now) ← draw_id user;
                  let d := MkRunDetail id user (def_Type def) StRunning now now None cfg enc "" in
                  started ← startRun id strat;
                  match started with
                  | Err _ => Ret (internal "run strategy")
                  | Ok _ => publishRun user key d strat
                  end
              end
          end
      end
  end end end.

(** The checks stop, pause and resume begin with. *)
Definition withOwnRun (ctx : Context) (id : string) (k : string -> hprog Response) : hprog Response :=
  d ← runDetail id;
  match d with
  | None => Ret (RError StatusNotFound "run not found")
  | Some d =>
      match resolveDORAUserID ctx with
      | Err _ => Ret (internal "resolve dora user")
      | Ok user =>
          if negb (bool_decide (rd_DORAUserID d = user)) then Ret (RError StatusNotFound "run not found") else k user
      end
  end.

Definition readStatus (id : string) : hprog (option Status) := read (fun h => rd_Status <$> h_runs h !! id).

(** [detail, _ = h.runDetail(id); h.saveRun(ctx, detail)] *)
Definition saveRunByID (id : string) : hprog (result unit) :=
  atomic (fun c h => match h_runs h !! id with Some d => saveRun (ch_ok c) d h | None => (h, Ok tt) end).

Definition cancel_at (m : gmap string nat) (id : string) (h : handler) : handler :=
  match m !! id with Some tok => cancel tok h | None => h end.

Definition service_error (what : string) (e : error) : Response :=
  if is_not_found e then RError StatusNotFound "run not found" else internal what.

(** Stopped, and the goroutines that observe the run told to end. *)
Definition markStopped (now : Z) (id : string) (h : handler) : handler :=
  let h := update_run id (fun d => set_status StStopped now (Some now) (rd_Error d) d) h in
  cancel_at (h_runCompletionWatchers h) id (cancel_at (h_stopLossObservers h) id h).

Definition stopOwnRun (ctx : Context) (id user : string) : hprog Response :=
  status ← readStatus id;
  r ← (if bool_decide (status = Some StStopped) then Ret (Ok tt) else callService Stop id);
  match r with
  | Err e => Ret (service_error "stop run" e)
  | Ok _ =>
      now ← read h_now;
      _ ← update (markStopped now id);
      _ ← tellManager (fun _ => if bool_decide (user = ""%string) then None else Some (UpdateRunStatus id StStopped));
      _ ← tellManager (fun _ => if bool_decide (user = ""%string) then None else Some (Unsubscribe user));
      saved ← saveRunByID id;
      match saved with
      | Err _ => Ret (internal "save run")
      | Ok _ => _ ← publishEvent EventRunStopped user id; getRun ctx id
      end
  end.

Definition stopRun (ctx : Context) (id : string) : hprog Response := withOwnRun ctx id (stopOwnRun ctx id).

Definition pauseOwnRun (ctx : Context) (id user : string) : hprog Response :=
  status ← readStatus id;
  if bool_decide (status = Some StStopped) then Ret (RError StatusConflict "run is stopped")
  else
    r ← callService Pause id;
    match r with
    | Err e => Ret (service_error "stop run" e)
    | Ok _ =>
        now ← read h_now;
        _ ← update (update_run id (fun d => set_status StPaused now (rd_StoppedAt d) (rd_Error d) d));
        _ ← tellManager (fun _ => Some (UpdateRunStatus id StPaused));
        saved ← saveRunByID id;
        match saved with
        | Err _ => Ret (internal "save run")
        | Ok _ => _ ← publishEvent EventRunPaused user id; getRun ctx id
        end
    end.

Definition pauseRun (ctx : Context) (id : string) : hprog Response := withOwnRun ctx id (pauseOwnRun ctx id).

(** [failUnusableAPIKeyRun] *)
Definition failUnusableAPIKeyRun (id user reason : string) : hprog unit :=
  now ← read h_now;
  _ ← atomic (fun c => writeRun (set_status StFailed now (Some now) reason) id (ch_ok c));
  publishEvent EventRunFailed user id.

(** The key a relaunched run trades with: the caller's, which replaces the
    stored one, or the stored one. *)
Definition resumeKey (callerKey id user : string) : hprog (result (option string)) :=
  if negb (bool_decide (callerKey = ""%string)) then
    if has_key then
      n ← choose ch_nonce;
      match Encrypt n callerKey (w_encryptionKey w) with
      | Err e => Ret (Err (ErrWrap "encrypt api key" e))
      | Ok enc => _ ← update (update_run id (set_key enc)); Ret (Ok (Some callerKey))
      end
    else Ret (Ok (Some callerKey))
  else
    stored ← read (fun h => match h_runs h !! id with Some d => rd_EncryptedAPIKey d | None => ""%string end);
    if negb (bool_decide (stored = ""%string)) && has_key then
      match Decrypt stored (w_encryptionKey w) with
      | Err _ => _ ← failUnusableAPIKeyRun id user "stored DORA API key cannot be decrypted"; Ret (Err err_unusable_key)
      | Ok k => Ret (Ok (Some k))
      end
    else Ret (Ok None).

(** From the strategy with its key to the launched run. *)
Definition relaunch (id user : string) (key : option string) (s : Strat) : hprog (result unit) :=
  seq ← choose ch_seq;
  let s := match seq with Some n => if w_decisionStore w then SetDecisionSeq n s else s | None => s end in
  _ ← startOrderUpdater id user s;
  _ ← update (fun h => update_run id (fun d => set_status StRunning (h_now h) None (rd_Error d) d) h);
  started ← startRun id s;
  match started with
  | Err e => Ret (Err e)
  | Ok _ =>
      _ ← tellManager (fun h => match key, h_runs h !! id with
                                | Some k, Some d => if bool_decide (user = ""%string) then None else Some (EnsureSubscribed user k id (rd_Status d))
                                | _, _ => None
                                end);
      _ ← startStopLossObserver id user s;
      _ ← startCompletionWatcher id;
      Ret (Ok tt)
  end.

(** [detail]: the run as read before; its type, configuration and user never
    change. *)
Definition resumePersistedRun (detail : RunDetail) (callerKey : string) : hprog (result unit) :=
  let id := rd_ID detail in
  match resolveStrategy (rd_StrategyType detail) (rd_Config detail) capabilityRun with
  | inr (_, e) => Ret (Err e)
  | inl (_, _, strat) =>
      k ← resumeKey callerKey id (rd_DORAUserID detail);
      match k with
      | Err e => Ret (Err e)
      | Ok k =>
          let strat := applyUserAPIKey strat (default ""%string k) in
          if negb (canPlaceOrders strat) then
            _ ← failUnusableAPIKeyRun id (rd_DORAUserID detail) "run has no stored DORA API key"; Ret (Err err_unusable_key)
          else relaunch id (rd_DORAUserID detail) k (attachStateStore (attachDecisionStore strat))
      end
  end.

(** [writeResumeError] *)
Definition resume_error (e : error) : Response :=
  if is_unusable_key e then RError StatusConflict "run has no usable stored DORA API key" else internal "resume run".

Definition terminal (d : option RunDetail) : bool :=
  match d with
  | None => true
  | Some d => match rd_Status d with StFailed | StCompleted | StStopped => true | _ => false end
  end.

(** The last critical section of [resumeRun]. *)
Definition finishResume (now : Z) (user id : string) (ok : bool) (h : handler) : handler * option error :=
  if terminal (h_runs h !! id) then (h, None)
  else
    match writeRun (fun d => set_status StRunning now None (rd_Error d) d) id ok (tell (UpdateRunStatus id StRunning) h) with
    | (h, Err e) => (h, Some e)
    | (h, Ok _) => (publish EventRunResumed user id h, None)
    end.

(** The service resumes a run it knows; another is relaunched. *)
Definition wakeRun (ctx : Context) (id : string) : hprog (option Response) :=
  r ← callService Resume id;
  match r with
  | Ok _ => Ret None
  | Err e =>
      if is_not_found e then
        d ← runDetail id;
        match d with
        | None => Ret None
        | Some d =>
            p ← resumePersistedRun d (caller_key ctx);
            match p with Ok _ => Ret None | Err e => Ret (Some (resume_error e)) end
        end
      else Ret (Some (internal "resume run"))
  end.

Definition resumeOwnRun (ctx : Context) (id user : string) : hprog Response :=
  status ← readStatus id;
  if bool_decide (status = Some StStopped) then Ret (RError StatusConflict "run is stopped")
  else
    failed ← wakeRun ctx id;
    match failed with
    | Some resp => Ret resp
    | None =>
        now ← read h_now;
        e ← atomic (fun c => finishResume now user id (ch_ok c));
        match e with Some _ => Ret (internal "save run") | None => getRun ctx id end
    end.

Definition resumeRun (ctx : Context) (id : string) : hprog Response := withOwnRun ctx id (resumeOwnRun ctx id).

(** *** Start-up *)

(** [runWindowExpired] *)
Definition runWindowExpired (now : Z) (d : RunDetail) : bool :=
  match unmarshal_time (w_parseTime w) "end_time" (rd_Config d) with
  | Ok (Some t) => t <? now
  | _ => false
  end.

(** [expireRun] *)
Definition expireRun (id : string) : hprog unit :=
  now ← read h_now;
  user ← atomic (fun c h => ((writeRun (fun d => set_status StCompleted now (Some now) (rd_Error d) d) id (ch_ok c) h).1,
                             match h_runs h !! id with Some d => rd_DORAUserID d | None => ""%string end));
  publishEvent EventRunCompleted user id.

(** [PGRunStore.LoadRuns]: the rows that are not stopped, in an order SQL
    leaves open. *)
Definition LoadRuns (order : list string) (h : handler) : option (list RunDetail) :=
  let rows := filter (fun p => rd_Status p.2 <> StStopped) (h_table h) in
  if bool_decide (NoDup order /\ list_to_set order = dom rows) then Some (omap (fun id => rows !! id) order) else None.

Fixpoint restoreAll (rows : list RunDetail) : hprog (result unit) :=
  match rows with
  | [] => Ret (Ok tt)
  | d :: rest =>
      status ← readStatus (rd_ID d);
      if negb (bool_decide (status = Some StRunning)) then restoreAll rest
      else
        now ← read h_now;
        if runWindowExpired now d then _ ← expireRun (rd_ID d); restoreAll rest
        else
          r ← resumePersistedRun d "";
          match r with
          | Ok _ => restoreAll rest
          | Err e => if is_unusable_key e then restoreAll rest else Ret (Err (ErrWrap "restore run" e))
          end
  end.

Definition put_runs (rows : list RunDetail) (m : gmap string RunDetail) : gmap string RunDetail :=
  foldl (fun m d => <[rd_ID d := d]> m) m rows.

Definition RestoreRuns : hprog (result unit) :=
  if negb (w_runStore w) then Ret (Ok tt)
  else
    rows ← Atom (fun c h => if ch_ok c then match LoadRuns (ch_order c) h with Some rows => Some (h, Ret (Ok rows)) | None => None end
                            else Some (h, Ret (Err (ErrMsg "query strategy runs"))));
    match rows with
    | Err e => Ret (Err (ErrWrap "load runs" e))
    | Ok rows =>
        _ ← update (fun h => with_runs (put_runs rows (h_runs h)) h);
        restoreAll rows
    end.

(** *** Queries *)

(** [filterAndSort] by creation time, newest first; [sort.Slice] is not
    stable, and the model's insertion is one of its results. *)
Fixpoint insert_newest (d : RunDetail) (l : list RunDetail) : list RunDetail :=
  match l with
  | [] => [d]
  | x :: rest => if rd_CreatedAt x <? rd_CreatedAt d then d :: l else x :: insert_newest d rest
  end.
Definition filterAndSort (user : string) (m : gmap string RunDetail) : list RunDetail :=
  foldr insert_newest [] (List.filter (fun d => bool_decide (rd_DORAUserID d = user)) (snd <$> map_to_list m)).

(** [PGRunStore.CheckRunExists], [LookupRunByID] *)
Definition CheckRunExists (id user : string) (h : handler) : bool :=
  match h_table h !! id with Some d => bool_decide (rd_DORAUserID d = user) | None => false end.
Definition LookupRunByID (id : string) (h : handler) : option RunDetail := h_table h !! id.

(** *** The server as a system *)

Inductive Op := OpCreate (body : result (string * json)) | OpGet (id : string) | OpStop (id : string) | OpPause (id : string) | OpResume (id : string).

Definition perform (ctx : Context) (o : Op) : hprog Response :=
  match o with
  | OpCreate body => createRun ctx body
  | OpGet id => getRun ctx id
  | OpStop id => stopRun ctx id
  | OpPause id => pauseRun ctx id
  | OpResume id => resumeRun ctx id
  end.

(** A numbered request, or the start-up, on behalf of nobody. *)
Inductive Request := Arrive (n : nat) (ctx : Context) (o : Op) | Startup.

Definition principal (ctx : Context) : option string := match resolveDORAUserID ctx with Ok u => Some u | Err _ => None end.

Definition serve (r : Request) : thread handler Choice (option string) :=
  match r with
  | Arrive n ctx o => MkThread (principal ctx) (resp ← perform ctx o; update (fun h => with_responses (h_responses h ++ [(n, resp)]) h))
  | Startup => MkThread None (_ ← RestoreRuns; Ret tt)
  end.

(** What happens besides the handlers: the steps of the service, the clock,
    and a strategy's [Run] returning inside [runExitRecorder], which notes
    the error before the service sees the run return. *)
Inductive WorldEvent :=
  | EvDeliver (k : nat) | EvCancel (k : nat) | EvAbandon (k : nat) | EvUnregister (n : nat)
  | EvExit (n : nat) (err : option string)
  | EvClock (t : Z).

Definition on_service (f : service -> option service) (h : handler) : option handler :=
  match f (h_service h) with Some sv => Some (with_service sv h) | None => None end.

Definition world (e : WorldEvent) (h : handler) : option handler :=
  match e with
  | EvDeliver k => on_service (deliver k) h
  | EvCancel k => on_service (cancel_run k) h
  | EvAbandon k => on_service (abandon k) h
  | EvUnregister n => on_service (unregister n) h
  | EvExit n err =>
      match runs (h_service h) !! n, strategy_returns n (h_service h) with
      | Some r, Some sv =>
          let h := with_exit_errs (<[r_id r := err]> (h_runExitErrs h)) h in
          Some (with_history (h_owner h) (h_launched h) (h_exits h ++ [(r_id r, err)]) (with_service sv h))
      | _, _ => None
      end
  | EvClock t => Some (with_now t h)
  end.

Notation server := (system handler Choice (option string)).
Definition server_step := sys_step world serve.
Definition server_run := sys_run world serve.
Definition NewServer (h : handler) : server := MkSystem h [].
End Runs.

(** ** A small server, for concrete runs *)

Module Demo.
(** A cipher that hides nothing. *)
#[export] Instance clear_text : AEAD := { gcm_seal _ _ p := p; gcm_open _ _ c := Some c; gcm_open_seal _ _ _ := eq_refl }.

Definition decode (k : Kind) (cfg : json) (_ : Capability) : result (json * Strat) := Ok (cfg, MkStrat k None false false 0).
Definition definition (name : string) (k : Kind) : StrategyDefinition := MkDefinition name true true true (Some (decode k)).

Definition wiring : Wiring := {|
  w_strategies := <["momentum"%string := definition "momentum" KMomentum]> (<["twap"%string := definition "twap" KTwap]> ∅);
  w_runStore := true; w_notifier := true; w_orderUpdates := true; w_decisionStore := true; w_stateStore := true;
  w_encryptionKey := "0123456789abcdef"; w_GetUserID _ := Err (ErrMsg "no client"); w_parseTime _ := Err (ErrMsg "no time") |}.

Definition ctx (user : string) : Context := MkContext (Some (MkAuthInfo ("key-" ++ user)%string "" "")) (Some user).
Definition book (b : string) : json := JObject [("order_book_id"%string, JString b)].
Definition create (kind b : string) : Op := OpCreate (Ok (kind, book b)).

(** The database answers, no context has ended. *)
Definition yes (id : string) : Choice := MkChoice true false false id "random bytes" (Some 0) [].
Definition steps (n k : nat) : list (label Choice WorldEvent Request) := replicate k (LThread n (yes "")).
Definition draw (n : nat) (id : string) : label Choice WorldEvent Request := LThread n (yes id).

(** A create of goroutine [n] up to its response. *)
Definition created (n : nat) (id : string) : list (label Choice WorldEvent Request) := steps n 2 ++ [draw n id] ++ steps n 10.

Definition run (ls : list (label Choice WorldEvent Request)) : option (system handler Choice (option string)) :=
  server_run wiring ls (NewServer NewHandler).
Definition final (ls : list (label Choice WorldEvent Request)) : system handler Choice (option string) :=
  default (NewServer NewHandler) (run ls).
Definition ends (ls : list (label Choice WorldEvent Request)) : bool := match run ls with Some _ => true | None => false end.

Lemma demo_final ls : ends ls = true -> run ls = Some (final ls).
Proof. unfold ends, final. by destruct (run ls). Qed.

Lemma demo_resumes ls l : ends ls = true -> ends (ls ++ [l]) = true -> server_step wiring l (final ls) = Some (final (ls ++ [l])).
Proof.
  intros H1%demo_final H2%demo_final. revert H2. generalize (final (ls ++ [l])). intros s'. revert H1. generalize (final ls).
  intros s. unfold run, server_run. intros H1. rewrite cc_run_app, H1. cbn [sys_run]. unfold server_step.
  destruct (sys_step _ _ _ _); [by intros [= ->] | done].
Qed.

(** The status of a run, and the codes of the responses in order. *)
Definition status (id : string) (s : system handler Choice (option string)) : option Status := rd_Status <$> h_runs (shared s) !! id.
Definition code (r : Response) : Z := match r with RError c _ => c | RDetail c _ => c end.
Definition codes (s : system handler Choice (option string)) : list (nat * Z) :=
  (fun p => (p.1, code p.2)) <$> h_responses (shared s).
End Demo.
