(* ===== verification/HttpRunsOwner.v ===== *)
(** * Live runs belong to their user

    Theory of [HttpRuns], by the rely-guarantee logic of [Concurrency]: in
    every interleaving of requests, start-up, observers and the service, what
    a user's request or its goroutines do touches that user's runs only, and
    a strategy the server launches trades with a key of the run's owner. *)

From S2P Require Import Prelude Market Service Concurrency Secrets HttpAuth Json HttpRuns.

Section Owner.
Context `{AEAD} (w : Wiring).

(** Whose account a DORA key trades on. *)
Variable key_user : string -> string.

(** No decoder gives a strategy a market client. *)
Hypothesis decoders_bare : forall ty def decode config cap cfg s,
  w_strategies w !! ty = Some def -> def_DecodeConfig def = Some decode -> decode config cap = Ok (cfg, s) -> st_client s = None.

(** ** The invariant *)

(** A stored key opens to a key of the run's user. *)
Definition key_ok (enc user : string) : Prop :=
  forall k, enc <> ""%string -> has_key w = true -> Decrypt enc (w_encryptionKey w) = Ok k -> k <> ""%string -> key_user k = user.

Definition row_ok (owner : gmap string string) (id : string) (d : RunDetail) : Prop :=
  rd_ID d = id /\ owner !! id = Some (rd_DORAUserID d) /\ key_ok (rd_EncryptedAPIKey d) (rd_DORAUserID d).

Definition launch_ok (owner : gmap string string) (p : string * Strat) : Prop :=
  exists u k, owner !! p.1 = Some u /\ st_client p.2 = Some k /\ key_user k = u.

Definition event_ok (owner : gmap string string) (e : Event) : Prop := owner !! ev_RunID e = Some (ev_UserID e).

Record owned (owner : gmap string string) (rs table : gmap string RunDetail) (launched : list (string * Strat))
    (events : list Event) (sv : service) : Prop := {
  ow_runs : map_Forall (row_ok owner) rs;
  ow_table : map_Forall (row_ok owner) table;
  ow_launched : Forall (launch_ok owner) launched;
  ow_events : Forall (event_ok owner) events;
  ow_registry : registry_ok sv;
}.

Definition Inv (h : handler) : Prop :=
  owned (h_owner h) (h_runs h) (h_table h) (h_launched h) (h_events h) (h_service h).

(** ** The guarantee *)

(** What a step leaves alone of run [id]: its detail, its row, its exit
    error, its registration, its events; and no message is sent to it. *)
Record same_run (id : string) (h h' : handler) : Prop := {
  sr_run : h_runs h' !! id = h_runs h !! id;
  sr_row : h_table h' !! id = h_table h !! id;
  sr_exit : h_runExitErrs h' !! id = h_runExitErrs h !! id;
  sr_registered : strategies (h_service h') !! id = strategies (h_service h) !! id;
  sr_events : List.filter (fun e => bool_decide (ev_RunID e = id)) (h_events h') = List.filter (fun e => bool_decide (ev_RunID e = id)) (h_events h);
  sr_calls : exists l, callers (h_service h') = callers (h_service h) ++ l /\ Forall (fun c => strategies (h_service h) !! id <> Some (c_run c)) l;
}.

Definition foreign (u id : string) (h : handler) : Prop := exists o, h_owner h !! id = Some o /\ o <> u.

Definition Guar (t : option string) (h h' : handler) : Prop :=
  h_owner h ⊆ h_owner h' /\ forall u id, t = Some u -> foreign u id h -> same_run id h h'.
Definition Rely (h h' : handler) : Prop := h_owner h ⊆ h_owner h'.

(** The goroutine runs for [u], or for the server. *)
Definition acts_for (t : option string) (u : string) : Prop := t = Some u \/ t = None.
Definition own (u id : string) (h : handler) : Prop := h_owner h !! id = Some u.

Notation safe := (safe (Ch := Choice) Inv Guar Rely).
Notation stable := (stable Inv Rely).

Lemma ho_own_stable u id : stable (own u id).
Proof. intros x s s' _ _ HR Hs. by eapply lookup_weaken. Qed.
#[local] Hint Resolve ho_own_stable stable_const stable_and : verif.

Lemma ho_same_refl id h : same_run id h h.
Proof. split; try done. exists []. by rewrite app_nil_r. Qed.
#[local] Hint Resolve ho_same_refl : verif.

Lemma ho_guar_refl t h : Guar t h h.
Proof. split; [done | auto with verif]. Qed.
#[local] Hint Resolve ho_guar_refl : verif.

(** A step on one's own run that draws no id. *)
Lemma ho_guar_own t u id h h' : acts_for t u -> own u id h -> h_owner h' = h_owner h ->
  (forall id', id' <> id -> same_run id' h h') -> Guar t h h'.
Proof.
  intros Ht Ho E Hs. split; [by rewrite E |]. intros u' id' Hu (o & Ho' & Hne). apply Hs. intros ->.
  unfold own in Ho. rewrite Ho in Ho'. injection Ho' as <-. destruct Ht; congruence.
Qed.

(** A step on no run. *)
Lemma ho_guar_none t h h' : h_owner h' = h_owner h -> (forall id, same_run id h h') -> Guar t h h'.
Proof. intros E Hs. split; [by rewrite E | auto]. Qed.

(** ** Steps *)

Lemma ho_row_f owner id f (rs : gmap string RunDetail) :
  (forall d, rd_ID (f d) = rd_ID d /\ rd_DORAUserID (f d) = rd_DORAUserID d /\ rd_EncryptedAPIKey (f d) = rd_EncryptedAPIKey d) ->
  map_Forall (row_ok owner) rs -> map_Forall (row_ok owner) (alter f id rs).
Proof.
  intros Hf F i d. rewrite lookup_alter_Some. intros [(-> & d0 & Hd & ->)|[_ Hd]]; [| by apply F].
  apply F in Hd as (Hi & Ho & Hk). unfold row_ok. destruct (Hf d0) as (-> & -> & ->). done.
Qed.

Definition keeps (f : RunDetail -> RunDetail) : Prop :=
  forall d, rd_ID (f d) = rd_ID d /\ rd_DORAUserID (f d) = rd_DORAUserID d /\ rd_EncryptedAPIKey (f d) = rd_EncryptedAPIKey d.

Lemma ho_inv_runs h rs : Inv h -> map_Forall (row_ok (h_owner h)) rs -> Inv (with_runs rs h).
Proof. intros [? ? ? ? ?] ?. by split. Qed.
Lemma ho_inv_table h t : Inv h -> map_Forall (row_ok (h_owner h)) t -> Inv (with_table t h).
Proof. intros [? ? ? ? ?] ?. by split. Qed.
Lemma ho_inv_events h es : Inv h -> Forall (event_ok (h_owner h)) es -> Inv (with_events es h).
Proof. intros [? ? ? ? ?] ?. by split. Qed.
Lemma ho_inv_service h sv : Inv h -> registry_ok sv -> Inv (with_service sv h).
Proof. intros [? ? ? ? ?] ?. by split. Qed.

Lemma ho_inv_update f id h : keeps f -> Inv h -> Inv (update_run id f h).
Proof. intros Hf Is. apply ho_inv_runs; [done |]. apply ho_row_f; [done | apply Is]. Qed.

Lemma ho_same_update f id id' h : id' <> id -> same_run id' h (update_run id f h).
Proof. intros Hne. split; simpl; try done; [by rewrite lookup_alter_ne |]. exists []. by rewrite app_nil_r. Qed.

Lemma ho_same_insert d id id' h : id' <> id -> same_run id' h (with_runs (<[id := d]> (h_runs h)) h).
Proof. intros Hne. split; simpl; try done; [by rewrite lookup_insert_ne |]. exists []. by rewrite app_nil_r. Qed.

Lemma ho_same_trans id h1 h2 h3 : same_run id h1 h2 -> same_run id h2 h3 -> same_run id h1 h3.
Proof.
  intros [A1 A2 A3 A4 A5 (l1 & A6 & A7)] [B1 B2 B3 B4 B5 (l2 & B6 & B7)]. split; try congruence.
  exists (l1 ++ l2). split; [by rewrite B6, A6, app_assoc |]. apply Forall_app. split; [done |].
  eapply Forall_impl; [exact B7 |]. intros c. by rewrite A4.
Qed.

Lemma ho_publish_same e u id id' h : id' <> id -> same_run id' h (publish w e u id h).
Proof.
  intros Hne. unfold publish. destruct (_ && _); [| auto with verif]. split; simpl; try done.
  - rewrite List.filter_app. simpl. by rewrite bool_decide_eq_false_2, app_nil_r.
  - exists []. by rewrite app_nil_r.
Qed.
Lemma ho_publish_inv e u id h : own u id h -> Inv h -> Inv (publish w e u id h).
Proof.
  intros Ho Is. unfold publish. destruct (_ && _); [| done]. apply ho_inv_events; [done |].
  apply Forall_app. split; [apply Is |]. by constructor.
Qed.
Lemma ho_publish_owner e u id h : h_owner (publish w e u id h) = h_owner h.
Proof. unfold publish. by destruct (_ && _). Qed.

Lemma ho_save_inv ok d h : row_ok (h_owner h) (rd_ID d) d -> Inv h -> Inv (saveRun w ok d h).1.
Proof.
  intros Hd Is. unfold saveRun. destruct (negb _); [done |]. destruct ok; [| done]. apply ho_inv_table; [done |].
  apply map_Forall_insert_2; [done | apply Is].
Qed.
Lemma ho_save_same ok d id' h : id' <> rd_ID d -> same_run id' h (saveRun w ok d h).1.
Proof.
  intros Hne. unfold saveRun. destruct (negb _); [auto with verif |]. destruct ok; [| auto with verif].
  split; simpl; try done; [by rewrite lookup_insert_ne |]. exists []. by rewrite app_nil_r.
Qed.
Lemma ho_save_owner ok d h : h_owner (saveRun w ok d h).1 = h_owner h.
Proof. unfold saveRun. destruct (negb _); [done |]. by destruct ok. Qed.

Lemma ho_set_status st now so err : keeps (set_status st now so err).
Proof. by intros d. Qed.
Lemma ho_set_status_same st now so : keeps (fun d => set_status st now (so d) (rd_Error d) d).
Proof. by intros d. Qed.
Lemma ho_clear_error : keeps clear_error.
Proof. by intros d. Qed.

(** ** The programs *)

Lemma ho_bind {A B} t (p : prog handler Choice A) (k : A -> prog handler Choice B) P Q Q' :
  safe t p P Q -> (forall a, safe t (k a) (Q a) Q') -> safe t (p ≫= k) P Q'.
Proof. apply safe_bind. Qed.

(** A critical section on one's own run. *)
Lemma ho_atomic {A} t u id (f : Choice -> handler -> handler * A) (P : handler -> Prop) (phi : A -> Prop) : acts_for t u ->
  stable P -> (forall h, P h -> own u id h) ->
  (forall c h, Inv h -> P h -> Inv (f c h).1 /\ h_owner (f c h).1 = h_owner h /\ phi (f c h).2 /\
     forall id', id' <> id -> same_run id' h (f c h).1) ->
  safe t (atomic f) P (fun a h => P h /\ phi a).
Proof.
  intros Ht SP Ho Hf. apply safe_atomic; [| auto with verif]. intros c h Is Ps. destruct (Hf c h Is Ps) as (I' & Eo & Hp & Hs).
  split_and!; [done | by eapply ho_guar_own; eauto | | done]. apply (SP ∅ h); [exact Is | done | | done]. unfold Rely. by rewrite Eo.
Qed.

Lemma ho_read {A} t (f : handler -> A) (P : handler -> Prop) (phi : A -> Prop) :
  stable P -> (forall h, Inv h -> P h -> phi (f h)) -> safe t (read f) P (fun a h => P h /\ phi a).
Proof. intros SP Hf. apply safe_atomic; [| auto with verif]. intros c h Is Ps. simpl. split_and!; auto with verif. Qed.

(** An update of the parts the invariant does not mention. *)
Lemma ho_quiet {A} t (f : Choice -> handler -> handler * A) (P : handler -> Prop) : stable P ->
  (forall c h, Inv h -> Inv (f c h).1) -> (forall c h, h_owner (f c h).1 = h_owner h) ->
  (forall c h id, same_run id h (f c h).1) -> safe t (atomic f) P (fun _ => P).
Proof.
  intros SP HI Eo Hs. apply safe_atomic; [| auto]. intros c h Is Ps. split_and!; [auto | apply ho_guar_none; auto |].
  apply (SP ∅ h); [exact Is | auto | | done]. unfold Rely. by rewrite Eo.
Qed.

Lemma ho_look {A} t (f : handler -> A) P : stable P -> safe t (read f) P (fun _ => P).
Proof. intros SP. apply ho_quiet; auto with verif. Qed.
Lemma ho_choose {A} t (f : Choice -> A) P : stable P -> safe t (choose f) P (fun _ => P).
Proof. intros SP. apply ho_quiet; auto with verif. Qed.

Lemma ho_ret {A} t (a : A) P : safe t (Ret a) P (fun _ => P).
Proof. by intros x h _ Hh. Qed.

Lemma ho_weaken {A} t (p : prog handler Choice A) (P P' : handler -> Prop) Q :
  (forall h, P h -> P' h) -> safe t p P' Q -> safe t p P Q.
Proof. intros HP. apply safe_pre. auto. Qed.

Lemma ho_done {A} t (a : A) P (phi : A -> Prop) : phi a -> safe t (Ret a) P (fun a h => P h /\ phi a).
Proof. by intros Ha x h _ Hh. Qed.

(** A fact about the value read so far. *)
Lemma ho_pure {A} t (p : prog handler Choice A) (P : handler -> Prop) (X : Prop) Q :
  (X -> safe t p P Q) -> safe t p (fun h => P h /\ X) Q.
Proof. apply safe_pure. Qed.

Lemma ho_forget {A} t (p : prog handler Choice A) P (phi : A -> Prop) :
  safe t p P (fun a h => P h /\ phi a) -> safe t p P (fun _ => P).
Proof. apply safe_post. by intros a h _ [? _]. Qed.

Section Run.
(** One run, and somebody who acts for its user. *)
Context (t : option string) (u id : string) (Ht : acts_for t u).
Notation P := (own u id).

Lemma ho_publishEvent e : safe t (publishEvent w e u id) P (fun _ => P).
Proof.
  eapply ho_forget, (ho_atomic _ u id _ _ (fun _ => True)); [done | auto with verif | done |]. intros c h Is Ps. simpl.
  split_and!; [by apply ho_publish_inv | apply ho_publish_owner | done | intros id' Hne; by apply ho_publish_same].
Qed.

Lemma ho_update_run f : keeps f -> safe t (update (update_run id f)) P (fun _ => P).
Proof.
  intros Hf. eapply ho_forget, (ho_atomic _ u id _ _ (fun _ => True)); [done | auto with verif | done |]. intros c h Is Ps. simpl.
  split_and!; [by apply ho_inv_update | done | done | intros id' Hne; by apply ho_same_update].
Qed.

Lemma ho_set_status_now st so : safe t (update (fun h => update_run id (fun d => set_status st (h_now h) so (rd_Error d) d) h)) P (fun _ => P).
Proof.
  eapply ho_forget, (ho_atomic _ u id _ _ (fun _ => True)); [done | auto with verif | done |]. intros c h Is Ps. simpl.
  split_and!; [by apply ho_inv_update | done | done | intros id' Hne; by apply ho_same_update].
Qed.

Lemma ho_tell g : safe t (tellManager w g) P (fun _ => P).
Proof.
  apply (ho_quiet t _ P); [auto with verif | | |].
  - intros c h Is. simpl. destruct (g h); [| done]. unfold tell. destruct (w_orderUpdates w); [| done]. by destruct Is.
  - intros c h. simpl. destruct (g h); [| done]. unfold tell. by destruct (w_orderUpdates w).
  - intros c h i. simpl. destruct (g h); [| auto with verif]. unfold tell. destruct (w_orderUpdates w); [| auto with verif].
    split; try done. exists []. by rewrite app_nil_r.
Qed.

Lemma ho_save_run : safe t (saveRunByID w id) P (fun _ => P).
Proof.
  eapply ho_forget, (ho_atomic _ u id _ _ (fun _ => True)); [done | auto with verif | done |]. intros c h Is Ps. simpl.
  destruct (h_runs h !! id) as [d|] eqn:E; [| split_and!; auto with verif].
  assert (row_ok (h_owner h) id d) as Hd by by apply (ow_runs _ _ _ _ _ _ Is). pose proof Hd as (<- & _).
  split_and!; [by apply ho_save_inv | apply ho_save_owner | done | intros id' Hne; by apply ho_save_same].
Qed.

Lemma ho_callService m : safe t (callService m id) P (fun _ => P).
Proof.
  eapply ho_bind with (Q := fun _ => P).
  - eapply ho_forget, (ho_atomic _ u id _ _ (fun _ => True)); [done | auto with verif | done |]. intros c h Is Ps.
    unfold SendMessage. destruct (strategies (h_service h) !! id) as [r|] eqn:E; simpl; [| split_and!; [by destruct Is | done | done |]].
    + pose proof (ow_registry _ _ _ _ _ _ Is) as Hr. split_and!; [by apply ho_inv_service | done | done |]. intros id' Hne.
      split; try done. eexists. split; [reflexivity |]. constructor; [| done]. simpl. intros E'.
      apply Hr in E as (x & Hx & <- & _). apply Hr in E' as (y & Hy & <- & _). congruence.
    + intros id' _. by split; try done; exists []; rewrite app_nil_r.
  - intros [k|e]; [| apply ho_ret]. apply safe_await; auto with verif.
Qed.

Lemma ho_startRun s : (exists k, st_client s = Some k /\ key_user k = u) -> safe t (startRun id s) P (fun _ => P).
Proof.
  intros (k & Hc & Hk). eapply ho_bind; [apply ho_update_run, ho_clear_error |]. intros ?.
  eapply ho_forget, (ho_atomic _ u id _ _ (fun _ => True)); [done | auto with verif | done |]. intros c h Is Ps.
  unfold RunStrategyWithID. destruct (ch_ended c); simpl; [split_and!; [by destruct Is | done | done | intros ? _; split; try done; exists []; by rewrite app_nil_r] |].
  destruct (strategies (h_service h) !! id) eqn:E; simpl; [split_and!; [by destruct Is | done | done | intros ? _; split; try done; exists []; by rewrite app_nil_r] |].
  split_and!; [| done | done |].
  - destruct Is as [? ? ? ? Hr]. split; simpl; try done; [| by apply sv_register]. apply Forall_app. split; [done |]. constructor; [| done]. by exists u, k.
  - intros id' Hne. split; simpl; try done; [by rewrite lookup_insert_ne |]. exists []. by rewrite app_nil_r.
Qed.

(** Writing a run's detail and row. *)
Lemma ho_writeRun f ok h : keeps f -> Inv h -> Inv (writeRun w f id ok h).1 /\
  h_owner (writeRun w f id ok h).1 = h_owner h /\ forall id', id' <> id -> same_run id' h (writeRun w f id ok h).1.
Proof.
  intros Hf Is. unfold writeRun. destruct (h_runs h !! id) as [d|] eqn:E; [| split_and!; auto with verif].
  assert (row_ok (h_owner h) id d) as (Hi & Ho & Hk) by by apply (ow_runs _ _ _ _ _ _ Is). destruct (Hf d) as (F1 & F2 & F3).
  assert (row_ok (h_owner h) id (f d)) as Hd by (unfold row_ok; by rewrite F1, F2, F3).
  rewrite Hi in F1. split_and!.
  - apply ho_save_inv; [by rewrite F1 |]. apply ho_inv_runs; [done |]. apply map_Forall_insert_2; [done | apply Is].
  - by rewrite ho_save_owner.
  - intros id' Hne. eapply ho_same_trans; [by apply (ho_same_insert (f d) id) |]. apply ho_save_same. by rewrite F1.
Qed.

Lemma ho_write {A} (f : RunDetail -> RunDetail) (g : handler -> A) : keeps f ->
  safe t (atomic (fun c h => ((writeRun w f id (ch_ok c) h).1, g h))) P (fun _ => P).
Proof.
  intros Hf. eapply ho_forget, (ho_atomic _ u id _ _ (fun _ => True)); [done | auto with verif | done |]. intros c h Is Ps.
  destruct (ho_writeRun f (ch_ok c) h Hf Is) as (I' & Eo & Hs). by split_and!.
Qed.

(** Observers. *)
Lemma ho_classify : safe t (maybePublishNaturalCompletion w id) P (fun _ => P).
Proof.
  eapply ho_bind.
  - apply (ho_atomic _ u id _ _ (fun r => forall e u', r = Some (e, u') -> u' = u)); [done | auto with verif | done |].
    intros c h Is Ps. unfold classify. cbn zeta. set (h1 := with_exit_errs _ h).
    assert (Inv h1) as I1 by (by destruct Is).
    assert (forall id', id' <> id -> same_run id' h h1) as S1.
    { intros id' Hne. split; simpl; try done; [by rewrite lookup_delete_ne |]. exists []. by rewrite app_nil_r. }
    destruct (h_runs h1 !! id) as [d|] eqn:E; [| by split_and!; [| | intros ? ? [=] |]].
    assert (row_ok (h_owner h) id d) as (Hi & Ho & Hk) by by apply (ow_runs _ _ _ _ _ _ Is).
    destruct (bool_decide _); [| by split_and!; [| | intros ? ? [=] |]]. cbn [fst snd].
    destruct (ho_writeRun (exit_status (default None (h_runExitErrs h !! id)) (h_now h1)) (ch_ok c) h1) as (I' & Eo & Hs); [by intros d0; destruct (default None _) | done |].
    split_and!; [done | by rewrite Eo | | intros id' Hne; eapply ho_same_trans; auto].
    intros e u' [= _ <-]. unfold own in Ps. congruence.
  - intros [[e u']|]; [| apply (ho_weaken _ _ _ P); [by intros h [? _] | apply ho_ret]].
    apply ho_pure. intros Hu. rewrite (Hu e u' eq_refl). apply ho_publishEvent.
Qed.

(** Contexts and the maps of cancel functions. *)
Lemma ho_context {A} (f : Choice -> handler -> handler * A) :
  (forall c h, exists o ws r n cs, (f c h).1 = with_observers o ws r (with_contexts n cs h)) -> safe t (atomic f) P (fun _ => P).
Proof.
  intros Hf. apply ho_quiet; [auto with verif | | |].
  - intros c h [? ? ? ? ?]. destruct (Hf c h) as (o & ws & r & n & cs & ->). by split.
  - intros c h. by destruct (Hf c h) as (o & ws & r & n & cs & ->).
  - intros c h i. destruct (Hf c h) as (o & ws & r & n & cs & ->). split; try done. exists []. by rewrite app_nil_r.
Qed.

Lemma ho_observers (f : handler -> handler) : (forall h, exists o ws r, f h = with_observers o ws r h) -> safe t (update f) P (fun _ => P).
Proof. intros Hf. apply ho_context. intros c h. destruct (Hf h) as (o & ws & r & E). exists o, ws, r, (h_contexts h), (h_cancelled h). by simpl; rewrite E. Qed.

Lemma ho_cancel tok : safe t (update (cancel tok)) P (fun _ => P).
Proof. apply ho_context. intros c h. eexists _, _, _, _, _. reflexivity. Qed.

Lemma ho_poll tok sl : safe t (poll tok id sl) P (fun _ => P).
Proof. apply safe_await; auto with verif. Qed.

Lemma ho_watcher tok : safe t (completionWatcher w tok id) P (fun _ => P).
Proof.
  eapply ho_bind; [apply ho_poll |]. intros p. eapply ho_bind with (Q := fun _ => P).
  { destruct p; [apply ho_ret | apply ho_classify | apply ho_ret]. }
  intros _. eapply ho_bind; [apply ho_observers; intros h; eexists _, _, _; reflexivity |]. intros ?. apply ho_cancel.
Qed.

Lemma ho_startWatcher : safe t (startCompletionWatcher w id) P (fun _ => P).
Proof.
  eapply ho_bind; [apply ho_context; intros c h; eexists _, _, _, _, _; reflexivity |]. intros tok.
  apply safe_go; [auto with verif |]. eapply safe_post, ho_watcher. done.
Qed.

Lemma ho_observer tok : safe t (runStopLossObserver w tok id u) P (fun _ => P).
Proof.
  eapply ho_bind; [apply ho_poll |]. intros p. eapply ho_bind with (Q := fun _ => P).
  { destruct p; [apply ho_ret | apply ho_classify | apply ho_publishEvent]. }
  intros _. eapply ho_bind; [apply ho_observers; intros h; eexists _, _, _; reflexivity |]. intros ?. apply ho_cancel.
Qed.

Lemma ho_startObserver s : safe t (startStopLossObserver w id u s) P (fun _ => P).
Proof.
  unfold startStopLossObserver. destruct (bool_decide _); [| apply ho_ret].
  eapply ho_bind; [apply ho_context; intros c h; eexists _, _, _, _, _; reflexivity |]. intros tok.
  apply safe_go; [auto with verif |]. eapply safe_post, ho_observer. done.
Qed.

Lemma ho_startUpdater s : safe t (startOrderUpdater w id u s) P (fun _ => P).
Proof.
  unfold startOrderUpdater. destruct (_ || _); [apply ho_ret |]. destruct (executes _); [| apply ho_ret].
  eapply ho_bind; [apply ho_context; intros c h; eexists _, _, _, _, _; reflexivity |]. intros tok.
  eapply ho_bind; [apply ho_choose; auto with verif |]. intros refused.
  eapply ho_bind with (Q := fun _ => P); [destruct refused; [apply ho_ret | apply safe_await; auto with verif] |].
  intros _. apply ho_cancel.
Qed.

Lemma ho_getRun ctx i (Q : handler -> Prop) : stable Q -> safe t (getRun w ctx i) Q (fun _ => Q).
Proof.
  intros SQ. unfold getRun. destruct (resolveDORAUserID w ctx); [| apply ho_ret].
  eapply ho_bind; [by apply ho_look |]. intros [d|]; [| apply ho_ret]. destruct (negb _); [apply ho_ret | by apply ho_look].
Qed.

Lemma ho_cancel_at m h : exists n cs, cancel_at m id h = with_contexts n cs h.
Proof. unfold cancel_at. destruct (m !! id); [by eexists _, _ | exists (h_contexts h), (h_cancelled h); by destruct h]. Qed.

Lemma ho_markStopped now : safe t (update (markStopped now id)) P (fun _ => P).
Proof.
  eapply ho_forget, (ho_atomic _ u id _ _ (fun _ => True)); [done | auto with verif | done |]. intros c h Is Ps.
  unfold markStopped. set (h1 := update_run id _ h). assert (Inv h1) as I1 by by apply ho_inv_update.
  assert (forall id', id' <> id -> same_run id' h h1) as S1 by (intros id' Hne; by apply ho_same_update).
  destruct (ho_cancel_at (h_stopLossObservers h1) h1) as (n1 & c1 & E1).
  destruct (ho_cancel_at (h_runCompletionWatchers h1) (with_contexts n1 c1 h1)) as (n2 & c2 & E2).
  cbn [fst snd]. rewrite E1, E2. split_and!; [by destruct I1 | done | done |]. intros id' Hne. by destruct (S1 id' Hne); split.
Qed.

Lemma ho_stop ctx : safe t (stopOwnRun w ctx id u) P (fun _ => P).
Proof.
  eapply ho_bind; [apply ho_look; auto with verif |]. intros st.
  eapply ho_bind with (Q := fun _ => P); [destruct (bool_decide _); [apply ho_ret | apply ho_callService] |].
  intros [_|e]; [| apply ho_ret]. eapply ho_bind; [apply ho_look; auto with verif |]. intros now.
  eapply ho_bind; [apply ho_markStopped |]. intros ?. eapply ho_bind; [apply ho_tell |]. intros ?.
  eapply ho_bind; [apply ho_tell |]. intros ?. eapply ho_bind; [apply ho_save_run |]. intros [_|e]; [| apply ho_ret].
  eapply ho_bind; [apply ho_publishEvent |]. intros ?. apply ho_getRun. auto with verif.
Qed.

Lemma ho_pause ctx : safe t (pauseOwnRun w ctx id u) P (fun _ => P).
Proof.
  eapply ho_bind; [apply ho_look; auto with verif |]. intros st. destruct (bool_decide _); [apply ho_ret |].
  eapply ho_bind; [apply ho_callService |]. intros [_|e]; [| apply ho_ret].
  eapply ho_bind; [apply ho_look; auto with verif |]. intros now.
  eapply ho_bind; [by apply ho_update_run |]. intros ?. eapply ho_bind; [apply ho_tell |]. intros ?.
  eapply ho_bind; [apply ho_save_run |]. intros [_|e]; [| apply ho_ret].
  eapply ho_bind; [apply ho_publishEvent |]. intros ?. apply ho_getRun. auto with verif.
Qed.

(** *** Relaunching *)

Lemma ho_fail reason : safe t (failUnusableAPIKeyRun w id u reason) P (fun _ => P).
Proof.
  eapply ho_bind; [apply ho_look; auto with verif |]. intros now. eapply ho_bind; [| intros ?; apply ho_publishEvent].
  eapply ho_forget, (ho_atomic _ u id _ _ (fun _ => True)); [done | auto with verif | done |]. intros c h Is Ps.
  destruct (ho_writeRun (set_status StFailed now (Some now) reason) (ch_ok c) h) as (I' & Eo & Hs); [done | done |]. by split_and!.
Qed.

(** The key a relaunched run gets is its user's. *)
Definition good_key (k : option string) : Prop := forall x, k = Some x -> x <> ""%string -> key_user x = u.

Lemma ho_set_key enc : key_ok enc u -> safe t (update (update_run id (set_key enc))) P (fun _ => P).
Proof.
  intros He. eapply ho_forget, (ho_atomic _ u id _ _ (fun _ => True)); [done | auto with verif | done |]. intros c h Is Ps. simpl.
  split_and!; [| done | done | intros id' Hne; by apply ho_same_update]. apply ho_inv_runs; [done |].
  intros i d. rewrite lookup_alter_Some. intros [(-> & d0 & Hd & ->)|[_ Hd]]; [| by apply (ow_runs _ _ _ _ _ _ Is)].
  apply (ow_runs _ _ _ _ _ _ Is) in Hd as (Hi & Ho & Hk). unfold own in Ps. rewrite Ho in Ps. injection Ps as E.
  split_and!; [done | done |]. simpl. by rewrite E.
Qed.

Lemma ho_resumeKey ck : (ck <> ""%string -> key_user ck = u) ->
  safe t (resumeKey w ck id u) P (fun r h => P h /\ forall k, r = Ok k -> good_key k).
Proof.
  intros Hck. unfold resumeKey. destruct (bool_decide (ck = _)) eqn:E; cbn [negb].
  - eapply ho_bind.
    + apply (ho_read _ _ _ (fun e => key_ok e u)); [auto with verif |]. intros h Is Ps. destruct (h_runs h !! id) as [d|] eqn:Ed; [| by intros ? []].
      apply (ow_runs _ _ _ _ _ _ Is) in Ed as (_ & Ho & Hk). unfold own in Ps. rewrite Ho in Ps. injection Ps as E2. by rewrite <- E2.
    + intros enc. apply ho_pure. intros He. destruct (bool_decide (enc = _)) eqn:E2; cbn [negb andb];
        [by apply ho_done; intros k [= <-] x [=] |]. apply bool_decide_eq_false in E2.
      destruct (has_key w) eqn:K; [| by apply ho_done; intros k [= <-] x [=]].
      destruct (Decrypt enc _) as [k|] eqn:D.
      * apply ho_done. intros k' [= <-] x [= <-]. by apply He.
      * eapply ho_bind; [apply ho_fail |]. intros ?. by apply ho_done.
  - apply bool_decide_eq_false in E. specialize (Hck E). destruct (has_key w) eqn:K; [| apply ho_done; intros k [= <-] x [= <-]; done].
    eapply ho_bind; [apply ho_choose; auto with verif |]. intros n. destruct (Encrypt n ck _) as [enc|] eqn:D; [| by apply ho_done].
    eapply ho_bind; [apply ho_set_key | intros ?; apply ho_done; by intros k [= <-] x [= <-]].
    intros k _ _. rewrite (decrypt_encrypt _ _ _ _ D). by intros [= <-].
Qed.

Definition launchable (s : Strat) : Prop := exists k, st_client s = Some k /\ key_user k = u.

Lemma ho_attach s : launchable s -> launchable (attachStateStore w (attachDecisionStore w s)).
Proof.
  intros (k & Hc & Hk). exists k. split; [| done]. unfold attachStateStore, attachDecisionStore.
  destruct (w_decisionStore w && _); simpl; by destruct (w_stateStore w && _).
Qed.
Lemma ho_seq n s : launchable s -> launchable (SetDecisionSeq n s).
Proof. intros (k & Hc & Hk). exists k. unfold SetDecisionSeq. by destruct (known_kind _). Qed.

(** A bare strategy that can place orders was given a key. *)
Lemma ho_applied s k : st_client s = None -> canPlaceOrders (applyUserAPIKey s k) = true ->
  (k <> ""%string -> key_user k = u) -> launchable (applyUserAPIKey s k).
Proof.
  unfold applyUserAPIKey, canPlaceOrders. intros Hs. destruct (bool_decide (k = _)) eqn:E; simpl.
  - rewrite Hs, andb_false_r. done.
  - apply bool_decide_eq_false in E. destruct (known_kind (st_kind s)) eqn:K; simpl; [| by rewrite K].
    intros _ Hk. exists k. by rewrite Hk.
Qed.

Lemma ho_relaunch key s : launchable s -> safe t (relaunch w id u key s) P (fun _ => P).
Proof.
  intros Hs. eapply ho_bind; [apply ho_choose; auto with verif |]. intros seq. cbn zeta.
  set (s' := match seq with Some _ => _ | None => _ end).
  assert (launchable s') as Hs' by (unfold s'; destruct seq; [| done]; destruct (w_decisionStore w); [by apply ho_seq | done]).
  eapply ho_bind; [apply ho_startUpdater |]. intros ?. eapply ho_bind; [apply ho_set_status_now |]. intros ?.
  eapply ho_bind; [by apply ho_startRun |]. intros [_|e]; [| apply ho_ret]. eapply ho_bind; [apply ho_tell |]. intros ?.
  eapply ho_bind; [apply ho_startObserver |]. intros ?. eapply ho_bind; [apply ho_startWatcher |]. intros ?. apply ho_ret.
Qed.

Lemma ho_resolved ty cfg cap def norm s : resolveStrategy w ty cfg cap = inl (def, norm, s) -> st_client s = None.
Proof.
  unfold resolveStrategy. destruct (bool_decide (ty = _)); [done |]. destruct (w_strategies w !! ty) as [df|] eqn:E; [| done].
  destruct (negb _); [done |]. destruct (bool_decide _ && _); [done |]. destruct (bool_decide _ && _); [done |].
  destruct (def_DecodeConfig df) as [dec|] eqn:D; [| done]. destruct (dec cfg cap) as [[n0 s0]|] eqn:C; [| done].
  intros [= <- <- <-]. by eapply decoders_bare.
Qed.

Lemma ho_resumePersisted d ck : rd_ID d = id -> rd_DORAUserID d = u -> (ck <> ""%string -> key_user ck = u) ->
  safe t (resumePersistedRun w d ck) P (fun _ => P).
Proof.
  intros Hi Hu Hck. unfold resumePersistedRun. rewrite Hi, Hu. destruct (resolveStrategy _ _ _ _) as [[[def norm] s]|[c e]] eqn:E; [| apply ho_ret].
  apply ho_resolved in E. eapply ho_bind; [by apply ho_resumeKey |]. intros [k|e]; [| apply (ho_weaken _ _ _ P); [by intros h [? _] | apply ho_ret]].
  apply ho_pure. intros Hk. cbn zeta. destruct (canPlaceOrders _) eqn:C; cbn [negb].
  - apply ho_relaunch, ho_attach, ho_applied; [done | done |]. destruct k as [k|]; simpl; [| done]. by apply (Hk (Some k) eq_refl).
  - eapply ho_bind; [apply ho_fail |]. intros ?. apply ho_ret.
Qed.

Lemma ho_wake ctx : (caller_key ctx <> ""%string -> key_user (caller_key ctx) = u) -> safe t (wakeRun w ctx id) P (fun _ => P).
Proof.
  intros Hck. eapply ho_bind; [apply ho_callService |]. intros [_|e]; [apply ho_ret |]. destruct (is_not_found e); [| apply ho_ret].
  eapply ho_bind.
  - apply (ho_read _ _ _ (fun o => forall d, o = Some d -> rd_ID d = id /\ rd_DORAUserID d = u)); [auto with verif |].
    intros h Is Ps d E. apply (ow_runs _ _ _ _ _ _ Is) in E as (Hi & Ho & _). unfold own in Ps. split; congruence.
  - intros [d|]; [| apply (ho_weaken _ _ _ P); [by intros h [? _] | apply ho_ret]]. apply ho_pure. intros Hd.
    destruct (Hd d eq_refl) as [Hi Hu]. eapply ho_bind; [by apply ho_resumePersisted |]. intros [_|e']; apply ho_ret.
Qed.

Lemma ho_finishResume now : safe t (atomic (fun c => finishResume w now u id (ch_ok c))) P (fun _ => P).
Proof.
  eapply ho_forget, (ho_atomic _ u id _ _ (fun _ => True)); [done | auto with verif | done |]. intros c h Is Ps.
  unfold finishResume. destruct (terminal _); [split_and!; auto with verif |]. set (h1 := tell w _ h).
  assert (Inv h1) as I1 by (unfold h1, tell; destruct (w_orderUpdates w); [by destruct Is | done]).
  assert (h_owner h1 = h_owner h) as E1 by (unfold h1, tell; by destruct (w_orderUpdates w)).
  assert (forall i, same_run i h h1) as S1.
  { intros i. unfold h1, tell. destruct (w_orderUpdates w); [| auto with verif]. split; try done. exists []. by rewrite app_nil_r. }
  destruct (ho_writeRun (fun d => set_status StRunning now None (rd_Error d) d) (ch_ok c) h1) as (I2 & E2 & S2); [done | done |].
  destruct (writeRun w _ id (ch_ok c) h1) as [h2 r]. simpl in I2, E2, S2. assert (own u id h2) as O2 by (unfold own; by rewrite E2, E1).
  assert (forall i, i <> id -> same_run i h h2) as S3 by (intros i Hne; eapply ho_same_trans; auto).
  destruct r; cbn [fst snd]; [| split_and!; [done | congruence | done | done]]. split_and!.
  - by apply ho_publish_inv.
  - rewrite ho_publish_owner. congruence.
  - done.
  - intros i Hne. eapply ho_same_trans; [by apply S3 | by apply ho_publish_same].
Qed.

Lemma ho_resume ctx : (caller_key ctx <> ""%string -> key_user (caller_key ctx) = u) -> safe t (resumeOwnRun w ctx id u) P (fun _ => P).
Proof.
  intros Hck. eapply ho_bind; [apply ho_look; auto with verif |]. intros st. destruct (bool_decide _); [apply ho_ret |].
  eapply ho_bind; [by apply ho_wake |]. intros [r|]; [apply ho_ret |]. eapply ho_bind; [apply ho_look; auto with verif |]. intros now.
  eapply ho_bind; [apply ho_finishResume |]. intros [e|]; [apply ho_ret |]. apply ho_getRun. auto with verif.
Qed.

Lemma ho_publishRun key d s : rd_ID d = id -> rd_DORAUserID d = u -> key_ok (rd_EncryptedAPIKey d) u ->
  safe t (publishRun w u key d s) P (fun _ => P).
Proof.
  intros Hi Hu Hk. unfold publishRun. rewrite Hi. cbn zeta.
  assert (forall h, P h -> row_ok (h_owner h) id d) as Hd by (intros h Ps; unfold own in Ps; split_and!; [done | congruence | by rewrite Hu]).
  eapply ho_bind with (Q := fun _ => P).
  { eapply ho_forget, (ho_atomic _ u id _ _ (fun _ => True)); [done | auto with verif | done |]. intros c h Is Ps.
    split_and!; [apply ho_save_inv; [rewrite Hi; auto | done] | apply ho_save_owner | done | intros i Hne; apply ho_save_same; congruence]. }
  intros [_|e]; [| apply ho_ret]. eapply ho_bind with (Q := fun _ => P).
  { eapply ho_forget, (ho_atomic _ u id _ _ (fun _ => True)); [done | auto with verif | done |]. intros c h Is Ps. simpl.
    split_and!; [| done | done | intros i Hne; by apply ho_same_insert]. apply ho_inv_runs; [done |].
    apply map_Forall_insert_2; [auto | apply Is]. }
  intros _. eapply ho_bind; [apply ho_tell |]. intros ?. eapply ho_bind; [apply ho_startUpdater |]. intros ?.
  eapply ho_bind; [apply ho_startObserver |]. intros ?. eapply ho_bind; [apply ho_startWatcher |]. intros ?.
  eapply ho_bind; [apply ho_publishEvent |]. intros ?. apply ho_look. auto with verif.
Qed.
End Run.

(** ** Requests *)

Lemma ho_row_mono o o' id d : o ⊆ o' -> row_ok o id d -> row_ok o' id d.
Proof. intros Ho (Hi & Hl & Hk). split_and!; [done | by eapply lookup_weaken | done]. Qed.

Lemma ho_owned_mono o o' rs tb la ev sv : o ⊆ o' -> owned o rs tb la ev sv -> owned o' rs tb la ev sv.
Proof.
  intros Ho [A1 A2 A3 A4 A5]. split; [| | | | done].
  - intros i d Hd. eapply ho_row_mono; [done | by apply A1].
  - intros i d Hd. eapply ho_row_mono; [done | by apply A2].
  - eapply Forall_impl; [exact A3 |]. intros p (u & k & Hp & Hc & Hk). exists u, k. split_and!; [by eapply lookup_weaken | done | done].
  - eapply Forall_impl; [exact A4 |]. intros e He. by eapply lookup_weaken.
Qed.

Lemma ho_draw t u : safe t (draw_id u) (fun _ => True) (fun p => own u p.1).
Proof.
  apply safe_atom. intros c h Is _. destruct (h_owner h !! ch_uuid c) eqn:E; [done |].
  assert (h_owner h ⊆ <[ch_uuid c := u]> (h_owner h)) as Hs by by apply insert_subseteq.
  split_and!.
  - by apply (ho_owned_mono (h_owner h)).
  - split; [done |]. intros u' id' Ht (o & Ho & Hne). split; try done. exists []. by rewrite app_nil_r.
  - exists (own u (ch_uuid c)). split_and!; [auto with verif | unfold own; simpl; by rewrite lookup_insert_eq | by intros ? h' _ Hh].
Qed.

Lemma ho_encrypt t u k : (k <> ""%string -> key_user k = u) ->
  safe t (encrypt_key w k) (fun _ => True) (fun r h => True /\ forall enc, r = Ok enc -> key_ok enc u).
Proof.
  intros Hk. unfold encrypt_key. destruct (bool_decide (k = _)) eqn:E; cbn [negb andb]; [apply ho_done; by intros enc [= <-] x [] |].
  apply bool_decide_eq_false in E. destruct (has_key w) eqn:K; [| apply ho_done; by intros enc [= <-] x []].
  eapply ho_bind; [apply ho_choose; auto with verif |]. intros n. apply ho_done. intros enc D x _ _.
  rewrite (decrypt_encrypt _ _ _ _ D). intros [= <-]. auto.
Qed.

Lemma ho_trivial {A} t (p : prog handler Choice A) P Q : safe t p P Q -> safe t p P (fun _ _ => True).
Proof. by apply safe_post. Qed.

Lemma ho_create ctx body t u : acts_for t u -> resolveDORAUserID w ctx = Ok u ->
  (caller_key ctx <> ""%string -> key_user (caller_key ctx) = u) -> safe t (createRun w ctx body) (fun _ => True) (fun _ _ => True).
Proof.
  intros Ht Hu Hck. unfold createRun. destruct body as [[ty config]|e]; [| apply ho_ret].
  destruct (resolveStrategy _ _ _ _) as [[[def cfg] s]|[c e]] eqn:E; [| apply ho_ret]. apply ho_resolved in E. rewrite Hu. cbn zeta.
  eapply ho_bind with (Q := fun _ _ => True); [destruct (bool_decide _); [apply ho_ret | apply ho_look; auto with verif] |].
  intros [ex|]; [apply ho_ret |]. unfold requireMarketClient. destruct (canPlaceOrders _) eqn:C; [| apply ho_ret].
  eapply ho_bind; [by apply ho_encrypt |]. intros [enc|e]; [| by intros ? h _ _]. apply ho_pure. intros Henc.
  eapply ho_bind; [apply ho_draw |]. intros [id now]. eapply ho_bind.
  { apply (ho_startRun t u id Ht). eapply ho_attach, ho_applied; done. }
  intros [_|e]; [| by intros ? h _ _]. eapply ho_trivial, ho_publishRun; [done.. |]. by apply Henc.
Qed.

Lemma ho_withOwn ctx id k t u : acts_for t u -> resolveDORAUserID w ctx = Ok u ->
  safe t (k u) (own u id) (fun _ _ => True) -> safe t (withOwnRun w ctx id k) (fun _ => True) (fun _ _ => True).
Proof.
  intros Ht Hu Hk. eapply ho_bind with (Q := fun o h => forall d, o = Some d -> own (rd_DORAUserID d) id h).
  - apply safe_atomic.
    + intros c h Is _. simpl. split_and!; [done | auto with verif |]. intros d E. by apply (ow_runs _ _ _ _ _ _ Is) in E as (_ & Ho & _).
    + intros o x h h' _ _ HR Hh d E. eapply lookup_weaken; [by apply Hh | done].
  - intros [d|]; [| by intros ? h _ _]. rewrite Hu. destruct (negb (bool_decide (rd_DORAUserID d = u))) eqn:B; [by intros ? h _ _ |].
    apply negb_false_iff, bool_decide_eq_true in B. eapply ho_weaken; [| exact Hk]. intros h Hh. rewrite <- B. by apply Hh.
Qed.

(** A request without a user goes no further. *)
Lemma ho_nobody ctx o t e : resolveDORAUserID w ctx = Err e -> safe t (perform w ctx o) (fun _ => True) (fun _ _ => True).
Proof.
  intros Hu. assert (forall id k, safe t (withOwnRun w ctx id k) (fun _ => True) (fun _ _ => True)) as Hw.
  { intros id k. eapply ho_bind; [apply ho_look; auto with verif |]. intros [d|]; [| by intros ? h _ _]. rewrite Hu. by intros ? h _ _. }
  destruct o as [body|id|id|id|id]; simpl; [| | apply Hw..].
  - unfold createRun. destruct body as [[ty config]|e']; [| by intros ? h _ _].
    destruct (resolveStrategy _ _ _ _) as [[[def cfg] s]|[c e']]; [rewrite Hu |]; by intros ? h _ _.
  - unfold getRun. rewrite Hu. by intros ? h _ _.
Qed.

Lemma ho_perform ctx o t u : acts_for t u -> resolveDORAUserID w ctx = Ok u ->
  (caller_key ctx <> ""%string -> key_user (caller_key ctx) = u) -> safe t (perform w ctx o) (fun _ => True) (fun _ _ => True).
Proof.
  intros Ht Hu Hck. destruct o as [body|id|id|id|id]; simpl.
  - by eapply ho_create.
  - eapply ho_trivial, ho_getRun. auto with verif.
  - eapply ho_withOwn; [done.. |]. by eapply ho_trivial, ho_stop.
  - eapply ho_withOwn; [done.. |]. by eapply ho_trivial, ho_pause.
  - eapply ho_withOwn; [done.. |]. by eapply ho_trivial, ho_resume.
Qed.

(** ** Start-up *)

Definition rows_ok (rows : list RunDetail) (h : handler) : Prop := Forall (fun d => row_ok (h_owner h) (rd_ID d) d) rows.

Lemma ho_rows_stable rows : stable (rows_ok rows).
Proof. intros x h h' _ _ HR Hh. eapply Forall_impl; [exact Hh |]. intros d. by apply ho_row_mono. Qed.
#[local] Hint Resolve ho_rows_stable : verif.

Lemma ho_publish_nobody t e id P : stable P -> safe t (publishEvent w e "" id) P (fun _ => P).
Proof.
  intros SP. apply ho_quiet; [done | | |]; intros c h; unfold publish; simpl; rewrite andb_false_r; auto with verif.
Qed.

Lemma ho_expire id u : safe None (expireRun w id) (own u id) (fun _ => own u id).
Proof.
  assert (acts_for None u) as Ht by by right. eapply ho_bind; [apply ho_look; auto with verif |]. intros now. eapply ho_bind.
  - apply (ho_atomic _ u id _ _ (fun o => o = u \/ o = ""%string)); [done | auto with verif | done |]. intros c h Is Ps.
    destruct (ho_writeRun id (fun d => set_status StCompleted now (Some now) (rd_Error d) d) (ch_ok c) h) as (I' & Eo & Hs); [done | done |].
    split_and!; [done | done | | done]. simpl. destruct (h_runs h !! id) as [d|] eqn:E; [left | by right].
    apply (ow_runs _ _ _ _ _ _ Is) in E as (_ & Ho & _). unfold own in Ps. congruence.
  - intros o. apply ho_pure. intros [-> | ->]; [by apply ho_publishEvent | apply ho_publish_nobody; auto with verif].
Qed.

(** A program about one row of several. *)
Lemma ho_row {A} d rest (p : prog handler Choice A) :
  safe None p (own (rd_DORAUserID d) (rd_ID d)) (fun _ _ => True) -> safe None p (rows_ok (d :: rest)) (fun _ => rows_ok rest).
Proof.
  intros Hp. assert (forall x h h', Guar x h h' -> Rely h h') as GR by by intros x h h' [? _].
  pose proof (safe_frame Inv Guar Rely None p _ (rows_ok rest) _ (GR None) (ho_rows_stable rest) Hp) as F.
  eapply safe_pre; [| eapply safe_post; [| exact F]].
  - intros h _ Hh. apply Forall_cons in Hh as [Hd Hr]. destruct Hd as (_ & Ho & _). done.
  - by intros a h _ [_ Hh].
Qed.

Lemma ho_restoreAll rows : safe None (restoreAll w rows) (rows_ok rows) (fun _ _ => True).
Proof.
  induction rows as [|d rest IH]; [by intros ? h _ _ |]. assert (acts_for None (rd_DORAUserID d)) as Ht by by right.
  assert (forall h, rows_ok (d :: rest) h -> rows_ok rest h) as Hrest by (intros h Hh; by inversion Hh).
  cbn [restoreAll]. eapply ho_bind; [apply ho_look; auto with verif |]. intros st.
  destruct (negb _); [by eapply ho_weaken |]. eapply ho_bind; [apply ho_look; auto with verif |]. intros now.
  destruct (runWindowExpired _ _ _).
  - eapply ho_bind; [apply ho_row; eapply ho_trivial, ho_expire | intros ?; exact IH].
  - eapply ho_bind; [apply ho_row; eapply ho_trivial, (ho_resumePersisted None (rd_DORAUserID d) (rd_ID d)); done |].
    intros [_|e]; [exact IH |]. destruct (is_unusable_key e); [exact IH | by intros ? h _ _].
Qed.

Lemma ho_restore : safe None (RestoreRuns w) (fun _ => True) (fun _ _ => True).
Proof.
  unfold RestoreRuns. destruct (negb _); [by intros ? h _ _ |].
  eapply ho_bind with (Q := fun r h => forall rows, r = Ok rows -> rows_ok rows h).
  - apply safe_atom. intros c h Is _. destruct (ch_ok c); [| split_and!; [done | auto with verif | exists (fun _ => True); split_and!; [auto with verif | done | by intros ? h' _ _ rows [=]]]].
    unfold LoadRuns. case_bool_decide; [| done]. split_and!; [done | auto with verif |]. eexists (rows_ok _). split_and!; [auto with verif | | by intros ? h' _ Hh rows [= <-]].
    apply Forall_forall. intros d Hd. apply list_elem_of_omap in Hd as (id & _ & Hd). apply map_lookup_filter_Some in Hd as [Hd _].
    apply (ow_table _ _ _ _ _ _ Is) in Hd as Hr. pose proof Hr as (-> & _). done.
  - intros [rows|e]; [| by intros ? h _ _]. eapply ho_weaken with (P' := rows_ok rows); [auto |].
    eapply ho_bind with (Q := fun _ => rows_ok rows); [| intros ?; apply ho_restoreAll].
    apply safe_atomic; [| auto with verif]. intros c h Is Hr. cbn [fst snd]. split_and!; [| split; [done | discriminate] | done].
    apply ho_inv_runs; [done |]. unfold put_runs. pose proof (ow_runs _ _ _ _ _ _ Is) as F. revert F. generalize (h_runs h).
    unfold rows_ok in Hr. induction Hr as [|d rest Hd Hr IH]; intros m F; simpl; [done |]. apply IH. by apply map_Forall_insert_2.
Qed.

(** ** The whole server *)

(** The key a request carries is its user's. *)
Definition admissible (r : Request) : Prop :=
  match r with
  | Arrive _ ctx _ => forall u, resolveDORAUserID w ctx = Ok u -> caller_key ctx <> ""%string -> key_user (caller_key ctx) = u
  | Startup => True
  end.

Lemma ho_serve r : admissible r -> exists P, stable P /\ (forall h, Inv h -> P h) /\
  safe (th_tag (serve w r)) (th_prog (serve w r)) P (fun _ _ => True).
Proof.
  intros Ha. exists (fun _ => True). split_and!; [auto with verif | done |]. destruct r as [n ctx o|]; simpl.
  - eapply ho_bind with (Q := fun _ _ => True).
    + unfold principal. destruct (resolveDORAUserID w ctx) as [u|e] eqn:E; [| by eapply ho_nobody].
      eapply ho_perform; [by left | done |]. by apply Ha.
    + intros resp. eapply ho_quiet; [auto with verif | | |]; [by intros c h [? ? ? ? ?] | done |].
      intros c h i. split; try done. exists []. by rewrite app_nil_r.
  - eapply ho_bind; [apply ho_restore | by intros r ? h _ _].
Qed.

Lemma ho_world e h h' : Inv h -> world e h = Some h' -> Inv h' /\ Rely h h'.
Proof.
  assert (forall a sv, Inv h -> service_step a (h_service h) = Some sv -> Inv (with_service sv h)) as Hsv.
  { intros a sv Is Hs. apply ho_inv_service; [done |]. eapply sv_step_registry; [exact Hs | apply Is]. }
  intros Is. destruct e as [k|k|k|n|n err|t]; simpl; unfold on_service.
  - destruct (deliver k _) eqn:E; [| done]. intros [= <-]. split; [by apply (Hsv (ADeliver k)) | by unfold Rely].
  - destruct (cancel_run k _) eqn:E; [| done]. intros [= <-]. split; [by apply (Hsv (ACancel k)) | by unfold Rely].
  - destruct (abandon k _) eqn:E; [| done]. intros [= <-]. split; [by apply (Hsv (AGiveUp k)) | by unfold Rely].
  - destruct (unregister n _) eqn:E; [| done]. intros [= <-]. split; [by apply (Hsv (AUnregister n)) | by unfold Rely].
  - destruct (runs _ !! n) as [r|]; [| done]. destruct (strategy_returns n _) eqn:E; [| done]. intros [= <-].
    split; [| by unfold Rely]. apply (Hsv (AReturn n)) in E; [| done]. by destruct E.
  - intros [= <-]. split; [by destruct Is | by unfold Rely].
Qed.

(** The server starts without runs; the rows it finds are of the users they
    name, and so are the keys in them. *)
Record initial (h : handler) : Prop := {
  in_runs : h_runs h = ∅;
  in_service : h_service h = NewService;
  in_history : h_launched h = [] /\ h_events h = [];
  in_table : map_Forall (row_ok (h_owner h)) (h_table h);
}.

Lemma ho_initial h : initial h -> Inv h.
Proof.
  intros [E1 E2 [E3 E4] T]. unfold Inv. rewrite E1, E2, E3, E4. split; try done. intros i n. split; [done |]. by intros (r & Hr & _).
Qed.

Lemma ho_sound ls h s : Forall (label_ok admissible) ls -> server_run w ls (NewServer h) = Some s -> initial h ->
  sys_safe Inv Guar Rely s.
Proof.
  intros Hls Hr Hi. eapply (cc_sound Inv Guar Rely world (serve w) admissible); [| | | exact Hls | exact Hr |].
  - by intros t x y [? _].
  - intros e x y. apply ho_world.
  - apply ho_serve.
  - by apply tc_start, ho_initial.
Qed.
End Owner.

(** ** The lives of a server *)

(** The process ends; the next one finds the table, and nothing else. *)
Definition restarted (h : handler) : handler :=
  with_now (h_now h) (with_history (h_owner h) [] [] (with_table (h_table h) NewHandler)).

(** The states in which a process starts: on an empty database, or on what an
    earlier process left when it ended, at whatever point. *)
Inductive lived `{AEAD} (w : Wiring) (key_user : string -> string) : handler -> Prop :=
  | lived_first : lived w key_user NewHandler
  | lived_restart h ls s : lived w key_user h -> Forall (label_ok (admissible w key_user)) ls ->
      server_run w ls (NewServer h) = Some s -> lived w key_user (restarted (shared s)).

Lemma lived_initial `{AEAD} w key_user h :
  (forall ty def decode config cap cfg st, w_strategies w !! ty = Some def -> def_DecodeConfig def = Some decode ->
     decode config cap = Ok (cfg, st) -> st_client st = None) ->
  lived w key_user h -> initial w key_user h.
Proof.
  intros Hd. induction 1 as [|h ls s _ Hi Hls Hr]; [by split |].
  destruct (ho_sound w key_user Hd ls h s Hls Hr Hi) as [Is _]. split; try done. exact (ow_table _ _ _ _ _ _ _ _ Is).
Qed.

(** C23: orders go to the account of the run's owner.  Over any number of lives
    of the server, the first on an empty database and each later one on the
    table the life before left, with the same wiring and encryption key,
    whatever requests, start-ups, observers, strategies, database failures and
    clocks interleave: every strategy the server launches, whether its run was
    created, resumed or restored, has a market client, whose key trades on the
    account of the user the run belongs to.  Assumed: a request's DORA key
    trades on the account of the user its credentials resolve to ([admissible]),
    and decoding a configuration gives the strategy no market client. *)
Theorem http_orders_on_owner_account `{AEAD} w key_user ls h s :
  (forall ty def decode config cap cfg st, w_strategies w !! ty = Some def -> def_DecodeConfig def = Some decode ->
     decode config cap = Ok (cfg, st) -> st_client st = None) ->
  lived w key_user h -> Forall (label_ok (admissible w key_user)) ls -> server_run w ls (NewServer h) = Some s ->
  forall id st, (id, st) ∈ h_launched (shared s) ->
    exists user key, h_owner (shared s) !! id = Some user /\ st_client st = Some key /\ key_user key = user.
Proof.
  intros Hd Hi%lived_initial Hls Hr id st Hin; [| done]. destruct (ho_sound w key_user Hd ls h s Hls Hr Hi) as [Is _].
  eapply Forall_forall in Hin; [| apply (ow_launched _ _ _ _ _ _ _ _ Is)]. exact Hin.
Qed.

(** C24: whatever interleaves, a step taken for one user (by a request or by a
    goroutine it started) leaves every run of another user alone: its detail,
    its row, its exit error, its registration with the service and its events
    stay as they are, and no message is sent to its strategy. *)
Theorem http_requests_isolated `{AEAD} w key_user ls h s n c s' user prog id owner :
  (forall ty def decode config cap cfg st, w_strategies w !! ty = Some def -> def_DecodeConfig def = Some decode ->
     decode config cap = Ok (cfg, st) -> st_client st = None) ->
  initial w key_user h -> Forall (label_ok (admissible w key_user)) ls -> server_run w ls (NewServer h) = Some s ->
  threads s !! n = Some (MkThread (Some user) prog) -> server_step w (LThread n c) s = Some s' ->
  h_owner (shared s) !! id = Some owner -> owner <> user -> same_run id (shared s) (shared s').
Proof.
  intros Hd Hi Hls Hr Hn Hs Ho Hne. pose proof (ho_sound w key_user Hd ls h s Hls Hr Hi) as Hsafe.
  destruct (cc_guarantee (Inv w key_user) Guar Rely world (serve w) n c s s' (Some user) prog Hsafe Hn Hs) as [E|[_ G]].
  - rewrite E. apply ho_same_refl.
  - apply (G user id); [done |]. by exists owner.
Qed.

(** ** Concrete runs *)

Module OwnerDemo.
Import Demo.

(** The user a demo key belongs to: what follows "key-". *)
Definition demo_user (key : string) : string := String.substring 4 (String.length key - 4) key.

Definition ann_and_bob : list (label Choice WorldEvent Request) :=
  [LArrive (Arrive 1 (ctx "ann") (create "momentum" "b1")); LArrive (Arrive 2 (ctx "bob") (create "momentum" "b1"))] ++
  created 0 "r1" ++ steps 1 2 ++ [draw 1 "r2"] ++ steps 1 1.

Lemma demo_bare ty def decode config cap cfg st : w_strategies wiring !! ty = Some def -> def_DecodeConfig def = Some decode ->
  decode config cap = Ok (cfg, st) -> st_client st = None.
Proof.
  simpl. rewrite !lookup_insert_Some, lookup_empty. intros [[_ <-]|[_ [[_ <-]|[_ [=]]]]]; simpl; intros [= <-] [= _ <-]; done.
Qed.

Lemma demo_initial : initial wiring demo_user NewHandler.
Proof. by split. Qed.

Lemma demo_admissible (ls : list (label Choice WorldEvent Request)) : Forall (fun l => match l with
    | LArrive (Arrive _ c _) => exists u, (u = "ann" \/ u = "bob")%string /\ c = ctx u | _ => True end) ls ->
  Forall (label_ok (admissible wiring demo_user)) ls.
Proof.
  intros F. eapply Forall_impl; [exact F |]. intros [n c|e|[n c o|]]; simpl; try done. intros (u & [-> | ->] & ->); simpl; by intros u [= <-].
Qed.

Lemma ann_and_bob_ok : Forall (label_ok (admissible wiring demo_user)) ann_and_bob.
Proof. apply demo_admissible. unfold ann_and_bob. repeat constructor; eexists; split; [by left | done | by right | done]. Qed.
End OwnerDemo.
Import Demo OwnerDemo.

(** A process creates a run and ends; the next one restores it. *)
Definition first_life : list (label Choice WorldEvent Request) :=
  [LArrive (Arrive 1 (ctx "ann") (create "momentum" "b1"))] ++ created 0 "r1".
Definition second_life : list (label Choice WorldEvent Request) :=
  [LArrive Startup; LThread 0 (MkChoice true false false "" "random bytes" (Some 0) ["r1"%string])] ++ steps 0 11.
Definition second_start : handler := restarted (shared (final first_life)).
Definition second_end : system handler Choice (option string) :=
  default (NewServer NewHandler) (server_run wiring second_life (NewServer second_start)).

Lemma second_life_runs : server_run wiring second_life (NewServer second_start) = Some second_end.
Proof.
  assert (match server_run wiring second_life (NewServer second_start) with Some _ => true | None => false end = true) as E
    by (vm_compute; reflexivity).
  unfold second_end. by destruct (server_run wiring second_life (NewServer second_start)).
Qed.

Lemma http_orders_on_owner_account_witness :
  lived wiring demo_user second_start /\
  exists user key, h_owner (shared second_end) !! "r1"%string = Some user /\ Some "key-ann"%string = Some key /\ demo_user key = user.
Proof.
  assert (lived wiring demo_user second_start) as Hl.
  { apply (lived_restart wiring demo_user NewHandler first_life); [constructor | | apply demo_final; vm_compute; reflexivity].
    apply demo_admissible. unfold first_life. repeat constructor; eexists; split; [by left | done]. }
  split; [exact Hl |].
  apply (http_orders_on_owner_account wiring demo_user second_life second_start second_end demo_bare Hl
    ltac:(apply demo_admissible; repeat constructor) second_life_runs "r1"%string
    (MkStrat KMomentum (Some "key-ann"%string) true false 0)).
  apply list_elem_of_lookup. exists 0%nat. vm_compute. reflexivity.
Defined.

Lemma http_requests_isolated_witness :
  exists prog, threads (final ann_and_bob) !! 1%nat = Some (MkThread (Some "bob"%string) prog) /\
    same_run "r1" (shared (final ann_and_bob)) (shared (final (ann_and_bob ++ [LThread 1 (yes "")]))).
Proof.
  assert (ends ann_and_bob = true) as He by (vm_compute; reflexivity).
  assert (ends (ann_and_bob ++ [LThread 1 (yes "")]) = true) as He' by (vm_compute; reflexivity).
  assert (th_tag <$> threads (final ann_and_bob) !! 1%nat = Some (Some "bob"%string)) as Et by (vm_compute; reflexivity).
  assert (h_owner (shared (final ann_and_bob)) !! "r1"%string = Some "ann"%string) as Eo by (vm_compute; reflexivity).
  destruct (threads (final ann_and_bob) !! 1%nat) as [[tg prog]|] eqn:E; [| discriminate Et]. injection Et as ->. exists prog.
  split; [reflexivity |].
  apply (http_requests_isolated wiring demo_user _ _ _ 1 (yes "") _ "bob" prog "r1" "ann" demo_bare demo_initial ann_and_bob_ok (demo_final _ He) E (demo_resumes _ _ He He') Eo).
  discriminate.
Defined.
