(* ===== verification/HttpRunsOutcome.v ===== *)
(** * The outcome a live run is reported with

    Theory of [HttpRuns] for runs that are created and never resumed: in every
    interleaving a run is reported completed only if its strategy returned
    without an error, and failed only with the error it returned, and then it
    has left the service.  The goroutine that draws an id holds it as a token
    until the run is in the server's map. *)

From S2P Require Import Prelude Market Service Concurrency Secrets HttpAuth Json HttpRuns.

(** Some goroutine was started for the id. *)
Definition launched (id : string) (sv : service) : Prop := exists n r, runs sv !! n = Some r /\ r_id r = id.

(** What the status of a detail or row says of its run. *)
Record outcome (exits : list (string * option string)) (sv : service) (id : string) (d : RunDetail) : Prop := {
  oc_id : rd_ID d = id;
  oc_completed : rd_Status d = StCompleted -> (id, None) ∈ exits /\ strategies sv !! id = None;
  oc_failed : rd_Status d = StFailed -> (id, Some (rd_Error d)) ∈ exits /\ strategies sv !! id = None;
}.

Record recorded (owner : gmap string string) (rs table : gmap string RunDetail) (errs : gmap string (option string))
    (exits : list (string * option string)) (sv : service) : Prop := {
  rc_registry : registry_ok sv;
  rc_drawn : forall id, launched id sv \/ is_Some (rs !! id) -> is_Some (owner !! id);
  rc_once : forall n n' r r', runs sv !! n = Some r -> runs sv !! n' = Some r' -> r_id r = r_id r' -> n = n';
  rc_exited : forall n r, runs sv !! n = Some r -> r_pc r <> RunAlive <-> exists e, (r_id r, e) ∈ exits;
  rc_exits : forall id e, (id, e) ∈ exits -> launched id sv /\ forall e', (id, e') ∈ exits -> e' = e;
  rc_errs : forall id e, errs !! id = Some e -> (id, e) ∈ exits;
  rc_kept : forall id e, (id, e) ∈ exits -> errs !! id = Some e \/ exists d, rs !! id = Some d /\ rd_Status d <> StRunning;
  rc_runs : map_Forall (outcome exits sv) rs;
  rc_table : map_Forall (outcome exits sv) table;
}.

Definition OInv (h : handler) : Prop :=
  recorded (h_owner h) (h_runs h) (h_table h) (h_runExitErrs h) (h_exits h) (h_service h).

(** The ids drawn so far. *)
Definition drawn (h : handler) : gset string := dom (h_owner h).

(** What only grows. *)
Record grows (h h' : handler) : Prop := {
  gr_drawn : drawn h ⊆ drawn h';
  gr_runs : forall id, is_Some (h_runs h !! id) -> is_Some (h_runs h' !! id);
  gr_launched : forall id, launched id (h_service h) -> launched id (h_service h');
  gr_gone : forall id, launched id (h_service h) -> strategies (h_service h) !! id = None -> strategies (h_service h') !! id = None;
}.

(** New ids are nobody's; only the holder of an id launches it and puts it in
    the map. *)
Record OGuar (t : option string) (x x' : gset string) (h h' : handler) : Prop := {
  og_grows : grows h h';
  og_tokens : x' ⊆ x ∪ (drawn h' ∖ drawn h);
  og_runs : forall id, h_runs h !! id = None -> is_Some (h_runs h' !! id) -> id ∈ x;
  og_launched : forall id, launched id (h_service h') -> launched id (h_service h) \/ id ∈ x;
}.

Record ORely (y : gset string) (h h' : handler) : Prop := {
  or_grows : grows h h';
  or_runs : forall id, id ∈ y -> h_runs h !! id = None -> h_runs h' !! id = None;
  or_launched : forall id, id ∈ y -> ~ launched id (h_service h) -> ~ launched id (h_service h');
}.

Notation otsafe := (tsafe (Ch := Choice) OInv OGuar ORely).
Notation otstable := (tstable OInv ORely).

Lemma oc_grows_refl h : grows h h.
Proof. by split. Qed.
#[export] Hint Resolve oc_grows_refl : verif.

Lemma oc_guar_rely t x x' y h h' : OInv h -> OInv h' -> OGuar t x x' h h' -> x ## y -> x ⊆ drawn h -> y ⊆ drawn h ->
  ORely y h h' /\ x' ## y /\ x' ⊆ drawn h' /\ drawn h ⊆ drawn h'.
Proof.
  intros _ _ [Hg Ht Hr Hl] D Hx Hy. pose proof (gr_drawn _ _ Hg) as Hd. split_and!; [| set_solver..].
  split; [done | |].
  - intros id Hid Hn. destruct (h_runs h' !! id) eqn:E; [| done]. exfalso. apply (D id); [apply Hr; by rewrite ?E | done].
  - intros id Hid Hn Hl'. destruct (Hl id Hl') as [?|?]; [done | set_solver].
Qed.

(** ** Facts the goroutines hold *)

(** Drawn, not launched; launched, not in the map; in the map; also gone. *)
Definition fresh (id : string) (x : gset string) (h : handler) : Prop :=
  id ∈ x /\ h_runs h !! id = None /\ ~ launched id (h_service h) /\ id ∈ drawn h.
Definition starting (id : string) (x : gset string) (h : handler) : Prop :=
  id ∈ x /\ h_runs h !! id = None /\ launched id (h_service h).
Definition known (id : string) (_ : gset string) (h : handler) : Prop := is_Some (h_runs h !! id) /\ launched id (h_service h).
Definition gone (id : string) (x : gset string) (h : handler) : Prop := known id x h /\ strategies (h_service h) !! id = None.

Lemma oc_fresh_stable id : otstable (fresh id).
Proof. intros x h h' _ _ [G Hr Hl] (Hx & Hn & Hf & Hd). split_and!; auto. by apply G. Qed.
Lemma oc_starting_stable id : otstable (starting id).
Proof. intros x h h' _ _ [G Hr Hl] (Hx & Hn & Hf). split_and!; auto. by apply G. Qed.
Lemma oc_known_stable id : otstable (known id).
Proof. intros x h h' _ _ [G Hr Hl] (Hn & Hf). split; by apply G. Qed.
Lemma oc_gone_stable id : otstable (gone id).
Proof. intros x h h' Ih Ih' HR [Hk Hs]. split; [by apply (oc_known_stable id x h h') |]. destruct HR as [G _ _]. apply G; [apply Hk | done]. Qed.
Lemma oc_true_stable : otstable (fun _ _ => True).
Proof. by intros ? ? ? ? ? ? ?. Qed.
#[export] Hint Resolve oc_fresh_stable oc_starting_stable oc_known_stable oc_gone_stable oc_true_stable : verif.

(** ** The invariant through changes of its parts *)

Lemma oc_outcome_mono exits exits' sv sv' id d : (forall p, p ∈ exits -> p ∈ exits') ->
  (forall e, (id, e) ∈ exits -> strategies sv !! id = None -> strategies sv' !! id = None) ->
  outcome exits sv id d -> outcome exits' sv' id d.
Proof. intros He Hs [A B C]. split; [done | |]; intros E; [destruct (B E) | destruct (C E)]; eauto. Qed.

(** A detail is changed, or added by the holder of the id. *)
Lemma oc_set owner rs table errs exits sv id d : recorded owner rs table errs exits sv -> is_Some (owner !! id) ->
  outcome exits sv id d -> (rd_Status d = StRunning -> forall e, (id, e) ∈ exits -> errs !! id = Some e) ->
  recorded owner (<[id := d]> rs) table errs exits sv.
Proof.
  intros [A1 A2 A3 A4 A5 A6 A7 A8 A9] Ho Hd Hk. split; try done.
  - intros i [Hl|[z Hz]]; [apply A2; by left |]. destruct (decide (i = id)) as [->|Hne]; [done |].
    rewrite lookup_insert_ne in Hz by done. apply A2. right. by exists z.
  - intros i e He. destruct (decide (i = id)) as [->|Hne].
    + destruct (decide (rd_Status d = StRunning)) as [E|E]; [left; by apply Hk | right; exists d; by rewrite lookup_insert_eq].
    + rewrite lookup_insert_ne by done. by apply A7.
  - by apply map_Forall_insert_2.
Qed.

Lemma oc_table owner rs table errs exits sv id d : recorded owner rs table errs exits sv -> outcome exits sv id d ->
  recorded owner rs (<[id := d]> table) errs exits sv.
Proof. intros [A1 A2 A3 A4 A5 A6 A7 A8 A9] Hd. split; try done. by apply map_Forall_insert_2. Qed.

(** An exit error is consumed and the detail left in a state other than
    running. *)
Lemma oc_consume owner rs table errs exits sv id d : recorded owner rs table errs exits sv -> is_Some (rs !! id) ->
  outcome exits sv id d -> rd_Status d <> StRunning -> recorded owner (<[id := d]> rs) table (delete id errs) exits sv.
Proof.
  intros A Hi Hd Hs. assert (is_Some (owner !! id)) as Ho by (apply (rc_drawn _ _ _ _ _ _ A); by right).
  destruct (oc_set _ _ _ _ _ _ _ _ A Ho Hd) as [A1 A2 A3 A4 A5 A6 A7 A8 A9]; [done |]. split; try done.
  - intros i e. rewrite lookup_delete_Some. intros [_ He]. by apply A6.
  - intros i e He. destruct (decide (i = id)) as [->|Hne]; [right; exists d; by rewrite lookup_insert_eq |].
    rewrite lookup_delete_ne by done. by apply A7.
Qed.

(** A run that has left the service has an exit. *)
Lemma oc_gone_exit owner rs table errs exits sv id : recorded owner rs table errs exits sv -> launched id sv ->
  strategies sv !! id = None -> exists e, (id, e) ∈ exits.
Proof.
  intros A (n & r & Hr & <-) Hn. apply (rc_exited _ _ _ _ _ _ A n r Hr). intros Ha.
  assert (strategies sv !! r_id r = Some n) as E; [| congruence]. apply (rc_registry _ _ _ _ _ _ A). exists r. split_and!; [done | done |].
  unfold alive. congruence.
Qed.

(** A fresh id is launched. *)
Lemma oc_launch owner rs table errs exits sv id : recorded owner rs table errs exits sv -> is_Some (owner !! id) -> ~ launched id sv ->
  recorded owner rs table errs exits (Service.with_runs (<[id := length (runs sv)]> (strategies sv)) (runs sv ++ [MkRun id false RunAlive []]) sv).
Proof.
  intros A Ho Hf. pose proof A as [A1 A2 A3 A4 A5 A6 A7 A8 A9]. set (sv' := Service.with_runs _ _ sv).
  assert (forall e, (id, e) ∈ exits -> False) as Hx by (intros e He; by apply Hf, (A5 id e)).
  assert (forall n r, runs sv' !! n = Some r -> runs sv !! n = Some r \/ n = length (runs sv) /\ r = MkRun id false RunAlive []) as Hr.
  { intros n r. simpl. rewrite lookup_app_Some. intros [Hr|[Hl [Hn <-]%list_lookup_singleton_Some]]; [by left | right; split; [lia | done]]. }
  assert (forall i, launched i sv' -> launched i sv \/ i = id) as Hl.
  { intros i (n & r & Hn & <-). destruct (Hr n r Hn) as [Hn'|[_ ->]]; [left; by exists n, r | by right]. }
  assert (forall i d, outcome exits sv i d -> outcome exits sv' i d) as Hd.
  { intros i d. apply oc_outcome_mono; [done |]. intros e He Hs. simpl. rewrite lookup_insert_ne; [done |]. intros ->. by eapply Hx. }
  split; try done.
  - apply sv_register; [done |]. destruct (strategies sv !! id) as [n|] eqn:E; [| done]. apply A1 in E as (r & Hr' & Hi & _). destruct Hf. by exists n, r.
  - intros i [Hi|Hi]; [| apply A2; by right]. destruct (Hl i Hi) as [?| ->]; [apply A2; by left | done].
  - intros n n' r r' Hn Hn' E. destruct (Hr n r Hn) as [H1|[-> ->]], (Hr n' r' Hn') as [H2|[-> ->]]; [by eapply A3 | | | done].
    + destruct Hf. by exists n, r.
    + destruct Hf. exists n', r'. by split.
  - intros n r Hn. destruct (Hr n r Hn) as [H1|[_ ->]]; [by apply (A4 n) |]. split; [done |]. intros (e & He). simpl in He. by destruct (Hx e).
  - intros i e He. destruct (A5 i e He) as [(n & r & Hn & Hi) Hu]. split; [| done]. exists n, r. split; [by apply lookup_app_l_Some | done].
  - intros i d Hi. by apply Hd, A8.
  - intros i d Hi. by apply Hd, A9.
Qed.

Section Outcome.
Context `{AEAD} (w : Wiring).

Lemma oc_bind {A B} t (p : prog handler Choice A) (k : A -> prog handler Choice B) P Q Q' :
  otsafe t p P Q -> (forall a, otsafe t (k a) (Q a) Q') -> otsafe t (p ≫= k) P Q'.
Proof. apply tsafe_bind. Qed.

Lemma oc_ret {A} t (a : A) P : otsafe t (Ret a) P (fun _ => P).
Proof. by intros x h _ Hh. Qed.
Lemma oc_end {A} t (a : A) P : otsafe t (Ret a) P (fun _ _ _ => True).
Proof. done. Qed.
Lemma oc_any {A} t (p : prog handler Choice A) P Q : otsafe t p P Q -> otsafe t p P (fun _ _ _ => True).
Proof. by apply tsafe_post. Qed.
Lemma oc_weaken {A} t (p : prog handler Choice A) (P P' : gset string -> handler -> Prop) Q :
  (forall x h, P x h -> P' x h) -> otsafe t p P' Q -> otsafe t p P Q.
Proof. intros HP. apply tsafe_pre. auto. Qed.

(** A step that leaves the runs and the service as they are. *)
Lemma oc_same h h' x : drawn h' = drawn h -> h_runs h' = h_runs h -> h_service h' = h_service h -> ORely x h h'.
Proof. intros Ed Er Es. split; [split | |]; rewrite ?Ed, ?Er, ?Es; auto. Qed.
Lemma oc_same_guar t x h h' : drawn h' = drawn h -> h_runs h' = h_runs h -> h_service h' = h_service h -> OGuar t x x h h'.
Proof.
  intros Ed Er Es. destruct (oc_same h h' x Ed Er Es) as [G _ _]. split; [done | set_solver | |].
  - intros id Hn. rewrite Er, Hn. by intros [? ?].
  - intros id. rewrite Es. by left.
Qed.

(** Such a step of a program. *)
Lemma oc_quiet {A} t (f : Choice -> handler -> handler * A) P : otstable P ->
  (forall c h, OInv h -> OInv (f c h).1) ->
  (forall c h, drawn (f c h).1 = drawn h /\ h_runs (f c h).1 = h_runs h /\ h_service (f c h).1 = h_service h) ->
  otsafe t (atomic f) P (fun _ => P).
Proof.
  intros SP HI Hf. apply tsafe_atomic; [| intros _; exact SP]. intros c x h Is Ps. destruct (Hf c h) as (Ed & Er & Es). exists x.
  split_and!; [auto | by apply oc_same_guar |]. apply (SP x h); [done | auto | by apply oc_same | done].
Qed.

(** An update that changes nothing here. *)
Lemma oc_quiet_if t (f : handler -> handler) P : otstable P -> (forall x h, P x h -> f h = h) -> otsafe t (update f) P (fun _ => P).
Proof.
  intros SP Hf. apply tsafe_atomic; [| auto]. intros c x h Is Ps. exists x. simpl. rewrite (Hf x h Ps). split_and!; [done | by apply oc_same_guar | done].
Qed.

Lemma oc_read {A} t (f : handler -> A) P : otstable P -> otsafe t (read f) P (fun _ => P).
Proof. intros SP. by apply oc_quiet. Qed.
Lemma oc_choose {A} t (f : Choice -> A) P : otstable P -> otsafe t (choose f) P (fun _ => P).
Proof. intros SP. by apply oc_quiet. Qed.
Lemma oc_await {A} t (f : Choice -> handler -> option A) P : otstable P -> otsafe t (await f) P (fun _ => P).
Proof. intros SP. apply tsafe_await; [| auto | auto]. intros x h Is. by apply oc_same_guar. Qed.

Lemma oc_publish t e u id P : otstable P -> otsafe t (publishEvent w e u id) P (fun _ => P).
Proof. intros SP. apply oc_quiet; [done | |]; intros c h; simpl; unfold publish; by destruct (_ && _). Qed.
Lemma oc_tell t g P : otstable P -> otsafe t (tellManager w g) P (fun _ => P).
Proof. intros SP. apply oc_quiet; [done | |]; intros c h; simpl; unfold tell; destruct (g h); try done; by destruct (w_orderUpdates w). Qed.
Lemma oc_cancel t tok P : otstable P -> otsafe t (update (cancel tok)) P (fun _ => P).
Proof. intros SP. by apply oc_quiet. Qed.
Lemma oc_observers t f P : otstable P -> (forall h, exists o ws r, f h = with_observers o ws r h) -> otsafe t (update f) P (fun _ => P).
Proof. intros SP Hf. apply oc_quiet; [done | |]; intros c h; simpl; destruct (Hf h) as (o & ws & r & ->); done. Qed.
Lemma oc_context {A} t (f : Choice -> handler -> handler * A) P : otstable P ->
  (forall c h, exists o ws r n cs, (f c h).1 = with_observers o ws r (with_contexts n cs h)) -> otsafe t (atomic f) P (fun _ => P).
Proof. intros SP Hf. apply oc_quiet; [done | |]; intros c h; destruct (Hf c h) as (o & ws & r & n & cs & ->); done. Qed.

Lemma oc_save_inv ok d h : OInv h -> outcome (h_exits h) (h_service h) (rd_ID d) d -> OInv (saveRun w ok d h).1.
Proof. intros Is Hd. unfold saveRun. destruct (negb _); [done |]. destruct ok; [| done]. by apply oc_table. Qed.
Lemma oc_save_parts ok d h : drawn (saveRun w ok d h).1 = drawn h /\ h_runs (saveRun w ok d h).1 = h_runs h /\ h_service (saveRun w ok d h).1 = h_service h.
Proof. unfold saveRun. destruct (negb _); [done |]. by destruct ok. Qed.

Lemma oc_saveRunByID t id P : otstable P -> otsafe t (saveRunByID w id) P (fun _ => P).
Proof.
  intros SP. apply oc_quiet; [done | |]; intros c h.
  - intros Is. simpl. destruct (h_runs h !! id) as [d|] eqn:E; [| done]. apply (rc_runs _ _ _ _ _ _ Is) in E as Hd.
    pose proof Hd as [<- _ _]. by apply oc_save_inv.
  - simpl. destruct (h_runs h !! id); [apply oc_save_parts | done].
Qed.

(** A call adds a waiting caller and starts nobody. *)
Lemma oc_service_inv h sv : OInv h -> runs sv = runs (h_service h) -> strategies sv = strategies (h_service h) -> OInv (with_service sv h).
Proof.
  intros [A1 A2 A3 A4 A5 A6 A7 A8 A9] Er Es.
  assert (forall id, launched id sv <-> launched id (h_service h)) as El by (intros id; unfold launched; by rewrite Er).
  assert (forall m : gmap string RunDetail, map_Forall (outcome (h_exits h) (h_service h)) m -> map_Forall (outcome (h_exits h) sv) m) as Hm.
  { intros m Hm id d Hd. eapply oc_outcome_mono; [done | | by apply Hm]. intros e _. by rewrite Es. }
  split; simpl; rewrite ?Er; auto.
  - intros id n. rewrite Er, Es. apply A1.
  - intros id. rewrite El. apply A2.
  - intros id e He. rewrite El. by apply A5.
Qed.

Lemma oc_callService t m id P : otstable P -> otsafe t (callService m id) P (fun _ => P).
Proof.
  intros SP. eapply oc_bind with (Q := fun _ => P).
  - apply tsafe_atomic; [| auto]. intros c x h Is Ps. exists x. unfold SendMessage.
    assert (forall cs, let h' := with_service (with_callers cs (h_service h)) h in OInv h' /\ ORely x h h' /\ OGuar t x x h h') as Hc.
    { intros cs h'. assert (OInv h') as I' by by apply oc_service_inv.
      assert (ORely x h h') as HR by by (split; [split | |]). split_and!; [done | done |].
      split; [apply HR | set_solver | | by left]. intros i Hn. simpl. rewrite Hn. by intros [? ?]. }
    destruct (strategies (h_service h) !! id) as [n|]; simpl.
    + destruct (Hc (callers (h_service h) ++ [MkCaller n m CallWaiting])) as (I' & HR & HG). split_and!; [done | done |]. by apply (SP x h).
    + assert (with_service (h_service h) h = h) as -> by by destruct h. split_and!; [done | by apply oc_same_guar | done].
  - intros [k|e]; [by apply oc_await | apply oc_ret].
Qed.

(** A status other than a terminal one. *)
Definition interim (s : Status) : Prop := s <> StRunning /\ s <> StCompleted /\ s <> StFailed.

Lemma oc_interim exits sv s now so id d : interim s -> outcome exits sv id d -> outcome exits sv id (set_status s now so (rd_Error d) d).
Proof. intros (H1 & H2 & H3) [A _ _]. by split. Qed.

Lemma oc_set_interim_inv s now (so : RunDetail -> option Z) id h : interim s -> OInv h ->
  OInv (update_run id (fun d => set_status s now (so d) (rd_Error d) d) h).
Proof.
  intros Hs Is. unfold update_run. destruct (h_runs h !! id) as [d|] eqn:E.
  - assert (alter (fun d => set_status s now (so d) (rd_Error d) d) id (h_runs h) = <[id := set_status s now (so d) (rd_Error d) d]> (h_runs h)) as ->.
    { apply map_eq. intros i. destruct (decide (i = id)) as [->|Hne]; [by rewrite lookup_alter_eq, lookup_insert_eq, E | by rewrite lookup_alter_ne, lookup_insert_ne]. }
    apply oc_set; [done | | apply oc_interim; [done | by apply (rc_runs _ _ _ _ _ _ Is)] | by destruct Hs].
    apply (rc_drawn _ _ _ _ _ _ Is). right. by exists d.
  - rewrite alter_id; [by destruct h | by intros d; rewrite E].
Qed.

Lemma oc_update_rely x id f h : ORely x h (update_run id f h).
Proof.
  split; [split | |]; try done.
  - intros i. simpl. destruct (decide (i = id)) as [->|Hne]; [rewrite lookup_alter_eq; intros [d ->]; by eexists | by rewrite lookup_alter_ne].
  - intros i _ Hn. simpl. destruct (decide (i = id)) as [->|Hne]; [by rewrite lookup_alter_eq, Hn | by rewrite lookup_alter_ne].
Qed.
Lemma oc_update_guar t x id f h : OGuar t x x h (update_run id f h).
Proof.
  split; [apply (oc_update_rely x) | set_solver | | by left]. intros i Hn. simpl.
  destruct (decide (i = id)) as [->|Hne]; [rewrite lookup_alter_eq, Hn | rewrite lookup_alter_ne, Hn by done]; by intros [? ?].
Qed.

Lemma oc_set_interim t s now (so : RunDetail -> option Z) id P : interim s -> otstable P ->
  otsafe t (update (update_run id (fun d => set_status s now (so d) (rd_Error d) d))) P (fun _ => P).
Proof.
  intros Hs SP. apply tsafe_atomic; [| auto]. intros c x h Is Ps. exists x. simpl.
  assert (OInv (update_run id (fun d => set_status s now (so d) (rd_Error d) d) h)) by by apply oc_set_interim_inv.
  split_and!; [done | apply oc_update_guar |]. apply (SP x h); [done | done | apply oc_update_rely | done].
Qed.

(** ** The observers of a run *)

Lemma oc_write_inv f id ok h d : OInv h -> h_runs h !! id = Some d -> outcome (h_exits h) (h_service h) id (f d) ->
  OInv (with_runs (<[id := f d]> (h_runs h)) h) -> OInv (writeRun w f id ok h).1.
Proof.
  intros Is E Hd I'. unfold writeRun. rewrite E. apply oc_save_inv; [done |]. pose proof Hd as [-> _ _]. done.
Qed.

Lemma oc_write_parts f id ok h : drawn (writeRun w f id ok h).1 = drawn h /\ h_service (writeRun w f id ok h).1 = h_service h /\
  forall i, is_Some (h_runs (writeRun w f id ok h).1 !! i) <-> is_Some (h_runs h !! i).
Proof.
  unfold writeRun. destruct (h_runs h !! id) as [d|] eqn:E; [| by split_and!].
  destruct (oc_save_parts ok (f d) (with_runs (<[id := f d]> (h_runs h)) h)) as (-> & -> & ->). split_and!; [done | done |].
  intros i. simpl. destruct (decide (i = id)) as [->|Hne]; [rewrite lookup_insert_eq, E; by split | by rewrite lookup_insert_ne].
Qed.

(** The same runs, the same service. *)
Lemma oc_parts_rely t x h h' : drawn h' = drawn h -> h_service h' = h_service h ->
  (forall i, is_Some (h_runs h' !! i) <-> is_Some (h_runs h !! i)) -> ORely x h h' /\ OGuar t x x h h'.
Proof.
  intros Ed Es Hr. assert (grows h h') as G by (split; rewrite ?Ed, ?Es; try done; intros i; apply Hr). split; split; rewrite ?Ed, ?Es; auto.
  - intros i _ Hn. apply eq_None_not_Some. rewrite Hr, Hn. by intros [? ?].
  - set_solver.
  - intros i Hn Hs. apply Hr in Hs as [? ?]. congruence.
Qed.

Lemma oc_classify_inv id ok x h : OInv h -> gone id x h -> OInv (classify w id ok h).1.
Proof.
  intros Is [[[d E] Hl] Hs]. unfold classify. cbn zeta. set (h1 := with_exit_errs _ h).
  assert (h_runs h1 !! id = Some d) as E1 by done. rewrite E1.
  assert (outcome (h_exits h) (h_service h) id d) as Hd by by apply (rc_runs _ _ _ _ _ _ Is).
  destruct (bool_decide (rd_Status d = StRunning)) eqn:B.
  - apply bool_decide_eq_true in B. destruct (oc_gone_exit _ _ _ _ _ _ _ Is Hl Hs) as (e & He).
    assert (h_runExitErrs h !! id = Some e) as Ee.
    { destruct (rc_kept _ _ _ _ _ _ Is id e He) as [?|(d' & Hd' & Hr)]; [done | congruence]. }
    rewrite Ee. cbn [fst]. set (d' := exit_status (default None (Some e)) (h_now h1) d).
    assert (outcome (h_exits h) (h_service h) id d') as Hd' by (destruct Hd as [Hi _ _]; unfold d'; destruct e; by split).
    assert (OInv (with_runs (<[id := d']> (h_runs h1)) h1)) as I'.
    { apply oc_consume; [done | by exists d | done |]. unfold d'. by destruct e. }
    unfold writeRun. rewrite E1. apply oc_save_inv; [done |]. assert (rd_ID d' = id) as E3 by apply Hd'. unfold d' in E3. rewrite E3. exact Hd'.
  - apply bool_decide_eq_false in B. unfold OInv. simpl. rewrite <- (insert_id (h_runs h) id d E) at 1.
    apply oc_consume; [done | by exists d | done | done].
Qed.

Lemma oc_classify t id : otsafe t (maybePublishNaturalCompletion w id) (gone id) (fun _ => gone id).
Proof.
  eapply oc_bind with (Q := fun _ => gone id); [| intros [[e u]|]; [apply oc_publish; auto with verif | apply oc_ret]].
  apply tsafe_atomic; [| auto with verif]. intros c x h Is Hg. exists x. pose proof (oc_classify_inv id (ch_ok c) x h Is Hg) as I'.
  assert (forall h', h' = (classify w id (ch_ok c) h).1 -> drawn h' = drawn h /\ h_service h' = h_service h /\
    forall i, is_Some (h_runs h' !! i) <-> is_Some (h_runs h !! i)) as Hp.
  { intros h' ->. unfold classify. cbn zeta. destruct (h_runs _ !! id); [| by split_and!]. destruct (bool_decide _); [| by split_and!]. cbn [fst].
    match goal with |- context [writeRun w ?f id ?o ?h0] => destruct (oc_write_parts f id o h0) as (-> & -> & Hr) end. done. }
  destruct (Hp _ eq_refl) as (Ed & Es & Hr). destruct (oc_parts_rely t x h _ Ed Es Hr) as [HR HG]. split_and!; [done | done |].
  by apply (oc_gone_stable id x h).
Qed.

Lemma oc_poll t tok id sl : otsafe t (poll tok id sl) (known id) (fun p => match p with PollInactive => gone id | _ => known id end).
Proof.
  apply tsafe_await; [intros x h Is; by apply oc_same_guar | | intros []; auto with verif].
  intros c x h a Is Hk. destruct (ch_first c); [destruct (cancelled tok h); [by intros [= <-] | done] |].
  destruct (IsRunActive id (h_service h)) eqn:E; simpl.
  - destruct (sl && ch_ok c); [by intros [= <-] | done].
  - intros [= <-]. split; [done |]. unfold IsRunActive in E. apply bool_decide_eq_false in E. by apply eq_None_not_Some.
Qed.

Lemma oc_watcher t tok id : otsafe t (completionWatcher w tok id) (known id) (fun _ _ _ => True).
Proof.
  eapply oc_bind; [apply oc_poll |]. intros p. eapply oc_bind with (Q := fun _ _ _ => True).
  - destruct p; [apply oc_end | eapply oc_any, oc_classify | apply oc_end].
  - intros _. eapply oc_bind; [apply oc_observers; [auto with verif |]; intros h; eexists _, _, _; reflexivity |]. intros ?.
    apply oc_cancel. auto with verif.
Qed.

Lemma oc_observer t tok id u : otsafe t (runStopLossObserver w tok id u) (known id) (fun _ _ _ => True).
Proof.
  eapply oc_bind; [apply oc_poll |]. intros p. eapply oc_bind with (Q := fun _ _ _ => True).
  - destruct p; [apply oc_end | eapply oc_any, oc_classify | eapply oc_any, oc_publish; auto with verif].
  - intros _. eapply oc_bind; [apply oc_observers; [auto with verif |]; intros h; eexists _, _, _; reflexivity |]. intros ?.
    apply oc_cancel. auto with verif.
Qed.

Lemma oc_fork t id p : otsafe t p (known id) (fun _ _ _ => True) -> otsafe t (go p) (known id) (fun _ => known id).
Proof. intros Hp. apply tsafe_go with (P1 := known id); [auto with verif | by intros x h _ Hk | done]. Qed.

Lemma oc_startWatcher t id : otsafe t (startCompletionWatcher w id) (known id) (fun _ => known id).
Proof.
  eapply oc_bind; [apply oc_context; [auto with verif |]; intros c h; eexists _, _, _, _, _; reflexivity |]. intros tok.
  apply oc_fork, oc_watcher.
Qed.

Lemma oc_startObserver t id u s : otsafe t (startStopLossObserver w id u s) (known id) (fun _ => known id).
Proof.
  unfold startStopLossObserver. destruct (bool_decide _); [| apply oc_ret].
  eapply oc_bind; [apply oc_context; [auto with verif |]; intros c h; eexists _, _, _, _, _; reflexivity |]. intros tok.
  apply oc_fork, oc_observer.
Qed.

Lemma oc_startUpdater t id u s : otsafe t (startOrderUpdater w id u s) (known id) (fun _ => known id).
Proof.
  unfold startOrderUpdater. destruct (_ || _); [apply oc_ret |]. destruct (executes _); [| apply oc_ret].
  eapply oc_bind; [apply oc_context; [auto with verif |]; intros c h; eexists _, _, _, _, _; reflexivity |]. intros tok.
  eapply oc_bind; [apply oc_choose; auto with verif |]. intros refused.
  eapply oc_bind with (Q := fun _ => known id); [destruct refused; [apply oc_ret | apply oc_await; auto with verif] |].
  intros _. apply oc_cancel. auto with verif.
Qed.

(** ** Requests *)

Lemma oc_getRun t ctx id P : otstable P -> otsafe t (getRun w ctx id) P (fun _ _ _ => True).
Proof.
  intros SP. unfold getRun. destruct (resolveDORAUserID w ctx); [| apply oc_end].
  eapply oc_bind; [by apply oc_read |]. intros [d|]; [| apply oc_end]. destruct (negb _); [apply oc_end | eapply oc_any; by apply oc_read].
Qed.

Notation T := (fun _ _ => True).

Lemma oc_markStopped t now id : otsafe t (update (markStopped now id)) T (fun _ => T).
Proof.
  apply tsafe_atomic; [| auto with verif]. intros c x h Is _. exists x. unfold markStopped. cbn zeta.
  set (h1 := update_run id _ h).
  assert (OInv h1) as I1 by (apply (oc_set_interim_inv StStopped now (fun _ => Some now)); done).
  assert (forall m h0, exists n cs, cancel_at m id h0 = with_contexts n cs h0) as Hc.
  { intros m h0. unfold cancel_at. destruct (m !! id); [by eexists _, _ | exists (h_contexts h0), (h_cancelled h0); by destruct h0]. }
  destruct (Hc (h_stopLossObservers h1) h1) as (n1 & c1 & E1).
  destruct (Hc (h_runCompletionWatchers h1) (with_contexts n1 c1 h1)) as (n2 & c2 & E2).
  cbn [fst snd]. rewrite E1, E2. split_and!; [done | | done]. destruct (oc_update_guar t x id (fun d => set_status StStopped now (Some now) (rd_Error d) d) h) as [[? ? ? ?] ? ? ?].
  by split; [split | | |].
Qed.

Lemma oc_stop t ctx id u : otsafe t (stopOwnRun w ctx id u) T (fun _ => T).
Proof.
  eapply oc_bind; [apply oc_read; auto with verif |]. intros st.
  eapply oc_bind with (Q := fun _ => T); [destruct (bool_decide _); [apply oc_ret | apply oc_callService; auto with verif] |].
  intros [_|e]; [| apply oc_ret]. eapply oc_bind; [apply oc_read; auto with verif |]. intros now.
  eapply oc_bind; [apply oc_markStopped |]. intros ?. eapply oc_bind; [apply oc_tell; auto with verif |]. intros ?.
  eapply oc_bind; [apply oc_tell; auto with verif |]. intros ?. eapply oc_bind; [apply oc_saveRunByID; auto with verif |].
  intros [_|e]; [| apply oc_ret]. eapply oc_bind; [apply oc_publish; auto with verif |]. intros ?. apply oc_getRun. auto with verif.
Qed.

Lemma oc_pause t ctx id u : otsafe t (pauseOwnRun w ctx id u) T (fun _ => T).
Proof.
  eapply oc_bind; [apply oc_read; auto with verif |]. intros st. destruct (bool_decide _); [apply oc_ret |].
  eapply oc_bind; [apply oc_callService; auto with verif |]. intros [_|e]; [| apply oc_ret].
  eapply oc_bind; [apply oc_read; auto with verif |]. intros now.
  eapply oc_bind; [apply (oc_set_interim t StPaused now rd_StoppedAt); [done | auto with verif] |]. intros ?.
  eapply oc_bind; [apply oc_tell; auto with verif |]. intros ?. eapply oc_bind; [apply oc_saveRunByID; auto with verif |].
  intros [_|e]; [| apply oc_ret]. eapply oc_bind; [apply oc_publish; auto with verif |]. intros ?. apply oc_getRun. auto with verif.
Qed.

(** *** Creating a run: the token at work *)

Lemma oc_draw t u : otsafe t (draw_id u) T (fun p => fresh p.1).
Proof.
  intros c x h Is _. destruct (h_owner h !! ch_uuid c) eqn:E; [done |]. set (id := ch_uuid c) in *.
  set (h' := with_history _ _ _ h). exists ({[id]} ∪ x).
  assert (drawn h' = {[id]} ∪ drawn h) as Ed by (unfold drawn; simpl; by rewrite dom_insert_L).
  assert (id ∉ drawn h) as Hd by by apply not_elem_of_dom.
  assert (h_runs h !! id = None) as Hr.
  { apply eq_None_not_Some. intros Hs. destruct (rc_drawn _ _ _ _ _ _ Is id) as [? ?]; [by right | congruence]. }
  assert (~ launched id (h_service h)) as Hl.
  { intros Hs. destruct (rc_drawn _ _ _ _ _ _ Is id) as [? ?]; [by left | congruence]. }
  assert (OInv h') as I'.
  { destruct Is as [A1 A2 A3 A4 A5 A6 A7 A8 A9]. split; try done. intros i Hi. simpl.
    destruct (decide (i = id)) as [->|Hne]; [by rewrite lookup_insert_eq | rewrite lookup_insert_ne by done; by apply A2]. }
  split_and!; [done | |].
  - split; [split | | |]; try done; [set_solver | set_solver | | by left]. intros i Hn. simpl. rewrite Hn. by intros [? ?].
  - exists (fresh id). split_and!; [auto with verif | | by intros y z _ Hz]. split_and!; [set_solver | done | done | set_solver].
Qed.

Lemma oc_startRun t id s : otsafe t (startRun id s) (fresh id) (fun r => match r with Ok _ => starting id | Err _ => T end).
Proof.
  eapply oc_bind with (Q := fun _ => fresh id).
  - apply oc_quiet_if; [auto with verif |]. intros x h (_ & Hn & _). unfold update_run.
    rewrite alter_id by by rewrite Hn. by destruct h.
  - intros _. apply tsafe_atomic; [| intros [_|e]; auto with verif]. intros c x h Is (Hx & Hn & Hl & Hd). exists x.
    assert (forall h', h' = with_service (h_service h) h -> OInv h' /\ OGuar t x x h h') as Hsame.
    { intros h' ->. assert (with_service (h_service h) h = h) as -> by by destruct h. split; [done | by apply oc_same_guar]. }
    unfold RunStrategyWithID. destruct (ch_ended c); cbn [fst snd]; [by destruct (Hsame _ eq_refl) |].
    destruct (strategies (h_service h) !! id) eqn:E; cbn [fst snd]; [by destruct (Hsame _ eq_refl) |].
    assert (is_Some (h_owner h !! id)) as Ho by by apply elem_of_dom.
    split_and!; [by apply oc_launch | |].
    + split; [split | set_solver | | ]; try done.
      * intros i (n & r & Hr & <-). exists n, r. split; [by apply lookup_app_l_Some | done].
      * intros i Hi Hs. simpl. rewrite lookup_insert_ne; [done |]. by intros ->.
      * intros i Hi. simpl. rewrite Hi. by intros [? ?].
      * intros i (n & r & Hr & <-). simpl in Hr. apply lookup_app_Some in Hr as [Hr|[_ [_ <-]%list_lookup_singleton_Some]]; [left; by exists n, r | by right].
    + split_and!; [done | done |]. exists (length (runs (h_service h))), (MkRun id false RunAlive []). simpl. by rewrite list_lookup_middle.
Qed.

Lemma oc_insert t id d : rd_ID d = id -> rd_Status d = StRunning ->
  otsafe t (update (fun h => with_runs (<[id := d]> (h_runs h)) h)) (starting id) (fun _ => known id).
Proof.
  intros Hi Hs. apply tsafe_atomic; [| auto with verif]. intros c x h Is (Hx & Hn & Hl). exists x. cbn [fst snd].
  assert (outcome (h_exits h) (h_service h) id d) as Hd by (split; [done | congruence..]).
  split_and!.
  - apply oc_set; [done | apply (rc_drawn _ _ _ _ _ _ Is); by left | done |]. intros _ e He.
    destruct (rc_kept _ _ _ _ _ _ Is id e He) as [?|(d' & Hd' & _)]; [done | congruence].
  - split; [split | set_solver | | by left]; try done.
    + intros i Hr. simpl. destruct (decide (i = id)) as [->|Hne]; [by rewrite lookup_insert_eq | by rewrite lookup_insert_ne].
    + intros i Hr Hs'. simpl in Hs'. destruct (decide (i = id)) as [->|Hne]; [done |]. rewrite lookup_insert_ne, Hr in Hs' by done. by destruct Hs'.
  - split; [simpl; by rewrite lookup_insert_eq | done].
Qed.

Lemma oc_publishRun t u key d s : rd_Status d = StRunning -> otsafe t (publishRun w u key d s) (starting (rd_ID d)) (fun _ => T).
Proof.
  intros Hs. unfold publishRun. cbn zeta. eapply oc_bind with (Q := fun _ => starting (rd_ID d)).
  - apply oc_quiet; [auto with verif | | intros c h; apply oc_save_parts]. intros c h Is. apply oc_save_inv; [done |]. split; [done | congruence..].
  - intros [_|e]; [| apply oc_end]. eapply oc_bind; [by apply oc_insert |]. intros ?. eapply oc_bind; [apply oc_tell; auto with verif |]. intros ?.
    eapply oc_bind; [apply oc_startUpdater |]. intros ?. eapply oc_bind; [apply oc_startObserver |]. intros ?.
    eapply oc_bind; [apply oc_startWatcher |]. intros ?. eapply oc_bind; [apply oc_publish; auto with verif |]. intros ?.
    eapply oc_any, oc_read. auto with verif.
Qed.

Lemma oc_create t ctx body : otsafe t (createRun w ctx body) T (fun _ => T).
Proof.
  unfold createRun. destruct body as [[ty config]|e]; [| apply oc_end]. destruct (resolveStrategy _ _ _ _) as [[[def cfg] s]|[c e]]; [| apply oc_end].
  destruct (resolveDORAUserID w ctx) as [u|e]; [| apply oc_end]. cbn zeta.
  eapply oc_bind with (Q := fun _ => T); [destruct (bool_decide _); [apply oc_end | apply oc_read; auto with verif] |].
  intros [ex|]; [apply oc_end |]. destruct (requireMarketClient _); [| apply oc_end]. eapply oc_bind with (Q := fun _ => T).
  { unfold encrypt_key. destruct (_ && _); [| apply oc_end]. eapply oc_bind; [apply oc_choose; auto with verif |]. intros ?. apply oc_end. }
  intros [enc|e]; [| apply oc_end]. eapply oc_bind; [apply oc_draw |]. intros [id now]. eapply oc_bind; [apply oc_startRun |].
  intros [_|e]; [| apply oc_end]. by apply (oc_publishRun t u (caller_key ctx) (MkRunDetail id u _ _ _ _ _ _ _ _)).
Qed.

(** Runs are created, looked at, paused and stopped. *)
Definition no_resume (r : Request) : Prop :=
  match r with Arrive _ _ (OpResume _) | Startup => False | _ => True end.

Lemma oc_withOwn t ctx id k : (forall u, otsafe t (k u) T (fun _ => T)) -> otsafe t (withOwnRun w ctx id k) T (fun _ => T).
Proof.
  intros Hk. eapply oc_bind; [apply oc_read; auto with verif |]. intros [d|]; [| apply oc_end].
  destruct (resolveDORAUserID w ctx); [| apply oc_end]. destruct (negb _); [apply oc_end | apply Hk].
Qed.

Lemma oc_serve r : no_resume r -> exists P, otstable P /\ (forall h, OInv h -> P ∅ h) /\
  otsafe (th_tag (serve w r)) (th_prog (serve w r)) P (fun _ _ _ => True).
Proof.
  intros Hr. exists T. split_and!; [auto with verif | done |]. destruct r as [n ctx o|]; [simpl | done].
  eapply oc_bind with (Q := fun _ => T); [| intros resp; by apply oc_quiet].
  destruct o as [body|id|id|id|id]; simpl; [apply oc_create | | | | done].
  - apply oc_getRun. auto with verif.
  - apply oc_withOwn. intros u. apply oc_stop.
  - apply oc_withOwn. intros u. apply oc_pause.
Qed.
End Outcome.

(** ** The steps of the world *)

(** A run replaced by one with the same id. *)
Lemma oc_launched_insert n r r' rs bk st bs cs id : rs !! n = Some r -> r_id r' = r_id r ->
  launched id (MkService bk st (<[n := r']> rs) bs cs) <-> exists m x, rs !! m = Some x /\ r_id x = id.
Proof.
  intros Hr Hi. unfold launched. simpl. split.
  - intros (m & x & Hx & <-). destruct (decide (m = n)) as [->|Hne].
    + rewrite list_lookup_insert_eq in Hx by by eapply lookup_lt_Some. injection Hx as <-. exists n, r. by rewrite Hi.
    + rewrite list_lookup_insert_ne in Hx by done. by exists m, x.
  - intros (m & x & Hx & <-). destruct (decide (m = n)) as [->|Hne].
    + exists n, r'. rewrite list_lookup_insert_eq by by eapply lookup_lt_Some. split; [done |]. congruence.
    + exists m, x. by rewrite list_lookup_insert_ne.
Qed.

(** A step of the service that keeps which runs are alive, and forgets at most
    some registrations. *)
Lemma oc_service_step h n r r' bk st bs cs : OInv h -> runs (h_service h) !! n = Some r ->
  r_id r' = r_id r -> (r_pc r' = RunAlive <-> r_pc r = RunAlive) ->
  (forall id, strategies (h_service h) !! id = None -> st !! id = None) ->
  let sv' := MkService bk st (<[n := r']> (runs (h_service h))) bs cs in
  registry_ok sv' -> OInv (with_service sv' h) /\ forall y, ORely y h (with_service sv' h).
Proof.
  intros Is Hr Hi Ha Hst sv' Hreg. pose proof Is as [A1 A2 A3 A4 A5 A6 A7 A8 A9].
  assert (forall id, launched id sv' <-> launched id (h_service h)) as Hl by (intros id; by apply (oc_launched_insert n r)).
  assert (forall m x, runs sv' !! m = Some x -> exists y, runs (h_service h) !! m = Some y /\ r_id x = r_id y /\ (r_pc x = RunAlive <-> r_pc y = RunAlive)) as Hx.
  { intros m x Hm. simpl in Hm. destruct (decide (m = n)) as [->|Hne].
    - rewrite list_lookup_insert_eq in Hm by by eapply lookup_lt_Some. injection Hm as <-. by exists r.
    - rewrite list_lookup_insert_ne in Hm by done. by exists x. }
  assert (forall m, map_Forall (outcome (h_exits h) (h_service h)) m -> map_Forall (outcome (h_exits h) sv') (m : gmap string RunDetail)) as Hm.
  { intros m Hm id d Hd. eapply oc_outcome_mono; [done | | by apply Hm]. intros e _. apply Hst. }
  split.
  - split; simpl; auto.
    + intros id [H1|H1]; apply A2; [left; by apply Hl | by right].
    + intros m m' x x' H1 H2 E. destruct (Hx m x H1) as (y & Hy & I1 & _), (Hx m' x' H2) as (y' & Hy' & I2 & _).
      apply (A3 m m' y y'); [done | done | congruence].
    + intros m x H1. destruct (Hx m x H1) as (y & Hy & -> & E). rewrite <- (A4 m y Hy). by rewrite E.
    + intros id e He. rewrite Hl. by apply A5.
  - intros y. split; [split | |]; simpl; try done.
    + intros id. by rewrite Hl.
    + intros id _. apply Hst.
    + intros id _. by rewrite Hl.
Qed.

(** A strategy returns and [runExitRecorder] notes its error. *)
Lemma oc_exit h n r err : OInv h -> runs (h_service h) !! n = Some r -> r_pc r = RunAlive ->
  let sv' := Service.with_runs (strategies (h_service h)) (<[n := MkRun (r_id r) (r_cancelled r) RunReturned (r_received r)]> (runs (h_service h))) (h_service h) in
  registry_ok sv' ->
  let h' := with_history (h_owner h) (h_launched h) (h_exits h ++ [(r_id r, err)])
              (with_service sv' (with_exit_errs (<[r_id r := err]> (h_runExitErrs h)) h)) in
  OInv h' /\ forall y, ORely y h h'.
Proof.
  intros Is Hr Hp sv' Hreg h'. pose proof Is as [A1 A2 A3 A4 A5 A6 A7 A8 A9].
  assert (forall id, launched id sv' <-> launched id (h_service h)) as Hl by (intros id; by apply (oc_launched_insert n r)).
  assert (forall e, (r_id r, e) ∉ h_exits h) as Hno.
  { intros e He. destruct (proj2 (A4 n r Hr)) as []; [by exists e | done]. }
  assert (forall i e, (i, e) ∈ h_exits h -> i <> r_id r) as Hne by (intros i e He ->; by apply (Hno e)).
  assert (forall i e, (i, e) ∈ h_exits h' <-> (i, e) ∈ h_exits h \/ i = r_id r /\ e = err) as Hex.
  { intros i e. simpl. rewrite elem_of_app, list_elem_of_singleton. split; (intros [?|?]; [by left | right; naive_solver]). }
  assert (forall m, map_Forall (outcome (h_exits h) (h_service h)) m -> map_Forall (outcome (h_exits h') sv') (m : gmap string RunDetail)) as Hm.
  { intros m Hm id d Hd. eapply oc_outcome_mono; [| | by apply Hm]; [intros [i e] Hin; apply Hex; by left | done]. }
  split.
  - split; auto.
    + intros id [H1|H1]; apply A2; [left; by apply Hl | by right].
    + intros m m' x x' H1 H2 E. simpl in H1, H2.
      assert (forall q z, <[n:=MkRun (r_id r) (r_cancelled r) RunReturned (r_received r)]> (runs (h_service h)) !! q = Some z ->
        exists y, runs (h_service h) !! q = Some y /\ r_id z = r_id y) as Hz.
      { intros q z Hq. destruct (decide (q = n)) as [->|Hq'].
        - rewrite list_lookup_insert_eq in Hq by by eapply lookup_lt_Some. injection Hq as <-. by exists r.
        - rewrite list_lookup_insert_ne in Hq by done. by exists z. }
      destruct (Hz m x H1) as (y & Hy & E1), (Hz m' x' H2) as (y' & Hy' & E2). apply (A3 m m' y y'); [done | done | congruence].
    + intros m x H1. simpl in H1. destruct (decide (m = n)) as [->|Hmn].
      * rewrite list_lookup_insert_eq in H1 by by eapply lookup_lt_Some. injection H1 as <-. simpl. split; [intros _; exists err; apply Hex; by right | done].
      * rewrite list_lookup_insert_ne in H1 by done. rewrite (A4 m x H1). split; intros (e & He); exists e.
        -- apply Hex. by left.
        -- apply Hex in He as [?|[E _]]; [done |]. destruct Hmn. by apply (A3 m n x r).
    + intros i e He. apply Hex in He. split; [apply Hl; destruct He as [He|[-> _]]; [by apply (A5 i e) | by exists n, r] |].
      intros e' He'. apply Hex in He'. destruct He as [He|[-> ->]], He' as [He'|[E1 E2]].
      * by apply (A5 i e).
      * exfalso. by apply (Hne i e).
      * exfalso. by apply (Hno e').
      * done.
    + intros i e. simpl. rewrite lookup_insert_Some. intros [[<- <-]|[Hn He]]; apply Hex; [by right | left; by apply A6].
    + intros i e He. apply Hex in He as [He|[-> ->]]; [| left; simpl; by rewrite lookup_insert_eq].
      destruct (A7 i e He) as [?|?]; [left | by right]. simpl. rewrite lookup_insert_ne; [done |]. intros E. by apply (Hne i e).
  - intros y. split; [split | |]; try done.
    + intros id. simpl. by rewrite Hl.
    + intros id _. simpl. by rewrite Hl.
Qed.

Lemma oc_world e h h' : OInv h -> world e h = Some h' -> OInv h' /\ drawn h ⊆ drawn h' /\ forall y, ORely y h h'.
Proof.
  intros Is. assert (forall a sv, service_step a (h_service h) = Some sv -> registry_ok sv) as Hreg.
  { intros a sv Ha. eapply sv_step_registry; [exact Ha | apply Is]. }
  destruct e as [k|k|k|n|n err|t]; simpl; unfold on_service.
  - pose proof (Hreg (ADeliver k)) as Hk. simpl in Hk. unfold deliver in *. destruct (callers _ !! k) as [c|]; [| done].
    destruct (c_pc c); try done. destruct (runs _ !! c_run c) as [r|] eqn:Er; [| done]. case_bool_decide; [| done]. intros [= <-].
    split_and!; [| done |]; by eapply (oc_service_step h (c_run c) r); auto.
  - pose proof (Hreg (ACancel k)) as Hk. simpl in Hk. unfold cancel_run in *. destruct (callers _ !! k) as [c|]; [| done].
    destruct (c_pc c); try done. destruct (runs _ !! c_run c) as [r|] eqn:Er; [| done]. intros [= <-].
    split_and!; [| done |]; by eapply (oc_service_step h (c_run c) r); auto.
  - unfold abandon. destruct (callers _ !! k) as [c|]; [| done]. destruct (c_pc c); try done. intros [= <-].
    split_and!; [by apply oc_service_inv | done |]. intros y. by split; [split | |].
  - pose proof (Hreg (AUnregister n)) as Hk. simpl in Hk. unfold unregister in *. destruct (runs _ !! n) as [r|] eqn:Er; [| done].
    case_bool_decide as Hp; [| done]. intros [= <-]. specialize (Hk _ eq_refl). unfold Service.with_runs in *.
    split_and!; [| done |]; eapply (oc_service_step h n r); try done; simpl; try (rewrite Hp; done);
      intros id Hid; case_bool_decide; try done; rewrite lookup_delete_None; by right.
  - pose proof (Hreg (AReturn n)) as Hk. simpl in Hk. unfold strategy_returns in *. destruct (runs _ !! n) as [r|] eqn:Er; [| done].
    case_bool_decide as Hp; [| done]. intros [= <-]. specialize (Hk _ eq_refl).
    destruct (oc_exit h n r err Is Er Hp Hk) as [? ?]. by split_and!.
  - intros [= <-]. split_and!; [done | done |]. intros y. by split; [split | |].
Qed.

Lemma oc_initial : OInv NewHandler.
Proof.
  split; try done; simpl.
  - intros id n. split; [done |]. by intros (r & Hr & _).
  - intros id [(n & r & Hr & _)|[d Hd]]; done.
  - intros id e He. by apply elem_of_nil in He.
  - intros id e He. by apply elem_of_nil in He.
Qed.

Lemma oc_sound `{AEAD} w ls s : Forall (label_ok no_resume) ls -> server_run w ls (NewServer NewHandler) = Some s -> OInv (shared s).
Proof.
  intros Hls Hr. eapply (tc_sound OInv drawn OGuar ORely world (serve w) no_resume); [| | | exact Hls | exact Hr | apply tc_start, oc_initial].
  - intros t x x' y h h'. apply oc_guar_rely.
  - intros e h h'. apply oc_world.
  - apply oc_serve.
Qed.

(** C25: whatever requests to create, look at, pause and stop runs, strategies,
    observers and database failures interleave, a run that the server (in
    memory or in its table) reports completed has returned from its strategy
    without an error, one it reports failed has returned exactly the error
    reported, both have left the service, and a run exits once. *)
Theorem http_outcome_sound `{AEAD} w ls s id d :
  Forall (label_ok no_resume) ls -> server_run w ls (NewServer NewHandler) = Some s ->
  h_runs (shared s) !! id = Some d \/ h_table (shared s) !! id = Some d ->
  (rd_Status d = StCompleted -> (id, None) ∈ h_exits (shared s) /\ IsRunActive id (h_service (shared s)) = false) /\
  (rd_Status d = StFailed -> (id, Some (rd_Error d)) ∈ h_exits (shared s) /\ IsRunActive id (h_service (shared s)) = false) /\
  (forall e e', (id, e) ∈ h_exits (shared s) -> (id, e') ∈ h_exits (shared s) -> e = e').
Proof.
  intros Hls Hr Hd. pose proof (oc_sound w ls s Hls Hr) as Is.
  assert (outcome (h_exits (shared s)) (h_service (shared s)) id d) as [_ B C].
  { destruct Hd as [Hd|Hd]; [by apply (rc_runs _ _ _ _ _ _ Is) | by apply (rc_table _ _ _ _ _ _ Is)]. }
  unfold IsRunActive. split_and!.
  - intros E. destruct (B E) as [He ->]. by split.
  - intros E. destruct (C E) as [He ->]. by split.
  - intros e e' He He'. by apply (rc_exits _ _ _ _ _ _ Is id e').
Qed.

Import Demo.

(** A run whose strategy crashes. *)
Definition crash : list (label Choice WorldEvent Request) :=
  [LArrive (Arrive 1 (Demo.ctx "ann") (Demo.create "momentum" "b1"))] ++ Demo.created 0 "r1" ++
  [LEnv (EvExit 0 (Some "boom"%string)); LEnv (EvUnregister 0)] ++ Demo.steps 1 4.

Lemma http_outcome_sound_witness :
  ("r1"%string, Some "boom"%string) ∈ h_exits (shared (Demo.final crash)) /\ IsRunActive "r1" (h_service (shared (Demo.final crash))) = false.
Proof.
  assert (Demo.ends crash = true) as He by (vm_compute; reflexivity).
  assert (Forall (label_ok no_resume) crash) as Hl by (unfold crash; repeat constructor).
  assert ((fun d => (rd_Status d, rd_Error d)) <$> h_runs (shared (Demo.final crash)) !! "r1"%string = Some (StFailed, "boom"%string)) as Hs
    by (vm_compute; reflexivity).
  destruct (h_runs (shared (Demo.final crash)) !! "r1"%string) as [d|] eqn:Hd; [| discriminate Hs].
  injection Hs as Hs Hx. rewrite <- Hx.
  pose proof (demo_final crash He) as Hr. unfold run in Hr.
  pose proof (http_outcome_sound (H := clear_text) wiring crash (final crash) "r1"%string d Hl Hr (or_introl Hd)) as (_ & Hf & _).
  exact (Hf Hs).
Defined.
