(* ===== verification/HttpRunsFaults.v ===== *)
(** * Live runs: interleavings in which the server goes wrong

    Concrete runs of [HttpRuns], each evaluated by the kernel on the small
    server of [Demo]: a list of labels says who moves.  A goroutine's number
    is its place in the list of goroutines; a created run adds its watcher. *)

From S2P Require Import Prelude Market Service Concurrency Secrets HttpAuth Json HttpRuns.
Import Demo.

Notation script := (list (label Choice WorldEvent Request)).

Definition ann (n : nat) (o : Op) : label Choice WorldEvent Request := LArrive (Arrive n (ctx "ann") o).
Definition ev (e : WorldEvent) : label Choice WorldEvent Request := LEnv e.

(** What the users see and what is so: the responses, the status of the runs
    "r1" and "r2", and whether they are alive. *)
Definition seen (ls : script) : bool * list (nat * Z) * (option Status * option Status) * (bool * bool) :=
  let s := final ls in
  (ends ls, codes s, (status "r1" s, status "r2" s), (IsRunActive "r1" (h_service (shared s)), IsRunActive "r2" (h_service (shared s)))).

(** Both creates look for an active run before either has put its own in the
    map. *)
Definition two_creates : script :=
  [ann 1 (create "momentum" "b1"); ann 2 (create "momentum" "b1")] ++
  steps 0 2 ++ steps 1 2 ++ [draw 0 "r1"; draw 1 "r2"] ++ steps 0 10 ++ steps 1 10.

Theorem http_book_limit_race :
  seen two_creates = (true, [(1%nat, 201); (2%nat, 201)], (Some StRunning, Some StRunning), (true, true)).
Proof. vm_compute. reflexivity. Qed.

Definition first_run : script := [ann 1 (create "momentum" "b1")] ++ created 0 "r1".

(** One after the other: the first run crashes, a second one is created on its
    book, the first is resumed. *)
Definition crashed_run : script := first_run ++ [ev (EvExit 0 (Some "boom"%string)); ev (EvUnregister 0)] ++ steps 1 4.
Definition resumed_run : script :=
  crashed_run ++ [ann 2 (create "momentum" "b1")] ++ created 2 "r2" ++ [ann 3 (OpResume "r1")] ++ steps 4 18.

Theorem http_resume_breaks_book_limit :
  seen resumed_run = (true, [(1%nat, 201); (2%nat, 201); (3%nat, 200)], (Some StRunning, Some StRunning), (true, true)).
Proof. vm_compute. reflexivity. Qed.

Definition paused_run : script := first_run ++ [ann 2 (OpPause "r1")] ++ steps 2 3 ++ [ev (EvDeliver 0)] ++ steps 2 9.

(** A resume has seen the run paused; a stop runs to its end and is answered;
    the resume then finds the run unknown to the service and relaunches it. *)
Definition stopped_then_revived : script :=
  paused_run ++ [ann 3 (OpResume "r1")] ++ steps 3 2 ++
  [ann 4 (OpStop "r1")] ++ steps 4 3 ++ [ev (EvDeliver 1); ev (EvCancel 1)] ++ steps 4 10 ++
  [ev (EvExit 0 None); ev (EvUnregister 0)] ++ steps 3 16.

Theorem http_stopped_run_revived :
  seen stopped_then_revived = (true, [(1%nat, 201); (2%nat, 200); (4%nat, 200); (3%nat, 200)], (Some StRunning, None), (true, false)).
Proof. vm_compute. reflexivity. Qed.

(** A paused run's strategy takes the resume and crashes before the handler
    has noted that it runs: the watcher consumes the error of a run that is
    still paused, and then the run is reported running for good. *)
Definition crash_lost : script :=
  paused_run ++ [ann 3 (OpResume "r1")] ++ steps 3 3 ++ [ev (EvDeliver 1)] ++ steps 3 1 ++
  [ev (EvExit 0 (Some "boom"%string)); ev (EvUnregister 0)] ++ steps 1 4 ++ steps 3 5.

Theorem http_crash_lost_on_resume :
  seen crash_lost = (true, [(1%nat, 201); (2%nat, 200); (3%nat, 200)], (Some StRunning, None), (false, false)) /\
  h_runExitErrs (shared (final crash_lost)) = ∅ /\ h_runCompletionWatchers (shared (final crash_lost)) = ∅.
Proof. split_and!; vm_compute; reflexivity. Qed.

(** The row of a new run cannot be saved: its strategy is running all the same
    and nobody can stop it. *)
Definition no : Choice := MkChoice false false false "" "random bytes" (Some 0) [].
Definition orphan : script :=
  [ann 1 (create "momentum" "b1")] ++ steps 0 2 ++ [draw 0 "r1"] ++ steps 0 2 ++ [LThread 0 no] ++ steps 0 1 ++
  [ann 2 (OpStop "r1")] ++ steps 1 2.

Theorem http_unsaved_run_orphaned :
  seen orphan = (true, [(1%nat, 500); (2%nat, 404)], (None, None), (true, false)).
Proof. vm_compute. reflexivity. Qed.

(** The create of a TWAP run waits in its order updater.  The strategy ends by
    itself; nobody watches it, a stop is refused and the create still waits. *)
Definition twap_run : script :=
  [ann 1 (create "twap" "b1")] ++ steps 0 2 ++ [draw 0 "r1"] ++ steps 0 7 ++
  [ev (EvExit 0 None); ev (EvUnregister 0); ann 2 (OpStop "r1")] ++ steps 1 4.

Theorem http_twap_create_hangs :
  seen twap_run = (true, [(2%nat, 404)], (Some StRunning, None), (false, false)) /\
  ends (twap_run ++ steps 0 1) = false.
Proof. split; vm_compute; reflexivity. Qed.

(** In general the goroutine that called [startOrderUpdater] for an execution
    strategy cannot move while its context and its subscription live. *)
Lemma http_updater_blocks tok (k : unit -> prog handler Choice unit) c h t ts `{AEAD} w :
  cancelled tok h = false -> ch_ended c = false ->
  server_step w (LThread 0 c)
    (MkSystem h (MkThread t (_ ← await (fun c h => if cancelled tok h || ch_ended c then Some tt else None); k tt) :: ts)) = None.
Proof. intros H1 H2. unfold server_step. simpl. by rewrite H1, H2. Qed.
