(* ===== verification/Base64.v ===== *)
(** * encoding/base64, [RawURLEncoding]

    Three bytes become four letters; one or two left over become two or three
    letters, without padding. *)

From S2P Require Import Prelude.
From Stdlib Require Import Ascii.

Definition encodeURL : list ascii :=
  String.list_ascii_of_string "ABCDEFGHIJKLMNOPQRSTUVWXYZabcdefghijklmnopqrstuvwxyz0123456789-_".

Definition letter (n : Z) : ascii := nth (Z.to_nat n) encodeURL "A"%char.

Fixpoint index_of (c : ascii) (l : list ascii) (i : Z) : option Z :=
  match l with
  | [] => None
  | x :: rest => if Ascii.eqb x c then Some i else index_of c rest (i + 1)
  end.
Definition value (c : ascii) : option Z := index_of c encodeURL 0.

Definition byte (c : ascii) : Z := Z.of_nat (nat_of_ascii c).
Definition of_byte (n : Z) : ascii := ascii_of_nat (Z.to_nat n).

Fixpoint encode (s : list ascii) : list ascii :=
  match s with
  | a :: b :: c :: rest =>
      let v := byte a * 65536 + byte b * 256 + byte c in
      letter (v / 262144) :: letter (v / 4096 mod 64) :: letter (v / 64 mod 64) :: letter (v mod 64) :: encode rest
  | [a; b] =>
      let v := byte a * 65536 + byte b * 256 in
      [letter (v / 262144); letter (v / 4096 mod 64); letter (v / 64 mod 64)]
  | [a] => let v := byte a * 65536 in [letter (v / 262144); letter (v / 4096 mod 64)]
  | [] => []
  end.

(** The six-bit values; a line break is skipped, as the decoder does. *)
Definition is_newline (c : ascii) : bool := Ascii.eqb c "010"%char || Ascii.eqb c "013"%char.
Definition values (s : list ascii) : option (list Z) := mapM value (List.filter (fun c => negb (is_newline c)) s).

(** The bits after the last byte are not looked at: the encoding is not strict. *)
Fixpoint quanta (vs : list Z) : option (list ascii) :=
  match vs with
  | p :: q :: r :: s :: rest =>
      let v := p * 262144 + q * 4096 + r * 64 + s in
      tl ← quanta rest; Some (of_byte (v / 65536) :: of_byte (v / 256 mod 256) :: of_byte (v mod 256) :: tl)
  | [p; q; r] => let v := p * 262144 + q * 4096 + r * 64 in Some [of_byte (v / 65536); of_byte (v / 256 mod 256)]
  | [p; q] => let v := p * 262144 + q * 4096 in Some [of_byte (v / 65536)]
  | [_] => None
  | [] => Some []
  end.

Definition EncodeToString (s : string) : string := String.string_of_list_ascii (encode (String.list_ascii_of_string s)).
Definition DecodeString (s : string) : result string :=
  match values (String.list_ascii_of_string s) with
  | Some vs => match quanta vs with Some bs => Ok (String.string_of_list_ascii bs) | None => Err (ErrMsg "illegal base64 data") end
  | None => Err (ErrMsg "illegal base64 data")
  end.

(** ** Decoding undoes encoding *)

Lemma b64_byte c : 0 <= byte c < 256.
Proof. unfold byte. pose proof (nat_ascii_bounded c). lia. Qed.

Lemma b64_of_byte c : of_byte (byte c) = c.
Proof. unfold of_byte, byte. by rewrite Nat2Z.id, ascii_nat_embedding. Qed.

Lemma b64_letter n : 0 <= n < 64 -> value (letter n) = Some n /\ is_newline (letter n) = false.
Proof.
  intros Hn. assert (forallb (fun k => bool_decide (value (letter (Z.of_nat k)) = Some (Z.of_nat k)) && negb (is_newline (letter (Z.of_nat k)))) (seq 0 64) = true) as F
    by (vm_compute; reflexivity).
  rewrite forallb_forall in F. specialize (F (Z.to_nat n)). rewrite Z2Nat.id in F by lia.
  destruct (andb_prop _ _ (F ltac:(apply in_seq; lia))) as [F1 F2]. apply bool_decide_eq_true in F1. by apply negb_true_iff in F2.
Qed.

(** The six-bit values of the letters written. *)
Fixpoint sextets (s : list ascii) : list Z :=
  match s with
  | a :: b :: c :: rest =>
      let v := byte a * 65536 + byte b * 256 + byte c in v / 262144 :: v / 4096 mod 64 :: v / 64 mod 64 :: v mod 64 :: sextets rest
  | [a; b] => let v := byte a * 65536 + byte b * 256 in [v / 262144; v / 4096 mod 64; v / 64 mod 64]
  | [a] => let v := byte a * 65536 in [v / 262144; v / 4096 mod 64]
  | [] => []
  end.

(** Three bytes at a time. *)
Lemma b64_ind (P : list ascii -> Prop) : P [] -> (forall a, P [a]) -> (forall a b, P [a; b]) ->
  (forall a b c s, P s -> P (a :: b :: c :: s)) -> forall s, P s.
Proof.
  intros H0 H1 H2 H3. fix IH 1. intros [|a [|b [|c s]]]; [exact H0 | apply H1 | apply H2 | apply H3, IH].
Qed.

Lemma b64_encode s : encode s = letter <$> sextets s.
Proof. induction s as [|a|a b|a b c s IH] using b64_ind; simpl; [done.. |]. by rewrite IH. Qed.

Lemma b64_sextets s : Forall (fun v => 0 <= v < 64) (sextets s).
Proof.
  assert (forall v, 0 <= v < 16777216 -> 0 <= v / 262144 < 64) as Hd.
  { intros v Hv. split; [apply Z.div_pos; lia | apply Z.div_lt_upper_bound; lia]. }
  assert (forall v, 0 <= v mod 64 < 64) as Hm by (intros v; apply Z.mod_pos_bound; lia).
  induction s as [|a|a b|a b c s IH] using b64_ind; cbn [sextets]; repeat constructor; try done; try apply Hm; try apply Hd;
    pose proof (b64_byte a); try pose proof (b64_byte b); try pose proof (b64_byte c); lia.
Qed.

Lemma b64_values vs : Forall (fun v => 0 <= v < 64) vs -> values (letter <$> vs) = Some vs.
Proof.
  unfold values. induction 1 as [|v vs Hv _ IH]; [done |]. rewrite fmap_cons. destruct (b64_letter v Hv) as [E1 E2].
  cbn [List.filter]. rewrite E2. cbn [negb mapM]. rewrite E1. simpl. by rewrite IH.
Qed.

Lemma b64_join3 a b c : 0 <= a < 256 -> 0 <= b < 256 -> 0 <= c < 256 ->
  let v := a * 65536 + b * 256 + c in
  let u := v / 262144 * 262144 + v / 4096 mod 64 * 4096 + v / 64 mod 64 * 64 + v mod 64 in
  u / 65536 = a /\ u / 256 mod 256 = b /\ u mod 256 = c.
Proof.
  intros Ha Hb Hc v u. assert (u = v) as E.
  { unfold u. clearbody v. clear u. replace (v / 4096) with (v / 64 / 64) by (by rewrite Z.div_div by lia).
    replace (v / 262144) with (v / 64 / 64 / 64) by (by rewrite !Z.div_div by lia). pose proof (Z.div_mod v 64 ltac:(lia)).
    pose proof (Z.div_mod (v / 64) 64 ltac:(lia)). pose proof (Z.div_mod (v / 64 / 64) 64 ltac:(lia)). lia. }
  rewrite E. unfold v. replace (a * 65536 + b * 256 + c) with (c + (b + a * 256) * 256) by lia. split_and!.
  - replace 65536 with (256 * 256) by lia. rewrite <- Z.div_div, Z.div_add, (Z.div_small c), Z.add_0_l, Z.div_add, Z.div_small by lia. lia.
  - rewrite Z.div_add, (Z.div_small c), Z.add_0_l, Z.mod_add by lia. by apply Z.mod_small.
  - rewrite Z.mod_add by lia. by apply Z.mod_small.
Qed.

Lemma b64_quanta s : quanta (sextets s) = Some s.
Proof.
  induction s as [|a|a b|a b c s IH] using b64_ind; [done | | |]; cbn [sextets quanta].
  - pose proof (b64_join3 (byte a) 0 0 (b64_byte a) ltac:(lia) ltac:(lia)) as (E1 & _ & _).
    rewrite !Z.add_0_r in E1. replace (byte a * 65536 + 0 * 256) with (byte a * 65536) in E1 by lia.
    replace (byte a * 65536 / 64 mod 64) with 0 in E1; [replace (byte a * 65536 mod 64) with 0 in E1 |].
    + rewrite Z.mul_0_l, !Z.add_0_r in E1. by rewrite E1, b64_of_byte.
    + replace (byte a * 65536) with (byte a * 1024 * 64) by lia. by rewrite Z.mod_mul.
    + replace (byte a * 65536) with (byte a * 16 * 64 * 64) by lia. by rewrite Z.div_mul, Z.mod_mul.
  - pose proof (b64_join3 (byte a) (byte b) 0 (b64_byte a) (b64_byte b) ltac:(lia)) as (E1 & E2 & _).
    rewrite Z.add_0_r in E1, E2. replace ((byte a * 65536 + byte b * 256) mod 64) with 0 in E1, E2.
    + rewrite Z.add_0_r in E1, E2. by rewrite E1, E2, !b64_of_byte.
    + replace (byte a * 65536 + byte b * 256) with ((byte a * 1024 + byte b * 4) * 64) by lia. by rewrite Z.mod_mul.
  - destruct (b64_join3 (byte a) (byte b) (byte c) (b64_byte a) (b64_byte b) (b64_byte c)) as (E1 & E2 & E3).
    rewrite IH. simpl. by rewrite E1, E2, E3, !b64_of_byte.
Qed.

Lemma DecodeString_EncodeToString s : DecodeString (EncodeToString s) = Ok s.
Proof.
  unfold DecodeString, EncodeToString. rewrite String.list_ascii_of_string_of_list_ascii, b64_encode, b64_values, b64_quanta by apply b64_sextets.
  by rewrite String.string_of_list_ascii_of_string.
Qed.
