(* ===== verification/HttpDecisions.v ===== *)
(** * strategy/http: reading and writing trading decisions

    [decision_store.go] and the handler of /v1/trading-decisions: the opaque
    cursor, one page of decisions, newest first, and the query parameters.
    The table is the list of its rows; SQL's WHERE, ORDER BY and LIMIT are
    [filter], a merge sort and [take].  The text of JSON values and [time.Parse]
    are parameters. *)

From S2P Require Import Prelude GoTime Decimal RefDecimal Market Json Base64 GoStrings.
From Stdlib Require Import Ascii DecimalString.

(** ** Numbers and queries *)

(** [strconv.Atoi] *)
Definition Atoi (s : string) : result Z :=
  let digits := match s with String "+" rest | String "-" rest => rest | _ => s end in
  match digits with
  | EmptyString => Err (ErrMsg "invalid syntax")
  | _ =>
      match NilEmpty.uint_of_string digits with
      | Some u =>
          let n := Z.of_N (N.of_uint u) in
          let z := match s with String "-" _ => - n | _ => n end in
          if (int64_min <=? z) && (z <=? int64_max) then Ok z else Err (ErrMsg "value out of range")
      | None => Err (ErrMsg "invalid syntax")
      end
  end.

(** [r.URL.Query().Get]: an absent parameter is empty. *)
Definition Query := string -> string.

Definition defaultPaginationLimit : Z := 10.
Definition maxPaginationLimit : Z := 50.
Definition defaultTradingDecisionsLimit : Z := 50.
Definition maxTradingDecisionsLimit : Z := 200.

(** [parsePagination] *)
Definition positive_param (raw : string) (dflt : Z) (f : Z -> Z) : Z :=
  match Atoi raw with Ok n => if 0 <? n then f n else dflt | Err _ => dflt end.
Definition parsePagination (q : Query) : Z * Z :=
  (positive_param (q "page"%string) 1 (fun n => n),
   positive_param (q "limit"%string) defaultPaginationLimit (fun n => Z.min n maxPaginationLimit)).

(** [ParseDecisionLimit] *)
Definition ParseDecisionLimit (q : Query) : Z :=
  positive_param (q "limit"%string) defaultTradingDecisionsLimit (fun n => Z.min n maxTradingDecisionsLimit).

(** [parseStatusFilter] *)
Definition parseStatusFilter (q : Query) : list string :=
  if bool_decide (q "status"%string = ""%string) then []
  else List.filter (fun s => negb (bool_decide (s = ""%string))) (TrimSpace <$> Split ","%char (q "status"%string)).

Section Dates.
(** [time.Parse] with the two layouts. *)
Context (parse_rfc3339 parse_date : string -> option Time).

(** [parseDateFilter]: what does not parse is no bound. *)
Definition lenient_date (raw : string) : Time :=
  if bool_decide (raw = ""%string) then zero_time
  else match parse_rfc3339 raw with Some t => t | None => match parse_date raw with Some t => t | None => zero_time end end.
Definition parseDateFilter (q : Query) : Time * Time := (lenient_date (q "from"%string), lenient_date (q "to"%string)).

(** [ParseDecisionsDateFilter]: what does not parse is an error. *)
Definition strict_date (raw : string) : result (option Time) :=
  if bool_decide (raw = ""%string) then Ok None
  else match parse_rfc3339 raw with
       | Some t => Ok (Some (time_utc t))
       | None => match parse_date raw with Some t => Ok (Some (time_utc t)) | None => Err (ErrMsg "invalid date") end
       end.
Definition ParseDecisionsDateFilter (q : Query) : result (option Time * option Time) :=
  from ← wrap_err "from" (strict_date (q "from"%string));
  to ← wrap_err "to" (strict_date (q "to"%string));
  Ok (from, to).
End Dates.

(** ** The cursor *)

Record Cursor := MkCursor { c_Time : Time; c_Seq : Z; c_Version : Z }.
Definition cursorVersion : Z := 1.

(** [Time.UnixNano] and [time.Unix(0, n).UTC()]: the count from 1970 in an
    int64. *)
Definition unix_epoch : Z := 62135596800 * Second.
Definition UnixNano (t : Time) : Z := wrap64 (t_ns t - unix_epoch).
Definition from_unix_nano (n : Z) : Time := MkTime (n + unix_epoch) 0.

Section Codec.
Context `{JsonText}.

(** [cursorPayload] and [Cursor.Encode] *)
Definition payload (c : Cursor) : json :=
  JObject [("v", JNumber (format_int (c_Version c))); ("t", JNumber (format_int (UnixNano (c_Time c)))); ("s", JNumber (format_int (c_Seq c)))]%string.
Definition Encode (c : Cursor) : string := EncodeToString (marshal (payload c)).

Definition DecodeCursor (raw : string) : result Cursor :=
  if bool_decide (raw = ""%string) then Err (ErrMsg "cursor is empty")
  else
    b ← wrap_err "decode cursor" (DecodeString raw);
    match parse_text b with
    | None => Err (ErrMsg "parse cursor")
    | Some j =>
        v ← wrap_err "parse cursor" (unmarshal_int 0 255 "v" j);
        t ← wrap_err "parse cursor" (unmarshal_int int64_min int64_max "t" j);
        s ← wrap_err "parse cursor" (unmarshal_int int64_min int64_max "s" j);
        if negb (v =? cursorVersion) then Err (ErrMsg "unsupported cursor version")
        else Ok (MkCursor (from_unix_nano t) s v)
    end.

(** [ParseDecisionCursor] *)
Definition ParseDecisionCursor (q : Query) : result (option Cursor) :=
  if bool_decide (q "cursor"%string = ""%string) then Ok None else result_map Some (DecodeCursor (q "cursor"%string)).

(** A time the cursor can carry. *)
Definition carried (t : Time) : Prop := in_int64 (t_ns t - unix_epoch) /\ t_off t = 0.

Lemma dc_payload_fields c : 0 <= c_Version c <= 255 -> in_int64 (c_Seq c) ->
  unmarshal_int 0 255 "v" (payload c) = Ok (c_Version c) /\
  unmarshal_int int64_min int64_max "t" (payload c) = Ok (UnixNano (c_Time c)) /\
  unmarshal_int int64_min int64_max "s" (payload c) = Ok (c_Seq c).
Proof.
  intros Hv Hs. pose proof (wrap64_range (t_ns (c_Time c) - unix_epoch)) as Ht.
  unfold unmarshal_int, unmarshal_field, payload. cbn [foldl fst snd].
  repeat match goal with |- context [same_name ?a ?b] => let x := eval vm_compute in (same_name a b) in change (same_name a b) with x end.
  split_and!; by rewrite set_int_format.
Qed.

(** What the server hands out it reads back. *)
Lemma dc_roundtrip c : c_Version c = cursorVersion -> carried (c_Time c) -> in_int64 (c_Seq c) ->
  Encode c <> ""%string /\ DecodeCursor (Encode c) = Ok c.
Proof.
  intros Hv [Ht Ho] Hs. assert (Encode c <> ""%string) as Hne.
  { unfold Encode, EncodeToString. pose proof (marshal_text (payload c)) as Hm. destruct (marshal (payload c)) as [|x [|y [|z t]]]; done. }
  split; [exact Hne |]. destruct (dc_payload_fields c) as (E1 & E2 & E3); [rewrite Hv; unfold cursorVersion; lia | done |].
  unfold DecodeCursor. rewrite bool_decide_eq_false_2 by done. unfold Encode in *. rewrite DecodeString_EncodeToString. simpl.
  rewrite parse_marshal, E1, E2, E3. simpl. rewrite Hv. simpl. destruct c as [[ns off] s v]. simpl in *. subst. do 2 f_equal.
  unfold from_unix_nano, UnixNano. simpl. rewrite wrap64_small by done. f_equal. lia.
Qed.
End Codec.

(** ** The store *)

Section Store.
Context {D : DecimalOps} `{JsonText}.

Definition row_key (d : DecisionRow) : Z * Z := (t_ns (dr_CreatedAt d), dr_Seq d).

(** [SaveDecision]: the primary key is (run_id, seq); a zero time becomes the
    present. *)
Definition stored (now : Time) (d : DecisionRow) : DecisionRow :=
  Build_DecisionRow (D := D) (dr_RunID d) (dr_Seq d) (dr_StrategyType d) (dr_OrderBookID d) (dr_Asset d) (dr_Side d) (dr_Signal d)
    (dr_Quantity d) (dr_Price d) (dr_Leverage d) (dr_InverseLeverage d) (dr_FromGlobalPosition d) (dr_Kind d) (dr_Reason d)
    (time_utc (if time_is_zero (dr_CreatedAt d) then now else dr_CreatedAt d)) (dr_ClientOrderID d).
Definition same_decision (a b : DecisionRow) : bool := bool_decide (dr_RunID a = dr_RunID b) && (dr_Seq a =? dr_Seq b).
Definition SaveDecision (ok : bool) (now : Time) (d : DecisionRow) (table : list DecisionRow) : result unit * list DecisionRow :=
  if ok && negb (existsb (same_decision d) table) then (Ok tt, table ++ [stored now d]) else (Err (ErrMsg "save strategy decision"), table).

(** [MaxSeq]: zero without rows. *)
Definition MaxSeq (runID : string) (table : list DecisionRow) : Z :=
  match dr_Seq <$> List.filter (fun d => bool_decide (dr_RunID d = runID)) table with
  | [] => 0
  | s :: rest => foldl Z.max s rest
  end.

Record ListDecisionsParams := MkParams {
  p_RunID : string; p_From : option Time; p_To : option Time; p_AfterTime : option Time; p_AfterSeq : option Z; p_Limit : Z }.

(** The WHERE clause. *)
Definition in_range (p : ListDecisionsParams) (d : DecisionRow) : bool :=
  bool_decide (dr_RunID d = p_RunID p) &&
  match p_From p with Some t => t_ns t <=? t_ns (dr_CreatedAt d) | None => true end &&
  match p_To p with Some t => t_ns (dr_CreatedAt d) <=? t_ns t | None => true end.
Definition after_cursor (p : ListDecisionsParams) (d : DecisionRow) : bool :=
  match p_AfterTime p, p_AfterSeq p with
  | Some t, Some s => (t_ns (dr_CreatedAt d) <? t_ns t) || (t_ns (dr_CreatedAt d) =? t_ns t) && (dr_Seq d <? s)
  | Some t, None => t_ns (dr_CreatedAt d) <? t_ns t
  | None, _ => true
  end.

(** ORDER BY created_at DESC, seq DESC *)
Definition newer (a b : Z * Z) : Prop := b.1 < a.1 \/ b.1 = a.1 /\ b.2 < a.2.
Definition newer_eq (a b : DecisionRow) : Prop := newer (row_key a) (row_key b) \/ row_key a = row_key b.
#[export] Instance newer_dec : RelDecision newer.
Proof. intros a b. unfold newer. apply _. Defined.
#[export] Instance newer_eq_dec : RelDecision newer_eq.
Proof. intros a b. unfold newer_eq. apply _. Defined.

Definition newest_first (l : list DecisionRow) : list DecisionRow := merge_sort newer_eq l.

(** [ListDecisions]; which of the conditions is applied before sorting does
    not show. *)
Definition ListDecisions (ok : bool) (p : ListDecisionsParams) (table : list DecisionRow) : result (list DecisionRow * option Cursor) :=
  if p_Limit p <=? 0 then Err (ErrMsg "list decisions: limit must be positive")
  else if xorb (bool_decide (p_AfterTime p = None)) (bool_decide (p_AfterSeq p = None)) then
    Err (ErrMsg "list decisions: after_time and after_seq must be set together")
  else if negb ok then Err (ErrMsg "list strategy decisions")
  else
    let out := take (Z.to_nat (wrap64 (p_Limit p + 1)))
                 (List.filter (after_cursor p) (newest_first (List.filter (in_range p) table))) in
    if p_Limit p <? Z.of_nat (length out) then
      let page := take (Z.to_nat (p_Limit p)) out in
      match last page with
      | Some l => Ok (page, Some (MkCursor (dr_CreatedAt l) (dr_Seq l) cursorVersion))
      | None => Ok (page, None)
      end
    else Ok (out, None).

(** *** The endpoint *)

Inductive Reply := ReplyError (code : Z) (message : string) | ReplyPage (items : list DecisionRow) (next_cursor : string).

(** [handleTradingDecisions] after the path: [user], [exists_] and [ok] are what
    resolving the caller, looking the run up and the query give. *)
Definition getRunDecisions (parse_rfc3339 parse_date : string -> option Time) (q : Query)
    (user : result string) (configured : bool) (exists_ : string -> result bool) (ok : bool) (runID : string) (table : list DecisionRow) : Reply :=
  match user with
  | Err _ => ReplyError 500 "resolve dora user"
  | Ok user =>
      if negb configured then ReplyError 503 "trading decisions endpoint is not configured"
      else match exists_ user with
      | Err _ => ReplyError 500 "check run"
      | Ok false => ReplyError 404 "run not found"
      | Ok true =>
          match ParseDecisionsDateFilter parse_rfc3339 parse_date q with
          | Err _ => ReplyError 400 "date"
          | Ok (from, to) =>
              match ParseDecisionCursor q with
              | Err _ => ReplyError 400 "cursor"
              | Ok cursor =>
                  match ListDecisions ok (MkParams runID from to (c_Time <$> cursor) (c_Seq <$> cursor) (ParseDecisionLimit q)) table with
                  | Err _ => ReplyError 500 "list decisions"
                  | Ok (items, next) => ReplyPage items (match next with Some c => Encode c | None => "" end)
                  end
              end
          end
      end
  end.

(** *** A client that follows next_cursor *)

Definition with_cursor (q : Query) (cursor : string) : Query := fun k => if bool_decide (k = "cursor"%string) then cursor else q k.

(** The pages until one comes without a cursor. *)
Fixpoint walk (fuel : nat) (fetch : Query -> Reply) (q : Query) (cursor : string) : option (list (list DecisionRow)) :=
  match fuel with
  | O => None
  | S n =>
      match fetch (with_cursor q cursor) with
      | ReplyError _ _ => None
      | ReplyPage items next =>
          if bool_decide (next = ""%string) then Some [items] else pages ← walk n fetch q next; Some (items :: pages)
      end
  end.

Lemma dc_limit q : 1 <= ParseDecisionLimit q <= maxTradingDecisionsLimit.
Proof.
  unfold ParseDecisionLimit, positive_param, maxTradingDecisionsLimit, defaultTradingDecisionsLimit.
  destruct (Atoi _) as [n|]; [| lia]. destruct (0 <? n) eqn:E; [| lia]. apply Z.ltb_lt in E. lia.
Qed.

#[export] Instance newer_eq_trans : Transitive newer_eq.
Proof.
  intros a b c. unfold newer_eq, newer. destruct (row_key a) as [a1 a2], (row_key b) as [b1 b2], (row_key c) as [c1 c2]. simpl.
  intros [H1|[= -> ->]] [H2|[= -> ->]]; [left; lia | by left | by left | by right].
Qed.
#[export] Instance newer_eq_total : Total newer_eq.
Proof.
  intros a b. unfold newer_eq, newer. destruct (row_key a) as [a1 a2], (row_key b) as [b1 b2]. simpl.
  destruct (Z.lt_trichotomy a1 b1) as [?|[->|?]]; [right; left; lia | | left; left; lia].
  destruct (Z.lt_trichotomy a2 b2) as [?|[->|?]]; [right; left; lia | left; by right | left; left; lia].
Qed.

Lemma dc_newer_irrefl k : ~ newer k k.
Proof. unfold newer. lia. Qed.
Lemma dc_newer_asym a b : newer a b -> ~ newer b a.
Proof. unfold newer. lia. Qed.

(** *** The pages of one query *)
Section Pages.
Context (p0 : ListDecisionsParams) (table : list DecisionRow).
Notation rows := (newest_first (List.filter (in_range p0) table)).
(** (run_id, seq) is the primary key; the database keeps UTC times the
    cursor can carry. *)
Context (Hkey : NoDup ((fun d => (dr_RunID d, dr_Seq d)) <$> table)).
Context (Htime : Forall (fun d => carried (dr_CreatedAt d) /\ in_int64 (dr_Seq d)) table).

Lemma dc_rows_in d : d ∈ rows <-> in_range p0 d = true /\ d ∈ table.
Proof. unfold newest_first. rewrite merge_sort_Permutation. rewrite list_elem_of_In, filter_In, <- list_elem_of_In. tauto. Qed.

Lemma dc_rows_seq : NoDup (dr_Seq <$> rows).
Proof.
  unfold newest_first. rewrite merge_sort_Permutation.
  clear Htime. induction table as [|d l IH]; [constructor |]. rewrite fmap_cons in Hkey. apply NoDup_cons in Hkey as [Hd Hl].
  specialize (IH Hl). cbn [List.filter]. destruct (in_range p0 d) eqn:E; [| done]. rewrite fmap_cons. apply NoDup_cons. split; [| done].
  intros (x & Hx & Hin)%list_elem_of_fmap. apply Hd. apply list_elem_of_In, filter_In in Hin as [Hin Hr].
  apply list_elem_of_fmap. exists x. split; [| by apply list_elem_of_In]. f_equal; [| done].
  unfold in_range in E, Hr. apply andb_prop in E as [E _], Hr as [Hr _]. apply andb_prop in E as [E _], Hr as [Hr _].
  apply bool_decide_eq_true in E, Hr. congruence.
Qed.

Lemma dc_rows_sorted : StronglySorted (fun a b => newer (row_key a) (row_key b)) rows.
Proof.
  pose proof dc_rows_seq as Hnd. pose proof (StronglySorted_merge_sort newer_eq (List.filter (in_range p0) table)) as Hs.
  fold (newest_first (List.filter (in_range p0) table)) in Hs. revert Hnd Hs. generalize rows.
  intros l Hnd. induction 1 as [|d l Hs IH Hall]; [constructor |]. rewrite fmap_cons in Hnd.
  apply NoDup_cons in Hnd as [Hd Hnd]. constructor; [by apply IH |].
  apply Forall_forall. intros x Hx. destruct (proj1 (Forall_forall _ _) Hall x Hx) as [?|E]; [done |].
  exfalso. apply Hd. apply list_elem_of_fmap. exists x. split; [by injection E | done].
Qed.

Definition at_cursor (d : option DecisionRow) : ListDecisionsParams :=
  MkParams (p_RunID p0) (p_From p0) (p_To p0) (dr_CreatedAt <$> d) (dr_Seq <$> d) (p_Limit p0).

Lemma dc_filter_all (f : DecisionRow -> bool) l : Forall (fun d => f d = true) l -> List.filter f l = l.
Proof. induction 1 as [|d l Hd _ IH]; simpl; [done |]. by rewrite Hd, IH. Qed.
Lemma dc_filter_none (f : DecisionRow -> bool) l : Forall (fun d => f d = false) l -> List.filter f l = [].
Proof. induction 1 as [|d l Hd _ IH]; simpl; [done |]. by rewrite Hd. Qed.

Lemma dc_after d x : after_cursor (at_cursor (Some d)) x = bool_decide (newer (row_key d) (row_key x)).
Proof.
  unfold after_cursor, at_cursor, newer, row_key. simpl. symmetry.
  destruct (Z.ltb_spec (t_ns (dr_CreatedAt x)) (t_ns (dr_CreatedAt d))); simpl; [apply bool_decide_eq_true; lia |].
  destruct (Z.eqb_spec (t_ns (dr_CreatedAt x)) (t_ns (dr_CreatedAt d))); simpl; [| apply bool_decide_eq_false; lia].
  destruct (Z.ltb_spec (dr_Seq x) (dr_Seq d)); [apply bool_decide_eq_true; lia | apply bool_decide_eq_false; lia].
Qed.

(** After the last row sent come the rows not sent. *)
Lemma dc_rest sent rest : rows = sent ++ rest -> List.filter (after_cursor (at_cursor (last sent))) rows = rest.
Proof.
  intros Hr. pose proof dc_rows_sorted as Hs. rewrite Hr in *. destruct sent as [|d sent _] using rev_ind.
  { apply dc_filter_all. by apply Forall_forall. }
  rewrite last_snoc, List.filter_app. apply StronglySorted_app in Hs as (Hx & Hs1 & Hs2).
  rewrite (dc_filter_none _ (sent ++ [d])), dc_filter_all; [done | |].
  - apply Forall_forall. intros x Hin. rewrite dc_after. apply bool_decide_eq_true, (Hx d x); [set_solver | done].
  - apply StronglySorted_app in Hs1 as (Hy & _). apply Forall_app. split.
    + apply Forall_forall. intros x Hin. rewrite dc_after. apply bool_decide_eq_false, dc_newer_asym, (Hy x d); [done | set_solver].
    + constructor; [| done]. rewrite dc_after. apply bool_decide_eq_false, dc_newer_irrefl.
Qed.

(** One page after [sent]. *)
Lemma dc_list sent rest : 1 <= p_Limit p0 <= maxTradingDecisionsLimit -> rows = sent ++ rest ->
  ListDecisions true (at_cursor (last sent)) table = Ok (
    if p_Limit p0 <? Z.of_nat (length rest)
    then (take (Z.to_nat (p_Limit p0)) rest,
          (fun d => MkCursor (dr_CreatedAt d) (dr_Seq d) cursorVersion) <$> last (take (Z.to_nat (p_Limit p0)) rest))
    else (rest, None)).
Proof.
  unfold maxTradingDecisionsLimit. intros Hl Hr. unfold ListDecisions. cbn [p_Limit at_cursor].
  destruct (Z.leb_spec (p_Limit p0) 0); [lia |].
  replace (xorb _ _) with false by (unfold at_cursor; simpl; by destruct (last sent)). cbn [negb].
  assert (List.filter (in_range (at_cursor (last sent))) table = List.filter (in_range p0) table) as -> by done.
  rewrite (dc_rest sent rest Hr), wrap64_small by (unfold in_int64, int64_min, int64_max; lia).
  rewrite length_take. destruct (Z.ltb_spec (p_Limit p0) (Z.of_nat (length rest))) as [Hlt|Hge].
  - rewrite (proj2 (Z.ltb_lt _ _)) by lia. rewrite take_take. replace (_ `min` _)%nat with (Z.to_nat (p_Limit p0)) by lia.
    by destruct (last (take _ rest)).
  - rewrite (proj2 (Z.ltb_ge _ _)) by lia. by rewrite take_ge by lia.
Qed.
End Pages.

Lemma dc_concat (f : Query -> Reply) (p : ListDecisionsParams) table q : NoDup ((fun d => (dr_RunID d, dr_Seq d)) <$> table) ->
  Forall (fun d => carried (dr_CreatedAt d) /\ in_int64 (dr_Seq d)) table -> 1 <= p_Limit p <= maxTradingDecisionsLimit ->
  (forall cur c, ParseDecisionCursor (with_cursor q cur) = Ok c ->
     f (with_cursor q cur) = match ListDecisions true (MkParams (p_RunID p) (p_From p) (p_To p) (c_Time <$> c) (c_Seq <$> c) (p_Limit p)) table with
                             | Ok (items, next) => ReplyPage items (match next with Some c => Encode c | None => "" end)
                             | Err _ => ReplyError 500 "list decisions"
                             end) ->
  forall fuel sent rest cur, newest_first (List.filter (in_range p) table) = sent ++ rest ->
    cur = match last sent with Some d => Encode (MkCursor (dr_CreatedAt d) (dr_Seq d) cursorVersion) | None => ""%string end ->
    (length rest < fuel)%nat ->
    exists pages, walk fuel f q cur = Some pages /\ concat pages = rest /\
      Forall (fun page => Z.of_nat (length page) <= p_Limit p) pages /\
      Forall (fun page => Z.of_nat (length page) = p_Limit p) (removelast pages).
Proof.
  intros Hkey Htime Hl Hf. induction fuel as [|fuel IH]; intros sent rest cur Hr -> Hn; [lia |].
  assert (forall d, d ∈ sent ++ rest -> carried (dr_CreatedAt d) /\ in_int64 (dr_Seq d)) as Hok.
  { intros d Hd. rewrite <- Hr in Hd. apply dc_rows_in in Hd as [_ Hd]. exact (proj1 (Forall_forall _ _) Htime d Hd). }
  assert (ParseDecisionCursor (with_cursor q (match last sent with Some d => Encode (MkCursor (dr_CreatedAt d) (dr_Seq d) cursorVersion) | None => ""%string end))
    = Ok ((fun d => MkCursor (dr_CreatedAt d) (dr_Seq d) cursorVersion) <$> last sent)) as Hc.
  { unfold ParseDecisionCursor, with_cursor. change (bool_decide ("cursor"%string = "cursor"%string)) with true. cbn iota. destruct (last sent) as [d|] eqn:El; [| done].
    destruct (Hok d) as [H1 H2]; [apply elem_of_app; left; apply last_Some_elem_of; done |].
    destruct (dc_roundtrip (MkCursor (dr_CreatedAt d) (dr_Seq d) cursorVersion)) as [Hne Hd]; [done | done | done |].
    by rewrite bool_decide_eq_false_2, Hd by done. }
  cbn [walk]. rewrite (Hf _ _ Hc).
  replace (MkParams _ _ _ _ _ _) with (at_cursor p (last sent)) by (unfold at_cursor; by destruct (last sent)).
  rewrite (dc_list p table Hkey Htime sent rest Hl Hr). destruct (Z.ltb_spec (p_Limit p) (Z.of_nat (length rest))) as [Hlt|Hge].
  - set (page := take (Z.to_nat (p_Limit p)) rest). assert (length page = Z.to_nat (p_Limit p)) as Hp by (unfold page; rewrite length_take; lia).
    destruct (last page) as [d|] eqn:El; [| apply last_None in El; rewrite El in Hp; simpl in Hp; lia]. cbn [fmap option_fmap option_map].
    assert (d ∈ page) as Hd by by apply last_Some_elem_of.
    destruct (Hok d) as [H1 H2]; [apply elem_of_app; right; apply elem_of_take in Hd as (i & Hi & _); by eapply list_elem_of_lookup_2 |].
    destruct (dc_roundtrip (MkCursor (dr_CreatedAt d) (dr_Seq d) cursorVersion)) as [Hne _]; [done | done | done |].
    rewrite bool_decide_eq_false_2 by done.
    destruct (IH (sent ++ page) (drop (Z.to_nat (p_Limit p)) rest) (Encode (MkCursor (dr_CreatedAt d) (dr_Seq d) cursorVersion))) as (pages & -> & Hcat & Ha & Hb).
    + rewrite <- app_assoc. unfold page. by rewrite take_drop.
    + rewrite last_app. by rewrite El.
    + rewrite length_drop. lia.
    + exists (page :: pages). simpl. split_and!; [done | rewrite Hcat; unfold page; apply take_drop | constructor; [lia | done] |].
      destruct pages; [constructor | constructor; [lia | done]].
  - simpl. exists [rest]. split_and!; [done | by simpl; rewrite app_nil_r | constructor; [lia | constructor] | constructor].
Qed.

(** C26: a client that owns the run, starts without a cursor and follows
    next_cursor receives, whatever the size of the pages, every decision of
    the run in its range of dates exactly once, newest first, in pages of at
    most the limit of which only the last can be shorter; the number of rows
    plus one bounds the number of requests. *)
Theorem decisions_walk_complete parse_rfc3339 parse_date q user runID from to table :
  NoDup ((fun d => (dr_RunID d, dr_Seq d)) <$> table) ->
  Forall (fun d => carried (dr_CreatedAt d) /\ in_int64 (dr_Seq d)) table ->
  ParseDecisionsDateFilter parse_rfc3339 parse_date q = Ok (from, to) ->
  let fetch q := getRunDecisions parse_rfc3339 parse_date q (Ok user) true (fun _ => Ok true) true runID table in
  let p := MkParams runID from to None None (ParseDecisionLimit q) in
  exists pages, walk (S (length table)) fetch q "" = Some pages /\
    concat pages = newest_first (List.filter (in_range p) table) /\
    StronglySorted (fun a b => newer (row_key a) (row_key b)) (concat pages) /\
    (forall d, d ∈ concat pages <-> in_range p d = true /\ d ∈ table) /\
    Forall (fun page => Z.of_nat (length page) <= ParseDecisionLimit q) pages /\
    Forall (fun page => Z.of_nat (length page) = ParseDecisionLimit q) (removelast pages).
Proof.
  intros Hkey Htime Hd fetch p.
  assert (length (newest_first (List.filter (in_range p) table)) <= length table)%nat as Hlen.
  { unfold newest_first. rewrite merge_sort_Permutation. apply filter_length_le. }
  destruct (dc_concat fetch p table q Hkey Htime (dc_limit q)) with (fuel := S (length table)) (sent := @nil DecisionRow)
    (rest := newest_first (List.filter (in_range p) table)) (cur := ""%string) as (pages & Hw & Hcat & Ha & Hb); [| done | done | lia |].
  - intros cur c Hc. unfold fetch, getRunDecisions. cbn [negb].
    assert (ParseDecisionsDateFilter parse_rfc3339 parse_date (with_cursor q cur) = Ok (from, to)) as -> by exact Hd.
    rewrite Hc. assert (ParseDecisionLimit (with_cursor q cur) = ParseDecisionLimit q) as -> by done. done.
  - exists pages. rewrite Hcat. split_and!; [done | done | by apply dc_rows_sorted | intros d; apply dc_rows_in | done | done].
Qed.
End Store.

(** ** A concrete client *)

Module DecisionsDemo.
Import BitText.

Definition at_second (n seq : Z) : DecisionRow (D := RefDec) :=
  Build_DecisionRow (D := RefDec) "r1" seq "momentum" "b1" "asset" "BUY" "long" (RD 1 0) (RD 100 0) (RD 1 0) (RD 1 0) false "open" "" (MkTime (unix_epoch + n * Second) 0) "c".
(** Two decisions share a time. *)
Definition rows : list (DecisionRow (D := RefDec)) := [at_second 5 1; at_second 7 2; at_second 7 3; at_second 9 4; at_second 9 5].
Definition query : Query := fun k => if bool_decide (k = "limit"%string) then "2"%string else ""%string.
Definition fetch (q : Query) : Reply := getRunDecisions (D := RefDec) (fun _ => None) (fun _ => None) q (Ok "ann"%string) true (fun _ => Ok true) true "r1" rows.
End DecisionsDemo.
Import BitText DecisionsDemo.

Lemma decisions_walk_complete_witness :
  NoDup ((fun d => (dr_RunID d, dr_Seq d)) <$> DecisionsDemo.rows) /\
  exists pages, walk 6 DecisionsDemo.fetch DecisionsDemo.query "" = Some pages /\
    concat pages = newest_first (List.filter (in_range (MkParams "r1" None None None None 2)) DecisionsDemo.rows) /\
    (map (map (dr_Seq (D := RefDec))) pages = [[5; 4]; [3; 2]; [1]]).
Proof.
  assert (NoDup ((fun d => (dr_RunID d, dr_Seq d)) <$> DecisionsDemo.rows)) as Hk by (apply (bool_decide_unpack _); vm_compute; exact I).
  assert (Forall (fun d => carried (dr_CreatedAt d) /\ in_int64 (dr_Seq d)) DecisionsDemo.rows) as Ht.
  { apply (bool_decide_unpack _). vm_compute. exact I. }
  split; [exact Hk |].
  destruct (decisions_walk_complete (D := RefDec) (fun _ => None) (fun _ => None) DecisionsDemo.query "ann"%string "r1" None None DecisionsDemo.rows Hk Ht eq_refl)
    as (pages & Hw & Hc & _).
  exists pages. split; [exact Hw |]. split; [exact Hc |].
  assert ((map (map (dr_Seq (D := RefDec)))) <$> walk 6 DecisionsDemo.fetch DecisionsDemo.query "" = Some [[5; 4]; [3; 2]; [1]]) as E by (vm_compute; reflexivity).
  assert (walk 6 DecisionsDemo.fetch DecisionsDemo.query "" = Some pages) as Hw2 by exact Hw. rewrite Hw2 in E. by injection E.
Defined.
