(* ===== verification/BatchingWriter.v ===== *)
(** * strategy/http/batching_writer.go and scoped_writer.go

    The writer that collects the rows of a backtest and hands them to the
    store in batches.  The backtest writes and flushes, a ticker flushes too,
    and [Close] flushes once more; [mu] guards the buffers, [flushMu] is held
    from the draining of the buffers to the answers of the store.

    The two buffers are treated alike, so one is a [lane].  The loop of the
    ticker takes as many ticks as the environment decides when it starts, so
    every finite run of it is a run of the model. *)

From S2P Require Import Prelude Decimal RefDecimal GoTime Stats Concurrency.

(** ** Data *)

(** A buffer and its table in the store.  History: the rows of the flush in
    progress, the batches handed to the store with its answers, every row ever
    appended. *)
Record lane (R : Type) := MkLane {
  l_buf : list R;
  l_table : list R;
  l_flight : list R;
  l_batches : list (bool * list R);
  l_seen : list R;
}.
Arguments MkLane {R} _ _ _ _ _.
Arguments l_buf {R} _.
Arguments l_table {R} _.
Arguments l_flight {R} _.
Arguments l_batches {R} _.
Arguments l_seen {R} _.

Definition new_lane {R} : lane R := MkLane [] [] [] [] [].
Definition append {R} (r : R) (l : lane R) : lane R :=
  MkLane (l_buf l ++ [r]) (l_table l) (l_flight l) (l_batches l) (l_seen l ++ [r]).
Definition drain {R} (l : lane R) : lane R := MkLane [] (l_table l) (l_buf l) (l_batches l) (l_seen l).
(** One COPY: all rows of the batch or none. *)
Definition copy {R} (ok : bool) (rows : list R) (l : lane R) : lane R :=
  MkLane (l_buf l) (if ok then l_table l ++ rows else l_table l) [] (l_batches l ++ [(ok, rows)]) (l_seen l).

Record Choice := MkChoice {
  ch_ok : bool;      (* the store answers *)
  ch_stop : bool;    (* which ready case of the ticker's select is taken *)
  ch_ticks : nat;    (* how many ticks the ticker will take *)
}.

Section Writer.
Context {D : DecimalOps}.

(** [BatchingBacktestWriter] and the rows of its backtest in the store;
    [b_locks] counts the times [flushMu] was taken, [b_result] is what the
    backtest and the closing flush ended with. *)
Record batcher := MkBatcher {
  b_trades : lane TradeRecordInsert;
  b_closed : lane ClosedTradeInsert;
  b_flushing : bool;
  b_stopCh : bool;
  b_doneCh : bool;
  b_started : bool;
  b_locks : nat;
  b_result : option (result unit * result unit);
}.
Notation bprog := (prog batcher Choice).

Definition with_trades t b := MkBatcher t (b_closed b) (b_flushing b) (b_stopCh b) (b_doneCh b) (b_started b) (b_locks b) (b_result b).
Definition with_closed c b := MkBatcher (b_trades b) c (b_flushing b) (b_stopCh b) (b_doneCh b) (b_started b) (b_locks b) (b_result b).
Definition with_flushing f n b := MkBatcher (b_trades b) (b_closed b) f (b_stopCh b) (b_doneCh b) (b_started b) n (b_result b).
Definition with_flags st dn sd b := MkBatcher (b_trades b) (b_closed b) (b_flushing b) st dn sd (b_locks b) (b_result b).
Definition with_result r b := MkBatcher (b_trades b) (b_closed b) (b_flushing b) (b_stopCh b) (b_doneCh b) (b_started b) (b_locks b) (Some r).

Definition NewBatcher : batcher := MkBatcher new_lane new_lane false false false false 0 None.

(** [NewBatchingBacktestWriter]: a size that is not positive becomes 1000. *)
Definition batch_size (size : Z) : Z := if size <=? 0 then 1000 else size.

Section Sized.
Variable batchSize : Z.
Definition full {R} (l : lane R) : bool := batch_size batchSize <=? Z.of_nat (length (l_buf l)).

(** ** Flush *)

Definition lock_flush : bprog unit :=
  Atom (fun _ b => if b_flushing b then None else Some (with_flushing true (S (b_locks b)) b, Ret tt)).
Definition unlock_flush : bprog unit := update (fun b => with_flushing false (b_locks b) b).

Definition take_buffers : bprog (list TradeRecordInsert * list ClosedTradeInsert) :=
  atomic (fun _ b => (with_trades (drain (b_trades b)) (with_closed (drain (b_closed b)) b), (l_buf (b_trades b), l_buf (b_closed b)))).

Definition answer (ok : bool) : result unit := if ok then Ok tt else Err (ErrMsg "write batch").
Definition WriteTradeRecordsBatch (recs : list TradeRecordInsert) : bprog (result unit) :=
  match recs with [] => Ret (Ok tt) | _ => atomic (fun c b => (with_trades (copy (ch_ok c) recs (b_trades b)) b, answer (ch_ok c))) end.
Definition WriteClosedTradesBatch (recs : list ClosedTradeInsert) : bprog (result unit) :=
  match recs with [] => Ret (Ok tt) | _ => atomic (fun c b => (with_closed (copy (ch_ok c) recs (b_closed b)) b, answer (ch_ok c))) end.

Definition first_err (a b : result unit) : result unit := match a with Err e => Err e | Ok _ => b end.

Definition Flush : bprog (result unit) :=
  _ ← lock_flush;
  rows ← take_buffers;
  e1 ← WriteTradeRecordsBatch rows.1;
  e2 ← WriteClosedTradesBatch rows.2;
  _ ← unlock_flush;
  Ret (first_err e1 e2).

Definition WriteTradeRecord (rec : TradeRecordInsert) : bprog (result unit) :=
  shouldFlush ← atomic (fun _ b => let t := append rec (b_trades b) in (with_trades t b, full t));
  if shouldFlush : bool then Flush else Ret (Ok tt).

Definition WriteClosedTrade (trade : ClosedTradeInsert) : bprog (result unit) :=
  shouldFlush ← atomic (fun _ b => let t := append trade (b_closed b) in (with_closed t b, full t));
  if shouldFlush : bool then Flush else Ret (Ok tt).

(** ** The ticker and Close *)

Definition hasWork (b : batcher) : bool :=
  negb (bool_decide (l_buf (b_trades b) = [])) || negb (bool_decide (l_buf (b_closed b) = [])).

(** [false]: [stopCh] was closed. *)
Definition select_tick : bprog bool :=
  Atom (fun c b => if ch_stop c then if b_stopCh b then Some (b, Ret false) else None else Some (b, Ret true)).

Fixpoint ticks (n : nat) : bprog unit :=
  match n with
  | O => await (fun _ b => if b_stopCh b then Some tt else None)
  | S n =>
      tick ← select_tick;
      if tick : bool then
        work ← read hasWork;
        _ ← (if work : bool then Flush else Ret (Ok tt));
        ticks n
      else Ret tt
  end.

Definition runTicker : bprog unit :=
  n ← choose ch_ticks;
  _ ← ticks n;
  update (fun b => with_flags (b_stopCh b) true (b_started b) b).

Definition Close : bprog (result unit) :=
  closed ← read b_stopCh;
  _ ← (if closed : bool then Ret tt
       else
         _ ← update (fun b => with_flags true (b_doneCh b) (b_started b) b);
         await (fun _ b => if b_doneCh b then Some tt else None));
  Flush.

(** ** The backtest of the writer *)

(** [scopedBacktestWriter] *)
Definition scope_trade (id : string) (r : TradeRecordInsert) : TradeRecordInsert :=
  {| tri_BacktestID := id; tri_Time := tri_Time r; tri_BondID := tri_BondID r; tri_Signal := tri_Signal r; tri_Price := tri_Price r;
     tri_Quantity := tri_Quantity r; tri_EntryBalance := tri_EntryBalance r; tri_OrderSize := tri_OrderSize r; tri_Cash := tri_Cash r;
     tri_OpenPosition := tri_OpenPosition r; tri_TradeID := tri_TradeID r; tri_Spread := tri_Spread r; tri_PositionSize := tri_PositionSize r;
     tri_ZScore := tri_ZScore r; tri_CompressionRatio := tri_CompressionRatio r; tri_EntryATR := tri_EntryATR r |}.
Definition scope_closed (id : string) (t : ClosedTradeInsert) : ClosedTradeInsert :=
  {| cti_BacktestID := id; cti_OpenTime := cti_OpenTime t; cti_CloseTime := cti_CloseTime t; cti_BondID := cti_BondID t;
     cti_OpenSignal := cti_OpenSignal t; cti_CloseSignal := cti_CloseSignal t; cti_Quantity := cti_Quantity t;
     cti_EntryPrice := cti_EntryPrice t; cti_ExitPrice := cti_ExitPrice t; cti_PnL := cti_PnL t; cti_EntryBalance := cti_EntryBalance t;
     cti_OpenTradeID := cti_OpenTradeID t; cti_CloseTradeID := cti_CloseTradeID t; cti_EntrySpread := cti_EntrySpread t;
     cti_ExitSpread := cti_ExitSpread t; cti_EntryZScore := cti_EntryZScore t; cti_ExitZScore := cti_ExitZScore t;
     cti_PositionSize := cti_PositionSize t; cti_ExitReason := cti_ExitReason t;
     cti_EntryCompressionRatio := cti_EntryCompressionRatio t; cti_ExitCompressionRatio := cti_ExitCompressionRatio t |}.

Definition scoped_write (id : string) (c : WriterCall) : bprog (result unit) :=
  match c with
  | Stats.WriteTradeRecord rec => WriteTradeRecord (scope_trade id rec)
  | Stats.WriteClosedTrade trade => WriteClosedTrade (scope_closed id trade)
  | Stats.Flush => Flush
  end.

(** The calls of a backtest, up to the first that fails. *)
Fixpoint engine (id : string) (calls : list WriterCall) : bprog (result unit) :=
  match calls with
  | [] => Ret (Ok tt)
  | c :: rest => r ← scoped_write id c; match r with Ok _ => engine id rest | Err e => Ret (Err e) end
  end.

(** [createBacktest] makes the writer, the service runs the backtest, and
    [awaitBacktestResult] closes the writer. *)
Definition start_once : bprog unit :=
  Atom (fun _ b => if b_started b then None else Some (with_flags (b_stopCh b) (b_doneCh b) true b, Ret tt)).
Definition record_backtest (id : string) (calls : list WriterCall) : bprog unit :=
  _ ← start_once;
  _ ← go runTicker;
  r ← engine id calls;
  c ← Close;
  update (with_result (r, c)).

Definition trade_rows (id : string) (calls : list WriterCall) : list TradeRecordInsert :=
  omap (fun c => match c with Stats.WriteTradeRecord r => Some (scope_trade id r) | _ => None end) calls.
Definition closed_rows (id : string) (calls : list WriterCall) : list ClosedTradeInsert :=
  omap (fun c => match c with Stats.WriteClosedTrade t => Some (scope_closed id t) | _ => None end) calls.

Definition serve_one (id : string) (calls : list WriterCall) (_ : unit) : thread batcher Choice unit := MkThread tt (record_backtest id calls).
Definition no_world (e : Empty_set) (b : batcher) : option batcher := match e with end.
Definition writer_run (id : string) (calls : list WriterCall) := sys_run no_world (serve_one id calls).
End Sized.
End Writer.

(** ** Theory *)

Section Theory.
Context {D : DecimalOps} (size : Z) (id : string) (calls : list WriterCall).
Notation N := (batch_size size).
Notation rows_t := (trade_rows id calls).
Notation rows_c := (closed_rows id calls).

Lemma bw_size_pos : 0 < N.
Proof. unfold batch_size. destruct (Z.leb_spec size 0); lia. Qed.

(** *** The invariant *)

Record lane_ok {R} (l : lane R) : Prop := {
  lo_seen : concat (snd <$> l_batches l) ++ l_flight l ++ l_buf l = l_seen l;
  lo_table : concat (snd <$> List.filter fst (l_batches l)) = l_table l;
  lo_batches : Forall (fun p => p.2 <> [] /\ Z.of_nat (length p.2) <= N) (l_batches l);
  lo_flight : Z.of_nat (length (l_flight l)) <= N;
  lo_buf : Z.of_nat (length (l_buf l)) <= N;
}.

Definition settled {R} (rows : list R) (l : lane R) : Prop := l_seen l = rows /\ l_buf l = [] /\ l_flight l = [].

Record Inv (b : batcher) : Prop := {
  iv_t : lane_ok (b_trades b);
  iv_c : lane_ok (b_closed b);
  iv_free : b_flushing b = false -> l_flight (b_trades b) = [] /\ l_flight (b_closed b) = [];
  iv_fresh : b_started b = false -> l_seen (b_trades b) = [] /\ l_seen (b_closed b) = [] /\ b_result b = None;
  iv_result : forall c, b_result b = Some (Ok tt, c) -> settled rows_t (b_trades b) /\ settled rows_c (b_closed b);
}.

Lemma bw_append {R} (r : R) l : lane_ok l -> Z.of_nat (length (l_buf l)) < N -> lane_ok (append r l).
Proof.
  intros [H1 H2 H3 H4 H5] Hn. split; simpl; [rewrite <- H1; by rewrite !app_assoc | done.. |]. rewrite length_app. simpl. lia.
Qed.
Lemma bw_drain {R} (l : lane R) : lane_ok l -> l_flight l = [] -> lane_ok (drain l).
Proof.
  intros [H1 H2 H3 H4 H5] Hf. pose proof bw_size_pos. rewrite Hf in H1. split; simpl; [by rewrite app_nil_r | done.. | simpl; lia].
Qed.
Lemma bw_copy {R} ok (l : lane R) : lane_ok l -> l_flight l <> [] -> lane_ok (copy ok (l_flight l) l).
Proof.
  intros [H1 H2 H3 H4 H5] Hn. pose proof bw_size_pos. split; simpl.
  - rewrite fmap_app, concat_app. simpl. rewrite app_nil_r, <- app_assoc. exact H1.
  - rewrite List.filter_app, fmap_app, concat_app. destruct ok; simpl; rewrite ?app_nil_r; congruence.
  - apply Forall_app. split; [done | by constructor].
  - lia.
  - done.
Qed.

(** *** Tokens: 0 is the right to append, [n > 0] the [n]-th holding of
    [flushMu]. *)

Definition given (b : batcher) : gset nat := (if b_started b then {[0%nat]} else ∅) ∪ list_to_set (seq 1 (b_locks b)).

Definition quiet_lane {R} (l l' : lane R) : Prop :=
  l_seen l' = l_seen l /\ (l_buf l' = l_buf l \/ l_buf l' = []) /\ (l_flight l' = l_flight l \/ l_flight l' = [] \/ l_flight l' = l_buf l).
Definition quiet (b b' : batcher) : Prop :=
  quiet_lane (b_trades b) (b_trades b') /\ quiet_lane (b_closed b) (b_closed b') /\ b_result b' = b_result b /\
  (b_started b = true -> b_started b' = true).
Definition held (b b' : batcher) : Prop :=
  b_flushing b' = true /\ b_locks b' = b_locks b /\
  l_flight (b_trades b') = l_flight (b_trades b) /\ l_flight (b_closed b') = l_flight (b_closed b).

Definition grants (x x' : gset nat) (b b' : batcher) : Prop :=
  (x' = x /\ b_locks b' = b_locks b /\ b_started b' = b_started b) \/
  (x' = {[S (b_locks b)]} ∪ x /\ b_locks b' = S (b_locks b) /\ b_started b' = b_started b) \/
  (x' = {[0%nat]} ∪ x /\ b_locks b' = b_locks b /\ b_started b = false /\ b_started b' = true).
Definition Guar (_ : unit) (x x' : gset nat) (b b' : batcher) : Prop :=
  grants x x' b b' /\ (0%nat ∉ x -> quiet b b') /\ (b_flushing b = true -> b_locks b ∉ x -> held b b').
Definition Rely (y : gset nat) (b b' : batcher) : Prop :=
  (0%nat ∈ y -> quiet b b') /\ (b_flushing b = true -> b_locks b ∈ y -> held b b').

Notation tstable := (tstable Inv Rely).
Notation tsafe := (tsafe Inv Guar Rely tt).

Lemma bw_guar_rely t x x' y b b' : Inv b -> Inv b' -> Guar t x x' b b' -> x ## y -> x ⊆ given b -> y ⊆ given b ->
  Rely y b b' /\ x' ## y /\ x' ⊆ given b' /\ given b ⊆ given b'.
Proof.
  intros _ _ (Hg & Hq & Hh) Hd Hx Hy. split_and!.
  - split; [intros H0; apply Hq; set_solver | intros Hf Hl; apply Hh; [done | set_solver]].
  - assert (forall n, n ∈ y -> n = 0%nat /\ b_started b = true \/ (1 <= n <= b_locks b)%nat) as Hv.
    { intros n Hn. apply Hy in Hn. unfold given in Hn. rewrite elem_of_union, elem_of_list_to_set, elem_of_seq in Hn.
      destruct Hn as [Hn|Hn]; [| right; lia]. left. destruct (b_started b); [| set_solver]. split; [set_solver | done]. }
    destruct Hg as [(-> & _)|[(-> & _)|(-> & _ & Hs & _)]]; [done | |].
    + apply disjoint_union_l. split; [| done]. apply disjoint_singleton_l. intros Hn. destruct (Hv _ Hn); lia.
    + apply disjoint_union_l. split; [| done]. apply disjoint_singleton_l. intros Hn. destruct (Hv _ Hn) as [[_ E]|]; [congruence | lia].
  - unfold given in *. destruct Hg as [(-> & -> & ->)|[(-> & -> & ->)|(-> & -> & Hs & ->)]]; [done | |].
    + rewrite seq_S, list_to_set_app_L. simpl. set_solver.
    + rewrite Hs in Hx. set_solver.
  - unfold given. destruct Hg as [(_ & -> & ->)|[(_ & -> & ->)|(_ & -> & Hs & ->)]]; [done | |].
    + rewrite seq_S, list_to_set_app_L. set_solver.
    + rewrite Hs. set_solver.
Qed.

(** *** What the goroutines know *)

(** The writer has appended [ts] and [cs]. *)
Definition wrote (ts : list TradeRecordInsert) (cs : list ClosedTradeInsert) (x : gset nat) (b : batcher) : Prop :=
  0%nat ∈ x /\ l_seen (b_trades b) = ts /\ l_seen (b_closed b) = cs /\ b_result b = None /\ b_started b = true.
Definition room {R} (l : lane R) : Prop := Z.of_nat (length (l_buf l)) < N.
Definition ready ts cs x b : Prop := wrote ts cs x b /\ room (b_trades b) /\ room (b_closed b).
Definition emptied ts cs x b : Prop := wrote ts cs x b /\ settled ts (b_trades b) /\ settled cs (b_closed b).

(** Inside [Flush]; [w]: the goroutine is the writer. *)
Definition locked (x : gset nat) (b : batcher) : Prop := b_flushing b = true /\ b_locks b ∈ x.
Definition carrying (rt : list TradeRecordInsert) (rc : list ClosedTradeInsert) (x : gset nat) (b : batcher) : Prop :=
  locked x b /\ l_flight (b_trades b) = rt /\ l_flight (b_closed b) = rc.
Definition before (w : bool) ts cs x b : Prop := w = true -> wrote ts cs x b.
Definition drained (w : bool) ts cs x b : Prop := w = true -> wrote ts cs x b /\ l_buf (b_trades b) = [] /\ l_buf (b_closed b) = [].
Definition after (w : bool) ts cs x b : Prop := w = true -> emptied ts cs x b.

Lemma bw_quiet_empty {R} (l l' : lane R) : quiet_lane l l' -> l_buf l = [] -> l_buf l' = [].
Proof. intros (_ & [->| ->] & _) ?; done. Qed.
Lemma bw_quiet_settled {R} rows (l l' : lane R) : quiet_lane l l' -> settled rows l -> settled rows l'.
Proof. intros (Es & Hb & Hf) (E & Eb & Ef). split_and!; [congruence | destruct Hb; congruence | destruct Hf as [?|[?|?]]; congruence]. Qed.
Lemma bw_quiet_room {R} (l l' : lane R) : quiet_lane l l' -> room l -> room l'.
Proof. intros (_ & [E|E] & _); unfold room; rewrite E; simpl; [done |]. intros _. apply bw_size_pos. Qed.

Lemma bw_stable_true : tstable (fun _ _ => True).
Proof. by intros ? ? ? ? ? ? ?. Qed.
Lemma bw_stable_wrote ts cs : tstable (wrote ts cs).
Proof.
  intros x b b' _ _ [HR _] (H0 & Ht & Hc & Hr & Hs). destruct (HR H0) as ((Et & _) & (Ec & _) & Er & Es). unfold wrote. rewrite Et, Ec, Er. split_and!; auto.
Qed.
Lemma bw_stable_ready ts cs : tstable (ready ts cs).
Proof.
  intros x b b' Ib Ib' HR (Hw & Ht & Hc). split; [by apply (bw_stable_wrote ts cs x b) |].
  destruct HR as [HR _]. destruct (HR (proj1 Hw)) as (Qt & Qc & _). by split; eapply bw_quiet_room.
Qed.
Lemma bw_stable_emptied ts cs : tstable (emptied ts cs).
Proof.
  intros x b b' Ib Ib' HR (Hw & Ht & Hc). split; [by apply (bw_stable_wrote ts cs x b) |].
  destruct HR as [HR _]. destruct (HR (proj1 Hw)) as (Qt & Qc & _). by split; eapply bw_quiet_settled.
Qed.
Lemma bw_stable_carrying rt rc : tstable (carrying rt rc).
Proof.
  intros x b b' _ _ [_ HR] ((Hf & Hl) & Et & Ec). destruct (HR Hf Hl) as (? & El & ? & ?). split_and!; [split; [done | by rewrite El] | congruence..].
Qed.
Lemma bw_stable_drained w ts cs : tstable (drained w ts cs).
Proof.
  intros x b b' Ib Ib' HR Hd Hw. destruct (Hd Hw) as (W & Et & Ec). split; [by apply (bw_stable_wrote ts cs x b) |].
  destruct HR as [HR _]. destruct (HR (proj1 W)) as (Qt & Qc & _). by split; eapply bw_quiet_empty.
Qed.
Lemma bw_stable_when (X : Prop) (P : gset nat -> batcher -> Prop) : tstable P -> tstable (fun x b => X -> P x b).
Proof. intros SP x b b' Ib Ib' HR HP Hw. apply (SP x b); auto. Qed.
Lemma bw_stable_and (P Q : gset nat -> batcher -> Prop) : tstable P -> tstable Q -> tstable (fun x b => P x b /\ Q x b).
Proof. intros SP SQ x b b' Ib Ib' HR [HP HQ]. split; [apply (SP x b) | apply (SQ x b)]; done. Qed.

(** *** One step *)

Lemma bw_inv_trades l b : Inv b -> lane_ok l -> (b_flushing b = false -> l_flight l = []) -> (b_started b = false -> l_seen l = []) ->
  (forall c, b_result b = Some (Ok tt, c) -> settled rows_t l) -> Inv (with_trades l b).
Proof.
  intros [H1 H2 H3 H4 H5] Hl Hf Hs Hr. split; simpl; [done.. | | |].
  - intros E. split; [auto | by apply H3].
  - intros E. destruct (H4 E) as (_ & ? & ?). auto.
  - intros c E. split; [eauto | by apply (H5 c)].
Qed.
Lemma bw_inv_closed l b : Inv b -> lane_ok l -> (b_flushing b = false -> l_flight l = []) -> (b_started b = false -> l_seen l = []) ->
  (forall c, b_result b = Some (Ok tt, c) -> settled rows_c l) -> Inv (with_closed l b).
Proof.
  intros [H1 H2 H3 H4 H5] Hl Hf Hs Hr. split; simpl; [done.. | | |].
  - intros E. split; [by apply H3 | auto].
  - intros E. destruct (H4 E) as (? & _ & ?). auto.
  - intros c E. split; [by apply (H5 c) | eauto].
Qed.
Lemma bw_quiet_same b b' : b_trades b' = b_trades b -> b_closed b' = b_closed b -> b_result b' = b_result b ->
  b_started b' = b_started b -> quiet b b'.
Proof. intros Et Ec Er Es. unfold quiet, quiet_lane. rewrite Et, Ec, Er, Es. split_and!; auto. Qed.
Lemma bw_settled_drain {R} rows (l : lane R) : settled rows l -> settled rows (drain l).
Proof. intros (Es & Eb & Ef). split_and!; simpl; [done | done | congruence]. Qed.

(** A step of the holder of the lock that leaves the lock and what was
    appended alone. *)
Lemma bw_guar_locked x b b' : locked x b -> b_locks b' = b_locks b -> b_started b' = b_started b -> quiet b b' -> Guar tt x x b b'.
Proof. intros [_ Hl] El Es Hq. split_and!; [by left | done | done]. Qed.

Lemma bw_lock w ts cs : tsafe lock_flush (before w ts cs) (fun _ x b => carrying [] [] x b /\ before w ts cs x b).
Proof.
  intros c x b Ib Hb. destruct (b_flushing b) eqn:Ef; [done |]. destruct (iv_free b Ib Ef) as [F1 F2].
  set (P := fun x b => carrying [] [] x b /\ before w ts cs x b). exists ({[S (b_locks b)]} ∪ x). split_and!.
  - destruct Ib. split; simpl; try done.
  - split_and!; [right; left; done | intros _; by apply bw_quiet_same | congruence].
  - exists P. split_and!.
    + apply bw_stable_and; [apply bw_stable_carrying | apply bw_stable_when, bw_stable_wrote].
    + split; [split_and!; [split; simpl; [done | set_solver] | done | done] |].
      intros Hw. destruct (Hb Hw) as (H0 & ?). split; [set_solver | done].
    + by intros y z _ Hz.
Qed.

Lemma bw_take w ts cs : tsafe take_buffers (fun x b => carrying [] [] x b /\ before w ts cs x b)
  (fun rows x b => carrying rows.1 rows.2 x b /\ drained w ts cs x b).
Proof.
  apply tsafe_atomic; [| intros a; apply bw_stable_and; [apply bw_stable_carrying | apply bw_stable_drained]].
  intros c x b Ib [(Hk & Ft & Fc) Hb]. exists x. destruct Ib as [H1 H2 H3 H4 H5] eqn:EI. split_and!.
  - destruct Hk as [Hfl _]. split; simpl; [by apply bw_drain | by apply bw_drain | congruence | done |].
    intros r Hr. destruct (H5 r Hr). by split; apply bw_settled_drain.
  - apply bw_guar_locked; [done.. |]. unfold quiet, quiet_lane; split_and!; simpl; auto.
  - split_and!; [exact Hk | done | done].
  - intros Hw. destruct (Hb Hw) as (? & ? & ? & ? & ?). by split_and!.
Qed.

Lemma bw_write_trades w ts cs rt rc : tsafe (WriteTradeRecordsBatch rt) (fun x b => carrying rt rc x b /\ drained w ts cs x b)
  (fun _ x b => carrying [] rc x b /\ drained w ts cs x b).
Proof.
  destruct rt as [|r rt]; [by intros x b _ ? |]. set (rows := r :: rt). unfold WriteTradeRecordsBatch. cbv beta iota. fold rows.
  apply tsafe_atomic; [| intros a; apply bw_stable_and; [apply bw_stable_carrying | apply bw_stable_drained]].
  intros c x b Ib [(Hk & Ft & Fc) Hd]. exists x. assert (l_flight (b_trades b) <> []) as Hn by by rewrite Ft.
  split_and!.
  - apply bw_inv_trades; [done | rewrite <- Ft; apply bw_copy; [apply Ib | done] | done | |].
    + intros E. simpl. by apply (iv_fresh b Ib E).
    + intros e Hr. destruct (iv_result b Ib e Hr) as ((_ & _ & E) & _). congruence.
  - apply bw_guar_locked; [done.. |]. unfold quiet, quiet_lane; split_and!; simpl; auto.
  - split_and!; [exact Hk | done | exact Fc].
  - intros Hw. destruct (Hd Hw) as ((? & ? & ? & ? & ?) & ? & ?). by split_and!.
Qed.

Lemma bw_write_closed w ts cs rc : tsafe (WriteClosedTradesBatch rc) (fun x b => carrying [] rc x b /\ drained w ts cs x b)
  (fun _ x b => carrying [] [] x b /\ drained w ts cs x b).
Proof.
  destruct rc as [|r rc]; [by intros x b _ ? |]. set (rows := r :: rc). unfold WriteClosedTradesBatch. cbv beta iota. fold rows.
  apply tsafe_atomic; [| intros a; apply bw_stable_and; [apply bw_stable_carrying | apply bw_stable_drained]].
  intros c x b Ib [(Hk & Ft & Fc) Hd]. exists x. assert (l_flight (b_closed b) <> []) as Hn by by rewrite Fc.
  split_and!.
  - apply bw_inv_closed; [done | rewrite <- Fc; apply bw_copy; [apply Ib | done] | done | |].
    + intros E. simpl. by apply (iv_fresh b Ib E).
    + intros e Hr. destruct (iv_result b Ib e Hr) as (_ & (_ & _ & E)). congruence.
  - apply bw_guar_locked; [done.. |]. unfold quiet, quiet_lane; split_and!; simpl; auto.
  - split_and!; [exact Hk | exact Ft | done].
  - intros Hw. destruct (Hd Hw) as ((? & ? & ? & ? & ?) & ? & ?). by split_and!.
Qed.

Lemma bw_unlock w ts cs : tsafe unlock_flush (fun x b => carrying [] [] x b /\ drained w ts cs x b) (fun _ => after w ts cs).
Proof.
  apply tsafe_atomic; [| intros a; apply bw_stable_when, bw_stable_emptied].
  intros c x b Ib [(Hk & Ft & Fc) Hd]. exists x. split_and!.
  - destruct Ib. by split.
  - apply bw_guar_locked; [done.. |]. by apply bw_quiet_same.
  - intros Hw. destruct (Hd Hw) as ((? & ? & ? & ? & ?) & ? & ?). by split_and!.
Qed.

(** [Flush], by the writer or by the ticker *)
Lemma bw_flush w ts cs : tsafe Flush (before w ts cs) (fun _ => after w ts cs).
Proof.
  eapply tsafe_bind; [apply bw_lock | intros ?]. eapply tsafe_bind; [apply bw_take | intros [rt rc]].
  eapply tsafe_bind; [apply bw_write_trades | intros e1]. eapply tsafe_bind; [apply bw_write_closed | intros e2].
  eapply tsafe_bind; [apply bw_unlock | intros ?]. by intros x b _ ?.
Qed.

(** A step that sets the flags of the ticker. *)
Lemma bw_flag (f : batcher -> batcher) (P : gset nat -> batcher -> Prop) : tstable P ->
  (forall b, exists st dn, f b = with_flags st dn (b_started b) b) -> (forall x b, P x b -> P x (f b)) ->
  tsafe (update (Ch := Choice) f) P (fun _ => P).
Proof.
  intros SP Hf HP. apply tsafe_atomic; [| done]. intros c x b Ib Pb. exists x. specialize (HP x b Pb). simpl.
  destruct (Hf b) as (st & dn & E). rewrite E in *. split_and!; [destruct Ib; by split | | exact HP].
  split_and!; [by left | intros _; by apply bw_quiet_same | done].
Qed.
Lemma bw_guar_refl t x b : Guar t x x b b.
Proof. split_and!; [by left | intros _; by apply bw_quiet_same | done]. Qed.
(** A step that only looks. *)
Lemma bw_look {A} (f : Choice -> batcher -> A) (P : gset nat -> batcher -> Prop) : tstable P ->
  tsafe (atomic (fun c b => (b, f c b))) P (fun _ => P).
Proof. intros SP. apply tsafe_atomic; [| done]. intros c x b Ib Pb. exists x. split_and!; [done | apply bw_guar_refl | done]. Qed.
Lemma bw_wait {A} (f : Choice -> batcher -> option A) (P : gset nat -> batcher -> Prop) : tstable P -> tsafe (await f) P (fun _ => P).
Proof. intros SP. apply tsafe_await; [intros; apply bw_guar_refl | done | done]. Qed.

Lemma bw_flush_ticker : tsafe Flush (fun _ _ => True) (fun _ _ _ => True).
Proof.
  eapply tsafe_pre; [| eapply tsafe_post; [| apply (bw_flush false [] [])]]; [| done]. intros x b _ _ Hw. discriminate Hw.
Qed.

Lemma bw_select : tsafe select_tick (fun _ _ => True) (fun _ _ _ => True).
Proof.
  intros c x b Ib _. destruct (ch_stop c); [destruct (b_stopCh b); [| done] |]; exists x;
    (split_and!; [done | apply bw_guar_refl | exists (fun _ _ => True); split_and!; [apply bw_stable_true | done | done]]).
Qed.
Lemma bw_ticks n : tsafe (ticks n) (fun _ _ => True) (fun _ _ _ => True).
Proof.
  induction n as [|n IH]; [apply bw_wait, bw_stable_true |].
  eapply tsafe_bind; [apply bw_select | intros [|]; [| done]].
  eapply tsafe_bind; [apply bw_look, bw_stable_true | intros work].
  eapply tsafe_bind; [| intros ?; exact IH]. destruct work; [apply bw_flush_ticker | done].
Qed.
Lemma bw_ticker : tsafe runTicker (fun _ _ => True) (fun _ _ _ => True).
Proof.
  eapply tsafe_bind; [apply bw_look, bw_stable_true | intros n]. eapply tsafe_bind; [apply bw_ticks | intros ?].
  apply (bw_flag _ (fun _ _ => True)); [apply bw_stable_true | intros b; by exists (b_stopCh b), true | done].
Qed.

(** *** The writer *)

Lemma bw_flush_writer ts cs : tsafe Flush (wrote ts cs) (fun _ => emptied ts cs).
Proof.
  eapply tsafe_pre; [| eapply tsafe_post; [| apply (bw_flush true ts cs)]]; [intros x b _ Hw _; exact Hw | intros a x b _ Ha; by apply Ha].
Qed.
Lemma bw_emptied_ready ts cs x b : emptied ts cs x b -> ready ts cs x b.
Proof. pose proof bw_size_pos. intros (Hw & (_ & Et & _) & (_ & Ec & _)). split_and!; [done | unfold room; by rewrite Et | unfold room; by rewrite Ec]. Qed.

Lemma bw_flush_ready ts cs : tsafe Flush (ready ts cs) (fun _ => emptied ts cs).
Proof. eapply tsafe_pre; [| apply bw_flush_writer]. by intros x b _ [? _]. Qed.

(** After an append: a full buffer is flushed. *)
Definition appended ts cs (full : bool) (x : gset nat) (b : batcher) : Prop := wrote ts cs x b /\ (full = false -> ready ts cs x b).
Lemma bw_stable_appended ts cs full : tstable (appended ts cs full).
Proof. apply bw_stable_and; [apply bw_stable_wrote | apply bw_stable_when, bw_stable_ready]. Qed.
Lemma bw_write_flush ts cs (full : bool) : tsafe (if full then Flush else Ret (Ok tt)) (appended ts cs full) (fun _ => ready ts cs).
Proof.
  destruct full.
  - eapply tsafe_pre; [| eapply tsafe_post; [| apply bw_flush_writer]]; [by intros x b _ [? _] | intros a x b _; apply bw_emptied_ready].
  - intros x b _ [_ H]. by apply H.
Qed.

Lemma bw_write_trade r ts cs : tsafe (WriteTradeRecord size r) (ready ts cs) (fun _ => ready (ts ++ [r]) cs).
Proof.
  eapply tsafe_bind; [| intros full; apply bw_write_flush].
  apply tsafe_atomic; [| intros a; apply bw_stable_appended].
  intros c x b Ib ((H0 & Et & Ec & Er & Hs) & Rt & Rc). exists x.
  assert (wrote (ts ++ [r]) cs x (with_trades (append r (b_trades b)) b)) as Hw by (split_and!; simpl; [done | by rewrite Et | done..]).
  split_and!; [| | split; [exact Hw |]].
  - apply bw_inv_trades; [done | by apply bw_append; [apply Ib |] | intros E; by apply (iv_free b Ib E) | congruence | congruence].
  - split_and!; [by left | done | done].
  - intros Hf. split_and!; [done | unfold room | done]. simpl in Hf. unfold full in Hf. apply Z.leb_gt in Hf. exact Hf.
Qed.
Lemma bw_write_closed_trade r ts cs : tsafe (WriteClosedTrade size r) (ready ts cs) (fun _ => ready ts (cs ++ [r])).
Proof.
  eapply tsafe_bind; [| intros full; apply bw_write_flush].
  apply tsafe_atomic; [| intros a; apply bw_stable_appended].
  intros c x b Ib ((H0 & Et & Ec & Er & Hs) & Rt & Rc). exists x.
  assert (wrote ts (cs ++ [r]) x (with_closed (append r (b_closed b)) b)) as Hw by (split_and!; simpl; [done | done | by rewrite Ec | done..]).
  split_and!; [| | split; [exact Hw |]].
  - apply bw_inv_closed; [done | by apply bw_append; [apply Ib |] | intros E; by apply (iv_free b Ib E) | congruence | congruence].
  - split_and!; [by left | done | done].
  - intros Hf. split_and!; [done | done | unfold room]. simpl in Hf. unfold full in Hf. apply Z.leb_gt in Hf. exact Hf.
Qed.

(** What a list of calls adds, when each returns nil. *)
Definition wrote_all (ts : list TradeRecordInsert) (cs : list ClosedTradeInsert) (l : list WriterCall) (r : result unit)
    (x : gset nat) (b : batcher) : Prop :=
  exists ts' cs', ready ts' cs' x b /\ (r = Ok tt -> ts' = ts ++ trade_rows id l /\ cs' = cs ++ closed_rows id l).

Lemma bw_call c ts cs : tsafe (scoped_write size id c) (ready ts cs) (fun _ => ready (ts ++ trade_rows id [c]) (cs ++ closed_rows id [c])).
Proof.
  destruct c as [r|r|]; cbn [scoped_write trade_rows closed_rows omap list_omap]; rewrite ?app_nil_r.
  - apply bw_write_trade.
  - apply bw_write_closed_trade.
  - eapply tsafe_post; [| apply bw_flush_ready]. intros a x b _. apply bw_emptied_ready.
Qed.

Lemma bw_engine l ts cs : tsafe (engine size id l) (ready ts cs) (wrote_all ts cs l).
Proof.
  revert ts cs. induction l as [|c l IH]; intros ts cs.
  - intros x b _ Hr. exists ts, cs. split; [done |]. by rewrite !app_nil_r.
  - eapply tsafe_bind; [apply bw_call | intros [[]|e]].
    + eapply tsafe_post; [| apply IH]. intros r x b _ (ts' & cs' & Hr & E). exists ts', cs'. split; [done |]. intros Er.
      destruct (E Er) as [-> ->]. rewrite <- !app_assoc. unfold trade_rows, closed_rows. by rewrite <- !omap_app.
    + intros x b _ Hr. by eexists _, _.
Qed.

Lemma bw_close ts cs : tsafe Close (ready ts cs) (fun _ => emptied ts cs).
Proof.
  eapply tsafe_bind; [apply bw_look, bw_stable_ready | intros closed].
  eapply tsafe_bind; [| intros ?; apply bw_flush_ready].
  destruct closed; [by intros x b _ ? |].
  eapply tsafe_bind; [| intros ?; apply bw_wait, bw_stable_ready].
  apply bw_flag; [apply bw_stable_ready | intros b; by exists true, (b_doneCh b) | done].
Qed.

(** *** The backtest *)

Lemma bw_start : tsafe start_once (fun _ _ => True) (fun _ => ready [] []).
Proof.
  intros c x b Ib _. destruct (b_started b) eqn:Es; [done |]. exists ({[0%nat]} ∪ x). pose proof (iv_fresh b Ib Es) as (Et & Ec & Er).
  assert (forall R (l : lane R), lane_ok l -> l_seen l = [] -> room l) as Hroom.
  { intros R l Hl E. pose proof bw_size_pos. pose proof (lo_seen l Hl) as Hs. rewrite E in Hs. apply app_eq_nil in Hs as [_ [_ Hb]%app_eq_nil].
    unfold room. rewrite Hb. simpl. lia. }
  split_and!.
  - destruct Ib. split; simpl; [done | done | done | done | intros c0 E; congruence].
  - split_and!; [right; right; done | intros _; split_and!; simpl; unfold quiet_lane; auto | done].
  - exists (ready [] []). split_and!; [apply bw_stable_ready | | by intros y z _ Hz].
    split_and!; [split_and!; simpl; [set_solver | done..] | apply Hroom; [apply Ib | done] | apply Hroom; [apply Ib | done]].
Qed.

Lemma bw_result r c ts cs : (r = Ok tt -> ts = rows_t /\ cs = rows_c) ->
  tsafe (update (Ch := Choice) (with_result (r, c))) (emptied ts cs) (fun _ _ _ => True).
Proof.
  intros E. apply tsafe_atomic; [| intros ?; apply bw_stable_true]. intros ch x b Ib ((H0 & _ & _ & Er & Hs) & St & Sc). exists x. split_and!.
  - destruct Ib. split; simpl; [done.. | congruence |]. intros c' [= -> ->]. by destruct (E eq_refl) as [<- <-].
  - split_and!; [by left | done | done].
  - done.
Qed.

Lemma bw_backtest : tsafe (record_backtest size id calls) (fun _ _ => True) (fun _ _ _ => True).
Proof.
  eapply tsafe_bind; [apply bw_start | intros ?].
  eapply tsafe_bind; [apply tsafe_go with (P1 := fun _ _ => True); [apply bw_stable_true | done | apply bw_ticker] | intros ?].
  eapply tsafe_bind; [apply bw_engine | intros r]. apply tsafe_ex. intros ts. apply tsafe_ex. intros cs. apply tsafe_pure. intros E.
  eapply tsafe_bind; [apply bw_close | intros c]. by apply bw_result.
Qed.

Lemma bw_sound ls s : writer_run size id calls ls (MkSystem NewBatcher []) = Some s -> Inv (shared s).
Proof.
  intros Hr.
  refine (ts_inv _ _ _ _ _ (tc_sound Inv given Guar Rely no_world (serve_one size id calls) (fun _ => True) _ _ _ ls _ s _ Hr _)).
  - intros t x x' y b b'. apply bw_guar_rely.
  - by intros [].
  - intros r _. exists (fun _ _ => True). split_and!; [apply bw_stable_true | done | apply bw_backtest].
  - apply List.Forall_forall. by intros [].
  - apply tc_start. pose proof bw_size_pos. split; [by split; simpl; try lia | by split; simpl; try lia | done | done | done].
Qed.
End Theory.

(** ** What is persisted *)

(** The rows were handed to the store once, in order, in batches of at most
    [n]; the table has the batches the store took. *)
Record delivered {R} (n : Z) (rows : list R) (l : lane R) : Prop := {
  de_once : concat (snd <$> l_batches l) = rows;
  de_sizes : Forall (fun p => 0 < Z.of_nat (length p.2) <= n) (l_batches l);
  de_table : l_table l = concat (snd <$> List.filter fst (l_batches l));
}.

Lemma bw_delivered {R} size (rows : list R) l : lane_ok size l -> settled rows l -> delivered (batch_size size) rows l.
Proof.
  intros [H1 H2 H3 H4 H5] (Es & Eb & Ef). rewrite Eb, Ef, !app_nil_r in H1. split; [congruence | | done].
  eapply Forall_impl; [exact H3 |]. intros [ok r] [Hn Hl]. destruct r; simpl in *; [done | lia].
Qed.

Lemma bw_all_taken {R} n (rows : list R) l : delivered n rows l -> forallb fst (l_batches l) = true -> l_table l = rows.
Proof.
  intros [E _ ->] H. rewrite <- E. f_equal. f_equal. revert H. clear. induction (l_batches l) as [|[[] r] bs IH]; simpl; [done | | done].
  intros H. by rewrite IH.
Qed.

(** C40: when a backtest has made its calls without an error and its writer is
    closed, every row it wrote, tagged with the backtest's id, was handed to
    the store exactly once and in order, in batches of at most the batch size,
    however the ticker's flushes interleave; the table holds the batches the
    store took, so all the rows in order when it took every batch. *)
Theorem batching_rows_delivered {D : DecimalOps} size id calls ls s c :
  writer_run size id calls ls (MkSystem NewBatcher []) = Some s -> b_result (shared s) = Some (Ok tt, c) ->
  delivered (batch_size size) (trade_rows id calls) (b_trades (shared s)) /\
  delivered (batch_size size) (closed_rows id calls) (b_closed (shared s)) /\
  (forallb fst (l_batches (b_trades (shared s))) = true -> l_table (b_trades (shared s)) = trade_rows id calls) /\
  (forallb fst (l_batches (b_closed (shared s))) = true -> l_table (b_closed (shared s)) = closed_rows id calls).
Proof.
  intros Hr E. pose proof (bw_sound size id calls ls s Hr) as Is. destruct (iv_result size id calls _ Is c E) as [St Sc].
  assert (delivered (batch_size size) (trade_rows id calls) (b_trades (shared s))) as Dt by (apply bw_delivered; [apply Is | done]).
  assert (delivered (batch_size size) (closed_rows id calls) (b_closed (shared s))) as Dc by (apply bw_delivered; [apply Is | done]).
  split_and!; [done | done | by apply (bw_all_taken _ _ _ Dt) | by apply (bw_all_taken _ _ _ Dc)].
Qed.

(** ** Runs *)

Module WriterDemo.
Definition trade (n : Z) : TradeRecordInsert (D := RefDec) :=
  {| tri_BacktestID := ""; tri_Time := MkTime n 0; tri_BondID := ""; tri_Signal := "BUY"; tri_Price := dzero; tri_Quantity := dzero;
     tri_EntryBalance := dzero; tri_OrderSize := dzero; tri_Cash := dzero; tri_OpenPosition := dzero; tri_TradeID := ""; tri_Spread := dzero;
     tri_PositionSize := dzero; tri_ZScore := dzero; tri_CompressionRatio := dzero; tri_EntryATR := dzero |}.
Definition closed (n : Z) : ClosedTradeInsert (D := RefDec) :=
  {| cti_BacktestID := ""; cti_OpenTime := MkTime 0 0; cti_CloseTime := MkTime n 0; cti_BondID := ""; cti_OpenSignal := "BUY";
     cti_CloseSignal := "SELL"; cti_Quantity := dzero; cti_EntryPrice := dzero; cti_ExitPrice := dzero; cti_PnL := dzero;
     cti_EntryBalance := dzero; cti_OpenTradeID := ""; cti_CloseTradeID := ""; cti_EntrySpread := dzero; cti_ExitSpread := dzero;
     cti_EntryZScore := dzero; cti_ExitZScore := dzero; cti_PositionSize := dzero; cti_ExitReason := "";
     cti_EntryCompressionRatio := dzero; cti_ExitCompressionRatio := dzero |}.
Definition calls : list (WriterCall (D := RefDec)) :=
  [Stats.WriteTradeRecord (trade 1); Stats.WriteTradeRecord (trade 2); Stats.WriteClosedTrade (closed 2);
   Stats.WriteTradeRecord (trade 3); Stats.Flush].

(** Goroutine 0 is the backtest, 1 the ticker. *)
Definition steps (n k : nat) (ok stop : bool) : list (label Choice Empty_set unit) := replicate k (LThread n (MkChoice ok stop 1)).
(** The first row, then a tick whose flush the store answers with [ok], then
    the rest. *)
Definition script (ok : bool) : list (label Choice Empty_set unit) :=
  [LArrive tt] ++ steps 0 3 true false ++ steps 1 7 ok false ++ steps 0 13 true false ++ steps 1 2 true true ++ steps 0 5 true false.
Notation run ok := (writer_run (D := RefDec) 2 "b1" calls (script ok) (MkSystem NewBatcher [])).
Definition final (ok : bool) : system (batcher (D := RefDec)) Choice unit := default (MkSystem NewBatcher []) (run ok).
Definition ends (ok : bool) : bool := match run ok with Some _ => true | None => false end.
Lemma run_final ok : ends ok = true -> run ok = Some (final ok).
Proof. unfold ends, final. by destruct (run ok). Qed.
Definition outcome (ok : bool) :=
  let b := shared (final ok) in
  (ends ok, b_result b, t_ns ∘ tri_Time <$> l_table (b_trades b), t_ns ∘ cti_CloseTime <$> l_table (b_closed b)).
End WriterDemo.

(** A tick whose flush fails loses its rows although neither the backtest nor
    the closing flush reports an error. *)
Example batching_failed_tick_loses_rows :
  WriterDemo.outcome true = (true, Some (Ok tt, Ok tt), [1; 2; 3], [2]) /\
  WriterDemo.outcome false = (true, Some (Ok tt, Ok tt), [2; 3], [2]).
Proof. split; vm_compute; reflexivity. Qed.

Lemma batching_rows_delivered_witness :
  b_result (shared (WriterDemo.final true)) = Some (Ok tt, Ok tt) /\
  l_table (b_trades (shared (WriterDemo.final true))) = trade_rows "b1" WriterDemo.calls.
Proof.
  assert (WriterDemo.ends true = true) as He by (vm_compute; reflexivity).
  assert (b_result (shared (WriterDemo.final true)) = Some (Ok tt, Ok tt)) as E by (vm_compute; reflexivity).
  assert (forallb fst (l_batches (b_trades (shared (WriterDemo.final true)))) = true) as F by (vm_compute; reflexivity).
  pose proof (batching_rows_delivered 2 "b1" WriterDemo.calls _ _ (Ok tt) (WriterDemo.run_final true He) E) as (_ & _ & H & _).
  split; [exact E | exact (H F)].
Defined.
