(* ===== verification/WsBroker.v ===== *)
(** * internal/agent/wsbroker: one connection, many strategies

    The broker keeps one websocket to the exchange and hands its frames to the
    live strategies.  The slice of subscriptions is shared: [dispatch] takes a
    copy of its header under the mutex and reads the elements without it, and
    [Unsubscribe] shifts them in place, so the model has the backing arrays.
    A subscription is the index of its object.

    Dialling, reading the socket and the text of the messages are outside; a
    notification arrives as a value whose objects name a member once. *)

From S2P Require Import Prelude Concurrency Json GoStrings.

(** ** Data *)

Record Frame := MkFrame { f_Type : string; f_OrderBookID : string; f_Resolution : string; f_AssetID : string; f_Raw : json }.

(** [Subscription] with what waits in its channel. *)
Record Subscription := MkSubscription {
  s_OrderBookID : string; s_Resolution : string; s_AssetID : string; s_TypeFilter : list string; s_Channels : list string;
  s_ch : list Frame; s_closed : bool;
}.

Definition defaultFrameBuffer : nat := 64.
Definition SubscribeAllOrderBooks : string := "*".

(** A request written to the connection. *)
Inductive Message := SubscribeCandles (orderBookID resolution : string) | SubscribeTradesOf (orderBookID : string) | SubscribePricesOf (assetID : string).

(** [Broker].  [b_subs] is the header of the slice: which array, which length;
    [b_sent] the requests written; [b_panicked]: a send on a closed channel. *)
Record Broker := MkBroker {
  b_heap : list Subscription;
  b_arrays : list (list nat);
  b_subs : nat * nat;
  b_conn : bool;
  b_stopped : bool;
  b_subscribedKeys : list string;
  b_pending : gmap string (json * string);
  b_lastSentTS : gmap string string;
  b_sent : list Message;
  b_panicked : bool;
}.

Definition New : Broker := MkBroker [] [[]] (0%nat, 0%nat) false false [] ∅ ∅ [] false.

Definition with_heap h b := MkBroker h (b_arrays b) (b_subs b) (b_conn b) (b_stopped b) (b_subscribedKeys b) (b_pending b) (b_lastSentTS b) (b_sent b) (b_panicked b).
Definition with_slice a hd b := MkBroker (b_heap b) a hd (b_conn b) (b_stopped b) (b_subscribedKeys b) (b_pending b) (b_lastSentTS b) (b_sent b) (b_panicked b).
Definition with_conn c b := MkBroker (b_heap b) (b_arrays b) (b_subs b) c (b_stopped b) (b_subscribedKeys b) (b_pending b) (b_lastSentTS b) (b_sent b) (b_panicked b).
Definition with_stopped b := MkBroker (b_heap b) (b_arrays b) (b_subs b) (b_conn b) true (b_subscribedKeys b) (b_pending b) (b_lastSentTS b) (b_sent b) (b_panicked b).
Definition with_keys k b := MkBroker (b_heap b) (b_arrays b) (b_subs b) (b_conn b) (b_stopped b) k (b_pending b) (b_lastSentTS b) (b_sent b) (b_panicked b).
Definition with_candles p l b := MkBroker (b_heap b) (b_arrays b) (b_subs b) (b_conn b) (b_stopped b) (b_subscribedKeys b) p l (b_sent b) (b_panicked b).
Definition with_sent l b := MkBroker (b_heap b) (b_arrays b) (b_subs b) (b_conn b) (b_stopped b) (b_subscribedKeys b) (b_pending b) (b_lastSentTS b) l (b_panicked b).
Definition with_panic b := MkBroker (b_heap b) (b_arrays b) (b_subs b) (b_conn b) (b_stopped b) (b_subscribedKeys b) (b_pending b) (b_lastSentTS b) (b_sent b) true.

(** What the world decides: the capacity of a slice that grows, whether a write
    to the connection succeeds. *)
Record Choice := MkChoice { ch_cap : nat; ch_ok : bool }.
Notation bprog := (prog Broker Choice).

(** ** Matching *)

Definition typeAllowed (s : Subscription) (t : string) : bool :=
  match s_TypeFilter s, s_Channels s with
  | _ :: _, _ => bool_decide (t ∈ s_TypeFilter s)
  | [], _ :: _ => bool_decide (t ∈ s_Channels s)
  | [], [] => true
  end.

Definition book_allowed (s : Subscription) (f : Frame) : bool :=
  bool_decide (s_OrderBookID s = ""%string) || bool_decide (s_OrderBookID s = SubscribeAllOrderBooks) || bool_decide (s_OrderBookID s = f_OrderBookID f).
Definition field_allowed (want have : string) : bool := bool_decide (want = ""%string) || bool_decide (want = have).

Definition matches (s : Subscription) (f : Frame) : bool :=
  typeAllowed s (f_Type f) &&
  (if bool_decide (f_Type f = "candle"%string) then book_allowed s f && field_allowed (s_Resolution s) (f_Resolution f)
   else if bool_decide (f_Type f = "trade"%string) then book_allowed s f
   else if bool_decide (f_Type f = "price"%string) then field_allowed (s_AssetID s) (f_AssetID f)
   else false).

(** ** Subscribing *)

(** [append(b.subs, sub)]: in place while the array has room. *)
Definition append_sub (cap : nat) (id : nat) (b : Broker) : Broker :=
  let '(arr, len) := b_subs b in
  let a := default [] (b_arrays b !! arr) in
  if (len <? length a)%nat then with_slice (<[arr := <[len := id]> a]> (b_arrays b)) (arr, S len) b
  else with_slice (b_arrays b ++ [take len a ++ [id] ++ replicate (Nat.max cap (S len) - S len) 0%nat]) (length (b_arrays b), S len) b.

(** [registerSub]: the new subscription, whether there is a connection and
    whether the key was known. *)
Definition register (cap : nat) (s : Subscription) (key : option string) (b : Broker) : Broker * (nat * bool * bool) :=
  let id := length (b_heap b) in
  let b' := append_sub cap id (with_heap (b_heap b ++ [s]) b) in
  match key with
  | None => (b', (id, b_conn b, false))
  | Some k =>
      let already := bool_decide (k ∈ b_subscribedKeys b) in
      (if already then b' else with_keys (b_subscribedKeys b ++ [k]) b', (id, b_conn b, already))
  end.

Definition send (m : Message) : bprog unit := atomic (fun c b => (if ch_ok c then with_sent (b_sent b ++ [m]) b else b, tt)).

Definition candle_key (orderBookID resolution : string) : string := orderBookID ++ ":" ++ resolution.

Definition new_sub (book res asset : string) (types channels : list string) : Subscription := MkSubscription book res asset types channels [] false.

(** The key of a wildcard is looked up but never kept; no key contains it. *)
Definition Subscribe (orderBookID resolution : string) (channels : list string) : bprog nat :=
  let wild := bool_decide (orderBookID = SubscribeAllOrderBooks) in
  '(id, conn, already) ← atomic (fun c => register (ch_cap c) (new_sub orderBookID resolution "" channels channels)
                                            (if wild then None else Some (candle_key orderBookID resolution)));
  _ ← (if conn && negb already && negb wild then send (SubscribeCandles orderBookID resolution) else Ret tt);
  Ret id.

Definition SubscribeTrades (orderBookID : string) : bprog nat :=
  '(id, conn, already) ← atomic (fun c => register (ch_cap c) (new_sub orderBookID "" "" ["trade"%string] []) (Some ("trades:" ++ orderBookID)%string));
  _ ← (if conn && negb already then send (SubscribeTradesOf orderBookID) else Ret tt);
  Ret id.

Definition SubscribePrices (assetID : string) : bprog nat :=
  '(id, conn, already) ← atomic (fun c => register (ch_cap c) (new_sub "" "" assetID ["price"%string] []) (Some ("prices:" ++ assetID)%string));
  _ ← (if conn && negb already then send (SubscribePricesOf assetID) else Ret tt);
  Ret id.

(** The elements the header covers. *)
Definition live_subs (b : Broker) : list nat := take (b_subs b).2 (default [] (b_arrays b !! (b_subs b).1)).

Definition close_chan (s : Subscription) : Subscription :=
  MkSubscription (s_OrderBookID s) (s_Resolution s) (s_AssetID s) (s_TypeFilter s) (s_Channels s) (s_ch s) true.

(** [append(b.subs[:i], b.subs[i+1:]...)]: the tail moves down in place, the
    last slot keeps what it held. *)
Definition remove_at (i len : nat) (a : list nat) : list nat := take i a ++ take (len - S i) (drop (S i) a) ++ drop (len - 1) a.

Definition unsubscribe (id : nat) (b : Broker) : Broker :=
  match list_find (id =.) (live_subs b) with
  | Some (i, _) =>
      let '(arr, len) := b_subs b in
      with_heap (alter close_chan id (b_heap b)) (with_slice (alter (remove_at i len) arr (b_arrays b)) (arr, (len - 1)%nat) b)
  | None => b
  end.
Definition Unsubscribe (id : nat) : bprog unit := update (unsubscribe id).

(** ** Dispatching *)

Definition push (f : Frame) (s : Subscription) : Subscription :=
  MkSubscription (s_OrderBookID s) (s_Resolution s) (s_AssetID s) (s_TypeFilter s) (s_Channels s) (s_ch s ++ [f]) (s_closed s).

(** The select with a default: a full channel drops the frame, a closed one
    panics. *)
Definition offer (f : Frame) (id : nat) (b : Broker) : Broker :=
  match b_heap b !! id with
  | Some s =>
      if negb (matches s f) then b
      else if s_closed s then with_panic b
      else if (length (s_ch s) <? defaultFrameBuffer)%nat then with_heap (<[id := push f s]> (b_heap b)) b
      else b
  | None => b
  end.

Fixpoint offer_from (f : Frame) (arr i n : nat) : bprog unit :=
  match n with
  | O => Ret tt
  | S n =>
      sub ← read (fun b => b_arrays b !! arr ≫= (.!! i));
      _ ← match sub with Some id => update (offer f id) | None => Ret tt end;
      offer_from f arr (S i) n
  end.

Definition dispatch (f : Frame) : bprog unit :=
  hd ← read b_subs;
  offer_from f hd.1 0 hd.2.

(** ** Candles *)

Definition start_timestamp (candle : json) : result string := unmarshal_string "start_timestamp" candle.

(** [advanceCandle]: the candle to emit, with its start. *)
Definition advanceCandle (key : string) (newInProgress : json) (newTS : string) (bootstrap : option json) (b : Broker) : Broker * option (json * string) :=
  let emit candle ts b :=
    if negb (bool_decide (ts = ""%string)) && bool_decide (default ""%string (b_lastSentTS b !! key) = ts) then (b, None)
    else (with_candles (b_pending b) (<[key := ts]> (b_lastSentTS b)) b, Some (candle, ts)) in
  let cache b := with_candles (<[key := (newInProgress, newTS)]> (b_pending b)) (b_lastSentTS b) b in
  match bootstrap with
  | Some boot => emit boot (or_zero ""%string (start_timestamp boot)) (cache b)
  | None =>
      match b_pending b !! key with
      | None => (cache b, None)
      | Some (cached, cachedTS) =>
          if bool_decide (cachedTS = newTS) then (cache b, None) else emit cached cachedTS (cache b)
      end
  end.

(** A slice of raw values. *)
Definition unmarshal_array (j : json) : result (list json) :=
  match j with JNull => Ok [] | JArray l => Ok l | _ => Err type_error end.

(** The in-progress candle of a notification and, in a snapshot, the closed one
    before it. *)
Definition split_candles (candles : list json) : option (json * option json) :=
  match reverse candles with
  | [] => None
  | [c] => Some (c, None)
  | c :: p :: _ => Some (c, Some p)
  end.

Definition handle_candles (resolution obID : string) (candleArr : json) : bprog unit :=
  match or_zero [] (unmarshal_array candleArr) with
  | [] => Ret tt
  | candles =>
      match split_candles candles with
      | None => Ret tt
      | Some (newInProgress, bootstrap) =>
          match start_timestamp newInProgress with
          | Err _ => Ret tt
          | Ok ts =>
              if bool_decide (ts = ""%string) then Ret tt
              else
                e ← atomic (fun _ => advanceCandle (candle_key obID resolution) newInProgress ts bootstrap);
                match e with
                | Some (candle, _) => dispatch (MkFrame "candle" obID resolution "" candle)
                | None => Ret tt
                end
          end
      end
  end.

(** A field of map type; its members in the order of the iteration. *)
Definition unmarshal_map (name : string) (j : json) : result (list (string * json)) :=
  unmarshal_field (fun v cur => match v with JNull => keep_err cur [] | JObject ms => keep_err cur ms | _ => Err type_error end) [] name j.

Fixpoint each {A} (f : A -> bprog unit) (l : list A) : bprog unit :=
  match l with [] => Ret tt | x :: rest => _ ← f x; each f rest end.

Definition handleCandleNotification (data : json) : bprog unit :=
  match unmarshal_string "resolution" data, unmarshal_map "candles" data with
  | Ok resolution, Ok candles => each (fun p => handle_candles resolution p.1 p.2) candles
  | _, _ => Ret tt
  end.

(** ** Trades and prices *)

Definition set_bool (v : json) (cur : result bool) : result bool :=
  match v with JNull => cur | JBool b => keep_err cur b | _ => Err type_error end.
Definition unmarshal_bool : string -> json -> result bool := unmarshal_field set_bool false.
Definition max_int64 : Z := 9223372036854775807.

(** The fields of a record, decoded and printed again under the same names. *)
Definition string_member (name : string) (j : json) : result (string * json) := result_map (fun s => (name, JString s)) (unmarshal_string name j).
Definition string_members (names : list string) (j : json) : result (list (string * json)) :=
  foldr (fun n acc => m ← string_member n j; ms ← acc; Ok (m :: ms)) (Ok []) names.

Definition trade_raw (t : json) : result json :=
  a ← string_members ["transaction_id"; "order_book_id"; "order_id"]%string t;
  n ← unmarshal_int (- max_int64 - 1) max_int64 "order_seq" t;
  b ← string_members ["user_id"; "asset_0"; "price"; "quantity_0"; "side"]%string t;
  g ← unmarshal_bool "aggressor_indicator" t;
  c ← string_members ["created_at"]%string t;
  Ok (JObject (a ++ [("order_seq"%string, JNumber (format_int n))] ++ b ++ [("aggressor_indicator"%string, JBool g)] ++ c)).

Definition price_raw (p : json) : result json :=
  ms ← string_members ["asset_id"; "price"; "ytm"; "time"]%string p; Ok (JObject ms).

(** One bad element fails the whole notification. *)
Fixpoint all_ok {A} (l : list (result A)) : result (list A) :=
  match l with [] => Ok [] | r :: rest => x ← r; xs ← all_ok rest; Ok (x :: xs) end.

Definition trade_frames (data : json) : result (list Frame) :=
  raws ← unmarshal_field (fun v cur => keep_err cur v) JNull "trades" data;
  trades ← unmarshal_array raws;
  all_ok (map (fun t => raw ← trade_raw t; book ← unmarshal_string "order_book_id" t; Ok (MkFrame "trade" book "" "" raw)) trades).
Definition handleTradeNotification (data : json) : bprog unit := each dispatch (or_zero [] (trade_frames data)).

Definition price_frames (data : json) : result (list Frame) :=
  prices ← unmarshal_map "prices" data;
  all_ok (map (fun p => raw ← price_raw p.2; Ok (MkFrame "price" "" "" p.1 raw)) prices).
Definition handlePriceNotification (data : json) : bprog unit := each dispatch (or_zero [] (price_frames data)).

(** ** The connection *)

(** What a key of [subscribedKeys] asks for again. *)
Definition resubscription (key : string) : option Message :=
  if String.prefix "trades:" key then Some (SubscribeTradesOf (TrimPrefix key "trades:"))
  else if String.prefix "prices:" key then Some (SubscribePricesOf (TrimPrefix key "prices:"))
  else match String.index 0 ":" key with
       | Some i => Some (SubscribeCandles (String.substring 0 i key) (String.substring (S i) (String.length key - S i) key))
       | None => None
       end.

(** The start of a connection, and a notification read from it. *)
Definition connect : bprog unit :=
  _ ← update (with_conn true);
  pending ← read b_subscribedKeys;
  each (fun m => send m) (omap resubscription pending).

Definition handle_message (kind path : string) (data : json) : bprog unit :=
  if negb (bool_decide (kind = "notification"%string)) then Ret tt
  else if bool_decide (path = "/charts/candles"%string) then handleCandleNotification data
  else if bool_decide (path = "/trades"%string) then handleTradeNotification data
  else if bool_decide (path = "/prices"%string) then handlePriceNotification data
  else Ret tt.

Definition Stop : bprog unit := update with_stopped.

(** ** The candle state machine *)

Record Notice := MkNotice { n_cur : json; n_ts : string; n_boot : option json }.

(** What the notices of one key emit. *)
Fixpoint advance_all (key : string) (l : list Notice) (b : Broker) : Broker * list (json * string) :=
  match l with
  | [] => (b, [])
  | n :: rest =>
      let '(b, e) := advanceCandle key (n_cur n) (n_ts n) (n_boot n) b in
      let '(b, es) := advance_all key rest b in
      (b, option_list e ++ es)
  end.

Section Candles.
(** Starts in the order of time. *)
Variable rank : string -> Z.

Definition closed_start (n : Notice) : option string := boot ← n_boot n; Some (or_zero ""%string (start_timestamp boot)).
Definition starts (n : Notice) : list string := n_ts n :: option_list (closed_start n).

(** A feed of the exchange: time does not go back, and the closed candle of a
    snapshot is the latest of those that started before the current one. *)
Definition feed_notice (before : list Notice) (n : Notice) : Prop :=
  n_ts n <> ""%string /\
  (forall m, m ∈ before -> rank (n_ts m) <= rank (n_ts n)) /\
  (forall p, closed_start n = Some p -> p <> ""%string /\ rank p < rank (n_ts n) /\
     forall m s, m ∈ before -> s ∈ starts m -> rank s <= rank p \/ rank s = rank (n_ts n)).
Inductive feed : list Notice -> Prop :=
  | feed_nil : feed []
  | feed_snoc l n : feed l -> feed_notice l n -> feed (l ++ [n]).

(** The same, computed. *)
Definition feed_notice_b (before : list Notice) (n : Notice) : bool :=
  negb (bool_decide (n_ts n = ""%string)) && forallb (fun m => rank (n_ts m) <=? rank (n_ts n)) before &&
  match closed_start n with
  | None => true
  | Some p => negb (bool_decide (p = ""%string)) && (rank p <? rank (n_ts n)) &&
      forallb (fun m => forallb (fun s => (rank s <=? rank p) || (rank s =? rank (n_ts n))) (starts m)) before
  end.
Fixpoint feed_b (before l : list Notice) : bool :=
  match l with [] => true | n :: rest => feed_notice_b before n && feed_b (before ++ [n]) rest end.

Lemma wb_feed_notice_dec before n : feed_notice_b before n = true -> feed_notice before n.
Proof.
  unfold feed_notice_b. rewrite !andb_true_iff, negb_true_iff, bool_decide_eq_false, List.forallb_forall. intros ((H1 & H2) & H3).
  split_and!; [done | |].
  - intros m Hm. apply Z.leb_le, H2. by apply list_elem_of_In.
  - intros p Hp. rewrite Hp in H3. rewrite !andb_true_iff, negb_true_iff, bool_decide_eq_false, Z.ltb_lt, List.forallb_forall in H3.
    destruct H3 as ((? & ?) & H3). split_and!; [done | done |]. intros m s Hm Hs.
    apply list_elem_of_In in Hm. specialize (H3 m Hm). rewrite List.forallb_forall in H3. apply list_elem_of_In in Hs. specialize (H3 s Hs).
    apply orb_true_iff in H3 as [?%Z.leb_le|?%Z.eqb_eq]; auto.
Qed.
Lemma wb_feed_dec_from before l : feed before -> feed_b before l = true -> feed (before ++ l).
Proof.
  revert before. induction l as [|n l IH]; intros before Hb; simpl; [by rewrite app_nil_r |].
  intros [H1 H2]%andb_true_iff. rewrite cons_middle, app_assoc. apply IH; [| done]. constructor; [done |]. by apply wb_feed_notice_dec.
Qed.
Lemma wb_feed_dec l : feed_b [] l = true -> feed l.
Proof. apply (wb_feed_dec_from []). constructor. Qed.

Hypothesis rank_inj : forall a b, rank a = rank b -> a = b.

Lemma wb_advance_snoc key l n b : advance_all key (l ++ [n]) b =
  let '(b1, es) := advance_all key l b in
  let '(b2, e) := advanceCandle key (n_cur n) (n_ts n) (n_boot n) b1 in (b2, es ++ option_list e).
Proof.
  revert b. induction l as [|m l IH]; intros b; simpl.
  - destruct (advanceCandle _ _ _ _ b) as [b2 e]. by rewrite app_nil_r.
  - destruct (advanceCandle _ _ _ _ b) as [b1 e]. rewrite IH. destruct (advance_all key l b1) as [b2 es].
    destruct (advanceCandle _ _ _ _ b2) as [b3 e3]. by rewrite app_assoc.
Qed.

(** [out] so far: increasing, its last start is the one remembered. *)
Record emitted (key : string) (l : list Notice) (b : Broker) (out : list (json * string)) : Prop := {
  em_sorted : StronglySorted (fun a b => rank a < rank b) (snd <$> out);
  em_cache : b_pending b !! key = (fun n => (n_cur n, n_ts n)) <$> last l;
  em_last : b_lastSentTS b !! key = last (snd <$> out);
  em_seen : forall s, s ∈ snd <$> out -> s <> ""%string /\ (exists m, m ∈ l /\ s ∈ starts m) /\ forall n, last l = Some n -> rank s < rank (n_ts n);
  em_closed : forall n p, n ∈ l -> closed_start n = Some p -> p ∈ snd <$> out;
  em_left : forall k n n', l !! k = Some n -> l !! S k = Some n' -> n_boot n' = None -> n_ts n' <> n_ts n -> (n_cur n, n_ts n) ∈ out;
  em_body : forall c s, (c, s) ∈ out ->
    (exists n, n ∈ l /\ n_boot n = Some c /\ closed_start n = Some s) \/
    (exists k n n', l !! k = Some n /\ l !! S k = Some n' /\ n_ts n' <> s /\ n = MkNotice c s (n_boot n));
}.

Lemma wb_sorted_snoc (l : list string) s : StronglySorted (fun a b => rank a < rank b) l -> (forall a, last l = Some a -> rank a < rank s) ->
  StronglySorted (fun a b => rank a < rank b) (l ++ [s]).
Proof.
  induction l as [|x l IH]; intros Hs Hl; simpl; [by repeat constructor |]. inversion Hs as [| ? ? Hs' Hx]; subst. constructor.
  - apply IH; [done |]. intros a Ha. apply Hl. by rewrite last_cons, Ha.
  - apply Forall_app. split; [done |]. constructor; [| constructor]. destruct (last l) as [a|] eqn:E.
    + assert (rank x < rank a) by (rewrite Forall_forall in Hx; apply Hx; by apply last_Some_elem_of).
      assert (rank a < rank s); [| lia]. apply Hl. by rewrite last_cons, E.
    + apply last_None in E as ->. by apply Hl.
Qed.

Definition cached (key : string) (n : Notice) (sent : gmap string string) (b : Broker) : Broker :=
  with_candles (<[key := (n_cur n, n_ts n)]> (b_pending b)) sent b.

Lemma wb_seen_next key l b out n s : emitted key l b out -> feed_notice l n -> s ∈ snd <$> out -> rank s < rank (n_ts n).
Proof.
  intros Em (_ & Hm & _) Hs. destruct (em_seen _ _ _ _ Em s Hs) as (_ & (m & Hin & _) & Hl).
  destruct (last l) as [z|] eqn:E; [| apply last_None in E as ->; set_solver].
  specialize (Hl z eq_refl). specialize (Hm z (last_Some_elem_of _ _ E)). lia.
Qed.

Lemma wb_left_snoc (l : list Notice) n (k : nat) m m' : (l ++ [n]) !! k = Some m -> (l ++ [n]) !! S k = Some m' ->
  l !! k = Some m /\ l !! S k = Some m' \/ last l = Some m /\ m' = n.
Proof.
  intros H1 H2. apply lookup_app_Some in H2 as [H2|[Hl [Hk ->]%list_lookup_singleton_Some]].
  - left. split; [| done]. rewrite lookup_app_l in H1 by (apply lookup_lt_Some in H2; lia). done.
  - right. split; [| done]. rewrite last_lookup. rewrite lookup_app_l in H1 by lia. rewrite <- H1. f_equal. lia.
Qed.

Lemma wb_body_snoc (l : list Notice) n (c : json) (s : string) :
  ((exists m, m ∈ l /\ n_boot m = Some c /\ closed_start m = Some s) \/
   (exists (k : nat) m m', l !! k = Some m /\ l !! S k = Some m' /\ n_ts m' <> s /\ m = MkNotice c s (n_boot m))) ->
  (exists m, m ∈ l ++ [n] /\ n_boot m = Some c /\ closed_start m = Some s) \/
  (exists (k : nat) m m', (l ++ [n]) !! k = Some m /\ (l ++ [n]) !! S k = Some m' /\ n_ts m' <> s /\ m = MkNotice c s (n_boot m)).
Proof.
  intros [(m & ? & ?)|(k & m & m' & H1 & H2 & ?)]; [left; exists m; set_solver | right].
  exists k, m, m'. split_and!; [by apply lookup_app_l_Some | by apply lookup_app_l_Some | tauto..].
Qed.

(** Nothing is emitted. *)
Lemma wb_keep key l b out n : emitted key l b out -> feed_notice l n ->
  (forall p, closed_start n = Some p -> p ∈ snd <$> out) ->
  (forall m, last l = Some m -> n_boot n = None -> n_ts n = n_ts m) ->
  emitted key (l ++ [n]) (cached key n (b_lastSentTS b) b) out.
Proof.
  intros Em Hn Hp Hs. pose proof (wb_seen_next key l b out n) as Hnext. destruct Em as [H1 H2 H3 H4 H5 H6 H7] eqn:E. clear E. split.
  - done.
  - simpl. by rewrite lookup_insert_eq, last_snoc.
  - done.
  - intros s Hin. destruct (H4 s Hin) as (? & (m & ? & ?) & ?). split_and!; [done | exists m; set_solver |].
    intros z. rewrite last_snoc. intros [= <-]. by apply Hnext.
  - intros m p [Hm| ->%list_elem_of_singleton]%elem_of_app; eauto.
  - intros k m m' Hk Hk' Hb Ht. destruct (wb_left_snoc l n k m m' Hk Hk') as [[??]|[Hl ->]]; [eauto |]. by rewrite (Hs m Hl Hb) in Ht.
  - intros c s Hin. apply wb_body_snoc. auto.
Qed.

(** [(c, s)] is emitted. *)
Lemma wb_add key l b out n c s : emitted key l b out -> feed_notice l n ->
  s <> ""%string -> rank s < rank (n_ts n) -> (forall a, last (snd <$> out) = Some a -> rank a < rank s) ->
  (exists m, m ∈ l ++ [n] /\ s ∈ starts m) ->
  (forall p, closed_start n = Some p -> p = s) ->
  (forall m, last l = Some m -> n_boot n = None -> n_ts n <> n_ts m -> m = MkNotice c s (n_boot m)) ->
  ((n_boot n = Some c /\ closed_start n = Some s) \/ exists m, last l = Some m /\ n_ts n <> s /\ m = MkNotice c s (n_boot m)) ->
  emitted key (l ++ [n]) (cached key n (<[key := s]> (b_lastSentTS b)) b) (out ++ [(c, s)]).
Proof.
  intros Em Hn Hs0 Hsn Hlast Hseen Hp Hleft Hbody. pose proof (wb_seen_next key l b out n) as Hnext.
  destruct Em as [H1 H2 H3 H4 H5 H6 H7] eqn:E. clear E. split.
  - rewrite fmap_app. by apply wb_sorted_snoc.
  - simpl. by rewrite lookup_insert_eq, last_snoc.
  - simpl. rewrite lookup_insert_eq, fmap_app. change (snd <$> [(c, s)]) with [s]. by rewrite last_snoc.
  - rewrite fmap_app. intros z [Hin| ->%list_elem_of_singleton]%elem_of_app.
    + destruct (H4 z Hin) as (? & (m & ? & ?) & ?). split_and!; [done | exists m; set_solver |].
      intros y. rewrite last_snoc. intros [= <-]. by apply Hnext.
    + split_and!; [done | done |]. intros y. rewrite last_snoc. by intros [= <-].
  - rewrite fmap_app. intros m p [Hm| ->%list_elem_of_singleton]%elem_of_app Hc; apply elem_of_app; [left; eauto |].
    right. rewrite (Hp p Hc). apply list_elem_of_here.
  - intros k m m' Hk Hk' Hb Ht. apply elem_of_app. destruct (wb_left_snoc l n k m m' Hk Hk') as [[??]|[Hl ->]]; [left; eauto |].
    right. rewrite (Hleft m Hl Hb Ht). apply list_elem_of_here.
  - intros c' s' [Hin|[= -> ->]%list_elem_of_singleton]%elem_of_app; [apply wb_body_snoc; auto |].
    destruct Hbody as [[??]|(m & Hl & ? & Em')]; [left; exists n; set_solver |]. right.
    destruct l as [|x l']; [done |]. rewrite last_lookup in Hl. simpl in Hl.
    exists (length l'), m, n. split_and!; [by apply lookup_app_l_Some | | done | done].
    change (x :: l') with ([x] ++ l'). rewrite <- app_assoc. simpl. by rewrite lookup_app_r, Nat.sub_diag by lia.
Qed.

Lemma wb_feed_emitted key l b : b_pending b !! key = None -> b_lastSentTS b !! key = None -> feed l ->
  emitted key l (advance_all key l b).1 (advance_all key l b).2.
Proof.
  intros Hb Hs Hf. induction Hf as [| l n Hf IH Hn].
  - split; simpl; try done; [constructor | set_solver..].
  - rewrite wb_advance_snoc. destruct (advance_all key l b) as [b1 out]. simpl in IH. unfold advanceCandle.
    pose proof Hn as (Hts & Hm & Hp). destruct (n_boot n) as [boot|] eqn:Eb.
    + (* a snapshot *)
      assert (closed_start n = Some (or_zero ""%string (start_timestamp boot))) as Ec by (unfold closed_start; by rewrite Eb).
      destruct (Hp _ Ec) as (Hp0 & Hpn & Hps). set (p := or_zero ""%string (start_timestamp boot)) in *.
      rewrite (bool_decide_eq_false_2 (p = ""%string)) by done. cbn [negb andb b_lastSentTS with_candles].
      rewrite (em_last _ _ _ _ IH). destruct (bool_decide (default ""%string (last (snd <$> out)) = p)) eqn:Ed.
      * apply bool_decide_eq_true in Ed. simpl. rewrite app_nil_r. apply (wb_keep key l b1 out n); [done | done | | by rewrite Eb].
        intros q Hq. rewrite Ec in Hq. injection Hq as <-. destruct (last (snd <$> out)) as [a|] eqn:El; [| by simpl in Ed].
        simpl in Ed. rewrite <- Ed. by apply last_Some_elem_of.
      * apply bool_decide_eq_false in Ed. simpl. apply (wb_add key l b1 out n boot p); [done | done | done | done | | | | by rewrite Eb | by left].
        -- intros a Ha. rewrite Ha in Ed. simpl in Ed. pose proof (last_Some_elem_of _ _ Ha) as Hin.
           destruct (em_seen _ _ _ _ IH a Hin) as (_ & (m & Hml & Hms) & _). pose proof (wb_seen_next key l b1 out n a IH Hn Hin).
           destruct (Hps m a Hml Hms) as [Hle|He]; [| lia]. destruct (decide (rank a = rank p)) as [He|]; [| lia]. by apply rank_inj in He.
        -- exists n. split; [set_solver |]. unfold starts. rewrite Ec. set_solver.
        -- intros q Hq. rewrite Ec in Hq. by injection Hq.
    + rewrite (em_cache _ _ _ _ IH). assert (closed_start n = None) as Ec by (unfold closed_start; by rewrite Eb).
      destruct (last l) as [m|] eqn:El; simpl.
      * destruct (bool_decide (n_ts m = n_ts n)) eqn:Et.
        -- apply bool_decide_eq_true in Et. rewrite app_nil_r. apply (wb_keep key l b1 out n); [done | done | by rewrite Ec |]. intros z. rewrite El. by intros [= <-].
        -- apply bool_decide_eq_false in Et. assert (n_ts m <> ""%string) as Hm0.
           { apply last_Some_elem_of in El. clear -Hf El. induction Hf as [|l n Hf IH (? & _)]; [set_solver |].
             apply elem_of_app in El as [?| ->%list_elem_of_singleton]; auto. }
           rewrite (bool_decide_eq_false_2 (n_ts m = ""%string)) by done. cbn [negb andb b_lastSentTS with_candles].
           rewrite (em_last _ _ _ _ IH). rewrite (bool_decide_eq_false_2 (default _ _ = _)).
           2: { destruct (last (snd <$> out)) as [a|] eqn:Ea; simpl; [| done]. intros ->. apply last_Some_elem_of in Ea.
                destruct (em_seen _ _ _ _ IH _ Ea) as (_ & _ & Hl). specialize (Hl m El). lia. }
           simpl. apply (wb_add key l b1 out n (n_cur m) (n_ts m)); [done | done | done | | | | by rewrite Ec | | ].
           ++ specialize (Hm m (last_Some_elem_of _ _ El)). destruct (decide (rank (n_ts m) = rank (n_ts n))) as [He|]; [| lia]. by apply rank_inj in He.
           ++ intros a Ha. apply last_Some_elem_of in Ha. by apply (em_seen _ _ _ _ IH _ Ha).
           ++ exists m. split; [apply last_Some_elem_of in El; set_solver | unfold starts; set_solver].
           ++ intros z. rewrite El. intros [= <-] _ _. by destruct m.
           ++ right. exists m. split_and!; [done | done | by destruct m].
      * rewrite app_nil_r. apply (wb_keep key l b1 out n); [done | done | by rewrite Ec | by rewrite El].
Qed.
End Candles.

(** ** One operation after the other *)

Inductive Op :=
  | OSubscribe (orderBookID resolution : string) (channels : list string)
  | OSubscribeTrades (orderBookID : string)
  | OSubscribePrices (assetID : string)
  | OUnsubscribe (id : nat)
  | OConnect
  | OMessage (kind path : string) (data : json)
  | ODispatch (f : Frame)
  | OStop.

Definition perform (o : Op) : bprog unit :=
  match o with
  | OSubscribe book res channels => _ ← Subscribe book res channels; Ret tt
  | OSubscribeTrades book => _ ← SubscribeTrades book; Ret tt
  | OSubscribePrices asset => _ ← SubscribePrices asset; Ret tt
  | OUnsubscribe id => Unsubscribe id
  | OConnect => connect
  | OMessage kind path data => handle_message kind path data
  | ODispatch f => dispatch f
  | OStop => Stop
  end.

Fixpoint perform_all (os : list (Choice * Op)) (b : Broker) : option Broker :=
  match os with
  | [] => Some b
  | (c, o) :: rest => match solo c (perform o) b with Some (b', _) => perform_all rest b' | None => None end
  end.

(** The slice is well formed, and the open channels are those in it. *)
Record slice_ok (b : Broker) : Prop := {
  so_array : ((b_subs b).1 < length (b_arrays b))%nat;
  so_len : ((b_subs b).2 <= length (default [] (b_arrays b !! (b_subs b).1)))%nat;
  so_nodup : NoDup (live_subs b);
  so_open : forall id, id ∈ live_subs b <-> exists s, b_heap b !! id = Some s /\ s_closed s = false;
  so_panic : b_panicked b = false;
}.

(** What one subscription gets of a frame. *)
Definition deliver (f : Frame) (s : Subscription) : Subscription :=
  if negb (s_closed s) && matches s f && (length (s_ch s) <? defaultFrameBuffer)%nat then push f s else s.

Definition offer_all (f : Frame) (ids : list nat) (b : Broker) : Broker := foldl (fun b id => offer f id b) b ids.

Lemma wb_offer_same f id b : b_arrays (offer f id b) = b_arrays b /\ b_subs (offer f id b) = b_subs b.
Proof. unfold offer. split_match; done. Qed.

Lemma wb_offer_from c f arr a i n b : b_arrays b !! arr = Some a -> (i + n <= length a)%nat ->
  solo c (offer_from f arr i n) b = Some (offer_all f (take n (drop i a)) b, tt).
Proof.
  revert i b. induction n as [|n IH]; intros i b Ha Hn; [by rewrite take_0 |].
  destruct (lookup_lt_is_Some_2 a i) as [id Hid]; [lia |].
  rewrite (drop_S _ _ _ Hid). simpl. rewrite Ha. simpl. rewrite Hid. simpl.
  apply IH; [| lia]. by rewrite (proj1 (wb_offer_same f id b)).
Qed.

Lemma wb_offer_one f id b s : b_heap b !! id = Some s -> s_closed s = false ->
  b_heap (offer f id b) = <[id := deliver f s]> (b_heap b) /\ b_panicked (offer f id b) = b_panicked b.
Proof.
  intros Hs Hc. unfold offer, deliver. rewrite Hs, Hc. cbn [negb andb]. destruct (matches s f); simpl; [| by rewrite list_insert_id].
  destruct (_ <? _)%nat; simpl; [done | by rewrite list_insert_id].
Qed.

Lemma wb_deliver_open f s : s_closed (deliver f s) = s_closed s.
Proof. unfold deliver. by destruct (_ && _). Qed.

Lemma wb_offer_all f ids b : NoDup ids -> (forall id, id ∈ ids -> exists s, b_heap b !! id = Some s /\ s_closed s = false) ->
  b_panicked (offer_all f ids b) = b_panicked b /\
  forall id, b_heap (offer_all f ids b) !! id = (if bool_decide (id ∈ ids) then deliver f else (fun s => s)) <$> b_heap b !! id.
Proof.
  intros Hn. revert b. induction Hn as [|x ids Hx Hn IH]; intros b Hb; simpl.
  - split; [done |]. intros id. by destruct (b_heap b !! id).
  - destruct (Hb x) as (s & Hs & Hc); [set_solver |]. destruct (wb_offer_one f x b s Hs Hc) as [Eh Ep].
    destruct (IH (offer f x b)) as [Hp Hh].
    { intros id Hid. rewrite Eh, list_lookup_insert_ne by set_solver. apply Hb. set_solver. }
    split; [congruence |]. intros id. rewrite Hh, Eh. destruct (decide (id = x)) as [->|Hne].
    + rewrite (bool_decide_eq_false_2 (x ∈ ids)), (bool_decide_eq_true_2 (x ∈ x :: ids)) by set_solver.
      rewrite list_lookup_insert_eq by by eapply lookup_lt_Some. by rewrite Hs.
    + rewrite list_lookup_insert_ne by done. f_equal. by rewrite (bool_decide_ext (id ∈ x :: ids) (id ∈ ids)) by set_solver.
Qed.

Lemma wb_offer_slice f ids b : b_subs (offer_all f ids b) = b_subs b /\ b_arrays (offer_all f ids b) = b_arrays b.
Proof.
  revert b. induction ids as [|x ids IH]; intros b; simpl; [done |]. destruct (IH (offer f x b)) as [-> ->].
  by destruct (wb_offer_same f x b).
Qed.

(** A frame reaches each open subscription once, and nobody else. *)
Lemma wb_dispatch c f b : slice_ok b -> exists b', solo c (dispatch f) b = Some (b', tt) /\
  b_heap b' = deliver f <$> b_heap b /\ b_arrays b' = b_arrays b /\ b_subs b' = b_subs b /\ b_panicked b' = false.
Proof.
  intros [Ha Hl Hn Ho Hp]. unfold dispatch. simpl. destruct (lookup_lt_is_Some_2 _ _ Ha) as [a Ea].
  unfold live_subs in *. rewrite Ea in *. simpl in *. rewrite (wb_offer_from c f _ a) by (simpl; auto with lia). rewrite drop_0.
  eexists. split; [done |]. destruct (wb_offer_all f (take (b_subs b).2 a) b Hn) as [Ep Eh]; [by intros id Hid; apply Ho |].
  destruct (wb_offer_slice f (take (b_subs b).2 a) b) as [-> ->]. split_and!; [| done | done | congruence].
  apply list_eq. intros id. rewrite Eh, list_lookup_fmap. destruct (b_heap b !! id) as [s|] eqn:Es; [| done]. simpl. f_equal.
  case_bool_decide as Hid; [done |]. unfold deliver. destruct (s_closed s) eqn:Ec; [done |]. destruct Hid. apply Ho. by exists s.
Qed.

Lemma wb_dispatch_ok c f b : slice_ok b -> exists b', solo c (dispatch f) b = Some (b', tt) /\ slice_ok b' /\ b_heap b' = deliver f <$> b_heap b.
Proof.
  intros Hb. destruct (wb_dispatch c f b Hb) as (b' & Hs & Eh & Ea & Es & Ep). exists b'. split_and!; [done | | done].
  destruct Hb as [H1 H2 H3 H4 H5]. split; unfold live_subs in *; rewrite ?Ea, ?Es; try done.
  intros id. rewrite H4, Eh, list_lookup_fmap. split.
  - intros (s & -> & Hc). exists (deliver f s). split; [done |]. by rewrite wb_deliver_open.
  - destruct (b_heap b !! id) as [s|]; [| by intros (? & ? & _)]. intros (s' & [= <-] & Hc). exists s. split; [done |]. by rewrite wb_deliver_open in Hc.
Qed.

Lemma wb_append_live cap id b : ((b_subs b).1 < length (b_arrays b))%nat -> ((b_subs b).2 <= length (default [] (b_arrays b !! (b_subs b).1)))%nat ->
  let b' := append_sub cap id b in
  live_subs b' = live_subs b ++ [id] /\ ((b_subs b').1 < length (b_arrays b'))%nat /\
  ((b_subs b').2 <= length (default [] (b_arrays b' !! (b_subs b').1)))%nat /\ b_heap b' = b_heap b /\ b_panicked b' = b_panicked b.
Proof.
  intros Ha Hl. unfold append_sub, live_subs. destruct (b_subs b) as [arr len] eqn:Eb. simpl in *.
  destruct (lookup_lt_is_Some_2 _ _ Ha) as [a Ea]. rewrite Ea in *. simpl in *.
  destruct (Nat.ltb_spec len (length a)) as [Hlt|Hge]; simpl.
  - rewrite list_lookup_insert_eq by done. simpl. split_and!; [| by rewrite length_insert | by rewrite length_insert | done | done].
    rewrite (take_S_r _ _ id) by (by rewrite list_lookup_insert_eq). by rewrite take_insert_ge by lia.
  - rewrite lookup_app_r, Nat.sub_diag by lia. simpl. rewrite !length_app. simpl. rewrite (take_ge a) by lia. split_and!; [| lia | | done | done].
    + rewrite (cons_middle id a), (app_assoc a). rewrite take_app_length'; [done |]. rewrite length_app. simpl. lia.
    + rewrite length_replicate. lia.
Qed.

Lemma wb_register_ok cap s key b : slice_ok b -> s_closed s = false -> slice_ok (register cap s key b).1.
Proof.
  intros [H1 H2 H3 H4 H5] Hc.
  destruct (wb_append_live cap (length (b_heap b)) (with_heap (b_heap b ++ [s]) b) H1 H2) as (El & E1 & E2 & Eh & Ep).
  assert (slice_ok (append_sub cap (length (b_heap b)) (with_heap (b_heap b ++ [s]) b))) as Hok.
  { split; [exact E1 | exact E2 | | | by rewrite Ep].
    - rewrite El. apply NoDup_app. split_and!; [exact H3 | | apply NoDup_singleton]. intros id Hid ->%list_elem_of_singleton.
      apply H4 in Hid as (? & Hid & _). by apply lookup_lt_Some, Nat.lt_irrefl in Hid.
    - intros id. rewrite El, elem_of_app, list_elem_of_singleton, Eh. change (live_subs (with_heap (b_heap b ++ [s]) b)) with (live_subs b).
      rewrite H4. simpl. split.
      + intros [(z & Hz & ?)| ->]; [exists z; split; [by apply lookup_app_l_Some | done] |].
        exists s. split; [| done]. by rewrite lookup_app_r, Nat.sub_diag by done.
      + intros (z & [Hz|[Hge [Hk <-]%list_lookup_singleton_Some]]%lookup_app_Some & Hz'); [left; by exists z | right; lia]. }
  unfold register. destruct key as [k|]; [| exact Hok]. destruct (bool_decide _); [exact Hok |]. destruct Hok. by split.
Qed.

Lemma wb_remove_at i len (a : list nat) : (i < len)%nat -> (len <= length a)%nat ->
  take (len - 1) (remove_at i len a) = delete i (take len a) /\ length (remove_at i len a) = length a.
Proof.
  intros Hi Hl. unfold remove_at.
  assert (length (take i a ++ take (len - S i) (drop (S i) a)) = (len - 1)%nat) as Hlen by (rewrite length_app, !length_take, length_drop; lia).
  split.
  - rewrite app_assoc. rewrite take_app_length'; [| done]. rewrite delete_take_drop. f_equal.
    + by rewrite take_take, Nat.min_l by lia.
    + by rewrite skipn_firstn_comm.
  - rewrite !length_app, !length_take, !length_drop. lia.
Qed.

Lemma wb_unsubscribe_ok id b : slice_ok b -> slice_ok (unsubscribe id b).
Proof.
  intros Hb. pose proof Hb as [H1 H2 H3 H4 H5]. unfold unsubscribe. destruct (list_find (id =.) (live_subs b)) as [[i x]|] eqn:Ef; [| done].
  apply list_find_Some in Ef as (Hi & <- & _). destruct (b_subs b) as [arr len] eqn:Eb. simpl in *.
  destruct (lookup_lt_is_Some_2 _ _ H1) as [a Ea]. unfold live_subs in *. rewrite Eb in *. simpl in *. rewrite Ea in *. simpl in *.
  assert (i < len)%nat as Hlt by (apply lookup_lt_Some in Hi; rewrite length_take in Hi; lia).
  destruct (wb_remove_at i len a Hlt H2) as [Et El].
  assert (live_subs (with_heap (alter close_chan id (b_heap b)) (with_slice (alter (remove_at i len) arr (b_arrays b)) (arr, (len - 1)%nat) b))
          = delete i (take len a)) as Elive.
  { unfold live_subs. simpl. rewrite list_lookup_alter_eq, Ea. exact Et. }
  assert (NoDup (delete i (take len a)) /\ forall z, z ∈ delete i (take len a) <-> z <> id /\ z ∈ take len a) as [Hnd Hin].
  { pose proof (delete_Permutation _ _ _ Hi) as Hp. pose proof H3 as Hn. rewrite Hp in Hn. apply NoDup_cons in Hn as [Hnot Hn].
    split; [done |]. intros z. assert (z ∈ take len a <-> z = id \/ z ∈ delete i (take len a)) as -> by (rewrite <- elem_of_cons; by rewrite <- Hp).
    split; [| tauto]. intros Hz. split; [| by right]. by intros ->. }
  split.
  - simpl. by rewrite length_alter.
  - simpl. rewrite list_lookup_alter_eq, Ea. simpl. lia.
  - by rewrite Elive.
  - intros z. rewrite Elive, Hin, H4. simpl. destruct (decide (z = id)) as [->|Hne].
    + rewrite list_lookup_alter_eq. split; [by intros [? _] |]. intros (s & Hs & Hc). destruct (b_heap b !! id); [| done]. simpl in Hs. by injection Hs as <-.
    + rewrite list_lookup_alter_ne by done. split; [by intros [_ ?] | done].
  - exact H5.
Qed.

(** Steps that leave the subscriptions alone. *)
Lemma wb_same_ok b b' : b_heap b' = b_heap b -> b_arrays b' = b_arrays b -> b_subs b' = b_subs b -> b_panicked b' = b_panicked b -> slice_ok b -> slice_ok b'.
Proof. intros E1 E2 E3 E4 [? ? ? ? ?]. split; unfold live_subs in *; rewrite ?E1, ?E2, ?E3, ?E4; done. Qed.

Definition runs_ok (c : Choice) {A} (p : bprog A) : Prop := forall b, slice_ok b -> exists b' a, solo c p b = Some (b', a) /\ slice_ok b'.

Lemma wb_runs_bind c {A B} (p : bprog A) (k : A -> bprog B) : runs_ok c p -> (forall a, runs_ok c (k a)) -> runs_ok c (p ≫= k).
Proof. intros Hp Hk b Hb. destruct (Hp b Hb) as (b1 & a & E & H1). unfold mbind, prog_bind. rewrite solo_bind, E. by apply Hk. Qed.
Lemma wb_runs_ret c {A} (a : A) : runs_ok c (Ret a).
Proof. intros b Hb. by exists b, a. Qed.
Lemma wb_runs_atomic c {A} (f : Choice -> Broker -> Broker * A) : (forall b, slice_ok b -> slice_ok (f c b).1) -> runs_ok c (atomic f).
Proof. intros Hf b Hb. exists (f c b).1, (f c b).2. split; [done | auto]. Qed.
Lemma wb_runs_send c m : runs_ok c (send m).
Proof. apply wb_runs_atomic. intros b Hb. simpl. destruct (ch_ok c); [| done]. by apply (wb_same_ok b). Qed.
Lemma wb_runs_each c {A} (f : A -> bprog unit) l : (forall x, runs_ok c (f x)) -> runs_ok c (each f l).
Proof. intros Hf. induction l as [|x l IH]; simpl; [apply wb_runs_ret |]. by apply wb_runs_bind. Qed.
Lemma wb_runs_dispatch c f : runs_ok c (dispatch f).
Proof. intros b Hb. destruct (wb_dispatch_ok c f b Hb) as (b' & E & H & _). by exists b', tt. Qed.
Lemma wb_runs_if c {A} (t : bool) (p q : bprog A) : runs_ok c p -> runs_ok c q -> runs_ok c (if t then p else q).
Proof. by destruct t. Qed.

Lemma wb_runs_register c s key {A} (k : nat * bool * bool -> bprog A) : s_closed s = false -> (forall r, runs_ok c (k r)) ->
  runs_ok c (atomic (fun c => register (ch_cap c) s key) ≫= k).
Proof. intros Hs Hk. apply wb_runs_bind; [| done]. apply wb_runs_atomic. intros b Hb. by apply wb_register_ok. Qed.

Lemma wb_runs_candles c res ob arr : runs_ok c (handle_candles res ob arr).
Proof.
  unfold handle_candles. destruct (or_zero [] _) as [|x l]; [apply wb_runs_ret |]. destruct (split_candles _) as [[cur boot]|]; [| apply wb_runs_ret].
  destruct (start_timestamp cur) as [ts|]; [| apply wb_runs_ret]. apply wb_runs_if; [apply wb_runs_ret |].
  apply wb_runs_bind; [| intros [[? ?]|]; [apply wb_runs_dispatch | apply wb_runs_ret]].
  apply wb_runs_atomic. intros b Hb. apply (wb_same_ok b); [..| done]; unfold advanceCandle; split_match; done.
Qed.

Lemma wb_runs_message c kind path data : runs_ok c (handle_message kind path data).
Proof.
  unfold handle_message. repeat (apply wb_runs_if); try apply wb_runs_ret.
  - unfold handleCandleNotification. destruct (unmarshal_string "resolution" data), (unmarshal_map "candles" data); try apply wb_runs_ret.
    apply wb_runs_each. intros [? ?]. apply wb_runs_candles.
  - apply wb_runs_each. intros f. apply wb_runs_dispatch.
  - apply wb_runs_each. intros f. apply wb_runs_dispatch.
Qed.

Lemma wb_runs_perform c o : runs_ok c (perform o).
Proof.
  destruct o; cbn [perform].
  - apply wb_runs_bind; [| intros ?; apply wb_runs_ret]. apply wb_runs_register; [done |]. intros [[? ?] ?].
    apply wb_runs_bind; [| intros ?; apply wb_runs_ret]. apply wb_runs_if; [apply wb_runs_send | apply wb_runs_ret].
  - apply wb_runs_bind; [| intros ?; apply wb_runs_ret]. apply wb_runs_register; [done |]. intros [[? ?] ?].
    apply wb_runs_bind; [| intros ?; apply wb_runs_ret]. apply wb_runs_if; [apply wb_runs_send | apply wb_runs_ret].
  - apply wb_runs_bind; [| intros ?; apply wb_runs_ret]. apply wb_runs_register; [done |]. intros [[? ?] ?].
    apply wb_runs_bind; [| intros ?; apply wb_runs_ret]. apply wb_runs_if; [apply wb_runs_send | apply wb_runs_ret].
  - apply wb_runs_atomic. intros b Hb. by apply wb_unsubscribe_ok.
  - apply wb_runs_bind; [apply wb_runs_atomic; intros b Hb; by apply (wb_same_ok b) | intros ?].
    apply wb_runs_bind; [apply wb_runs_atomic; intros b Hb; done | intros pending]. apply wb_runs_each. intros m. apply wb_runs_send.
  - apply wb_runs_message.
  - apply wb_runs_dispatch.
  - apply wb_runs_atomic. intros b Hb. by apply (wb_same_ok b).
Qed.

Lemma wb_new_ok : slice_ok New.
Proof. split; simpl; try done; [lia | constructor |]. intros id. split; [set_solver |]. by intros (s & ? & _). Qed.

Lemma wb_perform_all os b : slice_ok b -> exists b', perform_all os b = Some b' /\ slice_ok b'.
Proof.
  revert b. induction os as [|[c o] os IH]; intros b Hb; simpl; [by exists b |].
  destruct (wb_runs_perform c o b Hb) as (b1 & a & -> & H1). by apply IH.
Qed.

(** When the calls of the broker do not overlap, every sequence of them
    runs to its end without a send on a closed channel, and a frame that is
    dispatched then is appended to the channel of every subscription that is
    still subscribed, matches and has room, exactly once, and to no other. *)
Theorem broker_dispatch_exact os c f : exists b, perform_all os New = Some b /\ b_panicked b = false /\
  exists b', solo c (dispatch f) b = Some (b', tt) /\ b_panicked b' = false /\
    forall id s, b_heap b !! id = Some s ->
      b_heap b' !! id = Some (if bool_decide (id ∈ live_subs b) && matches s f && (length (s_ch s) <? defaultFrameBuffer)%nat then push f s else s).
Proof.
  destruct (wb_perform_all os New wb_new_ok) as (b & E & Hb). exists b. split_and!; [done | apply Hb |].
  destruct (wb_dispatch c f b Hb) as (b' & Es & Eh & _ & _ & Ep). exists b'. split_and!; [done | done |].
  intros id s Hs. rewrite Eh, list_lookup_fmap, Hs. simpl. f_equal. unfold deliver.
  assert (bool_decide (id ∈ live_subs b) = negb (s_closed s)) as ->; [| done].
  destruct (s_closed s) eqn:Ec; [apply bool_decide_eq_false_2 | apply bool_decide_eq_true_2]; rewrite (so_open b Hb); [| by exists s].
  intros (z & Hz & Hz'). congruence.
Qed.

(** C39: on any feed that goes forward in time and whose snapshots pair the
    current candle with the latest one closed before it, the candles of a book
    and resolution are emitted in strictly increasing order of their starts,
    none twice; each is the closed candle of a snapshot or the last state the
    feed showed of it; every candle a snapshot closes, and every candle that
    an update leaves behind, has been emitted. *)
Theorem candles_closed_once rank key b l :
  (forall x y, rank x = rank y -> x = y) -> b_pending b !! key = None -> b_lastSentTS b !! key = None -> feed rank l ->
  let out := (advance_all key l b).2 in
  StronglySorted (fun x y => rank x < rank y) (snd <$> out) /\
  (forall n p, n ∈ l -> closed_start n = Some p -> p ∈ snd <$> out) /\
  (forall k n n', l !! k = Some n -> l !! S k = Some n' -> n_boot n' = None -> n_ts n' <> n_ts n -> (n_cur n, n_ts n) ∈ out) /\
  (forall candle s, (candle, s) ∈ out ->
     (exists n, n ∈ l /\ n_boot n = Some candle /\ closed_start n = Some s) \/
     (exists k n n', l !! k = Some n /\ l !! S k = Some n' /\ n_ts n' <> s /\ n = MkNotice candle s (n_boot n))).
Proof. intros Hr Hb Hs Hf. destruct (wb_feed_emitted rank Hr key l b Hb Hs Hf). by split_and!. Qed.

(** ** Runs *)

Module BrokerDemo.
Definition rank (s : string) : Z := Z.pos (encode s).
Definition candle (start close : string) : json := JObject [("start_timestamp"%string, JString start); ("close"%string, JString close)].
Definition update (start close : string) : Notice := MkNotice (candle start close) start None.
Definition snapshot (closed start close : string) : Notice := MkNotice (candle start close) start (Some (candle closed "final")).
(** A subscription, two windows, a reconnect within the third and one after
    a window was missed. *)
Definition notices : list Notice :=
  [snapshot "a" "b" "1"; update "b" "2"; update "c" "3"; snapshot "b" "c" "4"; update "c" "5"; snapshot "d" "e" "6"].

Definition c : Choice := MkChoice 4 true.
Definition ops : list (Choice * Op) :=
  [(c, OSubscribe "book" "1m" ["candle"%string]); (c, OSubscribeTrades "book"); (c, OConnect); (c, OUnsubscribe 0); (c, OSubscribeTrades "*")].
Definition trade : Frame := MkFrame "trade" "book" "" "" JNull.

(** Three strategies; while a frame is dispatched the second unsubscribes:
    the dispatch has taken [k] steps and takes [n] more. *)
Definition serve (r : bool) : thread Broker Choice unit := MkThread tt (if r then dispatch trade else Unsubscribe 1).
Definition race (k n : nat) : list (label Choice Empty_set bool) :=
  [LArrive true] ++ replicate k (LThread 0 c) ++ [LArrive false; LThread 1 c] ++ replicate n (LThread 0 c).
Definition three : Broker := default New (perform_all (replicate 3 (c, OSubscribeTrades "book")) New).
Definition after_race (k n : nat) : option (bool * list nat) :=
  (fun s => (b_panicked (shared s), length ∘ s_ch <$> b_heap (shared s))) <$>
  sys_run (fun (e : Empty_set) b => match e with end) serve (race k n) (MkSystem three []).
End BrokerDemo.

(** The broker's mutex does not cover the elements of the slice: an
    [Unsubscribe] during a dispatch shifts them under it, so that a strategy
    receives a frame twice, or closes a channel that is then sent to. *)
Example broker_unsubscribe_races_dispatch :
  BrokerDemo.after_race 3 4 = Some (false, [1; 0; 2]%nat) /\ BrokerDemo.after_race 4 1 = Some (true, [1; 0; 0]%nat).
Proof. split; vm_compute; reflexivity. Qed.

(** Nothing takes a key back: an unsubscribed book is requested again with
    every connection. *)
Example broker_resubscribes_forever :
  b_sent <$> perform_all [(BrokerDemo.c, OSubscribeTrades "book"); (BrokerDemo.c, OUnsubscribe 0); (BrokerDemo.c, OConnect)] New
  = Some [SubscribeTradesOf "book"].
Proof. vm_compute. reflexivity. Qed.

Lemma candles_closed_once_witness :
  let out := (advance_all "book:1m" BrokerDemo.notices New).2 in
  snd <$> out = ["a"; "b"; "d"]%string /\ StronglySorted (fun x y => BrokerDemo.rank x < BrokerDemo.rank y) (snd <$> out) /\
  (BrokerDemo.candle "b" "2", "b"%string) ∈ out.
Proof.
  assert (forall x y, BrokerDemo.rank x = BrokerDemo.rank y -> x = y) as Hr by (intros x y [= E]; by apply (inj encode)).
  assert (feed BrokerDemo.rank BrokerDemo.notices) as Hf by (apply wb_feed_dec; vm_compute; reflexivity).
  destruct (candles_closed_once BrokerDemo.rank "book:1m" New BrokerDemo.notices Hr eq_refl eq_refl Hf) as (H1 & _ & H3 & _).
  split; [vm_compute; reflexivity | split; [exact H1 |]].
  apply (H3 1%nat (BrokerDemo.update "b" "2") (BrokerDemo.update "c" "3")); [reflexivity | reflexivity | reflexivity | discriminate].
Defined.

Lemma broker_dispatch_exact_witness :
  exists b b', perform_all BrokerDemo.ops New = Some b /\ solo BrokerDemo.c (dispatch BrokerDemo.trade) b = Some (b', tt) /\
    (fun s => s_ch s) <$> b_heap b' !! 1%nat = Some [BrokerDemo.trade].
Proof.
  destruct (broker_dispatch_exact BrokerDemo.ops BrokerDemo.c BrokerDemo.trade) as (b & E & _ & b' & E' & _ & H).
  exists b, b'. split; [exact E | split; [exact E' |]].
  assert (Some b = perform_all BrokerDemo.ops New) as Eb by (symmetry; exact E).
  assert (exists s, b_heap b !! 1%nat = Some s /\ matches s BrokerDemo.trade = true /\ s_ch s = [] /\ live_subs b = [1%nat; 2%nat]) as (s & Hs & Hm & Hc & Hl).
  { vm_compute in Eb. injection Eb as ->. eexists. split_and!; [reflexivity | vm_compute; reflexivity..]. }
  rewrite (H 1%nat s Hs), Hl, Hm, Hc. simpl. by rewrite Hc.
Defined.
