(* ===== verification/Lifecycle.v ===== *)
(** * internal/agent/orchestrator: the life of a deployment

    [lifecycle.go] and [restart.go], with the table of deployments
    ([deployment/postgres.go]).  An attempt is one call of Deploy that reached
    the broker; it is numbered, and the subscriptions, the module instance, the
    context and the goroutine it creates carry its number.

    Deploy starts a goroutine that may call Deploy again, so a started
    goroutine is noted in the state and runs as a thread that arrives for it;
    the threads of a system arrive in any order and may not arrive at all.
    The WASM runtime, the broker's frames and the key store are outside: the
    outcome of [_start], of loading and of instantiating a module are choices
    of the environment. *)

From S2P Require Import Prelude Concurrency.

(** ** Data *)

Inductive Status := StatusRunning | StatusStopped | StatusCrashed | StatusHalted.

#[export] Instance Status_eq_dec : EqDecision Status.
Proof. solve_decision. Defined.

(** [deployment.Deployment], a row; [d_StoppedAt]: it has been set. *)
Record Deployment := MkDeployment {
  d_ID : string; d_StrategyID : string; d_Revision : string; d_UserID : string; d_OrderBookID : string; d_Resolution : string;
  d_Params : list (string * string); d_Status : Status; d_StoppedAt : bool; d_StoppedReason : string; d_RestartCount : Z;
  d_HotswappedFromRev : string; d_CandleCount : Z; d_WarmupCandles : Z;
}.

Record DeployConfig := MkDeployConfig {
  c_DeploymentID : string; c_StrategyID : string; c_Revision : string; c_UserID : string; c_OrderBookID : string; c_DoraAPIKey : string;
  c_WasmRef : string; c_Resolution : string; c_ManifestHash : string; c_WarmupCandles : Z; c_Params : list (string * string);
}.

(** The parts of a manifest the orchestrator reads. *)
Record Manifest := MkManifest { m_Channels : list string; m_AssetIDs : list string; m_WarmupCandles : Z }.

(** [liveHostState] as the orchestrator builds it. *)
Record liveHostState := MkHost {
  h_userID : string; h_strategyID : string; h_deployment : string; h_orderBook : string; h_apiKey : string; h_resolution : string;
  h_assetID : string; h_warmupCandles : Z;
}.

(** ** The restart budget ([restart.go]) *)

Record RestartConfig := MkRestartConfig { rc_Window : Z; rc_MaxRestarts : Z }.

(** [Allow] at [now]: the answer and the restarts kept. *)
Definition Allow (cfg : RestartConfig) (now : Z) (resets : list Z) : bool * list Z :=
  let live := List.filter (fun t => now - rc_Window cfg <? t) resets in
  if rc_MaxRestarts cfg <=? Z.of_nat (length live) then (false, live) else (true, live ++ [now]).
Definition Reset (resets : list Z) : list Z := [].

(** ** The orchestrator *)

Inductive SubKind := SubCandles | SubTrades | SubPrices.

#[export] Instance SubKind_eq_dec : EqDecision SubKind.
Proof. solve_decision. Defined.
#[export] Instance SubKind_countable : Countable SubKind.
Proof.
  refine (inj_countable' (fun k => match k with SubCandles => 0 | SubTrades => 1 | SubPrices => 2 end)%nat
            (fun n => match n with O => SubCandles | S O => SubTrades | _ => SubPrices end)%nat _). by intros [].
Defined.

Record Instance_ := MkInstance { li_deploymentID : string; li_attempt : nat; li_state : liveHostState }.

(** [o_subs]: the subscriptions at the broker; [o_modules]: the open module
    instances; [o_candles]: what [candleCount] counts; [o_spawned]: the
    goroutines started, with their instance until they run.  [o_attempts] and [o_over] record
    history: the attempts made, and those that have failed or been torn down. *)
Record Orchestrator := MkOrchestrator {
  o_live : gmap string Instance_;
  o_rows : gmap string Deployment;
  o_subs : gset (nat * SubKind);
  o_modules : gset nat;
  o_cancelled : gset nat;
  o_done : gset nat;
  o_budgets : gmap nat (list Z);
  o_candles : gmap nat Z;
  o_spawned : gmap nat (option Instance_);
  o_audit : list (string * string);
  o_now : Z;
  o_attempts : nat;
  o_over : gset nat;
}.

Definition NewOrchestrator (rows : gmap string Deployment) : Orchestrator := MkOrchestrator ∅ rows ∅ ∅ ∅ ∅ ∅ ∅ ∅ [] 0 0 ∅.

Definition with_live l o := MkOrchestrator l (o_rows o) (o_subs o) (o_modules o) (o_cancelled o) (o_done o) (o_budgets o) (o_candles o) (o_spawned o) (o_audit o) (o_now o) (o_attempts o) (o_over o).
Definition with_rows r o := MkOrchestrator (o_live o) r (o_subs o) (o_modules o) (o_cancelled o) (o_done o) (o_budgets o) (o_candles o) (o_spawned o) (o_audit o) (o_now o) (o_attempts o) (o_over o).
Definition with_subs s o := MkOrchestrator (o_live o) (o_rows o) s (o_modules o) (o_cancelled o) (o_done o) (o_budgets o) (o_candles o) (o_spawned o) (o_audit o) (o_now o) (o_attempts o) (o_over o).
Definition with_modules m o := MkOrchestrator (o_live o) (o_rows o) (o_subs o) m (o_cancelled o) (o_done o) (o_budgets o) (o_candles o) (o_spawned o) (o_audit o) (o_now o) (o_attempts o) (o_over o).
Definition with_contexts c d o := MkOrchestrator (o_live o) (o_rows o) (o_subs o) (o_modules o) c d (o_budgets o) (o_candles o) (o_spawned o) (o_audit o) (o_now o) (o_attempts o) (o_over o).
Definition with_counts b c o := MkOrchestrator (o_live o) (o_rows o) (o_subs o) (o_modules o) (o_cancelled o) (o_done o) b c (o_spawned o) (o_audit o) (o_now o) (o_attempts o) (o_over o).
Definition with_spawned s o := MkOrchestrator (o_live o) (o_rows o) (o_subs o) (o_modules o) (o_cancelled o) (o_done o) (o_budgets o) (o_candles o) s (o_audit o) (o_now o) (o_attempts o) (o_over o).
Definition with_audit a t o := MkOrchestrator (o_live o) (o_rows o) (o_subs o) (o_modules o) (o_cancelled o) (o_done o) (o_budgets o) (o_candles o) (o_spawned o) a t (o_attempts o) (o_over o).
Definition with_history n e o := MkOrchestrator (o_live o) (o_rows o) (o_subs o) (o_modules o) (o_cancelled o) (o_done o) (o_budgets o) (o_candles o) (o_spawned o) (o_audit o) (o_now o) n e.

(** How [_start] ends. *)
Inductive StartResult := StartReturned | StartExit0 | StartFailed (err : string).

(** What the world decides. *)
Record Choice := MkChoice {
  ch_ok : bool;                         (* the database answers *)
  ch_load : option Manifest;            (* [Registry.Load] *)
  ch_start : option StartResult;        (* [_start] ends *)
  ch_ended : bool;                      (* the caller's context has ended *)
  ch_key : option string;               (* the key provider *)
  ch_halted : bool;                     (* the safety kernel *)
  ch_order : list string;               (* the order of rows *)
}.
Notation oprog := (prog Orchestrator Choice).

(** What the orchestrator is configured with. *)
Record Config := MkConfig {
  g_broker : bool;
  g_store : bool;
  g_kernel : bool;
  g_restart : RestartConfig;
  g_resolver : option (Deployment -> result (string * string));
}.

(** An error of the runtime; its text is not modelled. *)
Definition err_outside : error := ErrMsg "".
Fixpoint error_text (e : error) : string :=
  match e with ErrMsg m => m | ErrWrap ctx e => ctx +:+ ": " +:+ error_text e end.

(** ** The table of deployments *)

Definition owned (id userID : string) (rows : gmap string Deployment) : option Deployment :=
  d ← rows !! id; if bool_decide (d_UserID d = userID) then Some d else None.
Definition err_not_found : error := ErrMsg "deployment: not found".

(** One UPDATE of the row of a user. *)
Definition update_row (f : Deployment -> Deployment) (id userID : string) (ok : bool) (o : Orchestrator) : Orchestrator * result unit :=
  if negb ok then (o, Err (ErrMsg "database"))
  else match owned id userID (o_rows o) with
       | Some d => (with_rows (<[id := f d]> (o_rows o)) o, Ok tt)
       | None => (o, Err err_not_found)
       end.

Definition set_status (s : Status) (reason : string) (d : Deployment) : Deployment :=
  MkDeployment (d_ID d) (d_StrategyID d) (d_Revision d) (d_UserID d) (d_OrderBookID d) (d_Resolution d) (d_Params d) s
    (d_StoppedAt d || bool_decide (s = StatusStopped) || bool_decide (s = StatusCrashed)) reason (d_RestartCount d)
    (d_HotswappedFromRev d) (d_CandleCount d) (d_WarmupCandles d).
Definition set_revision (rev : string) (d : Deployment) : Deployment :=
  MkDeployment (d_ID d) (d_StrategyID d) rev (d_UserID d) (d_OrderBookID d) (d_Resolution d) (d_Params d) (d_Status d)
    (d_StoppedAt d) (d_StoppedReason d) (d_RestartCount d) (d_Revision d) (d_CandleCount d) (d_WarmupCandles d).
Definition inc_restart (d : Deployment) : Deployment :=
  MkDeployment (d_ID d) (d_StrategyID d) (d_Revision d) (d_UserID d) (d_OrderBookID d) (d_Resolution d) (d_Params d) (d_Status d)
    (d_StoppedAt d) (d_StoppedReason d) (d_RestartCount d + 1) (d_HotswappedFromRev d) (d_CandleCount d) (d_WarmupCandles d).
Definition set_counts (candles warmup : Z) (d : Deployment) : Deployment :=
  MkDeployment (d_ID d) (d_StrategyID d) (d_Revision d) (d_UserID d) (d_OrderBookID d) (d_Resolution d) (d_Params d) (d_Status d)
    (d_StoppedAt d) (d_StoppedReason d) (d_RestartCount d) (d_HotswappedFromRev d) candles warmup.

(** The attempt [k] whose context the call gets; a call with an ended context
    fails.  [None]: a context that does not end. *)
Definition db_ok (k : option nat) (c : Choice) (o : Orchestrator) : bool :=
  ch_ok c && match k with Some k => negb (bool_decide (k ∈ o_cancelled o)) | None => true end.
Definition db {A} (k : option nat) (f : bool -> Orchestrator -> Orchestrator * A) : oprog A := atomic (fun c o => f (db_ok k c o) o).

Definition UpdateStatus (k : option nat) (id userID : string) (s : Status) (reason : string) : oprog (result unit) :=
  db k (update_row (set_status s reason) id userID).
Definition IncRestart (k : option nat) (id userID : string) : oprog (result unit) := db k (update_row inc_restart id userID).
Definition SetCandleCount (k : option nat) (id userID : string) (n : Z) : oprog (result unit) :=
  db k (update_row (fun d => set_counts n (d_WarmupCandles d) d) id userID).
Definition UpdateWarmupCandles (k : option nat) (id userID : string) (n : Z) : oprog (result unit) :=
  db k (update_row (fun d => set_counts (d_CandleCount d) n d) id userID).
Definition StoreHotSwap (id userID rev : string) : oprog (result unit) := db None (update_row (set_revision rev) id userID).
Definition Get (k : option nat) (id userID : string) : oprog (result Deployment) :=
  db k (fun ok o => (o, if negb ok then Err (ErrMsg "database") else match owned id userID (o_rows o) with Some d => Ok d | None => Err err_not_found end)).

(** The running rows, in the order the database returns. *)
Definition ListRunning : oprog (result (list Deployment)) :=
  Atom (fun c o =>
    let rows := filter (fun p => d_Status p.2 = StatusRunning) (o_rows o) in
    if negb (ch_ok c) then Some (o, Ret (Err (ErrMsg "database")))
    else if bool_decide (NoDup (ch_order c) /\ list_to_set (ch_order c) = dom rows) then Some (o, Ret (Ok (omap (fun id => rows !! id) (ch_order c))))
    else None).

Section Orchestrate.
Variable g : Config.

(** ** Deploy *)

Definition validateForLive (cfg : DeployConfig) : result unit :=
  if bool_decide (c_DeploymentID cfg = ""%string) then Err (ErrMsg "orchestrator: DeploymentID is required")
  else if bool_decide (c_OrderBookID cfg = ""%string) then Err (ErrMsg ("orchestrator: deployment " +:+ c_DeploymentID cfg +:+ ": OrderBookID is required"))
  else if bool_decide (c_Resolution cfg = ""%string) then Err (ErrMsg ("orchestrator: deployment " +:+ c_DeploymentID cfg +:+ ": Resolution is required; refusing to start with implicit default"))
  else Ok tt.

Definition hasChannel (m : Manifest) (want : string) : bool := existsb (fun c => bool_decide (c = want)) (m_Channels m).

(** The subscription to candles numbers the attempt. *)
Definition subscribe_first : oprog nat :=
  atomic (fun _ o => let k := o_attempts o in (with_subs ({[(k, SubCandles)]} ∪ o_subs o) (with_history (S k) (o_over o) o), k)).
Definition subscribe (k : nat) (s : SubKind) : oprog unit := update (fun o => with_subs ({[(k, s)]} ∪ o_subs o) o).
(** Idempotent, also on the subscription that was never made. *)
Definition unsubscribe (k : nat) (s : SubKind) : oprog unit := update (fun o => with_subs (o_subs o ∖ {[(k, s)]}) o).
Definition over (k : nat) : oprog unit := update (fun o => with_history (o_attempts o) ({[k]} ∪ o_over o) o).

Definition Load (k : nat) : oprog (option Manifest) :=
  atomic (fun c o => (match ch_load c with Some _ => with_modules ({[k]} ∪ o_modules o) o | None => o end, ch_load c)).
Definition close_module (k : nat) : oprog unit := update (fun o => with_modules (o_modules o ∖ {[k]}) o).
Definition cancel (k : nat) : oprog unit := update (fun o => with_contexts ({[k]} ∪ o_cancelled o) (o_done o) o).

(** The subscriptions the manifest asks for. *)
Definition subscribe_more (k : nat) (m : Manifest) : oprog unit :=
  _ ← (if hasChannel m "trade" then subscribe k SubTrades else Ret tt);
  if hasChannel m "price" && negb (bool_decide (m_AssetIDs m = [])) then subscribe k SubPrices else Ret tt.

(** [buildLiveHostState], with the count of candles of the row. *)
Definition buildLiveHostState (ctx : option nat) (k : nat) (cfg : DeployConfig) (m : Manifest) : oprog liveHostState :=
  row ← Get ctx (c_DeploymentID cfg) (c_UserID cfg);
  _ ← update (fun o => with_counts (o_budgets o) (<[k := match row with Ok d => d_CandleCount d | Err _ => 0 end]> (o_candles o)) o);
  Ret (MkHost (c_UserID cfg) (c_StrategyID cfg) (c_DeploymentID cfg) (c_OrderBookID cfg) (c_DoraAPIKey cfg) (c_Resolution cfg)
         (hd ""%string (m_AssetIDs m)) (if 0 <? m_WarmupCandles m then m_WarmupCandles m else c_WarmupCandles cfg)).

Definition syncWarmupCandles (ctx : option nat) (cfg : DeployConfig) (warmup : Z) : oprog unit :=
  if warmup <=? 0 then Ret tt else _ ← UpdateWarmupCandles ctx (c_DeploymentID cfg) (c_UserID cfg) warmup; Ret tt.

(** [o.liveInstances[id] = li], with a new budget, and [go o.runLive(...)] *)
Definition register (li : Instance_) : oprog unit :=
  update (fun o => with_live (<[li_deploymentID li := li]> (o_live o)) (with_counts (<[li_attempt li := []]> (o_budgets o)) (o_candles o) o)).
Definition spawn (li : Instance_) : oprog unit := update (fun o => with_spawned (<[li_attempt li := Some li]> (o_spawned o)) o).

(** Marshalling the configuration, a struct of texts, is left out: it does not fail. *)
Definition Deploy (ctx : option nat) (cfg : DeployConfig) : oprog (result unit) :=
  match validateForLive cfg with
  | Err e => Ret (Err e)
  | Ok _ =>
      if negb (g_broker g) then Ret (Err (ErrMsg "orchestrator: nil WsBroker"))
      else if negb (g_store g) then Ret (Err (ErrMsg "orchestrator: nil DeployStore"))
      else
        exists_ ← read (fun o => bool_decide (is_Some (o_live o !! c_DeploymentID cfg)));
        if exists_ : bool then Ret (Err (ErrMsg ("orchestrator: deployment " +:+ c_DeploymentID cfg +:+ " already running")))
        else
          k ← subscribe_first;
          loaded ← Load k;
          match loaded with
          | None => _ ← unsubscribe k SubCandles; _ ← over k; Ret (Err (ErrWrap "orchestrator: load wasm" err_outside))
          | Some m =>
              _ ← subscribe_more k m;
              state ← buildLiveHostState ctx k cfg m;
              instantiated ← choose ch_ok;
              if negb instantiated then
                _ ← cancel k;
                _ ← close_module k;
                _ ← unsubscribe k SubCandles; _ ← unsubscribe k SubTrades; _ ← unsubscribe k SubPrices;
                _ ← over k;
                Ret (Err (ErrWrap "orchestrator: instantiate" err_outside))
              else
                let li := MkInstance (c_DeploymentID cfg) k state in
                _ ← register li;
                _ ← spawn li;
                _ ← syncWarmupCandles ctx cfg (m_WarmupCandles m);
                Ret (Ok tt)
          end
  end.

(** ** The goroutine of a deployment *)

Definition teardownLive (li : Instance_) : oprog unit :=
  let k := li_attempt li in
  _ ← close_module k;
  _ ← unsubscribe k SubCandles; _ ← unsubscribe k SubTrades; _ ← unsubscribe k SubPrices;
  _ ← update (fun o => with_live (delete (li_deploymentID li) (o_live o)) o);
  over k.

Definition persistCandleCount (li : Instance_) : oprog unit :=
  let k := li_attempt li in
  if negb (g_store g) then Ret tt
  else
    n ← read (fun o => default 0 (o_candles o !! k));
    _ ← SetCandleCount (Some k) (h_deployment (li_state li)) (h_userID (li_state li)) (Z.max n 0);
    Ret tt.

Definition buildRestartConfig (li : Instance_) : oprog DeployConfig :=
  let h := li_state li in
  row ← Get (Some (li_attempt li)) (li_deploymentID li) (h_userID h);
  Ret match row with
      | Ok d => MkDeployConfig (li_deploymentID li) (h_strategyID h) "" (h_userID h) (h_orderBook h) (h_apiKey h)
                  (d_Revision d) (d_Resolution d) "" (d_WarmupCandles d) (d_Params d)
      | Err _ => MkDeployConfig (li_deploymentID li) (h_strategyID h) "" (h_userID h) (h_orderBook h) (h_apiKey h) "" "" "" 0 []
      end.

Definition record_panic (li : Instance_) (err : string) : oprog unit :=
  update (fun o => with_audit (o_audit o ++ [(li_deploymentID li, err)]) (o_now o) o).

(** [li.budget.Allow()]: only the goroutine of the instance uses its budget. *)
Definition allow_restart (k : nat) : oprog bool :=
  atomic (fun _ o => let '(ok, kept) := Allow (g_restart g) (o_now o) (default [] (o_budgets o !! k)) in
                     (with_counts (<[k := kept]> (o_budgets o)) (o_candles o) o, ok)).

Definition handleRunError (li : Instance_) (err : string) : oprog unit :=
  let k := li_attempt li in let id := li_deploymentID li in let user := h_userID (li_state li) in
  _ ← record_panic li err;
  allowed ← allow_restart k;
  if negb allowed then _ ← UpdateStatus (Some k) id user StatusCrashed "restart budget exhausted"; Ret tt
  else
    _ ← persistCandleCount li;
    cfg ← buildRestartConfig li;
    r ← Deploy (Some k) cfg;
    match r with
    | Err e =>
        _ ← IncRestart (Some k) id user;
        _ ← UpdateStatus (Some k) id user StatusCrashed ("in-process restart failed: " +:+ error_text e); Ret tt
    | Ok _ => _ ← IncRestart (Some k) id user; Ret tt
    end.

Definition invokeStart : oprog StartResult := await (fun c _ => ch_start c).

Definition runLive (li : Instance_) : oprog unit :=
  r ← invokeStart;
  _ ← match r with
      | StartExit0 => _ ← UpdateStatus None (li_deploymentID li) (h_userID (li_state li)) StatusStopped "clean exit"; Ret tt
      | StartFailed err => handleRunError li err
      | StartReturned => Ret tt
      end;
  _ ← teardownLive li;
  update (fun o => with_contexts (o_cancelled o) ({[li_attempt li]} ∪ o_done o) o).

(** ** Stop, Resume, HotSwap *)

Definition find_live (id : string) : oprog (option Instance_) := read (fun o => o_live o !! id).

(** [<-li.done], or the end of the caller's context *)
Definition wait_done (k : nat) : oprog bool :=
  Atom (fun c o => if ch_ended c then Some (o, Ret false) else if bool_decide (k ∈ o_done o) then Some (o, Ret true) else None).

Definition Stop (id userID : string) : oprog (result unit) :=
  li ← find_live id;
  match li with
  | None => UpdateStatus None id userID StatusStopped "not running"
  | Some li =>
      _ ← cancel (li_attempt li);
      finished ← wait_done (li_attempt li);
      if negb finished then Ret (Err (ErrMsg "orchestrator: stop timed out")) else UpdateStatus None id userID StatusStopped "user stop"
  end.

Definition resolveVersion (d : Deployment) : result (string * string) :=
  match g_resolver g with
  | Some resolve => resolve d
  | None => if bool_decide (d_Revision d = ""%string) then Err (ErrMsg "orchestrator: deployment has no revision; wire VersionResolver") else Ok (d_Revision d, d_Revision d)
  end.

Definition deployConfigFromRow (d : Deployment) (key wasmRef manifestHash : string) : DeployConfig :=
  MkDeployConfig (d_ID d) (d_StrategyID d) (d_Revision d) (d_UserID d) (d_OrderBookID d) key wasmRef (d_Resolution d) manifestHash
    (d_WarmupCandles d) (d_Params d).

Definition Resume (id userID key : string) : oprog (result unit) :=
  row ← Get None id userID;
  match row with
  | Err e => Ret (Err (ErrWrap "orchestrator: resume lookup" e))
  | Ok d =>
      if bool_decide (d_Resolution d = ""%string) then Ret (Err (ErrMsg ("orchestrator: resume " +:+ d_ID d +:+ ": deployment row has no resolution; refusing to resume with implicit default")))
      else if bool_decide (d_OrderBookID d = ""%string) then Ret (Err (ErrMsg ("orchestrator: resume " +:+ d_ID d +:+ ": deployment row has no order_book_id")))
      else match resolveVersion d with
      | Err e => Ret (Err (ErrWrap "orchestrator: resume resolve" e))
      | Ok (wasmRef, manifestHash) =>
          marked ← UpdateStatus None id userID StatusRunning "";
          match marked with
          | Err e => Ret (Err (ErrWrap "orchestrator: resume mark running" e))
          | Ok _ => Deploy None (deployConfigFromRow d key wasmRef manifestHash)
          end
      end
  end.

(** The configuration names no resolution. *)
Definition hotswap_config (id userID rev wasmRef manifestHash key book : string) : DeployConfig :=
  MkDeployConfig id "" rev userID book key wasmRef "" manifestHash 0 [].

Definition HotSwap (id userID rev wasmRef manifestHash key book : string) : oprog (result unit) :=
  li ← find_live id;
  _ ← match li with
      | Some li => _ ← cancel (li_attempt li); await (fun _ o => if bool_decide (li_attempt li ∈ o_done o) then Some tt else None)
      | None => Ret tt
      end;
  swapped ← StoreHotSwap id userID rev;
  match swapped with
  | Err e => Ret (Err (ErrWrap "orchestrator: store hotswap" e))
  | Ok _ => Deploy None (hotswap_config id userID rev wasmRef manifestHash key book)
  end.

(** ** Recover *)

Definition recover_one (d : Deployment) : oprog bool :=
  let fail s reason := _ ← UpdateStatus None (d_ID d) (d_UserID d) s reason; Ret false in
  halted ← choose ch_halted;
  if g_kernel g && halted then fail StatusHalted "kill switch active on boot"
  else
    key ← choose ch_key;
    match key with
    | None => fail StatusCrashed "key decrypt failed"
    | Some key =>
        match resolveVersion d with
        | Err _ => Ret false
        | Ok (wasmRef, manifestHash) =>
            if bool_decide (d_Resolution d = ""%string) then fail StatusCrashed "missing resolution on deployment row"
            else if bool_decide (d_OrderBookID d = ""%string) then fail StatusCrashed "missing order_book_id on deployment row"
            else r ← Deploy None (deployConfigFromRow d key wasmRef manifestHash); Ret (is_ok r)
        end
    end.

Fixpoint recover_all (rows : list Deployment) (count : Z) : oprog Z :=
  match rows with
  | [] => Ret count
  | d :: rest => ok ← recover_one d; recover_all rest (if ok : bool then count + 1 else count)
  end.

Definition Recover : oprog (result Z) :=
  if negb (g_store g) then Ret (Err (ErrMsg "orchestrator: nil DeployStore"))
  else
    rows ← ListRunning;
    match rows with
    | Err e => Ret (Err (ErrWrap "orchestrator: list running" e))
    | Ok rows => n ← recover_all rows 0; Ret (Ok n)
    end.

Definition IsRunning (id : string) (o : Orchestrator) : bool := bool_decide (is_Some (o_live o !! id)).

(** ** The orchestrator as a system *)

Inductive Request :=
  | ReqDeploy (cfg : DeployConfig)
  | ReqStop (id userID : string)
  | ReqResume (id userID key : string)
  | ReqHotSwap (id userID rev wasmRef manifestHash key book : string)
  | ReqRecover
  | ReqGoroutine (k : nat).   (* the goroutine of attempt [k] *)

(** Runs once, when it has been started. *)
Definition goroutine (k : nat) : oprog unit :=
  li ← Atom (fun _ o => match o_spawned o !! k with Some (Some li) => Some (with_spawned (<[k := None]> (o_spawned o)) o, Ret li) | _ => None end);
  runLive li.

Definition ignore {A} (p : oprog A) : oprog unit := _ ← p; Ret tt.
Definition serve (r : Request) : thread Orchestrator Choice unit :=
  MkThread tt match r with
              | ReqDeploy cfg => ignore (Deploy None cfg)
              | ReqStop id user => ignore (Stop id user)
              | ReqResume id user key => ignore (Resume id user key)
              | ReqHotSwap id user rev w m key book => ignore (HotSwap id user rev w m key book)
              | ReqRecover => ignore Recover
              | ReqGoroutine k => goroutine k
              end.

(** The host counts a candle; the clock. *)
Inductive WorldEvent := EvCandle (k : nat) | EvClock (t : Z).
Definition world (e : WorldEvent) (o : Orchestrator) : option Orchestrator :=
  match e with
  | EvCandle k => match o_candles o !! k with Some n => Some (with_counts (o_budgets o) (<[k := n + 1]> (o_candles o)) o) | None => None end
  | EvClock t => if o_now o <=? t then Some (with_audit (o_audit o) t o) else None
  end.

Notation server := (system Orchestrator Choice unit).
Definition orchestrate := sys_run world serve.
Definition orchestrate_step := sys_step world serve.
End Orchestrate.

(** ** Theory: what an attempt owns *)

Section Theory.
Variable g : Config.

Record Inv (o : Orchestrator) : Prop := {
  iv_subs : forall k s, (k, s) ∈ o_subs o -> (k < o_attempts o)%nat /\ k ∉ o_over o;
  iv_modules : forall k, k ∈ o_modules o -> (k < o_attempts o)%nat /\ k ∉ o_over o;
  iv_spawned : forall k li, o_spawned o !! k = Some li -> (k < o_attempts o)%nat /\
    forall i, li = Some i -> li_attempt i = k /\ k ∉ o_over o;
  iv_over : forall k, k ∈ o_over o -> (k < o_attempts o)%nat;
  iv_done : forall k, k ∈ o_done o -> k ∈ o_over o;
}.

(** Tokens: [(k, false)] deploys attempt [k], [(k, true)] is its goroutine. *)
Definition taken (k : nat) (o : Orchestrator) : bool := match o_spawned o !! k with Some None => true | _ => false end.
Lemma lc_taken k o : taken k o = true <-> o_spawned o !! k = Some None.
Proof. unfold taken. by destruct (o_spawned o !! k) as [[?|]|]. Qed.
Definition given (o : Orchestrator) : gset (nat * bool) :=
  list_to_set ((fun k => (k, false)) <$> seq 0 (o_attempts o)) ∪
  list_to_set ((fun k => (k, true)) <$> filter (fun k => taken k o = true) (seq 0 (o_attempts o))).

Lemma lc_given k b o : (k, b) ∈ given o <-> (k < o_attempts o)%nat /\ (b = true -> o_spawned o !! k = Some None).
Proof.
  unfold given. rewrite elem_of_union, !elem_of_list_to_set, !list_elem_of_fmap. split.
  - intros [(z & [= -> ->] & Hz%elem_of_seq)|(z & [= -> ->] & [Hs%lc_taken Hz%elem_of_seq]%list_elem_of_filter)]; (split; [lia | done]).
  - intros [Hk Hb]. destruct b; [right | left]; exists k; (split; [done |]).
    + apply list_elem_of_filter. split; [apply lc_taken; auto | apply elem_of_seq; lia].
    + apply elem_of_seq. lia.
Qed.

Record same_attempt (k : nat) (o o' : Orchestrator) : Prop := {
  sa_subs : forall s, (k, s) ∈ o_subs o' <-> (k, s) ∈ o_subs o;
  sa_modules : k ∈ o_modules o' <-> k ∈ o_modules o;
  sa_over : k ∈ o_over o' <-> k ∈ o_over o;
  sa_spawned : o_spawned o' !! k = o_spawned o !! k;
}.

Definition holds (x : gset (nat * bool)) (k : nat) (o : Orchestrator) : Prop :=
  (k, false) ∈ x /\ o_spawned o !! k = None \/ (k, true) ∈ x.

Definition Guar (_ : unit) (x x' : gset (nat * bool)) (o o' : Orchestrator) : Prop :=
  (exists n, x' = n ∪ x /\ n ## given o /\ given o' = n ∪ given o) /\ (o_attempts o <= o_attempts o')%nat /\
  forall k, (k < o_attempts o)%nat -> ~ holds x k o -> same_attempt k o o' \/ exists li, o_spawned o !! k = Some (Some li).
Definition Rely (y : gset (nat * bool)) (o o' : Orchestrator) : Prop :=
  (o_attempts o <= o_attempts o')%nat /\ forall k, (k < o_attempts o)%nat -> holds y k o -> same_attempt k o o'.

Notation tstable := (tstable Inv Rely).
Notation tsafe := (tsafe Inv Guar Rely tt).

Lemma lc_guar_rely t x x' y o o' : Inv o -> Inv o' -> Guar t x x' o o' -> x ## y -> x ⊆ given o -> y ⊆ given o ->
  Rely y o o' /\ x' ## y /\ x' ⊆ given o' /\ given o ⊆ given o'.
Proof.
  intros _ _ ((n & -> & Hn & Hv) & Ha & Hk) Hd Hx Hy. split_and!; [| set_solver | set_solver | set_solver].
  split; [done |]. intros k Hlt Hold. destruct (Hk k Hlt) as [?|[li Hli]]; [| done |].
  - intros Hx'. destruct Hold as [[Hf Hs]|Ht], Hx' as [[Hf' Hs']|Ht'].
    + set_solver.
    + apply Hx, lc_given in Ht' as [_ E]. specialize (E eq_refl). congruence.
    + apply Hy, lc_given in Ht as [_ E]. specialize (E eq_refl). congruence.
    + set_solver.
  - destruct Hold as [[_ Hs]|Ht]; [congruence |]. apply Hy, lc_given in Ht as [_ E]. specialize (E eq_refl). congruence.
Qed.

(** *** Steps that leave every attempt alone *)

Definition untouched (o o' : Orchestrator) : Prop :=
  o_subs o' = o_subs o /\ o_modules o' = o_modules o /\ o_over o' = o_over o /\ o_spawned o' = o_spawned o /\ o_attempts o' = o_attempts o.

Lemma lc_same_refl k o : same_attempt k o o.
Proof. by split. Qed.
Lemma lc_untouched_same k o o' : untouched o o' -> same_attempt k o o'.
Proof. intros (E1 & E2 & E3 & E4 & _). split; [intros s; by rewrite E1 | by rewrite E2 | by rewrite E3 | by rewrite E4]. Qed.
Lemma lc_untouched_guar t x o o' : untouched o o' -> Guar t x x o o'.
Proof.
  intros H. split_and!; [| destruct H as (_ & _ & _ & _ & E); lia | intros k _ _; left; by apply lc_untouched_same].
  exists ∅. destruct H as (_ & _ & _ & E4 & E5). split_and!; [set_solver | set_solver |]. unfold given, taken. rewrite E4, E5. set_solver.
Qed.
Lemma lc_untouched_rely x o o' : untouched o o' -> Rely x o o'.
Proof. intros H. split; [destruct H as (_ & _ & _ & _ & E); lia | intros k _ _; by apply lc_untouched_same]. Qed.
Lemma lc_untouched_inv o o' : untouched o o' -> o_done o' = o_done o -> Inv o -> Inv o'.
Proof. intros (E1 & E2 & E3 & E4 & E5) E6 [H1 H2 H3 H4 H5]. split; rewrite ?E1, ?E2, ?E3, ?E4, ?E5, ?E6; done. Qed.

Lemma lc_foreign {A} (f : Choice -> Orchestrator -> Orchestrator * A) (P : gset (nat * bool) -> Orchestrator -> Prop) : tstable P ->
  (forall c o, untouched o (f c o).1 /\ o_done (f c o).1 = o_done o) -> tsafe (atomic f) P (fun _ => P).
Proof.
  intros SP Hf. apply tsafe_atomic; [| done]. intros c x o Io Po. destruct (Hf c o) as [Hu Hd]. exists x.
  assert (Inv (f c o).1) by by apply (lc_untouched_inv o). split_and!; [done | by apply lc_untouched_guar |].
  apply (SP x o); [done | done | by apply lc_untouched_rely | done].
Qed.
Lemma lc_wait {A} (f : Choice -> Orchestrator -> option A) (P : gset (nat * bool) -> Orchestrator -> Prop) : tstable P -> tsafe (await f) P (fun _ => P).
Proof. intros SP. apply tsafe_await; [intros; by apply lc_untouched_guar | done | done]. Qed.
Lemma lc_ret {A} (a : A) (P : gset (nat * bool) -> Orchestrator -> Prop) : tsafe (Ret a : oprog A) P (fun _ => P).
Proof. by intros x o _ ?. Qed.
(** An action that may wait and then only looks. *)
Lemma lc_look {A} (f : Choice -> Orchestrator -> option (Orchestrator * oprog A)) (P : gset (nat * bool) -> Orchestrator -> Prop) : tstable P ->
  (forall c o, match f c o with Some (o', p) => o' = o /\ exists a, p = Ret a | None => True end) -> tsafe (Atom f) P (fun _ => P).
Proof.
  intros SP Hf c x o Io Po. specialize (Hf c o). destruct (f c o) as [[o' p]|]; [| done]. destruct Hf as (-> & a & ->).
  exists x. split_and!; [done | by apply lc_untouched_guar |]. exists P. split_and!; [done | done | apply lc_ret].
Qed.
Lemma lc_true : tstable (fun _ _ => True).
Proof. by intros ? ? ? ? ? ? ?. Qed.

Lemma lc_update_row f id user ok o : untouched o (update_row f id user ok o).1 /\ o_done (update_row f id user ok o).1 = o_done o.
Proof. unfold update_row. destruct ok; simpl; [| done]. by destruct (owned id user (o_rows o)). Qed.
Lemma lc_db (k : option nat) (f : Deployment -> Deployment) (id user : string) (P : gset (nat * bool) -> Orchestrator -> Prop) : tstable P -> tsafe (db k (update_row f id user)) P (fun _ => P).
Proof. intros SP. apply lc_foreign; [done |]. intros c o. apply lc_update_row. Qed.
Lemma lc_get (k : option nat) (id user : string) (P : gset (nat * bool) -> Orchestrator -> Prop) : tstable P -> tsafe (Get k id user) P (fun _ => P).
Proof. intros SP. apply lc_foreign; [done |]. by intros c o. Qed.

(** *** Steps of the one who holds an attempt *)

Definition mine (b : bool) (k : nat) (x : gset (nat * bool)) (o : Orchestrator) : Prop :=
  (k, b) ∈ x /\ (k < o_attempts o)%nat /\ k ∉ o_over o /\ o_spawned o !! k = if b then Some None else None.
(** At most these subscriptions and, if [m], a module. *)
Definition has (b : bool) (k : nat) (S : list SubKind) (m : bool) (x : gset (nat * bool)) (o : Orchestrator) : Prop :=
  mine b k x o /\ (forall s, (k, s) ∈ o_subs o -> s ∈ S) /\ (k ∈ o_modules o -> m = true).
Definition gone (k : nat) (x : gset (nat * bool)) (o : Orchestrator) : Prop := (k, true) ∈ x /\ (k < o_attempts o)%nat /\ k ∈ o_over o.

Lemma lc_mine_holds b k x o : mine b k x o -> holds x k o.
Proof. intros (Hx & _ & _ & Hs). destruct b; [by right | by left]. Qed.
Lemma lc_stable_has b k S m : tstable (has b k S m).
Proof.
  intros x o o' _ _ [Ha HR] (Hm & Hs & Hmod). pose proof Hm as (Hx & Hk & Hov & Hsp).
  destruct (HR k Hk (lc_mine_holds _ _ _ _ Hm)) as [E1 E2 E3 E4]. split_and!.
  - split_and!; [done | lia | by rewrite E3 | congruence].
  - intros s. rewrite E1. apply Hs.
  - by rewrite E2.
Qed.
Lemma lc_stable_gone k : tstable (gone k).
Proof.
  intros x o o' _ _ [Ha HR] (Hx & Hk & Hov). destruct (HR k Hk (or_intror Hx)) as [_ _ E3 _].
  split_and!; [done | lia | by rewrite E3].
Qed.
Lemma lc_has_weaken b k S S' m m' x o : (forall s, s ∈ S -> s ∈ S') -> (m = true -> m' = true) -> has b k S m x o -> has b k S' m' x o.
Proof. intros HS Hm (? & Hs & Hmod). split_and!; [done | auto | auto]. Qed.

(** A change of the subscriptions, modules or end of attempt [k] only. *)
Definition only (k : nat) (o o' : Orchestrator) : Prop :=
  (forall z s, z <> k -> (z, s) ∈ o_subs o' <-> (z, s) ∈ o_subs o) /\ (forall z, z <> k -> z ∈ o_modules o' <-> z ∈ o_modules o) /\
  (forall z, z <> k -> z ∈ o_over o' <-> z ∈ o_over o) /\ o_spawned o' = o_spawned o /\ o_attempts o' = o_attempts o /\ o_done o' = o_done o.

Lemma lc_only_guar t k b x o o' : mine b k x o -> only k o o' -> Guar t x x o o'.
Proof.
  intros Hm (E1 & E2 & E3 & E4 & E5 & _). split_and!; [| lia |].
  - exists ∅. split_and!; [set_solver | set_solver |]. unfold given, taken. rewrite E4, E5. set_solver.
  - intros z _ Hz. left. assert (z <> k) as Hne by (intros ->; by apply Hz, (lc_mine_holds b)).
    split; [intros s; by apply E1 | by apply E2 | by apply E3 | by rewrite E4].
Qed.

Lemma lc_own {A} (b : bool) (k : nat) (S : list SubKind) (m : bool) (f : Choice -> Orchestrator -> Orchestrator * A) (Q : A -> gset (nat * bool) -> Orchestrator -> Prop) :
  (forall a, tstable (Q a)) ->
  (forall c x o, Inv o -> has b k S m x o -> only k o (f c o).1 /\ Inv (f c o).1 /\ Q (f c o).2 x (f c o).1) ->
  tsafe (atomic f) (has b k S m) Q.
Proof.
  intros SQ Hf. apply tsafe_atomic; [| done]. intros c x o Io Po. destruct (Hf c x o Io Po) as (Ho & HI & HQ). exists x.
  split_and!; [done | | done]. eapply lc_only_guar; [apply Po | done].
Qed.

Lemma lc_subscribe b k S m s : tsafe (subscribe k s) (has b k S m) (fun _ => has b k (s :: S) m).
Proof.
  apply lc_own; [intros ?; apply lc_stable_has |]. intros c x o [H1 H2 H3 H4 H5] ((Hx & Hk & Hov & Hsp) & Hs & Hm). split_and!.
  - split_and!; simpl; try done. intros z z' Hz. set_solver.
  - split; simpl; try done. intros z z' [[= -> ->]%elem_of_singleton|Hz]%elem_of_union; [done | eauto].
  - split_and!; simpl; [done | | done]. intros z [[= ->]%elem_of_singleton|Hz]%elem_of_union; set_solver.
Qed.
Lemma lc_unsubscribe b k S m s : tsafe (unsubscribe k s) (has b k S m) (fun _ => has b k (filter (fun z => z <> s) S) m).
Proof.
  apply lc_own; [intros ?; apply lc_stable_has |]. intros c x o [H1 H2 H3 H4 H5] ((Hx & Hk & Hov & Hsp) & Hs & Hm). split_and!.
  - split_and!; simpl; try done. intros z z' Hz. set_solver.
  - split; simpl; try done. intros z z' [Hz _]%elem_of_difference. eauto.
  - split_and!; simpl; [done | | done]. intros z [Hz Hne]%elem_of_difference. apply list_elem_of_filter. set_solver.
Qed.
Lemma lc_load b k S : tsafe (Load k) (has b k S false) (fun r => has b k S (bool_decide (is_Some r))).
Proof.
  apply lc_own; [intros ?; apply lc_stable_has |]. intros c x o [H1 H2 H3 H4 H5] ((Hx & Hk & Hov & Hsp) & Hs & Hm). simpl.
  destruct (ch_load c) as [m|]; simpl.
  - split_and!; [split_and!; simpl; try done; set_solver | | split_and!; simpl; done].
    split; simpl; try done. intros z [->%elem_of_singleton|Hz]%elem_of_union; [done | eauto].
  - split_and!; [by split_and! | done | by split_and!].
Qed.
Lemma lc_close b k S m : tsafe (close_module k) (has b k S m) (fun _ => has b k S false).
Proof.
  apply lc_own; [intros ?; apply lc_stable_has |]. intros c x o [H1 H2 H3 H4 H5] ((Hx & Hk & Hov & Hsp) & Hs & Hm). split_and!.
  - split_and!; simpl; try done. set_solver.
  - split; simpl; try done. intros z [Hz _]%elem_of_difference. eauto.
  - split_and!; simpl; [done | done | set_solver].
Qed.
(** Only who owns nothing is over. *)
Lemma lc_over b k : tsafe (over k) (has b k [] false) (fun _ x o => b = true -> gone k x o).
Proof.
  apply lc_own.
  - intros _ x o o' Io Io' HR Hp Hb. by apply (lc_stable_gone k x o); [..| auto].
  - intros c x o [H1 H2 H3 H4 H5] ((Hx & Hk & Hov & Hsp) & Hs & Hm). split_and!.
    + split_and!; simpl; try done. set_solver.
    + split; simpl.
      * intros z s Hz. destruct (H1 z s Hz) as [? Hz']. split; [done |]. intros [->%elem_of_singleton|?]%elem_of_union; [| done].
        specialize (Hs s Hz). by apply elem_of_nil in Hs.
      * intros z Hz. destruct (H2 z Hz) as [? Hz']. split; [done |]. intros [->%elem_of_singleton|?]%elem_of_union; [| done].
        by specialize (Hm Hz).
      * intros z li Hz. destruct (H3 z li Hz) as [? Hz']. split; [done |]. intros i Hi. destruct (Hz' i Hi) as [? Hni]. split; [done |].
        intros [->%elem_of_singleton|?]%elem_of_union; [| done]. destruct b; congruence.
      * intros z [->%elem_of_singleton|Hz]%elem_of_union; [done | auto].
      * intros z Hz. apply elem_of_union. right. auto.
    + intros Hb. rewrite Hb in Hx. split_and!; [exact Hx | done | set_solver].
Qed.

(** Everything released; [SubKind] has three values. *)
Definition all_kinds : list SubKind := [SubCandles; SubTrades; SubPrices].
Lemma lc_unsubscribe_all (b : bool) (k : nat) (m : bool) {A} (p : oprog A) (Q : A -> gset (nat * bool) -> Orchestrator -> Prop) :
  tsafe p (has b k [] m) Q ->
  tsafe (_ ← unsubscribe k SubCandles; _ ← unsubscribe k SubTrades; _ ← unsubscribe k SubPrices; p) (has b k all_kinds m) Q.
Proof.
  intros Hp. eapply tsafe_bind; [apply lc_unsubscribe | intros ?]. eapply tsafe_bind; [apply lc_unsubscribe | intros ?].
  eapply tsafe_bind; [apply lc_unsubscribe | intros ?]. eapply tsafe_pre; [| exact Hp]. intros x o _. apply lc_has_weaken; [| done].
  intros s. unfold all_kinds. rewrite !list_elem_of_filter. destruct s; naive_solver.
Qed.

(** *** Deploy *)

Lemma lc_first : tsafe subscribe_first (fun _ _ => True) (fun k => has false k [SubCandles] false).
Proof.
  apply tsafe_atomic; [| intros k; apply lc_stable_has]. intros c x o [H1 H2 H3 H4 H5] _. simpl. set (k := o_attempts o).
  exists ({[(k, false)]} ∪ x). assert (o_spawned o !! k = None) as Hsp.
  { destruct (o_spawned o !! k) as [li|] eqn:E; [| done]. destruct (H3 k li E). lia. }
  split_and!.
  - split; simpl.
    + intros z s [[= -> ->]%elem_of_singleton|Hz]%elem_of_union; [split; [lia |]; intros Hz; apply H4 in Hz; lia |].
      destruct (H1 z s Hz). split; [lia | done].
    + intros z Hz. destruct (H2 z Hz). split; [lia | done].
    + intros z li Hz. destruct (H3 z li Hz). split; [lia | done].
    + intros z Hz. specialize (H4 z Hz). lia.
    + done.
  - split_and!; [| simpl; lia |].
    + exists {[(k, false)]}. split_and!; [done | |].
      * apply disjoint_singleton_l. intros Hg. apply lc_given in Hg as [Hg _]. lia.
      * apply set_eq. intros [z b]. rewrite elem_of_union, elem_of_singleton, !lc_given. simpl. split.
        -- intros [Hz Hb]. destruct (decide (z = k)) as [->|]; [| right; split; [unfold k in *; lia | done]].
           left. destruct b; [specialize (Hb eq_refl); congruence | done].
        -- intros [[= -> ->]|[? ?]]; split; [lia | done | lia | done].
    + intros z Hz _. left. assert (z <> k) by (unfold k; lia). split; simpl; [set_solver | done..].
  - split_and!; [split_and!; simpl | simpl | simpl].
    + set_solver.
    + lia.
    + intros Hk. apply H4 in Hk. lia.
    + done.
    + intros s [[= ->]%elem_of_singleton|Hz]%elem_of_union; [set_solver |]. destruct (H1 k s Hz). lia.
    + intros Hz. destruct (H2 k Hz). lia.
Qed.

Lemma lc_more k m : tsafe (subscribe_more k m) (has false k [SubCandles] true) (fun _ => has false k all_kinds true).
Proof.
  assert (forall S x o, (forall s, s ∈ S -> s ∈ all_kinds) -> has false k S true x o -> has false k all_kinds true x o) as Hw
    by (intros S x o HS; by apply lc_has_weaken).
  eapply (tsafe_bind Inv Guar Rely tt) with (Q := fun _ => has false k [SubTrades; SubCandles] true).
  - destruct (hasChannel m "trade"); [apply lc_subscribe |]. intros x o _. apply lc_has_weaken; [set_solver | done].
  - intros []. destruct (_ && _).
    + eapply tsafe_post; [| apply lc_subscribe]. intros ? x o _. apply Hw. unfold all_kinds. set_solver.
    + intros x o _. apply Hw. unfold all_kinds. set_solver.
Qed.

Lemma lc_spawn k S m li : li_attempt li = k -> tsafe (spawn li) (has false k S m) (fun _ _ _ => True).
Proof.
  intros <-. set (k := li_attempt li). apply tsafe_atomic; [| intros ?; apply lc_true]. intros c x o [H1 H2 H3 H4 H5] (Hm & _ & _).
  pose proof Hm as (Hx & Hk & Hov & Hsp). exists x. split_and!; [| | done].
  - split; simpl; try done. intros z i Hz. destruct (decide (z = k)) as [->|Hne].
    + rewrite lookup_insert_eq in Hz. injection Hz as <-. split; [done |]. by intros i [= <-].
    + rewrite lookup_insert_ne in Hz by done. eauto.
  - split_and!; [| done |].
    + exists ∅. split_and!; [set_solver | set_solver |]. apply set_eq. intros [z b]. rewrite elem_of_union, !lc_given. simpl.
      destruct (decide (z = k)) as [->|Hne]; [rewrite lookup_insert_eq, Hsp | rewrite lookup_insert_ne by done].
      * destruct b.
        -- split; [intros [_ E]; discriminate (E eq_refl) | intros [[]%not_elem_of_empty|[_ E]]; discriminate (E eq_refl)].
        -- split; [intros [? _]; by right | by intros [[]%not_elem_of_empty|[? _]]].
      * split; [intros ?; by right | by intros [[]%not_elem_of_empty|?]].
    + intros z Hz Hold. left. assert (z <> k) as Hne by (intros ->; by apply Hold, (lc_mine_holds false)).
      split; simpl; try done. by rewrite lookup_insert_ne.
Qed.

Lemma lc_build ctx k cfg m P : tstable P -> tsafe (buildLiveHostState ctx k cfg m) P (fun _ => P).
Proof.
  intros SP. eapply tsafe_bind; [by apply lc_get | intros row]. eapply tsafe_bind; [| intros ?; apply lc_ret]. by apply lc_foreign.
Qed.
Lemma lc_cancel k P : tstable P -> tsafe (cancel k) P (fun _ => P).
Proof. intros SP. by apply lc_foreign. Qed.
Lemma lc_sync ctx cfg n P : tstable P -> tsafe (syncWarmupCandles ctx cfg n) P (fun _ => P).
Proof. intros SP. unfold syncWarmupCandles. destruct (n <=? 0); [apply lc_ret |]. eapply tsafe_bind; [by apply lc_db | intros ?; apply lc_ret]. Qed.

(** An attempt that ends is [over]. *)
Lemma lc_over_then {A} b k (a : A) : tsafe (_ ← over k; Ret a) (has b k [] false) (fun _ _ _ => True).
Proof. eapply tsafe_bind; [apply lc_over | intros ?]. by intros x o _ _. Qed.

Lemma lc_deploy ctx cfg : tsafe (Deploy g ctx cfg) (fun _ _ => True) (fun _ _ _ => True).
Proof.
  unfold Deploy. destruct (validateForLive cfg); [| apply lc_ret]. destruct (g_broker g); [| apply lc_ret]. destruct (g_store g); [| apply lc_ret].
  cbn [negb]. eapply tsafe_bind; [apply lc_foreign; [apply lc_true | done] | intros []; [apply lc_ret |]].
  eapply tsafe_bind; [apply lc_first | intros k]. eapply tsafe_bind; [apply lc_load | intros [m|]]; simpl bool_decide.
  - eapply tsafe_bind; [apply lc_more | intros ?]. eapply tsafe_bind; [apply lc_build, lc_stable_has | intros state].
    eapply tsafe_bind; [apply lc_foreign; [apply lc_stable_has | done] | intros []]; cbn [negb].
    + eapply tsafe_bind; [apply lc_foreign; [apply lc_stable_has | done] | intros ?].
      eapply tsafe_bind; [by eapply lc_spawn | intros ?]. eapply tsafe_bind; [apply lc_sync, lc_true | intros ?]. apply lc_ret.
    + eapply tsafe_bind; [apply lc_cancel, lc_stable_has | intros ?]. eapply tsafe_bind; [apply lc_close | intros ?].
      apply lc_unsubscribe_all. apply lc_over_then.
  - eapply tsafe_bind; [apply lc_unsubscribe | intros ?]. apply lc_over_then.
Qed.

(** *** A goroutine that deploys again keeps what it has *)

Lemma lc_rely_less x y o o' : y ⊆ x -> Rely x o o' -> Rely y o o'.
Proof. intros Hy [Ha HR]. split; [done |]. intros k Hk [[? ?]|?]; apply HR; [done | left; set_solver | done | right; set_solver]. Qed.
Lemma lc_has_more b k S m x x' o : x ⊆ x' -> has b k S m x o -> has b k S m x' o.
Proof. intros Hx ((? & ?) & ?). split; [split; [set_solver | done] | done]. Qed.

Lemma lc_aside {A} (p : oprog A) k S m : tsafe p (fun _ _ => True) (fun _ _ _ => True) -> tsafe p (has true k S m) (fun _ => has true k S m).
Proof.
  intros Hp. set (F := fun (y : gset (nat * bool)) o => y = {[(k, true)]} /\ has true k S m y o).
  assert (tstable F) as SF.
  { intros y o o' Io Io' HR [-> HF]. split; [done |]. by apply (lc_stable_has true k S m _ o). }
  eapply tsafe_pre; [| eapply tsafe_post; [| apply (tsafe_aside Inv given Guar Rely tt p (fun _ _ => True) F (fun _ _ _ => True) SF)]].
  - intros x o _ Hh. exists (x ∖ {[(k, true)]}), {[(k, true)]}. pose proof Hh as ((Hx & _) & _).
    split_and!; [| set_solver | done |].
    + apply set_eq. intros z. destruct (decide (z = (k, true))) as [->|]; set_solver.
    + split; [done |]. destruct Hh as ((_ & Hm) & Hr). split; [split; [set_solver | exact Hm] | exact Hr].
  - intros a x o _ (u & v & -> & _ & _ & -> & HF). eapply lc_has_more; [| exact HF]. set_solver.
  - intros x y o o'. apply lc_rely_less.
  - intros x x' y o o' Io Io' HG HD [-> HF]. pose proof HF as ((_ & Hk & _ & Hsp) & _).
    assert ({[(k, true)]} ⊆ given o) as Hy by (apply singleton_subseteq_l, lc_given; split; [done | by intros _]).
    destruct HG as ((n & -> & Hn & Hv) & Ha & Hother).
    assert (same_attempt k o o') as Hsame.
    { destruct (Hother k Hk) as [?|[li Hli]]; [| done | congruence]. intros [[_ E]|E]; [congruence | set_solver]. }
    split_and!.
    + split; [done |]. destruct HF as ((Hx & _ & Hov & _) & Hs & Hm). destruct Hsame as [E1 E2 E3 E4]. split_and!.
      * split_and!; [done | lia | by rewrite E3 | congruence].
      * intros s. rewrite E1. apply Hs.
      * by rewrite E2.
    + set_solver.
    + split_and!; [exists n; split_and!; [set_solver | done | done] | done |]. intros z Hz Hold. apply Hother; [done |].
      intros [[? ?]|?]; apply Hold; [left; set_solver | right; set_solver].
  - exact Hp.
Qed.

Lemma lc_foreign_then {A B} (f : Choice -> Orchestrator -> Orchestrator * A) (k : A -> oprog B) P Q : tstable P ->
  (forall c o, untouched o (f c o).1 /\ o_done (f c o).1 = o_done o) -> (forall a, tsafe (k a) P Q) -> tsafe (atomic f ≫= k) P Q.
Proof. intros SP Hf Hk. eapply tsafe_bind; [by apply lc_foreign | exact Hk]. Qed.

Lemma lc_allow k P : tstable P -> tsafe (allow_restart g k) P (fun _ => P).
Proof. intros SP. apply lc_foreign; [done |]. intros c o. by destruct (Allow _ _ _). Qed.

Lemma lc_run_error li err : tsafe (handleRunError g li err) (has true (li_attempt li) all_kinds true) (fun _ => has true (li_attempt li) all_kinds true).
Proof.
  set (k := li_attempt li). pose proof (lc_stable_has true k all_kinds true) as SP. unfold handleRunError.
  eapply tsafe_bind; [by apply lc_foreign | intros ?]. eapply tsafe_bind; [by apply lc_allow | intros []]; cbn [negb].
  - eapply tsafe_bind; [| intros ?; eapply tsafe_bind; [| intros cfg]].
    + unfold persistCandleCount. destruct (g_store g); [| apply lc_ret]. eapply tsafe_bind; [by apply lc_foreign | intros n].
      eapply tsafe_bind; [by apply lc_db | intros ?; apply lc_ret].
    + eapply tsafe_bind; [by apply lc_get | intros row]. apply lc_ret.
    + eapply tsafe_bind; [apply lc_aside, lc_deploy | intros [?|?]].
      * eapply tsafe_bind; [by apply lc_db | intros ?; apply lc_ret].
      * eapply tsafe_bind; [by apply lc_db | intros ?]. eapply tsafe_bind; [by apply lc_db | intros ?; apply lc_ret].
  - eapply tsafe_bind; [by apply lc_db | intros ?; apply lc_ret].
Qed.

Lemma lc_teardown li : tsafe (teardownLive li) (has true (li_attempt li) all_kinds true) (fun _ => gone (li_attempt li)).
Proof.
  eapply tsafe_bind; [apply lc_close | intros ?]. apply lc_unsubscribe_all.
  eapply tsafe_bind; [apply lc_foreign; [apply lc_stable_has | done] | intros ?].
  eapply tsafe_post; [| apply lc_over]. intros ? x o _ H. by apply H.
Qed.

Lemma lc_finish k : tsafe (update (Ch := Choice) (fun o => with_contexts (o_cancelled o) ({[k]} ∪ o_done o) o)) (gone k) (fun _ _ _ => True).
Proof.
  apply tsafe_atomic; [| intros ?; apply lc_true]. intros c x o [H1 H2 H3 H4 H5] (_ & _ & Hov). exists x. split_and!; [| | done].
  - split; simpl; try done. intros z [->%elem_of_singleton|Hz]%elem_of_union; auto.
  - by apply lc_untouched_guar.
Qed.

Lemma lc_run_live li : tsafe (runLive g li) (has true (li_attempt li) all_kinds true) (fun _ _ _ => True).
Proof.
  eapply tsafe_bind; [apply lc_wait, lc_stable_has | intros r].
  eapply tsafe_bind; [| intros ?; eapply tsafe_bind; [apply lc_teardown | intros ?; apply lc_finish]].
  destruct r; [apply lc_ret | | apply lc_run_error]. eapply tsafe_bind; [apply lc_db, lc_stable_has | intros ?; apply lc_ret].
Qed.

Lemma lc_goroutine k : tsafe (goroutine g k) (fun _ _ => True) (fun _ _ _ => True).
Proof.
  assert (tsafe (Atom (fun _ o => match o_spawned o !! k with Some (Some li) => Some (with_spawned (<[k := None]> (o_spawned o)) o, Ret li) | _ => None end) : oprog Instance_)
            (fun _ _ => True) (fun li => has true (li_attempt li) all_kinds true)) as Htake.
  { intros c x o Io _. pose proof Io as [H1 H2 H3 H4 H5]. destruct (o_spawned o !! k) as [[li|]|] eqn:E; [| done..].
    destruct (H3 k (Some li) E) as [Hk Hli]. destruct (Hli li eq_refl) as [Ek Hov]. exists ({[(k, true)]} ∪ x). split_and!.
    - split; simpl; try done. intros z i Hz. destruct (decide (z = k)) as [->|]; [| rewrite lookup_insert_ne in Hz by done; eauto].
      rewrite lookup_insert_eq in Hz. injection Hz as <-. done.
    - split_and!; [| done |].
      + exists {[(k, true)]}. split_and!; [done | |].
        * apply disjoint_singleton_l. intros Hg. apply lc_given in Hg as [_ Hg]. specialize (Hg eq_refl). congruence.
        * apply set_eq. intros [z b]. rewrite elem_of_union, elem_of_singleton, !lc_given. simpl. destruct (decide (z = k)) as [->|Hne].
          -- rewrite lookup_insert_eq, E. destruct b.
             ++ split; [by left |]. intros _. done.
             ++ split; [by right |]. intros [[=]|[? _]]. done.
          -- rewrite lookup_insert_ne by done. split; [by right |]. by intros [[= -> ->]|?].
      + intros z Hz _. destruct (decide (z = k)) as [->|Hne]; [right; by exists li | left].
        split; simpl; try done. by rewrite lookup_insert_ne.
    - exists (has true (li_attempt li) all_kinds true). split_and!; [apply lc_stable_has | | by intros y z _ Hz].
      rewrite Ek. split_and!; [| by intros [] _; unfold all_kinds; set_solver | done].
      split_and!; simpl; [set_solver | done | done | apply lookup_insert_eq]. }
  eapply tsafe_bind; [exact Htake | intros li; apply lc_run_live].
Qed.

(** *** The requests *)

Lemma lc_stop id user : tsafe (Stop id user) (fun _ _ => True) (fun _ _ _ => True).
Proof.
  pose proof lc_true as T. eapply tsafe_bind; [by apply lc_foreign | intros [li|]; [| by apply lc_db]].
  eapply tsafe_bind; [by apply lc_cancel | intros ?].
  eapply tsafe_bind; [apply lc_look; [exact T |] | intros []; [by apply lc_db | apply lc_ret]].
  intros c o. destruct (ch_ended c); [by split; [| eexists] |]. by destruct (bool_decide _); [split; [| eexists] |].
Qed.
Lemma lc_resume id user key : tsafe (Resume g id user key) (fun _ _ => True) (fun _ _ _ => True).
Proof.
  pose proof lc_true as T. eapply tsafe_bind; [by apply lc_get | intros [d|]; [| apply lc_ret]].
  destruct (bool_decide _); [apply lc_ret |]. destruct (bool_decide _); [apply lc_ret |]. destruct (resolveVersion g d) as [[w m]|]; [| apply lc_ret].
  eapply tsafe_bind; [by apply lc_db | intros [?|?]; [apply lc_deploy | apply lc_ret]].
Qed.
Lemma lc_hotswap id user rev w m key book : tsafe (HotSwap g id user rev w m key book) (fun _ _ => True) (fun _ _ _ => True).
Proof.
  pose proof lc_true as T. eapply tsafe_bind; [by apply lc_foreign | intros li].
  assert (tsafe (match li with
                 | Some li => _ ← cancel (li_attempt li); await (fun _ o => if bool_decide (li_attempt li ∈ o_done o) then Some tt else None)
                 | None => Ret tt
                 end) (fun _ _ => True) (fun _ _ _ => True)) as Hw
    by (destruct li as [li|]; [| apply lc_ret]; eapply tsafe_bind; [by apply lc_cancel | intros ?; by apply lc_wait]).
  eapply tsafe_bind; [exact Hw | intros ?]. eapply tsafe_bind; [by apply lc_db | intros [?|?]; [apply lc_deploy | apply lc_ret]].
Qed.
Lemma lc_recover_one d : tsafe (recover_one g d) (fun _ _ => True) (fun _ _ _ => True).
Proof.
  pose proof lc_true as T.
  assert (forall s r, tsafe (_ ← UpdateStatus None (d_ID d) (d_UserID d) s r; Ret false) (fun _ _ => True) (fun _ _ _ => True)) as Hfail
    by (intros s r; eapply tsafe_bind; [by apply lc_db | intros ?; apply lc_ret]).
  eapply tsafe_bind; [by apply lc_foreign | intros halted]. destruct (_ && _); [apply Hfail |].
  eapply tsafe_bind; [by apply lc_foreign | intros [key|]; [| apply Hfail]]. destruct (resolveVersion g d) as [[w m]|]; [| apply lc_ret].
  destruct (bool_decide _); [apply Hfail |]. destruct (bool_decide _); [apply Hfail |].
  eapply tsafe_bind; [apply lc_deploy | intros r; apply lc_ret].
Qed.
Lemma lc_recover : tsafe (Recover g) (fun _ _ => True) (fun _ _ _ => True).
Proof.
  pose proof lc_true as T. unfold Recover. destruct (g_store g); [| apply lc_ret]. cbn [negb].
  eapply tsafe_bind; [apply lc_look; [exact T |] | intros [rows|]; [| apply lc_ret]].
  - intros c o. destruct (ch_ok c); simpl; [| by split; [| eexists]]. by destruct (bool_decide _); [split; [| eexists] |].
  - assert (forall n, tsafe (recover_all g rows n) (fun _ _ => True) (fun _ _ _ => True)) as Hall.
    { induction rows as [|d rows IH]; intros n; [apply lc_ret |]. eapply tsafe_bind; [apply lc_recover_one | intros ok; apply IH]. }
    eapply tsafe_bind; [apply Hall | intros n; apply lc_ret].
Qed.

Lemma lc_serve r : tsafe (th_prog (serve g r)) (fun _ _ => True) (fun _ _ _ => True).
Proof.
  assert (forall A (p : oprog A), tsafe p (fun _ _ => True) (fun _ _ _ => True) -> tsafe (ignore p) (fun _ _ => True) (fun _ _ _ => True)) as Hi
    by (intros A p Hp; eapply tsafe_bind; [exact Hp | intros ?; apply lc_ret]).
  destruct r; unfold serve; cbn [th_prog]; [exact (Hi _ _ (lc_deploy _ _)) | exact (Hi _ _ (lc_stop _ _)) | exact (Hi _ _ (lc_resume _ _ _)) | exact (Hi _ _ (lc_hotswap _ _ _ _ _ _ _)) | exact (Hi _ _ lc_recover) | apply lc_goroutine].
Qed.

Lemma lc_world e o o' : Inv o -> world e o = Some o' -> Inv o' /\ untouched o o'.
Proof.
  intros Io He. assert (untouched o o' /\ o_done o' = o_done o) as [Hu Hd].
  { destruct e; simpl in He; [destruct (o_candles o !! k); [| done] | destruct (_ <=? _); [| done]]; by injection He as <-. }
  split; [by apply (lc_untouched_inv o) | done].
Qed.

Lemma lc_sound rows ls s : orchestrate g ls (MkSystem (NewOrchestrator rows) []) = Some s -> Inv (shared s).
Proof.
  intros Hr.
  refine (ts_inv _ _ _ _ _ (tc_sound Inv given Guar Rely world (serve g) (fun _ => True) _ _ _ ls _ s _ Hr _)).
  - intros t x x' y o o'. apply lc_guar_rely.
  - intros e o o' Io He. destruct (lc_world e o o' Io He) as [Io' Hu]. split_and!; [done | | intros y; by apply lc_untouched_rely].
    destruct (lc_untouched_guar tt ∅ o o' Hu) as ((n & _ & _ & ->) & _). set_solver.
  - intros r _. exists (fun _ _ => True). split_and!; [apply lc_true | done | apply lc_serve].
  - apply List.Forall_forall. by intros [].
  - apply tc_start. split; simpl; set_solver.
Qed.
End Theory.

(** ** What holds of every reachable state *)

(** C38: whatever requests arrive, whatever the runtime and the database do and
    however the goroutines interleave, an attempt to deploy that has failed or
    whose goroutine has finished holds nothing: no subscription at the broker
    and no module instance; a finished goroutine is one that was torn down,
    and nothing is held but by an attempt that was made and is not over. *)
Theorem orchestrator_no_leak g rows ls s : orchestrate g ls (MkSystem (NewOrchestrator rows) []) = Some s ->
  (forall k, k ∈ o_done (shared s) -> k ∈ o_over (shared s)) /\
  (forall k, k ∈ o_over (shared s) -> k ∉ o_modules (shared s) /\ forall kind, (k, kind) ∉ o_subs (shared s)) /\
  (forall k kind, (k, kind) ∈ o_subs (shared s) \/ k ∈ o_modules (shared s) -> (k < o_attempts (shared s))%nat /\ k ∉ o_over (shared s)).
Proof.
  intros [H1 H2 _ _ H5]%lc_sound. split_and!; [done | | intros k kind [?|?]; eauto].
  intros k Hk. split; [intros ?%H2; tauto | intros kind ?%H1; tauto].
Qed.

(** ** A deployment that runs and fails *)

Module Demo.
Definition row : Deployment :=
  MkDeployment "d1" "s1" "v3" "alice" "book" "1m" [] StatusRunning false "" 0 "" 7 50.
Definition cfg : DeployConfig := MkDeployConfig "d1" "s1" "v3" "alice" "book" "key" "v3" "1m" "v3" 50 [].
Definition manifest : Manifest := MkManifest ["candle"; "trade"; "price"]%string ["TREA"%string] 20.
Definition config : Config := MkConfig true true true (MkRestartConfig 60 3) None.
Definition fine : Choice := MkChoice true (Some manifest) (Some (StartFailed "trap")) false (Some "key"%string) false ["d1"%string].
Definition rows : gmap string Deployment := {["d1"%string := row]}.

(** Deployed, failed, torn down. *)
Definition script : list (label Choice WorldEvent Request) :=
  LArrive (ReqDeploy cfg) :: replicate 11 (LThread 0 fine) ++ [LArrive (ReqGoroutine 0); LEnv (EvClock 5)] ++ replicate 17 (LThread 1 fine).
Notation run ls := (orchestrate config ls (MkSystem (NewOrchestrator rows) [])).
Definition ends ls : bool := match run ls with Some _ => true | None => false end.
Definition final ls : Orchestrator := match run ls with Some s => shared s | None => NewOrchestrator rows end.
End Demo.

Lemma lc_demo_ends ls : Demo.ends ls = true -> exists s, orchestrate Demo.config ls (MkSystem (NewOrchestrator Demo.rows) []) = Some s /\ shared s = Demo.final ls.
Proof. unfold Demo.ends, Demo.final. destruct (orchestrate _ _ _) as [s|]; [| done]. by exists s. Qed.

(** The deployment is up after eleven actions, with what its manifest asks
    for; the goroutine is over at the end of the script. *)
Example orchestrator_no_leak_witness :
  let up := Demo.final (take 12 Demo.script) in let o := Demo.final Demo.script in
  o_subs up = {[(0%nat, SubCandles); (0%nat, SubTrades); (0%nat, SubPrices)]} /\ o_modules up = {[0%nat]} /\
  0%nat ∈ o_done o /\ d_Status <$> (o_rows o !! "d1"%string) = Some StatusCrashed /\ o_live o !! "d1"%string = None /\
  0%nat ∉ o_modules o /\ forall kind, (0%nat, kind) ∉ o_subs o.
Proof.
  assert (Demo.ends Demo.script = true) as E by (vm_compute; reflexivity).
  destruct (lc_demo_ends _ E) as (s & Hs & <-). pose proof (orchestrator_no_leak _ _ _ _ Hs) as (Hd & Ho & _).
  assert (0%nat ∈ o_done (shared s)) as Hdone.
  { destruct (lc_demo_ends _ E) as (s' & Hs' & E'). rewrite Hs in Hs'. injection Hs' as <-. rewrite E'.
    apply (bool_decide_unpack _). vm_compute. reflexivity. }
  assert (o_subs (Demo.final (take 12 Demo.script)) = {[(0%nat, SubCandles); (0%nat, SubTrades); (0%nat, SubPrices)]}) as E1
    by (apply (bool_decide_unpack _); vm_compute; reflexivity).
  assert (o_modules (Demo.final (take 12 Demo.script)) = {[0%nat]}) as E2 by (apply (bool_decide_unpack _); vm_compute; reflexivity).
  assert (d_Status <$> (o_rows (shared s) !! "d1"%string) = Some StatusCrashed /\ o_live (shared s) !! "d1"%string = None) as [E3 E4].
  { destruct (lc_demo_ends _ E) as (s' & Hs' & E'). rewrite Hs in Hs'. injection Hs' as <-. rewrite E'.
    split; vm_compute; reflexivity. }
  cbv zeta. destruct (Ho 0%nat (Hd 0%nat Hdone)) as [Hm Hk]. exact (conj E1 (conj E2 (conj Hdone (conj E3 (conj E4 (conj Hm Hk)))))).
Defined.

(** ** Restarting in process *)

Lemma lc_deploy_live g c ctx cfg (o : Orchestrator) : validateForLive cfg = Ok tt -> g_broker g = true -> g_store g = true ->
  is_Some (o_live o !! c_DeploymentID cfg) -> solo c (Deploy g ctx cfg) o =
    Some (o, Err (ErrMsg ("orchestrator: deployment " +:+ c_DeploymentID cfg +:+ " already running"))).
Proof. intros Hv Hb Hs Hl. unfold Deploy. rewrite Hv, Hb, Hs. simpl. by rewrite bool_decide_eq_true_2. Qed.
Lemma lc_deploy_refused g c ctx cfg (o : Orchestrator) : is_Some (o_live o !! c_DeploymentID cfg) ->
  exists e, solo c (Deploy g ctx cfg) o = Some (o, Err e).
Proof.
  intros Hl. destruct (validateForLive cfg) as [[]|e] eqn:Ev; [| exists e; unfold Deploy; by rewrite Ev].
  destruct (g_broker g) eqn:Eb; [| eexists; unfold Deploy; by rewrite Ev, Eb].
  destruct (g_store g) eqn:Es; [| eexists; unfold Deploy; by rewrite Ev, Eb, Es].
  eexists. by apply lc_deploy_live.
Qed.

Lemma lc_solo_bind {A B} c (p : oprog A) (k : A -> oprog B) o :
  solo c (p ≫= k) o = match solo c p o with Some (o', a) => solo c (k a) o' | None => None end.
Proof. apply solo_bind. Qed.
Lemma lc_solo_atomic {A B} c (f : Choice -> Orchestrator -> Orchestrator * A) (k : A -> oprog B) o :
  solo c (atomic f ≫= k) o = solo c (k (f c o).2) (f c o).1.
Proof. rewrite lc_solo_bind. unfold atomic. simpl. by destruct (f c o). Qed.
Lemma lc_solo_db {A} c k (f : bool -> Orchestrator -> Orchestrator * A) o : solo c (db k f) o = Some (f (db_ok k c o) o).
Proof. unfold db, atomic. simpl. by destruct (f (db_ok k c o) o). Qed.
Lemma lc_owned id user rows d : owned id user rows = Some d <-> rows !! id = Some d /\ d_UserID d = user.
Proof.
  unfold owned. destruct (rows !! id) as [d'|]; simpl; [| by split; [| intros [? _]]].
  case_bool_decide; split; [by intros [= <-] | by intros [[= <-] _] | done | intros [[= <-] ?]; done].
Qed.

(** What the rest of the restart leaves alone. *)
Definition lc_quiet (o o' : Orchestrator) : Prop :=
  o_subs o' = o_subs o /\ o_modules o' = o_modules o /\ o_spawned o' = o_spawned o /\ o_attempts o' = o_attempts o /\
  o_live o' = o_live o /\ o_cancelled o' = o_cancelled o.
#[local] Instance lc_quiet_preorder : PreOrder lc_quiet.
Proof. unfold lc_quiet. split; [by intros o | intros o o1 o2; intuition congruence]. Qed.
(** The row is still there and still the user's. *)
Definition lc_kept (id user : string) (o o' : Orchestrator) : Prop :=
  lc_quiet o o' /\ (is_Some (owned id user (o_rows o)) -> is_Some (owned id user (o_rows o'))).
#[local] Instance lc_kept_preorder id user : PreOrder (lc_kept id user).
Proof. split; [by intros o | intros o o1 o2 [H1 H2] [H3 H4]; split; [by transitivity o1 | auto]]. Qed.

Lemma lc_update_kept f id user ok o : (forall d, d_UserID (f d) = d_UserID d) -> lc_kept id user o (update_row f id user ok o).1.
Proof.
  intros Hf. unfold update_row. destruct ok; simpl; [| done]. destruct (owned id user (o_rows o)) as [d|] eqn:E; [| done].
  split; [done |]. intros _. exists (f d). apply lc_owned. simpl. rewrite lookup_insert_eq. apply lc_owned in E as [_ <-]. by rewrite Hf.
Qed.
Lemma lc_update_row_ok f id user o d : owned id user (o_rows o) = Some d -> (update_row f id user true o).1 = with_rows (<[id := f d]> (o_rows o)) o.
Proof. intros E. unfold update_row. by rewrite E. Qed.

Lemma lc_persist_kept g c li o id user : h_deployment (li_state li) = id -> h_userID (li_state li) = user ->
  exists o1, solo c (persistCandleCount g li) o = Some (o1, tt) /\ lc_kept id user o o1.
Proof.
  intros <- <-. unfold persistCandleCount. destruct (g_store g); cbn [negb]; [| by exists o].
  unfold read. rewrite lc_solo_atomic. cbn [fst snd]. rewrite lc_solo_bind. unfold SetCandleCount. rewrite lc_solo_db.
  match goal with |- context [update_row ?f ?i ?u ?k ?o] => pose proof (lc_update_kept f i u k o ltac:(done)) as Hk; destruct (update_row f i u k o) as [o1 r] end.
  by exists o1.
Qed.

(** A deployment whose module fails is not restarted in its process, although
    that is what [runLive] means to do: while its entry is in the table of live
    deployments, which its own goroutine removes only after this, the restart
    ends with the row marked crashed, without a subscription, a module, a
    goroutine or an attempt more, whether or not the budget of restarts has
    room.  This is when the queries succeed, the row exists, the deployment has
    not been stopped, and nothing else runs meanwhile ([solo]). *)
Theorem restart_in_process_never_succeeds g c li err o :
  ch_ok c = true -> li_attempt li ∉ o_cancelled o -> h_deployment (li_state li) = li_deploymentID li ->
  is_Some (o_live o !! li_deploymentID li) -> is_Some (owned (li_deploymentID li) (h_userID (li_state li)) (o_rows o)) ->
  exists o', solo c (handleRunError g li err) o = Some (o', tt) /\
    d_Status <$> (o_rows o' !! li_deploymentID li) = Some StatusCrashed /\
    o_subs o' = o_subs o /\ o_modules o' = o_modules o /\ o_spawned o' = o_spawned o /\ o_attempts o' = o_attempts o.
Proof.
  intros Hok Hc Hid Hl Hrow. set (id := li_deploymentID li) in *. set (user := h_userID (li_state li)) in *.
  assert (forall o1 reason, lc_kept id user o o1 -> exists o2, solo c (UpdateStatus (Some (li_attempt li)) id user StatusCrashed reason) o1 = Some (o2, Ok tt) /\
    d_Status <$> (o_rows o2 !! id) = Some StatusCrashed /\ lc_quiet o o2) as Hcrash.
  { intros o1 reason [Hq Hk]. destruct (Hk Hrow) as [d Hd]. unfold UpdateStatus. rewrite lc_solo_db.
    assert (db_ok (Some (li_attempt li)) c o1 = true) as Edb.
    { unfold db_ok. rewrite Hok, bool_decide_eq_false_2; [done |]. destruct Hq as (_ & _ & _ & _ & _ & ->). done. }
    rewrite Edb. unfold update_row. simpl. rewrite Hd. eexists. split; [done |]. simpl. by rewrite lookup_insert_eq. }
  unfold handleRunError, record_panic, update, allow_restart. rewrite !lc_solo_atomic. cbn [fst snd]. cbv zeta. fold id user.
  match goal with |- context [Allow ?a ?b ?d] => destruct (Allow a b d) as [[] kept] end; cbn [fst snd negb].
  - rewrite lc_solo_bind. match goal with |- context [solo c (persistCandleCount g li) ?o] => destruct (lc_persist_kept g c li o id user Hid eq_refl) as (o1 & -> & Hk1) end.
    rewrite lc_solo_bind. unfold buildRestartConfig. rewrite lc_solo_bind. unfold Get. rewrite lc_solo_db. cbv beta iota. cbn [solo].
    assert (is_Some (o_live o1 !! id)) as Hl1 by (destruct Hk1 as [(_ & _ & _ & _ & -> & _) _]; exact Hl).
    match goal with |- context [Deploy g _ ?cfg] => assert (c_DeploymentID cfg = id) as Hcfg by (by case_match); destruct (lc_deploy_refused g c (Some (li_attempt li)) cfg o1) as [e He]; [by rewrite Hcfg |] end.
    rewrite lc_solo_bind, He. rewrite lc_solo_bind. unfold IncRestart. rewrite lc_solo_db.
    match goal with |- context [update_row ?f ?i ?u ?k ?o] => pose proof (lc_update_kept f i u k o ltac:(done)) as Hk2; destruct (update_row f i u k o) as [o2 r2] end.
    rewrite lc_solo_bind. destruct (Hcrash o2 ("in-process restart failed: " +:+ error_text e)%string) as (o3 & -> & Hst & Hq); [transitivity o1; [exact Hk1 | exact Hk2] |].
    exists o3. split_and!; [done | done |..]; apply Hq.
  - rewrite lc_solo_bind. match goal with |- context [solo c _ ?o1] => destruct (Hcrash o1 "restart budget exhausted"%string) as (o3 & -> & Hst & Hq); [done |] end.
    exists o3. split_and!; [done | done |..]; apply Hq.
Qed.

(** With room in the budget, three restarts in a minute. *)
Example restart_in_process_never_succeeds_witness :
  let o := Demo.final (take 12 Demo.script) in
  exists li o', o_live o !! "d1"%string = Some li /\ Allow (g_restart Demo.config) (o_now o) [] = (true, [0]) /\
    solo Demo.fine (handleRunError Demo.config li "trap") o = Some (o', tt) /\
    d_Status <$> (o_rows o' !! "d1"%string) = Some StatusCrashed /\ o_attempts o' = 1%nat.
Proof.
  cbv zeta. set (li := MkInstance "d1" 0 (MkHost "alice" "s1" "d1" "book" "key" "1m" "TREA" 20)).
  assert (o_live (Demo.final (take 12 Demo.script)) !! "d1"%string = Some li) as E1 by (vm_compute; reflexivity).
  assert (li_attempt li ∉ o_cancelled (Demo.final (take 12 Demo.script))) as E2 by (apply (bool_decide_unpack _); vm_compute; reflexivity).
  assert (is_Some (owned "d1" "alice" (o_rows (Demo.final (take 12 Demo.script))))) as E3 by (apply (bool_decide_unpack _); vm_compute; reflexivity).
  assert (o_attempts (Demo.final (take 12 Demo.script)) = 1%nat) as E4 by (vm_compute; reflexivity).
  assert (Allow (g_restart Demo.config) (o_now (Demo.final (take 12 Demo.script))) [] = (true, [0])) as E5 by (vm_compute; reflexivity).
  destruct (restart_in_process_never_succeeds Demo.config Demo.fine li "trap" (Demo.final (take 12 Demo.script)) eq_refl E2 eq_refl (ex_intro _ li E1) E3)
    as (o' & Hs & Hst & _ & _ & _ & Ha).
  exists li, o'. rewrite E4 in Ha. exact (conj E1 (conj E5 (conj Hs (conj Hst Ha)))).
Defined.

(** ** The budget of restarts *)

(** The answers to the calls at these times, each with its time. *)
Fixpoint allow_run (cfg : RestartConfig) (nows : list Z) (resets : list Z) : list (Z * bool) :=
  match nows with
  | [] => []
  | t :: rest => let '(ok, kept) := Allow cfg t resets in (t, ok) :: allow_run cfg rest kept
  end.

(** The restarts allowed in the window that ends at [t]. *)
Definition in_window (W t : Z) (h : list (Z * bool)) : list (Z * bool) := List.filter (fun p => (p.2 : bool) && (t - W <? p.1)) h.
Definition allowed_of (h : list (Z * bool)) : list Z := (List.filter (fun p => p.2) h).*1.

Lemma lc_filter_later W (t u : Z) l : t <= u ->
  List.filter (fun z => u - W <? z) (List.filter (fun z => t - W <? z) l) = List.filter (fun z => u - W <? z) l.
Proof.
  intros Ht. induction l as [|z l IH]; simpl; [done |]. destruct (Z.ltb_spec (t - W) z) as [H1|H1], (Z.ltb_spec (u - W) z) as [H2|H2]; simpl.
  - destruct (Z.ltb_spec (u - W) z); [by rewrite IH | lia].
  - destruct (Z.ltb_spec (u - W) z); [lia | done].
  - lia.
  - done.
Qed.
Lemma lc_allowed_snoc h t (b : bool) : allowed_of (h ++ [(t, b)]) = allowed_of h ++ if b then [t] else [].
Proof. unfold allowed_of. rewrite List.filter_app, fmap_app. by destruct b. Qed.
Lemma lc_window_allowed W t h : length (in_window W t h) = length (List.filter (fun z => t - W <? z) (allowed_of h)).
Proof.
  unfold in_window, allowed_of. induction h as [|[z []] h IH]; simpl; [done | | done]. destruct (t - W <? z); simpl; [f_equal |]; apply IH.
Qed.
Lemma lc_window_later W t u h : t <= u -> (length (in_window W u h) <= length (in_window W t h))%nat.
Proof.
  intros Ht. unfold in_window. induction h as [|[z []] h IH]; simpl; [done | | done].
  destruct (Z.ltb_spec (t - W) z), (Z.ltb_spec (u - W) z); simpl; lia.
Qed.

(** What is kept: the restarts allowed in the window of the last call. *)
Lemma lc_allow_kept cfg t0 t h resets : t0 <= t ->
  (forall u, t0 <= u -> List.filter (fun z => u - rc_Window cfg <? z) resets = List.filter (fun z => u - rc_Window cfg <? z) (allowed_of h)) ->
  let '(ok, kept) := Allow cfg t resets in
  ok = (Z.of_nat (length (in_window (rc_Window cfg) t h)) <? rc_MaxRestarts cfg) /\
  forall u, t <= u -> List.filter (fun z => u - rc_Window cfg <? z) kept = List.filter (fun z => u - rc_Window cfg <? z) (allowed_of (h ++ [(t, ok)])).
Proof.
  intros Ht Hk. unfold Allow. rewrite lc_window_allowed, <- Hk by done.
  set (live := List.filter (fun z => t - rc_Window cfg <? z) resets).
  assert (forall u, t <= u -> List.filter (fun z => u - rc_Window cfg <? z) live = List.filter (fun z => u - rc_Window cfg <? z) (allowed_of h)) as Hlive
    by (intros u Hu; unfold live; rewrite lc_filter_later by done; apply Hk; lia).
  destruct (Z.leb_spec (rc_MaxRestarts cfg) (Z.of_nat (length live))) as [Hle|Hlt]; (split; [symmetry; apply Z.ltb_nlt || apply Z.ltb_lt; lia |]);
    intros u Hu; rewrite lc_allowed_snoc; [rewrite app_nil_r; by apply Hlive |].
  by rewrite !List.filter_app, (Hlive u Hu).
Qed.

Lemma lc_allow_run cfg nows : forall t0 h resets, Sorted.StronglySorted Z.le (t0 :: nows) ->
  (forall u, t0 <= u -> List.filter (fun z => u - rc_Window cfg <? z) resets = List.filter (fun z => u - rc_Window cfg <? z) (allowed_of h)) ->
  forall pre t ok rest, allow_run cfg nows resets = pre ++ (t, ok) :: rest ->
    t0 <= t /\ ok = (Z.of_nat (length (in_window (rc_Window cfg) t (h ++ pre))) <? rc_MaxRestarts cfg).
Proof.
  induction nows as [|t1 nows IH]; intros t0 h resets Hs Hk pre t ok rest Hr; [by destruct pre |]. simpl in Hr.
  apply Sorted.StronglySorted_inv in Hs as [Hs Hle]. pose proof (proj1 (List.Forall_forall _ _) Hle) as Hall.
  pose proof (lc_allow_kept cfg t0 t1 h resets (Hall t1 (or_introl eq_refl)) Hk) as Ha. destruct (Allow cfg t1 resets) as [b kept].
  destruct Ha as [Hb Hkept]. destruct pre as [|p pre]; simpl in Hr; injection Hr as E Hr.
  - subst. rewrite app_nil_r. split; [by apply Hall; left | done].
  - subst p. destruct (IH t1 (h ++ [(t1, b)]) kept Hs Hkept pre t ok rest Hr) as [Hle1 ->]. rewrite <- app_assoc. split; [| done].
    etrans; [apply Hall; by left | done].
Qed.

(** The restart budget is a sliding window: under a clock that does not go
    back a restart is allowed exactly when fewer than [MaxRestarts] restarts
    were allowed in the window that ends now (refused restarts do not count),
    although only the restarts of the window are remembered; so no window of
    that length ever holds more than [MaxRestarts]. *)
Theorem restart_budget_sliding_window cfg nows : Sorted.StronglySorted Z.le nows -> 0 <= rc_MaxRestarts cfg ->
  (forall pre t ok rest, allow_run cfg nows [] = pre ++ (t, ok) :: rest ->
     ok = (Z.of_nat (length (in_window (rc_Window cfg) t pre)) <? rc_MaxRestarts cfg)) /\
  forall h rest u, allow_run cfg nows [] = h ++ rest -> (forall p, p ∈ h -> p.1 <= u) ->
    Z.of_nat (length (in_window (rc_Window cfg) u h)) <= rc_MaxRestarts cfg.
Proof.
  intros Hs Hmax.
  assert (forall pre t ok rest, allow_run cfg nows [] = pre ++ (t, ok) :: rest ->
    ok = (Z.of_nat (length (in_window (rc_Window cfg) t pre)) <? rc_MaxRestarts cfg)) as Hexact.
  { intros pre t ok rest Hr. destruct nows as [|t0 nows]; [by destruct pre |].
    apply (lc_allow_run cfg (t0 :: nows) t0 [] []) in Hr as [_ Hr]; [done | | done].
    constructor; [done |]. apply Sorted.StronglySorted_inv in Hs as [_ Hs]. by constructor. }
  split; [exact Hexact |]. intros h. induction h as [|[t b] h IH] using rev_ind; intros rest u Hr Hu; [done |].
  rewrite <- app_assoc in Hr. pose proof (Hexact _ _ _ _ Hr) as Hb.
  assert (t <= u) as Htu by (apply (Hu (t, b)); set_solver).
  assert (length (in_window (rc_Window cfg) u (h ++ [(t, b)])) = length (in_window (rc_Window cfg) u h) + length (in_window (rc_Window cfg) u [(t, b)]))%nat as ->
    by (unfold in_window; by rewrite List.filter_app, length_app).
  pose proof (lc_window_later (rc_Window cfg) t u h Htu). destruct b; simpl.
  - symmetry in Hb. apply Z.ltb_lt in Hb. destruct (u - rc_Window cfg <? t); simpl; lia.
  - rewrite Nat.add_0_r. apply (IH ([(t, false)] ++ rest) u Hr). intros p Hp. apply Hu. set_solver.
Qed.

(** Two restarts a minute: the third is refused, and when the first has left
    the window a restart is allowed again. *)
Example restart_budget_sliding_window_witness :
  let cfg := MkRestartConfig 60 2 in let nows := [0; 10; 20; 60; 61] in
  allow_run cfg nows [] = [(0, true); (10, true); (20, false); (60, true); (61, false)] /\
  Z.of_nat (length (in_window 60 61 (allow_run cfg nows []))) <= 2.
Proof.
  cbv zeta. split; [vm_compute; reflexivity |].
  refine (proj2 (restart_budget_sliding_window (MkRestartConfig 60 2) [0; 10; 20; 60; 61] _ _) _ [] 61 _ _).
  - repeat constructor; lia.
  - simpl. lia.
  - by rewrite app_nil_r.
  - intros p Hp. apply (list_elem_of_In) in Hp. vm_compute in Hp. repeat destruct Hp as [<-|Hp]; simpl; try lia; done.
Defined.

(** ** Two requests to deploy one deployment

    Both look for an entry before either registers one, so both start; the
    table keeps the second, which alone can be stopped. *)
Example orchestrator_double_deploy :
  let ls := [LArrive (ReqDeploy Demo.cfg); LArrive (ReqDeploy Demo.cfg); LThread 0 Demo.fine; LThread 1 Demo.fine] ++
            replicate 10 (LThread 0 Demo.fine) ++ replicate 10 (LThread 1 Demo.fine) in
  Demo.ends ls = true /\ o_modules (Demo.final ls) = {[0%nat; 1%nat]} /\
  li_attempt <$> (o_live (Demo.final ls) !! "d1"%string) = Some 1%nat.
Proof. split_and!; [vm_compute; reflexivity | apply (bool_decide_unpack _); vm_compute; reflexivity | vm_compute; reflexivity]. Qed.

(** HotSwap stops the deployment, names the new revision in its row and never
    starts it: its configuration has no resolution. *)
Lemma lc_hotswap_refused g id userID rev w m key book : id <> ""%string -> book <> ""%string ->
  exists e, Deploy g None (hotswap_config id userID rev w m key book) = Ret (Err e).
Proof.
  intros H1 H2. unfold Deploy, validateForLive, hotswap_config. simpl. rewrite !bool_decide_eq_false_2 by done. by eexists.
Qed.
