(* ===== verification/HttpConfigs.v ===== *)
(** * strategy/http: the configurations of strategies

    The decoders of [handler.go] for the strategies that trade on signals:
    they read the configuration of a request, put in the defaults, check it and
    give the configuration of the strategy together with the normalised JSON
    that is stored and decoded again when the run is resumed.

    The payloads are structs of [JsonStruct]; the checks are in the order of
    the code.  The conversions between floats and decimals and [uuid.Parse]
    come from libraries and are parameters.

    Theory: decoding the stored configuration gives the same configuration and
    stores the same again; what is accepted is what the strategies need. *)

From S2P Require Import Prelude Decimal RefDecimal GoTime Fred Feed GoFloat Json JsonStruct.
From S2P Require Import Twap Vwap.
From S2P Require Import Momentum.
From S2P Require Import Breakout.
From S2P Require Import MeanReversion.
From S2P Require Import CopyTrading.

(** [strings.TrimSpace] *)
Definition trim (s : string) : string := of_chars (Fred.TrimSpace (chars s)).

(** [candles.ParseResolution] *)
Definition ParseResolution (s : string) : result string :=
  let r := trim s in
  if bool_decide (r = ""%string) then Ok "1m"%string
  else if bool_decide (r ∈ ["1m"; "5m"; "15m"; "1h"; "4h"; "1d"]%string) then Ok r
  else Err (ErrMsg "invalid resolution").

(** ** Payloads *)

Record meanReversionConfigPayload := MkMRPayload {
  mp_LookbackWindow : Z; mp_Resolution : string; mp_EntryZScore : float64; mp_ExitZScore : float64; mp_StopLossZScore : float64;
  mp_MinStdDev : float64; mp_MaxPositionSize : float64; mp_OrderBookID : string; mp_Tenor : string;
  mp_InitialBalance : option float64; mp_Leverage : option float64; mp_ImbalanceWindow : option Z; mp_ImbalanceThreshold : float64;
}.

Definition mr_zero : meanReversionConfigPayload :=
  MkMRPayload 0 "" f64_zero f64_zero f64_zero f64_zero f64_zero "" "" None None None f64_zero.
Definition mr_fields : list (field meanReversionConfigPayload) := [
  MkField "lookback_window" FInt false mp_LookbackWindow (fun v p => let 'MkMRPayload _ b c d e f g h i j k l m := p in MkMRPayload v b c d e f g h i j k l m);
  MkField "resolution" FString true mp_Resolution (fun v p => let 'MkMRPayload a _ c d e f g h i j k l m := p in MkMRPayload a v c d e f g h i j k l m);
  MkField "entry_z_score" FFloat false mp_EntryZScore (fun v p => let 'MkMRPayload a b _ d e f g h i j k l m := p in MkMRPayload a b v d e f g h i j k l m);
  MkField "exit_z_score" FFloat false mp_ExitZScore (fun v p => let 'MkMRPayload a b c _ e f g h i j k l m := p in MkMRPayload a b c v e f g h i j k l m);
  MkField "stop_loss_z_score" FFloat false mp_StopLossZScore (fun v p => let 'MkMRPayload a b c d _ f g h i j k l m := p in MkMRPayload a b c d v f g h i j k l m);
  MkField "min_std_dev" FFloat false mp_MinStdDev (fun v p => let 'MkMRPayload a b c d e _ g h i j k l m := p in MkMRPayload a b c d e v g h i j k l m);
  MkField "max_position_size" FFloat false mp_MaxPositionSize (fun v p => let 'MkMRPayload a b c d e f _ h i j k l m := p in MkMRPayload a b c d e f v h i j k l m);
  MkField "order_book_id" FString true mp_OrderBookID (fun v p => let 'MkMRPayload a b c d e f g _ i j k l m := p in MkMRPayload a b c d e f g v i j k l m);
  MkField "tenor" FString true mp_Tenor (fun v p => let 'MkMRPayload a b c d e f g h _ j k l m := p in MkMRPayload a b c d e f g h v j k l m);
  MkField "initial_balance" FFloatPtr true mp_InitialBalance (fun v p => let 'MkMRPayload a b c d e f g h i _ k l m := p in MkMRPayload a b c d e f g h i v k l m);
  MkField "leverage" FFloatPtr true mp_Leverage (fun v p => let 'MkMRPayload a b c d e f g h i j _ l m := p in MkMRPayload a b c d e f g h i j v l m);
  MkField "imbalance_window" FIntPtr true mp_ImbalanceWindow (fun v p => let 'MkMRPayload a b c d e f g h i j k _ m := p in MkMRPayload a b c d e f g h i j k v m);
  MkField "imbalance_threshold" FFloat false mp_ImbalanceThreshold (fun v p => let 'MkMRPayload a b c d e f g h i j k l _ := p in MkMRPayload a b c d e f g h i j k l v)].

Record breakoutConfigPayload := MkBOPayload {
  bp_ShortVolWindow : Z; bp_LongVolWindow : Z; bp_CompressionThreshold : float64; bp_ATRWindow : Z; bp_BreakoutATRMultiple : float64;
  bp_ConfirmationBars : Z; bp_StopLossATR : option float64; bp_TakeProfitATR : option float64; bp_MinLongVolFloor : float64;
  bp_OBVTrendThreshold : float64; bp_OBVWindow : Z; bp_Resolution : string; bp_OrderBookID : string;
  bp_InitialBalance : option float64; bp_Leverage : option float64;
}.

Definition bo_zero : breakoutConfigPayload :=
  MkBOPayload 0 0 f64_zero 0 f64_zero 0 None None f64_zero f64_zero 0 "" "" None None.
Definition bo_fields : list (field breakoutConfigPayload) := [
  MkField "short_vol_window" FInt false bp_ShortVolWindow (fun v p => let 'MkBOPayload _ b c d e f g h i j k l m n o := p in MkBOPayload v b c d e f g h i j k l m n o);
  MkField "long_vol_window" FInt false bp_LongVolWindow (fun v p => let 'MkBOPayload a _ c d e f g h i j k l m n o := p in MkBOPayload a v c d e f g h i j k l m n o);
  MkField "compression_threshold" FFloat false bp_CompressionThreshold (fun v p => let 'MkBOPayload a b _ d e f g h i j k l m n o := p in MkBOPayload a b v d e f g h i j k l m n o);
  MkField "atr_window" FInt false bp_ATRWindow (fun v p => let 'MkBOPayload a b c _ e f g h i j k l m n o := p in MkBOPayload a b c v e f g h i j k l m n o);
  MkField "breakout_atr_multiple" FFloat false bp_BreakoutATRMultiple (fun v p => let 'MkBOPayload a b c d _ f g h i j k l m n o := p in MkBOPayload a b c d v f g h i j k l m n o);
  MkField "confirmation_bars" FInt false bp_ConfirmationBars (fun v p => let 'MkBOPayload a b c d e _ g h i j k l m n o := p in MkBOPayload a b c d e v g h i j k l m n o);
  MkField "stop_loss_atr" FFloatPtr true bp_StopLossATR (fun v p => let 'MkBOPayload a b c d e f _ h i j k l m n o := p in MkBOPayload a b c d e f v h i j k l m n o);
  MkField "take_profit_atr" FFloatPtr true bp_TakeProfitATR (fun v p => let 'MkBOPayload a b c d e f g _ i j k l m n o := p in MkBOPayload a b c d e f g v i j k l m n o);
  MkField "min_long_vol_floor" FFloat false bp_MinLongVolFloor (fun v p => let 'MkBOPayload a b c d e f g h _ j k l m n o := p in MkBOPayload a b c d e f g h v j k l m n o);
  MkField "obv_trend_threshold" FFloat false bp_OBVTrendThreshold (fun v p => let 'MkBOPayload a b c d e f g h i _ k l m n o := p in MkBOPayload a b c d e f g h i v k l m n o);
  MkField "obv_window" FInt false bp_OBVWindow (fun v p => let 'MkBOPayload a b c d e f g h i j _ l m n o := p in MkBOPayload a b c d e f g h i j v l m n o);
  MkField "resolution" FString true bp_Resolution (fun v p => let 'MkBOPayload a b c d e f g h i j k _ m n o := p in MkBOPayload a b c d e f g h i j k v m n o);
  MkField "order_book_id" FString true bp_OrderBookID (fun v p => let 'MkBOPayload a b c d e f g h i j k l _ n o := p in MkBOPayload a b c d e f g h i j k l v n o);
  MkField "initial_balance" FFloatPtr true bp_InitialBalance (fun v p => let 'MkBOPayload a b c d e f g h i j k l m _ o := p in MkBOPayload a b c d e f g h i j k l m v o);
  MkField "leverage" FFloatPtr true bp_Leverage (fun v p => let 'MkBOPayload a b c d e f g h i j k l m n _ := p in MkBOPayload a b c d e f g h i j k l m n v)].

Record momentumConfigPayload := MkMOPayload {
  op_SignalSource : string; op_FastWindow : option Z; op_SlowWindow : option Z; op_ATRWindow : option Z; op_Resolution : string;
  op_VolumeAvgWindow : option Z; op_VolumeRatioThreshold : option float64; op_StopLossATR : option float64; op_TakeProfitATR : option float64;
  op_MinOrderSize : float64; op_MaxOrderSize : float64; op_MaxPositionSize : option float64; op_Tenor : string; op_OrderBookID : string;
  op_InitialBalance : option float64; op_Leverage : option float64;
}.

Definition mo_zero : momentumConfigPayload :=
  MkMOPayload "" None None None "" None None None None f64_zero f64_zero None "" "" None None.
Definition mo_fields : list (field momentumConfigPayload) := [
  MkField "signal_source" FString false op_SignalSource (fun v p => let 'MkMOPayload _ b c d e f g h i j k l m n o q := p in MkMOPayload v b c d e f g h i j k l m n o q);
  MkField "fast_window" FIntPtr true op_FastWindow (fun v p => let 'MkMOPayload a _ c d e f g h i j k l m n o q := p in MkMOPayload a v c d e f g h i j k l m n o q);
  MkField "slow_window" FIntPtr true op_SlowWindow (fun v p => let 'MkMOPayload a b _ d e f g h i j k l m n o q := p in MkMOPayload a b v d e f g h i j k l m n o q);
  MkField "atr_window" FIntPtr true op_ATRWindow (fun v p => let 'MkMOPayload a b c _ e f g h i j k l m n o q := p in MkMOPayload a b c v e f g h i j k l m n o q);
  MkField "resolution" FString true op_Resolution (fun v p => let 'MkMOPayload a b c d _ f g h i j k l m n o q := p in MkMOPayload a b c d v f g h i j k l m n o q);
  MkField "volume_avg_window" FIntPtr true op_VolumeAvgWindow (fun v p => let 'MkMOPayload a b c d e _ g h i j k l m n o q := p in MkMOPayload a b c d e v g h i j k l m n o q);
  MkField "volume_ratio_threshold" FFloatPtr true op_VolumeRatioThreshold (fun v p => let 'MkMOPayload a b c d e f _ h i j k l m n o q := p in MkMOPayload a b c d e f v h i j k l m n o q);
  MkField "stop_loss_atr" FFloatPtr true op_StopLossATR (fun v p => let 'MkMOPayload a b c d e f g _ i j k l m n o q := p in MkMOPayload a b c d e f g v i j k l m n o q);
  MkField "take_profit_atr" FFloatPtr true op_TakeProfitATR (fun v p => let 'MkMOPayload a b c d e f g h _ j k l m n o q := p in MkMOPayload a b c d e f g h v j k l m n o q);
  MkField "min_order_size" FFloat false op_MinOrderSize (fun v p => let 'MkMOPayload a b c d e f g h i _ k l m n o q := p in MkMOPayload a b c d e f g h i v k l m n o q);
  MkField "max_order_size" FFloat false op_MaxOrderSize (fun v p => let 'MkMOPayload a b c d e f g h i j _ l m n o q := p in MkMOPayload a b c d e f g h i j v l m n o q);
  MkField "max_position_size" FFloatPtr true op_MaxPositionSize (fun v p => let 'MkMOPayload a b c d e f g h i j k _ m n o q := p in MkMOPayload a b c d e f g h i j k v m n o q);
  MkField "tenor" FString true op_Tenor (fun v p => let 'MkMOPayload a b c d e f g h i j k l _ n o q := p in MkMOPayload a b c d e f g h i j k l v n o q);
  MkField "order_book_id" FString true op_OrderBookID (fun v p => let 'MkMOPayload a b c d e f g h i j k l m _ o q := p in MkMOPayload a b c d e f g h i j k l m v o q);
  MkField "initial_balance" FFloatPtr true op_InitialBalance (fun v p => let 'MkMOPayload a b c d e f g h i j k l m n _ q := p in MkMOPayload a b c d e f g h i j k l m n v q);
  MkField "leverage" FFloatPtr true op_Leverage (fun v p => let 'MkMOPayload a b c d e f g h i j k l m n o _ := p in MkMOPayload a b c d e f g h i j k l m n o v)].

Record copyTradingConfigPayload := MkCTPayload {
  cp_FollowedTrader : string; cp_PercentageOfAvailable : float64; cp_Leverage : float64; cp_MinOrderSize : Z; cp_MaxOrderSize : Z;
  cp_DisallowedBonds : option (list string); cp_InitialBalance : option float64;
}.

Definition ct_zero : copyTradingConfigPayload := MkCTPayload "" f64_zero f64_zero 0 0 None None.
Definition ct_fields : list (field copyTradingConfigPayload) := [
  MkField "followed_trader" FString false cp_FollowedTrader (fun v p => let 'MkCTPayload _ b c d e f g := p in MkCTPayload v b c d e f g);
  MkField "percentage_of_available" FFloat false cp_PercentageOfAvailable (fun v p => let 'MkCTPayload a _ c d e f g := p in MkCTPayload a v c d e f g);
  MkField "leverage" FFloat false cp_Leverage (fun v p => let 'MkCTPayload a b _ d e f g := p in MkCTPayload a b v d e f g);
  MkField "min_order_size" FInt false cp_MinOrderSize (fun v p => let 'MkCTPayload a b c _ e f g := p in MkCTPayload a b c v e f g);
  MkField "max_order_size" FInt false cp_MaxOrderSize (fun v p => let 'MkCTPayload a b c d _ f g := p in MkCTPayload a b c d v f g);
  MkField "disallowed_bonds" FStrings false cp_DisallowedBonds (fun v p => let 'MkCTPayload a b c d e _ g := p in MkCTPayload a b c d e v g);
  MkField "initial_balance" FFloatPtr true cp_InitialBalance (fun v p => let 'MkCTPayload a b c d e f _ := p in MkCTPayload a b c d e f v)].

(** ** Decoders *)

(** The conversions of the decimal library and [uuid.Parse]. *)
Class Conversions {D : DecimalOps} := {
  NewFromFloat64 : float64 -> result dec;
  mustFloat64 : dec -> float64;
  uuid_Parse : string -> result string;
}.

(** The zero UUID, as a strategy holds it. *)
Definition no_uuid : string := "".

Section Decoders.
Context {D : DecimalOps} `{FloatText} `{!Conversions}.

(** [if bad { return err }] *)
Definition check (bad : bool) (msg : string) : result unit := if bad then Err (ErrMsg msg) else Ok tt.

Definition decodeRawConfig {P} (fs : list (field P)) (zero : P) (raw : json) : result P :=
  match raw with
  | JNull => Err (ErrMsg "config is required")
  | _ => wrap_err "invalid config" (decode_strict fs zero raw)
  end.

(** A field that is zero gets its default. *)
Definition or_default (x : float64) (d : dec) : float64 := if f64_eq x f64_zero then mustFloat64 d else x.
Definition int_default (z d : Z) : Z := if z =? 0 then d else z.
Definition string_default (s d : string) : string := if bool_decide (s = ""%string) then d else s.
Definition to_decimal (name : string) (x : float64) : result dec := wrap_err ("config." +:+ name) (NewFromFloat64 x).

(** The starting balance: [live_zero] for a run that says 0. *)
Definition decode_balance (forRun : bool) (def live_zero : dec) (p : option float64) : result dec :=
  match p with
  | None => Ok def
  | Some x =>
      if f64_lt x f64_zero then Err (ErrMsg "config.initial_balance must be non-negative")
      else if f64_eq x f64_zero then
        if negb forRun then Err (ErrMsg "config.initial_balance must be greater than 0 for backtests") else Ok live_zero
      else to_decimal "initial_balance" x
  end.
Definition decode_leverage (def : dec) (p : option float64) : result dec :=
  match p with
  | None => Ok def
  | Some x => if f64_le x f64_zero then Err (ErrMsg "config.leverage must be greater than 0") else to_decimal "leverage" x
  end.
Definition decode_book (s : string) : result string :=
  if bool_decide (s = ""%string) then Ok no_uuid else wrap_err "config.order_book_id" (uuid_Parse (trim s)).
Definition decode_resolution (s : string) : result string := wrap_err "config.resolution" (ParseResolution s).
Definition decode_tenor (s : string) : result Tenor := wrap_err "config.tenor" (ParseBenchmarkTenor s).

(** *** Mean reversion *)

Definition mr_body (p : meanReversionConfigPayload) (forRun : bool) : result (MeanReversion.Config * json) :=
  let d := MeanReversion.DefaultConfig in
  let lookback := int_default (mp_LookbackWindow p) (MeanReversion.LookbackWindow d) in
  _ ← check (lookback <? 2) "config.lookback_window must be at least 2";
  let imbalanceWindow := default (MeanReversion.ImbalanceWindow d) (mp_ImbalanceWindow p) in
  _ ← check (match mp_ImbalanceWindow p with Some w => w <? 0 | None => false end) "config.imbalance_window must be non-negative";
  _ ← check (f64_lt (mp_ImbalanceThreshold p) f64_zero) "config.imbalance_threshold must be non-negative";
  imbalanceThreshold ← to_decimal "imbalance_threshold" (mp_ImbalanceThreshold p);
  let entryZ := or_default (mp_EntryZScore p) (MeanReversion.EntryZScore d) in
  let exitZ := or_default (mp_ExitZScore p) (MeanReversion.ExitZScore d) in
  let stopZ := or_default (mp_StopLossZScore p) (MeanReversion.StopLossZScore d) in
  let minStd := or_default (mp_MinStdDev p) (MeanReversion.MinStdDev d) in
  let maxPos := or_default (mp_MaxPositionSize p) (MeanReversion.MaxPositionSize d) in
  _ ← check (f64_le entryZ f64_zero) "config.entry_z_score must be greater than 0";
  _ ← check (f64_lt exitZ f64_zero) "config.exit_z_score must be non-negative";
  _ ← check (f64_lt stopZ f64_zero) "config.stop_loss_z_score must be non-negative";
  _ ← check (f64_lt minStd f64_zero) "config.min_std_dev must be non-negative";
  _ ← check (f64_le maxPos f64_zero || f64_gt maxPos f64_one) "config.max_position_size must be in (0,1]";
  _ ← check (bool_decide (mp_Tenor p = ""%string)) "config.tenor is required for mean_reversion";
  _ ← decode_tenor (mp_Tenor p);
  entry ← to_decimal "entry_z_score" entryZ;
  exit ← to_decimal "exit_z_score" exitZ;
  stopLoss ← to_decimal "stop_loss_z_score" stopZ;
  minStdDev ← to_decimal "min_std_dev" minStd;
  maxPositionSize ← to_decimal "max_position_size" maxPos;
  amount ← decode_balance forRun (MeanReversion.InitialBalance d) (MeanReversion.InitialBalance d) (mp_InitialBalance p);
  leverage ← decode_leverage (MeanReversion.Leverage d) (mp_Leverage p);
  orderBookID ← decode_book (mp_OrderBookID p);
  let tenor := trim (mp_Tenor p) in
  let resolution := string_default (trim (mp_Resolution p)) (MeanReversion.Resolution d) in
  res ← decode_resolution resolution;
  normalised ← wrap_err "marshal normalised config" (marshal_struct mr_fields
    (MkMRPayload lookback resolution entryZ exitZ stopZ minStd maxPos (mp_OrderBookID p) tenor (mp_InitialBalance p) (mp_Leverage p)
       (Some imbalanceWindow) (mp_ImbalanceThreshold p)));
  Ok ({| MeanReversion.LookbackWindow := lookback; MeanReversion.Resolution := res; MeanReversion.EntryZScore := entry;
         MeanReversion.ExitZScore := exit; MeanReversion.StopLossZScore := stopLoss; MeanReversion.MinStdDev := minStdDev;
         MeanReversion.MaxPositionSize := maxPositionSize; MeanReversion.OrderBookID := orderBookID; MeanReversion.CfgTenor := tenor;
         MeanReversion.InitialBalance := amount; MeanReversion.Leverage := leverage; MeanReversion.ImbalanceWindow := imbalanceWindow;
         MeanReversion.ImbalanceThreshold := imbalanceThreshold |}, normalised).
Definition decodeMeanReversionConfig (raw : json) (forRun : bool) : result (MeanReversion.Config * json) :=
  p ← decodeRawConfig mr_fields mr_zero raw; mr_body p forRun.

(** *** Breakout *)

Definition bo_body (p : breakoutConfigPayload) (forRun : bool) : result (Breakout.Config * json) :=
  let d := Breakout.DefaultConfig in
  let shortVol := int_default (bp_ShortVolWindow p) (Breakout.ShortVolWindow d) in
  let longVol := int_default (bp_LongVolWindow p) (Breakout.LongVolWindow d) in
  let atr := int_default (bp_ATRWindow p) (Breakout.ATRWindow d) in
  let confirmation := int_default (bp_ConfirmationBars p) (Breakout.ConfirmationBars d) in
  let resolution := string_default (trim (bp_Resolution p)) (Breakout.Resolution d) in
  res ← decode_resolution resolution;
  _ ← check (shortVol <? 2) "config.short_vol_window must be at least 2";
  _ ← check (longVol <=? shortVol) "config.long_vol_window must be greater than short_vol_window";
  _ ← check (atr <? 2) "config.atr_window must be at least 2";
  _ ← check (confirmation <? 1) "config.confirmation_bars must be at least 1";
  let compressionThreshold := or_default (bp_CompressionThreshold p) (Breakout.CompressionThreshold d) in
  let breakoutMultiple := or_default (bp_BreakoutATRMultiple p) (Breakout.BreakoutATRMultiple d) in
  let stopLossATR := default (mustFloat64 (Breakout.StopLossATR d)) (bp_StopLossATR p) in
  let takeProfitATR := default (mustFloat64 (Breakout.TakeProfitATR d)) (bp_TakeProfitATR p) in
  let minLongVol := or_default (bp_MinLongVolFloor p) (Breakout.MinLongVolFloor d) in
  let obvTrend := or_default (bp_OBVTrendThreshold p) (Breakout.OBVTrendThreshold d) in
  _ ← check (f64_lt obvTrend f64_zero) "config.obv_trend_threshold must be non-negative";
  _ ← check (bp_OBVWindow p <? 0) "config.obv_window must be non-negative";
  _ ← check (f64_le compressionThreshold f64_zero || f64_gt compressionThreshold f64_one) "config.compression_threshold must be in (0, 1]";
  _ ← check (f64_lt breakoutMultiple f64_zero) "config.breakout_atr_multiple must be non-negative";
  _ ← check (f64_lt stopLossATR f64_zero) "config.stop_loss_atr must be non-negative";
  _ ← check (f64_lt takeProfitATR f64_zero) "config.take_profit_atr must be non-negative";
  _ ← check (f64_lt minLongVol f64_zero) "config.min_long_vol_floor must be non-negative";
  compression ← to_decimal "compression_threshold" compressionThreshold;
  breakoutATR ← to_decimal "breakout_atr_multiple" breakoutMultiple;
  stopLoss ← to_decimal "stop_loss_atr" stopLossATR;
  takeProfit ← to_decimal "take_profit_atr" takeProfitATR;
  obvThreshold ← to_decimal "obv_trend_threshold" obvTrend;
  minFloor ← to_decimal "min_long_vol_floor" minLongVol;
  amount ← decode_balance forRun (Breakout.InitialBalance d) (Breakout.InitialBalance d) (bp_InitialBalance p);
  leverage ← decode_leverage (Breakout.Leverage d) (bp_Leverage p);
  orderBookID ← decode_book (bp_OrderBookID p);
  normalised ← wrap_err "marshal normalised config" (marshal_struct bo_fields
    (MkBOPayload shortVol longVol compressionThreshold atr breakoutMultiple confirmation (Some stopLossATR) (Some takeProfitATR)
       minLongVol obvTrend (bp_OBVWindow p) resolution (bp_OrderBookID p) (bp_InitialBalance p) (bp_Leverage p)));
  Ok ({| Breakout.ShortVolWindow := shortVol; Breakout.LongVolWindow := longVol; Breakout.CompressionThreshold := compression;
         Breakout.ATRWindow := atr; Breakout.BreakoutATRMultiple := breakoutATR; Breakout.ConfirmationBars := confirmation;
         Breakout.StopLossATR := stopLoss; Breakout.TakeProfitATR := takeProfit; Breakout.MinLongVolFloor := minFloor;
         Breakout.OBVTrendThreshold := obvThreshold; Breakout.OBVWindow := bp_OBVWindow p; Breakout.Resolution := res;
         Breakout.OrderBookID := orderBookID; Breakout.InitialBalance := amount; Breakout.Leverage := leverage |}, normalised).
Definition decodeBreakoutConfig (raw : json) (forRun : bool) : result (Breakout.Config * json) :=
  p ← decodeRawConfig bo_fields bo_zero raw; bo_body p forRun.

(** *** Momentum *)

(** The normalised configuration is a map, whose keys are written in order. *)
Definition momentum_json (c : Momentum.Config) (p : momentumConfigPayload) (resolution : string) (maxPositionSize volumeRatio : float64) : result json :=
  atr ← write_float (mustFloat64 (Momentum.StopLossATR c));
  tp ← write_float (mustFloat64 (Momentum.TakeProfitATR c));
  minOrder ← write_float (mustFloat64 (Momentum.MinOrderSize c));
  maxOrder ← write_float (mustFloat64 (Momentum.MaxOrderSize c));
  maxPos ← write_float maxPositionSize;
  ratio ← write_float volumeRatio;
  balance ← write_float (mustFloat64 (Momentum.InitialBalance c));
  leverage ← write_float (mustFloat64 (Momentum.Leverage c));
  Ok (JObject [
    ("atr_window"%string, JNumber (format_int (Momentum.ATRWindow c))); ("fast_window"%string, JNumber (format_int (Momentum.FastWindow c)));
    ("initial_balance"%string, balance); ("leverage"%string, leverage); ("max_order_size"%string, maxOrder);
    ("max_position_size"%string, maxPos); ("min_order_size"%string, minOrder); ("order_book_id"%string, JString (op_OrderBookID p));
    ("resolution"%string, JString resolution); ("signal_source"%string, JString (Momentum.SignalSource c));
    ("slow_window"%string, JNumber (format_int (Momentum.SlowWindow c))); ("stop_loss_atr"%string, atr); ("take_profit_atr"%string, tp);
    ("tenor"%string, JString (op_Tenor p)); ("volume_avg_window"%string, JNumber (format_int (Momentum.VolumeAvgWindow c)));
    ("volume_ratio_threshold"%string, ratio)]).

Definition negative (p : option float64) : bool := match p with Some x => f64_lt x f64_zero | None => false end.
Definition positive (x : float64) : bool := f64_gt x f64_zero.

Definition mo_body (p : momentumConfigPayload) (forRun : bool) : result (Momentum.Config * json) :=
  let d := Momentum.DefaultConfig in
  let source := string_default (op_SignalSource p) (Momentum.SignalSource d) in
  let fastWindow := default (Momentum.FastWindow d) (op_FastWindow p) in
  let slowWindow := default (Momentum.SlowWindow d) (op_SlowWindow p) in
  let atrWindow := default (Momentum.ATRWindow d) (op_ATRWindow p) in
  let resolution := string_default (trim (op_Resolution p)) (Momentum.Resolution d) in
  res ← decode_resolution resolution;
  _ ← check (match op_VolumeAvgWindow p with Some w => w <? 0 | None => false end) "config.volume_avg_window must be non-negative";
  let volumeAvgWindow := default (Momentum.VolumeAvgWindow d) (op_VolumeAvgWindow p) in
  _ ← check (negative (op_VolumeRatioThreshold p)) "config.volume_ratio_threshold must be non-negative";
  let volumeRatioThreshold := default (mustFloat64 (Momentum.VolumeRatioThreshold d)) (op_VolumeRatioThreshold p) in
  let maxPositionSize := default (mustFloat64 (Momentum.MaxPositionSize d)) (op_MaxPositionSize p) in
  let stopLossATR := default (mustFloat64 (Momentum.StopLossATR d)) (op_StopLossATR p) in
  let takeProfitATR := default (mustFloat64 (Momentum.TakeProfitATR d)) (op_TakeProfitATR p) in
  _ ← check (negb (bool_decide (source ∈ [Momentum.SignalSourcePrice; Momentum.SignalSourceYTM; Momentum.SignalSourceSpread])))
        "config.signal_source must be one of price, ytm, spread";
  _ ← check (fastWindow <? 2) "config.fast_window must be at least 2";
  _ ← check (slowWindow <=? fastWindow) "config.slow_window must be greater than fast_window";
  _ ← check (atrWindow <? 2) "config.atr_window must be at least 2";
  _ ← check (f64_lt stopLossATR f64_zero) "config.stop_loss_atr must be non-negative";
  _ ← check (f64_lt takeProfitATR f64_zero) "config.take_profit_atr must be non-negative";
  _ ← check (f64_lt (op_MinOrderSize p) f64_zero) "config.min_order_size must be non-negative";
  _ ← check (f64_lt (op_MaxOrderSize p) f64_zero) "config.max_order_size must be non-negative";
  _ ← check (f64_le maxPositionSize f64_zero || f64_gt maxPositionSize f64_one) "config.max_position_size must be in (0,1]";
  _ ← (if bool_decide (source = Momentum.SignalSourceSpread) then
         _ ← check (bool_decide (op_Tenor p = ""%string)) "config.tenor is required when signal_source is spread";
         _ ← decode_tenor (op_Tenor p); Ok tt
       else Ok tt);
  stopLoss ← to_decimal "stop_loss_atr" stopLossATR;
  takeProfit ← to_decimal "take_profit_atr" takeProfitATR;
  minOrder ← to_decimal "min_order_size" (op_MinOrderSize p);
  maxOrder ← to_decimal "max_order_size" (op_MaxOrderSize p);
  maxPosition ← to_decimal "max_position_size" maxPositionSize;
  volumeRatio ← to_decimal "volume_ratio_threshold" volumeRatioThreshold;
  amount ← decode_balance forRun (Momentum.InitialBalance d) dzero (op_InitialBalance p);
  leverage ← decode_leverage (Momentum.Leverage d) (op_Leverage p);
  _ ← check (positive (op_MinOrderSize p) && positive (op_MaxOrderSize p) && f64_lt (op_MaxOrderSize p) (op_MinOrderSize p))
        "config.max_order_size must be greater than or equal to min_order_size";
  _ ← check (bool_decide (op_OrderBookID p = ""%string)) "config.order_book_id is required";
  orderBookID ← wrap_err "config.order_book_id" (uuid_Parse (op_OrderBookID p));
  let c := {| Momentum.SignalSource := source; Momentum.FastWindow := fastWindow; Momentum.SlowWindow := slowWindow; Momentum.Resolution := res;
              Momentum.ATRWindow := atrWindow; Momentum.VolumeAvgWindow := volumeAvgWindow; Momentum.VolumeRatioThreshold := volumeRatio;
              Momentum.StopLossATR := stopLoss; Momentum.TakeProfitATR := takeProfit; Momentum.MinOrderSize := minOrder;
              Momentum.MaxOrderSize := maxOrder; Momentum.MaxPositionSize := maxPosition; Momentum.OrderBookID := orderBookID;
              Momentum.CfgTenor := op_Tenor p; Momentum.InitialBalance := amount; Momentum.Leverage := leverage |} in
  out ← wrap_err "marshal momentum config" (momentum_json c p resolution maxPositionSize volumeRatioThreshold);
  Ok (c, out).
Definition decodeMomentumConfig (raw : json) (forRun : bool) : result (Momentum.Config * json) :=
  p ← decodeRawConfig mo_fields mo_zero raw; mo_body p forRun.

(** *** Copy trading *)

(** The first entry that is not a UUID is named in the error by its index. *)
Fixpoint parse_bonds (bonds : list string) : result (list string) :=
  match bonds with
  | [] => Ok []
  | b :: rest => id ← wrap_err "config.disallowed_bonds" (uuid_Parse b); ids ← parse_bonds rest; Ok (id :: ids)
  end.

Definition ct_body (p : copyTradingConfigPayload) : result (CopyTrading.Config * json) :=
  _ ← check (bool_decide (cp_FollowedTrader p = ""%string)) "config.followed_trader is required";
  followedTrader ← wrap_err "config.followed_trader" (uuid_Parse (trim (cp_FollowedTrader p)));
  _ ← check (f64_le (cp_PercentageOfAvailable p) f64_zero || f64_gt (cp_PercentageOfAvailable p) f64_one)
        "config.percentage_of_available must be in (0,1]";
  _ ← check (f64_le (cp_Leverage p) f64_zero) "config.leverage must be greater than 0";
  _ ← check (cp_MinOrderSize p <? 0) "config.min_order_size must be non-negative";
  _ ← check (cp_MaxOrderSize p <? cp_MinOrderSize p) "config.max_order_size must be greater than or equal to min_order_size";
  disallowedBonds ← parse_bonds (default [] (cp_DisallowedBonds p));
  poa ← to_decimal "percentage_of_available" (cp_PercentageOfAvailable p);
  lev ← to_decimal "leverage" (cp_Leverage p);
  initialBalance ← match cp_InitialBalance p with
                   | None => Ok dzero
                   | Some x =>
                       if f64_lt x f64_zero then Err (ErrMsg "config.initial_balance must be non-negative")
                       else if positive x then to_decimal "initial_balance" x else Ok dzero
                   end;
  normalised ← wrap_err "marshal normalised config" (marshal_struct ct_fields p);
  Ok ({| CopyTrading.FollowedTrader := followedTrader; CopyTrading.PercentageOfAvailable := poa; CopyTrading.Leverage := lev;
         CopyTrading.MinOrderSize := cp_MinOrderSize p; CopyTrading.MaxOrderSize := cp_MaxOrderSize p;
         CopyTrading.DisallowedBonds := disallowedBonds; CopyTrading.InitialBalance := initialBalance |}, normalised).
Definition decodeCopyTradingConfig (raw : json) : result (CopyTrading.Config * json) :=
  p ← decodeRawConfig ct_fields ct_zero raw; ct_body p.

(** *** TWAP and VWAP: the structs with decimals and times are read by
    their own methods *)

Definition decodeTWAPConfig (unmarshal : json -> result Twap.Config) (marshal_config : Twap.Config -> result json) (now : Time) (raw : json) :
    result (Twap.Config * json) :=
  cfg ← wrap_err "decode twap config" (unmarshal raw);
  _ ← Twap.Validate cfg now;
  normalised ← wrap_err "marshal normalised twap config" (marshal_config cfg);
  Ok (cfg, normalised).
Definition decodeVWAPConfig (unmarshal : json -> result Vwap.Config) (marshal_config : Vwap.Config -> result json) (now : Time) (raw : json) :
    result (Vwap.Config * json) :=
  cfg ← wrap_err "decode vwap config" (unmarshal raw);
  _ ← Vwap.Validate cfg now;
  normalised ← wrap_err "marshal normalised vwap config" (marshal_config cfg);
  Ok (cfg, normalised).
End Decoders.

(** ** Trimming twice *)

Lemma hc_chars l : chars (of_chars l) = l.
Proof. induction l as [|a l IH]; simpl; [done | by rewrite IH]. Qed.
Lemma hc_of_chars s : of_chars (chars s) = s.
Proof. induction s as [|a s IH]; simpl; [done | by rewrite IH]. Qed.
Lemma hc_drop_idem l : drop_spaces (drop_spaces l) = drop_spaces l.
Proof. induction l as [|a l IH]; simpl; [done |]. destruct (is_space a) eqn:E; [done |]. simpl. by rewrite E. Qed.
Lemma hc_drop_snoc l a : is_space a = false -> drop_spaces (l ++ [a]) = drop_spaces l ++ [a].
Proof. intros Ha. induction l as [|b l IH]; simpl; [by rewrite Ha |]. by destruct (is_space b). Qed.
Lemma hc_drop_head l : drop_spaces l = [] \/ exists a r, drop_spaces l = a :: r /\ is_space a = false.
Proof. induction l as [|a l IH]; simpl; [by left |]. destruct (is_space a) eqn:E; [done |]. right. by exists a, l. Qed.
Lemma hc_trim_space_idem l : Fred.TrimSpace (Fred.TrimSpace l) = Fred.TrimSpace l.
Proof.
  unfold Fred.TrimSpace. destruct (hc_drop_head l) as [->|(a & r & -> & Ha)]; [done |]. rewrite reverse_cons, hc_drop_snoc by done.
  rewrite reverse_snoc. simpl. rewrite Ha, reverse_cons, reverse_involutive, hc_drop_snoc, hc_drop_idem by done. by rewrite reverse_snoc.
Qed.
Lemma hc_trim_idem s : trim (trim s) = trim s.
Proof. unfold trim. by rewrite hc_chars, hc_trim_space_idem. Qed.
Lemma hc_tenor_trim s : ParseBenchmarkTenor (trim s) = ParseBenchmarkTenor s.
Proof. unfold ParseBenchmarkTenor, NormalizeTenor, trim. by rewrite hc_chars, hc_trim_space_idem. Qed.
Lemma hc_no_tenor : ParseBenchmarkTenor "" = Err (ErrMsg "unsupported tenor").
Proof. vm_compute. reflexivity. Qed.

(** ** Normalising twice *)

Section Normal.
Context {D : DecimalOps} `{FloatText} `{!Conversions}.

Lemma hc_int_default z d : int_default (int_default z d) d = int_default z d.
Proof. unfold int_default. destruct (z =? 0) eqn:E; [by destruct (d =? 0) | by rewrite E]. Qed.
Lemma hc_or_default x d : or_default (or_default x d) d = or_default x d.
Proof. unfold or_default. destruct (f64_eq x f64_zero) eqn:E; [by destruct (f64_eq (mustFloat64 d) f64_zero) | by rewrite E]. Qed.
Lemma hc_resolution_default s d : trim d = d -> string_default (trim (string_default (trim s) d)) d = string_default (trim s) d.
Proof.
  intros Hd. unfold string_default. destruct (bool_decide (trim s = ""%string)) eqn:E.
  - rewrite Hd. by destruct (bool_decide (d = ""%string)).
  - by rewrite hc_trim_idem, E.
Qed.

Lemma hc_check bad msg u : check bad msg = Ok u -> bad = false.
Proof. by destruct bad. Qed.
Lemma hc_raw {P} (fs : list (field P)) zero raw p : decodeRawConfig fs zero raw = Ok p -> decode_strict fs zero raw = Ok p.
Proof. destruct raw; simpl; try done; match goal with |- context [foldl ?f ?a ?l] => by destruct (foldl f a l) end. Qed.
Lemma hc_raw_object {P} (fs : list (field P)) zero p j q : marshal_struct fs p = Ok j -> decode_strict fs zero j = Ok q -> decodeRawConfig fs zero j = Ok q.
Proof.
  unfold marshal_struct, decodeRawConfig. destruct (write_fields fs p) as [ms|]; [| done]. intros [= <-] ->. done.
Qed.

Lemma hc_fields_ok : fields_ok mr_fields /\ fields_ok bo_fields /\ fields_ok ct_fields.
Proof. split_and!; repeat constructor. Qed.

Definition mr_ints (p : meanReversionConfigPayload) : Prop := in_int (mp_LookbackWindow p) /\ forall z, mp_ImbalanceWindow p = Some z -> in_int z.
Definition bo_ints (p : breakoutConfigPayload) : Prop :=
  in_int (bp_ShortVolWindow p) /\ in_int (bp_LongVolWindow p) /\ in_int (bp_ATRWindow p) /\ in_int (bp_ConfirmationBars p) /\ in_int (bp_OBVWindow p).
Definition ct_ints (p : copyTradingConfigPayload) : Prop := in_int (cp_MinOrderSize p) /\ in_int (cp_MaxOrderSize p).

Lemma hc_small z : 0 <= z <= 100 -> in_int z.
Proof. unfold in_int, int_min, int_max. lia. Qed.

Ltac each_field :=
  unfold mr_fields, bo_fields, ct_fields;
  repeat match goal with |- Forall _ [] => apply Forall_nil | |- Forall _ (_ :: _) => apply Forall_cons; split end; try done.
Ltac ints_tac :=
  each_field;
  intros q; destruct q; simpl; unfold mr_ints, bo_ints, ct_ints; simpl; intuition (try done).

Lemma hc_mr_ints j p : decode_strict mr_fields mr_zero j = Ok p -> mr_ints p.
Proof. apply js_decoded; [split; [by apply hc_small | done] | ints_tac..]. Qed.
Lemma hc_bo_ints j p : decode_strict bo_fields bo_zero j = Ok p -> bo_ints p.
Proof. apply js_decoded; [split_and!; by apply hc_small | ints_tac..]. Qed.
Lemma hc_ct_ints j p : decode_strict ct_fields ct_zero j = Ok p -> ct_ints p.
Proof. apply js_decoded; [split_and!; by apply hc_small | ints_tac..]. Qed.

Lemma hc_mr_written p j : mr_ints p -> marshal_struct mr_fields p = Ok j -> decodeRawConfig mr_fields mr_zero j = Ok p.
Proof.
  intros [H1 H2] Hm. eapply hc_raw_object; [exact Hm |]. apply js_roundtrip; [exact (proj1 hc_fields_ok) | by destruct p; repeat split | | done].
  each_field.
Qed.
Lemma hc_bo_written p j : bo_ints p -> marshal_struct bo_fields p = Ok j -> decodeRawConfig bo_fields bo_zero j = Ok p.
Proof.
  intros (H1 & H2 & H3 & H4 & H5) Hm. eapply hc_raw_object; [exact Hm |]. apply js_roundtrip; [exact (proj1 (proj2 hc_fields_ok)) | by destruct p; repeat split | | done].
  each_field.
Qed.
Lemma hc_ct_written p j : ct_ints p -> marshal_struct ct_fields p = Ok j -> decodeRawConfig ct_fields ct_zero j = Ok p.
Proof.
  intros (H1 & H2) Hm. eapply hc_raw_object; [exact Hm |]. apply js_roundtrip; [exact (proj2 (proj2 hc_fields_ok)) | by destruct p; repeat split | | done].
  each_field.
Qed.

(** Follow a successful body, then run it again on its own payload. *)
Ltac again :=
  repeat match goal with
  | E : check ?b ?m = Ok _ |- context [check ?b ?m] => rewrite E; cbn [mbind result_bind]
  | E : ?x = Ok _ |- context [?x] => rewrite E; cbn [mbind result_bind wrap_err]
  end.

Lemma hc_tenor_again t v : decode_tenor t = Ok v -> decode_tenor (trim t) = Ok v /\ trim t <> ""%string.
Proof.
  unfold decode_tenor. intros Ht. split; [by rewrite hc_tenor_trim |]. intros E. rewrite <- hc_tenor_trim, E, hc_no_tenor in Ht. done.
Qed.

Lemma hc_mr_again p b c n : mr_ints p -> mr_body p b = Ok (c, n) ->
  exists q, mr_ints q /\ marshal_struct mr_fields q = Ok n /\ mr_body q b = Ok (c, n).
Proof.
  intros [Hi1 Hi2] Hb. assert (trim (MeanReversion.Resolution MeanReversion.DefaultConfig) = MeanReversion.Resolution MeanReversion.DefaultConfig) as Hr by done.
  assert (in_int (MeanReversion.LookbackWindow MeanReversion.DefaultConfig)) as Hl by by apply hc_small.
  assert (0 <= MeanReversion.ImbalanceWindow MeanReversion.DefaultConfig <= 100) as Hw by done.
  unfold mr_body in Hb |- *. remember MeanReversion.DefaultConfig as d eqn:Ed. clear Ed. inv_ok; try done.
  match goal with E : marshal_struct mr_fields ?q = Ok _ |- _ => exists q; rename E into Hm end.
  split; [| split; [exact Hm |]].
  - split; simpl; [unfold int_default; by destruct (_ =? 0) |]. intros z [= <-].
    destruct (mp_ImbalanceWindow p); simpl; [auto | by apply hc_small].
  - cbn [mp_LookbackWindow mp_Resolution mp_EntryZScore mp_ExitZScore mp_StopLossZScore mp_MinStdDev mp_MaxPositionSize
      mp_OrderBookID mp_Tenor mp_InitialBalance mp_Leverage mp_ImbalanceWindow mp_ImbalanceThreshold].
    rewrite hc_int_default, !hc_or_default, hc_trim_idem, hc_resolution_default by done.
    assert (check (default (MeanReversion.ImbalanceWindow d) (mp_ImbalanceWindow p) <? 0) "config.imbalance_window must be non-negative" = Ok tt)
      by (destruct (mp_ImbalanceWindow p); simpl; [by destruct a0 | unfold check; by rewrite (proj2 (Z.ltb_ge _ _)) by lia]).
    pose proof (hc_tenor_again (mp_Tenor p) a9 ltac:(done)) as [E1 E2].
    assert (check (bool_decide (trim (mp_Tenor p) = ""%string)) "config.tenor is required for mean_reversion" = Ok tt) by (unfold check; by rewrite bool_decide_eq_false_2).
    cbn [from_option id]. by again.
Qed.

Lemma hc_bo_again p b c n : bo_ints p -> bo_body p b = Ok (c, n) ->
  exists q, bo_ints q /\ marshal_struct bo_fields q = Ok n /\ bo_body q b = Ok (c, n).
Proof.
  intros (Hi1 & Hi2 & Hi3 & Hi4 & Hi5) Hb.
  assert (trim (Breakout.Resolution Breakout.DefaultConfig) = Breakout.Resolution Breakout.DefaultConfig) as Hr by done.
  assert (forall z, in_int z -> in_int (int_default z (Breakout.ShortVolWindow Breakout.DefaultConfig)) /\ in_int (int_default z (Breakout.LongVolWindow Breakout.DefaultConfig)) /\
    in_int (int_default z (Breakout.ATRWindow Breakout.DefaultConfig)) /\ in_int (int_default z (Breakout.ConfirmationBars Breakout.DefaultConfig))) as Hl
    by (intros z Hz; unfold int_default; destruct (z =? 0); split_and!; first [done | by apply hc_small]).
  unfold bo_body in Hb |- *. remember Breakout.DefaultConfig as d eqn:Ed. clear Ed. inv_ok; try done.
  match goal with E : marshal_struct bo_fields ?q = Ok _ |- _ => exists q; rename E into Hm end.
  split; [| split; [exact Hm |]]; [split_and!; simpl; by apply Hl || done |].
  cbn [bp_ShortVolWindow bp_LongVolWindow bp_CompressionThreshold bp_ATRWindow bp_BreakoutATRMultiple bp_ConfirmationBars bp_StopLossATR
    bp_TakeProfitATR bp_MinLongVolFloor bp_OBVTrendThreshold bp_OBVWindow bp_Resolution bp_OrderBookID bp_InitialBalance bp_Leverage].
  rewrite !hc_int_default, !hc_or_default, hc_resolution_default by done. cbn [from_option id].
  by again.
Qed.

Lemma hc_ct_again p c n : ct_body p = Ok (c, n) -> marshal_struct ct_fields p = Ok n.
Proof. intros Hb. unfold ct_body in Hb. by inv_ok. Qed.
End Normal.

(** ** What is stored decodes to the same *)

(** C27: the configuration stored with a run or a backtest decodes again, to
    the configuration the strategy was created with, and is stored again
    unchanged: whatever defaults, trimming and omitted fields the request used,
    a resumed run trades with the parameters it was created with.  For the
    mean-reversion, the breakout and the copy-trading strategy. *)
Theorem stored_config_decodes_same {D : DecimalOps} `{FloatText} `{!Conversions} :
  (forall raw b c n, decodeMeanReversionConfig raw b = Ok (c, n) -> decodeMeanReversionConfig n b = Ok (c, n)) /\
  (forall raw b c n, decodeBreakoutConfig raw b = Ok (c, n) -> decodeBreakoutConfig n b = Ok (c, n)) /\
  (forall raw c n, decodeCopyTradingConfig raw = Ok (c, n) -> decodeCopyTradingConfig n = Ok (c, n)).
Proof.
  split_and!.
  - intros raw b c n. unfold decodeMeanReversionConfig. intros (p & Hp & Hb)%result_bind_Ok.
    destruct (hc_mr_again p b c n (hc_mr_ints _ _ (hc_raw _ _ _ _ Hp)) Hb) as (q & Hq & Hm & E). by rewrite (hc_mr_written q n Hq Hm).
  - intros raw b c n. unfold decodeBreakoutConfig. intros (p & Hp & Hb)%result_bind_Ok.
    destruct (hc_bo_again p b c n (hc_bo_ints _ _ (hc_raw _ _ _ _ Hp)) Hb) as (q & Hq & Hm & E). by rewrite (hc_bo_written q n Hq Hm).
  - intros raw c n. unfold decodeCopyTradingConfig. intros (p & Hp & Hb)%result_bind_Ok.
    by rewrite (hc_ct_written p n (hc_ct_ints _ _ (hc_raw _ _ _ _ Hp)) (hc_ct_again p c n Hb)).
Qed.

(** ** Concrete conversions, for the witnesses *)

Module ConfigDemo.
#[export] Instance float_countable : Countable float64.
Proof.
  refine (inj_countable' (fun x : float64 => match x with
      | SpecFloat.S754_zero s => inl (inl s) | SpecFloat.S754_infinity s => inl (inr (Some s))
      | SpecFloat.S754_nan => inl (inr None) | SpecFloat.S754_finite s m e => inr (s, m, e) end)
    (fun y => match y with
      | inl (inl s) => SpecFloat.S754_zero s | inl (inr (Some s)) => SpecFloat.S754_infinity s
      | inl (inr None) => SpecFloat.S754_nan | inr (s, m, e) => SpecFloat.S754_finite s m e end) _).
  by intros [].
Defined.
(** A float is written as the bits of its encoding. *)
Definition bit_format (x : float64) : string := BitText.bits (encode x).
Definition bit_parse (s : string) : option float64 :=
  p ← BitText.of_bits s; x ← (decode p : option float64); if f64_finite x then Some x else None.
Lemma bit_parse_finite s x : bit_parse s = Some x -> f64_finite x = true.
Proof.
  unfold bit_parse. destruct (BitText.of_bits s) as [p|]; [| done]. simpl. destruct (decode p) as [y|]; [| done]. simpl.
  destruct (f64_finite y) eqn:E; [| done]. by intros [= <-].
Qed.
Lemma bit_parse_format x : f64_finite x = true -> bit_parse (bit_format x) = Some x.
Proof. intros Hx. unfold bit_parse, bit_format. rewrite BitText.of_bits_bits. simpl. rewrite decode_encode. simpl. by rewrite Hx. Qed.
#[export] Instance bit_floats : FloatText := {
  format_float := bit_format; parse_float := bit_parse; parse_finite := bit_parse_finite; parse_format := bit_parse_format }.

(** The decimal nearest to the float, and the float nearest to the decimal. *)
Definition float_Q (x : float64) : option Q :=
  match x with
  | SpecFloat.S754_zero _ => Some 0%Q
  | SpecFloat.S754_finite s m e =>
      let n := if s then Zneg m else Zpos m in
      Some (if 0 <=? e then inject_Z (n * 2 ^ e) else (n # Z.to_pos (2 ^ (- e))))
  | _ => None
  end.
#[export] Instance demo_conversions : Conversions (D := RefDec) := {
  NewFromFloat64 x := match float_Q x with Some q => of_rnd "float" (rnd q) | None => Err (ErrMsg "special float") end;
  mustFloat64 d := SpecFloat.SFdiv 53 1024 (f64_int (Qnum (rval d))) (f64_int (Zpos (Qden (rval d))));
  uuid_Parse s := if bool_decide (s = ""%string) then Err (ErrMsg "invalid UUID") else Ok s;
}.

Definition num (x : float64) : json := JNumber (format_float x).
(** Omitted windows and thresholds, a tenor and a resolution to trim. *)
Definition request : json := JObject [
  ("tenor"%string, JString " 10-year "); ("resolution"%string, JString " 15m"); ("entry_z_score"%string, num (f64_int 3));
  ("order_book_id"%string, JString "b1 "); ("leverage"%string, num (f64_int 2)); ("stop_loss_z_score"%string, JNull)].
Notation decoded := (decodeMeanReversionConfig (D := RefDec) request true).
Definition stored : json := match decoded with Ok (_, n) => n | Err _ => JNull end.
End ConfigDemo.

(** ** What is accepted is what the strategies need *)

Definition served (r : string) : Prop := valid_resolution r = true.
Lemma hc_served s r : ParseResolution s = Ok r -> served r.
Proof.
  unfold ParseResolution. case_bool_decide; [by intros [= <-] |]. case_bool_decide as E; [| done]. intros [= <-].
  repeat (apply elem_of_cons in E as [->|E]; [reflexivity |]). by apply elem_of_nil in E.
Qed.

Section Accepted.
Context {D : DecimalOps} `{!DecimalLaws} `{FloatText} `{!Conversions}.
(** A float that is not negative converts to a decimal that is not. *)
Hypothesis float_sign : forall x d, NewFromFloat64 x = Ok d -> f64_lt x f64_zero = false -> d_is_neg d = false.

Definition not_negative (d : dec) : Prop := d_is_neg d = false.
Lemma hc_sign name x d : to_decimal name x = Ok d -> f64_lt x f64_zero = false -> not_negative d.
Proof. unfold to_decimal. destruct (NewFromFloat64 x) as [d'|] eqn:E; [| done]. intros [= <-]. by apply (float_sign x). Qed.
Lemma hc_sign_pos name x d : to_decimal name x = Ok d -> f64_le x f64_zero = false -> not_negative d.
Proof.
  intros Hd Hx. apply (hc_sign _ _ _ Hd). unfold f64_le, f64_lt, SpecFloat.SFleb, SpecFloat.SFltb in *. by destruct (SpecFloat.SFcompare x f64_zero) as [[]|].
Qed.
Lemma hc_balance b d z p a : not_negative d -> not_negative z -> decode_balance b d z p = Ok a -> not_negative a.
Proof.
  intros Hd Hz. unfold decode_balance. destruct p as [x|]; [| by intros [= <-]]. destruct (f64_lt x f64_zero) eqn:E; [done |].
  destruct (f64_eq x f64_zero); [destruct b; [by intros [= <-] | done] |]. intros Ha. by apply (hc_sign _ _ _ Ha).
Qed.
Lemma hc_leverage d p a : not_negative d -> decode_leverage d p = Ok a -> not_negative a.
Proof.
  intros Hd. unfold decode_leverage. destruct p as [x|]; [| by intros [= <-]]. destruct (f64_le x f64_zero) eqn:E; [done |].
  intros Ha. by apply (hc_sign_pos _ _ _ Ha).
Qed.

Lemma hc_one : not_negative done1.
Proof. apply d_is_neg_false. rewrite dval_one. done. Qed.
Lemma hc_zero : not_negative dzero.
Proof. apply d_is_neg_false. rewrite dval_zero. done. Qed.
Lemma hc_source s : negb (bool_decide (s ∈ [Momentum.SignalSourcePrice; Momentum.SignalSourceYTM; Momentum.SignalSourceSpread])) = false ->
  s ∈ [Momentum.SignalSourcePrice; Momentum.SignalSourceYTM; Momentum.SignalSourceSpread].
Proof. by intros E%negb_false_iff%bool_decide_eq_true. Qed.
Lemma hc_range x (lo hi : float64) : f64_le x lo || f64_gt x hi = false -> f64_le x lo = false.
Proof. by intros [? _]%orb_false_elim. Qed.

Ltac accepted :=
  repeat match goal with
  | E : check _ _ = Ok _ |- _ => apply hc_check in E
  | E : decode_resolution _ = Ok _ |- _ => unfold decode_resolution in E; destruct (ParseResolution _) eqn:?; simpl in E; [injection E as ->|done]
  | E : (_ || _)%bool = false |- _ => apply hc_range in E
  end.
Ltac all_bounded :=
  repeat match goal with
  | |- Forall _ (_ :: _) => apply Forall_cons; split
  | |- Forall _ [] => apply Forall_nil; done
  | E : to_decimal _ _ = Ok ?a |- not_negative ?a => first [eapply hc_sign; [exact E | done] | eapply hc_sign_pos; [exact E | done]]
  | E : decode_balance _ _ _ _ = Ok ?a |- not_negative ?a => eapply hc_balance; [| | exact E]; (apply hc_one || apply hc_zero)
  | E : decode_leverage _ _ = Ok ?a |- not_negative ?a => eapply hc_leverage; [| exact E]; apply hc_one
  end.

Definition mr_valid (c : MeanReversion.Config) : Prop :=
  2 <= MeanReversion.LookbackWindow c /\ 0 <= MeanReversion.ImbalanceWindow c /\ served (MeanReversion.Resolution c) /\
  is_ok (ParseBenchmarkTenor (MeanReversion.CfgTenor c)) = true /\
  Forall not_negative [MeanReversion.EntryZScore c; MeanReversion.ExitZScore c; MeanReversion.StopLossZScore c; MeanReversion.MinStdDev c;
    MeanReversion.MaxPositionSize c; MeanReversion.InitialBalance c; MeanReversion.Leverage c; MeanReversion.ImbalanceThreshold c].
Lemma hc_mr_valid p b c n : mr_body p b = Ok (c, n) -> mr_valid c.
Proof.
  intros Hb. unfold mr_body in Hb. inv_ok; try done. accepted. unfold mr_valid. simpl. split_and!.
  - by apply Z.ltb_ge.
  - destruct (mp_ImbalanceWindow p); simpl in *; [by apply Z.ltb_ge | done].
  - by eapply hc_served.
  - match goal with E : decode_tenor _ = Ok _ |- _ => apply hc_tenor_again in E as [E _]; unfold decode_tenor in E; by destruct (ParseBenchmarkTenor _) end.
  - all_bounded.
Qed.

Definition bo_valid (c : Breakout.Config) : Prop :=
  2 <= Breakout.ShortVolWindow c < Breakout.LongVolWindow c /\ 2 <= Breakout.ATRWindow c /\ 1 <= Breakout.ConfirmationBars c /\
  0 <= Breakout.OBVWindow c /\ served (Breakout.Resolution c) /\
  Forall not_negative [Breakout.CompressionThreshold c; Breakout.BreakoutATRMultiple c; Breakout.StopLossATR c; Breakout.TakeProfitATR c;
    Breakout.MinLongVolFloor c; Breakout.OBVTrendThreshold c; Breakout.InitialBalance c; Breakout.Leverage c].
Lemma hc_bo_valid p b c n : bo_body p b = Ok (c, n) -> bo_valid c.
Proof.
  intros Hb. unfold bo_body in Hb. inv_ok; try done. accepted. unfold bo_valid. simpl. split_and!;
    [by apply Z.ltb_ge | by apply Z.leb_gt | by apply Z.ltb_ge | by apply Z.ltb_ge | by apply Z.ltb_ge | by eapply hc_served | all_bounded].
Qed.

Definition mo_valid (c : Momentum.Config) : Prop :=
  2 <= Momentum.FastWindow c < Momentum.SlowWindow c /\ 2 <= Momentum.ATRWindow c /\ 0 <= Momentum.VolumeAvgWindow c /\
  served (Momentum.Resolution c) /\ Momentum.SignalSource c ∈ [Momentum.SignalSourcePrice; Momentum.SignalSourceYTM; Momentum.SignalSourceSpread] /\
  (Momentum.SignalSource c = Momentum.SignalSourceSpread -> is_ok (ParseBenchmarkTenor (Momentum.CfgTenor c)) = true) /\
  Forall not_negative [Momentum.VolumeRatioThreshold c; Momentum.StopLossATR c; Momentum.TakeProfitATR c; Momentum.MinOrderSize c;
    Momentum.MaxOrderSize c; Momentum.MaxPositionSize c; Momentum.InitialBalance c; Momentum.Leverage c].
(** The default of the volume ratio is not checked. *)
Lemma hc_mo_valid p b c n : f64_lt (mustFloat64 done1) f64_zero = false -> mo_body p b = Ok (c, n) -> mo_valid c.
Proof.
  intros Hone Hb. unfold mo_body in Hb. inv_ok; try done. accepted. unfold mo_valid. cbn [Momentum.FastWindow Momentum.SlowWindow
    Momentum.ATRWindow Momentum.VolumeAvgWindow Momentum.Resolution Momentum.SignalSource Momentum.CfgTenor Momentum.VolumeRatioThreshold
    Momentum.StopLossATR Momentum.TakeProfitATR Momentum.MinOrderSize Momentum.MaxOrderSize Momentum.MaxPositionSize Momentum.InitialBalance
    Momentum.Leverage].
  assert (f64_lt (default (mustFloat64 done1) (op_VolumeRatioThreshold p)) f64_zero = false) as Hratio
    by (destruct (op_VolumeRatioThreshold p); [assumption | exact Hone]).
  split_and!; [by apply Z.ltb_ge | by apply Z.leb_gt | by apply Z.ltb_ge | | by eapply hc_served | by apply hc_source | |].
  - destruct (op_VolumeAvgWindow p); simpl in *; [by apply Z.ltb_ge | done].
  - intros Hs. rewrite bool_decide_eq_true_2 in * by exact Hs. inv_ok. unfold decode_tenor in *. by destruct (ParseBenchmarkTenor (op_Tenor p)).
  - all_bounded.
Qed.

Definition ct_valid (c : CopyTrading.Config) : Prop :=
  0 <= CopyTrading.MinOrderSize c <= CopyTrading.MaxOrderSize c /\
  Forall not_negative [CopyTrading.PercentageOfAvailable c; CopyTrading.Leverage c; CopyTrading.InitialBalance c].
Lemma hc_ct_valid p c n : ct_body p = Ok (c, n) -> ct_valid c.
Proof.
  intros Hb. unfold ct_body in Hb. inv_ok; try done. accepted. unfold ct_valid. simpl. split_and!; [by apply Z.ltb_ge | by apply Z.ltb_ge |].
  all_bounded. destruct (cp_InitialBalance p) as [x|]; [| inv_ok; apply hc_zero]. destruct (f64_lt x f64_zero) eqn:Eneg; [done |].
  destruct (positive x); [by eapply hc_sign | inv_ok; apply hc_zero].
Qed.

(** An amount to buy or sell on a book, from a start to an end still to come. *)
Definition scheduled (now : Time) (book side : string) (amount : dec) (start finish : Time) : Prop :=
  book <> ""%string /\ side ∈ ["buy"; "sell"]%string /\ (0 < dval amount)%Q /\
  t_ns start < t_ns finish /\ t_ns now < t_ns finish /\ start <> zero_time.
Definition tw_valid (now : Time) (c : Twap.Config) : Prop :=
  scheduled now (Twap.OrderBookID c) (Twap.Side c) (Twap.TotalAmount c) (Twap.StartTime c) (Twap.EndTime c) /\
  0 < Twap.IntervalSeconds c.
Definition vw_valid (now : Time) (c : Vwap.Config) : Prop :=
  scheduled now (Vwap.OrderBookID c) (Vwap.Side c) (Vwap.TotalAmount c) (Vwap.StartTime c) (Vwap.EndTime c) /\
  0 < Vwap.WindowDays c /\ 0 < Vwap.BucketMinutes c.

Lemma hc_scheduled now (book side : string) (amount : dec) start finish :
  bool_decide (book = ""%string) = false -> d_is_zero amount || d_is_neg amount = false ->
  negb (bool_decide (side = "buy"%string)) && negb (bool_decide (side = "sell"%string)) = false ->
  time_is_zero start || time_is_zero finish = false -> negb (time_after finish start) = false ->
  negb (time_after finish now) = false -> scheduled now book side amount start finish.
Proof.
  unfold scheduled, time_after. intros Hb%bool_decide_eq_false Ha Hs Hz Hf Hn. bool_prop. split_and!; try done.
  - destruct Hs as [Hs|Hs]; apply negb_false_iff, bool_decide_eq_true in Hs as ->; set_solver.
  - destruct (Qlt_le_dec 0 (dval amount)) as [|Hle]; [done |]. exfalso.
    apply d_is_zero_false in H4. apply d_is_neg_false in H5. apply H4. by apply Qle_antisym.
  - intros ->. done.
Qed.

Lemma hc_tw_valid c now : Twap.Validate c now = Ok tt -> tw_valid now c.
Proof.
  unfold Twap.Validate. intros Hv. split_match_in Hv. split; [by apply hc_scheduled | by apply Z.leb_gt].
Qed.
Lemma hc_vw_valid c now : Vwap.Validate c now = Ok tt -> vw_valid now c.
Proof.
  unfold Vwap.Validate. intros Hv. split_match_in Hv. split; [by apply hc_scheduled | split; by apply Z.leb_gt].
Qed.

(** C28: what the decoders of all six strategies let through.  A configuration
    that a decoder accepts has windows of the sizes asked for (two at least,
    the slow or long one larger than the other), a resolution that is served,
    a benchmark tenor that parses where one is needed, and no negative
    threshold, size, balance or leverage; a TWAP or VWAP one names a book and a
    side, a positive amount, an end after the start and after the present, and
    a positive interval, or window and buckets.  Assumed of the conversions
    between floats and decimals: a float that is not below zero becomes a
    decimal that is not negative, and the decimal one a float not below zero.
    The JSON readers of the TWAP and VWAP structs are parameters. *)
Theorem accepted_config_valid : f64_lt (mustFloat64 done1) f64_zero = false ->
  (forall raw b c n, decodeMeanReversionConfig raw b = Ok (c, n) -> mr_valid c) /\
  (forall raw b c n, decodeBreakoutConfig raw b = Ok (c, n) -> bo_valid c) /\
  (forall raw b c n, decodeMomentumConfig raw b = Ok (c, n) -> mo_valid c) /\
  (forall raw c n, decodeCopyTradingConfig raw = Ok (c, n) -> ct_valid c) /\
  (forall unmarshal marshal now raw c n, decodeTWAPConfig unmarshal marshal now raw = Ok (c, n) -> tw_valid now c) /\
  (forall unmarshal marshal now raw c n, decodeVWAPConfig unmarshal marshal now raw = Ok (c, n) -> vw_valid now c).
Proof.
  intros Hone. split_and!.
  - intros raw b c n (p & _ & Hb)%result_bind_Ok. by apply hc_mr_valid in Hb.
  - intros raw b c n (p & _ & Hb)%result_bind_Ok. by apply hc_bo_valid in Hb.
  - intros raw b c n (p & _ & Hb)%result_bind_Ok. by apply hc_mo_valid in Hb.
  - intros raw c n (p & _ & Hb)%result_bind_Ok. by apply hc_ct_valid in Hb.
  - intros um m now raw c n Hd. unfold decodeTWAPConfig in Hd. inv_ok.
    match goal with E : Twap.Validate _ _ = Ok ?u |- _ => destruct u; by apply hc_tw_valid in E end.
  - intros um m now raw c n Hd. unfold decodeVWAPConfig in Hd. inv_ok.
    match goal with E : Vwap.Validate _ _ = Ok ?u |- _ => destruct u; by apply hc_vw_valid in E end.
Qed.
End Accepted.

Import ConfigDemo.

Lemma hc_demo_decoded : exists c, ConfigDemo.decoded = Ok (c, ConfigDemo.stored).
Proof.
  assert (is_ok ConfigDemo.decoded = true) as E by (vm_compute; reflexivity).
  unfold ConfigDemo.stored. destruct ConfigDemo.decoded as [[c n]|]; [by exists c | done].
Qed.

(** The book is stored as it was written, although it is parsed trimmed. *)
Example stored_config_decodes_same_witness :
  exists c, ConfigDemo.decoded = Ok (c, ConfigDemo.stored) /\ MeanReversion.LookbackWindow c = 24 /\ MeanReversion.CfgTenor c = "10-year"%string /\
    MeanReversion.OrderBookID c = "b1"%string /\ unmarshal_string "order_book_id" ConfigDemo.stored = Ok "b1 "%string /\
    decodeMeanReversionConfig (D := RefDec) ConfigDemo.stored true = Ok (c, ConfigDemo.stored).
Proof.
  destruct hc_demo_decoded as [c Hc]. exists c. pose proof (proj1 (stored_config_decodes_same (D := RefDec)) _ _ _ _ Hc) as Hs.
  assert (result_map (fun r => (MeanReversion.LookbackWindow r.1, MeanReversion.CfgTenor r.1, MeanReversion.OrderBookID r.1)) ConfigDemo.decoded
          = Ok (24, "10-year"%string, "b1"%string)) as E1 by (vm_compute; reflexivity).
  rewrite Hc in E1. simpl in E1. injection E1 as E1 E2 E3.
  assert (unmarshal_string "order_book_id" ConfigDemo.stored = Ok "b1 "%string) as E4 by (vm_compute; reflexivity).
  exact (conj Hc (conj E1 (conj E2 (conj E3 (conj E4 Hs))))).
Defined.


Lemma hc_demo_sign x (d : dec (DecimalOps := RefDec)) : NewFromFloat64 x = Ok d -> f64_lt x f64_zero = false -> d_is_neg d = false.
Proof.
  simpl. intros Hd Hx. destruct (float_Q x) as [q|] eqn:Eq; [| done].
  assert (0 <= q)%Q as Hq.
  { destruct x as [| | |[] m e]; simpl in Eq; try done; injection Eq as <-; [done |]. destruct (0 <=? e) eqn:Ee.
    - change 0%Q with (inject_Z 0). rewrite <- Zle_Qle. apply Z.leb_le in Ee. pose proof (Z.pow_pos_nonneg 2 e ltac:(lia) Ee). lia.
    - done. }
  unfold rnd in Hd. destruct (Qlt_le_dec q 0) as [Hn|_]; [by apply Qlt_not_le in Hn |].
  destruct (rnd_at 19 q) as [[c s]|] eqn:Er; [| done]. apply rnd_at_bounds in Er as [[Hc _] _]; [| done].
  injection Hd as <-. apply d_is_neg_false. simpl. unfold rval. destruct (rvalid _); [| done].
  unfold scaled, Qle. simpl. lia.
Qed.

(** The request of above. *)
Example accepted_config_valid_witness :
  exists c, ConfigDemo.decoded = Ok (c, ConfigDemo.stored) /\ MeanReversion.LookbackWindow c = 24 /\ mr_valid c.
Proof.
  destruct hc_demo_decoded as [c Hc]. exists c.
  assert (result_map (fun r => MeanReversion.LookbackWindow r.1) ConfigDemo.decoded = Ok 24) as E1 by (vm_compute; reflexivity).
  rewrite Hc in E1. simpl in E1. injection E1 as E1.
  assert (f64_lt (mustFloat64 (done1 (DecimalOps := RefDec))) f64_zero = false) as Hone by (vm_compute; reflexivity).
  pose proof (proj1 (accepted_config_valid (D := RefDec) hc_demo_sign Hone) _ _ _ _ Hc) as Hv.
  exact (conj Hc (conj E1 Hv)).
Defined.
