(* ===== verification/BacktestRows.v ===== *)
(** * strategy/http: the rows of backtests and what the API shows of them

    The part of [backtest_store.go] under the endpoints: how a record of the
    engine becomes a row, one page of the rows of a backtest, and the JSON of a
    row for each strategy.  A table is the list of its rows in the order of
    their serial numbers; SQL's WHERE, ORDER BY, LIMIT and OFFSET are [filter],
    a merge sort, [take] and [drop].  The text of decimals and times,
    [uuid.Parse] and the NUMERIC(42,18) and TIMESTAMP columns are parameters.

    Theory: the pages of a backtest are its rows, each once and in order; the
    numbers shown are the numbers recorded. *)

From S2P Require Import Prelude Decimal RefDecimal GoTime Stats Json HttpDecisions.

(** ** Columns *)

Class ColumnOps {D : DecimalOps} := {
  dec_String : dec -> string;                  (* [decimal.Decimal.String] *)
  parse_uuid : string -> result string;        (* [uuid.Parse], printed back *)
  numeric : string -> option string;           (* what a NUMERIC(42,18) column gives back; [None]: it refuses *)
  timestamp : Time -> Time;                    (* what a TIMESTAMP column gives back *)
  marshal_time : Time -> result string;        (* [time.Time.MarshalJSON] *)
  text_value : string -> option Q;             (* the number a text spells *)
}.

(** A column keeps eighteen digits after the point. *)
Definition near (q v : Q) : Prop := (Qabs (q - v) <= 1 # (2 * 10 ^ 18))%Q.

Class ColumnLaws {D : DecimalOps} `{!ColumnOps} : Prop := {
  numeric_near d t : numeric (dec_String d) = Some t -> exists q, text_value t = Some q /\ near q (dval d);
  text_value_empty : text_value "" = None;     (* an empty text spells no number *)
}.

Section Rows.
Context {D : DecimalOps} `{!ColumnOps}.

(** [nullableDecimal], [nullableString], [derefString] *)
Definition nullableDecimal (d : dec) : option string := if d_is_zero d then None else Some (dec_String d).
Definition nullableString (s : string) : option string := if bool_decide (s = ""%string) then None else Some s.
Definition derefString (p : option string) : string := default ""%string p.

(** [if s != "" { id, _ = uuid.Parse(s) }] and [if id != uuid.Nil] *)
Definition bond_column (s : string) : option string := if bool_decide (s = ""%string) then None else Some (or_zero uuid_nil (parse_uuid s)).
Definition trade_column (id : string) : option string := if bool_decide (id = uuid_nil) then None else Some id.

(** A row of strategy_backtest_trades without its serial number. *)
Record tradeColumns := MkTradeColumns {
  tc_BacktestID : string; tc_Time : Time; tc_BondID : option string; tc_Signal : string;
  tc_Price : option string; tc_Quantity : option string; tc_EntryBalance : option string;
  tc_OrderSize : option string; tc_Cash : option string; tc_OpenPosition : option string; tc_TradeID : option string;
  tc_Spread : option string; tc_PositionSize : option string; tc_ZScore : option string;
  tc_CompressionRatio : option string; tc_EntryATR : option string;
}.
Record tradeRecordRow := MkTradeRow { tr_ID : Z; tr_cols : tradeColumns }.

Record closedColumns := MkClosedColumns {
  cc_BacktestID : string; cc_OpenTime : Time; cc_CloseTime : Time; cc_BondID : option string; cc_OpenSignal : string; cc_CloseSignal : string;
  cc_Quantity : string; cc_EntryPrice : option string; cc_ExitPrice : option string; cc_PnL : string; cc_EntryBalance : option string;
  cc_OpenTradeID : option string; cc_CloseTradeID : option string;
  cc_EntrySpread : option string; cc_ExitSpread : option string; cc_EntryZScore : option string; cc_ExitZScore : option string;
  cc_PositionSize : option string; cc_ExitReason : option string;
  cc_EntryCompressionRatio : option string; cc_ExitCompressionRatio : option string;
}.
Record closedTradeRow := MkClosedRow { cr_ID : Z; cr_cols : closedColumns }.

(** The values handed to the database. *)
Definition tradeRecordInsertRow (r : TradeRecordInsert) : tradeColumns := {|
  tc_BacktestID := tri_BacktestID r; tc_Time := tri_Time r; tc_BondID := bond_column (tri_BondID r); tc_Signal := tri_Signal r;
  tc_Price := nullableDecimal (tri_Price r); tc_Quantity := nullableDecimal (tri_Quantity r); tc_EntryBalance := nullableDecimal (tri_EntryBalance r);
  tc_OrderSize := nullableDecimal (tri_OrderSize r); tc_Cash := nullableDecimal (tri_Cash r); tc_OpenPosition := nullableDecimal (tri_OpenPosition r);
  tc_TradeID := trade_column (tri_TradeID r);
  tc_Spread := nullableDecimal (tri_Spread r); tc_PositionSize := nullableDecimal (tri_PositionSize r); tc_ZScore := nullableDecimal (tri_ZScore r);
  tc_CompressionRatio := nullableDecimal (tri_CompressionRatio r); tc_EntryATR := nullableDecimal (tri_EntryATR r) |}.

Definition closedTradeInsertRow (t : ClosedTradeInsert) : closedColumns := {|
  cc_BacktestID := cti_BacktestID t; cc_OpenTime := cti_OpenTime t; cc_CloseTime := cti_CloseTime t; cc_BondID := bond_column (cti_BondID t);
  cc_OpenSignal := cti_OpenSignal t; cc_CloseSignal := cti_CloseSignal t;
  cc_Quantity := dec_String (cti_Quantity t); cc_EntryPrice := nullableDecimal (cti_EntryPrice t); cc_ExitPrice := nullableDecimal (cti_ExitPrice t);
  cc_PnL := dec_String (cti_PnL t); cc_EntryBalance := nullableDecimal (cti_EntryBalance t);
  cc_OpenTradeID := trade_column (cti_OpenTradeID t); cc_CloseTradeID := trade_column (cti_CloseTradeID t);
  cc_EntrySpread := nullableDecimal (cti_EntrySpread t); cc_ExitSpread := nullableDecimal (cti_ExitSpread t);
  cc_EntryZScore := nullableDecimal (cti_EntryZScore t); cc_ExitZScore := nullableDecimal (cti_ExitZScore t);
  cc_PositionSize := nullableDecimal (cti_PositionSize t); cc_ExitReason := nullableString (cti_ExitReason t);
  cc_EntryCompressionRatio := nullableDecimal (cti_EntryCompressionRatio t); cc_ExitCompressionRatio := nullableDecimal (cti_ExitCompressionRatio t) |}.

(** ** The tables *)

(** What a nullable column gives back. *)
Definition column (v : option string) : option (option string) :=
  match v with None => Some None | Some s => Some <$> numeric s end.

Definition store_trade (c : tradeColumns) : option tradeColumns :=
  price ← column (tc_Price c); quantity ← column (tc_Quantity c); entryBalance ← column (tc_EntryBalance c);
  orderSize ← column (tc_OrderSize c); cash ← column (tc_Cash c); openPosition ← column (tc_OpenPosition c);
  spread ← column (tc_Spread c); positionSize ← column (tc_PositionSize c); zscore ← column (tc_ZScore c);
  ratio ← column (tc_CompressionRatio c); atr ← column (tc_EntryATR c);
  Some (MkTradeColumns (tc_BacktestID c) (timestamp (tc_Time c)) (tc_BondID c) (tc_Signal c) price quantity entryBalance
          orderSize cash openPosition (tc_TradeID c) spread positionSize zscore ratio atr).

Definition store_closed (c : closedColumns) : option closedColumns :=
  quantity ← numeric (cc_Quantity c); entryPrice ← column (cc_EntryPrice c); exitPrice ← column (cc_ExitPrice c);
  pnl ← numeric (cc_PnL c); entryBalance ← column (cc_EntryBalance c);
  entrySpread ← column (cc_EntrySpread c); exitSpread ← column (cc_ExitSpread c);
  entryZ ← column (cc_EntryZScore c); exitZ ← column (cc_ExitZScore c); positionSize ← column (cc_PositionSize c);
  entryRatio ← column (cc_EntryCompressionRatio c); exitRatio ← column (cc_ExitCompressionRatio c);
  Some (MkClosedColumns (cc_BacktestID c) (timestamp (cc_OpenTime c)) (timestamp (cc_CloseTime c)) (cc_BondID c) (cc_OpenSignal c) (cc_CloseSignal c)
          quantity entryPrice exitPrice pnl entryBalance (cc_OpenTradeID c) (cc_CloseTradeID c)
          entrySpread exitSpread entryZ exitZ positionSize (cc_ExitReason c) entryRatio exitRatio).

(** The next serial number and the rows; a COPY that fails uses up numbers
    at most, which leaves a gap nobody sees. *)
Record table (R : Type) := MkTable { t_next : Z; t_rows : list R }.
Arguments MkTable {R} _ _.
Arguments t_next {R} _.
Arguments t_rows {R} _.

Definition number {C R} (mk : Z -> C -> R) (first : Z) (cols : list C) : list R := imap (fun i => mk (first + Z.of_nat i)) cols.
Definition copy_from {C R} (mk : Z -> C -> R) (ok : bool) (cols : option (list C)) (t : table R) : result unit * table R :=
  match cols with
  | Some cs => if ok then (Ok tt, MkTable (t_next t + Z.of_nat (length cs)) (t_rows t ++ number mk (t_next t) cs)) else (Err (ErrMsg "write batch"), t)
  | None => (Err (ErrMsg "write batch"), t)
  end.

Definition WriteTradeRecordsBatch (ok : bool) (recs : list TradeRecordInsert) (t : table tradeRecordRow) : result unit * table tradeRecordRow :=
  match recs with
  | [] => (Ok tt, t)
  | _ => copy_from MkTradeRow ok (mapM (store_trade ∘ tradeRecordInsertRow) recs) t
  end.
Definition WriteClosedTradesBatch (ok : bool) (trades : list ClosedTradeInsert) (t : table closedTradeRow) : result unit * table closedTradeRow :=
  match trades with
  | [] => (Ok tt, t)
  | _ => copy_from MkClosedRow ok (mapM (store_closed ∘ closedTradeInsertRow) trades) t
  end.

(** One INSERT. *)
Definition insertTradeRecord (ok : bool) (rec : TradeRecordInsert) (t : table tradeRecordRow) : result unit * table tradeRecordRow :=
  copy_from MkTradeRow ok (c ← store_trade (tradeRecordInsertRow rec); Some [c]) t.
Definition insertClosedTrade (ok : bool) (trade : ClosedTradeInsert) (t : table closedTradeRow) : result unit * table closedTradeRow :=
  copy_from MkClosedRow ok (c ← store_closed (closedTradeInsertRow trade); Some [c]) t.

(** *** One page *)

(** [clampPagination] *)
Definition clampPagination (page limit : Z) : Z * Z :=
  let page := if page <? 1 then 1 else page in
  let limit := if limit <? 1 then defaultPaginationLimit else limit in
  (page, if maxPaginationLimit <? limit then maxPaginationLimit else limit).

Definition key_le (a b : Z * Z) : Prop := a.1 < b.1 \/ a.1 = b.1 /\ a.2 <= b.2.
#[export] Instance key_le_dec : RelDecision key_le.
Proof. intros a b. unfold key_le. apply _. Defined.

Section Page.
Context {R : Type} (key : R -> Z * Z) (bt_of : R -> string).
Definition row_le (a b : R) : Prop := key_le (key a) (key b).
#[export] Instance row_le_dec : RelDecision row_le.
Proof. intros a b. unfold row_le. apply _. Defined.

(** WHERE backtest_id = $1 ORDER BY time, id *)
Definition ordered (id : string) (rows : list R) : list R :=
  merge_sort row_le (List.filter (fun r => bool_decide (bt_of r = id)) rows).
(** LIMIT $2 OFFSET $3; a negative offset is refused. *)
Definition list_rows (ok : bool) (id : string) (page limit : Z) (rows : list R) : result (list R) :=
  let '(page, limit) := clampPagination page limit in
  if page =? 0 then Ok []
  else
    let offset := wrap64 ((page - 1) * limit) in
    if negb ok || (offset <? 0) then Err (ErrMsg "query rows")
    else Ok (take (Z.to_nat limit) (drop (Z.to_nat offset) (ordered id rows))).
End Page.

Definition trade_key (r : tradeRecordRow) : Z * Z := (t_ns (tc_Time (tr_cols r)), tr_ID r).
Definition closed_key (r : closedTradeRow) : Z * Z := (t_ns (cc_CloseTime (cr_cols r)), cr_ID r).
Definition trade_of (r : tradeRecordRow) : string := tc_BacktestID (tr_cols r).
Definition closed_of (r : closedTradeRow) : string := cc_BacktestID (cr_cols r).
Definition listTradeRecords (ok : bool) (id : string) (page limit : Z) (t : table tradeRecordRow) : result (list tradeRecordRow) :=
  list_rows trade_key trade_of ok id page limit (t_rows t).
Definition listClosedTrades (ok : bool) (id : string) (page limit : Z) (t : table closedTradeRow) : result (list closedTradeRow) :=
  list_rows closed_key closed_of ok id page limit (t_rows t).

(** ** Responses *)

(** The members of a response that are strings. *)
Definition text (name s : string) : string * json := (name, JString s).

Definition tradeRecordToResponse (strategyType : string) (r : tradeRecordRow) : result json :=
  let c := tr_cols r in
  let bondID := derefString (tc_BondID c) in
  let price := derefString (tc_Price c) in
  let quantity := derefString (tc_Quantity c) in
  let entryBalance := derefString (tc_EntryBalance c) in
  t ← marshal_time (tc_Time c);
  Ok (JObject (
    if bool_decide (strategyType = "copytrading"%string) then
      [text "time" t; text "bond_id" bondID; text "signal" (tc_Signal c); text "price" price; text "quantity" quantity;
       text "order_size" (derefString (tc_OrderSize c)); text "cash" (derefString (tc_Cash c));
       text "open_position" (derefString (tc_OpenPosition c)); text "trade_id" (derefString (tc_TradeID c))]
    else if bool_decide (strategyType = "breakout"%string) then
      [text "time" t; text "bond_id" bondID; text "signal" (tc_Signal c); text "price" price; text "quantity" quantity;
       text "position_size" (derefString (tc_PositionSize c)); text "compression_ratio" (derefString (tc_CompressionRatio c));
       text "entry_atr" (derefString (tc_EntryATR c))]
    else if bool_decide (strategyType = "momentum"%string) then
      [text "time" t; text "bond_id" bondID; text "signal" (tc_Signal c); text "price" price; text "quantity" quantity;
       text "position_size" (derefString (tc_PositionSize c)); text "fast_ma" ""; text "slow_ma" "";
       text "entry_atr" (derefString (tc_EntryATR c))]
    else
      [text "time" t; text "bond_id" bondID; text "signal" (tc_Signal c); text "spread" (derefString (tc_Spread c));
       text "position_size" (derefString (tc_PositionSize c)); text "zscore" (derefString (tc_ZScore c));
       text "price" price; text "quantity" quantity; text "entry_balance" entryBalance])).

(** [omitempty] *)
Definition text_opt (name s : string) : list (string * json) := if bool_decide (s = ""%string) then [] else [text name s].

Definition closedTradeToResponse (strategyType : string) (r : closedTradeRow) : result json :=
  let c := cr_cols r in
  let bondID := derefString (cc_BondID c) in
  open ← marshal_time (cc_OpenTime c);
  close ← marshal_time (cc_CloseTime c);
  Ok (JObject (
    if bool_decide (strategyType = "copytrading"%string) then
      [text "open_time" open; text "close_time" close; text "bond_id" bondID; text "open_signal" (cc_OpenSignal c);
       text "close_signal" (cc_CloseSignal c); text "quantity" (cc_Quantity c); text "entry_price" (derefString (cc_EntryPrice c));
       text "exit_price" (derefString (cc_ExitPrice c)); text "pnl" (cc_PnL c)] ++
      text_opt "entry_balance" (derefString (cc_EntryBalance c)) ++
      [text "open_trade_id" (derefString (cc_OpenTradeID c)); text "close_trade_id" (derefString (cc_CloseTradeID c))]
    else if bool_decide (strategyType = "breakout"%string) then
      [text "bond_id" bondID; text "open_time" open; text "close_time" close; text "signal" (cc_OpenSignal c); text "exit_signal" (cc_CloseSignal c);
       text "entry_price" (derefString (cc_EntryPrice c)); text "exit_price" (derefString (cc_ExitPrice c)); text "quantity" (cc_Quantity c);
       text "position_size" (derefString (cc_PositionSize c)); text "pnl" (cc_PnL c); text "exit_reason" (derefString (cc_ExitReason c));
       text "entry_compression_ratio" (derefString (cc_EntryCompressionRatio c)); text "exit_compression_ratio" (derefString (cc_ExitCompressionRatio c))]
    else if bool_decide (strategyType = "momentum"%string) then
      [text "bond_id" bondID; text "open_time" open; text "close_time" close; text "signal" (cc_OpenSignal c); text "exit_signal" (cc_CloseSignal c);
       text "entry_price" (derefString (cc_EntryPrice c)); text "exit_price" (derefString (cc_ExitPrice c)); text "quantity" (cc_Quantity c);
       text "position_size" (derefString (cc_PositionSize c)); text "pnl" (cc_PnL c); text "exit_reason" (derefString (cc_ExitReason c))]
    else
      [text "bond_id" bondID; text "open_time" open; text "close_time" close; text "signal" (cc_OpenSignal c); text "exit_signal" (cc_CloseSignal c);
       text "entry_spread" (derefString (cc_EntrySpread c)); text "exit_spread" (derefString (cc_ExitSpread c));
       text "entry_zscore" (derefString (cc_EntryZScore c)); text "exit_zscore" (derefString (cc_ExitZScore c));
       text "position_size" (derefString (cc_PositionSize c)); text "pnl" (cc_PnL c); text "exit_reason" (derefString (cc_ExitReason c));
       text "entry_price" (derefString (cc_EntryPrice c)); text "exit_price" (derefString (cc_ExitPrice c)); text "quantity" (cc_Quantity c);
       text "entry_balance" (derefString (cc_EntryBalance c))])).

(** [marshalItems] *)
Definition marshalItems (items : list json) : json := JObject [("items"%string, JArray items)].

(** The error of the first row that cannot be written. *)
Fixpoint all_rows {R} (f : R -> result json) (rows : list R) : result (list json) :=
  match rows with [] => Ok [] | r :: rest => b ← f r; items ← all_rows f rest; Ok (b :: items) end.

Definition GetBacktestTrades (ok : bool) (id strategyType : string) (page limit : Z) (t : table tradeRecordRow) : result json :=
  rows ← listTradeRecords ok id page limit t;
  result_map marshalItems (all_rows (tradeRecordToResponse strategyType) rows).
Definition GetBacktestClosedTrades (ok : bool) (id strategyType : string) (page limit : Z) (t : table closedTradeRow) : result json :=
  rows ← listClosedTrades ok id page limit t;
  result_map marshalItems (all_rows (closedTradeToResponse strategyType) rows).

(** *** The summary of a result *)

(** The slices of trades are nil: their rows are in the tables. *)
Definition summary_json (s : Summary) : json := JObject [
  ("closed_trades"%string, JNull); ("trade_records"%string, JNull); text "total_pnl" (dec_String (TotalPnL s));
  ("win_count"%string, JNumber (format_int (WinCount s))); ("loss_count"%string, JNumber (format_int (LossCount s)));
  text "max_drawdown" (dec_String (MaxDrawdown s)); text "sharpe_ratio" (dec_String (SharpeRatio s))].

(** *** Histories of writes, for the theorems *)

(** The batches that were written, each with whether the database answered. *)
Definition write_trades (bs : list (bool * list TradeRecordInsert)) (t : table tradeRecordRow) : table tradeRecordRow :=
  foldl (fun t b => (WriteTradeRecordsBatch b.1 b.2 t).2) t bs.
Definition write_closed (bs : list (bool * list ClosedTradeInsert)) (t : table closedTradeRow) : table closedTradeRow :=
  foldl (fun t b => (WriteClosedTradesBatch b.1 b.2 t).2) t bs.
Definition empty_table {R} : table R := MkTable 1 [].

(** The columns of the batches that were accepted. *)
Definition accepted {X C} (f : X -> option C) (bs : list (bool * list X)) : list C :=
  concat (map (fun b : bool * list X => if b.1 then default [] (mapM f b.2) else []) bs).
Definition trade_columns_of := accepted (store_trade ∘ tradeRecordInsertRow).
Definition closed_columns_of := accepted (store_closed ∘ closedTradeInsertRow).

(** A text shows a number: it is empty for zero only, and otherwise spells
    the number to the precision of the column. *)
Definition shows (s : string) (d : dec) : Prop :=
  if bool_decide (s = ""%string) then (dval d == 0)%Q else exists q, text_value s = Some q /\ near q (dval d).
Definition members (j : json) : list (string * json) := match j with JObject ms => ms | _ => [] end.
Definition member (name : string) (j : json) : option json := snd <$> List.find (fun m => String.eqb m.1 name) (members j).

(** What the API documents a member of a trade to hold. *)
Inductive content (X : Type) :=
  | Number (f : X -> dec)      (* a number of the record *)
  | Omitted (f : X -> dec)     (* the same, left out when it is zero *)
  | Words (f : X -> string)    (* a text of the record *)
  | Moment (f : X -> Time)     (* a time of the record *)
  | Bond (f : X -> string)     (* a bond, when its identifier is a UUID *)
  | Trade (f : X -> string)    (* a trade, empty when there is none *)
  | Blank.                     (* nothing: always empty *)
Arguments Number {X} f.
Arguments Omitted {X} f.
Arguments Words {X} f.
Arguments Moment {X} f.
Arguments Bond {X} f.
Arguments Trade {X} f.
Arguments Blank {X}.

Definition trade_members (strategyType : string) : list (string * content TradeRecordInsert) :=
  [("time"%string, Moment tri_Time); ("bond_id"%string, Bond tri_BondID); ("signal"%string, Words tri_Signal);
   ("price"%string, Number tri_Price); ("quantity"%string, Number tri_Quantity)] ++
  if bool_decide (strategyType = "copytrading"%string) then
    [("order_size"%string, Number tri_OrderSize); ("cash"%string, Number tri_Cash); ("open_position"%string, Number tri_OpenPosition);
     ("trade_id"%string, Trade tri_TradeID)]
  else if bool_decide (strategyType = "breakout"%string) then
    [("position_size"%string, Number tri_PositionSize); ("compression_ratio"%string, Number tri_CompressionRatio); ("entry_atr"%string, Number tri_EntryATR)]
  else if bool_decide (strategyType = "momentum"%string) then
    [("position_size"%string, Number tri_PositionSize); ("fast_ma"%string, Blank); ("slow_ma"%string, Blank); ("entry_atr"%string, Number tri_EntryATR)]
  else [("spread"%string, Number tri_Spread); ("position_size"%string, Number tri_PositionSize); ("zscore"%string, Number tri_ZScore);
        ("entry_balance"%string, Number tri_EntryBalance)].
Definition closed_members (strategyType : string) : list (string * content ClosedTradeInsert) :=
  [("open_time"%string, Moment cti_OpenTime); ("close_time"%string, Moment cti_CloseTime); ("bond_id"%string, Bond cti_BondID);
   ("quantity"%string, Number cti_Quantity); ("entry_price"%string, Number cti_EntryPrice); ("exit_price"%string, Number cti_ExitPrice);
   ("pnl"%string, Number cti_PnL)] ++
  if bool_decide (strategyType = "copytrading"%string) then
    [("open_signal"%string, Words cti_OpenSignal); ("close_signal"%string, Words cti_CloseSignal); ("entry_balance"%string, Omitted cti_EntryBalance);
     ("open_trade_id"%string, Trade cti_OpenTradeID); ("close_trade_id"%string, Trade cti_CloseTradeID)]
  else
    [("signal"%string, Words cti_OpenSignal); ("exit_signal"%string, Words cti_CloseSignal); ("exit_reason"%string, Words cti_ExitReason);
     ("position_size"%string, Number cti_PositionSize)] ++
    if bool_decide (strategyType = "breakout"%string) then
      [("entry_compression_ratio"%string, Number cti_EntryCompressionRatio); ("exit_compression_ratio"%string, Number cti_ExitCompressionRatio)]
    else if bool_decide (strategyType = "momentum"%string) then []
    else [("entry_spread"%string, Number cti_EntrySpread); ("exit_spread"%string, Number cti_ExitSpread); ("entry_zscore"%string, Number cti_EntryZScore);
          ("exit_zscore"%string, Number cti_ExitZScore); ("entry_balance"%string, Number cti_EntryBalance)].

(** A response holds what it should under a name. *)
Definition holds {X} (j : json) (x : X) (p : string * content X) : Prop :=
  match p.2 with
  | Number f => exists s, member p.1 j = Some (JString s) /\ shows s (f x)
  | Omitted f =>
      match member p.1 j with
      | None => (dval (f x) == 0)%Q
      | Some v => exists s, v = JString s /\ s <> ""%string /\ shows s (f x)
      end
  | Words f => member p.1 j = Some (JString (f x))
  | Moment f => exists s, member p.1 j = Some (JString s) /\ marshal_time (timestamp (f x)) = Ok s
  | Bond f => exists s, member p.1 j = Some (JString s) /\ (f x = ""%string -> s = ""%string) /\
      forall u, f x <> ""%string -> parse_uuid (f x) = Ok u -> s = u
  | Trade f => exists s, member p.1 j = Some (JString s) /\ (f x = uuid_nil -> s = ""%string) /\ (f x <> uuid_nil -> s = f x)
  | Blank => member p.1 j = Some (JString "")
  end.

(** Every documented member holds what it should, and no other is there. *)
Definition answers {X} (j : json) (x : X) (ms : list (string * content X)) : Prop :=
  Forall (holds j x) ms /\ Forall (fun m => m.1 ∈ ms.*1) (members j).
End Rows.
Arguments MkTable {R} _ _.
Arguments t_next {R} _.
Arguments t_rows {R} _.

(** ** Theory: pages *)

Lemma br_concat_pages {A} (l : list A) k n : concat (map (fun i => take k (drop (i * k) l)) (seq 0 n)) = take (n * k) l.
Proof.
  induction n as [|n IH]; [done |]. rewrite seq_S, map_app, concat_app, IH. cbn [map concat Nat.add]. rewrite app_nil_r.
  replace (S n * k)%nat with (n * k + k)%nat by lia. apply take_take_drop.
Qed.

Section Pages.
Context {R : Type} (key : R -> Z * Z) (bt_of : R -> string).

#[local] Instance br_key_total : Total (row_le key).
Proof. intros a b. unfold row_le, key_le. destruct (Z.lt_trichotomy (key a).1 (key b).1) as [?|[?|?]]; lia. Qed.
#[local] Instance br_key_trans : Transitive (row_le key).
Proof. intros a b c. unfold row_le, key_le. lia. Qed.

Lemma br_ordered id rows : StronglySorted (row_le key) (ordered key bt_of id rows) /\
  ordered key bt_of id rows ≡ₚ List.filter (fun r => bool_decide (bt_of r = id)) rows.
Proof. unfold ordered. split; [by apply StronglySorted_merge_sort; apply _ | apply merge_sort_Permutation]. Qed.

Lemma br_page id limit rows i : 1 <= limit <= maxPaginationLimit -> Z.of_nat (S i) * limit <= int64_max ->
  list_rows key bt_of true id (Z.of_nat (S i)) limit rows =
  Ok (take (Z.to_nat limit) (drop (i * Z.to_nat limit) (ordered key bt_of id rows))).
Proof.
  intros Hl Hm. unfold list_rows, clampPagination. rewrite (proj2 (Z.ltb_ge _ _)) by lia. rewrite (proj2 (Z.ltb_ge _ 1)) by lia.
  rewrite (proj2 (Z.ltb_ge maxPaginationLimit _)) by lia. rewrite (proj2 (Z.eqb_neq _ _)) by lia.
  replace (Z.of_nat (S i) - 1) with (Z.of_nat i) by lia. rewrite wrap64_small by (unfold in_int64, int64_min in *; nia).
  rewrite (proj2 (Z.ltb_ge _ 0)) by nia. simpl. by rewrite Z2Nat.inj_mul, Nat2Z.id by lia.
Qed.

Definition walked (id : string) (limit : Z) (rows : list R) (n : nat) : list R :=
  concat (map (fun i => or_zero [] (list_rows key bt_of true id (Z.of_nat (S i)) limit rows)) (seq 0 n)).

Lemma br_walk id limit rows n : 1 <= limit <= maxPaginationLimit -> Z.of_nat n * limit <= int64_max ->
  walked id limit rows n = take (n * Z.to_nat limit) (ordered key bt_of id rows).
Proof.
  intros Hl Hm. unfold walked. rewrite <- br_concat_pages. f_equal. apply map_ext_in. intros i [_ Hi]%in_seq. by rewrite br_page by (done || nia).
Qed.

(** The pages of a walk, one by one. *)
Lemma br_pages_ok id limit rows n : 1 <= limit <= maxPaginationLimit -> Z.of_nat n * limit <= int64_max ->
  forall i page, map (fun i => or_zero [] (list_rows key bt_of true id (Z.of_nat (S i)) limit rows)) (seq 0 n) !! i = Some page ->
  list_rows key bt_of true id (Z.of_nat (S i)) limit rows = Ok page /\ Z.of_nat (length page) <= limit.
Proof.
  intros Hl Hm i page Hi. apply list_lookup_fmap_Some in Hi as (j & -> & [-> Hj]%lookup_seq). simpl.
  rewrite br_page by (done || nia). split; [done |]. simpl. rewrite length_take. lia.
Qed.
End Pages.

(** ** Theory: rows *)

Lemma br_number {C R} (mk : Z -> C -> R) (cols_of : R -> C) first cs : (forall i c, cols_of (mk i c) = c) -> cols_of <$> number mk first cs = cs.
Proof.
  intros Hm. unfold number. rewrite fmap_imap, (imap_ext _ (fun _ c => c)) by (intros i x Hx; simpl; by rewrite Hm).
  induction cs as [|c cs IH]; [done |]. cbn. f_equal. exact IH.
Qed.

Section Written.
Context {X C R : Type} (mk : Z -> C -> R) (cols_of : R -> C) (f : X -> option C).
Variable write : bool -> list X -> table R -> result unit * table R.
Hypothesis Hmk : forall i c, cols_of (mk i c) = c.
Hypothesis write_nil : forall ok t, write ok [] t = (Ok tt, t).
Hypothesis write_cons : forall ok x xs t, write ok (x :: xs) t = copy_from mk ok (mapM f (x :: xs)) t.

Lemma br_write ok xs t : cols_of <$> t_rows (write ok xs t).2 = (cols_of <$> t_rows t) ++ (if ok then default [] (mapM f xs) else []).
Proof.
  destruct xs as [|x xs]; [rewrite write_nil; simpl; destruct ok; by rewrite app_nil_r |]. rewrite write_cons. unfold copy_from.
  destruct (mapM f (x :: xs)) as [cs|]; [| simpl; destruct ok; by rewrite app_nil_r].
  destruct ok; simpl; [| by rewrite app_nil_r]. by rewrite fmap_app, br_number.
Qed.

Lemma br_written bs t : cols_of <$> t_rows (foldl (fun t (b : bool * list X) => (write b.1 b.2 t).2) t bs) = (cols_of <$> t_rows t) ++ accepted f bs.
Proof.
  revert t. induction bs as [|b bs IH]; intros t; [by rewrite app_nil_r |]. simpl. rewrite IH, br_write, <- app_assoc. done.
Qed.
End Written.

Section Shown.
Context {D : DecimalOps} `{!ColumnOps}.

Lemma br_trades bs : tr_cols <$> t_rows (write_trades bs empty_table) = trade_columns_of bs.
Proof. unfold write_trades. by rewrite (br_written MkTradeRow tr_cols (store_trade ∘ tradeRecordInsertRow)). Qed.
Lemma br_closed bs : cr_cols <$> t_rows (write_closed bs empty_table) = closed_columns_of bs.
Proof. unfold write_closed. by rewrite (br_written MkClosedRow cr_cols (store_closed ∘ closedTradeInsertRow)). Qed.

Lemma br_filter {R C} (g : R -> C) (p : C -> bool) l : g <$> List.filter (fun r => p (g r)) l = List.filter p (g <$> l).
Proof. induction l as [|x l IH]; [done |]. rewrite fmap_cons. cbn [List.filter]. destruct (p (g x)); rewrite ?fmap_cons; by rewrite IH. Qed.

(** The pages of the rows of one backtest. *)
Lemma br_all {R C} (key : R -> Z * Z) (g : R -> C) (bt : C -> string) id limit rows cols n :
  g <$> rows = cols -> 1 <= limit <= maxPaginationLimit -> Z.of_nat n * limit <= int64_max -> (length cols <= n * Z.to_nat limit)%nat ->
  let all := walked key (fun r => bt (g r)) id limit rows n in
  StronglySorted (row_le key) all /\ g <$> all ≡ₚ List.filter (fun c => bool_decide (bt c = id)) cols.
Proof.
  intros <- Hl Hm Hn all. unfold all. rewrite br_walk by done. destruct (br_ordered key (fun r => bt (g r)) id rows) as [HS HP].
  rewrite take_ge.
  - split; [done |]. rewrite <- (br_filter g (fun c => bool_decide (bt c = id))). by apply fmap_Permutation.
  - rewrite HP. etrans; [apply List.filter_length_le |]. by rewrite length_fmap in Hn.
Qed.

Lemma br_paged {R C} (key : R -> Z * Z) (g : R -> C) (bt : C -> string) id limit rows cols n :
  g <$> rows = cols -> 1 <= limit <= maxPaginationLimit -> Z.of_nat n * limit <= int64_max -> (length cols <= n * Z.to_nat limit)%nat ->
  exists pages, length pages = n /\
    (forall i page, pages !! i = Some page ->
       list_rows key (fun r => bt (g r)) true id (Z.of_nat (S i)) limit rows = Ok page /\ Z.of_nat (length page) <= limit) /\
    StronglySorted (row_le key) (concat pages) /\ g <$> concat pages ≡ₚ List.filter (fun c => bool_decide (bt c = id)) cols.
Proof.
  intros E Hl Hm Hn. eexists. split; [|split; [apply br_pages_ok; done | by apply br_all]]. by rewrite length_map, length_seq.
Qed.
End Shown.

Section Properties.
Context {D : DecimalOps} `{!ColumnOps}.

(** Reading the trades and the closed trades of a backtest page by page
    gives every row that was accepted for it and nothing else, each once,
    ordered by time and then by the order of writing; no page is longer than
    the limit. *)
Theorem recorded_trades_paged tbs cbs id limit n :
  1 <= limit <= maxPaginationLimit -> Z.of_nat n * limit <= int64_max ->
  (length (trade_columns_of tbs) <= n * Z.to_nat limit)%nat -> (length (closed_columns_of cbs) <= n * Z.to_nat limit)%nat ->
  let trades := write_trades tbs empty_table in
  let closed := write_closed cbs empty_table in
  (exists pages, length pages = n /\
    (forall i page, pages !! i = Some page -> listTradeRecords true id (Z.of_nat (S i)) limit trades = Ok page /\ Z.of_nat (length page) <= limit) /\
    StronglySorted (row_le trade_key) (concat pages) /\
    tr_cols <$> concat pages ≡ₚ List.filter (fun c => bool_decide (tc_BacktestID c = id)) (trade_columns_of tbs)) /\
  (exists pages, length pages = n /\
    (forall i page, pages !! i = Some page -> listClosedTrades true id (Z.of_nat (S i)) limit closed = Ok page /\ Z.of_nat (length page) <= limit) /\
    StronglySorted (row_le closed_key) (concat pages) /\
    cr_cols <$> concat pages ≡ₚ List.filter (fun c => bool_decide (cc_BacktestID c = id)) (closed_columns_of cbs)).
Proof.
  intros Hl Hm Ht Hc trades closed.
  split.
  - by apply (br_paged trade_key tr_cols tc_BacktestID); [apply br_trades | | |].
  - by apply (br_paged closed_key cr_cols cc_BacktestID); [apply br_closed | | |].
Qed.
End Properties.

(** ** Theory: numbers *)

Section Numbers.
Context {D : DecimalOps} {L : DecimalLaws} `{!ColumnOps} `{!ColumnLaws}.

Lemma br_numeric d t : numeric (dec_String d) = Some t -> shows t d.
Proof.
  intros Ht%numeric_near. unfold shows. case_bool_decide as E; [| done]. subst t. destruct Ht as (q & Hq & _).
  by rewrite text_value_empty in Hq.
Qed.

Lemma br_column d v : column (nullableDecimal d) = Some v -> shows (derefString v) d.
Proof.
  unfold nullableDecimal. destruct (d_is_zero d) eqn:E; simpl.
  - intros [= <-]. unfold shows. rewrite bool_decide_eq_true_2 by done. by apply d_is_zero_spec.
  - destruct (numeric (dec_String d)) as [t|] eqn:Et; [| done]. intros [= <-]. by apply br_numeric.
Qed.

Lemma br_bond s : let v := derefString (bond_column s) in
  (s = ""%string -> v = ""%string) /\ forall u, s <> ""%string -> parse_uuid s = Ok u -> v = u.
Proof. unfold bond_column. case_bool_decide; [done |]. split; [done |]. intros u _ Hu. simpl. by rewrite Hu. Qed.
Lemma br_trade s : let v := derefString (trade_column s) in (s = uuid_nil -> v = ""%string) /\ (s <> uuid_nil -> v = s).
Proof. unfold trade_column. by case_bool_decide. Qed.
Lemma br_string s : derefString (nullableString s) = s.
Proof. unfold nullableString. by case_bool_decide. Qed.

(** The columns of a stored row, one equation each. *)
Ltac br_columns H := repeat (let v := fresh "v" in let E := fresh "E" in apply bind_Some in H as (v & E & H)); injection H as <-.
(** A member that may be left out. *)
Ltac br_optional := match goal with
  | Hs : shows ?s _, E : ?s = ""%string |- _ => unfold shows in Hs; by rewrite bool_decide_eq_true_2 in Hs
  | Hs : shows ?s _, E : ?s <> ""%string |- _ => exists s; by split_and!
  end.
(** The members of a response, one after the other. *)
Ltac br_holds := unfold holds; cbn [fst snd];
  first [ reflexivity
        | eexists; split; [reflexivity |]; first [by apply br_column | by apply br_numeric | apply br_bond | apply br_trade |
            match goal with Ht : marshal_time _ = Ok ?s |- marshal_time _ = Ok ?s => exact Ht end]
        | etrans; [reflexivity |]; by rewrite ?br_string
        | simpl; br_optional ].
Ltac br_answers := split; [repeat (apply Forall_cons_2); [br_holds.. | by apply Forall_nil_2] |
  cbn [members]; repeat (apply Forall_cons_2); [(cbn [fst]; rewrite ?fmap_cons; set_solver).. | by apply Forall_nil_2]].

Lemma br_trade_shown ty r c id j : store_trade (tradeRecordInsertRow r) = Some c ->
  tradeRecordToResponse ty (MkTradeRow id c) = Ok j -> answers j r (trade_members ty).
Proof.
  intros Hc. unfold store_trade in Hc. cbn [tradeRecordInsertRow tc_Price tc_Quantity tc_EntryBalance tc_OrderSize tc_Cash tc_OpenPosition tc_Spread
    tc_PositionSize tc_ZScore tc_CompressionRatio tc_EntryATR] in Hc. br_columns Hc.
  intros (t & Ht & Hj)%result_bind_Ok. injection Hj as <-. unfold trade_members, answers.
  repeat case_bool_decide; cbn [app]; br_answers.
Qed.

Lemma br_closed_shown ty r c id j : store_closed (closedTradeInsertRow r) = Some c ->
  closedTradeToResponse ty (MkClosedRow id c) = Ok j -> answers j r (closed_members ty).
Proof.
  intros Hc. unfold store_closed in Hc. cbn [closedTradeInsertRow cc_Quantity cc_EntryPrice cc_ExitPrice cc_PnL cc_EntryBalance cc_EntrySpread
    cc_ExitSpread cc_EntryZScore cc_ExitZScore cc_PositionSize cc_EntryCompressionRatio cc_ExitCompressionRatio] in Hc. br_columns Hc.
  intros (o & Ho & (cl & Hcl & Hj)%result_bind_Ok)%result_bind_Ok. injection Hj as <-. unfold closed_members, answers.
  repeat case_bool_decide; cbn [app]; [| br_answers..].
  all: pose proof (br_column _ _ E3) as Hb; unfold text_opt; case_bool_decide as Eb; cbn [app]; br_answers.
Qed.

(** C32: what the API answers of a recorded trade and of a closed trade, for
    every strategy, member by member ([trade_members], [closed_members] list
    all that are documented, and no other is there).  A number is the one the
    engine recorded under that name, to the eighteen digits of its column, and
    is empty only when that is zero ([shows]); the entry balance of a closed
    copy trade is left out when it is zero; texts and times are those recorded,
    a bond is the one recorded when that is a UUID, a trade is the one recorded
    or empty when there is none.  The moving averages of momentum
    ([fast_ma], [slow_ma]) have no column and are always empty, whatever was
    recorded.  Assumed of the database: a NUMERIC column keeps a number to its
    eighteen digits and gives it back as a text that is not empty. *)
Theorem recorded_numbers_shown ty :
  (forall r c id j, store_trade (tradeRecordInsertRow r) = Some c -> tradeRecordToResponse ty (MkTradeRow id c) = Ok j ->
     answers j r (trade_members ty)) /\
  (forall r c id j, store_closed (closedTradeInsertRow r) = Some c -> closedTradeToResponse ty (MkClosedRow id c) = Ok j ->
     answers j r (closed_members ty)).
Proof. split; intros *; [apply br_trade_shown | apply br_closed_shown]. Qed.
End Numbers.

(** ** Concrete columns and rows, for the witnesses *)

Module RowsDemo.
(** A decimal is written as the bits of its coefficient and scale. *)
Definition text_of (d : rdec) : string := BitText.bits (encode (rcoef d, rscale d)).
Definition value_of (s : string) : option Q :=
  p ← BitText.of_bits s; r ← (decode p : option (Z * nat)); Some (rval (RD r.1 r.2)).

#[export] Instance columns : ColumnOps (D := RefDec) := {
  dec_String := text_of; parse_uuid s := Ok s; numeric s := Some s; timestamp t := t;
  marshal_time _ := Ok "a time"%string; text_value := value_of }.

Lemma value_of_text d : value_of (text_of d) = Some (rval d).
Proof. unfold value_of, text_of. rewrite BitText.of_bits_bits. simpl. rewrite decode_encode. by destruct d. Qed.

#[export] Instance columns_ok : ColumnLaws (D := RefDec).
Proof.
  constructor; [| done]. intros d t [= <-]. exists (rval d). split; [exact (value_of_text d) |]. unfold near.
  assert (rval d - dval (DecimalOps := RefDec) d == 0)%Q as -> by (simpl; ring). done.
Qed.

Definition trade (n : Z) (price : Z) : TradeRecordInsert (D := RefDec) :=
  {| tri_BacktestID := if n =? 2 then "b2" else "b1"; tri_Time := MkTime n 0; tri_BondID := ""; tri_Signal := "BUY"; tri_Price := RD price 2;
     tri_Quantity := dzero; tri_EntryBalance := dzero; tri_OrderSize := dzero; tri_Cash := dzero; tri_OpenPosition := dzero;
     tri_TradeID := uuid_nil; tri_Spread := dzero; tri_PositionSize := dzero; tri_ZScore := dzero; tri_CompressionRatio := dzero;
     tri_EntryATR := dzero |}.
(** A batch that is refused, and rows out of order. *)
Definition batches : list (bool * list (TradeRecordInsert (D := RefDec))) :=
  [(true, [trade 3 300; trade 2 200]); (false, [trade 4 400]); (true, [trade 1 100])].
Definition read_page (i : Z) : result (list Z) :=
  result_map (map (fun r => t_ns (tc_Time (tr_cols r)))) (listTradeRecords true "b1" i 1 (write_trades batches empty_table)).
Example pages_in_order : map read_page [1; 2; 3] = [Ok [1]; Ok [3]; Ok []].
Proof. vm_compute. reflexivity. Qed.
End RowsDemo.

Import RowsDemo.

Lemma recorded_trades_paged_witness :
  (length (trade_columns_of batches) = 3)%nat /\
  exists pages, length pages = 3%nat /\
    tr_cols <$> concat pages ≡ₚ List.filter (fun c => bool_decide (tc_BacktestID c = "b1"%string)) (trade_columns_of batches).
Proof.
  assert (length (trade_columns_of batches) = 3%nat) as E by (vm_compute; reflexivity). split; [exact E |].
  destruct (recorded_trades_paged batches [] "b1" 1 3) as [(pages & Hn & _ & _ & Hp) _].
  - split; discriminate.
  - discriminate.
  - rewrite E. apply le_n.
  - apply le_0_n.
  - exists pages. exact (conj Hn Hp).
Defined.

Lemma recorded_numbers_shown_witness : exists c j,
  store_trade (tradeRecordInsertRow (trade 1 100)) = Some c /\ tradeRecordToResponse "momentum" (MkTradeRow 7 c) = Ok j /\
  answers j (trade 1 100) (trade_members "momentum") /\ member "fast_ma" j = Some (JString "").
Proof.
  destruct (store_trade (tradeRecordInsertRow (trade 1 100))) as [c|] eqn:Ec; [| vm_compute in Ec; discriminate Ec].
  destruct (tradeRecordToResponse "momentum" (MkTradeRow 7 c)) as [j|] eqn:Ej; [| vm_compute in Ej; discriminate Ej].
  exists c, j. pose proof (proj1 (recorded_numbers_shown "momentum") _ _ _ _ Ec Ej) as Hs.
  split; [reflexivity |]. split; [exact Ej |]. split; [exact Hs |].
  vm_compute in Ec. injection Ec as <-. vm_compute in Ej. injection Ej as <-. vm_compute. reflexivity.
Defined.
