(* ===== verification/HttpBacktests.v ===== *)
(** * strategy/http: backtests

    The part of [handler.go] that creates, lists, shows, cancels and restores
    backtests, with [SaveBacktest], [LoadBacktests] and [LoadBacktestResult] of
    [backtest_store.go] and the goroutine that waits for a result.  A handler
    is a program of critical sections over the state of the server
    ([Concurrency]); the service and its backtests are [Service]'s, the rows of
    trades are [BacktestRows]'.  A [*BacktestDetail] is shared from the moment
    it is in [h.backtests], which never drops one, so the pointer is the id.

    The choices of a step are what the world decides: whether the database
    answers, what the DORA client says, the next UUID, the order of a map.
    The base context is taken not to end; the candle stores given to a strategy
    show only through its preflight and its result. *)

From S2P Require Import Prelude Decimal RefDecimal GoTime Stats Service Concurrency Secrets HttpAuth Json HttpDecisions HttpRuns BacktestRows GoStrings.
From Stdlib Require Import Ascii.

(** ** Data *)

(** The values of [BacktestSummary.Status] *)
Inductive BtStatus := BtRunning | BtCompleted | BtFailed | BtCancelled.

#[export] Instance BtStatus_eq_dec : EqDecision BtStatus.
Proof. solve_decision. Defined.
Definition status_text (s : BtStatus) : string :=
  match s with BtRunning => "running" | BtCompleted => "completed" | BtFailed => "failed" | BtCancelled => "cancelled" end.

Record AssetInfo := MkAsset { as_Name : string; as_Symbol : string }.

(** [BacktestDetail]; a result that is empty is [None]. *)
Record BacktestDetail := MkBacktestDetail {
  bd_ID : string; bd_DORAUserID : string; bd_StrategyType : string; bd_Status : BtStatus; bd_Config : json;
  bd_CreatedAt : Time; bd_CompletedAt : option Time; bd_Error : string; bd_Start : Time; bd_End : Time; bd_Result : option json;
}.

(** [BacktestSummary] with its asset. *)
Record BacktestSummary := MkBacktestSummary {
  bs_ID : string; bs_DORAUserID : string; bs_StrategyType : string; bs_Status : BtStatus; bs_Config : json;
  bs_Asset : AssetInfo; bs_CreatedAt : Time; bs_CompletedAt : option Time; bs_Error : string;
}.

Record BacktestResultSummary := MkResultSummary {
  rs_TotalPnL : string; rs_WinCount : Z; rs_LossCount : Z; rs_MaxDrawdown : string; rs_SharpeRatio : string;
  rs_StrategyType : string; rs_Status : BtStatus; rs_Config : json; rs_Asset : AssetInfo; rs_Error : string;
}.

Inductive BtEventType := EventBacktestStarted | EventBacktestCompleted | EventBacktestFailed.
Record BtEvent := MkBtEvent { be_Type : BtEventType; be_UserID : string; be_BacktestID : string; be_Payload : string }.

Section Backtests.
Context {D : DecimalOps} `{!ColumnOps}.

(** [types.BacktestResult]: an error, the results of the strategies, and a
    type the handler does not know. *)
Inductive BacktestResult :=
  | ErrorResult (err : string)
  | MeanReversionResult (s : Summary) | CopyTradingResult (s : Summary) | BreakoutResult (s : Summary) | MomentumResult (s : Summary)
  | UnknownResult (type : string).

Inductive BtResponse :=
  | BtError (code : Z) (message : string)
  | BtAccepted (d : BacktestDetail)
  | BtList (items : list BacktestSummary) (page limit : Z)
  | BtResult (r : BacktestResultSummary)
  | BtMetadata (s : BacktestSummary)
  | BtRows (j : json)
  | BtPanic.                       (* the handler panics, the connection is cut *)

(** The fields of [Handler] for backtests, the tables, the calls of the
    notifier, and the clock.  [s_results] is what the goroutines of the service
    have computed, [s_writers] the batching writers and whether they are closed;
    [s_owner] and [s_cancels] record history: the user an id was drawn for, and
    the cancellations that reached the service. *)
Record bserver := MkBServer {
  s_service : service;
  s_backtests : gmap string BacktestDetail;
  s_table : gmap string BacktestDetail;
  s_trades : table tradeRecordRow;
  s_closed : table closedTradeRow;
  s_orderbooks : gmap string string;      (* the base asset of a book *)
  s_assets : gmap string AssetInfo;
  s_results : gmap nat BacktestResult;
  s_writers : gmap string bool;
  s_events : list BtEvent;
  s_now : Time;
  s_owner : gmap string string;
  s_cancels : list (string * string);
  s_responses : list (nat * BtResponse);
}.

Definition NewBServer : bserver := MkBServer NewService ∅ ∅ empty_table empty_table ∅ ∅ ∅ ∅ [] zero_time ∅ [] [].

Definition set_service v s := MkBServer v (s_backtests s) (s_table s) (s_trades s) (s_closed s) (s_orderbooks s) (s_assets s) (s_results s) (s_writers s) (s_events s) (s_now s) (s_owner s) (s_cancels s) (s_responses s).
Definition set_backtests v s := MkBServer (s_service s) v (s_table s) (s_trades s) (s_closed s) (s_orderbooks s) (s_assets s) (s_results s) (s_writers s) (s_events s) (s_now s) (s_owner s) (s_cancels s) (s_responses s).
Definition set_table v s := MkBServer (s_service s) (s_backtests s) v (s_trades s) (s_closed s) (s_orderbooks s) (s_assets s) (s_results s) (s_writers s) (s_events s) (s_now s) (s_owner s) (s_cancels s) (s_responses s).
Definition set_rows t c s := MkBServer (s_service s) (s_backtests s) (s_table s) t c (s_orderbooks s) (s_assets s) (s_results s) (s_writers s) (s_events s) (s_now s) (s_owner s) (s_cancels s) (s_responses s).
Definition set_caches o a s := MkBServer (s_service s) (s_backtests s) (s_table s) (s_trades s) (s_closed s) o a (s_results s) (s_writers s) (s_events s) (s_now s) (s_owner s) (s_cancels s) (s_responses s).
Definition set_results v s := MkBServer (s_service s) (s_backtests s) (s_table s) (s_trades s) (s_closed s) (s_orderbooks s) (s_assets s) v (s_writers s) (s_events s) (s_now s) (s_owner s) (s_cancels s) (s_responses s).
Definition set_writers v s := MkBServer (s_service s) (s_backtests s) (s_table s) (s_trades s) (s_closed s) (s_orderbooks s) (s_assets s) (s_results s) v (s_events s) (s_now s) (s_owner s) (s_cancels s) (s_responses s).
Definition set_events v s := MkBServer (s_service s) (s_backtests s) (s_table s) (s_trades s) (s_closed s) (s_orderbooks s) (s_assets s) (s_results s) (s_writers s) v (s_now s) (s_owner s) (s_cancels s) (s_responses s).
Definition set_now v s := MkBServer (s_service s) (s_backtests s) (s_table s) (s_trades s) (s_closed s) (s_orderbooks s) (s_assets s) (s_results s) (s_writers s) (s_events s) v (s_owner s) (s_cancels s) (s_responses s).
Definition set_owner v s := MkBServer (s_service s) (s_backtests s) (s_table s) (s_trades s) (s_closed s) (s_orderbooks s) (s_assets s) (s_results s) (s_writers s) (s_events s) (s_now s) v (s_cancels s) (s_responses s).
Definition set_cancels v s := MkBServer (s_service s) (s_backtests s) (s_table s) (s_trades s) (s_closed s) (s_orderbooks s) (s_assets s) (s_results s) (s_writers s) (s_events s) (s_now s) (s_owner s) v (s_responses s).
Definition set_responses v s := MkBServer (s_service s) (s_backtests s) (s_table s) (s_trades s) (s_closed s) (s_orderbooks s) (s_assets s) (s_results s) (s_writers s) (s_events s) (s_now s) (s_owner s) (s_cancels s) v.

Definition update_backtest (id : string) (f : BacktestDetail -> BacktestDetail) (s : bserver) : bserver :=
  set_backtests (alter f id (s_backtests s)) s.

(** [detail.Status = ...] with the time, the error and the result. *)
Definition finish (st : BtStatus) (now : Time) (err : string) (res : option json) (d : BacktestDetail) : BacktestDetail :=
  MkBacktestDetail (bd_ID d) (bd_DORAUserID d) (bd_StrategyType d) st (bd_Config d) (bd_CreatedAt d) (Some now) err (bd_Start d) (bd_End d) res.
Definition set_result (res : option json) (d : BacktestDetail) : BacktestDetail :=
  MkBacktestDetail (bd_ID d) (bd_DORAUserID d) (bd_StrategyType d) (bd_Status d) (bd_Config d) (bd_CreatedAt d) (bd_CompletedAt d) (bd_Error d) (bd_Start d) (bd_End d) res.

(** The row of a detail: its times go through TIMESTAMP columns.  The jsonb
    columns are taken to give back what was stored. *)
Definition stored (d : BacktestDetail) : BacktestDetail :=
  MkBacktestDetail (bd_ID d) (bd_DORAUserID d) (bd_StrategyType d) (bd_Status d) (bd_Config d) (timestamp (bd_CreatedAt d))
    (timestamp <$> bd_CompletedAt d) (bd_Error d) (timestamp (bd_Start d)) (timestamp (bd_End d)) (bd_Result d).

(** ** What the world decides in a step *)
Record BChoice := MkBChoice {
  bc_ok : bool;                                     (* the database answers *)
  bc_uuid : string;                                 (* [uuid.NewV7] *)
  bc_preflight : option bool;                       (* the preflight fails; for want of candles *)
  bc_books : result (list (string * string));       (* [ListOrderBooks]: book and base asset *)
  bc_asset : string -> result AssetInfo;            (* [GetAssetByID] *)
  bc_order : list string;                           (* the order in which a map is ranged over *)
}.
Notation bprog := (prog bserver BChoice).

(** ** Helpers *)
Section Handlers.
Variable w : Wiring.
Variable backtestStore : bool.

(** [json.Unmarshal] with its error dropped: what does not fit is left out. *)
Definition lenient {A} (set : json -> result A -> result A) (zero : A) (name : string) (j : json) : A :=
  match j with
  | JObject ms => foldl (fun cur m => if same_name name m.1 then or_zero cur (set m.2 (Ok cur)) else cur) zero ms
  | _ => zero
  end.

Definition resolveOrderbookAsset (book : string) : bprog (result AssetInfo) :=
  cached ← read (fun s => s_assets s !! book);
  match cached with
  | Some info => Ret (Ok info)
  | None =>
      books ← choose bc_books;
      match books with
      | Err e => Ret (Err (ErrWrap "list order books" e))
      | Ok books =>
          _ ← update (fun s => set_caches (foldl (fun m b => <[b.1 := b.2]> m) (s_orderbooks s) books) (s_assets s) s);
          ob ← read (fun s => s_orderbooks s !! book);
          match ob with
          | None => Ret (Err (ErrMsg "order book not found"))
          | Some base =>
              asset ← choose (fun c => bc_asset c base);
              match asset with
              | Err e => Ret (Err (ErrWrap "get asset by id" e))
              | Ok a => _ ← update (fun s => set_caches (s_orderbooks s) (<[book := a]> (s_assets s)) s); Ret (Ok a)
              end
          end
      end
  end.

Definition no_asset : AssetInfo := MkAsset "" "".

(** The asset of a configuration; an error is only logged. *)
Definition configAsset (config : json) : bprog AssetInfo :=
  let book := lenient set_string ""%string "order_book_id" config in
  if bool_decide (book = ""%string) then Ret no_asset
  else a ← resolveOrderbookAsset book; Ret (or_zero no_asset a).

Definition toSummary (d : BacktestDetail) : bprog BacktestSummary :=
  a ← configAsset (bd_Config d);
  Ret (MkBacktestSummary (bd_ID d) (bd_DORAUserID d) (bd_StrategyType d) (bd_Status d) (bd_Config d) a (bd_CreatedAt d) (bd_CompletedAt d) (bd_Error d)).

Definition summaryResult (d : BacktestDetail) : bprog BacktestResultSummary :=
  let r := default JNull (bd_Result d) in
  let str name := lenient set_string ""%string name r in
  let int name := lenient (set_int int64_min int64_max) 0 name r in
  a ← configAsset (bd_Config d);
  Ret (MkResultSummary (str "total_pnl"%string) (int "win_count"%string) (int "loss_count"%string) (str "max_drawdown"%string)
         (str "sharpe_ratio"%string) (bd_StrategyType d) (bd_Status d) (bd_Config d) a (bd_Error d)).

(** [publishEvent] *)
Definition publish (e : BtEventType) (user id payload : string) (s : bserver) : bserver :=
  if w_notifier w && negb (bool_decide (user = ""%string)) then set_events (s_events s ++ [MkBtEvent e user id payload]) s else s.
Definition publishEvent (e : BtEventType) (user id payload : string) : bprog unit := update (publish e user id payload).

(** [saveBacktest] and [SaveBacktest]: the shared detail is read without the
    mutex, first its result, then in the order of the arguments its status, the
    time it ended and its error (the other fields never change), and the row is
    inserted or overwritten with what was read. *)
Definition with_outcome (st : BtStatus) (completed : option Time) (err : string) (d : BacktestDetail) : BacktestDetail :=
  MkBacktestDetail (bd_ID d) (bd_DORAUserID d) (bd_StrategyType d) st (bd_Config d) (bd_CreatedAt d) completed err (bd_Start d) (bd_End d) (bd_Result d).
Definition saveBacktest (id : string) : bprog (result unit) :=
  if negb backtestStore then Ret (Ok tt)
  else
    d ← read (fun s => s_backtests s !! id);
    match d with
    | None => Ret (Ok tt)
    | Some d =>
        let now_of {A} (f : BacktestDetail -> A) (s : bserver) := f (default d (s_backtests s !! id)) in
        status ← read (now_of bd_Status);
        completed ← read (now_of bd_CompletedAt);
        err ← read (now_of bd_Error);
        let row := stored (with_outcome status completed err d) in
        atomic (fun c s => if bc_ok c then (set_table (<[bd_ID d := row]> (s_table s)) s, Ok tt) else (s, Err (ErrMsg "save strategy backtest")))
    end.

(** [LoadBacktestResult] *)
Definition LoadBacktestResult (ok : bool) (id : string) (s : bserver) : result (option json) :=
  if negb ok then Err (ErrMsg "query strategy backtest result")
  else match s_table s !! id with Some d => Ok (bd_Result d) | None => Err (ErrMsg "no rows in result set") end.

(** The JSON of a result that is kept; writing strings and integers does not
    fail. *)
Definition newBacktestResult (s : Summary) : result json := Ok (summary_json s).
Definition newCopyTradingBacktestResult (s : Summary) : result json := Ok (summary_json s).
Definition newBreakoutBacktestResult (s : Summary) : result json := Ok (summary_json s).
Definition newMomentumBacktestResult (s : Summary) : result json := Ok (summary_json s).

(** [injectCandleStores] and [backtestResolvesAssetIDs] by the type of the
    strategy; the same ones have a preflight. *)
Definition backtestResolvesAssetIDs (st : Strat) : bool :=
  match st_kind st with KMeanReversion | KMomentum | KBreakout => true | _ => false end.
Definition hasPreflight (st : Strat) : bool :=
  match st_kind st with KMeanReversion | KMomentum | KBreakout => true | _ => false end.

(** ** The result *)

(** What a result makes of the detail, and the event: the error or nothing. *)
Definition judge (r : BacktestResult) : BtStatus * string * option json :=
  let kept j := match j with Ok j => (BtCompleted, ""%string, Some j) | Err e => (BtFailed, "marshal"%string, None) end in
  match r with
  | ErrorResult e => (BtFailed, e, None)
  | MeanReversionResult s => kept (newBacktestResult s)
  | CopyTradingResult s => kept (newCopyTradingBacktestResult s)
  | BreakoutResult s => kept (newBreakoutBacktestResult s)
  | MomentumResult s => kept (newMomentumBacktestResult s)
  | UnknownResult t => (BtFailed, ("unknown backtest result type " +:+ t)%string, None)
  end.
(** A completed backtest keeps the error it had, one that failed the result. *)
Definition settled (now : Time) (r : BacktestResult) (d : BacktestDetail) : BacktestDetail :=
  let '(st, err, res) := judge r in
  match st with
  | BtCompleted => finish st now (bd_Error d) res d
  | _ => finish st now err (bd_Result d) d
  end.
Definition settle (id : string) (now : Time) (r : BacktestResult) (s : bserver) : bserver * option (BtEventType * string * string) :=
  match s_backtests s !! id with
  | None => (s, None)
  | Some d =>
      if bool_decide (bd_Status d = BtCancelled) then (s, None)
      else
        let '(st, err, res) := judge r in
        (set_backtests (<[id := settled now r d]> (s_backtests s)) s,
         Some (match st with BtCompleted => (EventBacktestCompleted, bd_DORAUserID d, bd_StrategyType d) | _ => (EventBacktestFailed, bd_DORAUserID d, err) end))
  end.

(** The receive of the unbuffered channel. *)
Definition receiveResult (n : nat) : bprog BacktestResult :=
  Atom (fun _ s => match move_bt BtSending BtSent n (s_service s), s_results s !! n with
                   | Some sv, Some r => Some (set_service sv s, Ret r)
                   | _, _ => None
                   end).

Definition awaitBacktestResult (n : nat) (id : string) : bprog unit :=
  result ← receiveResult n;
  now ← read s_now;
  e ← atomic (fun _ => settle id (time_utc now) result);
  match e with
  | None => Ret tt
  | Some (evt, user, payload) =>
      _ ← saveBacktest id;
      _ ← publishEvent evt user id payload;
      if backtestStore then update (fun s => set_writers (<[id := true]> (s_writers s)) s) else Ret tt
  end.

(** ** Requests *)

Definition bt_internal (context : string) : BtResponse := BtError StatusInternalServerError context.

(** A new id, never drawn before, and its batching writer. *)
Definition drawBacktest (user : string) : bprog string :=
  Atom (fun c s => match s_owner s !! bc_uuid c with
                   | Some _ => None
                   | None => let s := set_owner (<[bc_uuid c := user]> (s_owner s)) s in
                             Some (if backtestStore then set_writers (<[bc_uuid c := false]> (s_writers s)) s else s, Ret (bc_uuid c))
                   end).

(** From the launched backtest to the response. *)
Definition publishBacktest (ctx : Context) (id : string) (n : nat) (d : BacktestDetail) : bprog BtResponse :=
  _ ← update (fun s => set_backtests (<[id := d]> (s_backtests s)) s);
  saved ← saveBacktest id;
  match saved with
  | Err _ => Ret (bt_internal "save backtest")
  | Ok _ =>
      _ ← match doraUserIDFromContext ctx with Some u => publishEvent EventBacktestStarted u id (bd_StrategyType d) | None => Ret tt end;
      _ ← go (awaitBacktestResult n id);
      read (fun s => BtAccepted (default d (s_backtests s !! id)))
  end.

(** The body: the type, the configuration, the start and the end. *)
Record CreateBacktestRequest := MkCreateBacktest { cb_StrategyType : string; cb_Config : json; cb_Start : Time; cb_End : Time }.

Definition createBacktest (ctx : Context) (body : result CreateBacktestRequest) : bprog BtResponse :=
  match body with
  | Err _ => Ret (BtError StatusBadRequest "invalid JSON body")
  | Ok req =>
      id ← drawBacktest (or_zero ""%string (resolveDORAUserID w ctx));
      match resolveStrategy w (cb_StrategyType req) (cb_Config req) capabilityBacktest with
      | inr (code, _) => Ret (BtError code "resolve strategy")
      | inl (def, cfg, strat) =>
          if time_is_zero (cb_Start req) || time_is_zero (cb_End req) then Ret (BtError StatusBadRequest "start and end are required")
          else match resolveDORAUserID w ctx with
          | Err _ => Ret (bt_internal "resolve dora user")
          | Ok user =>
              let strat := applyUserAPIKey strat (caller_key ctx) in
              if backtestResolvesAssetIDs strat && negb (canPlaceOrders strat) then Ret (BtError StatusBadRequest "requires a DORA API key")
              else
                refused ← (if hasPreflight strat then choose bc_preflight else Ret None);
                match refused with
                | Some true => Ret (BtError StatusBadRequest "no candle coverage")
                | Some false => Ret (bt_internal "preflight backtest")
                | None =>
                    n ← atomic (fun _ s => (set_service (RunBacktest id (s_service s)) s, length (bts (s_service s))));
                    now ← read s_now;
                    publishBacktest ctx id n
                      (MkBacktestDetail id user (def_Type def) BtRunning cfg (time_utc now) None "" (time_utc (cb_Start req)) (time_utc (cb_End req)) None)
                end
          end
      end
  end.

(** [filterAndSort] ranges over the map in any order and sorts with
    [sort.Slice], which is not stable: the details of the user, newest first, in
    one of the orders that may come out. *)
Definition newest_sorted (l : list BacktestDetail) : Prop := Sorted (fun a b => t_ns (bd_CreatedAt b) <= t_ns (bd_CreatedAt a)) l.
#[export] Instance newest_sorted_dec l : Decision (newest_sorted l).
Proof. unfold newest_sorted. apply _. Defined.
Definition filterAndSort (user : string) (order : list string) (m : gmap string BacktestDetail) : option (list BacktestDetail) :=
  let own := filter (fun p => bd_DORAUserID p.2 = user) m in
  let ds := omap (fun id => own !! id) order in
  if bool_decide (NoDup order /\ list_to_set order = dom own /\ newest_sorted ds) then Some ds else None.

Fixpoint summaries (ds : list BacktestDetail) : bprog (list BacktestSummary) :=
  match ds with
  | [] => Ret []
  | d :: rest => s ← toSummary d; l ← summaries rest; Ret (s :: l)
  end.

Definition matches (statuses : list string) (from to : Time) (s : BacktestSummary) : bool :=
  (bool_decide (statuses = []) || bool_decide (status_text (bs_Status s) ∈ statuses)) &&
  (time_is_zero from || negb (time_before (bs_CreatedAt s) from)) && (time_is_zero to || time_before (bs_CreatedAt s) to).

(** [items[start:end]]: [None] is the panic of a slice expression. *)
Definition slice {A} (a b : Z) (l : list A) : option (list A) :=
  if (0 <=? a) && (a <=? b) && (b <=? Z.of_nat (length l)) then Some (take (Z.to_nat (b - a)) (drop (Z.to_nat a) l)) else None.
Definition page_of {A} (page limit : Z) (items : list A) : option (list A) :=
  let total := Z.of_nat (length items) in
  let start := Z.min (wrap64 ((page - 1) * limit)) total in
  slice start (Z.min (wrap64 (start + limit)) total) items.

Section Dates.
Context (parse_rfc3339 parse_date : string -> option Time).
Definition listBacktests (ctx : Context) (q : Query) : bprog BtResponse :=
  match resolveDORAUserID w ctx with
  | Err _ => Ret (bt_internal "resolve dora user")
  | Ok user =>
      let statuses := parseStatusFilter q in
      let '(from, to) := parseDateFilter parse_rfc3339 parse_date q in
      let '(page, limit) := parsePagination q in
      ds ← await (fun c s => filterAndSort user (bc_order c) (s_backtests s));
      items ← summaries ds;
      Ret (match page_of page limit (List.filter (matches statuses from to) items) with
           | Some l => BtList l page limit
           | None => BtPanic
           end)
  end.
End Dates.

(** [getBacktestTrades], [getBacktestClosedTrades]: the method value of a
    store that is nil panics. *)
Definition getBacktestSubResource (fetch : bool -> string -> string -> Z -> Z -> bserver -> result json) (ctx : Context) (id : string) (q : Query) : bprog BtResponse :=
  if negb backtestStore then Ret BtPanic else
  match resolveDORAUserID w ctx with
  | Err _ => Ret (bt_internal "resolve dora user")
  | Ok user =>
      d ← read (fun s => s_backtests s !! id);
      match d with
      | Some d =>
          if bool_decide (bd_DORAUserID d = user) then
            let '(page, limit) := parsePagination q in
            raw ← atomic (fun c s => (s, fetch (bc_ok c) id (bd_StrategyType d) page limit s));
            Ret (match raw with Ok j => BtRows j | Err _ => bt_internal "get backtest rows" end)
          else Ret (BtError StatusNotFound "backtest not found")
      | None => Ret (BtError StatusNotFound "backtest not found")
      end
  end.
Definition getBacktestTrades := getBacktestSubResource (fun ok id ty page limit s => GetBacktestTrades ok id ty page limit (s_trades s)).
Definition getBacktestClosedTrades := getBacktestSubResource (fun ok id ty page limit s => GetBacktestClosedTrades ok id ty page limit (s_closed s)).

(** The checks of the handlers of one backtest: its detail as it is then. *)
Definition withOwnBacktest (ctx : Context) (id : string) (k : BacktestDetail -> bprog BtResponse) : bprog BtResponse :=
  match resolveDORAUserID w ctx with
  | Err _ => Ret (bt_internal "resolve dora user")
  | Ok user =>
      d ← read (fun s => s_backtests s !! id);
      match d with
      | None => Ret (BtError StatusNotFound "backtest not found")
      | Some d => if bool_decide (bd_DORAUserID d = user) then k d else Ret (BtError StatusForbidden "access denied")
      end
  end.

Definition getBacktest (ctx : Context) (id : string) : bprog BtResponse :=
  withOwnBacktest ctx id (fun d =>
    d ← (if bool_decide (bd_Status d = BtCompleted) && bool_decide (bd_Result d = None) && backtestStore then
           r ← atomic (fun c s => (s, LoadBacktestResult (bc_ok c) id s));
           match r with
           | Ok res => _ ← update (update_backtest id (set_result res)); Ret (set_result res d)
           | Err _ => Ret d
           end
         else Ret d);
    r ← summaryResult d;
    Ret (BtResult r)).

Definition getBacktestMetadata (ctx : Context) (id : string) : bprog BtResponse :=
  withOwnBacktest ctx id (fun d => s ← toSummary d; Ret (BtMetadata s)).

Definition is_backtest_not_found (e : error) : bool :=
  match e with ErrMsg m => bool_decide (m = "backtest not found"%string) | ErrWrap _ _ => false end.

(** [StopBacktest]; the cancellation is noted. *)
Definition stopBacktest (id user : string) (s : bserver) : bserver * result unit :=
  match StopBacktest id (s_service s) with
  | (Ok _, sv) => (set_cancels (s_cancels s ++ [(id, user)]) (set_service sv s), Ok tt)
  | (Err e, _) => (s, Err e)
  end.

Definition cancelBacktest (ctx : Context) (id : string) : bprog BtResponse :=
  match resolveDORAUserID w ctx with
  | Err _ => Ret (bt_internal "resolve dora user")
  | Ok user =>
      d ← read (fun s => s_backtests s !! id);
      match d with
      | None => Ret (BtError StatusNotFound "backtest not found")
      | Some d =>
          if negb (bool_decide (bd_DORAUserID d = user)) then Ret (BtError StatusNotFound "backtest not found")
          else
            stopped ← atomic (fun _ => stopBacktest id user);
            match stopped with
            | Err e => Ret (if is_backtest_not_found e then BtError StatusNotFound "backtest not found" else bt_internal "stop backtest")
            | Ok _ =>
                now ← read s_now;
                _ ← update (update_backtest id (fun d => finish BtCancelled (time_utc now) "backtest cancelled" (bd_Result d) d));
                saved ← saveBacktest id;
                match saved with
                | Err _ => Ret (bt_internal "save backtest")
                | Ok _ => _ ← publishEvent EventBacktestFailed user id "cancelled"; getBacktestMetadata ctx id
                end
            end
      end
  end.

(** [LoadBacktests] does not read the results. *)
Definition RestoreBacktests (ok : bool) (s : bserver) : bserver * result unit :=
  if negb backtestStore then (s, Ok tt)
  else if negb ok then (s, Err (ErrWrap "load backtests" (ErrMsg "query strategy backtests")))
  else (set_backtests ((set_result None <$> s_table s) ∪ s_backtests s) s, Ok tt).

(** ** The server as a system *)

Inductive BtOp :=
  | OpCreateBacktest (body : result CreateBacktestRequest)
  | OpListBacktests (q : Query)
  | OpGetBacktest (id : string)
  | OpMetadata (id : string)
  | OpTrades (id : string) (q : Query)
  | OpClosedTrades (id : string) (q : Query)
  | OpCancelBacktest (id : string).

Context (parse_rfc3339 parse_date : string -> option Time).
Definition perform (ctx : Context) (o : BtOp) : bprog BtResponse :=
  match o with
  | OpCreateBacktest body => createBacktest ctx body
  | OpListBacktests q => listBacktests parse_rfc3339 parse_date ctx q
  | OpGetBacktest id => getBacktest ctx id
  | OpMetadata id => getBacktestMetadata ctx id
  | OpTrades id q => getBacktestTrades ctx id q
  | OpClosedTrades id q => getBacktestClosedTrades ctx id q
  | OpCancelBacktest id => cancelBacktest ctx id
  end.

(** [handleBacktests] and [handleBacktestByID]: the operation a request asks
    for, or the error it gets.  A decoded body comes with the request. *)
Definition not_allowed : BtOp + BtResponse := inr (BtError StatusMethodNotAllowed "method not allowed").
Definition no_resource : BtOp + BtResponse := inr (BtError StatusNotFound "resource not found").
Definition handleBacktests (method : string) (q : Query) (body : result CreateBacktestRequest) : BtOp + BtResponse :=
  if bool_decide (method = "POST"%string) then inl (OpCreateBacktest body)
  else if bool_decide (method = "GET"%string) then inl (OpListBacktests q)
  else not_allowed.
Definition only_get (method : string) (o : BtOp) : BtOp + BtResponse := if bool_decide (method = "GET"%string) then inl o else not_allowed.
Definition handleBacktestByID (method path : string) (q : Query) : BtOp + BtResponse :=
  let rest := TrimPrefix path "/v1/backtests/" in
  if bool_decide (rest = path) || bool_decide (rest = ""%string) then no_resource
  else
    let parts := Split "/"%char rest in
    match parse_uuid (default ""%string (head parts)) with
    | Err _ => inr (BtError StatusBadRequest "invalid id")
    | Ok id =>
        match parts with
        | [_] =>
            if bool_decide (method = "GET"%string) then inl (OpGetBacktest id)
            else if bool_decide (method = "DELETE"%string) then inl (OpCancelBacktest id)
            else not_allowed
        | [_; sub] =>
            if bool_decide (sub = "trades"%string) then only_get method (OpTrades id q)
            else if bool_decide (sub = "closed-trades"%string) then only_get method (OpClosedTrades id q)
            else if bool_decide (sub = "metadata"%string) then only_get method (OpMetadata id)
            else no_resource
        | _ => no_resource
        end
    end.

(** A numbered request, on behalf of its user; the patterns of the mux. *)
Record BtRequest := MkBtRequest {
  rq_n : nat; rq_ctx : Context; rq_method : string; rq_path : string; rq_query : Query; rq_body : result CreateBacktestRequest }.
Definition route (r : BtRequest) : BtOp + BtResponse :=
  if bool_decide (rq_path r = "/v1/backtests"%string) then handleBacktests (rq_method r) (rq_query r) (rq_body r)
  else if HasPrefix (rq_path r) "/v1/backtests/" then handleBacktestByID (rq_method r) (rq_path r) (rq_query r)
  else inr (BtError StatusNotFound "404 page not found").
Definition handle (r : BtRequest) : bprog BtResponse :=
  match route r with inl o => perform (rq_ctx r) o | inr resp => Ret resp end.
Definition serve (r : BtRequest) : thread bserver BChoice (option string) :=
  MkThread (principal w (rq_ctx r))
    (resp ← handle r; update (fun s => set_responses (s_responses s ++ [(rq_n r, resp)]) s)).

(** What happens besides the handlers: a backtest returns its result inside
    the service, a goroutine of the service ends, rows are written, the clock. *)
Inductive BtWorld :=
  | EvResult (n : nat) (r : BacktestResult)
  | EvFinish (n : nat)
  | EvTradeRows (ok : bool) (recs : list TradeRecordInsert)
  | EvClosedRows (ok : bool) (recs : list ClosedTradeInsert)
  | EvClock (t : Time).
Definition world (e : BtWorld) (s : bserver) : option bserver :=
  match e with
  | EvResult n r => sv ← move_bt BtWorking BtSending n (s_service s); Some (set_results (<[n := r]> (s_results s)) (set_service sv s))
  | EvFinish n => sv ← finish_bt n (s_service s); Some (set_service sv s)
  | EvTradeRows ok recs => Some (set_rows (WriteTradeRecordsBatch ok recs (s_trades s)).2 (s_closed s) s)
  | EvClosedRows ok recs => Some (set_rows (s_trades s) (WriteClosedTradesBatch ok recs (s_closed s)).2 s)
  | EvClock t => Some (set_now t s)
  end.
Definition bt_step := sys_step world serve.
Definition bt_run := sys_run world serve.
End Handlers.
End Backtests.
