(* ===== verification/BacktestOutcomes.v ===== *)
(** * What a backtest is reported with, and to whom it belongs

    Theory of [HttpBacktests] for a server that starts empty: in every
    interleaving of requests, waiting goroutines and database failures a
    backtest is reported completed only with the summary its strategy returned,
    failed only with the error it returned, and cancelled only when its owner
    asked for it; and what is done for one user leaves the backtests of the
    others alone. *)

From S2P Require Import Prelude Decimal RefDecimal GoTime Stats Service Concurrency Secrets HttpAuth Json HttpDecisions HttpRuns BacktestRows HttpBacktests.

Section Outcomes.
Context {D : DecimalOps} `{Columns : !ColumnOps}.
Variable w : Wiring.
Variable backtestStore : bool.

(** Goroutine [n] of the service runs the backtest; one of them has returned
    [r]. *)
Definition started (n : nat) (id : string) (s : bserver) : Prop := exists b, bts (s_service s) !! n = Some b /\ bt_id b = id.
Definition computed (id : string) (r : BacktestResult) (s : bserver) : Prop := exists n, started n id s /\ s_results s !! n = Some r.
Definition own (u id : string) (s : bserver) : Prop := s_owner s !! id = Some u.

(** An error text, and a status, that the backtest accounts for. *)
Definition text_ok (s : bserver) (id user err : string) : Prop :=
  err = ""%string \/ err = "backtest cancelled"%string /\ (id, user) ∈ s_cancels s \/
  exists r, computed id r s /\ judge r = (BtFailed, err, None).
Definition status_ok (s : bserver) (id user : string) (st : BtStatus) : Prop :=
  match st with
  | BtRunning => True
  | BtCompleted => exists r j, computed id r s /\ judge r = (BtCompleted, ""%string, Some j)
  | BtFailed => exists r err, computed id r s /\ judge r = (BtFailed, err, None)
  | BtCancelled => (id, user) ∈ s_cancels s
  end.

(** What a detail in memory says of its backtest. *)
Record outcome (s : bserver) (id : string) (d : BacktestDetail) : Prop := {
  oc_named : bd_ID d = id;
  oc_owned : own (bd_DORAUserID d) id s;
  oc_result : forall j, bd_Result d = Some j -> exists r, computed id r s /\ judge r = (BtCompleted, ""%string, Some j);
  oc_done : bd_Status d = BtCompleted -> is_Some (bd_Result d);
  oc_error : bd_Status d = BtFailed -> exists r, computed id r s /\ judge r = (BtFailed, bd_Error d, None);
  oc_asked : bd_Status d = BtCancelled -> (id, bd_DORAUserID d) ∈ s_cancels s;
  oc_text : text_ok s id (bd_DORAUserID d) (bd_Error d);
}.

(** A row: [saveBacktest] reads the detail field by field while others may
    change it, so each field is sound, but they may be of different moments. *)
Record row_outcome (s : bserver) (id : string) (d : BacktestDetail) : Prop := {
  ro_named : bd_ID d = id;
  ro_owned : own (bd_DORAUserID d) id s;
  ro_result : forall j, bd_Result d = Some j -> exists r, computed id r s /\ judge r = (BtCompleted, ""%string, Some j);
  ro_status : status_ok s id (bd_DORAUserID d) (bd_Status d);
  ro_text : text_ok s id (bd_DORAUserID d) (bd_Error d);
}.

Definition event_ok (s : bserver) (e : BtEvent) : Prop :=
  own (be_UserID e) (be_BacktestID e) s /\
  (be_Type e = EventBacktestCompleted -> exists r j, computed (be_BacktestID e) r s /\ judge r = (BtCompleted, ""%string, Some j)).

(** The registry of the service names goroutines of its backtests, and only
    those that have returned have a result. *)
Record registered (sv : service) (results : gmap nat BacktestResult) : Prop := {
  rg_known : forall id n, backtests sv !! id = Some n -> exists b, bts sv !! n = Some b /\ bt_id b = id;
  rg_results : forall n r, results !! n = Some r -> exists b, bts sv !! n = Some b /\ bt_pc b <> BtWorking;
}.

Record Inv (s : bserver) : Prop := {
  iv_memory : map_Forall (outcome s) (s_backtests s);
  iv_table : map_Forall (row_outcome s) (s_table s);
  iv_events : Forall (event_ok s) (s_events s);
  iv_service : registered (s_service s) (s_results s);
}.

(** What only grows. *)
Record Rely (s s' : bserver) : Prop := {
  rl_owner : s_owner s ⊆ s_owner s';
  rl_started : forall n id, started n id s -> started n id s';
  rl_results : s_results s ⊆ s_results s';
  rl_cancels : s_cancels s ⊆ s_cancels s';
}.

(** What a step leaves alone of backtest [id]. *)
Record same_backtest (id : string) (s s' : bserver) : Prop := {
  sb_detail : s_backtests s' !! id = s_backtests s !! id;
  sb_row : s_table s' !! id = s_table s !! id;
  sb_service : backtests (s_service s') !! id = backtests (s_service s) !! id;
  sb_cancelled : forall n b b', bts (s_service s) !! n = Some b -> bt_id b = id -> bts (s_service s') !! n = Some b' -> bt_cancelled b' = bt_cancelled b;
  sb_events : List.filter (fun e => bool_decide (be_BacktestID e = id)) (s_events s') = List.filter (fun e => bool_decide (be_BacktestID e = id)) (s_events s);
}.

Definition foreign (u id : string) (s : bserver) : Prop := exists o, s_owner s !! id = Some o /\ o <> u.
Definition Guar (t : option string) (s s' : bserver) : Prop :=
  Rely s s' /\ forall u id, t = Some u -> foreign u id s -> same_backtest id s s'.

Notation bsafe := (safe (Ch := BChoice) Inv Guar Rely).
Notation bstable := (stable Inv Rely).

Lemma bq_rely_refl s : Rely s s.
Proof. by split. Qed.
Lemma bq_same_refl id s : same_backtest id s s.
Proof. split; try done. intros n b b' H1 _ H2. congruence. Qed.
#[local] Hint Resolve bq_rely_refl bq_same_refl : verif.

Lemma bq_computed_mono s s' id r : Rely s s' -> computed id r s -> computed id r s'.
Proof. intros HR (n & Hn & Hr). exists n. split; [by apply HR | by eapply lookup_weaken; [| apply HR]]. Qed.
Lemma bq_own_mono s s' u id : Rely s s' -> own u id s -> own u id s'.
Proof. intros HR. unfold own. intros H. eapply lookup_weaken; [exact H | apply HR]. Qed.
Lemma bq_text_mono s s' id u err : Rely s s' -> text_ok s id u err -> text_ok s' id u err.
Proof.
  intros HR [H|[[H1 H2]|(r & Hr & Hk)]]; [by left | right; left; split; [done | by apply HR] |].
  right. right. exists r. split; [by eapply bq_computed_mono | done].
Qed.
Lemma bq_status_mono s s' id u st : Rely s s' -> status_ok s id u st -> status_ok s' id u st.
Proof.
  intros HR. destruct st; simpl; [done | | | apply HR]; intros (r & x & Hr & Hk); exists r, x; (split; [by eapply bq_computed_mono | done]).
Qed.
Lemma bq_outcome_status s id d : outcome s id d -> status_ok s id (bd_DORAUserID d) (bd_Status d).
Proof.
  intros [A B C E F G T]. destruct (bd_Status d) eqn:Es; simpl; [done | | | by apply G].
  - destruct (E eq_refl) as [j Hj]. destruct (C j Hj) as (r & Hr & Hk). by exists r, j.
  - destruct (F eq_refl) as (r & Hr & Hk). by exists r, (bd_Error d).
Qed.
Lemma bq_outcome_mono s s' id d : Rely s s' -> outcome s id d -> outcome s' id d.
Proof.
  intros HR [A B C E F G T]. split; [done | by eapply bq_own_mono | | done | | | by eapply bq_text_mono].
  - intros j Hj. destruct (C j Hj) as (r & Hr & Hk). exists r. split; [by eapply bq_computed_mono | done].
  - intros Hs. destruct (F Hs) as (r & Hr & Hk). exists r. split; [by eapply bq_computed_mono | done].
  - intros Hs. by apply HR, G.
Qed.
Lemma bq_row_mono s s' id d : Rely s s' -> row_outcome s id d -> row_outcome s' id d.
Proof.
  intros HR [A B C E F]. split; [done | by eapply bq_own_mono | | by eapply bq_status_mono | by eapply bq_text_mono].
  intros j Hj. destruct (C j Hj) as (r & Hr & Hk). exists r. split; [by eapply bq_computed_mono | done].
Qed.
Lemma bq_event_mono s s' e : Rely s s' -> event_ok s e -> event_ok s' e.
Proof.
  intros HR [A B]. split; [by eapply bq_own_mono |]. intros He. destruct (B He) as (r & j & Hr & Hj).
  exists r, j. split; [by eapply bq_computed_mono | done].
Qed.

(** The facts the goroutines hold. *)
Lemma bq_own_stable u id : bstable (own u id).
Proof. intros x s s' _ _. apply bq_own_mono. Qed.
Lemma bq_started_stable n id : bstable (started n id).
Proof. intros x s s' _ _ HR. apply HR. Qed.
Lemma bq_computed_stable id r : bstable (computed id r).
Proof. intros x s s' _ _. apply bq_computed_mono. Qed.
Lemma bq_outcome_stable id d : bstable (fun s => outcome s id d).
Proof. intros x s s' _ _. apply bq_outcome_mono. Qed.
Lemma bq_event_stable e : bstable (fun s => event_ok s e).
Proof. intros x s s' _ _. apply bq_event_mono. Qed.
Lemma bq_text_stable id u err : bstable (fun s => text_ok s id u err).
Proof. intros x s s' _ _. apply bq_text_mono. Qed.
Lemma bq_status_stable id u st : bstable (fun s => status_ok s id u st).
Proof. intros x s s' _ _. apply bq_status_mono. Qed.
Lemma bq_cancels_stable p : bstable (fun s => p ∈ s_cancels s).
Proof. intros x s s' _ _ HR. apply HR. Qed.
#[local] Hint Resolve bq_own_stable bq_started_stable bq_computed_stable bq_outcome_stable bq_event_stable bq_cancels_stable bq_text_stable bq_status_stable stable_const stable_and : verif.

(** ** Steps *)

(** The maps and the events may change by what is sound. *)
Lemma bq_inv s s' : Inv s -> Rely s s' ->
  (forall id d, s_backtests s' !! id = Some d -> s_backtests s !! id = Some d \/ outcome s' id d) ->
  (forall id d, s_table s' !! id = Some d -> s_table s !! id = Some d \/ row_outcome s' id d) ->
  (forall e, e ∈ s_events s' -> e ∈ s_events s \/ event_ok s' e) ->
  registered (s_service s') (s_results s') -> Inv s'.
Proof.
  intros [A B C E] HR H1 H2 H3 H4. split; [| | | exact H4].
  - intros id d Hd. destruct (H1 id d Hd) as [H|H]; [| done]. eapply bq_outcome_mono; [exact HR | by apply A].
  - intros id d Hd. destruct (H2 id d Hd) as [H|H]; [| done]. eapply bq_row_mono; [exact HR | by apply B].
  - apply Forall_forall. intros e He. destruct (H3 e He) as [H|H]; [| done]. eapply bq_event_mono; [exact HR |].
    by eapply Forall_forall in C; [| exact H].
Qed.

Lemma bq_bind {A B} t (p : prog bserver BChoice A) (k : A -> prog bserver BChoice B) P Q Q' :
  bsafe t p P Q -> (forall a, bsafe t (k a) (Q a) Q') -> bsafe t (p ≫= k) P Q'.
Proof. apply safe_bind. Qed.
Lemma bq_ret {A} t (a : A) P : bsafe t (Ret a) P (fun _ => P).
Proof. by intros x h _ Hh. Qed.
Lemma bq_end {A} t (a : A) P : bsafe t (Ret a) P (fun _ _ => True).
Proof. done. Qed.
Lemma bq_any {A} t (p : prog bserver BChoice A) P Q : bsafe t p P Q -> bsafe t p P (fun _ _ => True).
Proof. by apply safe_post. Qed.
Lemma bq_weaken {A} t (p : prog bserver BChoice A) (P P' : bserver -> Prop) Q : (forall s, P s -> P' s) -> bsafe t p P' Q -> bsafe t p P Q.
Proof. intros HP. apply safe_pre. auto. Qed.

(** The parts that matter are as they were. *)
Record quiet (s s' : bserver) : Prop := {
  qt_service : s_service s' = s_service s; qt_backtests : s_backtests s' = s_backtests s; qt_table : s_table s' = s_table s;
  qt_results : s_results s' = s_results s; qt_events : s_events s' = s_events s; qt_owner : s_owner s' = s_owner s;
  qt_cancels : s_cancels s' = s_cancels s;
}.
Lemma bq_quiet_rely s s' : quiet s s' -> Rely s s'.
Proof. intros [E1 _ _ E2 _ E3 E4]. split; rewrite ?E2, ?E3, ?E4; try done. intros n id. unfold started. by rewrite E1. Qed.
Lemma bq_quiet_inv s s' : quiet s s' -> Inv s -> Inv s'.
Proof.
  intros Q Is. pose proof (bq_quiet_rely _ _ Q) as HR. destruct Q as [E1 E2 E3 E4 E5 _ _].
  eapply bq_inv; [exact Is | exact HR | ..]; rewrite ?E1, ?E2, ?E3, ?E4, ?E5; auto. apply Is.
Qed.
Lemma bq_quiet_same s s' id : quiet s s' -> same_backtest id s s'.
Proof. intros [E1 E2 E3 E4 E5 _ _]. split; rewrite ?E1, ?E2, ?E3, ?E5; try done. intros n b b' H1 _ H2. congruence. Qed.

Lemma bq_quiet {A} t (f : BChoice -> bserver -> bserver * A) P : bstable P -> (forall c s, quiet s (f c s).1) -> bsafe t (atomic f) P (fun _ => P).
Proof.
  intros SP Hq. apply safe_atomic; [| auto]. intros c s Is Ps. pose proof (Hq c s) as Q. pose proof (bq_quiet_rely _ _ Q) as HR.
  pose proof (bq_quiet_inv _ _ Q Is) as Is'. split_and!; [done | split; [done |]; intros u id _ _; by apply bq_quiet_same | by apply (SP ∅ s)].
Qed.

Lemma bq_look {A} t (f : bserver -> A) P : bstable P -> bsafe t (read f) P (fun _ => P).
Proof. intros SP. by apply bq_quiet. Qed.
Lemma bq_choose {A} t (f : BChoice -> A) P : bstable P -> bsafe t (choose f) P (fun _ => P).
Proof. intros SP. by apply bq_quiet. Qed.
Lemma bq_await {A} t (f : BChoice -> bserver -> option A) P : bstable P -> bsafe t (await f) P (fun _ => P).
Proof. intros SP. apply safe_await; [| auto | auto]. intros s Is. split; auto with verif. Qed.
Lemma bq_read {A} t (f : bserver -> A) P (phi : A -> bserver -> Prop) : bstable P -> (forall a, bstable (phi a)) ->
  (forall s, Inv s -> P s -> phi (f s) s) -> bsafe t (read f) P (fun a s => P s /\ phi a s).
Proof.
  intros SP Sphi Hf. apply safe_atomic; [| auto with verif]. intros c s Is Ps. simpl. split_and!; [done | split; auto with verif | done | auto].
Qed.
Lemma bq_pure {A} t (p : prog bserver BChoice A) (P : bserver -> Prop) (X : Prop) Q : (X -> bsafe t p P Q) -> bsafe t p (fun s => P s /\ X) Q.
Proof. apply safe_pure. Qed.

(** *** The service *)

Lemma bq_registered_run id sv rs : registered sv rs -> registered (RunBacktest id sv) rs.
Proof.
  intros [A B]. split; simpl.
  - intros i n. destruct (decide (i = id)) as [->|Hne].
    + rewrite lookup_insert_eq. intros [= <-]. eexists. rewrite list_lookup_middle by done. by split.
    + rewrite lookup_insert_ne by done. intros (b & Hb & Hi)%A. exists b. split; [by apply lookup_app_l_Some | done].
  - intros n r (b & Hb & Hp)%B. exists b. split; [by apply lookup_app_l_Some | done].
Qed.

(** One goroutine replaced by one of the same backtest. *)
Lemma bq_registered_insert sv rs n b b' m : registered sv rs -> bts sv !! n = Some b -> bt_id b' = bt_id b ->
  (bt_pc b <> BtWorking -> bt_pc b' <> BtWorking) -> (forall id k, m !! id = Some k -> backtests sv !! id = Some k) ->
  registered (with_bts m (<[n := b']> (bts sv)) sv) rs.
Proof.
  intros [A B] Hb Hi Hp Hm. split; simpl.
  - intros id k (x & Hx & E)%Hm%A. destruct (decide (k = n)) as [->|Hne].
    + exists b'. rewrite list_lookup_insert_eq by by eapply lookup_lt_Some. split; [done | congruence].
    + exists x. by rewrite list_lookup_insert_ne.
  - intros k r (x & Hx & E)%B. destruct (decide (k = n)) as [->|Hne].
    + exists b'. rewrite list_lookup_insert_eq by by eapply lookup_lt_Some. split; [done |]. apply Hp. congruence.
    + exists x. by rewrite list_lookup_insert_ne.
Qed.

Lemma bq_started_insert s s' n b b' m : bts (s_service s) !! n = Some b -> bt_id b' = bt_id b ->
  s_service s' = with_bts m (<[n := b']> (bts (s_service s))) (s_service s) -> forall k id, started k id s -> started k id s'.
Proof.
  intros Hb Hi Es k id (x & Hx & E). unfold started. rewrite Es. simpl. destruct (decide (k = n)) as [->|Hne].
  - exists b'. rewrite list_lookup_insert_eq by by eapply lookup_lt_Some. split; [done | congruence].
  - exists x. by rewrite list_lookup_insert_ne.
Qed.

Lemma bq_move_bt from to n sv sv' : move_bt from to n sv = Some sv' -> exists b, bts sv !! n = Some b /\ bt_pc b = from /\
  sv' = with_bts (backtests sv) (<[n := MkBt (bt_id b) (bt_cancelled b) to]> (bts sv)) sv.
Proof.
  unfold move_bt. destruct (bts sv !! n) as [b|]; [| done]. destruct (bt_pc b) eqn:E, from; try done; intros [= <-]; by exists b.
Qed.
Lemma bq_stop_bt id sv rs n : registered sv rs -> backtests sv !! id = Some n -> exists b, bts sv !! n = Some b /\ bt_id b = id /\
  StopBacktest id sv = (Ok tt, with_bts (backtests sv) (<[n := MkBt (bt_id b) true (bt_pc b)]> (bts sv)) sv).
Proof.
  intros [A _] E. destruct (A id n E) as (b & Hb & Hi). exists b. split_and!; [done | done |]. unfold StopBacktest. rewrite E. do 2 f_equal.
  apply list_eq. intros k. destruct (decide (k = n)) as [->|Hne].
  - by rewrite list_lookup_alter_eq, list_lookup_insert_eq, Hb by by eapply lookup_lt_Some.
  - by rewrite list_lookup_alter_ne, list_lookup_insert_ne.
Qed.

(** *** Steps on one's own backtest *)

Definition acts_for (t : option string) (u : string) : Prop := t = Some u \/ t = None.

Lemma bq_own_step {A} t u id (f : BChoice -> bserver -> bserver * A) (P : bserver -> Prop) (Q : A -> bserver -> Prop) : acts_for t u ->
  (forall s, P s -> own u id s) -> (forall a, bstable (Q a)) ->
  (forall c s, Inv s -> P s -> let s' := (f c s).1 in
     Inv s' /\ Rely s s' /\ (forall i, i <> id -> same_backtest i s s') /\ Q (f c s).2 s') ->
  bsafe t (atomic f) P Q.
Proof.
  intros Ht Ho SQ Hf. apply safe_atomic; [| done]. intros c s Is Ps. destruct (Hf c s Is Ps) as (I' & HR & Hs & HQ).
  split_and!; [done | | done]. split; [done |]. intros u' i Hu (o & Hi & Hne). apply Hs. intros ->.
  pose proof (Ho s Ps) as H'. unfold own in H'. rewrite H' in Hi. injection Hi as <-. destruct Ht; congruence.
Qed.

Lemma bq_same_detail id i d s : i <> id -> same_backtest i s (set_backtests (<[id := d]> (s_backtests s)) s).
Proof. intros Hne. split; simpl; try done; [by rewrite lookup_insert_ne |]. intros n b b' H1 _ H2. congruence. Qed.
Lemma bq_same_row id i d s : i <> id -> same_backtest i s (set_table (<[id := d]> (s_table s)) s).
Proof. intros Hne. split; simpl; try done; [by rewrite lookup_insert_ne |]. intros n b b' H1 _ H2. congruence. Qed.
Lemma bq_same_event e i s : i <> be_BacktestID e -> same_backtest i s (set_events (s_events s ++ [e]) s).
Proof.
  intros Hne. split; simpl; try done; [intros n b b' H1 _ H2; congruence |]. rewrite List.filter_app. simpl.
  by rewrite bool_decide_eq_false_2, app_nil_r.
Qed.

(** A detail or a row is written. *)
Lemma bq_write_detail id d s : Inv s -> outcome s id d -> Inv (set_backtests (<[id := d]> (s_backtests s)) s).
Proof.
  intros Is Hd. eapply bq_inv; [exact Is | by split | | by left | by left | apply Is]. simpl. intros i x.
  rewrite lookup_insert_Some. intros [[<- <-]|[_ Hx]]; [right | by left]. eapply bq_outcome_mono; [| exact Hd]. by split.
Qed.
Lemma bq_write_row id d s : Inv s -> row_outcome s id d -> Inv (set_table (<[id := d]> (s_table s)) s).
Proof.
  intros Is Hd. eapply bq_inv; [exact Is | by split | by left | | by left | apply Is]. simpl. intros i x.
  rewrite lookup_insert_Some. intros [[<- <-]|[_ Hx]]; [right | by left]. eapply bq_row_mono; [| exact Hd]. by split.
Qed.
Lemma bq_stored s id st t err d : outcome s id d -> status_ok s id (bd_DORAUserID d) st -> text_ok s id (bd_DORAUserID d) err ->
  row_outcome s id (stored (with_outcome st t err d)).
Proof. by intros [A B C E F G T] Hs He. Qed.

Section Own.
Context (t : option string) (u id : string) (Ht : acts_for t u).

(** The detail of [id] as it is at some moment, and a field of it. *)
Lemma bq_field {A} (d : BacktestDetail) (f : BacktestDetail -> A) (phi : string -> A -> bserver -> Prop) P : bstable P ->
  (forall v a, bstable (phi v a)) -> (forall s x, outcome s id x -> phi (bd_DORAUserID x) (f x) s) ->
  bsafe t (read (fun s => f (default d (s_backtests s !! id)))) (fun s => P s /\ outcome s id d)
    (fun a s => (P s /\ outcome s id d) /\ phi (bd_DORAUserID d) a s).
Proof.
  intros SP Sphi Hphi. apply bq_read; [auto with verif | auto |]. intros s Is [Ps Hd].
  destruct (s_backtests s !! id) as [x|] eqn:E; simpl; [| by apply Hphi]. pose proof (iv_memory _ Is id x E) as Hx.
  pose proof (Hphi s x Hx) as H. pose proof (oc_owned _ _ _ Hx) as O1. pose proof (oc_owned _ _ _ Hd) as O2.
  unfold own in *. replace (bd_DORAUserID d) with (bd_DORAUserID x) by congruence. done.
Qed.

Lemma bq_save P : bstable P -> (forall s, P s -> own u id s) -> bsafe t (saveBacktest backtestStore id) P (fun _ => P).
Proof.
  intros SP Ho. unfold saveBacktest. destruct (negb _); [apply bq_ret |].
  eapply bq_bind; [apply (bq_read t _ P (fun d s => forall x, d = Some x -> outcome s id x)); [done | | ] |].
  - intros a y s s' Is Is' HR H1 x Hx. eapply bq_outcome_mono; [exact HR | auto].
  - intros s Is Ps x Hx. by apply (iv_memory _ Is).
  - intros [d|]; [| apply (bq_weaken _ _ _ P); [by intros s [? _] | apply bq_ret]].
    eapply bq_weaken with (P' := fun s => P s /\ outcome s id d); [intros s [Ps Hd]; auto |]. cbn zeta.
    eapply bq_bind; [apply (bq_field d bd_Status (fun v a s => status_ok s id v a)); [done | auto with verif | intros s x; apply bq_outcome_status] |]. intros st.
    set (P1 := fun s => P s /\ status_ok s id (bd_DORAUserID d) st). assert (bstable P1) as SP1 by (unfold P1; auto with verif).
    eapply bq_weaken with (P' := fun s => P1 s /\ outcome s id d); [intros s [[Ps Hd] Hs]; done |].
    eapply bq_bind; [apply bq_look; auto with verif |]. intros completed.
    eapply bq_bind; [apply (bq_field d bd_Error (fun v a s => text_ok s id v a)); [done | auto with verif | intros s x; apply oc_text] |]. intros err.
    apply (bq_own_step t u id); [done | intros s [[[Hs _] _] _]; auto | auto |]. intros c s Is [[[Ps Hst] Hd] He].
    destruct (bc_ok c); simpl; [| split_and!; auto with verif].
    pose proof (oc_named _ _ _ Hd) as E. rewrite E. set (row := stored _).
    assert (Rely s (set_table (<[id := row]> (s_table s)) s)) as HR by by split.
    pose proof (bq_write_row id row s Is (bq_stored _ _ st completed err _ Hd Hst He)) as I'.
    split_and!; [done | done | intros i Hi; by apply bq_same_row | by apply (SP ∅ s)].
Qed.

Lemma bq_publish e payload P : bstable P -> (forall s, P s -> own u id s) ->
  (e = EventBacktestCompleted -> forall s, P s -> exists r j, computed id r s /\ judge r = (BtCompleted, ""%string, Some j)) ->
  bsafe t (publishEvent w e u id payload) P (fun _ => P).
Proof.
  intros SP Ho He. apply (bq_own_step t u id); [done | done | auto |]. intros c s Is Ps. simpl. unfold publish.
  destruct (_ && _); [| split_and!; auto with verif]. set (ev := MkBtEvent e u id payload).
  assert (Rely s (set_events (s_events s ++ [ev]) s)) as HR by by split.
  assert (Inv (set_events (s_events s ++ [ev]) s)) as I'.
  { eapply bq_inv; [exact Is | exact HR | by left | by left | | apply Is]. simpl. intros x. rewrite elem_of_app, list_elem_of_singleton.
    intros [?| ->]; [by left | right]. split; [exact (Ho s Ps) |]. simpl. intros E. destruct (He E s Ps) as (r & j & Hr & Hj). by exists r, j. }
  split_and!; [done | done | intros i Hi; by apply bq_same_event | by apply (SP ∅ s)].
Qed.

(** ** The waiting goroutine *)

Lemma bq_receive n : bsafe t (receiveResult n) (fun s => own u id s /\ started n id s) (fun r s => own u id s /\ computed id r s).
Proof.
  apply safe_atom. intros c s Is [Ho Hn]. destruct (move_bt BtSending BtSent n (s_service s)) as [sv|] eqn:Em; [| done].
  destruct (s_results s !! n) as [r|] eqn:Er; [| done]. apply bq_move_bt in Em as (b & Hb & Hp & ->).
  set (b' := MkBt (bt_id b) (bt_cancelled b) BtSent). set (s' := set_service _ s).
  assert (Rely s s') as HR by (split; try done; by apply (bq_started_insert s s' n b b' (backtests (s_service s)))).
  split_and!.
  - eapply bq_inv; [exact Is | exact HR | by left | by left | by left |].
    apply (bq_registered_insert _ _ n b b'); [apply Is | done | done | done | done].
  - split; [exact HR |]. intros u' i _ _. split; try done. simpl. intros k x y Hx _ Hy. destruct (decide (k = n)) as [->|Hne].
    + rewrite list_lookup_insert_eq in Hy by by eapply lookup_lt_Some. injection Hy as <-. simpl. congruence.
    + rewrite list_lookup_insert_ne in Hy by done. congruence.
  - exists (fun s => own u id s /\ computed id r s). split; [auto with verif |]. split; [| by intros y z _ Hz].
    split; [done |]. exists n. split; [by eapply rl_started | done].
Qed.

Lemma bq_judge r : (exists j, judge r = (BtCompleted, ""%string, Some j)) \/ exists e, judge r = (BtFailed, e, None).
Proof. destruct r; eauto. Qed.

Lemma bq_settled s now r d : outcome s id d -> computed id r s -> bd_Status d <> BtCancelled -> outcome s id (settled now r d).
Proof.
  intros [A B C E F G T] Hr Hs. unfold settled. destruct (bq_judge r) as [(j & Hj)|(e & He)].
  - rewrite Hj. split; simpl; try done. intros j' [= <-]. by exists r.
  - rewrite He. split; simpl; try done; [intros _; by exists r |]. right. right. by exists r.
Qed.

(** The event that follows is of the owner, and sound. *)
Definition announced (e : option (BtEventType * string * string)) (s : bserver) : Prop :=
  forall evt user payload, e = Some (evt, user, payload) ->
    user = u /\ (evt = EventBacktestCompleted -> exists r j, computed id r s /\ judge r = (BtCompleted, ""%string, Some j)).
Lemma bq_announced_stable e : bstable (announced e).
Proof.
  intros x s s' Is Is' HR Ha evt user payload E. destruct (Ha evt user payload E) as [Hu Hc]. split; [done |]. intros H'.
  destruct (Hc H') as (r & j & Hr & Hj). exists r, j. split; [by eapply bq_computed_mono | done].
Qed.
#[local] Hint Resolve bq_announced_stable : verif.

Lemma bq_settle now r : bsafe t (atomic (fun _ => settle id now r)) (fun s => own u id s /\ computed id r s) (fun e s => own u id s /\ announced e s).
Proof.
  apply (bq_own_step t u id); [done | by intros s [? _] | auto with verif |]. intros c s Is [Ho Hr]. unfold settle.
  assert (Inv s /\ Rely s s /\ (forall i, i <> id -> same_backtest i s s) /\ own u id s /\ announced None s) as Hsame by (split_and!; auto with verif; by intros ? ? ?).
  destruct (s_backtests s !! id) as [d|] eqn:E; [| exact Hsame]. destruct (bool_decide _) eqn:Eb; [exact Hsame |].
  apply bool_decide_eq_false in Eb. pose proof (iv_memory _ Is id d E) as Hd. pose proof (bq_settled s now r d Hd Hr Eb) as Hd'.
  assert (bd_DORAUserID d = u) as Hu by (pose proof (oc_owned _ _ _ Hd) as H'; unfold own in *; congruence).
  assert (forall s' a, s' = set_backtests (<[id := settled now r d]> (s_backtests s)) s -> announced a s ->
    Inv s' /\ Rely s s' /\ (forall i, i <> id -> same_backtest i s s') /\ own u id s' /\ announced a s') as Hgo.
  { intros s' a -> Ha. split_and!; [by apply bq_write_detail | by split | intros i Hi; by apply bq_same_detail | done | done]. }
  destruct (bq_judge r) as [(j & Hj)|(e & He)].
  - rewrite Hj. apply Hgo; [done |]. intros evt user payload [= <- <- <-]. split; [done |]. intros _. by exists r, j.
  - rewrite He. apply Hgo; [done |]. intros evt user payload [= <- <- <-]. by split.
Qed.

Lemma bq_awaits n : bsafe t (awaitBacktestResult w backtestStore n id) (fun s => own u id s /\ started n id s) (fun _ _ => True).
Proof.
  eapply bq_bind; [apply bq_receive |]. intros r. eapply bq_bind; [apply bq_look; auto with verif |]. intros now.
  eapply bq_bind; [apply bq_settle |]. intros [[[evt user] payload]|]; [| apply bq_end].
  set (P := fun s => own u id s /\ announced (Some (evt, user, payload)) s).
  assert (bstable P) as SP by (unfold P; auto with verif). assert (forall s, P s -> own u id s) as HP by by intros s [? _].
  eapply bq_bind; [by apply bq_save |]. intros ?.
  eapply bq_bind with (Q := fun _ _ => True); [| intros ?; destruct backtestStore; [by apply bq_quiet | apply bq_end]].
  eapply safe_pre with (P' := fun s => P s /\ user = u).
  - intros s _ Hs. split; [done |]. by destruct (proj2 Hs evt user payload eq_refl).
  - apply bq_pure. intros ->. eapply bq_any, bq_publish; [done | done |]. intros He s [_ Ha]. by apply (Ha evt u payload).
Qed.

(** ** Creating *)

Lemma bq_run : bsafe t (atomic (fun _ s => (set_service (RunBacktest id (s_service s)) s, length (bts (s_service s))))) (own u id)
  (fun n s => own u id s /\ started n id s).
Proof.
  apply (bq_own_step t u id); [done | done | auto with verif |]. intros c s Is Ho. cbn [fst snd]. set (s' := set_service _ s).
  assert (Rely s s') as HR.
  { split; try done. intros n i (b & Hb & Hi). exists b. split; [by apply lookup_app_l_Some | done]. }
  split_and!; [| exact HR | | done | eexists; simpl; rewrite list_lookup_middle by done; by split].
  - eapply bq_inv; [exact Is | exact HR | by left | by left | by left | apply bq_registered_run, Is].
  - intros i Hi. split; try done; simpl; [by rewrite lookup_insert_ne |]. intros n b b' Hb _. rewrite (lookup_app_l_Some _ _ _ _ Hb). by intros [= <-].
Qed.

Lemma bq_insert n d : bd_ID d = id -> bd_DORAUserID d = u -> bd_Status d = BtRunning -> bd_Result d = None -> bd_Error d = ""%string ->
  bsafe t (update (fun s => set_backtests (<[id := d]> (s_backtests s)) s)) (fun s => own u id s /\ started n id s) (fun _ s => own u id s /\ started n id s).
Proof.
  intros H1 H2 H3 H4 H5. apply (bq_own_step t u id); [done | by intros s [? _] | auto with verif |]. intros c s Is [Ho Hn]. simpl.
  assert (outcome s id d) as Hd by (split; rewrite ?H2, ?H3, ?H4; first [done | by left]).
  split_and!; [by apply bq_write_detail | by split | intros i Hi; by apply bq_same_detail | done | done].
Qed.

Lemma bq_publishBacktest ctx n d : bd_ID d = id -> bd_DORAUserID d = u -> bd_Status d = BtRunning -> bd_Result d = None -> bd_Error d = ""%string ->
  (forall x, doraUserIDFromContext ctx = Some x -> x = u) ->
  bsafe t (publishBacktest w backtestStore ctx id n d) (fun s => own u id s /\ started n id s) (fun _ _ => True).
Proof.
  intros H1 H2 H3 H4 H5 Hx. set (P := fun s => own u id s /\ started n id s).
  assert (bstable P) as SP by (unfold P; auto with verif). assert (forall s, P s -> own u id s) as HP by by intros s [? _].
  eapply bq_bind; [by apply bq_insert |]. intros ?. eapply bq_bind; [by apply bq_save |]. intros [_|e]; [| apply bq_end].
  eapply bq_bind with (Q := fun _ => P).
  { destruct (doraUserIDFromContext ctx) as [x|]; [| apply bq_ret]. rewrite (Hx x eq_refl). by apply bq_publish. }
  intros ?. eapply bq_bind; [apply safe_go; [done | apply bq_awaits] |]. intros ?. eapply bq_any, bq_look. done.
Qed.

(** ** Cancelling *)

Lemma bq_stop : bsafe t (atomic (fun _ => stopBacktest id u)) (own u id)
  (fun a s => match a with Ok _ => own u id s /\ (id, u) ∈ s_cancels s | Err _ => True end).
Proof.
  apply (bq_own_step t u id); [done | done | intros [?|?]; auto with verif |]. intros c s Is Ho. unfold stopBacktest.
  destruct (backtests (s_service s) !! id) as [n|] eqn:E; [| unfold StopBacktest; rewrite E; simpl; split_and!; auto with verif].
  destruct (bq_stop_bt id _ _ n (iv_service _ Is) E) as (b & Hb & Hi & ->). cbn [fst snd]. set (b' := MkBt (bt_id b) true (bt_pc b)).
  set (s' := set_cancels _ _). assert (Rely s s') as HR.
  { split; try done; [by apply (bq_started_insert s s' n b b' (backtests (s_service s))) | intros p Hp; apply elem_of_app; by left]. }
  split_and!; [| exact HR | | done | apply elem_of_app; right; by apply list_elem_of_singleton].
  - eapply bq_inv; [exact Is | exact HR | by left | by left | by left |]. by apply (bq_registered_insert _ _ n b b'); [apply Is | ..].
  - intros i Hne. split; try done. simpl. intros k x y Hx Hxi Hy. destruct (decide (k = n)) as [->|Hkn]; [congruence |].
    rewrite list_lookup_insert_ne in Hy by done. congruence.
Qed.

Lemma bq_mark now : bsafe t (update (update_backtest id (fun d => finish BtCancelled now "backtest cancelled" (bd_Result d) d)))
  (fun s => own u id s /\ (id, u) ∈ s_cancels s) (fun _ => own u id).
Proof.
  apply (bq_own_step t u id); [done | by intros s [? _] | auto with verif |]. intros c s Is [Ho Hc]. simpl. set (s' := update_backtest _ _ s).
  assert (Rely s s') as HR by by split. split_and!; [| exact HR | | done].
  - eapply bq_inv; [exact Is | exact HR | | by left | by left | apply Is]. simpl. intros i x. rewrite lookup_alter_Some.
    intros [(<- & d & Hd & ->)|[_ Hx]]; [right | by left]. destruct (iv_memory _ Is id d Hd) as [A B C E F G T].
    assert (bd_DORAUserID d = u) as Hu by (unfold own in *; congruence). split; simpl; try done; [intros _; by rewrite Hu |].
    right. left. split; [done | by rewrite Hu].
  - intros i Hi. split; try done; simpl; [by rewrite lookup_alter_ne |]. intros n b b' H1 _ H2. congruence.
Qed.
End Own.

(** ** The other requests *)

Lemma bq_configAsset t config P : bstable P -> bsafe t (configAsset config) P (fun _ => P).
Proof.
  intros SP. unfold configAsset. cbn zeta. destruct (bool_decide _); [apply bq_ret |]. eapply bq_bind with (Q := fun _ => P); [| intros ?; apply bq_ret].
  eapply bq_bind; [by apply bq_look |]. intros [a|]; [apply bq_ret |]. eapply bq_bind; [by apply bq_choose |]. intros [books|e]; [| apply bq_ret].
  eapply bq_bind; [by apply bq_quiet |]. intros ?. eapply bq_bind; [by apply bq_look |]. intros [base|]; [| apply bq_ret].
  eapply bq_bind; [by apply bq_choose |]. intros [info|e]; [| apply bq_ret]. eapply bq_bind; [by apply bq_quiet |]. intros ?. apply bq_ret.
Qed.

Notation T := (fun _ => True).

Lemma bq_toSummary t d : bsafe t (toSummary d) T (fun _ => T).
Proof. eapply bq_bind; [apply bq_configAsset; auto with verif |]. intros ?. apply bq_end. Qed.
Lemma bq_summaryResult t d : bsafe t (summaryResult d) T (fun _ => T).
Proof. eapply bq_bind; [apply bq_configAsset; auto with verif |]. intros ?. apply bq_end. Qed.
Lemma bq_summaries t ds : bsafe t (summaries ds) T (fun _ => T).
Proof.
  induction ds as [|d ds IH]; [apply bq_end |]. eapply bq_bind; [apply bq_toSummary |]. intros ?. eapply bq_bind; [exact IH |]. intros ?. apply bq_end.
Qed.

(** A detail that was read is sound. *)
Lemma bq_detail t id : bsafe t (read (fun s => s_backtests s !! id)) T (fun d s => forall x, d = Some x -> outcome s id x).
Proof.
  eapply safe_post; [| apply (bq_read t _ T (fun d s => forall x, d = Some x -> outcome s id x)); [auto with verif | |]].
  - by intros a s _ [_ ?].
  - intros a y s s' Is Is' HR H1 x Hx. eapply bq_outcome_mono; [exact HR | auto].
  - intros s Is _ x Hx. by apply (iv_memory _ Is).
Qed.

Lemma bq_withOwn t ctx id k : (forall d, bsafe t (k d) (fun s => outcome s id d) (fun _ => T)) -> bsafe t (withOwnBacktest w ctx id k) T (fun _ => T).
Proof.
  intros Hk. unfold withOwnBacktest. destruct (resolveDORAUserID w ctx) as [u|e]; [| apply bq_end].
  eapply bq_bind; [apply bq_detail |]. intros [d|]; [| apply bq_end]. destruct (bool_decide _); [| apply bq_end].
  eapply bq_weaken; [| apply Hk]. intros s Hd. exact (Hd d eq_refl).
Qed.

Lemma bq_metadata t ctx id : bsafe t (getBacktestMetadata w ctx id) T (fun _ => T).
Proof.
  apply bq_withOwn. intros d. eapply bq_weaken; [| eapply bq_bind; [apply bq_toSummary |]; intros ?; apply bq_end]. done.
Qed.

(** A completed backtest has its result: the row is not read here. *)
Lemma bq_get t ctx id : bsafe t (getBacktest w backtestStore ctx id) T (fun _ => T).
Proof.
  apply bq_withOwn. intros d. eapply bq_weaken with (P' := fun s => True /\ (bd_Status d = BtCompleted -> is_Some (bd_Result d))).
  { intros s Hd. split; [done | apply Hd]. }
  apply bq_pure. intros Hd. eapply bq_bind with (Q := fun _ => T); [| intros d'; eapply bq_bind; [apply bq_summaryResult |]; intros ?; apply bq_end].
  destruct (bool_decide (bd_Status d = BtCompleted)) eqn:E; [| apply bq_end]. apply bool_decide_eq_true in E. destruct (Hd E) as [j Hj].
  rewrite bool_decide_eq_false_2 by (by rewrite Hj). apply bq_end.
Qed.

Lemma bq_cancel t ctx id : t = principal w ctx -> bsafe t (cancelBacktest w backtestStore ctx id) T (fun _ => T).
Proof.
  intros Ht. unfold cancelBacktest, principal in *. destruct (resolveDORAUserID w ctx) as [v|e] eqn:Eu; [| apply bq_end].
  assert (acts_for t v) as Hv by by left. eapply bq_bind; [apply bq_detail |]. intros [d|]; [| apply bq_end].
  destruct (negb _) eqn:En; [apply bq_end |]. apply negb_false_iff, bool_decide_eq_true in En.
  eapply bq_bind; [eapply bq_weaken; [| by apply (bq_stop t v id)] |].
  { intros s Hd. rewrite <- En. by apply (oc_owned _ _ _ (Hd d eq_refl)). }
  intros [_|e]; [| apply bq_end]. eapply bq_bind; [apply bq_look; auto with verif |]. intros now.
  eapply bq_bind; [by apply bq_mark |]. intros ?. eapply bq_bind; [by apply (bq_save t v id); auto with verif |].
  intros [_|e]; [| apply bq_end]. eapply bq_bind; [by apply (bq_publish t v id); auto with verif |]. intros ?.
  eapply bq_weaken; [| apply bq_metadata]. done.
Qed.

Lemma bq_create t ctx body : t = principal w ctx -> bsafe t (createBacktest w backtestStore ctx body) T (fun _ => T).
Proof.
  intros Ht. unfold createBacktest. destruct body as [req|e]; [| apply bq_end]. set (u := or_zero ""%string (resolveDORAUserID w ctx)).
  assert (acts_for t u) as Hu by (unfold u, acts_for, principal in *; destruct (resolveDORAUserID w ctx); auto).
  eapply bq_bind with (Q := fun id => own u id).
  { apply safe_atom. intros c s Is _. destruct (s_owner s !! bc_uuid c) eqn:E; [done |]. cbn zeta. set (s1 := set_owner _ s).
    assert (Rely s s1) as HR by (split; try done; by apply insert_subseteq).
    assert (Inv s1) as I1 by (eapply bq_inv; [exact Is | exact HR | by left | by left | by left | apply Is]).
    set (s2 := if backtestStore then set_writers (<[bc_uuid c := false]> (s_writers s1)) s1 else s1).
    assert (quiet s1 s2) as Q by (unfold s2; by destruct backtestStore).
    split; [by apply (bq_quiet_inv s1) |]. split.
    - split.
      + destruct (bq_quiet_rely _ _ Q) as [R1 R2 R3 R4], HR as [O1 O2 O3 O4]. split; [exact (transitivity O1 R1) | auto | exact (transitivity O3 R3) | exact (transitivity O4 R4)].
      + intros v i _ _. apply (bq_quiet_same s1 s2 i) in Q as [A1 A2 A3 A4 A5]. by split.
    - exists (own u (bc_uuid c)). split; [auto with verif |]. split; [| by intros y z _ Hz].
      unfold own, s2. destruct backtestStore; simpl; by rewrite lookup_insert_eq. }
  intros id. destruct (resolveStrategy _ _ _ _) as [[[def cfg] st]|[code e]]; [| apply bq_end]. destruct (_ || _); [apply bq_end |].
  destruct (resolveDORAUserID w ctx) as [v|e] eqn:Ev; [| apply bq_end]. cbn zeta. destruct (_ && _); [apply bq_end |].
  eapply bq_bind with (Q := fun _ => own u id); [destruct (hasPreflight _); [apply bq_choose; auto with verif | apply bq_ret] |].
  intros [[]|]; [apply bq_end..|]. eapply bq_bind; [by apply bq_run |]. intros n. eapply bq_bind; [apply bq_look; auto with verif |]. intros now.
  apply (bq_publishBacktest t u id Hu); try done.
  intros x Hx. unfold resolveDORAUserID in Ev. rewrite Hx in Ev. unfold u. by injection Ev as <-.
Qed.

Lemma bq_sub fetch t ctx id q : bsafe t (getBacktestSubResource w backtestStore fetch ctx id q) T (fun _ => T).
Proof.
  unfold getBacktestSubResource. destruct (negb backtestStore); [apply bq_end |]. destruct (resolveDORAUserID w ctx) as [u|e]; [| apply bq_end].
  eapply bq_bind; [apply bq_look; auto with verif |]. intros [d|]; [| apply bq_end]. destruct (bool_decide _); [| apply bq_end].
  destruct (parsePagination q) as [page limit]. eapply bq_bind; [apply bq_quiet; [auto with verif | done] |]. intros ?. apply bq_end.
Qed.

Variables parse_rfc3339 parse_date : string -> option Time.
Lemma bq_list t ctx q : bsafe t (listBacktests w parse_rfc3339 parse_date ctx q) T (fun _ => T).
Proof.
  unfold listBacktests. destruct (resolveDORAUserID w ctx) as [u|e]; [| apply bq_end]. cbn zeta.
  destruct (parseDateFilter _ _ q) as [from to], (parsePagination q) as [page limit].
  eapply bq_bind; [apply bq_await; auto with verif |]. intros ds. eapply bq_bind; [apply bq_summaries |]. intros ?. apply bq_end.
Qed.

Lemma bq_serve r : exists P, bstable P /\ (forall s, Inv s -> P s) /\
  bsafe (th_tag (serve w backtestStore parse_rfc3339 parse_date r)) (th_prog (serve w backtestStore parse_rfc3339 parse_date r)) P (fun _ _ => True).
Proof.
  exists T. split; [auto with verif |]. split; [done |]. destruct r as [n ctx method path q body]. simpl. eapply bq_bind with (Q := fun _ => T); [| intros resp; by apply bq_quiet].
  unfold handle. destruct (route _) as [o|resp]; [| apply bq_end].
  destruct o; simpl; [by apply bq_create | apply bq_list | apply bq_get | apply bq_metadata | apply bq_sub | apply bq_sub | by apply bq_cancel].
Qed.


(** ** The steps of the world *)

Lemma bq_world e s s' : Inv s -> world e s = Some s' -> Inv s' /\ Rely s s'.
Proof.
  intros Is. destruct e as [n r|n|ok recs|ok recs|now]; simpl.
  - destruct (move_bt BtWorking BtSending n (s_service s)) as [sv|] eqn:Em; [| done]. simpl. intros [= <-].
    apply bq_move_bt in Em as (b & Hb & Hp & ->). set (b' := MkBt (bt_id b) (bt_cancelled b) BtSending). set (s' := set_results _ _).
    assert (s_results s !! n = None) as Hn.
    { apply eq_None_not_Some. intros [x Hx]. destruct (rg_results _ _ (iv_service _ Is) n x Hx) as (y & Hy & Hw). congruence. }
    assert (Rely s s') as HR.
    { split; try done; [by apply (bq_started_insert s s' n b b' (backtests (s_service s))) | by apply insert_subseteq]. }
    split; [| exact HR]. eapply bq_inv; [exact Is | exact HR | by left | by left | by left |].
    assert (registered (with_bts (backtests (s_service s)) (<[n := b']> (bts (s_service s))) (s_service s)) (s_results s)) as [A B].
    { by apply (bq_registered_insert _ _ n b b'); [apply Is | ..]. }
    split; [exact A |]. intros k x. simpl. rewrite lookup_insert_Some. intros [[<- <-]|[_ Hx]]; [| by apply (B k x)].
    exists b'. by rewrite list_lookup_insert_eq by by eapply lookup_lt_Some.
  - unfold finish_bt. destruct (bts (s_service s) !! n) as [b|] eqn:Hb; [| done]. destruct (bt_pc b) eqn:Hp; try done. simpl. intros [= <-].
    set (b' := MkBt (bt_id b) true BtDone). set (s' := set_service _ s).
    assert (Rely s s') as HR by (split; try done; by apply (bq_started_insert s s' n b b' (delete (bt_id b) (backtests (s_service s))))).
    split; [| exact HR]. eapply bq_inv; [exact Is | exact HR | by left | by left | by left |].
    apply (bq_registered_insert _ _ n b b'); [apply Is | done | done | done |]. intros i k. by intros [_ ?]%lookup_delete_Some.
  - intros [= <-]. assert (quiet s (set_rows (WriteTradeRecordsBatch ok recs (s_trades s)).2 (s_closed s) s)) as Q by done.
    split; [by apply (bq_quiet_inv s) | by apply bq_quiet_rely].
  - intros [= <-]. assert (quiet s (set_rows (s_trades s) (WriteClosedTradesBatch ok recs (s_closed s)).2 s)) as Q by done.
    split; [by apply (bq_quiet_inv s) | by apply bq_quiet_rely].
  - intros [= <-]. assert (quiet s (set_now now s)) as Q by done. split; [by apply (bq_quiet_inv s) | by apply bq_quiet_rely].
Qed.

Definition bt_start : system bserver BChoice (option string) := MkSystem NewBServer [].
Notation run := (bt_run w backtestStore parse_rfc3339 parse_date).
Notation step := (bt_step w backtestStore parse_rfc3339 parse_date).

Lemma bq_sound ls s : run ls bt_start = Some s -> sys_safe Inv Guar Rely s.
Proof.
  intros Hr. eapply (cc_sound Inv Guar Rely world (serve w backtestStore parse_rfc3339 parse_date) (fun _ => True)); [| | | | exact Hr |].
  - by intros t s1 s2 [? _].
  - intros e s1 s2. apply bq_world.
  - intros r _. apply bq_serve.
  - apply Forall_forall. intros [] _; done.
  - apply tc_start. by split.
Qed.

(** The summary or the error of a result. *)
Definition summary_of (r : BacktestResult) : option Summary :=
  match r with MeanReversionResult s | CopyTradingResult s | BreakoutResult s | MomentumResult s => Some s | _ => None end.
Definition error_of (r : BacktestResult) : string :=
  match r with ErrorResult e => e | UnknownResult t => ("unknown backtest result type " +:+ t)%string | _ => ""%string end.

Lemma bq_judged r : match summary_of r with Some s => judge r = (BtCompleted, ""%string, Some (summary_json s)) | None => judge r = (BtFailed, error_of r, None) end.
Proof. by destruct r. Qed.

(** C29: what backtests are reported with, over one life of a server that
    starts with empty tables (details restored from an earlier life, whose
    results are not in memory, are not covered), whatever requests, waiting
    goroutines and database failures interleave.  A detail in memory that is
    completed carries the summary its strategy returned, one that failed the
    error its strategy returned, and one that is cancelled was cancelled through
    the service at the request of its owner.  A row is written from fields read
    one by one without the mutex, so it may mix two moments; yet each field is
    sound: a row is completed only if the strategy returned a summary, failed
    only if it returned an error, cancelled only at the owner's request; a
    result in a row is a summary the strategy returned, and an error text is
    the one it returned or the note of that cancellation. *)
Theorem backtest_outcome_sound ls s id : run ls bt_start = Some s ->
  (forall d, s_backtests (shared s) !! id = Some d ->
     s_owner (shared s) !! id = Some (bd_DORAUserID d) /\
     (bd_Status d = BtCompleted -> exists r sm, computed id r (shared s) /\ summary_of r = Some sm /\ bd_Result d = Some (summary_json sm)) /\
     (bd_Status d = BtFailed -> exists r, computed id r (shared s) /\ summary_of r = None /\ bd_Error d = error_of r) /\
     (bd_Status d = BtCancelled -> (id, bd_DORAUserID d) ∈ s_cancels (shared s))) /\
  (forall d, s_table (shared s) !! id = Some d ->
     s_owner (shared s) !! id = Some (bd_DORAUserID d) /\
     (bd_Status d = BtCompleted -> exists r sm, computed id r (shared s) /\ summary_of r = Some sm) /\
     (bd_Status d = BtFailed -> exists r, computed id r (shared s) /\ summary_of r = None) /\
     (bd_Status d = BtCancelled -> (id, bd_DORAUserID d) ∈ s_cancels (shared s)) /\
     (forall j, bd_Result d = Some j -> exists r sm, computed id r (shared s) /\ summary_of r = Some sm /\ j = summary_json sm) /\
     (bd_Error d = ""%string \/ bd_Error d = "backtest cancelled"%string /\ (id, bd_DORAUserID d) ∈ s_cancels (shared s) \/
      exists r, computed id r (shared s) /\ summary_of r = None /\ bd_Error d = error_of r)).
Proof.
  intros Hr. destruct (bq_sound ls s Hr) as [Is _].
  assert (forall r j, judge r = (BtCompleted, ""%string, Some j) -> exists sm, summary_of r = Some sm /\ j = summary_json sm) as Hdone.
  { intros r j Hk. pose proof (bq_judged r) as H'. destruct (summary_of r) as [sm|]; rewrite Hk in H'; [| done].
    injection H' as ->. by exists sm. }
  assert (forall r e, judge r = (BtFailed, e, None) -> summary_of r = None /\ e = error_of r) as Hfail.
  { intros r e Hk. pose proof (bq_judged r) as H'. destruct (summary_of r) as [sm|]; rewrite Hk in H'; [done |]. by injection H' as ->. }
  split; intros d Hd.
  - destruct (iv_memory _ Is id d Hd) as [A B C E F G _]. split_and!; [exact B | | | exact G].
    + intros Hs. destruct (E Hs) as [j Hj]. destruct (C j Hj) as (r & Hc & Hk). destruct (Hdone r j Hk) as (sm & Hsm & ->). by exists r, sm.
    + intros Hs. destruct (F Hs) as (r & Hc & Hk). destruct (Hfail r _ Hk). by exists r.
  - destruct (iv_table _ Is id d Hd) as [A B C E F]. split_and!; [exact B | | | | |].
    + intros Hs. rewrite Hs in E. destruct E as (r & j & Hc & Hk). destruct (Hdone r j Hk) as (sm & Hsm & _). by exists r, sm.
    + intros Hs. rewrite Hs in E. destruct E as (r & e & Hc & Hk). destruct (Hfail r e Hk). by exists r.
    + intros Hs. by rewrite Hs in E.
    + intros j Hj. destruct (C j Hj) as (r & Hc & Hk). destruct (Hdone r j Hk) as (sm & Hsm & ->). by exists r, sm.
    + destruct F as [F|[F|(r & Hc & Hk)]]; [by left | right; by left |]. right. right. destruct (Hfail r _ Hk). by exists r.
Qed.

(** C30: whatever interleaves, a step taken for one user (by a request or by a
    goroutine it started) leaves every backtest of another user alone: its
    detail, its row, its registration and its cancellation in the service, and
    its events. *)
Theorem backtest_requests_isolated ls s n c s' user prog id owner : run ls bt_start = Some s ->
  threads s !! n = Some (MkThread (Some user) prog) -> step (LThread n c) s = Some s' ->
  s_owner (shared s) !! id = Some owner -> owner <> user -> same_backtest id (shared s) (shared s').
Proof.
  intros Hr Hn Hs Ho Hne. pose proof (bq_sound ls s Hr) as Hsafe.
  destruct (cc_guarantee Inv Guar Rely world (serve w backtestStore parse_rfc3339 parse_date) n c s s' (Some user) prog Hsafe Hn Hs) as [E|[_ G]].
  - rewrite E. apply bq_same_refl.
  - apply (G user id); [done |]. by exists owner.
Qed.
End Outcomes.

(** ** A small server, for concrete runs *)

Module BacktestDemo.
Import Demo RowsDemo.

Definition no_date (_ : string) : option Time := None.
Definition yes (id : string) : BChoice := MkBChoice true id None (Ok []) (fun _ => Ok no_asset) [].
Definition steps (n k : nat) : list (label BChoice BtWorld BtRequest) := replicate k (LThread n (yes "")).
Definition create (n : nat) (user b : string) : label BChoice BtWorld BtRequest :=
  LArrive (MkBtRequest n (ctx user) "POST" "/v1/backtests" (fun _ => ""%string) (Ok (MkCreateBacktest "momentum" (book b) (MkTime 10 0) (MkTime 20 0)))).
(** A create of goroutine [n] up to its response. *)
Definition created (n : nat) (id : string) : list (label BChoice BtWorld BtRequest) := LThread n (yes id) :: steps n 13.

Definition brun (ls : list (label BChoice BtWorld BtRequest)) : option (system bserver BChoice (option string)) :=
  bt_run wiring true no_date no_date ls bt_start.
Definition final (ls : list (label BChoice BtWorld BtRequest)) : system bserver BChoice (option string) := default bt_start (brun ls).
Definition ends (ls : list (label BChoice BtWorld BtRequest)) : bool := match brun ls with Some _ => true | None => false end.

Lemma bq_final ls : ends ls = true -> brun ls = Some (final ls).
Proof. unfold ends, final. by destruct (brun ls). Qed.
Lemma bq_resumes ls l : ends ls = true -> ends (ls ++ [l]) = true -> bt_step wiring true no_date no_date l (final ls) = Some (final (ls ++ [l])).
Proof.
  intros H1%bq_final H2%bq_final. revert H2. generalize (final (ls ++ [l])). intros s'. revert H1. generalize (final ls).
  intros s. unfold brun, bt_run. intros H1. rewrite cc_run_app, H1. cbn [sys_run]. unfold bt_step.
  destruct (sys_step _ _ _ _); [by intros [= ->] | done].
Qed.

Definition gains : Summary (D := RefDec) := {| TotalPnL := RD 150 2; WinCount := 2; LossCount := 1; MaxDrawdown := RD 25 2; SharpeRatio := RD 12 1 |}.
(** Goroutine 1 waits for the result; bob's backtest fails. *)
Definition two_backtests : list (label BChoice BtWorld BtRequest) :=
  [create 1 "ann" "b1"] ++ created 0 "r1" ++ [create 2 "bob" "b1"] ++ created 2 "r2" ++
  [LEnv (EvResult 0 (MomentumResult gains)); LEnv (EvResult 1 (ErrorResult "no data"))] ++ steps 1 10 ++ steps 3 2.
Definition statuses (s : system bserver BChoice (option string)) : list (option BtStatus) :=
  (fun id => bd_Status <$> s_backtests (shared s) !! id) <$> ["r1"; "r2"]%string.
Example one_completed : statuses (final two_backtests) = [Some BtCompleted; Some BtRunning].
Proof. vm_compute. reflexivity. Qed.
End BacktestDemo.

Import RowsDemo BacktestDemo.

Lemma bq_status (o : option BacktestDetail) st : bd_Status <$> o = Some st -> exists d, o = Some d /\ bd_Status d = st.
Proof. destruct o as [d|]; [| done]. intros [= <-]. by exists d. Qed.

Lemma backtest_outcome_sound_witness : exists d,
  s_backtests (shared (BacktestDemo.final two_backtests)) !! "r1"%string = Some d /\ bd_Status d = BtCompleted /\
  exists r sm, computed "r1" r (shared (BacktestDemo.final two_backtests)) /\ summary_of r = Some sm /\ bd_Result d = Some (summary_json sm).
Proof.
  assert (BacktestDemo.ends two_backtests = true) as He by (vm_compute; reflexivity).
  assert (bd_Status <$> s_backtests (shared (BacktestDemo.final two_backtests)) !! "r1"%string = Some BtCompleted) as Hs by (vm_compute; reflexivity).
  destruct (bq_status _ _ Hs) as (d & Hd & Hst). exists d. split; [exact Hd |]. split; [exact Hst |].
  pose proof (bq_final _ He) as Hr. unfold brun in Hr.
  destruct (backtest_outcome_sound Demo.wiring true no_date no_date two_backtests (BacktestDemo.final two_backtests) "r1" Hr) as [H _].
  destruct (H d Hd) as (_ & Hc & _). exact (Hc Hst).
Defined.

Lemma backtest_requests_isolated_witness : exists prog,
  threads (BacktestDemo.final two_backtests) !! 3%nat = Some (MkThread (Some "bob"%string) prog) /\
  same_backtest "r1" (shared (BacktestDemo.final two_backtests)) (shared (BacktestDemo.final (two_backtests ++ [LThread 3 (BacktestDemo.yes "")]))).
Proof.
  assert (BacktestDemo.ends two_backtests = true) as He by (vm_compute; reflexivity).
  assert (BacktestDemo.ends (two_backtests ++ [LThread 3 (BacktestDemo.yes "")]) = true) as He' by (vm_compute; reflexivity).
  assert (th_tag <$> threads (BacktestDemo.final two_backtests) !! 3%nat = Some (Some "bob"%string)) as Et by (vm_compute; reflexivity).
  assert (s_owner (shared (BacktestDemo.final two_backtests)) !! "r1"%string = Some "ann"%string) as Eo by (vm_compute; reflexivity).
  destruct (threads (BacktestDemo.final two_backtests) !! 3%nat) as [[tg prog]|] eqn:E; [| discriminate Et]. injection Et as ->. exists prog.
  pose proof (bq_final _ He) as Hr. unfold brun in Hr. pose proof (bq_resumes _ _ He He') as Hs.
  split; [reflexivity |].
  refine (backtest_requests_isolated Demo.wiring true no_date no_date two_backtests (BacktestDemo.final two_backtests) 3 (BacktestDemo.yes "")
    (BacktestDemo.final (two_backtests ++ [LThread 3 (BacktestDemo.yes "")])) "bob" prog "r1" "ann" Hr E Hs Eo _).
  discriminate.
Defined.
