(* ===== verification/BacktestQueries.v ===== *)
(** * Listing backtests, and backtests that outlive their server

    Theory of [HttpBacktests]: the pages of a listing together are the caller's
    backtests that match the filters, newest first; and a backtest that was
    running when the server stopped is running for ever after. *)

From S2P Require Import Prelude Decimal RefDecimal GoTime Stats Service Concurrency Secrets HttpAuth Json HttpDecisions HttpRuns BacktestRows HttpBacktests.

(** ** Pages of a list *)

Lemma bl_page {A} (l : list A) i limit : 1 <= limit <= maxPaginationLimit -> Z.of_nat (S i) * limit <= int64_max ->
  Z.of_nat (length l) <= int64_max - limit ->
  page_of (Z.of_nat (S i)) limit l = Some (take (Z.to_nat limit) (drop (i * Z.to_nat limit) l)).
Proof.
  intros Hl Hm Ht. unfold page_of. cbn zeta. replace (Z.of_nat (S i) - 1) with (Z.of_nat i) by lia.
  rewrite wrap64_small by (unfold in_int64, int64_min in *; nia). set (n := Z.of_nat (length l)) in *.
  rewrite wrap64_small by (unfold in_int64, int64_min in *; nia). unfold slice.
  rewrite (proj2 (Z.leb_le 0 _)), (proj2 (Z.leb_le (Z.min _ _) (Z.min _ _))), (proj2 (Z.leb_le _ (Z.of_nat _))) by nia. simpl. f_equal.
  destruct (Z.le_gt_cases (Z.of_nat i * limit) n) as [H|H].
  - rewrite (Z.min_l (Z.of_nat i * limit)) by done. rewrite Z2Nat.inj_mul, Nat2Z.id by lia.
    destruct (Z.le_gt_cases (Z.of_nat i * limit + limit) n) as [H'|H'].
    + rewrite Z.min_l by done. f_equal. lia.
    + rewrite Z.min_r by lia. rewrite !take_ge; [done | | ]; rewrite length_drop; unfold n in *; nia.
  - rewrite !(Z.min_r _ n) by lia. rewrite !drop_ge; [by rewrite !take_nil | unfold n in *; nia | unfold n in *; lia].
Qed.

(** ** One listing *)

Lemma bl_bind {St Ch A B} (c : Ch) (p : prog St Ch A) (k : A -> prog St Ch B) s :
  solo c (p ≫= k) s = match solo c p s with Some (s', a) => solo c (k a) s' | None => None end.
Proof. apply solo_bind. Qed.

Section Listing.
Context {D : DecimalOps} `{Columns : !ColumnOps}.

(** A summary tells its detail, apart from the asset. *)
Definition describes (d : BacktestDetail) (s : BacktestSummary) : Prop :=
  s = MkBacktestSummary (bd_ID d) (bd_DORAUserID d) (bd_StrategyType d) (bd_Status d) (bd_Config d) (bs_Asset s) (bd_CreatedAt d) (bd_CompletedAt d) (bd_Error d).
Definition matches_detail (statuses : list string) (from to : Time) (d : BacktestDetail) : bool :=
  (bool_decide (statuses = []) || bool_decide (status_text (bd_Status d) ∈ statuses)) &&
  (time_is_zero from || negb (time_before (bd_CreatedAt d) from)) && (time_is_zero to || time_before (bd_CreatedAt d) to).
Definition newer (a b : BacktestDetail) : Prop := t_ns (bd_CreatedAt b) < t_ns (bd_CreatedAt a).
Definition newest (a b : BacktestDetail) : Prop := t_ns (bd_CreatedAt b) <= t_ns (bd_CreatedAt a).

Lemma bl_solo_summaries c ds s s' items : solo c (summaries ds) s = Some (s', items) -> Forall2 describes ds items.
Proof.
  revert s items. induction ds as [|d ds IH]; intros s items; [intros [= <- <-]; constructor |]. cbn [summaries].
  rewrite bl_bind. unfold toSummary. rewrite bl_bind.
  destruct (solo c (configAsset (bd_Config d)) s) as [[s1 a]|]; [| done]. cbn [solo].
  rewrite bl_bind. destruct (solo c (summaries ds) s1) as [[s2 l]|] eqn:E; [| done].
  intros [= <- <-]. constructor; [done | by eapply IH].
Qed.

Lemma bl_filter statuses from to ds items : Forall2 describes ds items ->
  Forall2 describes (List.filter (matches_detail statuses from to) ds) (List.filter (matches statuses from to) items).
Proof.
  induction 1 as [|d s ds items Hd _ IH]; [constructor |]. cbn [List.filter].
  assert (matches statuses from to s = matches_detail statuses from to d) as -> by (by rewrite Hd).
  destruct (matches_detail _ _ _ d); [by constructor | done].
Qed.

Lemma bl_lookups (m : gmap string BacktestDetail) order : NoDup order -> list_to_set order = dom m ->
  omap (fun id => m !! id) order ≡ₚ (map_to_list m).*2.
Proof.
  intros Hn Hd. assert (order ≡ₚ (map_to_list m).*1) as ->.
  { apply NoDup_Permutation; [done | apply NoDup_fst_map_to_list |]. intros id.
    rewrite <- (elem_of_list_to_set (C := gset string)), Hd, elem_of_dom. split.
    - intros [d E]. apply list_elem_of_fmap. exists (id, d). split; [done | by apply elem_of_map_to_list].
    - intros ([i d] & -> & E)%list_elem_of_fmap. apply elem_of_map_to_list in E. by exists d. }
  assert (forall l : list (string * BacktestDetail), (forall p, p ∈ l -> m !! p.1 = Some p.2) -> omap (fun id => m !! id) l.*1 = l.*2) as Hl.
  { induction l as [|p l IH]; intros Hp; [done |]. cbn. rewrite (Hp p) by constructor. f_equal. apply IH. intros q Hq. apply Hp. by constructor. }
  rewrite Hl; [done |]. intros [i d] E. by apply elem_of_map_to_list in E.
Qed.

(** The backtests of a user, newest first, when no two were created at the
    same time: the order is determined. *)
Definition distinct_times (user : string) (m : gmap string BacktestDetail) : Prop :=
  forall i j a b, m !! i = Some a -> m !! j = Some b -> bd_DORAUserID a = user -> bd_DORAUserID b = user ->
    t_ns (bd_CreatedAt a) = t_ns (bd_CreatedAt b) -> i = j.

Lemma bl_listing user order m ds : filterAndSort user order m = Some ds ->
  Sorted newest ds /\ ds ≡ₚ (map_to_list (filter (fun p => bd_DORAUserID p.2 = user) m)).*2.
Proof.
  unfold filterAndSort. case_bool_decide as H; [| done]. intros [= <-]. destruct H as (Hn & Hd & Hs). split; [exact Hs | by apply bl_lookups].
Qed.

Lemma bl_elements user (m : gmap string BacktestDetail) d : d ∈ (map_to_list (filter (fun p => bd_DORAUserID p.2 = user) m)).*2 <->
  exists id, m !! id = Some d /\ bd_DORAUserID d = user.
Proof.
  rewrite list_elem_of_fmap. split.
  - intros ([i x] & -> & E). apply elem_of_map_to_list, map_lookup_filter_Some in E as [E ?]. by exists i.
  - intros (i & Hi & Hu). exists (i, d). split; [done |]. by apply elem_of_map_to_list, map_lookup_filter_Some.
Qed.

#[local] Instance bl_newest_trans : Transitive newest.
Proof. intros a b c. unfold newest. lia. Qed.

Lemma bl_unique user order order' m ds ds' : distinct_times user m ->
  filterAndSort user order m = Some ds -> filterAndSort user order' m = Some ds' -> ds = ds'.
Proof.
  intros Hdt H H'. destruct (bl_listing _ _ _ _ H) as [S P], (bl_listing _ _ _ _ H') as [S' P'].
  apply (Sorted_unique_strong newest); [| done | done | by rewrite P, P'].
  intros a b Ha Hb H1 H2. rewrite P in Ha. rewrite P' in Hb. apply bl_elements in Ha as (i & Hi & Ui). apply bl_elements in Hb as (j & Hj & Uj).
  assert (i = j) as -> by (apply (Hdt i j a b); unfold newest in *; done || lia). congruence.
Qed.

(** Strictly, then. *)
Lemma bl_strict user order m ds : distinct_times user m -> filterAndSort user order m = Some ds -> StronglySorted newer ds.
Proof.
  intros Hdt H. destruct (bl_listing _ _ _ _ H) as [S P]. assert (NoDup ds) as Hn.
  { rewrite P. apply NoDup_fmap_2_strong; [| apply NoDup_map_to_list]. intros [i a] [j b] Ha Hb. cbn. intros ->.
    apply elem_of_map_to_list, map_lookup_filter_Some in Ha as [Ha Ua]. apply elem_of_map_to_list, map_lookup_filter_Some in Hb as [Hb Ub].
    by rewrite (Hdt i j b b). }
  assert (forall a b, a ∈ ds -> b ∈ ds -> newest a b -> a = b \/ newer a b) as Hs.
  { intros a b Ha Hb Hab. destruct (decide (t_ns (bd_CreatedAt a) = t_ns (bd_CreatedAt b))) as [E|E]; [left | right; unfold newer, newest in *; lia].
    rewrite P in Ha, Hb. apply bl_elements in Ha as (i & Hi & Ui). apply bl_elements in Hb as (j & Hj & Uj).
    assert (i = j) as -> by by apply (Hdt i j a b). congruence. }
  apply Sorted_StronglySorted in S; [| apply _]. clear P H. induction S as [|d ds S IH F]; [constructor |]. apply NoDup_cons in Hn as [Hd Hn].
  constructor.
  - apply IH; [done |]. intros a b Ha Hb. apply Hs; by constructor.
  - rewrite Forall_forall in *. intros x Hx. destruct (Hs d x) as [->|?]; [constructor | by constructor | by apply F | done | done].
Qed.

Variable w : Wiring.
Variables parse_rfc3339 parse_date : string -> option Time.

Lemma bl_solo c ctx q user s s' resp : resolveDORAUserID w ctx = Ok user ->
  solo c (listBacktests w parse_rfc3339 parse_date ctx q) s = Some (s', resp) ->
  exists ds items, filterAndSort user (bc_order c) (s_backtests s) = Some ds /\ Forall2 describes ds items /\
    resp = let '(from, to) := parseDateFilter parse_rfc3339 parse_date q in
           let '(page, limit) := parsePagination q in
           match page_of page limit (List.filter (matches (parseStatusFilter q) from to) items) with
           | Some l => BtList l page limit | None => BtPanic end.
Proof.
  intros Hu. unfold listBacktests. rewrite Hu. cbn zeta. destruct (parseDateFilter _ _ q) as [from to], (parsePagination q) as [page limit].
  rewrite bl_bind. unfold await. cbn [solo].
  destruct (filterAndSort user (bc_order c) (s_backtests s)) as [ds|]; [| done].
  cbn [solo]. rewrite bl_bind. destruct (solo c (summaries ds) s) as [[s1 items]|] eqn:E; [| done].
  intros [= <- <-]. exists ds, items. split_and!; [done | by eapply bl_solo_summaries | done].
Qed.

Lemma bl_concat (f : nat -> list BacktestDetail) (g : nat -> list BacktestSummary) l :
  (forall i, i ∈ l -> Forall2 describes (f i) (g i)) -> Forall2 describes (concat (map f l)) (concat (map g l)).
Proof.
  induction l as [|i l IH]; intros Hi; [constructor |]. cbn. apply Forall2_app; [apply Hi; by constructor |]. apply IH. intros j Hj. apply Hi. by constructor.
Qed.

Definition items_of (r : BtResponse) : list BacktestSummary := match r with BtList l _ _ => l | _ => [] end.

(** What the request for page [i] of a listing is answered, alone. *)
Definition answers (ctx : Context) (m : gmap string BacktestDetail) (statuses : list string) (from to : Time) (limit : Z) (i : nat) (q : Query) (resp : BtResponse) : Prop :=
  parsePagination q = (Z.of_nat (S i), limit) /\ parseStatusFilter q = statuses /\ parseDateFilter parse_rfc3339 parse_date q = (from, to) /\
  exists c s s', s_backtests s = m /\ solo c (listBacktests w parse_rfc3339 parse_date ctx q) s = Some (s', resp).

Lemma bl_answer ctx user m statuses from to limit i q resp order ds : resolveDORAUserID w ctx = Ok user -> distinct_times user m ->
  1 <= limit <= maxPaginationLimit -> Z.of_nat (S i) * limit <= int64_max -> Z.of_nat (size m) <= int64_max - limit ->
  filterAndSort user order m = Some ds -> answers ctx m statuses from to limit i q resp ->
  exists l, resp = BtList l (Z.of_nat (S i)) limit /\
    Forall2 describes (take (Z.to_nat limit) (drop (i * Z.to_nat limit) (List.filter (matches_detail statuses from to) ds))) l.
Proof.
  intros Hu Hdt Hl Hi Hm Hds (Hp & Hst & Hdd & c & s & s' & <- & Hs). destruct (bl_solo _ _ _ _ _ _ _ Hu Hs) as (ds' & items & Hds' & HF & ->).
  assert (ds' = ds) as -> by by eapply bl_unique. rewrite Hdd, Hp, Hst. pose proof (bl_filter statuses from to ds items HF) as HF'.
  rewrite bl_page; [| done | done |].
  - eexists. split; [done |]. by apply Forall2_take, Forall2_drop.
  - assert (length (List.filter (matches statuses from to) items) <= size (s_backtests s))%nat; [| lia].
    etrans; [apply List.filter_length_le |]. rewrite <- (Forall2_length _ _ _ HF). destruct (bl_listing _ _ _ _ Hds) as [_ ->].
    rewrite length_fmap, length_map_to_list. apply map_size_filter.
Qed.

(** C31: asking for the pages of a listing of backtests one after the other,
    nothing having changed and no two of the caller's backtests created at the
    same instant, gives every backtest of the caller that matches the filters
    and no other, each once, newest first, whatever orders the server ranges
    over its map in; no request panics. *)
Theorem backtest_list_complete ctx user m statuses from to limit n q resps : resolveDORAUserID w ctx = Ok user -> distinct_times user m ->
  1 <= limit <= maxPaginationLimit -> Z.of_nat (S n) * limit <= int64_max -> (0 < n)%nat -> (size m <= n * Z.to_nat limit)%nat ->
  (forall i, (i < n)%nat -> answers ctx m statuses from to limit i (q i) (resps i)) ->
  exists ds, (forall i, (i < n)%nat -> resps i = BtList (items_of (resps i)) (Z.of_nat (S i)) limit) /\
    Forall2 describes ds (concat (map (fun i => items_of (resps i)) (seq 0 n))) /\ StronglySorted newer ds /\
    forall d, d ∈ ds <-> exists id, m !! id = Some d /\ bd_DORAUserID d = user /\ matches_detail statuses from to d = true.
Proof.
  intros Hu Hdt Hl Hn Hpos Hm Ha. pose proof (Ha 0%nat Hpos) as (_ & _ & _ & c & s & s' & Es & Hs).
  destruct (bl_solo _ _ _ _ _ _ _ Hu Hs) as (ds & _ & Hds & _). rewrite Es in Hds. set (L := List.filter (matches_detail statuses from to) ds).
  assert (forall i, (i < n)%nat -> exists l, resps i = BtList l (Z.of_nat (S i)) limit /\
    Forall2 describes (take (Z.to_nat limit) (drop (i * Z.to_nat limit) L)) l) as Hi by (intros i Hi; eapply bl_answer; eauto; nia).
  exists L. split_and!.
  - intros i Hin. by destruct (Hi i Hin) as (l & -> & _).
  - assert (L = concat (map (fun i => take (Z.to_nat limit) (drop (i * Z.to_nat limit) L)) (seq 0 n))) as E.
    { rewrite br_concat_pages, take_ge; [done |]. etrans; [apply List.filter_length_le |]. destruct (bl_listing _ _ _ _ Hds) as [_ ->].
      rewrite length_fmap, length_map_to_list. etrans; [apply map_size_filter | done]. }
    rewrite E. apply bl_concat. intros i [_ Hin]%elem_of_seq. destruct (Hi i Hin) as (l & -> & HF). done.
  - apply (bl_strict user _ m) in Hds; [| done]. unfold L. clear -Hds. induction Hds as [|d ds Hs IH F]; [constructor |]. cbn.
    destruct (matches_detail _ _ _ d); [| done]. constructor; [done |]. rewrite Forall_forall in *. intros x [Hx _]%list_elem_of_In%filter_In.
    apply F. by apply list_elem_of_In.
  - intros d. unfold L. rewrite list_elem_of_In, filter_In, <- list_elem_of_In. destruct (bl_listing _ _ _ _ Hds) as [_ P]. rewrite P, bl_elements.
    naive_solver.
Qed.
End Listing.

(** ** A backtest restored as running *)

Section Restart.
Context {D : DecimalOps} `{Columns : !ColumnOps}.
Variable w : Wiring.
Variable backtestStore : bool.
Variables parse_rfc3339 parse_date : string -> option Time.
Variables (id : string) (d : BacktestDetail).
Hypothesis running : bd_Status d = BtRunning.

(** The server knows the backtest, the service does not. *)
Definition stuck (s : bserver) : Prop :=
  s_backtests s !! id = Some d /\ is_Some (s_owner s !! id) /\ backtests (s_service s) !! id = None.

Notation ssafe := (safe (Ch := BChoice) (Tag := option string) stuck (fun _ _ _ => True) (fun _ _ => True)).
Notation T := (fun _ => True).

Lemma bl_then {A B} t (p : prog bserver BChoice A) (k : A -> prog bserver BChoice B) (phi : A -> Prop) :
  ssafe t p T (fun a _ => phi a) -> (forall a, phi a -> ssafe t (k a) T (fun _ => T)) -> ssafe t (p ≫= k) T (fun _ => T).
Proof.
  intros Hp Hk. eapply safe_bind; [exact Hp |]. intros a. apply (safe_pre _ _ _ _ _ _ (fun s => True /\ phi a)); [done |].
  apply safe_pure. apply Hk.
Qed.
Lemma bl_seq {A B} t (p : prog bserver BChoice A) (k : A -> prog bserver BChoice B) :
  ssafe t p T (fun _ => T) -> (forall a, ssafe t (k a) T (fun _ => T)) -> ssafe t (p ≫= k) T (fun _ => T).
Proof. apply safe_bind. Qed.
Lemma bl_atomic {A} t (f : BChoice -> bserver -> bserver * A) (phi : A -> Prop) :
  (forall c s, stuck s -> stuck (f c s).1 /\ phi (f c s).2) -> ssafe t (atomic f) T (fun a _ => phi a).
Proof. intros Hf. apply safe_atomic; [intros c s Hs _; destruct (Hf c s Hs); by split_and! | by intros a y s s' _ _ _]. Qed.
Lemma bl_quiet {A} t (f : BChoice -> bserver -> bserver * A) : (forall c s, stuck s -> stuck (f c s).1) -> ssafe t (atomic f) T (fun _ => T).
Proof. intros Hf. apply bl_atomic. by split; [apply Hf |]. Qed.
Lemma bl_ret {A} t (a : A) : ssafe t (Ret a) T (fun _ => T).
Proof. done. Qed.

Lemma bl_config t config : ssafe t (configAsset config) T (fun _ => T).
Proof.
  unfold configAsset. cbn zeta. destruct (bool_decide _); [apply bl_ret |]. apply bl_seq; [| intros ?; apply bl_ret].
  apply bl_seq; [by apply bl_quiet |]. intros [x|]; [apply bl_ret |]. apply bl_seq; [by apply bl_quiet |]. intros [books|e]; [| apply bl_ret].
  apply bl_seq; [by apply bl_quiet |]. intros ?. apply bl_seq; [by apply bl_quiet |]. intros [base|]; [| apply bl_ret].
  apply bl_seq; [by apply bl_quiet |]. intros [info|e]; [| apply bl_ret]. apply bl_seq; [by apply bl_quiet |]. intros ?. apply bl_ret.
Qed.
Lemma bl_summary t x : ssafe t (toSummary x) T (fun _ => T).
Proof. apply bl_seq; [apply bl_config |]. intros ?. apply bl_ret. Qed.
Lemma bl_summaries_safe t ds : ssafe t (summaries ds) T (fun _ => T).
Proof. induction ds as [|x ds IH]; [apply bl_ret |]. apply bl_seq; [apply bl_summary |]. intros ?. apply bl_seq; [exact IH |]. intros ?. apply bl_ret. Qed.

Lemma bl_save t i : ssafe t (saveBacktest backtestStore i) T (fun _ => T).
Proof.
  unfold saveBacktest. destruct (negb _); [apply bl_ret |]. apply bl_seq; [by apply bl_quiet |]. intros [x|]; [| apply bl_ret].
  cbn zeta. do 3 (apply bl_seq; [by apply bl_quiet |]; intros ?). apply bl_quiet. intros c s Hs. by destruct (bc_ok c).
Qed.
Lemma bl_publish t e u i payload : ssafe t (publishEvent w e u i payload) T (fun _ => T).
Proof. apply bl_quiet. intros c s Hs. simpl. unfold publish. by destruct (_ && _). Qed.

(** What is done to another backtest. *)
Lemma bl_set_other i x s : i <> id -> stuck s -> stuck (set_backtests (<[i := x]> (s_backtests s)) s).
Proof. intros Hne (A & B & C). split; [simpl; by rewrite lookup_insert_ne | done]. Qed.
Lemma bl_update_other i f s : i <> id -> stuck s -> stuck (update_backtest i f s).
Proof. intros Hne (A & B & C). split; [simpl; by rewrite lookup_alter_ne | done]. Qed.

Lemma bl_await t n i : i <> id -> ssafe t (awaitBacktestResult w backtestStore n i) T (fun _ => T).
Proof.
  intros Hne. apply bl_seq.
  - apply safe_atom. intros c s Hs _. destruct (move_bt BtSending BtSent n (s_service s)) as [sv|] eqn:Em; [| done].
    destruct (s_results s !! n) as [r|]; [| done]. split; [| split; [done |]; by exists T].
    unfold move_bt in Em. destruct (bts (s_service s) !! n) as [b|]; [| done]. destruct (bt_pc b); try done. by injection Em as <-.
  - intros r. apply bl_seq; [by apply bl_quiet |]. intros now. apply bl_seq.
    + apply bl_quiet. intros c s Hs. unfold settle. destruct (s_backtests s !! i); [| done]. destruct (bool_decide _); [done |].
      destruct (judge r) as [[st err] res]. by apply bl_set_other.
    + intros [[[evt user] payload]|]; [| apply bl_ret]. apply bl_seq; [apply bl_save |]. intros ?. apply bl_seq; [apply bl_publish |]. intros ?.
      destruct backtestStore; [by apply bl_quiet | apply bl_ret].
Qed.

Lemma bl_create t ctx body : ssafe t (createBacktest w backtestStore ctx body) T (fun _ => T).
Proof.
  unfold createBacktest. destruct body as [req|e]; [| apply bl_ret]. apply bl_then with (phi := fun i => i <> id).
  - apply safe_atom. intros c s Hs _. destruct (s_owner s !! bc_uuid c) eqn:E; [done |]. cbn zeta.
    assert (bc_uuid c <> id) as Hne by (intros E'; destruct Hs as (_ & [x Hx] & _); rewrite <- E' in Hx; congruence).
    split; [| split; [done |]; exists T; split; [done |]; split; [done |]; by intros y z _ _]. destruct Hs as (A & B & C).
    destruct backtestStore; (split; [done | split; [| done]]); simpl; by rewrite lookup_insert_ne.
  - intros i Hne. destruct (resolveStrategy _ _ _ _) as [[[def cfg] st]|[code e]]; [| apply bl_ret]. destruct (_ || _); [apply bl_ret |].
    destruct (resolveDORAUserID w ctx) as [v|e]; [| apply bl_ret]. cbn zeta. destruct (_ && _); [apply bl_ret |].
    apply bl_seq; [destruct (hasPreflight _); [by apply bl_quiet | apply bl_ret] |]. intros [[]|]; [apply bl_ret..|].
    apply bl_seq; [apply bl_quiet; intros c s (A & B & C); split; [done | split; [done |]]; simpl; by rewrite lookup_insert_ne |]. intros n.
    apply bl_seq; [by apply bl_quiet |]. intros now. unfold publishBacktest.
    apply bl_seq; [apply bl_quiet; intros c s Hs; by apply bl_set_other |]. intros ?. apply bl_seq; [apply bl_save |]. intros [_|e]; [| apply bl_ret].
    apply bl_seq; [destruct (doraUserIDFromContext ctx); [apply bl_publish | apply bl_ret] |]. intros ?.
    apply bl_seq; [apply safe_go; [done | by apply bl_await] |]. intros ?. by apply bl_quiet.
Qed.

Lemma bl_detail t i : ssafe t (read (fun s => s_backtests s !! i)) T (fun x _ => i = id -> x = Some d).
Proof. apply bl_atomic. intros c s Hs. split; [done |]. intros ->. apply Hs. Qed.

Lemma bl_metadata t ctx i : ssafe t (getBacktestMetadata w ctx i) T (fun _ => T).
Proof.
  unfold getBacktestMetadata, withOwnBacktest. destruct (resolveDORAUserID w ctx) as [u|e]; [| apply bl_ret].
  apply bl_seq; [by apply bl_quiet |]. intros [x|]; [| apply bl_ret]. destruct (bool_decide _); [| apply bl_ret].
  apply bl_seq; [apply bl_summary |]. intros ?. apply bl_ret.
Qed.

Lemma bl_get t ctx i : ssafe t (getBacktest w backtestStore ctx i) T (fun _ => T).
Proof.
  unfold getBacktest, withOwnBacktest. destruct (resolveDORAUserID w ctx) as [u|e]; [| apply bl_ret].
  eapply bl_then; [apply bl_detail |]. intros [x|] Hx; [| apply bl_ret]. destruct (bool_decide (bd_DORAUserID x = u)); [| apply bl_ret].
  apply bl_seq; [| intros ?; apply bl_seq; [apply bl_seq; [apply bl_config | intros ?; apply bl_ret] |]; intros ?; apply bl_ret].
  destruct (_ && _ && _) eqn:E; [| apply bl_ret].
  assert (i <> id) as Hne.
  { intros ->. specialize (Hx eq_refl). injection Hx as ->. rewrite running in E. by rewrite bool_decide_eq_false_2 in E. }
  apply bl_seq; [by apply bl_quiet |]. intros [res|e]; [| apply bl_ret]. apply bl_seq; [apply bl_quiet; intros c s Hs; by apply bl_update_other |].
  intros ?. apply bl_ret.
Qed.

Lemma bl_cancel t ctx i : ssafe t (cancelBacktest w backtestStore ctx i) T (fun _ => T).
Proof.
  unfold cancelBacktest. destruct (resolveDORAUserID w ctx) as [u|e]; [| apply bl_ret]. apply bl_seq; [by apply bl_quiet |].
  intros [x|]; [| apply bl_ret]. destruct (negb _); [apply bl_ret |].
  apply bl_then with (phi := fun a => a = Ok tt -> i <> id).
  - apply bl_atomic. intros c s (A & B & C). unfold stopBacktest, StopBacktest. destruct (backtests (s_service s) !! i) eqn:E; simpl; [| done].
    split; [done |]. intros _ ->. congruence.
  - intros [[]|e] Ha; [| apply bl_ret]. specialize (Ha eq_refl). apply bl_seq; [by apply bl_quiet |]. intros now.
    apply bl_seq; [apply bl_quiet; intros c s Hs; by apply bl_update_other |]. intros ?. apply bl_seq; [apply bl_save |].
    intros [_|e]; [| apply bl_ret]. apply bl_seq; [apply bl_publish |]. intros ?. apply bl_metadata.
Qed.

Lemma bl_sub fetch t ctx i q : ssafe t (getBacktestSubResource w backtestStore fetch ctx i q) T (fun _ => T).
Proof.
  unfold getBacktestSubResource. destruct (negb backtestStore); [apply bl_ret |]. destruct (resolveDORAUserID w ctx) as [u|e]; [| apply bl_ret].
  apply bl_seq; [by apply bl_quiet |]. intros [x|]; [| apply bl_ret]. destruct (bool_decide _); [| apply bl_ret].
  destruct (parsePagination q) as [page limit]. apply bl_seq; [by apply bl_quiet |]. intros ?. apply bl_ret.
Qed.

Lemma bl_list t ctx q : ssafe t (listBacktests w parse_rfc3339 parse_date ctx q) T (fun _ => T).
Proof.
  unfold listBacktests. destruct (resolveDORAUserID w ctx) as [u|e]; [| apply bl_ret]. cbn zeta.
  destruct (parseDateFilter _ _ q) as [from to], (parsePagination q) as [page limit].
  apply bl_seq; [by apply safe_await |]. intros ds. apply bl_seq; [apply bl_summaries_safe |]. intros ?. apply bl_ret.
Qed.

Lemma bl_serve r : ssafe (th_tag (serve w backtestStore parse_rfc3339 parse_date r)) (th_prog (serve w backtestStore parse_rfc3339 parse_date r)) T (fun _ => T).
Proof.
  destruct r as [n ctx method path q body]. simpl. apply bl_seq; [| intros resp; by apply bl_quiet].
  unfold handle. destruct (route _) as [o|resp]; [| apply bl_ret].
  destruct o; simpl; [apply bl_create | apply bl_list | apply bl_get | apply bl_metadata | apply bl_sub | apply bl_sub | apply bl_cancel].
Qed.

Lemma bl_world e s s' : stuck s -> world e s = Some s' -> stuck s'.
Proof.
  intros (A & B & C). destruct e as [n r|n|ok recs|ok recs|now]; simpl; [| | by intros [= <-]..].
  - unfold move_bt. destruct (bts (s_service s) !! n) as [b|]; [| done]. destruct (bt_pc b); try done. by intros [= <-].
  - unfold finish_bt. destruct (bts (s_service s) !! n) as [b|]; [| done]. destruct (bt_pc b); try done. intros [= <-].
    split; [done | split; [done |]]. simpl. rewrite lookup_delete_None. by right.
Qed.

Lemma bl_stuck ls s0 s : bt_run w backtestStore parse_rfc3339 parse_date ls (MkSystem s0 []) = Some s -> stuck s0 -> stuck (shared s).
Proof.
  intros Hr Hs. assert (sys_safe stuck (fun _ _ _ => True) (fun _ _ => True) s) as [? _]; [| done].
  eapply (cc_sound stuck (fun _ _ _ => True) (fun _ _ => True) world (serve w backtestStore parse_rfc3339 parse_date) (fun _ => True)); [done | | | | exact Hr | by apply tc_start].
  - intros e s1 s2 H1 H2. split; [by eapply bl_world | done].
  - intros r _. exists T. split; [done |]. split; [done |]. apply bl_serve.
  - apply Forall_forall. intros [] _; done.
Qed.
End Restart.

(** The server after a restart: the table is loaded, nothing runs. *)
Definition restarted {D : DecimalOps} `{!ColumnOps} (owner : gmap string string) (table : gmap string BacktestDetail) : bserver :=
  (RestoreBacktests true true (set_owner owner (set_table table NewBServer))).1.

(** A backtest that was running when the server stopped is running for
    ever after it has been restored: nothing computes it, no request and no
    goroutine changes its status, and its owner, who asks to cancel it, is told
    that it is not found. *)
Theorem restored_backtest_stays_running {D : DecimalOps} `{!ColumnOps} w parse_rfc3339 parse_date owner table id row ls s :
  table !! id = Some row -> bd_Status row = BtRunning -> is_Some (owner !! id) ->
  bt_run w true parse_rfc3339 parse_date ls (MkSystem (restarted owner table) []) = Some s ->
  s_backtests (shared s) !! id = Some (set_result None row) /\
  forall c ctx, resolveDORAUserID w ctx = Ok (bd_DORAUserID row) ->
    solo c (cancelBacktest w true ctx id) (shared s) = Some (shared s, BtError StatusNotFound "backtest not found").
Proof.
  intros Ht Hs Ho Hr. destruct (bl_stuck w true parse_rfc3339 parse_date id (set_result None row) Hs ls _ s Hr) as (A & _ & C).
  { split; [| by split]. simpl. by rewrite map_union_empty, lookup_fmap, Ht. }
  split; [exact A |]. intros c ctx Hu. unfold cancelBacktest. rewrite Hu, bl_bind. unfold read, atomic. cbn [solo fst snd]. rewrite A.
  rewrite bool_decide_eq_true_2 by done. cbn [negb]. rewrite bl_bind. cbn [solo fst snd]. unfold stopBacktest, StopBacktest. by rewrite C.
Qed.

(** ** Concrete runs *)

Module QueriesDemo.
Import Demo RowsDemo.

Definition no_date (_ : string) : option Time := None.
Definition yes (order : list string) : BChoice := MkBChoice true "new" None (Ok []) (fun _ => Ok no_asset) order.
Definition detail (id user : string) (st : BtStatus) (created : Z) : BacktestDetail :=
  MkBacktestDetail id user "momentum" st (JObject []) (MkTime created 0) None "" (MkTime 1 0) (MkTime 2 0) None.
Definition rows : gmap string BacktestDetail :=
  <["b1" := detail "b1" "ann" BtRunning 5]> (<["b2" := detail "b2" "ann" BtCompleted 9]> (<["b3" := detail "b3" "bob" BtFailed 7]>
    (<["b4" := detail "b4" "ann" BtCompleted 3]> ∅))).
Definition owners : gmap string string := bd_DORAUserID <$> rows.
(** Page [i], two to a page, of what has completed. *)
Definition query (i : nat) : Query := fun k =>
  if bool_decide (k = "page"%string) then (match i with O => "1" | _ => "2" end)%string
  else if bool_decide (k = "limit"%string) then "2"%string
  else if bool_decide (k = "status"%string) then "completed"%string else ""%string.
Definition response (i : nat) : BtResponse :=
  match solo (yes ["b2"; "b1"; "b4"]) (listBacktests wiring no_date no_date (ctx "ann") (query i)) (restarted owners rows) with
  | Some (_, r) => r | None => BtPanic end.
Example listed : map (fun i => bs_ID <$> items_of (response i)) [0; 1]%nat = [["b2"; "b4"]; []]%string.
Proof. vm_compute. reflexivity. Qed.

(** A request to cancel, and one to create. *)
Definition after_restart : list (label BChoice BtWorld BtRequest) :=
  [LArrive (MkBtRequest 1 (ctx "ann") "DELETE" "/v1/backtests/b1" (query 0) (Err type_error));
   LArrive (MkBtRequest 2 (ctx "ann") "POST" "/v1/backtests" (query 0) (Ok (MkCreateBacktest "momentum" (book "x") (MkTime 1 0) (MkTime 2 0))))] ++
  replicate 3 (LThread 0 (yes [])) ++ replicate 9 (LThread 1 (yes [])) ++ [LEnv (EvResult 0 (ErrorResult "no data"))].
Definition final : system bserver BChoice (option string) :=
  default (MkSystem NewBServer []) (bt_run wiring true no_date no_date after_restart (MkSystem (restarted owners rows) [])).
Definition ends : bool := match bt_run wiring true no_date no_date after_restart (MkSystem (restarted owners rows) []) with Some _ => true | None => false end.
Lemma bl_final : ends = true -> bt_run wiring true no_date no_date after_restart (MkSystem (restarted owners rows) []) = Some final.
Proof. unfold ends, final. by destruct (bt_run _ _ _ _ _ _). Qed.
End QueriesDemo.

Import RowsDemo QueriesDemo.

Lemma restored_backtest_stays_running_witness :
  bd_Status <$> s_backtests (shared final) !! "b1"%string = Some BtRunning /\
  solo (yes []) (cancelBacktest Demo.wiring true (Demo.ctx "ann") "b1") (shared final) = Some (shared final, BtError StatusNotFound "backtest not found").
Proof.
  assert (ends = true) as He by (vm_compute; reflexivity). pose proof (bl_final He) as Hr.
  assert (QueriesDemo.rows !! "b1"%string = Some (detail "b1" "ann" BtRunning 5)) as Ht by (vm_compute; reflexivity).
  assert (is_Some (owners !! "b1"%string)) as Ho by (exists "ann"%string; vm_compute; reflexivity).
  assert (resolveDORAUserID Demo.wiring (Demo.ctx "ann") = Ok "ann"%string) as Hu by (vm_compute; reflexivity).
  destruct (restored_backtest_stays_running Demo.wiring QueriesDemo.no_date QueriesDemo.no_date owners QueriesDemo.rows "b1" _ after_restart final Ht eq_refl Ho Hr) as [Hd Hc].
  split; [exact (f_equal (fmap bd_Status) Hd) | exact (Hc (yes []) (Demo.ctx "ann") Hu)].
Defined.

Lemma bl_distinct user (m : gmap string BacktestDetail) :
  NoDup ((fun p : string * BacktestDetail => t_ns (bd_CreatedAt p.2)) <$> List.filter (fun p => bool_decide (bd_DORAUserID p.2 = user)) (map_to_list m)) ->
  distinct_times user m.
Proof.
  intros Hn i j a b Ha Hb Ua Ub E. set (l := List.filter _ _) in Hn.
  assert (forall k x, m !! k = Some x -> bd_DORAUserID x = user -> exists n, l !! n = Some (k, x)) as Hl.
  { intros k x Hk Hu. apply list_elem_of_lookup, list_elem_of_In, filter_In. split; [by apply list_elem_of_In, elem_of_map_to_list | by apply bool_decide_eq_true_2]. }
  destruct (Hl i a Ha Ua) as [n Hi], (Hl j b Hb Ub) as [k Hj].
  assert (n = k) as ->; [| congruence].
  eapply NoDup_lookup; [exact Hn | by rewrite list_lookup_fmap, Hi | rewrite list_lookup_fmap, Hj; simpl; by rewrite E].
Qed.

Lemma bl_alone (o : option (bserver * BtResponse)) (s : bserver) m : s_backtests s = m -> match o with Some _ => true | None => false end = true ->
  exists s', s_backtests s = m /\ o = Some (s', match o with Some (_, r) => r | None => BtPanic end).
Proof. destruct o as [[s' r]|]; [| done]. intros Hm _. by exists s'. Qed.

Lemma backtest_list_complete_witness : exists ds,
  Forall2 describes ds (concat (map (fun i => items_of (response i)) (seq 0 2))) /\ StronglySorted newer ds /\
  forall d, d ∈ ds <-> exists id, s_backtests (restarted owners QueriesDemo.rows) !! id = Some d /\ bd_DORAUserID d = "ann"%string /\
    matches_detail ["completed"%string] zero_time zero_time d = true.
Proof.
  destruct (backtest_list_complete Demo.wiring QueriesDemo.no_date QueriesDemo.no_date (Demo.ctx "ann") "ann"
    (s_backtests (restarted owners QueriesDemo.rows)) ["completed"%string] zero_time zero_time 2 2 query response) as (ds & _ & H1 & H2 & H3).
  - vm_compute. reflexivity.
  - apply bl_distinct, (bool_decide_eq_true_1 _). vm_compute. reflexivity.
  - split; discriminate.
  - discriminate.
  - repeat constructor.
  - apply Nat.leb_le. vm_compute. reflexivity.
  - intros i Hi. assert (i = 0%nat \/ i = 1%nat) as Hc by lia. unfold answers.
    destruct Hc as [-> | ->].
    all: split; [vm_compute; reflexivity |]; split; [vm_compute; reflexivity |]; split; [vm_compute; reflexivity |].
    all: exists (yes ["b2"; "b1"; "b4"]%string), (restarted owners QueriesDemo.rows); apply bl_alone; [reflexivity | vm_compute; reflexivity].
  - exists ds. exact (conj H1 (conj H2 H3)).
Defined.
