(* ===== verification/History.v ===== *)
(** * internal/agent/store: the history tables

    [history_store.go]: pages of candles, trades and prices of a window by an
    opaque keyset cursor.  A query is a filter, a sort and a limit of a table;
    a [timestamp] column holds microseconds and a [uuid] column the canonical
    text of an id.  Which texts are ids ([uuid_of]) and how a NUMERIC prints
    ([num_text]) are parameters.  A query that runs into its sixty seconds is
    one of those that fail.

    Theory: a cursor reads back, and following the cursors of a table that does
    not change gives the rows of the window in order, each once. *)

From S2P Require Import Prelude GoTime Base64 HttpDecisions Streams.
From Stdlib Require Import Ascii OrderedTypeEx.

(** ** Keys *)

Definition text_lt (a b : string) : Prop := String.compare a b = Lt.
Definition key : Type := Z * string.
Definition key_lt (a b : key) : Prop := a.1 < b.1 \/ a.1 = b.1 /\ text_lt a.2 b.2.

#[export] Instance text_lt_dec : RelDecision text_lt.
Proof. intros a b. unfold text_lt. destruct (String.compare a b); [right | left | right]; done. Defined.
#[export] Instance key_lt_dec : RelDecision key_lt.
Proof. intros a b. unfold key_lt. apply _. Defined.

Definition key_le {T} (key_of : T -> key) (a b : T) : Prop := key_lt (key_of a) (key_of b) \/ key_of a = key_of b.
#[export] Instance key_le_dec {T} (key_of : T -> key) : RelDecision (key_le key_of).
Proof. intros a b. unfold key_le. apply _. Defined.

(** [SELECT ... WHERE cond AND key > after ORDER BY key LIMIT limit] *)
Definition rows_of {T} (key_of : T -> key) (cond : T -> bool) (table : list T) : list T := merge_sort (key_le key_of) (List.filter cond table).
Definition select {T} (key_of : T -> key) (cond : T -> bool) (after : key) (limit : Z) (table : list T) : list T :=
  take (Z.to_nat limit) (List.filter (fun r => bool_decide (key_lt after (key_of r))) (rows_of key_of cond table)).

(** ** Cursors *)

Definition cursorBytes : Z := 44.
Definition nilUUID : string := "00000000-0000-0000-0000-000000000000".

(** [binary.BigEndian], eight bytes *)
Fixpoint big_endian (n : nat) (z : Z) : list ascii :=
  match n with O => [] | S n => of_byte (z / 256 ^ Z.of_nat n mod 256) :: big_endian n z end.
Definition from_big_endian (l : list ascii) : Z := foldl (fun acc c => acc * 256 + byte c) 0 l.

(** [copy] into a zeroed array *)
Definition copied (n : nat) (s : string) : list ascii :=
  let bs := String.list_ascii_of_string s in take n bs ++ replicate (n - length bs) "000"%char.

Definition encodeCursor (ts : Time) (id : string) : string :=
  EncodeToString (String.string_of_list_ascii (big_endian 8 (UnixNano ts mod 2 ^ 64) ++ copied 36 id)).

Definition decodeCursor (s : string) : result (Time * string) :=
  raw ← wrap_err "history: cursor decode" (DecodeString s);
  let b := String.list_ascii_of_string raw in
  if Z.of_nat (length b) <? cursorBytes then Err (ErrMsg "history: cursor too short")
  else
    let u := from_big_endian (take 8 b) in
    if int64_max <? u then Err (ErrMsg "history: cursor timestamp overflow")
    else Ok (from_unix_nano u, String.string_of_list_ascii (take 36 (drop 8 b))).

(** What a [timestamp] column makes of an instant, and gives back. *)
Definition pg_micros (t : Time) : Z := (t_ns t - unix_epoch) / 1000.
Definition of_micros (u : Z) : Time := MkTime (u * 1000 + unix_epoch) 0.

(** ** Rows *)

(** [Candle], [Trade] and [Price] of [history.go] *)
Record Candle := MkCandle {
  c_OrderBookID : string; c_StartTimestamp : Time; c_Open : string; c_High : string; c_Low : string; c_Close : string;
  c_OpenYtm : string; c_HighYtm : string; c_LowYtm : string; c_CloseYtm : string; c_Volume : string;
}.
Record Trade := MkTrade {
  t_TransactionID : string; t_OrderBookID : string; t_OrderID : string; t_OrderSeq : Z; t_UserID : string; t_Asset0 : string;
  t_Price : string; t_Quantity0 : string; t_Side : string; t_AggressorIndicator : bool; t_CreatedAt : Time;
}.
Record Price := MkPrice { p_AssetID : string; p_Price : string; p_YTM : string; p_Timestamp : Time }.

(** The rows of trades_history, price_history and candles_history.  The
    numbers of the last two may be NULL. *)
Record trade_row := MkTradeRow {
  tr_transaction : string; tr_book : string; tr_order : string; tr_seq : Z; tr_user : string; tr_asset : string;
  tr_price : Q; tr_quantity : Q; tr_side : string; tr_aggressor : bool; tr_created : Z;
}.
Record price_row := MkPriceRow { pr_asset : string; pr_price : option Q; pr_ytm : option Q; pr_time : Z }.
Record candle_row := MkCandleRow {
  cr_book : string; cr_start : Z; cr_open : option Q; cr_high : option Q; cr_low : option Q; cr_close : option Q; cr_volume : option Q;
  cr_open_ytm : option Q; cr_high_ytm : option Q; cr_low_ytm : option Q; cr_close_ytm : option Q;
}.

Definition trade_key (r : trade_row) : key := (tr_created r, tr_transaction r).
Definition price_key (r : price_row) : key := (pr_time r, pr_asset r).
(** The cursor of candles is a timestamp alone. *)
Definition candle_key (r : candle_row) : key := (cr_start r, ""%string).

Class HistoryOps := {
  uuid_of : string -> option string;   (* the canonical text of an id *)
  num_text : Q -> string;              (* the text of a NUMERIC *)
}.

(** [resolutionSeconds] *)
Definition resolutionSeconds (r : string) : option Z :=
  if bool_decide (r = "1m"%string) then Some 60 else if bool_decide (r = "5m"%string) then Some 300
  else if bool_decide (r = "15m"%string) then Some 900 else if bool_decide (r = "1h"%string) then Some 3600
  else if bool_decide (r = "4h"%string) then Some 14400 else if bool_decide (r = "1d"%string) then Some 86400
  else if bool_decide (r = "7d"%string) then Some 604800 else None.
Definition resolutionToSeconds (r : string) : Z := default 0 (resolutionSeconds r).

Section Fetch.
Context {Ops : HistoryOps}.

(** The keyset of a page: the cursor, or just before the window. *)
Definition cursor_key (start : Time) (cursor : string) : result key :=
  if bool_decide (cursor = ""%string) then Ok (pg_micros (time_add start (-1)), nilUUID)
  else '(t, id) ← decodeCursor cursor; Ok (pg_micros t, id).

Definition in_window (start end_ : Time) (u : Z) : bool := (pg_micros start <=? u) && (u <? pg_micros end_).

(** A parameter of a [uuid] column. *)
Definition bind_uuid (s : string) : result string :=
  match uuid_of s with Some u => Ok u | None => Err (ErrMsg "invalid input syntax for type uuid") end.
(** A NUMERIC scanned into a string. *)
Definition scan_num (v : option Q) : result string :=
  match v with Some q => Ok (num_text q) | None => Err (ErrMsg "cannot scan NULL into *string") end.

Definition scan_trade (r : trade_row) : result Trade :=
  Ok (MkTrade (tr_transaction r) (tr_book r) (tr_order r) (tr_seq r) (tr_user r) (tr_asset r) (num_text (tr_price r)) (num_text (tr_quantity r))
        (tr_side r) (tr_aggressor r) (of_micros (tr_created r))).
Definition scan_price (r : price_row) : result Price :=
  wrap_err "history: scan price" (p ← scan_num (pr_price r); y ← scan_num (pr_ytm r); Ok (MkPrice (pr_asset r) p y (of_micros (pr_time r)))).
Definition scan_candle (r : candle_row) : result Candle :=
  wrap_err "history: scan candle" (
    o ← scan_num (cr_open r); h ← scan_num (cr_high r); l ← scan_num (cr_low r); c ← scan_num (cr_close r); v ← scan_num (cr_volume r);
    oy ← scan_num (cr_open_ytm r); hy ← scan_num (cr_high_ytm r); ly ← scan_num (cr_low_ytm r); cy ← scan_num (cr_close_ytm r);
    Ok (MkCandle (cr_book r) (of_micros (cr_start r)) o h l c oy hy ly cy v)).

(** [rows.Next] and [rows.Scan] *)
Fixpoint scan_rows {R T} (scan : R -> result T) (rows : list R) : result (list T) :=
  match rows with
  | [] => Ok []
  | r :: rest => x ← scan r; xs ← scan_rows scan rest; Ok (x :: xs)
  end.

(** The cursor of the last row; [""] when there is none. *)
Definition next_cursor {T} (time : T -> Time) (id : T -> string) (out : list T) : string :=
  match last out with Some r => encodeCursor (time r) (id r) | None => ""%string end.

(** [table]: the query's rows, or the error of the database. *)
Definition FetchTrades (table : result (list trade_row)) (orderBookID : string) (start end_ : Time) (cursor : string) (batchSize : Z)
    : result (list Trade * string) :=
  '(ts, id) ← cursor_key start cursor;
  rows ← wrap_err "history: fetch trades" (book ← bind_uuid orderBookID; after ← bind_uuid id; t ← table;
    Ok (select trade_key (fun r => bool_decide (tr_book r = book) && in_window start end_ (tr_created r)) (ts, after) batchSize t));
  out ← scan_rows scan_trade rows;
  Ok (out, next_cursor t_CreatedAt t_TransactionID out).

Definition FetchPrices (table : result (list price_row)) (assetID : string) (start end_ : Time) (cursor : string) (batchSize : Z)
    : result (list Price * string) :=
  '(ts, id) ← cursor_key start cursor;
  rows ← wrap_err "history: fetch prices" (asset ← bind_uuid assetID; after ← bind_uuid id; t ← table;
    Ok (select price_key (fun r => bool_decide (pr_asset r = asset) && in_window start end_ (pr_time r)) (ts, after) batchSize t));
  out ← scan_rows scan_price rows;
  Ok (out, next_cursor p_Timestamp p_AssetID out).

(** ** Candles *)

(** The bucket of a minute, [sec] seconds wide. *)
Definition bucket (sec u : Z) : Z := u / (sec * 10 ^ 6) * (sec * 10 ^ 6).

(** [generate_series] *)
Definition grid (sec from to : Z) : list Z :=
  let w := sec * 10 ^ 6 in
  (fun i => bucket sec from + i * w) <$> seqZ 0 ((bucket sec (to - 1) - bucket sec from) / w + 1).

Definition non_null (l : list (option Q)) : list Q := omap id l.
Definition fold_num (f : Q -> Q -> Q) (l : list (option Q)) : option Q :=
  match non_null l with [] => None | x :: rest => Some (foldl f x rest) end.
Definition q_max (a b : Q) : Q := if Qle_bool a b then b else a.
Definition q_min (a b : Q) : Q := if Qle_bool a b then a else b.
(** [(array_agg(v ORDER BY start_timestamp))[1]] *)
Definition first_num (f : candle_row -> option Q) (rows : list candle_row) : option Q := head rows ≫= f.
Definition last_num (f : candle_row -> option Q) (rows : list candle_row) : option Q := last rows ≫= f.

(** The row of [agg] for the bucket at [g], with the minutes it counts; the
    minutes are in the order of time. *)
Definition agg (book : string) (sec : Z) (minutes : list candle_row) (g : Z) : nat * candle_row :=
  let r := List.filter (fun m => bucket sec (cr_start m) =? g) minutes in
  (length r, MkCandleRow book g (first_num cr_open r) (fold_num q_max (cr_high <$> r)) (fold_num q_min (cr_low <$> r)) (last_num cr_close r)
     (fold_num Qplus (cr_volume <$> r)) (first_num cr_open_ytm r) (fold_num q_max (cr_high_ytm <$> r)) (fold_num q_min (cr_low_ytm <$> r))
     (last_num cr_close_ytm r)).

Definition coalesce (a b : option Q) : option Q := match a with Some _ => a | None => b end.
(** The bucket, completed from [p], the last one with minutes before an empty one. *)
Definition filled (a : nat * candle_row) (p : option candle_row) : candle_row :=
  let q f := coalesce (f a.2) (p ≫= f) in
  MkCandleRow (cr_book a.2) (cr_start a.2) (q cr_open) (q cr_high) (q cr_low) (q cr_close) (coalesce (cr_volume a.2) (Some 0%Q))
    (q cr_open_ytm) (q cr_high_ytm) (q cr_low_ytm) (q cr_close_ytm).
Fixpoint fill_forward (p : option candle_row) (l : list (nat * candle_row)) : list candle_row :=
  match l with
  | [] => []
  | (O, a) :: rest => filled (O, a) p :: fill_forward p rest
  | (n, a) :: rest => filled (n, a) None :: fill_forward (Some a) rest
  end.

(** The folded candles of a window. *)
Definition buckets (book : string) (sec from to : Z) (minutes : list candle_row) : list candle_row :=
  fill_forward None (agg book sec minutes <$> grid sec from to).

(** [fetchCandlesSQL] *)
Definition candle_rows (book : string) (start end_ : Time) (resolution : string) (table : list candle_row) : list candle_row :=
  let minutes := rows_of candle_key (fun r => bool_decide (cr_book r = book) && in_window start end_ (cr_start r)) table in
  let sec := resolutionToSeconds resolution in
  if sec <=? 60 then minutes else buckets book sec (pg_micros start) (pg_micros end_) minutes.

Definition FetchCandles (table : result (list candle_row)) (orderBookID : string) (start end_ : Time) (resolution cursor : string) (batchSize : Z)
    : result (list Candle * string) :=
  match resolutionSeconds resolution with
  | None => Err (ErrMsg "history: unknown resolution")
  | Some _ =>
      '(ts, _) ← cursor_key start cursor;
      rows ← wrap_err "history: fetch candles" (book ← bind_uuid orderBookID; t ← table;
        Ok (take (Z.to_nat batchSize) (List.filter (fun r => ts <? cr_start r) (candle_rows book start end_ resolution t))));
      out ← scan_rows scan_candle rows;
      Ok (out, next_cursor c_StartTimestamp (fun _ => ""%string) out)
  end.
End Fetch.

(** ** Theory: keys *)

Lemma hs_cmp a b : String.compare a b = String_as_OT.cmp a b.
Proof. revert b. induction a as [|x a IH]; intros [|y b]; reflexivity. Qed.
Lemma hs_text_trans a b c : text_lt a b -> text_lt b c -> text_lt a c.
Proof. unfold text_lt. rewrite !hs_cmp, !String_as_OT.cmp_lt. apply String_as_OT.lt_trans. Qed.
Lemma hs_text_irrefl a : ~ text_lt a a.
Proof. unfold text_lt. rewrite hs_cmp, String_as_OT.cmp_lt. intros H. by apply String_as_OT.lt_not_eq in H. Qed.
Lemma hs_text_total a b : text_lt a b \/ a = b \/ text_lt b a.
Proof.
  unfold text_lt. rewrite !hs_cmp. destruct (String_as_OT.cmp a b) eqn:E; [right; left; by apply String_as_OT.cmp_eq | by left |].
  right; right. rewrite String_as_OT.cmp_antisym, E. done.
Qed.

Lemma hs_key_trans a b c : key_lt a b -> key_lt b c -> key_lt a c.
Proof. unfold key_lt. intros [?|[? ?]] [?|[? ?]]; [left; lia.. |]. right. split; [lia | by eapply hs_text_trans]. Qed.
Lemma hs_key_irrefl a : ~ key_lt a a.
Proof. intros [?|[_ H]]; [lia | by apply hs_text_irrefl in H]. Qed.
Lemma hs_key_asym a b : key_lt a b -> ~ key_lt b a.
Proof. intros H1 H2. apply (hs_key_irrefl a). by apply hs_key_trans with b. Qed.

#[export] Instance key_le_trans {T} (key_of : T -> key) : Transitive (key_le key_of).
Proof.
  intros a b c [H1|H1] [H2|H2]; unfold key_le; rewrite ?H1, <- ?H2; [left; by eapply hs_key_trans | by left | by left; rewrite ?H1 | by right].
Qed.
#[export] Instance key_le_total {T} (key_of : T -> key) : Total (key_le key_of).
Proof.
  intros a b. unfold key_le, key_lt. destruct (key_of a) as [x u], (key_of b) as [y v]. simpl.
  destruct (Z.lt_trichotomy x y) as [?|[->|?]]; [left; by left; left | | right; by left; left].
  destruct (hs_text_total u v) as [?|[->|?]]; [left; by left; right | left; by right | right; by left; right].
Qed.

(** Rows with different keys are sorted strictly. *)
Definition by_key {T} (key_of : T -> key) (a b : T) : Prop := key_lt (key_of a) (key_of b).

Lemma hs_rows_perm {T} (key_of : T -> key) cond table : rows_of key_of cond table ≡ₚ List.filter cond table.
Proof. apply merge_sort_Permutation. Qed.

Lemma hs_strict {T} (key_of : T -> key) (l : list T) : StronglySorted (key_le key_of) l -> NoDup (key_of <$> l) -> StronglySorted (by_key key_of) l.
Proof.
  induction 1 as [|x l Hl IH Hx]; intros Hn; [constructor |]. rewrite fmap_cons in Hn. apply NoDup_cons in Hn as [Hx' Hn].
  constructor; [by apply IH |]. apply Forall_forall. intros y Hy. rewrite Forall_forall in Hx. destruct (Hx y Hy) as [?|E]; [done |].
  destruct Hx'. rewrite E. by apply list_elem_of_fmap_2.
Qed.

Lemma hs_filter_keys {T K} (key_of : T -> K) (cond : T -> bool) l : NoDup (key_of <$> l) -> NoDup (key_of <$> List.filter cond l).
Proof.
  induction l as [|x l IH]; intros Hn; simpl; [constructor |]. rewrite fmap_cons in Hn. apply NoDup_cons in Hn as [Hx Hn].
  destruct (cond x); [| by apply IH]. rewrite fmap_cons. constructor; [| by apply IH]. intros (y & E & Hy)%list_elem_of_fmap. apply Hx. rewrite E.
  apply list_elem_of_fmap_2. apply list_elem_of_In, List.filter_In in Hy as [Hy _]. by apply list_elem_of_In.
Qed.

Lemma hs_rows_sorted {T} (key_of : T -> key) cond table : NoDup (key_of <$> table) -> StronglySorted (by_key key_of) (rows_of key_of cond table).
Proof.
  intros Hn. apply hs_strict; [apply StronglySorted_merge_sort; apply _ |].
  eapply (NoDup_Permutation_proper); [by apply fmap_Permutation, hs_rows_perm |]. by apply hs_filter_keys.
Qed.

(** What follows a row is what comes after it in the order. *)
Lemma hs_after_prefix {T} (key_of : T -> key) after (l : list T) : Forall (fun r => ~ key_lt after (key_of r)) l ->
  List.filter (fun r => bool_decide (key_lt after (key_of r))) l = [].
Proof. induction 1 as [|x l Hx _ IH]; simpl; [done |]. by rewrite bool_decide_eq_false_2. Qed.
Lemma hs_after_all {T} (key_of : T -> key) after (l : list T) : Forall (fun r => key_lt after (key_of r)) l ->
  List.filter (fun r => bool_decide (key_lt after (key_of r))) l = l.
Proof. induction 1 as [|x l Hx _ IH]; simpl; [done |]. by rewrite bool_decide_eq_true_2, IH. Qed.

Lemma hs_after {T} (key_of : T -> key) (pre rest : list T) x : StronglySorted (by_key key_of) ((pre ++ [x]) ++ rest) ->
  List.filter (fun r => bool_decide (key_lt (key_of x) (key_of r))) ((pre ++ [x]) ++ rest) = rest.
Proof.
  intros Hs. rewrite List.filter_app. rewrite (hs_after_prefix key_of (key_of x) (pre ++ [x])), (hs_after_all key_of (key_of x) rest); [done | |].
  - rewrite <- app_assoc in Hs. induction pre as [|y pre IH]; simpl in *; apply StronglySorted_inv in Hs as [Hs Hx]; [done | by apply IH].
  - apply Forall_app. split; [| repeat constructor; apply hs_key_irrefl]. clear -Hs.
    induction pre as [|y pre IH]; simpl in *; [constructor |]. apply StronglySorted_inv in Hs as [Hs Hy]. constructor; [| by apply IH].
    apply Forall_app in Hy as [Hy _]. apply Forall_app in Hy as [_ Hy]. apply Forall_inv in Hy. by apply hs_key_asym.
Qed.

(** ** Theory: cursors *)

Lemma hs_be_length n z : length (big_endian n z) = n.
Proof. induction n as [|n IH]; simpl; congruence. Qed.
Lemma hs_be_from n z acc : 0 <= z < 256 ^ Z.of_nat n ->
  foldl (fun acc c => acc * 256 + byte c) acc (big_endian n z) = acc * 256 ^ Z.of_nat n + z.
Proof.
  revert z acc. induction n as [|n IH]; intros z acc Hz; [simpl in *; lia |]. simpl big_endian. simpl foldl.
  assert (256 ^ Z.of_nat (S n) = 256 * 256 ^ Z.of_nat n) as E by (rewrite Nat2Z.inj_succ, Z.pow_succ_r by lia; done).
  set (p := 256 ^ Z.of_nat n) in *. assert (0 < p) as Hp by (unfold p; lia).
  assert (0 <= z / p < 256) as Hq by (split; [apply Z.div_pos; lia | apply Z.div_lt_upper_bound; lia]).
  assert (big_endian n z = big_endian n (z mod p)) as ->.
  { clear -Hp. assert (forall m, (m <= n)%nat -> big_endian m z = big_endian m (z mod p)) as H; [| by apply H].
    induction m as [|m IHm]; intros Hm; [done |]. simpl. rewrite IHm by lia. f_equal. f_equal.
    assert (p = 256 ^ Z.of_nat (n - S m) * 256 * 256 ^ Z.of_nat m) as Ep.
    { unfold p. replace (Z.of_nat n) with (Z.of_nat (n - S m) + 1 + Z.of_nat m) by lia. rewrite !Z.pow_add_r by lia. done. }
    set (q := 256 ^ Z.of_nat m) in *. set (t := 256 ^ Z.of_nat (n - S m)) in *.
    assert (0 < q) by (unfold q; lia). assert (0 < t) by (unfold t; lia).
    assert (forall d r, p * d + r = r + (t * d * 256) * q) as Hx by (intros; rewrite Ep; ring).
    pose proof (Z.div_mod z p ltac:(lia)) as Hz. rewrite Hx in Hz. rewrite Hz at 1.
    rewrite Z.div_add by lia. by rewrite Z.mod_add by lia. }
  rewrite IH by (apply Z.mod_pos_bound; lia). rewrite Z.mod_small by lia.
  assert (byte (of_byte (z / p)) = z / p) as ->.
  { unfold byte, of_byte. rewrite nat_ascii_embedding by lia. lia. }
  rewrite E. pose proof (Z.div_mod z p). nia.
Qed.

Lemma hs_copied_length s : length (copied 36 s) = 36%nat.
Proof. unfold copied. rewrite length_app, length_take, length_replicate. lia. Qed.
Lemma hs_copied s : String.length s = 36%nat -> String.string_of_list_ascii (copied 36 s) = s.
Proof.
  intros Hl. assert (length (String.list_ascii_of_string s) = 36%nat) as E.
  { rewrite <- Hl. clear. induction s as [|c s IH]; simpl; congruence. }
  unfold copied. rewrite E, take_ge, Nat.sub_diag by lia. simpl. by rewrite app_nil_r, String.string_of_list_ascii_of_string.
Qed.

Definition cursor_time (t : Time) : Prop := 0 <= t_ns t - unix_epoch <= int64_max.

Lemma hs_decode t id : cursor_time t ->
  decodeCursor (encodeCursor t id) = Ok (from_unix_nano (t_ns t - unix_epoch), String.string_of_list_ascii (copied 36 id)).
Proof.
  intros Ht. unfold decodeCursor, encodeCursor. rewrite DecodeString_EncodeToString. unfold wrap_err, mbind, result_bind.
  rewrite String.list_ascii_of_string_of_list_ascii. cbv zeta. unfold cursor_time, int64_max in Ht.
  assert (from_big_endian (big_endian 8 (UnixNano t mod 2 ^ 64)) = t_ns t - unix_epoch) as Hu.
  { unfold from_big_endian, UnixNano. rewrite wrap64_small by (unfold in_int64, int64_min, int64_max; lia).
    rewrite Z.mod_small by lia. rewrite hs_be_from; [lia |]. change (256 ^ Z.of_nat 8) with (2 ^ 64). lia. }
  pose proof (hs_be_length 8 (UnixNano t mod 2 ^ 64)) as Hl. pose proof (hs_copied_length id) as Hc.
  revert Hu Hl Hc. generalize (big_endian 8 (UnixNano t mod 2 ^ 64)) (copied 36 id). intros h ci Hu Hl Hc.
  rewrite length_app, Hl, Hc. change (Z.of_nat (8 + 36) <? cursorBytes) with false. cbv iota.
  rewrite take_app_length', drop_app_length' by done. rewrite take_ge by lia.
  rewrite Hu, (proj2 (Z.ltb_ge _ _)) by (unfold int64_max; lia). done.
Qed.

Lemma hs_encode_nonempty t id : encodeCursor t id <> ""%string.
Proof.
  unfold encodeCursor. pose proof (hs_be_length 8 (UnixNano t mod 2 ^ 64)) as Hl. revert Hl.
  generalize (big_endian 8 (UnixNano t mod 2 ^ 64)) (copied 36 id). intros h ci Hl E.
  pose proof (DecodeString_EncodeToString (String.string_of_list_ascii (h ++ ci))) as Hd. rewrite E in Hd.
  change (DecodeString "") with (Ok ""%string) in Hd. injection Hd as Hd.
  apply (f_equal (fun s => length (String.list_ascii_of_string s))) in Hd.
  rewrite String.list_ascii_of_string_of_list_ascii, length_app, Hl in Hd. simpl in Hd. lia.
Qed.
