(* ===== verification/HistoryPages.v ===== *)
(** * Pages of history

    Theory of [History]: the cursors of a table that does not change lead
    through the trades, the prices and the candles of a window in order, each
    once, and then end; and what the candles of a window are of its minutes,
    said without the query ([candle_history]). *)

From S2P Require Import Prelude GoTime HttpDecisions Streams History.

(** ** Walking the pages *)

Definition dated (u : Z) : Prop := 0 <= u /\ u * 1000 <= int64_max.
(** Requests carry whole microseconds. *)
Definition whole_micros (t : Time) : Prop := t_ns t mod 1000 = 0.

(** A fetcher of pages as the prefetchers call it. *)
Definition paged {T} (f : string -> result (list T * string)) : pageFetcher T :=
  fun c => match f c with Ok (rows, next) => (rows, next, None) | Err e => ([], ""%string, Some e) end.

Section Walk.
Context {R T : Type} (scan : R -> result T) (cur : R -> string) (f : string -> result (list T * string)) (limit : nat) (L : list R).
Definition at_cursor (pre : list R) (c : string) : Prop := c = match last pre with Some r => cur r | None => ""%string end.
Hypothesis Hlimit : (0 < limit)%nat.
Hypothesis Hcur : forall r, cur r <> ""%string.
Hypothesis Hf : forall pre rest c, L = pre ++ rest -> at_cursor pre c -> f c = (out ← scan_rows scan (take limit rest);
  Ok (out, match last (take limit rest) with Some r => cur r | None => ""%string end)).

Lemma hs_scan_app l k out : scan_rows scan (l ++ k) = Ok out -> exists a b, scan_rows scan l = Ok a /\ scan_rows scan k = Ok b /\ out = a ++ b.
Proof.
  revert out. induction l as [|x l IH]; intros out; simpl; [intros H; by exists [], out |].
  destruct (scan x) as [y|]; [| done]. simpl. destruct (scan_rows scan (l ++ k)) as [ys|] eqn:E; [| done]. intros [= <-].
  destruct (IH ys eq_refl) as (a & b & -> & -> & ->). by exists (y :: a), b.
Qed.
Lemma hs_scan_length l out : scan_rows scan l = Ok out -> length out = length l.
Proof.
  revert out. induction l as [|x l IH]; intros out; simpl; [by intros [= <-] |].
  destruct (scan x) as [y|]; [| done]. simpl. destruct (scan_rows scan l) as [ys|]; [| done]. intros [= <-]. simpl. by rewrite (IH ys).
Qed.

(** What one call gives, and where the next one starts. *)
Lemma hs_page pre rest c out : L = pre ++ rest -> at_cursor pre c -> scan_rows scan rest = Ok out ->
  match rest with
  | [] => f c = Ok ([], ""%string) /\ out = []
  | _ => exists page next later, f c = Ok (page, next) /\ page <> [] /\ next <> ""%string /\ out = page ++ later /\
           scan_rows scan (drop limit rest) = Ok later /\ at_cursor (pre ++ take limit rest) next
  end.
Proof.
  intros E Hc Hs. rewrite (Hf pre rest c E Hc). destruct rest as [|x rest]; [rewrite take_nil; by injection Hs as <- |].
  rewrite <- (take_drop limit (x :: rest)) in Hs. apply hs_scan_app in Hs as (page & later & H1 & H2 & ->). rewrite H1. simpl.
  destruct limit as [|n] eqn:El; [lia |]. simpl take. destruct (last (x :: take n rest)) as [r|] eqn:Er; [| by apply last_None in Er].
  exists page, (cur r), later. split_and!; [done | | apply Hcur | done | done |].
  - intros ->. apply hs_scan_length in H1. done.
  - unfold at_cursor. by rewrite last_app, Er.
Qed.

Lemma hs_chain_from n pre rest c out : (length rest <= n)%nat -> L = pre ++ rest -> at_cursor pre c -> scan_rows scan rest = Ok out ->
  exists pages, chain (paged f) c pages /\ pages ≫= good_rows = out /\ Forall (fun p => pg_err p = None) pages.
Proof.
  revert pre rest c out. induction n as [|n IH]; intros pre rest c out Hn E Hc Hs; pose proof (hs_page pre rest c out E Hc Hs) as Hp.
  all: destruct rest as [|x rest]; [destruct Hp as [Hp ->]; exists [MkPage [] ""%string true None];
    assert (fetch_page (paged f) c = MkPage [] ""%string true None) as Ef by (unfold fetch_page, paged; by rewrite Hp); split_and!; [rewrite <- Ef; apply chain_end; by rewrite Ef | done | by repeat constructor] |].
  { simpl in Hn. lia. }
  destruct Hp as (page & next & later & Hp & Hne & _ & -> & Hl & Hat).
  assert (fetch_page (paged f) c = MkPage page next false None) as Ef by (unfold fetch_page, paged; rewrite Hp; by destruct page).
  destruct (IH (pre ++ take limit (x :: rest)) (drop limit (x :: rest)) next later) as (pages & H1 & H2 & H3); [| | done | done |].
  { rewrite length_drop. simpl in *. lia. }
  { by rewrite <- app_assoc, take_drop. }
  exists (MkPage page next false None :: pages). split_and!; [| | by constructor].
  - rewrite <- Ef. apply chain_more; rewrite Ef; done.
  - rewrite bind_cons, H2. done.
Qed.

Lemma hs_chain out : scan_rows scan L = Ok out ->
  exists pages, chain (paged f) ""%string pages /\ pages ≫= good_rows = out /\ Forall (fun p => pg_err p = None) pages.
Proof. intros Hs. by apply (hs_chain_from (length L) [] L). Qed.
End Walk.

Lemma hs_micros u : pg_micros (of_micros u) = u.
Proof. unfold pg_micros, of_micros. simpl. rewrite Z.add_simpl_r. apply Z.div_mul. lia. Qed.
Lemma hs_from_nano u : from_unix_nano (t_ns (of_micros u) - unix_epoch) = of_micros u.
Proof. unfold from_unix_nano, of_micros. simpl. f_equal. lia. Qed.

Section Cursors.
Context {Ops : HistoryOps}.

Lemma hs_cursor_first start : whole_micros start -> cursor_key start "" = Ok (pg_micros start - 1, nilUUID).
Proof.
  unfold whole_micros, cursor_key, pg_micros, time_add. simpl. intros Hw. do 2 f_equal.
  assert (unix_epoch mod 1000 = 0) as He by reflexivity.
  assert ((t_ns start - unix_epoch) mod 1000 = 0) as Hd by (rewrite Zminus_mod, Hw, He; done).
  replace (t_ns start + -1 - unix_epoch) with (t_ns start - unix_epoch - 1) by lia.
  revert Hd. generalize (t_ns start - unix_epoch). clear. intros x Hd. Z.to_euclidean_division_equations; lia.
Qed.
Lemma hs_cursor_next start u id : dated u -> cursor_key start (encodeCursor (of_micros u) id) = Ok (u, String.string_of_list_ascii (copied 36 id)).
Proof.
  intros [H0 H1]. unfold cursor_key. rewrite bool_decide_eq_false_2 by apply hs_encode_nonempty.
  rewrite hs_decode by (unfold cursor_time, of_micros; simpl; lia). unfold mbind, result_bind. by rewrite hs_from_nano, hs_micros.
Qed.

(** The cursor after the rows [pre] selects the rest. *)
Lemma hs_keyset {R} (key_of : R -> key) start L pre rest c : whole_micros start -> StronglySorted (by_key key_of) L ->
  Forall (fun r => pg_micros start <= (key_of r).1 /\ dated (key_of r).1 /\ String.length (key_of r).2 = 36%nat) L -> L = pre ++ rest ->
  at_cursor (fun r => encodeCursor (of_micros (key_of r).1) (key_of r).2) pre c ->
  exists after, cursor_key start c = Ok after /\ (after.2 = nilUUID \/ exists r, r ∈ L /\ after.2 = (key_of r).2) /\
    List.filter (fun r => bool_decide (key_lt after (key_of r))) L = rest.
Proof.
  intros Hw Hs Hl -> Hc. unfold at_cursor in Hc. destruct (last pre) as [x|] eqn:Ex; rewrite Hc.
  - apply last_Some in Ex as (pre' & ->). assert (x ∈ (pre' ++ [x]) ++ rest) as Hx by set_solver.
    pose proof Hl as Hl'. rewrite Forall_forall in Hl'. destruct (Hl' x Hx) as (_ & Hd & Hi). exists (key_of x). rewrite hs_cursor_next, hs_copied by done.
    split_and!; [by destruct (key_of x) | right; by exists x | by apply hs_after].
  - apply last_None in Ex as ->. rewrite hs_cursor_first by done. eexists. split; [done |]. split; [by left |]. apply hs_after_all.
    eapply Forall_impl; [exact Hl |]. intros r [H _]. left. simpl. lia.
Qed.

End Cursors.

(** ** The pages of a window *)

Lemma hs_next_cursor {R T} (scan : R -> result T) (time : T -> Time) (id : T -> string) (cur : R -> string) (l : list R) out :
  (forall r x, scan r = Ok x -> encodeCursor (time x) (id x) = cur r) -> scan_rows scan l = Ok out ->
  next_cursor time id out = match last l with Some r => cur r | None => ""%string end.
Proof.
  intros Hc. destruct l as [|r l _] using rev_ind; [by intros [= <-] |]. intros H. apply hs_scan_app in H as (a & b & Ha & Hb & ->). simpl in Hb.
  destruct (scan r) as [x|] eqn:E; [| done]. injection Hb as <-. unfold next_cursor. rewrite !last_snoc. by apply Hc.
Qed.
Lemma hs_scan_all {R T} (scan : R -> result T) (l : list R) : Forall (fun r => is_ok (scan r) = true) l -> exists out, scan_rows scan l = Ok out.
Proof.
  induction 1 as [|r l Hr _ [out IH]]; simpl; [by eexists |]. destruct (scan r); [| done]. simpl. rewrite IH. by eexists.
Qed.
(** The rows of a query, scanned, with the cursor of the last. *)
Lemma hs_fetched {R T} (scan : R -> result T) (time : T -> Time) (id : T -> string) (cur : R -> string) (l : list R) :
  (forall r x, scan r = Ok x -> encodeCursor (time x) (id x) = cur r) ->
  (out ← scan_rows scan l; Ok (out, next_cursor time id out)) =
  (out ← scan_rows scan l; Ok (out, match last l with Some r => cur r | None => ""%string end)).
Proof. intros Hc. destruct (scan_rows scan l) as [out|] eqn:E; [| done]. simpl. by rewrite (hs_next_cursor scan time id cur l). Qed.

Class HistoryLaws {Ops : HistoryOps} : Prop := {
  uuid_canonical s u : uuid_of s = Some u -> uuid_of u = Some u /\ String.length u = 36%nat;
  uuid_nil_text : uuid_of nilUUID = Some nilUUID;
}.

Section Complete.
Context {Ops : HistoryOps} {Laws : HistoryLaws}.

Definition known (id : string) : Prop := uuid_of id = Some id.

(** The primary keys, and instants a cursor can carry. *)
Record trades_ok (table : list trade_row) : Prop := {
  to_keys : NoDup (tr_transaction <$> table);
  to_rows : Forall (fun r => known (tr_transaction r) /\ dated (tr_created r)) table;
}.
Record prices_ok (table : list price_row) : Prop := {
  po_keys : NoDup (price_key <$> table);
  po_rows : Forall (fun r => known (pr_asset r) /\ dated (pr_time r) /\ is_Some (pr_price r) /\ is_Some (pr_ytm r)) table;
}.

Definition trades_of (book : string) (start end_ : Time) : list trade_row -> list trade_row :=
  rows_of trade_key (fun r => bool_decide (tr_book r = book) && in_window start end_ (tr_created r)).
Definition prices_of (asset : string) (start end_ : Time) : list price_row -> list price_row :=
  rows_of price_key (fun r => bool_decide (pr_asset r = asset) && in_window start end_ (pr_time r)).

Lemma hs_in_rows {T} (key_of : T -> key) cond table r : r ∈ rows_of key_of cond table -> r ∈ table /\ cond r = true.
Proof. rewrite (hs_rows_perm key_of cond table). intros H%list_elem_of_In%List.filter_In. by rewrite list_elem_of_In. Qed.
Lemma hs_window start end_ u : in_window start end_ u = true -> pg_micros start <= u.
Proof. unfold in_window. intros [H _]%andb_true_iff. lia. Qed.
Lemma hs_known id : known id -> String.length id = 36%nat.
Proof. intros H. by apply uuid_canonical in H as [_ ?]. Qed.

Lemma hs_trade_keys table : NoDup (tr_transaction <$> table) -> NoDup (trade_key <$> table).
Proof.
  intros H. apply (NoDup_fmap_1 snd). by rewrite <- list_fmap_compose.
Qed.

Lemma hs_trades_page table id book start end_ limit pre rest c : trades_ok table -> uuid_of id = Some book -> whole_micros start ->
  trades_of book start end_ table = pre ++ rest -> at_cursor (fun r => encodeCursor (of_micros (tr_created r)) (tr_transaction r)) pre c ->
  FetchTrades (Ok table) id start end_ c (Z.of_nat limit) = (out ← scan_rows scan_trade (take limit rest);
    Ok (out, match last (take limit rest) with Some r => encodeCursor (of_micros (tr_created r)) (tr_transaction r) | None => ""%string end)).
Proof.
  intros [Hk Hr] Hb Hw E Hc. set (L := trades_of book start end_ table) in *.
  assert (forall r, r ∈ L -> pg_micros start <= tr_created r /\ dated (tr_created r) /\ known (tr_transaction r)) as HL.
  { intros r [Hin Hcond]%hs_in_rows. rewrite Forall_forall in Hr. destruct (Hr r Hin) as [? ?]. apply andb_true_iff in Hcond as [_ ?%hs_window]. done. }
  destruct (hs_keyset trade_key start L pre rest c) as ([ts aid] & Ha & Hid & Hf); [done | by apply hs_rows_sorted, hs_trade_keys | | done | done |].
  { apply Forall_forall. intros r (? & ? & ?%hs_known)%HL. done. }
  assert (uuid_of aid = Some aid) as Haid by (simpl in Hid; destruct Hid as [-> | (r & (_ & _ & ?)%HL & ->)]; [apply uuid_nil_text | done]).
  unfold FetchTrades. rewrite Ha. simpl. unfold bind_uuid. rewrite Hb, Haid. simpl. unfold select. rewrite Nat2Z.id. fold (trades_of book start end_ table). fold L.
  rewrite Hf. apply hs_fetched. by intros r x [= <-].
Qed.

(** Following the cursors gives the trades of the window in the order of time
    and id, each once, and then ends. *)
Theorem history_trades_complete table id book start end_ limit : trades_ok table -> uuid_of id = Some book -> whole_micros start -> (0 < limit)%nat ->
  exists pages, chain (paged (fun c => FetchTrades (Ok table) id start end_ c (Z.of_nat limit))) "" pages /\
    Forall (fun p => pg_err p = None) pages /\ scan_rows scan_trade (trades_of book start end_ table) = Ok (pages ≫= good_rows).
Proof.
  intros Ht Hb Hw Hl. set (L := trades_of book start end_ table).
  destruct (hs_scan_all scan_trade L) as [out Hs]; [by apply Forall_forall |].
  destruct (hs_chain scan_trade (fun r => encodeCursor (of_micros (tr_created r)) (tr_transaction r))
              (fun c => FetchTrades (Ok table) id start end_ c (Z.of_nat limit)) limit L Hl) with (out := out) as (pages & H1 & H2 & H3); [| | done |].
  - intros r. apply hs_encode_nonempty.
  - intros pre rest c E Hc. by apply (hs_trades_page table id book start end_ limit pre).
  - exists pages. by rewrite H2.
Qed.

Lemma hs_prices_page table id asset start end_ limit pre rest c : prices_ok table -> uuid_of id = Some asset -> whole_micros start ->
  prices_of asset start end_ table = pre ++ rest -> at_cursor (fun r => encodeCursor (of_micros (pr_time r)) (pr_asset r)) pre c ->
  FetchPrices (Ok table) id start end_ c (Z.of_nat limit) = (out ← scan_rows scan_price (take limit rest);
    Ok (out, match last (take limit rest) with Some r => encodeCursor (of_micros (pr_time r)) (pr_asset r) | None => ""%string end)).
Proof.
  intros [Hk Hr] Hb Hw E Hc. set (L := prices_of asset start end_ table) in *.
  assert (forall r, r ∈ L -> pg_micros start <= pr_time r /\ dated (pr_time r) /\ known (pr_asset r)) as HL.
  { intros r [Hin Hcond]%hs_in_rows. rewrite Forall_forall in Hr. destruct (Hr r Hin) as (? & ? & _). apply andb_true_iff in Hcond as [_ ?%hs_window]. done. }
  destruct (hs_keyset price_key start L pre rest c) as ([ts aid] & Ha & Hid & Hf); [done | by apply hs_rows_sorted | | done | done |].
  { apply Forall_forall. intros r (? & ? & ?%hs_known)%HL. done. }
  assert (uuid_of aid = Some aid) as Haid by (simpl in Hid; destruct Hid as [-> | (r & (_ & _ & ?)%HL & ->)]; [apply uuid_nil_text | done]).
  unfold FetchPrices. rewrite Ha. simpl. unfold bind_uuid. rewrite Hb, Haid. simpl. unfold select. rewrite Nat2Z.id. fold (prices_of asset start end_ table). fold L.
  rewrite Hf. apply hs_fetched. intros r x. unfold scan_price. destruct (scan_num (pr_price r)); [| done]. simpl.
  destruct (scan_num (pr_ytm r)); [| done]. by intros [= <-].
Qed.

Lemma hs_prices_scan table asset start end_ : prices_ok table -> exists out, scan_rows scan_price (prices_of asset start end_ table) = Ok out.
Proof.
  intros [_ Hr]. apply hs_scan_all, Forall_forall. intros r [Hin _]%hs_in_rows. rewrite Forall_forall in Hr.
  destruct (Hr r Hin) as (_ & _ & [p Hp] & [y Hy]). unfold scan_price. by rewrite Hp, Hy.
Qed.

(** The same for the prices of an asset. *)
Theorem history_prices_complete table id asset start end_ limit : prices_ok table -> uuid_of id = Some asset -> whole_micros start -> (0 < limit)%nat ->
  exists pages, chain (paged (fun c => FetchPrices (Ok table) id start end_ c (Z.of_nat limit))) "" pages /\
    Forall (fun p => pg_err p = None) pages /\ scan_rows scan_price (prices_of asset start end_ table) = Ok (pages ≫= good_rows).
Proof.
  intros Ht Hb Hw Hl. set (L := prices_of asset start end_ table). destruct (hs_prices_scan table asset start end_ Ht) as [out Hs].
  destruct (hs_chain scan_price (fun r => encodeCursor (of_micros (pr_time r)) (pr_asset r))
              (fun c => FetchPrices (Ok table) id start end_ c (Z.of_nat limit)) limit L Hl) with (out := out) as (pages & H1 & H2 & H3); [| | done |].
  - intros r. apply hs_encode_nonempty.
  - intros pre rest c E Hc. by apply (hs_prices_page table id asset start end_ limit pre).
  - exists pages. by rewrite H2.
Qed.

(** *** Candles *)

(** What following the cursors gives: a bucket that starts before the window
    is left out, since the first keyset is the start of the window. *)
Definition candles_of (book : string) (start end_ : Time) (resolution : string) (table : list candle_row) : list candle_row :=
  List.filter (fun r => pg_micros start <=? cr_start r) (candle_rows book start end_ resolution table).

Lemma hs_fill_starts p l : cr_start <$> fill_forward p l = (fun a => cr_start a.2) <$> l.
Proof. revert p. induction l as [|[[|n] a] l IH]; intros p; simpl; [done | |]; by rewrite IH. Qed.

(** No bucket is missing: the candles start at every multiple of the
    resolution from the one the window starts in to the one it ends in. *)
Lemma hs_bucket_starts book sec from to minutes : cr_start <$> buckets book sec from to minutes = grid sec from to.
Proof.
  unfold buckets. rewrite hs_fill_starts, <- list_fmap_compose. unfold compose. simpl. apply list_fmap_id.
Qed.

Lemma hs_grid_sorted sec from to : 0 < sec -> StronglySorted Z.lt (grid sec from to).
Proof.
  intros Hs. unfold grid. set (n := _ + 1). assert (0 < sec * 10 ^ 6) as Hw by lia. revert Hw. generalize (sec * 10 ^ 6) (bucket sec from). clear. intros w b Hw.
  generalize 0 as m. destruct (Z.le_gt_cases n 0) as [Hn|Hn]; [intros m; rewrite seqZ_nil by done; constructor |].
  remember (Z.to_nat n) as k eqn:Ek. assert (n = Z.of_nat k) as -> by lia. clear Ek Hn. induction k as [|k IH]; intros m; [constructor |].
  rewrite seqZ_cons by lia. replace (Z.pred (Z.of_nat (S k))) with (Z.of_nat k) by lia. rewrite fmap_cons. constructor; [apply IH |].
  apply Forall_forall. intros x (i & -> & Hi)%list_elem_of_fmap. apply elem_of_seqZ in Hi. nia.
Qed.

Lemma hs_grid_bounds sec from to g : 0 < sec -> g ∈ grid sec from to -> g < to.
Proof.
  intros Hs (i & -> & Hi)%list_elem_of_fmap. apply elem_of_seqZ in Hi. unfold bucket in *. set (w := sec * 10 ^ 6) in *. assert (0 < w) as Hw by lia.
  pose proof (Z.div_mod (to - 1) w ltac:(lia)). pose proof (Z.mod_pos_bound (to - 1) w Hw).
  rewrite <- Z.mul_sub_distr_r, Z.div_mul in Hi by lia. nia.
Qed.

Lemma hs_resolution r s : resolutionSeconds r = Some s -> 0 < s.
Proof. unfold resolutionSeconds. repeat (destruct (bool_decide _); [by intros [= <-] |]). done. Qed.

Definition candle_pk (r : candle_row) : string * Z := (cr_book r, cr_start r).
Record candles_ok (table : list candle_row) : Prop := {
  co_keys : NoDup (candle_pk <$> table);
}.

Lemma hs_sorted_starts l : StronglySorted Z.lt (cr_start <$> l) -> StronglySorted (by_key candle_key) l.
Proof.
  induction l as [|x l IH]; [constructor |]. rewrite fmap_cons. intros [H1 H2]%StronglySorted_inv. constructor; [by apply IH |].
  apply Forall_forall. intros y Hy. rewrite Forall_forall in H2. left. apply (H2 (cr_start y)). by apply list_elem_of_fmap_2.
Qed.

Lemma hs_candle_rows book start end_ resolution sec table : candles_ok table -> resolutionSeconds resolution = Some sec ->
  StronglySorted (by_key candle_key) (candle_rows book start end_ resolution table) /\
  Forall (fun r => cr_start r < pg_micros end_) (candle_rows book start end_ resolution table).
Proof.
  intros [Hk] Hr. unfold candle_rows, resolutionToSeconds. rewrite Hr. simpl. set (cond := fun r => _). destruct (sec <=? 60) eqn:Es.
  - split.
    + apply hs_strict; [apply StronglySorted_merge_sort; apply _ |].
      eapply (NoDup_Permutation_proper); [apply fmap_Permutation, hs_rows_perm |].
      apply (hs_filter_keys _ cond) in Hk.
      assert (Forall (fun r => cr_book r = book) (List.filter cond table)) as Hb.
      { apply Forall_forall. intros r [_ Hc]%list_elem_of_In%List.filter_In. unfold cond in Hc. apply andb_true_iff in Hc as [Hc _]. by apply bool_decide_eq_true in Hc. }
      clear -Hk Hb. revert Hk. induction Hb as [|x l Hx Hb IH]; [constructor |]. rewrite !fmap_cons, !NoDup_cons. intros [H1 H2].
      constructor; [| by apply IH]. intros (y & E & Hy)%list_elem_of_fmap. apply H1. apply list_elem_of_fmap. exists y. split; [| done].
      rewrite Forall_forall in Hb. unfold candle_pk. rewrite Hx, (Hb y Hy). unfold candle_key in E. congruence.
    + apply Forall_forall. intros r [_ Hc]%hs_in_rows. unfold cond, in_window in Hc. apply andb_true_iff in Hc as [_ Hc]. apply andb_true_iff in Hc as [_ Hc]. lia.
  - pose proof (hs_resolution _ _ Hr) as Hs. split.
    + apply hs_sorted_starts. rewrite hs_bucket_starts. by apply hs_grid_sorted.
    + apply Forall_forall. intros r Hin. apply (hs_grid_bounds sec (pg_micros start)); [done |]. rewrite <- (hs_bucket_starts book sec (pg_micros start) (pg_micros end_) (rows_of candle_key cond table)).
      by apply list_elem_of_fmap_2.
Qed.

Lemma hs_filter_twice {A} (p q : A -> bool) l : (forall x, q x = true -> p x = true) -> List.filter q (List.filter p l) = List.filter q l.
Proof.
  intros H. induction l as [|x l IH]; simpl; [done |]. destruct (p x) eqn:Ep; simpl; [by rewrite IH |].
  destruct (q x) eqn:Eq; [by rewrite H in Ep | done].
Qed.
Lemma hs_filter_sorted {T} (key_of : T -> key) (p : T -> bool) l : StronglySorted (by_key key_of) l -> StronglySorted (by_key key_of) (List.filter p l).
Proof.
  induction 1 as [|x l Hl IH Hx]; simpl; [constructor |]. destruct (p x); [| done]. constructor; [done |].
  apply Forall_forall. intros y [Hy _]%list_elem_of_In%List.filter_In. rewrite Forall_forall in Hx. apply Hx. by apply list_elem_of_In.
Qed.

Definition carried_window (start end_ : Time) : Prop := whole_micros start /\ 0 <= pg_micros start /\ pg_micros end_ * 1000 <= int64_max.

Lemma hs_candles_page table id book start end_ resolution sec limit pre rest c : candles_ok table -> uuid_of id = Some book ->
  resolutionSeconds resolution = Some sec -> carried_window start end_ ->
  candles_of book start end_ resolution table = pre ++ rest -> at_cursor (fun r => encodeCursor (of_micros (cr_start r)) "") pre c ->
  FetchCandles (Ok table) id start end_ resolution c (Z.of_nat limit) = (out ← scan_rows scan_candle (take limit rest);
    Ok (out, match last (take limit rest) with Some r => encodeCursor (of_micros (cr_start r)) "" | None => ""%string end)).
Proof.
  intros Ht Hb Hr (Hw & H0 & Hm) E Hc. destruct (hs_candle_rows book start end_ resolution sec table Ht Hr) as [Hs Hlt].
  unfold FetchCandles. rewrite Hr. set (L := candle_rows book start end_ resolution table) in *.
  assert (exists ts x, cursor_key start c = Ok (ts, x) /\ List.filter (fun r => ts <? cr_start r) L = rest) as (ts & x & Ha & Hf).
  { assert (StronglySorted (by_key candle_key) (candles_of book start end_ resolution table)) as Hs' by by apply hs_filter_sorted.
    rewrite E in Hs'. unfold at_cursor in Hc. destruct (last pre) as [r|] eqn:Er.
    - apply last_Some in Er as (pre' & ->). assert (r ∈ candles_of book start end_ resolution table) as Hin by (rewrite E; set_solver).
      apply list_elem_of_In, List.filter_In in Hin as [Hin Hge]. rewrite Forall_forall in Hlt. pose proof (Hlt r ltac:(by apply list_elem_of_In)) as Hr'.
      assert (dated (cr_start r)) as Hd by (unfold dated; lia). exists (cr_start r), (String.string_of_list_ascii (copied 36 "")). rewrite Hc. split; [by apply hs_cursor_next |].
      rewrite <- (hs_after candle_key pre' rest r Hs'), <- E.
      transitivity (List.filter (fun y => cr_start r <? cr_start y) (candles_of book start end_ resolution table)).
      { symmetry. apply hs_filter_twice. intros y Hy. lia. }
      apply List.filter_ext. intros y. destruct (bool_decide_reflect (key_lt (candle_key r) (candle_key y))) as [[?|[_ Hx]]|Hn]; simpl in *.
      + lia.
      + by apply hs_text_irrefl in Hx.
      + apply Z.ltb_ge. destruct (Z.le_gt_cases (cr_start y) (cr_start r)); [done |]. destruct Hn. left. simpl. lia.
    - apply last_None in Er as ->. exists (pg_micros start - 1), nilUUID. rewrite Hc. split; [by apply hs_cursor_first |].
      rewrite <- (app_nil_l rest), <- E. apply List.filter_ext. intros y. lia. }
  rewrite Ha. unfold bind_uuid. rewrite Hb. cbn [mbind result_bind wrap_err]. fold L. rewrite Hf, Nat2Z.id. apply hs_fetched. intros r y. unfold scan_candle.
  destruct (scan_num (cr_open r)); [simpl | done]. destruct (scan_num (cr_high r)); [simpl | done]. destruct (scan_num (cr_low r)); [simpl | done].
  destruct (scan_num (cr_close r)); [simpl | done]. destruct (scan_num (cr_volume r)); [simpl | done]. destruct (scan_num (cr_open_ytm r)); [simpl | done].
  destruct (scan_num (cr_high_ytm r)); [simpl | done]. destruct (scan_num (cr_low_ytm r)); [simpl | done]. destruct (scan_num (cr_close_ytm r)); [simpl | done].
  by intros [= <-].
Qed.

(** The same for the candles of an order book, when none has a NULL. *)
Theorem history_candles_complete table id book start end_ resolution sec limit out : candles_ok table -> uuid_of id = Some book ->
  resolutionSeconds resolution = Some sec -> carried_window start end_ -> (0 < limit)%nat ->
  scan_rows scan_candle (candles_of book start end_ resolution table) = Ok out ->
  exists pages, chain (paged (fun c => FetchCandles (Ok table) id start end_ resolution c (Z.of_nat limit))) "" pages /\
    Forall (fun p => pg_err p = None) pages /\ pages ≫= good_rows = out.
Proof.
  intros Ht Hb Hr Hw Hl Hs. set (L := candles_of book start end_ resolution table) in *.
  destruct (hs_chain scan_candle (fun r => encodeCursor (of_micros (cr_start r)) "")
              (fun c => FetchCandles (Ok table) id start end_ resolution c (Z.of_nat limit)) limit L Hl) with (out := out) as (pages & H1 & H2 & H3); [| | done |].
  - intros r. apply hs_encode_nonempty.
  - intros pre rest c E Hc. by apply (hs_candles_page table id book start end_ resolution sec limit pre).
  - by exists pages.
Qed.
(** *** What the candles of a window are

    The specification says it without the query: the rows of a table with a
    property, in the order of their keys, and what a candle is of its minutes. *)

Definition listed {T} (key_of : T -> key) (P : T -> Prop) (table rows : list T) : Prop :=
  StronglySorted (by_key key_of) rows /\ forall r, r ∈ rows <-> r ∈ table /\ P r.

Lemma hs_listed {T} (key_of : T -> key) (cond : T -> bool) (P : T -> Prop) table : (forall r, cond r = true <-> P r) ->
  StronglySorted (by_key key_of) (rows_of key_of cond table) -> listed key_of P table (rows_of key_of cond table).
Proof.
  intros HP Hs. split; [done |]. intros r. rewrite (hs_rows_perm key_of cond table), list_elem_of_In, List.filter_In, <- list_elem_of_In. by rewrite HP.
Qed.

Definition window_minute (book : string) (from to : Z) (m : candle_row) : Prop := cr_book m = book /\ from <= cr_start m < to.
Definition bucket_minute (book : string) (w from to g : Z) (m : candle_row) : Prop := window_minute book from to m /\ g <= cr_start m < g + w.

Definition prices (r : candle_row) : list (option Q) :=
  [cr_open r; cr_high r; cr_low r; cr_close r; cr_open_ytm r; cr_high_ytm r; cr_low_ytm r; cr_close_ytm r].

(** The number that is before or at every other; NULL when there is none. *)
Definition extreme (le : Q -> Q -> Prop) (f : candle_row -> option Q) (ms : list candle_row) (v : option Q) : Prop :=
  match v with
  | None => forall m, m ∈ ms -> f m = None
  | Some q => (exists m, m ∈ ms /\ f m = Some q) /\ forall m x, m ∈ ms -> f m = Some x -> le x q
  end.

(** The candle of the minutes [ms], which are in the order of time. *)
Record folded (ms : list candle_row) (r : candle_row) : Prop := {
  fo_open : cr_open r = head ms ≫= cr_open; fo_open_ytm : cr_open_ytm r = head ms ≫= cr_open_ytm;
  fo_close : cr_close r = last ms ≫= cr_close; fo_close_ytm : cr_close_ytm r = last ms ≫= cr_close_ytm;
  fo_high : extreme Qle cr_high ms (cr_high r); fo_high_ytm : extreme Qle cr_high_ytm ms (cr_high_ytm r);
  fo_low : extreme (fun x y => Qle y x) cr_low ms (cr_low r); fo_low_ytm : extreme (fun x y => Qle y x) cr_low_ytm ms (cr_low_ytm r);
}.

(** Candles [w] apart from the start of the window to its end, none missing;
    one without minutes carries the prices of the one before. *)
Record candle_grid (book : string) (w from to : Z) (table rows : list candle_row) : Prop := {
  cg_length : length rows = Z.to_nat ((to - from + w - 1) / w);
  cg_rows i r : rows !! i = Some r ->
    cr_book r = book /\ cr_start r = from + Z.of_nat i * w /\
    exists ms, listed candle_key (bucket_minute book w from to (cr_start r)) table ms /\
      (exists v, cr_volume r = Some v /\ (v == foldr Qplus 0 (omap cr_volume ms))%Q) /\
      (ms <> [] -> folded ms r) /\
      (ms = [] -> prices r = match i with O => replicate 8 None | S j => default [] (prices <$> rows !! j) end);
}.

Definition candle_history (book : string) (sec from to : Z) (table rows : list candle_row) : Prop :=
  if sec <=? 60 then listed candle_key (window_minute book from to) table rows else candle_grid book (sec * 10 ^ 6) from to table rows.

Lemma hs_fold_extreme (le : Q -> Q -> Prop) (g : Q -> Q -> Q) (f : candle_row -> option Q) ms : Reflexive le -> Transitive le ->
  (forall a b, (g a b = a \/ g a b = b) /\ le a (g a b) /\ le b (g a b)) -> extreme le f ms (fold_num g (f <$> ms)).
Proof.
  intros Hr Ht Hg. unfold fold_num. assert (forall x, x ∈ non_null (f <$> ms) <-> exists m, m ∈ ms /\ f m = Some x) as Hin.
  { intros x. unfold non_null. rewrite list_elem_of_omap. setoid_rewrite list_elem_of_fmap. unfold id. naive_solver. }
  destruct (non_null (f <$> ms)) as [|x l] eqn:E; simpl.
  - intros m Hm. destruct (f m) as [y|] eqn:Ey; [| done]. exfalso. assert (y ∈ @nil Q) as H by (apply Hin; eauto). by apply elem_of_nil in H.
  - assert (foldl g x l ∈ x :: l /\ forall y, y ∈ x :: l -> le y (foldl g x l)) as [H1 H2].
    { clear E Hin. revert x. induction l as [|z l IH]; intros x; simpl.
      - split; [set_solver |]. intros y ->%list_elem_of_singleton. apply Hr.
      - destruct (IH (g x z)) as [H1 H2], (Hg x z) as [Hx [Hx1 Hx2]]. assert (le (g x z) (foldl g (g x z) l)) as Hle by (apply H2; set_solver). split.
        + apply elem_of_cons in H1 as [->|H1]; [| set_solver]. destruct Hx as [-> | ->]; set_solver.
        + intros y [->|[->|Hy]%elem_of_cons]%elem_of_cons; [by etrans | by etrans | apply H2; set_solver]. }
    split; [by apply Hin |]. intros m y Hm Hy. apply H2, Hin. eauto.
Qed.
Lemma hs_max (a b : Q) : (q_max a b = a \/ q_max a b = b) /\ (a <= q_max a b)%Q /\ (b <= q_max a b)%Q.
Proof.
  unfold q_max. destruct (Qle_bool a b) eqn:E.
  - apply Qle_bool_iff in E. split; [first [by left | by right] | split; lra].
  - assert (b < a)%Q as H by (apply Qnot_le_lt; rewrite <- Qle_bool_iff; congruence). split; [first [by left | by right] | split; lra].
Qed.
Lemma hs_min (a b : Q) : (q_min a b = a \/ q_min a b = b) /\ (q_min a b <= a)%Q /\ (q_min a b <= b)%Q.
Proof.
  unfold q_min. destruct (Qle_bool a b) eqn:E.
  - apply Qle_bool_iff in E. split; [first [by left | by right] | split; lra].
  - assert (b < a)%Q as H by (apply Qnot_le_lt; rewrite <- Qle_bool_iff; congruence). split; [first [by left | by right] | split; lra].
Qed.

Lemma hs_fold_sum l : exists v, coalesce (fold_num Qplus l) (Some 0%Q) = Some v /\ (v == foldr Qplus 0 (non_null l))%Q.
Proof.
  unfold fold_num. destruct (non_null l) as [|x k]; simpl; [by eexists |]. eexists. split; [done |].
  revert x. induction k as [|y k IH]; intros x; simpl; [ring |]. rewrite IH. ring.
Qed.
Lemma hs_omap_sum {A} (f : A -> option Q) (ms : list A) : omap f ms = non_null (f <$> ms).
Proof. induction ms as [|m ms IH]; [done |]. unfold non_null in *. csimpl. unfold id at 1. destruct (f m); by rewrite IH. Qed.

(** A bucket of [agg], completed. *)
Lemma hs_agg book sec minutes g : let a := agg book sec minutes g in
  let ms := List.filter (fun m => bucket sec (cr_start m) =? g) minutes in
  a.1 = length ms /\ cr_book a.2 = book /\ cr_start a.2 = g /\ folded ms a.2 /\
  (exists v, coalesce (cr_volume a.2) (Some 0%Q) = Some v /\ (v == foldr Qplus 0 (omap cr_volume ms))%Q) /\ (ms = [] -> prices a.2 = replicate 8 None).
Proof.
  intros a ms. split_and!; try done.
  - split; try done; simpl; apply hs_fold_extreme; try (intros x; apply Qle_refl); try (intros x y z; (apply Qle_trans || (intros; by eapply Qle_trans)));
      (apply hs_max || apply hs_min).
  - rewrite hs_omap_sum. apply hs_fold_sum.
  - intros E. unfold a, agg, prices. cbn [snd cr_open cr_high cr_low cr_close cr_open_ytm cr_high_ytm cr_low_ytm cr_close_ytm]. fold ms. by rewrite E.
Qed.

Definition prices_before (p : option candle_row) : list (option Q) := match p with Some q => prices q | None => replicate 8 None end.
Lemma hs_fill l : Forall (fun a : nat * candle_row => a.1 = 0%nat -> prices a.2 = replicate 8 None) l -> forall p i a, l !! i = Some a ->
  exists r, fill_forward p l !! i = Some r /\ cr_book r = cr_book a.2 /\ cr_start r = cr_start a.2 /\ cr_volume r = coalesce (cr_volume a.2) (Some 0%Q) /\
    (a.1 <> 0%nat -> prices r = prices a.2) /\
    (a.1 = 0%nat -> prices r = match i with O => prices_before p | S j => default [] (prices <$> fill_forward p l !! j) end).
Proof.
  assert (forall n x, prices (filled (n, x) None) = prices x) as Hnone.
  { intros n x. unfold prices, filled. simpl. destruct x as [? ? [] [] [] [] ? [] [] [] []]; done. }
  assert (forall x p, prices x = replicate 8 None -> prices (filled (0%nat, x) p) = prices_before p) as Hcarry.
  { intros [] [q|] Hx; unfold prices in Hx; simpl in Hx; injection Hx as -> -> -> -> -> -> -> ->; done. }
  induction 1 as [|[n x] l Hx Hl IH]; intros p i a Hi; [done |]. destruct i as [|i]; simpl in Hi.
  - injection Hi as <-. destruct n as [|n]; simpl; (eexists; split; [reflexivity |]); split_and!; try done.
    + intros _. by apply Hcarry, Hx.
  - destruct n as [|n]; simpl in *.
    + destruct (IH p i a Hi) as (r & Hr & H1 & H2 & H3 & H4 & H5). exists r. split_and!; try done. intros Ha. rewrite (H5 Ha).
      destruct i as [|i]; [simpl; by rewrite Hcarry by auto | done].
    + destruct (IH (Some x) i a Hi) as (r & Hr & H1 & H2 & H3 & H4 & H5). exists r. split_and!; try done. intros Ha. rewrite (H5 Ha).
      destruct i as [|i]; [simpl; by rewrite Hnone | done].
Qed.
Lemma hs_grid_aligned sec from to : 0 < sec -> from mod (sec * 10 ^ 6) = 0 ->
  let w := sec * 10 ^ 6 in let n := Z.to_nat ((to - from + w - 1) / w) in
  grid sec from to = (fun i => from + i * w) <$> seqZ 0 (Z.of_nat n).
Proof.
  intros Hs Ha w n. unfold grid. fold w. assert (0 < w) as Hw by (unfold w; lia). fold w in Ha. pose proof (Z.div_mod from w ltac:(lia)) as Hf.
  assert (bucket sec from = from) as -> by (unfold bucket; fold w; lia).
  assert ((bucket sec (to - 1) - from) / w + 1 = (to - from + w - 1) / w) as ->.
  { unfold bucket. fold w. replace (to - from + w - 1) with (to - 1 + (1 - from / w) * w) by lia. rewrite Z.div_add by lia.
    replace ((to - 1) / w * w - from) with (((to - 1) / w - from / w) * w) by lia. rewrite Z.div_mul by lia. lia. }
  unfold n. destruct (Z.le_gt_cases 0 ((to - from + w - 1) / w)); [by rewrite Z2Nat.id | by rewrite !seqZ_nil by lia].
Qed.
Lemma hs_bucket_range sec u g : 0 < sec -> g mod (sec * 10 ^ 6) = 0 -> bucket sec u = g <-> g <= u < g + sec * 10 ^ 6.
Proof.
  intros Hs Hg. unfold bucket. set (w := sec * 10 ^ 6) in *. assert (0 < w) as Hw by (unfold w; lia).
  pose proof (Z.div_mod g w ltac:(lia)). pose proof (Z.div_mod u w ltac:(lia)). pose proof (Z.mod_pos_bound u w Hw). split; intros Hx; [lia |].
  assert (u / w = g / w) as ->; [| lia]. symmetry. apply (Z.div_unique_pos u w (g / w) (u - g)); lia.
Qed.

Lemma hs_candle_grid book sec start end_ table : candles_ok table -> 0 < sec -> pg_micros start mod (sec * 10 ^ 6) = 0 ->
  StronglySorted (by_key candle_key) (rows_of candle_key (fun r => bool_decide (cr_book r = book) && in_window start end_ (cr_start r)) table) ->
  candle_grid book (sec * 10 ^ 6) (pg_micros start) (pg_micros end_) table (buckets book sec (pg_micros start) (pg_micros end_)
    (rows_of candle_key (fun r => bool_decide (cr_book r = book) && in_window start end_ (cr_start r)) table)).
Proof.
  intros Ht Hs Ha Hsort. set (minutes := rows_of _ _ _) in *. set (from := pg_micros start) in *. set (to := pg_micros end_) in *.
  set (w := sec * 10 ^ 6) in *. pose proof (hs_grid_aligned sec from to Hs Ha) as Hg. cbn zeta in Hg. fold w in Hg. set (n := Z.to_nat _) in Hg.
  assert (Forall (fun a : nat * candle_row => a.1 = 0%nat -> prices a.2 = replicate 8 None) (agg book sec minutes <$> grid sec from to)) as Hempty.
  { apply Forall_fmap, Forall_forall. intros g _. unfold compose. destruct (hs_agg book sec minutes g) as (E1 & _ & _ & _ & _ & E). intros H0. apply E.
    rewrite E1 in H0. by apply length_zero_iff_nil. }
  split; unfold buckets.
  - transitivity (length (cr_start <$> buckets book sec from to minutes)); [by rewrite length_fmap |]. rewrite hs_bucket_starts, Hg, length_fmap, length_seqZ. fold n. lia.
  - intros i r Hr. assert (exists g, grid sec from to !! i = Some g /\ g = from + Z.of_nat i * w) as (g & Hi & Eg).
    { assert (is_Some (grid sec from to !! i)) as [g Hi].
      { rewrite <- (hs_bucket_starts book sec from to minutes). rewrite list_lookup_fmap. unfold buckets. by rewrite Hr. }
      exists g. split; [done |]. rewrite Hg, list_lookup_fmap in Hi. apply fmap_Some in Hi as (j & Hj & ->). apply lookup_seqZ in Hj as [-> _]. lia. }
    destruct (hs_fill _ Hempty None i (agg book sec minutes g)) as (r' & Hr' & H1 & H2 & H3 & H4 & H5); [by rewrite list_lookup_fmap, Hi |].
    rewrite Hr in Hr'. injection Hr' as <-. destruct (hs_agg book sec minutes g) as (E1 & E2 & E3 & E4 & E5 & E6). set (ms := List.filter _ minutes) in *.
    split_and!; [congruence | congruence |]. exists ms. split; [| split_and!].
    + rewrite H2, E3. split; [by apply hs_filter_sorted |]. intros m. unfold ms, minutes.
      rewrite list_elem_of_In, List.filter_In, <- list_elem_of_In, (hs_rows_perm candle_key), list_elem_of_In, List.filter_In, <- list_elem_of_In.
      unfold bucket_minute, window_minute, in_window. rewrite Z.eqb_eq, (hs_bucket_range sec (cr_start m) g Hs) by (fold w; rewrite Eg, Z.add_mod, Z.mod_mul, Ha by lia; done).
      rewrite !andb_true_iff, bool_decide_eq_true, Z.leb_le, Z.ltb_lt. fold from to w. tauto.
    + rewrite H3. exact E5.
    + intros Hne. assert (prices r = prices (agg book sec minutes g).2) as Hp by (apply H4; rewrite E1; by destruct ms).
      unfold prices in Hp. injection Hp as P1 P2 P3 P4 P5 P6 P7 P8. destruct E4. split; rewrite ?P1, ?P2, ?P3, ?P4, ?P5, ?P6, ?P7, ?P8; done.
    + intros He. rewrite (H5 ltac:(by rewrite E1, He)). done.
Qed.

(** The candles that are fetched are those of the specification, for a window
    that starts with a bucket. *)
Lemma hs_candles_of book start end_ resolution sec table : candles_ok table -> resolutionSeconds resolution = Some sec ->
  (60 < sec -> pg_micros start mod (sec * 10 ^ 6) = 0) ->
  candle_history book sec (pg_micros start) (pg_micros end_) table (candles_of book start end_ resolution table).
Proof.
  intros Ht Hr Ha. pose proof (hs_resolution _ _ Hr) as Hs. destruct (hs_candle_rows book start end_ resolution sec table Ht Hr) as [Hsort Hlt].
  destruct (hs_candle_rows book start end_ "1m" 60 table Ht eq_refl) as [Hminutes _]. unfold candle_rows in Hminutes. simpl in Hminutes.
  assert (forall rows, Forall (fun r => pg_micros start <= cr_start r) rows -> List.filter (fun r => pg_micros start <=? cr_start r) rows = rows) as Hall.
  { induction 1 as [|r rows H _ IH]; [done |]. simpl. by rewrite (proj2 (Z.leb_le _ _)), IH. }
  unfold candles_of, candle_history. unfold candle_rows, resolutionToSeconds in *. rewrite Hr in *. simpl in *. destruct (sec <=? 60) eqn:Es.
  - rewrite Hall.
    + apply hs_listed; [| done]. intros r. unfold in_window, window_minute. rewrite !andb_true_iff, bool_decide_eq_true, Z.leb_le, Z.ltb_lt. tauto.
    + apply Forall_forall. intros r [_ Hc]%hs_in_rows. unfold in_window in Hc. lia.
  - pose proof (hs_candle_grid book sec start end_ table Ht Hs (Ha ltac:(lia)) Hminutes) as Hg. rewrite Hall; [done |].
    apply Forall_lookup. intros i r Hi. destruct (cg_rows _ _ _ _ _ _ Hg i r Hi) as (_ & -> & _). nia.
Qed.

(** ** Histories without NULLs *)

(** The minutes of the window have all their numbers, and when there is a
    window its first candle has a minute. *)
Record candles_full (book : string) (sec from to : Z) (table : list candle_row) : Prop := {
  cf_numbers m : m ∈ table -> window_minute book from to m -> Forall is_Some (cr_volume m :: prices m);
  cf_first : 60 < sec -> from < to -> exists m, m ∈ table /\ bucket_minute book (sec * 10 ^ 6) from to from m;
}.

Lemma hs_extreme_some le f ms v : ms <> [] -> (forall m, m ∈ ms -> is_Some (f m)) -> extreme le f ms v -> is_Some v.
Proof.
  intros Hne Hf He. destruct v as [q|]; [done |]. destruct ms as [|m ms]; [done |]. specialize (Hf m ltac:(by left)). simpl in He.
  rewrite (He m ltac:(by left)) in Hf. by apply is_Some_None in Hf.
Qed.
Lemma hs_folded_some ms r : ms <> [] -> (forall m, m ∈ ms -> Forall is_Some (prices m)) -> folded ms r -> Forall is_Some (prices r).
Proof.
  intros Hne Hf [O1 O2 C1 C2 H1 H2 L1 L2].
  assert (forall m, m ∈ ms -> is_Some (cr_open m) /\ is_Some (cr_high m) /\ is_Some (cr_low m) /\ is_Some (cr_close m) /\
            is_Some (cr_open_ytm m) /\ is_Some (cr_high_ytm m) /\ is_Some (cr_low_ytm m) /\ is_Some (cr_close_ytm m)) as Hall.
  { intros m Hm. pose proof (Hf m Hm) as Hp. unfold prices in Hp. rewrite !Forall_cons in Hp. tauto. }
  assert (exists m, head ms = Some m /\ m ∈ ms) as (m & Hm & Hin) by (destruct ms as [|m l]; [done |]; exists m; split; [done | by left]).
  assert (exists m, last ms = Some m /\ m ∈ ms) as (m' & Hm' & Hin').
  { destruct (last ms) as [x|] eqn:E; [| by apply last_None in E]. exists x. split; [done |]. apply last_Some in E as (l & ->). set_solver. }
  unfold prices. rewrite O1, O2, C1, C2, Hm, Hm'. simpl. destruct (Hall m Hin) as (A1 & _ & _ & _ & A5 & _). destruct (Hall m' Hin') as (_ & _ & _ & A4 & _ & _ & _ & A8).
  repeat (apply Forall_cons_2); try apply Forall_nil_2; try done;
    [eapply (hs_extreme_some _ cr_high) | eapply (hs_extreme_some _ cr_low) | eapply (hs_extreme_some _ cr_high_ytm) | eapply (hs_extreme_some _ cr_low_ytm)];
    try done; intros x Hx; apply (Hall x Hx).
Qed.

Lemma hs_grid_full book w from to table rows : 0 < w -> candle_grid book w from to table rows ->
  (forall m, m ∈ table -> window_minute book from to m -> Forall is_Some (prices m)) ->
  (from < to -> exists m, m ∈ table /\ bucket_minute book w from to from m) ->
  forall i r, rows !! i = Some r -> Forall is_Some (cr_volume r :: prices r).
Proof.
  intros Hw [Hl Hg] Hn Hfirst. induction i as [|i IH]; intros r Hr; destruct (Hg _ r Hr) as (_ & Hst & ms & [_ Hms] & (v & Hv & _) & Hf & He);
    (constructor; [by rewrite Hv |]); (destruct (decide (ms = [])) as [E|E]; [| apply (hs_folded_some ms); [done | | by apply Hf]; intros m Hm;
      apply Hms in Hm as [Hm [Hm' _]]; by apply Hn]).
  - exfalso. apply lookup_lt_Some in Hr. assert (from < to) as Hlt.
    { apply Z.nle_gt. intros Hle. rewrite Hl in Hr. assert ((to - from + w - 1) / w < 1) by (apply Z.div_lt_upper_bound; lia). lia. }
    destruct (Hfirst Hlt) as (m & Hm1 & Hm2). assert (m ∈ ms) as Hin.
    { apply Hms. split; [done |]. replace (cr_start r) with from by lia. done. }
    rewrite E in Hin. by apply elem_of_nil in Hin.
  - rewrite (He E). apply lookup_lt_Some in Hr. destruct (lookup_lt_is_Some_2 rows i ltac:(lia)) as [q Hq]. rewrite Hq. simpl.
    specialize (IH q Hq). by apply Forall_cons in IH as [_ ?].
Qed.

Lemma hs_scan_candle r : Forall is_Some (cr_volume r :: prices r) -> is_ok (scan_candle r) = true.
Proof.
  unfold prices. rewrite !Forall_cons. intros ([? E1] & [? E2] & [? E3] & [? E4] & [? E5] & [? E6] & [? E7] & [? E8] & [? E9] & _).
  unfold scan_candle. by rewrite E1, E2, E3, E4, E5, E6, E7, E8, E9.
Qed.

(** Every candle of such a window can be read. *)
Lemma hs_candles_scan book start end_ resolution sec table : candles_ok table -> resolutionSeconds resolution = Some sec ->
  (60 < sec -> pg_micros start mod (sec * 10 ^ 6) = 0) -> candles_full book sec (pg_micros start) (pg_micros end_) table ->
  exists out, scan_rows scan_candle (candles_of book start end_ resolution table) = Ok out.
Proof.
  intros Ht Hr Ha [Hn Hfirst]. pose proof (hs_resolution _ _ Hr) as Hs. pose proof (hs_candles_of book start end_ resolution sec table Ht Hr Ha) as Hh.
  apply hs_scan_all. apply Forall_lookup. intros i r Hi. apply hs_scan_candle. unfold candle_history in Hh. destruct (sec <=? 60) eqn:Es.
  - destruct Hh as [_ Hin]. apply list_elem_of_lookup_2, Hin in Hi as [Hi1 Hi2]. by apply Hn.
  - eapply (hs_grid_full book (sec * 10 ^ 6)); [lia | exact Hh | | | exact Hi].
    + intros m Hm Hm'. specialize (Hn m Hm Hm'). by apply Forall_cons in Hn as [_ ?].
    + intros Hlt. apply Hfirst; lia.
Qed.

(** What is in the tables for a window, and what a fetch has read of it. *)
Lemma hs_trades_listed table book start end_ : trades_ok table ->
  listed trade_key (fun r => tr_book r = book /\ pg_micros start <= tr_created r < pg_micros end_) table (trades_of book start end_ table).
Proof.
  intros [Hk _]. apply hs_listed; [| by apply hs_rows_sorted, hs_trade_keys].
  intros r. unfold in_window. rewrite !andb_true_iff, bool_decide_eq_true, Z.leb_le, Z.ltb_lt. tauto.
Qed.
Lemma hs_prices_listed table asset start end_ : prices_ok table ->
  listed price_key (fun r => pr_asset r = asset /\ pg_micros start <= pr_time r < pg_micros end_) table (prices_of asset start end_ table).
Proof.
  intros [Hk _]. apply hs_listed; [| by apply hs_rows_sorted].
  intros r. unfold in_window. rewrite !andb_true_iff, bool_decide_eq_true, Z.leb_le, Z.ltb_lt. tauto.
Qed.
End Complete.

(** ** A window that starts with a gap

    A bucket without minutes and without one before it has no prices to carry
    forward: they are NULL, and NULL does not scan. *)

#[local] Instance demo_history : HistoryOps := {
  uuid_of s := if bool_decide (String.length s = 36%nat) then Some s else None;
  num_text q := "";
}.

Definition demo_book : string := "11111111-1111-1111-1111-111111111111".
Definition demo_minute (u : Z) : candle_row :=
  let one := Some 1%Q in MkCandleRow demo_book (u * 60000000) one one one one one one one one one.
Definition demo_at (minutes : Z) : Time := of_micros (minutes * 60000000).

Example history_leading_gap_fails : let minutes := demo_minute <$> [6; 7; 11]%Z in
  is_ok (FetchCandles (Ok minutes) demo_book (demo_at 0) (demo_at 20) "5m" "" 100) = false /\
  is_ok (FetchCandles (Ok minutes) demo_book (demo_at 5) (demo_at 20) "5m" "" 100) = true /\
  (c_StartTimestamp <$> match FetchCandles (Ok minutes) demo_book (demo_at 5) (demo_at 20) "5m" "" 100 with Ok (l, _) => l | Err _ => [] end) = demo_at <$> [5; 10; 15]%Z.
Proof. vm_compute. split_and!; reflexivity. Qed.

(** A window that starts inside a bucket: the bucket, and its minute, are lost. *)
Example history_first_bucket_lost : let minutes := demo_minute <$> [7; 11]%Z in
  (c_StartTimestamp <$> match FetchCandles (Ok minutes) demo_book (demo_at 6) (demo_at 20) "5m" "" 100 with Ok (l, _) => l | Err _ => [] end) = demo_at <$> [10; 15]%Z.
Proof. vm_compute. reflexivity. Qed.
