(* ===== verification/AgentBacktest.v ===== *)
(** * internal/agent/backtest: requests, results and rows

    [backtest.go], [validate.go], [summary.go], [poll.go] and the tables of
    [postgres.go] with the unique index of the migration: a user has at most
    one row that is queued or running.  A query that does not answer, or whose
    context has ended, changes nothing.  Floats are float64 without fused
    multiply-add; what a NUMERIC column makes of one is a parameter. *)

From S2P Require Import Prelude GoTime GoFloat History.
From Stdlib Require Import SpecFloat.

(** ** Data *)

Inductive Status := StatusQueued | StatusRunning | StatusSucceeded | StatusFailed | StatusCancelled.
#[export] Instance Status_eq_dec : EqDecision Status.
Proof. solve_decision. Defined.

(** The stats without [ParamsEffective], which nothing sets. *)
Record Summary := MkSummary {
  s_TotalReturn : float64; s_Sharpe : float64; s_MaxDrawdown : float64; s_TradeCount : Z; s_WinRate : float64;
  s_StartEquity : float64; s_EndEquity : float64;
}.

Record Fill := MkFill {
  f_Timestamp : Time; f_Side : string; f_Quantity : float64; f_Price : float64; f_OrderID : string; f_SimulatedAt : Time;
}.

Record Backtest := MkBacktest {
  b_ID : string; b_StrategyID : string; b_VersionID : string; b_UserID : string; b_Status : Status; b_RequestedAt : Time;
  b_StartedAt : option Time; b_FinishedAt : option Time; b_ErrorMessage : string; b_WindowStart : Time; b_WindowEnd : Time;
  b_Resolution : string; b_OrderBookID : string; b_Params : gmap string string; b_Summary : option Summary; b_FillCount : Z;
  b_WarmupCandles : Z;
}.

Record Request := MkRequest {
  q_Start : Time; q_End : Time; q_Resolution : string; q_OrderBookID : string; q_Params : gmap string string; q_WarmupCandles : Z;
}.

(** ** Validation *)

Definition maxWindowDays : Z := 365.
Definition MaxWarmupCandles : Z := 2 ^ 31 - 1.

Definition errInvalidWindow : error := ErrMsg "backtest: end must be after start".
Definition errInvalidResolution : error := ErrMsg "backtest: unsupported resolution".
Definition errWindowTooLong : error := ErrMsg "backtest: window exceeds 365 days".
Definition errMissingOrderBookID : error := ErrMsg "backtest: order_book_id is required".
Definition errWarmupOutOfRange : error := ErrMsg "backtest: warmup_candles must be between 0 and 2147483647".

Definition resolutions : list string := ["1m"; "5m"; "15m"; "1h"; "4h"; "1d"].

Definition ParseRequest (req : Request) : result unit :=
  if bool_decide (q_OrderBookID req = ""%string) then Err errMissingOrderBookID
  else if negb (time_after (q_End req) (q_Start req)) then Err errInvalidWindow
  else if maxWindowDays * 24 * Hour <? time_sub (q_End req) (q_Start req) then Err errWindowTooLong
  else if (q_WarmupCandles req <? 0) || (MaxWarmupCandles <? q_WarmupCandles req) then Err errWarmupOutOfRange
  else if bool_decide (q_Resolution req ∈ resolutions) then Ok tt else Err errInvalidResolution.

(** ** Summary *)

Definition defaultInitialEquity : float64 := f64_int 1000.
Definition tradingDaysPerYear : Z := 252.

Definition meanStd (v : list float64) : float64 * float64 :=
  if bool_decide (v = []) then (f64_zero, f64_zero)
  else
    let n := f64_int (Z.of_nat (length v)) in
    let mean := f64_div (foldl f64_add f64_zero v) n in
    let sqSum := foldl (fun acc x => let d := f64_sub x mean in f64_add acc (f64_mul d d)) f64_zero v in
    (mean, f64_sqrt (f64_div sqSum n)).

(** The variables of the loop of [Compute]; [a_prev] is the zero fill at first. *)
Record Account := MkAccount {
  a_equity : float64; a_peak : float64; a_maxDD : float64; a_wins : Z; a_buys : Z; a_returns : list float64; a_prev : Fill;
}.
Definition zero_fill : Fill := MkFill zero_time "" f64_zero f64_zero "" zero_time.

Definition apply_fill (initial : float64) (a : Account) (f : Fill) : Account :=
  let cash := f64_mul (f_Price f) (f_Quantity f) in
  let buy := bool_decide (f_Side f = "buy"%string) in
  let sell := bool_decide (f_Side f = "sell"%string) in
  let equity := if buy then f64_sub (a_equity a) cash else if sell then f64_add (a_equity a) cash else a_equity a in
  let win := sell && bool_decide (f_Side (a_prev a) = "buy"%string) && f64_gt (f_Price f) (f_Price (a_prev a)) in
  let peak := if f64_gt equity (a_peak a) then equity else a_peak a in
  let dd := f64_div (f64_sub peak equity) peak in
  MkAccount equity peak (if f64_gt peak f64_zero && f64_gt dd (a_maxDD a) then dd else a_maxDD a)
    (if win then a_wins a + 1 else a_wins a) (if buy then a_buys a + 1 else a_buys a)
    (a_returns a ++ [f64_div (f64_sub equity initial) initial]) f.

Definition open_account (initial : float64) : Account := MkAccount initial initial f64_zero 0 0 [] zero_fill.
Definition start_equity (initialEquity : float64) : float64 := if f64_le initialEquity f64_zero then defaultInitialEquity else initialEquity.
Definition replay_fills (initial : float64) (fills : list Fill) : Account := foldl (apply_fill initial) (open_account initial) fills.

Definition Compute (fills : list Fill) (initialEquity : float64) : Summary :=
  let initial := start_equity initialEquity in
  let a := replay_fills initial fills in
  let '(mean, std) := meanStd (a_returns a) in
  let sharpe := if (1 <? length (a_returns a))%nat && f64_gt std f64_zero
                then f64_mul (f64_div mean std) (f64_sqrt (f64_int tradingDaysPerYear)) else f64_zero in
  MkSummary (f64_div (f64_sub (a_equity a) initial) initial) sharpe (a_maxDD a) (Z.of_nat (length fills))
    (if 0 <? a_buys a then f64_div (f64_int (a_wins a)) (f64_int (a_buys a)) else f64_zero) initial (a_equity a).

(** [json.Marshal] refuses an infinity or a NaN. *)
Definition writable (s : Summary) : bool :=
  forallb f64_finite [s_TotalReturn s; s_Sharpe s; s_MaxDrawdown s; s_WinRate s; s_StartEquity s; s_EndEquity s].

(** ** The tables *)

Definition MaxPageSize : Z := 100.
Definition defaultPageSize : Z := 50.
#[export] Instance error_eq_dec : EqDecision error.
Proof. solve_decision. Defined.
Definition ErrNotFound : error := ErrMsg "backtest: not found".

(** A row of agent.backtest_fills; [fr_ID] is drawn at random. *)
Record fill_row := MkFillRow { fr_ID : string; fr_Backtest : string; fr_Fill : Fill }.

(** What a NUMERIC(20,8) gives back; [None]: it refuses. *)
Class FillColumn := { numeric_20_8 : float64 -> option float64 }.

Inductive DbError := UniqueViolation | DbFailed.

Definition active (s : Status) : bool := match s with StatusQueued | StatusRunning => true | _ => false end.
(** The index [backtests_user_active_uidx] against a row [id] of [user]. *)
Definition taken (rows : gmap string Backtest) (id user : string) : bool :=
  existsb (fun p => negb (bool_decide (p.1 = id)) && bool_decide (b_UserID p.2 = user) && active (b_Status p.2)) (map_to_list rows).

Definition set_state (st : Status) (started finished : option Time) (msg : string) (b : Backtest) : Backtest :=
  MkBacktest (b_ID b) (b_StrategyID b) (b_VersionID b) (b_UserID b) st (b_RequestedAt b) started finished msg (b_WindowStart b) (b_WindowEnd b)
    (b_Resolution b) (b_OrderBookID b) (b_Params b) (b_Summary b) (b_FillCount b) (b_WarmupCandles b).
Definition set_summary (s : Summary) (n : Z) (b : Backtest) : Backtest :=
  MkBacktest (b_ID b) (b_StrategyID b) (b_VersionID b) (b_UserID b) (b_Status b) (b_RequestedAt b) (b_StartedAt b) (b_FinishedAt b) (b_ErrorMessage b)
    (b_WindowStart b) (b_WindowEnd b) (b_Resolution b) (b_OrderBookID b) (b_Params b) (Some s) n (b_WarmupCandles b).

(** What the INSERT writes: the other columns have their defaults, and the
    warmup is not a column. *)
Definition inserted (now : Time) (b : Backtest) : Backtest :=
  MkBacktest (b_ID b) (b_StrategyID b) (b_VersionID b) (b_UserID b) StatusQueued now None None "" (b_WindowStart b) (b_WindowEnd b)
    (b_Resolution b) (b_OrderBookID b) (b_Params b) None 0 0.

(** [Create] of a backtest with an id; [alive]: the context has not ended and
    the database answers. *)
Definition Create (alive : bool) (now : Time) (b : Backtest) (rows : gmap string Backtest) : (unit + DbError) * gmap string Backtest :=
  if negb alive then (inr DbFailed, rows)
  else if bool_decide (is_Some (rows !! b_ID b)) || taken rows (b_ID b) (b_UserID b) then (inr UniqueViolation, rows)
  else (inl tt, <[b_ID b := inserted now b]> rows).

Definition Get (alive : bool) (id : string) (rows : gmap string Backtest) : result Backtest :=
  if negb alive then Err (ErrMsg "database") else match rows !! id with Some b => Ok b | None => Err ErrNotFound end.

(** [UPDATE ... WHERE id = $1]; a row that becomes active must pass the index. *)
Definition update_row (alive : bool) (f : Backtest -> Backtest) (id : string) (rows : gmap string Backtest) : bool * gmap string Backtest :=
  if negb alive then (false, rows)
  else match rows !! id with
       | None => (true, rows)
       | Some b => if active (b_Status (f b)) && taken rows id (b_UserID b) then (false, rows) else (true, <[id := f b]> rows)
       end.

Definition orelse {A} (a b : option A) : option A := match a with Some _ => a | None => b end.
Definition UpdateStatus (alive : bool) (id : string) (st : Status) (started finished : option Time) (msg : string) : gmap string Backtest -> bool * gmap string Backtest :=
  update_row alive (fun b => set_state st (orelse started (b_StartedAt b)) (orelse finished (b_FinishedAt b)) msg b) id.

Definition SetSummary (alive : bool) (now : Time) (id : string) (s : Summary) (fillCount : Z) (rows : gmap string Backtest) : bool * gmap string Backtest :=
  if negb (writable s) then (false, rows)
  else update_row alive (fun b => set_state StatusSucceeded (b_StartedAt b) (Some now) (b_ErrorMessage b) (set_summary s fillCount b)) id rows.

(** [CancelIfRunning]: whether it flipped the row. *)
Definition CancelIfRunning (alive : bool) (now : Time) (id : string) (rows : gmap string Backtest) : result bool * gmap string Backtest :=
  if negb alive then (Err (ErrMsg "database"), rows)
  else match rows !! id with
       | Some b => if active (b_Status b) then (Ok true, <[id := set_state StatusCancelled (b_StartedAt b) (Some now) "" b]> rows) else (Ok false, rows)
       | None => (Ok false, rows)
       end.

Definition FailOrphaned (alive : bool) (now : Time) (rows : gmap string Backtest) : result unit * gmap string Backtest :=
  if negb alive then (Err (ErrMsg "database"), rows)
  else (Ok tt, (fun b => if active (b_Status b) then set_state StatusFailed (b_StartedAt b) (Some now) "agent restarted" b else b) <$> rows).

(** [RunStartupJanitor] *)
Definition RunStartupJanitor (alive : bool) (now : Time) (rows : gmap string Backtest) : result unit * gmap string Backtest :=
  let '(r, rows') := FailOrphaned alive now rows in (wrap_err "fail orphaned backtests" r, rows').

Section Fills.
Context {Column : FillColumn}.

(** A row as the columns keep it: the side is one of two. *)
Definition column_fill (f : Fill) : option Fill :=
  if bool_decide (f_Side f = "buy"%string \/ f_Side f = "sell"%string) then
    q ← numeric_20_8 (f_Quantity f); p ← numeric_20_8 (f_Price f);
    Some (MkFill (f_Timestamp f) (f_Side f) q p (f_OrderID f) (f_SimulatedAt f))
  else None.

(** [COPY] takes all the rows or none. *)
Definition InsertFills (alive : bool) (ids : nat -> string) (backtestID : string) (fills : list Fill) (table : list fill_row) : bool * list fill_row :=
  match fills with
  | [] => (true, table)
  | _ => if negb alive then (false, table)
         else match mapM column_fill fills with
              | Some fs => (true, table ++ zip_with (fun i f => MkFillRow (ids i) backtestID f) (seq 0 (length fs)) fs)
              | None => (false, table)
              end
  end.
End Fills.

(** [ORDER BY timestamp, id] *)
Definition fill_key (r : fill_row) : key := (t_ns (f_Timestamp (fr_Fill r)), fr_ID r).
Definition GetFills (alive : bool) (backtestID : string) (table : list fill_row) : result (list Fill) :=
  if negb alive then Err (ErrMsg "database")
  else Ok (fr_Fill <$> merge_sort (key_le fill_key) (List.filter (fun r => bool_decide (fr_Backtest r = backtestID)) table)).

(** [ORDER BY requested_at DESC, id DESC LIMIT] *)
Definition page_size (limit : Z) : Z := if (limit <=? 0) || (MaxPageSize <? limit) then defaultPageSize else limit.
Definition row_key (b : Backtest) : key := (t_ns (b_RequestedAt b), b_ID b).
Definition newest_first (p : Backtest -> bool) (limit : Z) (rows : gmap string Backtest) : list Backtest :=
  take (Z.to_nat (page_size limit)) (reverse (merge_sort (key_le row_key) (List.filter p ((map_to_list rows).*2)))).

Definition List_ (alive : bool) (strategyID : string) (limit : Z) (rows : gmap string Backtest) : result (list Backtest) :=
  if negb alive then Err (ErrMsg "database") else Ok (newest_first (fun b => bool_decide (b_StrategyID b = strategyID)) limit rows).

Definition optional {A} `{EqDecision A} (o : option A) (a : A) : bool := match o with Some x => bool_decide (a = x) | None => true end.
Definition ListBacktests (alive : bool) (userID : string) (strategyID : option string) (status : option Status) (limit : Z) (rows : gmap string Backtest)
    : result (list Backtest) :=
  if negb alive then Err (ErrMsg "backtest: list backtests")
  else Ok (newest_first (fun b => bool_decide (b_UserID b = userID) && optional strategyID (b_StrategyID b) && optional status (b_Status b)) limit rows).

(** ** Waiting for the end *)

Definition isTerminal (s : Status) : bool :=
  match s with StatusSucceeded | StatusFailed | StatusCancelled => true | _ => false end.

(** What one round of [PollForTerminal] meets: the row, the clock after it, and
    whether the context ends before the interval has passed. *)
Record Round := MkRound { r_row : result Backtest; r_now : Z; r_cancelled : bool }.

(** [None]: still waiting when the rounds run out. *)
Fixpoint poll_rounds (deadline interval : Z) (rounds : list Round) : option (result Backtest) :=
  match rounds with
  | [] => None
  | r :: rest =>
      match r_row r with
      | Err e => Some (Err e)
      | Ok b =>
          if isTerminal (b_Status b) then Some (Ok b)
          else if sat64 (deadline - r_now r) <=? interval then Some (Ok b)
          else if r_cancelled r then Some (Err (ErrMsg "context canceled"))
          else poll_rounds deadline interval rest
      end
  end.
Definition PollForTerminal (start budget interval : Z) : list Round -> option (result Backtest) := poll_rounds (start + budget) interval.

(** ** Theory: requests *)

(** An accepted request spans more than nothing and at most a year, names an
    order book, and has a resolution whose candles have a length. *)
Theorem request_accepted req : ParseRequest req = Ok tt ->
  0 < t_ns (q_End req) - t_ns (q_Start req) <= 365 * Day /\ q_OrderBookID req <> ""%string /\
  0 <= q_WarmupCandles req <= MaxWarmupCandles /\ exists sec, resolutionSeconds (q_Resolution req) = Some sec.
Proof.
  unfold ParseRequest. destruct (bool_decide_reflect (q_OrderBookID req = ""%string)); [done |].
  destruct (time_after _ _) eqn:Ea; [| done]. simpl. destruct (_ <? time_sub _ _) eqn:Es; [done |]. destruct (_ || _) eqn:Ew; [done |].
  destruct (bool_decide_reflect (q_Resolution req ∈ resolutions)) as [Hr|]; [| done]. intros _.
  apply orb_false_iff in Ew as [E1 E2]. unfold time_after, time_sub, sat64, maxWindowDays in *. apply Z.ltb_lt in Ea. apply Z.ltb_ge in Es, E1, E2.
  split_and!; [lia | unfold Day, Hour, Minute, Second, int64_max, int64_min in *; lia | done | lia | lia |].
  unfold resolutions in Hr. repeat (apply elem_of_cons in Hr as [->|Hr]; [by eexists |]). by apply elem_of_nil in Hr.
Qed.

(** ** Theory: the summary *)

Definition buys (fills : list Fill) : Z := Z.of_nat (length (List.filter (fun f => bool_decide (f_Side f = "buy"%string)) fills)).

(** The wins are sells right after a buy. *)
Record account_ok (fills : list Fill) (a : Account) : Prop := {
  ac_buys : a_buys a = buys fills;
  ac_wins : 0 <= a_wins a /\ a_wins a + (if bool_decide (f_Side (a_prev a) = "buy"%string) then 1 else 0) <= a_buys a;
  ac_returns : length (a_returns a) = length fills;
  ac_drawdown : f64_le f64_zero (a_maxDD a) = true;
}.

Lemma ab_le_lt_trans z m d : f64_le z m = true -> f64_lt m d = true -> z = f64_zero -> f64_le z d = true.
Proof.
  intros H1 H2 ->. unfold f64_le, f64_lt, SFleb, SFltb in *. destruct m as [[]|[]| |[] mm me], d as [[]|[]| |[] dm de]; try done; simpl in *; by destruct (Z.compare _ _).
Qed.

Lemma ab_account initial fills : account_ok fills (replay_fills initial fills).
Proof.
  unfold replay_fills. induction fills as [|f fills [IH1 [IH2 IH3] IH4 IH5]] using rev_ind; [by split |]. rewrite foldl_snoc.
  set (a := foldl _ _ _) in *. unfold apply_fill. split; simpl.
  - rewrite IH1. unfold buys. rewrite List.filter_app, length_app. simpl. destruct (bool_decide (f_Side f = "buy"%string)); simpl; lia.
  - destruct (bool_decide_reflect (f_Side f = "buy"%string)) as [E|E].
    + rewrite (bool_decide_eq_false_2 (f_Side f = "sell"%string)) by congruence. simpl. destruct (bool_decide _); lia.
    + destruct (bool_decide (f_Side f = "sell"%string)); simpl; [| destruct (bool_decide _); lia].
      destruct (bool_decide (f_Side (a_prev a) = "buy"%string)); simpl; [| lia]. destruct (f64_gt _ _); lia.
  - rewrite !length_app, IH4. done.
  - destruct (f64_gt (if _ : bool then _ else _) f64_zero && _) eqn:E; [| done]. apply andb_true_iff in E as [_ E].
    eapply ab_le_lt_trans; [exact IH5 | exact E | done].
Qed.

(** The summary of a run: every fill is counted, the drawdown is not negative,
    and the win rate is a ratio of at most one win per buy. *)
Theorem summary_counts fills e : s_TradeCount (Compute fills e) = Z.of_nat (length fills) /\
  f64_le f64_zero (s_MaxDrawdown (Compute fills e)) = true /\
  exists wins, 0 <= wins <= buys fills /\
    s_WinRate (Compute fills e) = if 0 <? buys fills then f64_div (f64_int wins) (f64_int (buys fills)) else f64_zero.
Proof.
  unfold Compute. set (i := start_equity e). destruct (ab_account i fills) as [H1 H2 H3 H4]. set (a := replay_fills i fills) in *.
  destruct (meanStd _) as [mean std]. simpl. split_and!; [done | done |]. exists (a_wins a). rewrite <- H1.
  split; [destruct (bool_decide _); lia | done].
Qed.

(** ** Theory: one active backtest per user *)

Definition one_active (rows : gmap string Backtest) : Prop := forall i j a b, rows !! i = Some a -> rows !! j = Some b ->
  b_UserID a = b_UserID b -> active (b_Status a) = true -> active (b_Status b) = true -> i = j.

Lemma ab_taken rows id user : taken rows id user = false -> forall i b, rows !! i = Some b -> b_UserID b = user -> active (b_Status b) = true -> i = id.
Proof.
  intros H i b Hb Hu Ha. destruct (decide (i = id)) as [|Hne]; [done |]. exfalso. apply Bool.not_true_iff_false in H. apply H, existsb_exists.
  exists (i, b). split; [by apply list_elem_of_In, elem_of_map_to_list |]. simpl. by rewrite bool_decide_eq_false_2, bool_decide_eq_true_2, Ha.
Qed.

Lemma ab_one_insert rows id b : one_active rows -> (active (b_Status b) = true -> taken rows id (b_UserID b) = false) -> one_active (<[id := b]> rows).
Proof.
  intros H Ht i j x y. rewrite !lookup_insert_Some. intros [[<- <-]|[Hi Hx]] [[<- <-]|[Hj Hy]] Hu Ax Ay; [done | | | by apply (H i j x y)].
  - symmetry. by apply (ab_taken rows id (b_UserID b) (Ht Ax) j y).
  - by apply (ab_taken rows id (b_UserID b) (Ht Ay) i x).
Qed.

Lemma ab_one_update alive f id rows : one_active rows -> (forall b, b_UserID (f b) = b_UserID b) -> one_active (update_row alive f id rows).2.
Proof.
  intros H Hf. unfold update_row. destruct alive; [| done]. simpl. destruct (rows !! id) as [b|]; [| done].
  destruct (active (b_Status (f b))) eqn:Ea; simpl; [destruct (taken rows id (b_UserID b)) eqn:Et; [done |] |];
    (apply ab_one_insert; [done | rewrite Hf; congruence]).
Qed.

(** The operations of the table keep it. *)
Lemma ab_one_create alive now b rows : one_active rows -> one_active (Create alive now b rows).2.
Proof.
  intros H. unfold Create. destruct alive; [| done]. simpl. destruct (bool_decide _ || _) eqn:E; [done |]. apply orb_false_iff in E as [_ E]. by apply ab_one_insert.
Qed.
Lemma ab_one_status alive id st a b msg rows : one_active rows -> one_active (UpdateStatus alive id st a b msg rows).2.
Proof. intros H. by apply ab_one_update. Qed.
Lemma ab_one_summary alive now id s n rows : one_active rows -> one_active (SetSummary alive now id s n rows).2.
Proof. intros H. unfold SetSummary. destruct (negb _); [done |]. by apply ab_one_update. Qed.
Lemma ab_one_cancel alive now id rows : one_active rows -> one_active (CancelIfRunning alive now id rows).2.
Proof.
  intros H. unfold CancelIfRunning. destruct alive; [| done]. simpl. destruct (rows !! id) as [b|]; [| done]. destruct (active _); [| done].
  by apply ab_one_insert.
Qed.

(** The janitor leaves nothing active. *)
Lemma ab_orphaned now rows id b : (RunStartupJanitor true now rows).2 !! id = Some b -> active (b_Status b) = false.
Proof.
  unfold RunStartupJanitor, FailOrphaned. simpl. rewrite lookup_fmap. destruct (rows !! id) as [x|]; [| done]. simpl.
  intros [= <-]. by destruct (active (b_Status x)) eqn:E.
Qed.

(** ** Theory: waiting *)

(** Each round after the first comes an interval later. *)
Fixpoint spaced (interval prev : Z) (rounds : list Round) : Prop :=
  match rounds with [] => True | r :: rest => prev <= r_now r /\ spaced interval (r_now r + interval) rest end.

Lemma ab_poll deadline interval rounds prev : 0 < interval -> in_int64 deadline -> 0 <= prev -> spaced interval prev rounds ->
  (Z.to_nat ((deadline - prev) / interval) < length rounds)%nat -> is_Some (poll_rounds deadline interval rounds).
Proof.
  intros Hi Hd. revert prev. induction rounds as [|r rounds IH]; intros prev Hp Hs Hl; simpl in *; [lia |].
  destruct (r_row r) as [b|]; [| done]. destruct (isTerminal _); [done |]. destruct (_ <=? interval) eqn:E; [done |]. destruct (r_cancelled r); [done |].
  destruct Hs as [Hs1 Hs2]. apply (IH (r_now r + interval)); [lia | done |]. apply Z.leb_gt in E. unfold sat64, in_int64, int64_max, int64_min in *.
  assert ((deadline - (r_now r + interval)) / interval = (deadline - r_now r) / interval - 1) as ->.
  { replace (deadline - (r_now r + interval)) with (deadline - r_now r + (-1) * interval) by lia. rewrite Z.div_add by lia. lia. }
  assert ((deadline - r_now r) / interval <= (deadline - prev) / interval) by (apply Z.div_le_mono; lia).
  assert (1 <= (deadline - r_now r) / interval) by (apply Z.div_le_lower_bound; lia). lia.
Qed.

(** Polling ends after at most [budget / interval + 1] rounds, whatever the
    store answers. *)
Theorem poll_ends start budget interval rounds : 0 <= start -> 0 < interval -> in_int64 (start + budget) -> spaced interval start rounds ->
  (Z.to_nat (budget / interval) < length rounds)%nat -> is_Some (PollForTerminal start budget interval rounds).
Proof. intros H0 Hi Hd Hs Hl. apply (ab_poll _ _ _ start); [done.. |]. by replace (start + budget - start) with budget by lia. Qed.
