(* ===== verification/WasmHost.v ===== *)
(** * internal/agent/backtest: the host a strategy runs against

    The functions [wasm_starter.go] exports to a WASM strategy, over the state
    of one backtest, with the parts of [registry/hostmodule.go] that build a
    host module.  A host function is a step on the job's state, the guest's
    memory and the stack of its arguments and result; the guest itself is any
    sequence of such calls and of writes to its own memory.

    The runtime's memory, the SDK's JSON, the text of a time, of a rational and
    of a float, and [strconv.Quote] are parameters. *)

From S2P Require Import Prelude GoTime GoFloat Json HttpDecisions Streams History AgentBacktest.
From Stdlib Require Import Ascii.

(** ** What the SDK exchanges *)

Record sdkCandle := MkSdkCandle {
  k_OrderBookID : string; k_StartTimestamp : string; k_Open : string; k_High : string; k_Low : string; k_Close : string;
  k_OpenYtm : string; k_HighYtm : string; k_LowYtm : string; k_CloseYtm : string; k_Volume : string;
}.
Record sdkTrade := MkSdkTrade {
  d_TransactionID : string; d_OrderBookID : string; d_OrderID : string; d_OrderSeq : Z; d_UserID : string; d_Asset0 : string;
  d_Price : string; d_Quantity0 : string; d_Side : string; d_AggressorIndicator : bool; d_CreatedAt : string;
}.
Record sdkPrice := MkSdkPrice { e_AssetID : string; e_Price : string; e_YTM : string; e_Time : string }.
Record OrderIntent := MkIntent { oi_Side : string; oi_Type : string; oi_Price : string; oi_Quantity : string }.
Record sdkFill := MkSdkFill { sf_OrderID : string; sf_Price : string; sf_Quantity : string; sf_Simulated : bool }.
Record FetchReq := MkFetchReq { fq_Cursor : string; fq_BatchSize : Z }.
Record Config := MkConfig {
  cf_OrderBookID : string; cf_Start : Time; cf_End : Time; cf_Resolution : string; cf_Params : gmap string string;
}.

Class HostOps := {
  rfc3339nano : Time -> string;
  candle_json : sdkCandle -> result json;
  trade_json : sdkTrade -> result json;
  price_json : sdkPrice -> result json;
  fill_json : sdkFill -> result json;
  candle_batch : list sdkCandle -> bool -> string -> result json;
  trade_batch : list sdkTrade -> bool -> string -> result json;
  price_batch : list sdkPrice -> bool -> string -> result json;
  config_text : Config -> result string;
  read_intent : string -> result OrderIntent;
  read_fill : string -> result sdkFill;
  read_request : string -> result FetchReq;
  parse_rat : string -> option Q;             (* [big.Rat.SetString] *)
  parse_float64 : string -> option float64;   (* [strconv.ParseFloat], also NaN and Inf *)
  quote : string -> string;                   (* [strconv.Quote] *)
}.

(** The memory of a guest, as [api.Memory] documents it. *)
Class Memory (M : Type) := {
  mem_size : M -> Z;
  mem_byte : M -> Z -> ascii;
  mem_read : M -> Z -> Z -> option string;
  mem_write : M -> Z -> string -> option M;
}.
Class MemoryLaws (M : Type) {Mem : Memory M} : Prop := {
  read_bytes m p n s : mem_read m p n = Some s -> p + n <= mem_size m /\ Z.of_nat (String.length s) = n;
  write_bytes m p s m' : mem_write m p s = Some m' ->
    p + Z.of_nat (String.length s) <= mem_size m /\ mem_size m' = mem_size m /\
    forall a, ~ (p <= a < p + Z.of_nat (String.length s)) -> mem_byte m' a = mem_byte m a;
  size_32 m : 0 <= mem_size m < 2 ^ 32;
}.

(** ** From the history tables to the SDK *)

Section Conversions.
Context {Ops : HostOps}.

Definition historyCandleToFramework (c : Candle) : sdkCandle :=
  MkSdkCandle (c_OrderBookID c) (rfc3339nano (c_StartTimestamp c)) (c_Open c) (c_High c) (c_Low c) (c_Close c)
    (c_OpenYtm c) (c_HighYtm c) (c_LowYtm c) (c_CloseYtm c) (c_Volume c).
Definition historyTradeToFramework (t : Trade) : sdkTrade :=
  MkSdkTrade (t_TransactionID t) (t_OrderBookID t) (t_OrderID t) (t_OrderSeq t) (t_UserID t) (t_Asset0 t) (t_Price t) (t_Quantity0 t)
    (t_Side t) (t_AggressorIndicator t) (rfc3339nano (t_CreatedAt t)).
Definition historyPriceToFramework (p : Price) : sdkPrice :=
  MkSdkPrice (p_AssetID p) (p_Price p) (p_YTM p) (rfc3339nano (p_Timestamp p)).
Definition historyCandlesToFramework (l : list Candle) : list sdkCandle := historyCandleToFramework <$> l.
Definition historyTradesToFramework (l : list Trade) : list sdkTrade := historyTradeToFramework <$> l.
Definition historyPricesToFramework (l : list Price) : list sdkPrice := historyPriceToFramework <$> l.
End Conversions.

(** [candleRow], [tradeRow] and [priceRow]: a row of the replay and its time. *)
Inductive streamRow := candleRow (ts : Time) (payload : sdkCandle) | tradeRow (ts : Time) (payload : sdkTrade) | priceRow (ts : Time) (payload : sdkPrice).
Definition row_time (r : streamRow) : Time := match r with candleRow ts _ | tradeRow ts _ | priceRow ts _ => ts end.

(** ** The state of a job *)

Inductive LogLevel := LogDebug | LogInfo | LogWarn | LogError.

(** [js_replay]: there is a merge stream; it is passed where it is used. *)
Record jobState := MkJob {
  js_lastCandle : option sdkCandle; js_lastCandleDelivered : bool;
  js_preambleCandles : list sdkCandle; js_preambleTrades : list sdkTrade; js_preamblePrices : list sdkPrice;
  js_replay : bool; js_replayCandles : list sdkCandle; js_eventCandleIdx : nat; js_configJSON : string;
  js_fills : list Fill; js_fillSeq : Z; js_currentSide : string; js_errored : bool; js_errorMsg : string;
  js_logger : list (LogLevel * string);
}.

Definition with_candle (c : option sdkCandle) (delivered : bool) (idx : nat) (s : jobState) : jobState :=
  MkJob c delivered (js_preambleCandles s) (js_preambleTrades s) (js_preamblePrices s) (js_replay s) (js_replayCandles s) idx (js_configJSON s)
    (js_fills s) (js_fillSeq s) (js_currentSide s) (js_errored s) (js_errorMsg s) (js_logger s).
Definition with_fills (fs : list Fill) (seq : Z) (side : string) (s : jobState) : jobState :=
  MkJob (js_lastCandle s) (js_lastCandleDelivered s) (js_preambleCandles s) (js_preambleTrades s) (js_preamblePrices s) (js_replay s) (js_replayCandles s)
    (js_eventCandleIdx s) (js_configJSON s) fs seq side (js_errored s) (js_errorMsg s) (js_logger s).
Definition with_error (b : bool) (msg : string) (l : list (LogLevel * string)) (s : jobState) : jobState :=
  MkJob (js_lastCandle s) (js_lastCandleDelivered s) (js_preambleCandles s) (js_preambleTrades s) (js_preamblePrices s) (js_replay s) (js_replayCandles s)
    (js_eventCandleIdx s) (js_configJSON s) (js_fills s) (js_fillSeq s) (js_currentSide s) b msg l.
Definition log (lvl : LogLevel) (msg : string) (s : jobState) : jobState := with_error (js_errored s) (js_errorMsg s) (js_logger s ++ [(lvl, msg)]) s.

(** ** Arguments, results, texts *)

Definition u32 (z : Z) : Z := z mod 2 ^ 32.
Definition i32 (z : Z) : Z := (z + 2 ^ 31) mod 2 ^ 32 - 2 ^ 31.
Definition arg (params : list Z) (i : nat) : Z := u32 (default 0 (params !! i)).
Definition setResult (params : list Z) (v : Z) : list Z := <[0%nat := u32 v]> params.

Definition text_length (s : string) : Z := Z.of_nat (String.length s).
Definition dq : string := String (ascii_of_nat 34) "".
Definition quoted (s : string) : string := dq +:+ s +:+ dq.
Fixpoint message (e : error) : string := match e with ErrMsg m => m | ErrWrap ctx e => ctx +:+ ": " +:+ message e end.

(** [binary.LittleEndian.PutUint32] *)
Definition little_endian (z : Z) : string :=
  String.string_of_list_ascii ((fun i => ascii_of_nat (Z.to_nat (z / 256 ^ i mod 256))) <$> [0; 1; 2; 3]).
Definition errLenPrefixBytes : Z := 4.

Section Host.
Context {Text : JsonText} {Ops : HostOps} {M : Type} {Mem : Memory M}.

(** A write that is out of range is not made, and not noticed. *)
Definition write (m : M) (p : Z) (s : string) : M := default m (mem_write m p s).

(** An error text, with its length in front, when it fits. *)
Definition writeError (m : M) (bufPtr bufLen : Z) (msg : string) : M :=
  let errJSON := "{" +:+ quoted "error" +:+ ":" +:+ quote msg +:+ "}" in
  let total := u32 (errLenPrefixBytes + text_length errJSON) in
  if bufLen <? total then m
  else write m bufPtr (String.substring 0 (Z.to_nat total) (little_endian (u32 (text_length errJSON)) +:+ errJSON)).

Definition readString (m : M) (ptr length : Z) : option string := mem_read m ptr length.

(** The ends of the host functions: an error of -1, and a text with its length. *)
Definition refuse (m : M) (params : list Z) (ptr len : Z) (msg : string) : M * list Z := (writeError m ptr len msg, setResult params (-1)).
Definition respond (m : M) (params : list Z) (ptr len : Z) (too_long : string) (b : string) : M * list Z :=
  if len <? u32 (text_length b) then refuse m params ptr len too_long
  else (write m ptr b, setResult params (i32 (text_length b))).
Definition respond_json (m : M) (params : list Z) (ptr len : Z) (what too_long : string) (r : result json) : M * list Z :=
  match r with
  | Err e => refuse m params ptr len (what +:+ message e)
  | Ok j => respond m params ptr len too_long (marshal j)
  end.

(** A host function: the state, the memory and the stack after it. *)
Definition hostFunc : Type := jobState -> M -> list Z -> jobState * M * list Z.
Definition unchanged (s : jobState) (r : M * list Z) : jobState * M * list Z := (s, r.1, r.2).

Definition hostGetConfig : hostFunc := fun state m params =>
  unchanged state (respond m params (arg params 0) (arg params 1) "config JSON exceeds buffer" (js_configJSON state)).

Definition candle_reply (state : jobState) (m : M) (params : list Z) (c : sdkCandle) : jobState * M * list Z :=
  unchanged state (respond_json m params (arg params 0) (arg params 1) "marshal candle: " "candle JSON exceeds buffer" (candle_json c)).

Definition hostNextCandle : hostFunc := fun state m params =>
  if negb (js_replay state) then
    match js_replayCandles state !! js_eventCandleIdx state with
    | None => (state, m, setResult params 0)
    | Some c => candle_reply (with_candle (Some c) false (S (js_eventCandleIdx state)) state) m params c
    end
  else
    match js_lastCandle state with
    | Some c => if js_lastCandleDelivered state then (state, m, setResult params 0)
                else candle_reply (with_candle (Some c) true (js_eventCandleIdx state) state) m params c
    | None => (state, m, setResult params 0)
    end.

(** *** Orders *)

Definition limitWithinRange (price low high : string) : result bool :=
  match parse_rat price, parse_rat low, parse_rat high with
  | Some p, Some l, Some h => Ok (Qle_bool l p && Qle_bool p h)
  | _, _, _ => Err (ErrMsg "non-numeric price/low/high")
  end.

(** [fmt.Sprintf("%04d", seq)] *)
Definition pad4 (n : Z) : string := let s := format_int n in String.string_of_list_ascii (replicate (4 - String.length s) "0"%char) +:+ s.

(** The price of the fill. *)
Definition intent_price (candle : sdkCandle) (intent : OrderIntent) : result string :=
  if bool_decide (oi_Type intent = "market"%string) then Ok (k_Close candle)
  else if bool_decide (oi_Type intent = "limit"%string) then
    match limitWithinRange (oi_Price intent) (k_Low candle) (k_High candle) with
    | Err e => Err e
    | Ok true => Ok (oi_Price intent)
    | Ok false => Err (ErrMsg ("limit price " +:+ oi_Price intent +:+ " not within candle range " +:+ k_Low candle +:+ "-" +:+ k_High candle))
    end
  else Err (ErrMsg ("unsupported order type " +:+ quote (oi_Type intent))).

Definition simulateFill (state : jobState) (intent : OrderIntent) : jobState * result sdkFill :=
  match js_lastCandle state with
  | None => (state, Err (ErrMsg "no current candle for fill simulation"))
  | Some candle =>
      let seq := js_fillSeq state + 1 in
      (with_fills (js_fills state) seq (oi_Side intent) state,
       result_map (fun price => MkSdkFill ("sim-" +:+ pad4 seq) price (oi_Quantity intent) true) (intent_price candle intent))
  end.

Definition hostSubmitOrder : hostFunc := fun state m params =>
  let outPtr := arg params 2 in let outLen := arg params 3 in
  match mem_read m (arg params 0) (arg params 1) with
  | None => unchanged state (refuse m params outPtr outLen "invalid input memory")
  | Some inBytes =>
      match read_intent inBytes with
      | Err e => unchanged state (refuse m params outPtr outLen ("decode intent: " +:+ message e))
      | Ok intent =>
          let '(state', fill) := simulateFill state intent in
          unchanged state' (match fill with
                            | Err e => refuse m params outPtr outLen (message e)
                            | Ok fl => respond_json m params outPtr outLen "marshal fill: " "fill JSON exceeds buffer" (fill_json fl)
                            end)
      end
  end.

Definition frameworkFillToBacktest (now : Time) (fw : sdkFill) (side : string) : result Fill :=
  match parse_float64 (sf_Price fw) with
  | None => Err (ErrMsg "parse fill price")
  | Some price =>
      match parse_float64 (sf_Quantity fw) with
      | None => Err (ErrMsg "parse fill quantity")
      | Some qty => Ok (MkFill now side qty price (sf_OrderID fw) now)
      end
  end.

Definition hostRecordFill (now : Time) : hostFunc := fun state m params =>
  (match mem_read m (arg params 0) (arg params 1) with
   | None => log LogError "wasm starter: host_record_fill invalid memory" state
   | Some b =>
       match read_fill b with
       | Err _ => log LogError "wasm starter: host_record_fill decode failed" state
       | Ok fwFill =>
           match frameworkFillToBacktest now fwFill (js_currentSide state) with
           | Err _ => log LogError "wasm starter: convert fill failed" state
           | Ok btFill => with_fills (js_fills state ++ [btFill]) (js_fillSeq state) (js_currentSide state) state
           end
       end
   end, m, params).

Definition hostLog : hostFunc := fun state m params =>
  (match readString m (arg params 1) (arg params 2) with
   | None => state
   | Some msg =>
       let level := arg params 0 in
       log (if level =? 0 then LogDebug else if level =? 2 then LogWarn else if level =? 3 then LogError else LogInfo) msg state
   end, m, params).

Definition hostBacktestError : hostFunc := fun state m params =>
  (with_error true (default "unknown wasm error"%string (readString m (arg params 0) (arg params 1))) (js_logger state) state, m, params).

(** *** The preamble *)

Definition preambleBatchSize : Z := 500.
Definition maxFetchBatchSize : Z := 5000.
Definition clampFetchBatchSize (n : Z) : Z := if n <=? 0 then preambleBatchSize else Z.min n maxFetchBatchSize.

Definition decodeFetchReq (m : M) (params : list Z) : result FetchReq :=
  match mem_read m (arg params 0) (arg params 1) with
  | None => Err (ErrMsg "read fetch request buffer")
  | Some buf => wrap_err "decode fetch request" (read_request buf)
  end.

Record pageOf (T : Type) := MkPageOf { pg_items : list T; pg_last : bool; pg_next : string }.
Arguments MkPageOf {T} _ _ _.
Arguments pg_items {T} _.
Arguments pg_last {T} _.
Arguments pg_next {T} _.

Definition page_at {T} (items : list T) (req : FetchReq) : result (pageOf T) :=
  let size := Z.of_nat (length items) in
  let invalid := Err (ErrMsg ("invalid fetch cursor " +:+ quote (fq_Cursor req))) in
  start ← (if bool_decide (fq_Cursor req = ""%string) then Ok 0
           else match Atoi (fq_Cursor req) with
                | Ok n => if (n <? 0) || (size <? n) then invalid else Ok n
                | Err _ => invalid
                end);
  let stop := Z.min (start + clampFetchBatchSize (fq_BatchSize req)) size in
  let done := size <=? stop in
  Ok (MkPageOf (take (Z.to_nat (stop - start)) (drop (Z.to_nat start) items)) done (if done then ""%string else format_int stop)).

Definition preamblePage {T} (items : list T) (m : M) (params : list Z) : result (pageOf T) := req ← decodeFetchReq m params; page_at items req.

Definition writeBatchJSON (m : M) (params : list Z) (outPtr outLen : Z) (batch : result json) : M * list Z :=
  respond_json m params outPtr outLen "marshal batch: " "batch JSON exceeds buffer" batch.

Definition host_fetch {T} (items : jobState -> list T) (envelope : list T -> bool -> string -> result json) : hostFunc := fun state m params =>
  unchanged state (match preamblePage (items state) m params with
                   | Err e => refuse m params (arg params 2) (arg params 3) (message e)
                   | Ok p => writeBatchJSON m params (arg params 2) (arg params 3) (envelope (pg_items p) (pg_last p) (pg_next p))
                   end).
Definition hostFetchCandles : hostFunc := host_fetch js_preambleCandles candle_batch.
Definition hostFetchTrades : hostFunc := host_fetch js_preambleTrades trade_batch.
Definition hostFetchPrices : hostFunc := host_fetch js_preamblePrices price_batch.

(** *** The replay *)

(** [eventEnvelope] *)
Definition envelope_json (type : string) (data : result json) : result json :=
  result_map (fun d => JObject [("type"%string, JString type); ("data"%string, d)]) data.

Definition streamEventEnvelope (state : jobState) (k : eventKind) (row : streamRow) : jobState * result json :=
  match k, row with
  | kindCandle, candleRow _ c => (with_candle (Some c) false (js_eventCandleIdx state) state, envelope_json "candle" (wrap_err "marshal candle" (candle_json c)))
  | kindTrade, tradeRow _ t => (state, envelope_json "trade" (wrap_err "marshal trade" (trade_json t)))
  | kindPrice, priceRow _ p => (state, envelope_json "price" (wrap_err "marshal price" (price_json p)))
  | kindCandle, _ => (state, Err (ErrMsg "event kind candle carried another row"))
  | kindTrade, _ => (state, Err (ErrMsg "event kind trade carried another row"))
  | kindPrice, _ => (state, Err (ErrMsg "event kind price carried another row"))
  end.

Definition event_reply (state : jobState) (m : M) (params : list Z) (j : json) : jobState * M * list Z :=
  unchanged state (respond m params (arg params 0) (arg params 1) "event JSON exceeds buffer" (marshal j)).

(** [next]: what [mergeStream.next] returns; it does not return while it blocks. *)
Definition hostNextEvent (next : Outcome (T := streamRow)) : hostFunc := fun state m params =>
  let fail st msg := unchanged st (refuse m params (arg params 0) (arg params 1) msg) in
  if negb (js_replay state) then
    match js_replayCandles state !! js_eventCandleIdx state with
    | None => (state, m, setResult params 0)
    | Some c =>
        let state' := with_candle (Some c) false (S (js_eventCandleIdx state)) state in
        match envelope_json "candle" (candle_json c) with
        | Err e => fail state' ("marshal candle: " +:+ message e)
        | Ok j => event_reply state' m params j
        end
    end
  else
    match next with
    | Finished (Some e) => fail state (message e)
    | Finished None | Block => (state, m, setResult params 0)
    | Deliver k row =>
        let '(state', envelope) := streamEventEnvelope state k row in
        match envelope with
        | Err e => fail state' (message e)
        | Ok j => event_reply state' m params j
        end
    end.

(** ** The host module *)

(** [newBacktestHostModule]: the implementation of a name; the others do nothing. *)
Definition newBacktestHostModule (now : Time) (next : Outcome (T := streamRow)) (name : string) : option hostFunc :=
  if bool_decide (name = "host_get_config"%string) then Some hostGetConfig
  else if bool_decide (name = "host_next_candle"%string) then Some hostNextCandle
  else if bool_decide (name = "host_fetch_candles"%string) then Some hostFetchCandles
  else if bool_decide (name = "host_fetch_trades"%string) then Some hostFetchTrades
  else if bool_decide (name = "host_fetch_prices"%string) then Some hostFetchPrices
  else if bool_decide (name = "host_next_event"%string) then Some (hostNextEvent next)
  else if bool_decide (name = "host_submit_order"%string) then Some hostSubmitOrder
  else if bool_decide (name = "host_record_fill"%string) then Some (hostRecordFill now)
  else if bool_decide (name = "host_log"%string) then Some hostLog
  else if bool_decide (name = "host_backtest_error"%string) then Some hostBacktestError
  else None.

(** [AllHostFuncs]: the names and how many arguments they take. *)
Definition AllHostFuncs : list (string * nat) :=
  [("host_get_config", 2%nat); ("host_next_candle", 2%nat); ("host_next_live_candle", 2%nat); ("host_submit_order", 4%nat);
   ("host_cancel_order", 4%nat); ("host_record_fill", 2%nat); ("host_backtest_error", 2%nat); ("host_log", 3%nat); ("host_now", 0%nat);
   ("host_random", 2%nat); ("host_fetch_candles", 4%nat); ("host_fetch_trades", 4%nat); ("host_fetch_prices", 4%nat); ("host_next_event", 2%nat)]%string.

Definition noopHostFunc : hostFunc := fun state m params => (state, m, params).
(** [BuildHostModule]: what a call of a name runs; a name outside the list is not exported. *)
Definition BuildHostModule (impl : string -> option hostFunc) (name : string) : option hostFunc :=
  if bool_decide (name ∈ AllHostFuncs.*1) then Some (default noopHostFunc (impl name)) else None.

(** The stubs of the host a strategy is validated against. *)
Definition put (m : M) (params : list Z) (ptr len : Z) (body : string) : M * list Z :=
  if len <? text_length body then (m, <[0%nat := 0]> params)
  else match mem_write m ptr body with Some m' => (m', <[0%nat := text_length body]> params) | None => (m, <[0%nat := 0]> params) end.
Definition empty_batch : string := "{" +:+ quoted "items" +:+ ":[]," +:+ quoted "done" +:+ ":true," +:+ quoted "cursor" +:+ ":" +:+ quoted "" +:+ "}".
Definition writeEmptyBatch : hostFunc := fun state m params => unchanged state (put m params (arg params 2) (arg params 3) empty_batch).
Definition newGetConfigStub : hostFunc := fun state m params =>
  unchanged state (put m params (arg params 0) (arg params 1) ("{" +:+ quoted "mode" +:+ ":" +:+ quoted "validate" +:+ "}")).
Definition NewHostModule : string -> option hostFunc :=
  BuildHostModule (fun name =>
    if bool_decide (name = "host_get_config"%string) then Some newGetConfigStub
    else if bool_decide (name ∈ ["host_fetch_candles"; "host_fetch_trades"; "host_fetch_prices"]%string) then Some writeEmptyBatch
    else None).

(** [missingHostImports], [extraHostImports] and [CheckFrameworkVersion] *)
Definition missingHostImports (declared : list string) : list string := List.filter (fun n => negb (bool_decide (n ∈ AllHostFuncs.*1))) declared.
Definition extraHostImports (declared : list string) : list string := List.filter (fun n => negb (bool_decide (n ∈ declared))) AllHostFuncs.*1.
Record VersionMismatch := MkMismatch { vm_Got : string; vm_Missing : list string; vm_Extra : list string }.
Definition CheckFrameworkVersion (expected manifestVersion : string) (hostFunctions : list string) : option VersionMismatch :=
  if bool_decide (manifestVersion = ""%string) || negb (bool_decide (manifestVersion = expected))
  then Some (MkMismatch manifestVersion (missingHostImports hostFunctions) (extraHostImports hostFunctions)) else None.

(** ** A guest *)

(** It computes on its memory, or calls the host. *)
Inductive guestAct := GCompute (m : M) | GCall (name : string) (params : list Z) (now : Time) (next : Outcome (T := streamRow)).

Definition call_host (name : string) (params : list Z) (now : Time) (next : Outcome (T := streamRow)) (s : jobState) (m : M) : jobState * M * list Z :=
  match BuildHostModule (newBacktestHostModule now next) name with Some f => f s m params | None => (s, m, params) end.
Definition guest_act (sm : jobState * M) (a : guestAct) : jobState * M :=
  match a with
  | GCompute m => (sm.1, m)
  | GCall name params now next => (call_host name params now next sm.1 sm.2).1
  end.
Definition run_guest (acts : list guestAct) (s : jobState) (m : M) : jobState * M := foldl guest_act (s, m) acts.
End Host.
