(* ===== verification/WasmStarter.v ===== *)
(** * internal/agent: running a backtest

    [wasm_starter.go] from the history of a window to the rows of a finished
    backtest, [orchestrator.go] with its registry of jobs, and the backtests of
    [httpapi/job_handlers.go] and of the cancel_backtest tool.  Requests and
    jobs are programs of atomic actions over the agent ([Concurrency]): one
    query, or one critical section of the registry.

    A submitted job is noted in the state and runs as the thread that arrives
    for it.  The choices are what the world decides: the clock, whether the
    database answers, ids, the tables of history, the loaded module and what
    the strategy does with the host.  A fetch of history sees one state of the
    tables. *)

From S2P Require Import Prelude GoTime GoFloat Json HttpDecisions Streams Concurrency History HistoryPages AgentBacktest WasmHost.

(** ** History *)

Definition candlesPerChunk : Z := 1500.
Definition warmupTradesPerCandle : Z := 60.
Definition warmupPricesPerCandle : Z := 100.
Definition warmupMinTicks : Z := 1000.
Definition warmupTradesReplay : Z := 1000.
Definition warmupPricesReplay : Z := 1000.

Definition resolutionDuration (res : string) : Z :=
  if bool_decide (res = "1m"%string) then Minute else if bool_decide (res = "5m"%string) then 5 * Minute
  else if bool_decide (res = "15m"%string) then 15 * Minute else if bool_decide (res = "1h"%string) then Hour
  else if bool_decide (res = "4h"%string) then 4 * Hour else if bool_decide (res = "1d"%string) then 24 * Hour else 0.

Definition warmupStart (windowStart : Time) (warmupCandles : Z) (resolution : string) : Time :=
  if warmupCandles <=? 0 then windowStart
  else if resolutionDuration resolution =? 0 then windowStart
  else time_add windowStart (dur_mul (wrap64 (- warmupCandles)) (resolutionDuration resolution)).

(** [fetchAll] with as many pages as the fuel; [None]: not yet at the end. *)
Fixpoint fetchAll {T} (fuel : nat) (page : string -> result (list T * string)) (cursor : string) : option (result (list T)) :=
  match fuel with
  | O => None
  | S fuel =>
      match page cursor with
      | Err e => Some (Err e)
      | Ok (rows, next) =>
          if bool_decide (next = ""%string) then Some (Ok rows)
          else match fetchAll fuel page next with
               | Some (Ok all) => Some (Ok (rows ++ all))
               | r => r
               end
      end
  end.

(** The tables as a fetch finds them, or the error of the query. *)
Record Tables := MkTables { tb_candles : result (list candle_row); tb_trades : result (list trade_row); tb_prices : result (list price_row) }.

Record historyWindow := MkHistoryWindow { w_candles : list sdkCandle; w_trades : list sdkTrade; w_prices : list sdkPrice }.

(** What a candle of the REST API carries is what a candle of history does. *)
Record Api := MkApi {
  api_orderbook : result (option string);                            (* the base asset of the order book *)
  api_candles : Time -> Time -> result (option (list Candle));       (* [GetCandleData] *)
}.

Section Starter.
Context {Text : JsonText} {Ops : HistoryOps} {HOps : HostOps} {Column : FillColumn} {M : Type} {Mem : Memory M}.

(** [lookupAssetID]: [""] when the API fails or has no data. *)
Definition lookupAssetID (api : Api) : string := match api_orderbook api with Ok (Some id) => id | _ => ""%string end.

(** A fetch: still going on, failed with the text the job is failed with, or done. *)
Definition fetched (A : Type) : Type := option (result A).
Definition and_then {A B} (r : fetched A) (what : string) (k : A -> fetched B) : fetched B :=
  match r with None => None | Some (Err e) => Some (Err (ErrWrap what e)) | Some (Ok a) => k a end.

Definition fetchHistoryWindow (fuel : nat) (t : Tables) (assetID : string) (b : Backtest) : fetched historyWindow :=
  let ws := warmupStart (b_WindowStart b) (b_WarmupCandles b) (b_Resolution b) in
  let warmupTrades := Z.max (wrap64 (b_WarmupCandles b * warmupTradesPerCandle)) warmupMinTicks in
  let warmupPrices := Z.max (wrap64 (b_WarmupCandles b * warmupPricesPerCandle)) warmupMinTicks in
  and_then (fetchAll fuel (fun cursor => FetchCandles (tb_candles t) (b_OrderBookID b) ws (b_WindowStart b) (b_Resolution b) cursor candlesPerChunk) "")
    "preamble candle fetch" (fun hcandles =>
  and_then (fetchAll fuel (fun cursor => FetchTrades (tb_trades t) (b_OrderBookID b) ws (b_WindowStart b) cursor warmupTrades) "")
    "preamble trade fetch" (fun htrades =>
  and_then (if bool_decide (assetID = ""%string) then Some (Ok [])
            else fetchAll fuel (fun cursor => FetchPrices (tb_prices t) assetID ws (b_WindowStart b) cursor warmupPrices) "")
    "preamble price fetch" (fun hprices =>
  Some (Ok (MkHistoryWindow (historyCandlesToFramework hcandles) (historyTradesToFramework htrades) (historyPricesToFramework hprices)))))).

(** A page of history as rows of the replay. *)
Definition replay_page {A} (row : A -> streamRow) (r : result (list A * string)) : result (list streamRow * string) :=
  result_map (fun p => (row <$> p.1, p.2)) r.
Definition candle_event (c : Candle) : streamRow := candleRow (c_StartTimestamp c) (historyCandleToFramework c).
Definition trade_event (t : Trade) : streamRow := tradeRow (t_CreatedAt t) (historyTradeToFramework t).
Definition price_event (p : Price) : streamRow := priceRow (p_Timestamp p) (historyPriceToFramework p).

(** [newReplayStream]: what the three prefetchers fetch. *)
Definition newReplayStream (t : Tables) (assetID : string) (b : Backtest) (k : eventKind) : pageFetcher streamRow :=
  match k with
  | kindCandle => paged (fun cursor => replay_page candle_event
      (FetchCandles (tb_candles t) (b_OrderBookID b) (b_WindowStart b) (b_WindowEnd b) (b_Resolution b) cursor candlesPerChunk))
  | kindTrade => paged (fun cursor => replay_page trade_event
      (FetchTrades (tb_trades t) (b_OrderBookID b) (b_WindowStart b) (b_WindowEnd b) cursor warmupTradesReplay))
  | kindPrice =>
      if bool_decide (assetID = ""%string) then fun _ => ([], ""%string, None)
      else paged (fun cursor => replay_page price_event
             (FetchPrices (tb_prices t) assetID (b_WindowStart b) (b_WindowEnd b) cursor warmupPricesReplay))
  end.

(** *** The REST fallback *)

Definition sdkCandlesToFramework (l : list Candle) : list sdkCandle := historyCandleToFramework <$> l.
Definition fetchCandlesChunk (api : Api) (chunkStart chunkEnd : Time) : result (list sdkCandle) :=
  match api_candles api chunkStart chunkEnd with
  | Err e => Err e
  | Ok None => Err (ErrMsg "empty candle response")
  | Ok (Some l) => Ok (sdkCandlesToFramework l)
  end.

(** The loop over the chunks; [alive]: the context has not ended at a chunk. *)
Fixpoint fetch_chunks (fuel : nat) (api : Api) (alive : nat -> bool) (chunkSpan : Z) (chunkStart windowEnd : Time) : fetched (list sdkCandle) :=
  if negb (time_before chunkStart windowEnd) then Some (Ok [])
  else match fuel with
       | O => None
       | S fuel =>
           if negb (alive fuel) then Some (Err (ErrMsg "context canceled"))
           else
             let next := time_add chunkStart chunkSpan in
             let chunkEnd := if time_after next windowEnd then windowEnd else next in
             match fetchCandlesChunk api chunkStart chunkEnd with
             | Err e => Some (Err (ErrWrap "fetch candles chunk" e))
             | Ok chunk =>
                 match fetch_chunks fuel api alive chunkSpan next windowEnd with
                 | Some (Ok out) => Some (Ok (chunk ++ out))
                 | r => r
                 end
             end
       end.

(** [sort.Slice] by the text of the timestamp; rows with the same one may come
    in either order. *)
Definition sdk_key (c : sdkCandle) : key := (0, k_StartTimestamp c).
Definition fetchCandles (fuel : nat) (api : Api) (alive : nat -> bool) (b : Backtest) : fetched (list sdkCandle) :=
  let chunkDur := resolutionDuration (b_Resolution b) in
  if chunkDur =? 0 then Some (fetchCandlesChunk api (b_WindowStart b) (b_WindowEnd b))
  else match fetch_chunks fuel api alive (dur_mul candlesPerChunk chunkDur) (b_WindowStart b) (b_WindowEnd b) with
       | Some (Ok out) => Some (Ok (merge_sort (key_le sdk_key) out))
       | r => r
       end.

Definition buildConfigJSON (b : Backtest) : result string :=
  config_text (MkConfig (b_OrderBookID b) (b_WindowStart b) (b_WindowEnd b) (b_Resolution b) (b_Params b)).

(** The job's state before the strategy starts: from history, or over REST. *)
Definition new_job (replay : bool) (w : historyWindow) (replayCandles : list sdkCandle) (configJSON : string) : jobState :=
  MkJob None false (w_candles w) (w_trades w) (w_prices w) replay replayCandles 0 configJSON [] 0 "" false "" [].

Definition job_state (hasHistory : bool) (fuel : nat) (t : Tables) (api : Api) (alive : nat -> bool) (b : Backtest) : fetched (string -> jobState) :=
  if hasHistory then match fetchHistoryWindow fuel t (lookupAssetID api) b with
                     | None => None
                     | Some (Err e) => Some (Err e)
                     | Some (Ok w) => Some (Ok (new_job true w []))
                     end
  else and_then (fetchCandles fuel api alive b) "candle fetch" (fun l => Some (Ok (new_job false (MkHistoryWindow [] [] []) l))).

(** The equity a run starts with. *)
Definition initial_equity (b : Backtest) : float64 :=
  match b_Params b !! "initial_capital"%string with
  | Some v => match parse_float64 v with Some f => if f64_gt f f64_zero then f else defaultInitialEquity | None => defaultInitialEquity end
  | None => defaultInitialEquity
  end.

(** ** The agent *)

(** A job that [Submit] has started. *)
Record Job := MkJobRun { jr_backtest : Backtest; jr_ctx : nat }.

(** What handlers answer. *)
Inductive Reply :=
  | ReplyError (code : Z) (msg : string) | ReplySubmitted (id : string) | ReplyList (rows : list Backtest)
  | ReplyBacktest (b : Backtest) (fills : list Fill) | ReplyNoContent | ReplyCancelled (id : string) (cancelled : bool).

(** [ag_jobs]: the registry, from an id to the context of its job; [ag_ended]:
    the contexts that have ended.  The last four record history: the jobs that
    have run; the states of the strategies that ran to their end without an
    error, each with whether its context had ended by then; who asked to cancel
    what; and the replies. *)
Record agent := MkAgent {
  ag_rows : gmap string Backtest; ag_fills : list fill_row; ag_jobs : gmap string nat; ag_ended : gset nat; ag_contexts : nat;
  ag_spawned : gmap string Job;
  ag_started : gset string; ag_clean : gmap string (jobState * bool); ag_cancels : list (string * string); ag_replies : list (string * Reply);
}.
Definition empty_agent : agent := MkAgent ∅ [] ∅ ∅ 0 ∅ ∅ ∅ [] [].

Definition set_rows r s := MkAgent r (ag_fills s) (ag_jobs s) (ag_ended s) (ag_contexts s) (ag_spawned s) (ag_started s) (ag_clean s) (ag_cancels s) (ag_replies s).
Definition set_fills f s := MkAgent (ag_rows s) f (ag_jobs s) (ag_ended s) (ag_contexts s) (ag_spawned s) (ag_started s) (ag_clean s) (ag_cancels s) (ag_replies s).
Definition set_jobs j e n s := MkAgent (ag_rows s) (ag_fills s) j e n (ag_spawned s) (ag_started s) (ag_clean s) (ag_cancels s) (ag_replies s).
Definition set_spawned p t s := MkAgent (ag_rows s) (ag_fills s) (ag_jobs s) (ag_ended s) (ag_contexts s) p t (ag_clean s) (ag_cancels s) (ag_replies s).
Definition set_clean c s := MkAgent (ag_rows s) (ag_fills s) (ag_jobs s) (ag_ended s) (ag_contexts s) (ag_spawned s) (ag_started s) c (ag_cancels s) (ag_replies s).
Definition set_cancels c s := MkAgent (ag_rows s) (ag_fills s) (ag_jobs s) (ag_ended s) (ag_contexts s) (ag_spawned s) (ag_started s) (ag_clean s) c (ag_replies s).
Definition set_replies r s := MkAgent (ag_rows s) (ag_fills s) (ag_jobs s) (ag_ended s) (ag_contexts s) (ag_spawned s) (ag_started s) (ag_clean s) (ag_cancels s) r.

(** How the strategy's [_start] ends: it returns after what it did with the
    host, it fails, or it panics. *)
Inductive RunEnd := Ran (m : M) (acts : list (guestAct (M := M))) | RunFailed (e : error) | RunPanicked (msg : string).

Inductive Lookup (A : Type) := Found (a : A) | Missing | Broken.
Arguments Found {A} a.
Arguments Missing {A}.
Arguments Broken {A}.
Record Version := MkVersion { v_Revision : string; v_Target : string; v_WasmRef : string; v_ManifestHash : string }.

Record Choice := MkChoice {
  ch_ok : bool; ch_now : Time; ch_uuid : string; ch_uuids : nat -> string;
  ch_fuel : nat; ch_tables : Tables; ch_api : Api; ch_alive : nat -> bool;
  ch_load : result unit; ch_run : RunEnd;
  ch_strategy : Lookup unit; ch_version : Lookup Version;
}.
Notation aprog := (prog agent Choice).

(** A query under the context of a job, or under one that does not end. *)
Definition answers (ctx : option nat) (c : Choice) (s : agent) : bool :=
  ch_ok c && match ctx with Some n => negb (bool_decide (n ∈ ag_ended s)) | None => true end.
Definition on_rows {A} (f : Choice -> agent -> A * gmap string Backtest) : aprog A :=
  atomic (fun c s => let '(a, rows) := f c s in (set_rows rows s, a)).
Definition update_status (ctx : option nat) (id : string) (st : Status) (started finished : option Time) (msg : string) : aprog bool :=
  on_rows (fun c s => UpdateStatus (answers ctx c s) id st started finished msg (ag_rows s)).

(** [fail] *)
Definition fail (n : nat) (id msg : string) : aprog unit :=
  now ← choose ch_now; _ ← update_status (Some n) id StatusFailed None (Some now) msg; mret tt.
Definition fail_with (n : nat) (id msg : string) (e : error) : aprog (result unit) := _ ← fail n id msg; mret (Err e).

Definition persistSuccess (n : nat) (b : Backtest) (fills : list Fill) : aprog (result unit) :=
  ok ← atomic (fun c s => let '(ok, t) := InsertFills (answers (Some n) c s) (ch_uuids c) (b_ID b) fills (ag_fills s) in (set_fills t s, ok));
  if negb ok then fail_with n (b_ID b) "persist fills" (ErrMsg "wasm starter: insert fills")
  else
    let summary := Compute fills (initial_equity b) in
    ok ← on_rows (fun c s => SetSummary (answers (Some n) c s) (ch_now c) (b_ID b) summary (Z.of_nat (length fills)) (ag_rows s));
    if negb ok then fail_with n (b_ID b) "persist summary" (ErrMsg "wasm starter: set summary") else mret (Ok tt).

(** [Start] returns, or panics. *)
Definition Start (hasHistory : bool) (n : nat) (b : Backtest) : aprog (result unit + string) :=
  let id := b_ID b in
  let quit msg e : aprog (result unit + string) := r ← fail_with n id msg e; mret (inl r) in
  startedAt ← choose ch_now;
  ok ← update_status (Some n) id StatusRunning (Some startedAt) None "";
  if negb ok then mret (inl (Err (ErrMsg "wasm starter: mark running")))
  else
    fetched ← await (fun c _ => job_state hasHistory (ch_fuel c) (ch_tables c) (ch_api c) (ch_alive c) b);
    match fetched with
    | Err e => quit (message e) e
    | Ok job =>
        match buildConfigJSON b with
        | Err e => quit ("build config: " +:+ message e) e
        | Ok configJSON =>
            loaded ← choose ch_load;
            match loaded with
            | Err e => quit ("load wasm: " +:+ message e) e
            | Ok _ =>
                ended ← choose ch_run;
                match ended with
                | RunPanicked msg => mret (inr msg)
                | RunFailed e => quit ("run wasm: " +:+ message e) e
                | Ran m acts =>
                    let state := (run_guest acts (job configJSON) m).1 in
                    if js_errored state then quit (js_errorMsg state) (ErrMsg (js_errorMsg state))
                    else
                      canceled ← atomic (fun _ (s : agent) => (set_clean (<[id := (state, bool_decide (n ∈ ag_ended s))]> (ag_clean s)) s, bool_decide (n ∈ ag_ended s)));
                      if canceled : bool then mret (inl (Err (ErrMsg "context canceled")))
                      else r ← persistSuccess n b (js_fills state); mret (inl r)
                end
            end
        end
    end.

(** ** The registry *)

(** The end of a context and of its entry. *)
Definition end_job (id : string) (s : agent) : agent * bool :=
  match ag_jobs s !! id with
  | Some n => (set_jobs (delete id (ag_jobs s)) ({[n]} ∪ ag_ended s) (ag_contexts s) s, true)
  | None => (s, false)
  end.
Definition RegisterJob (id : string) : aprog nat :=
  atomic (fun _ s => (set_jobs (<[id := ag_contexts s]> (ag_jobs s)) (ag_ended s) (S (ag_contexts s)) s, ag_contexts s)).
Definition deregister (id : string) : aprog unit := atomic (fun _ s => ((end_job id s).1, tt)).
Definition Cancel (id : string) : aprog bool := atomic (fun _ s => end_job id s).
Definition CancelAll : aprog unit :=
  atomic (fun _ s => (set_jobs ∅ (list_to_set ((map_to_list (ag_jobs s)).*2) ∪ ag_ended s) (ag_contexts s) s, tt)).

(** The goroutine of [Submit]. *)
Definition run_job (hasHistory : bool) (j : Job) : aprog unit :=
  let id := b_ID (jr_backtest j) in
  r ← Start hasHistory (jr_ctx j) (jr_backtest j);
  _ ← match r with
      | inr msg => update_status None id StatusFailed None None ("backtest panic: " +:+ msg)
      | inl _ => mret true
      end;
  deregister id.

Inductive SubmitError := InvalidRequest (e : error) | VersionNotBuilt | WasmUnavailable | SingleInflight | SubmitFailed.

Definition Submit (hasWasm : bool) (userID strategyID versionID wasmRef : string) (req : Request) : aprog (SubmitError + string) :=
  match ParseRequest req with
  | Err e => mret (inl (InvalidRequest e))
  | Ok _ =>
      if bool_decide (wasmRef = ""%string) then mret (inl VersionNotBuilt)
      else if negb hasWasm then mret (inl WasmUnavailable)
      else
        created ← on_rows (fun c s =>
          let b := MkBacktest (ch_uuid c) strategyID versionID userID StatusQueued (ch_now c) None None "" (q_Start req) (q_End req) (q_Resolution req)
                     (q_OrderBookID req) (q_Params req) None 0 (q_WarmupCandles req) in
          let '(r, rows) := Create (answers None c s) (ch_now c) b (ag_rows s) in ((r, b), rows));
        match created with
        | (inr UniqueViolation, _) => mret (inl SingleInflight)
        | (inr DbFailed, _) => mret (inl SubmitFailed)
        | (inl _, b) =>
            n ← RegisterJob (b_ID b);
            _ ← update (fun s => set_spawned (<[b_ID b := MkJobRun b n]> (ag_spawned s)) (ag_started s) s);
            mret (inr (b_ID b))
        end
  end.

(** ** Requests *)

(** What the server is configured with; a starter comes with its orchestrator. *)
Record Wiring := MkWiring { g_store : bool; g_orch : bool; g_wasm : bool; g_history : bool }.

Definition reply (user : string) (r : Reply) : aprog unit := update (fun s => set_replies (ag_replies s ++ [(user, r)]) s).
Definition not_found (user : string) : aprog unit := reply user (ReplyError 404 "backtest not found").
Definition unavailable (user : string) : aprog unit := reply user (ReplyError 503 "backtest service unavailable").

Definition submit_error (e : SubmitError) : Reply :=
  match e with
  | VersionNotBuilt => ReplyError 409 "version has no compiled wasm"
  | WasmUnavailable => ReplyError 503 "wasm runtime unavailable"
  | InvalidRequest e => ReplyError 400 ("backtest: invalid request
" +:+ message e)
  | SingleInflight => ReplyError 429 "user already has an active backtest"
  | SubmitFailed => ReplyError 500 "failed to submit backtest"
  end.

(** [GetStrategy] of the caller *)
Definition with_strategy (user : string) (k : aprog unit) : aprog unit :=
  found ← choose ch_strategy;
  match found with
  | Missing => reply user (ReplyError 404 "strategy not found")
  | Broken => reply user (ReplyError 500 "failed to get strategy")
  | Found _ => k
  end.

Definition handleBacktest (g : Wiring) (user strategyID : string) (body : option Request) : aprog unit :=
  if negb (g_store g && g_orch g) then unavailable user
  else with_strategy user (
    found ← choose ch_version;
    match found with
    | Missing => reply user (ReplyError 404 "version not found")
    | Broken => reply user (ReplyError 500 "failed to get version")
    | Found v =>
        match body with
        | None => reply user (ReplyError 400 "invalid request body")
        | Some req =>
            if bool_decide (v_Target v = "go-wasm"%string) then
              r ← Submit (g_wasm g) user strategyID (v_Revision v) (v_WasmRef v) req;
              match r with inl e => reply user (submit_error e) | inr id => reply user (ReplySubmitted id) end
            else reply user (ReplyError 409 "unsupported version target")
        end
    end).

Definition backtestListLimit : Z := 50.
(** [?limit=] *)
Definition list_limit (v : string) : Z :=
  if bool_decide (v = ""%string) then backtestListLimit
  else match Atoi v with Ok n => if (0 <? n) && (n <=? backtestListLimit) then n else backtestListLimit | Err _ => backtestListLimit end.

Definition handleListBacktests (g : Wiring) (user strategyID limit : string) : aprog unit :=
  if negb (g_store g) then unavailable user
  else with_strategy user (
    rows ← atomic (fun c s => (s, List_ (answers None c s) strategyID (list_limit limit) (ag_rows s)));
    match rows with
    | Err _ => reply user (ReplyError 500 "failed to list backtests")
    | Ok rows => reply user (ReplyList (List.filter (fun b => bool_decide (b_UserID b = user)) rows))
    end).

(** [Get] and the check of the owner. *)
Definition with_backtest (user id : string) (failed : error -> aprog unit) (k : Backtest -> aprog unit) : aprog unit :=
  r ← atomic (fun c s => (s, Get (answers None c s) id (ag_rows s)));
  match r with
  | Err e => failed e
  | Ok b => if bool_decide (b_UserID b = user) then k b else failed ErrNotFound
  end.
Definition get_failed (user : string) (e : error) : aprog unit :=
  if bool_decide (e = ErrNotFound) then not_found user else reply user (ReplyError 500 "failed to get backtest").

Definition handleGetBacktest (g : Wiring) (user id : string) : aprog unit :=
  if negb (g_store g) then unavailable user
  else with_backtest user id (get_failed user) (fun b =>
    fills ← atomic (fun c s => (s, GetFills (answers None c s) id (ag_fills s)));
    match fills with
    | Err _ => reply user (ReplyError 500 "failed to load fills")
    | Ok fills => reply user (ReplyBacktest b fills)
    end).

(** [CancelIfRunning], with who asked. *)
Definition cancel_row (user id : string) : aprog (result bool) :=
  atomic (fun c s =>
    let '(r, rows) := CancelIfRunning (answers None c s) (ch_now c) id (ag_rows s) in
    (set_cancels (match r with Ok true => (id, user) :: ag_cancels s | _ => ag_cancels s end) (set_rows rows s), r)).

Definition handleCancelBacktest (g : Wiring) (user id : string) : aprog unit :=
  if negb (g_store g && g_orch g) then unavailable user
  else with_backtest user id (get_failed user) (fun _ =>
    r ← cancel_row user id;
    match r with
    | Err _ => reply user (ReplyError 500 "failed to cancel backtest")
    | Ok _ => _ ← Cancel id; reply user ReplyNoContent
    end).

(** [CancelHandler], the tool of the language model; its errors have no code. *)
Definition tool_failed (user : string) (e : error) : aprog unit := reply user (ReplyError 0 ("cancel_backtest: " +:+ message e)).
Definition CancelHandler (user id : string) : aprog unit :=
  if bool_decide (id = ""%string) then reply user (ReplyError 0 "cancel_backtest: backtest_id is required")
  else with_backtest user id (tool_failed user) (fun _ =>
    r ← cancel_row user id;
    match r with
    | Err e => tool_failed user e
    | Ok flipped => _ ← Cancel id; reply user (ReplyCancelled id flipped)
    end).

(** ** The system *)

Inductive Req :=
  | PostBacktest (user strategyID : string) (body : option Request)
  | GetBacktests (user strategyID limit : string)
  | GetBacktest (user id : string)
  | PostCancel (user id : string)
  | ToolCancel (user id : string)
  | JobRuns (id : string)           (* a spawned goroutine starts *)
  | Shutdown.

(** The goroutine takes the job that waits for it. *)
Definition take_job (id : string) : aprog Job :=
  Atom (fun _ s => match ag_spawned s !! id with
                   | Some j => Some (set_spawned (delete id (ag_spawned s)) ({[id]} ∪ ag_started s) s, Ret j)
                   | None => None
                   end).

(** On whose behalf a thread runs. *)
Definition serve (g : Wiring) (r : Req) : thread agent Choice (option string) :=
  match r with
  | PostBacktest u sid body => MkThread (Some u) (handleBacktest g u sid body)
  | GetBacktests u sid limit => MkThread (Some u) (handleListBacktests g u sid limit)
  | GetBacktest u id => MkThread (Some u) (handleGetBacktest g u id)
  | PostCancel u id => MkThread (Some u) (handleCancelBacktest g u id)
  | ToolCancel u id => MkThread (Some u) (CancelHandler u id)
  | JobRuns id => MkThread None (j ← take_job id; run_job (g_history g) j)
  | Shutdown => MkThread None CancelAll
  end.

Definition no_env (e : Empty_set) (s : agent) : option agent := None.
Definition arun (g : Wiring) : list (label Choice Empty_set Req) -> system agent Choice (option string) -> option (system agent Choice (option string)) :=
  sys_run no_env (serve g).
Definition started_agent : system agent Choice (option string) := MkSystem empty_agent [].
End Starter.
