(* ===== verification/WasmReplay.v ===== *)
(** * What a strategy sees in a backtest

    Theory of [WasmHost] and of the replay of [WasmStarter]: the host writes
    only where the strategy said, the preamble is handed out completely, and
    the events of the replay are the history of the window in the order of
    time, with orders filled against the last candle delivered. *)

From S2P Require Import Prelude GoTime GoFloat Json HttpDecisions Streams Concurrency History HistoryPages AgentBacktest WasmHost WasmStarter.
From Stdlib Require Import Ascii DecimalString DecimalN.

(** ** Memory *)

Section Writes.
Context {Text : JsonText} {HOps : HostOps} {M : Type} {Mem : Memory M} {Laws : MemoryLaws M}.

(** [m'] is [m] with at most the bytes of a window changed. *)
Definition inside (m m' : M) (ptr len : Z) : Prop :=
  mem_size m' = mem_size m /\ forall a, mem_byte m' a <> mem_byte m a -> ptr <= a < ptr + len.

Lemma wh_inside_refl m ptr len : inside m m ptr len.
Proof. split; [done |]. by intros a H. Qed.
#[local] Hint Resolve wh_inside_refl : verif.

Lemma wh_u32 z : 0 <= u32 z < 2 ^ 32.
Proof. unfold u32. by apply Z.mod_pos_bound. Qed.
Lemma wh_arg params i : 0 <= arg params i < 2 ^ 32.
Proof. apply wh_u32. Qed.

Lemma wh_write m ptr len s : text_length s <= len -> inside m (write m ptr s) ptr len.
Proof.
  intros Hl. unfold write. destruct (mem_write m ptr s) as [m'|] eqn:E; simpl; [| auto with verif].
  destruct (write_bytes _ _ _ _ E) as (_ & Hs & Hb). split; [done |]. intros a Ha.
  destruct (Z.le_gt_cases ptr a) as [H1|H1], (Z.lt_ge_cases a (ptr + text_length s)) as [H2|H2]; [lia | | |];
    destruct Ha; apply Hb; unfold text_length in *; lia.
Qed.
(** A text that fits by its 32-bit length fits. *)
Lemma wh_write_u32 m ptr len s : 0 <= ptr -> u32 (text_length s) <= len -> inside m (write m ptr s) ptr len.
Proof.
  intros Hp Hl. unfold write. destruct (mem_write m ptr s) as [m'|] eqn:E; simpl; [| auto with verif].
  assert (text_length s <= len) as Hl'.
  { destruct (write_bytes _ _ _ _ E) as (Hs & _ & _). pose proof (size_32 m). unfold u32 in Hl. unfold text_length in *. rewrite Z.mod_small in Hl by lia. done. }
  pose proof (wh_write m ptr len s Hl') as H. unfold write in H. by rewrite E in H.
Qed.

Lemma wh_substring n s : (String.length (String.substring 0 n s) <= n)%nat.
Proof. revert n. induction s as [|c s IH]; intros [|n]; simpl; [lia.. |]. specialize (IH n). lia. Qed.
Lemma wh_error m ptr len msg : inside m (writeError m ptr len msg) ptr len.
Proof.
  unfold writeError. set (err := _ +:+ _). set (total := u32 _). destruct (len <? total) eqn:E; [auto with verif |]. apply Z.ltb_ge in E.
  apply wh_write. pose proof (wh_substring (Z.to_nat total) (little_endian (u32 (text_length err)) +:+ err)) as Hs.
  pose proof (wh_u32 (errLenPrefixBytes + text_length err)) as Ht. change (u32 (errLenPrefixBytes + text_length err)) with total in Ht.
  etransitivity; [| exact E]. unfold text_length at 1. lia.
Qed.
Lemma wh_respond m params ptr len tl b : 0 <= ptr -> inside m (respond m params ptr len tl b).1 ptr len.
Proof.
  intros Hp. unfold respond. destruct (len <? u32 (text_length b)) eqn:E; simpl; [apply wh_error |]. apply Z.ltb_ge in E. by apply wh_write_u32.
Qed.
Lemma wh_respond_json m params ptr len what tl r : 0 <= ptr -> inside m (respond_json m params ptr len what tl r).1 ptr len.
Proof. intros Hp. destruct r; simpl; [by apply wh_respond | apply wh_error]. Qed.
Lemma wh_put m params ptr len s : inside m (put m params ptr len s).1 ptr len.
Proof.
  unfold put. destruct (len <? text_length s) eqn:E; simpl; [auto with verif |]. apply Z.ltb_ge in E.
  pose proof (wh_write m ptr len s E) as H. unfold write in H. destruct (mem_write m ptr s); simpl in *; [done | auto with verif].
Qed.
#[local] Hint Resolve wh_error wh_respond wh_respond_json wh_put : verif.

(** Where a function was told to write: the output buffer of those that also
    read an input, the only buffer of the others. *)
Definition out_window (name : string) (params : list Z) : Z * Z :=
  if bool_decide (name ∈ ["host_submit_order"; "host_fetch_candles"; "host_fetch_trades"; "host_fetch_prices"]%string)
  then (arg params 2, arg params 3) else (arg params 0, arg params 1).

Ltac window params :=
  match goal with |- context [out_window ?n params] =>
    first [change (out_window n params) with (arg params 0, arg params 1) | change (out_window n params) with (arg params 2, arg params 3)]
  end; cbn [fst snd default].

Lemma wh_fetch {T} (items : jobState -> list T) env s m params : inside m (host_fetch items env s m params).1.2 (arg params 2) (arg params 3).
Proof. unfold host_fetch, unchanged. simpl. destruct (preamblePage _ _ _); [apply wh_respond_json | apply wh_error]. apply wh_arg. Qed.

Lemma wh_event next s m params : inside m (hostNextEvent next s m params).1.2 (arg params 0) (arg params 1).
Proof.
  unfold hostNextEvent, event_reply, unchanged. pose proof (wh_arg params 0) as [Hp _]. destruct (negb _).
  - destruct (_ !! _) as [c|]; [| apply wh_inside_refl]. destruct (envelope_json _ _); simpl; auto with verif.
  - destruct next as [k row|[e|]|]; simpl; auto with verif. destruct (streamEventEnvelope s k row) as [s' [j|e]]; simpl; auto with verif.
Qed.

Lemma wh_next_candle s m params : inside m (hostNextCandle s m params).1.2 (arg params 0) (arg params 1).
Proof.
  unfold hostNextCandle, candle_reply, unchanged. pose proof (wh_arg params 0) as [Hp _].
  destruct (negb _); [destruct (_ !! _); simpl; auto with verif |]. destruct (js_lastCandle s); [| apply wh_inside_refl]. destruct (js_lastCandleDelivered s); simpl; auto with verif.
Qed.
Lemma wh_submit s m params : inside m (hostSubmitOrder s m params).1.2 (arg params 2) (arg params 3).
Proof.
  unfold hostSubmitOrder, unchanged. pose proof (wh_arg params 2) as [Hp _]. destruct (mem_read _ _ _) as [b|]; simpl; [| auto with verif].
  destruct (read_intent b) as [i|e]; simpl; [| auto with verif]. destruct (simulateFill s i) as [s' [fl|e]]; simpl; auto with verif.
Qed.

(** C37: the host never writes outside the buffer a strategy named: whatever
    function it calls with whatever arguments, in a backtest or when it is
    validated, only bytes of that buffer change. *)
Theorem host_writes_in_buffer name f now next params s m s' m' params' :
  BuildHostModule (newBacktestHostModule now next) name = Some f \/ NewHostModule name = Some f ->
  f s m params = (s', m', params') -> inside m m' (out_window name params).1 (out_window name params).2.
Proof.
  intros Hf E. assert (m' = (f s m params).1.2) as -> by by rewrite E. clear E. pose proof (wh_arg params 0) as [H0 _].
  unfold NewHostModule, BuildHostModule, newBacktestHostModule in *.
  destruct (bool_decide (name ∈ AllHostFuncs.*1)); [| by destruct Hf]. destruct Hf as [Hf|Hf]; injection Hf as <-; simpl.
  - repeat (case_bool_decide; [subst name; window params;
      first [by apply wh_respond | apply wh_next_candle | apply wh_fetch | apply wh_event | apply wh_submit | apply wh_inside_refl] |]). apply wh_inside_refl.
  - case_bool_decide as Hn; [subst name; window params; apply wh_put |].
    case_bool_decide as Hn'; [| apply wh_inside_refl]. unfold out_window. rewrite bool_decide_eq_true_2 by (by right). apply wh_put.
Qed.
End Writes.

(** ** The preamble *)

Lemma wr_atoi n : 0 <= n <= int64_max -> Atoi (format_int n) = Ok n.
Proof.
  intros Hn. assert (format_int n = NilEmpty.string_of_uint (N.to_uint (Z.to_N n))) as -> by (unfold format_int; destruct n; [done.. | lia]).
  assert (N.of_uint (N.to_uint (Z.to_N n)) = Z.to_N n) as Ho by apply DecimalN.Unsigned.of_to.
  assert (N.to_uint (Z.to_N n) <> Decimal.Nil) as Hne by (destruct (Z.to_N n); [done | simpl; apply DecimalPos.Unsigned.to_uint_nonnil]).
  pose proof (NilEmpty.usu (N.to_uint (Z.to_N n))) as Hu. revert Ho Hne Hu. generalize (N.to_uint (Z.to_N n)). intros u Ho Hne Hu.
  unfold Atoi. assert (exists c rest, NilEmpty.string_of_uint u = String c rest /\ c <> "+"%char /\ c <> "-"%char) as (c & rest & E & H1 & H2).
  { destruct u; [done | ..]; eexists _, _; (split; [reflexivity |]); split; done. }
  rewrite E in *. assert ((match String c rest with String "+" r | String "-" r => r | _ => String c rest end) = String c rest) as ->.
  { destruct c as [[] [] [] [] [] [] [] []]; try done; by destruct H1 || by destruct H2. }
  rewrite Hu, Ho. assert ((match String c rest with String "-" _ => - Z.of_N (Z.to_N n) | _ => Z.of_N (Z.to_N n) end) = n) as ->.
  { rewrite Z2N.id by lia. destruct c as [[] [] [] [] [] [] [] []]; try done; by destruct H2. }
  unfold int64_min. by rewrite (proj2 (Z.leb_le (- 2 ^ 63) n)), (proj2 (Z.leb_le n int64_max)) by lia.
Qed.
Lemma wr_format_nonempty n : 0 <= n <= int64_max -> format_int n <> ""%string.
Proof. intros Hn E. pose proof (wr_atoi n Hn) as H. by rewrite E in H. Qed.

Section Preamble.
Context {HOps : HostOps} {T : Type}.

(** A strategy that follows the cursor, asking for batches of its choice: the
    items it was given, and the cursor it stands at ([None]: it was told that
    that was all). *)
Fixpoint walk (items : list T) (cursor : string) (batches : list Z) : result (list T * option string) :=
  match batches with
  | [] => Ok ([], Some cursor)
  | n :: rest =>
      p ← page_at items (MkFetchReq cursor n);
      if pg_last _ p then Ok (pg_items _ p, None)
      else '(later, c) ← walk items (pg_next _ p) rest; Ok (pg_items _ p ++ later, c)
  end.

Definition cursor_of (k : nat) : string := match k with O => ""%string | _ => format_int (Z.of_nat k) end.

Lemma wr_clamp n : 1 <= clampFetchBatchSize n <= maxFetchBatchSize.
Proof. unfold clampFetchBatchSize, preambleBatchSize, maxFetchBatchSize. destruct (n <=? 0) eqn:E; lia. Qed.

Lemma wr_page_at (items : list T) k n : Z.of_nat (length items) <= int64_max -> (k <= length items)%nat ->
  exists j, (k + j <= length items)%nat /\ (k + j = length items \/ 0 < j)%nat /\
    page_at items (MkFetchReq (cursor_of k) n) = Ok (MkPageOf _ (take j (drop k items)) (bool_decide (k + j = length items)%nat)
      (if bool_decide (k + j = length items)%nat then ""%string else cursor_of (k + j))).
Proof.
  intros Hm Hk. pose proof (wr_clamp n) as Hc. set (c := clampFetchBatchSize n) in *. set (len := length items) in *.
  exists (Z.to_nat (Z.min (Z.of_nat k + c) (Z.of_nat len)) - k)%nat. split_and!; [lia | lia |]. unfold page_at. fold len. simpl fq_Cursor. simpl fq_BatchSize. fold c.
  assert ((if bool_decide (cursor_of k = ""%string) then Ok 0
           else match Atoi (cursor_of k) with Ok n => if (n <? 0) || (Z.of_nat len <? n) then Err (ErrMsg ("invalid fetch cursor " +:+ quote (cursor_of k))) else Ok n | Err _ => Err (ErrMsg ("invalid fetch cursor " +:+ quote (cursor_of k))) end) = Ok (Z.of_nat k)) as ->.
  { destruct k as [|k]; [done |]. unfold cursor_of. rewrite bool_decide_eq_false_2 by (apply wr_format_nonempty; lia). rewrite wr_atoi by lia.
    by rewrite (proj2 (Z.ltb_ge _ 0)), (proj2 (Z.ltb_ge (Z.of_nat len) _)) by lia. }
  simpl. set (stop := Z.min _ _). assert (Z.to_nat stop - k = Z.to_nat (stop - Z.of_nat k))%nat as -> by lia. rewrite Nat2Z.id.
  assert ((Z.of_nat len <=? stop) = bool_decide (k + Z.to_nat (stop - Z.of_nat k) = len)%nat) as E.
  { case_bool_decide; [apply Z.leb_le | apply Z.leb_gt]; lia. }
  rewrite E. f_equal. f_equal. case_bool_decide as Hd; [done |]. unfold cursor_of. destruct (k + Z.to_nat (stop - Z.of_nat k))%nat as [|j] eqn:Ej; [lia |].
  f_equal. lia.
Qed.

Lemma wr_walk (items : list T) batches k : Z.of_nat (length items) <= int64_max -> (k <= length items)%nat ->
  exists j, (k + j <= length items)%nat /\ exists c, walk items (cursor_of k) batches = Ok (take j (drop k items), c) /\
    (c = None -> k + j = length items)%nat /\ (length items - k < length batches -> c = None)%nat.
Proof.
  intros Hm. revert k. induction batches as [|n batches IH]; intros k Hk; simpl.
  { exists 0%nat. split; [lia |]. eexists. split; [done |]. split; [done | lia]. }
  destruct (wr_page_at items k n Hm Hk) as (j & Hj & Hp & ->). simpl. case_bool_decide as Hd.
  { exists j. split; [lia |]. exists None. done. }
  destruct (IH (k + j)%nat Hj) as (i & Hi & c & -> & H1 & H2). simpl. exists (j + i)%nat. split; [lia |]. exists c.
  split_and!; [| intros Hc; specialize (H1 Hc); lia | intros; apply H2; lia].
  rewrite <- (take_take_drop (drop k items) j i), drop_drop. done.
Qed.
End Preamble.

(** A strategy that follows the cursors of the preamble is given every
    item once and in order, whatever batch sizes it asks for, is never refused,
    and is told that it is done after at most one call more than there are
    items. *)
Theorem preamble_handed_out {HOps : HostOps} {T} (items : list T) batches : Z.of_nat (length items) <= int64_max ->
  exists given c, walk items "" batches = Ok (given, c) /\ (exists later, items = given ++ later /\ (c = None -> later = [])) /\
    (length items < length batches -> c = None)%nat.
Proof.
  intros Hm. destruct (wr_walk items batches 0 Hm ltac:(lia)) as (j & Hj & c & E & H1 & H2). rewrite drop_0 in E.
  exists (take j items), c. split; [exact E |]. split; [| intros; apply H2; lia]. exists (drop j items). split; [by rewrite take_drop |].
  intros Hc. apply drop_ge. specialize (H1 Hc). lia.
Qed.

(** ** The replay *)

Section Replay.
Context {Text : JsonText} {HOps : HostOps} {M : Type} {Mem : Memory M}.
Variable fetch : eventKind -> pageFetcher streamRow.

(** The strategy, its memory and the merge it draws from. *)
Definition guest : Type := jobState * M * mergeStream (T := streamRow).

(** It computes or calls; a call of host_next_event takes the next event, waits
    for one, meets the end, or finds its context ended. *)
Inductive guest_step : guest -> list (eventKind * streamRow) -> guest -> Prop :=
  | gs_act s m ms a : match a with GCall name _ _ _ => name <> "host_next_event"%string | GCompute _ => True end ->
      guest_step (s, m, ms) [] (guest_act (s, m) a, ms)
  | gs_event s m ms params now k row ms' : merge_step row_time fetch ms (Some (k, row)) ms' ->
      guest_step (s, m, ms) [(k, row)] (guest_act (s, m) (GCall "host_next_event" params now (Deliver k row)), ms')
  | gs_wait s m ms ms' : merge_step row_time fetch ms None ms' -> guest_step (s, m, ms) [] (s, m, ms')
  | gs_end s m ms params now e ms' : merge_pass row_time fetch ms (Finished e) ms' ->
      guest_step (s, m, ms) [] (guest_act (s, m) (GCall "host_next_event" params now (Finished e)), ms')
  | gs_stopped s m ms params now e :
      guest_step (s, m, ms) [] (guest_act (s, m) (GCall "host_next_event" params now (Finished (Some e))), ms).

Inductive guest_run : guest -> list (eventKind * streamRow) -> guest -> Prop :=
  | gr_nil g : guest_run g [] g
  | gr_snoc g evs g1 ev g2 : guest_run g evs g1 -> guest_step g1 ev g2 -> guest_run g (evs ++ ev) g2.

Definition candle_in (acc : option sdkCandle) (e : eventKind * streamRow) : option sdkCandle :=
  match e with (kindCandle, candleRow _ c) => Some c | _ => acc end.
(** The candle a strategy has seen last. *)
Definition last_candle (evs : list (eventKind * streamRow)) : option sdkCandle := foldl candle_in None evs.

Definition sees (c : option sdkCandle) (s : jobState) : Prop := js_replay s = true /\ js_lastCandle s = c.

Lemma wr_sees_record now c s (m : M) params : sees c s -> sees c (hostRecordFill now s m params).1.1.
Proof.
  unfold hostRecordFill. simpl. destruct (mem_read _ _ _) as [b|]; [| done]. destruct (read_fill b); [| done].
  destruct (frameworkFillToBacktest _ _ _); done.
Qed.
Lemma wr_sees_submit c s (m : M) params : sees c s -> sees c (hostSubmitOrder s m params).1.1.
Proof.
  unfold hostSubmitOrder, simulateFill. intros [Hr Hc]. destruct (mem_read _ _ _) as [b|]; [| exact (conj Hr Hc)]. destruct (read_intent b) as [i|]; [| exact (conj Hr Hc)].
  destruct (js_lastCandle s) as [x|] eqn:E; split; simpl; congruence.
Qed.
Lemma wr_sees_next c s (m : M) params : sees c s -> sees c (hostNextCandle s m params).1.1.
Proof.
  unfold hostNextCandle. intros [Hr Hc]. rewrite Hr. simpl. destruct (js_lastCandle s) eqn:E; [destruct (js_lastCandleDelivered s) |]; split; simpl; congruence.
Qed.

(** No other function changes the candle orders are filled against. *)
Lemma wr_sees_call name params now next c s (m : M) : name <> "host_next_event"%string -> sees c s -> sees c (call_host name params now next s m).1.1.
Proof.
  intros Hne Hs. unfold call_host, BuildHostModule. destruct (bool_decide _); [| done]. unfold newBacktestHostModule. rewrite (bool_decide_eq_false_2 (name = "host_next_event"%string)) by done.
  repeat (case_bool_decide; [first [by apply wr_sees_record | by apply wr_sees_submit | by apply wr_sees_next | done | idtac] |]); try done.
  unfold hostLog. simpl. by destruct (readString _ _ _).
Qed.

Lemma wr_sees_event params now k row c s (m : M) : sees c s -> sees (candle_in c (k, row)) (call_host "host_next_event" params now (Deliver k row) s m).1.1.
Proof.
  intros [Hr Hc]. change (call_host "host_next_event" params now (Deliver k row) s m) with (hostNextEvent (Deliver k row) s m params).
  unfold hostNextEvent. rewrite Hr. simpl. destruct k, row; simpl; try (by split).
  - destruct (candle_json payload); by split.
  - destruct (trade_json payload); by split.
  - destruct (price_json payload); by split.
Qed.
Lemma wr_sees_end params now e c s (m : M) : sees c s -> sees c (call_host "host_next_event" params now (Finished e) s m).1.1.
Proof.
  intros [Hr Hc]. change (call_host "host_next_event" params now (Finished e) s m) with (hostNextEvent (Finished e) s m params).
  unfold hostNextEvent. rewrite Hr. simpl. destruct e; by split.
Qed.

(** Where a run stands: what it saw, and what the sources still hold. *)
Definition standing (rows : eventKind -> list streamRow) (errs : eventKind -> option error) (evs : list (eventKind * streamRow)) (g : guest) : Prop :=
  sees (last_candle evs) g.1.1 /\
  exists rest, merge_inv fetch g.2 rest errs /\ merge_rows row_time rows = evs ++ merge_rows row_time rest.

Lemma wr_step rows errs evs g ev g' : guest_step g ev g' -> standing rows errs evs g -> standing rows errs (evs ++ ev) g'.
Proof.
  intros Hs [Hc (rest & Hi & E)]. destruct Hs as [s m ms a Ha|s m ms params now k row ms' Hm|s m ms ms' Hm|s m ms params now e ms' Hm|s m ms params now e];
    simpl in *; rewrite ?app_nil_r.
  - split; [| by exists rest]. destruct a as [m'|name params now next]; simpl in *; [done | by apply wr_sees_call].
  - destruct (merge_step_inv _ _ _ _ _ _ _ Hm Hi) as [Hh Hi']. split.
    + unfold last_candle. rewrite foldl_app. simpl. by apply wr_sees_event.
    + exists (pop k rest). split; [done |]. rewrite E, (merge_rows_pick _ _ _ _ Hh), <- app_assoc. done.
  - split; [done |]. exists rest. split; [| done]. by apply (merge_step_inv _ _ _ _ _ _ _ Hm Hi).
  - split; [by apply wr_sees_end |]. exists rest. split; [| done]. by apply (merge_pass_verdict _ _ _ _ _ _ _ Hm Hi).
  - split; [by apply wr_sees_end | by exists rest].
Qed.

Lemma wr_run rows errs g evs g' : guest_run g evs g' -> standing rows errs [] g -> standing rows errs evs g'.
Proof. intros Hr Hs. induction Hr as [g|g evs g1 ev g2 _ IH Hs']; [done | eapply wr_step; [exact Hs' | by apply IH]]. Qed.
End Replay.

(** A fill is at the close of the candle, or at a limit within its range. *)
Definition fair_fill {HOps : HostOps} (c : sdkCandle) (intent : OrderIntent) (f : sdkFill) : Prop :=
  sf_Price f = k_Close c \/
  sf_Price f = oi_Price intent /\ exists p l h, parse_rat (oi_Price intent) = Some p /\ parse_rat (k_Low c) = Some l /\ parse_rat (k_High c) = Some h /\ (l <= p <= h)%Q.

Lemma wr_fair {HOps : HostOps} s intent s' f : simulateFill s intent = (s', Ok f) ->
  exists c, js_lastCandle s = Some c /\ fair_fill c intent f /\ sf_Quantity f = oi_Quantity intent.
Proof.
  unfold simulateFill. destruct (js_lastCandle s) as [c|]; [| done]. unfold intent_price, limitWithinRange. intros [= _ H]. exists c. split; [done |].
  case_bool_decide; [injection H as <-; by split; [left |] |]. case_bool_decide; [| done].
  destruct (parse_rat (oi_Price intent)) as [p|] eqn:Ep; [| done]. destruct (parse_rat (k_Low c)) as [l|] eqn:El; [| done].
  destruct (parse_rat (k_High c)) as [h|] eqn:Eh; [| done]. destruct (Qle_bool l p && Qle_bool p h) eqn:E; [| done]. injection H as <-.
  apply andb_true_iff in E as [E1%Qle_bool_iff E2%Qle_bool_iff]. split; [right | done]. split; [done |]. by exists p, l, h.
Qed.

(** ** The history of the window *)

Section Window.
Context {Text : JsonText} {Ops : HistoryOps} {Laws : HistoryLaws} {HOps : HostOps} {M : Type} {Mem : Memory M}.

Lemma wr_mapped_chain {A B} (g : A -> B) (f : string -> result (list A * string)) c pages :
  chain (paged f) c pages -> Forall (fun p => pg_err p = None) pages ->
  exists pages', chain (paged (fun c => result_map (fun p => (g <$> p.1, p.2)) (f c))) c pages' /\ pages' ≫= good_rows = g <$> (pages ≫= good_rows) /\
    Forall (fun p => pg_err p = None) pages'.
Proof.
  set (mp := fun p : streamPage A => MkPage (g <$> pg_rows p) (pg_cursor p) (pg_done p) (pg_err p)).
  assert (forall c, fetch_page (paged (fun c => result_map (fun p => (g <$> p.1, p.2)) (f c))) c = mp (fetch_page (paged f) c)) as Hf.
  { intros x. unfold fetch_page, paged, mp. destruct (f x) as [[[|a l] n]|e]; done. }
  intros Hc Hn. exists (mp <$> pages). split_and!.
  - clear Hn. induction Hc as [c Hc|c l Hc _ IH]; rewrite fmap_cons, <- Hf; [apply chain_end | apply chain_more]; rewrite ?Hf; done.
  - clear Hc. induction Hn as [|p l Hp _ IH]; [done |]. rewrite fmap_cons, !bind_cons, fmap_app, IH. f_equal. unfold good_rows, mp. simpl. by rewrite Hp.
  - by apply Forall_fmap.
Qed.

(** What a replay delivers: the candles, the trades and the prices of the
    window, each in the order of time. *)
Definition window_rows (cs : list Candle) (ts : list Trade) (ps : list Price) (k : eventKind) : list streamRow :=
  match k with kindCandle => candle_event <$> cs | kindTrade => trade_event <$> ts | kindPrice => price_event <$> ps end.

(** What the tables hold for a window, in rows of the API: the candles of the
    order book, its trades, and the prices of the asset. *)
Record history_of (tc : list candle_row) (tt : list trade_row) (tp : list price_row) (from to : Time) (book asset : string) (sec : Z)
    (cs : list Candle) (ts : list Trade) (ps : list Price) : Prop := {
  ho_candles : exists rows, candle_history book sec (pg_micros from) (pg_micros to) tc rows /\ scan_rows scan_candle rows = Ok cs;
  ho_trades : exists rows, listed trade_key (fun r => tr_book r = book /\ pg_micros from <= tr_created r < pg_micros to) tt rows /\
    scan_rows scan_trade rows = Ok ts;
  ho_prices : exists rows, listed price_key (fun r => pr_asset r = asset /\ pg_micros from <= pr_time r < pg_micros to) tp rows /\
    scan_rows scan_price rows = Ok ps;
}.

(** The tables hold a history that can be fetched for [b] over a window: the
    ids are UUIDs and the primary keys hold, instants fit a cursor, no number
    is NULL, the window starts at a whole microsecond and, for candles of more
    than a minute, with a bucket that has a minute. *)
Record stored (tc : list candle_row) (tt : list trade_row) (tp : list price_row) (assetID : string) (b : Backtest) (from to : Time) (book asset : string)
    (sec : Z) : Prop := {
  rp_candles : candles_ok tc; rp_trades : trades_ok tt; rp_prices : prices_ok tp;
  rp_book : uuid_of (b_OrderBookID b) = Some book; rp_asset : uuid_of assetID = Some asset; rp_named : assetID <> ""%string;
  rp_resolution : resolutionSeconds (b_Resolution b) = Some sec;
  rp_window : carried_window from to;
  rp_aligned : 60 < sec -> pg_micros from mod (sec * 10 ^ 6) = 0;
  rp_full : candles_full book sec (pg_micros from) (pg_micros to) tc;
}.

(** The rows of the queries, scanned. *)
Definition scanned tc tt tp (b : Backtest) from to book asset (cs : list Candle) (ts : list Trade) (ps : list Price) : Prop :=
  scan_rows scan_candle (candles_of book from to (b_Resolution b) tc) = Ok cs /\
  scan_rows scan_trade (trades_of book from to tt) = Ok ts /\ scan_rows scan_price (prices_of asset from to tp) = Ok ps.

Lemma wr_history tc tt tp assetID b from to book asset sec : stored tc tt tp assetID b from to book asset sec ->
  exists cs ts ps, scanned tc tt tp b from to book asset cs ts ps /\ history_of tc tt tp from to book asset sec cs ts ps.
Proof.
  intros [Hc Ht Hp _ _ _ Hr _ Ha Hf]. destruct (hs_candles_scan book from to _ sec tc Hc Hr Ha Hf) as [cs Ecs].
  destruct (hs_scan_all scan_trade (trades_of book from to tt)) as [ts Ets]; [by apply Forall_forall |].
  destruct (hs_prices_scan tp asset from to Hp) as [ps Eps]. exists cs, ts, ps. split; [done |]. split; eexists; (split; [| eassumption]).
  - by apply hs_candles_of.
  - by apply hs_trades_listed.
  - by apply hs_prices_listed.
Qed.

Definition replayable tc tt tp assetID b := stored tc tt tp assetID b (b_WindowStart b) (b_WindowEnd b).

Lemma wr_sources tc tt tp assetID b book asset sec cs ts ps : replayable tc tt tp assetID b book asset sec ->
  scanned tc tt tp b (b_WindowStart b) (b_WindowEnd b) book asset cs ts ps ->
  exists pages, (forall k, chain (newReplayStream (MkTables (Ok tc) (Ok tt) (Ok tp)) assetID b k) "" (pages k)) /\
    (forall k, source_rows pages k = window_rows cs ts ps k) /\ forall k, source_errs pages k = None.
Proof.
  intros [Hc Ht Hp Hb Ha Hn Hr Hw _ _] (Ecs & Ets & Eps).
  destruct (history_candles_complete tc (b_OrderBookID b) book (b_WindowStart b) (b_WindowEnd b) (b_Resolution b) sec (Z.to_nat candlesPerChunk) cs) as (p1 & C1 & N1 & E1);
    [done.. | unfold candlesPerChunk; lia | done |].
  destruct Hw as (Hw & _). destruct (history_trades_complete tt (b_OrderBookID b) book (b_WindowStart b) (b_WindowEnd b) (Z.to_nat warmupTradesReplay)) as (p2 & C2 & N2 & E2);
    [done.. | unfold warmupTradesReplay; lia |].
  destruct (history_prices_complete tp assetID asset (b_WindowStart b) (b_WindowEnd b) (Z.to_nat warmupPricesReplay)) as (p3 & C3 & N3 & E3); [done.. | unfold warmupPricesReplay; lia |].
  rewrite Ets in E2. injection E2 as E2. rewrite Eps in E3. injection E3 as E3.
  apply (wr_mapped_chain candle_event) in C1 as (q1 & D1 & F1 & G1); [| done]. apply (wr_mapped_chain trade_event) in C2 as (q2 & D2 & F2 & G2); [| done].
  apply (wr_mapped_chain price_event) in C3 as (q3 & D3 & F3 & G3); [| done].
  exists (fun k => match k with kindCandle => q1 | kindTrade => q2 | kindPrice => q3 end). split_and!.
  - intros []; simpl; [exact D1 | exact D2 |]. rewrite bool_decide_eq_false_2 by done. exact D3.
  - intros []; unfold source_rows; simpl; [by rewrite F1, E1 | by rewrite F2, <- E2 | by rewrite F3, <- E3].
  - assert (forall (l : list (streamPage streamRow)), Forall (fun p => pg_err p = None) l -> match last l with Some p => pg_err p | None => None end = None) as Hl.
    { intros l Hl. destruct (last l) as [p|] eqn:E; [| done]. apply last_Some in E as (l' & ->). rewrite Forall_forall in Hl. apply Hl. set_solver. }
    intros []; unfold source_errs; by apply Hl.
Qed.

(** *** Draining the pages *)

(** No rows, no cursor. *)
Definition ends_right {A} (f : string -> result (list A * string)) : Prop := forall c rows next, f c = Ok (rows, next) -> rows = [] <-> next = ""%string.

Lemma wr_drains {A} (f : string -> result (list A * string)) c pages : ends_right f -> chain (paged f) c pages -> Forall (fun p => pg_err p = None) pages ->
  forall fuel, (length (pages ≫= good_rows) < fuel)%nat -> fetchAll fuel f c = Some (Ok (pages ≫= good_rows)).
Proof.
  intros Hf Hc. induction Hc as [c Hc|c l Hc Hl IH]; intros [He Hn]%Forall_cons fuel Hfuel; unfold fetch_page, paged in *;
    (destruct (f c) as [[rows next]|e] eqn:E; [| done]); destruct rows as [|r rows]; try done.
  - destruct fuel as [|fuel]; [simpl in Hfuel; lia |]. simpl. rewrite E. by rewrite bool_decide_eq_true_2 by by apply (Hf c [] next).
  - destruct fuel as [|fuel]; [simpl in Hfuel; lia |]. cbn [fetchAll]. rewrite E. rewrite bind_cons in Hfuel |- *. cbn [good_rows pg_err pg_rows pg_cursor] in *.
    rewrite bool_decide_eq_false_2 by (intros Hx; by apply (Hf c (r :: rows) next) in Hx). rewrite length_app in Hfuel. simpl length in Hfuel at 1. rewrite IH; [done | done | lia].
Qed.

Lemma wr_cursor_ends {A} (time : A -> Time) (id : A -> string) out : out = [] <-> next_cursor time id out = ""%string.
Proof.
  unfold next_cursor. split; [by intros -> |]. destruct (last out) as [x|] eqn:E; [| by intros _; apply last_None].
  intros Hx. by apply hs_encode_nonempty in Hx.
Qed.

Lemma wr_trades_end table id start end_ n : ends_right (fun c => FetchTrades table id start end_ c n).
Proof.
  intros c rows next. unfold FetchTrades. destruct (cursor_key start c) as [[u after]|]; [simpl | done]. destruct (wrap_err _ _) as [l|]; [simpl | done].
  destruct (scan_rows _ _) as [out|]; [simpl | done]. intros [= <- <-]. apply wr_cursor_ends.
Qed.
Lemma wr_prices_end table id start end_ n : ends_right (fun c => FetchPrices table id start end_ c n).
Proof.
  intros c rows next. unfold FetchPrices. destruct (cursor_key start c) as [[u after]|]; [simpl | done]. destruct (wrap_err _ _) as [l|]; [simpl | done].
  destruct (scan_rows _ _) as [out|]; [simpl | done]. intros [= <- <-]. apply wr_cursor_ends.
Qed.
Lemma wr_candles_end table id start end_ res n : ends_right (fun c => FetchCandles table id start end_ res c n).
Proof.
  intros c rows next. unfold FetchCandles. destruct (resolutionSeconds res); [| done]. destruct (cursor_key start c) as [[u after]|]; [simpl | done].
  destruct (wrap_err _ _) as [l|]; [simpl | done]. destruct (scan_rows _ _) as [out|]; [simpl | done]. intros [= <- <-]. apply wr_cursor_ends.
Qed.

Lemma wr_preamble tc tt tp assetID b book asset sec cs ts ps fuel :
  stored tc tt tp assetID b (warmupStart (b_WindowStart b) (b_WarmupCandles b) (b_Resolution b)) (b_WindowStart b) book asset sec ->
  scanned tc tt tp b (warmupStart (b_WindowStart b) (b_WarmupCandles b) (b_Resolution b)) (b_WindowStart b) book asset cs ts ps ->
  (length cs + length ts + length ps < fuel)%nat ->
  fetchHistoryWindow fuel (MkTables (Ok tc) (Ok tt) (Ok tp)) assetID b =
    Some (Ok (MkHistoryWindow (historyCandlesToFramework cs) (historyTradesToFramework ts) (historyPricesToFramework ps))).
Proof.
  intros [Hc Ht Hp Hb Ha Hn Hr Hw _ _] (Ecs & Ets & Eps) Hfuel. unfold fetchHistoryWindow. set (ws := warmupStart _ _ _) in *. simpl.
  set (n2 := Z.max (wrap64 (b_WarmupCandles b * warmupTradesPerCandle)) _). set (n3 := Z.max (wrap64 (b_WarmupCandles b * warmupPricesPerCandle)) _).
  assert (n2 = Z.of_nat (Z.to_nat n2)) as -> by (unfold n2, warmupMinTicks; lia). assert (n3 = Z.of_nat (Z.to_nat n3)) as -> by (unfold n3, warmupMinTicks; lia).
  assert (0 < Z.to_nat n2)%nat by (unfold n2, warmupMinTicks; lia). assert (0 < Z.to_nat n3)%nat by (unfold n3, warmupMinTicks; lia).
  destruct (history_candles_complete tc (b_OrderBookID b) book ws (b_WindowStart b) (b_Resolution b) sec (Z.to_nat candlesPerChunk) cs) as (p1 & C1 & N1 & E1);
    [done.. | unfold candlesPerChunk; lia | done |]. destruct Hw as (Hw & _).
  destruct (history_trades_complete tt (b_OrderBookID b) book ws (b_WindowStart b) (Z.to_nat n2)) as (p2 & C2 & N2 & E2); [done.. |].
  destruct (history_prices_complete tp assetID asset ws (b_WindowStart b) (Z.to_nat n3)) as (p3 & C3 & N3 & E3); [done.. |].
  rewrite Ets in E2. injection E2 as E2. rewrite Eps in E3. injection E3 as E3. subst cs ts ps.
  change (Z.of_nat (Z.to_nat candlesPerChunk)) with candlesPerChunk in C1.
  rewrite (wr_drains _ _ p1 (wr_candles_end _ _ _ _ _ _) C1 N1) by lia. simpl.
  rewrite (wr_drains _ _ p2 (wr_trades_end _ _ _ _ _) C2 N2) by lia. simpl. rewrite bool_decide_eq_false_2 by done.
  by rewrite (wr_drains _ _ p3 (wr_prices_end _ _ _ _ _) C3 N3) by lia.
Qed.

(** C36: the preamble a strategy is given is the history before its window.
    Over tables that do not change, whose keys hold and are UUIDs, without
    NULLs, when the queries succeed, and for a warm-up that starts
    at a whole microsecond and, for candles of more than a minute, with a bucket
    that has a minute ([stored]): fetching ends, within as many pages as there
    are rows and one, with the trades and the prices stored between the start of
    the warm-up and the start of the window, in the order of time and id, and
    with its candles ([candle_history]): the stored minutes, or one candle for
    every bucket, with the first open, the highest high, the lowest low, the
    last close and the total volume of its minutes, and where it has none the
    prices of the candle before and no volume.  (A warm-up that starts inside a
    bucket loses that bucket.) *)
Theorem preamble_is_history tc tt tp assetID b book asset sec :
  let from := warmupStart (b_WindowStart b) (b_WarmupCandles b) (b_Resolution b) in
  stored tc tt tp assetID b from (b_WindowStart b) book asset sec ->
  exists cs ts ps, history_of tc tt tp from (b_WindowStart b) book asset sec cs ts ps /\
    forall fuel, (length cs + length ts + length ps < fuel)%nat ->
      fetchHistoryWindow fuel (MkTables (Ok tc) (Ok tt) (Ok tp)) assetID b =
        Some (Ok (MkHistoryWindow (historyCandlesToFramework cs) (historyTradesToFramework ts) (historyPricesToFramework ps))).
Proof.
  intros from Hst. destruct (wr_history _ _ _ _ _ _ _ _ _ _ Hst) as (cs & ts & ps & Hsc & Hho). exists cs, ts, ps. split; [done |]. intros fuel. by eapply wr_preamble.
Qed.

(** C35: what a strategy sees of the past is the history of its window, and it
    never sees further.  Over tables that do not change, whose keys hold and
    are UUIDs, without NULLs, when the queries succeed, and for a window that starts at a whole microsecond and, for candles of more than a
    minute, with a bucket that has a minute ([stored]): at any moment of a run
    the events it has been given are the beginning of the merge by time
    ([merges]: always the earliest row left, candles before trades before
    prices at one instant) of the window's candles ([candle_history]: the
    stored minutes, or one candle for every bucket), trades and prices; when it is told that the replay has ended it
    has been given everything; and an order is filled against the last candle
    among those given, at its close or at a limit within its range.  (A window
    that starts inside a bucket loses that bucket.) *)
Theorem agent_replay_is_history tc tt tp assetID b book asset sec w configJSON (m : M) evs s m' ms :
  replayable tc tt tp assetID b book asset sec ->
  let fetch := newReplayStream (MkTables (Ok tc) (Ok tt) (Ok tp)) assetID b in
  guest_run fetch (new_job true w [] configJSON, m, newMergeStream (fun _ => ""%string)) evs (s, m', ms) ->
  (exists cs ts ps merged later, history_of tc tt tp (b_WindowStart b) (b_WindowEnd b) book asset sec cs ts ps /\
    merges row_time (window_rows cs ts ps) merged /\ merged = evs ++ later /\
    forall e ms', merge_pass row_time fetch ms (Finished e) ms' -> later = [] /\ e = None) /\
  forall intent s' f, simulateFill s intent = (s', Ok f) -> exists c, last_candle evs = Some c /\ fair_fill c intent f /\ sf_Quantity f = oi_Quantity intent.
Proof.
  intros Hp fetch Hr. destruct (wr_history _ _ _ _ _ _ _ _ _ _ Hp) as (cs & ts & ps & Hsc & Hho).
  destruct (wr_sources _ _ _ _ _ _ _ _ _ _ _ Hp Hsc) as (pages & Hc & Hrows & Herrs). fold fetch in Hc.
  assert (forall l, merge_rows row_time (window_rows cs ts ps) = l <-> merge_rows row_time (source_rows pages) = l) as Hm.
  { intros l. assert (forall n r r', (forall k, r k = r' k) -> merge_all row_time n r = merge_all row_time n r') as Hx.
    { induction n as [|n IH]; intros r r' E; [done |]. simpl. unfold head_pick. simpl. rewrite !E. destruct (match r' kindPrice with [] => _ | _ => _ end) as [[k x]|]; [| done].
      f_equal. apply IH. intros k'. unfold pop. by destruct (decide _); rewrite E. }
    unfold merge_rows, total. rewrite !Hrows. by rewrite (Hx _ _ _ Hrows). }
  destruct (wr_run fetch (source_rows pages) (source_errs pages) _ _ _ Hr) as [[_ Hl] (rest & Hi & E)].
  { split; [done |]. exists (source_rows pages). split; [| done]. by apply new_merge_inv. }
  simpl in *. split.
  - exists cs, ts, ps, (merge_rows row_time (window_rows cs ts ps)), (merge_rows row_time rest).
    split; [done |]. split; [apply merges_merge_rows |]. split; [by apply Hm |]. intros e ms' He. destruct (merge_pass_verdict _ _ _ _ _ _ _ He Hi) as [_ [Hn ->]].
    split; [by apply merge_rows_done |]. unfold first_error, all_kinds. simpl. by rewrite !Herrs.
  - intros intent s' f Hf. apply wr_fair in Hf as (c & Hc' & Hfair). exists c. split; [congruence | done].
Qed.
End Window.

(** ** The REST fallback *)

Lemma wr_chunks_end {HOps : HostOps} fuel api alive span from to : 0 < span -> t_ns to - t_ns from <= span * Z.of_nat fuel ->
  is_Some (fetch_chunks fuel api alive span from to).
Proof.
  intros Hs. revert from. induction fuel as [|fuel IH]; intros from Hf; simpl; (destruct (time_before from to) eqn:E; simpl; [| by eexists]); unfold time_before in E.
  - apply Z.ltb_lt in E. lia.
  - destruct (alive fuel); simpl; [| by eexists]. destruct (fetchCandlesChunk _ _ _); [| by eexists].
    destruct (IH (time_add from span)) as [r Hr]; [unfold time_add; simpl; lia |]. rewrite Hr. destruct r; by eexists.
Qed.

(** Fetching over REST ends after at most 351 chunks, for every window and
    resolution a request may have. *)
Theorem fetch_candles_ends {HOps : HostOps} api alive b : b_Resolution b ∈ resolutions -> t_ns (b_WindowEnd b) - t_ns (b_WindowStart b) <= 365 * Day ->
  is_Some (fetchCandles 351 api alive b).
Proof.
  intros Hr Hw. unfold fetchCandles. assert (exists d, resolutionDuration (b_Resolution b) = d /\ (d =? 0) = false /\ Minute <= d <= 24 * Hour) as (d & -> & -> & Hd).
  { unfold resolutions in Hr. repeat (apply elem_of_cons in Hr as [-> |Hr]; [by eexists; split_and! |]). by apply elem_of_nil in Hr. }
  assert (dur_mul candlesPerChunk d = 1500 * d) as ->.
  { unfold dur_mul. rewrite wrap64_small; [done |]. unfold candlesPerChunk, in_int64, int64_min, int64_max, Hour, Minute, Second in *. lia. }
  destruct (wr_chunks_end 351 api alive (1500 * d) (b_WindowStart b) (b_WindowEnd b)) as [r ->].
  - unfold Minute, Second in Hd. lia.
  - unfold Day, Hour, Minute, Second in *. lia.
  - destruct r; by eexists.
Qed.

(** ** A small agent, for concrete runs *)

Module AgentDemo.
Import BitText.

#[export] Instance demo_ops : HistoryOps := demo_history.
#[export] Instance demo_laws : HistoryLaws.
Proof.
  split; [| reflexivity]. intros s u. simpl. case_bool_decide as E; [| done]. intros [= <-]. by rewrite bool_decide_eq_true_2.
Qed.

(** Every number reads as 1, and every order is to buy or sell one at the market. *)
#[export] Instance demo_host : HostOps := {
  rfc3339nano t := format_int (t_ns t);
  candle_json c := Ok (JString (k_StartTimestamp c));
  trade_json t := Ok (JString (d_TransactionID t));
  price_json p := Ok (JString (e_Price p));
  fill_json f := Ok (JString (sf_OrderID f));
  candle_batch l d c := Ok (JString c);
  trade_batch l d c := Ok (JString c);
  price_batch l d c := Ok (JString c);
  config_text c := Ok "{}"%string;
  read_intent s := Ok (MkIntent s "market" "" "1");
  read_fill s := Ok (MkSdkFill s "1" "1" true);
  read_request s := Ok (MkFetchReq s 2);
  parse_rat s := Some 1%Q;
  parse_float64 s := Some (f64_int 1);
  quote := quoted;
}.

(** Sixteen bytes. *)
Definition bytes : Type := Z -> ascii.
Definition read_at (m : bytes) (p n : Z) : string := String.string_of_list_ascii (m <$> seqZ p n).
Definition write_at (m : bytes) (p : Z) (s : string) : bytes := fun a =>
  if bool_decide (p <= a < p + text_length s) then default "000"%char (String.get (Z.to_nat (a - p)) s) else m a.
Definition fits (p n : Z) : bool := (0 <=? p) && (0 <=? n) && (p + n <=? 16).
#[export] Instance demo_memory : Memory bytes := {
  mem_size _ := 16;
  mem_byte m a := m a;
  mem_read m p n := if fits p n then Some (read_at m p n) else None;
  mem_write m p s := if fits p (text_length s) then Some (write_at m p s) else None;
}.
Lemma wr_text_length l : String.length (String.string_of_list_ascii l) = length l.
Proof. induction l; simpl; [done | by f_equal]. Qed.
#[export] Instance demo_memory_laws : MemoryLaws bytes.
Proof.
  split; simpl.
  - intros m p n s. destruct (fits p n) eqn:E; [| done]. intros [= <-]. unfold fits in E. split; [lia |]. unfold read_at.
    rewrite wr_text_length, length_fmap, length_seqZ. lia.
  - intros m p s m'. destruct (fits _ _) eqn:E; [| done]. intros [= <-]. unfold fits, text_length in E. split_and!; [lia | done |].
    intros a Ha. unfold write_at. by rewrite bool_decide_eq_false_2.
  - intros _. lia.
Qed.
Definition blank : bytes := fun _ => "000"%char.

Definition demo_asset : string := "22222222-2222-2222-2222-222222222222".
Definition one_candle : list candle_row := [demo_minute 6].
Definition demo_backtest : Backtest :=
  MkBacktest "b1" "s" "v" "ann" StatusQueued zero_time None None "" (demo_at 5) (demo_at 10) "1m" demo_book ∅ None 0 0.
Definition demo_sources : eventKind -> pageFetcher streamRow :=
  newReplayStream (MkTables (Ok one_candle) (Ok []) (Ok [])) demo_asset demo_backtest.
Lemma demo_full from to : from <= 360000000 < to -> candles_full demo_book 60 from to one_candle.
Proof. intros H. split; [| done]. intros m ->%list_elem_of_singleton _. by repeat constructor. Qed.
Lemma demo_replayable : replayable one_candle [] [] demo_asset demo_backtest demo_book demo_asset 60.
Proof.
  split; try done; try (by split; constructor).
  - split. repeat constructor. set_solver.
  - apply demo_full. vm_compute. split; congruence.
Qed.

(** It starts where the other one ends, with five candles before. *)
Definition warm_backtest : Backtest :=
  MkBacktest "b2" "s" "v" "ann" StatusQueued zero_time None None "" (demo_at 10) (demo_at 15) "1m" demo_book ∅ None 0 5.
Lemma warm_stored : stored one_candle [] [] demo_asset warm_backtest (warmupStart (demo_at 10) 5 "1m") (demo_at 10) demo_book demo_asset 60.
Proof.
  change (warmupStart (demo_at 10) 5 "1m") with (demo_at 5). split; try done; try (by split; constructor).
  - split. repeat constructor. set_solver.
  - apply demo_full. vm_compute. split; congruence.
Qed.

(** The prefetchers have parked their first pages. *)
Definition demo_warm (k : eventKind) : pageStream streamRow := (peek (Nat.iter 4 (prefetch_once (demo_sources k)) (newPageStream ""))).2.
Definition demo_first : streamRow := match peek (demo_warm kindCandle) with (PeekRow r, _) => r | _ => priceRow zero_time (MkSdkPrice "" "" "" "") end.
Lemma demo_delivers : merge_step row_time demo_sources (newMergeStream (fun _ => ""%string)) (Some (kindCandle, demo_first))
  (set_stream kindCandle (consume (demo_warm kindCandle)) demo_warm).
Proof.
  apply step_deliver. exists (fun k => match k with kindCandle => ObsRow demo_first false | _ => ObsNone true true end).
  split; [intros k | vm_compute; reflexivity].
  pose proof (prefetch_iter_sound (demo_sources k) 4 (newPageStream "")) as Hs.
  destruct k; [eapply pass_row; [exact Hs | vm_compute; reflexivity | reflexivity | vm_compute; reflexivity | reflexivity] | |];
    (eapply pass_none; [exact Hs | vm_compute; reflexivity | reflexivity | vm_compute; reflexivity | reflexivity | vm_compute; reflexivity | reflexivity]).
Qed.

Definition demo_window : historyWindow := MkHistoryWindow [] [] [].
Definition demo_after : mergeStream (T := streamRow) := set_stream kindCandle (consume (demo_warm kindCandle)) demo_warm.
Definition demo_guest : jobState * bytes :=
  guest_act (new_job true demo_window [] "{}", blank) (GCall "host_next_event" [0; 16] zero_time (Deliver kindCandle demo_first)).
Lemma demo_run : guest_run demo_sources (new_job true demo_window [] "{}", blank, newMergeStream (fun _ => ""%string)) [(kindCandle, demo_first)]
  (demo_guest.1, demo_guest.2, demo_after).
Proof.
  refine (gr_snoc demo_sources _ [] _ [(kindCandle, demo_first)] _ (gr_nil _ _) _). unfold demo_guest. rewrite <- surjective_pairing. apply gs_event, demo_delivers.
Qed.
Definition demo_intent : OrderIntent := MkIntent "buy" "market" "" "1".
End AgentDemo.

Import BitText AgentDemo.

Lemma preamble_is_history_witness : exists cs ts ps,
  history_of one_candle [] [] (warmupStart (demo_at 10) 5 "1m") (demo_at 10) demo_book demo_asset 60 cs ts ps /\
  exists fuel, fetchHistoryWindow fuel (MkTables (Ok one_candle) (Ok []) (Ok [])) demo_asset warm_backtest =
    Some (Ok (MkHistoryWindow (historyCandlesToFramework cs) (historyTradesToFramework ts) (historyPricesToFramework ps))).
Proof.
  destruct (preamble_is_history one_candle [] [] demo_asset warm_backtest demo_book demo_asset 60 warm_stored) as (cs & ts & ps & Hh & Hf).
  exists cs, ts, ps. split; [exact Hh |]. eexists. apply Hf. apply le_n.
Defined.

Lemma host_writes_in_buffer_witness : let s := new_job true demo_window [] "{}" in
  String.length (read_at (hostGetConfig s blank [0; 16]).1.2 0 3) = 3%nat /\
  read_at (hostGetConfig s blank [0; 16]).1.2 0 2 = "{}"%string /\ inside blank (hostGetConfig s blank [0; 16]).1.2 0 16.
Proof.
  intros s. split; [vm_compute; reflexivity |]. split; [vm_compute; reflexivity |].
  refine (host_writes_in_buffer "host_get_config" hostGetConfig zero_time Block [0; 16] s blank (hostGetConfig s blank [0; 16]).1.1
    (hostGetConfig s blank [0; 16]).1.2 (hostGetConfig s blank [0; 16]).2 _ _).
  - left. reflexivity.
  - reflexivity.
Defined.

Lemma preamble_handed_out_witness : exists given c, walk [1; 2; 3; 4; 5] "" [2; 0; 1] = Ok (given, c) /\
  exists later, [1; 2; 3; 4; 5] = given ++ later /\ (c = None -> later = []).
Proof.
  destruct (preamble_handed_out [1; 2; 3; 4; 5] [2; 0; 1]) as (given & c & E & Hl & _); [vm_compute; discriminate |].
  exists given, c. split; [exact E | exact Hl].
Defined.

Lemma agent_replay_is_history_witness : exists s' c f, simulateFill demo_guest.1 demo_intent = (s', Ok f) /\
  last_candle [(kindCandle, demo_first)] = Some c /\ fair_fill c demo_intent f.
Proof.
  destruct (agent_replay_is_history one_candle [] [] demo_asset demo_backtest demo_book demo_asset 60 demo_window "{}" blank
    [(kindCandle, demo_first)] demo_guest.1 demo_guest.2 demo_after demo_replayable demo_run) as [_ Hf].
  assert (is_ok (simulateFill demo_guest.1 demo_intent).2 = true) as Hok by (vm_compute; reflexivity).
  destruct (simulateFill demo_guest.1 demo_intent) as [s' [f|]] eqn:E; [| discriminate Hok].
  destruct (Hf _ _ _ E) as (c & H1 & H2 & _). exists s', c, f. split; [reflexivity | split; [exact H1 | exact H2]].
Defined.
