(* ===== verification/AgentOutcomes.v ===== *)
(** * What becomes of a submitted backtest

    Theory of [WasmStarter] for an agent that starts empty: in every
    interleaving of requests, jobs and failures of the database a user has at
    most one active backtest, a backtest has succeeded only when its strategy
    ran to its end before its context ended, with the fills the strategy
    recorded and their summary, and is cancelled only when its owner asked (one
    that was may yet stay running or succeed, in two runs); requests show and change only what
    is their user's. *)

From S2P Require Import Prelude GoTime GoFloat Json Streams Concurrency History HistoryPages AgentBacktest WasmHost WasmStarter WasmReplay.

Section Outcomes.
Context {Text : JsonText} {Ops : HistoryOps} {HOps : HostOps} {Column : FillColumn} {M : Type} {Mem : Memory M}.
Notation aprog := (prog agent (Choice (M := M))).

Definition fills_of (id : string) (s : agent) : list Fill := fr_Fill <$> List.filter (fun r => bool_decide (fr_Backtest r = id)) (ag_fills s).

(** What the row of a backtest that has succeeded says. *)
Record succeeded (s : agent) (id : string) (b : Backtest) (st : jobState) : Prop := {
  sc_clean : ag_clean s !! id = Some (st, false);
  sc_errored : js_errored st = false;
  sc_summary : b_Summary b = Some (Compute (js_fills st) (initial_equity b));
  sc_count : b_FillCount b = Z.of_nat (length (js_fills st));
  sc_fills : mapM column_fill (js_fills st) = Some (fills_of id s);
}.

Definition reply_own (u : string) (r : Reply) : Prop :=
  match r with
  | ReplyList l => Forall (fun b => b_UserID b = u) l
  | ReplyBacktest b _ => b_UserID b = u
  | _ => True
  end.

(** Nothing has come of a backtest yet. *)
Definition untouched (id : string) (s : agent) : Prop :=
  fills_of id s = [] /\ ag_clean s !! id = None /\ forall b, ag_rows s !! id = Some b -> b_Status b <> StatusSucceeded.

Record Inv (s : agent) : Prop := {
  iv_one : one_active (ag_rows s);
  iv_named : forall id b, ag_rows s !! id = Some b -> b_ID b = id;
  iv_succeeded : forall id b, ag_rows s !! id = Some b -> b_Status b = StatusSucceeded -> exists st, succeeded s id b st;
  iv_cancelled : forall id b, ag_rows s !! id = Some b -> b_Status b = StatusCancelled -> (id, b_UserID b) ∈ ag_cancels s;
  iv_fresh : forall id, id ∉ ag_started s -> untouched id s;
  iv_started : forall id, id ∈ ag_started s -> is_Some (ag_rows s !! id);
  iv_spawned : forall id j, ag_spawned s !! id = Some j -> id ∉ ag_started s /\ b_ID (jr_backtest j) = id /\
    exists b, ag_rows s !! id = Some b /\ b_Params b = b_Params (jr_backtest j);
  iv_replies : Forall (fun p => reply_own p.1 p.2) (ag_replies s);
}.

(** Tokens: [(id, false)] is held by the request that has created a backtest,
    [(id, true)] by the goroutine that runs it. *)
Notation tokens := (gset (string * bool)).
Definition drawn (s : agent) : tokens :=
  set_map (fun id => (id, false)) (dom (ag_rows s)) ∪ set_map (fun id => (id, true)) (ag_started s).

Definition same_run (id : string) (s s' : agent) : Prop :=
  fills_of id s' = fills_of id s /\ ag_clean s' !! id = ag_clean s !! id /\
  forall b', ag_rows s' !! id = Some b' -> b_Status b' = StatusSucceeded -> exists b, ag_rows s !! id = Some b /\ b_Status b = StatusSucceeded.
Definition unspawned (id : string) (s : agent) : Prop := ag_spawned s !! id = None /\ id ∉ ag_started s.
Definition rows_kept (s s' : agent) : Prop := forall id b, ag_rows s !! id = Some b ->
  exists b', ag_rows s' !! id = Some b' /\ b_UserID b' = b_UserID b /\ b_Params b' = b_Params b.

Record Rely (x : tokens) (s s' : agent) : Prop := {
  rl_rows : rows_kept s s';
  rl_started : ag_started s ⊆ ag_started s';
  rl_runs : forall id, (id, true) ∈ x -> same_run id s s';
  rl_unspawned : forall id, (id, false) ∈ x -> unspawned id s -> unspawned id s';
}.

Record Guar (t : option string) (x x' : tokens) (s s' : agent) : Prop := {
  gu_rows : rows_kept s s';
  gu_started : ag_started s ⊆ ag_started s';
  gu_held : x ⊆ x';
  gu_new : forall k, k ∈ x' -> k ∈ x \/ (k ∈ drawn s' /\ k ∉ drawn s);
  gu_runs : forall id, (id, true) ∉ x' -> same_run id s s';
  gu_spawn : forall id, (id, false) ∉ x' -> unspawned id s -> unspawned id s';
  gu_foreign : forall u id b, t = Some u -> ag_rows s !! id = Some b -> b_UserID b <> u -> ag_rows s' !! id = Some b;
}.

Notation asafe := (tsafe (Ch := Choice (M := M)) Inv Guar Rely).
Notation astable := (tstable Inv Rely).

Lemma ao_drawn s k : k ∈ drawn s <-> (exists id, k = (id, false) /\ is_Some (ag_rows s !! id)) \/ exists id, k = (id, true) /\ id ∈ ag_started s.
Proof. unfold drawn. rewrite elem_of_union, !elem_of_map. setoid_rewrite elem_of_dom. done. Qed.
Lemma ao_drawn_mono s s' : rows_kept s s' -> ag_started s ⊆ ag_started s' -> drawn s ⊆ drawn s'.
Proof.
  intros Hr Hs k. rewrite !ao_drawn. intros [(id & -> & b & Hb)|(id & -> & Hi)]; [left | right]; exists id; split; [done | | done | by apply Hs].
  destruct (Hr id b Hb) as (b' & Hb' & _). by exists b'.
Qed.

Lemma ao_same_refl id s : same_run id s s.
Proof. split_and!; eauto. Qed.
Lemma ao_kept_refl s : rows_kept s s.
Proof. intros id b Hb. by exists b. Qed.
#[local] Hint Resolve ao_same_refl ao_kept_refl : verif.

Lemma ao_guar_rely t x x' y s s' : Inv s -> Inv s' -> Guar t x x' s s' -> x ## y -> x ⊆ drawn s -> y ⊆ drawn s ->
  Rely y s s' /\ x' ## y /\ x' ⊆ drawn s' /\ drawn s ⊆ drawn s'.
Proof.
  intros _ _ [H1 H2 H3 H4 H5 H6 _] Hd Hx Hy. pose proof (ao_drawn_mono s s' H1 H2) as Hm.
  assert (forall k, k ∈ y -> k ∉ x') as Hxy.
  { intros k Hk Hk'. destruct (H4 k Hk') as [?|[_ Hn]]; [set_solver | by apply Hn, Hy]. }
  split_and!; [| set_solver | | done].
  - split; [done.. | intros id Hi; by apply H5, Hxy | intros id Hi; by apply H6, Hxy].
  - intros k Hk. destruct (H4 k Hk) as [?|[? _]]; [by apply Hm, Hx | done].
Qed.

(** ** Steps that leave backtests alone *)

Definition calm (s s' : agent) : Prop :=
  ag_rows s' = ag_rows s /\ ag_fills s' = ag_fills s /\ ag_spawned s' = ag_spawned s /\ ag_started s' = ag_started s /\ ag_clean s' = ag_clean s /\
  ag_cancels s' = ag_cancels s.

Lemma ao_calm_inv s s' : calm s s' -> Forall (fun p => reply_own p.1 p.2) (ag_replies s') -> Inv s -> Inv s'.
Proof.
  intros (E1 & E2 & E3 & E4 & E5 & E6) Hr [A B C D E F G _].
  split; rewrite ?E1, ?E3, ?E4, ?E6; try done.
  - intros id b Hb Hs. destruct (C id b Hb Hs) as (st & [X1 X2 X3 X4 X5]). exists st. split; unfold fills_of; rewrite ?E2, ?E5; done.
  - intros id Hi. unfold untouched, fills_of. rewrite E1, E2, E5. by apply E.
Qed.
Lemma ao_calm_same id s s' : calm s s' -> same_run id s s'.
Proof. intros (E1 & E2 & E3 & E4 & E5 & E6). unfold same_run, fills_of. rewrite E1, E2, E5. split_and!; eauto. Qed.
Lemma ao_calm_guar t x s s' : calm s s' -> Guar t x x s s'.
Proof.
  intros Hc. pose proof Hc as (E1 & E2 & E3 & E4 & E5 & E6). split; try done.
  - unfold rows_kept. rewrite E1. eauto.
  - by rewrite E4.
  - intros k Hk. by left.
  - intros id _. by apply ao_calm_same.
  - intros id _. unfold unspawned. by rewrite E3, E4.
  - intros u id b _ Hb _. by rewrite E1.
Qed.

Lemma ao_bind {A B} t (p : aprog A) (k : A -> aprog B) P Q Q' : asafe t p P Q -> (forall a, asafe t (k a) (Q a) Q') -> asafe t (p ≫= k) P Q'.
Proof. apply tsafe_bind. Qed.
Lemma ao_ret {A} t (a : A) P : asafe t (Ret a) P (fun _ => P).
Proof. by intros x h _ Hh. Qed.
Lemma ao_end {A} t (a : A) P : asafe t (Ret a) P (fun _ _ _ => True).
Proof. done. Qed.
Lemma ao_weaken {A} t (p : aprog A) P P' Q : (forall x s, P x s -> P' x s) -> asafe t p P' Q -> asafe t p P Q.
Proof. intros HP. apply tsafe_pre. auto. Qed.
Lemma ao_any {A} t (p : aprog A) P Q : asafe t p P Q -> asafe t p P (fun _ _ _ => True).
Proof. by apply tsafe_post. Qed.

Lemma ao_calm_rely x s s' : calm s s' -> Rely x s s'.
Proof.
  intros Hc. pose proof Hc as (E1 & E2 & E3 & E4 & E5 & E6). split; [unfold rows_kept; rewrite E1; eauto | by rewrite E4 | intros id _; by apply ao_calm_same |].
  intros id _. unfold unspawned. by rewrite E3, E4.
Qed.

Lemma ao_calm {A} t (f : Choice (M := M) -> agent -> agent * A) P : astable P -> (forall c s, calm s (f c s).1 /\ ag_replies (f c s).1 = ag_replies s) ->
  asafe t (atomic f) P (fun _ => P).
Proof.
  intros SP Hf. apply tsafe_atomic; [| auto]. intros c x s Is Ps. destruct (Hf c s) as [Hc Hr]. exists x.
  assert (Inv (f c s).1) as I' by (apply (ao_calm_inv s); [done | rewrite Hr; apply Is | done]). split_and!; [done | by apply ao_calm_guar |].
  apply (SP x s); [done.. | by apply ao_calm_rely | done].
Qed.
Lemma ao_look {A} t (f : Choice (M := M) -> agent -> A) P : astable P -> asafe t (atomic (fun c s => (s, f c s))) P (fun _ => P).
Proof. intros SP. by apply ao_calm. Qed.
Lemma ao_choose {A} t (f : Choice (M := M) -> A) P : astable P -> asafe t (choose f) P (fun _ => P).
Proof. apply ao_look. Qed.
Lemma ao_await {A} t (f : Choice (M := M) -> agent -> option A) P : astable P -> asafe t (await f) P (fun _ => P).
Proof. intros SP. apply tsafe_await; [intros x s _; by apply ao_calm_guar | auto | auto]. Qed.
Lemma ao_read {A} t (f : Choice (M := M) -> agent -> A) P (phi : A -> agent -> Prop) : astable P -> (forall a, astable (fun _ => phi a)) ->
  (forall c s x, Inv s -> P x s -> phi (f c s) s) -> asafe t (atomic (fun c s => (s, f c s))) P (fun a x s => P x s /\ phi a s).
Proof.
  intros SP Sphi Hf. apply tsafe_atomic.
  - intros c x s Is Ps. exists x. simpl. split_and!; [done | by apply ao_calm_guar | done | by eapply Hf].
  - intros a x s s' Is Is' HR [H1 H2]. split; [by apply (SP x s) | by apply (Sphi a x s)].
Qed.

Lemma ao_true : astable (fun _ _ => True).
Proof. done. Qed.
#[local] Hint Resolve ao_true : verif.

Lemma ao_end_job id s : calm s (end_job id s).1 /\ ag_replies (end_job id s).1 = ag_replies s.
Proof. unfold end_job. by destruct (ag_jobs s !! id). Qed.

Lemma ao_reply t u r P : astable P -> (forall x s, P x s -> reply_own u r) -> asafe t (reply u r) P (fun _ => P).
Proof.
  intros SP Hr. apply tsafe_atomic; [| auto]. intros c x s Is Ps. exists x. simpl. set (s' := set_replies _ s). assert (calm s s') as Hc by done.
  assert (Inv s') as I'.
  { apply (ao_calm_inv s); [done | | done]. unfold s'. simpl. apply Forall_app. split; [apply Is |]. repeat constructor. simpl. by eapply Hr. }
  split_and!; [done | by apply ao_calm_guar | apply (SP x s); [done.. | by apply ao_calm_rely | done]].
Qed.

(** ** Steps on a row *)

Lemma ao_succeeded s s' id b st : ag_clean s' !! id = ag_clean s !! id -> fills_of id s' = fills_of id s -> succeeded s id b st -> succeeded s' id b st.
Proof. intros E1 E2 [A B C D E]. split; congruence. Qed.

Lemma ao_row t x s id b b' cs : Inv s -> ag_rows s !! id = Some b ->
  b_UserID b' = b_UserID b -> b_Params b' = b_Params b -> b_ID b' = b_ID b -> one_active (<[id := b']> (ag_rows s)) -> ag_cancels s ⊆ cs ->
  (b_Status b' = StatusSucceeded -> (id, true) ∈ x /\ id ∈ ag_started s /\ exists st, succeeded s id b' st) ->
  (b_Status b' = StatusCancelled -> (id, b_UserID b) ∈ cs) -> (forall u, t = Some u -> b_UserID b = u) ->
  let s' := set_cancels cs (set_rows (<[id := b']> (ag_rows s)) s) in Inv s' /\ Guar t x x s s'.
Proof.
  intros Is Hb Hu Hp Hi Ho Hcs Hsc Hcc Ht s'. split.
  - pose proof Is as [A B C D E F G K]. split; unfold s'; simpl; try done.
    + intros i y. rewrite lookup_insert_Some. intros [[<- <-]|[_ Hy]]; [rewrite Hi |]; auto.
    + intros i y. rewrite lookup_insert_Some. intros [[<- <-]|[_ Hy]] Hs.
      * destruct (Hsc Hs) as (_ & _ & st & Hst). exists st. by apply (ao_succeeded s).
      * destruct (C i y Hy Hs) as (st & Hst). exists st. by apply (ao_succeeded s).
    + intros i y. rewrite lookup_insert_Some. intros [[<- <-]|[_ Hy]] Hs; [rewrite Hu; auto | auto].
    + intros i Hn. destruct (E i Hn) as (E1 & E2 & E3). split_and!; [done | done |]. simpl. intros y. rewrite lookup_insert_Some.
      intros [[<- <-]|[_ Hy]]; [| auto]. intros Hs. destruct (Hsc Hs) as (_ & Hst & _). done.
    + intros i Hst. destruct (F i Hst) as [y Hy]. destruct (decide (i = id)) as [->|]; [rewrite lookup_insert_eq | rewrite lookup_insert_ne by done]; eauto.
    + intros i j Hj. destruct (G i j Hj) as (G1 & G2 & y & Hy & G3). split_and!; [done | done |]. destruct (decide (i = id)) as [->|].
      * exists b'. rewrite lookup_insert_eq. split; [done |]. congruence.
      * exists y. by rewrite lookup_insert_ne.
  - split; unfold s'; simpl; try done.
    + intros i y Hy. simpl. destruct (decide (i = id)) as [->|]; [exists b'; rewrite lookup_insert_eq | exists y; rewrite lookup_insert_ne by done; done].
      split; [done |]. split; congruence.
    + by left.
    + intros i Hx. split_and!; [done | done |]. simpl. intros y. rewrite lookup_insert_Some. intros [[<- <-]|[_ Hy]] Hs; [| by exists y].
      destruct (Hsc Hs) as (Hx' & _). done.
    + intros u i y Hu' Hy Hne. rewrite lookup_insert_ne; [done |]. intros <-. rewrite Hy in Hb. injection Hb as ->. by apply Hne, Ht.
Qed.

(** *** The goroutine *)

(** It runs backtest [id] with parameters [ps]; [fs] are its fills so far and
    [cl] the strategy's state, once that has ended well. *)
Definition at_run (id : string) (ps : gmap string string) (fs : list Fill) (cl : option (jobState * bool)) (x : tokens) (s : agent) : Prop :=
  (id, true) ∈ x /\ id ∈ ag_started s /\ fills_of id s = fs /\ ag_clean s !! id = cl /\
  exists b, ag_rows s !! id = Some b /\ b_Params b = ps /\ b_Status b <> StatusSucceeded.

Lemma ao_run_stable id ps fs cl : astable (at_run id ps fs cl).
Proof.
  intros x s s' _ _ HR (Hx & Hs & Hf & Hc & b & Hb & Hp & Hn). destruct (rl_runs _ _ _ HR id Hx) as (E1 & E2 & E3).
  destruct (rl_rows _ _ _ HR id b Hb) as (b' & Hb' & _ & Hp'). split_and!; [done | by apply (rl_started _ _ _ HR) | congruence | congruence |].
  exists b'. split_and!; [done | congruence |]. intros Hs'. destruct (E3 b' Hb' Hs') as (y & Hy & Hs2). congruence.
Qed.
#[local] Hint Resolve ao_run_stable : verif.

Lemma ao_update_row alive f id rows : (update_row alive f id rows).2 = rows \/
  exists b, rows !! id = Some b /\ update_row alive f id rows = (true, <[id := f b]> rows).
Proof.
  unfold update_row. destruct alive; [| by left]. simpl. destruct (rows !! id) as [b|]; [| by left]. destruct (_ && _); [by left | right]. by exists b.
Qed.

Lemma ao_status ctx id st a z msg ps fs cl : st = StatusRunning \/ st = StatusFailed ->
  asafe None (update_status ctx id st a z msg) (at_run id ps fs cl) (fun _ => at_run id ps fs cl).
Proof.
  intros Hst. apply tsafe_atomic; [| auto with verif]. intros c x s Is Ps. exists x. unfold UpdateStatus. set (f := fun b => set_state _ _ _ _ b).
  destruct (ao_update_row (answers ctx c s) f id (ag_rows s)) as [E|(b & Hb & E)].
  - destruct (update_row _ f id _) as [ok rows]. simpl in *. rewrite E. assert (calm s (set_rows (ag_rows s) s)) as Hc by done.
    split_and!; [apply (ao_calm_inv s); [done | apply Is | done] | by apply ao_calm_guar | done].
  - pose proof (ab_one_update (answers ctx c s) f id (ag_rows s) (iv_one _ Is) ltac:(done)) as Ho. rewrite E in *. simpl in *.
    destruct (ao_row None x s id b (f b) (ag_cancels s)) as [I' G']; try done; try (unfold f; simpl; by destruct Hst as [-> | ->]).
    split_and!; [exact I' | exact G' |]. destruct Ps as (Hx & Hs & Hf & Hc & y & Hy & Hp & Hn). split_and!; [done.. |]. simpl.
    exists (f b). rewrite lookup_insert_eq. split; [done |]. unfold f. simpl. split; [congruence | by destruct Hst as [-> | ->]].
Qed.

Lemma ao_fail n id msg ps fs cl : asafe None (fail n id msg) (at_run id ps fs cl) (fun _ => at_run id ps fs cl).
Proof.
  eapply ao_bind; [apply ao_choose; auto with verif |]. intros now. eapply ao_bind; [apply ao_status; by right |]. intros ?. apply ao_ret.
Qed.
Lemma ao_fail_with n id msg e ps fs cl : asafe None (fail_with n id msg e) (at_run id ps fs cl) (fun _ => at_run id ps fs cl).
Proof. eapply ao_bind; [apply ao_fail |]. intros ?. apply ao_ret. Qed.

Lemma ao_filter_app {A} (p : A -> bool) l k : List.filter p (l ++ k) = List.filter p l ++ List.filter p k.
Proof. apply List.filter_app. Qed.

(** The rows of [COPY] are the fills, of this backtest. *)
Lemma ao_copied ids id fs i : fr_Fill <$> List.filter (fun r => bool_decide (fr_Backtest r = i)) (zip_with (fun n f => MkFillRow (ids n) id f) (seq 0 (length fs)) fs) =
  if bool_decide (id = i) then fs else [].
Proof.
  generalize 0%nat as k. induction fs as [|f fs IH]; intros k; csimpl; [by case_bool_decide |]. specialize (IH (S k)).
  case_bool_decide; csimpl; rewrite IH; done.
Qed.

Lemma ao_insert ctx id ps cl fills : asafe None
  (atomic (fun c s => let '(ok, t) := InsertFills (answers ctx c s) (ch_uuids c) id fills (ag_fills s) in (set_fills t s, ok)))
  (at_run id ps [] cl)
  (fun (ok : bool) x s => if ok then exists fs, mapM column_fill fills = Some fs /\ at_run id ps fs cl x s else at_run id ps [] cl x s).
Proof.
  apply tsafe_atomic.
  2: { intros [] x s s' Is Is' HR; [intros (fs & Hm & Hr); exists fs; split; [done |] | intros Hr]; exact (ao_run_stable _ _ _ _ x s s' Is Is' HR Hr). }
  intros c x s Is Ps. exists x. assert (calm s (set_fills (ag_fills s) s)) as Hc by done.
  assert (Inv (set_fills (ag_fills s) s) /\ Guar None x x s (set_fills (ag_fills s) s)) as [I0 G0].
  { split; [apply (ao_calm_inv s); [done | apply Is | done] | by apply ao_calm_guar]. }
  unfold InsertFills. destruct fills as [|f0 l]; [split_and!; [exact I0 | exact G0 |]; by exists [] |].
  destruct (answers ctx c s); simpl; [| by split_and!].
  destruct (column_fill f0 ≫= _) as [fs|] eqn:Em; [| by split_and!]. set (s' := set_fills _ s). destruct Ps as (Hx & Hst & Hf & Hcl & b & Hb & Hp & Hn).
  assert (forall i, fills_of i s' = if bool_decide (id = i) then fs else fills_of i s) as Hfs.
  { intros i. unfold fills_of, s'. simpl. rewrite ao_filter_app, fmap_app, ao_copied. case_bool_decide as Hi; [subst i; unfold fills_of in Hf; by rewrite Hf | apply app_nil_r]. }
  assert (forall i, i <> id -> fills_of i s' = fills_of i s) as Hother by (intros i Hi; rewrite Hfs, bool_decide_eq_false_2; done).
  split_and!.
  - pose proof Is as [A B C D E F G K]. split; try done.
    + intros i y Hy Hs. change (ag_rows s !! i = Some y) in Hy. destruct (C i y Hy Hs) as (st & Hsc). exists st.
      destruct (decide (i = id)) as [->|]; [congruence |]. apply (ao_succeeded s); auto.
    + intros i Hi. destruct (E i Hi) as (E1 & E2 & E3). split_and!; [| done | done]. rewrite Hother; [done | intros ->; by apply Hi].
  - split; try done.
    + intros i y Hy. by exists y.
    + by left.
    + intros i Hi. split_and!; [| done | eauto]. apply Hother. by intros ->.
  - exists fs. split; [done |]. split_and!; [done | done | by rewrite Hfs, bool_decide_eq_true_2 | done |]. by exists b.
Qed.

Lemma ao_summary n id ps fs st b : b_Params b = ps -> mapM column_fill (js_fills st) = Some fs -> js_errored st = false ->
  asafe None (on_rows (fun c s => SetSummary (answers n c s) (ch_now c) id (Compute (js_fills st) (initial_equity b)) (Z.of_nat (length (js_fills st))) (ag_rows s)))
    (at_run id ps fs (Some (st, false))) (fun (ok : bool) x s => ok = false -> at_run id ps fs (Some (st, false)) x s).
Proof.
  intros Hb Hm He. apply tsafe_atomic; [| intros ok x s s' Is Is' HR Hk E; exact (ao_run_stable _ _ _ _ x s s' Is Is' HR (Hk E))].
  intros c x s Is Ps. exists x. assert (calm s (set_rows (ag_rows s) s)) as Hc by done.
  assert (Inv (set_rows (ag_rows s) s) /\ Guar None x x s (set_rows (ag_rows s) s)) as [I0 G0].
  { split; [apply (ao_calm_inv s); [done | apply Is | done] | by apply ao_calm_guar]. }
  unfold SetSummary. destruct (writable _); simpl; [| by split_and!]. set (f := fun b => set_state _ _ _ _ _).
  destruct (ao_update_row (answers n c s) f id (ag_rows s)) as [E|(y & Hy & E)].
  - destruct (update_row _ f id _) as [ok rows]. simpl in *. rewrite E. by split_and!.
  - pose proof (ab_one_update (answers n c s) f id (ag_rows s) (iv_one _ Is) ltac:(done)) as Ho. rewrite E in *. simpl in *.
    destruct Ps as (Hx & Hst & Hf & Hcl & z & Hz & Hp & Hn). rewrite Hy in Hz. injection Hz as <-.
    destruct (ao_row None x s id y (f y) (ag_cancels s)) as [I' G']; try done.
    intros _. split_and!; [done | done |]. exists st. split; try done; unfold f; simpl; [| by rewrite Hf].
    unfold initial_equity. simpl. by rewrite Hb, Hp.
Qed.

Lemma ao_persist n b st ps : b_Params b = ps -> js_errored st = false ->
  asafe None (persistSuccess n b (js_fills st)) (at_run (b_ID b) ps [] (Some (st, false))) (fun _ _ _ => True).
Proof.
  intros Hb He. unfold persistSuccess. eapply ao_bind; [apply ao_insert |]. intros [|]; cbn [negb]; [| eapply ao_any, ao_fail_with].
  apply tsafe_ex. intros fs. eapply ao_weaken with (P' := fun x s => at_run (b_ID b) ps fs (Some (st, false)) x s /\ mapM column_fill (js_fills st) = Some fs); [by intros x s [? ?] |].
  apply tsafe_pure. intros Hm. eapply ao_bind; [by apply (ao_summary _ _ ps fs) |]. intros [|]; cbn [negb]; [apply ao_end |].
  eapply ao_weaken; [| eapply ao_any, (ao_fail_with _ _ _ _ ps fs (Some (st, false)))]. auto.
Qed.

Lemma ao_clean n id ps st : js_errored st = false -> asafe None
  (atomic (fun _ (s : agent) => (set_clean (<[id := (st, bool_decide (n ∈ ag_ended s))]> (ag_clean s)) s, bool_decide (n ∈ ag_ended s))))
  (at_run id ps [] None) (fun (canceled : bool) => at_run id ps [] (Some (st, canceled))).
Proof.
  intros He. apply tsafe_atomic; [| auto with verif]. intros c x s Is Ps. exists x. cbn [fst snd].
  set (s' := set_clean _ s). destruct Ps as (Hx & Hst & Hf & Hcl & b & Hb & Hp & Hn). split_and!.
  - pose proof Is as [A B C D E F G K]. split; try done.
    + intros i y Hy Hs. change (ag_rows s !! i = Some y) in Hy. destruct (C i y Hy Hs) as (st' & Hsc). exists st'. apply (ao_succeeded s); [| done | done]. unfold s'. simpl.
      apply lookup_insert_ne. congruence.
    + intros i Hi. destruct (E i Hi) as (E1 & E2 & E3). split_and!; [done | | done]. unfold s'. simpl. rewrite lookup_insert_ne; [done | intros ->; by apply Hi].
  - split; try done.
    + intros i y Hy. by exists y.
    + by left.
    + intros i Hi. split_and!; [done | | eauto]. unfold s'. simpl. apply lookup_insert_ne. by intros <-.
  - split_and!; [done | done | done | apply lookup_insert_eq |]. by exists b.
Qed.

(** A status other than success can be written by whoever runs. *)
Lemma ao_status_any ctx id st a z msg : st = StatusRunning \/ st = StatusFailed ->
  asafe None (update_status ctx id st a z msg) (fun _ _ => True) (fun _ _ _ => True).
Proof.
  intros Hst. apply tsafe_atomic; [| auto with verif]. intros c x s Is _. exists x. unfold UpdateStatus. set (f := fun b => set_state _ _ _ _ b).
  destruct (ao_update_row (answers ctx c s) f id (ag_rows s)) as [E|(b & Hb & E)].
  - destruct (update_row _ f id _) as [ok rows]. simpl in *. rewrite E. assert (calm s (set_rows (ag_rows s) s)) as Hc by done.
    split_and!; [apply (ao_calm_inv s); [done | apply Is | done] | by apply ao_calm_guar | done].
  - pose proof (ab_one_update (answers ctx c s) f id (ag_rows s) (iv_one _ Is) ltac:(done)) as Ho. rewrite E in *. simpl in *.
    destruct (ao_row None x s id b (f b) (ag_cancels s)) as [I' G']; try done; try (unfold f; simpl; by destruct Hst as [-> | ->]).
Qed.

Lemma ao_start h n b : asafe None (Start h n b) (at_run (b_ID b) (b_Params b) [] None) (fun _ _ _ => True).
Proof.
  set (P := at_run (b_ID b) (b_Params b) [] None).
  assert (forall msg e, asafe None (r ← fail_with n (b_ID b) msg e; mret (inl r : result unit + string)) P (fun _ _ _ => True)) as Hquit.
  { intros msg e. eapply ao_bind; [apply ao_fail_with |]. intros r. apply ao_end. }
  unfold Start. eapply ao_bind; [apply ao_choose; unfold P; auto with verif |]. intros now.
  eapply ao_bind; [apply ao_status; by left |]. intros [|]; cbn [negb]; [| apply ao_end].
  eapply ao_bind; [apply ao_await; auto with verif |]. intros [job|e]; [| apply Hquit].
  destruct (buildConfigJSON b) as [cfg|e]; [| apply Hquit].
  eapply ao_bind; [apply ao_choose; auto with verif |]. intros [_|e]; [| apply Hquit].
  eapply ao_bind; [apply ao_choose; auto with verif |]. intros [m acts|e|msg]; [| apply Hquit | apply ao_end].
  cbn zeta. destruct (js_errored _) eqn:He; [apply Hquit |].
  eapply ao_bind; [by apply ao_clean |]. intros [|]; [apply ao_end |].
  eapply ao_bind; [by apply ao_persist |]. intros r. apply ao_end.
Qed.

Lemma ao_run_job h j : asafe None (run_job h j) (at_run (b_ID (jr_backtest j)) (b_Params (jr_backtest j)) [] None) (fun _ _ _ => True).
Proof.
  unfold run_job. eapply ao_bind; [apply ao_start |]. intros r.
  eapply ao_bind with (Q := fun _ _ _ => True); [destruct r; [apply ao_end | apply ao_status_any; by right] |]. intros _.
  apply ao_calm; [auto with verif |]. intros c s. apply (ao_end_job _ s).
Qed.

(** The goroutine becomes the only one that runs its backtest. *)
Lemma ao_take id : asafe None (take_job id) (fun _ _ => True) (fun j => at_run (b_ID (jr_backtest j)) (b_Params (jr_backtest j)) [] None).
Proof.
  intros c x s Is _. destruct (ag_spawned s !! id) as [j|] eqn:Ej; [| done]. set (s' := set_spawned _ _ s).
  pose proof Is as [A B C D E F G K]. destruct (G id j Ej) as (Hn & Hid & b & Hb & Hp). destruct (E id Hn) as (E1 & E2 & E3).
  assert (drawn s ⊆ drawn s') as Hm by (apply ao_drawn_mono; [intros i y Hy; by exists y | unfold s'; simpl; set_solver]).
  exists (x ∪ {[(id, true)]}). split_and!.
  - split; try done.
    + intros i y Hy Hs. destruct (C i y Hy Hs) as (st & Hst). exists st. by apply (ao_succeeded s).
    + intros i Hi. apply E. unfold s' in Hi. simpl in Hi. set_solver.
    + intros i Hi. unfold s' in Hi. simpl in Hi. apply elem_of_union in Hi as [ ->%elem_of_singleton|Hi]; [by exists b | by apply F].
    + intros i k Hk. unfold s' in *. simpl in *. apply lookup_delete_Some in Hk as [Hne Hk]. destruct (G i k Hk) as (G1 & G2 & G3). split; [set_solver | done].
  - split; try done.
    + intros i y Hy. by exists y.
    + unfold s'. simpl. set_solver.
    + set_solver.
    + intros k Hk. apply elem_of_union in Hk as [?| ->%elem_of_singleton]; [by left | right]. rewrite !ao_drawn. split.
      * right. exists id. unfold s'. simpl. set_solver.
      * intros [(i & Hk & _)|(i & Hk & Hi)]; [done |]. injection Hk as <-. done.
    + intros i _. split_and!; [done | done | eauto].
    + intros i _ [U1 U2]. split; unfold s'; simpl; [by rewrite lookup_delete_None; right |]. intros [ ->%elem_of_singleton|Hi]%elem_of_union; [congruence | done].
  - exists (at_run (b_ID (jr_backtest j)) (b_Params (jr_backtest j)) [] None). split_and!; [auto with verif | | by intros y h _ Hh].
    rewrite Hid. split_and!; [set_solver | unfold s'; simpl; set_solver | done | done |]. exists b. auto.
Qed.

(** ** Requests *)

Definition own (u id : string) (s : agent) : Prop := exists b, ag_rows s !! id = Some b /\ b_UserID b = u.
Lemma ao_own_stable u id : astable (fun _ => own u id).
Proof. intros x s s' _ _ HR (b & Hb & Hu). destruct (rl_rows _ _ _ HR id b Hb) as (b' & Hb' & Hu' & _). exists b'. split; [done | congruence]. Qed.

(** What a request holds between creating a backtest and starting its job. *)
Definition created (b : Backtest) (x : tokens) (s : agent) : Prop :=
  (b_ID b, false) ∈ x /\ unspawned (b_ID b) s /\ exists row, ag_rows s !! b_ID b = Some row /\ b_Params row = b_Params b.
Lemma ao_created_stable b : astable (created b).
Proof.
  intros x s s' _ _ HR (Hx & Hs & r & Hr & Hp). destruct (rl_rows _ _ _ HR _ _ Hr) as (r' & Hr' & _ & Hp').
  split_and!; [done | by apply (rl_unspawned _ _ _ HR) |]. exists r'. split; [done | congruence].
Qed.
#[local] Hint Resolve ao_own_stable ao_created_stable : verif.

Lemma ao_create t (mk : Choice (M := M) -> Backtest) : asafe t
  (on_rows (fun c s => let '(r, rows) := Create (answers None c s) (ch_now c) (mk c) (ag_rows s) in ((r, mk c), rows)))
  (fun _ _ => True) (fun (r : (unit + DbError) * Backtest) x s => match r.1 with inl _ => created r.2 x s | inr _ => True end).
Proof.
  apply tsafe_atomic; [| intros [[[]|] b]; simpl; auto with verif]. intros c x s Is _. set (b := mk c). unfold Create.
  assert (calm s (set_rows (ag_rows s) s)) as Hc by done.
  assert (Inv (set_rows (ag_rows s) s) /\ Guar t x x s (set_rows (ag_rows s) s)) as [I0 G0].
  { split; [apply (ao_calm_inv s); [done | apply Is | done] | by apply ao_calm_guar]. }
  destruct (answers None c s); simpl; [| by exists x]. destruct (bool_decide (is_Some (ag_rows s !! b_ID b)) || taken _ _ _) eqn:Ec; simpl; [by exists x |].
  apply orb_false_iff in Ec as [Ec Et]. apply bool_decide_eq_false in Ec. set (s' := set_rows _ s). exists (x ∪ {[(b_ID b, false)]}).
  assert (ag_rows s !! b_ID b = None) as Hfree by (apply eq_None_not_Some; done).
  pose proof Is as [A B C D E F G K].
  assert (b_ID b ∉ ag_started s) as Hns by (intros Hi; by apply Ec, F).
  assert (ag_spawned s !! b_ID b = None) as Hsp.
  { destruct (ag_spawned s !! b_ID b) as [j|] eqn:Ej; [| done]. destruct (G _ _ Ej) as (_ & _ & y & Hy & _). congruence. }
  assert (forall i y, ag_rows s !! i = Some y -> ag_rows s' !! i = Some y) as Hkeep.
  { intros i y Hy. unfold s'. simpl. rewrite lookup_insert_ne; [done |]. intros <-. congruence. }
  split_and!.
  - split; try done.
    + unfold s'. simpl. apply ab_one_insert; [done |]. intros _. exact Et.
    + intros i y. unfold s'. simpl. rewrite lookup_insert_Some. intros [[<- <-]|[_ Hy]]; [done | auto].
    + intros i y. unfold s'. simpl. rewrite lookup_insert_Some. intros [[<- <-]|[_ Hy]] Hs; [done |]. destruct (C i y Hy Hs) as (st & Hst). exists st. by apply (ao_succeeded s).
    + intros i y. unfold s'. simpl. rewrite lookup_insert_Some. intros [[<- <-]|[_ Hy]] Hs; [done | auto].
    + intros i Hi. destruct (E i Hi) as (E1 & E2 & E3). split_and!; [done | done |]. intros y. unfold s'. simpl. rewrite lookup_insert_Some. intros [[<- <-]|[_ Hy]]; [done | auto].
    + intros i Hi. destruct (F i Hi) as [y Hy]. exists y. auto.
    + intros i j Hj. destruct (G i j Hj) as (G1 & G2 & y & Hy & G3). split_and!; [done | done |]. exists y. auto.
  - split; try done.
    + intros i y Hy. exists y. auto.
    + set_solver.
    + intros k Hk. apply elem_of_union in Hk as [?| ->%elem_of_singleton]; [by left | right]. rewrite !ao_drawn. split.
      * left. exists (b_ID b). split; [done |]. unfold s'. simpl. rewrite lookup_insert_eq. by eexists.
      * intros [(i & Hk & Hi)|(i & Hk & _)]; [| done]. injection Hk as <-. done.
    + intros i _. split_and!; [done | done |]. intros y. simpl. rewrite lookup_insert_Some. intros [[<- <-]|[_ Hy]] Hs; [done | by exists y].
    + intros u i y _ Hy _. by apply Hkeep.
  - split_and!; [set_solver | done |]. unfold s'. simpl. exists (inserted (ch_now c) b). by rewrite lookup_insert_eq.
Qed.

Lemma ao_spawn t b n : asafe t (update (fun s => set_spawned (<[b_ID b := MkJobRun b n]> (ag_spawned s)) (ag_started s) s)) (created b) (fun _ _ _ => True).
Proof.
  apply tsafe_atomic; [| auto with verif]. intros c x s Is (Hx & [U1 U2] & r & Hr & Hp). exists x. simpl. set (s' := set_spawned _ _ s).
  pose proof Is as [A B C D E F G K]. split_and!; [| | done].
  - split; try done.
    + intros i y Hy Hs. destruct (C i y Hy Hs) as (st & Hst). exists st. by apply (ao_succeeded s).
    + intros i j. unfold s'. simpl. rewrite lookup_insert_Some. intros [[<- <-]|[_ Hj]]; [| by apply G]. split_and!; [done | done |]. by exists r.
  - split; try done.
    + intros i y Hy. by exists y.
    + by left.
    + intros i _. split_and!; [done | done | eauto].
    + intros i Hi [V1 V2]. split; [| done]. unfold s'. simpl. rewrite lookup_insert_ne; [done |]. by intros <-.
Qed.

Notation T := (fun _ _ => True).

Lemma ao_submit t u sid vid wasm req hw : asafe t (Submit hw u sid vid wasm req) T (fun _ => T).
Proof.
  unfold Submit. destruct (ParseRequest req); [| done]. case_bool_decide; [done |]. destruct hw; cbn [negb]; [| done].
  eapply ao_bind; [apply ao_create |]. intros [[[]|[]] b]; cbn [fst snd]; [| done..].
  eapply ao_bind; [apply ao_calm; [auto with verif | by intros] |]. intros n. eapply ao_bind; [apply ao_spawn |]. intros ?. done.
Qed.

Lemma ao_cancel_row u id : asafe (Some u) (cancel_row u id) (fun _ => own u id) (fun _ => T).
Proof.
  apply tsafe_atomic; [| auto with verif]. intros c x s Is (y & Hy & Hu). exists x. unfold CancelIfRunning.
  assert (Inv (set_cancels (ag_cancels s) (set_rows (ag_rows s) s)) /\ Guar (Some u) x x s (set_cancels (ag_cancels s) (set_rows (ag_rows s) s))) as [I0 G0].
  { split; [by apply (ao_calm_inv s); [| apply Is |] | by apply ao_calm_guar]. }
  destruct (answers None c s) eqn:Ea; simpl; [| done]. rewrite Hy. destruct (active (b_Status y)) eqn:Ev; simpl; [| done].
  pose proof (ab_one_cancel true (ch_now c) id (ag_rows s) (iv_one _ Is)) as Ho. unfold CancelIfRunning in Ho. rewrite Hy, Ev in Ho. simpl in Ho.
  destruct (ao_row (Some u) x s id y (set_state StatusCancelled (b_StartedAt y) (Some (ch_now c)) "" y) ((id, u) :: ag_cancels s)) as [I' G']; try done.
  - set_solver.
  - intros _. rewrite Hu. set_solver.
  - by intros ? [= ->].
Qed.

Lemma ao_cancel t id P : astable P -> asafe t (Cancel id) P (fun _ => P).
Proof. intros SP. apply ao_calm; [done |]. intros c s. apply ao_end_job. Qed.

Lemma ao_reply_T t u r : (match r with ReplyList _ | ReplyBacktest _ _ => False | _ => True end) -> asafe t (reply u r) T (fun _ => T).
Proof. intros Hr. apply ao_reply; [auto with verif |]. intros x s _. by destruct r. Qed.

Lemma ao_with_strategy t u k : asafe t k T (fun _ => T) -> asafe t (with_strategy u k) T (fun _ => T).
Proof.
  intros Hk. unfold with_strategy. eapply ao_bind; [apply ao_choose; auto with verif |]. intros [[]| |]; [done | by apply ao_reply_T..].
Qed.

Lemma ao_with_backtest t u id fl k : (forall e, asafe t (fl e) T (fun _ => T)) ->
  (forall b, b_UserID b = u -> asafe t (k b) (fun _ => own u id) (fun _ => T)) -> asafe t (with_backtest u id fl k) T (fun _ => T).
Proof.
  intros Hfl Hk. unfold with_backtest.
  eapply ao_bind; [apply (ao_read t (fun c s => Get (answers None c s) id (ag_rows s)) T
    (fun r s => match r with Ok b => b_UserID b = u -> own u id s | Err _ => True end)) |].
  - auto with verif.
  - intros [b|e]; [| auto with verif]. intros x s s' Is Is' HR H E. by apply (ao_own_stable u id x s s' Is Is' HR), H.
  - intros c s x Is _. unfold Get. destruct (answers None c s); [| done]. simpl. destruct (ag_rows s !! id) as [b|] eqn:Hb; [| done]. intros E. by exists b.
  - intros [b|e]; [destruct (bool_decide_reflect (b_UserID b = u)) as [E|E] |].
    + refine (ao_weaken _ _ _ (fun _ => own u id) _ _ _); [intros x s [_ H]; auto | by apply Hk].
    + by refine (ao_weaken _ _ _ T _ _ (Hfl _)).
    + by refine (ao_weaken _ _ _ T _ _ (Hfl _)).
Qed.
Lemma ao_get_failed t u e : asafe t (get_failed u e) T (fun _ => T).
Proof. unfold get_failed. destruct (bool_decide _); by apply ao_reply_T. Qed.
Lemma ao_tool_failed t u e : asafe t (tool_failed u e) T (fun _ => T).
Proof. by apply ao_reply_T. Qed.
#[local] Hint Resolve ao_get_failed ao_tool_failed : verif.

Lemma ao_post_backtest t g u sid body : asafe t (handleBacktest g u sid body) T (fun _ => T).
Proof.
  unfold handleBacktest. destruct (negb _); [by apply ao_reply_T |]. apply ao_with_strategy.
  eapply ao_bind; [apply ao_choose; auto with verif |]. intros [v| |]; [| by apply ao_reply_T..].
  destruct body as [req|]; [| by apply ao_reply_T]. case_bool_decide; [| by apply ao_reply_T].
  eapply ao_bind; [apply ao_submit |]. intros [[]|id]; by apply ao_reply_T.
Qed.

Lemma ao_list t g u sid limit : asafe t (handleListBacktests g u sid limit) T (fun _ => T).
Proof.
  unfold handleListBacktests. destruct (negb _); [by apply ao_reply_T |]. apply ao_with_strategy.
  eapply ao_bind; [apply ao_look; auto with verif |]. intros [rows|e]; [| by apply ao_reply_T].
  apply ao_reply; [auto with verif |]. intros x s _. simpl. apply Forall_forall. intros b Hb. apply list_elem_of_In, List.filter_In in Hb as [_ Hb].
  by apply bool_decide_eq_true in Hb.
Qed.

Lemma ao_get t g u id : asafe t (handleGetBacktest g u id) T (fun _ => T).
Proof.
  unfold handleGetBacktest. destruct (negb _); [by apply ao_reply_T |]. apply ao_with_backtest; [auto with verif |]. intros b Hb.
  refine (ao_weaken _ _ _ T _ _ _); [done |]. eapply ao_bind; [apply ao_look; auto with verif |]. intros [fills|e]; [| by apply ao_reply_T].
  by apply ao_reply; [auto with verif |].
Qed.

Lemma ao_post_cancel u id g : asafe (Some u) (handleCancelBacktest g u id) T (fun _ => T).
Proof.
  unfold handleCancelBacktest. destruct (negb _); [by apply ao_reply_T |]. apply ao_with_backtest; [auto with verif |]. intros b _.
  eapply ao_bind; [apply ao_cancel_row |]. intros [ok|e]; [| by apply ao_reply_T].
  eapply ao_bind; [apply ao_cancel; auto with verif |]. intros ?. by apply ao_reply_T.
Qed.

Lemma ao_tool_cancel u id : asafe (Some u) (CancelHandler u id) T (fun _ => T).
Proof.
  unfold CancelHandler. case_bool_decide; [by apply ao_reply_T |]. apply ao_with_backtest; [auto with verif |]. intros b _.
  eapply ao_bind; [apply ao_cancel_row |]. intros [ok|e]; [| apply ao_tool_failed].
  eapply ao_bind; [apply ao_cancel; auto with verif |]. intros ?. by apply ao_reply_T.
Qed.

Lemma ao_serve g r : asafe (th_tag (serve g r)) (th_prog (serve g r)) T (fun _ _ _ => True).
Proof.
  destruct r; unfold serve; cbn [th_tag th_prog].
  - apply ao_post_backtest.
  - apply ao_list.
  - apply ao_get.
  - apply ao_post_cancel.
  - apply ao_tool_cancel.
  - eapply ao_bind; [apply ao_take |]. intros j. apply ao_run_job.
  - by apply ao_calm; [auto with verif |].
Qed.

Lemma ao_initial : Inv empty_agent.
Proof. split; try done; unfold empty_agent; simpl; try (intros; set_solver). Qed.

Lemma ao_reachable g ls s : arun g ls started_agent = Some s -> tsys Inv drawn Guar Rely s.
Proof.
  intros Hr. eapply (tc_sound Inv drawn Guar Rely no_env (serve g) (fun _ => True)); [apply ao_guar_rely | done | | | exact Hr | apply tc_start, ao_initial].
  - intros r _. exists T. split_and!; [auto with verif | done | apply ao_serve].
  - apply Forall_forall. by intros [| |].
Qed.

(** C33: what the agent reports of a backtest, in every interleaving of
    requests, jobs and failures of the database, from an empty agent on.  A
    user has at most one backtest that is queued or running.  A backtest is reported succeeded only
    when its strategy ran to its end without an error and its context had not
    ended by then, with the fills that strategy recorded, their number, and
    their summary.  It is reported cancelled only when its owner asked.  (A
    cancellation marks the row first and ends the context after: one that
    comes when the strategy has ended, or between the two, may still be
    overwritten by the success.) *)
Theorem agent_backtest_outcome g ls s id b : arun g ls started_agent = Some s -> ag_rows (shared s) !! id = Some b ->
  one_active (ag_rows (shared s)) /\
  (b_Status b = StatusSucceeded -> exists st, succeeded (shared s) id b st) /\
  (b_Status b = StatusCancelled -> (id, b_UserID b) ∈ ag_cancels (shared s)).
Proof.
  intros Hr Hb. pose proof (ts_inv _ _ _ _ _ (ao_reachable g ls s Hr)) as Is. split_and!; [apply Is | by apply Is | by apply Is].
Qed.

(** C34: users are kept apart: whatever has been asked, a user has been shown
    only backtests that are theirs, and a step of a request changes no
    backtest of another user. *)
Theorem agent_requests_isolated g ls s n c s' user prog : arun g ls started_agent = Some s ->
  threads s !! n = Some (MkThread (Some user) prog) -> sys_step no_env (serve g) (LThread n c) s = Some s' ->
  Forall (fun p => reply_own p.1 p.2) (ag_replies (shared s')) /\
  forall id b, ag_rows (shared s) !! id = Some b -> b_UserID b <> user -> ag_rows (shared s') !! id = Some b.
Proof.
  intros Hr Hn Hs. pose proof (ao_reachable g ls s Hr) as Hsafe. split.
  - assert (arun g (ls ++ [LThread n c]) started_agent = Some s') as Hr'.
    { unfold arun in *. by rewrite cc_run_app, Hr; cbn [sys_run]; rewrite Hs. }
    apply (ts_inv _ _ _ _ _ (ao_reachable _ _ _ Hr')).
  - intros id b Hb Hne. destruct (tc_guarantee _ _ _ _ _ _ _ _ _ _ _ _ Hsafe Hn Hs) as [E|(x & x' & HG)]; [by rewrite E |].
    by apply (gu_foreign _ _ _ _ _ HG user).
Qed.
End Outcomes.

(** ** A small agent, for concrete runs *)

Module AgentRuns.
Import BitText AgentDemo.

#[export] Instance demo_column : FillColumn := { numeric_20_8 := Some }.

Definition all_wired : Wiring := MkWiring true true true true.
Definition demo_request : Request := MkRequest (demo_at 5) (demo_at 10) "1m" demo_book ∅ 0.
Definition demo_api : Api := MkApi (Ok (Some demo_asset)) (fun _ _ => Ok None).
Definition demo_tables : Tables := MkTables (Ok one_candle) (Ok []) (Ok []).
(** It is given the candle, buys one, and records the fill. *)
Definition demo_acts : list (guestAct (M := bytes)) :=
  [GCall "host_next_event" [0; 16] zero_time (Deliver kindCandle demo_first); GCompute (write_at blank 0 "buy");
   GCall "host_submit_order" [0; 3; 4; 12] zero_time Block; GCall "host_record_fill" [0; 3] zero_time Block].
Definition choice (id : string) : Choice (M := bytes) :=
  MkChoice true zero_time id (fun _ => ""%string) 10 demo_tables demo_api (fun _ => true) (Ok tt) (Ran blank demo_acts) (Found _ tt)
    (Found _ (MkVersion "v" "go-wasm" "ref" "")).

Notation asystem := (system agent (Choice (M := bytes)) (option string)).
Notation alabel := (label (Choice (M := bytes)) Empty_set Req).
Definition steps (n k : nat) (id : string) : list alabel := replicate k (LThread n (choice id)).
Definition demo_trace (ls : list alabel) : option asystem := arun all_wired ls started_agent.
Definition final (ls : list alabel) : asystem := default started_agent (demo_trace ls).
Definition ends (ls : list alabel) : bool := match demo_trace ls with Some _ => true | None => false end.
Definition statuses (ls : list alabel) : list (option Status) := (fun id => b_Status <$> ag_rows (shared (final ls)) !! id) <$> ["b1"; "b2"]%string.
Lemma ao_final ls : ends ls = true -> demo_trace ls = Some (final ls).
Proof. unfold ends, final. by destruct (demo_trace ls). Qed.
Lemma ao_resumes ls l : ends ls = true -> ends (ls ++ [l]) = true -> sys_step no_env (serve all_wired) l (final ls) = Some (final (ls ++ [l])).
Proof.
  intros H1%ao_final H2%ao_final. revert H2. generalize (final (ls ++ [l])). intros s'. revert H1. generalize (final ls).
  intros s. unfold demo_trace, arun. intros H1. rewrite cc_run_app, H1. cbn [sys_run]. destruct (sys_step _ _ _ _); [by intros [= ->] | done].
Qed.

Definition posted (n : nat) (user id : string) : list alabel := LArrive (PostBacktest user "s" (Some demo_request)) :: steps n 6 id.
(** Ann's backtest runs; then Bob posts one and looks at hers. *)
Definition ann_and_bob : list alabel :=
  posted 0 "ann" "b1" ++ [LArrive (JobRuns "b1")] ++ steps 1 10 "" ++ posted 2 "bob" "b2" ++ [LArrive (GetBacktest "bob" "b1")] ++ steps 3 1 "".

(** Ann cancels while her job starts: the row is flipped before the job marks
    it running and the context ends after, so the cancelled backtest stays
    running and keeps Ann from submitting another. *)
Definition cancel_race : list alabel :=
  posted 0 "ann" "b1" ++ [LArrive (JobRuns "b1")] ++ steps 1 2 "" ++ [LArrive (PostCancel "ann" "b1")] ++ steps 2 2 "" ++ steps 1 1 "" ++ steps 2 2 "" ++
  steps 1 5 "".
Definition posts_again : list alabel := LArrive (PostBacktest "ann" "s" (Some demo_request)) :: steps 3 4 "b2".
Example cancelled_stays_running : statuses cancel_race = [Some StatusRunning; None] /\
  ag_jobs (shared (final cancel_race)) = ∅ /\ ag_spawned (shared (final cancel_race)) = ∅ /\
  last (ag_replies (shared (final cancel_race))) = Some ("ann"%string, ReplyNoContent) /\
  ends (cancel_race ++ posts_again) = true /\
  last (ag_replies (shared (final (cancel_race ++ posts_again)))) = Some ("ann"%string, ReplyError 429 "user already has an active backtest").
Proof. split_and!; vm_compute; reflexivity. Qed.

(** Ann cancels when her strategy has ended: the row is cancelled, then the
    success is written over it. *)
Definition late_cancel : list alabel :=
  posted 0 "ann" "b1" ++ [LArrive (JobRuns "b1")] ++ steps 1 7 "" ++ [LArrive (PostCancel "ann" "b1")] ++ steps 2 2 "" ++ steps 1 3 "" ++ steps 2 2 "".
Example cancelled_then_succeeded : statuses late_cancel = [Some StatusSucceeded; None] /\
  ag_cancels (shared (final late_cancel)) = [("b1", "ann")]%string /\ last (ag_replies (shared (final late_cancel))) = Some ("ann"%string, ReplyNoContent).
Proof. split_and!; vm_compute; reflexivity. Qed.
End AgentRuns.

Import BitText AgentDemo AgentRuns.

Lemma ao_row_status (o : option Backtest) st : b_Status <$> o = Some st -> exists b, o = Some b /\ b_Status b = st.
Proof. destruct o as [b|]; [| done]. intros [= <-]. by exists b. Qed.

Lemma agent_backtest_outcome_witness : exists b st, ag_rows (shared (AgentRuns.final ann_and_bob)) !! "b1"%string = Some b /\
  b_Status b = StatusSucceeded /\ succeeded (shared (AgentRuns.final ann_and_bob)) "b1" b st.
Proof.
  assert (AgentRuns.ends ann_and_bob = true) as He by (vm_compute; reflexivity).
  assert (b_Status <$> ag_rows (shared (AgentRuns.final ann_and_bob)) !! "b1"%string = Some StatusSucceeded) as Hs by (vm_compute; reflexivity).
  destruct (ao_row_status _ _ Hs) as (b & Hb & Hst). exists b.
  pose proof (ao_final _ He) as Hr. unfold demo_trace in Hr.
  destruct (agent_backtest_outcome AgentRuns.all_wired ann_and_bob (AgentRuns.final ann_and_bob) "b1" b Hr Hb) as (_ & Hc & _).
  destruct (Hc Hst) as (st & Hsc). exists st. split; [exact Hb |]. split; [exact Hst | exact Hsc].
Defined.

Lemma agent_requests_isolated_witness : exists prog b,
  threads (AgentRuns.final ann_and_bob) !! 3%nat = Some (MkThread (Some "bob"%string) prog) /\
  ag_rows (shared (AgentRuns.final ann_and_bob)) !! "b1"%string = Some b /\
  ag_rows (shared (AgentRuns.final (ann_and_bob ++ [LThread 3 (AgentRuns.choice "")]))) !! "b1"%string = Some b.
Proof.
  assert (AgentRuns.ends ann_and_bob = true) as He by (vm_compute; reflexivity).
  assert (AgentRuns.ends (ann_and_bob ++ [LThread 3 (AgentRuns.choice "")]) = true) as He' by (vm_compute; reflexivity).
  assert (th_tag <$> threads (AgentRuns.final ann_and_bob) !! 3%nat = Some (Some "bob"%string)) as Et by (vm_compute; reflexivity).
  assert (b_UserID <$> ag_rows (shared (AgentRuns.final ann_and_bob)) !! "b1"%string = Some "ann"%string) as Eo by (vm_compute; reflexivity).
  destruct (threads (AgentRuns.final ann_and_bob) !! 3%nat) as [[tg prog]|] eqn:E; [| discriminate Et]. injection Et as ->.
  destruct (ag_rows (shared (AgentRuns.final ann_and_bob)) !! "b1"%string) as [b|] eqn:Eb; [| discriminate Eo]. injection Eo as Eo. exists prog, b.
  pose proof (ao_final _ He) as Hr. unfold demo_trace in Hr. pose proof (ao_resumes _ _ He He') as Hs.
  split; [reflexivity |]. split; [reflexivity |].
  destruct (agent_requests_isolated AgentRuns.all_wired ann_and_bob (AgentRuns.final ann_and_bob) 3 (AgentRuns.choice "")
    (AgentRuns.final (ann_and_bob ++ [LThread 3 (AgentRuns.choice "")])) "bob" prog Hr E Hs) as [_ Hk].
  apply Hk; [exact Eb |]. rewrite Eo. discriminate.
Defined.
